(* ===== verification/_CoqProject ===== *)
-Q . S2P
Prelude.v
SafeMath.v
Uint256.v
Address.v
Storage.v
AccountManager.v
AccountSpec.v
Pool.v
Replay.v
ShardedLock.v
Governance.v
Domains.v
EvmGas.v
World.v
Executor.v
ExecutorSpec.v
ExecutorThms.v
Revm.v
EvmSpec.v
GovernanceSpec.v
StateRoot.v
StateRootSpec.v
Hashes.v
Keys.v
Wire.v
Blocks.v
BlocksSpec.v
TxHash.v
TxValidator.v
TxValidatorSpec.v
ForkChoice.v
ForkChoiceSpec.v
SlashStore.v
Slashing.v
SlashingSpec.v
NodeSpec.v
Floats.v
Selection.v
SelectionSpec.v
ScheduleSpec.v
Staking.v
StakingSpec.v
BlockDB.v
Chain.v
ChainSpec.v
ChainThms.v
Blockchain.v
BlockchainSpec.v
Inflation.v
InflationSpec.v
Rewards.v
RewardsSpec.v
ValidatorManager.v
ValidatorSpec.v
Timing.v
Traversal.v
Messages.v
Proposer.v
ProposerSpec.v
Engine.v
EngineSpec.v
EvidenceFlow.v
EvidenceSpec.v
NodeEngine.v
PeerGuard.v
PeerGuardSpec.v
PeerNet.v
PeerNetSpec.v
RateLimit.v
Sync.v
SyncSpec.v
SyncChain.v
Lifecycle.v
LifecycleSpec.v
