(* ===== verification/Prelude.v ===== *)
(** * Thrylos: a verification development of the go-thrylos node

    go-thrylos is a sharded proof-of-stake blockchain node.  A submitted
    transaction is validated (core/transaction/validator.go, with the replay
    detector of replay.go), held in a pool (pool.go), selected by a block
    proposer and applied by the executor (executor.go) to accounts
    (core/account/account.go) of the world state (core/state/), which are
    written through to a key-value store (storage/).  Blocks (core/block/)
    commit to their transactions and to the predicted state root
    (core/state/simulation.go).  Validators attest to blocks: the fork choice
    (consensus/pos/fork_choice.go, finality.go) counts their stake, the slashing
    manager (slashing_manager.go) punishes offences, and governance
    (consensus/governance/) changes parameters by stake-weighted votes.  Amounts
    are unsigned 256-bit integers carried as bytes (core/math/), accounts are
    named by Ethereum-style addresses (crypto/address/).

    ** Files

    Foundations:
    - [Prelude] (this file): the outcomes of a Go call ([outcome]: value, error,
      panic, endless wait), the state-passing monad [GoM] whose state survives
      an error as Go's does, invariants of calls ([preserves]), machine integers
      with their wrap-around ([u64], [i64], [u32]), sums over maps, the shared
      tactics [zbool], [case_if], [zcases] and the hint databases [gomath] and
      [preserves].
    - [SafeMath]: core/math/safemath.go, complete.  The class [CheckedOp] states
      what an overflow-checked operation promises; replay protection is proved
      against it.
    - [Uint256]: core/math/uint256.go and core/math/big_utils.go.
    - [Address]: crypto/address/address.go: parsing, EIP-55 checksums, RLP
      preimages of contract addresses, JSON and text forms.
    - [Hashes], [Keys]: crypto/hash/hash.go and the keys, signatures and wallet
      formats of crypto/; the curve is the class [Secp256k1] with [Secp256k1Laws].
    - [Wire]: byte encodings shared by the hashed messages.

    Accounts and state:
    - [Storage]: the records of proto/core/account.pb.go, storage/uint256_compat.go
      and storage/state.go over a key-value map whose accesses may fail.
      The class [AccountDB] with [AccountDBLaws] is what the account manager
      relies on; [MapOrder] is Go's unspecified map iteration order.
    - [AccountManager], [AccountSpec]: core/account/account.go over a heap of
      shared account objects, an LRU cache (classes [LRU], [LRULaws], with a list
      instance) and the database; the abstract ledger and the refinement.
    - [ShardedLock]: core/state/sharded_lock.go; goroutines as lists of mutex
      calls in any interleaving.
    - [Domains], [World]: the validator registry, stake domains, accounts,
      nonces, atomic transfers and batches of core/state/.
    - [StateRoot], [StateRootSpec]: the committed root of worldstate.go and the
      predicted root of simulation.go.

    Transactions:
    - [Pool]: core/transaction/pool.go, complete, as a state machine.
    - [Replay]: core/transaction/replay.go; the detector's check as three atomic
      steps interleaved with others.
    - [TxHash], [TxValidator], [TxValidatorSpec]: hashes to sign and
      core/transaction/validator.go.
    - [Executor], [ExecutorSpec], [ExecutorThms]: core/transaction/executor.go,
      its refinement of the ledger and the theorems on runs.
    - [EvmGas], [Revm], [EvmSpec]: core/evm/revm_executor.go around the foreign
      engine, which is a parameter.
    - [Blocks], [BlocksSpec]: core/block/.

    Consensus:
    - [Governance], [GovernanceSpec]: consensus/governance/manager.go over the
      interface [StateStore] with [StoreLaws].
    - [ForkChoice], [ForkChoiceSpec]: consensus/pos/fork_choice.go, finality.go
      and fork_choice_security.go.  [Slasher] with [SlasherLaws] is what the fork
      choice relies on in the slashing manager.
    - [SlashStore], [Slashing], [SlashingSpec]: types/consensus.go,
      storage/slashing.go and consensus/pos/slashing_manager.go,
      slashing_security.go, slashing_evidence.go.  [WorldStateBalancer] with
      [BalancerLaws] is what the manager relies on in the world state.
    - [NodeSpec]: the world state discharges [BalancerLaws], the slashing manager
      discharges [SlasherLaws], and the fork choice theorem holds of the whole.
    - [Floats], [Selection], [SelectionSpec], [ScheduleSpec]: Go's float64 and
      big.Float as exact dyadic numbers, and consensus/validator/selection.go.

    Staking and chain:
    - [Staking], [StakingSpec]: the staking manager and the unbonding queue of
      worldstate.go.
    - [BlockDB]: storage/db.go.
    - [Chain], [ChainSpec], [ChainThms]: adding blocks, own or from peers, in
      worldstate.go: execution, state root, storage.  [represents] relates a node
      to the list of its blocks, [holds] to its accounts.
    - [Blockchain], [BlockchainSpec]: core/chain/blockchain.go on top of it.

    Rewards and validators:
    - [Inflation], [InflationSpec], [Rewards], [RewardsSpec]: consensus/rewards/.
    - [ValidatorManager], [ValidatorSpec], [Lifecycle], [LifecycleSpec]:
      consensus/validator/validator.go and lifecycle.go.

    The consensus engine:
    - [Timing], [Traversal], [Messages]: timestamp_validation.go, timesync.go,
      consensus_chain_traversal.go, consensus_signature.go and vrf.go of
      consensus/pos/.
    - [Proposer], [ProposerSpec]: proposer.go.
    - [Engine], [EngineSpec]: consensus.go and bridge.go with their goroutines, over
      the interface [EnginePorts]; [NodeEngine] realises the interface with the
      other components.
    - [EvidenceFlow], [EvidenceSpec]: slashing_broadcast.go.

    Network and interface:
    - [PeerGuard], [PeerGuardSpec]: network/p2p/validation.go.
    - [PeerNet], [PeerNetSpec]: gossip, stream handlers and the node's message bus.
    - [Sync], [SyncSpec]: sync/sync.go and synchronizer.go over the interface
      [SyncPorts]; [SyncChain] composes them with the blockchain of one node and the
      handlers of another.
    - [RateLimit]: api/ratelimit.go as locked parts that interleave.


    Definitions keep the names of the Go functions; a method is a function of its
    receiver's record, and a helper that is only part of a Go function is named
    after what that part does.  Clock readings, iteration orders, database
    failures, Keccak-256, SHA-256, JSON and the answers of other components are
    arguments or classes.

    ** What is proved

    - Accounts and execution: any sequence of calls on a healthy database behaves
      as an abstract ledger ([account_manager_refines_ledger]), and so does any
      run of balance, stake and delegation transactions that the ledger does not mark
      as corrupting ([executor_refines_ledger]); the supply drops by exactly the gas
      ([account_supply_conserved], [executor_supply]); a transaction that passes
      validation executes ([validated_transaction_executes]); execution always
      returns with all locks free ([executor_releases_locks]).
    - State root: predicted and committed roots agree on the transaction types
      for which they do, except where the encoding version changes
      ([simulated_root_is_committed_root]).
    - Validation, replay, pool: no transaction or nonce is accepted twice, the
      signed message binds every field (for names of equal lengths), the pool's invariant, insertion and
      selection.
    - Blocks and keys: a block hash commits to header and transactions (for equal
      shapes), created blocks are valid when clock, parent and gas allow, signatures
      verify under their key only.
    - Governance: life cycle of proposals that are not submitted again, and exact outcome of a vote.
    - EVM: what a call charges, gas limits.
    - Fork choice: at most one block per epoch reaches two thirds of the stake, for
      the node as composed, while the validators stay the same and attestations name
      the epoch of their block ([node_one_quorum_per_epoch]); the head is the
      heaviest leaf and is found ([head_is_heaviest_leaf]); what [checkJustification]
      does; reorganisations; persistence of checkpoints.
    - Slashing: no evidence is used twice ([offences_punished_once]); what a
      penalty does; three reporters.
    - Validator selection: epoch schedules are proportional to stake
      ([epoch_schedule_proportional]), the same on all nodes
      ([epoch_schedule_agreement]); what the cooldown does.
    - Staking: the two books of delegations agree and no money is made or lost
      ([staking_books_balance]); the unbonding queue pays each entry once;
      delegating and undelegating is a round trip.
    - Chain: the stored chain only grows and stays linked ([chain_only_grows]); a
      block leaves exactly the accounts of the ledger and the root of those
      ([block_commits_the_ledger]); and where it does not
      ([refused_block_is_not_undone], [root_mismatch_forgets_the_chain],
      [added_block_fails_its_hash]).
    - Blockchain facade: a height that is taken stays taken
      ([known_height_is_settled]); a reorganisation only extends the chain.
    - Rewards: an epoch's pool is what the rates say and is split exactly
      ([epoch_pool_split_exactly]); what is reported is what is booked
      ([epoch_rewards_are_booked]).
    - Validators: slashing spreads its amount over own and delegated stake exactly
      ([slashing_keeps_the_books]); activation is earned; registrations are rationed.
    - Engine: at most one attestation per epoch in any interleaving
      ([attested_once_per_epoch]); own messages verify under their key only
      ([own_messages_verify]); nearest common ancestors; and where it waits for itself
      ([proposal_handler_never_adds]) or takes over a key ([announcement_takes_over]).
    - Network: how much gossip reaches the node ([gossip_runs_dry]); what a range
      request gets; when synchronising ends with a copy of a peer's chain
      ([sync_copies_a_peer]) and when it never returns.
    - Rate limits: what violations lead to in any interleaving ([violations_decide]).

    - Storage, encodings, arithmetic, locks: round trips, exact acceptance, no
      silent wrap-around, no deadlock and mutual exclusion of the sharded lock.

    Other theorems exhibit inputs on which the code panics, waits for itself,
    loses or creates amounts or refuses what its comments promise.

    ** Bounds and fuel

    Most recursion is structural.  Loops that are not take fuel:
    [GetAddressNonceGap] one round per candidate nonce plus one
    ([nonce_queries_correct]; [nonce_queries_fail_at_zero]: no fuel is enough at
    nonce 0); the Merkle loops the number of leaves, each level being shorter;
    [head_loop] the number of blocks with children plus one
    ([head_is_heaviest_leaf]: enough for any tree, and on a cycle the code does
    not return either); [isDescendant] the 100 rounds of the code.  Positional
    notation ([Uint256]) recurses on as many digits as the value has bits, which
    is always enough.  [sync_loop] takes at most one
    round per missing block ([sync_copies_a_peer]; with empty answers no fuel is
    enough).  Integers keep their Go widths; [int] is not bounded where
    it only counts elements in memory.

    ** What is not modelled, and the plan

    Strings that are lower-cased or trimmed are ASCII.  Logging, metrics views,
    statistics in floating point, network transport, HTTP and timers are left
    out; a goroutine that runs on a timer is a call that may happen at any time.
    Foreign code (Badger, go-ethereum, libp2p, the EVM) is a parameter with named
    laws.  Not modelled: the HTTP and JSON-RPC interface but for its rate limits,
    state snapshots (state_sync.go), cross-shard transfers, genesis, and the wiring of
    the process. *)

From stdpp Require Import base tactics numbers list gmap strings.
From Stdlib Require Import ZArith Lia.

#[export] Set Default Goal Selector "!".
Open Scope Z_scope.

(** ** Outcomes of a Go call

    A call returns a value, returns an error, panics (nil-map write, index out
    of range, explicit [panic]) or blocks forever (locking a mutex the same
    goroutine already holds). *)

Inductive outcome (E A : Type) : Type :=
| Ok (a : A)
| Err (e : E)
| Panic
| Hang.
Arguments Ok {E A} a.
Arguments Err {E A} e.
Arguments Panic {E A}.
Arguments Hang {E A}.

#[global] Instance outcome_ret {E} : MRet (outcome E) := fun A a => Ok a.
#[global] Instance outcome_bind {E} : MBind (outcome E) := fun A B f m =>
  match m with
  | Ok a => f a
  | Err e => Err e
  | Panic => Panic
  | Hang => Hang
  end.

(** [fmt.Errorf("...: %w", err)]: the error is wrapped, the rest is kept. *)
Definition wrap {E E' A} (f : E -> E') (m : outcome E A) : outcome E' A :=
  match m with
  | Ok a => Ok a
  | Err e => Err (f e)
  | Panic => Panic
  | Hang => Hang
  end.

Definition is_ok {E A} (m : outcome E A) : bool :=
  match m with Ok _ => true | _ => false end.

Definition is_err {E A} (m : outcome E A) : bool :=
  match m with Err _ => true | _ => false end.

(** ** State passing

    Go does not undo the writes of a call that fails, so the state comes back
    on every branch, whatever the outcome. *)

Definition GoM (S E A : Type) : Type := S -> outcome E A * S.

#[global] Instance GoM_ret {S E} : MRet (GoM S E) := fun A a s => (Ok a, s).
#[global] Instance GoM_bind {S E} : MBind (GoM S E) := fun A B f m s =>
  match m s with
  | (Ok a, s') => f a s'
  | (Err e, s') => (Err e, s')
  | (Panic, s') => (Panic, s')
  | (Hang, s') => (Hang, s')
  end.

Definition throw {S E A} (e : E) : GoM S E A := fun s => (Err e, s).
Definition panic {S E A} : GoM S E A := fun s => (Panic, s).
Definition get {S E} : GoM S E S := fun s => (Ok s, s).
Definition put {S E} (s : S) : GoM S E unit := fun _ => (Ok tt, s).
Definition modify {S E} (f : S -> S) : GoM S E unit := fun s => (Ok tt, f s).
Definition lift {S E A} (m : outcome E A) : GoM S E A := fun s => (m, s).
Definition wrapM {S E E' A} (f : E -> E') (m : GoM S E A) : GoM S E' A :=
  fun s => let '(r, s') := m s in (wrap f r, s').

(** The early return [if c { return err }]. *)
Definition refuse_if {S E} (c : bool) (e : E) : GoM S E unit :=
  if c then throw e else mret tt.

Section Monad.
Context {S E : Type}.

Lemma GoM_bind_ok {A B} (m : GoM S E A) (f : A -> GoM S E B) s a s' :
  m s = (Ok a, s') -> (m ≫= f) s = f a s'.
Proof. unfold mbind, GoM_bind. by intros ->. Qed.

Lemma GoM_bind_err {A B} (m : GoM S E A) (f : A -> GoM S E B) s e s' :
  m s = (Err e, s') -> (m ≫= f) s = (Err e, s').
Proof. unfold mbind, GoM_bind. by intros ->. Qed.

Lemma GoM_bind_inv_ok {A B} (m : GoM S E A) (f : A -> GoM S E B) s b s'' :
  (m ≫= f) s = (Ok b, s'') ->
  exists a s', m s = (Ok a, s') /\ f a s' = (Ok b, s'').
Proof.
  unfold mbind, GoM_bind. destruct (m s) as [[a|e| |] s'] eqn:H; naive_solver.
Qed.

Lemma outcome_bind_inv_ok {A B} (m : outcome E A) (f : A -> outcome E B) b :
  (m ≫= f) = Ok b -> exists a, m = Ok a /\ f a = Ok b.
Proof. destruct m; naive_solver. Qed.

Lemma refuse_if_ok (c : bool) (e : E) (s : S) u s' :
  refuse_if c e s = (Ok u, s') -> c = false /\ s' = s.
Proof. destruct c; unfold refuse_if, throw, mret, GoM_ret; naive_solver. Qed.
End Monad.

(** ** Machine integers

    A [uint64], [int64] or [uint32] value is a [Z] in range; the arithmetic of
    the code is the integer arithmetic followed by the wrap-around. *)

Definition MaxUint64 : Z := 18446744073709551615.
Definition MaxInt64 : Z := 9223372036854775807.
Definition MinInt64 : Z := -9223372036854775808.
Definition two64 : Z := 18446744073709551616.
Definition two63 : Z := 9223372036854775808.
Definition two32 : Z := 4294967296.

Definition u64 (z : Z) : Z := z mod two64.
Definition u32 (z : Z) : Z := z mod two32.
Definition i64 (z : Z) : Z := (z + two63) mod two64 - two63.

Definition is_u64 (z : Z) : Prop := 0 <= z <= MaxUint64.
Definition is_i64 (z : Z) : Prop := MinInt64 <= z <= MaxInt64.

#[global] Instance is_u64_dec z : Decision (is_u64 z).
Proof. unfold is_u64. apply _. Defined.
#[global] Instance is_i64_dec z : Decision (is_i64 z).
Proof. unfold is_i64. apply _. Defined.

Create HintDb gomath.

Ltac unfold_ints :=
  unfold is_u64, is_i64, MaxUint64, MaxInt64, MinInt64, two64, two63, two32 in *.

(** Reflect the boolean comparisons of the code, then close with [lia]. *)
Ltac zbool :=
  repeat match goal with
  | H : (_ && _)%bool = true |- _ => apply andb_true_iff in H; destruct H
  | H : (_ || _)%bool = false |- _ => apply orb_false_iff in H; destruct H
  | H : negb _ = true |- _ => apply negb_true_iff in H
  | H : negb _ = false |- _ => apply negb_false_iff in H
  | H : (_ =? _) = true |- _ => apply Z.eqb_eq in H
  | H : (_ =? _) = false |- _ => apply Z.eqb_neq in H
  | H : (_ <? _) = true |- _ => apply Z.ltb_lt in H
  | H : (_ <? _) = false |- _ => apply Z.ltb_ge in H
  | H : (_ <=? _) = true |- _ => apply Z.leb_le in H
  | H : (_ <=? _) = false |- _ => apply Z.leb_gt in H
  end.

(** Case on the innermost test of the goal or of a hypothesis. *)
Ltac case_if :=
  match goal with
  | |- context [if ?c then _ else _] =>
      lazymatch c with context [if _ then _ else _] => fail | _ => destruct c eqn:? end
  | _ : context [if ?c then _ else _] |- _ =>
      lazymatch c with context [if _ then _ else _] => fail | _ => destruct c eqn:? end
  end.

Ltac zcases := repeat case_if; zbool; unfold_ints; try lia.

Lemma u64_id z : is_u64 z -> u64 z = z.
Proof. intros. unfold u64. unfold_ints. apply Z.mod_small. lia. Qed.

Lemma u64_range z : is_u64 (u64 z).
Proof.
  unfold u64, is_u64. pose proof (Z.mod_pos_bound z two64). unfold_ints. lia.
Qed.

Lemma i64_id z : is_i64 z -> i64 z = z.
Proof. intros. unfold i64. unfold_ints. rewrite Z.mod_small; lia. Qed.

Lemma i64_range z : is_i64 (i64 z).
Proof.
  unfold i64, is_i64. pose proof (Z.mod_pos_bound (z + two63) two64). unfold_ints. lia.
Qed.

Lemma u64_div_eq z : z = two64 * (z / two64) + u64 z.
Proof. apply Z.div_mod. by unfold_ints. Qed.

Lemma i64_div_eq z : exists k, z = two64 * k + i64 z.
Proof.
  exists ((z + two63) / two64). unfold i64.
  pose proof (Z.div_mod (z + two63) two64). unfold_ints. lia.
Qed.

#[export] Hint Resolve u64_range i64_range : gomath.
#[export] Hint Rewrite u64_id i64_id using (unfold_ints; lia) : gomath.

(** [big.Int.Div] is Euclidean division: the remainder is never negative. *)
Definition big_div (a b : Z) : Z := Z.sgn b * (a / Z.abs b).

Lemma big_div_euclid a b :
  b <> 0 -> exists r, a = big_div a b * b + r /\ 0 <= r < Z.abs b.
Proof.
  intros Hb. exists (a mod Z.abs b). unfold big_div.
  pose proof (Z.mod_pos_bound a (Z.abs b)).
  pose proof (Z.div_mod a (Z.abs b)).
  split; [|lia]. rewrite <-Z.mul_assoc, (Z.mul_comm (a / _) b), Z.mul_assoc.
  replace (Z.sgn b * b) with (Z.abs b) by lia. lia.
Qed.

Lemma big_div_pos a b : 0 < b -> big_div a b = a / b.
Proof. intros. unfold big_div. rewrite Z.sgn_pos, Z.abs_eq by lia. lia. Qed.

(** [time.Unix]: clock readings are in nanoseconds. *)
Definition Unix (now : Z) : Z := now / 1000000000.

(** ** Sums over finite maps *)

Definition map_sum {K V} `{Countable K} (f : V -> Z) (m : gmap K V) : Z :=
  map_fold (fun _ v acc => f v + acc) 0 m.

Section MapSum.
Context {K V : Type} `{Countable K} (f : V -> Z).

Lemma map_sum_empty : map_sum f (∅ : gmap K V) = 0.
Proof. apply map_fold_empty. Qed.

Lemma map_sum_insert_None (m : gmap K V) k v :
  m !! k = None -> map_sum f (<[k:=v]> m) = f v + map_sum f m.
Proof.
  intros. unfold map_sum. rewrite map_fold_insert_L; [done| |done].
  intros. lia.
Qed.

Lemma map_sum_delete (m : gmap K V) k v :
  m !! k = Some v -> map_sum f m = f v + map_sum f (delete k m).
Proof.
  intros Hk. rewrite <-(insert_id m k v) at 1 by done.
  rewrite <-insert_delete_eq, map_sum_insert_None; [done|apply lookup_delete_eq].
Qed.

Lemma map_sum_insert_Some (m : gmap K V) k v v' :
  m !! k = Some v -> map_sum f (<[k:=v']> m) = map_sum f m - f v + f v'.
Proof.
  intros Hk. rewrite <-insert_delete_eq, map_sum_insert_None by apply lookup_delete_eq.
  rewrite (map_sum_delete m k v) by done. lia.
Qed.

Lemma map_sum_nonneg (m : gmap K V) :
  (forall k v, m !! k = Some v -> 0 <= f v) -> 0 <= map_sum f m.
Proof.
  induction m as [|k v m Hk IH] using map_ind; intros Hf.
  - by rewrite map_sum_empty.
  - rewrite map_sum_insert_None by done.
    assert (0 <= f v) by (apply (Hf k); apply lookup_insert_eq).
    assert (0 <= map_sum f m); [|lia].
    apply IH. intros j w Hj. apply (Hf j).
    rewrite lookup_insert_ne; [done|]. intros ->. congruence.
Qed.

Lemma map_sum_lookup_le (m : gmap K V) k v :
  (forall k v, m !! k = Some v -> 0 <= f v) ->
  m !! k = Some v -> f v <= map_sum f m.
Proof.
  intros Hf Hk. rewrite (map_sum_delete m k v) by done.
  assert (0 <= map_sum f (delete k m)); [|lia].
  apply map_sum_nonneg. intros j w [_ Hj]%lookup_delete_Some. eauto.
Qed.
End MapSum.

(** ** Invariants of state passing

    A call keeps a property of the state whatever its outcome. *)

Definition preserves {S E A} (P : S -> Prop) (m : GoM S E A) : Prop := forall s, P s -> P (snd (m s)).

Section Preserves.
Context {S E : Type} (P : S -> Prop).

Lemma preserves_ret {A} (a : A) : preserves P (mret a : GoM S E A).
Proof. by intros s. Qed.
Lemma preserves_throw {A} (e : E) : preserves P (throw e : GoM S E A).
Proof. by intros s. Qed.
Lemma preserves_panic {A} : preserves P (panic : GoM S E A).
Proof. by intros s. Qed.
Lemma preserves_get : preserves P (get : GoM S E S).
Proof. by intros s. Qed.
Lemma preserves_lift {A} (m : outcome E A) : preserves P (lift m : GoM S E A).
Proof. by intros s. Qed.
Lemma preserves_modify f : (forall s, P s -> P (f s)) -> preserves P (modify f : GoM S E unit).
Proof. intros Hf s Hs. simpl. auto. Qed.
Lemma preserves_refuse_if c (e : E) : preserves P (refuse_if c e : GoM S E unit).
Proof. unfold refuse_if. by destruct c; intros s. Qed.
Lemma preserves_bind {A B} (m : GoM S E A) (f : A -> GoM S E B) :
  preserves P m -> (forall a, preserves P (f a)) -> preserves P (m ≫= f).
Proof.
  intros Hm Hf s Hs. specialize (Hm s Hs). unfold mbind, GoM_bind.
  destruct (m s) as [[a|e| |] s']; simpl in *; [by apply Hf|done..].
Qed.
End Preserves.

Create HintDb preserves.
#[export] Hint Resolve preserves_ret preserves_throw preserves_panic preserves_get preserves_lift preserves_refuse_if : preserves.
#[export] Hint Resolve preserves_modify preserves_bind : preserves.

(** A pair is known from its first half: the second is a projection of it. *)
Lemma pair_of_fst {A B} (x : A * B) a : fst x = a -> x = (a, snd x).
Proof. by destruct x as [b c]; intros <-. Defined.
