(* ===== verification/SafeMath.v ===== *)
(** * Checked arithmetic (src/core/math/safemath.go)

    Every function of the file over its [uint64], [int64] and [*big.Int]
    operands.  The overflow tests are the code's own, run on wrapped values; the
    theorems show that each operation returns the mathematical result exactly
    when it fits the type and an error otherwise.  [CheckedOp] is what the file
    promises to its clients (replay protection). *)

From S2P Require Import Prelude.
From stdpp Require Import base tactics numbers list strings.
From Stdlib Require Import ZArith Lia.
Open Scope Z_scope.

(** ** Errors *)

Inductive math_err : Type :=
| OverflowError (Operation : string) (A B : option Z)
| UnderflowError (Operation : string) (A B : option Z)
| DivisionByZero
| ModuloByZero
| InvalidPercentage (percent : Z)
| AmountNil
| OverflowAtPosition (i : Z) (e : math_err)
| MultiplicationOverflow (e : math_err)
| AdditionOverflow (e : math_err)
| OverflowAtExponent (i : Z) (e : math_err)
| PercentageOverflow (e : math_err)
| PercentageDivision (e : math_err)
| GasLimitExceedsMax
| GasLimitZero
| NegativeAmount (amount : Z)
| InsufficientBalance (balance amount : Z).

Definition res := outcome math_err Z.

(** ** uint64 *)

Definition Add64 (a b : Z) : res :=
  if u64 (MaxUint64 - b) <? a then Err (OverflowError "Add64" (Some a) (Some b))
  else Ok (u64 (a + b)).

Definition Add64Safe (a b : Z) : res := Add64 a b.

Definition Mul64 (a b : Z) : res :=
  if (a =? 0) || (b =? 0) then Ok 0
  else
    let result := u64 (a * b) in
    if negb (result / b =? a) then Err (OverflowError "Mul64" (Some a) (Some b))
    else Ok result.

Definition Mul64Safe (a b : Z) : res := Mul64 a b.

Definition Sub64 (a b : Z) : res :=
  if a <? b then Err (UnderflowError "Sub64" (Some a) (Some b))
  else Ok (u64 (a - b)).

Definition Sub64Safe (a b : Z) : res := Sub64 a b.

Definition Div64 (a b : Z) : res :=
  if b =? 0 then Err DivisionByZero else Ok (a / b).

Definition Div64Safe (a b : Z) : res := Div64 a b.

Definition Mod64 (a b : Z) : res :=
  if b =? 0 then Err ModuloByZero else Ok (a mod b).

Fixpoint AddMany64_loop (i : Z) (result : Z) (values : list Z) : res :=
  match values with
  | [] => Ok result
  | v :: values' =>
      newResult ← wrap (OverflowAtPosition i) (Add64 result v);
      AddMany64_loop (i + 1) newResult values'
  end.

Definition AddMany64 (values : list Z) : res :=
  match values with
  | [] => Ok 0
  | v0 :: values' => AddMany64_loop 1 v0 values'
  end.

Definition MulAdd64 (a b c : Z) : res :=
  product ← wrap MultiplicationOverflow (Mul64 a b);
  wrap AdditionOverflow (Add64 product c).

Definition MulDiv64 (a b c : Z) : res :=
  if c =? 0 then Err DivisionByZero
  else
    let result := big_div (a * b) c in
    if negb ((0 <=? result) && (result <=? MaxUint64))
    then Err (OverflowError "MulDiv64" (Some a) (Some b))
    else Ok result.

(** The loop runs [exp - i] more times, and [exp <= 63] when it is reached. *)
Fixpoint Pow64_loop (n : nat) (i result base : Z) : res :=
  match n with
  | O => Ok result
  | S n' =>
      newResult ← wrap (OverflowAtExponent (i + 1)) (Mul64 result base);
      Pow64_loop n' (i + 1) newResult base
  end.

Definition Pow64 (base exp : Z) : res :=
  if exp =? 0 then Ok 1
  else if base =? 0 then Ok 0
  else if base =? 1 then Ok 1
  else if (1 <? base) && (63 <? exp)
  then Err (OverflowError "Pow64" (Some base) (Some exp))
  else Pow64_loop (Z.to_nat exp) 0 1 base.

(** ** Saturating and panicking forms *)

Definition Add64Saturating (a b : Z) : Z :=
  match Add64 a b with Ok r => r | _ => MaxUint64 end.

Definition Mul64Saturating (a b : Z) : Z :=
  match Mul64 a b with Ok r => r | _ => MaxUint64 end.

Definition Sub64Saturating (a b : Z) : Z :=
  if a <? b then 0 else u64 (a - b).

Definition must (r : res) : res :=
  match r with Ok v => Ok v | _ => Panic end.

Definition MustAdd64 (a b : Z) : res := must (Add64 a b).
Definition MustMul64 (a b : Z) : res := must (Mul64 a b).
Definition MustSub64 (a b : Z) : res := must (Sub64 a b).

(** ** int64: Go's [/] and [%] truncate toward zero *)

Definition SafeAdd (a b : Z) : res :=
  if (0 <? a) && (0 <? b) && (i64 (MaxInt64 - b) <? a)
  then Err (OverflowError "SafeAdd" (Some a) (Some b))
  else if (a <? 0) && (b <? 0) && (a <? i64 (MinInt64 - b))
  then Err (UnderflowError "SafeAdd" (Some a) (Some b))
  else Ok (i64 (a + b)).

Definition SafeSub (a b : Z) : res :=
  if (0 <? b) && (a <? i64 (MinInt64 + b))
  then Err (UnderflowError "SafeSub" (Some a) (Some b))
  else if (b <? 0) && (i64 (MaxInt64 + b) <? a)
  then Err (OverflowError "SafeSub" (Some a) (Some b))
  else Ok (i64 (a - b)).

Definition SafeMul (a b : Z) : res :=
  if (a =? 0) || (b =? 0) then Ok 0
  else if a =? 1 then Ok b
  else if b =? 1 then Ok a
  else if (a =? -1) && (b =? MinInt64)
  then Err (OverflowError "SafeMul" (Some a) (Some b))
  else if (b =? -1) && (a =? MinInt64)
  then Err (OverflowError "SafeMul" (Some a) (Some b))
  else
    let result := i64 (a * b) in
    if negb (i64 (Z.quot result b) =? a)
    then Err (OverflowError "SafeMul" (Some a) (Some b))
    else Ok result.

Definition SafeDiv (a b : Z) : res :=
  if b =? 0 then Err DivisionByZero
  else if (a =? MinInt64) && (b =? -1)
  then Err (OverflowError "SafeDiv" (Some a) (Some b))
  else Ok (Z.quot a b).

Definition SafeMod (a b : Z) : res :=
  if b =? 0 then Err ModuloByZero
  else if (a =? MinInt64) && (b =? -1) then Ok 0
  else Ok (Z.rem a b).

Definition SafeAbs (a : Z) : res :=
  if a =? MinInt64 then Err (OverflowError "SafeAbs" (Some a) None)
  else if a <? 0 then Ok (i64 (- a))
  else Ok a.

Definition SafeNeg (a : Z) : res :=
  if a =? MinInt64 then Err (OverflowError "SafeNeg" (Some a) None)
  else Ok (i64 (- a)).

Definition SafePercentage (amount percent : Z) : res :=
  if (percent <? 0) || (100 <? percent) then Err (InvalidPercentage percent)
  else if amount =? 0 then Ok 0
  else
    product ← wrap PercentageOverflow (SafeMul amount percent);
    wrap PercentageDivision (SafeDiv product 100).

Definition MustSafeAdd (a b : Z) : res := must (SafeAdd a b).
Definition MustSafeSub (a b : Z) : res := must (SafeSub a b).
Definition MustSafeMul (a b : Z) : res := must (SafeMul a b).

(** ** [*big.Int]: [None] is the nil pointer *)

Definition SafePercentageBig (amount : option Z) (percent : Z) : res :=
  match amount with
  | None => Err AmountNil
  | Some amount =>
      if (percent <? 0) || (100 <? percent) then Err (InvalidPercentage percent)
      else Ok (big_div (amount * percent) 100)
  end.

Definition AddBig (a b : option Z) : Z :=
  match a, b with
  | None, None => 0
  | None, Some b => b
  | Some a, None => a
  | Some a, Some b => a + b
  end.

Definition SubBig (a b : option Z) : Z := default 0 a - default 0 b.

Definition MulBig (a b : option Z) : Z :=
  match a, b with
  | Some a, Some b => a * b
  | _, _ => 0
  end.

Definition DivBig (a b : option Z) : res :=
  match b with
  | None => Err DivisionByZero
  | Some b =>
      if Z.sgn b =? 0 then Err DivisionByZero
      else match a with None => Ok 0 | Some a => Ok (big_div a b) end
  end.

(** ** Gas and balance helpers, conversions, range tests *)

Definition EstimateTotalGas (gasValues : list Z) : res := AddMany64 gasValues.
Definition CalculateGasCost (gasUsed gasPrice : Z) : res := Mul64 gasUsed gasPrice.
Definition CalculateTotalGasCost (gasUsed gasPrice priorityFee : Z) : res :=
  MulAdd64 gasUsed gasPrice priorityFee.

Definition ValidateGasLimit (gasLimit maxAllowed : Z) : outcome math_err unit :=
  if maxAllowed <? gasLimit then Err GasLimitExceedsMax
  else if gasLimit =? 0 then Err GasLimitZero
  else Ok tt.

Definition CalculateRemainingGas (gasLimit gasUsed : Z) : res := Sub64 gasLimit gasUsed.

Definition SafeBalanceAdd (balance amount : Z) : res :=
  if amount <? 0 then Err (NegativeAmount amount) else SafeAdd balance amount.

Definition SafeBalanceSub (balance amount : Z) : res :=
  if amount <? 0 then Err (NegativeAmount amount)
  else if balance <? amount then Err (InsufficientBalance balance amount)
  else SafeSub balance amount.

Definition Uint64ToInt64 (val : Z) : res :=
  if MaxInt64 <? val then Err (OverflowError "Uint64ToInt64" (Some val) None)
  else Ok (i64 val).

Definition Int64ToUint64 (val : Z) : res :=
  if val <? 0 then Err (UnderflowError "Int64ToUint64" (Some val) None)
  else Ok (u64 val).

Definition IsValidBalance (balance : Z) : bool := (0 <=? balance) && (balance <=? MaxInt64).
Definition IsValidGas (gas : Z) : bool := (0 <? gas) && (gas <=? MaxUint64).
Definition IsValidPercentage (percent : Z) : bool := (0 <=? percent) && (percent <=? 100).

(** ** The promise to the clients: exact, or an error *)

(** [r] is the mathematical value [v] when [v] is in range, an error otherwise. *)
Definition exact_or_error (fits : Z -> Prop) (v : Z) (r : res) : Prop :=
  (fits v /\ r = Ok v) \/ (~ fits v /\ is_err r = true).

Class CheckedOp (fits : Z -> Prop) (spec : Z -> Z -> Z) (op : Z -> Z -> res) : Prop :=
  checked_op a b : fits a -> fits b -> exact_or_error fits (spec a b) (op a b).

Section CheckedOp.
Context {fits : Z -> Prop} {spec : Z -> Z -> Z} {op : Z -> Z -> res}.
Context `{Hop : !CheckedOp fits spec op}.

Lemma checked_op_ok a b r :
  fits a -> fits b -> op a b = Ok r <-> fits (spec a b) /\ r = spec a b.
Proof.
  intros Ha Hb. destruct (checked_op a b Ha Hb) as [[Hf ->]|[Hf He]];
    [naive_solver|]. destruct (op a b); naive_solver.
Qed.

Lemma checked_op_err a b :
  fits a -> fits b -> is_err (op a b) = true <-> ~ fits (spec a b).
Proof.
  intros Ha Hb. destruct (checked_op a b Ha Hb) as [[Hf ->]|[Hf He]]; naive_solver.
Qed.

Lemma checked_op_cases a b :
  fits a -> fits b -> op a b = Ok (spec a b) \/ exists e, op a b = Err e.
Proof.
  intros Ha Hb. destruct (checked_op a b Ha Hb) as [[_ ->]|[_ He]]; [eauto|].
  destruct (op a b); naive_solver.
Qed.
End CheckedOp.

(** A value computed by wrapping is the exact one when it fits. *)
Ltac exact_left := left; split; [unfold_ints; lia|autorewrite with gomath; try done].
Ltac exact_right := right; split; [unfold_ints; lia|done].

#[global] Instance Add64_checked : CheckedOp is_u64 Z.add Add64.
Proof.
  intros a b Ha Hb. unfold Add64. rewrite (u64_id (MaxUint64 - b)) by (unfold_ints; lia).
  destruct (Z.ltb_spec (MaxUint64 - b) a); [exact_right|exact_left].
Qed.

#[global] Instance Sub64_checked : CheckedOp is_u64 Z.sub Sub64.
Proof.
  intros a b Ha Hb. unfold Sub64.
  destruct (Z.ltb_spec a b); [exact_right|exact_left].
Qed.

(** The reversed division detects the wrap-around: a wrapped product is too
    small to divide back to the other factor. *)
Lemma u64_mul_div a b :
  is_u64 a -> is_u64 b -> b <> 0 -> u64 (a * b) / b = a <-> is_u64 (a * b).
Proof.
  intros Ha Hb Hb0. split.
  - intros Hq. pose proof (u64_div_eq (a * b)) as Hw.
    pose proof (u64_range (a * b)) as Hr.
    pose proof (Z.div_mod (u64 (a * b)) b Hb0) as Hdm.
    pose proof (Z.mod_pos_bound (u64 (a * b)) b ltac:(unfold_ints; lia)).
    rewrite Hq in Hdm. unfold_ints. nia.
  - intros Hf. rewrite u64_id by done. by apply Z.div_mul.
Qed.

#[global] Instance Mul64_checked : CheckedOp is_u64 Z.mul Mul64.
Proof.
  intros a b Ha Hb. unfold Mul64.
  destruct (Z.eqb_spec a 0) as [->|]; [exact_left|].
  destruct (Z.eqb_spec b 0) as [->|]; simpl.
  { rewrite Z.mul_0_r. exact_left. }
  pose proof (u64_mul_div a b Ha Hb ltac:(done)) as Hiff.
  destruct (Z.eqb_spec (u64 (a * b) / b) a) as [Hq|Hq]; simpl.
  - left. apply Hiff in Hq. by rewrite u64_id.
  - right. naive_solver.
Qed.

#[global] Instance SafeAdd_checked : CheckedOp is_i64 Z.add SafeAdd.
Proof.
  intros a b Ha Hb. unfold SafeAdd.
  destruct (Z.ltb_spec 0 a), (Z.ltb_spec 0 b), (Z.ltb_spec a 0), (Z.ltb_spec b 0);
    simpl; try (exfalso; lia); try (exact_left; fail).
  - rewrite i64_id by (unfold_ints; lia).
    destruct (Z.ltb_spec (MaxInt64 - b) a); [exact_right|exact_left].
  - rewrite i64_id by (unfold_ints; lia).
    destruct (Z.ltb_spec a (MinInt64 - b)); [exact_right|exact_left].
Qed.

#[global] Instance SafeSub_checked : CheckedOp is_i64 Z.sub SafeSub.
Proof.
  intros a b Ha Hb. unfold SafeSub.
  destruct (Z.ltb_spec 0 b), (Z.ltb_spec b 0);
    simpl; try (exfalso; lia); try (exact_left; fail).
  - rewrite i64_id by (unfold_ints; lia).
    destruct (Z.ltb_spec a (MinInt64 + b)); [exact_right|exact_left].
  - rewrite i64_id by (unfold_ints; lia).
    destruct (Z.ltb_spec (MaxInt64 + b) a); [exact_right|exact_left].
Qed.

(** A truncated quotient stays in range, except [MinInt64 / -1]. *)
Lemma quot_i64 a b :
  is_i64 a -> is_i64 b -> b <> 0 -> b <> -1 -> is_i64 (Z.quot a b).
Proof.
  intros Ha Hb Hb0 Hb1.
  pose proof (Z.quot_rem a b Hb0) as Hqr. pose proof (Z.rem_bound_abs a b Hb0) as Hrem.
  assert (Hq : Z.abs (Z.quot a b) <= Z.abs a).
  { rewrite <-Z.quot_abs by done. apply Z.quot_le_upper_bound; [lia|].
    assert (1 <= Z.abs b) by lia. pose proof (Z.abs_nonneg a). nia. }
  destruct (decide (is_i64 (Z.quot a b))) as [|Hfq]; [done|].
  assert (Z.quot a b = - MinInt64) as Hq1 by (unfold_ints; lia).
  rewrite Hq1 in Hqr. unfold_ints. lia.
Qed.

(** The same test on signed values, where truncated division is used. *)
Lemma i64_mul_quot a b :
  is_i64 a -> is_i64 b -> b <> 0 -> b <> -1 ->
  i64 (Z.quot (i64 (a * b)) b) = a <-> is_i64 (a * b).
Proof.
  intros Ha Hb Hb0 Hb1. rewrite (i64_id (Z.quot _ b)) by auto using quot_i64, i64_range.
  split; [|intros Hf; rewrite (i64_id (a * b)) by done; by apply Z.quot_mul].
  pose proof (i64_range (a * b)) as Hr. destruct (i64_div_eq (a * b)) as [k Hk].
  set (r := i64 (a * b)) in *. intros Hq.
  pose proof (Z.quot_rem r b Hb0) as Hqr. pose proof (Z.rem_bound_abs r b Hb0) as Hrem.
  rewrite Hq in Hqr. assert (k = 0); unfold_ints; nia.
Qed.

#[global] Instance SafeMul_checked : CheckedOp is_i64 Z.mul SafeMul.
Proof.
  intros a b Ha Hb. unfold SafeMul.
  destruct (Z.eqb_spec a 0) as [->|]; [exact_left|].
  destruct (Z.eqb_spec b 0) as [->|]; simpl; [rewrite Z.mul_0_r; exact_left|].
  destruct (Z.eqb_spec a 1) as [->|]; [rewrite Z.mul_1_l; by left|].
  destruct (Z.eqb_spec b 1) as [->|]; [rewrite Z.mul_1_r; by left|].
  destruct (Z.eqb_spec a (-1)) as [->|]; simpl.
  - destruct (Z.eqb_spec b MinInt64) as [->|]; simpl; [exact_right|].
    destruct (Z.eqb_spec b (-1)) as [->|]; [left; by vm_compute|].
    destruct (Z.eqb_spec (i64 (Z.quot (i64 (-1 * b)) b)) (-1)) as [Hq|Hq]; simpl.
    + apply i64_mul_quot in Hq; [|done..]. left. by rewrite i64_id.
    + rewrite i64_mul_quot in Hq by done. by right.
  - destruct (Z.eqb_spec b (-1)) as [->|]; simpl.
    + destruct (Z.eqb_spec a MinInt64) as [->|]; [exact_right|].
      assert (is_i64 (a * -1)) by (unfold_ints; lia).
      rewrite (i64_id (a * -1)) by done. rewrite Z.quot_mul by done.
      rewrite i64_id, Z.eqb_refl by done. by left.
    + destruct (Z.eqb_spec (i64 (Z.quot (i64 (a * b)) b)) a) as [Hq|Hq]; simpl.
      * apply i64_mul_quot in Hq; [|done..]. left. by rewrite i64_id.
      * rewrite i64_mul_quot in Hq by done. by right.
Qed.

(** ** Folds of checked operations *)

Lemma exact_or_error_wrap fits v r f :
  exact_or_error fits v r -> exact_or_error fits v (wrap f r).
Proof. intros [[? ->]|[? ?]]; [by left|right]. split; [done|]. by destruct r. Qed.

Lemma exact_or_error_bind (fits : Z -> Prop) v w r (k : Z -> res) :
  exact_or_error fits v r ->
  (fits v -> exact_or_error fits w (k v)) ->
  (~ fits v -> ~ fits w) ->
  exact_or_error fits w (r ≫= k).
Proof.
  intros [[Hv ->]|[Hv He]] Hk Hn; [by apply Hk|].
  right. split; [auto|]. by destruct r.
Qed.

Definition sum_list_Z (l : list Z) : Z := foldr Z.add 0 l.

Lemma sum_list_Z_nonneg l : Forall is_u64 l -> 0 <= sum_list_Z l.
Proof. induction 1 as [|x l Hx _ IH]; simpl; unfold_ints; lia. Qed.

Lemma AddMany64_loop_exact l : forall i acc,
  is_u64 acc -> Forall is_u64 l ->
  exact_or_error is_u64 (acc + sum_list_Z l) (AddMany64_loop i acc l).
Proof.
  induction l as [|v l IH]; intros i acc Hacc Hl; simpl.
  - left. rewrite Z.add_0_r. done.
  - apply Forall_cons in Hl as [Hv Hl]. pose proof (sum_list_Z_nonneg l Hl).
    eapply exact_or_error_bind.
    + apply exact_or_error_wrap, (checked_op (op := Add64)); done.
    + intros. rewrite Z.add_assoc. by apply IH.
    + unfold_ints. lia.
Qed.

Lemma AddMany64_exact l :
  Forall is_u64 l -> exact_or_error is_u64 (sum_list_Z l) (AddMany64 l).
Proof.
  destruct l as [|v l]; simpl; [left; by unfold_ints|].
  intros [? ?]%Forall_cons. by apply AddMany64_loop_exact.
Qed.

Lemma MulAdd64_exact a b c :
  is_u64 a -> is_u64 b -> is_u64 c ->
  exact_or_error is_u64 (a * b + c) (MulAdd64 a b c).
Proof.
  intros. eapply exact_or_error_bind.
  - apply exact_or_error_wrap, (checked_op (op := Mul64)); done.
  - intros. by apply exact_or_error_wrap, (checked_op (op := Add64)).
  - unfold_ints. nia.
Qed.

(** The product is taken at full width, so only the quotient has to fit. *)
Lemma MulDiv64_exact a b c :
  is_u64 a -> is_u64 b -> is_u64 c ->
  MulDiv64 a b 0 = Err DivisionByZero /\
  (c <> 0 -> exact_or_error is_u64 (a * b / c) (MulDiv64 a b c)).
Proof.
  intros Ha Hb Hc. split; [done|]. intros Hc0. unfold MulDiv64.
  rewrite (proj2 (Z.eqb_neq c 0)) by done. rewrite big_div_pos by (unfold_ints; lia).
  destruct (Z.leb_spec 0 (a * b / c)), (Z.leb_spec (a * b / c) MaxUint64); simpl;
    [left|right..]; unfold_ints; split; try done; lia.
Qed.

Lemma Pow64_loop_exact n : forall i acc base,
  2 <= base <= MaxUint64 -> 1 <= acc <= MaxUint64 ->
  exact_or_error is_u64 (acc * base ^ Z.of_nat n) (Pow64_loop n i acc base).
Proof.
  induction n as [|n IH]; intros i acc base Hb Hacc.
  - left. rewrite Z.mul_1_r. split; [unfold_ints; lia|done].
  - rewrite Nat2Z.inj_succ, Z.pow_succ_r, Z.mul_assoc by lia. simpl.
    pose proof (Z.pow_pos_nonneg base (Z.of_nat n) ltac:(lia) ltac:(lia)).
    eapply exact_or_error_bind.
    + apply exact_or_error_wrap, (checked_op (op := Mul64)); unfold_ints; lia.
    + intros [_ Hfit]. apply IH; [done|]. nia.
    + unfold_ints. nia.
Qed.

Lemma Pow64_exact base exp :
  is_u64 base -> is_u64 exp -> exact_or_error is_u64 (base ^ exp) (Pow64 base exp).
Proof.
  intros Hb He. unfold Pow64.
  destruct (Z.eqb_spec exp 0) as [->|]; [by left|].
  destruct (Z.eqb_spec base 0) as [->|].
  { left. rewrite Z.pow_0_l by (unfold_ints; lia). done. }
  destruct (Z.eqb_spec base 1) as [->|].
  { left. rewrite Z.pow_1_l by (unfold_ints; lia). done. }
  destruct (Z.ltb_spec 1 base), (Z.ltb_spec 63 exp); simpl;
    try (exfalso; unfold_ints; lia).
  - right. split; [|done]. intros [_ Hle].
    assert (2 ^ 64 <= base ^ exp); [|unfold_ints; lia].
    transitivity (base ^ 64); [apply Z.pow_le_mono_l|apply Z.pow_le_mono_r]; lia.
  - pose proof (Pow64_loop_exact (Z.to_nat exp) 0 1 base) as Hl.
    rewrite Z2Nat.id, Z.mul_1_l in Hl by (unfold_ints; lia).
    apply Hl; unfold_ints; lia.
Qed.

Lemma SafeDiv_exact a b :
  is_i64 a -> is_i64 b -> b <> 0 -> exact_or_error is_i64 (Z.quot a b) (SafeDiv a b).
Proof.
  intros Ha Hb Hb0. unfold SafeDiv. rewrite (proj2 (Z.eqb_neq b 0)) by done.
  destruct (Z.eqb_spec b (-1)) as [->|].
  - change (-1) with (- (1)). rewrite Z.quot_opp_r, Z.quot_1_r by done.
    destruct (Z.eqb_spec a MinInt64) as [->|]; [exact_right|].
    left. split; [unfold_ints; lia|done].
  - rewrite andb_false_r. left. split; [by apply quot_i64|done].
Qed.

Lemma SafeMod_exact a b :
  b <> 0 -> SafeMod a b = Ok (Z.rem a b).
Proof.
  intros Hb. unfold SafeMod. rewrite (proj2 (Z.eqb_neq b 0)) by done.
  destruct (Z.eqb_spec a MinInt64) as [->|], (Z.eqb_spec b (-1)) as [->|]; done.
Qed.

(** ** Properties *)

(** The [uint64] operations return the mathematical result when it fits 64
    bits and an error when it does not, never a wrapped value; the saturating
    forms clamp to the range and the panicking forms panic exactly on error. *)
Theorem uint64_ops_exact a b :
  is_u64 a -> is_u64 b ->
  exact_or_error is_u64 (a + b) (Add64 a b) /\
  exact_or_error is_u64 (a - b) (Sub64 a b) /\
  exact_or_error is_u64 (a * b) (Mul64 a b) /\
  Add64Saturating a b = Z.min (a + b) MaxUint64 /\
  Sub64Saturating a b = Z.max (a - b) 0 /\
  Mul64Saturating a b = Z.min (a * b) MaxUint64 /\
  (MustMul64 a b = Panic <-> MaxUint64 < a * b).
Proof.
  intros Ha Hb.
  pose proof (checked_op (op := Add64) a b Ha Hb) as Hadd.
  pose proof (checked_op (op := Sub64) a b Ha Hb) as Hsub.
  pose proof (checked_op (op := Mul64) a b Ha Hb) as Hmul.
  do 3 (split; [done|]). split_and!.
  - unfold Add64Saturating. destruct Hadd as [[? ->]|[? He]]; [unfold_ints; lia|].
    destruct (Add64 a b); try done; unfold_ints; lia.
  - unfold Sub64Saturating. destruct (Z.ltb_spec a b); [lia|].
    rewrite u64_id; unfold_ints; lia.
  - unfold Mul64Saturating. destruct Hmul as [[? ->]|[? He]]; [unfold_ints; lia|].
    destruct (Mul64 a b); try done; unfold_ints; nia.
  - unfold MustMul64, must. destruct Hmul as [[? ->]|[? He]].
    + split; [done|unfold_ints; lia].
    + destruct (Mul64 a b); try done. split; [unfold_ints; nia|done].
Qed.

Lemma uint64_ops_exact_witness :
  exact_or_error is_u64 (MaxUint64 * 2) (Mul64 MaxUint64 2) /\
  Add64Saturating MaxUint64 2 = MaxUint64.
Proof.
  assert (is_u64 MaxUint64) as H1 by (unfold_ints; lia).
  assert (is_u64 2) as H2 by (unfold_ints; lia).
  destruct (uint64_ops_exact MaxUint64 2 H1 H2) as (_ & _ & Hm & Hs & _).
  split; [exact Hm|exact Hs].
Defined.

(** The [int64] operations, with Go's truncated division: exact when the
    result fits, an error otherwise, [MinInt64 / -1], [|MinInt64|] and
    [-MinInt64] included; the balance helpers accept only amounts that leave a
    balance in range. *)
Theorem int64_ops_exact a b :
  is_i64 a -> is_i64 b ->
  exact_or_error is_i64 (a + b) (SafeAdd a b) /\
  exact_or_error is_i64 (a - b) (SafeSub a b) /\
  exact_or_error is_i64 (a * b) (SafeMul a b) /\
  (b <> 0 -> exact_or_error is_i64 (Z.quot a b) (SafeDiv a b)) /\
  (b <> 0 -> SafeMod a b = Ok (Z.rem a b)) /\
  exact_or_error is_i64 (Z.abs a) (SafeAbs a) /\
  exact_or_error is_i64 (- a) (SafeNeg a) /\
  (forall r, SafeBalanceAdd a b = Ok r <-> 0 <= b /\ is_i64 (a + b) /\ r = a + b) /\
  (forall r, SafeBalanceSub a b = Ok r <-> 0 <= b <= a /\ r = a - b).
Proof.
  intros Ha Hb.
  do 3 (split; [by apply checked_op|]).
  split; [by apply SafeDiv_exact|]. split; [by apply SafeMod_exact|]. split_and!.
  - unfold SafeAbs. destruct (Z.eqb_spec a MinInt64) as [->|]; [exact_right|].
    destruct (Z.ltb_spec a 0); left; (split; [unfold_ints; lia|]);
      rewrite ?i64_id by (unfold_ints; lia); f_equal; lia.
  - unfold SafeNeg. destruct (Z.eqb_spec a MinInt64) as [->|]; [exact_right|exact_left].
  - intros r. unfold SafeBalanceAdd. destruct (Z.ltb_spec b 0); [naive_solver lia|].
    rewrite (checked_op_ok (op := SafeAdd)) by done. naive_solver lia.
  - intros r. unfold SafeBalanceSub. destruct (Z.ltb_spec b 0); [naive_solver lia|].
    destruct (Z.ltb_spec a b); [naive_solver lia|].
    rewrite (checked_op_ok (op := SafeSub)) by done. unfold_ints. naive_solver lia.
Qed.

Lemma int64_ops_exact_witness :
  exact_or_error is_i64 (Z.quot MinInt64 (-1)) (SafeDiv MinInt64 (-1)).
Proof.
  assert (is_i64 MinInt64) as H1 by (unfold_ints; lia).
  assert (is_i64 (-1)) as H2 by (unfold_ints; lia).
  destruct (int64_ops_exact MinInt64 (-1) H1 H2) as (_ & _ & _ & Hd & _).
  apply Hd. lia.
Defined.

(** The compound operations are exact in the same sense: the sum of a list,
    [a * b + c], [base ^ exp], and [a * b / c] whose product is taken at full
    width so that only the quotient has to fit. *)
Theorem compound_ops_exact (values : list Z) a b c :
  Forall is_u64 values -> is_u64 a -> is_u64 b -> is_u64 c ->
  exact_or_error is_u64 (sum_list_Z values) (AddMany64 values) /\
  exact_or_error is_u64 (a * b + c) (MulAdd64 a b c) /\
  exact_or_error is_u64 (a ^ b) (Pow64 a b) /\
  (c <> 0 -> exact_or_error is_u64 (a * b / c) (MulDiv64 a b c)).
Proof.
  intros. split_and!;
    auto using AddMany64_exact, MulAdd64_exact, Pow64_exact.
  intros. by apply MulDiv64_exact.
Qed.

Lemma compound_ops_exact_witness :
  exact_or_error is_u64 (3 ^ 40) (Pow64 3 40) /\
  exact_or_error is_u64 (sum_list_Z [MaxUint64; 1]) (AddMany64 [MaxUint64; 1]).
Proof.
  assert (Forall is_u64 [MaxUint64; 1]) as Hl.
  { repeat constructor; unfold_ints; lia. }
  assert (is_u64 3) as H1 by (unfold_ints; lia).
  assert (is_u64 40) as H2 by (unfold_ints; lia).
  destruct (compound_ops_exact [MaxUint64; 1] 3 40 40 Hl H1 H2 H2) as (Hs & _ & Hp & _).
  split; [exact Hp|exact Hs].
Defined.

(** On a valid percentage the [int64] routine fails exactly when the
    intermediate product overflows and otherwise returns the truncated share,
    the [big.Int] routine never fails and returns the floor; they agree on
    every amount the first accepts that is not negative, and the share then
    lies between 0 and the amount. *)
Theorem percentage_routines_agree amount percent :
  is_i64 amount -> IsValidPercentage percent = true ->
  exact_or_error (fun _ => is_i64 (amount * percent))
    (Z.quot (amount * percent) 100) (SafePercentage amount percent) /\
  SafePercentageBig (Some amount) percent = Ok (amount * percent / 100) /\
  (0 <= amount -> is_i64 (amount * percent) ->
   SafePercentage amount percent = SafePercentageBig (Some amount) percent /\
   0 <= amount * percent / 100 <= amount).
Proof.
  unfold IsValidPercentage. intros Ha Hp. zbool.
  assert (Hp' : is_i64 percent) by (unfold_ints; lia).
  assert (Hbig : SafePercentageBig (Some amount) percent = Ok (amount * percent / 100)).
  { unfold SafePercentageBig. rewrite big_div_pos by lia.
    by rewrite (proj2 (Z.ltb_ge percent 0)), (proj2 (Z.ltb_ge 100 percent)) by lia. }
  assert (Hmain : exact_or_error (fun _ => is_i64 (amount * percent))
            (Z.quot (amount * percent) 100) (SafePercentage amount percent)).
  { unfold SafePercentage.
    rewrite (proj2 (Z.ltb_ge percent 0)), (proj2 (Z.ltb_ge 100 percent)) by lia. simpl.
    destruct (Z.eqb_spec amount 0) as [->|]; [by left|].
    destruct (checked_op (op := SafeMul) amount percent Ha Hp') as [[Hf ->]|[Hf He]].
    - left. split; [done|]. simpl. unfold SafeDiv. by rewrite andb_false_r.
    - right. split; [done|]. by destruct (SafeMul amount percent). }
  split_and!; [done..|]. intros Hpos Hf. rewrite Hbig.
  destruct Hmain as [[_ ->]|[Hn _]]; [|done].
  rewrite Z.quot_div_nonneg by nia. split; [done|].
  split; [apply Z.div_pos; nia|apply Z.div_le_upper_bound; nia].
Qed.

Lemma percentage_routines_agree_witness :
  SafePercentageBig (Some 250) 30 = Ok 75 /\ IsValidPercentage 30 = true.
Proof.
  assert (is_i64 250) as H1 by (unfold_ints; lia).
  destruct (percentage_routines_agree 250 30 H1 eq_refl) as (_ & H & _).
  split; [exact H|reflexivity].
Defined.
