(* ===== verification/Uint256.v ===== *)
(** * Amounts as canonical bytes and decimal strings (src/core/math/uint256.go,
    src/core/math/big_utils.go)

    An amount travels as the minimal big-endian byte string of an unsigned
    256-bit integer, with an older decimal-string field beside it.  A
    [[]byte] is a [list Byte.byte] (a nil slice is the empty one: every
    function of the file tests only the length), a [*big.Int] is an
    [option Z], a pair of in/out parameters is the state of a [GoM] call.
    Base-256 and base-10 positional notation share one set of lemmas. *)

From S2P Require Import Prelude.
From stdpp Require Import base tactics numbers list gmap strings.
From Stdlib Require Import ZArith Lia Strings.Byte Strings.Ascii.
Open Scope Z_scope.
Open Scope list_scope.

(** ** Positional notation in base [B], most significant digit first *)

Section Positional.
Context (B : Z).

Definition of_digits (l : list Z) : Z := foldl (fun acc d => acc * B + d) 0 l.

Fixpoint to_digits_loop (fuel : nat) (v : Z) (acc : list Z) : list Z :=
  match fuel with
  | O => acc
  | S fuel' => if v =? 0 then acc else to_digits_loop fuel' (v / B) (v mod B :: acc)
  end.

(** Dividing by [B >= 2] at least halves, so [log2 v + 1] rounds are enough. *)
Definition digits_fuel (v : Z) : nat := Z.to_nat (Z.log2 v + 1).
Definition to_digits (v : Z) : list Z := to_digits_loop (digits_fuel v) v [].

Definition is_digit (d : Z) : Prop := 0 <= d < B.

Definition no_leading_zero (l : list Z) : Prop := head l <> Some 0.

Hypothesis HB : 2 <= B.

Lemma of_digits_snoc l d : of_digits (l ++ [d]) = of_digits l * B + d.
Proof. unfold of_digits. by rewrite foldl_app. Qed.

Lemma to_digits_loop_acc fuel : forall v acc,
  to_digits_loop fuel v acc = to_digits_loop fuel v [] ++ acc.
Proof.
  induction fuel as [|fuel IH]; intros v acc; simpl; [done|].
  destruct (v =? 0); [done|]. rewrite (IH _ (_ :: acc)), (IH _ [_]).
  by rewrite <-app_assoc.
Qed.

Lemma to_digits_loop_S fuel v :
  v <> 0 -> to_digits_loop (S fuel) v [] = to_digits_loop fuel (v / B) [] ++ [v mod B].
Proof.
  intros Hv. simpl. rewrite (proj2 (Z.eqb_neq v 0) Hv). apply to_digits_loop_acc.
Qed.

Lemma of_digits_nonneg l : Forall is_digit l -> 0 <= of_digits l.
Proof.
  induction l as [|d l IH] using rev_ind; [done|].
  rewrite Forall_app, Forall_singleton, of_digits_snoc. unfold is_digit.
  intros [Hl Hd]. specialize (IH Hl). nia.
Qed.

Lemma of_digits_lt l : Forall is_digit l -> of_digits l < B ^ Z.of_nat (length l).
Proof.
  induction l as [|d l IH] using rev_ind; [done|].
  rewrite Forall_app, Forall_singleton, of_digits_snoc, length_app. unfold is_digit.
  intros [Hl Hd]. specialize (IH Hl). simpl.
  rewrite Nat2Z.inj_add, Z.pow_add_r, Z.pow_1_r by lia. nia.
Qed.

Lemma no_leading_zero_app l l' :
  l <> [] -> no_leading_zero (l ++ l') <-> no_leading_zero l.
Proof. by destruct l. Qed.

(** A number without leading zero has the order of magnitude of its length. *)
Lemma of_digits_ge l :
  Forall is_digit l -> no_leading_zero l -> l <> [] ->
  B ^ (Z.of_nat (length l) - 1) <= of_digits l.
Proof.
  induction l as [|d l IH] using rev_ind; [done|].
  rewrite Forall_app, Forall_singleton, of_digits_snoc, length_app. unfold is_digit.
  intros [Hl Hd] Hz _. destruct (decide (l = [])) as [->|Hne].
  - unfold no_leading_zero in Hz. simpl in Hz. assert (d <> 0) by congruence.
    change (B ^ 0 <= 0 * B + d). rewrite Z.pow_0_r. lia.
  - rewrite no_leading_zero_app in Hz by done. specialize (IH Hl Hz Hne).
    destruct l as [|x l]; [done|]. simpl length in *.
    replace (Z.of_nat (S (length l) + 1) - 1) with (Z.succ (Z.of_nat (S (length l)) - 1)) by lia.
    rewrite Z.pow_succ_r by lia. nia.
Qed.

Lemma of_digits_pos l :
  Forall is_digit l -> no_leading_zero l -> l <> [] -> 0 < of_digits l.
Proof.
  intros Hl Hz Hne. pose proof (of_digits_ge l Hl Hz Hne).
  assert (0 < B ^ (Z.of_nat (length l) - 1)); [|lia].
  apply Z.pow_pos_nonneg; [lia|]. destruct l; [done|simpl; lia].
Qed.

Lemma to_digits_loop_spec fuel : forall v,
  0 <= v < B ^ Z.of_nat fuel ->
  of_digits (to_digits_loop fuel v []) = v /\
  Forall is_digit (to_digits_loop fuel v []) /\
  no_leading_zero (to_digits_loop fuel v []) /\
  (v <> 0 -> to_digits_loop fuel v [] <> []).
Proof.
  induction fuel as [|fuel IH]; intros v Hv.
  - replace v with 0 by lia. by split_and!.
  - destruct (decide (v = 0)) as [->|Hv0]; [by split_and!|].
    rewrite to_digits_loop_S by done.
    rewrite Nat2Z.inj_succ, Z.pow_succ_r in Hv by lia.
    pose proof (Z.div_mod v B). pose proof (Z.mod_pos_bound v B).
    assert (Hq : 0 <= v / B < B ^ Z.of_nat fuel).
    { split; [apply Z.div_pos; lia|apply Z.div_lt_upper_bound; nia]. }
    destruct (IH (v / B) Hq) as (Hval & Hdig & Hz & Hne).
    rewrite of_digits_snoc, Hval. split_and!.
    + lia.
    + apply Forall_app. rewrite Forall_singleton. unfold is_digit. split; [done|lia].
    + destruct (decide (v / B = 0)) as [Hq0|Hq0].
      * rewrite Hq0 in *. replace (to_digits_loop fuel 0 []) with (@nil Z) by by destruct fuel.
        unfold no_leading_zero. simpl. intros [= ?]. lia.
      * apply no_leading_zero_app; auto.
    + intros _. by destruct (to_digits_loop fuel (v / B) []).
Qed.

Lemma digits_fuel_enough v : 0 <= v -> 0 <= v < B ^ Z.of_nat (digits_fuel v).
Proof.
  intros Hv. split; [done|]. unfold digits_fuel. pose proof (Z.log2_nonneg v).
  rewrite Z2Nat.id by lia. apply Z.lt_le_trans with (2 ^ (Z.log2 v + 1)).
  - destruct (decide (v = 0)) as [->|]; [done|]. apply Z.log2_lt_pow2; lia.
  - apply Z.pow_le_mono_l. lia.
Qed.

Lemma to_digits_spec v :
  0 <= v ->
  of_digits (to_digits v) = v /\ Forall is_digit (to_digits v) /\
  no_leading_zero (to_digits v) /\ (v <> 0 -> to_digits v <> []).
Proof. intros. by apply to_digits_loop_spec, digits_fuel_enough. Qed.

(** Notations without leading zero are unique. *)
Lemma of_digits_inj l : forall l',
  Forall is_digit l -> Forall is_digit l' ->
  no_leading_zero l -> no_leading_zero l' -> of_digits l = of_digits l' -> l = l'.
Proof.
  induction l as [|d l IH] using rev_ind; intros l' Hl Hl' Hz Hz' Heq.
  - destruct (decide (l' = [])) as [->|Hne]; [done|].
    pose proof (of_digits_pos l' Hl' Hz' Hne) as Hp. rewrite <-Heq in Hp. by compute in Hp.
  - destruct l' as [|d' l' _] using rev_ind.
    + pose proof (of_digits_pos _ Hl Hz) as Hp. rewrite Heq in Hp.
      exfalso. assert (0 < 0); [|lia]. apply Hp. by destruct l.
    + rewrite Forall_app, Forall_singleton in Hl, Hl'.
      destruct Hl as [Hl Hd], Hl' as [Hl' Hd']. unfold is_digit in Hd, Hd'.
      rewrite !of_digits_snoc in Heq.
      destruct (Z.div_mod_unique B (of_digits l) (of_digits l') d d') as [Hv ->]; [lia..|].
      f_equal. apply IH; try done.
      * destruct l; [done|]. exact Hz.
      * destruct l'; [done|]. exact Hz'.
Qed.

Lemma to_of_digits l :
  Forall is_digit l -> no_leading_zero l -> to_digits (of_digits l) = l.
Proof.
  intros Hl Hz. destruct (to_digits_spec (of_digits l)) as (Hv & Hd & Hz' & _).
  { by apply of_digits_nonneg. }
  by apply of_digits_inj.
Qed.

Lemma to_digits_length v n :
  0 <= v -> (Z.of_nat (length (to_digits v)) <= Z.of_nat n <-> v < B ^ Z.of_nat n).
Proof.
  intros Hv. destruct (to_digits_spec v Hv) as (Hval & Hd & Hz & Hne). split.
  - intros Hlen. rewrite <-Hval at 1. eapply Z.lt_le_trans; [by apply of_digits_lt|].
    apply Z.pow_le_mono_r; lia.
  - intros Hlt. destruct (decide (to_digits v = [])) as [->|Hnil]; [simpl; lia|].
    pose proof (of_digits_ge _ Hd Hz Hnil) as Hge. rewrite Hval in Hge.
    apply Z.nlt_ge. intros Hlen. apply (Z.lt_irrefl v).
    eapply Z.lt_le_trans; [exact Hlt|]. etransitivity; [|exact Hge].
    apply Z.pow_le_mono_r; lia.
Qed.
End Positional.

(** ** [big.Int] and bytes *)

Definition Z_of_byte (b : byte) : Z := Z.of_N (Byte.to_N b).
Definition byte_of_Z (z : Z) : byte := default x00 (Byte.of_N (Z.to_N z)).

(** [new(big.Int).SetBytes(raw)] and [value.Bytes()], on the absolute value. *)
Definition SetBytes (raw : list byte) : Z := of_digits 256 (Z_of_byte <$> raw).
Definition Bytes (value : Z) : list byte := byte_of_Z <$> to_digits 256 (Z.abs value).

Lemma Z_of_byte_range b : 0 <= Z_of_byte b < 256.
Proof. unfold Z_of_byte. pose proof (Byte.to_N_bounded b). lia. Qed.

Lemma byte_of_Z_of_byte b : byte_of_Z (Z_of_byte b) = b.
Proof. unfold byte_of_Z, Z_of_byte. by rewrite N2Z.id, Byte.of_to_N. Qed.

Lemma Z_of_byte_of_Z z : 0 <= z < 256 -> Z_of_byte (byte_of_Z z) = z.
Proof.
  intros Hz. unfold byte_of_Z, Z_of_byte.
  destruct (Byte.of_N (Z.to_N z)) as [b|] eqn:Hb; simpl.
  - apply Byte.to_of_N in Hb. lia.
  - apply Byte.of_N_None_iff in Hb. lia.
Qed.

#[global] Instance byte_eq_dec : EqDecision byte := Byte.byte_eq_dec.

Lemma bytes_are_digits (raw : list byte) : Forall (is_digit 256) (Z_of_byte <$> raw).
Proof. apply Forall_fmap, Forall_true. intros b. apply Z_of_byte_range. Qed.

Lemma SetBytes_nonneg raw : 0 <= SetBytes raw.
Proof. apply of_digits_nonneg; [lia|apply bytes_are_digits]. Qed.

Lemma map_Z_of_byte_of_Z (l : list Z) :
  Forall (is_digit 256) l -> Z_of_byte <$> (byte_of_Z <$> l) = l.
Proof.
  induction 1 as [|z l Hz _ IH]; [done|]. simpl. rewrite Z_of_byte_of_Z by done. by f_equal.
Qed.

Lemma map_byte_of_Z_of_byte (l : list byte) : byte_of_Z <$> (Z_of_byte <$> l) = l.
Proof. induction l as [|b l IH]; [done|]. simpl. rewrite byte_of_Z_of_byte. by f_equal. Qed.

Lemma SetBytes_Bytes v : 0 <= v -> SetBytes (Bytes v) = v.
Proof.
  intros Hv. unfold SetBytes, Bytes. rewrite Z.abs_eq by done.
  destruct (to_digits_spec 256 ltac:(lia) v Hv) as (Hval & Hd & _).
  by rewrite map_Z_of_byte_of_Z.
Qed.

Lemma Bytes_SetBytes raw : head raw <> Some x00 -> Bytes (SetBytes raw) = raw.
Proof.
  intros Hz. unfold Bytes. rewrite Z.abs_eq by apply SetBytes_nonneg.
  unfold SetBytes. rewrite to_of_digits; [apply map_byte_of_Z_of_byte|lia|apply bytes_are_digits|].
  unfold no_leading_zero. destruct raw as [|b raw]; [done|]. simpl. intros [= Hb].
  apply Hz. simpl. f_equal. rewrite <-(byte_of_Z_of_byte b), Hb. done.
Qed.

Lemma Bytes_length v n :
  0 <= v -> (length (Bytes v) <= n)%nat <-> v < 256 ^ Z.of_nat n.
Proof.
  intros Hv. unfold Bytes. rewrite length_fmap, Z.abs_eq by done.
  rewrite <-to_digits_length by lia. lia.
Qed.

Lemma Bytes_nonnil v : 0 < v -> Bytes v <> [] /\ head (Bytes v) <> Some x00.
Proof.
  intros Hv. unfold Bytes. rewrite Z.abs_eq by lia.
  destruct (to_digits_spec 256 ltac:(lia) v) as (_ & Hd & Hz & Hne); [lia|].
  specialize (Hne ltac:(lia)). destruct (to_digits 256 v) as [|d l]; [done|].
  simpl. split; [done|]. intros [= Hb]. apply Hz. simpl. f_equal.
  apply Forall_cons in Hd as [Hd _]. rewrite <-(Z_of_byte_of_Z d) by done. by rewrite Hb.
Qed.

Lemma SetBytes_bound raw : SetBytes raw < 256 ^ Z.of_nat (length raw).
Proof.
  unfold SetBytes. rewrite <-(length_fmap Z_of_byte raw).
  apply of_digits_lt; [lia|apply bytes_are_digits].
Qed.

(** ** [big.Int] and decimal strings *)

Definition digit_of_ascii (c : ascii) : option Z :=
  let n := Z.of_nat (Ascii.nat_of_ascii c) in
  if (48 <=? n) && (n <=? 57) then Some (n - 48) else None.
Definition ascii_of_digit (d : Z) : ascii := Ascii.ascii_of_nat (Z.to_nat (d + 48)).

Definition scan_digits (cs : list ascii) : option Z :=
  match cs with
  | [] => None
  | _ => of_digits 10 <$> mapM digit_of_ascii cs
  end.

(** [SetString(s, 10)]: an optional sign, then at least one decimal digit and
    nothing else. *)
Definition SetString10 (s : string) : option Z :=
  match String.list_ascii_of_string s with
  | c :: cs =>
      if bool_decide (c = "-"%char) then Z.opp <$> scan_digits cs
      else if bool_decide (c = "+"%char) then scan_digits cs
      else scan_digits (c :: cs)
  | [] => None
  end.

Definition decimal_digits (v : Z) : list ascii :=
  match to_digits 10 v with
  | [] => ["0"%char]
  | ds => ascii_of_digit <$> ds
  end.

(** [value.String()]. *)
Definition String10 (v : Z) : string :=
  String.string_of_list_ascii
    (if v <? 0 then "-"%char :: decimal_digits (- v) else decimal_digits v).

Lemma digit_of_ascii_of_digit d :
  is_digit 10 d -> digit_of_ascii (ascii_of_digit d) = Some d.
Proof.
  unfold is_digit, digit_of_ascii, ascii_of_digit. intros Hd.
  rewrite Ascii.nat_ascii_embedding by lia. rewrite Z2Nat.id by lia.
  rewrite (proj2 (Z.leb_le 48 _)), (proj2 (Z.leb_le _ 57)) by lia. simpl. f_equal. lia.
Qed.

Lemma mapM_digits (l : list Z) :
  Forall (is_digit 10) l -> mapM digit_of_ascii (ascii_of_digit <$> l) = Some l.
Proof.
  intros Hl. apply mapM_Some, Forall2_fmap_l, Forall_Forall2_diag.
  eapply Forall_impl; [exact Hl|]. apply digit_of_ascii_of_digit.
Qed.

Lemma scan_decimal_digits v : 0 <= v -> scan_digits (decimal_digits v) = Some v.
Proof.
  intros Hv. unfold decimal_digits.
  destruct (to_digits_spec 10 ltac:(lia) v Hv) as (Hval & Hd & _ & Hne).
  destruct (to_digits 10 v) as [|d l] eqn:Hl.
  - destruct (decide (v = 0)) as [->|]; [done|]. by destruct Hne.
  - change (of_digits 10 <$> mapM digit_of_ascii (ascii_of_digit <$> (d :: l)) = Some v).
    rewrite mapM_digits by done. simpl. by rewrite Hval.
Qed.

Lemma decimal_digits_head v c cs :
  0 <= v -> decimal_digits v = c :: cs -> c <> "-"%char /\ c <> "+"%char.
Proof.
  intros Hv Heq. unfold decimal_digits in Heq.
  destruct (to_digits_spec 10 ltac:(lia) v Hv) as (_ & Hd & _).
  destruct (to_digits 10 v) as [|d l]; simplify_eq/=; [done|].
  apply Forall_cons in Hd as [Hd _]. apply digit_of_ascii_of_digit in Hd.
  split; intros Hc; by rewrite Hc in Hd.
Qed.

Lemma SetString10_String10 v : SetString10 (String10 v) = Some v.
Proof.
  unfold SetString10, String10. rewrite String.list_ascii_of_string_of_list_ascii.
  destruct (Z.ltb_spec v 0).
  - rewrite scan_decimal_digits by lia. simpl. f_equal. lia.
  - pose proof (scan_decimal_digits v) as Hs.
    destruct (decimal_digits v) as [|c cs] eqn:Hc; [apply Hs; lia|].
    destruct (decimal_digits_head v c cs) as [? ?]; [lia|done|].
    rewrite !bool_decide_eq_false_2 by done. apply Hs. lia.
Qed.

Lemma String10_nonempty v : String10 v <> "".
Proof.
  unfold String10, decimal_digits. destruct (v <? 0); [done|]. by destruct (to_digits 10 v).
Qed.

(** ** The operations of the file *)

Inductive u256_err : Type :=
| InvalidDecimal (s : string)
| NegativeValue
| ByteLengthExceeds (len : Z)
| NotCanonical
| NilFields
| RepresentationsMismatch
| InvalidForKey (key : string) (e : u256_err).

Definition MaxUint256Bytes : nat := 32.
Definition two256 : Z := 2 ^ 256.

Definition ParseUint256Decimal (s : string) : outcome u256_err Z :=
  if bool_decide (s = "") then Ok 0
  else match SetString10 s with
       | None => Err (InvalidDecimal s)
       | Some value => if Z.sgn value <? 0 then Err NegativeValue else Ok value
       end.

Definition ValidateCanonicalUint256Bytes (raw : list byte) : outcome u256_err unit :=
  if (MaxUint256Bytes <? length raw)%nat then Err (ByteLengthExceeds (Z.of_nat (length raw)))
  else if (1 <? length raw)%nat && bool_decide (head raw = Some x00) then Err NotCanonical
  else Ok tt.

Definition ParseUint256Bytes (raw : list byte) : outcome u256_err Z :=
  _ ← ValidateCanonicalUint256Bytes raw;
  if (length raw =? 0)%nat then Ok 0 else Ok (SetBytes raw).

Definition ParseUint256Compat (raw : list byte) (decimal : string) : outcome u256_err Z :=
  if (0 <? length raw)%nat then ParseUint256Bytes raw else ParseUint256Decimal decimal.

Definition BigIntToUint256Bytes (value : option Z) : outcome u256_err (list byte) :=
  match value with
  | None => Ok []
  | Some value =>
      if Z.sgn value =? 0 then Ok []
      else if Z.sgn value <? 0 then Err NegativeValue
      else let raw := Bytes value in
           if (MaxUint256Bytes <? length raw)%nat
           then Err (ByteLengthExceeds (Z.of_nat (length raw)))
           else Ok raw
  end.

#[global] Arguments ParseUint256Decimal : simpl never.
#[global] Arguments ParseUint256Bytes : simpl never.
#[global] Arguments BigIntToUint256Bytes : simpl never.

Definition CanonicalizeUint256Bytes (raw : list byte) : outcome u256_err (list byte) :=
  value ← ParseUint256Bytes raw;
  BigIntToUint256Bytes (Some value).

(** [ParseBigInt] on its two instances, and [BigIntToString]. *)
Definition ParseBigInt_string (value : string) : Z :=
  if bool_decide (value = "") then 0 else default 0 (SetString10 value).

Lemma ParseBigInt_String10 z : ParseBigInt_string (String10 z) = z.
Proof.
  unfold ParseBigInt_string. rewrite bool_decide_eq_false_2 by apply String10_nonempty. by rewrite SetString10_String10.
Qed.

Definition ParseBigInt_bytes (value : list byte) : Z :=
  if (length value =? 0)%nat then 0
  else match ValidateCanonicalUint256Bytes value with
       | Ok _ => SetBytes value
       | _ => 0
       end.

Lemma ParseBigInt_bytes_nonneg raw : 0 <= ParseBigInt_bytes raw.
Proof.
  unfold ParseBigInt_bytes. case_if; [done|].
  destruct (ValidateCanonicalUint256Bytes raw); [apply SetBytes_nonneg|done..].
Qed.

Definition BigIntToString (b : option Z) : string :=
  match b with None => "0" | Some b => String10 b end.

(** *** The two fields side by side are the state *)

Notation fields := (list byte * string)%type.

Definition NormalizeUint256Compat : GoM fields u256_err unit :=
  '(raw, decimal) ← get;
  if (0 <? length raw)%nat then
    value ← lift (ParseUint256Bytes raw);
    put (raw, String10 value)
  else
    value ← lift (ParseUint256Decimal decimal);
    canonical ← lift (BigIntToUint256Bytes (Some value));
    put (canonical, decimal).

Definition SyncUint256ForWrite : GoM fields u256_err unit :=
  '(raw, decimal) ← get;
  if negb (bool_decide (decimal = "")) then
    value ← lift (ParseUint256Decimal decimal);
    canonical ← lift (BigIntToUint256Bytes (Some value));
    put (canonical, decimal)
  else if (0 <? length raw)%nat then
    value ← lift (ParseUint256Bytes raw);
    put (raw, String10 value)
  else mret tt.

(** The nil-pointer guard in front of both. *)
Definition with_fields (f : GoM fields u256_err unit)
    (raw : option (list byte)) (decimal : option string)
    : outcome u256_err unit * (option (list byte) * option string) :=
  match raw, decimal with
  | Some r, Some d => let '(res, (r', d')) := f (r, d) in (res, (Some r', Some d'))
  | _, _ => (Err NilFields, (raw, decimal))
  end.

Definition ValidateUint256Compat (raw : list byte) (decimal : string) : outcome u256_err Z :=
  if (0 <? length raw)%nat && negb (bool_decide (decimal = "")) then
    rawValue ← ParseUint256Bytes raw;
    decimalValue ← ParseUint256Decimal decimal;
    if negb (rawValue =? decimalValue) then Err RepresentationsMismatch else Ok rawValue
  else ParseUint256Compat raw decimal.

(** *** Maps: Go iterates over the keys in an order of its own, an argument *)

Section MapLoop.
Context {V : Type} (report : string -> u256_err -> u256_err) (body : string -> outcome u256_err V).

Fixpoint range_keys (order : list string) (out : gmap string V)
    : outcome u256_err (gmap string V) :=
  match order with
  | [] => Ok out
  | key :: order' =>
      v ← wrap (report key) (body key);
      range_keys order' (<[key := v]> out)
  end.

Lemma range_keys_ok order : forall out res,
  NoDup order ->
  range_keys order out = Ok res <->
  (forall k, k ∈ order -> exists v, body k = Ok v /\ res !! k = Some v) /\
  (forall k, k ∉ order -> res !! k = out !! k).
Proof.
  induction order as [|k order IH]; intros out res Hnd; simpl.
  - split; [intros [= ->]; set_solver|]. intros [_ H]. f_equal.
    apply map_eq. intros k. symmetry. apply H. set_solver.
  - apply NoDup_cons in Hnd as [Hk Hnd]. destruct (body k) as [v|e| |] eqn:Hb; simpl.
    2-4: split; [done|]; intros [H _]; destruct (H k) as (? & ? & _); [set_solver|congruence].
    rewrite IH by done. split; intros [H1 H2]; split; intros j Hj.
    + apply elem_of_cons in Hj as [->|Hj]; [|auto]. exists v. split; [done|].
      rewrite H2 by done. by rewrite lookup_insert_eq.
    + rewrite H2 by set_solver. apply lookup_insert_ne. set_solver.
    + apply H1. set_solver.
    + destruct (decide (j = k)) as [->|].
      * destruct (H1 k) as (v' & ? & ->); [set_solver|]. rewrite lookup_insert_eq. congruence.
      * rewrite lookup_insert_ne by done. apply H2. set_solver.
Qed.
End MapLoop.

Definition CanonicalizeUint256ByteMap (order : list string) (raw : gmap string (list byte))
    : outcome u256_err (gmap string (list byte)) :=
  range_keys InvalidForKey (fun key => CanonicalizeUint256Bytes (default [] (raw !! key))) order ∅.

Definition NormalizeUint256MapCompat_body (rawValue : list byte) (decimalValue : string)
    : outcome u256_err fields :=
  if (0 <? length rawValue)%nat then
    parsedRaw ← ParseUint256Bytes rawValue;
    Ok (rawValue, String10 parsedRaw)
  else
    parsedDecimal ← ParseUint256Decimal decimalValue;
    canonical ← BigIntToUint256Bytes (Some parsedDecimal);
    Ok (canonical, if bool_decide (decimalValue = "") then String10 parsedDecimal
                   else decimalValue).

Definition SyncUint256MapForWrite_body (rawValue : list byte) (decimalValue : string)
    : outcome u256_err fields :=
  if negb (bool_decide (decimalValue = "")) then
    parsedDecimal ← ParseUint256Decimal decimalValue;
    canonical ← BigIntToUint256Bytes (Some parsedDecimal);
    Ok (canonical, decimalValue)
  else
    parsedRaw ← ParseUint256Bytes rawValue;
    Ok (rawValue, String10 parsedRaw).

Definition split_fields (out : gmap string fields)
    : gmap string (list byte) * gmap string string := (fst <$> out, snd <$> out).

Definition map_compat (body : list byte -> string -> outcome u256_err fields)
    (order : list string) (raw : gmap string (list byte)) (decimal : gmap string string)
    : outcome u256_err (gmap string (list byte) * gmap string string) :=
  out ← range_keys InvalidForKey (fun key => body (default [] (raw !! key)) (default "" (decimal !! key)))
          order ∅;
  Ok (split_fields out).

Definition NormalizeUint256MapCompat := map_compat NormalizeUint256MapCompat_body.
Definition SyncUint256MapForWrite := map_compat SyncUint256MapForWrite_body.

(** ** Lemmas *)

Lemma validate_ok raw :
  ValidateCanonicalUint256Bytes raw = Ok tt <->
  (length raw <= 32)%nat /\ (raw = [x00] \/ head raw <> Some x00).
Proof.
  unfold ValidateCanonicalUint256Bytes, MaxUint256Bytes.
  destruct (Nat.ltb_spec 32 (length raw)); [naive_solver lia|].
  destruct (Nat.ltb_spec 1 (length raw)), (bool_decide_reflect (head raw = Some x00)); simpl;
    destruct raw as [|b [|c raw]]; simpl in *; try lia; naive_solver lia.
Qed.

Lemma validate_not_ok raw :
  ValidateCanonicalUint256Bytes raw = Ok tt \/
  exists e, ValidateCanonicalUint256Bytes raw = Err e.
Proof. unfold ValidateCanonicalUint256Bytes. repeat case_if; eauto. Qed.

Lemma ParseUint256Bytes_ok raw v :
  ParseUint256Bytes raw = Ok v <->
  ValidateCanonicalUint256Bytes raw = Ok tt /\ v = SetBytes raw.
Proof.
  unfold ParseUint256Bytes. destruct (validate_not_ok raw) as [->|[e ->]]; simpl.
  - destruct raw; simpl; naive_solver.
  - naive_solver.
Qed.

Lemma SetBytes_u256 raw :
  ValidateCanonicalUint256Bytes raw = Ok tt -> 0 <= SetBytes raw < two256.
Proof.
  intros [Hlen _]%validate_ok. split; [apply SetBytes_nonneg|].
  eapply Z.lt_le_trans; [apply SetBytes_bound|].
  change two256 with (256 ^ 32). apply Z.pow_le_mono_r; lia.
Qed.

Lemma Bytes_0 : Bytes 0 = [].
Proof. done. Qed.

Lemma encode_ok v raw :
  BigIntToUint256Bytes (Some v) = Ok raw <-> 0 <= v < two256 /\ raw = Bytes v.
Proof.
  unfold BigIntToUint256Bytes, MaxUint256Bytes.
  destruct (Z.eqb_spec (Z.sgn v) 0) as [Hs|Hs].
  { assert (v = 0) as -> by lia. rewrite Bytes_0. unfold two256. naive_solver lia. }
  destruct (Z.ltb_spec (Z.sgn v) 0) as [Hn|Hn]; [naive_solver lia|].
  pose proof (Bytes_length v 32) as Hl. change (256 ^ Z.of_nat 32) with two256 in Hl.
  specialize (Hl ltac:(lia)). destruct (Nat.ltb_spec 32 (length (Bytes v))).
  - split; [done|]. intros [? _]. lia.
  - split; [intros [= <-]; split; [lia|done]|by intros [_ ->]].
Qed.

Lemma encode_not_ok v :
  ~ 0 <= v < two256 -> exists e, BigIntToUint256Bytes (Some v) = Err e.
Proof.
  intros Hv. destruct (BigIntToUint256Bytes (Some v)) as [r|e| |] eqn:He; eauto.
  - apply encode_ok in He. naive_solver.
  - unfold BigIntToUint256Bytes in He. by repeat case_if.
  - unfold BigIntToUint256Bytes in He. by repeat case_if.
Qed.

Lemma Bytes_canonical v :
  0 <= v < two256 -> ValidateCanonicalUint256Bytes (Bytes v) = Ok tt.
Proof.
  intros Hv. apply validate_ok. split.
  - apply Bytes_length; [lia|]. apply Hv.
  - right. destruct (decide (v = 0)) as [->|]; [done|]. apply Bytes_nonnil. lia.
Qed.

Lemma parse_Bytes v : 0 <= v < two256 -> ParseUint256Bytes (Bytes v) = Ok v.
Proof.
  intros Hv. apply ParseUint256Bytes_ok.
  by rewrite Bytes_canonical, SetBytes_Bytes by lia.
Qed.

Lemma canonicalize_ok raw raw' :
  CanonicalizeUint256Bytes raw = Ok raw' <->
  ValidateCanonicalUint256Bytes raw = Ok tt /\ raw' = Bytes (SetBytes raw).
Proof.
  unfold CanonicalizeUint256Bytes. split.
  - intros (v & [Hval ->]%ParseUint256Bytes_ok & [_ ->]%encode_ok)%outcome_bind_inv_ok. done.
  - intros [Hval ->]. rewrite (proj2 (ParseUint256Bytes_ok raw _) (conj Hval eq_refl)).
    apply encode_ok. split; [by apply SetBytes_u256|done].
Qed.

Lemma ParseUint256Decimal_ok s v :
  ParseUint256Decimal s = Ok v <->
  (s = "" /\ v = 0) \/ (s <> "" /\ SetString10 s = Some v /\ 0 <= v).
Proof.
  unfold ParseUint256Decimal. case_bool_decide as Hs; [naive_solver|].
  destruct (SetString10 s) as [w|]; [|naive_solver].
  destruct (Z.ltb_spec (Z.sgn w) 0); split.
  - done.
  - intros [[? _]|(_ & [= ->] & ?)]; [done|lia].
  - intros [= ->]. right. split_and!; [done..|lia].
  - intros [[? _]|(_ & [= ->] & ?)]; done.
Qed.

Lemma parse_String10 v : 0 <= v -> ParseUint256Decimal (String10 v) = Ok v.
Proof.
  intros. apply ParseUint256Decimal_ok. right.
  split_and!; [apply String10_nonempty|apply SetString10_String10|done].
Qed.

Lemma Normalize_ok f f' :
  NormalizeUint256Compat f = (Ok tt, f') ->
  exists v, 0 <= v < two256 /\ ParseUint256Compat (fst f) (snd f) = Ok v /\
  ParseUint256Bytes (fst f') = Ok v /\ ParseUint256Decimal (snd f') = Ok v.
Proof.
  destruct f as [raw decimal].
  unfold NormalizeUint256Compat, ParseUint256Compat, mbind, GoM_bind, get, lift, put. simpl.
  destruct (Nat.ltb_spec 0 (length raw)).
  - destruct (ParseUint256Bytes raw) as [v|e| |] eqn:Hp; try done. intros [= <-]. simpl.
    exists v. pose proof Hp as [Hval ->]%ParseUint256Bytes_ok.
    pose proof (SetBytes_u256 _ Hval). rewrite parse_String10 by lia. done.
  - destruct (ParseUint256Decimal decimal) as [v|e| |] eqn:Hp; simpl; try done.
    destruct (BigIntToUint256Bytes (Some v)) as [r|e| |] eqn:Hb; simpl; try done.
    intros [= <-]. simpl. apply encode_ok in Hb as [Hv ->]. exists v.
    by rewrite parse_Bytes.
Qed.

Lemma Sync_ok f f' :
  SyncUint256ForWrite f = (Ok tt, f') ->
  exists v, 0 <= v < two256 /\
  ParseUint256Bytes (fst f') = Ok v /\ ParseUint256Decimal (snd f') = Ok v.
Proof.
  destruct f as [raw decimal].
  unfold SyncUint256ForWrite, mbind, GoM_bind, get, lift, put, mret, GoM_ret. simpl.
  destruct (bool_decide_reflect (decimal = "")) as [->|Hne]; simpl.
  - destruct (Nat.ltb_spec 0 (length raw)).
    + destruct (ParseUint256Bytes raw) as [v|e| |] eqn:Hp; try done. intros [= <-]. simpl.
      exists v. pose proof Hp as [Hval ->]%ParseUint256Bytes_ok.
      pose proof (SetBytes_u256 _ Hval). rewrite parse_String10 by lia. done.
    + intros [= <-]. exists 0. destruct raw; [done|simpl in *; lia].
  - destruct (ParseUint256Decimal decimal) as [v|e| |] eqn:Hp; simpl; try done.
    destruct (BigIntToUint256Bytes (Some v)) as [r|e| |] eqn:Hb; simpl; try done.
    intros [= <-]. simpl. apply encode_ok in Hb as [Hv ->]. exists v.
    by rewrite parse_Bytes.
Qed.

(** Two fields that parse to the same value pass the strict validation. *)
Lemma validate_agree raw decimal v :
  ParseUint256Bytes raw = Ok v -> ParseUint256Decimal decimal = Ok v ->
  ValidateUint256Compat raw decimal = Ok v.
Proof.
  intros Hr Hd. unfold ValidateUint256Compat, ParseUint256Compat. rewrite Hr, Hd. simpl.
  rewrite Z.eqb_refl. repeat case_if; done.
Qed.

Lemma Normalize_body_ok raw decimal raw' decimal' :
  NormalizeUint256MapCompat_body raw decimal = Ok (raw', decimal') ->
  exists v, ParseUint256Compat raw decimal = Ok v /\ ValidateUint256Compat raw' decimal' = Ok v.
Proof.
  unfold NormalizeUint256MapCompat_body, ParseUint256Compat.
  destruct (Nat.ltb_spec 0 (length raw)).
  - intros (v & Hp & [= <- <-])%outcome_bind_inv_ok. exists v. split; [done|].
    apply validate_agree; [done|]. apply ParseUint256Bytes_ok in Hp as [_ ->].
    apply parse_String10, SetBytes_nonneg.
  - intros (v & Hp & (r & [Hv ->]%encode_ok & [= <- <-])%outcome_bind_inv_ok)%outcome_bind_inv_ok.
    exists v. split; [done|]. apply validate_agree; [by apply parse_Bytes|].
    case_bool_decide; [apply parse_String10; lia|done].
Qed.

Lemma range_keys_dom {V} report (body : string -> outcome u256_err V) order out :
  NoDup order -> range_keys report body order ∅ = Ok out -> forall k, k ∈ dom out <-> k ∈ order.
Proof.
  intros Hnd [H1 H2]%range_keys_ok k; [|done]. rewrite elem_of_dom.
  destruct (decide (k ∈ order)) as [Hk|Hk].
  - destruct (H1 k Hk) as (v & _ & ->). split; eauto.
  - rewrite H2, lookup_empty by done. split; [by intros []|done].
Qed.

(** ** Properties *)

(** Encoding an integer succeeds exactly on [0 <= v < 2^256], gives bytes
    that pass the canonical check and decode to [v], and the decimal printer
    and parser are inverse on it as well. *)
Theorem uint256_roundtrip v :
  0 <= v < two256 ->
  exists raw, BigIntToUint256Bytes (Some v) = Ok raw /\
  ValidateCanonicalUint256Bytes raw = Ok tt /\
  ParseUint256Bytes raw = Ok v /\ ParseBigInt_bytes raw = v /\
  ParseUint256Decimal (BigIntToString (Some v)) = Ok v /\
  ValidateUint256Compat raw (BigIntToString (Some v)) = Ok v.
Proof.
  intros Hv. exists (Bytes v). split_and!.
  - by apply encode_ok.
  - by apply Bytes_canonical.
  - by apply parse_Bytes.
  - unfold ParseBigInt_bytes. rewrite Bytes_canonical, SetBytes_Bytes by lia.
    destruct (Nat.eqb_spec (length (Bytes v)) 0) as [H0|]; [|done].
    destruct (decide (v = 0)) as [->|]; [done|].
    destruct (Bytes_nonnil v ltac:(lia)) as [Hn _]. by apply nil_length_inv in H0.
  - apply parse_String10. lia.
  - apply validate_agree; [by apply parse_Bytes|apply parse_String10; lia].
Qed.

Lemma uint256_roundtrip_witness :
  BigIntToUint256Bytes (Some 1000) = Ok [x03; xe8] /\
  exists raw, BigIntToUint256Bytes (Some 1000) = Ok raw /\
  ParseUint256Decimal (BigIntToString (Some 1000)) = Ok 1000.
Proof.
  split; [vm_compute; reflexivity|].
  assert (0 <= 1000 < two256) as H by (split; vm_compute; congruence).
  destruct (uint256_roundtrip 1000 H) as (raw & H1 & _ & _ & _ & H2 & _).
  exists raw. split; [exact H1|exact H2].
Defined.

(** Every byte string is either refused or is the canonical encoding of
    exactly one integer, the single zero byte being the one exception that
    re-encodes to the empty string: two accepted strings with the same value
    are equal up to it, and canonicalising is idempotent. *)
Theorem canonical_encoding_unique raw raw' :
  ValidateCanonicalUint256Bytes raw = Ok tt ->
  ValidateCanonicalUint256Bytes raw' = Ok tt ->
  (SetBytes raw = SetBytes raw' -> raw <> [x00] -> raw' <> [x00] -> raw = raw') /\
  CanonicalizeUint256Bytes raw = Ok (if bool_decide (raw = [x00]) then [] else raw) /\
  (forall c, CanonicalizeUint256Bytes raw = Ok c ->
   CanonicalizeUint256Bytes c = Ok c /\ SetBytes c = SetBytes raw).
Proof.
  intros Hv Hv'. pose proof Hv as [_ Hh]%validate_ok. pose proof Hv' as [_ Hh']%validate_ok.
  split_and!.
  - intros Heq Hn Hn'. rewrite <-(Bytes_SetBytes raw), <-(Bytes_SetBytes raw') by naive_solver.
    by rewrite Heq.
  - apply canonicalize_ok. split; [done|]. case_bool_decide as Hc; [by subst|].
    rewrite Bytes_SetBytes; naive_solver.
  - intros c [_ ->]%canonicalize_ok. pose proof (SetBytes_u256 _ Hv) as Hr.
    rewrite canonicalize_ok, SetBytes_Bytes, Bytes_canonical by lia. done.
Qed.

Lemma canonical_encoding_unique_witness :
  CanonicalizeUint256Bytes [x00] = Ok [] /\
  (SetBytes [x01; x00] = SetBytes [x01; x00] -> [x01; x00] = [x01; x00]).
Proof.
  destruct (canonical_encoding_unique [x00] [x01; x00] eq_refl eq_refl) as (_ & H & _).
  split; [exact H|reflexivity].
Defined.

(** The read path and the write path both leave the byte field and the
    decimal field agreeing on one 256-bit value, which the strict validation
    then returns; the read path keeps the value the compatible parser reads,
    and on an error neither path changes the fields. *)
Theorem compat_fields_agree f f' :
  (NormalizeUint256Compat f = (Ok tt, f') ->
   exists v, 0 <= v < two256 /\ ParseUint256Compat (fst f) (snd f) = Ok v /\
   ValidateUint256Compat (fst f') (snd f') = Ok v) /\
  (SyncUint256ForWrite f = (Ok tt, f') ->
   exists v, 0 <= v < two256 /\ ValidateUint256Compat (fst f') (snd f') = Ok v) /\
  (forall e, NormalizeUint256Compat f = (Err e, f') \/ SyncUint256ForWrite f = (Err e, f') ->
   f' = f).
Proof.
  split_and!.
  - intros (v & ? & ? & ? & ?)%Normalize_ok. eauto using validate_agree.
  - intros (v & ? & ? & ?)%Sync_ok. eauto using validate_agree.
  - destruct f as [raw decimal]. intros e.
    unfold NormalizeUint256Compat, SyncUint256ForWrite, mbind, GoM_bind, get, lift, put,
      mret, GoM_ret. simpl. intros [H|H]; repeat case_match; naive_solver.
Qed.

(** The validation documented as the strict one does not bound the decimal
    field: with no bytes beside it, it accepts a value that has no 256-bit
    encoding, which the read and write paths then refuse. *)
Theorem strict_validation_accepts_oversize :
  ValidateUint256Compat [] (String10 two256) = Ok two256 /\
  is_err (BigIntToUint256Bytes (Some two256)) = true /\
  is_err (fst (NormalizeUint256Compat ([], String10 two256))) = true.
Proof. split_and!; vm_compute; reflexivity. Qed.

(** The map forms treat every key as the scalar forms do, whatever order
    the runtime iterates in: the call succeeds exactly when every key's pair
    does, and then both result maps have the same keys, each pair agreeing on
    the value the strict validation returns. *)
Theorem map_compat_pointwise order raw decimal raw' decimal' :
  NoDup order -> (forall k, k ∈ order <-> k ∈ dom raw ∪ dom decimal) ->
  NormalizeUint256MapCompat order raw decimal = Ok (raw', decimal') ->
  dom raw' = dom raw ∪ dom decimal /\ dom decimal' = dom raw' /\
  (forall order2, order2 ≡ₚ order ->
   NormalizeUint256MapCompat order2 raw decimal = Ok (raw', decimal')) /\
  (forall k r d, raw' !! k = Some r -> decimal' !! k = Some d ->
   exists v, ParseUint256Compat (default [] (raw !! k)) (default "" (decimal !! k)) = Ok v /\
   ValidateUint256Compat r d = Ok v).
Proof.
  intros Hnd Hdom (out & Hr & [= <- <-])%outcome_bind_inv_ok.
  pose proof (range_keys_dom _ _ _ _ Hnd Hr) as Ho.
  pose proof Hr as [H1 H2]%range_keys_ok; [|done].
  rewrite !dom_fmap_L. split_and!.
  - apply set_eq. intros k. by rewrite Ho, Hdom.
  - done.
  - intros order2 Hperm. unfold NormalizeUint256MapCompat, map_compat.
    assert (Hnd2 : NoDup order2) by by rewrite Hperm.
    rewrite (proj2 (range_keys_ok _ _ order2 ∅ out Hnd2)); [done|].
    split; intros k; rewrite Hperm; auto.
  - intros k r d. rewrite !lookup_fmap. destruct (decide (k ∈ order)) as [Hk|Hk].
    + destruct (H1 k Hk) as ([r' d'] & Hb & ->). intros [= <-] [= <-].
      by apply Normalize_body_ok.
    + by rewrite H2, lookup_empty by done.
Qed.

Lemma map_compat_pointwise_witness :
  exists raw' decimal',
  NormalizeUint256MapCompat ["v1"; "v2"] {["v1" := [x07]]} {["v2" := "300"]}
    = Ok (raw', decimal') /\ dom decimal' = dom raw'.
Proof.
  eexists _, _. split; [vm_compute; reflexivity|].
  eapply (map_compat_pointwise ["v1"; "v2"] {["v1" := [x07]]} {["v2" := "300"]}).
  - apply (bool_decide_unpack _). vm_compute. exact I.
  - intros k. set_solver.
  - vm_compute. reflexivity.
Defined.
