(* ===== verification/Address.v ===== *)
(** * Ethereum-style addresses (src/crypto/address/address.go)

    An address string is a Go byte string; the 20-byte [Address] is a list of
    bytes.  Keccak-256 lives outside the repository and is a parameter, of which
    only the output length is used.  The strings reaching [ToLower] have passed
    [Validate] or are made of hexadecimal digits, so its ASCII part is all that
    is modelled. *)

From S2P Require Import Prelude Uint256.
From stdpp Require Import base tactics numbers list sets strings.
From Stdlib Require Import ZArith Lia Strings.Byte Strings.Ascii.
Open Scope Z_scope.
Open Scope list_scope.

Definition AddressLength : nat := 20.
Definition Address : Type := list byte.

Definition chars (s : string) : list ascii := String.list_ascii_of_string s.
Definition of_chars (cs : list ascii) : string := String.string_of_list_ascii cs.

Lemma chars_of_chars cs : chars (of_chars cs) = cs.
Proof. apply String.list_ascii_of_string_of_list_ascii. Qed.
Lemma of_chars_chars s : of_chars (chars s) = s.
Proof. apply String.string_of_list_ascii_of_string. Qed.

(** ** Go's [strings] and [encoding/hex] *)

Definition code (c : ascii) : Z := Z.of_N (Ascii.N_of_ascii c).
Definition of_code (z : Z) : ascii := Ascii.ascii_of_N (Z.to_N z).

Definition lower (c : ascii) : ascii :=
  if (65 <=? code c) && (code c <=? 90) then of_code (code c + 32) else c.
Definition ToLower (s : string) : string := of_chars (lower <$> chars s).

Fixpoint has_prefix (p s : list ascii) : bool :=
  match p, s with
  | [], _ => true
  | a :: p', b :: s' => bool_decide (a = b) && has_prefix p' s'
  | _ :: _, [] => false
  end.
Definition HasPrefix (s p : string) : bool := has_prefix (chars p) (chars s).
Definition TrimPrefix (s p : string) : string :=
  if HasPrefix s p then of_chars (drop (length (chars p)) (chars s)) else s.

Definition hexval (c : ascii) : option Z :=
  let n := code c in
  if (48 <=? n) && (n <=? 57) then Some (n - 48)
  else if (97 <=? n) && (n <=? 102) then Some (n - 87)
  else if (65 <=? n) && (n <=? 70) then Some (n - 55)
  else None.

Definition hexdigit (v : Z) : ascii := of_code (if v <? 10 then v + 48 else v + 87).

Inductive address_err : Type :=
| EmptyAddress
| MissingPrefix
| WrongHexLength (len : Z)
| InvalidByteError (c : ascii)
| ErrLength
| InvalidHex (e : address_err)
| InvalidFormat (e : address_err)
| DecodeFailed (e : address_err)
| DecodedWrongLength (len : Z)
| BytesWrongLength (len : Z)
| PublicKeyLength (len : Z)
| PublicKeyPrefix
| NilAddress
| CborFailed
| InvalidJSON
| ParseFailed (e : address_err).

(** [hex.DecodeString]: two digits at a time, then the odd one out. *)
Fixpoint hex_decode (cs : list ascii) : outcome address_err (list byte) :=
  match cs with
  | [] => Ok []
  | [c] => match hexval c with
           | None => Err (InvalidByteError c)
           | Some _ => Err ErrLength
           end
  | p :: q :: cs' =>
      match hexval p, hexval q with
      | None, _ => Err (InvalidByteError p)
      | Some _, None => Err (InvalidByteError q)
      | Some a, Some b =>
          bs ← hex_decode cs';
          Ok (byte_of_Z (Z.lor (Z.shiftl a 4) b) :: bs)
      end
  end.
Definition DecodeString (s : string) : outcome address_err (list byte) := hex_decode (chars s).

Definition hex_byte (b : byte) : list ascii :=
  [hexdigit (Z.shiftr (Z_of_byte b) 4); hexdigit (Z.land (Z_of_byte b) 15)].
Definition hex_encode (bs : list byte) : list ascii := bs ≫= hex_byte.
Definition EncodeToString (bs : list byte) : string := of_chars (hex_encode bs).

(** ** Validation *)

Definition Validate (addr : string) : outcome address_err unit :=
  if (length (chars addr) =? 0)%nat then Err EmptyAddress
  else if negb (HasPrefix (ToLower addr) "0x") then Err MissingPrefix
  else
    let addrHex := TrimPrefix (TrimPrefix addr "0x") "0X" in
    if negb (length (chars addrHex) =? 40)%nat
    then Err (WrongHexLength (Z.of_nat (length (chars addrHex))))
    else _ ← wrap InvalidHex (DecodeString addrHex); Ok tt.

Definition IsValid (addr : string) : bool := is_ok (Validate addr).

(** ** Creation and the string form *)

Definition NullAddress : Address := replicate AddressLength x00.

Definition FromString (addr : string) : outcome address_err Address :=
  _ ← wrap InvalidFormat (Validate addr);
  let addr := TrimPrefix addr "0x" in
  let addr := TrimPrefix addr "0X" in
  let addr := ToLower addr in
  decoded ← wrap DecodeFailed (DecodeString addr);
  if negb (length decoded =? AddressLength)%nat
  then Err (DecodedWrongLength (Z.of_nat (length decoded)))
  else Ok decoded.

Definition FromBytes (addressBytes : list byte) : outcome address_err Address :=
  if negb (length addressBytes =? AddressLength)%nat
  then Err (BytesWrongLength (Z.of_nat (length addressBytes)))
  else Ok addressBytes.

(** Methods on a possibly nil receiver. *)
Definition Address_Bytes (a : option Address) : list byte :=
  match a with None => replicate AddressLength x00 | Some a => a end.
Definition Address_String (a : option Address) : string :=
  match a with
  | None => "0x0000000000000000000000000000000000000000"
  | Some a => ("0x" ++ EncodeToString a)%string
  end.
Definition Address_Hex (a : option Address) : string :=
  match a with
  | None => "0000000000000000000000000000000000000000"
  | Some a => EncodeToString a
  end.
Definition Address_IsZero (a : option Address) : bool :=
  match a with None => true | Some a => forallb (fun b => bool_decide (b = x00)) a end.
Definition Address_Equal (a other : option Address) : bool :=
  match a, other with
  | None, None => true
  | Some a, Some other => bool_decide (a = other)
  | _, _ => false
  end.
Definition Address_Normalize (a : option Address) : string := ToLower (Address_String a).

(** ** Package-level utilities *)

Definition NormalizeAddress (addr : string) : outcome address_err string :=
  _ ← Validate addr; Ok (ToLower addr).
Definition AddressToBytes (addr : string) : outcome address_err (list byte) :=
  parsed ← wrap ParseFailed (FromString addr); Ok (Address_Bytes (Some parsed)).
Definition IsNullAddress (addr : string) : bool :=
  match FromString addr with Ok parsed => Address_IsZero (Some parsed) | _ => false end.
Definition CreateNullAddressString : string := Address_String (Some NullAddress).
Definition CompareAddresses (a b : string) : outcome address_err bool :=
  addrA ← FromString a;
  addrB ← FromString b;
  Ok (Address_Equal (Some addrA) (Some addrB)).

(** ** RLP for contract addresses *)

(** [for n > 0 { prepend byte(n); n >>= 8 }]: a uint64 needs at most 8 rounds. *)
Fixpoint toBytes_loop (fuel : nat) (n : Z) (acc : list byte) : list byte :=
  match fuel with
  | O => acc
  | S fuel' =>
      if 0 <? n then toBytes_loop fuel' (Z.shiftr n 8) (byte_of_Z (Z.land n 255) :: acc)
      else acc
  end.
Definition toBytes (n : Z) : list byte :=
  if n =? 0 then [x00] else toBytes_loop 8 n [].

Definition encodeRLPUint (n : Z) : list byte :=
  if n =? 0 then [x80]
  else if n <? 128 then [byte_of_Z n]
  else let bytes := toBytes n in
       byte_of_Z (128 + Z.of_nat (length bytes)) :: bytes.

Definition rlpEncodeCreateAddress (address : list byte) (nonce : Z) : list byte :=
  let nonceBytes := encodeRLPUint nonce in
  let listLen := 1 + Z.of_nat (length address) + Z.of_nat (length nonceBytes) in
  (if listLen <? 56 then [byte_of_Z (192 + listLen)]
   else let lenBytes := toBytes (u64 listLen) in
        byte_of_Z (247 + Z.of_nat (length lenBytes)) :: lenBytes)
  ++ x94 :: address ++ nonceBytes.

(** ** What needs Keccak-256 *)

Section Keccak.
Context (Keccak256 : list byte -> list byte).

Definition bytes_of_string (s : string) : list byte := Ascii.byte_of_ascii <$> chars s.

Definition FromPublicKey (pubKeyBytes : list byte) : outcome address_err Address :=
  if negb (length pubKeyBytes =? 65)%nat
  then Err (PublicKeyLength (Z.of_nat (length pubKeyBytes)))
  else if negb (bool_decide (head pubKeyBytes = Some x04)) then Err PublicKeyPrefix
  else Ok (drop 12 (Keccak256 (tail pubKeyBytes))).

(** The loop of [ToChecksumAddress]: [hash[i/2]] and [result[i+2]] panic out of
    range. *)
Fixpoint checksum_loop (hash : list byte) (i : nat) (addr : list ascii) (result : list ascii)
    : outcome address_err (list ascii) :=
  match addr with
  | [] => Ok result
  | char :: addr' =>
      char' ← (if (97 <=? code char) && (code char <=? 102) then
                 match hash !! (i / 2)%nat with
                 | None => Panic
                 | Some hashByte =>
                     let nibble := if (i mod 2 =? 0)%nat then Z.shiftr (Z_of_byte hashByte) 4
                                   else Z.land (Z_of_byte hashByte) 15 in
                     Ok (if 8 <=? nibble then of_code (code char - 32) else char)
                 end
               else Ok char);
      if (i + 2 <? length result)%nat
      then checksum_loop hash (S i) addr' (<[(i + 2)%nat := char']> result)
      else Panic
  end.

Definition ToChecksumAddress (addr : string) : outcome address_err string :=
  let addr := TrimPrefix (ToLower addr) "0x" in
  let hash := Keccak256 (bytes_of_string addr) in
  let result := "0"%char :: "x"%char :: replicate 40 "000"%char in
  r ← checksum_loop hash 0 (chars addr) result;
  Ok (of_chars r).

Definition ValidateChecksum (addr : string) : outcome address_err bool :=
  if negb (IsValid addr) then Ok false
  else checksummed ← ToChecksumAddress addr;
       Ok (bool_decide (addr = checksummed)).

Definition IsChecksummed (addr : string) : outcome address_err bool :=
  if negb (IsValid addr) then Ok false
  else c ← ToChecksumAddress addr; Ok (bool_decide (addr = c)).

Definition Address_ToChecksumAddress (a : option Address) : outcome address_err string :=
  match a with
  | None => Ok "0x0000000000000000000000000000000000000000"
  | Some a => ToChecksumAddress (Address_String (Some a))
  end.

Definition ChecksumAddress (addr : string) : outcome address_err string :=
  _ ← Validate addr; ToChecksumAddress addr.

Definition FormatAddress (addressBytes : list byte) : outcome address_err string :=
  addr ← FromBytes addressBytes; Address_ToChecksumAddress (Some addr).

Definition Address_Hash (a : option Address) : list byte :=
  match a with None => [] | Some a => Keccak256 a end.

Definition CreateAddress (sender : option Address) (nonce : Z) : Address :=
  match sender with
  | None => NullAddress
  | Some sender => drop 12 (Keccak256 (rlpEncodeCreateAddress (Address_Bytes (Some sender)) nonce))
  end.

Definition CreateAddress2 (sender : option Address) (salt initCodeHash : list byte) : Address :=
  match sender with
  | None => NullAddress
  | Some sender => drop 12 (Keccak256 (xff :: sender ++ salt ++ initCodeHash))
  end.

(** [MarshalText]/[UnmarshalText], and the JSON forms with the quotes around. *)
Definition quote : ascii := Ascii.ascii_of_nat 34.
Definition MarshalText (a : option Address) : outcome address_err string :=
  Address_ToChecksumAddress a.
Definition UnmarshalText (text : string) : outcome address_err Address := FromString text.
Definition MarshalJSON (a : option Address) : outcome address_err string :=
  s ← Address_ToChecksumAddress a; Ok (of_chars (quote :: chars s ++ [quote])).
Definition UnmarshalJSON (data : string) : outcome address_err Address :=
  if (length (chars data) <? 2)%nat then Err InvalidJSON
  else let addrStr := of_chars (take (length (chars data) - 2) (drop 1 (chars data))) in
       wrap ParseFailed (FromString addrStr).
End Keccak.

(** [ShortString]: the first six and the last four characters. *)
Definition ShortString (a : option Address) : string :=
  if (match a with None => true | Some _ => false end) || Address_IsZero a
  then "0x0000...0000"
  else
    let str := chars (Address_String a) in
    if (length str <? 10)%nat then of_chars str
    else (of_chars (take 6 str) ++ "..." ++ of_chars (drop (length str - 4) str))%string.

(** ** Lemmas: characters *)

Lemma code_range c : 0 <= code c < 256.
Proof. unfold code. pose proof (Ascii.N_ascii_bounded c). lia. Qed.

Lemma code_of_code z : 0 <= z < 256 -> code (of_code z) = z.
Proof. intros. unfold code, of_code. rewrite Ascii.N_ascii_embedding; lia. Qed.

Lemma of_code_code c : of_code (code c) = c.
Proof. unfold code, of_code. by rewrite N2Z.id, Ascii.ascii_N_embedding. Qed.

(** A property of all 256 characters is decided by running through them. *)
Definition all_ascii : list ascii := (fun n => of_code (Z.of_nat n)) <$> seq 0 256.

Lemma all_ascii_complete c : c ∈ all_ascii.
Proof.
  unfold all_ascii. apply list_elem_of_fmap. exists (Z.to_nat (code c)).
  pose proof (code_range c). rewrite Z2Nat.id, of_code_code by lia. split; [done|].
  apply elem_of_seq. lia.
Qed.

Lemma forall_ascii (P : ascii -> bool) : forallb P all_ascii = true -> forall c, P c = true.
Proof.
  intros HP c. rewrite forallb_forall in HP. apply HP, list_elem_of_In, all_ascii_complete.
Qed.

Lemma hexval_lower c : hexval (lower c) = hexval c.
Proof.
  apply (bool_decide_eq_true_1 (hexval (lower c) = hexval c)).
  revert c. apply (forall_ascii (fun c => bool_decide (hexval (lower c) = hexval c))).
  vm_compute. reflexivity.
Qed.

Lemma lower_idem c : lower (lower c) = lower c.
Proof.
  apply (bool_decide_eq_true_1 (lower (lower c) = lower c)).
  revert c. apply (forall_ascii (fun c => bool_decide (lower (lower c) = lower c))).
  vm_compute. reflexivity.
Qed.

Lemma hexval_range c v : hexval c = Some v -> 0 <= v < 16.
Proof. unfold hexval. repeat case_if; zbool; intros; simplify_eq; lia. Qed.

Lemma nibble_facts v :
  0 <= v < 16 ->
  hexval (hexdigit v) = Some v /\ lower (hexdigit v) = hexdigit v.
Proof.
  intros Hv. assert (v ∈ seqZ 0 16) as Hin by (apply elem_of_seqZ; lia).
  clear Hv. revert v Hin. apply Forall_forall. repeat constructor.
Qed.

Lemma hexdigit_of_hexval c v : hexval c = Some v -> hexdigit v = lower c.
Proof.
  intros Hv. pose proof (forall_ascii (fun c => match hexval c with
    | Some v => bool_decide (hexdigit v = lower c) | None => true end) eq_refl c) as Hc.
  simpl in Hc. rewrite Hv in Hc. by apply bool_decide_eq_true in Hc.
Qed.

(** ** Lemmas: hexadecimal *)

Definition is_hex (c : ascii) : Prop := is_Some (hexval c).

Lemma pair_ind {A} (P : list A -> Prop) :
  P [] -> (forall a, P [a]) -> (forall a b l, P l -> P (a :: b :: l)) -> forall l, P l.
Proof.
  intros H0 H1 H2 l. assert (P l /\ forall a, P (a :: l)) as [? _]; [|done].
  induction l as [|x l [IH IH']]; auto.
Qed.

Lemma hex_decode_lower cs bs : hex_decode cs = Ok bs -> hex_decode (lower <$> cs) = Ok bs.
Proof.
  revert bs. induction cs as [|c|p q cs IH] using pair_ind; intros bs; [done| |].
  - simpl. by destruct (hexval c).
  - rewrite !fmap_cons. cbn [hex_decode]. rewrite !hexval_lower.
    destruct (hexval p), (hexval q); try done.
    intros (bs' & Hd & [= <-])%outcome_bind_inv_ok. by rewrite (IH _ Hd).
Qed.

Lemma hex_decode_total cs n :
  length cs = (2 * n)%nat -> Forall is_hex cs -> exists bs, hex_decode cs = Ok bs.
Proof.
  revert n. induction cs as [|c|p q cs IH] using pair_ind; intros n Hlen Hf; [eauto| |].
  - simpl in Hlen. lia.
  - simpl in Hlen. apply Forall_cons in Hf as [[a Ha] [[b Hb] Hf]%Forall_cons].
    destruct (IH (n - 1)%nat) as [bs Hbs]; [lia|done|].
    simpl. rewrite Ha, Hb, Hbs. eexists. reflexivity.
Qed.

(** Nibbles: joining and splitting a byte. *)
Lemma join_nibbles a b :
  0 <= a < 16 -> 0 <= b < 16 -> Z.lor (Z.shiftl a 4) b = 16 * a + b.
Proof.
  intros Ha Hb. rewrite <-Z.add_nocarry_lor.
  - rewrite Z.shiftl_mul_pow2 by lia. lia.
  - apply Z.bits_inj'. intros n Hn. rewrite Z.land_spec, Z.bits_0.
    destruct (decide (n < 4)).
    + by rewrite Z.shiftl_spec_low.
    + rewrite (Z.bits_above_log2 b), andb_false_r; [done|lia|].
      destruct (decide (b = 0)) as [->|]; [simpl; lia|].
      apply Z.le_lt_trans with 3; [|lia]. change 3 with (Z.log2 15). apply Z.log2_le_mono. lia.
Qed.

Lemma hex_byte_split a b :
  0 <= a < 16 -> 0 <= b < 16 ->
  hex_byte (byte_of_Z (16 * a + b)) = [hexdigit a; hexdigit b].
Proof.
  intros Ha Hb. unfold hex_byte. rewrite Z_of_byte_of_Z by lia.
  change 15 with (Z.ones 4). rewrite Z.land_ones, Z.shiftr_div_pow2 by lia.
  change (2 ^ 4) with 16. f_equal; [|f_equal]; f_equal; Z.to_euclidean_division_equations; lia.
Qed.

Lemma hex_decode_inv cs bs :
  hex_decode cs = Ok bs ->
  Forall is_hex cs /\ length cs = (2 * length bs)%nat /\ hex_encode bs = lower <$> cs.
Proof.
  revert bs. induction cs as [|c|p q cs IH] using pair_ind; intros bs; cbn [hex_decode].
  - by intros [= <-].
  - by destruct (hexval c).
  - destruct (hexval p) as [a|] eqn:Hp, (hexval q) as [b|] eqn:Hq; try done.
    intros (bs' & Hd & [= <-])%outcome_bind_inv_ok.
    destruct (IH _ Hd) as (Hf & Hlen & Henc). split_and!.
    + repeat constructor; [by exists a|by exists b|done].
    + simpl. lia.
    + apply hexval_range in Hp as Ha. apply hexval_range in Hq as Hb.
      rewrite join_nibbles, !fmap_cons by done.
      change (hex_byte (byte_of_Z (16 * a + b)) ++ hex_encode bs' =
        lower p :: lower q :: (lower <$> cs)).
      rewrite Henc, hex_byte_split by done.
      by rewrite (hexdigit_of_hexval p a), (hexdigit_of_hexval q b).
Qed.

Lemma hex_decode_encode bs : hex_decode (hex_encode bs) = Ok bs.
Proof.
  induction bs as [|b bs IH]; [done|].
  change (hex_encode (b :: bs)) with (hex_byte b ++ hex_encode bs).
  pose proof (Z_of_byte_range b) as Hb.
  rewrite <-(byte_of_Z_of_byte b) at 1. rewrite (Z.div_mod (Z_of_byte b) 16) by done.
  assert (0 <= Z_of_byte b / 16 < 16) as Hd by (split; [apply Z.div_pos|apply Z.div_lt_upper_bound]; lia).
  assert (0 <= Z_of_byte b mod 16 < 16) as Hm by (apply Z.mod_pos_bound; lia).
  rewrite hex_byte_split by done. cbn [app hex_decode].
  destruct (nibble_facts _ Hd) as [-> _], (nibble_facts _ Hm) as [-> _].
  rewrite IH, join_nibbles by done. simpl. rewrite <-Z.div_mod by done.
  by rewrite byte_of_Z_of_byte.
Qed.

(** ** Lemmas: validation *)

Definition hex_part (addr : string) : string := TrimPrefix (TrimPrefix addr "0x") "0X".

(** The strings [Validate] accepts, around the 40 digits [cs]. *)
Definition shape (addr : string) (cs : list ascii) : Prop :=
  chars addr = "0"%char :: "x"%char :: cs \/
  chars addr = "0"%char :: "X"%char :: cs \/
  chars addr = "0"%char :: "x"%char :: "0"%char :: "X"%char :: cs.

Definition hex40 (cs : list ascii) : Prop := length cs = 40%nat /\ Forall is_hex cs.

Lemma has_prefix_two a b cs :
  has_prefix [a; b] cs = true <-> exists cs', cs = a :: b :: cs'.
Proof.
  destruct cs as [|x [|y cs]]; simpl; [naive_solver| |].
  - rewrite andb_false_r. naive_solver.
  - repeat case_bool_decide; naive_solver.
Qed.

Lemma trim_yes s p a b cs :
  chars p = [a; b] -> chars s = a :: b :: cs -> chars (TrimPrefix s p) = cs.
Proof.
  intros Hp Hs. unfold TrimPrefix, HasPrefix. rewrite Hp.
  rewrite (proj2 (has_prefix_two a b (chars s))) by eauto. by rewrite Hs, chars_of_chars.
Qed.

Lemma trim_no s p a b :
  chars p = [a; b] -> has_prefix [a; b] (chars s) = false -> TrimPrefix s p = s.
Proof. intros Hp Hs. unfold TrimPrefix, HasPrefix. by rewrite Hp, Hs. Qed.

Lemma hex_no_prefix cs : Forall is_hex cs -> has_prefix ["0"%char; "X"%char] cs = false.
Proof.
  intros Hf. apply not_true_is_false. intros [cs' ->]%has_prefix_two.
  apply Forall_cons in Hf as [_ [[v Hv] _]%Forall_cons]. done.
Qed.

Lemma hex_part_shape addr cs :
  shape addr cs -> Forall is_hex cs -> chars (hex_part addr) = cs.
Proof.
  intros [Hs|[Hs|Hs]] Hf; apply hex_no_prefix in Hf; unfold hex_part.
  - pose proof (trim_yes addr "0x" _ _ _ eq_refl Hs) as H1.
    rewrite (trim_no _ "0X" _ _ eq_refl); [done|]. by rewrite H1.
  - rewrite (trim_no addr "0x" _ _ eq_refl) by by rewrite Hs.
    by apply (trim_yes _ "0X" _ _ _ eq_refl).
  - pose proof (trim_yes addr "0x" _ _ _ eq_refl Hs) as H1.
    by apply (trim_yes _ "0X" _ _ _ eq_refl).
Qed.

Lemma lower_prefix_inv c1 c2 :
  lower c1 = "0"%char -> lower c2 = "x"%char ->
  c1 = "0"%char /\ (c2 = "x"%char \/ c2 = "X"%char).
Proof.
  intros H1 H2.
  pose proof (forall_ascii (fun c => implb (bool_decide (lower c = "0"%char))
    (bool_decide (c = "0"%char))) eq_refl c1) as Hc1.
  pose proof (forall_ascii (fun c => implb (bool_decide (lower c = "x"%char))
    (bool_decide (c = "x"%char \/ c = "X"%char))) eq_refl c2) as Hc2.
  simpl in *. rewrite bool_decide_eq_true_2 in Hc1, Hc2 by done. simpl in *.
  apply bool_decide_eq_true in Hc1, Hc2. done.
Qed.

Lemma hex_part_inv addr :
  HasPrefix (ToLower addr) "0x" = true -> shape addr (chars (hex_part addr)).
Proof.
  unfold HasPrefix, ToLower. rewrite chars_of_chars.
  intros (cs' & Hl)%has_prefix_two.
  destruct (chars addr) as [|c1 [|c2 cs]] eqn:Hc; [done..|]. injection Hl as Hl1 Hl2 _.
  destruct (lower_prefix_inv c1 c2 Hl1 Hl2) as [-> Hx].
  unfold shape, hex_part. rewrite Hc. destruct Hx as [-> | ->].
  - pose proof (trim_yes addr "0x" _ _ _ eq_refl Hc) as H1.
    destruct (has_prefix ["0"%char; "X"%char] cs) eqn:Hh.
    + apply has_prefix_two in Hh as [cs2 ->]. do 2 right.
      by rewrite (trim_yes _ "0X" _ _ _ eq_refl H1).
    + left. rewrite (trim_no _ "0X" _ _ eq_refl); by rewrite H1.
  - right. left. rewrite (trim_no addr "0x" _ _ eq_refl) by by rewrite Hc.
    by rewrite (trim_yes _ "0X" _ _ _ eq_refl Hc).
Qed.

Lemma shape_prefix addr cs :
  shape addr cs -> HasPrefix (ToLower addr) "0x" = true /\ (length (chars addr) =? 0)%nat = false.
Proof.
  unfold HasPrefix, ToLower. rewrite chars_of_chars. by intros [->|[->| ->]].
Qed.

Lemma Validate_iff addr :
  Validate addr = Ok tt <-> exists cs, hex40 cs /\ shape addr cs.
Proof.
  unfold Validate. fold (hex_part addr). split.
  - destruct (length (chars addr) =? 0)%nat; [done|].
    destruct (HasPrefix (ToLower addr) "0x") eqn:Hp; [|done]. simpl.
    destruct (Nat.eqb_spec (length (chars (hex_part addr))) 40) as [Hlen|]; [|done]. simpl.
    unfold DecodeString. destruct (hex_decode (chars (hex_part addr))) eqn:Hd; try done.
    intros _. apply hex_decode_inv in Hd as [Hf _].
    exists (chars (hex_part addr)). split; [by split|by apply hex_part_inv].
  - intros (cs & [Hlen Hf] & Hs). destruct (shape_prefix _ _ Hs) as [-> ->]. simpl.
    rewrite (hex_part_shape _ cs), Hlen by done. simpl.
    unfold DecodeString. rewrite (hex_part_shape _ cs) by done.
    destruct (hex_decode_total cs 20) as [bs ->]; done.
Qed.

Lemma hex_decode_cases cs : (exists bs, hex_decode cs = Ok bs) \/ exists e, hex_decode cs = Err e.
Proof.
  induction cs as [|c|p q cs IH] using pair_ind; cbn [hex_decode]; [eauto| |].
  - destruct (hexval c); eauto.
  - destruct (hexval p), (hexval q); eauto. destruct IH as [[bs ->]|[e ->]]; simpl; eauto.
Qed.

Lemma Validate_cases addr : Validate addr = Ok tt \/ exists e, Validate addr = Err e.
Proof.
  unfold Validate, DecodeString. repeat case_if; eauto.
  destruct (hex_decode_cases (chars (TrimPrefix (TrimPrefix addr "0x") "0X"))) as [[bs ->]|[e ->]];
    simpl; eauto.
Qed.

Lemma FromString_shape addr cs :
  hex40 cs -> shape addr cs ->
  exists a, FromString addr = Ok a /\ length a = AddressLength /\ hex_encode a = lower <$> cs.
Proof.
  intros [Hlen Hf] Hs. unfold FromString.
  rewrite (proj2 (Validate_iff addr)) by by exists cs.
  fold (hex_part addr). unfold ToLower. rewrite (hex_part_shape _ cs) by done.
  destruct (hex_decode_total cs 20) as [bs Hbs]; [done..|].
  pose proof (hex_decode_lower _ _ Hbs) as Hl.
  apply hex_decode_inv in Hbs as (_ & Hlb & Henc).
  unfold DecodeString. rewrite chars_of_chars, Hl. simpl.
  assert (Hl20 : length bs = 20%nat) by lia. rewrite Hl20. simpl. by exists bs.
Qed.

Lemma hex_encode_hex40 a :
  length a = AddressLength -> hex40 (hex_encode a) /\ lower <$> hex_encode a = hex_encode a.
Proof.
  intros Ha. destruct (hex_decode_inv _ _ (hex_decode_encode a)) as (Hf & Hlen & Heq).
  split; [|done]. split; [rewrite Hlen, Ha; done|done].
Qed.

Lemma chars_app s t : chars (s ++ t)%string = chars s ++ chars t.
Proof. induction s as [|c s IH]; [done|]. simpl. by f_equal. Qed.

Lemma Address_String_shape a : shape (Address_String (Some a)) (hex_encode a).
Proof.
  left. unfold Address_String. rewrite chars_app. unfold EncodeToString.
  by rewrite chars_of_chars.
Qed.

Lemma hex_encode_inj a b : hex_encode a = hex_encode b -> a = b.
Proof.
  intros H. pose proof (hex_decode_encode a) as Ha. rewrite H, hex_decode_encode in Ha.
  by injection Ha.
Qed.

(** ** Lemmas: checksums *)

(** Upper-casing a digit [a..f] undoes [lower] and keeps the value. *)
Lemma upper_digit c :
  (97 <=? code c) && (code c <=? 102) = true -> lower (of_code (code c - 32)) = c.
Proof.
  intros Hc. pose proof (forall_ascii (fun c => implb ((97 <=? code c) && (code c <=? 102))
    (bool_decide (lower (of_code (code c - 32)) = c))) eq_refl c) as H.
  simpl in H. rewrite Hc in H. simpl in H. by apply bool_decide_eq_true in H.
Qed.

Lemma checksum_loop_ok hash cs : forall i pre rest,
  (forall c, c ∈ cs -> lower c = c) ->
  length hash = 32%nat -> (i + length cs <= 64)%nat ->
  length pre = (i + 2)%nat -> (length cs <= length rest)%nat ->
  exists cs', checksum_loop hash i cs (pre ++ rest) = Ok (pre ++ cs' ++ drop (length cs) rest) /\
  lower <$> cs' = cs.
Proof.
  induction cs as [|c cs IH]; intros i pre rest Hlow Hh Hi Hpre Hrest.
  { exists []. by rewrite drop_0. }
  destruct rest as [|r rest]; simpl in Hrest; [lia|].
  assert (Hi2 : (i / 2 < length hash)%nat).
  { rewrite Hh. apply Nat.Div0.div_lt_upper_bound. simpl in Hi. lia. }
  destruct (lookup_lt_is_Some_2 hash _ Hi2) as [hb Hhb].
  assert (Hstep : exists c', lower c' = c /\
    checksum_loop hash i (c :: cs) (pre ++ r :: rest) =
    checksum_loop hash (S i) cs ((pre ++ [c']) ++ rest)).
  { cbn [checksum_loop]. rewrite Hhb.
    assert (Hlt : (i + 2 <? length (pre ++ r :: rest))%nat = true).
    { apply Nat.ltb_lt. rewrite length_app. simpl. lia. }
    assert (Hins : forall x, <[(i + 2)%nat := x]> (pre ++ r :: rest) = (pre ++ [x]) ++ rest).
    { intros x. rewrite <-Hpre, insert_app_r_alt, Nat.sub_diag, <-app_assoc by lia. done. }
    destruct ((97 <=? code c) && (code c <=? 102)) eqn:Hc.
    - match goal with |- context [8 <=? ?n] => destruct (8 <=? n) end;
        [exists (of_code (code c - 32))|exists c]; rewrite <-Hins.
      + split; [by apply upper_digit|]. simpl. by rewrite Hlt.
      + split; [apply Hlow; set_solver|]. simpl. by rewrite Hlt.
    - exists c. rewrite <-Hins. split; [apply Hlow; set_solver|]. simpl. by rewrite Hlt. }
  destruct Hstep as (c' & Hc' & ->).
  destruct (IH (S i) (pre ++ [c']) rest) as (cs' & -> & Hcs').
  - intros. apply Hlow. set_solver.
  - done.
  - simpl in Hi. lia.
  - rewrite length_app. simpl. lia.
  - lia.
  - exists (c' :: cs'). split; [by rewrite <-app_assoc|]. rewrite fmap_cons, Hc'. by f_equal.
Qed.

Lemma is_hex_lower_list cs : Forall is_hex (lower <$> cs) <-> Forall is_hex cs.
Proof.
  rewrite Forall_fmap. apply Forall_iff. intros c. unfold compose, is_hex. by rewrite hexval_lower.
Qed.

Lemma ToLower_shape_x addr cs :
  chars addr = "0"%char :: "x"%char :: cs -> chars (ToLower addr) = "0"%char :: "x"%char :: (lower <$> cs).
Proof. intros H. unfold ToLower. by rewrite chars_of_chars, H. Qed.

(** The result buffer holds 40 digits: one more and the loop panics. *)
Lemma checksum_loop_bound hash cs : forall i result r,
  checksum_loop hash i cs result = Ok r -> cs = [] \/ (i + 2 + length cs <= length result)%nat.
Proof.
  induction cs as [|c cs IH]; intros i result r; [by left|].
  cbn [checksum_loop]. intros (c' & _ & Hloop)%outcome_bind_inv_ok. right.
  destruct (Nat.ltb_spec (i + 2) (length result)); [|done].
  apply IH in Hloop as [->|Hloop]; [simpl; lia|]. rewrite length_insert in Hloop. simpl. lia.
Qed.

Lemma checksum_loop_cases hash cs : forall i result,
  (exists r, checksum_loop hash i cs result = Ok r) \/ checksum_loop hash i cs result = Panic.
Proof.
  induction cs as [|c cs IH]; intros i result; [left; eauto|]. cbn [checksum_loop].
  destruct (hash !! (i / 2)%nat); repeat case_if; simpl; eauto.
Qed.

Lemma Address_String_chars a :
  chars (Address_String (Some a)) = "0"%char :: "x"%char :: hex_encode a.
Proof.
  unfold Address_String. rewrite chars_app. unfold EncodeToString. by rewrite chars_of_chars.
Qed.

Lemma Address_String_lower a :
  length a = AddressLength -> ToLower (Address_String (Some a)) = Address_String (Some a).
Proof.
  intros Ha. destruct (hex_encode_hex40 a Ha) as [_ Hal].
  pose proof (ToLower_shape_x _ _ (Address_String_chars a)) as Hc.
  rewrite Hal, <-Address_String_chars in Hc. apply (f_equal of_chars) in Hc.
  by rewrite !of_chars_chars in Hc.
Qed.

Section KeccakLemmas.
Context (Keccak256 : list byte -> list byte).
Hypothesis Keccak256_length : forall data, length (Keccak256 data) = 32%nat.

(** The checksummed form is a case variant of the input's 40 digits, the same
    for every string with the same lower-case form. *)
Lemma ToChecksumAddress_ok addr cs :
  hex40 cs -> chars (ToLower addr) = "0"%char :: "x"%char :: cs ->
  exists s cs', ToChecksumAddress Keccak256 addr = Ok s /\
  chars s = "0"%char :: "x"%char :: cs' /\ lower <$> cs' = cs.
Proof.
  intros [Hlen Hf] Hlow. unfold ToChecksumAddress.
  rewrite (trim_yes _ "0x" _ _ _ eq_refl Hlow).
  assert (Hid : forall c, c ∈ cs -> lower c = c).
  { intros c Hc. assert (c ∈ chars (ToLower addr)) as Hin by (rewrite Hlow; set_solver).
    unfold ToLower in Hin. rewrite chars_of_chars in Hin.
    apply list_elem_of_fmap in Hin as (c0 & -> & _). apply lower_idem. }
  destruct (checksum_loop_ok (Keccak256 (bytes_of_string (TrimPrefix (ToLower addr) "0x")))
    cs 0 ["0"%char; "x"%char] (replicate 40 "000"%char)) as (cs' & Hloop & Hcs');
    [done|done|lia|done|rewrite length_replicate; lia|].
  exists (of_chars (["0"%char; "x"%char] ++ cs' ++ drop (length cs) (replicate 40 "000"%char))), cs'.
  split_and!.
  - change ("0"%char :: "x"%char :: replicate 40 "000"%char)
      with (["0"%char; "x"%char] ++ replicate 40 "000"%char).
    by rewrite Hloop.
  - rewrite chars_of_chars, Hlen, drop_replicate. simpl. by rewrite app_nil_r.
  - done.
Qed.

Lemma ToChecksumAddress_lower addr addr' :
  ToLower addr = ToLower addr' ->
  ToChecksumAddress Keccak256 addr = ToChecksumAddress Keccak256 addr'.
Proof. unfold ToChecksumAddress. by intros ->. Qed.

(** The EIP-55 form [s] of [a], and what makes it one. *)
Lemma Address_ToChecksum_spec (a : Address) :
  length a = AddressLength ->
  exists s, Address_ToChecksumAddress Keccak256 (Some a) = Ok s /\
  ToLower s = Address_String (Some a) /\ Validate s = Ok tt /\ FromString s = Ok a.
Proof.
  intros Ha. destruct (hex_encode_hex40 a Ha) as [[Hlen Hf] Hal].
  destruct (ToChecksumAddress_ok (Address_String (Some a)) (hex_encode a))
    as (s & cs' & Hck & Hs & Hcs'); [done| |].
  { by rewrite Address_String_lower, Address_String_chars. }
  assert (Hcs40 : hex40 cs').
  { split; [by rewrite <-(length_fmap lower), Hcs'|].
    apply is_hex_lower_list. by rewrite Hcs'. }
  exists s. split_and!.
  - done.
  - pose proof (ToLower_shape_x _ _ Hs) as Hc. rewrite Hcs', <-Address_String_chars in Hc.
    apply (f_equal of_chars) in Hc. by rewrite !of_chars_chars in Hc.
  - apply Validate_iff. exists cs'. split; [done|by left].
  - destruct (FromString_shape s cs' Hcs40 (or_introl Hs)) as (a' & -> & _ & He).
    rewrite Hcs' in He. by rewrite (hex_encode_inj _ _ He).
Qed.

Lemma ValidateChecksum_true t :
  ValidateChecksum Keccak256 t = Ok true <->
  IsValid t = true /\ ToChecksumAddress Keccak256 t = Ok t.
Proof.
  unfold ValidateChecksum. destruct (IsValid t); simpl; [|naive_solver].
  destruct (ToChecksumAddress Keccak256 t) as [c|e| |]; simpl; try naive_solver.
  case_bool_decide; naive_solver.
Qed.

(** A checksummed string is the EIP-55 form of what it denotes. *)
Lemma checksummed_unique t a s :
  FromString t = Ok a -> ToChecksumAddress Keccak256 t = Ok t ->
  Address_ToChecksumAddress Keccak256 (Some a) = Ok s -> t = s.
Proof.
  intros Ht Hct Hs. pose proof Ht as (u & Hu & _)%outcome_bind_inv_ok.
  destruct (Validate t) as [[]| | |] eqn:Hv; try done.
  apply Validate_iff in Hv as (cs & H40 & Hsh).
  destruct (FromString_shape t cs H40 Hsh) as (a' & Ha' & Hlen & He).
  assert (a' = a) as -> by congruence.
  assert (Hsame : chars (ToLower t) = chars (Address_String (Some a)) -> t = s).
  { intros Hc. unfold Address_ToChecksumAddress in Hs.
    rewrite (ToChecksumAddress_lower _ t) in Hs; [congruence|].
    rewrite Address_String_lower by done. apply (f_equal of_chars) in Hc.
    by rewrite !of_chars_chars in Hc. }
  rewrite Address_String_chars, He in Hsame. unfold ToLower in Hsame.
  rewrite chars_of_chars in Hsame.
  destruct Hsh as [Hsh|[Hsh|Hsh]]; rewrite Hsh in Hsame; [by apply Hsame..|].
  unfold ToChecksumAddress in Hct. apply outcome_bind_inv_ok in Hct as (r & Hloop & _).
  apply checksum_loop_bound in Hloop.
  rewrite (trim_yes (ToLower t) "0x" _ _ _ eq_refl (ToLower_shape_x t _ Hsh)) in Hloop.
  destruct H40 as [H40 _]. destruct Hloop as [?|Hloop]; [done|].
  rewrite length_fmap in Hloop. simpl in Hloop. lia.
Qed.
End KeccakLemmas.

(** ** Lemmas: RLP *)

Lemma toBytes_loop_digits fuel : forall n acc,
  0 <= n ->
  toBytes_loop fuel n (byte_of_Z <$> acc) = byte_of_Z <$> to_digits_loop 256 fuel n acc.
Proof.
  induction fuel as [|fuel IH]; intros n acc Hn; cbn [toBytes_loop to_digits_loop]; [done|].
  destruct (Z.eqb_spec n 0) as [->|]; [done|].
  rewrite (proj2 (Z.ltb_lt 0 n)) by lia.
  change 255 with (Z.ones 8). rewrite Z.land_ones, Z.shiftr_div_pow2 by lia.
  rewrite <-IH by (apply Z.div_pos; lia). done.
Qed.

Lemma toBytes_Bytes n : 0 < n -> is_u64 n -> toBytes n = Bytes n.
Proof.
  intros Hn Hu. unfold toBytes. rewrite (proj2 (Z.eqb_neq n 0)) by lia.
  change (@nil byte) with (byte_of_Z <$> []). rewrite toBytes_loop_digits by lia.
  unfold Bytes. rewrite Z.abs_eq by lia. f_equal.
  destruct (to_digits_loop_spec 256 ltac:(lia) 8 n) as (H1 & H2 & H3 & _).
  { change (256 ^ Z.of_nat 8) with two64. unfold_ints. lia. }
  destruct (to_digits_spec 256 ltac:(lia) n) as (H4 & H5 & H6 & _); [lia|].
  apply (of_digits_inj 256); try done. by rewrite H1, H4.
Qed.

Lemma toBytes_length n : 0 < n -> is_u64 n -> (1 <= length (toBytes n) <= 8)%nat.
Proof.
  intros Hn Hu. rewrite toBytes_Bytes by done. split.
  - destruct (Bytes_nonnil n Hn) as [Hne _]. destruct (Bytes n); simpl; [done|lia].
  - apply Bytes_length; [lia|]. change (256 ^ Z.of_nat 8) with two64. unfold_ints. lia.
Qed.

Lemma byte_of_Z_inj a b :
  0 <= a < 256 -> 0 <= b < 256 -> byte_of_Z a = byte_of_Z b -> a = b.
Proof.
  intros Ha Hb H. rewrite <-(Z_of_byte_of_Z a), <-(Z_of_byte_of_Z b) by done. by rewrite H.
Qed.

Lemma encodeRLPUint_inj n m :
  is_u64 n -> is_u64 m -> encodeRLPUint n = encodeRLPUint m -> n = m.
Proof.
  intros Hn Hm. unfold encodeRLPUint.
  change x80 with (byte_of_Z 128).
  destruct (Z.eqb_spec n 0) as [->|], (Z.eqb_spec m 0) as [->|]; [done|..].
  all: repeat match goal with |- context [?a <? 128] => destruct (Z.ltb_spec a 128) end.
  all: try (pose proof (toBytes_length n ltac:(unfold_ints; lia) Hn)).
  all: try (pose proof (toBytes_length m ltac:(unfold_ints; lia) Hm)).
  all: intros [= He]; try (apply byte_of_Z_inj in He; unfold_ints; lia).
  rewrite !toBytes_Bytes in * by (unfold_ints; lia).
  rewrite <-(SetBytes_Bytes n), <-(SetBytes_Bytes m) by (unfold_ints; lia). congruence.
Qed.

(** ** Properties *)

(** [Validate] accepts exactly the strings of 40 hexadecimal digits behind
    ["0x"], ["0X"] or ["0x0X"], and every function that parses after it
    succeeds on all of them: parsing yields 20 bytes whose string form is the
    lower-case digits behind ["0x"]. *)
Theorem address_accepted_exactly addr :
  (IsValid addr = true <-> exists cs, hex40 cs /\ shape addr cs) /\
  (IsValid addr = true <-> exists a, FromString addr = Ok a) /\
  (forall a, FromString addr = Ok a ->
   length a = AddressLength /\
   chars (Address_String (Some a)) = "0"%char :: "x"%char :: (lower <$> chars (hex_part addr))).
Proof.
  assert (Hv : IsValid addr = true <-> Validate addr = Ok tt).
  { unfold IsValid. destruct (Validate addr) as [[]| | |]; naive_solver. }
  rewrite Hv. split; [apply Validate_iff|].
  destruct (Validate addr) as [[]|e| |] eqn:Hval.
  2-4: unfold FromString; rewrite Hval; simpl; naive_solver.
  apply Validate_iff in Hval as (cs & H40 & Hs).
  destruct (FromString_shape addr cs H40 Hs) as (a & Ha & Hlen & Henc).
  rewrite Ha. split; [naive_solver|]. intros ? [= <-]. split; [done|].
  rewrite (hex_part_shape addr cs) by (done || apply H40).
  unfold Address_String. rewrite chars_app. unfold EncodeToString.
  by rewrite chars_of_chars, Henc.
Qed.

(** Printing and parsing an address are inverse; two spellings denote the
    same address exactly when their digits agree up to letter case. *)
Theorem address_string_roundtrip (a b : Address) s t cs ds :
  length a = AddressLength -> length b = AddressLength ->
  hex40 cs -> hex40 ds -> shape s cs -> shape t ds ->
  FromString (Address_String (Some a)) = Ok a /\
  AddressToBytes (Address_String (Some a)) = Ok a /\
  (Address_String (Some a) = Address_String (Some b) -> a = b) /\
  CompareAddresses s t = Ok (bool_decide (lower <$> cs = lower <$> ds)).
Proof.
  intros Ha Hb Hcs Hds Hs Ht.
  destruct (hex_encode_hex40 a Ha) as [Ha40 Hal].
  assert (Hrt : FromString (Address_String (Some a)) = Ok a).
  { destruct (FromString_shape _ _ Ha40 (Address_String_shape a)) as (a' & -> & _ & He).
    rewrite Hal in He. by rewrite (hex_encode_inj _ _ He). }
  split_and!; [done| | |].
  - unfold AddressToBytes. by rewrite Hrt.
  - intros Heq. apply hex_encode_inj.
    pose proof (f_equal chars Heq) as Hc. unfold Address_String in Hc.
    rewrite !chars_app in Hc. unfold EncodeToString in Hc. rewrite !chars_of_chars in Hc.
    by injection Hc.
  - destruct (FromString_shape _ _ Hcs Hs) as (a1 & Ha1 & _ & He1).
    destruct (FromString_shape _ _ Hds Ht) as (b1 & Hb1 & _ & He2).
    unfold CompareAddresses. rewrite Ha1, Hb1. simpl. f_equal.
    apply bool_decide_ext. rewrite <-He1, <-He2. split; [by intros ->|apply hex_encode_inj].
Qed.

Definition demo_upper : string := "0xABCDEF0123456789abcdefABCDEF0123456789AB".
Definition demo_lower : string := "0Xabcdef0123456789abcdefabcdef0123456789ab".

Lemma address_string_roundtrip_witness :
  CompareAddresses demo_upper demo_lower = Ok true /\
  FromString (Address_String (Some (replicate 20 x2a))) = Ok (replicate 20 x2a).
Proof.
  assert (Hf : forall s, forallb (fun c => bool_decide (is_Some (hexval c))) (chars s) = true ->
    Forall is_hex (chars s)).
  { intros s. rewrite forallb_forall. intros H. apply Forall_forall. intros c Hc.
    apply list_elem_of_In in Hc. apply H in Hc. by apply bool_decide_eq_true in Hc. }
  assert (H1 : hex40 (chars (hex_part demo_upper))) by (split; [reflexivity|by apply Hf]).
  assert (H2 : hex40 (chars (hex_part demo_lower))) by (split; [reflexivity|by apply Hf]).
  assert (Hs : shape demo_upper (chars (hex_part demo_upper))) by (left; reflexivity).
  assert (Ht : shape demo_lower (chars (hex_part demo_lower))) by (right; left; reflexivity).
  destruct (address_string_roundtrip (replicate 20 x2a) (replicate 20 x2a) _ _ _ _
    eq_refl eq_refl H1 H2 Hs Ht) as (Hr & _ & _ & Hc).
  split; [exact Hc|exact Hr].
Defined.

(** The EIP-55 form of an address parses back to it, normalises to its
    lower-case form, survives JSON and text encoding, and is the only
    checksummed spelling of the address: no other string that denotes it passes
    the checksum validation. *)
Theorem checksum_roundtrip (Keccak256 : list byte -> list byte)
  (Keccak256_length : forall data, length (Keccak256 data) = 32%nat) (a : Address) :
  length a = AddressLength ->
  exists s, Address_ToChecksumAddress Keccak256 (Some a) = Ok s /\
  FromString s = Ok a /\ NormalizeAddress s = Ok (Address_String (Some a)) /\
  (forall j, MarshalJSON Keccak256 (Some a) = Ok j -> UnmarshalJSON j = Ok a) /\
  (forall t, FromString t = Ok a -> ValidateChecksum Keccak256 t = Ok true <-> t = s).
Proof.
  intros Ha.
  destruct (Address_ToChecksum_spec Keccak256 Keccak256_length a Ha)
    as (s & Hck & HTs & Hval & Hfrom).
  exists s. split_and!; [done|done| | |].
  - unfold NormalizeAddress. by rewrite Hval, HTs.
  - unfold MarshalJSON. rewrite Hck. intros j Hj.
    assert (j = of_chars (quote :: chars s ++ [quote])) as -> by by injection Hj.
    unfold UnmarshalJSON. rewrite chars_of_chars. cbn [length drop app].
    rewrite length_app, drop_0. cbn [length].
    destruct (Nat.ltb_spec (S (length (chars s) + 1)) 2); [lia|].
    replace (S (length (chars s) + 1) - 2)%nat with (length (chars s)) by lia.
    by rewrite take_app_length, of_chars_chars, Hfrom.
  - intros t Ht. rewrite ValidateChecksum_true. split.
    + intros [_ Hct]. by apply (checksummed_unique Keccak256 t a s).
    + intros ->. unfold IsValid. rewrite Hval. split; [done|].
      rewrite <-Hck. apply ToChecksumAddress_lower. by rewrite HTs, Address_String_lower.
Qed.

Lemma checksum_roundtrip_witness :
  exists s, Address_ToChecksumAddress (fun _ => replicate 32 x9f) (Some (replicate 20 xab)) = Ok s /\
  FromString s = Ok (replicate 20 xab).
Proof.
  destruct (checksum_roundtrip (fun _ => replicate 32 x9f) (fun _ => eq_refl)
    (replicate 20 xab) eq_refl) as (s & H1 & H2 & _).
  exists s. split; [exact H1|exact H2].
Defined.

(** Contract addresses: the RLP preimage of a CREATE address determines the
    20-byte sender and the nonce, so distinct creations can only collide if the
    hash does; the header byte announces the payload length. *)
Theorem create_preimage_injective a b n m :
  length a = AddressLength -> length b = AddressLength -> is_u64 n -> is_u64 m ->
  (rlpEncodeCreateAddress a n = rlpEncodeCreateAddress b m -> a = b /\ n = m) /\
  head (rlpEncodeCreateAddress a n) =
    Some (byte_of_Z (192 + Z.of_nat (length (tail (rlpEncodeCreateAddress a n))))).
Proof.
  intros Ha Hb Hn Hm.
  assert (Hshort : forall k, is_u64 k -> (length (encodeRLPUint k) <= 9)%nat).
  { intros k Hk. unfold encodeRLPUint. repeat case_if; simpl; [lia..|]. zbool.
    pose proof (toBytes_length k). unfold_ints. lia. }
  pose proof (Hshort n Hn). pose proof (Hshort m Hm). unfold AddressLength in *.
  unfold rlpEncodeCreateAddress.
  repeat match goal with |- context [?x <? 56] => destruct (Z.ltb_spec x 56); [|lia] end.
  cbn [app tail head]. split.
  - intros [= _ Heq]. apply app_inj_1 in Heq as [-> Henc]; [|congruence].
    split; [done|]. by apply encodeRLPUint_inj.
  - do 2 f_equal. cbn [length]. rewrite length_app. lia.
Qed.

Lemma create_preimage_injective_witness :
  rlpEncodeCreateAddress NullAddress 1 <> rlpEncodeCreateAddress NullAddress 256.
Proof.
  destruct (create_preimage_injective NullAddress NullAddress 1 256) as [H _];
    [reflexivity|reflexivity|unfold_ints; lia|unfold_ints; lia|].
  intros Heq. apply H in Heq as [_ Heq]. discriminate Heq.
Defined.

(** The doubled prefix that [Validate] lets through breaks its callers: the
    normalised form of such an address is no longer valid, and the checksum
    validation panics on it instead of returning false. *)
Theorem doubled_prefix_breaks_callers (Keccak256 : list byte -> list byte) addr cs :
  hex40 cs -> chars addr = "0"%char :: "x"%char :: "0"%char :: "X"%char :: cs ->
  IsValid addr = true /\ NormalizeAddress addr = Ok (ToLower addr) /\
  IsValid (ToLower addr) = false /\ ValidateChecksum Keccak256 addr = Panic.
Proof.
  intros H40 Hc. assert (Hval : Validate addr = Ok tt).
  { apply Validate_iff. exists cs. split; [done|by do 2 right]. }
  assert (Hlow : chars (ToLower addr) = "0"%char :: "x"%char :: "0"%char :: "x"%char :: (lower <$> cs)).
  { unfold ToLower. by rewrite chars_of_chars, Hc. }
  assert (Hiv : IsValid addr = true) by (unfold IsValid; by rewrite Hval).
  split_and!; [done| | |].
  - unfold NormalizeAddress. by rewrite Hval.
  - unfold IsValid. destruct (Validate (ToLower addr)) as [[]| | |] eqn:Hv; try done.
    apply Validate_iff in Hv as (ds & [Hlen Hf] & Hsh). destruct H40 as [H40 _].
    apply (f_equal length) in Hlow as Hll. cbn [length] in Hll. rewrite length_fmap in Hll.
    destruct Hsh as [Hsh|[Hsh|Hsh]]; rewrite Hsh in Hlow, Hll; simplify_eq/=; lia.
  - unfold ValidateChecksum. rewrite Hiv. cbn [negb]. unfold ToChecksumAddress.
    rewrite (trim_yes _ "0x" _ _ _ eq_refl Hlow).
    match goal with |- context [checksum_loop ?h ?i ?l ?r] =>
      pose proof (checksum_loop_cases h l i r) as [[r' Hr]|Hr] end.
    + apply checksum_loop_bound in Hr as [?|Hr]; [done|].
      cbn [length] in Hr. rewrite length_fmap, length_replicate in Hr.
      destruct H40 as [H40 _]. lia.
    + by rewrite Hr.
Qed.

Lemma doubled_prefix_breaks_callers_witness :
  IsValid "0x0Xabcdef0123456789abcdefabcdef0123456789ab" = true /\
  ValidateChecksum (fun _ => replicate 32 x00) "0x0Xabcdef0123456789abcdefabcdef0123456789ab" = Panic.
Proof.
  destruct (doubled_prefix_breaks_callers (fun _ => replicate 32 x00)
    "0x0Xabcdef0123456789abcdefabcdef0123456789ab"
    (chars "abcdef0123456789abcdefabcdef0123456789ab")) as (H1 & _ & _ & H2).
  - split; [reflexivity|]. repeat constructor; eexists; reflexivity.
  - reflexivity.
  - split; [exact H1|exact H2].
Defined.
