(* ===== verification/Storage.v ===== *)
(** * The state store (src/storage/state.go, src/storage/uint256_compat.go, the
    keys of src/storage/badger.go and the message types of src/proto/core)

    The key-value store is one map from key strings to what is stored under
    them.  [encoding/json] is the identity on the stored value, with a nil
    slice or map equal to the empty one (the [omitempty] fields come back nil).
    Badger may refuse any read or write: [io] lists the outcomes of the coming
    accesses, [true] for a failure, none once it is exhausted.

    [AccountDB] is what the account manager relies on. *)

From S2P Require Import Prelude Uint256.
From stdpp Require Import base tactics numbers list gmap strings.
From Stdlib Require Import ZArith Lia Strings.Byte Strings.Ascii.
Open Scope Z_scope.
Open Scope list_scope.

(** ** Messages *)

Record Account : Type := MkAccount {
  acc_Address : string;
  acc_Balance : list byte;
  acc_Nonce : Z;
  acc_StakedAmount : list byte;
  acc_DelegatedTo : gmap string (list byte);
  acc_Rewards : list byte;
  acc_CodeHash : list byte;
  acc_StorageRoot : list byte
}.

Inductive TransactionType : Type :=
| TRANSFER | STAKE | UNSTAKE | DELEGATE | UNDELEGATE | CLAIM_REWARDS
| EVM_CONTRACT_CALL | EVM_CONTRACT_DEPLOY
| GOVERNANCE_PROPOSE | GOVERNANCE_VOTE | GOVERNANCE_FINALIZE
| UnknownType (n : Z).

Record Transaction : Type := MkTransaction {
  tx_Id : string;
  tx_From : string;
  tx_To : string;
  tx_Amount : list byte;
  tx_Gas : Z;
  tx_GasPrice : list byte;
  tx_Nonce : Z;
  tx_Data : list byte;
  tx_Type : TransactionType;
  tx_Signature : list byte;
  tx_Hash : string;
  tx_Timestamp : Z;
  tx_FromPubkey : list byte;
  tx_ChainId : string;
  tx_EncodingVersion : Z
}.

(** [Commission] is the bit pattern of the [float64]: it is only stored. *)
Record Validator : Type := MkValidator {
  val_Address : string;
  val_Pubkey : list byte;
  val_Name : string;
  val_Description : string;
  val_Website : string;
  val_Stake : list byte;
  val_SelfStake : list byte;
  val_DelegatedStake : list byte;
  val_Delegators : gmap string (list byte);
  val_Commission : Z;
  val_Active : bool;
  val_BlocksProposed : Z;
  val_BlocksMissed : Z;
  val_JailUntil : Z;
  val_CreatedAt : Z;
  val_UpdatedAt : Z
}.

Record Vote : Type := MkVote {
  vote_ValidatorAddress : string;
  vote_SourceBlockHash : string;
  vote_TargetBlockHash : string;
  vote_SourceEpoch : Z;
  vote_TargetEpoch : Z;
  vote_Signature : list byte
}.

Definition set_Balance (v : list byte) (a : Account) : Account :=
  MkAccount (acc_Address a) v (acc_Nonce a) (acc_StakedAmount a) (acc_DelegatedTo a)
    (acc_Rewards a) (acc_CodeHash a) (acc_StorageRoot a).
Definition set_StakedAmount (v : list byte) (a : Account) : Account :=
  MkAccount (acc_Address a) (acc_Balance a) (acc_Nonce a) v (acc_DelegatedTo a)
    (acc_Rewards a) (acc_CodeHash a) (acc_StorageRoot a).
Definition set_Rewards (v : list byte) (a : Account) : Account :=
  MkAccount (acc_Address a) (acc_Balance a) (acc_Nonce a) (acc_StakedAmount a)
    (acc_DelegatedTo a) v (acc_CodeHash a) (acc_StorageRoot a).
Definition set_DelegatedTo (v : gmap string (list byte)) (a : Account) : Account :=
  MkAccount (acc_Address a) (acc_Balance a) (acc_Nonce a) (acc_StakedAmount a) v
    (acc_Rewards a) (acc_CodeHash a) (acc_StorageRoot a).
Definition set_Address (v : string) (a : Account) : Account :=
  MkAccount v (acc_Balance a) (acc_Nonce a) (acc_StakedAmount a) (acc_DelegatedTo a)
    (acc_Rewards a) (acc_CodeHash a) (acc_StorageRoot a).

Definition set_Stake (v : list byte) (x : Validator) : Validator :=
  MkValidator (val_Address x) (val_Pubkey x) (val_Name x) (val_Description x) (val_Website x)
    v (val_SelfStake x) (val_DelegatedStake x) (val_Delegators x) (val_Commission x)
    (val_Active x) (val_BlocksProposed x) (val_BlocksMissed x) (val_JailUntil x)
    (val_CreatedAt x) (val_UpdatedAt x).
Definition set_SelfStake (v : list byte) (x : Validator) : Validator :=
  MkValidator (val_Address x) (val_Pubkey x) (val_Name x) (val_Description x) (val_Website x)
    (val_Stake x) v (val_DelegatedStake x) (val_Delegators x) (val_Commission x)
    (val_Active x) (val_BlocksProposed x) (val_BlocksMissed x) (val_JailUntil x)
    (val_CreatedAt x) (val_UpdatedAt x).
Definition set_DelegatedStake (v : list byte) (x : Validator) : Validator :=
  MkValidator (val_Address x) (val_Pubkey x) (val_Name x) (val_Description x) (val_Website x)
    (val_Stake x) (val_SelfStake x) v (val_Delegators x) (val_Commission x)
    (val_Active x) (val_BlocksProposed x) (val_BlocksMissed x) (val_JailUntil x)
    (val_CreatedAt x) (val_UpdatedAt x).
Definition set_Delegators (v : gmap string (list byte)) (x : Validator) : Validator :=
  MkValidator (val_Address x) (val_Pubkey x) (val_Name x) (val_Description x) (val_Website x)
    (val_Stake x) (val_SelfStake x) (val_DelegatedStake x) v (val_Commission x)
    (val_Active x) (val_BlocksProposed x) (val_BlocksMissed x) (val_JailUntil x)
    (val_CreatedAt x) (val_UpdatedAt x).
Definition set_Amount (v : list byte) (t : Transaction) : Transaction :=
  MkTransaction (tx_Id t) (tx_From t) (tx_To t) v (tx_Gas t) (tx_GasPrice t) (tx_Nonce t)
    (tx_Data t) (tx_Type t) (tx_Signature t) (tx_Hash t) (tx_Timestamp t) (tx_FromPubkey t)
    (tx_ChainId t) (tx_EncodingVersion t).
Definition set_GasPrice (v : list byte) (t : Transaction) : Transaction :=
  MkTransaction (tx_Id t) (tx_From t) (tx_To t) (tx_Amount t) (tx_Gas t) v (tx_Nonce t)
    (tx_Data t) (tx_Type t) (tx_Signature t) (tx_Hash t) (tx_Timestamp t) (tx_FromPubkey t)
    (tx_ChainId t) (tx_EncodingVersion t).

(** ** Iteration over a Go map

    The order is unspecified; code that ranges over a map takes one from here. *)

Class MapOrder : Type := {
  map_order : forall {V}, gmap string V -> list string;
  map_order_NoDup : forall V (m : gmap string V), NoDup (map_order m);
  map_order_elem : forall V (m : gmap string V) k, k ∈ map_order m <-> k ∈ dom m
}.

#[global] Arguments map_order {_ V} _.

#[global] Instance key_order : MapOrder.
Proof.
  refine {| map_order := fun V m => fst <$> map_to_list m |}.
  - intros. apply NoDup_fst_map_to_list.
  - intros V m k. rewrite list_elem_of_fmap, elem_of_dom. split.
    + intros ([k' v] & -> & ?%elem_of_map_to_list). by exists v.
    + intros [v Hv]. exists (k, v). by rewrite elem_of_map_to_list.
Defined.

Record BlockHeader : Type := MkBlockHeader {
  hdr_Index : Z;
  hdr_PrevHash : string;
  hdr_Timestamp : Z;
  hdr_Validator : string;
  hdr_TxRoot : string;
  hdr_StateRoot : string;
  hdr_GasUsed : Z;
  hdr_GasLimit : Z;
  hdr_Slot : Z;
  hdr_Epoch : Z;
  hdr_TotalFees : list byte;
  hdr_MerkleRoot : string;
  hdr_VrfOutput : list byte;
  hdr_VrfProof : list byte;
  hdr_StateEncodingVersion : Z
}.

Record Block : Type := MkBlock {
  blk_Header : option BlockHeader;
  blk_Transactions : list Transaction;
  blk_Hash : string;
  blk_Signature : list byte;
  blk_ProposalSignature : list byte
}.

Definition set_TotalFees (v : list byte) (h : BlockHeader) : BlockHeader :=
  MkBlockHeader (hdr_Index h) (hdr_PrevHash h) (hdr_Timestamp h) (hdr_Validator h)
    (hdr_TxRoot h) (hdr_StateRoot h) (hdr_GasUsed h) (hdr_GasLimit h) (hdr_Slot h)
    (hdr_Epoch h) v (hdr_MerkleRoot h) (hdr_VrfOutput h) (hdr_VrfProof h)
    (hdr_StateEncodingVersion h).

(** ** Errors *)

Inductive storage_err : Type :=
| ErrKeyNotFound
| BadgerKeyNotFound
| IOError
| NormalizeAmounts (e : u256_err)
| UnmarshalFailed
| ParseHeightFailed
| ParseVersionFailed
| TotalTransactionsNotFound
| TotalTransactionsGet (e : storage_err)
| TotalTransactionsLength (len : Z).

(** ** Amounts on the way in and out (uint256_compat.go)

    [x.F, err = canonicalize(x.F)]: on an error the field is overwritten with
    nil before the error is returned. *)

Section Compat.
Context `{MapOrder}.

Definition canonicalizeUint256 (raw : list byte) : outcome u256_err (list byte) :=
  value ← ParseUint256Bytes raw;
  BigIntToUint256Bytes (Some value).

Definition canonicalizeUint256Map (raw : gmap string (list byte))
    : outcome u256_err (gmap string (list byte)) :=
  range_keys (fun _ e => e) (fun key => canonicalizeUint256 (default [] (raw !! key)))
    (map_order raw) ∅.

(** One assignment [x.F, err = canon(x.F); if err != nil { return err }]. *)
Definition canon_field {X V} (canon : V -> outcome u256_err V) (nil : V)
    (f : X -> V) (set : V -> X -> X) : GoM X u256_err unit := fun x =>
  match canon (f x) with
  | Ok v => (Ok tt, set v x)
  | Err e => (Err e, set nil x)
  | Panic => (Panic, x)
  | Hang => (Hang, x)
  end.

Definition normalizeAccountCompat : GoM Account u256_err unit :=
  _ ← canon_field canonicalizeUint256 [] acc_Balance set_Balance;
  _ ← canon_field canonicalizeUint256 [] acc_StakedAmount set_StakedAmount;
  _ ← canon_field canonicalizeUint256 [] acc_Rewards set_Rewards;
  canon_field canonicalizeUint256Map ∅ acc_DelegatedTo set_DelegatedTo.

Definition syncAccountCompatForWrite : GoM Account u256_err unit := normalizeAccountCompat.

Definition normalizeTransactionCompat : GoM Transaction u256_err unit :=
  _ ← canon_field canonicalizeUint256 [] tx_Amount set_Amount;
  canon_field canonicalizeUint256 [] tx_GasPrice set_GasPrice.

Definition syncTransactionCompatForWrite : GoM Transaction u256_err unit :=
  normalizeTransactionCompat.

Definition normalizeValidatorCompat : GoM Validator u256_err unit :=
  _ ← canon_field canonicalizeUint256 [] val_Stake set_Stake;
  _ ← canon_field canonicalizeUint256 [] val_SelfStake set_SelfStake;
  _ ← canon_field canonicalizeUint256 [] val_DelegatedStake set_DelegatedStake;
  canon_field canonicalizeUint256Map ∅ val_Delegators set_Delegators.

Definition syncValidatorCompatForWrite : GoM Validator u256_err unit :=
  normalizeValidatorCompat.

Fixpoint normalizeTransactions (txs : list Transaction)
    : outcome u256_err unit * list Transaction :=
  match txs with
  | [] => (Ok tt, [])
  | tx :: txs' =>
      match normalizeTransactionCompat tx with
      | (Ok _, tx') =>
          let '(r, txs'') := normalizeTransactions txs' in (r, tx' :: txs'')
      | (r, tx') => (r, tx' :: txs')
      end
  end.

Definition normalizeBlockCompat : GoM Block u256_err unit := fun block =>
  let '(r, header) :=
    match blk_Header block with
    | None => (Ok tt, None)
    | Some h =>
        let '(r, h') := canon_field canonicalizeUint256 [] hdr_TotalFees set_TotalFees h in
        (r, Some h')
    end in
  let with_txs txs := MkBlock header txs (blk_Hash block) (blk_Signature block)
                        (blk_ProposalSignature block) in
  match r with
  | Ok _ => let '(r', txs) := normalizeTransactions (blk_Transactions block) in
            (r', with_txs txs)
  | _ => (r, with_txs (blk_Transactions block))
  end.

Definition syncBlockCompatForWrite : GoM Block u256_err unit := normalizeBlockCompat.
End Compat.

(** ** Keys *)

Definition AccountPrefix : string := "acc:".
Definition ValidatorPrefix : string := "val:".
Definition AccountKey (address : string) : string := AccountPrefix +:+ address.
Definition ValidatorKey (address : string) : string := ValidatorPrefix +:+ address.
Definition HeightKey : string := "hgt:current".
Definition StateRootKey : string := "srt:current".
Definition StateRootEncodingVersionKey : string := "srm:encoding_version".
Definition TotalTransactionsKey : string := "total_transactions".
Definition NonceKey (address : string) : string := "nonce_" +:+ address.
Definition MetaKey (key : string) : string := "meta:" +:+ key.
Definition VoteKey (epoch : Z) (validator : string) : string :=
  "consensus:vote:" +:+ String10 epoch +:+ ":" +:+ validator.

(** ** The key-value store *)

Inductive blob : Type :=
| JAccount (a : Account)
| JValidator (v : Validator)
| JVote (v : Vote)
| JBlock (b : Block)
| JTransaction (t : Transaction)
| Text (s : string)
| Raw (b : list byte).

Record KV : Type := MkKV { kv_data : gmap string blob; kv_io : list bool }.

Definition set_data (m : gmap string blob) (d : KV) : KV := MkKV m (kv_io d).

(** One access to Badger: it may fail before doing anything. *)
Definition access : GoM KV storage_err unit := fun d =>
  match kv_io d with
  | true :: io => (Err IOError, MkKV (kv_data d) io)
  | false :: io => (Ok tt, MkKV (kv_data d) io)
  | [] => (Ok tt, d)
  end.

Definition kv_Get (key : string) : GoM KV storage_err blob :=
  _ ← access;
  d ← get;
  match kv_data d !! key with
  | None => throw ErrKeyNotFound
  | Some v => mret v
  end.

Definition kv_Set (key : string) (value : blob) : GoM KV storage_err unit :=
  _ ← access;
  modify (fun d => set_data (<[key := value]> (kv_data d)) d).

Definition kv_Has (key : string) : GoM KV storage_err bool :=
  _ ← access;
  d ← get;
  mret (bool_decide (is_Some (kv_data d !! key))).

(** Running a call on one half of the state. *)
Definition on_fst {A B E X} (m : GoM A E X) : GoM (A * B) E X := fun '(a, b) =>
  let '(r, a') := m a in (r, (a', b)).
Definition on_snd {A B E X} (m : GoM B E X) : GoM (A * B) E X := fun '(a, b) =>
  let '(r, b') := m b in (r, (a, b')).

(** ** [StateStorage] *)

Section StateStorage.
Context `{MapOrder}.

(** The caller's object is normalised in place, then written. *)
Definition SaveAccount : GoM (Account * KV) storage_err unit :=
  _ ← wrapM NormalizeAmounts (on_fst syncAccountCompatForWrite);
  '(account, _) ← get;
  on_snd (kv_Set (AccountKey (acc_Address account)) (JAccount account)).

(** What [json.Unmarshal] and the read-side normalisation make of stored data. *)
Definition decode_account (data : blob) : outcome storage_err Account :=
  match data with
  | JAccount a =>
      let '(r, a') := normalizeAccountCompat a in
      _ ← wrap NormalizeAmounts r; Ok a'
  | _ => Err UnmarshalFailed
  end.

Definition GetAccount (address : string) : GoM KV storage_err (option Account) := fun d =>
  match kv_Get (AccountKey address) d with
  | (Ok data, d') => (a ← decode_account data; Ok (Some a), d')
  | (Err ErrKeyNotFound, d') => (Ok None, d')
  | (Err e, d') => (Err e, d')
  | (Panic, d') => (Panic, d')
  | (Hang, d') => (Hang, d')
  end.

Definition SaveValidator : GoM (Validator * KV) storage_err unit :=
  _ ← wrapM NormalizeAmounts (on_fst syncValidatorCompatForWrite);
  '(validator, _) ← get;
  on_snd (kv_Set (ValidatorKey (val_Address validator)) (JValidator validator)).

Definition decode_validator (data : blob) : outcome storage_err Validator :=
  match data with
  | JValidator v =>
      let '(r, v') := normalizeValidatorCompat v in
      _ ← wrap NormalizeAmounts r; Ok v'
  | _ => Err UnmarshalFailed
  end.

Definition GetValidator (address : string) : GoM KV storage_err (option Validator) := fun d =>
  match kv_Get (ValidatorKey address) d with
  | (Ok data, d') => (v ← decode_validator data; Ok (Some v), d')
  | (Err ErrKeyNotFound, d') => (Ok None, d')
  | (Err e, d') => (Err e, d')
  | (Panic, d') => (Panic, d')
  | (Hang, d') => (Hang, d')
  end.

(** The prefix iterator: a value that cannot be read or decoded is skipped, and
    [iter.Error()] is always nil. *)
Fixpoint iterate {X} (decode : blob -> outcome storage_err X) (addr : X -> string)
    (keys : list string) (out : gmap string X) (d : KV) : gmap string X * KV :=
  match keys with
  | [] => (out, d)
  | key :: keys' =>
      match kv_Get key d with
      | (Ok data, d') =>
          match decode data with
          | Ok x => iterate decode addr keys' (<[addr x := x]> out) d'
          | _ => iterate decode addr keys' out d'
          end
      | (_, d') => iterate decode addr keys' out d'
      end
  end.

Definition keys_with_prefix (prefix : string) (d : KV) : list string :=
  filter (fun k => String.prefix prefix k = true) (map_order (kv_data d)).

Definition GetAllAccounts (d : KV) : gmap string Account * KV :=
  iterate decode_account acc_Address (keys_with_prefix AccountPrefix d) ∅ d.

Definition GetAllValidators (d : KV) : gmap string Validator * KV :=
  iterate decode_validator val_Address (keys_with_prefix ValidatorPrefix d) ∅ d.

(** Height, state root, encoding version, metadata: text under fixed keys. *)
Definition get_text (key : string) (missing : string) : GoM KV storage_err string := fun d =>
  match kv_Get key d with
  | (Ok (Text s), d') => (Ok s, d')
  | (Ok _, d') => (Err UnmarshalFailed, d')
  | (Err ErrKeyNotFound, d') => (Ok missing, d')
  | (Err e, d') => (Err e, d')
  | (Panic, d') => (Panic, d')
  | (Hang, d') => (Hang, d')
  end.

Definition SaveHeight (height : Z) : GoM KV storage_err unit :=
  kv_Set HeightKey (Text (String10 height)).

Definition GetHeight : GoM KV storage_err Z :=
  s ← get_text HeightKey (String10 (-1));
  match SetString10 s with
  | Some height => if decide (is_i64 height) then mret height else throw ParseHeightFailed
  | None => throw ParseHeightFailed
  end.

Definition SaveStateRoot (stateRoot : string) : GoM KV storage_err unit :=
  kv_Set StateRootKey (Text stateRoot).
Definition GetStateRoot : GoM KV storage_err string := get_text StateRootKey "".

Definition SaveStateRootEncodingVersion (version : Z) : GoM KV storage_err unit :=
  kv_Set StateRootEncodingVersionKey (Text (String10 version)).
Definition GetStateRootEncodingVersion : GoM KV storage_err Z :=
  s ← get_text StateRootEncodingVersionKey (String10 0);
  match SetString10 s with
  | Some version =>
      if (0 <=? version) && (version <? two32) then mret version else throw ParseVersionFailed
  | None => throw ParseVersionFailed
  end.

Definition SetMetadata (key value : string) : GoM KV storage_err unit :=
  kv_Set (MetaKey key) (Text value).
Definition GetMetadata (key : string) : GoM KV storage_err string := get_text (MetaKey key) "".

(** [binary.BigEndian]: eight bytes, and a panic on a shorter slice. *)
Definition PutUint64 (n : Z) : list byte :=
  let bs := Bytes (u64 n) in replicate (8 - length bs) x00 ++ bs.
Definition Uint64 {E} (b : list byte) : outcome E Z :=
  if (length b <? 8)%nat then Panic else Ok (SetBytes (take 8 b)).

#[global] Arguments PutUint64 : simpl never.
#[global] Arguments Uint64 : simpl never.

Definition SaveTotalTransactions (count : Z) : GoM KV storage_err unit :=
  kv_Set TotalTransactionsKey (Raw (PutUint64 count)).

Definition GetTotalTransactions : GoM KV storage_err Z := fun d =>
  match kv_Get TotalTransactionsKey d with
  | (Ok (Raw data), d') =>
      if negb (length data =? 8)%nat
      then (Err (TotalTransactionsLength (Z.of_nat (length data))), d')
      else (c ← Uint64 data; Ok (i64 c), d')
  | (Ok _, d') => (Err UnmarshalFailed, d')
  | (Err ErrKeyNotFound, d') => (Err TotalTransactionsNotFound, d')
  | (Err e, d') => (Err (TotalTransactionsGet e), d')
  | (Panic, d') => (Panic, d')
  | (Hang, d') => (Hang, d')
  end.

(** Votes: the key names the epoch and the validator. *)
Definition SaveConsensusVote (vote : Vote) : GoM KV storage_err unit :=
  kv_Set (VoteKey (vote_TargetEpoch vote) (vote_ValidatorAddress vote)) (JVote vote).
Definition HasVoted (epoch : Z) (validatorAddr : string) : GoM KV storage_err bool :=
  kv_Has (VoteKey epoch validatorAddr).

(** Nonces: a Badger transaction reads, compares and writes, or does nothing.
    The result is [(success, currentNonce)]. *)
Definition AtomicIncrementNonce (address : string) (expectedNonce : Z)
    : GoM KV storage_err (bool * Z) :=
  let key := NonceKey address in
  _ ← access;
  d ← get;
  currentNonce ← match kv_data d !! key with
                 | None => mret 0
                 | Some (Raw val) => lift (Uint64 val)
                 | Some _ => throw UnmarshalFailed
                 end;
  if negb (currentNonce =? expectedNonce) then mret (false, currentNonce)
  else
    _ ← modify (fun d => set_data (<[key := Raw (PutUint64 (u64 (currentNonce + 1)))]> (kv_data d)) d);
    mret (true, currentNonce).

(** The read-only form tests for Badger's own not-found error, which [Get] has
    already replaced by the package's. *)
Definition GetNonce (address : string) : GoM KV storage_err Z := fun d =>
  match kv_Get (NonceKey address) d with
  | (Ok (Raw val), d') => (Uint64 val, d')
  | (Ok _, d') => (Err UnmarshalFailed, d')
  | (Err BadgerKeyNotFound, d') => (Ok 0, d')
  | (Err e, d') => (Err e, d')
  | (Panic, d') => (Panic, d')
  | (Hang, d') => (Hang, d')
  end.
End StateStorage.

(** ** Canonical records *)

Definition canon (raw : list byte) : Prop := canonicalizeUint256 raw = Ok raw.

Definition canon_account (a : Account) : Prop :=
  canon (acc_Balance a) /\ canon (acc_StakedAmount a) /\ canon (acc_Rewards a) /\
  map_Forall (fun _ => canon) (acc_DelegatedTo a).

Lemma canon_iff raw :
  canon raw <-> ValidateCanonicalUint256Bytes raw = Ok tt /\ Bytes (SetBytes raw) = raw.
Proof.
  unfold canon. change (canonicalizeUint256 raw) with (CanonicalizeUint256Bytes raw).
  rewrite canonicalize_ok. naive_solver.
Qed.

Lemma canon_Bytes v : 0 <= v < two256 -> canon (Bytes v).
Proof.
  intros Hv. apply canon_iff. by rewrite Bytes_canonical, SetBytes_Bytes by lia.
Qed.

Lemma canonicalizeUint256_ok raw raw' :
  canonicalizeUint256 raw = Ok raw' -> canon raw' /\ SetBytes raw' = SetBytes raw.
Proof.
  change (canonicalizeUint256 raw) with (CanonicalizeUint256Bytes raw).
  intros [Hv ->]%canonicalize_ok. pose proof (SetBytes_u256 _ Hv).
  by rewrite SetBytes_Bytes by lia; split; [apply canon_Bytes|].
Qed.

Lemma canon_parse raw : canon raw -> ParseBigInt_bytes raw = SetBytes raw.
Proof.
  intros [Hv _]%canon_iff. unfold ParseBigInt_bytes. rewrite Hv.
  destruct raw; simpl; done.
Qed.

Lemma canon_range raw : canon raw -> 0 <= SetBytes raw < two256.
Proof. intros [Hv _]%canon_iff. by apply SetBytes_u256. Qed.

Lemma canon_encode raw : canon raw -> BigIntToUint256Bytes (Some (SetBytes raw)) = Ok raw.
Proof.
  intros Hc. apply encode_ok. split; [by apply canon_range|]. by apply canon_iff in Hc as [_ ->].
Qed.

Section CompatLemmas.
Context `{MapOrder}.

Lemma canonicalizeUint256Map_canon (m : gmap string (list byte)) :
  map_Forall (fun _ => canon) m -> canonicalizeUint256Map m = Ok m.
Proof.
  intros Hm. unfold canonicalizeUint256Map. apply range_keys_ok; [apply map_order_NoDup|].
  split; intros k; rewrite map_order_elem, elem_of_dom.
  - intros [v Hv]. exists v. rewrite Hv. split; [by apply (Hm k)|done].
  - intros Hk%eq_None_not_Some. by rewrite Hk, lookup_empty.
Qed.

Lemma canonicalizeUint256Map_ok (m m' : gmap string (list byte)) :
  canonicalizeUint256Map m = Ok m' ->
  map_Forall (fun _ => canon) m' /\ SetBytes <$> m' = SetBytes <$> m.
Proof.
  intros [H1 H2]%range_keys_ok; [|apply map_order_NoDup].
  assert (Hk : forall k, match m !! k, m' !! k with
    | Some v, Some v' => canonicalizeUint256 v = Ok v' | None, None => True | _, _ => False end).
  { intros k. destruct (decide (k ∈ map_order m)) as [Hk|Hk].
    - destruct (H1 k Hk) as (v' & Hv' & ->). apply map_order_elem, elem_of_dom in Hk as [v Hv].
      by rewrite Hv in Hv' |- *.
    - rewrite (H2 k Hk), lookup_empty. rewrite map_order_elem, elem_of_dom in Hk.
      by apply eq_None_not_Some in Hk as ->. }
  split.
  - intros k v' Hv'. specialize (Hk k). rewrite Hv' in Hk. destruct (m !! k); [|done].
    by apply canonicalizeUint256_ok in Hk as [? _].
  - apply map_eq. intros k. rewrite !lookup_fmap. specialize (Hk k).
    destruct (m !! k), (m' !! k); try done. simpl. f_equal.
    by apply canonicalizeUint256_ok in Hk as [_ ?].
Qed.

Lemma normalizeAccountCompat_canon a :
  canon_account a -> normalizeAccountCompat a = (Ok tt, a).
Proof.
  destruct a. intros (Hb & Hs & Hr & Hd). simpl in *.
  unfold normalizeAccountCompat, mbind, GoM_bind, canon_field. simpl.
  rewrite Hb. simpl. rewrite Hs. simpl. rewrite Hr. simpl.
  by rewrite canonicalizeUint256Map_canon by done.
Qed.
End CompatLemmas.

(** The values an account carries, whatever their encoding. *)
Definition account_values (a : Account) : Z * Z * Z * gmap string Z :=
  (SetBytes (acc_Balance a), SetBytes (acc_StakedAmount a), SetBytes (acc_Rewards a),
   SetBytes <$> acc_DelegatedTo a).

Section CompatLemmas2.
Context `{MapOrder}.

Lemma normalizeAccountCompat_ok a a' :
  normalizeAccountCompat a = (Ok tt, a') ->
  canon_account a' /\ account_values a' = account_values a /\ acc_Address a' = acc_Address a /\
  acc_Nonce a' = acc_Nonce a.
Proof.
  unfold normalizeAccountCompat, mbind, GoM_bind, canon_field.
  destruct (canonicalizeUint256 (acc_Balance a)) as [b| | |] eqn:Hb; try done. simpl.
  destruct (canonicalizeUint256 (acc_StakedAmount a)) as [s| | |] eqn:Hs; try done. simpl.
  destruct (canonicalizeUint256 (acc_Rewards a)) as [r| | |] eqn:Hr; try done. simpl.
  destruct (canonicalizeUint256Map (acc_DelegatedTo a)) as [d| | |] eqn:Hd; try done.
  intros [= <-]. unfold account_values, canon_account. simpl.
  apply canonicalizeUint256_ok in Hb as [? ->], Hs as [? ->], Hr as [? ->].
  by apply canonicalizeUint256Map_ok in Hd as [? ->].
Qed.
End CompatLemmas2.

(** ** The accounts in the store *)

Definition strip_acc (k : string) : option string :=
  match k with
  | String a (String b (String c (String d r))) =>
      if bool_decide ([a; b; c; d] = ["a"; "c"; "c"; ":"]%char) then Some r else None
  | _ => None
  end.

Lemma strip_acc_spec k r : strip_acc k = Some r <-> k = AccountKey r.
Proof.
  unfold AccountKey, AccountPrefix. split; [|by intros ->].
  destruct k as [|a [|b [|c [|d k]]]]; simpl; try done. case_bool_decide; naive_solver.
Qed.

Definition account_keys (m : gmap string blob) : gset string :=
  list_to_set (omap strip_acc (elements (dom m))).

Definition accounts_view (d : KV) : gmap string Account :=
  map_imap (fun k _ => match kv_data d !! AccountKey k with
                       | Some (JAccount a) => Some a
                       | _ => None
                       end) (gset_to_gmap tt (account_keys (kv_data d))).

Lemma accounts_view_lookup d k :
  accounts_view d !! k =
  match kv_data d !! AccountKey k with Some (JAccount a) => Some a | _ => None end.
Proof.
  unfold accounts_view. rewrite map_lookup_imap.
  destruct (gset_to_gmap tt (account_keys (kv_data d)) !! k) eqn:Hk; simpl; [done|].
  apply lookup_gset_to_gmap_None in Hk.
  destruct (kv_data d !! AccountKey k) as [b|] eqn:Hd; [|done].
  exfalso. apply Hk. unfold account_keys. apply elem_of_list_to_set, list_elem_of_omap.
  exists (AccountKey k). split; [|by apply strip_acc_spec].
  apply elem_of_elements, elem_of_dom. eauto.
Qed.

Lemma AccountKey_inj a b : AccountKey a = AccountKey b -> a = b.
Proof. unfold AccountKey, AccountPrefix. intros [= Heq]. exact Heq. Qed.

Lemma accounts_view_save d a io :
  accounts_view (MkKV (<[AccountKey (acc_Address a) := JAccount a]> (kv_data d)) io) =
  <[acc_Address a := a]> (accounts_view d).
Proof.
  apply map_eq. intros k. rewrite accounts_view_lookup. simpl.
  destruct (decide (k = acc_Address a)) as [->|Hne].
  - by rewrite !lookup_insert_eq.
  - rewrite !lookup_insert_ne by (done || intros ?%AccountKey_inj; done).
    by rewrite accounts_view_lookup.
Qed.

Lemma accounts_view_io d io : accounts_view (MkKV (kv_data d) io) = accounts_view d.
Proof. apply map_eq. intros k. by rewrite !accounts_view_lookup. Qed.

(** Every stored account is canonical and sits under its own address, and an
    account key holds nothing else. *)
Definition db_ok (d : KV) : Prop :=
  forall k b, kv_data d !! AccountKey k = Some b ->
  exists a, b = JAccount a /\ canon_account a /\ acc_Address a = k.

Definition quiet (d : KV) : Prop := kv_io d = [].

(** ** What the account manager relies on *)

Class AccountDB (D : Type) : Type := {
  dbGet : string -> GoM D storage_err (option Account);
  dbSave : GoM (Account * D) storage_err unit;
  dbAll : D -> gmap string Account * D;
  dbView : D -> gmap string Account;
  dbOK : D -> Prop;
  dbQuiet : D -> Prop
}.

Class AccountDBLaws (D : Type) `{AccountDB D} : Prop := {
  dbView_ok : forall d k a, dbOK d -> dbView d !! k = Some a ->
    canon_account a /\ acc_Address a = k;
  dbGet_quiet : forall d k, dbOK d -> dbQuiet d -> dbGet k d = (Ok (dbView d !! k), d);
  dbGet_cases : forall d k, dbOK d -> exists r d', dbGet k d = (r, d') /\
    dbView d' = dbView d /\ dbOK d' /\ (r = Ok (dbView d !! k) \/ exists e, r = Err e);
  dbSave_quiet : forall d a, dbOK d -> dbQuiet d -> canon_account a ->
    exists d', dbSave (a, d) = (Ok tt, (a, d')) /\ dbQuiet d' /\ dbOK d' /\
    dbView d' = <[acc_Address a := a]> (dbView d);
  dbSave_cases : forall d a, dbOK d -> canon_account a ->
    exists r d', dbSave (a, d) = (r, (a, d')) /\ dbOK d' /\
    ((r = Ok tt /\ dbView d' = <[acc_Address a := a]> (dbView d)) \/
     (exists e, r = Err e /\ dbView d' = dbView d));
  dbAll_quiet : forall d, dbOK d -> dbQuiet d -> dbAll d = (dbView d, d)
}.

Section Laws.
Context `{MapOrder}.

#[global] Instance StateStorage_db : AccountDB KV := {|
  dbGet := GetAccount; dbSave := SaveAccount; dbAll := GetAllAccounts;
  dbView := accounts_view; dbOK := db_ok; dbQuiet := quiet |}.

Lemma db_ok_view d k a : db_ok d -> accounts_view d !! k = Some a ->
  kv_data d !! AccountKey k = Some (JAccount a) /\ canon_account a /\ acc_Address a = k.
Proof.
  intros Hok. rewrite accounts_view_lookup. destruct (kv_data d !! AccountKey k) as [b|] eqn:Hd; [|done].
  destruct (Hok k b Hd) as (a' & -> & Hc & Ha). naive_solver.
Qed.

Lemma db_ok_save d a io :
  db_ok d -> canon_account a ->
  db_ok (MkKV (<[AccountKey (acc_Address a) := JAccount a]> (kv_data d)) io).
Proof.
  intros Hok Hc k b. simpl. destruct (decide (k = acc_Address a)) as [->|Hne].
  - rewrite lookup_insert_eq. intros [= <-]. eauto.
  - rewrite lookup_insert_ne by (intros ?%AccountKey_inj; done). apply Hok.
Qed.

Lemma decode_account_canon a : canon_account a -> decode_account (JAccount a) = Ok a.
Proof. intros Hc. simpl. by rewrite normalizeAccountCompat_canon. Qed.

(** A read, after the access has been allowed. *)
Lemma GetAccount_go d d1 k :
  db_ok d -> access d = (Ok tt, d1) -> kv_data d1 = kv_data d ->
  GetAccount k d = (Ok (accounts_view d !! k), d1).
Proof.
  intros Hok Hacc Hdata. unfold GetAccount, kv_Get, mbind, GoM_bind. rewrite Hacc. simpl.
  rewrite Hdata, accounts_view_lookup.
  destruct (kv_data d !! AccountKey k) as [b|] eqn:Hd; simpl; [|done].
  destruct (Hok k b Hd) as (a & -> & Hc & _). by rewrite decode_account_canon.
Qed.

Lemma SaveAccount_go d d1 a :
  canon_account a -> access d = (Ok tt, d1) ->
  SaveAccount (a, d) =
    (Ok tt, (a, MkKV (<[AccountKey (acc_Address a) := JAccount a]> (kv_data d1)) (kv_io d1))).
Proof.
  intros Hc Hacc. unfold SaveAccount, mbind, GoM_bind, wrapM, on_fst, on_snd, kv_Set.
  rewrite normalizeAccountCompat_canon by done. simpl.
  unfold mbind, GoM_bind. by rewrite Hacc.
Qed.

Lemma access_quiet d : quiet d -> access d = (Ok tt, d).
Proof. unfold access. by intros ->. Qed.

Lemma GetAccount_quiet d k :
  db_ok d -> quiet d -> GetAccount k d = (Ok (accounts_view d !! k), d).
Proof. intros Hok Hq. by apply (GetAccount_go d d); [|apply access_quiet|]. Qed.

Lemma access_cases d :
  (exists d1, access d = (Ok tt, d1) /\ kv_data d1 = kv_data d) \/
  (exists d1, access d = (Err IOError, d1) /\ kv_data d1 = kv_data d).
Proof. unfold access. destruct (kv_io d) as [|[] io]; naive_solver. Qed.

Lemma prefix_acc k : String.prefix AccountPrefix k = true -> exists r, k = AccountKey r.
Proof.
  intros Hp%String.prefix_correct.
  destruct k as [|a [|b [|c [|d k]]]]; simpl in Hp; try done.
  injection Hp as -> -> -> ->. by exists k.
Qed.

Lemma iterate_accounts d keys : forall out,
  db_ok d -> quiet d ->
  (forall key, key ∈ keys -> exists r, key = AccountKey r /\ is_Some (accounts_view d !! r)) ->
  exists res, iterate decode_account acc_Address keys out d = (res, d) /\
  forall k, res !! k = if bool_decide (AccountKey k ∈ keys) then accounts_view d !! k else out !! k.
Proof.
  induction keys as [|key keys IH]; intros out Hok Hq Hkeys.
  { exists out. split; [done|]. intros k. by rewrite bool_decide_eq_false_2 by set_solver. }
  destruct (Hkeys key) as (r & -> & [a Ha]); [set_solver|].
  destruct (db_ok_view d r a Hok Ha) as (Hd & Hc & Haddr). cbn [iterate].
  assert (Hget : kv_Get (AccountKey r) d = (Ok (JAccount a), d)).
  { unfold kv_Get, mbind, GoM_bind, access. rewrite Hq. simpl. by rewrite Hd. }
  rewrite Hget, decode_account_canon, Haddr by done.
  destruct (IH (<[r := a]> out) Hok Hq) as (res & -> & Hres); [set_solver|].
  exists res. split; [done|]. intros k. rewrite Hres.
  destruct (decide (k = r)) as [->|Hne].
  - rewrite lookup_insert_eq, Ha. rewrite (bool_decide_eq_true_2 (_ ∈ _ :: _)) by set_solver.
    by case_bool_decide.
  - rewrite lookup_insert_ne by done.
    assert (AccountKey k <> AccountKey r) by (intros ?%AccountKey_inj; done).
    rewrite (bool_decide_ext (AccountKey k ∈ AccountKey r :: keys) (AccountKey k ∈ keys)); [done|].
    set_solver.
Qed.

Lemma GetAllAccounts_quiet d : db_ok d -> quiet d -> GetAllAccounts d = (accounts_view d, d).
Proof.
  intros Hok Hq. unfold GetAllAccounts.
  destruct (iterate_accounts d (keys_with_prefix AccountPrefix d) ∅ Hok Hq) as (res & -> & Hres).
  { intros key [Hp Hin]%list_elem_of_filter. destruct (prefix_acc key Hp) as [r ->].
    exists r. split; [done|]. apply map_order_elem, elem_of_dom in Hin as [b Hb].
    destruct (Hok r b Hb) as (a & -> & _). rewrite accounts_view_lookup, Hb. eauto. }
  f_equal. apply map_eq. intros k. rewrite Hres. case_bool_decide as Hin; [done|].
  rewrite lookup_empty. symmetry. rewrite accounts_view_lookup.
  destruct (kv_data d !! AccountKey k) eqn:Hd; [|done]. exfalso. apply Hin.
  apply list_elem_of_filter. split; [by destruct k|]. apply map_order_elem, elem_of_dom. eauto.
Qed.

#[global] Instance StateStorage_laws : AccountDBLaws KV.
Proof.
  split; simpl.
  - intros d k a Hok (_ & ? & ?)%db_ok_view; done.
  - apply GetAccount_quiet.
  - intros d k Hok. destruct (access_cases d) as [(d1 & Hacc & Hdata)|(d1 & Hacc & Hdata)].
    + exists (Ok (accounts_view d !! k)), d1.
      rewrite (GetAccount_go d d1 k Hok Hacc Hdata). split_and!; [done| | |by left].
      * destruct d1. simpl in Hdata. subst. apply accounts_view_io.
      * intros j b. rewrite Hdata. apply Hok.
    + exists (Err IOError), d1. split_and!; [| | |by eauto].
      * unfold GetAccount, kv_Get, mbind, GoM_bind. by rewrite Hacc.
      * destruct d1. simpl in Hdata. subst. apply accounts_view_io.
      * intros j b. rewrite Hdata. apply Hok.
  - intros d a Hok Hq Hc. eexists. rewrite (SaveAccount_go d d a Hc) by by apply access_quiet.
    split_and!; [done|done|by apply db_ok_save|apply accounts_view_save].
  - intros d a Hok Hc. destruct (access_cases d) as [(d1 & Hacc & Hdata)|(d1 & Hacc & Hdata)].
    + exists (Ok tt). eexists. rewrite (SaveAccount_go d d1 a Hc Hacc). split_and!; [done| |].
      * rewrite Hdata. by apply db_ok_save.
      * left. split; [done|]. rewrite Hdata. apply accounts_view_save.
    + exists (Err IOError), d1. split_and!.
      * unfold SaveAccount, mbind, GoM_bind, wrapM, on_fst, on_snd, kv_Set.
        rewrite normalizeAccountCompat_canon by done. simpl.
        unfold mbind, GoM_bind. by rewrite Hacc.
      * intros j b. rewrite Hdata. apply Hok.
      * right. exists IOError. split; [done|]. destruct d1. simpl in Hdata. subst.
        apply accounts_view_io.
  - apply GetAllAccounts_quiet.
Qed.
End Laws.

(** ** Nonces and vote keys *)

Lemma SetBytes_zeros n bs : SetBytes (replicate n x00 ++ bs) = SetBytes bs.
Proof.
  unfold SetBytes. rewrite fmap_app, fmap_replicate. change (Z_of_byte x00) with 0.
  unfold of_digits. rewrite foldl_app. f_equal. induction n as [|n IH]; [done|exact IH].
Qed.

Lemma PutUint64_length n : length (PutUint64 n) = 8%nat.
Proof.
  unfold PutUint64. rewrite length_app, length_replicate.
  assert (length (Bytes (u64 n)) <= 8)%nat; [|lia].
  pose proof (u64_range n). apply Bytes_length; [unfold_ints; lia|].
  change (256 ^ Z.of_nat 8) with two64. unfold_ints. lia.
Qed.

Lemma Uint64_PutUint64 {E} n : @Uint64 E (PutUint64 n) = Ok (u64 n).
Proof.
  unfold Uint64. rewrite PutUint64_length. simpl. f_equal.
  rewrite take_ge by by rewrite PutUint64_length. unfold PutUint64.
  rewrite SetBytes_zeros, SetBytes_Bytes; [done|]. pose proof (u64_range n). unfold_ints. lia.
Qed.

(** The nonce kept for an address, 0 when there is none. *)
Definition stored_nonce (d : KV) (address : string) : option Z :=
  match kv_data d !! NonceKey address with
  | None => Some 0
  | Some (Raw val) => match @Uint64 unit val with Ok n => Some n | _ => None end
  | Some _ => None
  end.

Lemma NonceKey_inj a b : NonceKey a = NonceKey b -> a = b.
Proof. unfold NonceKey. intros [= Heq]. exact Heq. Qed.

Lemma separator_inj {A} (x : A) l1 : forall l2 r1 r2,
  x ∉ l1 -> x ∉ l2 -> l1 ++ x :: r1 = l2 ++ x :: r2 -> l1 = l2 /\ r1 = r2.
Proof.
  induction l1 as [|a l1 IH]; intros [|b l2] r1 r2 H1 H2; simpl.
  - by intros [= ->].
  - intros [= -> _]. set_solver.
  - intros [= -> _]. set_solver.
  - intros [= -> Heq]. destruct (IH l2 r1 r2) as [-> ->]; set_solver.
Qed.

Lemma chars_append s t :
  String.list_ascii_of_string (s +:+ t) =
  String.list_ascii_of_string s ++ String.list_ascii_of_string t.
Proof. induction s as [|c s IH]; [done|]. simpl. by f_equal. Qed.

Lemma String10_no_colon v :
  0 <= v -> ":"%char ∉ String.list_ascii_of_string (String10 v).
Proof.
  intros Hv. unfold String10. rewrite (proj2 (Z.ltb_ge v 0)) by done.
  rewrite String.list_ascii_of_string_of_list_ascii. unfold decimal_digits.
  destruct (to_digits_spec 10 ltac:(lia) v Hv) as (_ & Hd & _).
  destruct (to_digits 10 v) as [|d l]; [by intros ?%list_elem_of_singleton|].
  intros (z & Hz & Hin)%list_elem_of_fmap. rewrite Forall_forall in Hd.
  apply Hd, digit_of_ascii_of_digit in Hin. by rewrite <-Hz in Hin.
Qed.

Lemma VoteKey_inj e1 a1 e2 a2 :
  0 <= e1 -> 0 <= e2 -> VoteKey e1 a1 = VoteKey e2 a2 -> e1 = e2 /\ a1 = a2.
Proof.
  intros H1 H2 Heq. unfold VoteKey in Heq.
  apply (f_equal String.list_ascii_of_string) in Heq. rewrite !chars_append in Heq.
  apply app_inv_head in Heq. simpl in Heq.
  apply separator_inj in Heq as [He Ha]; [|by apply String10_no_colon..].
  split.
  - pose proof (SetString10_String10 e1) as Hs1.
    apply (f_equal String.string_of_list_ascii) in He.
    rewrite !String.string_of_list_ascii_of_string in He.
    rewrite He, SetString10_String10 in Hs1. by injection Hs1.
  - apply (f_equal String.string_of_list_ascii) in Ha.
    by rewrite !String.string_of_list_ascii_of_string in Ha.
Qed.

Lemma AtomicIncrementNonce_quiet d address expected n :
  quiet d -> stored_nonce d address = Some n ->
  AtomicIncrementNonce address expected d =
    (Ok (bool_decide (n = expected), n),
     if bool_decide (n = expected)
     then set_data (<[NonceKey address := Raw (PutUint64 (u64 (n + 1)))]> (kv_data d)) d else d).
Proof.
  intros Hq Hn. unfold stored_nonce in Hn.
  unfold AtomicIncrementNonce, mbind, GoM_bind, get, mret, GoM_ret. rewrite access_quiet by done.
  assert (Hcmp : (n =? expected) = bool_decide (n = expected)).
  { destruct (Z.eqb_spec n expected); by case_bool_decide. }
  destruct (kv_data d !! NonceKey address) as [[| | | | | |val]|] eqn:Hk; try done.
  - unfold lift, Uint64 in *. destruct (length val <? 8)%nat; [done|]. injection Hn as ->.
    rewrite Hcmp. by case_bool_decide.
  - injection Hn as <-. rewrite Hcmp. by case_bool_decide.
Qed.

(** ** Properties *)

Section Properties.
Context `{MapOrder}.

(** Saving an account whose amounts decode and reading it back returns the
    same amounts in canonical form, leaves every other account alone and keeps
    the store well-formed; the full listing then contains it. *)
Theorem storage_save_get (a a' : Account) (d : KV) :
  db_ok d -> quiet d -> normalizeAccountCompat a = (Ok tt, a') ->
  exists d', SaveAccount (a, d) = (Ok tt, (a', d')) /\ db_ok d' /\
  account_values a' = account_values a /\
  GetAccount (acc_Address a) d' = (Ok (Some a'), d') /\
  (forall k, k <> acc_Address a -> GetAccount k d' = (Ok (accounts_view d !! k), d')) /\
  fst (GetAllAccounts d') = <[acc_Address a := a']> (accounts_view d).
Proof.
  intros Hok Hq Hn. destruct (normalizeAccountCompat_ok a a' Hn) as (Hc & Hv & Ha & _).
  pose proof (SaveAccount_go d d a' Hc (access_quiet d Hq)) as Hsave.
  pose proof (db_ok_save d a' (kv_io d) Hok Hc) as Hok'.
  pose proof (accounts_view_save d a' (kv_io d)) as Hview.
  set (d' := MkKV _ (kv_io d)) in Hsave, Hok', Hview.
  assert (Hq' : quiet d') by exact Hq. rewrite Ha in Hview. exists d'. split_and!.
  - rewrite <-Hsave. unfold SaveAccount, mbind, GoM_bind, wrapM, on_fst, syncAccountCompatForWrite.
    by rewrite Hn, normalizeAccountCompat_canon.
  - done.
  - done.
  - by rewrite GetAccount_quiet, Hview, lookup_insert_eq.
  - intros k Hk. by rewrite GetAccount_quiet, Hview, lookup_insert_ne.
  - by rewrite GetAllAccounts_quiet, Hview.
Qed.

(** The nonce update is a compare-and-swap: without an I/O failure it
    reports the stored nonce, succeeds exactly when that is the expected one,
    then stores the successor (wrapping at 2^64) and touches no other address,
    so of any number of attempts with the same expected nonce at most one
    succeeds; with an I/O failure it changes nothing. *)
Theorem nonce_compare_and_swap address expected n (d : KV) :
  is_u64 n -> stored_nonce d address = Some n ->
  (quiet d ->
   exists d', AtomicIncrementNonce address expected d = (Ok (bool_decide (n = expected), n), d') /\
   quiet d' /\
   stored_nonce d' address = Some (if bool_decide (n = expected) then u64 (n + 1) else n) /\
   (forall a, a <> address -> stored_nonce d' a = stored_nonce d a) /\
   (n = expected -> exists m d2, AtomicIncrementNonce address expected d' = (Ok (false, m), d2))) /\
  (forall e d', AtomicIncrementNonce address expected d = (Err e, d') -> kv_data d' = kv_data d).
Proof.
  intros Hn Hst.
  split.
  - intros Hq. rewrite (AtomicIncrementNonce_quiet d address expected n) by done. eexists. split; [done|]. case_bool_decide as He.
    + assert (Hst' : stored_nonce (set_data (<[NonceKey address := Raw (PutUint64 (u64 (n + 1)))]>
        (kv_data d)) d) address = Some (u64 (n + 1))).
      { unfold stored_nonce. simpl. rewrite lookup_insert_eq, Uint64_PutUint64.
        by rewrite u64_id by apply u64_range. }
      split_and!; [done|done| |].
      * intros a Ha. unfold stored_nonce. simpl. rewrite lookup_insert_ne; [done|].
        intros ?%NonceKey_inj. done.
      * intros _. eexists _, _. rewrite (AtomicIncrementNonce_quiet _ _ _ _ (Hq : quiet (set_data _ d)) Hst').
        rewrite bool_decide_eq_false_2; [done|].
        subst. intros Hw. unfold u64 in Hw. unfold_ints.
        assert ((expected + 1) mod 18446744073709551616 <> expected); [|done].
        Z.to_euclidean_division_equations. lia.
    + split_and!; [done..|]. by intros ->.
  - intros e d'. unfold AtomicIncrementNonce, mbind, GoM_bind.
    destruct (access_cases d) as [(d1 & -> & Hd)|(d1 & -> & Hd)]; [|by intros [= _ <-]].
    simpl. unfold stored_nonce in Hst. rewrite <-Hd in Hst.
    destruct (kv_data d1 !! NonceKey address) as [[| | | | | |val]|]; try done.
    + unfold lift, Uint64 in *. destruct (length val <? 8)%nat; [done|].
      by destruct (negb _).
    + simpl. by destruct (negb _).
Qed.
End Properties.

Definition demo_account : Account :=
  MkAccount "0xalice" [x00] 3 [x05] {["0xval" := [x02]]} [] [] [].
Definition empty_kv : KV := MkKV ∅ [].

Lemma empty_kv_ok : db_ok empty_kv.
Proof. intros k b. unfold empty_kv. simpl. by rewrite lookup_empty. Qed.

Lemma storage_save_get_witness :
  exists d', fst (SaveAccount (demo_account, empty_kv)) = Ok tt /\
  GetAccount "0xalice" d' = (Ok (Some (set_Balance [] demo_account)), d').
Proof.
  assert (Hn : normalizeAccountCompat demo_account = (Ok tt, set_Balance [] demo_account))
    by (vm_compute; reflexivity).
  destruct (storage_save_get demo_account (set_Balance [] demo_account) empty_kv
    empty_kv_ok eq_refl Hn) as (d' & Hs & _ & _ & Hg & _).
  exists d'. rewrite Hs. split; [reflexivity|exact Hg].
Defined.

Lemma nonce_compare_and_swap_witness :
  exists d', AtomicIncrementNonce "a" 0 empty_kv = (Ok (true, 0), d') /\
  stored_nonce d' "a" = Some 1.
Proof.
  assert (Hn : is_u64 0) by (unfold_ints; lia).
  destruct (nonce_compare_and_swap "a" 0 0 empty_kv Hn eq_refl) as [H _].
  destruct (H eq_refl) as (d' & H1 & _ & H2 & _). exists d'. split; [exact H1|exact H2].
Defined.

(** Reading a nonce agrees with the compare-and-swap once a nonce has been
    written, but for an address without one the read-only call returns the
    store's not-found error instead of the documented 0, because it tests for
    the wrong error value. *)
Theorem get_nonce_missing_key_is_an_error address (d : KV) :
  quiet d ->
  (kv_data d !! NonceKey address = None ->
   GetNonce address d = (Err ErrKeyNotFound, d) /\ stored_nonce d address = Some 0) /\
  (forall n m d', AtomicIncrementNonce address n d = (Ok (true, m), d') ->
   m = n /\ GetNonce address d' = (Ok (u64 (n + 1)), d')).
Proof.
  intros Hq. split.
  - intros Hk. unfold GetNonce, kv_Get, stored_nonce, mbind, GoM_bind.
    rewrite access_quiet by done. simpl. by rewrite Hk.
  - intros n m d'. destruct (stored_nonce d address) as [k|] eqn:Hst.
    + rewrite (AtomicIncrementNonce_quiet d address n k Hq Hst). case_bool_decide as He; [|done].
      intros [= <- <-]. split; [done|]. subst.
      unfold GetNonce, kv_Get, mbind, GoM_bind. rewrite access_quiet by done. simpl.
      rewrite lookup_insert_eq. simpl. by rewrite Uint64_PutUint64, u64_id by apply u64_range.
    + unfold stored_nonce in Hst.
      unfold AtomicIncrementNonce, mbind, GoM_bind. rewrite access_quiet by done. simpl.
      destruct (kv_data d !! NonceKey address) as [[| | | | | |val]|]; try done.
      unfold lift, Uint64 in *. by destruct (length val <? 8)%nat.
Qed.

Lemma get_nonce_missing_key_is_an_error_witness :
  GetNonce "a" empty_kv = (Err ErrKeyNotFound, empty_kv).
Proof.
  destruct (get_nonce_missing_key_is_an_error "a" empty_kv eq_refl) as [H _].
  destruct (H eq_refl) as [H1 _]. exact H1.
Defined.

(** Double-vote protection across restarts: after a vote is saved, the
    store reports a vote for that epoch and validator, and saving it makes it
    report one for no other pair. *)
Theorem saved_vote_is_found (vote : Vote) epoch validator (d : KV) :
  quiet d -> 0 <= epoch -> 0 <= vote_TargetEpoch vote ->
  exists d', SaveConsensusVote vote d = (Ok tt, d') /\ quiet d' /\
  exists before, HasVoted epoch validator d = (Ok before, d) /\
  HasVoted epoch validator d' =
    (Ok (bool_decide (epoch = vote_TargetEpoch vote /\ validator = vote_ValidatorAddress vote)
         || before), d').
Proof.
  intros Hq He Hv. unfold SaveConsensusVote, kv_Set, HasVoted, kv_Has, mbind, GoM_bind.
  rewrite access_quiet by done. eexists. split; [done|]. split; [done|].
  eexists. split; [done|]. rewrite access_quiet by done. simpl. do 2 f_equal.
  destruct (decide (epoch = vote_TargetEpoch vote /\ validator = vote_ValidatorAddress vote))
    as [[-> ->]|Hne].
  - rewrite lookup_insert_eq, !bool_decide_eq_true_2 by (done || eauto). done.
  - rewrite (bool_decide_eq_false_2 (_ /\ _)) by done. simpl.
    rewrite lookup_insert_ne; [done|]. intros Hk. apply Hne.
    apply VoteKey_inj in Hk as [? ?]; done.
Qed.

Lemma saved_vote_is_found_witness :
  exists d', SaveConsensusVote (MkVote "v" "s" "t" 1 2 []) empty_kv = (Ok tt, d') /\
  exists before, HasVoted 2 "v" d' = (Ok (true || before), d').
Proof.
  destruct (saved_vote_is_found (MkVote "v" "s" "t" 1 2 []) 2 "v" empty_kv)
    as (d' & H1 & _ & b & _ & H2); [reflexivity|lia|simpl; lia|].
  exists d'. split; [exact H1|]. exists b. exact H2.
Defined.
