(* ===== verification/AccountManager.v ===== *)
(** * The account manager (src/core/account/account.go)

    [*core.Account] values are shared: the manager hands out the object its
    cache holds, mutates it in place and then persists it.  The model keeps a
    heap of account objects, an LRU cache from address to object, and the
    database.  [AccountDB] and [LRU] are interfaces: the storage component
    discharges the first, the second states what the cache package documents. *)

From S2P Require Import Prelude Uint256 Address Storage.
From stdpp Require Import base tactics numbers list gmap strings.
From Stdlib Require Import ZArith Lia Strings.Byte Strings.Ascii.
Open Scope Z_scope.
Open Scope list_scope.

Definition loc : Type := nat.

(** ** The cache *)

Class LRU (C : Type) : Type := {
  lru_Get : string -> C -> option loc * C;
  lru_Add : string -> loc -> C -> C;
  lru_view : C -> gmap string loc
}.

(** [Get] returns what is held and holds on to it; [Add] holds the new entry and
    may evict others, but never changes them. *)
Class LRULaws (C : Type) `{LRU C} : Prop := {
  lru_Get_value : forall k c, fst (lru_Get k c) = lru_view c !! k;
  lru_Get_keeps : forall k c, lru_view (snd (lru_Get k c)) = lru_view c;
  lru_Add_self : forall k l c, lru_view (lru_Add k l c) !! k = Some l;
  lru_Add_other : forall k l c k' l',
    k' <> k -> lru_view (lru_Add k l c) !! k' = Some l' -> lru_view c !! k' = Some l'
}.

(** A cache with this behaviour: most recent first, [S cap] entries at most
    ([lru.New(50000)] in the code). *)
Section ListLRU.
Context (cap : nat).

Notation list_lru := (list (string * loc)).
Definition drop_key (k : string) (es : list_lru) : list_lru := filter (fun e => fst e <> k) es.
Definition list_view (es : list_lru) : gmap string loc := list_to_map es.

#[global] Instance list_LRU : LRU list_lru := {|
  lru_Get k es := match list_view es !! k with
                  | Some l => (Some l, (k, l) :: drop_key k es)
                  | None => (None, es)
                  end;
  lru_Add k l es := take (S cap) ((k, l) :: drop_key k es);
  lru_view := list_view
|}.

Lemma list_view_drop k es j : j <> k -> list_view (drop_key k es) !! j = list_view es !! j.
Proof.
  intros Hj. unfold list_view, drop_key. induction es as [|[k' l] es IH]; [done|].
  rewrite filter_cons. simpl. destruct (decide (k' = k)) as [->|Hne].
  - rewrite decide_False by naive_solver. by rewrite lookup_insert_ne.
  - rewrite decide_True by done. simpl. destruct (decide (k' = j)) as [->|].
    + by rewrite !lookup_insert_eq.
    + by rewrite !lookup_insert_ne.
Qed.

Lemma list_view_take n : forall es k l,
  list_view (take n es) !! k = Some l -> list_view es !! k = Some l.
Proof.
  unfold list_view. induction n as [|n IH]; intros [|[k' l'] es] k l; simpl; try done.
  destruct (decide (k' = k)) as [->|]; [by rewrite !lookup_insert_eq|].
  rewrite !lookup_insert_ne by done. apply IH.
Qed.

#[global] Instance list_LRU_laws : LRULaws list_lru.
Proof.
  split; simpl.
  - intros k es. by destruct (list_view es !! k).
  - intros k es. destruct (list_view es !! k) as [l|] eqn:Hk; [|done]. simpl.
    apply map_eq. intros j. unfold list_view. simpl. destruct (decide (k = j)) as [->|].
    + by rewrite lookup_insert_eq.
    + rewrite lookup_insert_ne by done. by apply list_view_drop.
  - intros k l es. unfold list_view. simpl. by rewrite lookup_insert_eq.
  - intros k l es k' l' Hne. unfold list_view. simpl. rewrite lookup_insert_ne by done.
    intros Hk. rewrite <-(list_view_drop k) by done. by apply list_view_take in Hk.
Qed.
End ListLRU.

(** ** Constants *)

Definition BeaconShardID : Z := -1.
Definition MinimumStakeAmount : Z := 1000000000.
Definition MinimumTransfer : Z := 10000000.
(** [config.MinimumDelegation]: a tenth of [10^18]. *)
Definition BaseUnit : Z := 10 ^ 18.
Definition MinimumDelegation : Z := big_div BaseUnit 10.

Inductive am_err : Type :=
| InvalidAddressFormat (e : address_err)
| WrongShard (addr : string)
| DBError (e : storage_err)
| NilAccount
| InvalidBalance (e : u256_err)
| InvalidStaked (e : u256_err)
| InvalidRewards (e : u256_err)
| InvalidDelegated (e : u256_err)
| ValidationFailed (e : am_err)
| InvalidAccountAddress (e : address_err)
| NegativeAmountField
| InvalidValidatorAddress (addr : string) (e : address_err)
| DelegationNotPositive (validator : string)
| DelegatedExceedsStaked
| StakeBelowMinimum (amount : Z)
| GetAccountFailed (e : am_err)
| InsufficientBalance
| AmountNotPositive
| InsufficientStaked
| CannotUnstake
| DelegationBelowMinimum
| DelegateToSelf
| NoDelegation (validator : string)
| InsufficientDelegation
| RewardsNotPositive
| NoRewards
| TransferBelowMinimum
| TransferToSelf
| InvalidSender (e : address_err)
| InvalidRecipient (e : address_err)
| CrossShardTransfer
| UpdateSenderFailed (e : am_err)
| UpdateReceiverFailed (e : am_err)
| InvalidGenesis (e : address_err)
| SupplyNotPositive
| GenesisNotInShard
| GenesisExists.

(** [x, _ = f()]: an error leaves the zero value, nil. *)
Definition ignore_err {E} (r : outcome E (list byte)) : list byte :=
  match r with Ok b => b | _ => [] end.
Definition u256_or_nil (v : Z) : list byte := ignore_err (BigIntToUint256Bytes (Some v)).

(** ** Shards *)

Section Shards.
Context (Keccak256 : list byte -> list byte) (shardID totalShards : Z).

Definition CalculateShardID (addr : string) : Z :=
  if totalShards <=? 1 then 0
  else SetBytes (take 8 (Keccak256 (bytes_of_string addr))) mod u64 totalShards.

Definition BelongsToShard (addr : string) : bool :=
  if shardID =? BeaconShardID then true else CalculateShardID addr =? shardID.
End Shards.

(** ** Validation *)

Section Validation.
Context `{MapOrder}.

Fixpoint ValidateAccount_loop (keys : list string) (m : gmap string (list byte))
    (totalDelegated : Z) : outcome am_err Z :=
  match keys with
  | [] => Ok totalDelegated
  | validator :: keys' =>
      _ ← wrap (InvalidValidatorAddress validator) (Validate validator);
      let amount := ParseBigInt_bytes (default [] (m !! validator)) in
      if Z.sgn amount <=? 0 then Err (DelegationNotPositive validator)
      else ValidateAccount_loop keys' m (totalDelegated + amount)
  end.

Definition ValidateAccount (account : Account) : outcome am_err unit :=
  _ ← wrap InvalidAccountAddress (Validate (acc_Address account));
  let bal := ParseBigInt_bytes (acc_Balance account) in
  if bal <? 0 then Err NegativeAmountField else
  let staked := ParseBigInt_bytes (acc_StakedAmount account) in
  if staked <? 0 then Err NegativeAmountField else
  let rewards := ParseBigInt_bytes (acc_Rewards account) in
  if rewards <? 0 then Err NegativeAmountField else
  totalDelegated ← ValidateAccount_loop (map_order (acc_DelegatedTo account))
                     (acc_DelegatedTo account) 0;
  let stakedVal := ParseBigInt_bytes (acc_StakedAmount account) in
  if stakedVal <? totalDelegated then Err DelegatedExceedsStaked else Ok tt.

(** The sum Unstake takes over the delegation map. *)
Definition total_delegated (m : gmap string (list byte)) : Z :=
  foldr (fun k acc => ParseBigInt_bytes (default [] (m !! k)) + acc) 0 (map_order m).
End Validation.

(** ** The manager *)

Section Manager.
Context `{MapOrder} {D C : Type} `{AccountDB D} `{LRU C}.
Context (Keccak256 : list byte -> list byte) (shardID totalShards : Z).

Record am : Type := MkAM {
  heap : gmap loc Account;
  next : loc;
  cache : C;
  db : D
}.

Notation AM := (GoM am am_err).
Notation belongs := (BelongsToShard Keccak256 shardID totalShards).

Definition set_heap (h : gmap loc Account) (s : am) : am := MkAM h (next s) (cache s) (db s).
Definition set_cache (c : C) (s : am) : am := MkAM (heap s) (next s) c (db s).
Definition set_db (d : D) (s : am) : am := MkAM (heap s) (next s) (cache s) d.

(** [&core.Account{...}], reading and writing through a pointer. *)
Definition alloc (a : Account) : AM loc := fun s =>
  (Ok (next s), MkAM (<[next s := a]> (heap s)) (S (next s)) (cache s) (db s)).
Definition load (l : loc) : AM Account := fun s =>
  match heap s !! l with Some a => (Ok a, s) | None => (Panic, s) end.
Definition assign (l : loc) (f : Account -> Account) : AM unit :=
  a ← load l; modify (fun s => set_heap (<[l := f a]> (heap s)) s).

Definition cache_Get (addr : string) : AM (option loc) := fun s =>
  let '(r, c) := lru_Get addr (cache s) in (Ok r, set_cache c s).
Definition cache_Add (addr : string) (l : loc) : AM unit :=
  modify (fun s => set_cache (lru_Add addr l (cache s)) s).

Definition db_GetAccount (addr : string) : AM (option Account) := fun s =>
  let '(r, d) := dbGet addr (db s) in (wrap DBError r, set_db d s).
Definition save_object (l : loc) (a : Account) : AM unit := fun s =>
  let '(r, (a', d)) := dbSave (a, db s) in
  (wrap DBError r, set_db d (set_heap (<[l := a']> (heap s)) s)).
Definition db_SaveAccount (l : loc) : AM unit := a ← load l; save_object l a.

Definition new_account (addr : string) : Account := MkAccount addr [] 0 [] ∅ [] [] [].

Definition GetAccount (addr : string) : AM loc :=
  _ ← lift (wrap InvalidAddressFormat (Validate addr));
  _ ← refuse_if (negb (belongs addr)) (WrongShard addr);
  hit ← cache_Get addr;
  match hit with
  | Some l => mret l
  | None =>
      acc ← db_GetAccount addr;
      match acc with
      | None => alloc (new_account addr)
      | Some a => l ← alloc a; _ ← cache_Add addr l; mret l
      end
  end.

(** [acc, err := db.GetAccount(addr); if err != nil || acc == nil]. *)
Definition db_lookup (addr : string) : AM (option Account) := fun s =>
  match db_GetAccount addr s with
  | (Ok r, s') => (Ok r, s')
  | (_, s') => (Ok None, s')
  end.

Definition GetAccountReadOnly (addr : string) : AM (option loc) :=
  if negb (belongs addr) then mret None
  else
    hit ← cache_Get addr;
    match hit with
    | Some l => mret (Some l)
    | None =>
        acc ← db_lookup addr;
        match acc with
        | None => mret None
        | Some a => l ← alloc a; _ ← cache_Add addr l; mret (Some l)
        end
    end.

Definition AccountExists (addr : string) : AM bool :=
  r ← GetAccountReadOnly addr; mret (bool_decide (is_Some r)).

Definition UpdateAccount (l : loc) : AM unit :=
  a ← load l;
  b ← lift (wrap InvalidBalance (BigIntToUint256Bytes (Some (ParseBigInt_bytes (acc_Balance a)))));
  _ ← assign l (set_Balance b);
  a ← load l;
  b ← lift (wrap InvalidStaked (BigIntToUint256Bytes (Some (ParseBigInt_bytes (acc_StakedAmount a)))));
  _ ← assign l (set_StakedAmount b);
  a ← load l;
  b ← lift (wrap InvalidRewards (BigIntToUint256Bytes (Some (ParseBigInt_bytes (acc_Rewards a)))));
  _ ← assign l (set_Rewards b);
  a ← load l;
  m ← lift (wrap InvalidDelegated (CanonicalizeUint256ByteMap (map_order (acc_DelegatedTo a)) (acc_DelegatedTo a)));
  _ ← assign l (set_DelegatedTo m);
  a ← load l;
  _ ← lift (wrap ValidationFailed (ValidateAccount a));
  _ ← refuse_if (negb (belongs (acc_Address a))) (WrongShard (acc_Address a));
  _ ← db_SaveAccount l;
  cache_Add (acc_Address a) l.

Definition SetAccount (addr : string) (l : loc) : AM unit :=
  account ← load l;
  _ ← (if bool_decide (acc_Address account = addr) then mret tt else assign l (set_Address addr));
  UpdateAccount l.

Notation fetch addr := (wrapM GetAccountFailed (GetAccount addr)).

Definition Stake (addr : string) (amount : Z) : AM unit :=
  _ ← refuse_if (amount <? MinimumStakeAmount) (StakeBelowMinimum amount);
  l ← fetch addr;
  account ← load l;
  let balanceBig := ParseBigInt_bytes (acc_Balance account) in
  _ ← refuse_if (balanceBig <? amount) InsufficientBalance;
  let newBalance := balanceBig - amount in
  _ ← assign l (set_Balance (u256_or_nil newBalance));
  let stakedBig := ParseBigInt_bytes (acc_StakedAmount account) in
  let newStaked := stakedBig + amount in
  _ ← assign l (set_StakedAmount (u256_or_nil newStaked));
  UpdateAccount l.

Definition Unstake (addr : string) (amount : Z) : AM unit :=
  _ ← refuse_if (amount <=? 0) AmountNotPositive;
  l ← fetch addr;
  account ← load l;
  let stakedBig := ParseBigInt_bytes (acc_StakedAmount account) in
  _ ← refuse_if (stakedBig <? amount) InsufficientStaked;
  let totalDelegated := total_delegated (acc_DelegatedTo account) in
  let remainingStake := stakedBig - amount in
  _ ← refuse_if (remainingStake <? totalDelegated) CannotUnstake;
  _ ← assign l (set_StakedAmount (u256_or_nil remainingStake));
  let balanceBig := ParseBigInt_bytes (acc_Balance account) in
  _ ← assign l (set_Balance (u256_or_nil (balanceBig + amount)));
  UpdateAccount l.

Definition Delegate (delegatorAddr validatorAddr : string) (amount : Z) : AM unit :=
  _ ← refuse_if (amount <? MinimumDelegation) DelegationBelowMinimum;
  _ ← refuse_if (bool_decide (delegatorAddr = validatorAddr)) DelegateToSelf;
  _ ← lift (wrap (InvalidValidatorAddress validatorAddr) (Validate validatorAddr));
  l ← fetch delegatorAddr;
  delegator ← load l;
  let balBig := ParseBigInt_bytes (acc_Balance delegator) in
  _ ← refuse_if (balBig <? amount) InsufficientBalance;
  let newBalance := balBig - amount in
  let stakedBig := ParseBigInt_bytes (acc_StakedAmount delegator) in
  let newStaked := stakedBig + amount in
  let currentDelegation := ParseBigInt_bytes (default [] (acc_DelegatedTo delegator !! validatorAddr)) in
  let newDelegation := currentDelegation + amount in
  _ ← assign l (set_Balance (u256_or_nil newBalance));
  _ ← assign l (set_StakedAmount (u256_or_nil newStaked));
  _ ← assign l (fun a => set_DelegatedTo (<[validatorAddr := u256_or_nil newDelegation]> (acc_DelegatedTo a)) a);
  UpdateAccount l.

Definition Undelegate (delegatorAddr validatorAddr : string) (amount : Z) : AM unit :=
  _ ← refuse_if (amount <=? 0) AmountNotPositive;
  _ ← lift (wrap (InvalidValidatorAddress validatorAddr) (Validate validatorAddr));
  l ← fetch delegatorAddr;
  delegator ← load l;
  match acc_DelegatedTo delegator !! validatorAddr with
  | None => throw (NoDelegation validatorAddr)
  | Some currentDelegationStr =>
      let currentDelegation := ParseBigInt_bytes currentDelegationStr in
      _ ← refuse_if (currentDelegation <? amount) InsufficientDelegation;
      let newDelegation := currentDelegation - amount in
      _ ← (if Z.sgn newDelegation =? 0
           then assign l (fun a => set_DelegatedTo (delete validatorAddr (acc_DelegatedTo a)) a)
           else assign l (fun a => set_DelegatedTo
                                     (<[validatorAddr := u256_or_nil newDelegation]> (acc_DelegatedTo a)) a));
      let stakedBig := ParseBigInt_bytes (acc_StakedAmount delegator) in
      _ ← assign l (set_StakedAmount (u256_or_nil (stakedBig - amount)));
      let balBig := ParseBigInt_bytes (acc_Balance delegator) in
      _ ← assign l (set_Balance (u256_or_nil (balBig + amount)));
      UpdateAccount l
  end.

(** A nil [*big.Int] is [None]. *)
Definition AddRewardsBig (addr : string) (rewards : option Z) : AM unit :=
  match rewards with
  | None => throw RewardsNotPositive
  | Some rewards =>
      _ ← refuse_if (Z.sgn rewards <=? 0) RewardsNotPositive;
      l ← fetch addr;
      account ← load l;
      let currentRewards := ParseBigInt_bytes (acc_Rewards account) in
      _ ← assign l (set_Rewards (u256_or_nil (currentRewards + rewards)));
      UpdateAccount l
  end.

Definition AddRewards (addr : string) (rewards : Z) : AM unit :=
  _ ← refuse_if (rewards <=? 0) RewardsNotPositive;
  AddRewardsBig addr (Some rewards).

Definition ClaimRewards (addr : string) : AM string :=
  l ← fetch addr;
  account ← load l;
  let rewardsBig := ParseBigInt_bytes (acc_Rewards account) in
  _ ← refuse_if (Z.sgn rewardsBig <=? 0) NoRewards;
  let claimedRewards := String10 rewardsBig in
  _ ← assign l (set_Rewards []);
  let balanceBig := ParseBigInt_bytes (acc_Balance account) in
  _ ← assign l (set_Balance (u256_or_nil (balanceBig + rewardsBig)));
  _ ← UpdateAccount l;
  mret claimedRewards.

Definition Transfer (fromAddr toAddr : string) (amount : Z) : AM unit :=
  _ ← refuse_if (amount <? MinimumTransfer) TransferBelowMinimum;
  _ ← refuse_if (amount <=? 0) AmountNotPositive;
  _ ← refuse_if (bool_decide (fromAddr = toAddr)) TransferToSelf;
  _ ← lift (wrap InvalidSender (Validate fromAddr));
  _ ← lift (wrap InvalidRecipient (Validate toAddr));
  fromAccount ← fetch fromAddr;
  _ ← refuse_if (negb (belongs toAddr)) CrossShardTransfer;
  toAccount ← fetch toAddr;
  fromA ← load fromAccount;
  toA ← load toAccount;
  let fromBalBig := ParseBigInt_bytes (acc_Balance fromA) in
  let toBalBig := ParseBigInt_bytes (acc_Balance toA) in
  _ ← refuse_if (fromBalBig <? amount) InsufficientBalance;
  let newFromBal := fromBalBig - amount in
  let newToBal := toBalBig + amount in
  _ ← assign fromAccount (set_Balance (u256_or_nil newFromBal));
  _ ← assign toAccount (set_Balance (u256_or_nil newToBal));
  _ ← wrapM UpdateSenderFailed (UpdateAccount fromAccount);
  wrapM UpdateReceiverFailed (UpdateAccount toAccount).

(** ** Queries *)

Definition query {A} (addr : string) (f : Account -> A) : AM A :=
  l ← GetAccount addr; a ← load l; mret (f a).

Definition GetBalance (addr : string) : AM string :=
  query addr (fun a => BigIntToString (Some (ParseBigInt_bytes (acc_Balance a)))).
Definition GetNonce (addr : string) : AM Z := query addr acc_Nonce.
Definition GetStakedAmount (addr : string) : AM string :=
  query addr (fun a => BigIntToString (Some (ParseBigInt_bytes (acc_StakedAmount a)))).
Definition GetRewards (addr : string) : AM string :=
  query addr (fun a => BigIntToString (Some (ParseBigInt_bytes (acc_Rewards a)))).
Definition GetDelegations (addr : string) : AM (gmap string string) :=
  query addr (fun a => (fun b => BigIntToString (Some (ParseBigInt_bytes b))) <$> acc_DelegatedTo a).
Definition GetDelegationToValidator (delegatorAddr validatorAddr : string) : AM string :=
  query delegatorAddr (fun a =>
    match acc_DelegatedTo a !! validatorAddr with
    | Some val => BigIntToString (Some (ParseBigInt_bytes val))
    | None => "0"
    end).

(** The totals read the database through its iterator, not the cache. *)
Definition total_of (f : Account -> list byte) (s : am) : string * am :=
  let '(accounts, d) := dbAll (db s) in
  (String10 (foldr (fun k acc => match accounts !! k with
                                 | Some a => ParseBigInt_bytes (f a) + acc
                                 | None => acc
                                 end) 0 (map_order accounts)), set_db d s).
Definition GetTotalStakedInShard : am -> string * am := total_of acc_StakedAmount.
Definition GetTotalBalanceInShard : am -> string * am := total_of acc_Balance.
Definition GetTotalRewardsInShard : am -> string * am := total_of acc_Rewards.
Definition GetAllAccounts (s : am) : gmap string Account * am :=
  let '(accounts, d) := dbAll (db s) in (accounts, set_db d s).
Definition GetAccountCount (s : am) : Z * am :=
  let '(accounts, d) := dbAll (db s) in (Z.of_nat (size accounts), set_db d s).

(** ** Genesis *)

Definition CreateGenesisAccount (genesisAddr initialSupply : string) : AM unit :=
  _ ← lift (wrap InvalidGenesis (Validate genesisAddr));
  match SetString10 initialSupply with
  | None => throw SupplyNotPositive
  | Some supplyBig =>
      _ ← refuse_if (Z.sgn supplyBig <=? 0) SupplyNotPositive;
      _ ← refuse_if (negb (belongs genesisAddr)) GenesisNotInShard;
      exists_ ← AccountExists genesisAddr;
      _ ← refuse_if exists_ GenesisExists;
      l ← alloc (MkAccount genesisAddr (Bytes supplyBig) 0 [] ∅ [] [] []);
      UpdateAccount l
  end.
End Manager.
