(* ===== verification/AccountSpec.v ===== *)
(** * The account manager implements a ledger

    The abstract ledger keeps integers per address.  [good] ties the manager's
    cache, heap and database together; every operation that runs without an
    I/O failure refines its step on the ledger, and the supply is conserved. *)

From S2P Require Import Prelude Uint256 Address Storage AccountManager.
From stdpp Require Import base tactics numbers list gmap strings.
From Stdlib Require Import ZArith Lia Strings.Byte Strings.Ascii.
Open Scope Z_scope.
Open Scope list_scope.

(** ** The ledger *)

Record acct : Type := MkAcct {
  bal : Z;
  staked : Z;
  rewards : Z;
  deleg : gmap string Z;
  nonce : Z
}.

Notation ledger := (gmap string acct).
Definition empty_acct : acct := MkAcct 0 0 0 ∅ 0.
Definition entry (L : ledger) (k : string) : acct := default empty_acct (L !! k).
Definition funds (a : acct) : Z := bal a + staked a + rewards a.
Definition supply (L : ledger) : Z := map_sum funds L.

Definition valid_acct (a : acct) : Prop :=
  0 <= bal a /\ 0 <= staked a /\ 0 <= rewards a /\
  map_Forall (fun k v => IsValid k = true /\ 0 < v) (deleg a) /\
  map_sum id (deleg a) <= staked a.

Definition abs_acct (a : Account) : acct :=
  MkAcct (SetBytes (acc_Balance a)) (SetBytes (acc_StakedAmount a)) (SetBytes (acc_Rewards a))
    (SetBytes <$> acc_DelegatedTo a) (acc_Nonce a).

(** ** The ledger's operations

    [None] is a refusal.  [ok] says which addresses this shard serves. *)

Section Ledger.
Context (ok : string -> bool) (L : ledger).

Definition spec_Stake (addr : string) (amount : Z) : option ledger :=
  let a := entry L addr in
  if amount <? MinimumStakeAmount then None
  else if negb (ok addr) then None
  else if bal a <? amount then None
  else Some (<[addr := MkAcct (bal a - amount) (staked a + amount) (rewards a) (deleg a) (nonce a)]> L).

Definition spec_Unstake (addr : string) (amount : Z) : option ledger :=
  let a := entry L addr in
  if amount <=? 0 then None
  else if negb (ok addr) then None
  else if staked a <? amount then None
  else if staked a - amount <? map_sum id (deleg a) then None
  else Some (<[addr := MkAcct (bal a + amount) (staked a - amount) (rewards a) (deleg a) (nonce a)]> L).

Definition spec_Delegate (delegator validator : string) (amount : Z) : option ledger :=
  let a := entry L delegator in
  if amount <? MinimumDelegation then None
  else if bool_decide (delegator = validator) then None
  else if negb (IsValid validator) then None
  else if negb (ok delegator) then None
  else if bal a <? amount then None
  else Some (<[delegator := MkAcct (bal a - amount) (staked a + amount) (rewards a)
                 (<[validator := default 0 (deleg a !! validator) + amount]> (deleg a)) (nonce a)]> L).

Definition spec_Undelegate (delegator validator : string) (amount : Z) : option ledger :=
  let a := entry L delegator in
  if amount <=? 0 then None
  else if negb (IsValid validator) then None
  else if negb (ok delegator) then None
  else match deleg a !! validator with
       | None => None
       | Some v =>
           if v <? amount then None
           else Some (<[delegator := MkAcct (bal a + amount) (staked a - amount) (rewards a)
                          (if v - amount =? 0 then delete validator (deleg a)
                           else <[validator := v - amount]> (deleg a)) (nonce a)]> L)
       end.

Definition spec_AddRewards (addr : string) (amount : Z) : option ledger :=
  let a := entry L addr in
  if amount <=? 0 then None
  else if negb (ok addr) then None
  else Some (<[addr := MkAcct (bal a) (staked a) (rewards a + amount) (deleg a) (nonce a)]> L).

Definition spec_ClaimRewards (addr : string) : option ledger :=
  let a := entry L addr in
  if negb (ok addr) then None
  else if rewards a <=? 0 then None
  else Some (<[addr := MkAcct (bal a + rewards a) (staked a) 0 (deleg a) (nonce a)]> L).

Definition spec_Transfer (from to : string) (amount : Z) : option ledger :=
  let a := entry L from in
  let b := entry L to in
  if amount <? MinimumTransfer then None
  else if bool_decide (from = to) then None
  else if negb (ok from && ok to) then None
  else if bal a <? amount then None
  else Some (<[to := MkAcct (bal b + amount) (staked b) (rewards b) (deleg b) (nonce b)]>
            (<[from := MkAcct (bal a - amount) (staked a) (rewards a) (deleg a) (nonce a)]> L)).
End Ledger.

(** ** Sums over an iteration order *)

Lemma map_sum_fmap {K V W} `{Countable K} (f : W -> Z) (g : V -> W) (m : gmap K V) :
  map_sum f (g <$> m) = map_sum (f ∘ g) m.
Proof.
  induction m as [|k v m Hk IH] using map_ind; [done|].
  rewrite fmap_insert, !map_sum_insert_None, IH by (rewrite ?lookup_fmap, ?Hk; done). done.
Qed.

Lemma sum_over_keys {V} (f : V -> Z) (keys : list string) : forall (m : gmap string V),
  NoDup keys -> (forall k, k ∈ keys <-> k ∈ dom m) ->
  foldr (fun k acc => match m !! k with Some v => f v + acc | None => acc end) 0 keys =
  map_sum f m.
Proof.
  induction keys as [|k keys IH]; intros m Hnd Hdom.
  - assert (m = ∅) as ->; [|by rewrite map_sum_empty].
    apply dom_empty_inv_L, set_eq. intros k. rewrite <-Hdom. set_solver.
  - apply NoDup_cons in Hnd as [Hk Hnd].
    assert (Hin : k ∈ dom m) by (apply Hdom; set_solver).
    apply elem_of_dom in Hin as [v Hv]. simpl. rewrite Hv, (map_sum_delete f m k v Hv). f_equal.
    rewrite <-(IH (delete k m) Hnd).
    + clear IH Hdom. induction keys as [|j keys IH]; [done|]. simpl.
      rewrite IH by set_solver + Hk Hnd || (apply NoDup_cons in Hnd; set_solver).
      by rewrite lookup_delete_ne by set_solver.
    + intros j. rewrite dom_delete_L. set_solver.
Qed.

Section Validation.
Context `{MapOrder}.

Lemma total_delegated_sum m :
  map_Forall (fun _ => canon) m -> total_delegated m = map_sum id (SetBytes <$> m).
Proof.
  intros Hm. rewrite map_sum_fmap.
  rewrite <-(sum_over_keys _ (map_order m) m) by (apply map_order_NoDup || apply map_order_elem).
  unfold total_delegated.
  assert (Hd : forall k, k ∈ map_order m -> k ∈ dom m) by (intros k; apply map_order_elem).
  induction (map_order m) as [|k keys IH]; [done|]. simpl. rewrite IH by set_solver.
  assert (Hk : k ∈ dom m) by (apply Hd; set_solver). apply elem_of_dom in Hk as [v Hv].
  rewrite Hv. simpl. by rewrite canon_parse by by apply (Hm k).
Qed.

Lemma ValidateAccount_loop_ok keys m : forall acc total,
  (forall k, k ∈ keys -> k ∈ dom m) -> map_Forall (fun _ => canon) m ->
  ValidateAccount_loop keys m acc = Ok total <->
  (forall k v, k ∈ keys -> m !! k = Some v -> IsValid k = true /\ 0 < SetBytes v) /\
  total = acc + foldr (fun k acc => ParseBigInt_bytes (default [] (m !! k)) + acc) 0 keys.
Proof.
  induction keys as [|k keys IH]; intros acc total Hd Hm; simpl.
  - split; [intros [= <-]; split; [set_solver|lia]|]. intros [_ ->]. f_equal. lia.
  - assert (Hk : k ∈ dom m) by (apply Hd; set_solver). apply elem_of_dom in Hk as [v Hv].
    rewrite Hv. simpl. rewrite canon_parse by by apply (Hm k).
    unfold IsValid at 1. destruct (Validate k) as [[]| | |] eqn:Hval; simpl.
    2-4: split; [done|]; intros [Hf _]; destruct (Hf k v) as [Hiv _]; [set_solver|done|];
         unfold IsValid in Hiv; by rewrite Hval in Hiv.
    destruct (Z.leb_spec (Z.sgn (SetBytes v)) 0).
    + split; [done|]. intros [Hf _]. destruct (Hf k v); [set_solver|done|lia].
    + rewrite IH by (done || set_solver). split; intros [Hf ->]; (split; [|lia]).
      * intros j w [->|Hj]%elem_of_cons Hw; [|by apply (Hf j w)].
        unfold IsValid. rewrite Hval. simplify_eq. split; [done|lia].
      * intros j w Hj Hw. apply (Hf j w); [set_solver|done].
Qed.

(** The code's validation of an account with canonical amounts. *)
Lemma ValidateAccount_ok a :
  canon_account a ->
  ValidateAccount a = Ok tt <-> IsValid (acc_Address a) = true /\ valid_acct (abs_acct a).
Proof.
  intros (Hb & Hs & Hr & Hd). unfold ValidateAccount.
  pose proof (canon_range _ Hb). pose proof (canon_range _ Hs). pose proof (canon_range _ Hr).
  rewrite !canon_parse by done.
  unfold IsValid at 1. destruct (Validate (acc_Address a)) as [[]| | |]; simpl; [|naive_solver..].
  repeat match goal with |- context [?x <? 0] => destruct (Z.ltb_spec x 0); [lia|] end.
  assert (Hl := fun t => ValidateAccount_loop_ok (map_order (acc_DelegatedTo a)) (acc_DelegatedTo a)
    0 t (fun k => proj1 (map_order_elem _ _ k)) Hd).
  fold (total_delegated (acc_DelegatedTo a)) in Hl. rewrite total_delegated_sum in Hl by done.
  unfold valid_acct, abs_acct. simpl.
  assert (Hiff : (forall k v, k ∈ map_order (acc_DelegatedTo a) -> acc_DelegatedTo a !! k = Some v ->
      IsValid k = true /\ 0 < SetBytes v) <->
    map_Forall (fun k v => IsValid k = true /\ 0 < v) (SetBytes <$> acc_DelegatedTo a)).
  { split.
    - intros Hf k v (w & <- & Hw)%lookup_fmap_Some. apply (Hf k w); [|done].
      apply map_order_elem, elem_of_dom. eauto.
    - intros Hf k v _ Hv. apply (Hf k). by rewrite lookup_fmap, Hv. }
  rewrite <-Hiff. split.
  - intros (t & [Hf ->]%Hl & Hle)%outcome_bind_inv_ok.
    split; [done|]. split_and!; [lia..|done|].
    destruct (Z.ltb_spec (SetBytes (acc_StakedAmount a)) (0 + map_sum id (SetBytes <$> acc_DelegatedTo a)));
      [done|lia].
  - intros (_ & _ & _ & _ & Hf & Hle).
    rewrite (proj2 (Hl _) (conj Hf eq_refl)). simpl.
    match goal with |- context [?x <? ?y] => destruct (Z.ltb_spec x y) end; [lia|done].
Qed.
End Validation.

(** ** The invariant *)

Section Correctness.
Context `{MapOrder} {D C : Type} `{AccountDB D, !AccountDBLaws D} `{LRU C, !LRULaws C}.
Context (Keccak256 : list byte -> list byte) (shardID totalShards : Z).

Notation state := (@am D C).
Notation belongs := (BelongsToShard Keccak256 shardID totalShards).
Notation GetAccount := (GetAccount Keccak256 shardID totalShards).
Notation UpdateAccount := (UpdateAccount Keccak256 shardID totalShards).

Definition abs (s : state) : ledger := abs_acct <$> dbView (db s).

(** The cached objects carry their key, and outside [X] they are what the
    database holds; what the database holds is valid and belongs here. *)
Record good (X : gset string) (s : state) : Prop := MkGood {
  good_db : dbOK (db s);
  good_heap : forall l, is_Some (heap s !! l) -> (l < next s)%nat;
  good_cache : forall k l, lru_view (cache s) !! k = Some l ->
    exists a, heap s !! l = Some a /\ acc_Address a = k /\
    (k ∉ X -> dbView (db s) !! k = Some a);
  good_valid : forall k a, dbView (db s) !! k = Some a ->
    ValidateAccount a = Ok tt /\ belongs k = true
}.

Notation inv := (good ∅).

Definition ok_addr (addr : string) : bool := IsValid addr && belongs addr.

Lemma new_account_abs addr : abs_acct (new_account addr) = empty_acct.
Proof. unfold abs_acct. simpl. by rewrite fmap_empty. Qed.

Lemma new_account_canon addr : canon_account (new_account addr).
Proof. split_and!; [done..|]. apply map_Forall_empty. Qed.

Lemma valid_empty : valid_acct empty_acct.
Proof. split_and!; [done..| |]; [apply map_Forall_empty|]. simpl. by rewrite map_sum_empty. Qed.

Lemma abs_entry s k :
  entry (abs s) k = match dbView (db s) !! k with Some a => abs_acct a | None => empty_acct end.
Proof. unfold entry, abs. rewrite lookup_fmap. by destruct (dbView (db s) !! k). Qed.

(** ** Pointers *)

Lemma load_run l a s : heap s !! l = Some a -> load (C:=C) (D:=D) l s = (Ok a, s).
Proof. unfold load. by intros ->. Qed.

Lemma assign_run l f a s :
  heap s !! l = Some a ->
  assign (C:=C) (D:=D) l f s = (Ok tt, set_heap (<[l := f a]> (heap s)) s).
Proof. intros Hl. unfold assign, mbind, GoM_bind. by rewrite (load_run l a). Qed.

Lemma good_alloc s a :
  inv s -> inv (MkAM (<[next s := a]> (heap s)) (S (next s)) (cache s) (db s)) /\
  heap s ⊆ <[next s := a]> (heap s).
Proof.
  intros Hg. assert (Hfresh : heap s !! next s = None).
  { apply eq_None_not_Some. intros Hs%(good_heap _ _ Hg). lia. }
  split; [|by apply insert_subseteq]. split; simpl.
  - apply (good_db _ _ Hg).
  - intros l. destruct (decide (l = next s)) as [->|]; [lia|].
    rewrite lookup_insert_ne by done. intros Hl%(good_heap _ _ Hg). lia.
  - intros k l Hk. destruct (good_cache _ _ Hg k l Hk) as (b & Hb & Hrest).
    exists b. split; [|done]. rewrite lookup_insert_ne; [done|]. intros <-. congruence.
  - apply (good_valid _ _ Hg).
Qed.

Lemma good_mutate X s l a a' :
  good X s -> heap s !! l = Some a -> acc_Address a' = acc_Address a ->
  good (X ∪ {[acc_Address a]}) (set_heap (<[l := a']> (heap s)) s).
Proof.
  intros Hg Hl Ha. split; simpl.
  - apply (good_db _ _ Hg).
  - intros j. destruct (decide (j = l)) as [->|]; [intros _; apply (good_heap _ _ Hg); eauto|].
    rewrite lookup_insert_ne by done. apply (good_heap _ _ Hg).
  - intros k j Hk. destruct (good_cache _ _ Hg k j Hk) as (b & Hb & Hbk & Hdb).
    destruct (decide (j = l)) as [->|Hne].
    + rewrite lookup_insert_eq. exists a'. simplify_eq. split_and!; [done|done|set_solver].
    + rewrite lookup_insert_ne by done. exists b. split_and!; [done|done|set_solver].
  - apply (good_valid _ _ Hg).
Qed.

(** ** Reading *)

Lemma good_entry X s k a :
  good X s -> dbView (db s) !! k = Some a ->
  canon_account a /\ acc_Address a = k /\ valid_acct (abs_acct a) /\ ok_addr k = true.
Proof.
  intros Hg Hk. destruct (dbView_ok _ _ _ (good_db _ _ Hg) Hk) as [Hc Ha].
  destruct (good_valid _ _ Hg k a Hk) as [Hv Hb].
  apply ValidateAccount_ok in Hv as [Hv1 Hv2]; [|done].
  unfold ok_addr. rewrite Hb, <-Ha, Hv1. done.
Qed.

Lemma good_set_cache s c :
  inv s -> lru_view c = lru_view (cache s) -> inv (set_cache c s).
Proof.
  intros [H1' H2' H3' H4'] Hc. split; simpl; [done..| |done]. rewrite Hc. done.
Qed.

Lemma GetAccount_ok addr s :
  inv s -> dbQuiet (db s) -> ok_addr addr = true ->
  exists l a s', GetAccount addr s = (Ok l, s') /\ inv s' /\ db s' = db s /\
  heap s' !! l = Some a /\ heap s ⊆ heap s' /\ acc_Address a = addr /\ canon_account a /\
  abs_acct a = entry (abs s) addr /\ valid_acct (abs_acct a).
Proof.
  intros Hg Hq Hok. unfold ok_addr, IsValid in Hok. apply andb_true_iff in Hok as [Hv Hb].
  unfold GetAccount, mbind, GoM_bind, lift. destruct (Validate addr) as [[]| | |]; try done.
  simpl. rewrite Hb. simpl. unfold cache_Get.
  pose proof (lru_Get_value addr (cache s)) as Hval. pose proof (lru_Get_keeps addr (cache s)) as Hkeep.
  destruct (lru_Get addr (cache s)) as [r c]. simpl in Hval, Hkeep.
  pose proof (good_set_cache s c Hg Hkeep) as Hg1.
  destruct r as [l|]; simpl.
  - symmetry in Hval. destruct (good_cache _ _ Hg addr l Hval) as (a & Ha & Hak & Hdb).
    assert (Hd : dbView (db s) !! addr = Some a) by (apply Hdb; set_solver).
    destruct (good_entry _ _ _ _ Hg Hd) as (Hc & _ & Hva & _).
    exists l, a, (set_cache c s). rewrite abs_entry, Hd. by split_and!.
  - unfold db_GetAccount. simpl. rewrite (dbGet_quiet _ _ (good_db _ _ Hg) Hq).
    destruct (dbView (db s) !! addr) as [a|] eqn:Hd; simpl.
    + destruct (good_entry _ _ _ _ Hg Hd) as (Hc & Hak & Hva & _).
      destruct (good_alloc _ a Hg1) as [Hg2 Hsub]. simpl in Hg2, Hsub.
      eexists _, a, _. split; [reflexivity|]. simpl. rewrite abs_entry, Hd, lookup_insert_eq.
      split_and!; try done. split; simpl; [apply (good_db _ _ Hg2)|apply (good_heap _ _ Hg2)| |apply (good_valid _ _ Hg2)].
      intros k l Hk. destruct (decide (k = addr)) as [->|Hne].
      * rewrite lru_Add_self in Hk. injection Hk as <-. exists a. by rewrite lookup_insert_eq.
      * apply lru_Add_other in Hk; [|done]. apply (good_cache _ _ Hg2 k l Hk).
    + destruct (good_alloc _ (new_account addr) Hg1) as [Hg2 Hsub]. simpl in Hg2, Hsub.
      eexists _, (new_account addr), _. split; [reflexivity|]. simpl.
      rewrite abs_entry, Hd, lookup_insert_eq, new_account_abs.
      pose proof (new_account_canon addr). pose proof valid_empty. by split_and!.
Qed.

Lemma GetAccount_err addr s :
  ok_addr addr = false -> exists e, GetAccount addr s = (Err e, s).
Proof.
  unfold ok_addr, IsValid, GetAccount, mbind, GoM_bind, lift.
  destruct (Validate_cases addr) as [->|[e ->]]; simpl; [|eauto]. intros ->. simpl. eauto.
Qed.

(** ** Writing *)

Lemma u256_run v : 0 <= v < two256 -> u256_or_nil v = Bytes v.
Proof.
  intros Hv. unfold u256_or_nil. by rewrite (proj2 (encode_ok v (Bytes v)) (conj Hv eq_refl)).
Qed.

Lemma u256_canon v : 0 <= v < two256 -> canon (u256_or_nil v) /\ SetBytes (u256_or_nil v) = v.
Proof.
  intros Hv. rewrite u256_run by done. split; [by apply canon_Bytes|]. apply SetBytes_Bytes; lia.
Qed.

(** Normalising an already canonical object changes nothing. *)
Lemma set_same a : canon_account a ->
  set_Balance (acc_Balance a) a = a /\ set_StakedAmount (acc_StakedAmount a) a = a /\
  set_Rewards (acc_Rewards a) a = a /\ set_DelegatedTo (acc_DelegatedTo a) a = a.
Proof. by destruct a. Qed.

Lemma assign_id l f a s :
  heap s !! l = Some a -> f a = a -> assign (C:=C) (D:=D) l f s = (Ok tt, s).
Proof.
  intros Hl Hf. rewrite (assign_run l f a) by done. rewrite Hf, insert_id by done. by destruct s.
Qed.

Lemma UpdateAccount_ok X l a s :
  good X s -> dbQuiet (db s) -> heap s !! l = Some a -> canon_account a ->
  valid_acct (abs_acct a) -> ok_addr (acc_Address a) = true ->
  exists s', UpdateAccount l s = (Ok tt, s') /\ good (X ∖ {[acc_Address a]}) s' /\
  dbQuiet (db s') /\ heap s' = heap s /\
  dbView (db s') = <[acc_Address a := a]> (dbView (db s)).
Proof.
  intros Hg Hq Hl Hc Hv Hok. destruct (set_same a Hc) as (E1 & E2 & E3 & E4).
  pose proof Hc as (Hb & Hs & Hr & Hd).
  unfold ok_addr in Hok. apply andb_true_iff in Hok as [Hok1 Hok2].
  unfold UpdateAccount, mbind, GoM_bind, lift, cache_Add, db_SaveAccount.
  rewrite !(load_run l a) by done.
  rewrite (canon_parse (acc_Balance a)), canon_encode by done. simpl.
  rewrite (assign_id l _ a) by done. rewrite (load_run l a) by done.
  rewrite (canon_parse (acc_StakedAmount a)), canon_encode by done. simpl.
  rewrite (assign_id l _ a) by done. rewrite (load_run l a) by done.
  rewrite (canon_parse (acc_Rewards a)), canon_encode by done. simpl.
  rewrite (assign_id l _ a) by done. rewrite (load_run l a) by done.
  assert (Hmap : CanonicalizeUint256ByteMap (map_order (acc_DelegatedTo a)) (acc_DelegatedTo a)
    = Ok (acc_DelegatedTo a)).
  { apply range_keys_ok; [apply map_order_NoDup|].
    split; intros k; rewrite map_order_elem, elem_of_dom.
    - intros [v Hk]. exists v. rewrite Hk. split; [by apply (Hd k)|done].
    - intros Hk%eq_None_not_Some. by rewrite Hk, lookup_empty. }
  rewrite Hmap. simpl. rewrite (assign_id l _ a) by done. rewrite (load_run l a) by done.
  rewrite (proj2 (ValidateAccount_ok a Hc) (conj Hok1 Hv)). simpl. rewrite Hok2. simpl.
  unfold mbind, GoM_bind. rewrite (load_run l a) by done. unfold save_object.
  destruct (dbSave_quiet (db s) a (good_db _ _ Hg) Hq Hc) as (d' & -> & Hq' & Hdok' & Hview).
  simpl. eexists. split; [reflexivity|]. simpl. rewrite (insert_id _ _ _ Hl).
  split_and!; [|done..]. split; simpl.
  - done.
  - apply (good_heap _ _ Hg).
  - intros k j Hk. rewrite Hview. destruct (decide (k = acc_Address a)) as [->|Hne].
    + rewrite lru_Add_self in Hk. injection Hk as <-. exists a. by rewrite lookup_insert_eq.
    + apply lru_Add_other in Hk; [|done].
      destruct (good_cache _ _ Hg k j Hk) as (b & ? & ? & Hdb). exists b.
      rewrite lookup_insert_ne by done. split_and!; [done..|]. set_solver.
  - intros k b. rewrite Hview. destruct (decide (k = acc_Address a)) as [->|Hne].
    + rewrite lookup_insert_eq. intros [= <-]. split; [by apply ValidateAccount_ok|done].
    + rewrite lookup_insert_ne by done. apply (good_valid _ _ Hg).
Qed.

(** One object changed and persisted: the pattern of every single-account
    operation. *)
Lemma commit l a a' s :
  inv s -> dbQuiet (db s) -> heap s !! l = Some a -> acc_Address a' = acc_Address a ->
  ok_addr (acc_Address a) = true -> canon_account a' -> valid_acct (abs_acct a') ->
  exists s', UpdateAccount l (set_heap (<[l := a']> (heap s)) s) = (Ok tt, s') /\ inv s' /\
  dbQuiet (db s') /\ abs s' = <[acc_Address a := abs_acct a']> (abs s).
Proof.
  intros Hg Hq Hl Ha Hok Hc Hv.
  pose proof (good_mutate ∅ s l a a' Hg Hl Ha) as Hg1.
  destruct (UpdateAccount_ok _ l a' _ Hg1 Hq) as (s' & Hu & Hg' & Hq' & _ & Hview);
    [apply lookup_insert_eq|done|done|by rewrite Ha|].
  exists s'. split_and!; [done| |done|].
  - rewrite Ha in Hg'. assert (Heq : (∅ ∪ {[acc_Address a]}) ∖ {[acc_Address a]} = (∅ : gset string))
      by set_solver. by rewrite Heq in Hg'.
  - unfold abs. rewrite Hview, Ha. simpl. by rewrite fmap_insert.
Qed.

(** ** Refinement

    On a healthy database, [op] succeeds exactly when the ledger allows the
    step and then takes it; otherwise it reports an error and the ledger is
    unchanged.  Either way the invariant is restored. *)
Definition refines {A} (op : GoM state am_err A) (spec : ledger -> option ledger) (mint : Z) : Prop :=
  forall s, inv s -> dbQuiet (db s) -> supply (abs s) + mint < two256 ->
  exists r s', op s = (r, s') /\ inv s' /\ dbQuiet (db s') /\
  match spec (abs s) with
  | Some L' => is_ok r = true /\ abs s' = L'
  | None => is_err r = true /\ abs s' = abs s
  end.

Lemma funds_le_supply s k :
  inv s -> 0 <= funds (entry (abs s) k) <= supply (abs s) /\ valid_acct (entry (abs s) k).
Proof.
  intros Hg.
  assert (Hpos : forall k v, abs s !! k = Some v -> 0 <= funds v).
  { intros j v (a & <- & Ha)%lookup_fmap_Some.
    destruct (good_entry _ _ _ _ Hg Ha) as (_ & _ & (? & ? & ? & _) & _). unfold funds. lia. }
  unfold entry. destruct (abs s !! k) as [v|] eqn:Hk; simpl.
  - split; [split; [by eapply Hpos|by apply (map_sum_lookup_le funds _ k)]|].
    apply lookup_fmap_Some in Hk as (a & <- & Ha).
    by destruct (good_entry _ _ _ _ Hg Ha) as (_ & _ & ? & _).
  - split; [|apply valid_empty]. split; [done|]. by apply map_sum_nonneg.
Qed.

Lemma delegation_le_staked a v x : valid_acct a -> deleg a !! v = Some x -> 0 < x <= staked a.
Proof.
  intros (_ & _ & _ & Hf & Hle) Hv. destruct (Hf v x Hv) as [_ Hx]. split; [done|].
  etransitivity; [|exact Hle]. change x with (id x).
  apply (map_sum_lookup_le id _ v); [|done]. intros k y Hy. destruct (Hf k y Hy). unfold id. lia.
Qed.

(** A refused test leaves the state alone. *)
Lemma refuse_true {A} (e : am_err) (k : unit -> GoM state am_err A) s :
  (refuse_if true e ≫= k) s = (Err e, s).
Proof. done. Qed.
Lemma refuse_false {A} (e : am_err) (k : unit -> GoM state am_err A) s :
  (refuse_if false e ≫= k) s = k tt s.
Proof. done. Qed.

Lemma abs_db s s' : db s' = db s -> abs s' = abs s.
Proof. unfold abs. by intros ->. Qed.

Ltac refused :=
  eexists _, _; split; [reflexivity|]; cbn [negb andb]; split_and!;
  first [done | by (match goal with Hdb : db _ = db _ |- _ => rewrite Hdb end)
        | by apply abs_db].

(** Test the code's condition and the specification's at once. *)
Ltac refuse_test c :=
  destruct c eqn:?; [rewrite refuse_true; refused|rewrite refuse_false].

Lemma fetch_ok {A} addr s (k : loc -> GoM state am_err A) :
  inv s -> dbQuiet (db s) -> ok_addr addr = true ->
  exists l a s', (wrapM GetAccountFailed (GetAccount addr) ≫= k) s = k l s' /\
  inv s' /\ db s' = db s /\ heap s' !! l = Some a /\ heap s ⊆ heap s' /\
  acc_Address a = addr /\ canon_account a /\
  abs_acct a = entry (abs s) addr /\ valid_acct (abs_acct a).
Proof.
  intros Hg Hq Hok. destruct (GetAccount_ok addr s Hg Hq Hok) as (l & a & s' & Hget & Hrest).
  exists l, a, s'. split; [|done]. unfold mbind, GoM_bind, wrapM. by rewrite Hget.
Qed.

Lemma fetch_err {A} addr s (k : loc -> GoM state am_err A) :
  ok_addr addr = false -> exists e, (wrapM GetAccountFailed (GetAccount addr) ≫= k) s = (Err e, s).
Proof.
  intros Hok. destruct (GetAccount_err addr s Hok) as [e He].
  exists (GetAccountFailed e). unfold mbind, GoM_bind, wrapM. by rewrite He.
Qed.

Lemma bind_load {A} l a s (k : Account -> GoM state am_err A) :
  heap s !! l = Some a -> (load l ≫= k) s = k a s.
Proof. intros Hl. unfold mbind, GoM_bind. by rewrite (load_run l a). Qed.

Lemma bind_assign {A} l f a s (k : unit -> GoM state am_err A) :
  heap s !! l = Some a -> (assign l f ≫= k) s = k tt (set_heap (<[l := f a]> (heap s)) s).
Proof. intros Hl. unfold mbind, GoM_bind. by rewrite (assign_run l f a). Qed.

Lemma bind_assign2 {A} l f h s b (k : unit -> GoM state am_err A) :
  (assign l f ≫= k) (set_heap (<[l := b]> h) s) = k tt (set_heap (<[l := f b]> h) s).
Proof.
  rewrite (bind_assign l f b) by apply lookup_insert_eq. simpl. by rewrite insert_insert_eq.
Qed.

(** [fetch addr], for the addresses the shard serves and the others. *)
Ltac fetch_account addr l a s1 :=
  destruct (ok_addr addr) eqn:?;
  [ match goal with
    | Hg : inv ?s, Hq : dbQuiet (db ?s) |- context [(wrapM GetAccountFailed (GetAccount addr) ≫= ?k) ?s] =>
        destruct (fetch_ok addr s k Hg Hq ltac:(done))
          as (l & a & s1 & -> & Hg1 & Hdb & Hl & _ & Haddr & Hc & Habs & Hv)
    end
  | match goal with
    | |- context [(wrapM GetAccountFailed (GetAccount addr) ≫= ?k) ?s] =>
        destruct (fetch_err addr s k ltac:(done)) as [e ->]; refused
    end ].

(** The object [a'] written back by a single-account operation. *)
Lemma committed s s1 l a a' x :
  inv s1 -> dbQuiet (db s) -> db s1 = db s -> heap s1 !! l = Some a ->
  acc_Address a' = acc_Address a -> ok_addr (acc_Address a) = true ->
  canon_account a' -> abs_acct a' = x -> valid_acct x ->
  exists r s', UpdateAccount l (set_heap (<[l := a']> (heap s1)) s1) = (r, s') /\ inv s' /\
  dbQuiet (db s') /\ is_ok r = true /\ abs s' = <[acc_Address a := x]> (abs s).
Proof.
  intros Hg Hq Hdb Hl Ha Hok Hc <- Hv.
  destruct (commit l a a' s1) as (s' & Hu & Hg' & Hq' & Habs); [try done..|].
  { by rewrite Hdb. }
  exists (Ok tt), s'. rewrite <-(abs_db s s1 Hdb). by split_and!.
Qed.

Lemma Stake_refines addr amount :
  refines (Stake Keccak256 shardID totalShards addr amount)
    (fun L => spec_Stake ok_addr L addr amount) 0.
Proof.
  intros s Hg Hq Hs. unfold Stake, spec_Stake.
  destruct (funds_le_supply s addr Hg) as [Hf _]. unfold funds in Hf.
  refuse_test (amount <? MinimumStakeAmount).
  fetch_account addr l a s1. cbn [negb].
  rewrite (bind_load l a) by done. pose proof Hc as (Hb & Hst & Hr & Hd).
  rewrite !canon_parse by done. rewrite <-Habs in *. cbn [bal staked rewards deleg nonce abs_acct] in *.
  refuse_test (SetBytes (acc_Balance a) <? amount).
  rewrite (bind_assign l _ a) by done. rewrite bind_assign2. zbool. unfold MinimumStakeAmount in *.
  destruct Hv as (? & ? & ? & ? & ?). simpl in *.
  destruct (u256_canon (SetBytes (acc_Balance a) - amount)) as [? ?]; [lia|].
  destruct (u256_canon (SetBytes (acc_StakedAmount a) + amount)) as [? ?]; [lia|].
  rewrite <-Haddr. eapply (committed s s1 l a); try done.
  - by rewrite Haddr.
  - unfold abs_acct. simpl. by f_equal.
  - split_and!; simpl; try done; lia.
Qed.

(** After the fetch: read the object's amounts as the ledger's. *)
Ltac read_amounts l a :=
  rewrite (bind_load l a) by done;
  match goal with Hc : canon_account a |- _ => pose proof Hc as (Hb & Hst & Hr & Hd) end;
  rewrite ?(canon_parse (acc_Balance a)), ?(canon_parse (acc_StakedAmount a)),
    ?(canon_parse (acc_Rewards a)) by done;
  match goal with Habs : abs_acct a = _ |- _ => rewrite <-Habs in * end;
  cbn [bal staked rewards deleg nonce abs_acct] in *.

Lemma Unstake_refines addr amount :
  refines (Unstake Keccak256 shardID totalShards addr amount)
    (fun L => spec_Unstake ok_addr L addr amount) 0.
Proof.
  intros s Hg Hq Hs. unfold Unstake, spec_Unstake.
  destruct (funds_le_supply s addr Hg) as [Hf _]. unfold funds in Hf.
  refuse_test (amount <=? 0).
  fetch_account addr l a s1. cbn [negb]. read_amounts l a.
  refuse_test (SetBytes (acc_StakedAmount a) <? amount).
  rewrite total_delegated_sum by done.
  refuse_test (SetBytes (acc_StakedAmount a) - amount <? map_sum id (SetBytes <$> acc_DelegatedTo a)).
  rewrite (bind_assign l _ a) by done. rewrite bind_assign2. zbool.
  destruct Hv as (? & ? & ? & ? & ?). simpl in *.
  destruct (u256_canon (SetBytes (acc_StakedAmount a) - amount)) as [? ?]; [lia|].
  destruct (u256_canon (SetBytes (acc_Balance a) + amount)) as [? ?]; [lia|].
  rewrite <-Haddr. eapply (committed s s1 l a); try done.
  - by rewrite Haddr.
  - unfold abs_acct. simpl. by f_equal.
  - split_and!; simpl; try done; lia.
Qed.

Lemma AddRewardsBig_refines addr amount :
  refines (AddRewardsBig Keccak256 shardID totalShards addr (Some amount))
    (fun L => spec_AddRewards ok_addr L addr amount) (Z.max 0 amount).
Proof.
  intros s Hg Hq Hs. unfold AddRewardsBig, spec_AddRewards.
  destruct (funds_le_supply s addr Hg) as [Hf _]. unfold funds in Hf.
  replace (Z.sgn amount <=? 0) with (amount <=? 0)
    by (destruct (Z.leb_spec amount 0), (Z.leb_spec (Z.sgn amount) 0); lia).
  refuse_test (amount <=? 0).
  fetch_account addr l a s1. cbn [negb]. read_amounts l a.
  rewrite (bind_assign l _ a) by done. zbool. destruct Hv as (? & ? & ? & ? & ?). simpl in *.
  destruct (u256_canon (SetBytes (acc_Rewards a) + amount)) as [? ?]; [lia|].
  rewrite <-Haddr. eapply (committed s s1 l a); try done.
  - by rewrite Haddr.
  - unfold abs_acct. simpl. by f_equal.
  - split_and!; simpl; try done; lia.
Qed.

Lemma AddRewards_refines addr amount :
  refines (AddRewards Keccak256 shardID totalShards addr amount)
    (fun L => spec_AddRewards ok_addr L addr amount) (Z.max 0 amount).
Proof.
  intros s Hg Hq Hs. unfold AddRewards.
  destruct (amount <=? 0) eqn:Ha; [rewrite refuse_true|rewrite refuse_false].
  - eexists _, _. split; [reflexivity|]. unfold spec_AddRewards. by rewrite Ha.
  - by apply AddRewardsBig_refines.
Qed.

Lemma ClaimRewards_refines addr :
  refines (ClaimRewards Keccak256 shardID totalShards addr)
    (fun L => spec_ClaimRewards ok_addr L addr) 0.
Proof.
  intros s Hg Hq Hs. unfold ClaimRewards, spec_ClaimRewards.
  destruct (funds_le_supply s addr Hg) as [Hf _]. unfold funds in Hf.
  fetch_account addr l a s1. cbn [negb]. read_amounts l a.
  replace (Z.sgn (SetBytes (acc_Rewards a)) <=? 0) with (SetBytes (acc_Rewards a) <=? 0)
    by (destruct (Z.leb_spec (SetBytes (acc_Rewards a)) 0),
          (Z.leb_spec (Z.sgn (SetBytes (acc_Rewards a))) 0); lia).
  refuse_test (SetBytes (acc_Rewards a) <=? 0).
  rewrite (bind_assign l _ a) by done. rewrite bind_assign2. zbool.
  destruct Hv as (? & ? & ? & ? & ?). simpl in *.
  destruct (u256_canon (SetBytes (acc_Balance a) + SetBytes (acc_Rewards a))) as [? ?]; [lia|].
  rewrite <-Haddr.
  match goal with |- context [UpdateAccount l ≫= ?k] =>
    destruct (committed s s1 l a (set_Balance (u256_or_nil (SetBytes (acc_Balance a) + SetBytes (acc_Rewards a)))
      (set_Rewards [] a)) (MkAcct (SetBytes (acc_Balance a) + SetBytes (acc_Rewards a))
      (SetBytes (acc_StakedAmount a)) 0 (SetBytes <$> acc_DelegatedTo a) (acc_Nonce a)))
      as (r & s' & Hu & ? & ? & Hok & ?) end; try done.
  - by rewrite Haddr.
  - unfold abs_acct. simpl. by f_equal.
  - split_and!; simpl; try done; lia.
  - destruct r as [[]| | |]; try done. exists (Ok (String10 (SetBytes (acc_Rewards a)))), s'.
    unfold mbind, GoM_bind. rewrite Hu. by split_and!.
Qed.

Lemma MinimumDelegation_pos : 0 < MinimumDelegation.
Proof. done. Qed.

Lemma Delegate_refines delegator validator amount :
  refines (Delegate Keccak256 shardID totalShards delegator validator amount)
    (fun L => spec_Delegate ok_addr L delegator validator amount) 0.
Proof.
  intros s Hg Hq Hs. unfold Delegate, spec_Delegate.
  destruct (funds_le_supply s delegator Hg) as [Hf _]. unfold funds in Hf.
  refuse_test (amount <? MinimumDelegation).
  refuse_test (bool_decide (delegator = validator)).
  unfold IsValid at 1. unfold lift. unfold mbind at 1, GoM_bind at 1.
  destruct (Validate_cases validator) as [Hvv|[e Hvv]]; rewrite Hvv; simpl; [|refused].
  fetch_account delegator l a s1. cbn [negb]. read_amounts l a.
  refuse_test (SetBytes (acc_Balance a) <? amount).
  rewrite (bind_assign l _ a) by done. rewrite !bind_assign2. zbool. pose proof MinimumDelegation_pos.
  assert (Hcur : ParseBigInt_bytes (default [] (acc_DelegatedTo a !! validator)) =
    default 0 ((SetBytes <$> acc_DelegatedTo a) !! validator) /\
    0 <= default 0 ((SetBytes <$> acc_DelegatedTo a) !! validator) <= SetBytes (acc_StakedAmount a)).
  { rewrite lookup_fmap. destruct (acc_DelegatedTo a !! validator) as [v|] eqn:Hva; simpl.
    - rewrite canon_parse by by apply (Hd validator). split; [done|].
      pose proof (delegation_le_staked (abs_acct a) validator (SetBytes v) Hv) as Hle.
      simpl in Hle. rewrite lookup_fmap, Hva in Hle. specialize (Hle eq_refl). lia.
    - destruct Hv as (_ & ? & _). split; [done|simpl in *; lia]. }
  destruct Hcur as [-> Hcur]. destruct Hv as (? & ? & ? & Hfa & Hsum). simpl in *.
  destruct (u256_canon (SetBytes (acc_Balance a) - amount)) as [? ?]; [lia|].
  destruct (u256_canon (SetBytes (acc_StakedAmount a) + amount)) as [? ?]; [lia|].
  destruct (u256_canon (default 0 ((SetBytes <$> acc_DelegatedTo a) !! validator) + amount))
    as [Hcn Hvn]; [lia|].
  rewrite <-Haddr. eapply (committed s s1 l a _ _ Hg1 Hq Hdb Hl).
  - reflexivity.
  - by rewrite Haddr.
  - split_and!; simpl; [done..|]. by apply map_Forall_insert_2.
  - unfold abs_acct. simpl. rewrite fmap_insert. by f_equal; [..|f_equal].
  - split_and!; simpl; [lia..| |].
    + apply map_Forall_insert_2; [|done]. unfold IsValid. rewrite Hvv. split; [done|lia].
    + destruct ((SetBytes <$> acc_DelegatedTo a) !! validator) as [v|] eqn:Hva; simpl in *.
      * rewrite (map_sum_insert_Some id _ _ v) by done. unfold id in *. lia.
      * rewrite map_sum_insert_None by done. unfold id in *. lia.
Qed.

(** Taking [amount] out of one delegation, dropping it when nothing is left. *)
Lemma reduce_delegation a validator cur amount :
  canon_account a -> valid_acct (abs_acct a) -> acc_DelegatedTo a !! validator = Some cur ->
  0 < amount <= SetBytes cur ->
  let m' := if SetBytes cur - amount =? 0 then delete validator (acc_DelegatedTo a)
            else <[validator := u256_or_nil (SetBytes cur - amount)]> (acc_DelegatedTo a) in
  let d' := if SetBytes cur - amount =? 0 then delete validator (SetBytes <$> acc_DelegatedTo a)
            else <[validator := SetBytes cur - amount]> (SetBytes <$> acc_DelegatedTo a) in
  map_Forall (fun _ => canon) m' /\ SetBytes <$> m' = d' /\
  valid_acct (MkAcct (SetBytes (acc_Balance a) + amount) (SetBytes (acc_StakedAmount a) - amount)
    (SetBytes (acc_Rewards a)) d' (acc_Nonce a)).
Proof.
  intros (_ & _ & _ & Hd) Hv Hcur Ham m' d'.
  assert (Hcur' : (SetBytes <$> acc_DelegatedTo a) !! validator = Some (SetBytes cur))
    by by rewrite lookup_fmap, Hcur.
  pose proof (delegation_le_staked (abs_acct a) validator (SetBytes cur) Hv Hcur') as Hle.
  pose proof (canon_range cur (Hd _ _ Hcur)) as Hrange. simpl in Hle.
  destruct Hv as (? & ? & ? & Hfa & Hsum). simpl in *. unfold m', d', valid_acct.
  destruct (Z.eqb_spec (SetBytes cur - amount) 0) as [Hz|Hz].
  - split_and!; simpl; [by apply map_Forall_delete|by rewrite fmap_delete|lia..| |].
    + by apply map_Forall_delete.
    + rewrite (map_sum_delete id _ validator _ Hcur') in Hsum. unfold id in *. lia.
  - destruct (u256_canon (SetBytes cur - amount)) as [Hcn Hvn]; [lia|].
    split_and!; simpl; [by apply map_Forall_insert_2| |lia..| |].
    + rewrite fmap_insert. by f_equal.
    + apply map_Forall_insert_2; [|done]. destruct (Hfa _ _ Hcur') as [? _]. split; [done|lia].
    + rewrite (map_sum_insert_Some id _ _ (SetBytes cur)) by done. unfold id in *. lia.
Qed.

Lemma Undelegate_refines delegator validator amount :
  refines (Undelegate Keccak256 shardID totalShards delegator validator amount)
    (fun L => spec_Undelegate ok_addr L delegator validator amount) 0.
Proof.
  intros s Hg Hq Hs. unfold Undelegate, spec_Undelegate.
  destruct (funds_le_supply s delegator Hg) as [Hf _]. unfold funds in Hf.
  refuse_test (amount <=? 0).
  unfold IsValid at 1. unfold lift. unfold mbind at 1, GoM_bind at 1.
  destruct (Validate_cases validator) as [Hvv|[e Hvv]]; rewrite Hvv; simpl; [|refused].
  fetch_account delegator l a s1. cbn [negb]. read_amounts l a.
  rewrite lookup_fmap. destruct (acc_DelegatedTo a !! validator) as [cur|] eqn:Hcur; simpl; [|refused].
  rewrite canon_parse by by apply (Hd validator).
  refuse_test (SetBytes cur <? amount). zbool.
  pose proof (delegation_le_staked (abs_acct a) validator (SetBytes cur) Hv) as Hle.
  simpl in Hle. rewrite lookup_fmap, Hcur in Hle. specialize (Hle eq_refl).
  destruct (u256_canon (SetBytes (acc_StakedAmount a) - amount)) as [? ?];
    [unfold valid_acct in Hv; simpl in *; lia|].
  destruct (u256_canon (SetBytes (acc_Balance a) + amount)) as [? ?];
    [unfold valid_acct in Hv; simpl in *; lia|].
  assert (Hsgn : (Z.sgn (SetBytes cur - amount) =? 0) = (SetBytes cur - amount =? 0)).
  { destruct (Z.eqb_spec (SetBytes cur - amount) 0), (Z.eqb_spec (Z.sgn (SetBytes cur - amount)) 0); lia. }
  rewrite Hsgn. destruct (reduce_delegation a validator cur amount Hc Hv Hcur) as (Hcan & Hmap & Hval);
    [lia|].
  set (m' := if SetBytes cur - amount =? 0 then delete validator (acc_DelegatedTo a)
             else <[validator := u256_or_nil (SetBytes cur - amount)]> (acc_DelegatedTo a)) in *.
  match goal with |- context [(?m ≫= ?k) s1] =>
    assert (Hstep : (m ≫= k) s1 = k tt (set_heap (<[l := set_DelegatedTo m' a]> (heap s1)) s1)) end.
  { unfold m'. destruct (SetBytes cur - amount =? 0); by rewrite (bind_assign l _ a). }
  rewrite Hstep, !bind_assign2. rewrite <-Haddr. clear Hstep.
  eapply (committed s s1 l a _ _ Hg1 Hq Hdb Hl).
  - reflexivity.
  - by rewrite Haddr.
  - destruct Hc as (? & ? & ? & _). split_and!; simpl; done.
  - unfold abs_acct. simpl. by f_equal.
  - exact Hval.
Qed.

Lemma funds_two s k1 k2 :
  inv s -> k1 <> k2 -> funds (entry (abs s) k1) + funds (entry (abs s) k2) <= supply (abs s).
Proof.
  intros Hg Hne. destruct (funds_le_supply s k1 Hg) as [Hk1 _], (funds_le_supply s k2 Hg) as [Hk2 _].
  unfold entry in *. destruct (abs s !! k1) as [v1|] eqn:H1'; simpl in *;
    [|change (funds empty_acct) with 0; lia].
  destruct (abs s !! k2) as [v2|] eqn:H2'; simpl in *; [|change (funds empty_acct) with 0; lia].
  unfold supply. rewrite (map_sum_delete funds _ k1 v1) by done.
  assert (funds v2 <= map_sum funds (delete k1 (abs s))); [|lia].
  apply (map_sum_lookup_le funds _ k2); [|by rewrite lookup_delete_ne].
  intros k v [_ Hv]%lookup_delete_Some. destruct (funds_le_supply s k Hg) as [Hk _].
  unfold entry in Hk. rewrite Hv in Hk. simpl in Hk. lia.
Qed.

(** Two objects changed, then persisted one after the other. *)
Lemma commit_two s lf lt af at_ af' at' :
  inv s -> dbQuiet (db s) -> heap s !! lf = Some af -> heap s !! lt = Some at_ ->
  acc_Address af <> acc_Address at_ ->
  acc_Address af' = acc_Address af -> acc_Address at' = acc_Address at_ ->
  ok_addr (acc_Address af) = true -> ok_addr (acc_Address at_) = true ->
  canon_account af' -> canon_account at' ->
  valid_acct (abs_acct af') -> valid_acct (abs_acct at') ->
  exists s1 s2,
  UpdateAccount lf (set_heap (<[lt := at']> (<[lf := af']> (heap s))) s) = (Ok tt, s1) /\
  UpdateAccount lt s1 = (Ok tt, s2) /\ inv s2 /\ dbQuiet (db s2) /\
  abs s2 = <[acc_Address at_ := abs_acct at']> (<[acc_Address af := abs_acct af']> (abs s)).
Proof.
  intros Hg Hq Hlf Hlt Hne Haf Hat Hokf Hokt Hcf Hct Hvf Hvt.
  assert (Hll : lf <> lt) by congruence.
  pose proof (good_mutate ∅ s lf af af' Hg Hlf Haf) as Hg1.
  pose proof (good_mutate _ _ lt at_ at' Hg1) as Hg2. simpl in Hg2.
  rewrite lookup_insert_ne in Hg2 by done. specialize (Hg2 Hlt Hat).
  destruct (UpdateAccount_ok _ lf af' _ Hg2 Hq) as (s1 & Hu1 & Hg3 & Hq1 & Hh1 & Hview1);
    [simpl; rewrite lookup_insert_ne, lookup_insert_eq; done|done|done|by rewrite Haf|].
  destruct (UpdateAccount_ok _ lt at' s1 Hg3 Hq1) as (s2 & Hu2 & Hg4 & Hq2 & _ & Hview2);
    [rewrite Hh1; simpl; by rewrite lookup_insert_eq|done|done|by rewrite Hat|].
  exists s1, s2. split_and!; [done|done| |done|].
  - rewrite Haf, Hat in Hg4.
    assert (Heq : ((∅ ∪ {[acc_Address af]} ∪ {[acc_Address at_]}) ∖ {[acc_Address af]})
      ∖ {[acc_Address at_]} = (∅ : gset string)) by set_solver. by rewrite Heq in Hg4.
  - unfold abs. rewrite Hview2, Hview1, Haf, Hat. simpl. by rewrite !fmap_insert.
Qed.

(** What Transfer does once it has both objects. *)
Definition transfer_tail (lf : loc) (amount : Z) (lt : loc) : GoM state am_err unit :=
  fromA ← load lf;
  toA ← load lt;
  _ ← refuse_if (ParseBigInt_bytes (acc_Balance fromA) <? amount) InsufficientBalance;
  _ ← assign lf (set_Balance (u256_or_nil (ParseBigInt_bytes (acc_Balance fromA) - amount)));
  _ ← assign lt (set_Balance (u256_or_nil (ParseBigInt_bytes (acc_Balance toA) + amount)));
  _ ← wrapM UpdateSenderFailed (UpdateAccount lf);
  wrapM UpdateReceiverFailed (UpdateAccount lt).

Lemma transfer_tail_refines s lf lt af at_ amount :
  inv s -> dbQuiet (db s) -> supply (abs s) < two256 -> 0 < amount ->
  heap s !! lf = Some af -> heap s !! lt = Some at_ ->
  acc_Address af <> acc_Address at_ ->
  ok_addr (acc_Address af) = true -> ok_addr (acc_Address at_) = true ->
  canon_account af -> canon_account at_ ->
  abs_acct af = entry (abs s) (acc_Address af) -> abs_acct at_ = entry (abs s) (acc_Address at_) ->
  exists r s', transfer_tail lf amount lt s = (r, s') /\ inv s' /\ dbQuiet (db s') /\
  if bal (abs_acct af) <? amount then is_err r = true /\ abs s' = abs s
  else is_ok r = true /\ abs s' =
    <[acc_Address at_ := MkAcct (bal (abs_acct at_) + amount) (staked (abs_acct at_))
        (rewards (abs_acct at_)) (deleg (abs_acct at_)) (nonce (abs_acct at_))]>
    (<[acc_Address af := MkAcct (bal (abs_acct af) - amount) (staked (abs_acct af))
        (rewards (abs_acct af)) (deleg (abs_acct af)) (nonce (abs_acct af))]> (abs s)).
Proof.
  intros Hg Hq Hs Ham Hlf Hlt Hne Hokf Hokt Hc Hc2 Habs Habs2.
  pose proof (funds_two s _ _ Hg Hne) as Htwo.
  destruct (funds_le_supply s (acc_Address af) Hg) as [Hf1 Hv].
  destruct (funds_le_supply s (acc_Address at_) Hg) as [Hf2 Hv2].
  rewrite <-Habs, <-Habs2 in *. clear Habs Habs2. unfold transfer_tail.
  rewrite (bind_load lf af), (bind_load lt at_) by done.
  rewrite (canon_parse (acc_Balance af)), (canon_parse (acc_Balance at_)) by (apply Hc || apply Hc2).
  cbn [bal staked rewards deleg nonce abs_acct].
  destruct (Z.ltb_spec (SetBytes (acc_Balance af)) amount); [rewrite refuse_true; refused|].
  rewrite refuse_false, (bind_assign lf _ af) by done.
  assert (Hll : lf <> lt) by congruence.
  rewrite (bind_assign lt _ at_) by (simpl; by rewrite lookup_insert_ne). simpl.
  unfold funds in *. destruct Hc as (? & ? & ? & ?), Hc2 as (? & ? & ? & ?).
  destruct Hv as (? & ? & ? & ? & ?), Hv2 as (? & ? & ? & ? & ?). simpl in *.
  destruct (u256_canon (SetBytes (acc_Balance af) - amount)) as [? Hb1]; [lia|].
  destruct (u256_canon (SetBytes (acc_Balance at_) + amount)) as [? Hb2]; [lia|].
  destruct (commit_two s lf lt af at_
    (set_Balance (u256_or_nil (SetBytes (acc_Balance af) - amount)) af)
    (set_Balance (u256_or_nil (SetBytes (acc_Balance at_) + amount)) at_))
    as (s3 & s4 & Hu1 & Hu2 & Hg4 & Hq4 & Habs4); try done.
  { unfold valid_acct. simpl. rewrite Hb1. split_and!; try done; lia. }
  { unfold valid_acct. simpl. rewrite Hb2. split_and!; try done; lia. }
  exists (Ok tt), s4. unfold mbind, GoM_bind, wrapM.
  change (set_heap (<[lt := ?x]> ?h) (set_heap ?h2 ?s)) with (set_heap (<[lt := x]> h) s).
  rewrite Hu1. simpl. rewrite Hu2. split_and!; try done.
  rewrite Habs4. unfold abs_acct. simpl. by rewrite Hb1, Hb2.
Qed.

Lemma Transfer_refines from to amount :
  refines (Transfer Keccak256 shardID totalShards from to amount)
    (fun L => spec_Transfer ok_addr L from to amount) 0.
Proof.
  intros s Hg Hq Hs. unfold Transfer, spec_Transfer.
  refuse_test (amount <? MinimumTransfer). zbool. unfold MinimumTransfer in *.
  rewrite (proj2 (Z.leb_gt amount 0)) by lia. rewrite refuse_false.
  destruct (bool_decide (from = to)) eqn:Hft; [rewrite refuse_true; refused|rewrite refuse_false].
  apply bool_decide_eq_false in Hft. unfold lift. unfold mbind at 1, GoM_bind at 1.
  destruct (Validate_cases from) as [Hvf|[e Hvf]]; rewrite Hvf; simpl.
  2: { assert (ok_addr from = false) as -> by (unfold ok_addr, IsValid; by rewrite Hvf). refused. }
  unfold mbind at 1, GoM_bind at 1.
  destruct (Validate_cases to) as [Hvt|[e Hvt]]; rewrite Hvt; simpl.
  2: { assert (ok_addr to = false) as -> by (unfold ok_addr, IsValid; by rewrite Hvt).
       rewrite andb_false_r. refused. }
  fetch_account from lf af s1. simpl.
  assert (Hokto : belongs to = ok_addr to) by (unfold ok_addr, IsValid; by rewrite Hvt).
  rewrite Hokto. destruct (ok_addr to) eqn:Hto; [|rewrite refuse_true; refused].
  rewrite refuse_false. simpl. rewrite <-Hdb in Hq.
  destruct (fetch_ok to s1 (transfer_tail lf amount) Hg1 Hq Hto)
    as (lt & at_ & s2 & Hrun & Hg2 & Hdb2 & Hlt & Hsub & Haddr2 & Hc2 & Habs2 & _).
  unfold transfer_tail at 1 in Hrun. rewrite Hrun. clear Hrun.
  rewrite (abs_db s s1 Hdb) in Habs2. assert (Hdb3 : db s2 = db s) by congruence.
  destruct (transfer_tail_refines s2 lf lt af at_ amount) as (r & s' & Hrun & Hg' & Hq' & Hres);
    rewrite ?Haddr, ?Haddr2, ?(abs_db s s2 Hdb3); try done; [by rewrite Hdb2|lia|lia|
    by eapply lookup_weaken|].
  exists r, s'. rewrite Haddr, Haddr2, (abs_db s s2 Hdb3), Habs, Habs2 in Hres.
  split_and!; [done..|]. by destruct (bal (entry (abs s) from) <? amount).
Qed.
End Correctness.

(** ** Conservation on the ledger *)

Lemma supply_insert (L : ledger) k x :
  supply (<[k := x]> L) = supply L - funds (entry L k) + funds x.
Proof.
  unfold supply, entry. destruct (L !! k) as [v|] eqn:Hk; simpl.
  - by rewrite (map_sum_insert_Some funds L k v).
  - rewrite map_sum_insert_None by done. change (funds empty_acct) with 0. lia.
Qed.

Lemma entry_insert_ne (L : ledger) j k x : j <> k -> entry (<[j := x]> L) k = entry L k.
Proof. intros. unfold entry. by rewrite lookup_insert_ne. Qed.

(** A sequence of calls on the manager. *)
Inductive am_op : Type :=
| OpStake (addr : string) (amount : Z)
| OpUnstake (addr : string) (amount : Z)
| OpDelegate (delegator validator : string) (amount : Z)
| OpUndelegate (delegator validator : string) (amount : Z)
| OpAddRewards (addr : string) (amount : Z)
| OpClaimRewards (addr : string)
| OpTransfer (from to : string) (amount : Z).

Definition spec_op (ok : string -> bool) (o : am_op) (L : ledger) : option ledger :=
  match o with
  | OpStake addr amount => spec_Stake ok L addr amount
  | OpUnstake addr amount => spec_Unstake ok L addr amount
  | OpDelegate delegator validator amount => spec_Delegate ok L delegator validator amount
  | OpUndelegate delegator validator amount => spec_Undelegate ok L delegator validator amount
  | OpAddRewards addr amount => spec_AddRewards ok L addr amount
  | OpClaimRewards addr => spec_ClaimRewards ok L addr
  | OpTransfer from to amount => spec_Transfer ok L from to amount
  end.

Definition mints (o : am_op) : Z :=
  match o with OpAddRewards _ amount => Z.max 0 amount | _ => 0 end.

(** The ledger after a sequence, with which steps were allowed. *)
Fixpoint spec_run (ok : string -> bool) (ops : list am_op) (L : ledger) : list bool * ledger :=
  match ops with
  | [] => ([], L)
  | o :: ops' =>
      match spec_op ok o L with
      | Some L' => let '(bs, L'') := spec_run ok ops' L' in (true :: bs, L'')
      | None => let '(bs, L'') := spec_run ok ops' L in (false :: bs, L'')
      end
  end.

Definition total_mint (ops : list am_op) : Z := foldr (fun o acc => mints o + acc) 0 ops.

(** What the allowed steps of a run minted. *)
Fixpoint minted (ops : list am_op) (bs : list bool) : Z :=
  match ops, bs with
  | o :: ops', b :: bs' => (if b then mints o else 0) + minted ops' bs'
  | _, _ => 0
  end.

Lemma spec_op_supply ok o L L' :
  spec_op ok o L = Some L' -> supply L' = supply L + mints o.
Proof.
  destruct o; simpl; unfold spec_Stake, spec_Unstake, spec_Delegate, spec_Undelegate,
    spec_AddRewards, spec_ClaimRewards, spec_Transfer; intros Hs;
    repeat case_match; simplify_eq; rewrite !supply_insert; unfold funds; simpl; zbool; try lia.
  match goal with H : bool_decide _ = false |- _ => apply bool_decide_eq_false in H end.
  rewrite !entry_insert_ne by done. lia.
Qed.

Lemma minted_le ops : forall bs, 0 <= minted ops bs <= total_mint ops.
Proof.
  induction ops as [|o ops IH]; intros [|b bs]; simpl; try lia.
  - split; [done|]. specialize (IH []). destruct ops; simpl in *; destruct o; simpl; lia.
  - specialize (IH bs). destruct b, o; simpl; lia.
Qed.

Lemma spec_run_supply ok ops : forall L bs L',
  spec_run ok ops L = (bs, L') -> supply L' = supply L + minted ops bs.
Proof.
  induction ops as [|o ops IH]; intros L bs L'; simpl.
  - intros [= <- <-]. simpl. lia.
  - destruct (spec_op ok o L) as [L1|] eqn:Ho.
    + destruct (spec_run ok ops L1) as [bs1 L2] eqn:Hr. intros [= <- <-]. simpl.
      rewrite (IH _ _ _ Hr), (spec_op_supply _ _ _ _ Ho). lia.
    + destruct (spec_run ok ops L) as [bs1 L2] eqn:Hr. intros [= <- <-]. simpl.
      rewrite (IH _ _ _ Hr). lia.
Qed.

Section Runs.
Context `{MapOrder} {D C : Type} `{AccountDB D, !AccountDBLaws D} `{LRU C, !LRULaws C}.
Context (Keccak256 : list byte -> list byte) (shardID totalShards : Z).
Notation state := (@am D C).
Notation ok := (ok_addr Keccak256 shardID totalShards).
Notation inv := (good Keccak256 shardID totalShards ∅).

Definition exec (o : am_op) : GoM state am_err unit :=
  match o with
  | OpStake addr amount => Stake Keccak256 shardID totalShards addr amount
  | OpUnstake addr amount => Unstake Keccak256 shardID totalShards addr amount
  | OpDelegate d v amount => Delegate Keccak256 shardID totalShards d v amount
  | OpUndelegate d v amount => Undelegate Keccak256 shardID totalShards d v amount
  | OpAddRewards addr amount => AddRewards Keccak256 shardID totalShards addr amount
  | OpClaimRewards addr => _ ← ClaimRewards Keccak256 shardID totalShards addr; mret tt
  | OpTransfer from to amount => Transfer Keccak256 shardID totalShards from to amount
  end.

(** Callers go on after an error; a panic ends the run. *)
Fixpoint run (ops : list am_op) (s : state) : option (list bool * state) :=
  match ops with
  | [] => Some ([], s)
  | o :: ops' =>
      match exec o s with
      | (Ok _, s') => '(bs, s'') ← run ops' s'; Some (true :: bs, s'')
      | (Err _, s') => '(bs, s'') ← run ops' s'; Some (false :: bs, s'')
      | _ => None
      end
  end.

Lemma exec_refines o : refines Keccak256 shardID totalShards (exec o) (spec_op ok o) (mints o).
Proof.
  destruct o; simpl; auto using Stake_refines, Unstake_refines, Delegate_refines,
    Undelegate_refines, AddRewards_refines, Transfer_refines.
  intros s Hg Hq Hs.
  destruct (ClaimRewards_refines Keccak256 shardID totalShards addr s Hg Hq Hs)
    as (r & s' & Hr & Hg' & Hq' & Hres).
  unfold mbind, GoM_bind. rewrite Hr. destruct r; eexists _, _; (split; [reflexivity|]); done.
Qed.

Lemma run_refines ops : forall s,
  inv s -> dbQuiet (db s) -> supply (abs s) + total_mint ops < two256 ->
  exists bs s', run ops s = Some (bs, s') /\ inv s' /\ dbQuiet (db s') /\
  spec_run ok ops (abs s) = (bs, abs s').
Proof.
  induction ops as [|o ops IH]; intros s Hg Hq Hs; simpl in *.
  { exists [], s. by split_and!. }
  pose proof (minted_le ops []) as [Hpos _].
  assert (0 <= total_mint ops) by (clear -ops; induction ops as [|[] ops IH]; simpl; lia).
  destruct (exec_refines o s Hg Hq ltac:(lia)) as (r & s1 & -> & Hg1 & Hq1 & Hres).
  destruct (spec_op ok o (abs s)) as [L'|] eqn:Ho; destruct Hres as [Hr Habs].
  - destruct r; try done. pose proof (spec_op_supply _ _ _ _ Ho) as Hsup.
    destruct (IH s1 Hg1 Hq1) as (bs & s' & -> & Hg' & Hq' & Hrun); [rewrite Habs; lia|].
    exists (true :: bs), s'. rewrite <-Habs, Hrun. by split_and!.
  - destruct r; try done.
    destruct (IH s1 Hg1 Hq1) as (bs & s' & -> & Hg' & Hq' & Hrun).
    { rewrite Habs. destruct o; simpl in *; lia. }
    exists (false :: bs), s'. rewrite <-Habs, Hrun. by split_and!.
Qed.
End Runs.

(** ** A concrete manager: the beacon shard on the state store *)

Definition no_hash : list byte -> list byte := fun _ => [].
Definition demo_am : Type := @am KV (list (string * loc)).
Definition start (d : KV) : demo_am := MkAM ∅ 0%nat [] d.
#[local] Instance demo_LRU : LRU (list (string * loc)) := list_LRU 1.
#[local] Instance demo_LRU_laws : LRULaws (list (string * loc)) := list_LRU_laws 1.

Definition alice : string := "0xaaaaaaaaaaaaaaaaaaaaaaaaaaaaaaaaaaaaaaaa".
Definition bob : string := "0xbbbbbbbbbbbbbbbbbbbbbbbbbbbbbbbbbbbbbbbb".
Definition rich (addr : string) (v : Z) : Account := MkAccount addr (Bytes v) 0 [] ∅ [] [] [].
Definition demo_kv : KV := MkKV {[AccountKey alice := JAccount (rich alice (10 ^ 20))]} [].

Lemma start_inv : good no_hash BeaconShardID 1 ∅ (start demo_kv).
Proof.
  assert (Hc : canon_account (rich alice (10 ^ 20))).
  { split_and!; [apply canon_Bytes; split; vm_compute; congruence|done|done|apply map_Forall_empty]. }
  assert (Hok : db_ok demo_kv).
  { intros k b. unfold demo_kv. simpl. rewrite lookup_singleton_Some.
    intros [Hk%AccountKey_inj <-]. exists (rich alice (10 ^ 20)). by rewrite <-Hk. }
  split; simpl.
  - done.
  - intros l. rewrite lookup_empty. by intros [].
  - intros k l. by rewrite lookup_empty.
  - intros k a Ha. destruct (db_ok_view _ _ _ Hok Ha) as (Hd & _ & _).
    unfold demo_kv in Hd. simpl in Hd. rewrite lookup_singleton_Some in Hd.
    destruct Hd as [_ [= <-]]. split; [vm_compute; reflexivity|done].
Qed.

(** ** Properties *)

(** C40. The account manager implements the ledger.  From a state that satisfies
    the invariant, with no I/O failure pending and a supply that stays below
    2^256, any sequence of calls runs to the end without a panic, succeeds
    exactly at the steps the ledger allows, leaves the database holding exactly
    the ledger's accounts, and keeps the cache coherent with it. *)
Theorem account_manager_refines_ledger
  `{MapOrder} {D C : Type} `{AccountDB D, !AccountDBLaws D} `{LRU C, !LRULaws C}
  (Keccak256 : list byte -> list byte) (shardID totalShards : Z) (ops : list am_op) (s : @am D C) :
  good Keccak256 shardID totalShards ∅ s -> dbQuiet (db s) ->
  supply (abs s) + total_mint ops < two256 ->
  exists bs s', run Keccak256 shardID totalShards ops s = Some (bs, s') /\
  good Keccak256 shardID totalShards ∅ s' /\
  spec_run (ok_addr Keccak256 shardID totalShards) ops (abs s) = (bs, abs s').
Proof.
  intros Hg Hq Hs. destruct (run_refines Keccak256 shardID totalShards ops s Hg Hq Hs)
    as (bs & s' & Hr & Hg' & _ & Hspec). eauto.
Qed.

Definition demo_ops : list am_op :=
  [OpTransfer alice bob (10 ^ 19); OpStake bob (2 * 10 ^ 18); OpDelegate alice bob (10 ^ 18);
   OpUnstake bob (3 * 10 ^ 18); OpUndelegate alice bob (10 ^ 18); OpAddRewards bob 5; OpClaimRewards bob].

Lemma account_manager_refines_ledger_witness :
  exists s', run no_hash BeaconShardID 1 demo_ops (start demo_kv) =
    Some ([true; true; true; false; true; true; true], s') /\
  entry (abs s') bob = MkAcct (8 * 10 ^ 18 + 5) (2 * 10 ^ 18) 0 ∅ 0.
Proof.
  destruct (account_manager_refines_ledger no_hash BeaconShardID 1 demo_ops (start demo_kv)
    start_inv eq_refl ltac:(vm_compute; reflexivity)) as (bs & s' & Hr & _ & Hspec).
  assert (Hb : fst (spec_run (ok_addr no_hash BeaconShardID 1) demo_ops (abs (start demo_kv))) =
    [true; true; true; false; true; true; true]) by (vm_compute; reflexivity).
  assert (Hl : entry (snd (spec_run (ok_addr no_hash BeaconShardID 1) demo_ops (abs (start demo_kv)))) bob =
    MkAcct (8 * 10 ^ 18 + 5) (2 * 10 ^ 18) 0 ∅ 0) by (vm_compute; reflexivity).
  rewrite Hspec in Hb, Hl. cbn [fst snd] in Hb, Hl. rewrite Hb in Hr.
  exists s'. split; [exact Hr|exact Hl].
Defined.

(** Nothing is created or lost: under the same conditions, the sum of all
    balances, stakes and unclaimed rewards in the database grows by exactly the
    rewards that were added, and every account in it stays well-formed, with
    its delegations covered by its stake. *)
Theorem account_supply_conserved
  `{MapOrder} {D C : Type} `{AccountDB D, !AccountDBLaws D} `{LRU C, !LRULaws C}
  (Keccak256 : list byte -> list byte) (shardID totalShards : Z) (ops : list am_op) (s : @am D C) :
  good Keccak256 shardID totalShards ∅ s -> dbQuiet (db s) ->
  supply (abs s) + total_mint ops < two256 ->
  exists bs s', run Keccak256 shardID totalShards ops s = Some (bs, s') /\
  supply (abs s') = supply (abs s) + minted ops bs /\
  (forall k a, abs s' !! k = Some a -> valid_acct a).
Proof.
  intros Hg Hq Hs. destruct (run_refines Keccak256 shardID totalShards ops s Hg Hq Hs)
    as (bs & s' & Hr & Hg' & _ & Hspec).
  exists bs, s'. split_and!; [done|by eapply spec_run_supply|].
  intros k a. unfold abs. rewrite lookup_fmap_Some. intros (x & <- & Hx).
  by destruct (good_entry _ _ _ _ _ _ _ Hg' Hx) as (_ & _ & ? & _).
Qed.

Lemma account_supply_conserved_witness :
  exists bs s', run no_hash BeaconShardID 1 demo_ops (start demo_kv) = Some (bs, s') /\
  supply (abs s') = supply (abs (start demo_kv)) + minted demo_ops bs.
Proof.
  destruct (account_supply_conserved no_hash BeaconShardID 1 demo_ops (start demo_kv)
    start_inv eq_refl ltac:(vm_compute; reflexivity)) as (bs & s' & H1 & H2 & _).
  exists bs, s'. split; [exact H1|exact H2].
Defined.

(** The database balance of an address, past the cache. *)
Definition stored_balance (s : demo_am) (k : string) : option Z :=
  (fun a => SetBytes (acc_Balance a)) <$> accounts_view (db s) !! k.

(** A write that fails after the object was changed leaves the cache ahead of
    the database: the caller sees an error, the database keeps the old balance,
    and later reads through the manager return the new one, as if the stake had
    been taken. *)
Theorem failed_write_leaves_cache_ahead :
  let s0 := start (MkKV (kv_data demo_kv) [false; true]) in
  let '(r, s1) := Stake no_hash BeaconShardID 1 alice (10 ^ 18) s0 in
  r = Err (DBError IOError) /\
  stored_balance s1 alice = Some (10 ^ 20) /\
  fst (GetBalance no_hash BeaconShardID 1 alice s1) = Ok (String10 (99 * 10 ^ 18)).
Proof. vm_compute. split_and!; reflexivity. Qed.

(** A transfer whose second write fails has already deducted the sender: the
    amount is in neither stored balance. *)
Theorem half_transfer_loses_the_amount :
  let s0 := start (MkKV (kv_data demo_kv) [false; false; false; true]) in
  let '(r, s1) := Transfer no_hash BeaconShardID 1 alice bob (10 ^ 18) s0 in
  r = Err (UpdateReceiverFailed (DBError IOError)) /\
  stored_balance s1 alice = Some (99 * 10 ^ 18) /\ stored_balance s1 bob = None.
Proof. vm_compute. split_and!; reflexivity. Qed.

(** The 2^256 bound matters: the encoding error of a credit that overflows is
    discarded, so the transfer reports success while the recipient's balance
    becomes zero. *)
Theorem overflowing_credit_is_zeroed :
  let m := {[AccountKey alice := JAccount (rich alice (10 ^ 20));
             AccountKey bob := JAccount (rich bob (two256 - 1))]} in
  let '(r, s1) := Transfer no_hash BeaconShardID 1 alice bob (10 ^ 18) (start (MkKV m [])) in
  r = Ok tt /\ stored_balance s1 alice = Some (99 * 10 ^ 18) /\ stored_balance s1 bob = Some 0.
Proof. vm_compute. split_and!; reflexivity. Qed.
