(* ===== verification/Pool.v ===== *)
(** * The transaction pool (src/core/transaction/pool.go)

    A call is one step on the pool record.  The calls run under the pool's lock, with
    one exception: [AddTransaction] checks the transaction against the minimal gas price
    before it takes the lock, so the model is that of calls that do not overlap (a
    concurrent [UpdateGasPrice] could raise the price in between).  A transaction is kept under its id, its hash and its sender's
    nonce, and its nonce is reserved; a nil inner map is an absent key, and
    writing into one panics.  The account manager is consulted through
    [lookup], the answers of [AccountManager.GetAccount]; the clock is an
    argument. *)

From stdpp Require Import base tactics numbers list gmap strings sorting.
From Stdlib Require Import ZArith Lia Strings.Byte Strings.Ascii.
From S2P Require Import Prelude SafeMath Uint256 Address Storage AccountManager.
Open Scope Z_scope.
Open Scope list_scope.

#[global] Instance TransactionType_eq_dec : EqDecision TransactionType.
Proof. solve_decision. Defined.
#[global] Instance Transaction_eq_dec : EqDecision Transaction.
Proof. solve_decision. Defined.

Definition MaxTransactionsPerSender : Z := 16.
Definition ReplacementPriceBumpPercent : Z := 10.

Record TransactionEntry : Type := MkEntry { e_Transaction : Transaction; e_ReceivedAt : Z }.

Record Pool : Type := MkPool {
  pending : gmap string TransactionEntry;
  byAddress : gmap string (gmap Z Transaction);
  byHash : gmap string Transaction;
  nonceReservations : gmap string (gset Z);
  shardID : Z;
  totalShards : Z;
  maxTxs : Z;
  minGasPrice : Z;
  maxTxsPerAddress : Z;
  totalAdded : Z;
  totalRemoved : Z
}.

Definition set_pending (m : gmap string TransactionEntry) (p : Pool) : Pool :=
  MkPool m (byAddress p) (byHash p) (nonceReservations p) (shardID p) (totalShards p)
    (maxTxs p) (minGasPrice p) (maxTxsPerAddress p) (totalAdded p) (totalRemoved p).
Definition set_byAddress (m : gmap string (gmap Z Transaction)) (p : Pool) : Pool :=
  MkPool (pending p) m (byHash p) (nonceReservations p) (shardID p) (totalShards p)
    (maxTxs p) (minGasPrice p) (maxTxsPerAddress p) (totalAdded p) (totalRemoved p).
Definition set_byHash (m : gmap string Transaction) (p : Pool) : Pool :=
  MkPool (pending p) (byAddress p) m (nonceReservations p) (shardID p) (totalShards p)
    (maxTxs p) (minGasPrice p) (maxTxsPerAddress p) (totalAdded p) (totalRemoved p).
Definition set_reservations (m : gmap string (gset Z)) (p : Pool) : Pool :=
  MkPool (pending p) (byAddress p) (byHash p) m (shardID p) (totalShards p)
    (maxTxs p) (minGasPrice p) (maxTxsPerAddress p) (totalAdded p) (totalRemoved p).
Definition set_minGasPrice (v : Z) (p : Pool) : Pool :=
  MkPool (pending p) (byAddress p) (byHash p) (nonceReservations p) (shardID p) (totalShards p)
    (maxTxs p) v (maxTxsPerAddress p) (totalAdded p) (totalRemoved p).
Definition set_totals (added removed : Z) (p : Pool) : Pool :=
  MkPool (pending p) (byAddress p) (byHash p) (nonceReservations p) (shardID p) (totalShards p)
    (maxTxs p) (minGasPrice p) (maxTxsPerAddress p) added removed.

Definition NewPool (shardID totalShards maxCount : Z) (minGasPrice : string) : Pool :=
  MkPool ∅ ∅ ∅ ∅ shardID totalShards maxCount (ParseBigInt_string minGasPrice)
    MaxTransactionsPerSender 0 0.

Inductive pool_err : Type :=
| EmptyID | EmptyHash | EmptyFrom | NegativeTxAmount | GasNotPositive | GasPriceTooLow
| EmptySignature | SenderWrongShard
| ValidationFailed (e : pool_err)
| AlreadyInPool (id : string)
| HashAlreadyInPool (hash : string)
| ReplacementUnderpriced (minRequired : Z)
| TooManyFromSender
| NonceReserved (nonce : Z)
| NoAccount
| InsufficientFunds (have need : Z)
| InsufficientForPending (e : pool_err)
| PoolFull
| NotFound (key : string).

Definition price (tx : Transaction) : Z := ParseBigInt_bytes (tx_GasPrice tx).

Section Pool.
Context `{MapOrder} (Keccak256 : list byte -> list byte).

(** [p.accountManager.GetAccount]; [None] is a nil manager. *)
Context (lookup : option (string -> outcome am_err Account)).

(** ** Validation *)

Definition validateTransactionForPool (tx : Transaction) (p : Pool) : outcome pool_err unit :=
  if bool_decide (tx_Id tx = "") then Err EmptyID
  else if bool_decide (tx_Hash tx = "") then Err EmptyHash
  else if bool_decide (tx_From tx = "") then Err EmptyFrom
  else if Z.sgn (ParseBigInt_bytes (tx_Amount tx)) <? 0 then Err NegativeTxAmount
  else if tx_Gas tx <=? 0 then Err GasNotPositive
  else if price tx <? minGasPrice p then Err GasPriceTooLow
  else if (length (tx_Signature tx) =? 0)%nat then Err EmptySignature
  else if negb (shardID p =? BeaconShardID) &&
          negb (CalculateShardID Keccak256 (totalShards p) (tx_From tx) =? shardID p)
  then Err SenderWrongShard
  else Ok tt.

(** [amount + gas * gasPrice]. *)
Definition tx_cost (tx : Transaction) : Z :=
  AddBig (Some (ParseBigInt_bytes (tx_Amount tx)))
    (Some (MulBig (Some (tx_Gas tx)) (Some (price tx)))).

Definition pending_cost (m : gmap Z Transaction) (nonce : Z) : Z :=
  map_fold (fun n tx acc => if tx_Nonce tx =? nonce then acc
                            else AddBig (Some acc) (Some (tx_cost tx))) 0 m.

Definition validateTotalPendingBalance (address : string) (newTx : Transaction) (p : Pool)
    : outcome pool_err unit :=
  match lookup with
  | None => Ok tt
  | Some get =>
      match get address with
      | Ok account =>
          let total := pending_cost (default ∅ (byAddress p !! address)) (tx_Nonce newTx) in
          let totalRequired := AddBig (Some total) (Some (tx_cost newTx)) in
          let balanceBig := ParseBigInt_bytes (acc_Balance account) in
          if balanceBig <? totalRequired
          then Err (InsufficientFunds balanceBig totalRequired) else Ok tt
      | _ => Err NoAccount
      end
  end.

(** ** Removal *)

(** Delete a key from an inner map, and the inner map when it is then empty. *)
Definition drop_nonce_tx (tx : Transaction) (m : gmap string (gmap Z Transaction))
    : gmap string (gmap Z Transaction) :=
  match m !! tx_From tx with
  | None => m
  | Some senderTxs =>
      let senderTxs' := delete (tx_Nonce tx) senderTxs in
      if bool_decide (senderTxs' = ∅) then delete (tx_From tx) m
      else <[tx_From tx := senderTxs']> m
  end.
Definition drop_reservation (tx : Transaction) (m : gmap string (gset Z)) : gmap string (gset Z) :=
  match m !! tx_From tx with
  | None => m
  | Some reservations =>
      let reservations' := reservations ∖ {[tx_Nonce tx]} in
      if bool_decide (reservations' = ∅) then delete (tx_From tx) m
      else <[tx_From tx := reservations']> m
  end.

Definition removeInternal (tx : Transaction) (p : Pool) : Pool :=
  set_totals (totalAdded p) (i64 (totalRemoved p + 1))
    (set_reservations (drop_reservation tx (nonceReservations p))
      (set_byAddress (drop_nonce_tx tx (byAddress p))
        (set_byHash (delete (tx_Hash tx) (byHash p))
          (set_pending (delete (tx_Id tx) (pending p)) p)))).

Definition RemoveTransaction (txID : string) : GoM Pool pool_err unit := fun p =>
  match pending p !! txID with
  | None => (Err (NotFound txID), p)
  | Some entry => (Ok tt, removeInternal (e_Transaction entry) p)
  end.

Definition RemoveTransactionByHash (txHash : string) : GoM Pool pool_err unit := fun p =>
  match byHash p !! txHash with
  | None => (Err (NotFound txHash), p)
  | Some tx => (Ok tt, removeInternal tx p)
  end.

Definition remove_all (txs : list Transaction) (p : Pool) : Pool :=
  foldl (fun p tx => removeInternal tx p) p txs.

(** The pending transactions in iteration order. *)
Definition entries (p : Pool) : list TransactionEntry :=
  omap (fun k => pending p !! k) (map_order (pending p)).

(** ** Eviction: the cheapest transaction, the first found among equals *)

Definition cheapest (es : list TransactionEntry) : option (Transaction * Z) :=
  foldl (fun best e =>
    let currentPriceBig := price (e_Transaction e) in
    match best with
    | None => Some (e_Transaction e, currentPriceBig)
    | Some (_, lowest) =>
        if currentPriceBig <? lowest then Some (e_Transaction e, currentPriceBig) else best
    end) None es.

Definition evictLowestGasPrice (newGasPrice : list byte) (p : Pool) : bool * Pool :=
  match cheapest (entries p) with
  | Some (evictTx, lowestPriceBig) =>
      if lowestPriceBig <? ParseBigInt_bytes newGasPrice
      then (true, removeInternal evictTx p) else (false, p)
  | None => (false, p)
  end.

(** ** Adding *)

(** Inner maps for the sender, made when missing. *)
Definition init_sender (from : string) (p : Pool) : Pool :=
  let p := match nonceReservations p !! from with
           | Some _ => p
           | None => set_reservations (<[from := ∅]> (nonceReservations p)) p
           end in
  match byAddress p !! from with
  | Some _ => p
  | None => set_byAddress (<[from := ∅]> (byAddress p)) p
  end.

Definition reserved (p : Pool) (from : string) (nonce : Z) : bool :=
  bool_decide (nonce ∈ default ∅ (nonceReservations p !! from)).

(** The replacement and per-sender limits; the result says whether this is a
    replacement. *)
Definition check_sender (tx : Transaction) (senderTxs : gmap Z Transaction) (p : Pool)
    : outcome pool_err bool :=
  match senderTxs !! tx_Nonce tx with
  | Some existingTx =>
      let oldPrice := price existingTx in
      let newPrice := price tx in
      let minRequired := big_div (oldPrice * (100 + ReplacementPriceBumpPercent)) 100 in
      if newPrice <? minRequired then Err (ReplacementUnderpriced minRequired) else Ok true
  | None =>
      if maxTxsPerAddress p <=? Z.of_nat (size senderTxs) then Err TooManyFromSender else Ok false
  end.

(** [p.nonceReservations[from][nonce] = true], [p.byAddress[from][nonce] = tx]. *)
Definition reserve (from : string) (nonce : Z) : GoM Pool pool_err unit := fun p =>
  match nonceReservations p !! from with
  | None => (Panic, p)
  | Some r => (Ok tt, set_reservations (<[from := {[nonce]} ∪ r]> (nonceReservations p)) p)
  end.
Definition index_by_address (tx : Transaction) : GoM Pool pool_err unit := fun p =>
  match byAddress p !! tx_From tx with
  | None => (Panic, p)
  | Some m => (Ok tt, set_byAddress (<[tx_From tx := <[tx_Nonce tx := tx]> m]> (byAddress p)) p)
  end.

Definition make_room (tx : Transaction) : GoM Pool pool_err unit := fun p =>
  if maxTxs p <=? Z.of_nat (size (pending p)) then
    match evictLowestGasPrice (tx_GasPrice tx) p with
    | (true, p') => (Ok tt, p')
    | (false, p') => (Err PoolFull, p')
    end
  else (Ok tt, p).

(** Step 7; the deferred clean-up of the reservation finds the entry in place. *)
Definition commit_tx (tx : Transaction) (now : Z) : GoM Pool pool_err unit :=
  _ ← reserve (tx_From tx) (tx_Nonce tx);
  _ ← modify (fun p => set_pending (<[tx_Id tx := MkEntry tx now]> (pending p)) p);
  _ ← modify (fun p => set_byHash (<[tx_Hash tx := tx]> (byHash p)) p);
  _ ← index_by_address tx;
  modify (fun p => set_totals (i64 (totalAdded p + 1)) (totalRemoved p) p).

(** [validateTransactionForPool] comes before [p.mu.Lock()]; the rest is under the lock. *)
Definition AddTransaction (tx : Transaction) (now : Z) : GoM Pool pool_err unit :=
  p ← get;
  _ ← lift (wrap ValidationFailed (validateTransactionForPool tx p));
  _ ← refuse_if (bool_decide (is_Some (pending p !! tx_Id tx))) (AlreadyInPool (tx_Id tx));
  _ ← refuse_if (bool_decide (is_Some (byHash p !! tx_Hash tx))) (HashAlreadyInPool (tx_Hash tx));
  _ ← modify (init_sender (tx_From tx));
  p ← get;
  let senderTxs := default ∅ (byAddress p !! tx_From tx) in
  isReplacement ← lift (check_sender tx senderTxs p);
  _ ← refuse_if (reserved p (tx_From tx) (tx_Nonce tx)) (NonceReserved (tx_Nonce tx));
  _ ← (match isReplacement, senderTxs !! tx_Nonce tx with
       | true, Some existingTx => modify (removeInternal existingTx)
       | _, _ => mret tt
       end);
  p ← get;
  _ ← lift (wrap InsufficientForPending (validateTotalPendingBalance (tx_From tx) tx p));
  _ ← make_room tx;
  commit_tx tx now.

(** ** Housekeeping *)

(** Reservations whose transaction is gone, and then the empty sets. *)
Definition orphan (p : Pool) (address : string) (nonce : Z) : bool :=
  negb (bool_decide (is_Some (byAddress p !! address ≫= (fun m => m !! nonce)))).
Definition drop_orphans (p : Pool) : Pool :=
  set_reservations
    (map_imap (fun address rs =>
       let rs' := filter (fun n => orphan p address n = false) rs in
       if bool_decide (rs' = ∅) then None else Some rs') (nonceReservations p)) p.

(** [ttl] is [config.TransactionPoolTTL], in the unit of the clock. *)
Definition CleanupExpired (ttl now : Z) (p : Pool) : Pool :=
  let entriesToRemove :=
    e_Transaction <$> filter (fun e => ttl < now - e_ReceivedAt e) (entries p) in
  drop_orphans (remove_all entriesToRemove p).

Definition CleanupStaleTransactions (maxAge currentTime : Z) (p : Pool) : Z * Pool :=
  let stale := e_Transaction <$>
    filter (fun e => maxAge < i64 (currentTime - tx_Timestamp (e_Transaction e))) (entries p) in
  (Z.of_nat (length stale), remove_all stale p).

Definition UpdateGasPrice (newMinGasPrice : string) (p : Pool) : Z * Pool :=
  let p := set_minGasPrice (ParseBigInt_string newMinGasPrice) p in
  let toRemove := e_Transaction <$>
    filter (fun e => price (e_Transaction e) < minGasPrice p) (entries p) in
  (Z.of_nat (length toRemove), remove_all toRemove p).

Definition Clear (p : Pool) : Pool :=
  MkPool ∅ ∅ ∅ ∅ (shardID p) (totalShards p) (maxTxs p) (minGasPrice p) (maxTxsPerAddress p)
    (totalAdded p) (i64 (totalRemoved p + Z.of_nat (size (pending p)))).

(** ** Queries *)

Definition GetTransaction (txID : string) (p : Pool) : outcome pool_err Transaction :=
  match pending p !! txID with None => Err (NotFound txID) | Some e => Ok (e_Transaction e) end.
Definition GetTransactionByHash (txHash : string) (p : Pool) : outcome pool_err Transaction :=
  match byHash p !! txHash with None => Err (NotFound txHash) | Some tx => Ok tx end.
Definition GetPendingTransactions (p : Pool) : list Transaction := e_Transaction <$> entries p.
Definition HasTransaction (txID : string) (p : Pool) : bool :=
  bool_decide (is_Some (pending p !! txID)).
Definition HasTransactionHash (txHash : string) (p : Pool) : bool :=
  bool_decide (is_Some (byHash p !! txHash)).
Definition GetPoolCapacity (p : Pool) : Z * Z * Z :=
  let current := Z.of_nat (size (pending p)) in
  let available := maxTxs p - current in
  (current, maxTxs p, if available <? 0 then 0 else available).

Record PoolStats : Type := MkPoolStats {
  PendingCount : Z; AddressCount : Z; TotalAdded : Z; TotalRemoved : Z;
  StatsShardID : Z; MaxCapacity : Z; MinGasPrice : string
}.
Definition GetStats (p : Pool) : PoolStats :=
  MkPoolStats (Z.of_nat (size (pending p))) (Z.of_nat (size (byAddress p)))
    (totalAdded p) (totalRemoved p) (shardID p) (maxTxs p) (String10 (minGasPrice p)).

(** [sort.Slice] returns the elements in some order the comparison allows;
    merge sort gives one of them. *)
Definition by_nonce (a b : Transaction) : Prop := tx_Nonce a <= tx_Nonce b.
Definition by_price_asc (a b : Transaction) : Prop := price a <= price b.
Definition by_price_desc (a b : Transaction) : Prop := price b <= price a.
#[global] Instance by_nonce_dec : RelDecision by_nonce.
Proof. intros a b. unfold by_nonce. apply _. Defined.
#[global] Instance by_price_asc_dec : RelDecision by_price_asc.
Proof. intros a b. unfold by_price_asc. apply _. Defined.
#[global] Instance by_price_desc_dec : RelDecision by_price_desc.
Proof. intros a b. unfold by_price_desc. apply _. Defined.

Definition getSortedTransactions (address : string) (p : Pool) : list Transaction :=
  match byAddress p !! address with
  | None => []
  | Some senderMap => merge_sort by_nonce (snd <$> map_to_list senderMap)
  end.
Definition GetTransactionsForAddress := getSortedTransactions.
Definition GetTransactionsByGasPrice (ascending : bool) (p : Pool) : list Transaction :=
  if ascending then merge_sort by_price_asc (GetPendingTransactions p)
  else merge_sort by_price_desc (GetPendingTransactions p).
Definition GetHighestGasPriceTransactions (maxCount : nat) (p : Pool) : list Transaction :=
  take maxCount (merge_sort by_price_desc (GetPendingTransactions p)).

(** ** What a block proposer takes *)

(** One sender's run of consecutive nonces; [room] more may be taken. *)
Fixpoint take_executable (room : nat) (expectedNonce remainingBalance : Z) (txs : list Transaction)
    : list Transaction :=
  match txs with
  | [] => []
  | tx :: txs' =>
      match room with
      | O => []
      | S room' =>
          if tx_Nonce tx =? expectedNonce then
            let totalCost := ParseBigInt_bytes (tx_Amount tx) + tx_Gas tx * price tx in
            if totalCost <=? remainingBalance
            then tx :: take_executable room' (u64 (expectedNonce + 1)) (remainingBalance - totalCost) txs'
            else []
          else if expectedNonce <? tx_Nonce tx then []
          else take_executable room expectedNonce remainingBalance txs'
      end
  end.

Fixpoint first_pass (get : string -> outcome am_err Account) (maxCount : nat) (p : Pool)
    (addresses : list string) (executable : list Transaction) : list Transaction :=
  match addresses with
  | [] => executable
  | address :: addresses' =>
      if (maxCount <=? length executable)%nat then executable
      else
        let executable' :=
          match getSortedTransactions address p, get address with
          | [], _ => executable
          | txs, Ok account =>
              executable ++ take_executable (maxCount - length executable) (acc_Nonce account)
                              (ParseBigInt_bytes (acc_Balance account)) txs
          | _, _ => executable
          end in
        first_pass get maxCount p addresses' executable'
  end.

(** The fill with expensive transactions whose nonce is near. *)
Fixpoint second_pass (get : string -> outcome am_err Account) (maxCount : nat)
    (remaining executable : list Transaction) : list Transaction :=
  match remaining with
  | [] => executable
  | tx :: remaining' =>
      if (maxCount <=? length executable)%nat then executable
      else
        let currentNonce := match get (tx_From tx) with Ok a => acc_Nonce a | _ => 0 end in
        if (currentNonce <=? tx_Nonce tx) && (tx_Nonce tx <=? u64 (currentNonce + 5))
        then second_pass get maxCount remaining' (executable ++ [tx])
        else second_pass get maxCount remaining' executable
  end.

Definition GetExecutableTransactions (get : string -> outcome am_err Account) (maxCount : nat)
    (p : Pool) : list Transaction :=
  let executable := first_pass get maxCount p (map_order (byAddress p)) [] in
  if (length executable <? maxCount)%nat && (length executable <? size (pending p) / 2)%nat then
    let remaining := filter (fun tx => forallb (fun e => negb (bool_decide (tx_Id e = tx_Id tx))) executable = true)
                       (GetPendingTransactions p) in
    second_pass get maxCount (merge_sort by_price_desc remaining) executable
  else executable.

(** ** Nonces *)

Definition highest (start : Z) (nonces : list Z) : Z :=
  foldl (fun h n => if h <? n then n else h) start nonces.

Definition GetNextNonce (address : string) (currentNonce : Z) (p : Pool) : Z :=
  let reservations := elements (default ∅ (nonceReservations p !! address)) in
  match byAddress p !! address with
  | None =>
      if bool_decide (currentNonce ∈ reservations) then u64 (currentNonce + 1) else currentNonce
  | Some senderTxs =>
      let highestNonce := highest (u64 (currentNonce - 1)) (fst <$> map_to_list senderTxs) in
      u64 (highest highestNonce reservations + 1)
  end.

(** [for nonce := currentNonce; nonce <= highestNonce; nonce++]: with [fuel]
    rounds left; a loop that outlives them does not end when [highestNonce] is
    the largest uint64, since the counter wraps. *)
Fixpoint gap_loop (fuel : nat) (senderTxs : gmap Z Transaction) (nonce highestNonce : Z)
    (gaps : list Z) : outcome pool_err (list Z) :=
  match fuel with
  | O => Hang
  | S fuel' =>
      if nonce <=? highestNonce then
        gap_loop fuel' senderTxs (u64 (nonce + 1)) highestNonce
          (if bool_decide (is_Some (senderTxs !! nonce)) then gaps else gaps ++ [nonce])
      else Ok gaps
  end.

Definition GetAddressNonceGap (fuel : nat) (address : string) (currentNonce : Z) (p : Pool)
    : outcome pool_err (list Z) :=
  match byAddress p !! address with
  | None => Ok []
  | Some senderTxs =>
      let highestNonce := highest (u64 (currentNonce - 1)) (fst <$> map_to_list senderTxs) in
      gap_loop fuel senderTxs currentNonce highestNonce []
  end.
End Pool.

(** ** The invariant *)

(** The transaction indexed under a sender and a nonce. *)
Definition at_nonce (m : gmap string (gmap Z Transaction)) (a : string) (n : Z) : option Transaction :=
  m !! a ≫= (fun senderTxs => senderTxs !! n).
Definition has_reservation (m : gmap string (gset Z)) (a : string) (n : Z) : Prop :=
  n ∈ default ∅ (m !! a).
Definition pending_tx (p : Pool) (id : string) : option Transaction :=
  e_Transaction <$> pending p !! id.

(** The three indexes agree, and exactly the pending nonces are reserved. *)
Record pool_ok (p : Pool) : Prop := MkPoolOk {
  ok_pending : forall id tx, pending_tx p id = Some tx ->
    tx_Id tx = id /\ byHash p !! tx_Hash tx = Some tx /\
    at_nonce (byAddress p) (tx_From tx) (tx_Nonce tx) = Some tx;
  ok_hash : forall h tx, byHash p !! h = Some tx ->
    tx_Hash tx = h /\ pending_tx p (tx_Id tx) = Some tx;
  ok_address : forall a n tx, at_nonce (byAddress p) a n = Some tx ->
    tx_From tx = a /\ tx_Nonce tx = n /\ pending_tx p (tx_Id tx) = Some tx;
  ok_reserved : forall a n,
    has_reservation (nonceReservations p) a n <-> is_Some (at_nonce (byAddress p) a n);
  ok_limit : forall a m, byAddress p !! a = Some m -> Z.of_nat (size m) <= maxTxsPerAddress p;
  ok_positive : 0 < maxTxsPerAddress p
}.

Lemma at_nonce_drop tx m a n :
  at_nonce (drop_nonce_tx tx m) a n =
  if decide (a = tx_From tx /\ n = tx_Nonce tx) then None else at_nonce m a n.
Proof.
  unfold at_nonce, drop_nonce_tx. destruct (m !! tx_From tx) as [s|] eqn:Hs.
  - case_bool_decide as He; destruct (decide (a = tx_From tx)) as [->|Hne].
    + rewrite lookup_delete_eq, Hs. simpl. destruct (decide (n = tx_Nonce tx)) as [->|Hn].
      * by rewrite decide_True by done.
      * rewrite decide_False by naive_solver.
        by rewrite <-(lookup_delete_ne s (tx_Nonce tx)), He, lookup_empty by done.
    + rewrite lookup_delete_ne by done. by rewrite decide_False by naive_solver.
    + rewrite lookup_insert_eq, Hs. simpl. destruct (decide (n = tx_Nonce tx)) as [->|Hn].
      * rewrite decide_True by done. apply lookup_delete_eq.
      * rewrite decide_False by naive_solver. by rewrite lookup_delete_ne.
    + rewrite lookup_insert_ne by done. by rewrite decide_False by naive_solver.
  - case_decide as Hd; [|done]. destruct Hd as [-> _]. by rewrite Hs.
Qed.

Lemma reservation_drop tx m a n :
  has_reservation (drop_reservation tx m) a n <->
  has_reservation m a n /\ ~ (a = tx_From tx /\ n = tx_Nonce tx).
Proof.
  unfold has_reservation, drop_reservation. destruct (m !! tx_From tx) as [s|] eqn:Hs.
  - case_bool_decide as He; destruct (decide (a = tx_From tx)) as [->|Hne].
    + rewrite lookup_delete_eq, Hs. simpl. set_solver.
    + rewrite lookup_delete_ne by done. naive_solver.
    + rewrite lookup_insert_eq, Hs. simpl. set_solver.
    + rewrite lookup_insert_ne by done. naive_solver.
  - destruct (decide (a = tx_From tx)) as [->|]; [|naive_solver]. rewrite Hs. set_solver.
Qed.

Lemma drop_nonce_tx_size tx m a s :
  drop_nonce_tx tx m !! a = Some s -> exists s', m !! a = Some s' /\ (size s <= size s')%nat.
Proof.
  unfold drop_nonce_tx. destruct (m !! tx_From tx) as [t|] eqn:Ht; [|eauto].
  case_bool_decide.
  - rewrite lookup_delete_Some. naive_solver.
  - destruct (decide (a = tx_From tx)) as [->|].
    + rewrite lookup_insert_eq. intros [= <-]. exists t. split; [done|].
      destruct (t !! tx_Nonce tx) eqn:Hn.
      * rewrite map_size_delete_Some by eauto. lia.
      * by rewrite delete_id.
    + rewrite lookup_insert_ne by done. eauto.
Qed.

Lemma pending_tx_delete p id id' :
  e_Transaction <$> delete id (pending p) !! id' =
  if decide (id' = id) then None else pending_tx p id'.
Proof.
  unfold pending_tx. case_decide as Hd; [subst; by rewrite lookup_delete_eq|].
  by rewrite lookup_delete_ne.
Qed.

(** Two pending transactions that share an id, a hash or a nonce are one. *)
Lemma pool_ok_unique p tx tx' :
  pool_ok p -> pending_tx p (tx_Id tx) = Some tx -> pending_tx p (tx_Id tx') = Some tx' ->
  tx_Id tx = tx_Id tx' \/ tx_Hash tx = tx_Hash tx' \/
    (tx_From tx = tx_From tx' /\ tx_Nonce tx = tx_Nonce tx') -> tx = tx'.
Proof.
  intros Hok Ht Ht'. destruct (ok_pending p Hok _ _ Ht) as (_ & Hh & Ha).
  destruct (ok_pending p Hok _ _ Ht') as (_ & Hh' & Ha'). intros [He|[He|[He1 He2]]].
  - rewrite He in Ht. congruence.
  - rewrite He in Hh. congruence.
  - rewrite He1, He2 in Ha. congruence.
Qed.

Lemma removeInternal_ok p tx :
  pool_ok p -> pending_tx p (tx_Id tx) = Some tx -> pool_ok (removeInternal tx p).
Proof.
  intros Hok Ht. split; simpl.
  - intros id tx' Hid. unfold pending_tx in Hid. simpl in Hid. rewrite pending_tx_delete in Hid.
    case_decide as Hne; [done|]. pose proof (ok_pending p Hok _ _ Hid) as (He & Hh & Ha).
    subst id. split_and!; [done| |].
    + rewrite lookup_delete_ne; [done|]. intros Heq. apply Hne.
      by rewrite (pool_ok_unique p tx tx') by auto.
    + rewrite at_nonce_drop, decide_False; [done|]. intros [Hf Hn]. apply Hne.
      by rewrite (pool_ok_unique p tx tx') by auto.
  - intros h tx' [Hne Hh]%lookup_delete_Some. destruct (ok_hash p Hok _ _ Hh) as [He Hp].
    split; [done|]. unfold pending_tx. simpl. rewrite pending_tx_delete, decide_False; [done|].
    intros Hid. apply Hne. rewrite <-He. f_equal. symmetry. apply (pool_ok_unique p); auto.
  - intros a n tx'. rewrite at_nonce_drop. case_decide as Hd; [done|]. intros Ha.
    destruct (ok_address p Hok _ _ _ Ha) as (<- & <- & Hp). split_and!; [done..|].
    unfold pending_tx. simpl. rewrite pending_tx_delete, decide_False; [done|].
    intros Hid. apply Hd. by rewrite (pool_ok_unique p tx tx') by auto.
  - intros a n. rewrite reservation_drop, (ok_reserved p Hok), at_nonce_drop.
    case_decide; [|naive_solver]. split; [naive_solver|by intros []].
  - intros a m (m' & Hm & Hle)%drop_nonce_tx_size. pose proof (ok_limit p Hok a m' Hm). lia.
  - apply (ok_positive p Hok).
Qed.

Lemma removeInternal_pending p tx id :
  pending_tx (removeInternal tx p) id = if decide (id = tx_Id tx) then None else pending_tx p id.
Proof. apply pending_tx_delete. Qed.

Lemma init_sender_same a p :
  pending (init_sender a p) = pending p /\ byHash (init_sender a p) = byHash p /\
  maxTxs (init_sender a p) = maxTxs p /\ maxTxsPerAddress (init_sender a p) = maxTxsPerAddress p /\
  minGasPrice (init_sender a p) = minGasPrice p /\
  (forall k n, at_nonce (byAddress (init_sender a p)) k n = at_nonce (byAddress p) k n) /\
  (forall k n, has_reservation (nonceReservations (init_sender a p)) k n <->
     has_reservation (nonceReservations p) k n) /\
  (forall k m, byAddress (init_sender a p) !! k = Some m -> m = ∅ \/ byAddress p !! k = Some m) /\
  is_Some (byAddress (init_sender a p) !! a) /\ is_Some (nonceReservations (init_sender a p) !! a).
Proof.
  unfold init_sender, at_nonce, has_reservation.
  destruct (nonceReservations p !! a) as [rs|] eqn:Hr; simpl;
    destruct (byAddress p !! a) as [m|] eqn:Hm; simpl; rewrite ?Hr, ?Hm, ?lookup_insert_eq;
    split_and!; try done; eauto; intros k;
    destruct (decide (a = k)) as [<-|]; rewrite ?lookup_insert_eq, ?lookup_insert_ne by done;
    rewrite ?Hr, ?Hm; naive_solver.
Qed.

Lemma init_sender_ok a p : pool_ok p -> pool_ok (init_sender a p).
Proof.
  intros Hok. pose proof (ok_positive p Hok) as H0. destruct (init_sender_same a p) as (Hp & Hh & _ & Hmax & _ & Hat & Hres & Hby & _).
  split.
  - intros id tx. unfold pending_tx. rewrite Hp, Hh, Hat. apply (ok_pending p Hok).
  - intros h tx. unfold pending_tx. rewrite Hp, Hh. apply (ok_hash p Hok).
  - intros k n tx. unfold pending_tx. rewrite Hp, Hat. apply (ok_address p Hok).
  - intros k n. rewrite Hres, Hat. apply (ok_reserved p Hok).
  - intros k m [->|Hm]%Hby; rewrite Hmax; [rewrite map_size_empty; lia|]. by apply (ok_limit p Hok k).
  - by rewrite Hmax.
Qed.

(** ** Eviction *)

Section Eviction.
Context `{MapOrder}.

Lemma entries_elem p e : e ∈ entries p <-> exists id, pending p !! id = Some e.
Proof.
  unfold entries. rewrite list_elem_of_omap. split.
  - intros (id & _ & He). eauto.
  - intros [id He]. exists id. split; [|done]. apply map_order_elem, elem_of_dom. eauto.
Qed.

Lemma cheapest_spec es : forall best,
  (forall tx v, best = Some (tx, v) -> v = price tx) ->
  match foldl (fun best e =>
    let currentPriceBig := price (e_Transaction e) in
    match best with
    | None => Some (e_Transaction e, currentPriceBig)
    | Some (_, lowest) =>
        if currentPriceBig <? lowest then Some (e_Transaction e, currentPriceBig) else best
    end) best es with
  | Some (tx, v) => v = price tx /\ ((exists e, e ∈ es /\ e_Transaction e = tx) \/ best = Some (tx, v)) /\
      (forall e, e ∈ es -> v <= price (e_Transaction e)) /\
      (forall tx' v', best = Some (tx', v') -> v <= v')
  | None => best = None /\ es = []
  end.
Proof.
  induction es as [|e es IH]; intros best Hb; simpl.
  { destruct best as [[tx v]|]; [|done]. split_and!; [by apply Hb|by right|set_solver|naive_solver lia]. }
  match goal with |- match foldl _ ?b _ with _ => _ end =>
    assert (Hb' : forall tx v, b = Some (tx, v) -> v = price tx);
    [|specialize (IH b Hb'); destruct (foldl _ b es) as [[tx v]|] eqn:Hf] end.
  - intros tx v. destruct best as [[tx0 v0]|]; [|naive_solver]. case_if; naive_solver.
  - destruct IH as (Hv & Hsrc & Hall & Hbest). split_and!; [done| | |].
    + destruct Hsrc as [(e' & ? & ?)|Heq]; [left; exists e'; set_solver|].
      destruct best as [[tx0 v0]|]; [case_if; [|by right]|]; left; exists e; simplify_eq; set_solver.
    + intros e' [->|He']%elem_of_cons; [|by apply Hall].
      destruct best as [[tx0 v0]|]; [|by eapply Hbest]. case_if; [by eapply Hbest|].
      zbool. etransitivity; [by eapply Hbest|done].
    + intros tx' v' ->. case_if; zbool; [|by eapply Hbest].
      specialize (Hbest _ _ eq_refl). lia.
  - destruct IH as [IH _]. destruct best as [[tx0 v0]|]; [case_if|]; done.
Qed.

(** Making room: nothing when there is some, otherwise the cheapest pending
    transaction goes if the new one pays more. *)
Lemma make_room_cases tx p :
  pool_ok p ->
  let n := Z.of_nat (size (pending p)) in
  (n < maxTxs p /\ make_room tx p = (Ok tt, p)) \/
  (maxTxs p <= n /\ make_room tx p = (Err PoolFull, p) /\
   (forall id t, pending_tx p id = Some t -> price tx <= price t)) \/
  (maxTxs p <= n /\ exists t, pending_tx p (tx_Id t) = Some t /\ price t < price tx /\
   (forall id t', pending_tx p id = Some t' -> price t <= price t') /\
   make_room tx p = (Ok tt, removeInternal t p)).
Proof.
  intros Hok n. unfold make_room. fold n.
  destruct (Z.leb_spec (maxTxs p) n) as [Hfull|]; [right|by left].
  unfold evictLowestGasPrice, cheapest.
  pose proof (cheapest_spec (entries p) None ltac:(done)) as Hc.
  assert (Hin : forall id t, pending_tx p id = Some t -> exists e, e ∈ entries p /\ e_Transaction e = t).
  { intros id t (e & He & ->)%fmap_Some. exists e. split; [|done]. apply entries_elem. eauto. }
  destruct (foldl _ None (entries p)) as [[t v]|] eqn:Hf.
  - destruct Hc as (-> & [(e & He & <-)|?] & Hall & _); [|done]. fold (price tx).
    assert (Hmin : forall id t', pending_tx p id = Some t' -> price (e_Transaction e) <= price t').
    { intros id t' (e' & He' & <-)%Hin. auto. }
    destruct (Z.ltb_spec (price (e_Transaction e)) (price tx)) as [Hlt|Hge].
    + right. split; [done|]. exists (e_Transaction e). split_and!; try done.
      apply entries_elem in He as [id He].
      assert (Hp : pending_tx p id = Some (e_Transaction e)) by (unfold pending_tx; by rewrite He).
      by destruct (ok_pending p Hok _ _ Hp) as [-> _].
    + left. split_and!; try done. intros id t' Ht'. specialize (Hmin id t' Ht'). lia.
  - destruct Hc as [_ Hnil]. left. split_and!; try done.
    intros id t (e & He & _)%Hin. rewrite Hnil in He. set_solver.
Qed.
End Eviction.

(** ** Adding *)

Definition committed (tx : Transaction) (now : Z) (rs : gset Z) (m : gmap Z Transaction) (p : Pool)
    : Pool :=
  MkPool (<[tx_Id tx := MkEntry tx now]> (pending p))
    (<[tx_From tx := <[tx_Nonce tx := tx]> m]> (byAddress p))
    (<[tx_Hash tx := tx]> (byHash p))
    (<[tx_From tx := {[tx_Nonce tx]} ∪ rs]> (nonceReservations p))
    (shardID p) (totalShards p) (maxTxs p) (minGasPrice p) (maxTxsPerAddress p)
    (i64 (totalAdded p + 1)) (totalRemoved p).

Lemma commit_run tx now p rs m :
  nonceReservations p !! tx_From tx = Some rs -> byAddress p !! tx_From tx = Some m ->
  commit_tx tx now p = (Ok tt, committed tx now rs m p).
Proof.
  intros Hr Hm. unfold commit_tx, reserve, index_by_address, mbind, GoM_bind, modify.
  rewrite Hr. simpl. by rewrite Hm.
Qed.

Lemma commit_panic tx now p :
  nonceReservations p !! tx_From tx = None -> commit_tx tx now p = (Panic, p).
Proof. intros Hr. unfold commit_tx, reserve, mbind, GoM_bind. by rewrite Hr. Qed.

Lemma committed_pending tx now rs m p id :
  pending_tx (committed tx now rs m p) id = if decide (id = tx_Id tx) then Some tx else pending_tx p id.
Proof.
  unfold pending_tx. simpl. case_decide; [subst; by rewrite lookup_insert_eq|].
  by rewrite lookup_insert_ne.
Qed.

Lemma committed_at tx now rs m p a n :
  byAddress p !! tx_From tx = Some m ->
  at_nonce (byAddress (committed tx now rs m p)) a n =
  if decide (a = tx_From tx /\ n = tx_Nonce tx) then Some tx else at_nonce (byAddress p) a n.
Proof.
  intros Hm. unfold at_nonce. simpl. destruct (decide (a = tx_From tx)) as [->|].
  - rewrite lookup_insert_eq, Hm. simpl. destruct (decide (n = tx_Nonce tx)) as [->|].
    + by rewrite decide_True, lookup_insert_eq by done.
    + by rewrite decide_False, lookup_insert_ne by naive_solver.
  - by rewrite lookup_insert_ne, decide_False by naive_solver.
Qed.

Lemma committed_ok tx now rs m p :
  pool_ok p -> pending_tx p (tx_Id tx) = None -> byHash p !! tx_Hash tx = None ->
  at_nonce (byAddress p) (tx_From tx) (tx_Nonce tx) = None ->
  nonceReservations p !! tx_From tx = Some rs -> byAddress p !! tx_From tx = Some m ->
  Z.of_nat (size m) < maxTxsPerAddress p -> pool_ok (committed tx now rs m p).
Proof.
  intros Hok Hid Hh Hat Hr Hm Hsz. split.
  - intros id t. rewrite committed_pending. case_decide as Hd.
    + intros [= <-]. split_and!; [done|by apply lookup_insert_eq|].
      rewrite committed_at by done. by rewrite decide_True.
    + intros Ht. destruct (ok_pending p Hok _ _ Ht) as (<- & Hth & Hta). split_and!; [done| |].
      * simpl. rewrite lookup_insert_ne; [done|]. congruence.
      * rewrite committed_at by done. rewrite decide_False; [done|]. intros [Hf Hn].
        rewrite Hf, Hn in Hta. congruence.
  - intros h t. simpl. destruct (decide (h = tx_Hash tx)) as [->|].
    + rewrite lookup_insert_eq. intros [= <-]. rewrite committed_pending. by rewrite decide_True.
    + rewrite lookup_insert_ne by done. intros Ht. destruct (ok_hash p Hok _ _ Ht) as [<- Hp].
      rewrite committed_pending, decide_False; [done|]. congruence.
  - intros a n t. rewrite committed_at by done. case_decide as Hd.
    + intros [= <-]. rewrite committed_pending. destruct Hd as [-> ->]. by rewrite decide_True.
    + intros Ht. destruct (ok_address p Hok _ _ _ Ht) as (<- & <- & Hp).
      rewrite committed_pending, decide_False; [done|]. congruence.
  - intros a n. rewrite committed_at by done. unfold has_reservation. simpl.
    destruct (decide (a = tx_From tx)) as [->|].
    + rewrite lookup_insert_eq. simpl. destruct (decide (n = tx_Nonce tx)) as [->|].
      * rewrite decide_True by done. set_solver.
      * rewrite decide_False by naive_solver. rewrite <-(ok_reserved p Hok).
        unfold has_reservation. rewrite Hr. simpl. set_solver.
    + rewrite lookup_insert_ne, decide_False by naive_solver. apply (ok_reserved p Hok).
  - intros a s. simpl. destruct (decide (a = tx_From tx)) as [->|].
    + rewrite lookup_insert_eq. intros [= <-]. unfold at_nonce in Hat. rewrite Hm in Hat.
      rewrite map_size_insert_None by done. lia.
    + rewrite lookup_insert_ne by done. apply (ok_limit p Hok).
  - apply (ok_positive p Hok).
Qed.

Section Adding.
Context `{MapOrder} (Keccak256 : list byte -> list byte).
Context (lookup : option (string -> outcome am_err Account)).

(** What a call that gets as far as making room has passed. *)
Definition admitted (tx : Transaction) (p : Pool) : Prop :=
  validateTransactionForPool Keccak256 tx p = Ok tt /\
  pending_tx p (tx_Id tx) = None /\ byHash p !! tx_Hash tx = None /\
  at_nonce (byAddress p) (tx_From tx) (tx_Nonce tx) = None /\
  Z.of_nat (size (default ∅ (byAddress p !! tx_From tx))) < maxTxsPerAddress p /\
  validateTotalPendingBalance lookup (tx_From tx) tx (init_sender (tx_From tx) p) = Ok tt.

Lemma init_sender_default a p :
  default ∅ (byAddress (init_sender a p) !! a) = default ∅ (byAddress p !! a).
Proof.
  unfold init_sender. destruct (nonceReservations p !! a); simpl;
    (destruct (byAddress p !! a) as [m|] eqn:Hm; simpl; [by rewrite Hm|by rewrite lookup_insert_eq]).
Qed.

Lemma AddTransaction_cases tx now p r p' :
  pool_ok p -> AddTransaction Keccak256 lookup tx now p = (r, p') ->
  (exists e, r = Err e /\ (p' = p \/ p' = init_sender (tx_From tx) p)) \/
  (admitted tx p /\ exists p1, make_room tx (init_sender (tx_From tx) p) = (Ok tt, p1) /\
   commit_tx tx now p1 = (r, p')).
Proof.
  intros Hok. set (p0 := init_sender (tx_From tx) p).
  destruct (init_sender_same (tx_From tx) p) as (_ & _ & _ & Hmax & _ & Hat & Hres & _).
  unfold AddTransaction, mbind, GoM_bind, get, lift, modify, refuse_if, throw, mret, GoM_ret.
  destruct (validateTransactionForPool Keccak256 tx p) as [[]|e| |] eqn:Hv; simpl; [|naive_solver| |].
  2,3: exfalso; revert Hv; unfold validateTransactionForPool; by repeat case_if.
  destruct (bool_decide_reflect (is_Some (pending p !! tx_Id tx))) as [|Hp]; [naive_solver|].
  destruct (bool_decide_reflect (is_Some (byHash p !! tx_Hash tx))) as [|Hh]; [naive_solver|].
  fold p0. fold (at_nonce (byAddress p0) (tx_From tx) (tx_Nonce tx)).
  assert (Hlook : default ∅ (byAddress p0 !! tx_From tx) !! tx_Nonce tx =
    at_nonce (byAddress p) (tx_From tx) (tx_Nonce tx)).
  { unfold p0, at_nonce. rewrite init_sender_default. by destruct (byAddress p !! tx_From tx). }
  unfold check_sender, reserved. rewrite Hlook.
  destruct (at_nonce (byAddress p) (tx_From tx) (tx_Nonce tx)) as [t|] eqn:Hat0.
  - assert (Hr : has_reservation (nonceReservations p0) (tx_From tx) (tx_Nonce tx)).
    { apply Hres, (ok_reserved p Hok). rewrite Hat0. eauto. }
    rewrite (bool_decide_eq_true_2 _ Hr). case_if; naive_solver.
  - assert (Hr : ~ has_reservation (nonceReservations p0) (tx_From tx) (tx_Nonce tx)).
    { unfold p0. rewrite Hres, (ok_reserved p Hok), Hat0. by intros []. }
    destruct (Z.leb_spec (maxTxsPerAddress p0) (Z.of_nat (size (default ∅ (byAddress p0 !! tx_From tx)))))
      as [|Hsz]; [naive_solver|].
    rewrite (bool_decide_eq_false_2 _ Hr).
    destruct (validateTotalPendingBalance lookup (tx_From tx) tx p0) as [[]|e| |] eqn:Hbal; simpl;
      [|naive_solver| |].
    2,3: exfalso; revert Hbal; unfold validateTotalPendingBalance; by repeat case_match.
    destruct (make_room tx p0) as [[[]|e| |] p1] eqn:Hroom.
    + intros Hc. right. split; [|eauto]. unfold admitted, pending_tx.
      apply eq_None_not_Some in Hp, Hh. rewrite Hp. unfold p0 in Hsz.
      rewrite init_sender_default, Hmax in Hsz. by split_and!.
    + intros [= <- <-]. left. exists e. split; [done|]. right.
      destruct (make_room_cases tx p0) as [[_ Heq]|[(_ & Heq & _)|(_ & t & _ & _ & _ & Heq)]];
        [by apply init_sender_ok|congruence..].
    + exfalso. destruct (make_room_cases tx p0) as [[_ Heq]|[(_ & Heq & _)|(_ & t & _ & _ & _ & Heq)]];
        [by apply init_sender_ok|congruence..].
    + exfalso. destruct (make_room_cases tx p0) as [[_ Heq]|[(_ & Heq & _)|(_ & t & _ & _ & _ & Heq)]];
        [by apply init_sender_ok|congruence..].
Qed.

(** After an eviction the sender's inner maps are both there or both gone. *)
Lemma evicted_maps t p a rs :
  pool_ok p -> pending_tx p (tx_Id t) = Some t -> is_Some (byAddress p !! a) ->
  nonceReservations (removeInternal t p) !! a = Some rs ->
  exists m, byAddress (removeInternal t p) !! a = Some m /\
    (size m <= size (default ∅ (byAddress p !! a)))%nat.
Proof.
  intros Hok Ht [m0 Hm0] Hrs. pose proof (removeInternal_ok p t Hok Ht) as Hok1.
  assert (Hm : is_Some (byAddress (removeInternal t p) !! a)).
  { destruct (decide (a = tx_From t)) as [->|Hne].
    - assert (Hne : exists n, n ∈ rs).
      { apply set_choose_L. simpl in Hrs. unfold drop_reservation in Hrs.
        destruct (nonceReservations p !! tx_From t) as [rs0|] eqn:Hr0; [|congruence].
        case_bool_decide; [by rewrite lookup_delete_eq in Hrs|].
        rewrite lookup_insert_eq in Hrs. congruence. }
      destruct Hne as [n Hn]. destruct (ok_reserved _ Hok1 (tx_From t) n) as [H1 _].
      unfold has_reservation in H1. rewrite Hrs in H1. destruct (H1 Hn) as [t' Ht'].
      unfold at_nonce in Ht'. destruct (byAddress (removeInternal t p) !! tx_From t); [eauto|done].
    - simpl. unfold drop_nonce_tx. destruct (byAddress p !! tx_From t); [|eauto].
      case_bool_decide; [rewrite lookup_delete_ne by done|rewrite lookup_insert_ne by done]; eauto. }
  destruct Hm as [m Hm]. exists m. split; [done|].
  simpl in Hm. apply drop_nonce_tx_size in Hm as (m' & Hm' & Hle). rewrite Hm'. simpl. lia.
Qed.

Lemma pending_size_remove p t :
  pending_tx p (tx_Id t) = Some t ->
  S (size (pending (removeInternal t p))) = size (pending p).
Proof.
  intros (e & He & _)%fmap_Some. simpl. rewrite map_size_delete_Some by eauto.
  pose proof (map_size_ne_0_lookup_2 (pending p) (tx_Id t) ltac:(eauto)). lia.
Qed.

(** The pool a successful call leaves: the new transaction, and every old one
    but the evicted one. *)
Definition added (tx : Transaction) (evicted : option Transaction) (p p' : Pool) : Prop :=
  pending_tx p' (tx_Id tx) = Some tx /\
  (forall id, id <> tx_Id tx -> pending_tx p' id =
     if decide (tx_Id <$> evicted = Some id) then None else pending_tx p id) /\
  match evicted with
  | None => Z.of_nat (size (pending p)) < maxTxs p
  | Some t => maxTxs p <= Z.of_nat (size (pending p)) /\ pending_tx p (tx_Id t) = Some t /\
      price t < price tx /\ (forall id t', pending_tx p id = Some t' -> price t <= price t')
  end.

(** The sender's only pending transaction is [t]. *)
Definition only_pending (p : Pool) (from : string) (t : Transaction) : Prop :=
  pending_tx p (tx_Id t) = Some t /\ tx_From t = from /\
  forall n t', at_nonce (byAddress p) from n = Some t' -> t' = t.

Definition limits (p : Pool) : Z * Z := (maxTxs p, minGasPrice p).

(** Committing into a pool [p1] that has the sender's maps and none of the new
    transaction's keys. *)
Lemma commit_fresh tx now p1 rs m :
  pool_ok p1 -> pending_tx p1 (tx_Id tx) = None -> byHash p1 !! tx_Hash tx = None ->
  at_nonce (byAddress p1) (tx_From tx) (tx_Nonce tx) = None ->
  nonceReservations p1 !! tx_From tx = Some rs -> byAddress p1 !! tx_From tx = Some m ->
  Z.of_nat (size m) < maxTxsPerAddress p1 ->
  exists p', commit_tx tx now p1 = (Ok tt, p') /\ pool_ok p' /\ limits p' = limits p1 /\
  (forall id, pending_tx p' id = if decide (id = tx_Id tx) then Some tx else pending_tx p1 id) /\
  size (pending p') = S (size (pending p1)).
Proof.
  intros Hok Hid Hh Hat Hrs Hm Hsz. exists (committed tx now rs m p1).
  rewrite (commit_run _ _ _ _ _ Hrs Hm). split_and!; [done|by apply committed_ok|done|
    intros; apply committed_pending|].
  simpl. rewrite map_size_insert_None; [done|].
  unfold pending_tx in Hid. by destruct (pending p1 !! tx_Id tx).
Qed.

(** Evicting the sender's last transaction takes its reservation map with it. *)
Lemma evicted_last t p a rs :
  pool_ok p -> pending_tx p (tx_Id t) = Some t -> nonceReservations p !! a = Some rs ->
  nonceReservations (removeInternal t p) !! a = None -> only_pending p a t.
Proof.
  intros Hok Ht Hrs Hgone. simpl in Hgone. unfold drop_reservation in Hgone.
  destruct (decide (tx_From t = a)) as [<-|Hf].
  - rewrite Hrs in Hgone. case_bool_decide as Hemp; [|by rewrite lookup_insert_eq in Hgone].
    split_and!; [done..|]. intros n t' Ht'.
    destruct (ok_reserved p Hok (tx_From t) n) as [_ Hb]. unfold has_reservation in Hb.
    rewrite Hrs, Ht' in Hb. specialize (Hb ltac:(eauto)). simpl in Hb.
    assert (n = tx_Nonce t) as ->.
    { destruct (decide (n = tx_Nonce t)) as [|Hne]; [done|]. exfalso.
      apply (not_elem_of_empty (C:=gset Z) n). rewrite <-Hemp. apply elem_of_difference.
      by rewrite elem_of_singleton. }
    destruct (ok_pending p Hok _ _ Ht) as (_ & _ & Hta). congruence.
  - exfalso. destruct (nonceReservations p !! tx_From t); [|congruence].
    case_bool_decide; [rewrite lookup_delete_ne in Hgone by done|rewrite lookup_insert_ne in Hgone by done];
      congruence.
Qed.

(** What a call does, in full. *)
Lemma AddTransaction_spec tx now p r p' :
  pool_ok p -> AddTransaction Keccak256 lookup tx now p = (r, p') ->
  pool_ok p' /\ limits p' = limits p /\
  ((exists e, r = Err e /\ pending p' = pending p) \/
   (r = Ok tt /\ admitted tx p /\ exists evicted, added tx evicted p p' /\
      size (pending p') = match evicted with
                          | Some _ => size (pending p) | None => S (size (pending p)) end) \/
   (r = Panic /\ admitted tx p /\ exists t, only_pending p (tx_From tx) t)).
Proof.
  intros Hok Hadd. destruct (init_sender_same (tx_From tx) p)
    as (Ep & Eh & Em & El & Emin & Ea & _ & _ & [m0 Hm0] & [rs0 Hrs0]).
  pose proof (init_sender_ok (tx_From tx) p Hok) as Hok0.
  assert (Elim : limits (init_sender (tx_From tx) p) = limits p) by (unfold limits; by rewrite Em, Emin).
  destruct (AddTransaction_cases tx now p r p' Hok Hadd) as [(e & -> & [->| ->])|(Hadm & p1 & Hroom & Hc)].
  { split_and!; [done..|]. left. eauto. }
  { split_and!; [done|done|]. left. eauto. }
  pose proof (init_sender_default (tx_From tx) p) as Hdef.
  set (p0 := init_sender (tx_From tx) p) in *.
  pose proof Hadm as (_ & Hid & Hh & Hat & Hsz & _). rewrite <-Hdef, Hm0, <-El in Hsz. simpl in Hsz.
  assert (Hpt : forall id, pending_tx p0 id = pending_tx p id) by (intros; unfold pending_tx; by rewrite Ep).
  destruct (make_room_cases tx p0 Hok0) as [[Hlt Heq]|[(_ & Heq & _)|(Hfull & t & Ht & Hlow & Hmin & Heq)]];
    rewrite Heq in Hroom; [injection Hroom as <-|done|injection Hroom as <-].
  - destruct (commit_fresh tx now p0 rs0 m0) as (p2 & Hc2 & Hok2 & Hm2 & Hp2 & Hs2); try done;
      [by rewrite Hpt|by rewrite Eh|by rewrite Ea|].
    rewrite Hc2 in Hc. injection Hc as <- <-. rewrite Ep, Em in *. split_and!; [done|by rewrite Hm2|].
    right. left. split_and!; [done..|]. exists None. split; [|done]. split_and!; [|intros id Hne|done].
    + rewrite Hp2. by rewrite decide_True.
    + rewrite Hp2, decide_False, Hpt by done. by rewrite decide_False.
  - pose proof (removeInternal_ok p0 t Hok0 Ht) as Hok1.
    destruct (nonceReservations (removeInternal t p0) !! tx_From tx) as [rs|] eqn:Hrs.
    + destruct (evicted_maps t p0 (tx_From tx) rs Hok0 Ht ltac:(eauto) Hrs) as (m & Hm & Hle).
      rewrite Hm0 in Hle. simpl in Hle.
      destruct (commit_fresh tx now (removeInternal t p0) rs m) as (p2 & Hc2 & Hok2 & Hm2 & Hp2 & Hs2);
        try done; [rewrite removeInternal_pending, Hpt, Hid; by case_decide
                  |simpl; rewrite Eh; by apply lookup_delete_None; right
                  |simpl; rewrite at_nonce_drop, Ea, Hat; by case_decide|simpl; lia|].
      rewrite Hc2 in Hc. injection Hc as <- <-. rewrite (pending_size_remove p0 t Ht), Ep in Hs2.
      split_and!; [done|by rewrite Hm2|]. right. left. split_and!; [done..|].
      exists (Some t). split; [|done]. rewrite Ep, Em in Hfull. split_and!; [|intros id Hne| |by rewrite <-Hpt|done|].
      * rewrite Hp2. by rewrite decide_True.
      * rewrite Hp2, decide_False, removeInternal_pending, Hpt by done. simpl.
        destruct (decide (id = tx_Id t)) as [->|]; [by rewrite decide_True|by rewrite decide_False by congruence].
      * done.
      * intros id t'. rewrite <-Hpt. apply Hmin.
    + rewrite (commit_panic _ _ _ Hrs) in Hc. injection Hc as <- <-. split_and!; [done|done|].
      do 2 right. split_and!; [done..|]. exists t.
      destruct (evicted_last t p0 _ _ Hok0 Ht Hrs0 Hrs) as (? & ? & Hall).
      split_and!; [by rewrite <-Hpt|done|]. intros n t'. rewrite <-Ea. apply Hall.
Qed.
End Adding.

(** ** Housekeeping keeps the invariant *)

Lemma remove_all_spec txs : forall p,
  pool_ok p -> NoDup (tx_Id <$> txs) -> (forall tx, tx ∈ txs -> pending_tx p (tx_Id tx) = Some tx) ->
  pool_ok (remove_all txs p) /\ maxTxs (remove_all txs p) = maxTxs p /\
  minGasPrice (remove_all txs p) = minGasPrice p /\
  (forall id, pending_tx (remove_all txs p) id =
     if decide (id ∈ tx_Id <$> txs) then None else pending_tx p id) /\
  (size (pending (remove_all txs p)) <= size (pending p))%nat.
Proof.
  induction txs as [|tx txs IH]; intros p Hok Hnd Hall; simpl.
  { by split_and!. }
  rewrite fmap_cons in Hnd. apply NoDup_cons in Hnd as [Hni Hnd].
  assert (Ht : pending_tx p (tx_Id tx) = Some tx) by (apply Hall; set_solver).
  destruct (IH (removeInternal tx p)) as (Hok' & Hm & Hg & Hp & Hs); [by apply removeInternal_ok|done| |].
  { intros t Hin. rewrite removeInternal_pending, decide_False; [apply Hall; set_solver|].
    intros Heq. apply Hni. rewrite <-Heq. by apply list_elem_of_fmap_2. }
  split_and!; [done..| |].
  - intros id. rewrite Hp, removeInternal_pending.
    repeat case_decide; set_solver.
  - pose proof (pending_size_remove p tx Ht). lia.
Qed.

Section Housekeeping.
Context `{MapOrder}.

Lemma entries_pending p e : pool_ok p -> e ∈ entries p ->
  pending p !! tx_Id (e_Transaction e) = Some e.
Proof.
  intros Hok [id He]%entries_elem.
  assert (Hp : pending_tx p id = Some (e_Transaction e)) by (unfold pending_tx; by rewrite He).
  by destruct (ok_pending p Hok _ _ Hp) as [-> _].
Qed.

Lemma entries_ids p : pool_ok p -> tx_Id ∘ e_Transaction <$> entries p = map_order (pending p).
Proof.
  intros Hok. unfold entries.
  assert (Hk : forall k, k ∈ map_order (pending p) -> is_Some (pending p !! k))
    by (intros k Hin; by apply map_order_elem, elem_of_dom in Hin).
  induction (map_order (pending p)) as [|k keys IH]; [done|]. simpl.
  destruct (Hk k) as [e He]; [set_solver|]. rewrite He. simpl. f_equal; [|apply IH; set_solver].
  assert (Hp : pending_tx p k = Some (e_Transaction e)) by (unfold pending_tx; by rewrite He).
  by destruct (ok_pending p Hok _ _ Hp) as [-> _].
Qed.

(** Any selection of the pending transactions can be removed. *)
Lemma remove_selected p (P : TransactionEntry -> Prop) `{forall e, Decision (P e)} :
  pool_ok p ->
  let txs := e_Transaction <$> filter P (entries p) in
  pool_ok (remove_all txs p) /\ maxTxs (remove_all txs p) = maxTxs p /\
  minGasPrice (remove_all txs p) = minGasPrice p /\
  (size (pending (remove_all txs p)) <= size (pending p))%nat /\
  (forall id e, pending p !! id = Some e ->
     pending_tx (remove_all txs p) id = if decide (P e) then None else Some (e_Transaction e)).
Proof.
  intros Hok txs. destruct (remove_all_spec txs p) as (Hok' & Hm & Hg & Hp & Hs); [done| | |].
  - unfold txs. rewrite <-list_fmap_compose.
    assert (Hsub : tx_Id ∘ e_Transaction <$> filter P (entries p) `sublist_of` map_order (pending p)).
    { rewrite <-(entries_ids p Hok). apply fmap_sublist, sublist_filter. }
    eapply sublist_NoDup; [apply map_order_NoDup|exact Hsub].
  - intros tx (e & -> & [_ He]%list_elem_of_filter)%list_elem_of_fmap.
    unfold pending_tx. by rewrite (entries_pending p e Hok He).
  - split_and!; [done..|]. intros id e He. rewrite Hp.
    assert (Hin : e ∈ entries p) by (apply entries_elem; eauto).
    pose proof (entries_pending p e Hok Hin) as Hid.
    assert (Hpe : pending_tx p id = Some (e_Transaction e)) by (unfold pending_tx; by rewrite He).
    destruct (ok_pending p Hok _ _ Hpe) as [Heq _].
    destruct (decide (P e)) as [HP|HP].
    + rewrite decide_True; [done|]. unfold txs. rewrite <-list_fmap_compose. apply list_elem_of_fmap.
      exists e. split; [done|]. by apply list_elem_of_filter.
    + rewrite decide_False; [done|]. unfold txs. rewrite <-list_fmap_compose.
      intros (e' & He' & [HP' Hin']%list_elem_of_filter)%list_elem_of_fmap. apply HP.
      pose proof (entries_pending p e' Hok Hin') as Hid'. simpl in He'. congruence.
Qed.
End Housekeeping.

Lemma drop_orphans_reservation p a n :
  has_reservation (nonceReservations (drop_orphans p)) a n <->
  has_reservation (nonceReservations p) a n /\ is_Some (at_nonce (byAddress p) a n).
Proof.
  unfold has_reservation, drop_orphans. simpl. rewrite map_lookup_imap.
  assert (Horph : forall m, orphan p a m = false <-> is_Some (at_nonce (byAddress p) a m)).
  { intros m. unfold orphan, at_nonce. rewrite negb_false_iff, bool_decide_eq_true. done. }
  destruct (nonceReservations p !! a) as [rs|]; simpl; [|set_solver].
  assert (Hf : forall m, m ∈ filter (fun m => orphan p a m = false) rs <->
    m ∈ rs /\ is_Some (at_nonce (byAddress p) a m)).
  { intros m. rewrite elem_of_filter, Horph. naive_solver. }
  case_bool_decide as He; simpl; [|apply Hf].
  rewrite <-Hf, He. done.
Qed.

Lemma drop_orphans_ok p : pool_ok p -> pool_ok (drop_orphans p).
Proof.
  intros Hok. split; simpl.
  - apply (ok_pending p Hok).
  - apply (ok_hash p Hok).
  - apply (ok_address p Hok).
  - intros a n. pose proof (drop_orphans_reservation p a n) as Hd. simpl in Hd. rewrite Hd.
    rewrite (ok_reserved p Hok). naive_solver.
  - apply (ok_limit p Hok).
  - apply (ok_positive p Hok).
Qed.

(** ** The pool as a state machine *)

Section Machine.
Context `{MapOrder} (Keccak256 : list byte -> list byte).

(** One call, whatever the account manager answers and whatever the clock. *)
Inductive pool_step : Pool -> Pool -> Prop :=
| step_add lookup tx now r p p' :
    AddTransaction Keccak256 lookup tx now p = (r, p') -> pool_step p p'
| step_remove id r p p' : RemoveTransaction id p = (r, p') -> pool_step p p'
| step_remove_hash h r p p' : RemoveTransactionByHash h p = (r, p') -> pool_step p p'
| step_expire ttl now p : pool_step p (CleanupExpired ttl now p)
| step_stale age now p : pool_step p (snd (CleanupStaleTransactions age now p))
| step_gas s p : pool_step p (snd (UpdateGasPrice s p))
| step_clear p : pool_step p (Clear p).

(** The invariant of every reachable pool: indexes, capacity, price floor. *)
Definition pool_inv (p : Pool) : Prop :=
  pool_ok p /\ Z.of_nat (size (pending p)) <= maxTxs p /\
  forall id tx, pending_tx p id = Some tx -> minGasPrice p <= price tx.

Lemma NewPool_inv sid total max s : 0 <= max -> pool_inv (NewPool sid total max s).
Proof.
  intros Hm. split_and!.
  - split; simpl; unfold pending_tx, at_nonce, has_reservation; simpl.
    + intros id tx. by rewrite lookup_empty.
    + intros h tx. by rewrite lookup_empty.
    + intros a n tx. by rewrite lookup_empty.
    + intros a n. rewrite !lookup_empty. simpl. split; [set_solver|by intros []].
    + intros a m. by rewrite lookup_empty.
    + unfold MaxTransactionsPerSender. lia.
  - simpl. rewrite map_size_empty. lia.
  - intros id tx. unfold pending_tx. simpl. by rewrite lookup_empty.
Qed.

Lemma validate_price tx p :
  validateTransactionForPool Keccak256 tx p = Ok tt -> minGasPrice p <= price tx.
Proof. unfold validateTransactionForPool. repeat case_if; zbool; done. Qed.

Lemma add_inv lookup tx now r p p' :
  pool_inv p -> AddTransaction Keccak256 lookup tx now p = (r, p') -> r <> Panic -> pool_inv p'.
Proof.
  intros (Hok & Hcap & Hfloor) Hadd Hnp.
  destruct (AddTransaction_spec Keccak256 lookup tx now p r p' Hok Hadd)
    as (Hok' & Hlim & [(e & -> & Hp)|[(-> & Hadm & ev & (Htx & Hrest & Hev) & Hs)|(-> & _)]]); [| |done].
  all: unfold limits in Hlim; injection Hlim as Hmax Hmin.
  - split_and!; [done|by rewrite Hp, Hmax|]. rewrite Hmin. intros id t. unfold pending_tx.
    rewrite Hp. apply Hfloor.
  - split_and!; [done| |].
    + rewrite Hs, Hmax. destruct ev; lia.
    + rewrite Hmin. intros id t. destruct (decide (id = tx_Id tx)) as [->|Hne].
      * rewrite Htx. intros [= <-]. apply validate_price, Hadm.
      * rewrite Hrest by done. case_decide; [done|apply Hfloor].
Qed.

Lemma add_panic_inv lookup tx now p p' :
  pool_inv p -> AddTransaction Keccak256 lookup tx now p = (Panic, p') -> pool_inv p'.
Proof.
  intros (Hok & Hcap & Hfloor) Hadd. pose proof (init_sender_ok (tx_From tx) p Hok) as Hok0.
  destruct (init_sender_same (tx_From tx) p) as (Ep & _ & Em & _ & Emin & _).
  destruct (AddTransaction_spec Keccak256 lookup tx now p _ p' Hok Hadd) as (Hok' & _ & _).
  destruct (AddTransaction_cases Keccak256 lookup tx now p _ p' Hok Hadd) as [(e & ? & _)|(_ & p1 & Hr & Hc)]; [done|].
  assert (p' = p1) as ->.
  { revert Hc. unfold commit_tx, reserve, index_by_address, mbind, GoM_bind, modify.
    destruct (nonceReservations p1 !! tx_From tx) as [rs|] eqn:Hrs; [|by intros [= <-]]. simpl.
    destruct (byAddress p1 !! tx_From tx) as [m|] eqn:Hm; [done|]. intros _. exfalso.
    destruct (init_sender_same (tx_From tx) p) as (_ & _ & _ & _ & _ & _ & _ & _ & Hs1 & Hs2).
    destruct (make_room_cases tx _ Hok0) as [[_ Heq]|[(_ & Heq & _)|(_ & t & Ht & _ & _ & Heq)]];
      rewrite Heq in Hr; simplify_eq.
    - destruct Hs1. congruence.
    - destruct (evicted_maps t _ (tx_From tx) rs Hok0 Ht Hs1 Hrs) as (m & Hm' & _). congruence. }
  destruct (make_room_cases tx _ Hok0) as [[_ Heq]|[(_ & Heq & _)|(_ & t & Ht & _ & _ & Heq)]];
    rewrite Heq in Hr; simplify_eq.
  - split_and!; [done|by rewrite Ep, Em|]. intros id t. unfold pending_tx. rewrite Ep, Emin. apply Hfloor.
  - split_and!; [done| |].
    + pose proof (pending_size_remove _ t Ht) as Hs. rewrite Ep in Hs. simpl in *. rewrite Em. lia.
    + intros id t'. rewrite removeInternal_pending. case_decide; [done|]. unfold pending_tx.
      rewrite Ep. simpl. rewrite Emin. apply Hfloor.
Qed.

Lemma remove_inv p tx :
  pool_inv p -> pending_tx p (tx_Id tx) = Some tx -> pool_inv (removeInternal tx p).
Proof.
  intros (Hok & Hcap & Hfloor) Ht. split_and!; [by apply removeInternal_ok| |].
  - pose proof (pending_size_remove p tx Ht). simpl in *. lia.
  - intros id t. rewrite removeInternal_pending. case_decide; [done|apply Hfloor].
Qed.

(** Removing a selection, under a price floor the rest respects. *)
Lemma selected_inv p (P : TransactionEntry -> Prop) `{forall e, Decision (P e)} :
  pool_ok p -> Z.of_nat (size (pending p)) <= maxTxs p ->
  (forall id e, pending p !! id = Some e -> ~ P e -> minGasPrice p <= price (e_Transaction e)) ->
  pool_inv (remove_all (e_Transaction <$> filter P (entries p)) p).
Proof.
  intros Hok Hcap Hfl. destruct (remove_selected p P Hok) as (Hok' & Hm & Hg & Hs & Hp).
  split_and!; [done|rewrite Hm; lia|]. intros id tx Htx. rewrite Hg.
  destruct (pending p !! id) as [e|] eqn:He.
  - rewrite (Hp id e He) in Htx. case_decide; [done|]. injection Htx as <-. by apply (Hfl id).
  - exfalso. destruct (remove_all_spec (e_Transaction <$> filter P (entries p)) p) as (_ & _ & _ & Hq & _);
      [done| | |].
    + rewrite <-list_fmap_compose. eapply sublist_NoDup; [apply (map_order_NoDup _ (pending p))|].
      rewrite <-(entries_ids p Hok). apply fmap_sublist, sublist_filter.
    + intros t (e & -> & [_ Hin]%list_elem_of_filter)%list_elem_of_fmap.
      unfold pending_tx. by rewrite (entries_pending p e Hok Hin).
    + rewrite Hq in Htx. case_decide; [done|]. unfold pending_tx in Htx. by rewrite He in Htx.
Qed.

Lemma pool_step_inv p p' : pool_step p p' -> pool_inv p -> pool_inv p'.
Proof.
  intros Hstep Hinv. pose proof Hinv as (Hok & Hcap & Hfloor).
  destruct Hstep as [lookup tx now r p p' Hadd|id r p p' Hr|h r p p' Hr|ttl now p|age now p|s p|p].
  - destruct (decide (is_ok r || is_err r = true)) as [Hr|Hr].
    + eapply add_inv; [done|exact Hadd|]. by intros ->.
    + destruct r; try done; [by eapply add_panic_inv|].
      destruct (AddTransaction_spec Keccak256 lookup tx now p _ p' Hok Hadd) as (_ & _ & Hc). naive_solver.
  - unfold RemoveTransaction in Hr. destruct (pending p !! id) as [e|] eqn:He; [|by injection Hr as <- <-].
    injection Hr as <- <-. apply remove_inv; [done|].
    assert (Hp : pending_tx p id = Some (e_Transaction e)) by (unfold pending_tx; by rewrite He).
    by destruct (ok_pending p Hok _ _ Hp) as [-> _].
  - unfold RemoveTransactionByHash in Hr. destruct (byHash p !! h) as [tx|] eqn:Hh; [|by injection Hr as <- <-].
    injection Hr as <- <-. apply remove_inv; [done|]. by apply (ok_hash p Hok h).
  - assert (Hi : pool_inv (remove_all (e_Transaction <$> filter (fun e => ttl < now - e_ReceivedAt e) (entries p)) p)).
    { apply selected_inv; [done..|]. intros id e He _. apply (Hfloor id). unfold pending_tx. by rewrite He. }
    destruct Hi as (Hok' & Hcap' & Hfl'). split_and!; [by apply drop_orphans_ok|done|done].
  - apply selected_inv; [done..|]. intros id e He _. apply (Hfloor id). unfold pending_tx. by rewrite He.
  - apply (selected_inv (set_minGasPrice (ParseBigInt_string s) p)
      (fun e => price (e_Transaction e) < minGasPrice (set_minGasPrice (ParseBigInt_string s) p)));
      [by destruct Hok; split|done|]. intros id e _ Hge. lia.
  - pose proof (NewPool_inv 0 0 (maxTxs p) "") as (Hn & _); [pose proof (Nat2Z.is_nonneg (size (pending p))); lia|].
    split_and!.
    + destruct Hn as [N1 N2 N3 N4 _ _]. split; simpl; [exact N1|exact N2|exact N3|exact N4| |apply (ok_positive p Hok)].
      intros a m. by rewrite lookup_empty.
    + simpl. rewrite map_size_empty. lia.
    + intros id tx. unfold pending_tx. simpl. by rewrite lookup_empty.
Qed.

(** C34. Every pool reached from an empty one by any sequence of calls, one after the
    other, keeps its
    invariant: the id, hash and (sender, nonce) indexes hold the same
    transactions, exactly the pending nonces are reserved, no sender has more
    than its limit, the pool never exceeds its capacity, and every pending
    transaction pays at least the current minimum gas price. *)
Theorem pool_reachable_inv sid total max s p :
  0 <= max -> rtc pool_step (NewPool sid total max s) p -> pool_inv p.
Proof.
  intros Hmax Hr. pose proof (NewPool_inv sid total max s Hmax) as Hi.
  induction Hr as [|p p1 p2 Hs _ IH]; [done|]. eauto using pool_step_inv.
Qed.

(** A transaction that passes the checks reaches the capacity test. *)
Lemma AddTransaction_admitted lookup tx now p :
  pool_ok p -> admitted Keccak256 lookup tx p ->
  AddTransaction Keccak256 lookup tx now p =
  (make_room tx ≫= fun _ => commit_tx tx now) (init_sender (tx_From tx) p).
Proof.
  intros Hok (Hv & Hp & Hh & Hat & Hsz & Hbal).
  destruct (init_sender_same (tx_From tx) p) as (_ & _ & _ & El & _ & Ea & Er & _ & [m Hm] & _).
  unfold AddTransaction, mbind, GoM_bind, get, lift, modify, refuse_if, throw, mret, GoM_ret.
  rewrite Hv. simpl. rewrite bool_decide_false, bool_decide_false; cycle 1.
  { rewrite Hh. by intros []. }
  { unfold pending_tx in Hp. destruct (pending p !! tx_Id tx); [done|by intros []]. }
  rewrite <-Ea in Hat. unfold at_nonce in Hat. pose proof (init_sender_default (tx_From tx) p) as Hd.
  rewrite Hm in Hat, Hd |- *. simpl in Hat, Hd |- *. unfold check_sender. rewrite Hat.
  destruct (Z.leb_spec (maxTxsPerAddress (init_sender (tx_From tx) p)) (Z.of_nat (size m))) as [Hle|_];
    [rewrite <-Hd in Hsz; lia|].
  unfold reserved. rewrite bool_decide_false; [by rewrite Hbal|].
  intros Hin. apply (Er (tx_From tx)) in Hin. apply (ok_reserved p Hok) in Hin.
  rewrite <-Ea in Hin. unfold at_nonce in Hin. rewrite Hm in Hin. simpl in Hin. rewrite Hat in Hin.
  by destruct Hin.
Qed.

(** With room it goes in. *)
Lemma AddTransaction_complete lookup tx now p r p' :
  pool_ok p -> admitted Keccak256 lookup tx p -> Z.of_nat (size (pending p)) < maxTxs p ->
  AddTransaction Keccak256 lookup tx now p = (r, p') -> r = Ok tt.
Proof.
  intros Hok Hadm Hroom. rewrite AddTransaction_admitted by done.
  destruct (init_sender_same (tx_From tx) p) as (Ep & _ & Em & _ & _ & _ & _ & _ & [m Hm] & [rs Hrs]).
  unfold mbind, GoM_bind, make_room. rewrite Ep, Em.
  destruct (Z.leb_spec (maxTxs p) (Z.of_nat (size (pending p)))) as [|_]; [lia|].
  rewrite (commit_run tx now _ rs m Hrs Hm). congruence.
Qed.

(** Removing the sender's only transaction removes its reservation map. *)
Lemma only_pending_gone p a t :
  pool_ok p -> only_pending p a t -> nonceReservations (removeInternal t p) !! a = None.
Proof.
  intros Hok (Ht & <- & Honly). simpl. unfold drop_reservation.
  destruct (nonceReservations p !! tx_From t) as [rs|] eqn:Hrs; [|done].
  rewrite bool_decide_true; [apply lookup_delete_eq|]. apply leibniz_equiv, set_equiv. intros n.
  split; [|set_solver]. intros [Hn Hne]%elem_of_difference. exfalso. apply Hne, elem_of_singleton.
  destruct (proj1 (ok_reserved p Hok (tx_From t) n)) as [t' Ht']; [unfold has_reservation; by rewrite Hrs|].
  destruct (ok_address p Hok _ _ _ Ht') as (_ & <- & _). by rewrite (Honly _ t' Ht').
Qed.

(** Adding to a pool that satisfies its invariant: success means the
    transaction passed every check and is now pending, beside all the others
    but at most one, which was evicted because the pool was full, was the
    cheapest and paid strictly less; an error leaves the pending transactions
    as they were; with room, a transaction that passes the checks is always
    accepted; and the call panics only when the pool is full and the sender has
    exactly one pending transaction. *)
Theorem pool_add_correct lookup tx now p r p' :
  pool_inv p -> AddTransaction Keccak256 lookup tx now p = (r, p') ->
  match r with
  | Ok _ => admitted Keccak256 lookup tx p /\ exists evicted, added tx evicted p p'
  | Err _ => pending p' = pending p
  | Panic => admitted Keccak256 lookup tx p /\ maxTxs p = Z.of_nat (size (pending p)) /\
             exists t, only_pending p (tx_From tx) t
  | Hang => False
  end /\
  (admitted Keccak256 lookup tx p -> Z.of_nat (size (pending p)) < maxTxs p -> r = Ok tt).
Proof.
  intros (Hok & Hcap & _) Hadd. split; [|intros; by eapply AddTransaction_complete].
  destruct (AddTransaction_spec Keccak256 lookup tx now p r p' Hok Hadd)
    as (_ & _ & [(e & -> & Hp)|[(-> & Hadm & ev & Had & _)|(-> & Hadm & Ht)]]); [done|eauto|].
  split_and!; [done| |done]. destruct (decide (Z.of_nat (size (pending p)) < maxTxs p)) as [Hr|]; [|lia].
  by pose proof (AddTransaction_complete lookup tx now p _ p' Hok Hadm Hr Hadd).
Qed.

(** Replacement by fee never happens: while a transaction with the same
    sender and nonce is pending, a new one is refused whatever it pays, since
    the nonce of the pending one is reserved. *)
Theorem replacement_always_refused lookup tx old now p :
  pool_inv p -> at_nonce (byAddress p) (tx_From tx) (tx_Nonce tx) = Some old ->
  exists e p', AddTransaction Keccak256 lookup tx now p = (Err e, p') /\ pending p' = pending p.
Proof.
  intros (Hok & _) Hold. destruct (AddTransaction Keccak256 lookup tx now p) as [r p'] eqn:Hadd.
  destruct (AddTransaction_spec Keccak256 lookup tx now p r p' Hok Hadd)
    as (_ & _ & [(e & -> & Hp)|[(_ & (_ & _ & _ & Hn & _) & _)|(_ & (_ & _ & _ & Hn & _) & _)]]);
    [eauto|congruence..].
Qed.

(** When the pool is full and its cheapest transaction is the sender's only
    pending one, a better paying transaction of that sender that passes every
    check makes the call panic: the eviction deletes the sender's maps, and the
    commit then writes into a nil map. *)
Theorem own_eviction_panics lookup tx t now p :
  pool_inv p -> admitted Keccak256 lookup tx p -> maxTxs p <= Z.of_nat (size (pending p)) ->
  only_pending p (tx_From tx) t -> price t < price tx ->
  (forall id t', pending_tx p id = Some t' -> t' = t \/ price t < price t') ->
  fst (AddTransaction Keccak256 lookup tx now p) = Panic.
Proof.
  intros (Hok & _) Hadm Hfull Honly Hprice Hcheap. rewrite AddTransaction_admitted by done.
  destruct (init_sender_same (tx_From tx) p) as (Ep & _ & Em & _ & _ & Ea & _).
  pose proof (init_sender_ok (tx_From tx) p Hok) as Hok0. pose proof Honly as (Ht & _ & Hall).
  assert (Hsame : forall id, pending_tx (init_sender (tx_From tx) p) id = pending_tx p id)
    by (intros id; unfold pending_tx; by rewrite Ep).
  unfold mbind, GoM_bind.
  destruct (make_room_cases tx _ Hok0) as [[Hlt _]|[(_ & _ & Hno)|(_ & t0 & Ht0 & _ & Hmin & ->)]].
  - rewrite Ep, Em in Hlt. lia.
  - rewrite <-Hsame in Ht. specialize (Hno _ _ Ht). lia.
  - rewrite Hsame in Ht0. rewrite <-Hsame in Ht. specialize (Hmin _ _ Ht).
    destruct (Hcheap _ _ Ht0) as [->|]; [|lia].
    rewrite commit_panic; [done|]. apply only_pending_gone; [done|].
    destruct Honly as (_ & Hf & _). split_and!; [done..|]. intros n t'. rewrite Ea. apply Hall.
Qed.
End Machine.

(** ** The nonce queries *)

Section Nonces.

Lemma highest_spec l : forall start,
  start <= highest start l /\ (forall n, n ∈ l -> n <= highest start l) /\
  (highest start l = start \/ highest start l ∈ l).
Proof.
  induction l as [|x l IH]; intros start; [simpl; split_and!; [lia|set_solver|auto]|].
  change (highest start (x :: l)) with (highest (if start <? x then x else start) l).
  destruct (IH (if start <? x then x else start)) as (H1 & H2 & H3).
  split_and!.
  - destruct (Z.ltb_spec start x); lia.
  - intros n [->|Hn]%elem_of_cons; [|by apply H2]. destruct (Z.ltb_spec start x); lia.
  - destruct H3 as [H3|H3]; [|set_solver]. rewrite H3. destruct (Z.ltb_spec start x); set_solver.
Qed.

(** A second pass over numbers already seen changes nothing. *)
Lemma highest_idemp start l l' :
  (forall n, n ∈ l' -> n ∈ l) -> highest (highest start l) l' = highest start l.
Proof.
  intros Hs. destruct (highest_spec l start) as (_ & Hle & _).
  destruct (highest_spec l' (highest start l)) as (Hge & _ & [He|Hin]); [done|].
  apply Hs, Hle in Hin. lia.
Qed.

Context (p : Pool) (a : string) (c : Z).
Hypothesis Hok : pool_ok p.
Hypothesis Hrange : forall n, is_Some (at_nonce (byAddress p) a n) -> 0 <= n < MaxUint64.

Definition pending_nonces : list Z := fst <$> map_to_list (default ∅ (byAddress p !! a)).

Lemma pending_nonces_elem n : n ∈ pending_nonces <-> is_Some (at_nonce (byAddress p) a n).
Proof.
  unfold pending_nonces, at_nonce. rewrite list_elem_of_fmap. split.
  - intros ([k t] & -> & Hk%elem_of_map_to_list). destruct (byAddress p !! a); simpl in *; eauto.
  - destruct (byAddress p !! a) as [m|]; [|by intros []]. simpl. intros [t Ht]. exists (n, t).
    by rewrite elem_of_map_to_list.
Qed.

Lemma reserved_nonces_elem n :
  n ∈ elements (default ∅ (nonceReservations p !! a)) <-> is_Some (at_nonce (byAddress p) a n).
Proof. rewrite elem_of_elements. apply (ok_reserved p Hok). Qed.

(** Both queries look for the highest nonce; the reservations add nothing. *)
Lemma GetNextNonce_highest :
  1 <= c <= MaxUint64 ->
  GetNextNonce a c p = highest (c - 1) pending_nonces + 1 /\
  c - 1 <= highest (c - 1) pending_nonces < MaxUint64.
Proof.
  intros Hc. assert (Hh : c - 1 <= highest (c - 1) pending_nonces < MaxUint64).
  { destruct (highest_spec pending_nonces (c - 1)) as (Hge & _ & [->|Hin%pending_nonces_elem%Hrange]); lia. }
  split; [|done]. unfold GetNextNonce. destruct (byAddress p !! a) as [m|] eqn:Hm.
  - rewrite (u64_id (c - 1)) by (unfold_ints; lia).
    assert (Hpn : fst <$> map_to_list m = pending_nonces) by (unfold pending_nonces; by rewrite Hm).
    rewrite Hpn, highest_idemp; [apply u64_id; unfold_ints; lia|].
    intros n. by rewrite reserved_nonces_elem, pending_nonces_elem.
  - rewrite bool_decide_false by (rewrite reserved_nonces_elem; unfold at_nonce; rewrite Hm; by intros []).
    unfold pending_nonces. rewrite Hm. simpl. rewrite map_to_list_empty. simpl. unfold highest. simpl. lia.
Qed.

Lemma gap_loop_spec m h : forall k fuel n gaps,
  (k < fuel)%nat -> h - n + 1 = Z.of_nat k -> 0 <= n -> h < MaxUint64 ->
  gap_loop fuel m n h gaps = Ok (gaps ++ filter (fun i => m !! i = None) (seqZ n (Z.of_nat k))).
Proof.
  induction k as [|k IH]; intros fuel n gaps Hf Hk Hn Hh; (destruct fuel as [|fuel]; [lia|]); simpl.
  - destruct (Z.leb_spec n h); [lia|]. by rewrite app_nil_r.
  - destruct (Z.leb_spec n h); [|lia]. rewrite u64_id by (unfold_ints; lia).
    rewrite IH by lia. rewrite (seqZ_cons n (Z.of_nat (S k))) by lia.
    replace (Z.pred (Z.of_nat (S k))) with (Z.of_nat k) by lia. rewrite filter_cons.
    replace (Z.succ n) with (n + 1) by lia.
    destruct (m !! n) as [t|] eqn:Hm.
    + by rewrite bool_decide_true, decide_False by eauto.
    + rewrite bool_decide_false, decide_True by (try done; by intros []). by rewrite <-app_assoc.
Qed.

Lemma gap_loop_endless m : forall fuel n gaps, 0 <= n <= MaxUint64 -> gap_loop fuel m n MaxUint64 gaps = Hang.
Proof.
  induction fuel as [|fuel IH]; intros n gaps Hn; [done|]. simpl.
  destruct (Z.leb_spec n MaxUint64); [|lia]. apply IH, u64_range.
Qed.
End Nonces.

(** For an account whose nonce is at least 1, the next nonce is the least
    one above the account's and every pending one of the sender, and the gap
    query returns, in order, exactly the nonces below it that nothing pending
    uses; the loop ends within as many rounds as there are such candidates,
    plus one. *)
Theorem nonce_queries_correct p a c fuel :
  pool_ok p -> (forall n, is_Some (at_nonce (byAddress p) a n) -> 0 <= n < MaxUint64) ->
  1 <= c <= MaxUint64 -> (Z.to_nat (GetNextNonce a c p - c) < fuel)%nat ->
  c <= GetNextNonce a c p /\
  (forall n, is_Some (at_nonce (byAddress p) a n) -> n < GetNextNonce a c p) /\
  (GetNextNonce a c p = c \/ is_Some (at_nonce (byAddress p) a (GetNextNonce a c p - 1))) /\
  GetAddressNonceGap fuel a c p =
    Ok (filter (fun n => at_nonce (byAddress p) a n = None) (seqZ c (GetNextNonce a c p - c))).
Proof.
  intros Hok Hrange Hc Hf. destruct (GetNextNonce_highest p a c Hok Hrange Hc) as [Hn Hh].
  destruct (highest_spec (pending_nonces p a) (c - 1)) as (Hge & Hall & Hex).
  rewrite Hn in *. split_and!; [lia| | |].
  - intros n Hin%pending_nonces_elem%Hall. lia.
  - destruct Hex as [->|Hin%pending_nonces_elem]; [left; lia|right].
    by replace (highest (c - 1) (pending_nonces p a) + 1 - 1) with (highest (c - 1) (pending_nonces p a)) by lia.
  - unfold GetAddressNonceGap, at_nonce, pending_nonces in *. destruct (byAddress p !! a) as [m|]; simpl in *.
    + rewrite (u64_id (c - 1)) by (unfold_ints; lia).
      rewrite (gap_loop_spec m _ (Z.to_nat (highest (c - 1) (fst <$> map_to_list m) + 1 - c))) by lia.
      simpl. by rewrite Z2Nat.id by lia.
    + rewrite map_to_list_empty. simpl. unfold highest. simpl. by replace (c - 1 + 1 - c) with 0 by lia.
Qed.

(** For an account whose nonce is still 0 the counter [currentNonce - 1]
    wraps to the largest uint64: once the sender has an entry, the next nonce
    is reported as 0 even when 0 is pending, and the gap query never returns. *)
Theorem nonce_queries_fail_at_zero p a m fuel :
  pool_ok p -> byAddress p !! a = Some m -> (forall n, is_Some (m !! n) -> 0 <= n <= MaxUint64) ->
  GetNextNonce a 0 p = 0 /\ GetAddressNonceGap fuel a 0 p = Hang.
Proof.
  intros Hok Hm Hrange. assert (Hh : forall l, (forall n, n ∈ l -> n <= MaxUint64) ->
    highest (u64 (0 - 1)) l = MaxUint64).
  { intros l Hl. destruct (highest_spec l (u64 (0 - 1))) as (Hge & _ & [->|Hin%Hl]); [done|].
    change (u64 (0 - 1)) with MaxUint64 in *. lia. }
  assert (Hp : forall n, is_Some (at_nonce (byAddress p) a n) -> n <= MaxUint64).
  { intros n. unfold at_nonce. rewrite Hm. simpl. intros Hn%Hrange. lia. }
  assert (Hl : highest (u64 (0 - 1)) (fst <$> map_to_list m) = MaxUint64).
  { apply Hh. intros n Hn. apply Hp. apply pending_nonces_elem. unfold pending_nonces. by rewrite Hm. }
  unfold GetNextNonce, GetAddressNonceGap. rewrite Hm. split.
  - rewrite Hl. destruct (highest_spec (elements (default ∅ (nonceReservations p !! a))) MaxUint64)
      as (Hge & _ & [->|Hin%reserved_nonces_elem%Hp]); [done| |done].
    replace (highest MaxUint64 (elements (default ∅ (nonceReservations p !! a)))) with MaxUint64 by lia. done.
  - rewrite Hl. by apply gap_loop_endless.
Qed.

(** ** What a block proposer is given *)

Section Executable.
Context `{MapOrder} (get : string -> outcome am_err Account) (maxCount : nat) (p : Pool).

Definition from_sender (a : string) (txs : list Transaction) : list Transaction :=
  filter (fun tx => tx_From tx = a) txs.
Definition total_cost (txs : list Transaction) : Z := foldr (fun tx s => tx_cost tx + s) 0 txs.

(** Consecutive nonces from the account's, paid for by its balance. *)
Definition run_of (acc : Account) (txs : list Transaction) : Prop :=
  tx_Nonce <$> txs = seqZ (acc_Nonce acc) (Z.of_nat (length txs)) /\
  total_cost txs <= ParseBigInt_bytes (acc_Balance acc).

Lemma take_executable_spec txs : forall room n b,
  0 <= n -> 0 <= b -> n + Z.of_nat room <= MaxUint64 ->
  let l := take_executable room n b txs in
  (length l <= room)%nat /\ l `sublist_of` txs /\ total_cost l <= b /\
  tx_Nonce <$> l = seqZ n (Z.of_nat (length l)).
Proof.
  induction txs as [|tx txs IH]; intros room n b Hn Hb Hroom; simpl.
  { by split_and!; try lia. }
  destruct room as [|room]; [by split_and!; simpl; try lia; try apply sublist_nil_l|].
  destruct (Z.eqb_spec (tx_Nonce tx) n) as [Heq|].
  - destruct (Z.leb_spec (ParseBigInt_bytes (tx_Amount tx) + tx_Gas tx * price tx) b);
      [|by split_and!; simpl; try lia; try apply sublist_nil_l].
    rewrite u64_id by (unfold_ints; lia).
    destruct (IH room (n + 1) (b - (ParseBigInt_bytes (tx_Amount tx) + tx_Gas tx * price tx)))
      as (H1 & H2 & H3 & H4); [lia..|].
    split_and!; [simpl; lia|by constructor|simpl|].
    + change (tx_cost tx) with (ParseBigInt_bytes (tx_Amount tx) + tx_Gas tx * price tx). lia.
    + rewrite fmap_cons, H4, Heq. simpl length. rewrite (seqZ_cons n (Z.of_nat (S _))) by lia. f_equal. f_equal; lia.
  - destruct (Z.ltb_spec n (tx_Nonce tx)); [by split_and!; simpl; try lia; try apply sublist_nil_l|].
    destruct (IH (S room) n b) as (H1 & H2 & H3 & H4); [lia..|].
    split_and!; try done. by apply sublist_cons.
Qed.

Hypothesis Hok : pool_ok p.
Hypothesis Hnonce : forall a acc, get a = Ok acc ->
  0 <= acc_Nonce acc /\ acc_Nonce acc + Z.of_nat maxCount <= MaxUint64.

Lemma sorted_pending a tx :
  tx ∈ getSortedTransactions a p -> tx_From tx = a /\ pending_tx p (tx_Id tx) = Some tx.
Proof.
  unfold getSortedTransactions. destruct (byAddress p !! a) as [m|] eqn:Hm; [|set_solver].
  rewrite merge_sort_Permutation. intros ([n t] & -> & Ht%elem_of_map_to_list)%list_elem_of_fmap. simpl.
  destruct (ok_address p Hok a n t) as (Hf & _ & Hp); [|done]. unfold at_nonce. by rewrite Hm.
Qed.

Lemma from_sender_all a txs : (forall tx, tx ∈ txs -> tx_From tx = a) -> from_sender a txs = txs.
Proof.
  intros Hall. unfold from_sender. induction txs as [|tx txs IH]; [done|]. rewrite filter_cons, decide_True by (apply Hall; set_solver).
  f_equal. apply IH. intros. apply Hall. set_solver.
Qed.

Lemma from_sender_none a txs : (forall tx, tx ∈ txs -> tx_From tx <> a) -> from_sender a txs = [].
Proof.
  intros Hall. unfold from_sender. induction txs as [|tx txs IH]; [done|]. rewrite filter_cons, decide_False by (apply Hall; set_solver).
  apply IH. intros. apply Hall. set_solver.
Qed.

(** What the pass adds for the addresses still to visit. *)
Definition pass_adds (addresses : list string) (txs : list Transaction) : Prop :=
  (forall tx, tx ∈ txs -> tx_From tx ∈ addresses /\ pending_tx p (tx_Id tx) = Some tx) /\
  forall a, from_sender a txs = [] \/ exists acc, get a = Ok acc /\ run_of acc (from_sender a txs).

Lemma pass_adds_nil addresses : pass_adds addresses [].
Proof. split; [set_solver|by left]. Qed.

Lemma pass_adds_cons a addresses acc l rest :
  a ∉ addresses -> get a = Ok acc -> run_of acc l -> l `sublist_of` getSortedTransactions a p ->
  pass_adds addresses rest -> pass_adds (a :: addresses) (l ++ rest).
Proof.
  intros Hni Hget Hrun Hsub [Hin Hruns].
  assert (Hl : forall tx, tx ∈ l -> tx_From tx = a /\ pending_tx p (tx_Id tx) = Some tx)
    by (intros tx Htx; apply sorted_pending; by eapply elem_of_sublist).
  assert (Hr : forall tx, tx ∈ rest -> tx_From tx <> a) by (intros tx [Hx _]%Hin Heq; congruence).
  split.
  - intros tx [Htx|Htx]%elem_of_app; [destruct (Hl tx Htx)|destruct (Hin tx Htx)]; set_solver.
  - intros a'. unfold from_sender in *. rewrite filter_app. destruct (decide (a' = a)) as [->|Hne].
    + right. exists acc. split; [done|]. fold (from_sender a l) (from_sender a rest).
      rewrite (from_sender_all a l), (from_sender_none a rest), app_nil_r; try done. by intros ? [? _]%Hl.
    + fold (from_sender a' l). rewrite (from_sender_none a' l); [apply Hruns|]. intros tx [Hx _]%Hl. congruence.
Qed.

Lemma first_pass_spec addresses : forall ex,
  NoDup addresses -> (length ex <= maxCount)%nat ->
  exists rest, first_pass get maxCount p addresses ex = ex ++ rest /\
    (length (ex ++ rest) <= maxCount)%nat /\ pass_adds addresses rest.
Proof.
  induction addresses as [|a addresses IH]; intros ex Hnd Hlen.
  { exists []. rewrite app_nil_r. split_and!; [done..|apply pass_adds_nil]. }
  apply NoDup_cons in Hnd as [Hni Hnd]. simpl.
  destruct (Nat.leb_spec maxCount (length ex)).
  { exists []. rewrite app_nil_r. split_and!; [done..|apply pass_adds_nil]. }
  assert (Hskip : exists rest, first_pass get maxCount p addresses ex = ex ++ rest /\
    (length (ex ++ rest) <= maxCount)%nat /\ pass_adds (a :: addresses) rest).
  { destruct (IH ex Hnd Hlen) as (rest & Hr & Hl & [Hin Hruns]). exists rest. split_and!; [done..|].
    split; [|done]. intros tx Htx. destruct (Hin tx Htx). set_solver. }
  destruct (getSortedTransactions a p) as [|tx txs] eqn:Htxs; [done|].
  destruct (get a) as [acc| | |] eqn:Hget; [|done..]. destruct (Hnonce a acc Hget) as [Hn0 Hn1].
  destruct (take_executable_spec (tx :: txs) (maxCount - length ex) (acc_Nonce acc)
    (ParseBigInt_bytes (acc_Balance acc))) as (H1 & H2 & H3 & H4); [lia|apply ParseBigInt_bytes_nonneg|lia|].
  set (l := take_executable _ _ _ _) in *.
  destruct (IH (ex ++ l) Hnd) as (rest & Hr & Hl & Hadds); [rewrite length_app; lia|].
  exists (l ++ rest). rewrite app_assoc. split_and!; [done..|].
  eapply pass_adds_cons; [done..| |done]. by rewrite Htxs.
Qed.

Lemma second_pass_spec rem : forall ex,
  (length ex <= maxCount)%nat ->
  exists extra, second_pass get maxCount rem ex = ex ++ extra /\
    (length (ex ++ extra) <= maxCount)%nat /\ extra `sublist_of` rem.
Proof.
  induction rem as [|tx rem IH]; intros ex Hlen; simpl.
  { exists []. by rewrite app_nil_r. }
  destruct (Nat.leb_spec maxCount (length ex)).
  { exists []. rewrite app_nil_r. split_and!; [done..|apply sublist_nil_l]. }
  case_if.
  - destruct (IH (ex ++ [tx])) as (extra & -> & Hl & Hs); [rewrite length_app; simpl; lia|].
    exists (tx :: extra). rewrite <-app_assoc in *. split_and!; [done..|by constructor].
  - destruct (IH ex Hlen) as (extra & -> & Hl & Hs). exists extra. split_and!; [done..|by constructor].
Qed.

(** Pending transactions without repetition have distinct ids. *)
Lemma pending_NoDup_ids l :
  (forall tx, tx ∈ l -> pending_tx p (tx_Id tx) = Some tx) -> NoDup l -> NoDup (tx_Id <$> l).
Proof.
  intros Hp Hnd. induction Hnd as [|tx l Hni Hnd IH]; [constructor|]. rewrite fmap_cons. constructor.
  - intros (t & He & Ht)%list_elem_of_fmap. apply Hni.
    rewrite (pool_ok_unique p tx t); auto; apply Hp; set_solver.
  - apply IH. intros t Ht. apply Hp. set_solver.
Qed.

Lemma NoDup_by_sender l : (forall a, NoDup (from_sender a l)) -> NoDup l.
Proof.
  induction l as [|tx l IH]; intros Hall; [constructor|]. constructor.
  - intros Hin. specialize (Hall (tx_From tx)). unfold from_sender in Hall.
    rewrite filter_cons, decide_True in Hall by done. apply NoDup_cons in Hall as [Hni _].
    apply Hni, list_elem_of_filter. done.
  - apply IH. intros a. specialize (Hall a). unfold from_sender in *. rewrite filter_cons in Hall.
    case_decide; [by apply NoDup_cons in Hall as [_ ?]|done].
Qed.

Lemma run_NoDup acc l : run_of acc l -> NoDup l.
Proof. intros [Hn _]. apply (NoDup_fmap_1 tx_Nonce). rewrite Hn. apply NoDup_seqZ. Qed.

(** The transactions offered to a block proposer are distinct, pending and
    at most [maxCount]; they start with a first part in which each sender's
    transactions carry consecutive nonces from its account's and cost together
    at most its balance; the fill that may follow comes after all of these. *)
Theorem executable_selection :
  exists runs extra,
    GetExecutableTransactions get maxCount p = runs ++ extra /\
    (length (runs ++ extra) <= maxCount)%nat /\
    NoDup (tx_Id <$> runs ++ extra) /\
    (forall tx, tx ∈ runs ++ extra -> pending_tx p (tx_Id tx) = Some tx) /\
    forall a, from_sender a runs = [] \/ exists acc, get a = Ok acc /\ run_of acc (from_sender a runs).
Proof.
  destruct (first_pass_spec (map_order (byAddress p)) []) as (runs & Hf & Hlen & Hin & Hruns);
    [apply map_order_NoDup|simpl; lia|]. simpl in Hlen.
  assert (Hp : forall tx, tx ∈ runs -> pending_tx p (tx_Id tx) = Some tx) by (intros tx Htx; by apply Hin).
  assert (Hnd : NoDup (tx_Id <$> runs)).
  { apply pending_NoDup_ids; [done|]. apply NoDup_by_sender. intros a.
    destruct (Hruns a) as [->|(acc & _ & Hrun)]; [constructor|by eapply run_NoDup]. }
  unfold GetExecutableTransactions. rewrite Hf. simpl. case_if.
  2: { exists runs, []. rewrite app_nil_r. by split_and!. }
  set (rem := filter _ (GetPendingTransactions p)).
  destruct (second_pass_spec (merge_sort by_price_desc rem) runs Hlen) as (extra & -> & Hl & Hs).
  assert (Hex : forall tx, tx ∈ extra -> tx ∈ rem).
  { intros tx Htx. rewrite <-(merge_sort_Permutation by_price_desc rem). by eapply elem_of_sublist. }
  exists runs, extra. split_and!; [done..| | |done].
  - rewrite fmap_app. apply NoDup_app. split_and!; [done| |].
    + intros id (t & -> & Ht)%list_elem_of_fmap (t' & Heq & Ht'%Hex)%list_elem_of_fmap.
      apply list_elem_of_filter in Ht' as [Hall _]. rewrite forallb_forall in Hall.
      specialize (Hall t (proj1 (list_elem_of_In _ _) Ht)). by rewrite bool_decide_true in Hall.
    + eapply sublist_NoDup; [|apply fmap_sublist, Hs].
      rewrite (fmap_Permutation tx_Id _ _ (merge_sort_Permutation by_price_desc rem)).
      eapply sublist_NoDup; [|apply fmap_sublist, sublist_filter].
      unfold GetPendingTransactions. rewrite <-list_fmap_compose, (entries_ids p Hok). apply map_order_NoDup.
  - intros tx [Htx|Htx%Hex]%elem_of_app; [by apply Hp|].
    apply list_elem_of_filter in Htx as [_ (e & -> & He)%list_elem_of_fmap].
    unfold pending_tx. by rewrite (entries_pending p e Hok He).
Qed.
End Executable.

(** ** Concrete pools *)

Section Examples.
Definition ex_keccak (_ : list byte) : list byte := [].
Definition ex_tx (id from : string) (gasPrice : byte) (nonce : Z) : Transaction :=
  MkTransaction id from "bob" [x01] 1 [gasPrice] nonce [] TRANSFER [x01] ("hash of " ++ id)%string 0 [] "" 0.

(** A pool of capacity 1 holding one transaction of alice, paying 5. *)
Definition ex_pool : Pool :=
  snd (AddTransaction ex_keccak None (ex_tx "t1" "alice" x05 1) 0 (NewPool (-1) 1 1 "1")).

Lemma ex_pool_reachable : rtc (pool_step ex_keccak) (NewPool (-1) 1 1 "1") ex_pool.
Proof. eapply rtc_once, step_add. apply surjective_pairing. Defined.
Lemma ex_pool_inv : pool_inv ex_pool.
Proof. eapply pool_step_inv; [eapply step_add, surjective_pairing|]. by apply NewPool_inv. Defined.

Lemma pool_reachable_inv_witness : size (pending ex_pool) = 1%nat /\ pool_inv ex_pool.
Proof.
  split; [by vm_compute|]. apply (pool_reachable_inv ex_keccak (-1) 1 1 "1"); [done|].
  exact ex_pool_reachable.
Defined.

(** bob pays more than alice, and takes her place. *)
Lemma pool_add_correct_witness :
  admitted ex_keccak None (ex_tx "t2" "bob" x09 0) ex_pool /\
  exists evicted, added (ex_tx "t2" "bob" x09 0) evicted ex_pool
    (snd (AddTransaction ex_keccak None (ex_tx "t2" "bob" x09 0) 0 ex_pool)).
Proof.
  apply (pool_add_correct ex_keccak None (ex_tx "t2" "bob" x09 0) 0 ex_pool (Ok tt)); [apply ex_pool_inv|].
  apply pair_of_fst. by vm_compute.
Defined.

Lemma replacement_always_refused_witness : exists e p',
  AddTransaction ex_keccak None (ex_tx "t2" "alice" xff 1) 0 ex_pool = (Err e, p') /\
  pending p' = pending ex_pool.
Proof.
  apply (replacement_always_refused ex_keccak None _ (ex_tx "t1" "alice" x05 1)); [apply ex_pool_inv|].
  by vm_compute.
Defined.

Lemma own_eviction_panics_witness :
  fst (AddTransaction ex_keccak None (ex_tx "t2" "alice" x09 2) 0 ex_pool) = Panic.
Proof.
  assert (Hone : forall id t, pending_tx ex_pool id = Some t -> t = ex_tx "t1" "alice" x05 1).
  { assert (Hp : pending ex_pool = {["t1"%string := MkEntry (ex_tx "t1" "alice" x05 1) 0]}) by (by vm_compute).
    intros id t. unfold pending_tx. rewrite Hp.
    intros (e & [_ <-]%lookup_singleton_Some & ->)%fmap_Some. done. }
  apply (own_eviction_panics ex_keccak None _ (ex_tx "t1" "alice" x05 1)).
  - apply ex_pool_inv.
  - repeat split; by vm_compute.
  - by vm_compute.
  - split; [by vm_compute|]. split; [done|]. intros n t' Ht.
    destruct (ok_address ex_pool (proj1 ex_pool_inv) _ _ _ Ht) as (_ & _ & Hp). by apply (Hone (tx_Id t')).
  - by vm_compute.
  - intros id t' Ht. left. by apply (Hone id).
Defined.

(** alice's nonces 3 and 5 are pending, her account is at 2. *)
Definition ex_gap_pool : Pool :=
  snd (AddTransaction ex_keccak None (ex_tx "t5" "alice" x05 5) 0
    (snd (AddTransaction ex_keccak None (ex_tx "t3" "alice" x05 3) 0 (NewPool (-1) 1 9 "1")))).

Lemma ex_gap_ok : pool_inv ex_gap_pool.
Proof.
  eapply pool_step_inv; [eapply step_add, surjective_pairing|].
  eapply pool_step_inv; [eapply step_add, surjective_pairing|]. by apply NewPool_inv.
Defined.

Lemma ex_gap_nonces n : is_Some (at_nonce (byAddress ex_gap_pool) "alice" n) -> n = 3 \/ n = 5.
Proof.
  intros Hn%pending_nonces_elem. revert n Hn. apply Forall_forall.
  vm_compute. repeat (apply List.Forall_cons; [by auto|]). apply List.Forall_nil.
Defined.

Lemma nonce_queries_correct_witness :
  GetNextNonce "alice" 2 ex_gap_pool = 6 /\ GetAddressNonceGap 10 "alice" 2 ex_gap_pool = Ok [2; 4].
Proof.
  destruct (nonce_queries_correct ex_gap_pool "alice" 2 10) as (_ & _ & _ & Hg).
  - apply ex_gap_ok.
  - intros n [->| ->]%ex_gap_nonces; by vm_compute.
  - by vm_compute.
  - apply Nat.ltb_lt. by vm_compute.
  - split; [by vm_compute|]. rewrite Hg. by vm_compute.
Defined.

(** A new account with its first transaction pending. *)
Lemma nonce_queries_fail_at_zero_witness :
  GetNextNonce "alice" 0 ex_gap_pool = 0 /\ GetAddressNonceGap 1000 "alice" 0 ex_gap_pool = Hang.
Proof.
  apply (nonce_queries_fail_at_zero ex_gap_pool "alice"
    (default ∅ (byAddress ex_gap_pool !! "alice"%string))); [apply ex_gap_ok|by vm_compute|].
  intros n Hn. assert (Hx : n = 3 \/ n = 5); [|destruct Hx as [->| ->]; by vm_compute].
  apply ex_gap_nonces. unfold at_nonce.
  destruct (byAddress ex_gap_pool !! "alice"%string); [done|by destruct Hn].
Defined.

(** alice can pay for her next transaction; the one after the gap has to wait. *)
Definition ex_get (a : string) : outcome am_err Account :=
  Ok (MkAccount a [x0a] 3 [] ∅ [] [] []).

Lemma executable_selection_witness :
  GetExecutableTransactions ex_get 5 ex_gap_pool = [ex_tx "t3" "alice" x05 3] /\
  exists runs extra,
    GetExecutableTransactions ex_get 5 ex_gap_pool = runs ++ extra /\
    (length (runs ++ extra) <= 5)%nat /\ NoDup (tx_Id <$> runs ++ extra) /\
    (forall tx, tx ∈ runs ++ extra -> pending_tx ex_gap_pool (tx_Id tx) = Some tx) /\
    forall a, from_sender a runs = [] \/
      exists acc, ex_get a = Ok acc /\ run_of acc (from_sender a runs).
Proof.
  split; [by vm_compute|]. apply (executable_selection ex_get 5 ex_gap_pool); [apply ex_gap_ok|].
  intros a acc [= <-]. by vm_compute.
Defined.
End Examples.
