(* ===== verification/Replay.v ===== *)
(** * Replay protection (src/core/transaction/replay.go)

    Times are seconds for the timestamps of transactions and nanoseconds for the
    cache; every reading of the clock is an argument.  The detector's check
    takes two locks in turn, so it is three atomic steps, which the state machine
    at the end interleaves freely.  Addresses and chain ids are ASCII strings. *)

From stdpp Require Import base tactics numbers list gmap strings.
From Stdlib Require Import ZArith Lia Strings.Ascii.
From S2P Require Import Prelude SafeMath Uint256 Address.
Open Scope Z_scope.
Open Scope list_scope.

(** ** Configuration and the fields of a transaction *)

Record ReplayProtection : Type := MkReplayProtection {
  ChainID : string;
  FinalizedBlockHash : string;
  FinalizedBlockHeight : Z;
  MaxBlockAge : Z;
  Timestamp : Z;
  ShardID : string
}.

Record ReplayProtectionConfig : Type := MkReplayConfig {
  RequireFinalizedBlock : bool;
  MinFinalizedBlockAge : Z;
  TransactionMaxAge : Z;
  AllowEmptyFinalizedBlock : bool;
  TransactionTimeoutSeconds : Z;
  EnableShardProtection : bool;
  MaxNonceGap : Z;
  MaxReorgDepth : Z
}.

Definition DefaultReplayProtectionConfig : ReplayProtectionConfig :=
  MkReplayConfig true 2 1000 false 1800 true 100 100.
Definition DevelopmentReplayProtectionConfig : ReplayProtectionConfig :=
  MkReplayConfig false 0 10000 true 3600 false 1000 1000.

Inductive replay_err : Type :=
| ChainIDRequired | FinalizedHashRequired | FinalizedHeightRequired | NegativeHeight (h : Z)
| FutureTimestamp | TimeCalculation (e : math_err) | Expired (age max : Z)
| BlockAgeCalculation (e : math_err) | TooOld (age max : Z) | FutureBlock
| FinalizedTooRecent (age min : Z) | ShardIDRequired
| NonceBackwards (current previous : Z) | NonceGapCalculation (e : math_err)
| NonceGapTooLarge (gap max : Z)
| EmptyShardIDs | CrossShardReplay (tx expected : string)
| ChainIDMismatch (tx expected : string)
| AlreadyProcessed (hash : string) (seenAt current : Z)
| NonceReplay (got previous : Z)
| NonceValidation (e : replay_err)
| TooOldForReorg (age max : Z)
| MissingChainID | ExpectedChainIDMissing | TimestampNotPositive | EmptyChainID.

Definition EnsureReplayProtectionV3 (chainID : string) : outcome replay_err unit :=
  if bool_decide (chainID = "") then Err EmptyChainID else Ok tt.

(** ** Validation of the fields *)

Section Validate.
Context (rp : ReplayProtection) (config : ReplayProtectionConfig).

Definition check_finalized : outcome replay_err unit :=
  if RequireFinalizedBlock config && negb (AllowEmptyFinalizedBlock config) then
    if bool_decide (FinalizedBlockHash rp = "") then Err FinalizedHashRequired
    else if FinalizedBlockHeight rp =? 0 then Err FinalizedHeightRequired
    else Ok tt
  else Ok tt.

Definition check_timestamp (currentTime : Z) : outcome replay_err unit :=
  if 0 <? Timestamp rp then
    if currentTime <? Timestamp rp then Err FutureTimestamp
    else if 0 <? TransactionTimeoutSeconds config then
      timeDiff ← wrap TimeCalculation (SafeSub currentTime (Timestamp rp));
      if TransactionTimeoutSeconds config <? timeDiff
      then Err (Expired timeDiff (TransactionTimeoutSeconds config)) else Ok tt
    else Ok tt
  else Ok tt.

Definition check_max_age (currentBlockHeight : Z) : outcome replay_err unit :=
  if (0 <? TransactionMaxAge config) && (0 <? currentBlockHeight) then
    blockAge ← wrap BlockAgeCalculation (SafeSub currentBlockHeight (FinalizedBlockHeight rp));
    if TransactionMaxAge config <? blockAge then Err (TooOld blockAge (TransactionMaxAge config))
    else if blockAge <? 0 then Err FutureBlock else Ok tt
  else Ok tt.

Definition check_min_age (currentBlockHeight : Z) : outcome replay_err unit :=
  if (0 <? MinFinalizedBlockAge config) && (0 <? currentBlockHeight) then
    blockAge ← wrap BlockAgeCalculation (SafeSub currentBlockHeight (FinalizedBlockHeight rp));
    if blockAge <? MinFinalizedBlockAge config
    then Err (FinalizedTooRecent blockAge (MinFinalizedBlockAge config)) else Ok tt
  else Ok tt.

Definition ReplayProtection_Validate (currentBlockHeight currentTime : Z) : outcome replay_err unit :=
  if bool_decide (ChainID rp = "") then Err ChainIDRequired
  else
    _ ← check_finalized;
    if FinalizedBlockHeight rp <? 0 then Err (NegativeHeight (FinalizedBlockHeight rp))
    else
      _ ← check_timestamp currentTime;
      _ ← check_max_age currentBlockHeight;
      _ ← check_min_age currentBlockHeight;
      if EnableShardProtection config && bool_decide (ShardID rp = "") then Err ShardIDRequired
      else Ok tt.

Definition IsExpired (currentBlockHeight maxAge : Z) : bool :=
  if maxAge =? 0 then false
  else match SafeSub currentBlockHeight (FinalizedBlockHeight rp) with
       | Ok blockAge => maxAge <? blockAge
       | _ => true
       end.

Definition IsExpiredByTime (timeoutSeconds currentTime : Z) : bool :=
  if (timeoutSeconds =? 0) || (Timestamp rp =? 0) then false
  else match SafeSub currentTime (Timestamp rp) with
       | Ok timeDiff => timeoutSeconds <? timeDiff
       | _ => true
       end.
End Validate.

(** ** Stateless checks *)

Definition ValidateNonceSequence (currentNonce previousNonce maxGap : Z) : outcome replay_err unit :=
  if currentNonce <? previousNonce then Err (NonceBackwards currentNonce previousNonce)
  else
    nonceGap ← wrap NonceGapCalculation (Sub64 currentNonce previousNonce);
    if maxGap <? nonceGap then Err (NonceGapTooLarge nonceGap maxGap) else Ok tt.

Definition ValidateCrossShardReplay (txShardID expectedShardID : string) : outcome replay_err unit :=
  if bool_decide (txShardID = "") || bool_decide (expectedShardID = "") then Err EmptyShardIDs
  else if negb (bool_decide (txShardID = expectedShardID))
  then Err (CrossShardReplay txShardID expectedShardID) else Ok tt.

(** Spaces, tabs and newlines dropped anywhere, letters lowered. *)
Definition normalizeChainID (chainID : string) : string :=
  of_chars (lower <$> filter (fun c => ~ (code c = 32 \/ code c = 9 \/ code c = 10)) (chars chainID)).

Definition ValidateChainIDMatch (txChainID expectedChainID : string) : outcome replay_err unit :=
  if bool_decide (txChainID = "") then Err MissingChainID
  else if bool_decide (expectedChainID = "") then Err ExpectedChainIDMissing
  else if negb (bool_decide (normalizeChainID txChainID = normalizeChainID expectedChainID))
  then Err (ChainIDMismatch txChainID expectedChainID) else Ok tt.

Definition ValidateTransactionTimingV3 (timestamp : Z) (config : ReplayProtectionConfig)
    (currentTime : Z) : outcome replay_err unit :=
  if timestamp <=? 0 then Err TimestampNotPositive
  else if currentTime <? timestamp then Err FutureTimestamp
  else if 0 <? TransactionTimeoutSeconds config then
    timeDiff ← wrap TimeCalculation (SafeSub currentTime timestamp);
    if TransactionTimeoutSeconds config <? timeDiff
    then Err (Expired timeDiff (TransactionTimeoutSeconds config)) else Ok tt
  else Ok tt.

Definition ValidateBlockHeightV3 (txBlockHeight currentBlockHeight : Z)
    (config : ReplayProtectionConfig) : outcome replay_err unit :=
  if txBlockHeight <? 0 then Err (NegativeHeight txBlockHeight)
  else if currentBlockHeight <=? 0 then Ok tt
  else if currentBlockHeight <? txBlockHeight then Err FutureBlock
  else if 0 <? TransactionMaxAge config then
    blockAge ← wrap BlockAgeCalculation (SafeSub currentBlockHeight txBlockHeight);
    if TransactionMaxAge config <? blockAge
    then Err (TooOld blockAge (TransactionMaxAge config)) else Ok tt
  else Ok tt.

(** ** Metrics *)

Record ReplayProtectionMetrics : Type := MkMetrics {
  TransactionsWithReplayProtection : Z;
  TransactionsWithoutFinalized : Z;
  ExpiredTransactions : Z;
  ReplayAttemptsDetected : Z;
  LastReplayAttempt : option Z;
  TimeBasedExpiredTransactions : Z;
  BlockBasedExpiredTransactions : Z;
  CrossShardReplayAttempts : Z;
  NonceManipulationAttempts : Z;
  FutureBlockReferences : Z;
  FutureTimestampAttempts : Z;
  ReorgReplayAttempts : Z;
  DeepReorgDetected : Z
}.

Definition no_metrics : ReplayProtectionMetrics := MkMetrics 0 0 0 0 None 0 0 0 0 0 0 0 0.

(** Add to the counters, each a uint64; [last] is the time of an attempt. *)
Definition bump (expired replay time block cross nonce futureBlock futureTime reorg deep : Z)
    (last : option Z) (m : ReplayProtectionMetrics) : ReplayProtectionMetrics :=
  MkMetrics (TransactionsWithReplayProtection m) (TransactionsWithoutFinalized m)
    (u64 (ExpiredTransactions m + expired)) (u64 (ReplayAttemptsDetected m + replay))
    (match last with Some _ => last | None => LastReplayAttempt m end)
    (u64 (TimeBasedExpiredTransactions m + time)) (u64 (BlockBasedExpiredTransactions m + block))
    (u64 (CrossShardReplayAttempts m + cross)) (u64 (NonceManipulationAttempts m + nonce))
    (u64 (FutureBlockReferences m + futureBlock)) (u64 (FutureTimestampAttempts m + futureTime))
    (u64 (ReorgReplayAttempts m + reorg)) (u64 (DeepReorgDetected m + deep)).

Definition RecordReplayAttempt (now : Z) := bump 0 1 0 0 0 0 0 0 0 0 (Some now).
Definition RecordReorgReplayAttempt (now : Z) := bump 0 1 0 0 0 0 0 0 1 0 (Some now).
Definition RecordDeepReorg := bump 0 0 0 0 0 0 0 0 0 1 None.
Definition RecordTimeBasedExpiration := bump 1 0 1 0 0 0 0 0 0 0 None.
Definition RecordBlockBasedExpiration := bump 1 0 0 1 0 0 0 0 0 0 None.
Definition RecordCrossShardReplayAttempt (now : Z) := bump 0 1 0 0 1 0 0 0 0 0 (Some now).
Definition RecordNonceManipulation := bump 0 0 0 0 0 1 0 0 0 0 None.
Definition RecordFutureBlockReference := bump 0 0 0 0 0 0 1 0 0 0 None.
Definition RecordFutureTimestamp := bump 0 0 0 0 0 0 0 1 0 0 None.
Definition RecordChainIDMismatch (now : Z) := bump 0 1 0 0 0 0 0 0 0 0 (Some now).

Inductive alert : Type :=
| HighReplayAttempts (n : Z) | NonceManipulationDetected (n : Z)
| CrossShardAttempts (n : Z) | ReorgAttempts (n : Z).

Definition IsSecurityEventThresholdExceeded (m : ReplayProtectionMetrics) : option alert :=
  if 10 <? ReplayAttemptsDetected m then Some (HighReplayAttempts (ReplayAttemptsDetected m))
  else if 0 <? NonceManipulationAttempts m
  then Some (NonceManipulationDetected (NonceManipulationAttempts m))
  else if 5 <? CrossShardReplayAttempts m
  then Some (CrossShardAttempts (CrossShardReplayAttempts m))
  else if 3 <? ReorgReplayAttempts m then Some (ReorgAttempts (ReorgReplayAttempts m))
  else None.

(** ** The cache of transactions seen *)

Record CachedTransaction : Type := MkCached {
  c_TxHash : string;
  c_Nonce : Z;
  c_ShardID : string;
  c_SeenAt : Z;
  c_ExpiresAt : Z;
  c_SeenAtBlockHeight : Z
}.

Record ReplayCache : Type := MkCache { cache : gmap string CachedTransaction; maxSize : Z }.

Definition NewReplayCache (maxSize : Z) : ReplayCache := MkCache ∅ maxSize.

Definition cleanupExpired (now : Z) (rc : ReplayCache) : ReplayCache :=
  MkCache (filter (fun kv => now <= c_ExpiresAt kv.2) (cache rc)) (maxSize rc).

Definition Cache_Add (txHash : string) (nonce : Z) (shardID : string) (expiresAt blockHeight : Z)
    (now : Z) (rc : ReplayCache) : ReplayCache :=
  let rc := MkCache (<[txHash := MkCached txHash nonce shardID now expiresAt blockHeight]> (cache rc))
              (maxSize rc) in
  if maxSize rc <? Z.of_nat (size (cache rc)) then cleanupExpired now rc else rc.

Definition Cache_Get (txHash : string) (now : Z) (rc : ReplayCache) : option CachedTransaction :=
  match cache rc !! txHash with
  | None => None
  | Some cached => if c_ExpiresAt cached <? now then None else Some cached
  end.
Definition Cache_Has (txHash : string) (now : Z) (rc : ReplayCache) : bool :=
  match cache rc !! txHash with
  | None => false
  | Some cached => if c_ExpiresAt cached <? now then false else true
  end.
Definition Cache_Size (rc : ReplayCache) : Z := Z.of_nat (size (cache rc)).

(** ** The detector *)

Record ReplayDetectorV3 : Type := MkDetector {
  rd_cache : ReplayCache;
  rd_config : ReplayProtectionConfig;
  rd_metrics : ReplayProtectionMetrics;
  rd_chainID : string;
  accountNonces : gmap string Z
}.

Definition set_cache (c : ReplayCache) (rd : ReplayDetectorV3) : ReplayDetectorV3 :=
  MkDetector c (rd_config rd) (rd_metrics rd) (rd_chainID rd) (accountNonces rd).
Definition on_metrics (f : ReplayProtectionMetrics -> ReplayProtectionMetrics) (rd : ReplayDetectorV3)
    : ReplayDetectorV3 :=
  MkDetector (rd_cache rd) (rd_config rd) (f (rd_metrics rd)) (rd_chainID rd) (accountNonces rd).
Definition set_nonces (m : gmap string Z) (rd : ReplayDetectorV3) : ReplayDetectorV3 :=
  MkDetector (rd_cache rd) (rd_config rd) (rd_metrics rd) (rd_chainID rd) m.

Definition NewReplayDetectorV3 (chainID : string) (config : option ReplayProtectionConfig)
    (metrics : option ReplayProtectionMetrics) : ReplayDetectorV3 :=
  MkDetector (NewReplayCache 100000) (default DefaultReplayProtectionConfig config)
    (default no_metrics metrics) chainID ∅.

Definition is_space (c : ascii) : bool :=
  let n := code c in ((9 <=? n) && (n <=? 13)) || (n =? 32).
Fixpoint trim_left (cs : list ascii) : list ascii :=
  match cs with
  | [] => []
  | c :: cs' => if is_space c then trim_left cs' else cs
  end.
Definition TrimSpace (s : string) : string :=
  of_chars (rev (trim_left (rev (trim_left (chars s))))).
Definition normalizeReplayAddress (from : string) : string := ToLower (TrimSpace from).

(** The arguments of a check. *)
Record check : Type := MkCheck {
  k_hash : string; k_chainID : string; k_from : string; k_nonce : Z; k_height : Z
}.
Definition k_sender (k : check) : string := normalizeReplayAddress (k_from k).

(** Chain id, then the cache, read twice. *)
Definition check_seen (k : check) (now1 now2 : Z) : GoM ReplayDetectorV3 replay_err unit := fun rd =>
  if negb (bool_decide (k_chainID k = rd_chainID rd))
  then (Err (ChainIDMismatch (k_chainID k) (rd_chainID rd)), on_metrics (RecordReplayAttempt now1) rd)
  else if Cache_Has (k_hash k) now1 (rd_cache rd) then
    match Cache_Get (k_hash k) now2 (rd_cache rd) with
    | Some cached =>
        (Err (AlreadyProcessed (k_hash k) (c_SeenAtBlockHeight cached) (k_height k)),
         on_metrics (RecordReorgReplayAttempt now2) rd)
    | None => (Ok tt, rd)
    end
  else (Ok tt, rd).

(** Under the detector's lock: compare with the last nonce and replace it. *)
Definition claim_nonce (k : check) (now : Z) : GoM ReplayDetectorV3 replay_err unit := fun rd =>
  match accountNonces rd !! k_sender k with
  | Some previousNonce =>
      if k_nonce k <=? previousNonce
      then (Err (NonceReplay (k_nonce k) previousNonce),
            on_metrics (fun m => RecordReorgReplayAttempt now (RecordNonceManipulation m)) rd)
      else match ValidateNonceSequence (k_nonce k) previousNonce (MaxNonceGap (rd_config rd)) with
           | Ok _ => (Ok tt, set_nonces (<[k_sender k := k_nonce k]> (accountNonces rd)) rd)
           | Err e => (Err (NonceValidation e), on_metrics RecordNonceManipulation rd)
           | Panic => (Panic, rd)
           | Hang => (Hang, rd)
           end
  | None => (Ok tt, set_nonces (<[k_sender k := k_nonce k]> (accountNonces rd)) rd)
  end.

Definition nanoseconds : Z := 1000000000.
Definition remember (k : check) (now1 now2 : Z) : GoM ReplayDetectorV3 replay_err unit := fun rd =>
  let expiresAt := now1 + i64 (i64 (TransactionTimeoutSeconds (rd_config rd)) * nanoseconds) in
  (Ok tt, set_cache (Cache_Add (k_hash k) (k_nonce k) "" expiresAt (k_height k) now2 (rd_cache rd)) rd).

Definition CheckReplayV3 (k : check) (now : Z) : GoM ReplayDetectorV3 replay_err unit :=
  _ ← check_seen k now now;
  _ ← claim_nonce k now;
  remember k now now.

Definition CheckReorgDepth (txBlockHeight currentBlockHeight : Z)
    : GoM ReplayDetectorV3 replay_err unit := fun rd =>
  let maxDepth := MaxReorgDepth (rd_config rd) in
  if maxDepth =? 0 then (Ok tt, rd)
  else if (txBlockHeight <=? 0) || (currentBlockHeight <=? 0) then (Ok tt, rd)
  else match SafeSub currentBlockHeight txBlockHeight with
       | Ok blockAge =>
           if maxDepth <? blockAge
           then (Err (TooOldForReorg blockAge maxDepth), on_metrics RecordDeepReorg rd)
           else (Ok tt, rd)
       | Err e => (Err (BlockAgeCalculation e), rd)
       | Panic => (Panic, rd)
       | Hang => (Hang, rd)
       end.

Definition Detector_GetNonce (from : string) (rd : ReplayDetectorV3) : option Z :=
  accountNonces rd !! normalizeReplayAddress from.

(** ** The checks of the fields *)

(** On the values of the code, the checked subtraction of two non-negative
    numbers is exact. *)
Lemma SafeSub_nonneg a b : is_i64 a -> is_i64 b -> 0 <= a -> 0 <= b -> SafeSub a b = Ok (a - b).
Proof.
  intros Ha Hb H1 H2. apply (checked_op_ok (fits:=is_i64) (spec:=Z.sub)); [done..|].
  split; [unfold_ints; lia|done].
Qed.

(** What the configuration asks of a transaction's fields. *)
Definition fields_acceptable (rp : ReplayProtection) (config : ReplayProtectionConfig)
    (height now : Z) : Prop :=
  ChainID rp <> "" /\
  (RequireFinalizedBlock config = true -> AllowEmptyFinalizedBlock config = false ->
     FinalizedBlockHash rp <> "" /\ FinalizedBlockHeight rp <> 0) /\
  0 <= FinalizedBlockHeight rp /\
  (0 < Timestamp rp -> Timestamp rp <= now /\
     (0 < TransactionTimeoutSeconds config -> now - Timestamp rp <= TransactionTimeoutSeconds config)) /\
  (0 < TransactionMaxAge config -> 0 < height ->
     0 <= height - FinalizedBlockHeight rp <= TransactionMaxAge config) /\
  (0 < MinFinalizedBlockAge config -> 0 < height ->
     MinFinalizedBlockAge config <= height - FinalizedBlockHeight rp) /\
  (EnableShardProtection config = true -> ShardID rp <> "").

Section ValidateSpec.
Context (rp : ReplayProtection) (config : ReplayProtectionConfig) (height now : Z).
Hypothesis Hfields : is_i64 (Timestamp rp) /\ is_i64 (FinalizedBlockHeight rp).
Hypothesis Hinputs : is_i64 height /\ is_i64 now.

Lemma check_finalized_ok :
  check_finalized rp config = Ok tt <->
  (RequireFinalizedBlock config = true -> AllowEmptyFinalizedBlock config = false ->
     FinalizedBlockHash rp <> "" /\ FinalizedBlockHeight rp <> 0).
Proof.
  unfold check_finalized. destruct (RequireFinalizedBlock config), (AllowEmptyFinalizedBlock config);
    simpl; try naive_solver.
  case_bool_decide; [naive_solver|]. destruct (Z.eqb_spec (FinalizedBlockHeight rp) 0); naive_solver.
Qed.

Lemma check_timestamp_ok :
  check_timestamp rp config now = Ok tt <->
  (0 < Timestamp rp -> Timestamp rp <= now /\
     (0 < TransactionTimeoutSeconds config -> now - Timestamp rp <= TransactionTimeoutSeconds config)).
Proof.
  destruct Hfields, Hinputs. unfold check_timestamp.
  destruct (Z.ltb_spec 0 (Timestamp rp)); [|naive_solver lia].
  destruct (Z.ltb_spec now (Timestamp rp)); [naive_solver lia|].
  destruct (Z.ltb_spec 0 (TransactionTimeoutSeconds config)); [|naive_solver lia].
  rewrite SafeSub_nonneg by (done || lia). simpl.
  destruct (Z.ltb_spec (TransactionTimeoutSeconds config) (now - Timestamp rp)); naive_solver lia.
Qed.

Lemma check_ages_ok :
  0 <= FinalizedBlockHeight rp ->
  (check_max_age rp config height = Ok tt <->
   (0 < TransactionMaxAge config -> 0 < height ->
      0 <= height - FinalizedBlockHeight rp <= TransactionMaxAge config)) /\
  (check_min_age rp config height = Ok tt <->
   (0 < MinFinalizedBlockAge config -> 0 < height ->
      MinFinalizedBlockAge config <= height - FinalizedBlockHeight rp)).
Proof.
  destruct Hfields, Hinputs. intros Hh. unfold check_max_age, check_min_age.
  destruct (Z.ltb_spec 0 height); [|rewrite !andb_false_r; naive_solver lia].
  rewrite !andb_true_r, SafeSub_nonneg by (done || lia). simpl. split.
  - destruct (Z.ltb_spec 0 (TransactionMaxAge config)); [|naive_solver lia].
    destruct (Z.ltb_spec (TransactionMaxAge config) (height - FinalizedBlockHeight rp)); [naive_solver lia|].
    destruct (Z.ltb_spec (height - FinalizedBlockHeight rp) 0); naive_solver lia.
  - destruct (Z.ltb_spec 0 (MinFinalizedBlockAge config)); [|naive_solver lia].
    destruct (Z.ltb_spec (height - FinalizedBlockHeight rp) (MinFinalizedBlockAge config)); naive_solver lia.
Qed.

Lemma bind_unit_ok {E B} (m : outcome E unit) (f : unit -> outcome E B) b :
  (m ≫= f) = Ok b <-> m = Ok tt /\ f tt = Ok b.
Proof. destruct m as [[]| | |]; naive_solver. Qed.

(** The replay fields of a transaction are accepted exactly when they meet
    the configuration: a chain id, a finalized block when one is required, a
    timestamp that is neither in the future nor expired, a block age between
    the two limits, a shard id when shards are protected. No arithmetic error
    is possible on the way, and an accepted transaction is not expired by the
    block-age and time predicates either. *)
Theorem replay_fields_exact :
  (ReplayProtection_Validate rp config height now = Ok tt <-> fields_acceptable rp config height now) /\
  (fields_acceptable rp config height now -> 0 < height -> 0 < TransactionMaxAge config ->
   IsExpired rp height (TransactionMaxAge config) = false) /\
  (fields_acceptable rp config height now -> 0 < Timestamp rp -> 0 < TransactionTimeoutSeconds config ->
   IsExpiredByTime rp (TransactionTimeoutSeconds config) now = false).
Proof.
  split_and!.
  - unfold ReplayProtection_Validate, fields_acceptable. case_bool_decide as Hc; [naive_solver|].
    rewrite bind_unit_ok, check_finalized_ok.
    destruct (Z.ltb_spec (FinalizedBlockHeight rp) 0); [naive_solver lia|].
    destruct check_ages_ok as [Hmax Hmin]; [done|].
    rewrite !bind_unit_ok, check_timestamp_ok, Hmax, Hmin.
    destruct (EnableShardProtection config); simpl; [case_bool_decide|]; naive_solver.
  - intros (_ & _ & Hh & _ & Hage & _) H1 H2. destruct Hfields, Hinputs. unfold IsExpired.
    destruct (Z.eqb_spec (TransactionMaxAge config) 0); [done|].
    rewrite SafeSub_nonneg by (done || lia). apply Z.ltb_ge. by apply Hage.
  - intros (_ & _ & _ & Hts & _) H1 H2. destruct Hfields, Hinputs. destruct (Hts H1) as [Hle Hto].
    unfold IsExpiredByTime. destruct (Z.eqb_spec (TransactionTimeoutSeconds config) 0); [lia|].
    destruct (Z.eqb_spec (Timestamp rp) 0); [lia|]. simpl.
    rewrite SafeSub_nonneg by (done || lia). apply Z.ltb_ge. by apply Hto.
Qed.
End ValidateSpec.

(** ** The cache keeps what has not expired *)

Inductive cache_op : Type :=
| OpAdd (txHash : string) (nonce : Z) (shardID : string) (expiresAt blockHeight now : Z)
| OpCleanup (now : Z).

Definition run_op (rc : ReplayCache) (o : cache_op) : ReplayCache :=
  match o with
  | OpAdd h n s e b now => Cache_Add h n s e b now rc
  | OpCleanup now => cleanupExpired now rc
  end.
Definition op_time (o : cache_op) : Z :=
  match o with OpAdd _ _ _ _ _ now | OpCleanup now => now end.
Definition adds (h : string) (o : cache_op) : Prop :=
  match o with OpAdd h' _ _ _ _ _ => h' = h | OpCleanup _ => False end.

Lemma cleanup_get h t now rc :
  now <= t -> Cache_Get h t (cleanupExpired now rc) = Cache_Get h t rc.
Proof.
  intros Hle. unfold Cache_Get, cleanupExpired. simpl. rewrite map_lookup_filter.
  destruct (cache rc !! h) as [c|]; simpl; [|done].
  destruct (decide (now <= c_ExpiresAt c)) as [Hk|Hk].
  - by rewrite option_guard_True by done.
  - rewrite option_guard_False by done. simpl. destruct (Z.ltb_spec (c_ExpiresAt c) t); [done|lia].
Qed.

Lemma add_get h' n s e b now h t rc :
  now <= t ->
  Cache_Get h t (Cache_Add h' n s e b now rc) =
  if decide (h = h') then (if e <? t then None else Some (MkCached h' n s now e b)) else Cache_Get h t rc.
Proof.
  intros Hle. unfold Cache_Add.
  set (rc' := MkCache (<[h' := MkCached h' n s now e b]> (cache rc)) (maxSize rc)).
  assert (Hg : Cache_Get h t rc' =
    if decide (h = h') then (if e <? t then None else Some (MkCached h' n s now e b)) else Cache_Get h t rc).
  { unfold Cache_Get, rc'. simpl. case_decide as Hd; [subst; by rewrite lookup_insert_eq|].
    by rewrite lookup_insert_ne. }
  case_if; [|done]. by rewrite cleanup_get.
Qed.

(** However many transactions are added and however often the cache is
    cleaned up, a transaction that was recorded is found until its expiry, and
    not after it: no live entry is ever evicted, not even by a full cache. *)
Theorem cache_keeps_live_entries h n s expiresAt b now t rc ops :
  now <= t -> Forall (fun o => op_time o <= t /\ ~ adds h o) ops ->
  Cache_Get h t (foldl run_op (Cache_Add h n s expiresAt b now rc) ops) =
    (if expiresAt <? t then None else Some (MkCached h n s now expiresAt b)) /\
  (Cache_Has h t (foldl run_op (Cache_Add h n s expiresAt b now rc) ops) = true <-> t <= expiresAt).
Proof.
  intros Hn Hops.
  assert (Hkeep : forall rc', Cache_Get h t (foldl run_op rc' ops) = Cache_Get h t rc').
  { induction Hops as [|o ops [Ht Hna] _ IH]; intros rc'; [done|]. simpl. rewrite IH.
    destruct o as [h' n' s' e' b' t'|t']; simpl in *; [|by apply cleanup_get].
    rewrite add_get by done. by rewrite decide_False by congruence. }
  assert (Hg : Cache_Get h t (foldl run_op (Cache_Add h n s expiresAt b now rc) ops) =
    if expiresAt <? t then None else Some (MkCached h n s now expiresAt b)).
  { rewrite Hkeep, add_get by done. by rewrite decide_True. }
  split; [done|]. revert Hg. unfold Cache_Get, Cache_Has.
  destruct (cache _ !! h) as [c|]; [|destruct (Z.ltb_spec expiresAt t); [intros _; lia|done]].
  destruct (c_ExpiresAt c <? t); destruct (Z.ltb_spec expiresAt t); try done; intros _; split; intros; done || lia.
Qed.

(** ** One check *)

Lemma ValidateNonceSequence_exact c p g :
  is_u64 c -> is_u64 p ->
  (exists e, ValidateNonceSequence c p g = Err e) \/
  (ValidateNonceSequence c p g = Ok tt /\ p <= c <= p + g).
Proof.
  intros Hc Hp. unfold ValidateNonceSequence. destruct (Z.ltb_spec c p); [eauto|].
  assert (Hs : Sub64 c p = Ok (c - p)).
  { apply (checked_op_ok (fits:=is_u64) (spec:=Z.sub)); [done..|]. split; [unfold_ints; lia|done]. }
  rewrite Hs. simpl. destruct (Z.ltb_spec g (c - p)); [eauto|]. right. split; [done|lia].
Qed.

Lemma ValidateNonceSequence_ok c p g :
  is_u64 c -> is_u64 p -> p <= c <= p + g -> ValidateNonceSequence c p g = Ok tt.
Proof.
  intros Hc Hp Hr. unfold ValidateNonceSequence. destruct (Z.ltb_spec c p); [lia|].
  assert (Hs : Sub64 c p = Ok (c - p)).
  { apply (checked_op_ok (fits:=is_u64) (spec:=Z.sub)); [done..|]. split; [unfold_ints; lia|done]. }
  rewrite Hs. simpl. destruct (Z.ltb_spec g (c - p)); [lia|done].
Qed.

(** Nonces are uint64 values. *)
Definition nonces_fit (rd : ReplayDetectorV3) : Prop :=
  forall a n, accountNonces rd !! a = Some n -> is_u64 n.

Definition nonce_acceptable (k : check) (rd : ReplayDetectorV3) : Prop :=
  match accountNonces rd !! k_sender k with
  | Some previous => previous < k_nonce k <= previous + MaxNonceGap (rd_config rd)
  | None => True
  end.

(** The refusals that count as an attack. *)
Definition counted (m m' : ReplayProtectionMetrics) : Prop :=
  ReplayAttemptsDetected m' = u64 (ReplayAttemptsDetected m + 1) \/
  NonceManipulationAttempts m' = u64 (NonceManipulationAttempts m + 1).

Lemma check_seen_cases k t1 t2 rd :
  (k_chainID k = rd_chainID rd /\ (Cache_Has (k_hash k) t1 (rd_cache rd) = true ->
     Cache_Get (k_hash k) t2 (rd_cache rd) = None) /\ check_seen k t1 t2 rd = (Ok tt, rd)) \/
  (~ (k_chainID k = rd_chainID rd /\ (Cache_Has (k_hash k) t1 (rd_cache rd) = true ->
     Cache_Get (k_hash k) t2 (rd_cache rd) = None)) /\
   exists e rd', check_seen k t1 t2 rd = (Err e, rd') /\ accountNonces rd' = accountNonces rd /\
     rd_chainID rd' = rd_chainID rd /\ rd_cache rd' = rd_cache rd /\ rd_config rd' = rd_config rd /\
     counted (rd_metrics rd) (rd_metrics rd')).
Proof.
  unfold check_seen. case_bool_decide as Hc; simpl.
  - destruct (Cache_Has (k_hash k) t1 (rd_cache rd)); [|left; naive_solver].
    destruct (Cache_Get (k_hash k) t2 (rd_cache rd)) as [c|]; [|left; naive_solver].
    right. split; [naive_solver|]. eexists _, _. split; [done|]. split_and!; try done. by left.
  - right. split; [naive_solver|]. eexists _, _. split; [done|]. split_and!; try done. by left.
Qed.

Lemma u64_add_l a b : u64 (u64 a + b) = u64 (a + b).
Proof. apply Zplus_mod_idemp_l. Qed.

Lemma claim_nonce_cases k t rd :
  is_u64 (k_nonce k) -> nonces_fit rd ->
  (nonce_acceptable k rd /\
   claim_nonce k t rd = (Ok tt, set_nonces (<[k_sender k := k_nonce k]> (accountNonces rd)) rd)) \/
  (~ nonce_acceptable k rd /\
   exists e rd', claim_nonce k t rd = (Err e, rd') /\ accountNonces rd' = accountNonces rd /\
     rd_chainID rd' = rd_chainID rd /\ rd_cache rd' = rd_cache rd /\ rd_config rd' = rd_config rd /\
     counted (rd_metrics rd) (rd_metrics rd')).
Proof.
  intros Hk Hfit. unfold claim_nonce, nonce_acceptable.
  destruct (accountNonces rd !! k_sender k) as [p|] eqn:Hp; [|by left].
  destruct (Z.leb_spec (k_nonce k) p).
  { right. split; [lia|]. eexists _, _. split; [done|]. split_and!; try done. left. simpl. by rewrite u64_add_l, Z.add_0_r. }
  destruct (ValidateNonceSequence_exact (k_nonce k) p (MaxNonceGap (rd_config rd)) Hk (Hfit _ _ Hp)) as [[e He]|[He Hr]].
  - rewrite He. right. split.
    + intros Hr. rewrite ValidateNonceSequence_ok in He; [done|done|by apply (Hfit (k_sender k))|lia].
    + eexists _, _. split; [done|]. split_and!; try done. by right.
  - rewrite He. left. split; [lia|done].
Qed.

(** A replay check succeeds exactly when the chain id is the detector's,
    the hash is not in the cache and the nonce is above the sender's last one
    by at most the allowed gap. Success records the nonce and the hash, so the
    same transaction is refused until it expires; a refusal changes neither and
    is counted in the metrics. *)
Theorem replay_check_exact k now rd r rd' :
  is_u64 (k_nonce k) -> nonces_fit rd -> CheckReplayV3 k now rd = (r, rd') ->
  (r = Ok tt <-> k_chainID k = rd_chainID rd /\ Cache_Get (k_hash k) now (rd_cache rd) = None /\
                 nonce_acceptable k rd) /\
  match r with
  | Ok _ => accountNonces rd' = <[k_sender k := k_nonce k]> (accountNonces rd) /\
      forall t, now <= t ->
        Cache_Has (k_hash k) t (rd_cache rd') =
        (t <=? now + i64 (i64 (TransactionTimeoutSeconds (rd_config rd)) * nanoseconds))
  | Err _ => accountNonces rd' = accountNonces rd /\ rd_cache rd' = rd_cache rd /\
      counted (rd_metrics rd) (rd_metrics rd')
  | _ => False
  end.
Proof.
  intros Hk Hfit. unfold CheckReplayV3, mbind, GoM_bind.
  assert (Hhg : (Cache_Has (k_hash k) now (rd_cache rd) = true ->
    Cache_Get (k_hash k) now (rd_cache rd) = None) <-> Cache_Get (k_hash k) now (rd_cache rd) = None).
  { unfold Cache_Has, Cache_Get. destruct (cache (rd_cache rd) !! k_hash k) as [c|]; [|naive_solver].
    destruct (c_ExpiresAt c <? now); naive_solver. }
  destruct (check_seen_cases k now now rd) as [(Hc & Hs & ->)|(Hno & e & rd1 & -> & ? & _ & ? & _ & ?)].
  2: { intros [= <- <-]. split; [|done]. split; [done|]. rewrite <-Hhg in Hno |- *. naive_solver. }
  rewrite Hhg in Hs.
  destruct (claim_nonce_cases k now rd Hk Hfit) as [(Hn & ->)|(Hno & e & rd1 & -> & ? & _ & ? & _ & ?)].
  2: { intros [= <- <-]. split; [|done]. split; [done|naive_solver]. }
  unfold remember. intros [= <- <-]. split; [by split|]. simpl. split; [done|]. intros t Ht.
  destruct (cache_keeps_live_entries (k_hash k) (k_nonce k) ""
    (now + i64 (i64 (TransactionTimeoutSeconds (rd_config rd)) * nanoseconds)) (k_height k) now t (rd_cache rd) [])
    as [_ Hh]; [done|constructor|]. simpl in Hh. apply eq_true_iff_eq. by rewrite Hh, Z.leb_le.
Qed.

(** ** Checks in any interleaving *)

Inductive phase : Type := Started | Passed | Claimed | Returned (r : outcome replay_err unit).

(** Calls in flight advance one critical section at a time; the clean-up
    goroutine and the depth check run in between. *)
Inductive detector_step : ReplayDetectorV3 * list (check * phase) ->
                          ReplayDetectorV3 * list (check * phase) -> Prop :=
| step_call k rd ts : is_u64 (k_nonce k) -> detector_step (rd, ts) (rd, ts ++ [(k, Started)])
| step_seen i k t1 t2 r rd rd' ts :
    ts !! i = Some (k, Started) -> check_seen k t1 t2 rd = (r, rd') ->
    detector_step (rd, ts) (rd', <[i := (k, if is_ok r then Passed else Returned r)]> ts)
| step_claim i k t r rd rd' ts :
    ts !! i = Some (k, Passed) -> claim_nonce k t rd = (r, rd') ->
    detector_step (rd, ts) (rd', <[i := (k, if is_ok r then Claimed else Returned r)]> ts)
| step_remember i k t1 t2 r rd rd' ts :
    ts !! i = Some (k, Claimed) -> remember k t1 t2 rd = (r, rd') ->
    detector_step (rd, ts) (rd', <[i := (k, Returned r)]> ts)
| step_cleanup t rd ts : detector_step (rd, ts) (set_cache (cleanupExpired t (rd_cache rd)) rd, ts)
| step_depth h1 h2 r rd rd' ts :
    CheckReorgDepth h1 h2 rd = (r, rd') -> detector_step (rd, ts) (rd', ts).

Definition accepted (ph : phase) : bool :=
  match ph with Claimed => true | Returned r => is_ok r | _ => false end.

(** Accepted calls have a recorded nonce at least theirs, and are distinct. *)
Record detector_inv (chain : string) (s : ReplayDetectorV3 * list (check * phase)) : Prop := {
  inv_fit : nonces_fit s.1;
  inv_args : forall i k ph, s.2 !! i = Some (k, ph) -> is_u64 (k_nonce k);
  inv_chain : rd_chainID s.1 = chain;
  inv_passed : forall i k ph, s.2 !! i = Some (k, ph) -> ph = Passed \/ accepted ph = true -> k_chainID k = chain;
  inv_recorded : forall i k ph, s.2 !! i = Some (k, ph) -> accepted ph = true ->
    exists n, accountNonces s.1 !! k_sender k = Some n /\ k_nonce k <= n;
  inv_distinct : forall i j k k' ph ph', s.2 !! i = Some (k, ph) -> s.2 !! j = Some (k', ph') ->
    accepted ph = true -> accepted ph' = true -> i <> j -> k_sender k = k_sender k' -> k_nonce k <> k_nonce k'
}.

(** Replacing one call, under the same nonces, by one accepted no more than before. *)
Lemma detector_inv_replace chain rd rd' ts i k ph ph' :
  detector_inv chain (rd, ts) -> ts !! i = Some (k, ph) ->
  accountNonces rd' = accountNonces rd -> rd_chainID rd' = rd_chainID rd ->
  (accepted ph' = true -> accepted ph = true) ->
  (ph' = Passed -> k_chainID k = chain) ->
  detector_inv chain (rd', <[i := (k, ph')]> ts).
Proof.
  intros [Hfit Harg Hch Hps Hrec Hdis] Hi Hn Hc Hacc Hpas.
  assert (Hold : forall j k0 ph0, <[i := (k, ph')]> ts !! j = Some (k0, ph0) -> accepted ph0 = true ->
    exists ph1, ts !! j = Some (k0, ph1) /\ accepted ph1 = true).
  { intros j k0 ph0. rewrite list_lookup_insert_Some. intros [(-> & [= <- <-] & _)|[_ Hj]] Ha; eauto. }
  split; simpl in *.
  - intros a n. rewrite Hn. apply Hfit.
  - intros j k0 ph0. rewrite list_lookup_insert_Some. intros [(-> & [= <- <-] & _)|[_ Hj]]; eauto.
  - congruence.
  - intros j k0 ph0 Hj [->|Ha].
    + apply list_lookup_insert_Some in Hj as [(-> & [= <- Hp] & _)|[_ Hj]]; eauto.
    + destruct (Hold j k0 ph0 Hj Ha) as (ph1 & Hj' & Ha'). eauto.
  - intros j k0 ph0 Hj Ha. rewrite Hn. destruct (Hold j k0 ph0 Hj Ha) as (ph1 & Hj' & Ha'). eauto.
  - intros j j' k0 k1 ph0 ph1 Hj Hj' Ha Ha'.
    destruct (Hold j k0 ph0 Hj Ha) as (q0 & Hq0 & Hqa0).
    destruct (Hold j' k1 ph1 Hj' Ha') as (q1 & Hq1 & Hqa1). eauto.
Qed.

(** The claim: the new nonce is above every accepted one of the sender. *)
Lemma detector_inv_claim chain rd ts i k ph :
  detector_inv chain (rd, ts) -> ts !! i = Some (k, Passed) -> nonce_acceptable k rd -> accepted ph = true ->
  detector_inv chain (set_nonces (<[k_sender k := k_nonce k]> (accountNonces rd)) rd, <[i := (k, ph)]> ts).
Proof.
  intros [Hfit Harg Hch Hps Hrec Hdis] Hi Hna Hph. simpl in *.
  assert (Habove : forall j k0 ph0, j <> i -> <[i := (k, ph)]> ts !! j = Some (k0, ph0) ->
    accepted ph0 = true -> k_sender k0 = k_sender k -> k_nonce k0 < k_nonce k).
  { intros j k0 ph0 Hne. rewrite list_lookup_insert_ne by done. intros Hj Ha Hs.
    destruct (Hrec j k0 ph0 Hj Ha) as (n & Hn & Hle). rewrite Hs in Hn. unfold nonce_acceptable in Hna.
    rewrite Hn in Hna. lia. }
  split; simpl.
  - intros a n. simpl. rewrite lookup_insert_Some. intros [[_ <-]|[_ Ha]]; [eauto|by apply (Hfit a)].
  - intros j k0 ph0. rewrite list_lookup_insert_Some. intros [(-> & [= <- <-] & _)|[_ Hj]]; eauto.
  - done.
  - intros j k0 ph0. rewrite list_lookup_insert_Some. intros [(-> & [= <- <-] & _)|[_ Hj]]; [|by apply (Hps j)].
    intros _. by apply (Hps j k Passed); [|left].
  - intros j k0 ph0 Hj Ha. destruct (decide (k_sender k0 = k_sender k)) as [Heq|Hne].
    + rewrite Heq, lookup_insert_eq. exists (k_nonce k). split; [done|].
      destruct (decide (j = i)) as [->|Hji]; [|by apply Z.lt_le_incl, (Habove j k0 ph0)].
      rewrite list_lookup_insert_eq in Hj by (by eapply lookup_lt_Some). injection Hj as <- <-. done.
    + rewrite lookup_insert_ne by done. apply list_lookup_insert_Some in Hj as [(-> & [= <- <-] & _)|[_ Hj]]; [done|eauto].
  - intros j j' k0 k1 ph0 ph1 Hj Hj' Ha Ha' Hjj Hs.
    destruct (decide (j = i)) as [->|Hji].
    + assert (k0 = k) as ->.
      { rewrite list_lookup_insert_eq in Hj by (by eapply lookup_lt_Some). by injection Hj. }
      pose proof (Habove j' k1 ph1 ltac:(done) Hj' Ha' ltac:(done)). lia.
    + destruct (decide (j' = i)) as [->|Hji'].
      * assert (k1 = k) as ->.
        { rewrite list_lookup_insert_eq in Hj' by (by eapply lookup_lt_Some). by injection Hj'. }
        pose proof (Habove j k0 ph0 ltac:(done) Hj Ha ltac:(done)). lia.
      * rewrite list_lookup_insert_ne in Hj, Hj' by done. eauto.
Qed.

Lemma detector_step_inv chain s s' : detector_step s s' -> detector_inv chain s -> detector_inv chain s'.
Proof.
  intros Hstep Hinv. destruct Hstep as [k rd ts Hk|i k t1 t2 r rd rd' ts Hi Hr|i k t r rd rd' ts Hi Hr
    |i k t1 t2 r rd rd' ts Hi Hr|t rd ts|h1 h2 r rd rd' ts Hr].
  - destruct Hinv as [Hfit Harg Hch Hps Hrec Hdis].
    assert (Hold : forall j k0 ph0, (ts ++ [(k, Started)]) !! j = Some (k0, ph0) ->
      ph0 = Passed \/ accepted ph0 = true -> ts !! j = Some (k0, ph0)).
    { intros j k0 ph0 [Hj|[_ Hj]]%lookup_app_Some Hph; [done|].
      apply list_lookup_singleton_Some in Hj as [_ [= <- <-]]. by destruct Hph. }
    split; simpl in *; eauto.
    + intros j k0 ph0 [Hj|[_ Hj]]%lookup_app_Some; [eauto|].
      by apply list_lookup_singleton_Some in Hj as [_ [= <- <-]].
    + intros j j' k0 k1 ph0 ph1 Hj Hj' Ha Ha'. eapply (Hdis j j'); eauto.
  - destruct (check_seen_cases k t1 t2 rd) as [(Hc & _ & Hs)|(_ & e & rd1 & Hs & Hn & Hch & _)];
      rewrite Hs in Hr; injection Hr as <- <-.
    + eapply detector_inv_replace; [done..|]. intros _. by rewrite Hc, <-(inv_chain _ _ Hinv).
    + by eapply detector_inv_replace.
  - assert (Hk : is_u64 (k_nonce k)) by (by apply (inv_args _ _ Hinv i k Passed)).
    destruct (claim_nonce_cases k t rd Hk (inv_fit _ _ Hinv)) as [(Hna & Hs)|(_ & e & rd1 & Hs & Hn & Hch & _)];
      rewrite Hs in Hr; injection Hr as <- <-.
    + by apply detector_inv_claim.
    + by eapply detector_inv_replace.
  - unfold remember in Hr. injection Hr as <- <-. by eapply detector_inv_replace.
  - destruct Hinv as [Hfit Harg Hch Hps Hrec Hdis]. by split.
  - assert (Hsame : accountNonces rd' = accountNonces rd /\ rd_chainID rd' = rd_chainID rd).
    { revert Hr. unfold CheckReorgDepth. repeat case_if; try (by intros [= <- <-]).
      destruct (SafeSub h2 h1); [case_if|..]; by intros [= <- <-]. }
    destruct Hsame as [Hn Hc]. destruct Hinv as [Hfit Harg Hch Hps Hrec Hdis]. simpl in *.
    split; simpl; rewrite ?Hn, ?Hc; try done. intros a n. rewrite Hn. apply Hfit.
Qed.

(** However concurrent checks interleave with each other, with the clean-up
    of the cache and with depth checks, and whatever the clock does, two
    accepted calls never share a sender and a nonce, every accepted call carries
    the detector's chain id, and the nonce recorded for its sender is at least
    its own. In particular no transaction is accepted twice, even after it has
    expired from the cache. *)
Theorem no_nonce_accepted_twice chain config metrics rd ts :
  rtc detector_step (NewReplayDetectorV3 chain config metrics, []) (rd, ts) ->
  forall i k ph, ts !! i = Some (k, ph) -> accepted ph = true ->
  k_chainID k = chain /\
  (exists n, Detector_GetNonce (k_from k) rd = Some n /\ k_nonce k <= n) /\
  forall j k' ph', ts !! j = Some (k', ph') -> accepted ph' = true -> i <> j ->
    ~ (k_sender k = k_sender k' /\ k_nonce k = k_nonce k').
Proof.
  intros Hr. assert (Hinv : detector_inv chain (rd, ts)).
  { remember (NewReplayDetectorV3 chain config metrics, []) as s eqn:Hs in Hr.
    assert (H0 : detector_inv chain s).
    { subst s. by split. }
    clear Hs. induction Hr as [s|s1 s2 s3 Hstep _ IH]; [done|]. eauto using detector_step_inv. }
  intros i k ph Hi Ha. destruct Hinv as [_ _ _ Hps Hrec Hdis]. simpl in *.
  split_and!; [by eapply Hps; [|right]|by eapply Hrec|].
  intros j k' ph' Hj Ha' Hij [Hs Hn]. by eapply (Hdis i j).
Qed.

(** ** Concrete runs *)

Section Examples.
Definition ex_detector : ReplayDetectorV3 := NewReplayDetectorV3 "thrylos" None None.
Definition ex_check : check := MkCheck "h1" "thrylos" " 0xAB " 7 12.
Definition ex_fields : ReplayProtection := MkReplayProtection "thrylos" "h" 95 0 1000 "0".

Lemma replay_fields_exact_witness :
  ReplayProtection_Validate ex_fields DefaultReplayProtectionConfig 100 1500 = Ok tt /\
  fields_acceptable ex_fields DefaultReplayProtectionConfig 100 1500.
Proof.
  assert (H : ReplayProtection_Validate ex_fields DefaultReplayProtectionConfig 100 1500 = Ok tt)
    by reflexivity.
  split; [done|]. apply (replay_fields_exact ex_fields DefaultReplayProtectionConfig 100 1500);
    [by vm_compute..|exact H].
Defined.

(** A cache for one transaction holds two that are live. *)
Lemma cache_keeps_live_entries_witness :
  Cache_Has "a" 50 (Cache_Add "b" 2 "" 90 1 20 (Cache_Add "a" 1 "" 60 1 10 (NewReplayCache 1))) = true /\
  Cache_Size (Cache_Add "b" 2 "" 90 1 20 (Cache_Add "a" 1 "" 60 1 10 (NewReplayCache 1))) = 2.
Proof.
  split; [|reflexivity].
  apply (cache_keeps_live_entries "a" 1 "" 60 1 10 50 (NewReplayCache 1) [OpAdd "b" 2 "" 90 1 20]);
    [done| |done]. apply List.Forall_cons; [by vm_compute|apply List.Forall_nil].
Defined.

Lemma replay_check_exact_witness :
  fst (CheckReplayV3 ex_check 5 ex_detector) = Ok tt /\
  Detector_GetNonce "0xab" (snd (CheckReplayV3 ex_check 5 ex_detector)) = Some 7 /\
  Cache_Has "h1" 6 (rd_cache (snd (CheckReplayV3 ex_check 5 ex_detector))) = true.
Proof.
  split; [by vm_compute|]. split; [by vm_compute|].
  destruct (replay_check_exact ex_check 5 ex_detector (Ok tt) (snd (CheckReplayV3 ex_check 5 ex_detector)))
    as [_ [_ Hc]]; [by vm_compute|done|by vm_compute|].
  rewrite Hc by done. by vm_compute.
Defined.

(** Two calls with the same transaction pass the cache test before either claims
    the nonce; only the first claim succeeds. *)
Definition ex_race : ReplayDetectorV3 * list (check * phase) :=
  let rd1 := snd (claim_nonce ex_check 5 ex_detector) in
  let r2 := claim_nonce ex_check 6 rd1 in
  (snd r2, [(ex_check, Claimed); (ex_check, Returned (fst r2))]).

Lemma ex_race_reachable : rtc detector_step (ex_detector, []) ex_race.
Proof.
  eapply rtc_l; [apply (step_call ex_check); by vm_compute|].
  eapply rtc_l; [apply (step_call ex_check); by vm_compute|].
  eapply rtc_l; [eapply (step_seen 0%nat _ 3 3); reflexivity|].
  eapply rtc_l; [eapply (step_seen 1%nat _ 4 4); reflexivity|].
  eapply rtc_l; [eapply (step_claim 0%nat _ 5); reflexivity|].
  eapply rtc_l; [eapply (step_claim 1%nat _ 6); reflexivity|].
  apply rtc_refl.
Defined.

Lemma no_nonce_accepted_twice_witness :
  k_chainID ex_check = "thrylos" /\
  exists n, Detector_GetNonce (k_from ex_check) (fst ex_race) = Some n /\ k_nonce ex_check <= n.
Proof.
  destruct (no_nonce_accepted_twice "thrylos" None None (fst ex_race) (snd ex_race) ex_race_reachable
    0 ex_check Claimed eq_refl eq_refl) as (Hc & Hn & _). exact (conj Hc Hn).
Defined.
End Examples.
