(* ===== verification/ShardedLock.v ===== *)
(** * The sharded account lock (src/core/state/sharded_lock.go)

    An array of reader-writer mutexes indexed by a hash of the account address.
    A call on a mutex is one atomic step that may have to wait; a multi-key call
    is the list of its mutex calls, and goroutines interleave them freely.
    Unlocking a mutex that is not held is the run-time's fatal error. *)

From stdpp Require Import base tactics numbers list gmap strings sorting relations.
From Stdlib Require Import ZArith Lia Strings.Byte Strings.Ascii.
From S2P Require Import Prelude Uint256 Address.
Open Scope Z_scope.
Open Scope list_scope.

Definition ShardCount : Z := 64.

(** ** Shards *)

(** [hash/fnv], 32 bits, variant 1a. *)
Definition fnv_offset32 : Z := 2166136261.
Definition fnv_prime32 : Z := 16777619.
Definition Sum32 (key : string) : Z :=
  foldl (fun h b => u32 (Z.lxor h (Z_of_byte b) * fnv_prime32)) fnv_offset32 (bytes_of_string key).

Definition getShardIndex (key : string) : nat := Z.to_nat (Sum32 key mod ShardCount).

(** The first occurrence of each key. *)
Fixpoint dedup_loop (seen : gset string) (keys : list string) : list string :=
  match keys with
  | [] => []
  | key :: keys' =>
      if bool_decide (key ∈ seen) then dedup_loop seen keys'
      else key :: dedup_loop ({[key]} ∪ seen) keys'
  end.
Definition deduplicateKeys (keys : list string) : list string :=
  if (length keys <=? 1)%nat then keys else dedup_loop ∅ keys.

Fixpoint shard_loop (seen : gset nat) (keys : list string) : list nat :=
  match keys with
  | [] => []
  | key :: keys' =>
      let idx := getShardIndex key in
      if bool_decide (idx ∈ seen) then shard_loop seen keys'
      else idx :: shard_loop ({[idx]} ∪ seen) keys'
  end.
Definition uniqueSortedShardIndexes (keys : list string) : list nat :=
  merge_sort Nat.le (shard_loop ∅ (deduplicateKeys keys)).

Definition by_hash (a b : string) : Prop := Sum32 a <= Sum32 b.
#[global] Instance by_hash_dec : RelDecision by_hash.
Proof. intros a b. unfold by_hash. apply _. Defined.
Definition sortKeysByHash (keys : list string) : list string :=
  if (length keys <=? 1)%nat then keys else merge_sort by_hash keys.

(** ** Mutexes *)

Inductive mode : Type := W | R.

(** A [sync.RWMutex]: held by a writer, or by some readers. *)
Record RWMutex : Type := MkRW { writer : bool; readers : nat }.
Definition unlocked : RWMutex := MkRW false 0.

Inductive instr : Type := Acq (m : mode) (idx : nat) | Rel (m : mode) (idx : nat).

(** [None]: the call has to wait. *)
Definition mutex_call (acquire : bool) (m : mode) (l : RWMutex) : option (outcome unit RWMutex) :=
  match acquire, m with
  | true, W => if writer l || negb (readers l =? 0)%nat then None else Some (Ok (MkRW true 0))
  | true, R => if writer l then None else Some (Ok (MkRW false (S (readers l))))
  | false, W => if writer l then Some (Ok (MkRW false (readers l))) else Some Panic
  | false, R => match readers l with O => Some Panic | S n => Some (Ok (MkRW (writer l) n)) end
  end.

Definition exec_instr (ins : instr) (locks : list RWMutex) : option (outcome unit (list RWMutex)) :=
  let '(acquire, m, idx) :=
    match ins with Acq m idx => (true, m, idx) | Rel m idx => (false, m, idx) end in
  match locks !! idx with
  | None => Some Panic
  | Some l => (fun o => l' ← o; Ok (<[idx := l']> locks)) <$> mutex_call acquire m l
  end.

Definition Lock (key : string) : list instr := [Acq W (getShardIndex key)].
Definition Unlock (key : string) : list instr := [Rel W (getShardIndex key)].
Definition RLock (key : string) : list instr := [Acq R (getShardIndex key)].
Definition RUnlock (key : string) : list instr := [Rel R (getShardIndex key)].
Definition LockMultiple (keys : list string) : list instr := Acq W <$> uniqueSortedShardIndexes keys.
Definition UnlockMultiple (keys : list string) : list instr := Rel W <$> rev (uniqueSortedShardIndexes keys).
Definition RLockMultiple (keys : list string) : list instr := Acq R <$> uniqueSortedShardIndexes keys.
Definition RUnlockMultiple (keys : list string) : list instr := Rel R <$> rev (uniqueSortedShardIndexes keys).

Definition NewShardedMutex : list RWMutex := replicate (Z.to_nat ShardCount) unlocked.

(** ** Versions and batches *)

Notation versions := (list Z) (only parsing).
Definition no_versions : versions := replicate (Z.to_nat ShardCount) 0.

Definition GetVersion (key : string) (vs : versions) : Z := nth (getShardIndex key) vs 0.
Definition IncrementVersion (key : string) (vs : versions) : Z * versions :=
  let v := u64 (GetVersion key vs + 1) in (v, <[getShardIndex key := v]> vs).
Definition CompareAndSwapVersion (key : string) (oldVersion : Z) (vs : versions) : bool * versions :=
  if GetVersion key vs =? oldVersion then (true, <[getShardIndex key := u64 (oldVersion + 1)]> vs)
  else (false, vs).

Record AtomicBatch : Type := MkBatch {
  b_keys : list string;
  b_locked : bool;
  b_versions : gmap string Z
}.

Definition BeginBatch (keys : list string) (vs : versions) : AtomicBatch :=
  MkBatch keys false (list_to_map ((fun k => (k, GetVersion k vs)) <$> keys)).

(** The batch afterwards and the mutex calls made. *)
Definition Batch_Lock (b : AtomicBatch) : AtomicBatch * list instr :=
  if b_locked b then (b, []) else (MkBatch (b_keys b) true (b_versions b), LockMultiple (b_keys b)).
Definition Batch_Unlock (b : AtomicBatch) : AtomicBatch * list instr :=
  if b_locked b then (MkBatch (b_keys b) false (b_versions b), UnlockMultiple (b_keys b)) else (b, []).
Definition Rollback (b : AtomicBatch) : AtomicBatch * list instr := Batch_Unlock b.

Definition bump_versions (keys : list string) (vs : versions) : versions :=
  foldl (fun vs key => snd (IncrementVersion key vs)) vs keys.
Definition Commit (b : AtomicBatch) (vs : versions) : AtomicBatch * list instr * versions :=
  if b_locked b then (Batch_Unlock b, bump_versions (b_keys b) vs) else (b, [], vs).

Definition ValidateVersions (b : AtomicBatch) (vs : versions) : bool :=
  forallb (fun kv => GetVersion kv.1 vs =? kv.2) (map_to_list (b_versions b)).

(** ** Goroutines *)

(** A critical section: one multi-key lock, the work, the matching unlock. *)
Record section : Type := MkSection { s_mode : mode; s_keys : list string }.
Definition enter (s : section) : list instr :=
  match s_mode s with W => LockMultiple (s_keys s) | R => RLockMultiple (s_keys s) end.
Definition leave (s : section) : list instr :=
  match s_mode s with W => UnlockMultiple (s_keys s) | R => RUnlockMultiple (s_keys s) end.
Definition client_code (ss : list section) : list instr := ss ≫= (fun s => enter s ++ leave s).

(** The locks, and what each goroutine still has to do. *)
Notation config := (list RWMutex * list (list instr))%type (only parsing).

Inductive lock_step : config -> config -> Prop :=
| lock_step_ok i ins rest locks locks' ts :
    ts !! i = Some (ins :: rest) -> exec_instr ins locks = Some (Ok locks') ->
    lock_step (locks, ts) (locks', <[i := rest]> ts).

Definition fatal (c : config) : Prop :=
  exists i ins rest, c.2 !! i = Some (ins :: rest) /\ exec_instr ins c.1 = Some Panic.

(** A step the run-time's writer preference allows: a reader also waits for a
    writer that waits. *)
Definition fair_step (c : config) : Prop :=
  exists i ins rest locks', c.2 !! i = Some (ins :: rest) /\ exec_instr ins c.1 = Some (Ok locks') /\
    forall idx j rest', ins = Acq R idx -> c.2 !! j = Some (Acq W idx :: rest') -> False.

Definition remaining (ts : list (list instr)) : nat := sum_list (length <$> ts).

(** ** The shards of a set of keys *)

Lemma getShardIndex_bound key : (getShardIndex key < length NewShardedMutex)%nat.
Proof.
  unfold NewShardedMutex, getShardIndex. rewrite length_replicate.
  pose proof (Z.mod_pos_bound (Sum32 key) ShardCount ltac:(done)). unfold ShardCount in *. lia.
Qed.

Lemma dedup_loop_elem keys : forall seen key,
  key ∈ dedup_loop seen keys <-> key ∈ keys /\ key ∉ seen.
Proof.
  induction keys as [|k keys IH]; intros seen key; simpl; [set_solver|].
  case_bool_decide; [|rewrite elem_of_cons]; rewrite IH; destruct (decide (key = k)); set_solver.
Qed.

Lemma deduplicateKeys_elem keys key : key ∈ deduplicateKeys keys <-> key ∈ keys.
Proof. unfold deduplicateKeys. case_if; [done|]. rewrite dedup_loop_elem. set_solver. Qed.

Lemma shard_loop_elem keys : forall seen idx,
  idx ∈ shard_loop seen keys <-> (exists key, key ∈ keys /\ getShardIndex key = idx) /\ idx ∉ seen.
Proof.
  induction keys as [|k keys IH]; intros seen idx; cbn [shard_loop]; [set_solver|].
  case_bool_decide; [|rewrite elem_of_cons]; rewrite IH; setoid_rewrite elem_of_cons;
    destruct (decide (idx = getShardIndex k)); set_solver.
Qed.

Lemma shard_loop_NoDup keys : forall seen, NoDup (shard_loop seen keys).
Proof.
  induction keys as [|k keys IH]; intros seen; cbn [shard_loop]; [constructor|].
  case_bool_decide; [done|]. constructor; [|done]. rewrite shard_loop_elem. set_solver.
Qed.

Lemma uniqueSortedShardIndexes_elem keys idx :
  idx ∈ uniqueSortedShardIndexes keys <-> exists key, key ∈ keys /\ getShardIndex key = idx.
Proof.
  unfold uniqueSortedShardIndexes. rewrite merge_sort_Permutation, shard_loop_elem.
  setoid_rewrite deduplicateKeys_elem. set_solver.
Qed.

Lemma strictly_sorted (l : list nat) : StronglySorted Nat.le l -> NoDup l -> StronglySorted lt l.
Proof.
  induction 1 as [|x l Hs IH Hall]; intros Hnd; [constructor|].
  apply NoDup_cons in Hnd as [Hni Hnd]. constructor; [by apply IH|].
  rewrite Forall_forall in Hall |- *. intros y Hy. specialize (Hall y Hy).
  assert (x <> y) by congruence. unfold Nat.le in *. lia.
Qed.

Lemma uniqueSortedShardIndexes_sorted keys : StronglySorted lt (uniqueSortedShardIndexes keys).
Proof.
  apply strictly_sorted; unfold uniqueSortedShardIndexes.
  - apply StronglySorted_merge_sort; [|apply _]. intros a b. unfold Nat.le. lia.
  - rewrite merge_sort_Permutation. apply shard_loop_NoDup.
Qed.

(** ** What a goroutine holds *)

(** [held] was locked in order, [pending] comes next, then all is released in
    the reverse order, then come further sections. *)
Definition shape (m : mode) (held : list nat) (todo : list instr) : Prop :=
  exists pending rest, StronglySorted lt (held ++ pending) /\
    (forall idx, idx ∈ held ++ pending -> (idx < length NewShardedMutex)%nat) /\
    todo = (Acq m <$> pending) ++ (Rel m <$> rev (held ++ pending)) ++ client_code rest.

Lemma enter_leave s :
  enter s ++ leave s =
  (Acq (s_mode s) <$> uniqueSortedShardIndexes (s_keys s)) ++
  (Rel (s_mode s) <$> rev (uniqueSortedShardIndexes (s_keys s))).
Proof. unfold enter, leave. by destruct (s_mode s). Qed.

Lemma shape_start ss m : shape m [] (client_code ss).
Proof. exists [], ss. simpl. split_and!; [constructor|set_solver|done]. Qed.

(** A goroutine that holds nothing is finished or about to lock the first shard
    of a section. *)
Lemma shape_next ss :
  client_code ss = [] \/
  exists m idx pending rest, StronglySorted lt (idx :: pending) /\
    (forall j, j ∈ idx :: pending -> (j < length NewShardedMutex)%nat) /\
    client_code ss = (Acq m <$> idx :: pending) ++ (Rel m <$> rev (idx :: pending)) ++ client_code rest.
Proof.
  induction ss as [|s ss IH]; [by left|]. unfold client_code. simpl. rewrite enter_leave.
  pose proof (uniqueSortedShardIndexes_sorted (s_keys s)) as Hs.
  assert (Hb : forall j, j ∈ uniqueSortedShardIndexes (s_keys s) -> (j < length NewShardedMutex)%nat).
  { intros j (key & _ & <-)%uniqueSortedShardIndexes_elem. apply getShardIndex_bound. }
  destruct (uniqueSortedShardIndexes (s_keys s)) as [|idx pending]; [exact IH|].
  right. exists (s_mode s), idx, pending, ss. rewrite <-app_assoc. done.
Qed.

Inductive next_move (m : mode) (held : list nat) (todo : list instr) : Prop :=
| move_done : held = [] -> todo = [] -> next_move m held todo
| move_acq m' idx todo' : (held = [] \/ m' = m) -> todo = Acq m' idx :: todo' ->
    (forall j, j ∈ held -> (j < idx)%nat) -> (idx < length NewShardedMutex)%nat ->
    shape m' (held ++ [idx]) todo' -> next_move m held todo
| move_rel held' idx todo' : held = held' ++ [idx] -> todo = Rel m idx :: todo' ->
    (forall j, j ∈ held' -> (j < idx)%nat) ->
    (idx < length NewShardedMutex)%nat -> shape m held' todo' -> next_move m held todo.

Lemma sorted_below (l1 l2 : list nat) x :
  StronglySorted lt (l1 ++ x :: l2) -> forall j, j ∈ l1 -> (j < x)%nat.
Proof.
  induction l1 as [|y l1 IH]; intros Hs j Hj; [set_solver|]. simpl in Hs.
  apply StronglySorted_inv in Hs as [Hs Hall]. rewrite Forall_forall in Hall.
  apply elem_of_cons in Hj as [->|Hj]; [apply Hall; set_solver|by apply IH].
Qed.

Lemma shape_move m held todo : shape m held todo -> next_move m held todo.
Proof.
  intros (pending & rest & Hs & Hb & ->). destruct pending as [|idx pending].
  - rewrite app_nil_r in *. simpl. destruct held as [|x held _] using rev_ind.
    + simpl. destruct (shape_next rest) as [Hn|(m' & idx & pending & rest' & Hs' & Hb' & Hn)];
        rewrite Hn; [by apply move_done|]. simpl.
      eapply (move_acq _ _ _ m' idx); [by left|done|set_solver|apply Hb'; set_solver|].
      exists pending, rest'. simpl. split_and!; [done..|]. done.
    + rewrite rev_app_distr. simpl. eapply (move_rel _ _ _ held x); [done|done|by eapply sorted_below|apply Hb; set_solver|].
      exists [], rest. rewrite app_nil_r. simpl. split_and!; [|intros; apply Hb; set_solver|done].
      by apply StronglySorted_app_1_l in Hs.
  - simpl. eapply (move_acq _ _ _ m idx); [by right|done| |apply Hb; set_solver|].
    + by eapply sorted_below.
    + exists pending, rest. rewrite <-app_assoc. simpl. split_and!; [done..|]. done.
Qed.

(** ** Locks and holders agree *)

#[global] Instance mode_eq_dec : EqDecision mode.
Proof. solve_decision. Defined.

Definition holds (m : mode) (idx : nat) (h : mode * list nat) : Prop := h.1 = m /\ idx ∈ h.2.
Definition holders (m : mode) (idx : nat) (hs : list (mode * list nat)) : nat :=
  length (filter (holds m idx) hs).
Definition one (P : Prop) `{Decision P} : nat := if decide P then 1 else 0.

Lemma holders_insert m idx hs i h h' :
  hs !! i = Some h ->
  (holders m idx (<[i := h']> hs) + one (holds m idx h) = holders m idx hs + one (holds m idx h'))%nat.
Proof.
  intros Hi. unfold holders, one. rewrite insert_take_drop by (by eapply lookup_lt_Some).
  rewrite <-(take_drop_middle hs i h) at 3 by done.
  rewrite !filter_app, !filter_cons, !length_app. repeat case_decide; simpl; lia.
Qed.

Lemma holders_pos m idx hs i h : hs !! i = Some h -> holds m idx h -> (0 < holders m idx hs)%nat.
Proof.
  intros Hi Hh. unfold holders. destruct (filter (holds m idx) hs) eqn:Hf; [|simpl; lia].
  assert (Hin : h ∈ filter (holds m idx) hs) by (apply list_elem_of_filter; split; [done|by eapply list_elem_of_lookup_2]).
  rewrite Hf in Hin. set_solver.
Qed.

Lemma holders_zero m idx hs : (forall h, h ∈ hs -> ~ holds m idx h) -> holders m idx hs = 0%nat.
Proof.
  intros Hno. unfold holders. destruct (filter (holds m idx) hs) as [|h l] eqn:Hf; [done|].
  assert (Hin : h ∈ filter (holds m idx) hs) by (rewrite Hf; set_solver).
  apply list_elem_of_filter in Hin as [Hh Hin]. by destruct (Hno h).
Qed.

(** One mutex and the goroutines that hold it. *)
Definition agrees (idx : nat) (hs : list (mode * list nat)) (l : RWMutex) : Prop :=
  holders W idx hs = (if writer l then 1 else 0)%nat /\ holders R idx hs = readers l /\
  (writer l = true -> readers l = 0%nat).

Definition lock_inv_with (hs : list (mode * list nat)) (c : list RWMutex * list (list instr)) : Prop :=
  Forall2 (fun h t => shape h.1 h.2 t) hs c.2 /\ length c.1 = length NewShardedMutex /\
  forall idx l, c.1 !! idx = Some l -> agrees idx hs l.
Definition lock_inv (c : list RWMutex * list (list instr)) : Prop := exists hs, lock_inv_with hs c.

Lemma one_eq (P Q : Prop) `{Decision P, Decision Q} : (P <-> Q) -> one P = one Q.
Proof. intros HPQ. unfold one. repeat case_decide; naive_solver. Qed.

(** Replacing one holder, when only [idx] changes hands. *)
Lemma agrees_other j hs i h h' l :
  hs !! i = Some h -> (forall m, holds m j h <-> holds m j h') ->
  agrees j hs l -> agrees j (<[i := h']> hs) l.
Proof.
  intros Hi Hsame (HW & HR & Hx). pose proof (holders_insert W j hs i h h' Hi) as H1.
  pose proof (holders_insert R j hs i h h' Hi) as H2.
  rewrite (one_eq _ _ (Hsame W)) in H1. rewrite (one_eq _ _ (Hsame R)) in H2.
  split_and!; [lia..|done].
Qed.

Lemma one_true (P : Prop) `{Decision P} : P -> one P = 1%nat.
Proof. intros HP. unfold one. by rewrite decide_True. Qed.
Lemma one_false (P : Prop) `{Decision P} : ~ P -> one P = 0%nat.
Proof. intros HP. unfold one. by rewrite decide_False. Qed.

(** The mutex that changes hands. *)
Lemma agrees_acquire idx hs i h m held l l' :
  hs !! i = Some h -> idx ∉ h.2 -> idx ∈ held -> mutex_call true m l = Some (Ok l') ->
  agrees idx hs l -> agrees idx (<[i := (m, held)]> hs) l'.
Proof.
  intros Hi Hno Hin Hc (HW & HR & Hx).
  pose proof (holders_insert W idx hs i h (m, held) Hi) as H1.
  pose proof (holders_insert R idx hs i h (m, held) Hi) as H2.
  rewrite (one_false (holds _ _ h)) in H1 by (by intros []).
  rewrite (one_false (holds _ _ h)) in H2 by (by intros []). revert Hc. unfold mutex_call, agrees.
  destruct m; destruct (writer l) eqn:Hw; simpl; try done.
  - destruct (Nat.eqb_spec (readers l) 0); [|done]. intros [= <-]. simpl.
    rewrite one_true in H1 by done. rewrite one_false in H2 by (by intros []). split_and!; [lia..|done].
  - intros [= <-]. simpl. rewrite one_false in H1 by (by intros []). rewrite one_true in H2 by done.
    split_and!; [lia..|done].
Qed.

Lemma agrees_release idx hs i m held held' l :
  hs !! i = Some (m, held) -> idx ∈ held -> idx ∉ held' -> agrees idx hs l ->
  exists l', mutex_call false m l = Some (Ok l') /\ agrees idx (<[i := (m, held')]> hs) l'.
Proof.
  intros Hi Hin Hno (HW & HR & Hx).
  pose proof (holders_pos m idx hs i (m, held) Hi ltac:(done)) as Hpos.
  pose proof (holders_insert W idx hs i (m, held) (m, held') Hi) as H1.
  pose proof (holders_insert R idx hs i (m, held) (m, held') Hi) as H2.
  rewrite (one_false (holds _ _ (m, held'))) in H1 by (by intros []).
  rewrite (one_false (holds _ _ (m, held'))) in H2 by (by intros []). unfold mutex_call, agrees.
  destruct m.
  - destruct (writer l); [|lia]. eexists. split; [done|]. simpl.
    rewrite one_true in H1 by done. rewrite one_false in H2 by (by intros []).
    rewrite (Hx eq_refl) in *. split_and!; [lia..|done].
  - destruct (readers l) as [|n] eqn:Hr; [lia|]. eexists. split; [done|]. simpl.
    rewrite one_false in H1 by (by intros []). rewrite one_true in H2 by done.
    split_and!; [lia..|]. intros Hw. by specialize (Hx Hw).
Qed.

(** ** Every step keeps them in agreement *)

Lemma holds_acquire m m' held idx j k :
  held = [] \/ m' = m -> j <> idx -> holds k j (m, held) <-> holds k j (m', held ++ [idx]).
Proof. unfold holds. simpl. intros [->| ->] Hne; set_solver. Qed.

Lemma inv_update hs locks ts i h h' idx l' todo' :
  lock_inv_with hs (locks, ts) -> hs !! i = Some h ->
  (forall j k, j <> idx -> holds k j h <-> holds k j h') -> shape h'.1 h'.2 todo' ->
  agrees idx (<[i := h']> hs) l' ->
  lock_inv_with (<[i := h']> hs) (<[idx := l']> locks, <[i := todo']> ts).
Proof.
  intros (Hsh & Hlen & Hag) Hi Hsame Hs' Hl'. split_and!; simpl.
  - by apply Forall2_insert.
  - by rewrite length_insert.
  - intros j l. rewrite list_lookup_insert_Some. intros [(-> & <- & _)|[Hne Hj]]; [done|].
    eapply agrees_other; [done| |by apply Hag]. intros k. apply Hsame. congruence.
Qed.

(** What a goroutine about to move does to the invariant, and when it waits. *)
Lemma inv_move hs locks ts i h ins rest :
  lock_inv_with hs (locks, ts) -> hs !! i = Some h -> ts !! i = Some (ins :: rest) ->
  match exec_instr ins locks with
  | Some (Ok locks') => lock_inv (locks', <[i := rest]> ts)
  | Some _ => False
  | None => exists m idx, ins = Acq m idx /\ (forall j, j ∈ h.2 -> (j < idx)%nat) /\
      exists h', h' ∈ hs /\ idx ∈ h'.2
  end.
Proof.
  intros Hinv Hi Ht. pose proof Hinv as (Hsh & Hlen & Hag). simpl in *.
  assert (Hshape : shape h.1 h.2 (ins :: rest)) by (by eapply Forall2_lookup_lr in Hsh).
  destruct h as [m held]. destruct (shape_move _ _ _ Hshape) as [_ ?|m' idx todo' Hm Heq Hlt Hb Hs'
    |held' idx todo' Hh Heq Hlt Hb Hs']; [done|..]; injection Heq as -> ->; simpl in *.
  - destruct (lookup_lt_is_Some_2 locks idx) as [l Hl]; [lia|]. unfold exec_instr. rewrite Hl.
    destruct (mutex_call true m' l) as [o|] eqn:Hc; simpl.
    + assert (Ho : exists l', o = Ok l').
      { revert Hc. unfold mutex_call. destruct m'; case_if; try done; intros [= <-]; eauto. }
      destruct Ho as [l' ->]. simpl. exists (<[i := (m', held ++ [idx])]> hs).
      eapply inv_update; [done..| | |].
      * intros j k Hne. by apply holds_acquire.
      * done.
      * eapply agrees_acquire; [done| | |done|by apply Hag]; [|set_solver].
        intros Hin. specialize (Hlt _ Hin). lia.
    + eexists _, _. split_and!; [done..|]. destruct (Hag idx l Hl) as (HW & HR & _).
      destruct (decide (Exists (fun h' => idx ∈ h'.2) hs)) as [Hex%Exists_exists|Hno]; [done|]. exfalso.
      rewrite Exists_exists in Hno.
      rewrite holders_zero in HW, HR by (intros h' Hin [_ Hx]; naive_solver).
      revert Hc. unfold mutex_call. destruct (writer l); [done|]. rewrite <-HR. simpl. by destruct m'.
  - destruct (lookup_lt_is_Some_2 locks idx) as [l Hl]; [lia|]. unfold exec_instr. rewrite Hl. subst held.
    destruct (agrees_release idx hs i m (held' ++ [idx]) held' l) as (l' & Hc & Hl'); [done|set_solver| |by apply Hag|].
    { intros Hin. specialize (Hlt _ Hin). lia. }
    rewrite Hc. simpl. exists (<[i := (m, held')]> hs). eapply inv_update; [done..| |done|done].
    intros j k Hne. unfold holds. simpl. set_solver.
Qed.

Lemma lock_step_inv c c' : lock_step c c' -> lock_inv c -> lock_inv c'.
Proof.
  intros [i ins rest locks locks' ts Ht He] [hs Hinv].
  destruct (Forall2_lookup_r _ _ _ _ _ (proj1 Hinv) Ht) as (h & Hi & _).
  pose proof (inv_move hs locks ts i h ins rest Hinv Hi Ht) as Hm. by rewrite He in Hm.
Qed.

Lemma initial_inv progs : lock_inv (NewShardedMutex, client_code <$> progs).
Proof.
  exists ((fun _ => (W, [])) <$> progs). split_and!; [|done|].
  - apply Forall2_fmap, Forall_Forall2_diag, Forall_true. intros ss. apply shape_start.
  - intros idx l [-> _]%lookup_replicate. unfold agrees. rewrite !holders_zero; [done|..];
      intros h (ss & -> & _)%list_elem_of_fmap [_ Hin]; set_solver.
Qed.

(** ** Somebody can always move *)

Lemma exists_max (l : list nat) : l = [] \/ exists x, x ∈ l /\ forall y, y ∈ l -> (y <= x)%nat.
Proof.
  induction l as [|a l [->|(x & Hx & Hmax)]]; [by left|right; exists a; set_solver|right].
  destruct (decide (a <= x)%nat); [exists x|exists a]; (split; [set_solver|]);
    intros y [->|Hy]%elem_of_cons; try lia; specialize (Hmax y Hy); lia.
Qed.

#[global] Instance instr_eq_dec : EqDecision instr.
Proof. solve_decision. Defined.

Definition outranked (ins : instr) (t : list instr) : bool :=
  match ins, t with Acq R idx, Acq W j :: _ => bool_decide (idx = j) | _, _ => false end.

Lemma outranked_spec ins t :
  outranked ins t = true <-> exists idx rest', ins = Acq R idx /\ t = Acq W idx :: rest'.
Proof.
  unfold outranked. destruct ins as [[] idx|], t as [|[[] j|] t]; try naive_solver.
  rewrite bool_decide_eq_true. naive_solver.
Qed.

(** A goroutine that wants a shard nobody holds, or that releases, can move,
    and if it is a reader that must let a writer pass, the writer can. *)
Lemma can_move hs locks ts i ins rest :
  lock_inv_with hs (locks, ts) -> ts !! i = Some (ins :: rest) ->
  (forall m idx h', ins = Acq m idx -> h' ∈ hs -> idx ∉ h'.2) -> fair_step (locks, ts).
Proof.
  intros Hinv Ht Hfree.
  assert (Hgo : forall j ins' rest', ts !! j = Some (ins' :: rest') ->
    (forall m idx h', ins' = Acq m idx -> h' ∈ hs -> idx ∉ h'.2) ->
    exists locks', exec_instr ins' locks = Some (Ok locks')).
  { intros j ins' rest' Hj Hf. destruct (Forall2_lookup_r _ _ _ _ _ (proj1 Hinv) Hj) as (h & Hi & _).
    pose proof (inv_move hs locks ts j h ins' rest' Hinv Hi Hj) as Hm.
    destruct (exec_instr ins' locks) as [[locks'| | |]|]; try done; [eauto|].
    destruct Hm as (m & idx & -> & _ & h' & Hin & Hx). by destruct (Hf m idx h'). }
  destruct (decide (Exists (fun t => outranked ins t = true) ts)) as [Hw|Hw].
  - apply Exists_exists in Hw as (t & (j & Hj)%list_elem_of_lookup & (idx & rest' & -> & ->)%outranked_spec).
    destruct (Hgo j _ _ Hj) as [locks' He]; [intros m ? h' [= <- <-]; by apply (Hfree R)|].
    exists j, (Acq W idx), rest', locks'. split_and!; [done..|]. by intros ? ? ? [=].
  - destruct (Hgo i ins rest Ht Hfree) as [locks' He]. exists i, ins, rest, locks'. split_and!; [done..|].
    intros idx j rest' -> Hj. apply Hw, Exists_exists. eexists. split; [by eapply list_elem_of_lookup_2|].
    apply outranked_spec. eauto.
Qed.

Lemma somebody_moves c : lock_inv c -> Forall (fun t => t = []) c.2 \/ fair_step c.
Proof.
  destruct c as [locks ts]. intros [hs Hinv]. pose proof Hinv as (Hsh & _ & _). simpl in *.
  destruct (exists_max (hs ≫= snd)) as [Hnone|(x & (h & Hxh & Hh)%list_elem_of_bind & Hmax)].
  - destruct (decide (Forall (fun t => t = []) ts)) as [|Hnd]; [by left|right].
    apply not_Forall_Exists in Hnd; [|apply _]. apply Exists_exists in Hnd as (t & (i & Hi)%list_elem_of_lookup & Hne).
    simpl in Hne. destruct t as [|ins rest]; [done|]. eapply can_move; [done..|].
    intros m idx h' _ Hin Hx. assert (Hbad : idx ∈ hs ≫= snd) by (apply list_elem_of_bind; eauto).
    rewrite Hnone in Hbad. set_solver.
  - right. apply list_elem_of_lookup in Hh as [i Hi].
    destruct (Forall2_lookup_l _ _ _ _ _ Hsh Hi) as (t & Ht & Hs).
    destruct (shape_move _ _ _ Hs) as [Hnil _|m' idx t' _ -> Hlt _ _|held' idx t' _ -> _ _ _].
    + rewrite Hnil in Hxh. set_solver.
    + eapply can_move; [done..|]. intros m k h' [= <- <-] Hin Hx. specialize (Hlt x Hxh).
      assert (Hle : (idx <= x)%nat) by (apply Hmax, list_elem_of_bind; eauto). lia.
    + eapply can_move; [done..|]. by intros ? ? ? [=].
Qed.

Lemma remaining_step ts i ins rest :
  ts !! i = Some (ins :: rest) -> S (remaining (<[i := rest]> ts)) = remaining ts.
Proof.
  intros Hi. unfold remaining. rewrite insert_take_drop by (by eapply lookup_lt_Some).
  rewrite <-(take_drop_middle ts i _ Hi) at 3. rewrite !fmap_app, !sum_list_with_app. simpl.
  unfold sum_list. rewrite ?fmap_app, ?sum_list_with_app. simpl. lia.
Qed.

Lemma reachable_inv progs c :
  rtc lock_step (NewShardedMutex, client_code <$> progs) c -> lock_inv c.
Proof.
  intros Hr. pose proof (initial_inv progs) as Hi.
  induction Hr as [|c1 c2 c3 Hs _ IH]; [done|]. eauto using lock_step_inv.
Qed.

Lemma finished_unlocked c :
  lock_inv c -> Forall (fun t => t = []) c.2 -> Forall (fun l => l = unlocked) c.1.
Proof.
  intros [hs (Hsh & _ & Hag)] Hdone. apply Forall_lookup. intros idx l Hl.
  destruct (Hag idx l Hl) as (HW & HR & _).
  assert (Hnone : forall h, h ∈ hs -> h.2 = []).
  { intros h [i Hi]%list_elem_of_lookup. destruct (Forall2_lookup_l _ _ _ _ _ Hsh Hi) as (t & Ht & Hs).
    rewrite Forall_lookup in Hdone. rewrite (Hdone i t Ht) in Hs.
    by destruct (shape_move _ _ _ Hs) as [? _|? ? ? _ ?|? ? ? _ ?]. }
  rewrite holders_zero in HW, HR by (intros h Hin [_ Hx]; rewrite (Hnone h Hin) in Hx; set_solver).
  destruct l as [w r]. simpl in *. destruct w; [done|]. by subst r.
Qed.

(** Any number of goroutines, each running any sequence of critical sections
    locked with [LockMultiple] or [RLockMultiple] on any keys and unlocked with
    the matching call, in any interleaving: no mutex is ever unlocked by a
    goroutine that does not hold it; every run is finite, of at most the total
    number of mutex calls; and as long as some goroutine is not finished, some
    goroutine can take its next step, even under writer preference. So nobody
    is left waiting for ever, and at the end every mutex is free. *)
Theorem sharded_locks_deadlock_free progs locks ts n :
  nsteps lock_step n (NewShardedMutex, client_code <$> progs) (locks, ts) ->
  (n + remaining ts = remaining (client_code <$> progs))%nat /\
  ~ fatal (locks, ts) /\
  ((Forall (fun t => t = []) ts /\ Forall (fun l => l = unlocked) locks) \/ fair_step (locks, ts)).
Proof.
  intros Hn. assert (Hinv : lock_inv (locks, ts)) by (eapply reachable_inv, rtc_nsteps; eauto).
  split_and!.
  - remember (NewShardedMutex, client_code <$> progs) as c eqn:Hc in Hn.
    assert (Ht : client_code <$> progs = c.2) by (by subst c). rewrite Ht. clear Hc Ht.
    remember (locks, ts) as c' eqn:Hc in Hn. replace ts with c'.2 by (by subst). clear Hc Hinv.
    induction Hn as [c|k c c1 c2 Hs _ IH]; [done|].
    destruct Hs as [i ins rest l l' ts' Hi _]. simpl in *. pose proof (remaining_step ts' i ins rest Hi). lia.
  - intros (i & ins & rest & Ht & He). destruct Hinv as [hs Hinv]. simpl in *.
    destruct (Forall2_lookup_r _ _ _ _ _ (proj1 Hinv) Ht) as (h & Hi & _).
    pose proof (inv_move hs locks ts i h ins rest Hinv Hi Ht) as Hm. by rewrite He in Hm.
  - destruct (somebody_moves _ Hinv) as [Hd|]; [left|by right]. split; [done|].
    by apply (finished_unlocked (locks, ts)).
Qed.

(** ** Mutual exclusion *)

(** The goroutine has entered the section and not begun to leave it. *)
Definition inside (s : section) (t : list instr) : Prop := exists rest, t = leave s ++ rest.

Lemma releasing_holds l : forall m m' held rest,
  shape m held ((Rel m' <$> l) ++ rest) -> forall idx, idx ∈ l -> holds m' idx (m, held).
Proof.
  induction l as [|x l IH]; intros m m' held rest Hs idx Hin; [set_solver|]. simpl in Hs.
  destruct (shape_move _ _ _ Hs) as [_ ?|? ? ? _ ?|held' y todo' -> Heq _ _ Hs']; [done..|].
  injection Heq as -> -> <-. apply elem_of_cons in Hin as [->|Hin]; [split; [done|set_solver]|].
  destruct (IH _ _ _ _ Hs' idx Hin) as [_ Hx]. split; [done|]. simpl in *. set_solver.
Qed.

Lemma inside_holds m held t s key :
  shape m held t -> inside s t -> key ∈ s_keys s -> holds (s_mode s) (getShardIndex key) (m, held).
Proof.
  intros Hs [rest ->] Hkey.
  assert (Hl : leave s = Rel (s_mode s) <$> rev (uniqueSortedShardIndexes (s_keys s))).
  { unfold leave. by destruct (s_mode s). }
  rewrite Hl in Hs. eapply releasing_holds; [done|]. apply list_elem_of_In, in_rev. rewrite rev_involutive.
  apply list_elem_of_In, uniqueSortedShardIndexes_elem. eauto.
Qed.

Lemma two_holders m idx hs i j h h' :
  i <> j -> hs !! i = Some h -> hs !! j = Some h' -> holds m idx h -> holds m idx h' ->
  (2 <= holders m idx hs)%nat.
Proof.
  intros Hij Hi Hj Hh Hh'. pose proof (holders_insert m idx hs i h (m, []) Hi) as Hc.
  rewrite (one_true (holds m idx h)) in Hc by done.
  rewrite one_false in Hc by (intros [_ Hx]; set_solver).
  assert (Hp : (0 < holders m idx (<[i := (m, [])]> hs))%nat).
  { eapply holders_pos; [|exact Hh']. by rewrite list_lookup_insert_ne. }
  lia.
Qed.

(** While a goroutine is inside a write section, no other goroutine is
    inside any section, for reading or for writing, that shares a key with it. *)
Theorem sharded_locks_exclude progs locks ts i j ti tj s s' key :
  rtc lock_step (NewShardedMutex, client_code <$> progs) (locks, ts) ->
  ts !! i = Some ti -> ts !! j = Some tj -> i <> j ->
  s_mode s = W -> inside s ti -> inside s' tj -> key ∈ s_keys s -> key ∉ s_keys s'.
Proof.
  intros Hr Hi Hj Hij Hw Hin Hin' Hk Hk'. destruct (reachable_inv _ _ Hr) as [hs (Hsh & Hlen & Hag)]. simpl in *.
  destruct (Forall2_lookup_r _ _ _ _ _ Hsh Hi) as ([m held] & Hhi & Hsi).
  destruct (Forall2_lookup_r _ _ _ _ _ Hsh Hj) as ([m' held'] & Hhj & Hsj).
  pose proof (inside_holds _ _ _ _ _ Hsi Hin Hk) as Hi'. pose proof (inside_holds _ _ _ _ _ Hsj Hin' Hk') as Hj'.
  assert (Hb : (getShardIndex key < length locks)%nat) by (rewrite Hlen; apply getShardIndex_bound).
  apply lookup_lt_is_Some_2 in Hb as [l Hl]. destruct (Hag _ _ Hl) as (HW & HR & Hx). rewrite Hw in Hi'.
  pose proof (holders_pos _ _ _ _ _ Hhi Hi') as Hp. destruct (s_mode s').
  - pose proof (two_holders _ _ _ _ _ _ _ Hij Hhi Hhj Hi' Hj'). destruct (writer l); lia.
  - pose proof (holders_pos _ _ _ _ _ Hhj Hj'). destruct (writer l); [specialize (Hx eq_refl)|]; lia.
Qed.

(** ** Versions *)

Lemma GetVersion_increment key key' vs :
  length vs = length no_versions ->
  GetVersion key' (snd (IncrementVersion key vs)) =
  if decide (getShardIndex key = getShardIndex key') then u64 (GetVersion key vs + 1) else GetVersion key' vs.
Proof.
  intros Hlen. unfold IncrementVersion. simpl. set (v := u64 (GetVersion key vs + 1)).
  unfold GetVersion. rewrite !nth_lookup. pose proof (getShardIndex_bound key) as Hb. case_decide as Hd.
  - rewrite <-Hd, list_lookup_insert_eq; [done|]. rewrite Hlen. exact Hb.
  - by rewrite list_lookup_insert_ne.
Qed.

Definition touches (key : string) (keys : list string) : nat :=
  length (filter (fun k => getShardIndex k = getShardIndex key) keys).

Lemma GetVersion_bumped keys : forall vs key,
  length vs = length no_versions -> is_u64 (GetVersion key vs) ->
  length (bump_versions keys vs) = length no_versions /\
  GetVersion key (bump_versions keys vs) = u64 (GetVersion key vs + Z.of_nat (touches key keys)).
Proof.
  induction keys as [|k keys IH]; intros vs key Hlen Hr.
  - split; [done|]. unfold touches. simpl. by rewrite Z.add_0_r, u64_id.
  - change (bump_versions (k :: keys) vs) with (bump_versions keys (snd (IncrementVersion k vs))).
    assert (Hlen' : length (snd (IncrementVersion k vs)) = length no_versions).
    { unfold IncrementVersion. simpl. by rewrite length_insert. }
    pose proof (GetVersion_increment k key vs Hlen) as Hg.
    destruct (IH (snd (IncrementVersion k vs)) key Hlen') as [Hl Hv].
    { rewrite Hg. case_decide; [apply u64_range|done]. }
    split; [done|]. rewrite Hv, Hg. unfold touches. rewrite filter_cons.
    case_decide as Hd; [|done]. simpl.
    assert (Hsame : GetVersion k vs = GetVersion key vs) by (unfold GetVersion; by rewrite Hd).
    rewrite Hsame. unfold u64. rewrite Zplus_mod_idemp_l. f_equal. lia.
Qed.

Lemma b_versions_lookup keys vs key :
  b_versions (BeginBatch keys vs) !! key = if decide (key ∈ keys) then Some (GetVersion key vs) else None.
Proof.
  simpl. case_decide as Hin.
  - apply elem_of_list_to_map_1'; [|apply list_elem_of_fmap; eauto].
    intros y (k & [= -> ->] & _)%list_elem_of_fmap. done.
  - apply not_elem_of_list_to_map_1. rewrite <-list_fmap_compose.
    intros (k & -> & Hk)%list_elem_of_fmap. done.
Qed.

(** Optimistic validation of a batch is exact: after any batches on keys
    [committed] have been committed since it began, the batch is valid exactly
    when none of these keys falls into a shard of its own keys, as long as
    fewer than 2^64 keys were committed. *)
Theorem batch_validation_exact keys committed vs :
  length vs = length no_versions -> (forall key, is_u64 (GetVersion key vs)) ->
  Z.of_nat (length committed) <= MaxUint64 ->
  ValidateVersions (BeginBatch keys vs) (bump_versions committed vs) = true <->
  forall key other, key ∈ keys -> other ∈ committed -> getShardIndex other <> getShardIndex key.
Proof.
  intros Hlen Hr Hbound. unfold ValidateVersions. rewrite forallb_forall.
  assert (Hone : forall key, GetVersion key (bump_versions committed vs) = GetVersion key vs <->
    forall other, other ∈ committed -> getShardIndex other <> getShardIndex key).
  { intros key. destruct (GetVersion_bumped committed vs key Hlen (Hr key)) as [_ ->].
    assert (Ht : (touches key committed <= length committed)%nat) by apply length_filter.
    specialize (Hr key). transitivity (touches key committed = 0%nat).
    - split; [|intros ->; by rewrite Z.add_0_r, u64_id]. intros Heq.
      pose proof (u64_div_eq (GetVersion key vs + Z.of_nat (touches key committed))) as Hd.
      rewrite Heq in Hd. unfold_ints. lia.
    - unfold touches. split.
      + intros H0 other Hin Hsh. apply nil_length_inv in H0.
        assert (Hf : other ∈ filter (fun k => getShardIndex k = getShardIndex key) committed)
          by (by apply list_elem_of_filter). rewrite H0 in Hf. set_solver.
      + intros Hno.
        destruct (filter _ committed) as [|o l] eqn:Hf; [done|].
        assert (Ho : o ∈ filter (fun k => getShardIndex k = getShardIndex key) committed) by (rewrite Hf; set_solver).
        apply list_elem_of_filter in Ho as [Hs Hin]. by destruct (Hno o). }
  split.
  - intros Hall key other Hk. apply Hone. apply Z.eqb_eq.
    apply (Hall (key, GetVersion key vs)), list_elem_of_In, elem_of_map_to_list.
    rewrite b_versions_lookup. by rewrite decide_True.
  - intros Hno [key v] Hin%list_elem_of_In%elem_of_map_to_list. rewrite b_versions_lookup in Hin.
    case_decide as Hk; [|done]. injection Hin as <-. apply Z.eqb_eq, Hone. intros other. by apply Hno.
Qed.

(** ** Concrete runs *)

Section Examples.
(** Two transfers in opposite directions. *)
Definition ex_opposite : list (list section) :=
  [[MkSection W ["alice"; "bob"]]; [MkSection W ["bob"; "alice"]]].

Lemma sharded_locks_deadlock_free_witness :
  exists locks ts, (2 + remaining ts = 8)%nat /\ fair_step (locks, ts).
Proof.
  assert (Hrun : exists locks ts, nsteps lock_step 2 (NewShardedMutex, client_code <$> ex_opposite) (locks, ts) /\
    ~ Forall (fun t => t = []) ts).
  { eexists _, _. split.
    - eapply nsteps_l; [eapply (lock_step_ok 0); [reflexivity|vm_compute; reflexivity]|].
      eapply nsteps_l; [eapply (lock_step_ok 0); [reflexivity|vm_compute; reflexivity]|].
      apply nsteps_O.
    - intros H. apply Forall_cons in H as [H _]. vm_compute in H. done. }
  destruct Hrun as (locks & ts & Hr & Hnd). exists locks, ts.
  destruct (sharded_locks_deadlock_free ex_opposite locks ts 2 Hr) as (Hn & _ & [[Hd _]|Hf]); [by destruct Hnd|].
  split; [exact Hn|exact Hf].
Defined.

(** A writer on alice's account beside a reader of carol's. *)
Definition ex_disjoint : list (list section) := [[MkSection W ["alice"]]; [MkSection R ["carol"]]].

Lemma sharded_locks_exclude_witness : "alice"%string ∉ ["carol"%string].
Proof.
  assert (Hrun : exists locks, rtc lock_step (NewShardedMutex, client_code <$> ex_disjoint)
    (locks, [leave (MkSection W ["alice"]); leave (MkSection R ["carol"])])).
  { eexists. eapply rtc_l; [eapply (lock_step_ok 0); [reflexivity|vm_compute; reflexivity]|].
    eapply rtc_l; [eapply (lock_step_ok 1); [reflexivity|vm_compute; reflexivity]|]. apply rtc_refl. }
  destruct Hrun as [locks Hr].
  apply (sharded_locks_exclude ex_disjoint locks _ 0 1 _ _ (MkSection W ["alice"]) (MkSection R ["carol"]) "alice" Hr
    eq_refl eq_refl); [done|done|exists []; by rewrite app_nil_r|exists []; by rewrite app_nil_r|set_solver].
Defined.

Lemma batch_validation_exact_witness :
  ValidateVersions (BeginBatch ["alice"; "bob"] no_versions) (bump_versions ["carol"] no_versions) = true /\
  ValidateVersions (BeginBatch ["alice"; "bob"] no_versions) (bump_versions ["bob"] no_versions) = false.
Proof.
  split.
  - apply batch_validation_exact; [done| |by vm_compute|].
    + intros key. unfold GetVersion. rewrite nth_lookup. unfold no_versions.
      destruct (replicate _ 0 !! _) as [v|] eqn:Hv; [|by vm_compute]. apply lookup_replicate in Hv as [-> _].
      by vm_compute.
    + intros key other [->|[->|Hk]%elem_of_cons]%elem_of_cons [->|Ho]%elem_of_cons; try set_solver; by vm_compute.
  - by vm_compute.
Defined.
End Examples.
