(* ===== verification/Governance.v ===== *)
(** * Governance (src/consensus/governance/manager.go)

    Proposals live in the node's metadata as JSON text, and an approved one
    changes the configuration in memory.  [StateStore] is the interface of the
    same name in the code; the world state is its implementation there.
    [encoding/json] and [float64] are classes with the laws the code relies on.
    A clock reading is an argument, one per call of [time.Now]. *)

From S2P Require Import Prelude Uint256 Storage Replay.
From stdpp Require Import base tactics numbers list gmap strings.
From Stdlib Require Import ZArith Lia Strings.Byte Strings.Ascii.
Open Scope Z_scope.
Open Scope list_scope.

(** ** JSON and floating point *)

Class Json (A : Type) : Type := {
  Marshal : A -> string;
  Unmarshal : string -> option A
}.
Class JsonLaws (A : Type) `{Json A} : Prop := {
  Unmarshal_Marshal : forall a, Unmarshal (Marshal a) = Some a;
  Marshal_nonempty : forall a, Marshal a <> ""
}.

(** [float64]: [f_ratio a b] is [a/b] computed with [big.Float] and rounded. *)
Class Float64 (F : Type) : Type := {
  f_zero : F;
  f_one : F;
  f_lt : F -> F -> bool;
  f_ratio : Z -> Z -> F;
  ParseFloat : string -> option F
}.

(** ** Data *)

Inductive ProposalStatus : Type := Active | Approved | Rejected.
#[global] Instance ProposalStatus_eq_dec : EqDecision ProposalStatus.
Proof. solve_decision. Defined.

Record GovVote : Type := MkGovVote {
  gv_ValidatorAddress : string;
  gv_DomainID : string;
  gv_Approve : bool;
  gv_CastAt : Z
}.

Record Proposal : Type := MkProposal {
  p_ID : string;
  p_Parameter : string;
  p_ProposedValue : string;
  p_Proposer : string;
  p_Status : ProposalStatus;
  p_CreatedAt : Z;
  p_VotingEndsAt : Z;
  p_FinalizedAt : Z;
  p_YesStake : string;
  p_NoStake : string;
  p_Votes : gmap string GovVote
}.

Record ProposalPayload : Type := MkProposalPayload { pp_Parameter : string; pp_ProposedValue : string }.
Record VotePayload : Type := MkVotePayload { vp_ProposalID : string; vp_Approve : bool }.
Record FinalizePayload : Type := MkFinalizePayload { fp_ProposalID : string }.

(** The configuration the manager reads and the parameters it may change. *)
Record GovConfig (F : Type) : Type := MkGovConfig {
  Enabled : bool;
  VotingPeriod : Z;
  Quorum : F;
  ApprovalThreshold : F;
  OwnershipDomainsEnabled : bool;
  InflationRate : F;
  CommunityTax : F;
  MaxCommission : F;
  MaxStakePercentage : F;
  MinActiveValidators : Z;
  EVMMaxGasPerWindow : Z;
  EVMMaxTxPerWindow : Z;
  EVMWindowDurationSeconds : Z
}.
Arguments MkGovConfig {F}.
Arguments Enabled {F}.
Arguments VotingPeriod {F}.
Arguments Quorum {F}.
Arguments ApprovalThreshold {F}.
Arguments OwnershipDomainsEnabled {F}.
Arguments InflationRate {F}.
Arguments CommunityTax {F}.
Arguments MaxCommission {F}.
Arguments MaxStakePercentage {F}.
Arguments MinActiveValidators {F}.
Arguments EVMMaxGasPerWindow {F}.
Arguments EVMMaxTxPerWindow {F}.
Arguments EVMWindowDurationSeconds {F}.

Inductive gov_err : Type :=
| GovDisabled
| EmptyProposalID
| EmptyParameter
| EmptyValue
| BadPayload
| StoreError (e : storage_err)
| ValidatorNotFound (addr : string)
| ValidatorNotActive (addr : string)
| EmptyDomain
| EmptyValidatorAddress
| DomainDecodeError
| InvalidFloat
| NotInUnitInterval
| InvalidInteger
| NotPositiveParam
| NotManaged (parameter : string)
| ProposalNotFound (id : string)
| ProposalDecodeError (id : string)
| ProposalNotActive (id : string)
| VotingEnded (id : string)
| DomainAlreadyVoted (domain by_ : string)
| StillVoting (id : string).

(** The interface the manager is given. *)
Class StateStore (W : Type) : Type := {
  st_SetMetadata : string -> string -> GoM W gov_err unit;
  st_GetMetadata : string -> GoM W gov_err string;
  st_GetValidator : string -> GoM W gov_err Validator;
  st_GetActiveValidators : GoM W gov_err (list Validator);
  st_GetValidatorStakeDomain : string -> GoM W gov_err string;
  st_GetStakeDomainTotalStake : string -> GoM W gov_err Z
}.

Definition blank (s : string) : bool := bool_decide (TrimSpace s = "").

(** [strconv.Atoi] and [ParseInt(_, 10, 64)]: an optional sign and digits, in range. *)
Definition Atoi (s : string) : option Z :=
  match SetString10 s with
  | Some v => if bool_decide (is_i64 v) then Some v else None
  | None => None
  end.

Definition proposalMetadataPrefix : string := "governance/proposal/".
Definition paramMetadataPrefix : string := "governance/param/".

(** ** Payloads *)

Section Payloads.
Context `{Json ProposalPayload, Json VotePayload, Json FinalizePayload}.

Definition ParseProposalPayload (data : string) : outcome gov_err ProposalPayload :=
  match Unmarshal data with
  | None => Err BadPayload
  | Some payload =>
      if blank (pp_Parameter payload) then Err EmptyParameter
      else if blank (pp_ProposedValue payload) then Err EmptyValue
      else Ok payload
  end.

Definition ParseVotePayload (data : string) : outcome gov_err VotePayload :=
  match Unmarshal data with
  | None => Err BadPayload
  | Some payload => if blank (vp_ProposalID payload) then Err EmptyProposalID else Ok payload
  end.

Definition ParseFinalizePayload (data : string) : outcome gov_err FinalizePayload :=
  match Unmarshal data with
  | None => Err BadPayload
  | Some payload => if blank (fp_ProposalID payload) then Err EmptyProposalID else Ok payload
  end.
End Payloads.

(** ** The manager *)

Section Manager.
Context `{MapOrder} {F : Type} `{Float64 F} `{Json Proposal} {W : Type} `{StateStore W}.

Notation state := (GovConfig F * W)%type.
Notation Gov := (GoM state gov_err).

Definition cfg : Gov (GovConfig F) := fun s => (Ok (fst s), s).
Definition store {A} (m : GoM W gov_err A) : Gov A := on_snd m.

Definition float_params : list string :=
  ["economics.inflation_rate"; "economics.community_tax"; "staking.max_commission";
   "staking.max_stake_percentage"].
Definition integer_params : list string :=
  ["consensus.min_active_validators"; "economics.evm_max_gas_per_window";
   "economics.evm_max_tx_per_window"; "economics.evm_window_duration_seconds"].

Definition ValidateParameterChange (parameter value : string) : outcome gov_err unit :=
  if bool_decide (parameter ∈ float_params) then
    match ParseFloat value with
    | None => Err InvalidFloat
    | Some parsed =>
        if f_lt parsed f_zero || f_lt f_one parsed then Err NotInUnitInterval else Ok tt
    end
  else if bool_decide (parameter ∈ integer_params) then
    match Atoi value with
    | None => Err InvalidInteger
    | Some parsed => if parsed <=? 0 then Err NotPositiveParam else Ok tt
    end
  else Err (NotManaged parameter).

Definition ensureActiveValidator (address : string) : Gov unit := fun s =>
  match store (st_GetValidator address) s with
  | (Ok validator, s') =>
      if val_Active validator then (Ok tt, s') else (Err (ValidatorNotActive address), s')
  | (Err _, s') => (Err (ValidatorNotFound address), s')
  | (Panic, s') => (Panic, s')
  | (Hang, s') => (Hang, s')
  end.

Definition getVotingDomain (validatorAddr : string) : Gov string :=
  c ← cfg;
  if negb (OwnershipDomainsEnabled c) then mret validatorAddr
  else store (st_GetValidatorStakeDomain validatorAddr).

Definition saveProposal (proposal : Proposal) : Gov unit :=
  store (st_SetMetadata (proposalMetadataPrefix +:+ p_ID proposal) (Marshal proposal)).

Definition GetProposal (id : string) : Gov Proposal :=
  raw ← store (st_GetMetadata (proposalMetadataPrefix +:+ id));
  if bool_decide (raw = "") then throw (ProposalNotFound id)
  else match Unmarshal raw with
       | None => throw (ProposalDecodeError id)
       | Some proposal => mret proposal
       end.

Definition SubmitProposal (now : Z) (id proposer parameter proposedValue : string) : Gov Proposal :=
  c ← cfg;
  _ ← refuse_if (negb (Enabled c)) GovDisabled;
  _ ← refuse_if (blank id) EmptyProposalID;
  _ ← ensureActiveValidator proposer;
  _ ← lift (ValidateParameterChange parameter proposedValue);
  let votingEndsAt := if VotingPeriod c <=? 0 then now
                      else i64 (now + Z.quot (VotingPeriod c) 1000000000) in
  let proposal := MkProposal id parameter proposedValue proposer Active now votingEndsAt 0 "0" "0" ∅ in
  _ ← saveProposal proposal;
  mret proposal.

(** [strings.ReplaceAll(parameter, ".", "_")]. *)
Definition dots_to_underscores (s : string) : string :=
  String.string_of_list_ascii
    ((fun c => if bool_decide (c = "."%char) then "_"%char else c) <$> String.list_ascii_of_string s).

Definition SubmitParameterChangeProposal (nanos now : Z) (proposer parameter proposedValue : string)
    : Gov Proposal :=
  let proposalID := dots_to_underscores parameter +:+ "-" +:+ String10 nanos in
  SubmitProposal now proposalID proposer parameter proposedValue.

Definition set_Votes (v : gmap string GovVote) (p : Proposal) : Proposal :=
  MkProposal (p_ID p) (p_Parameter p) (p_ProposedValue p) (p_Proposer p) (p_Status p) (p_CreatedAt p)
    (p_VotingEndsAt p) (p_FinalizedAt p) (p_YesStake p) (p_NoStake p) v.

(** [time.Now] is read when the deadline is tested and when the vote is stamped. *)
Definition CastVote (now1 now2 : Z) (proposalID validatorAddr : string) (approve : bool) : Gov unit :=
  c ← cfg;
  _ ← refuse_if (negb (Enabled c)) GovDisabled;
  proposal ← GetProposal proposalID;
  _ ← refuse_if (negb (bool_decide (p_Status proposal = Active))) (ProposalNotActive proposalID);
  _ ← refuse_if (p_VotingEndsAt proposal <? now1) (VotingEnded proposalID);
  _ ← ensureActiveValidator validatorAddr;
  domainID ← getVotingDomain validatorAddr;
  _ ← match p_Votes proposal !! domainID with
      | Some existing =>
          refuse_if (negb (bool_decide (gv_ValidatorAddress existing = validatorAddr)))
            (DomainAlreadyVoted domainID (gv_ValidatorAddress existing))
      | None => mret tt
      end;
  saveProposal (set_Votes (<[domainID := MkGovVote validatorAddr domainID approve now2]>
                             (p_Votes proposal)) proposal).

Fixpoint eligible_loop (validators : list Validator) (seen : gset string) (total : Z) : Gov Z :=
  match validators with
  | [] => mret total
  | validator :: rest =>
      domainID ← getVotingDomain (val_Address validator);
      if bool_decide (domainID ∈ seen) then eligible_loop rest seen total
      else
        domainStake ← store (st_GetStakeDomainTotalStake domainID);
        eligible_loop rest ({[domainID]} ∪ seen) (total + domainStake)
  end.

Definition totalEligibleDomainStake : Gov Z :=
  activeValidators ← store st_GetActiveValidators;
  eligible_loop activeValidators ∅ 0.

Fixpoint tally (domains : list string) (votes : gmap string GovVote) (yes no : Z) : Gov (Z * Z) :=
  match domains with
  | [] => mret (yes, no)
  | domainID :: rest =>
      domainStake ← store (st_GetStakeDomainTotalStake domainID);
      match votes !! domainID with
      | Some vote => if gv_Approve vote then tally rest votes (yes + domainStake) no
                     else tally rest votes yes (no + domainStake)
      | None => panic
      end
  end.

(** [parsed, _ := f(value); field = parsed]: an error leaves the zero value. *)
Definition parse_float_or_zero (value : string) : F := default f_zero (ParseFloat value).
Definition parse_int_or_zero (value : string) : Z := default 0 (Atoi value).

Definition apply_to_config (parameter value : string) (c : GovConfig F) : option (GovConfig F) :=
  let '(MkGovConfig en vp q at_ od ir ct mc ms ma eg et ew) := c in
  let f := parse_float_or_zero value in
  let n := parse_int_or_zero value in
  if bool_decide (parameter = "economics.inflation_rate") then Some (MkGovConfig en vp q at_ od f ct mc ms ma eg et ew)
  else if bool_decide (parameter = "economics.community_tax") then Some (MkGovConfig en vp q at_ od ir f mc ms ma eg et ew)
  else if bool_decide (parameter = "staking.max_commission") then Some (MkGovConfig en vp q at_ od ir ct f ms ma eg et ew)
  else if bool_decide (parameter = "staking.max_stake_percentage") then Some (MkGovConfig en vp q at_ od ir ct mc f ma eg et ew)
  else if bool_decide (parameter = "consensus.min_active_validators") then Some (MkGovConfig en vp q at_ od ir ct mc ms n eg et ew)
  else if bool_decide (parameter = "economics.evm_max_gas_per_window") then Some (MkGovConfig en vp q at_ od ir ct mc ms ma n et ew)
  else if bool_decide (parameter = "economics.evm_max_tx_per_window") then Some (MkGovConfig en vp q at_ od ir ct mc ms ma eg n ew)
  else if bool_decide (parameter = "economics.evm_window_duration_seconds") then Some (MkGovConfig en vp q at_ od ir ct mc ms ma eg et n)
  else None.

Definition applyApprovedParameterChange (parameter value : string) : Gov unit :=
  c ← cfg;
  match apply_to_config parameter value c with
  | None => throw (NotManaged parameter)
  | Some c' =>
      _ ← modify (fun s => (c', snd s));
      store (st_SetMetadata (paramMetadataPrefix +:+ parameter) value)
  end.

Definition finalized (st : ProposalStatus) (at_ yes no : Z) (p : Proposal) : Proposal :=
  MkProposal (p_ID p) (p_Parameter p) (p_ProposedValue p) (p_Proposer p) st (p_CreatedAt p)
    (p_VotingEndsAt p) at_ (String10 yes) (String10 no) (p_Votes p).

Definition FinalizeProposal (now1 now2 : Z) (proposalID : string) : Gov Proposal :=
  proposal ← GetProposal proposalID;
  if negb (bool_decide (p_Status proposal = Active)) then mret proposal
  else
    _ ← refuse_if (now1 <? p_VotingEndsAt proposal) (StillVoting proposalID);
    totalEligibleStake ← totalEligibleDomainStake;
    '(yesStake, noStake) ← tally (map_order (p_Votes proposal)) (p_Votes proposal) 0 0;
    let participatingStake := yesStake + noStake in
    let close st := finalized st now2 yesStake noStake proposal in
    if (Z.sgn totalEligibleStake =? 0) || (Z.sgn participatingStake =? 0) then
      _ ← saveProposal (close Rejected); mret (close Rejected)
    else
      c ← cfg;
      let participationRatio := f_ratio participatingStake totalEligibleStake in
      let approvalRatio := f_ratio yesStake participatingStake in
      if f_lt participationRatio (Quorum c) || f_lt approvalRatio (ApprovalThreshold c) then
        _ ← saveProposal (close Rejected); mret (close Rejected)
      else
        _ ← applyApprovedParameterChange (p_Parameter proposal) (p_ProposedValue proposal);
        _ ← saveProposal (close Approved); mret (close Approved).
End Manager.

(** ** A codec

    Any countable type can be written as text and read back, so the laws of
    [Json] can hold for the manager's records. *)

(** The digits of a positive number, least significant first. *)
Fixpoint write_bits (p : positive) : string :=
  match p with
  | xH => "."
  | xO p' => String "0" (write_bits p')
  | xI p' => String "1" (write_bits p')
  end.
Fixpoint read_bits (s : string) : option positive :=
  match s with
  | String "." EmptyString => Some xH
  | String "0" s' => xO <$> read_bits s'
  | String "1" s' => xI <$> read_bits s'
  | _ => None
  end.
Lemma read_write_bits p : read_bits (write_bits p) = Some p.
Proof. induction p as [p IH|p IH|]; simpl; by rewrite ?IH. Qed.

Section Codec.
Context {A : Type} `{Countable A}.

Definition text_codec : Json A := {|
  Marshal a := write_bits (countable.encode a);
  Unmarshal s := read_bits s ≫= countable.decode
|}.

Lemma text_codec_laws : @JsonLaws A text_codec.
Proof.
  split; intros a; simpl.
  - rewrite read_write_bits. simpl. apply countable.decode_encode.
  - by destruct (countable.encode a).
Qed.
End Codec.

#[global] Instance ProposalStatus_countable : Countable ProposalStatus.
Proof.
  refine (inj_countable' (fun s => match s with Active => 0%nat | Approved => 1%nat | Rejected => 2%nat end)
    (fun n => match n with 0%nat => Active | 1%nat => Approved | _ => Rejected end) _). by intros [].
Defined.
#[global] Instance GovVote_eq_dec : EqDecision GovVote.
Proof. solve_decision. Defined.
#[global] Instance GovVote_countable : Countable GovVote.
Proof.
  refine (inj_countable' (fun v => (gv_ValidatorAddress v, gv_DomainID v, gv_Approve v, gv_CastAt v))
    (fun '(a, d, b, t) => MkGovVote a d b t) _). by intros [].
Defined.
#[global] Instance Proposal_eq_dec : EqDecision Proposal.
Proof. solve_decision. Defined.
#[global] Instance Proposal_countable : Countable Proposal.
Proof.
  refine (inj_countable' (fun p => (p_ID p, p_Parameter p, p_ProposedValue p, p_Proposer p, p_Status p,
      (p_CreatedAt p, p_VotingEndsAt p, p_FinalizedAt p, p_YesStake p, p_NoStake p, p_Votes p)))
    (fun '(i, pa, pv, pr, st, (ca, ve, fa, ys, ns, vs)) => MkProposal i pa pv pr st ca ve fa ys ns vs) _).
  by intros [].
Defined.
#[global] Instance ProposalPayload_eq_dec : EqDecision ProposalPayload.
Proof. solve_decision. Defined.
#[global] Instance ProposalPayload_countable : Countable ProposalPayload.
Proof.
  refine (inj_countable' (fun p => (pp_Parameter p, pp_ProposedValue p)) (fun '(a, b) => MkProposalPayload a b) _).
  by intros [].
Defined.
#[global] Instance VotePayload_eq_dec : EqDecision VotePayload.
Proof. solve_decision. Defined.
#[global] Instance VotePayload_countable : Countable VotePayload.
Proof.
  refine (inj_countable' (fun p => (vp_ProposalID p, vp_Approve p)) (fun '(a, b) => MkVotePayload a b) _). by intros [].
Defined.
#[global] Instance FinalizePayload_eq_dec : EqDecision FinalizePayload.
Proof. solve_decision. Defined.
#[global] Instance FinalizePayload_countable : Countable FinalizePayload.
Proof. refine (inj_countable' fp_ProposalID MkFinalizePayload _). by intros []. Defined.

(** Fractions in thousandths; a value that is not a number compares false. *)
Definition permille : Type := option Z.
Definition permille_float : Float64 permille := {|
  f_zero := Some 0;
  f_one := Some 1000;
  f_lt a b := match a, b with Some x, Some y => x <? y | _, _ => false end;
  f_ratio a b := Some (a * 1000 / b);
  ParseFloat s := if bool_decide (s = "NaN") then Some None else Some <$> SetString10 s
|}.
