(* ===== verification/Domains.v ===== *)
(** * The validator registry and its stake domains
    (src/core/state/worldstate.go, src/core/state/stake_domains.go)

    Validators live in memory; the domain each belongs to and the members of
    each domain are two metadata entries in the database.  [Registry_store]
    is the world state's side of governance's [StateStore] interface. *)

From S2P Require Import Prelude Uint256 Address Storage AccountManager Replay Governance.
From stdpp Require Import base tactics numbers list gmap strings sorting.
From Stdlib Require Import ZArith Lia Strings.Byte Strings.Ascii.
Open Scope Z_scope.
Open Scope list_scope.

Record registry : Type := MkRegistry { reg_validators : gmap string Validator; reg_db : KV }.

Definition set_validators (m : gmap string Validator) (s : registry) : registry := MkRegistry m (reg_db s).

Inductive reg_err : Type :=
| ValidatorNil
| ValidatorAddressEmpty
| ValidatorAddressInvalid (e : address_err)
| PubkeyEmpty
| StakeBelowMin
| ValidatorExists (addr : string)
| NoSuchValidator (addr : string)
| DomainError (e : gov_err).

(** [sort.Strings] and [sort.Slice] by address. *)
Definition sort_strings (l : list string) : list string := merge_sort String.le l.
Definition by_address (a b : Validator) : Prop := String.le (val_Address a) (val_Address b).
#[global] Instance by_address_dec a b : Decision (by_address a b).
Proof. unfold by_address. apply _. Defined.

Record stakeDomainMembers : Type := MkMembers { members : list string }.

Section Registry.
Context `{MapOrder} `{Json stakeDomainMembers}.

Notation Reg := (GoM registry gov_err).

Definition on_db {A} (m : GoM KV storage_err A) : Reg A := fun s =>
  let '(r, d) := m (reg_db s) in (wrap StoreError r, MkRegistry (reg_validators s) d).

(** ** Validators *)

Definition values (m : gmap string Validator) : list Validator :=
  omap (fun k => m !! k) (map_order m).

Definition reg_GetValidator (address : string) (s : registry) : outcome reg_err Validator :=
  match reg_validators s !! address with
  | None => Err (NoSuchValidator address)
  | Some v => Ok v
  end.

Definition GetActiveValidators (s : registry) : list Validator :=
  merge_sort by_address (filter (fun v => val_Active v) (values (reg_validators s))).
Definition reg_GetAllValidators (s : registry) : list Validator := values (reg_validators s).
Definition GetValidatorCount (s : registry) : Z := Z.of_nat (size (reg_validators s)).
Definition GetActiveValidatorCount (s : registry) : Z :=
  Z.of_nat (length (filter (fun v => val_Active v) (values (reg_validators s)))).

Definition set_times (created updated : Z) (v : Validator) : Validator :=
  let '(MkValidator ad pk nm de we st ss ds dl co ac bp bm ju _ _) := v in
  MkValidator ad pk nm de we st ss ds dl co ac bp bm ju created updated.

(** A nil validator is [None]; [now1], [now2] are the two clock readings. *)
Definition addValidator (MinValidatorStake : string) (now1 now2 : Z) (validator : option Validator)
    : GoM registry reg_err unit :=
  match validator with
  | None => throw ValidatorNil
  | Some validator =>
      _ ← refuse_if (bool_decide (val_Address validator = "")) ValidatorAddressEmpty;
      _ ← lift (wrap ValidatorAddressInvalid (Validate (val_Address validator)));
      _ ← refuse_if (length (val_Pubkey validator) =? 0)%nat PubkeyEmpty;
      _ ← refuse_if (ParseBigInt_bytes (val_Stake validator) <? ParseBigInt_string MinValidatorStake)
            StakeBelowMin;
      s ← get;
      _ ← refuse_if (bool_decide (is_Some (reg_validators s !! val_Address validator)))
            (ValidatorExists (val_Address validator));
      let created := if val_CreatedAt validator =? 0 then now1 else val_CreatedAt validator in
      let updated := if val_UpdatedAt validator =? 0 then now2 else val_UpdatedAt validator in
      modify (set_validators (<[val_Address validator := set_times created updated validator]>
                                (reg_validators s)))
  end.

Definition AddValidator := addValidator.

Definition UpdateValidator (validator : Validator) : GoM registry reg_err unit :=
  s ← get;
  _ ← refuse_if (negb (bool_decide (is_Some (reg_validators s !! val_Address validator))))
        (NoSuchValidator (val_Address validator));
  _ ← lift (wrap ValidatorAddressInvalid (Validate (val_Address validator)));
  modify (set_validators (<[val_Address validator := validator]> (reg_validators s))).

(** ** Domains *)

Definition stakeDomainValidatorPrefix : string := "ownership/validator/".
Definition stakeDomainMembersPrefix : string := "ownership/domain/".

Definition normalizeStakeDomainID (domainID validatorAddr : string) : string :=
  let normalized := TrimSpace domainID in
  if bool_decide (normalized = "") then validatorAddr else normalized.

Definition validatorStakeDomainKey (validatorAddr : string) : string :=
  stakeDomainValidatorPrefix +:+ validatorAddr.
Definition stakeDomainMembersKey (domainID : string) : string := stakeDomainMembersPrefix +:+ domainID.

Definition containsString (values : list string) (target : string) : bool :=
  existsb (fun v => bool_decide (v = target)) values.
Definition removeString (values : list string) (target : string) : list string :=
  filter (fun v => v <> target) values.

Definition readStakeDomainMembersLocked (domainID : string) : Reg stakeDomainMembers :=
  raw ← on_db (GetMetadata (stakeDomainMembersKey domainID));
  if bool_decide (raw = "") then mret (MkMembers [])
  else match Unmarshal raw with
       | None => throw DomainDecodeError
       | Some m => mret m
       end.

Definition writeStakeDomainMembersLocked (domainID : string) (m : stakeDomainMembers) : Reg unit :=
  on_db (SetMetadata (stakeDomainMembersKey domainID) (Marshal m)).

Definition getValidatorStakeDomainLocked (validatorAddr : string) : Reg string :=
  customDomainID ← on_db (GetMetadata (validatorStakeDomainKey validatorAddr));
  mret (normalizeStakeDomainID customDomainID validatorAddr).

Definition getStakeDomainValidatorsLocked (domainID : string) : Reg (list string) :=
  _ ← refuse_if (bool_decide (domainID = "")) EmptyDomain;
  m ← readStakeDomainMembersLocked domainID;
  s ← get;
  if (length (members m) =? 0)%nat then
    mret (if bool_decide (is_Some (reg_validators s !! domainID)) then [domainID] else [])
  else
    let filtered := filter (fun v => is_Some (reg_validators s !! v)) (members m) in
    _ ← (if (length filtered =? length (members m))%nat then mret tt
         else writeStakeDomainMembersLocked domainID (MkMembers filtered));
    mret filtered.

Definition setValidatorStakeDomainLocked (validatorAddr domainID : string) : Reg unit :=
  _ ← refuse_if (blank validatorAddr) EmptyValidatorAddress;
  let newDomainID := normalizeStakeDomainID domainID validatorAddr in
  currentDomainID ← getValidatorStakeDomainLocked validatorAddr;
  if bool_decide (currentDomainID = newDomainID) then
    (if bool_decide (newDomainID = validatorAddr)
     then on_db (SetMetadata (validatorStakeDomainKey validatorAddr) "") else mret tt)
  else
    _ ← (if bool_decide (currentDomainID <> "" /\ currentDomainID <> validatorAddr) then
           m ← readStakeDomainMembersLocked currentDomainID;
           writeStakeDomainMembersLocked currentDomainID (MkMembers (removeString (members m) validatorAddr))
         else mret tt);
    if bool_decide (newDomainID = validatorAddr)
    then on_db (SetMetadata (validatorStakeDomainKey validatorAddr) "")
    else
      _ ← on_db (SetMetadata (validatorStakeDomainKey validatorAddr) newDomainID);
      m ← readStakeDomainMembersLocked newDomainID;
      writeStakeDomainMembersLocked newDomainID
        (if containsString (members m) validatorAddr then m
         else MkMembers (sort_strings (members m ++ [validatorAddr]))).

Definition SetValidatorStakeDomain (validatorAddr domainID : string) : Reg unit :=
  setValidatorStakeDomainLocked validatorAddr domainID.
Definition GetValidatorStakeDomain (validatorAddr : string) : Reg string :=
  getValidatorStakeDomainLocked validatorAddr.
Definition GetStakeDomainValidators (domainID : string) : Reg (list string) :=
  getStakeDomainValidatorsLocked (TrimSpace domainID).

Definition GetStakeDomainTotalStake (domainID : string) : Reg Z :=
  validators ← getStakeDomainValidatorsLocked (TrimSpace domainID);
  s ← get;
  mret (foldl (fun total addr => match reg_validators s !! addr with
                                 | Some v => total + ParseBigInt_bytes (val_Stake v)
                                 | None => total
                                 end) 0 validators).

(** The validator is taken out again when its domain cannot be recorded. *)
Definition AddValidatorWithStakeDomain (MinValidatorStake : string) (now1 now2 : Z)
    (validator : option Validator) (domainID : string) : GoM registry reg_err unit := fun s =>
  match addValidator MinValidatorStake now1 now2 validator s, validator with
  | (Ok _, s1), Some v =>
      match setValidatorStakeDomainLocked (val_Address v) domainID s1 with
      | (Ok u, s2) => (Ok u, s2)
      | (r, s2) => (wrap DomainError r, set_validators (delete (val_Address v) (reg_validators s2)) s2)
      end
  | r, _ => r
  end.

#[global] Instance Registry_store : StateStore registry := {|
  st_SetMetadata key value := on_db (SetMetadata key value);
  st_GetMetadata key := on_db (GetMetadata key);
  st_GetValidator address := fun s =>
    (match reg_validators s !! address with
     | Some v => Ok v
     | None => Err (ValidatorNotFound address)
     end, s);
  st_GetActiveValidators := fun s => (Ok (GetActiveValidators s), s);
  st_GetValidatorStakeDomain := GetValidatorStakeDomain;
  st_GetStakeDomainTotalStake := GetStakeDomainTotalStake
|}.
End Registry.

#[global] Instance members_eq_dec : EqDecision stakeDomainMembers.
Proof. solve_decision. Defined.
#[global] Instance members_countable : Countable stakeDomainMembers.
Proof. refine (inj_countable' members MkMembers _). by intros []. Defined.
