(* ===== verification/EvmGas.v ===== *)
(** * Gas accounting of the EVM bridge (src/core/evm/revm_executor.go)

    The bridge counts the gas of the block and of a sliding window (the circuit
    breaker), reserving a transaction's whole limit before it runs and giving
    back what was not used.  All counters are [uint64]. *)

From S2P Require Import Prelude Uint256 Storage Governance.
From stdpp Require Import base tactics numbers list gmap strings.
From Stdlib Require Import ZArith Lia Strings.Byte Strings.Ascii.
Open Scope Z_scope.
Open Scope list_scope.

(** [windowStart] is [None] for the zero time; times are in nanoseconds. *)
Record revm : Type := MkRevm {
  blockGasUsed : Z;
  blockGasLimit : Z;
  windowStart : option Z;
  windowGasUsed : Z;
  windowTxCount : Z
}.

Inductive evm_err : Type :=
| BlockGasExceeded (used requested : Z)
| WindowTxExceeded (count : Z)
| WindowGasExceeded (gas : Z).

Notation Gas := (GoM revm evm_err).

Definition set_block (used limit : Z) (e : revm) : revm :=
  MkRevm used limit (windowStart e) (windowGasUsed e) (windowTxCount e).
Definition set_window (start : option Z) (gas txs : Z) (e : revm) : revm :=
  MkRevm (blockGasUsed e) (blockGasLimit e) start gas txs.

(** A new bridge: no block limit is set. *)
Definition new_revm : revm := MkRevm 0 0 None 0 0.

(** ** The block *)

Definition ResetBlockGas (limit : Z) (e : revm) : revm := set_block 0 limit e.
Definition GetBlockGasUsed (e : revm) : Z := blockGasUsed e.

Definition CheckAndReserveGas (gasLimit : Z) : Gas unit := fun e =>
  let sum := u64 (blockGasUsed e + gasLimit) in
  if blockGasLimit e =? 0 then (Ok tt, set_block sum (blockGasLimit e) e)
  else if blockGasLimit e <? sum then (Err (BlockGasExceeded (blockGasUsed e) gasLimit), e)
  else (Ok tt, set_block sum (blockGasLimit e) e).

Definition RefundGas (gasRefund : Z) (e : revm) : revm :=
  if blockGasUsed e <? gasRefund then set_block 0 (blockGasLimit e) e
  else set_block (blockGasUsed e - gasRefund) (blockGasLimit e) e.

(** ** The window *)

Definition second : Z := 1000000000.

Definition circuitBreakerLimits {F} (config : option (GovConfig F)) : Z * Z * Z :=
  match config with
  | None => (300000000, 1000, 10 * second)
  | Some c =>
      (if 0 <? EVMMaxGasPerWindow c then u64 (EVMMaxGasPerWindow c) else 300000000,
       if 0 <? EVMMaxTxPerWindow c then u64 (EVMMaxTxPerWindow c) else 1000,
       if 0 <? EVMWindowDurationSeconds c then i64 (EVMWindowDurationSeconds c * second) else 10 * second)
  end.

Section Window.
Context (limits : Z * Z * Z).
Notation maxGas := (fst (fst limits)).
Notation maxTx := (snd (fst limits)).
Notation windowDuration := (snd limits).

Definition expired (now : Z) (e : revm) : bool :=
  match windowStart e with
  | None => true
  | Some start => windowDuration <=? now - start
  end.

Definition CheckAndReserveWindowGas (now gasLimit : Z) : Gas unit := fun e =>
  let e := if expired now e then set_window (Some now) 0 0 e else e in
  let txs := u64 (windowTxCount e + 1) in
  let gas := u64 (windowGasUsed e + gasLimit) in
  if maxTx <? txs then (Err (WindowTxExceeded txs), e)
  else if maxGas <? gas then (Err (WindowGasExceeded gas), e)
  else (Ok tt, set_window (windowStart e) gas txs e).

(** [now1] is read by [time.Since], [now2] by [time.Now]. *)
Definition refundWindowReservation (now1 now2 gasRefund : Z) (releaseTx : bool) (e : revm) : revm :=
  if expired now1 e then set_window (Some now2) 0 0 e
  else
    let txs := if releaseTx && (0 <? windowTxCount e) then windowTxCount e - 1 else windowTxCount e in
    let gas := if windowGasUsed e <=? gasRefund then 0 else windowGasUsed e - gasRefund in
    set_window (windowStart e) gas txs e.

Definition RefundWindowGas (now1 now2 gasRefund : Z) (e : revm) : revm :=
  refundWindowReservation now1 now2 gasRefund false e.
End Window.

(** ** Properties *)

(** The calls a bridge can receive between two changes of the limits. *)
Inductive gas_op : Type :=
| OpReset (limit : Z)
| OpReserve (now gas : Z)
| OpRefund (now1 now2 gas : Z) (tx : bool).

Definition is_gas_op (o : gas_op) : Prop :=
  match o with
  | OpReset limit => is_u64 limit
  | OpReserve _ gas => 0 <= gas <= 30000000
  | OpRefund _ _ gas _ => is_u64 gas
  end.

Definition run_gas_op (limits : Z * Z * Z) (o : gas_op) (e : revm) : revm :=
  match o with
  | OpReset limit => ResetBlockGas limit e
  | OpReserve now gas =>
      match CheckAndReserveWindowGas limits now gas e with
      | (Ok _, e1) => match CheckAndReserveGas gas e1 with
                      | (Ok _, e2) => e2
                      | (_, e2) => refundWindowReservation limits now now gas true e2
                      end
      | (_, e1) => e1
      end
  | OpRefund now1 now2 gas tx => RefundGas gas (refundWindowReservation limits now1 now2 gas tx e)
  end.

(** Counters in range and, where a limit is set, below it. *)
Definition gas_inv (limits : Z * Z * Z) (e : revm) : Prop :=
  0 <= windowGasUsed e <= fst (fst limits) /\ 0 <= windowTxCount e <= snd (fst limits) /\
  is_u64 (blockGasUsed e) /\ is_u64 (blockGasLimit e) /\
  (blockGasLimit e <> 0 -> blockGasUsed e <= blockGasLimit e).

Definition limits_ok (limits : Z * Z * Z) : Prop :=
  0 <= fst (fst limits) <= MaxInt64 /\ 0 <= snd (fst limits) <= MaxInt64.

Lemma circuitBreakerLimits_ok {F} (c : option (GovConfig F)) :
  match c with Some c => is_i64 (EVMMaxGasPerWindow c) /\ is_i64 (EVMMaxTxPerWindow c) | None => True end ->
  limits_ok (circuitBreakerLimits c).
Proof.
  destruct c as [c|]; [|intros _; by split; simpl; unfold MaxInt64; lia].
  intros [H1 H2]. unfold limits_ok, circuitBreakerLimits. simpl.
  split; case_if; zbool; rewrite ?u64_id by (unfold_ints; lia); unfold_ints; lia.
Qed.

Lemma reserve_inv limits now gas e :
  limits_ok limits -> 0 <= gas <= 30000000 -> gas_inv limits e ->
  gas_inv limits (snd (CheckAndReserveWindowGas limits now gas e)).
Proof.
  intros Hl Hg Hi. unfold CheckAndReserveWindowGas.
  assert (He : gas_inv limits (if expired limits now e then set_window (Some now) 0 0 e else e)).
  { destruct (expired limits now e); [|done]. unfold gas_inv, limits_ok in *. simpl. intuition lia. }
  revert He. generalize (if expired limits now e then set_window (Some now) 0 0 e else e) as e1.
  clear Hi e. intros e Hi. destruct limits as [[mg mt] wd]. unfold limits_ok, gas_inv in *. simpl in *.
  rewrite !u64_id by (unfold_ints; lia).
  destruct (Z.ltb_spec mt (windowTxCount e + 1)); [done|].
  destruct (Z.ltb_spec mg (windowGasUsed e + gas)); [done|]. simpl. intuition lia.
Qed.

Lemma reserve_block_inv limits gas e :
  0 <= gas <= 30000000 -> gas_inv limits e -> gas_inv limits (snd (CheckAndReserveGas gas e)).
Proof.
  intros Hg Hi. unfold CheckAndReserveGas, gas_inv in *. pose proof (u64_range (blockGasUsed e + gas)).
  destruct (Z.eqb_spec (blockGasLimit e) 0); simpl; [intuition lia|].
  destruct (Z.ltb_spec (blockGasLimit e) (u64 (blockGasUsed e + gas))); simpl; intuition lia.
Qed.

Lemma refund_inv limits now1 now2 gas tx e :
  limits_ok limits -> is_u64 gas -> gas_inv limits e ->
  gas_inv limits (refundWindowReservation limits now1 now2 gas tx e).
Proof.
  intros Hl Hg Hi. unfold refundWindowReservation, gas_inv, limits_ok in *. unfold_ints.
  destruct (expired limits now1 e); simpl; [intuition lia|].
  destruct tx; simpl; zcases; intuition lia.
Qed.

(** The bridge's counters stay within the circuit breaker's limits and, when a
    block limit is set, within the block's, whatever the clock reads and in
    whatever order reservations and refunds come. *)
Theorem evm_gas_within_limits limits ops :
  limits_ok limits -> Forall is_gas_op ops ->
  gas_inv limits (foldl (fun e o => run_gas_op limits o e) new_revm ops).
Proof.
  intros Hl Hops.
  assert (Hgen : forall e, gas_inv limits e -> gas_inv limits (foldl (fun e o => run_gas_op limits o e) e ops)).
  { induction Hops as [|o ops Ho _ IH]; intros e Hi; [done|]. simpl. apply IH.
    destruct o as [limit|now gas|now1 now2 gas tx]; simpl in *.
    - unfold gas_inv in *. simpl. unfold_ints. intuition lia.
    - pose proof (reserve_inv limits now gas e Hl Ho Hi) as H1.
      destruct (CheckAndReserveWindowGas limits now gas e) as [[[]| | |] e1]; simpl in *; try done.
      pose proof (reserve_block_inv limits gas e1 Ho H1) as H2.
      destruct (CheckAndReserveGas gas e1) as [[[]| | |] e2]; simpl in *; try done;
        apply refund_inv; try done; unfold_ints; lia.
    - pose proof (refund_inv limits now1 now2 gas tx e Hl Ho Hi) as H1. unfold RefundGas.
      unfold gas_inv in *. unfold_ints. destruct (Z.ltb_spec (blockGasUsed (refundWindowReservation limits now1 now2 gas tx e)) gas);
        simpl; intuition lia. }
  apply Hgen. destruct Hl as [? ?]. unfold gas_inv. simpl. unfold_ints. intuition lia.
Qed.

Lemma evm_gas_within_limits_witness :
  gas_inv (circuitBreakerLimits (F:=Z) None)
    (foldl (fun e o => run_gas_op (circuitBreakerLimits (F:=Z) None) o e) new_revm
       [OpReset 60000000; OpReserve 5 30000000; OpRefund 6 7 9000000 false; OpReserve 8 30000000]).
Proof.
  apply (evm_gas_within_limits (circuitBreakerLimits (F:=Z) None)).
  - by apply circuitBreakerLimits_ok.
  - repeat constructor; simpl; unfold_ints; lia.
Defined.
