(* ===== verification/World.v ===== *)
(** * The world state's account operations (src/core/state/worldstate.go,
    src/core/state/atomic_updates.go)

    The world state owns the account manager, the sharded account lock and the
    lock's version counters.  Its operations take the locks they take in the
    code: a lock that cannot be had blocks the goroutine for ever ([Hang]),
    since no other goroutine is there to release it.  [deferred] runs the
    deferred unlock on every way out of a body. *)

From S2P Require Import Prelude Uint256 Address Storage AccountManager ShardedLock Governance Domains EvmGas.
From stdpp Require Import base tactics numbers list gmap strings sorting.
From Stdlib Require Import ZArith Lia Strings.Byte Strings.Ascii.
Open Scope Z_scope.
Open Scope list_scope.

Inductive ws_err : Type :=
| AccountError (e : am_err)
| AmountError (e : u256_err)
| NilBalance
| NegativeBalance
| GetFailed (e : am_err)
| UpdateFailed (e : am_err)
| SaveFailed (e : am_err)
| SenderGetFailed (e : am_err)
| ReceiverGetFailed (e : am_err)
| StateConflict
| SenderUpdateFailed (e : am_err)
| SenderSaveFailed (e : am_err)
| ReceiverUpdateFailed (e : am_err)
| ReceiverSaveFailed (e : am_err).

(** [account.Nonce = n], [account.Nonce++]. *)
Definition set_Nonce (n : Z) (a : Account) : Account :=
  MkAccount (acc_Address a) (acc_Balance a) n (acc_StakedAmount a) (acc_DelegatedTo a)
    (acc_Rewards a) (acc_CodeHash a) (acc_StorageRoot a).
Definition bump_Nonce (a : Account) : Account := set_Nonce (u64 (acc_Nonce a + 1)) a.

Section World.
Context `{MapOrder} {C F : Type} `{LRU C}.
Context (Keccak256 : list byte -> list byte) (shardID totalShards : Z).

Record world : Type := MkWorld {
  w_am : @am KV C;
  w_locks : list RWMutex;
  w_versions : list Z;
  w_validators : gmap string Validator;
  w_config : GovConfig F;
  w_evm : revm
}.

Definition set_am (a : am) (w : world) : world :=
  MkWorld a (w_locks w) (w_versions w) (w_validators w) (w_config w) (w_evm w).
Definition set_locks (l : list RWMutex) (w : world) : world :=
  MkWorld (w_am w) l (w_versions w) (w_validators w) (w_config w) (w_evm w).
Definition set_versions (v : list Z) (w : world) : world :=
  MkWorld (w_am w) (w_locks w) v (w_validators w) (w_config w) (w_evm w).

(** The account manager's database is also the registry's. *)
Definition registry_of (w : world) : registry := MkRegistry (w_validators w) (db (w_am w)).
Definition set_registry (g : registry) (w : world) : world :=
  MkWorld (set_db (reg_db g) (w_am w)) (w_locks w) (w_versions w) (reg_validators g) (w_config w) (w_evm w).

(** ** Calls into the components *)

Definition on_accounts {E A} (m : GoM am E A) : GoM world E A := fun w =>
  let '(r, a) := m (w_am w) in (r, set_am a w).
Definition on_am {E A} (f : am_err -> E) (m : GoM am am_err A) : GoM world E A :=
  on_accounts (wrapM f m).

Definition on_store {E A} (f : storage_err -> E) (m : GoM KV storage_err A) : GoM world E A := fun w =>
  let '(r, d) := m (db (w_am w)) in (wrap f r, set_am (set_db d (w_am w)) w).

Definition on_registry {E A} (f : gov_err -> E) (m : GoM registry gov_err A) : GoM world E A := fun w =>
  let '(r, g) := m (registry_of w) in (wrap f r, set_registry g w).

(** The governance manager holds the configuration and the world state. *)
Definition on_governance {E A} (f : gov_err -> E) (m : GoM (GovConfig F * registry) gov_err A)
    : GoM world E A := fun w =>
  let '(r, (c, g)) := m (w_config w, registry_of w) in
  let w' := set_registry g w in
  (wrap f r, MkWorld (w_am w') (w_locks w') (w_versions w') (w_validators w') c (w_evm w')).

Definition on_evm {E A} (f : evm_err -> E) (m : GoM revm evm_err A) : GoM world E A := fun w =>
  let '(r, e) := m (w_evm w) in
  (wrap f r, MkWorld (w_am w) (w_locks w) (w_versions w) (w_validators w) (w_config w) e).

Definition call_mutex {E} (ins : instr) : GoM world E unit := fun w =>
  match exec_instr ins (w_locks w) with
  | Some (Ok l) => (Ok tt, set_locks l w)
  | Some _ => (Panic, w)
  | None => (Hang, w)
  end.

Fixpoint call_mutexes {E} (calls : list instr) : GoM world E unit :=
  match calls with
  | [] => mret tt
  | i :: calls' => _ ← call_mutex i; call_mutexes calls'
  end.

(** [defer release()]: also on an error or a panic. *)
Definition deferred {E A} (release : list instr) (body : GoM world E A) : GoM world E A := fun w =>
  let '(r, w1) := body w in
  match r with
  | Hang => (Hang, w1)
  | _ => match call_mutexes (E:=E) release w1 with
         | (Ok _, w2) => (r, w2)
         | (Err e, w2) => (Err e, w2)
         | (Panic, w2) => (Panic, w2)
         | (Hang, w2) => (Hang, w2)
         end
  end.

(** [mu.Lock(k); defer mu.Unlock(k)]. *)
Definition guarded {E A} (acquire release : list instr) (body : GoM world E A) : GoM world E A :=
  _ ← call_mutexes acquire; deferred release body.

(** ** Single accounts *)

Definition ws_AtomicIncrementNonce (address : string) (expectedNonce : Z)
    : GoM world storage_err (bool * Z) :=
  on_store id (Storage.AtomicIncrementNonce address expectedNonce).

Definition ws_GetAccount (address : string) : GoM world ws_err loc :=
  guarded (RLock address) (RUnlock address)
    (on_am AccountError (GetAccount Keccak256 shardID totalShards address)).

Definition ws_GetBalance (address : string) : GoM world ws_err Z :=
  l ← ws_GetAccount address;
  acc ← on_am AccountError (load l);
  lift (wrap AmountError (ParseUint256Bytes (acc_Balance acc))).

(** A nil [*big.Int] is [None]. *)
Definition set_balance (address : string) (newBalance : option Z) : GoM (@am KV C) ws_err unit :=
  match newBalance with
  | None => throw NilBalance
  | Some newBalance =>
      _ ← refuse_if (Z.sgn newBalance <? 0) NegativeBalance;
      l ← wrapM GetFailed (GetAccount Keccak256 shardID totalShards address);
      _ ← wrapM AccountError (assign l (set_Balance (u256_or_nil newBalance)));
      wrapM UpdateFailed (UpdateAccount Keccak256 shardID totalShards l)
  end.

Definition ws_UpdateBalance (address : string) (newBalance : option Z) : GoM world ws_err unit :=
  guarded (Lock address) (Unlock address) (on_accounts (set_balance address newBalance)).

Definition ws_GetNonce (address : string) : GoM world ws_err Z :=
  guarded (RLock address) (RUnlock address)
    (on_am AccountError (GetNonce Keccak256 shardID totalShards address)).

Definition ws_SetNonce (address : string) (nonce : Z) : GoM world ws_err unit :=
  l ← ws_GetAccount address;
  _ ← on_am AccountError (assign l (set_Nonce nonce));
  on_am AccountError (UpdateAccount Keccak256 shardID totalShards l).

(** ** Batches of accounts *)

(** The deferred [Rollback] sees the batch as the body left it: unlocked when it
    was committed, still locked otherwise. *)
Definition or_rollback {E} (batch : AtomicBatch) (body : GoM world E unit) : GoM world E unit :=
  fun w => match body w with
           | (Ok u, w') => (Ok u, w')
           | (r, w') => deferred (snd (Rollback batch)) (fun w => (r, w)) w'
           end.

Definition with_batch {E} (addresses : list string) (body : AtomicBatch -> GoM world E unit)
    : GoM world E unit :=
  w ← get;
  let '(batch, acquire) := Batch_Lock (BeginBatch addresses (w_versions w)) in
  _ ← call_mutexes acquire;
  or_rollback batch (body batch).

Definition commit_batch {E} (batch : AtomicBatch) : GoM world E unit := fun w =>
  let '(_, release, vs) := Commit batch (w_versions w) in call_mutexes release (set_versions vs w).

Definition check_versions {E} (batch : AtomicBatch) (conflict : E) : GoM world E unit := fun w =>
  refuse_if (negb (ValidateVersions batch (w_versions w))) conflict w.

(** [UpdateAccount] and then the storage layer's own save, once more. *)
Definition update_and_save {E} (updateFailed saveFailed : am_err -> E) (l : loc) : GoM world E unit :=
  _ ← on_am updateFailed (UpdateAccount Keccak256 shardID totalShards l);
  on_am saveFailed (db_SaveAccount l).

Definition AtomicTransfer {E} (f : ws_err -> E) (fromAddr toAddr : string)
    (updateFunc : loc -> loc -> GoM am E unit) : GoM world E unit :=
  let addresses := fromAddr :: (if bool_decide (toAddr = fromAddr) then [] else [toAddr]) in
  with_batch addresses (fun batch =>
    sender ← on_am (f ∘ SenderGetFailed) (GetAccount Keccak256 shardID totalShards fromAddr);
    receiver ← (if bool_decide (toAddr = fromAddr) then mret sender
                else on_am (f ∘ ReceiverGetFailed) (GetAccount Keccak256 shardID totalShards toAddr));
    _ ← check_versions batch (f StateConflict);
    _ ← on_accounts (updateFunc sender receiver);
    _ ← update_and_save (f ∘ SenderUpdateFailed) (f ∘ SenderSaveFailed) sender;
    _ ← (if bool_decide (toAddr = fromAddr) then mret tt
         else update_and_save (f ∘ ReceiverUpdateFailed) (f ∘ ReceiverSaveFailed) receiver);
    commit_batch batch).

Definition ExecuteInTransaction {E} (f : ws_err -> E) (addresses : list string)
    (fn : GoM world E unit) : GoM world E unit :=
  with_batch addresses (fun batch =>
    _ ← check_versions batch (f StateConflict);
    _ ← fn;
    commit_batch batch).

Fixpoint update_all (accounts : list loc) : GoM world ws_err unit :=
  match accounts with
  | [] => mret tt
  | l :: accounts' => _ ← update_and_save UpdateFailed SaveFailed l; update_all accounts'
  end.

Fixpoint load_all (accounts : list loc) : GoM world ws_err (list Account) :=
  match accounts with
  | [] => mret []
  | l :: accounts' =>
      a ← on_am AccountError (load l); rest ← load_all accounts'; mret (a :: rest)
  end.

Definition AtomicUpdateAccounts (accounts : list loc) : GoM world ws_err unit :=
  if (length accounts =? 0)%nat then mret tt
  else
    objects ← load_all accounts;
    with_batch (acc_Address <$> objects) (fun batch =>
      _ ← check_versions batch StateConflict;
      _ ← update_all accounts;
      commit_batch batch).

Fixpoint get_all (addresses : list string) : GoM world ws_err (list loc) :=
  match addresses with
  | [] => mret []
  | addr :: addresses' =>
      l ← on_am GetFailed (GetAccount Keccak256 shardID totalShards addr);
      rest ← get_all addresses'; mret (l :: rest)
  end.

Definition GetAccountsSnapshot (addresses : list string) : GoM world ws_err (list loc) :=
  if (length addresses =? 0)%nat then mret []
  else guarded (RLockMultiple addresses) (RUnlockMultiple addresses) (get_all addresses).
End World.

(** ** Locks around a body *)

Section Locking.
Context {C F E : Type}.
Notation wstate := (@world C F).

Lemma set_locks_locks l1 l2 (w : wstate) : set_locks l1 (set_locks l2 w) = set_locks l1 w.
Proof. done. Qed.

Lemma set_locks_id (w : wstate) : set_locks (w_locks w) w = w.
Proof. by destruct w. Qed.

(** Free mutexes can be taken in the given order, and releasing them in reverse
    restores the locks. *)
Lemma acquire_release m idxs : forall locks,
  NoDup idxs -> (forall i, i ∈ idxs -> locks !! i = Some unlocked) ->
  exists locks', (forall w : wstate, call_mutexes (E:=E) (Acq m <$> idxs) (set_locks locks w) = (Ok tt, set_locks locks' w)) /\
  (forall w : wstate, call_mutexes (E:=E) (Rel m <$> rev idxs) (set_locks locks' w) = (Ok tt, set_locks locks w)).
Proof.
  induction idxs as [|x idxs IH]; intros locks Hnd Hfree; [by exists locks|].
  apply NoDup_cons in Hnd as [Hx Hnd].
  assert (Hlx : locks !! x = Some unlocked) by (apply Hfree; set_solver).
  set (taken := match m with W => MkRW true 0 | R => MkRW false 1 end).
  destruct (IH (<[x := taken]> locks) Hnd) as (locks' & Hacq & Hrel).
  { intros i Hi. rewrite list_lookup_insert_ne by (intros ->; done). apply Hfree. set_solver. }
  assert (Hlen : (x < length locks)%nat) by by eapply lookup_lt_Some.
  assert (Ht : exec_instr (Acq m x) locks = Some (Ok (<[x := taken]> locks))).
  { unfold exec_instr. rewrite Hlx. by destruct m. }
  assert (Hr : exec_instr (Rel m x) (<[x := taken]> locks) = Some (Ok locks)).
  { unfold exec_instr. rewrite list_lookup_insert_eq by done.
    destruct m; simpl; rewrite list_insert_insert_eq, list_insert_id by done; done. }
  exists locks'. split; intros w.
  - simpl. unfold mbind, GoM_bind, call_mutex. simpl. rewrite Ht. exact (Hacq w).
  - simpl. rewrite fmap_app. clear -Hrel Hr. specialize (Hrel w). simpl.
    revert Hrel. generalize (set_locks locks' w) as w0. generalize (Rel m <$> rev idxs) as calls.
    induction calls as [|i calls IHc]; intros w0; simpl.
    + unfold mret, GoM_ret. intros [= ->]. unfold mbind, GoM_bind, call_mutex. simpl. by rewrite Hr.
    + unfold mbind, GoM_bind. destruct (call_mutex i w0) as [[[]| | |] w1]; try done. apply IHc.
Qed.

Lemma keys_free keys i : i ∈ uniqueSortedShardIndexes keys -> NewShardedMutex !! i = Some unlocked.
Proof.
  rewrite uniqueSortedShardIndexes_elem. intros (k & _ & <-).
  unfold NewShardedMutex. apply lookup_replicate. split; [done|].
  pose proof (getShardIndex_bound k) as Hb. unfold NewShardedMutex in Hb. by rewrite length_replicate in Hb.
Qed.

Lemma keys_NoDup keys : NoDup (uniqueSortedShardIndexes keys).
Proof.
  unfold uniqueSortedShardIndexes. rewrite merge_sort_Permutation. apply shard_loop_NoDup.
Qed.

(** A batch just begun passes its version check. *)
Lemma begin_validates keys vs : ValidateVersions (BeginBatch keys vs) vs = true.
Proof.
  unfold ValidateVersions. apply forallb_forall. intros [k v] Hin. simpl.
  apply list_elem_of_In, elem_of_map_to_list in Hin. unfold BeginBatch in Hin. simpl in Hin.
  apply elem_of_list_to_map_2, list_elem_of_fmap in Hin as (j & [= -> ->] & _). apply Z.eqb_refl.
Qed.

Definition with_am_versions (a : am) (vs : list Z) (w : wstate) : wstate :=
  MkWorld a (w_locks w) vs (w_validators w) (w_config w) (w_evm w).

(** A batch whose body works on the accounts and then commits: the outcome and
    the accounts are the body's, and the locks are free again on every way out. *)
Lemma with_batch_run keys (m : GoM am E unit) (body : AtomicBatch -> GoM wstate E unit) (w : wstate) :
  w_locks w = NewShardedMutex ->
  (forall batch w1, w_versions w1 = w_versions w ->
     ValidateVersions batch (w_versions w) = true ->
     body batch w1 = (on_accounts m ≫= (fun _ => commit_batch batch)) w1) ->
  fst (m (w_am w)) <> Hang ->
  exists vs, with_batch keys body w = (fst (m (w_am w)), with_am_versions (snd (m (w_am w))) vs w).
Proof.
  intros Hl Hbody Hh.
  destruct (acquire_release W (uniqueSortedShardIndexes keys) NewShardedMutex (keys_NoDup keys)
    (fun i Hi => keys_free keys i Hi)) as (locks' & Hacq & Hrel).
  unfold with_batch. unfold mbind at 1, GoM_bind at 1, get. simpl.
  unfold mbind at 1, GoM_bind at 1. unfold LockMultiple.
  specialize (Hacq w). rewrite <-Hl, set_locks_id in Hacq.
  rewrite Hacq. unfold or_rollback. rewrite (Hbody _ (set_locks locks' w) eq_refl).
  2: apply (begin_validates keys).
  unfold mbind, GoM_bind, on_accounts. simpl.
  destruct (m (w_am w)) as [[[]|e| |] a]; simpl in *; [| | |done].
  - unfold commit_batch. simpl. unfold UnlockMultiple. eexists.
    change (set_versions ?v (set_am a (set_locks locks' w))) with
      (set_locks locks' (with_am_versions a v w)).
    rewrite Hrel. unfold with_am_versions. by rewrite Hl.
  - exists (w_versions w). unfold deferred. simpl. unfold UnlockMultiple.
    change (set_am a (set_locks locks' w)) with (set_locks locks' (set_am a w)).
    rewrite Hrel. unfold with_am_versions. by rewrite Hl.
  - exists (w_versions w). unfold deferred. simpl. unfold UnlockMultiple.
    change (set_am a (set_locks locks' w)) with (set_locks locks' (set_am a w)).
    rewrite Hrel. unfold with_am_versions. by rewrite Hl.
Qed.

(** [on_accounts] commutes with sequencing. *)
Lemma on_accounts_bind {A B} (m : GoM am E A) (k : A -> GoM am E B) (w : wstate) :
  on_accounts (m ≫= k) w = (on_accounts m ≫= (fun a => on_accounts (k a))) w.
Proof.
  unfold on_accounts, mbind, GoM_bind. by destruct (m (w_am w)) as [[a|e| |] s].
Qed.

Lemma on_accounts_ret {A} (a : A) (w : wstate) : on_accounts (mret a : GoM am E A) w = (Ok a, w).
Proof. by destruct w. Qed.

Lemma check_versions_pass batch (e : E) (w : wstate) :
  ValidateVersions batch (w_versions w) = true -> check_versions batch e w = (Ok tt, w).
Proof. unfold check_versions. by intros ->. Qed.

Lemma on_accounts_run {A} (m : GoM am E A) (w : wstate) :
  on_accounts m w = (fst (m (w_am w)), set_am (snd (m (w_am w))) w).
Proof. unfold on_accounts. by destruct (m (w_am w)). Qed.

(** One account's mutex around a body on the accounts. *)
Lemma guarded_run {A} m key (body : GoM am E A) (w : wstate) :
  w_locks w = NewShardedMutex -> fst (body (w_am w)) <> Hang ->
  guarded [Acq m (getShardIndex key)] [Rel m (getShardIndex key)] (on_accounts body) w =
    (fst (body (w_am w)), set_am (snd (body (w_am w))) w).
Proof.
  intros Hl Hh.
  destruct (acquire_release m [getShardIndex key] NewShardedMutex) as (locks' & Hacq & Hrel).
  { apply NoDup_singleton. }
  { intros i ->%list_elem_of_singleton. apply (keys_free [key]), uniqueSortedShardIndexes_elem.
    exists key. set_solver. }
  specialize (Hacq w). rewrite <-Hl, set_locks_id in Hacq. simpl in Hacq, Hrel.
  unfold guarded. unfold mbind at 1, GoM_bind at 1. simpl. rewrite Hacq.
  unfold deferred. rewrite on_accounts_run. simpl.
  change (set_am ?a (set_locks locks' w)) with (set_locks locks' (set_am a w)).
  rewrite Hrel, <-Hl. change (w_locks w) with (w_locks (set_am (snd (body (w_am w))) w)) at 1.
  destruct (fst (body (w_am w))); done.
Qed.
End Locking.
