(* ===== verification/Executor.v ===== *)
(** * The transaction executor (src/core/transaction/executor.go)

    Every transaction type is executed on the world state as the code does it:
    the stored nonce is advanced first and never rolled back, then the type's own
    handler checks and changes the account objects.  [atomic] says whether the
    state implements the optional atomic interface the handlers test for (the
    node's world state does); without it they run the same steps unlocked.
    The EVM engine is a library: its two entry points are arguments. *)

From S2P Require Import Prelude Uint256 Address Storage AccountManager ShardedLock Governance Domains World.
From stdpp Require Import base tactics numbers list gmap strings.
From Stdlib Require Import ZArith Lia Strings.Byte Strings.Ascii.
Open Scope Z_scope.
Open Scope list_scope.

Inductive exec_err : Type :=
| NilTransaction
| InvalidAmounts (e : u256_err)
| NonceStoreError (e : storage_err)
| NonceMismatch (expected current : Z)
| UnknownTransactionType
| CrossShardUnsupported
| SenderNotInShard
| GasLimitExceeded (gas : Z)
| InvalidGasLimit (gas : Z)
| WorldError (e : ws_err)
| AccountFailed (e : am_err)
| InvalidNonce (expected got : Z)
| NotEnoughBalance
| NotEnoughStaked
| NotEnoughDelegation
| NothingToClaim
| EmptyValidator
| GovernanceError (e : gov_err)
| WrongChainID
| NegativeGas
| IntrinsicGasTooLow
| InvalidTxAmount (e : u256_err)
| InvalidGasPrice (e : u256_err)
| InsufficientFunds
| EVMFailed (msg : string)
| AmountNegative
| GasPriceNotPositive.

(** [Error] is empty when [None]; the block height is never set. *)
Record ExecutionReceipt : Type := MkReceipt {
  r_TxHash : string;
  r_Status : Z;
  r_GasUsed : Z;
  r_Error : option exec_err
}.

Definition maxGasLimit : Z := 30000000.

Definition normalizeTransactionAmounts : GoM Transaction u256_err unit := fun tx =>
  match CanonicalizeUint256Bytes (tx_Amount tx) with
  | Ok amount =>
      match CanonicalizeUint256Bytes (tx_GasPrice tx) with
      | Ok price => (Ok tt, set_GasPrice price (set_Amount amount tx))
      | Err e => (Err e, set_GasPrice [] (set_Amount amount tx))
      | Panic => (Panic, tx)
      | Hang => (Hang, tx)
      end
  | Err e => (Err e, set_Amount [] tx)
  | Panic => (Panic, tx)
  | Hang => (Hang, tx)
  end.

(** The EVM engine: what it used and its error, if any; it may change the state. *)
Record evm_engine (W : Type) : Type := MkEngine {
  ExecuteCall : list byte -> list byte -> list byte -> Z -> Z -> Z -> W -> (Z * option string) * W;
  DeployContract : list byte -> list byte -> Z -> Z -> Z -> W -> (Z * option string) * W
}.
Arguments ExecuteCall {W}.
Arguments DeployContract {W}.

Section Executor.
Context `{MapOrder} {C F : Type} `{LRU C} `{Float64 F}.
Context `{Json Proposal, Json ProposalPayload, Json VotePayload, Json FinalizePayload,
          Json stakeDomainMembers}.
Context (Keccak256 HexToAddress : list byte -> list byte) (shardID totalShards : Z)
  (ChainID : string) (atomic : bool).

Notation W := (@world C F).
Context (engine : evm_engine W).

Notation Ex := (GoM W exec_err).
Notation Am := (GoM (@am KV C) exec_err).
Notation shard_of := (CalculateShardID Keccak256 totalShards).
Notation am_Get addr := (GetAccount Keccak256 shardID totalShards addr).
Notation am_Update l := (UpdateAccount Keccak256 shardID totalShards l).

Definition amount_of (tx : Transaction) : Z := ParseBigInt_bytes (tx_Amount tx).
Definition gas_cost (tx : Transaction) : Z := tx_Gas tx * ParseBigInt_bytes (tx_GasPrice tx).
Definition total_cost (tx : Transaction) : Z := amount_of tx + gas_cost tx.

(** ** The checks every handler starts with *)

Definition check_sender_shard {S} (tx : Transaction) : GoM S exec_err unit :=
  refuse_if (negb (shardID =? BeaconShardID) && negb (shard_of (tx_From tx) =? shardID)) SenderNotInShard.

Definition check_gas_limit {S} (tx : Transaction) : GoM S exec_err unit :=
  _ ← refuse_if (maxGasLimit <? tx_Gas tx) (GasLimitExceeded (tx_Gas tx));
  refuse_if (tx_Gas tx <=? 0) (InvalidGasLimit (tx_Gas tx)).

Definition check_nonce {S} (a : Account) (tx : Transaction) : GoM S exec_err unit :=
  refuse_if (negb (acc_Nonce a =? tx_Nonce tx)) (InvalidNonce (acc_Nonce a) (tx_Nonce tx)).

(** [if ws, ok := e.worldState.(interface{...}); ok { return ws.ExecuteInTransaction(...) }]. *)
Definition in_transaction (tx : Transaction) (body : Am unit) : Ex unit :=
  if atomic then ExecuteInTransaction WorldError [tx_From tx] (on_accounts body) else on_accounts body.

Definition get_account (addr : string) : Am loc := wrapM AccountFailed (am_Get addr).
Definition read (l : loc) : Am Account := wrapM AccountFailed (load l).
Definition write (l : loc) (f : Account -> Account) : Am unit := wrapM AccountFailed (assign l f).
Definition persist (l : loc) : Am unit := wrapM AccountFailed (am_Update l).

(** ** Transfers *)

Definition transfer_update (tx : Transaction) (sender receiver : loc) : Am unit :=
  s ← read sender;
  _ ← check_nonce s tx;
  let senderBalanceBig := ParseBigInt_bytes (acc_Balance s) in
  _ ← refuse_if (senderBalanceBig <? total_cost tx) NotEnoughBalance;
  r ← read receiver;
  let receiverBalanceBig := ParseBigInt_bytes (acc_Balance r) in
  _ ← write sender (set_Balance (u256_or_nil (senderBalanceBig - total_cost tx)));
  _ ← write receiver (set_Balance (u256_or_nil (receiverBalanceBig + amount_of tx)));
  write sender bump_Nonce.

Definition transfer_fallback (tx : Transaction) : Am unit :=
  sender ← get_account (tx_From tx);
  s ← read sender;
  let senderBalanceBig := ParseBigInt_bytes (acc_Balance s) in
  _ ← refuse_if (senderBalanceBig <? total_cost tx) NotEnoughBalance;
  _ ← check_nonce s tx;
  receiver ← get_account (tx_To tx);
  r ← read receiver;
  let receiverBalanceBig := ParseBigInt_bytes (acc_Balance r) in
  _ ← write sender (set_Balance (u256_or_nil (senderBalanceBig - total_cost tx)));
  _ ← write receiver (set_Balance (u256_or_nil (receiverBalanceBig + amount_of tx)));
  _ ← write sender bump_Nonce;
  _ ← persist sender;
  persist receiver.

Definition executeTransfer (tx : Transaction) : Ex unit :=
  _ ← refuse_if (negb (shard_of (tx_From tx) =? shard_of (tx_To tx))) CrossShardUnsupported;
  _ ← check_sender_shard tx;
  _ ← check_gas_limit tx;
  if atomic
  then AtomicTransfer Keccak256 shardID totalShards WorldError (tx_From tx) (tx_To tx) (transfer_update tx)
  else on_accounts (transfer_fallback tx).

(** ** Stakes and delegations *)

Definition stake_body (tx : Transaction) : Am unit :=
  l ← get_account (tx_From tx);
  account ← read l;
  _ ← check_nonce account tx;
  let senderBalanceBig := ParseBigInt_bytes (acc_Balance account) in
  _ ← refuse_if (senderBalanceBig <? total_cost tx) NotEnoughBalance;
  let stakedAmountBig := ParseBigInt_bytes (acc_StakedAmount account) in
  _ ← write l (set_Balance (u256_or_nil (senderBalanceBig - total_cost tx)));
  _ ← write l (set_StakedAmount (u256_or_nil (stakedAmountBig + amount_of tx)));
  _ ← write l bump_Nonce;
  persist l.

Definition executeStake (tx : Transaction) : Ex unit :=
  _ ← check_sender_shard tx;
  _ ← check_gas_limit tx;
  in_transaction tx (stake_body tx).

Definition unstake_body (tx : Transaction) : Am unit :=
  l ← get_account (tx_From tx);
  account ← read l;
  _ ← check_nonce account tx;
  let senderBalanceBig := ParseBigInt_bytes (acc_Balance account) in
  let stakedAmountBig := ParseBigInt_bytes (acc_StakedAmount account) in
  _ ← refuse_if (senderBalanceBig <? gas_cost tx) NotEnoughBalance;
  _ ← refuse_if (stakedAmountBig <? amount_of tx) NotEnoughStaked;
  _ ← write l (set_Balance (u256_or_nil (senderBalanceBig - gas_cost tx + amount_of tx)));
  _ ← write l (set_StakedAmount (u256_or_nil (stakedAmountBig - amount_of tx)));
  _ ← write l bump_Nonce;
  persist l.

Definition executeUnstake (tx : Transaction) : Ex unit :=
  _ ← check_sender_shard tx;
  _ ← check_gas_limit tx;
  in_transaction tx (unstake_body tx).

Definition delegation (a : Account) (validatorAddr : string) : Z :=
  ParseBigInt_bytes (default [] (acc_DelegatedTo a !! validatorAddr)).

Definition delegate_body (tx : Transaction) : Am unit :=
  l ← get_account (tx_From tx);
  delegator ← read l;
  _ ← check_nonce delegator tx;
  let validatorAddr := tx_To tx in
  _ ← refuse_if (bool_decide (validatorAddr = "")) EmptyValidator;
  let delegatorBalanceBig := ParseBigInt_bytes (acc_Balance delegator) in
  _ ← refuse_if (delegatorBalanceBig <? total_cost tx) NotEnoughBalance;
  let stakedAmountBig := ParseBigInt_bytes (acc_StakedAmount delegator) in
  _ ← write l (set_Balance (u256_or_nil (delegatorBalanceBig - total_cost tx)));
  _ ← write l (set_StakedAmount (u256_or_nil (stakedAmountBig + amount_of tx)));
  _ ← write l (fun a => set_DelegatedTo
        (<[validatorAddr := u256_or_nil (delegation delegator validatorAddr + amount_of tx)]>
           (acc_DelegatedTo a)) a);
  _ ← write l bump_Nonce;
  persist l.

Definition executeDelegate (tx : Transaction) : Ex unit :=
  _ ← check_sender_shard tx;
  _ ← check_gas_limit tx;
  in_transaction tx (delegate_body tx).

Definition undelegate_body (tx : Transaction) : Am unit :=
  l ← get_account (tx_From tx);
  delegator ← read l;
  _ ← check_nonce delegator tx;
  let validatorAddr := tx_To tx in
  _ ← refuse_if (bool_decide (validatorAddr = "")) EmptyValidator;
  let delegatorBalanceBig := ParseBigInt_bytes (acc_Balance delegator) in
  let stakedAmountBig := ParseBigInt_bytes (acc_StakedAmount delegator) in
  _ ← refuse_if (delegatorBalanceBig <? gas_cost tx) NotEnoughBalance;
  let currentDelegationBig := delegation delegator validatorAddr in
  _ ← refuse_if (currentDelegationBig <? amount_of tx) NotEnoughDelegation;
  _ ← refuse_if (stakedAmountBig <? amount_of tx) NotEnoughStaked;
  _ ← write l (set_Balance (u256_or_nil (delegatorBalanceBig - gas_cost tx + amount_of tx)));
  _ ← write l (set_StakedAmount (u256_or_nil (stakedAmountBig - amount_of tx)));
  let newDelegation := currentDelegationBig - amount_of tx in
  _ ← (if Z.sgn newDelegation =? 0
       then write l (fun a => set_DelegatedTo (delete validatorAddr (acc_DelegatedTo a)) a)
       else write l (fun a => set_DelegatedTo
              (<[validatorAddr := u256_or_nil newDelegation]> (acc_DelegatedTo a)) a));
  _ ← write l bump_Nonce;
  persist l.

Definition executeUndelegate (tx : Transaction) : Ex unit :=
  _ ← check_sender_shard tx;
  _ ← check_gas_limit tx;
  in_transaction tx (undelegate_body tx).

Definition claimRewards_body (tx : Transaction) : Am unit :=
  l ← get_account (tx_From tx);
  account ← read l;
  _ ← check_nonce account tx;
  let senderBalanceBig := ParseBigInt_bytes (acc_Balance account) in
  let rewardsBig := ParseBigInt_bytes (acc_Rewards account) in
  _ ← refuse_if (senderBalanceBig <? gas_cost tx) NotEnoughBalance;
  _ ← refuse_if (Z.sgn rewardsBig <=? 0) NothingToClaim;
  _ ← write l (set_Balance (u256_or_nil (senderBalanceBig - gas_cost tx + rewardsBig)));
  _ ← write l (set_Rewards []);
  _ ← write l bump_Nonce;
  persist l.

Definition executeClaimRewards (tx : Transaction) : Ex unit :=
  _ ← check_sender_shard tx;
  _ ← check_gas_limit tx;
  in_transaction tx (claimRewards_body tx).

(** ** Governance *)

Definition applyGovernanceGasAndNonce (tx : Transaction) : Am unit :=
  l ← get_account (tx_From tx);
  account ← read l;
  let balance := ParseBigInt_bytes (acc_Balance account) in
  _ ← refuse_if (balance <? gas_cost tx) NotEnoughBalance;
  _ ← write l (set_Balance (u256_or_nil (balance - gas_cost tx)));
  _ ← write l bump_Nonce;
  persist l.

Definition payload_text (tx : Transaction) : string := String.string_of_list_byte (tx_Data tx).

(** [now1], [now2]: what [time.Now] answers on this node. *)
Definition executeGovernanceProposal (now1 : Z) (tx : Transaction) : Ex unit :=
  payload ← lift (wrap GovernanceError (ParseProposalPayload (payload_text tx)));
  _ ← on_governance GovernanceError
        (SubmitProposal now1 (tx_Hash tx) (tx_From tx) (pp_Parameter payload) (pp_ProposedValue payload));
  on_accounts (applyGovernanceGasAndNonce tx).

Definition executeGovernanceVote (now1 now2 : Z) (tx : Transaction) : Ex unit :=
  payload ← lift (wrap GovernanceError (ParseVotePayload (payload_text tx)));
  _ ← on_governance GovernanceError
        (CastVote now1 now2 (vp_ProposalID payload) (tx_From tx) (vp_Approve payload));
  on_accounts (applyGovernanceGasAndNonce tx).

Definition executeGovernanceFinalize (now1 now2 : Z) (tx : Transaction) : Ex unit :=
  payload ← lift (wrap GovernanceError (ParseFinalizePayload (payload_text tx)));
  _ ← on_governance GovernanceError (FinalizeProposal now1 now2 (fp_ProposalID payload));
  on_accounts (applyGovernanceGasAndNonce tx).

(** ** EVM transactions *)

Definition ws_Balance (addr : string) : GoM W ws_err Z := ws_GetBalance Keccak256 shardID totalShards addr.
Definition ws_SetBalance (addr : string) (v : Z) : GoM W ws_err unit :=
  ws_UpdateBalance Keccak256 shardID totalShards addr (Some v).

(** A call whose error is dropped or only logged. *)
Definition ignored {A} (m : GoM W ws_err A) : Ex unit := fun w =>
  match m w with
  | (Panic, w') => (Panic, w')
  | (Hang, w') => (Hang, w')
  | (_, w') => (Ok tt, w')
  end.

(** Add [v] to the balance as it is now. *)
Definition credit (addr : string) (v : Z) : GoM W ws_err unit :=
  currentBalance ← ws_Balance addr; ws_SetBalance addr (currentBalance + v).

Definition run_engine (f : W -> (Z * option string) * W) : Ex (Z * option string) := fun w =>
  let '(r, w') := f w in (Ok r, w').

Definition address_of (s : string) : list byte := HexToAddress (bytes_of_string s).

Definition executeEVMCall (tx : Transaction) : GoM W (option ExecutionReceipt * exec_err) ExecutionReceipt :=
  '(gasUsed, err) ← wrapM (pair None) (
    _ ← refuse_if (negb (bool_decide (tx_ChainId tx = ChainID))) WrongChainID;
    _ ← refuse_if (tx_Gas tx <? 0) NegativeGas;
    _ ← refuse_if (tx_Gas tx <? 21000) IntrinsicGasTooLow;
    _ ← refuse_if (maxGasLimit <? tx_Gas tx) (GasLimitExceeded (tx_Gas tx));
    value ← lift (wrap InvalidTxAmount (ParseUint256Bytes (tx_Amount tx)));
    gasPrice ← lift (wrap InvalidGasPrice (ParseUint256Bytes (tx_GasPrice tx)));
    nonce ← wrapM WorldError (ws_GetNonce Keccak256 shardID totalShards (tx_From tx));
    _ ← refuse_if (negb (tx_Nonce tx =? nonce)) (InvalidNonce nonce (tx_Nonce tx));
    let maxGasCost := u64 (tx_Gas tx) * gasPrice in
    let totalReq := maxGasCost + value in
    balance ← wrapM WorldError (ws_Balance (tx_From tx));
    _ ← refuse_if (balance <? totalReq) InsufficientFunds;
    _ ← ignored (ws_SetBalance (tx_From tx) (balance - totalReq));
    '(gasUsed, err) ← run_engine (ExecuteCall engine (address_of (tx_From tx)) (address_of (tx_To tx))
                                    (tx_Data tx) (u64 (tx_Gas tx)) value nonce);
    let gasRefund := maxGasCost - gasUsed * gasPrice in
    _ ← (if 0 <? Z.sgn gasRefund then ignored (credit (tx_From tx) gasRefund) else mret tt);
    _ ← (match err with Some _ => ignored (credit (tx_From tx) value) | None => mret tt end);
    mret (gasUsed, err));
  match err with
  | Some msg => throw (Some (MkReceipt (tx_Hash tx) 0 (i64 gasUsed) (Some (EVMFailed msg))), EVMFailed msg)
  | None => mret (MkReceipt (tx_Hash tx) 1 (i64 gasUsed) None)
  end.

Definition executeEVMDeploy (tx : Transaction) : Ex unit :=
  _ ← refuse_if (negb (bool_decide (tx_ChainId tx = ChainID))) WrongChainID;
  value ← lift (wrap InvalidTxAmount (ParseUint256Bytes (tx_Amount tx)));
  gasPrice ← lift (wrap InvalidGasPrice (ParseUint256Bytes (tx_GasPrice tx)));
  nonce ← wrapM WorldError (ws_GetNonce Keccak256 shardID totalShards (tx_From tx));
  _ ← refuse_if (negb (tx_Nonce tx =? nonce)) (InvalidNonce nonce (tx_Nonce tx));
  let maxGasCost := u64 (tx_Gas tx) * gasPrice in
  let totalReq := maxGasCost + value in
  balance ← wrapM WorldError (ws_Balance (tx_From tx));
  _ ← refuse_if (balance <? totalReq) InsufficientFunds;
  _ ← wrapM WorldError (ws_SetBalance (tx_From tx) (balance - totalReq));
  '(gasUsed, err) ← run_engine (DeployContract engine (address_of (tx_From tx)) (tx_Data tx)
                                  (u64 (tx_Gas tx)) value (tx_Nonce tx));
  let gasRefund := maxGasCost - gasUsed * gasPrice in
  _ ← (if 0 <? Z.sgn gasRefund then ignored (credit (tx_From tx) gasRefund) else mret tt);
  match err with
  | Some msg => _ ← wrapM WorldError (credit (tx_From tx) value); throw (EVMFailed msg)
  | None => mret tt
  end.

(** ** Dispatch *)

Definition execute_by_type (now1 now2 : Z) (tx : Transaction) : Ex unit :=
  match tx_Type tx with
  | TRANSFER => executeTransfer tx
  | STAKE => executeStake tx
  | UNSTAKE => executeUnstake tx
  | DELEGATE => executeDelegate tx
  | UNDELEGATE => executeUndelegate tx
  | CLAIM_REWARDS => executeClaimRewards tx
  | GOVERNANCE_PROPOSE => executeGovernanceProposal now1 tx
  | GOVERNANCE_VOTE => executeGovernanceVote now1 now2 tx
  | GOVERNANCE_FINALIZE => executeGovernanceFinalize now1 now2 tx
  | _ => throw UnknownTransactionType
  end.

(** An error that leaves a failed receipt behind. *)
Definition with_receipt {A} (tx : Transaction) (m : Ex A)
    : GoM W (option ExecutionReceipt * exec_err) A := fun w =>
  let '(r, w') := m w in
  (wrap (fun e => (Some (MkReceipt (tx_Hash tx) 0 (tx_Gas tx) (Some e)), e)) r, w').

Definition ExecuteTransaction (now1 now2 : Z) (tx : option Transaction)
    : GoM W (option ExecutionReceipt * exec_err) ExecutionReceipt :=
  match tx with
  | None => throw (None, NilTransaction)
  | Some tx =>
      match normalizeTransactionAmounts tx with
      | (Ok _, tx) =>
          let success := MkReceipt (tx_Hash tx) 1 (tx_Gas tx) None in
          match tx_Type tx with
          | EVM_CONTRACT_CALL => executeEVMCall tx
          | EVM_CONTRACT_DEPLOY => _ ← with_receipt tx (executeEVMDeploy tx); mret success
          | _ =>
              _ ← with_receipt tx (
                '(ok, currentNonce) ← on_store NonceStoreError (AtomicIncrementNonce (tx_From tx) (tx_Nonce tx));
                _ ← refuse_if (negb ok) (NonceMismatch (tx_Nonce tx) currentNonce);
                execute_by_type now1 now2 tx);
              mret success
          end
      | (Err e, _) => throw (None, InvalidAmounts e)
      | (Panic, _) => panic
      | (Hang, _) => fun w => (Hang, w)
      end
  end.

(** The receipts so far, and the index of the transaction that failed. *)
Fixpoint batch_loop (clock : nat -> Z * Z) (i : nat) (txs : list (option Transaction))
    (receipts : list ExecutionReceipt)
    : GoM W (list ExecutionReceipt * nat * exec_err) (list ExecutionReceipt) :=
  match txs with
  | [] => mret receipts
  | tx :: txs' =>
      receipt ← wrapM (fun e => (receipts, i, snd e))
                  (ExecuteTransaction (fst (clock i)) (snd (clock i)) tx);
      batch_loop clock (S i) txs' (receipts ++ [receipt])
  end.

Definition ExecuteBatch (clock : nat -> Z * Z) (txs : list (option Transaction))
    : GoM W (list ExecutionReceipt * nat * exec_err) (list ExecutionReceipt) :=
  batch_loop clock 0 txs [].

(** ** The dry check *)

Definition check_funds (tx : Transaction) (sender : Account) : outcome exec_err unit :=
  let balance := ParseBigInt_bytes (acc_Balance sender) in
  let staked := ParseBigInt_bytes (acc_StakedAmount sender) in
  let rewards := ParseBigInt_bytes (acc_Rewards sender) in
  match tx_Type tx with
  | TRANSFER | STAKE | DELEGATE => if balance <? total_cost tx then Err NotEnoughBalance else Ok tt
  | UNSTAKE | UNDELEGATE =>
      if balance <? gas_cost tx then Err NotEnoughBalance
      else if staked <? amount_of tx then Err NotEnoughStaked else Ok tt
  | CLAIM_REWARDS =>
      if balance <? gas_cost tx then Err NotEnoughBalance
      else if Z.sgn rewards <=? 0 then Err NothingToClaim else Ok tt
  | GOVERNANCE_PROPOSE | GOVERNANCE_VOTE | GOVERNANCE_FINALIZE =>
      if balance <? gas_cost tx then Err NotEnoughBalance else Ok tt
  | _ => Ok tt
  end.

Definition ValidateExecution (tx : option Transaction) : Am unit :=
  match tx with
  | None => throw NilTransaction
  | Some tx =>
      _ ← refuse_if (Z.sgn (amount_of tx) <? 0) AmountNegative;
      _ ← refuse_if (tx_Gas tx <=? 0) (InvalidGasLimit (tx_Gas tx));
      _ ← refuse_if (Z.sgn (ParseBigInt_bytes (tx_GasPrice tx)) <=? 0) GasPriceNotPositive;
      l ← get_account (tx_From tx);
      sender ← read l;
      _ ← check_nonce sender tx;
      _ ← check_gas_limit tx;
      lift (check_funds tx sender)
  end.

(** [WorldState.ValidateTransactionExecution]. *)
Definition ValidateTransactionExecution (tx : Transaction) : Ex unit :=
  if bool_decide (tx_From tx = "") then on_accounts (ValidateExecution (Some tx))
  else guarded (RLock (tx_From tx)) (RUnlock (tx_From tx)) (on_accounts (ValidateExecution (Some tx))).
End Executor.
