(* ===== verification/ExecutorSpec.v ===== *)
(** * What executing a transaction does to the ledger

    The executor's handlers refine a step on the abstract ledger of
    [AccountSpec] together with the separately stored nonces.  The step says
    which transactions are applied, which are refused, and which corrupt the
    cached account object because the code changes it before it validates it. *)

From S2P Require Import Prelude Uint256 Address Storage AccountManager AccountSpec ShardedLock Governance.
From S2P Require Import Domains World Executor.
From stdpp Require Import base tactics numbers list gmap strings.
From Stdlib Require Import ZArith Lia Strings.Byte Strings.Ascii.
Open Scope Z_scope.
Open Scope list_scope.

(** ** Frames

    [keeps R m]: whatever the outcome of [m], the state after it is related to
    the state before. *)

Definition keeps {S E A} (R : S -> S -> Prop) (m : GoM S E A) : Prop := forall s, R s (snd (m s)).

Section Keeps.
Context {S E : Type} (R : S -> S -> Prop) `{!PreOrder R}.

Lemma keeps_ret {A} (a : A) : keeps R (mret a : GoM S E A).
Proof. intros s. simpl. reflexivity. Qed.
Lemma keeps_throw {A} (e : E) : keeps R (throw e : GoM S E A).
Proof. intros s. simpl. reflexivity. Qed.
Lemma keeps_lift {A} (m : outcome E A) : keeps R (lift m : GoM S E A).
Proof. intros s. simpl. reflexivity. Qed.
Lemma keeps_get : keeps R (get : GoM S E S).
Proof. intros s. simpl. reflexivity. Qed.
Lemma keeps_refuse c (e : E) : keeps R (refuse_if c e : GoM S E unit).
Proof. intros s. destruct c; simpl; reflexivity. Qed.
Lemma keeps_bind {A B} (m : GoM S E A) (f : A -> GoM S E B) :
  keeps R m -> (forall a, keeps R (f a)) -> keeps R (m ≫= f).
Proof.
  intros Hm Hf s. specialize (Hm s). unfold mbind, GoM_bind.
  destruct (m s) as [[a| | |] s']; simpl in *; try done. etransitivity; [done|apply Hf].
Qed.
Lemma keeps_wrapM {E' A} (g : E' -> E) (m : GoM S E' A) : keeps R m -> keeps R (wrapM g m).
Proof. intros Hm s. specialize (Hm s). unfold wrapM. by destruct (m s). Qed.
End Keeps.

Create HintDb frame.
#[export] Hint Resolve keeps_ret keeps_throw keeps_lift keeps_get keeps_refuse keeps_wrapM : frame.
#[export] Hint Extern 1 (PreOrder _) => apply _ : frame.
Ltac frame :=
  repeat match goal with
  | |- keeps _ (_ ≫= _) => apply keeps_bind; [apply _| |intros ?]
  | |- keeps _ (if ?c then _ else _) => destruct c
  | |- keeps _ (match ?x with _ => _ end) => destruct x
  end; eauto with frame.

(** ** The part of the store that holds no accounts *)

Definition same_rest (d d' : KV) : Prop :=
  (forall k, strip_acc k = None -> kv_data d' !! k = kv_data d !! k) /\ (quiet d -> quiet d').
#[global] Instance same_rest_preorder : PreOrder same_rest.
Proof. split; [done|]. intros a b c [H1 Q1] [H2 Q2]. split; [|tauto]. intros k Hk. by rewrite H2, H1. Qed.

Lemma strip_nonce k : strip_acc (NonceKey k) = None.
Proof. done. Qed.

Lemma same_rest_nonce d d' k : same_rest d d' -> stored_nonce d' k = stored_nonce d k.
Proof. intros [Hr _]. unfold stored_nonce. by rewrite (Hr _ (strip_nonce k)). Qed.

(** A write under a key that is no account's. *)
Lemma insert_rest d k b io :
  strip_acc k = None ->
  accounts_view (MkKV (<[k := b]> (kv_data d)) io) = accounts_view d /\
  (db_ok d -> db_ok (MkKV (<[k := b]> (kv_data d)) io)).
Proof.
  intros Hk. assert (Hne : forall j, k <> AccountKey j).
  { intros j ->. assert (strip_acc (AccountKey j) = Some j) by by apply strip_acc_spec. congruence. }
  split.
  - apply map_eq. intros j. rewrite !accounts_view_lookup. simpl. by rewrite lookup_insert_ne.
  - intros Hok j b'. simpl. rewrite lookup_insert_ne by done. apply Hok.
Qed.

Section AccountFrames.
Context `{MapOrder} {C : Type} `{LRU C}.
Context (Keccak256 : list byte -> list byte) (shardID totalShards : Z).

Definition am_rest (s s' : @am KV C) : Prop := same_rest (db s) (db s').
#[global] Instance am_rest_preorder : PreOrder am_rest.
Proof. split; [done|]. intros a b c Hab Hbc. unfold am_rest in *. by etransitivity. Qed.

Lemma access_rest : keeps same_rest access.
Proof. intros d. unfold access, same_rest, quiet. by destruct (kv_io d) as [|[] io] eqn:Hio; simpl; rewrite ?Hio. Qed.

Lemma load_rest l : keeps am_rest (load l).
Proof. intros s. unfold load. by destruct (heap s !! l). Qed.
Lemma modify_heap_rest h : keeps am_rest (modify (E:=am_err) (fun s => set_heap (h s) s)).
Proof. by intros s. Qed.
Lemma assign_rest l f : keeps am_rest (assign l f).
Proof. unfold assign. apply keeps_bind; [apply _|apply load_rest|]. intros a. by intros s. Qed.
Lemma alloc_rest a : keeps am_rest (alloc a).
Proof. by intros s. Qed.
Lemma cache_Get_rest addr : keeps am_rest (cache_Get addr).
Proof. intros s. unfold cache_Get. by destruct (lru_Get addr (cache s)). Qed.
Lemma cache_Add_rest addr l : keeps am_rest (cache_Add addr l).
Proof. by intros s. Qed.

Lemma GetAccount_kv_rest k : keeps same_rest (Storage.GetAccount k).
Proof.
  intros d. unfold Storage.GetAccount, kv_Get, mbind, GoM_bind. pose proof (access_rest d) as Ha.
  destruct (access d) as [[[]|[]| |] d1]; simpl in *; try done.
  destruct (kv_data d1 !! AccountKey k) as [b|]; simpl; [|done]. by destruct (decode_account b).
Qed.

Lemma SaveAccount_kv_rest a d : same_rest d (snd (snd (SaveAccount (a, d)))).
Proof.
  unfold SaveAccount, mbind, GoM_bind, wrapM, on_fst.
  destruct (syncAccountCompatForWrite a) as [[[]| | |] a']; simpl; try done.
  unfold on_snd, kv_Set, mbind, GoM_bind. pose proof (access_rest d) as Ha.
  destruct (access d) as [[[]| | |] d1]; simpl in *; try done.
  split; [|apply Ha]. intros k Hk. simpl. rewrite lookup_insert_ne; [by apply Ha|].
  intros <-. assert (strip_acc (AccountKey (acc_Address a')) = Some (acc_Address a')) by by apply strip_acc_spec.
  congruence.
Qed.

Lemma db_GetAccount_rest addr : keeps am_rest (db_GetAccount addr).
Proof.
  intros s. unfold db_GetAccount, am_rest. simpl. pose proof (GetAccount_kv_rest addr (db s)) as Hr.
  by destruct (Storage.GetAccount addr (db s)).
Qed.
Lemma db_SaveAccount_rest l : keeps am_rest (db_SaveAccount l).
Proof.
  unfold db_SaveAccount. apply keeps_bind; [apply _|apply load_rest|]. intros a s.
  unfold save_object, am_rest. simpl. pose proof (SaveAccount_kv_rest a (db s)) as Hr.
  by destruct (SaveAccount (a, db s)) as [r [a' d']].
Qed.

Lemma GetAccount_rest addr : keeps am_rest (GetAccount Keccak256 shardID totalShards addr).
Proof.
  unfold GetAccount. frame; eauto using cache_Get_rest, db_GetAccount_rest, alloc_rest, cache_Add_rest with frame.
Qed.
Lemma UpdateAccount_rest l : keeps am_rest (UpdateAccount Keccak256 shardID totalShards l).
Proof.
  unfold UpdateAccount. frame; eauto using load_rest, assign_rest, db_SaveAccount_rest, cache_Add_rest.
Qed.
End AccountFrames.
#[export] Hint Resolve load_rest assign_rest db_SaveAccount_rest GetAccount_rest UpdateAccount_rest : frame.

(** ** The ledger's side *)

Definition valid_acctb (a : acct) : bool :=
  (0 <=? bal a) && (0 <=? staked a) && (0 <=? rewards a) &&
  forallb (fun kv => IsValid (fst kv) && (0 <? snd kv)) (map_to_list (deleg a)) &&
  (map_sum id (deleg a) <=? staked a).

Lemma valid_acctb_spec a : valid_acctb a = true <-> valid_acct a.
Proof.
  unfold valid_acctb, valid_acct. rewrite !andb_true_iff, !Z.leb_le, forallb_forall.
  assert (Hf : (forall kv, In kv (map_to_list (deleg a)) -> IsValid (fst kv) && (0 <? snd kv) = true) <->
    map_Forall (fun k v => IsValid k = true /\ 0 < v) (deleg a)).
  { split.
    - intros Hf k v Hk. apply elem_of_map_to_list, list_elem_of_In in Hk. specialize (Hf _ Hk). simpl in Hf.
      by apply andb_true_iff in Hf as [? ?%Z.ltb_lt].
    - intros Hf [k v] Hk. apply list_elem_of_In, elem_of_map_to_list in Hk. destruct (Hf k v Hk).
      apply andb_true_iff. by rewrite Z.ltb_lt. }
  rewrite Hf. tauto.
Qed.

(** What a transaction of one account makes of it: [None] is a refusal. *)
Definition sender_step (tx : Transaction) (a : acct) : option acct :=
  let v := amount_of tx in
  let g := gas_cost tx in
  let n := u64 (nonce a + 1) in
  let cur := default 0 (deleg a !! tx_To tx) in
  if negb (nonce a =? tx_Nonce tx) then None
  else match tx_Type tx with
  | STAKE =>
      if bal a <? v + g then None
      else Some (MkAcct (bal a - (v + g)) (staked a + v) (rewards a) (deleg a) n)
  | UNSTAKE =>
      if (bal a <? g) || (staked a <? v) then None
      else Some (MkAcct (bal a - g + v) (staked a - v) (rewards a) (deleg a) n)
  | DELEGATE =>
      if bool_decide (tx_To tx = "") || (bal a <? v + g) then None
      else Some (MkAcct (bal a - (v + g)) (staked a + v) (rewards a)
                   (<[tx_To tx := cur + v]> (deleg a)) n)
  | UNDELEGATE =>
      if bool_decide (tx_To tx = "") || (bal a <? g) || (cur <? v) || (staked a <? v) then None
      else Some (MkAcct (bal a - g + v) (staked a - v) (rewards a)
                   (if cur - v =? 0 then delete (tx_To tx) (deleg a)
                    else <[tx_To tx := cur - v]> (deleg a)) n)
  | CLAIM_REWARDS =>
      if (bal a <? g) || (rewards a <=? 0) then None
      else Some (MkAcct (bal a - g + rewards a) (staked a) 0 (deleg a) n)
  | _ => None
  end.

(** [Corrupting]: the new account is not a valid one, so the code refuses to
    store it after it has already changed the cached object. *)
Inductive verdict : Type := Applied (L : ledger) | Refused | Corrupting.

Definition single_verdict (ok : string -> bool) (tx : Transaction) (L : ledger) : verdict :=
  if negb (ok (tx_From tx)) then Refused
  else match sender_step tx (entry L (tx_From tx)) with
       | None => Refused
       | Some a' => if valid_acctb a' then Applied (<[tx_From tx := a']> L) else Corrupting
       end.

(** Paying oneself credits the amount and forgets the debit. *)
Definition transfer_verdict (ok : string -> bool) (tx : Transaction) (L : ledger) : verdict :=
  let from := tx_From tx in
  let to := tx_To tx in
  let v := amount_of tx in
  let a := entry L from in
  let b := entry L to in
  let n := u64 (nonce a + 1) in
  if negb (ok from) || negb (ok to) then Refused
  else if negb (nonce a =? tx_Nonce tx) || (bal a <? total_cost tx) then Refused
  else if bool_decide (to = from)
  then Applied (<[from := MkAcct (bal a + v) (staked a) (rewards a) (deleg a) n]> L)
  else Applied (<[to := MkAcct (bal b + v) (staked b) (rewards b) (deleg b) (nonce b)]>
               (<[from := MkAcct (bal a - total_cost tx) (staked a) (rewards a) (deleg a) n]> L)).

(** The types whose effect is on accounts alone. *)
Definition plain (ty : TransactionType) : bool :=
  match ty with
  | TRANSFER | STAKE | UNSTAKE | DELEGATE | UNDELEGATE | CLAIM_REWARDS | UnknownType _ => true
  | _ => false
  end.

Definition ledger_step (ok : string -> bool) (shard : string -> Z) (tx : Transaction) (L : ledger)
    : verdict :=
  if (maxGasLimit <? tx_Gas tx) || (tx_Gas tx <=? 0) then Refused
  else match tx_Type tx with
       | TRANSFER => if negb (shard (tx_From tx) =? shard (tx_To tx)) then Refused
                     else transfer_verdict ok tx L
       | _ => single_verdict ok tx L
       end.

(** What a self-transfer creates. *)
Definition self_mint (tx : Transaction) : Z :=
  match tx_Type tx with
  | TRANSFER => if bool_decide (tx_To tx = tx_From tx) then amount_of tx else 0
  | _ => 0
  end.

Lemma amount_nonneg tx : 0 <= amount_of tx.
Proof. apply ParseBigInt_bytes_nonneg. Qed.
Lemma gas_cost_nonneg tx : 0 <= tx_Gas tx -> 0 <= gas_cost tx.
Proof. intros. pose proof (ParseBigInt_bytes_nonneg (tx_GasPrice tx)). unfold gas_cost. nia. Qed.

(** ** The handlers *)

Section Bodies.
Context `{MapOrder} {C : Type} `{LRU C, !LRULaws C}.
Context (Keccak256 : list byte -> list byte) (shardID totalShards : Z).
Notation state := (@am KV C).
Notation Am := (GoM state exec_err).
Notation inv := (good Keccak256 shardID totalShards ∅).
Notation ok := (ok_addr Keccak256 shardID totalShards).
Notation get_account := (get_account Keccak256 shardID totalShards).
Notation persist := (persist Keccak256 shardID totalShards).

Lemma get_account_ok {A} addr (s : state) (k : loc -> Am A) :
  inv s -> quiet (db s) -> ok addr = true ->
  exists l a s', (get_account addr ≫= k) s = k l s' /\
  inv s' /\ db s' = db s /\ heap s' !! l = Some a /\ heap s ⊆ heap s' /\
  acc_Address a = addr /\ canon_account a /\
  abs_acct a = entry (abs s) addr /\ valid_acct (abs_acct a).
Proof.
  intros Hg Hq Hok. destruct (GetAccount_ok _ _ _ addr s Hg Hq Hok) as (l & a & s' & Hget & Hrest).
  exists l, a, s'. split; [|done]. unfold Executor.get_account, mbind, GoM_bind, wrapM. by rewrite Hget.
Qed.

Lemma get_account_err {A} addr (s : state) (k : loc -> Am A) :
  ok addr = false -> exists e, (get_account addr ≫= k) s = (Err e, s).
Proof.
  intros Hok. destruct (GetAccount_err _ _ _ addr s Hok) as [e He].
  exists (AccountFailed e). unfold Executor.get_account, mbind, GoM_bind, wrapM. by rewrite He.
Qed.

Lemma bind_read {A} l a (s : state) (k : Account -> Am A) :
  heap s !! l = Some a -> (read l ≫= k) s = k a s.
Proof. intros Hl. unfold read, mbind, GoM_bind, wrapM. by rewrite (load_run l a). Qed.

Lemma bind_write {A} l f a (s : state) (k : unit -> Am A) :
  heap s !! l = Some a -> (write l f ≫= k) s = k tt (set_heap (<[l := f a]> (heap s)) s).
Proof. intros Hl. unfold write, mbind, GoM_bind, wrapM. by rewrite (assign_run l f a). Qed.

Lemma bind_write2 {A} l f h s b (k : unit -> Am A) :
  (write l f ≫= k) (set_heap (<[l := b]> h) s) = k tt (set_heap (<[l := f b]> h) s).
Proof.
  rewrite (bind_write l f b) by apply lookup_insert_eq. simpl. by rewrite insert_insert_eq.
Qed.

Lemma bind_refuse {A} c (e : exec_err) s (k : unit -> Am A) :
  (refuse_if c e ≫= k) s = if c then (Err e, s) else k tt s.
Proof. by destruct c. Qed.

Lemma persisted (s s1 : state) l a a' x :
  inv s1 -> quiet (db s) -> db s1 = db s -> heap s1 !! l = Some a ->
  acc_Address a' = acc_Address a -> ok (acc_Address a) = true ->
  canon_account a' -> abs_acct a' = x -> valid_acct x ->
  exists s', persist l (set_heap (<[l := a']> (heap s1)) s1) = (Ok tt, s') /\ inv s' /\
  quiet (db s') /\ abs s' = <[acc_Address a := x]> (abs s).
Proof.
  intros Hg Hq Hdb Hl Ha Hok Hc Hx Hv.
  destruct (committed Keccak256 shardID totalShards s s1 l a a' x) as (r & s' & Hu & Hg' & Hq' & Hr & Habs);
    [done..|]. exists s'. unfold Executor.persist, wrapM. rewrite Hu. destruct r as [[]| | |]; done.
Qed.

(** [m] does to the accounts what the verdict says. *)
Definition meets (m : Am unit) (v : ledger -> verdict) (s : state) : Prop :=
  exists r s', m s = (r, s') /\
  match v (abs s) with
  | Applied L' => r = Ok tt /\ inv s' /\ quiet (db s') /\ abs s' = L'
  | Refused => is_err r = true /\ inv s' /\ quiet (db s') /\ abs s' = abs s
  | Corrupting => True
  end.

Lemma meets_ext (m : Am unit) v v' s : v (abs s) = v' (abs s) -> meets m v' s -> meets m v s.
Proof. unfold meets. by intros ->. Qed.

Lemma meets_total (m : Am unit) v s : v (abs s) = Corrupting -> meets m v s.
Proof. intros Hv. unfold meets. rewrite Hv. destruct (m s) as [r s'] eqn:Hm. eauto. Qed.

Lemma meets_refused (m : Am unit) v s s' e :
  v (abs s) = Refused -> m s = (Err e, s') -> inv s' -> db s' = db s -> quiet (db s) -> meets m v s.
Proof.
  intros Hv Hm Hg Hdb Hq. exists (Err e), s'. rewrite Hv, Hdb. split_and!; try done. by apply abs_db.
Qed.

(** Handlers that change the sender only: after the guards, the object [new a]
    is written and persisted. *)
Lemma single_meets (k : loc -> Am unit) tx s (new : Account -> Account) :
  inv s -> quiet (db s) ->
  (forall l a s1, inv s1 -> heap s1 !! l = Some a ->
     abs_acct a = entry (abs s) (tx_From tx) -> canon_account a -> valid_acct (abs_acct a) ->
     match sender_step tx (abs_acct a) with
     | None => exists e, k l s1 = (Err e, s1)
     | Some a' =>
         k l s1 = persist l (set_heap (<[l := new a]> (heap s1)) s1) /\
         acc_Address (new a) = acc_Address a /\
         (valid_acct a' -> canon_account (new a) /\ abs_acct (new a) = a')
     end) ->
  meets (get_account (tx_From tx) ≫= k) (single_verdict ok tx) s.
Proof.
  intros Hg Hq Hk. destruct (ok (tx_From tx)) eqn:Hok.
  - destruct (get_account_ok (tx_From tx) s k Hg Hq Hok)
      as (l & a & s1 & Hget & Hg1 & Hdb & Hl & _ & Haddr & Hc & Habs & Hv).
    specialize (Hk l a s1 Hg1 Hl Habs Hc Hv).
    destruct (sender_step tx (abs_acct a)) as [a'|] eqn:Hstep.
    + destruct Hk as (Hm & Hna & Hnew). rewrite <-Hget in Hm.
      destruct (valid_acctb a') eqn:Hv'.
      * apply valid_acctb_spec in Hv' as Hv2. destruct (Hnew Hv2) as [Hcn Han].
        destruct (persisted s s1 l a (new a) a') as (s' & Hp & Hg' & Hq' & Ha'); try done.
        { by rewrite Haddr. }
        exists (Ok tt), s'. unfold single_verdict. rewrite Hok, <-Habs, Hstep, Hm. simpl.
        rewrite Hv', <-Haddr. done.
      * apply meets_total. unfold single_verdict. rewrite Hok, <-Habs, Hstep. simpl.
        by rewrite Hv'.
    + destruct Hk as [e Hm]. apply (meets_refused _ _ s s1 e); try done; [|by rewrite Hget].
      unfold single_verdict. by rewrite Hok, <-Habs, Hstep.
  - destruct (get_account_err (tx_From tx) s k Hok) as [e He].
    apply (meets_refused _ _ s s e); try done. unfold single_verdict. by rewrite Hok.
Qed.

(** Run a handler up to its guards, with the object's amounts as the ledger's. *)
Ltac open_body tx Ht :=
  intros l a s1 Hg1 Hl Habs Hc Hv; pose proof Hc as (Hb & Hst & Hr & Hd);
  rewrite (bind_read l a) by done; unfold check_nonce, sender_step; rewrite Ht, bind_refuse;
  rewrite ?(canon_parse (acc_Balance a)), ?(canon_parse (acc_StakedAmount a)),
    ?(canon_parse (acc_Rewards a)) by done;
  cbn [bal staked rewards deleg nonce abs_acct];
  destruct (acc_Nonce a =? tx_Nonce tx); cbn [negb]; [|by eauto].

Ltac next_guard :=
  match goal with |- context [(refuse_if ?c ?e ≫= ?k) ?s] =>
    rewrite (bind_refuse c e s k); destruct c eqn:?; cbn [orb]; [by eauto|]
  end.

(** The writes collapse to the final object. *)
Ltac run_writes l a := rewrite (bind_write l _ a) by done; rewrite ?bind_write2.

Lemma entry_bound (s : state) k : inv s -> supply (abs s) < two256 -> funds (entry (abs s) k) < two256.
Proof. intros Hg Hs. destruct (funds_le_supply _ _ _ s k Hg). lia. Qed.

Section Single.
Context (tx : Transaction) (s : state).
Hypotheses (Hgas : 0 <= tx_Gas tx) (Hinv : inv s) (Hquiet : quiet (db s))
  (Hsupply : supply (abs s) < two256).

Lemma stake_meets :
  tx_Type tx = STAKE ->
  meets (stake_body Keccak256 shardID totalShards tx) (single_verdict ok tx) s.
Proof.
  intros Ht. unfold stake_body.
  pose proof (entry_bound s (tx_From tx) Hinv Hsupply) as Hf.
  pose proof (amount_nonneg tx). pose proof (gas_cost_nonneg tx Hgas).
  apply (single_meets _ tx s (fun a => bump_Nonce (set_StakedAmount
    (u256_or_nil (SetBytes (acc_StakedAmount a) + amount_of tx))
    (set_Balance (u256_or_nil (SetBytes (acc_Balance a) - total_cost tx)) a)))); [done..|].
  open_body tx Ht. unfold total_cost. next_guard. run_writes l a. split_and!; [done..|].
  intros _. rewrite <-Habs in Hf. unfold funds in Hf. destruct Hv as (? & ? & ? & ? & ?). simpl in *. zbool.
  destruct (u256_canon (SetBytes (acc_Balance a) - (amount_of tx + gas_cost tx))) as [? E1]; [lia|].
  destruct (u256_canon (SetBytes (acc_StakedAmount a) + amount_of tx)) as [? E2]; [lia|].
  split; [done|]. unfold abs_acct. simpl. by rewrite E1, E2.
Qed.

Lemma unstake_meets :
  tx_Type tx = UNSTAKE ->
  meets (unstake_body Keccak256 shardID totalShards tx) (single_verdict ok tx) s.
Proof.
  intros Ht. unfold unstake_body.
  pose proof (entry_bound s (tx_From tx) Hinv Hsupply) as Hf.
  pose proof (amount_nonneg tx). pose proof (gas_cost_nonneg tx Hgas).
  apply (single_meets _ tx s (fun a => bump_Nonce (set_StakedAmount
    (u256_or_nil (SetBytes (acc_StakedAmount a) - amount_of tx))
    (set_Balance (u256_or_nil (SetBytes (acc_Balance a) - gas_cost tx + amount_of tx)) a)))); [done..|].
  open_body tx Ht. next_guard. next_guard. run_writes l a. split_and!; [done..|].
  intros _. rewrite <-Habs in Hf. unfold funds in Hf. destruct Hv as (? & ? & ? & ? & ?). simpl in *. zbool.
  destruct (u256_canon (SetBytes (acc_Balance a) - gas_cost tx + amount_of tx)) as [? E1]; [lia|].
  destruct (u256_canon (SetBytes (acc_StakedAmount a) - amount_of tx)) as [? E2]; [lia|].
  split; [done|]. unfold abs_acct. simpl. by rewrite E1, E2.
Qed.

Lemma claim_meets :
  tx_Type tx = CLAIM_REWARDS ->
  meets (claimRewards_body Keccak256 shardID totalShards tx) (single_verdict ok tx) s.
Proof.
  intros Ht. unfold claimRewards_body.
  pose proof (entry_bound s (tx_From tx) Hinv Hsupply) as Hf. pose proof (gas_cost_nonneg tx Hgas).
  apply (single_meets _ tx s (fun a => bump_Nonce (set_Rewards []
    (set_Balance (u256_or_nil (SetBytes (acc_Balance a) - gas_cost tx + SetBytes (acc_Rewards a))) a)))); [done..|].
  open_body tx Ht. next_guard. rewrite bind_refuse.
  replace (Z.sgn (SetBytes (acc_Rewards a)) <=? 0) with (SetBytes (acc_Rewards a) <=? 0)
    by (destruct (Z.leb_spec (SetBytes (acc_Rewards a)) 0),
          (Z.leb_spec (Z.sgn (SetBytes (acc_Rewards a))) 0); lia).
  case_if; [by eauto|]. run_writes l a. split_and!; [done..|].
  intros _. rewrite <-Habs in Hf. unfold funds in Hf. destruct Hv as (? & ? & ? & ? & ?). simpl in *. zbool.
  destruct (u256_canon (SetBytes (acc_Balance a) - gas_cost tx + SetBytes (acc_Rewards a))) as [? E1]; [lia|].
  split; [done|]. unfold abs_acct. simpl. by rewrite E1.
Qed.

(** The recorded delegation, on both sides. *)
Lemma delegation_abs a v :
  canon_account a -> valid_acct (abs_acct a) ->
  delegation a v = default 0 ((SetBytes <$> acc_DelegatedTo a) !! v) /\
  0 <= delegation a v <= SetBytes (acc_StakedAmount a).
Proof.
  intros (_ & _ & _ & Hd) Hv. unfold delegation. rewrite lookup_fmap.
  destruct (acc_DelegatedTo a !! v) as [raw|] eqn:Hva; simpl.
  - rewrite canon_parse by by apply (Hd v). split; [done|].
    pose proof (delegation_le_staked (abs_acct a) v (SetBytes raw) Hv) as Hle.
    simpl in Hle. rewrite lookup_fmap, Hva in Hle. specialize (Hle eq_refl). lia.
  - destruct Hv as (_ & ? & _). change (ParseBigInt_bytes []) with 0. simpl in *. by split_and!.
Qed.

Lemma delegate_meets :
  tx_Type tx = DELEGATE ->
  meets (delegate_body Keccak256 shardID totalShards tx) (single_verdict ok tx) s.
Proof.
  intros Ht. unfold delegate_body.
  pose proof (entry_bound s (tx_From tx) Hinv Hsupply) as Hf.
  pose proof (amount_nonneg tx). pose proof (gas_cost_nonneg tx Hgas).
  apply (single_meets _ tx s (fun a => bump_Nonce (set_DelegatedTo
    (<[tx_To tx := u256_or_nil (delegation a (tx_To tx) + amount_of tx)]> (acc_DelegatedTo a))
    (set_StakedAmount (u256_or_nil (SetBytes (acc_StakedAmount a) + amount_of tx))
    (set_Balance (u256_or_nil (SetBytes (acc_Balance a) - total_cost tx)) a))))); [done..|].
  open_body tx Ht. unfold total_cost. next_guard. next_guard. run_writes l a. split_and!; [done..|].
  intros _. rewrite <-Habs in Hf. unfold funds in Hf.
  destruct (delegation_abs a (tx_To tx) Hc Hv) as [Hcur Hle].
  destruct Hv as (? & ? & ? & ? & ?). simpl in *. zbool.
  destruct (u256_canon (SetBytes (acc_Balance a) - (amount_of tx + gas_cost tx))) as [? E1]; [lia|].
  destruct (u256_canon (SetBytes (acc_StakedAmount a) + amount_of tx)) as [? E2]; [lia|].
  destruct (u256_canon (delegation a (tx_To tx) + amount_of tx)) as [? E3]; [lia|].
  split; [split_and!; simpl; [done..|]; by apply map_Forall_insert_2|].
  unfold abs_acct. simpl. by rewrite fmap_insert, E1, E2, E3, Hcur.
Qed.

Lemma undelegate_meets :
  tx_Type tx = UNDELEGATE ->
  meets (undelegate_body Keccak256 shardID totalShards tx) (single_verdict ok tx) s.
Proof.
  intros Ht. unfold undelegate_body.
  pose proof (entry_bound s (tx_From tx) Hinv Hsupply) as Hf.
  pose proof (amount_nonneg tx). pose proof (gas_cost_nonneg tx Hgas).
  set (new_map a := if delegation a (tx_To tx) - amount_of tx =? 0
    then delete (tx_To tx) (acc_DelegatedTo a)
    else <[tx_To tx := u256_or_nil (delegation a (tx_To tx) - amount_of tx)]> (acc_DelegatedTo a)).
  apply (single_meets _ tx s (fun a => bump_Nonce (set_DelegatedTo (new_map a)
    (set_StakedAmount (u256_or_nil (SetBytes (acc_StakedAmount a) - amount_of tx))
    (set_Balance (u256_or_nil (SetBytes (acc_Balance a) - gas_cost tx + amount_of tx)) a))))); [done..|].
  open_body tx Ht. destruct (delegation_abs a (tx_To tx) Hc Hv) as [Hcur Hle].
  next_guard. next_guard. rewrite <-Hcur. next_guard. next_guard.
  replace (Z.sgn (delegation a (tx_To tx) - amount_of tx) =? 0) with (delegation a (tx_To tx) - amount_of tx =? 0)
    by (destruct (Z.eqb_spec (delegation a (tx_To tx) - amount_of tx) 0),
          (Z.eqb_spec (Z.sgn (delegation a (tx_To tx) - amount_of tx)) 0); lia).
  run_writes l a. split_and!.
  - unfold new_map. case_match; by rewrite !bind_write2.
  - done.
  - intros _. rewrite <-Habs in Hf. unfold funds in Hf.
    destruct Hv as (? & ? & ? & ? & ?). simpl in *. zbool.
    destruct (u256_canon (SetBytes (acc_Balance a) - gas_cost tx + amount_of tx)) as [? E1]; [lia|].
    destruct (u256_canon (SetBytes (acc_StakedAmount a) - amount_of tx)) as [? E2]; [lia|].
    destruct (u256_canon (delegation a (tx_To tx) - amount_of tx)) as [? E3]; [lia|].
    unfold abs_acct, canon_account. simpl. rewrite E1, E2. unfold new_map.
    destruct (delegation a (tx_To tx) - amount_of tx =? 0).
    + rewrite fmap_delete. split; [|done]. split_and!; [done..|]. by apply map_Forall_delete.
    + rewrite fmap_insert, E3. split; [|done]. split_and!; [done..|]. by apply map_Forall_insert_2.
Qed.
End Single.
End Bodies.

(** ** No handler waits for itself *)

Definition no_hang {S E A} (m : GoM S E A) : Prop := forall s, fst (m s) <> Hang.

Lemma no_hang_bind {S E A B} (m : GoM S E A) (f : A -> GoM S E B) :
  no_hang m -> (forall a, no_hang (f a)) -> no_hang (m ≫= f).
Proof.
  intros Hm Hf s. specialize (Hm s). unfold mbind, GoM_bind.
  destruct (m s) as [[a| | |] s']; simpl in *; try done. apply Hf.
Qed.
Lemma no_hang_wrapM {S E E' A} (g : E' -> E) (m : GoM S E' A) : no_hang m -> no_hang (wrapM g m).
Proof. intros Hm s. specialize (Hm s). unfold wrapM. by destruct (m s) as [[| | |] s']. Qed.
Lemma no_hang_ret {S E A} (a : A) : no_hang (mret a : GoM S E A).
Proof. by intros s. Qed.
Lemma no_hang_throw {S E A} (e : E) : no_hang (throw e : GoM S E A).
Proof. by intros s. Qed.
Lemma no_hang_refuse {S E} c (e : E) : no_hang (refuse_if c e : GoM S E unit).
Proof. intros s. by destruct c. Qed.
Lemma no_hang_lift {S E A} (m : outcome E A) : m <> Hang -> no_hang (lift m : GoM S E A).
Proof. by intros Hm s. Qed.
Lemma wrap_no_hang {E E' A} (f : E -> E') (m : outcome E A) : m <> Hang -> wrap f m <> Hang.
Proof. by destruct m. Qed.

#[export] Hint Resolve no_hang_wrapM no_hang_ret no_hang_throw no_hang_refuse no_hang_lift
  wrap_no_hang : frame.
Ltac nohang :=
  repeat match goal with
  | |- no_hang (_ ≫= _) => apply no_hang_bind; [|intros ?]
  | |- no_hang (if ?c then _ else _) => destruct c
  | |- no_hang (match ?x with _ => _ end) => destruct x
  end; eauto with frame.

Section NoHang.
Context `{MapOrder} {C : Type} `{LRU C}.
Context (Keccak256 : list byte -> list byte) (shardID totalShards : Z).

Lemma outcome_bind_no_hang {E A B} (m : outcome E A) (f : A -> outcome E B) :
  m <> Hang -> (forall a, f a <> Hang) -> (m ≫= f) <> Hang.
Proof. destruct m; naive_solver. Qed.

Lemma encode_no_hang v : BigIntToUint256Bytes (Some v) <> Hang.
Proof. unfold BigIntToUint256Bytes. by repeat case_if. Qed.
Lemma canonicalize_no_hang raw : canonicalizeUint256 raw <> Hang.
Proof.
  unfold canonicalizeUint256, ParseUint256Bytes, ValidateCanonicalUint256Bytes.
  repeat (apply outcome_bind_no_hang; [|intros ?]); repeat case_if; try done; apply encode_no_hang.
Qed.
Lemma canonicalize_cases raw :
  (exists b, CanonicalizeUint256Bytes raw = Ok b) \/ (exists e, CanonicalizeUint256Bytes raw = Err e).
Proof.
  unfold CanonicalizeUint256Bytes, ParseUint256Bytes, ValidateCanonicalUint256Bytes, BigIntToUint256Bytes.
  repeat (case_if; simpl); eauto.
Qed.
Lemma range_keys_no_hang {V} (f : string -> u256_err -> u256_err) (body : string -> outcome u256_err V) keys :
  (forall k, body k <> Hang) -> forall out, range_keys f body keys out <> Hang.
Proof.
  intros Hb. induction keys as [|k keys IH]; intros out; simpl; [done|].
  specialize (Hb k). destruct (body k); simpl; done.
Qed.
Lemma Validate_no_hang addr : Validate addr <> Hang.
Proof. destruct (Validate_cases addr) as [->|[e ->]]; done. Qed.
Lemma validate_loop_no_hang keys m : forall t, ValidateAccount_loop keys m t <> Hang.
Proof.
  induction keys as [|k keys IH]; intros t; simpl; [done|].
  apply outcome_bind_no_hang; [apply wrap_no_hang, Validate_no_hang|]. intros _. by case_if.
Qed.
Lemma ValidateAccount_no_hang a : ValidateAccount a <> Hang.
Proof.
  unfold ValidateAccount. apply outcome_bind_no_hang; [apply wrap_no_hang, Validate_no_hang|].
  intros _. repeat (case_if; [done|]). apply outcome_bind_no_hang; [apply validate_loop_no_hang|].
  intros t. by case_if.
Qed.

Lemma load_no_hang l : no_hang (load (C:=C) (D:=KV) l).
Proof. intros s. unfold load. by destruct (heap s !! l). Qed.
Lemma assign_no_hang l f : no_hang (assign (C:=C) (D:=KV) l f).
Proof. unfold assign. apply no_hang_bind; [apply load_no_hang|]. by intros a s. Qed.

Lemma access_no_hang : no_hang access.
Proof. intros d. unfold access. by destruct (kv_io d) as [|[] io]. Qed.
Lemma canon_field_no_hang {X V} (canon : V -> outcome u256_err V) nil (f : X -> V) set :
  (forall v, canon v <> Hang) -> no_hang (canon_field canon nil f set).
Proof. intros Hc x. unfold canon_field. specialize (Hc (f x)). by destruct (canon (f x)). Qed.
Lemma normalize_no_hang : no_hang normalizeAccountCompat.
Proof.
  unfold normalizeAccountCompat, canonicalizeUint256Map.
  nohang; apply canon_field_no_hang; auto using canonicalize_no_hang.
  intros m. apply range_keys_no_hang. intros k. apply canonicalize_no_hang.
Qed.

Lemma db_SaveAccount_no_hang l : no_hang (db_SaveAccount (C:=C) (D:=KV) l).
Proof.
  unfold db_SaveAccount. apply no_hang_bind; [apply load_no_hang|]. intros a s. unfold save_object. simpl.
  unfold SaveAccount, mbind, GoM_bind, wrapM, on_fst, syncAccountCompatForWrite.
  pose proof (normalize_no_hang a) as Hn. destruct (normalizeAccountCompat a) as [[[]| | |] a']; simpl in *; try done.
  unfold on_snd, kv_Set, mbind, GoM_bind. pose proof (access_no_hang (db s)) as Ha.
  by destruct (access (db s)) as [[[]| | |] d]; simpl in *.
Qed.

Lemma GetAccount_no_hang addr : no_hang (GetAccount (C:=C) (D:=KV) Keccak256 shardID totalShards addr).
Proof.
  unfold GetAccount. nohang; auto using Validate_no_hang with frame.
  - intros s. unfold cache_Get. by destruct (lru_Get addr (cache s)).
  - intros s. unfold db_GetAccount. simpl. unfold Storage.GetAccount, kv_Get, mbind, GoM_bind.
    pose proof (access_no_hang (db s)) as Ha. destruct (access (db s)) as [[[]|[]| |] d]; simpl in *; try done.
    destruct (kv_data d !! AccountKey addr) as [b|]; simpl; [|done].
    destruct b as [b| | | | | |]; simpl; try done. pose proof (normalize_no_hang b) as Hn.
    by destruct (normalizeAccountCompat b) as [[[]| | |] b']; simpl in *.
  - by intros s.
  - by intros s.
  - by intros s.
Qed.

Lemma UpdateAccount_no_hang l : no_hang (UpdateAccount (C:=C) (D:=KV) Keccak256 shardID totalShards l).
Proof.
  unfold UpdateAccount.
  nohang; auto using load_no_hang, assign_no_hang, db_SaveAccount_no_hang, encode_no_hang,
    ValidateAccount_no_hang with frame.
  - apply no_hang_lift, wrap_no_hang, range_keys_no_hang. intros k. apply canonicalize_no_hang.
  - by intros s.
Qed.
End NoHang.
#[export] Hint Resolve load_no_hang assign_no_hang db_SaveAccount_no_hang GetAccount_no_hang
  UpdateAccount_no_hang : frame.

(** ** Transfers *)

Section Transfers.
Context `{MapOrder} {C F : Type} `{LRU C, !LRULaws C}.
Context (Keccak256 : list byte -> list byte) (shardID totalShards : Z).
Notation state := (@am KV C).
Notation wstate := (@world C F).
Notation Am := (GoM state exec_err).
Notation good := (good Keccak256 shardID totalShards).
Notation ok := (ok_addr Keccak256 shardID totalShards).
Notation am_Get := (GetAccount Keccak256 shardID totalShards).
Notation am_Update := (UpdateAccount Keccak256 shardID totalShards).
Notation meets := (meets Keccak256 shardID totalShards).

Definition save_object2 (f g : am_err -> ws_err) (l : loc) : Am unit :=
  _ ← wrapM (WorldError ∘ f) (am_Update l); wrapM (WorldError ∘ g) (db_SaveAccount l).

(** [AtomicTransfer] without its locks. *)
Definition transfer_core (tx : Transaction) : Am unit :=
  sender ← wrapM (WorldError ∘ SenderGetFailed) (am_Get (tx_From tx));
  receiver ← (if bool_decide (tx_To tx = tx_From tx) then mret sender
              else wrapM (WorldError ∘ ReceiverGetFailed) (am_Get (tx_To tx)));
  _ ← transfer_update tx sender receiver;
  _ ← save_object2 SenderUpdateFailed SenderSaveFailed sender;
  if bool_decide (tx_To tx = tx_From tx) then mret tt
  else save_object2 ReceiverUpdateFailed ReceiverSaveFailed receiver.

Lemma transfer_core_no_hang tx : no_hang (transfer_core tx).
Proof. unfold transfer_core, save_object2, transfer_update, check_nonce, read, write. nohang. Qed.

Lemma AtomicTransfer_run tx (w : wstate) :
  w_locks w = NewShardedMutex ->
  exists vs, AtomicTransfer Keccak256 shardID totalShards WorldError (tx_From tx) (tx_To tx) (transfer_update tx) w =
    (fst (transfer_core tx (w_am w)), with_am_versions (snd (transfer_core tx (w_am w))) vs w).
Proof.
  intros Hl. unfold AtomicTransfer. apply (with_batch_run _ (transfer_core tx)); [done| |apply transfer_core_no_hang].
  intros batch w1 Hv Hval. unfold transfer_core, save_object2, update_and_save, on_am.
  unfold mbind, GoM_bind, on_accounts, mret, GoM_ret.
  destruct (wrapM (WorldError ∘ SenderGetFailed) (am_Get (tx_From tx)) (w_am w1)) as [[ls|e| |] s1]; try done.
  destruct (bool_decide (tx_To tx = tx_From tx)); simpl.
  2: destruct (wrapM (WorldError ∘ ReceiverGetFailed) (am_Get (tx_To tx)) s1) as [[lr|e| |] s2]; try done.
  all: rewrite check_versions_pass by (simpl; by rewrite Hv); simpl.
  - destruct (transfer_update tx ls ls s1) as [[[]|e| |] s2]; simpl; try done.
    repeat match goal with |- context [wrapM ?f ?m ?s] =>
      destruct (wrapM f m s) as [[[]|?| |] ?]; simpl; try done end.
  - destruct (transfer_update tx ls lr s2) as [[[]|e| |] s3]; simpl; try done.
    repeat match goal with |- context [wrapM ?f ?m ?s] =>
      destruct (wrapM f m s) as [[[]|?| |] ?]; simpl; try done end.
Qed.

(** Saving once more what the database already holds. *)
Lemma save_again X (s : state) l a :
  good X s -> quiet (db s) -> heap s !! l = Some a -> canon_account a ->
  dbView (db s) !! acc_Address a = Some a ->
  exists s', db_SaveAccount l s = (Ok tt, s') /\ good X s' /\ quiet (db s') /\
  heap s' = heap s /\ dbView (db s') = dbView (db s).
Proof.
  intros Hg Hq Hl Hc Hv. unfold db_SaveAccount, mbind, GoM_bind. rewrite (load_run l a) by done.
  unfold save_object. destruct (dbSave_quiet (db s) a (good_db _ _ _ _ _ Hg) Hq Hc) as (d' & -> & Hq' & Hok' & Hview).
  simpl. rewrite insert_id in Hview by done.
  eexists. split; [reflexivity|]. simpl in *. rewrite (insert_id _ _ _ Hl).
  split_and!; try done. split; simpl; [done|apply Hg| |].
  - intros k j Hk. destruct (good_cache _ _ _ _ _ Hg k j Hk) as (b & ? & ? & ?). exists b. by rewrite Hview.
  - intros k b. rewrite Hview. apply Hg.
Qed.

Lemma update_save_ok X f g l a (s : state) :
  good X s -> quiet (db s) -> heap s !! l = Some a -> canon_account a ->
  valid_acct (abs_acct a) -> ok (acc_Address a) = true ->
  exists s', save_object2 f g l s = (Ok tt, s') /\ good (X ∖ {[acc_Address a]}) s' /\
  quiet (db s') /\ heap s' = heap s /\ dbView (db s') = <[acc_Address a := a]> (dbView (db s)).
Proof.
  intros Hg Hq Hl Hc Hv Hok.
  destruct (UpdateAccount_ok _ _ _ X l a s Hg Hq Hl Hc Hv Hok) as (s1 & Hu & Hg1 & Hq1 & Hh1 & Hv1).
  destruct (save_again _ s1 l a Hg1 Hq1) as (s2 & Hs & Hg2 & Hq2 & Hh2 & Hv2); [by rewrite Hh1|done|
    by rewrite Hv1, lookup_insert_eq|].
  exists s2. unfold save_object2, mbind, GoM_bind, wrapM. rewrite Hu. simpl. rewrite Hs.
  split_and!; [done..| |]; [by rewrite Hh2|exact (eq_trans Hv2 Hv1)].
Qed.

(** Both objects written and saved. *)
Lemma save_two (s : state) lf lt af at_ af' at' f1 g1 f2 g2 :
  good ∅ s -> quiet (db s) -> heap s !! lf = Some af -> heap s !! lt = Some at_ ->
  acc_Address af <> acc_Address at_ ->
  acc_Address af' = acc_Address af -> acc_Address at' = acc_Address at_ ->
  ok (acc_Address af) = true -> ok (acc_Address at_) = true ->
  canon_account af' -> canon_account at' ->
  valid_acct (abs_acct af') -> valid_acct (abs_acct at') ->
  exists s1 s2,
  save_object2 f1 g1 lf (set_heap (<[lt := at']> (<[lf := af']> (heap s))) s) = (Ok tt, s1) /\
  save_object2 f2 g2 lt s1 = (Ok tt, s2) /\ good ∅ s2 /\ quiet (db s2) /\
  abs s2 = <[acc_Address at_ := abs_acct at']> (<[acc_Address af := abs_acct af']> (abs s)).
Proof.
  intros Hg Hq Hlf Hlt Hne Haf Hat Hokf Hokt Hcf Hct Hvf Hvt.
  assert (Hll : lf <> lt) by congruence.
  pose proof (good_mutate _ _ _ ∅ s lf af af' Hg Hlf Haf) as Hg1.
  pose proof (good_mutate _ _ _ _ _ lt at_ at' Hg1) as Hg2. simpl in Hg2.
  rewrite lookup_insert_ne in Hg2 by done. specialize (Hg2 Hlt Hat).
  destruct (update_save_ok _ f1 g1 lf af' _ Hg2 Hq) as (s1 & Hu1 & Hg3 & Hq1 & Hh1 & Hview1);
    [simpl; rewrite lookup_insert_ne, lookup_insert_eq; done|done|done|by rewrite Haf|].
  destruct (update_save_ok _ f2 g2 lt at' s1 Hg3 Hq1) as (s2 & Hu2 & Hg4 & Hq2 & _ & Hview2);
    [rewrite Hh1; simpl; by rewrite lookup_insert_eq|done|done|by rewrite Hat|].
  exists s1, s2. split_and!; [done|done| |done|].
  - rewrite Haf, Hat in Hg4.
    assert (Heq : ((∅ ∪ {[acc_Address af]} ∪ {[acc_Address at_]}) ∖ {[acc_Address af]})
      ∖ {[acc_Address at_]} = (∅ : gset string)) by set_solver. by rewrite Heq in Hg4.
  - unfold abs. rewrite Hview2, Hview1, Haf, Hat. simpl. by rewrite !fmap_insert.
Qed.

Lemma wrapped_get_ok {A} (f : am_err -> exec_err) addr (s : state) (k : loc -> Am A) :
  good ∅ s -> quiet (db s) -> ok addr = true ->
  exists l a s', (wrapM f (am_Get addr) ≫= k) s = k l s' /\
  good ∅ s' /\ db s' = db s /\ heap s' !! l = Some a /\ heap s ⊆ heap s' /\
  acc_Address a = addr /\ canon_account a /\
  abs_acct a = entry (abs s) addr /\ valid_acct (abs_acct a).
Proof.
  intros Hg Hq Hok. destruct (GetAccount_ok _ _ _ addr s Hg Hq Hok) as (l & a & s' & Hget & Hrest).
  exists l, a, s'. split; [|done]. unfold mbind, GoM_bind, wrapM. by rewrite Hget.
Qed.

Lemma wrapped_get_err {A} (f : am_err -> exec_err) addr (s : state) (k : loc -> Am A) :
  ok addr = false -> exists e, (wrapM f (am_Get addr) ≫= k) s = (Err e, s).
Proof.
  intros Hok. destruct (GetAccount_err _ _ _ addr s Hok) as [e He].
  exists (f e). unfold mbind, GoM_bind, wrapM. by rewrite He.
Qed.

(** The update function up to its writes. *)
Lemma transfer_update_guards tx lf lt af at_ (s : state) :
  heap s !! lf = Some af -> heap s !! lt = Some at_ -> canon_account af -> canon_account at_ ->
  if negb (nonce (abs_acct af) =? tx_Nonce tx) || (bal (abs_acct af) <? total_cost tx)
  then exists e, transfer_update tx lf lt s = (Err e, s)
  else transfer_update tx lf lt s =
    (_ ← write lf (set_Balance (u256_or_nil (bal (abs_acct af) - total_cost tx)));
     _ ← write lt (set_Balance (u256_or_nil (bal (abs_acct at_) + amount_of tx)));
     write lf bump_Nonce) s.
Proof.
  intros Hf Ht Hcf Hct. unfold transfer_update, check_nonce.
  rewrite (bind_read lf af), bind_refuse by done. cbn [nonce bal abs_acct].
  destruct (acc_Nonce af =? tx_Nonce tx); cbn [negb orb]; [|by eauto].
  rewrite bind_refuse. rewrite (canon_parse (acc_Balance af)) by apply Hcf.
  destruct (SetBytes (acc_Balance af) <? total_cost tx); [by eauto|].
  rewrite (bind_read lt at_) by done. by rewrite (canon_parse (acc_Balance at_)) by apply Hct.
Qed.

(** The objects after the writes. *)
Definition paid (tx : Transaction) (a : Account) : Account :=
  bump_Nonce (set_Balance (u256_or_nil (bal (abs_acct a) - total_cost tx)) a).
Definition credited (tx : Transaction) (a : Account) : Account :=
  set_Balance (u256_or_nil (bal (abs_acct a) + amount_of tx)) a.

Lemma writes_two tx lf lt af at_ (s : state) :
  lf <> lt -> heap s !! lf = Some af -> heap s !! lt = Some at_ ->
  (_ ← write lf (set_Balance (u256_or_nil (bal (abs_acct af) - total_cost tx)));
   _ ← write lt (set_Balance (u256_or_nil (bal (abs_acct at_) + amount_of tx)));
   write lf bump_Nonce) s =
  (Ok tt, set_heap (<[lt := credited tx at_]> (<[lf := paid tx af]> (heap s))) s).
Proof.
  intros Hne Hf Ht. rewrite (bind_write lf _ af) by done.
  rewrite (bind_write lt _ at_) by (simpl; by rewrite lookup_insert_ne).
  unfold write, wrapM.
  rewrite (assign_run lf _ (set_Balance (u256_or_nil (bal (abs_acct af) - total_cost tx)) af)).
  2: { simpl. by rewrite lookup_insert_ne, lookup_insert_eq. }
  simpl. f_equal. unfold set_heap. simpl. f_equal.
  rewrite (insert_insert_ne _ lf lt) by done. by rewrite insert_insert_eq.
Qed.

Lemma writes_self tx l a (s : state) :
  heap s !! l = Some a ->
  (_ ← write l (set_Balance (u256_or_nil (bal (abs_acct a) - total_cost tx)));
   _ ← write l (set_Balance (u256_or_nil (bal (abs_acct a) + amount_of tx)));
   write l bump_Nonce) s =
  (Ok tt, set_heap (<[l := bump_Nonce (credited tx a)]> (heap s)) s).
Proof.
  intros Hl. rewrite (bind_write l _ a), bind_write2 by done. unfold write, wrapM.
  erewrite assign_run by apply lookup_insert_eq. simpl. by rewrite insert_insert_eq.
Qed.

Section Cases.
Context (tx : Transaction) (s : state).
Hypotheses (Hgas : 0 <= tx_Gas tx) (Hinv : good ∅ s) (Hquiet : quiet (db s)).

(** Paying oneself. *)
Lemma self_transfer_meets :
  tx_To tx = tx_From tx -> supply (abs s) + amount_of tx < two256 ->
  meets (transfer_core tx) (transfer_verdict ok tx) s.
Proof.
  intros Hself Hs. pose proof (amount_nonneg tx). pose proof (gas_cost_nonneg tx Hgas).
  unfold transfer_core, meets, transfer_verdict. rewrite bool_decide_eq_true_2, Hself by done.
  match goal with |- context [(wrapM ?f _ ≫= ?k) s] =>
    destruct (ok (tx_From tx)) eqn:Hok;
    [destruct (wrapped_get_ok f (tx_From tx) s k Hinv Hquiet Hok)
      as (l & a & s1 & -> & Hg1 & Hdb & Hl & _ & Haddr & Hc & Habs & Hv)
    |destruct (wrapped_get_err f (tx_From tx) s k Hok) as [e ->]; by eexists _, _] end.
  rewrite <-Habs. cbn [negb orb]. unfold mbind, GoM_bind, mret, GoM_ret.
  pose proof (transfer_update_guards tx l l a a s1 Hl Hl Hc Hc) as Hguard.
  destruct (negb (nonce (abs_acct a) =? tx_Nonce tx) || (bal (abs_acct a) <? total_cost tx)) eqn:Hg.
  { destruct Hguard as [e ->]. eexists _, _. split; [reflexivity|]. rewrite Hdb.
    split_and!; [done..|]. by apply abs_db. }
  rewrite Hguard, writes_self by done.
  destruct (funds_le_supply _ _ _ s (tx_From tx) Hinv) as [Hf _]. rewrite <-Habs in Hf. unfold funds in Hf.
  destruct Hv as (? & ? & ? & ? & ?). destruct Hc as (? & ? & ? & ?). simpl in *. zbool.
  destruct (u256_canon (SetBytes (acc_Balance a) + amount_of tx)) as [? E1]; [lia|].
  pose proof (good_mutate _ _ _ ∅ s1 l a (bump_Nonce (credited tx a)) Hg1 Hl eq_refl) as Hg2.
  destruct (update_save_ok _ SenderUpdateFailed SenderSaveFailed l (bump_Nonce (credited tx a)) _ Hg2)
    as (s2 & -> & Hg3 & Hq3 & _ & Hview); [simpl; by rewrite Hdb|apply lookup_insert_eq|done| |simpl; by rewrite Haddr|].
  { unfold valid_acct. simpl. rewrite E1. split_and!; try done; lia. }
  exists (Ok tt), s2. split_and!; try done.
  - simpl in Hg3. assert (Heq : (∅ ∪ {[acc_Address a]}) ∖ {[acc_Address a]} = (∅ : gset string)) by set_solver.
    by rewrite Heq in Hg3.
  - unfold abs. rewrite Hview. simpl. rewrite fmap_insert, Haddr, Hdb. unfold abs_acct. simpl. by rewrite E1.
Qed.

Lemma transfer_meets :
  tx_To tx <> tx_From tx -> supply (abs s) < two256 ->
  meets (transfer_core tx) (transfer_verdict ok tx) s.
Proof.
  intros Hself Hs. pose proof (amount_nonneg tx). pose proof (gas_cost_nonneg tx Hgas).
  unfold transfer_core, meets, transfer_verdict. rewrite bool_decide_eq_false_2 by done.
  match goal with |- context [(wrapM ?f _ ≫= ?k) s] =>
    destruct (ok (tx_From tx)) eqn:Hok;
    [destruct (wrapped_get_ok f (tx_From tx) s k Hinv Hquiet Hok)
      as (lf & af & s1 & -> & Hg1 & Hdb & Hlf & _ & Haddr & Hc & Habs & Hv)
    |destruct (wrapped_get_err f (tx_From tx) s k Hok) as [e ->]; by eexists _, _] end.
  assert (Hq1 : quiet (db s1)) by by rewrite Hdb.
  match goal with |- context [(wrapM ?f _ ≫= ?k) s1] =>
    destruct (ok (tx_To tx)) eqn:Hokt;
    [destruct (wrapped_get_ok f (tx_To tx) s1 k Hg1 Hq1 Hokt)
      as (lt & at_ & s2 & -> & Hg2 & Hdb2 & Hlt & Hsub & Haddr2 & Hc2 & Habs2 & Hv2)
    |destruct (wrapped_get_err f (tx_To tx) s1 k Hokt) as [e ->]; eexists _, _; split; [reflexivity|];
     rewrite Hdb; split_and!; try done; by apply abs_db] end.
  rewrite Hdb in Hdb2. rewrite (abs_db s s1 Hdb) in Habs2.
  pose proof (lookup_weaken _ _ _ _ Hlf Hsub) as Hlf2. rewrite <-Habs, <-Habs2. cbn [negb orb].
  unfold mbind, GoM_bind, mret, GoM_ret.
  pose proof (transfer_update_guards tx lf lt af at_ s2 Hlf2 Hlt Hc Hc2) as Hguard.
  destruct (negb (nonce (abs_acct af) =? tx_Nonce tx) || (bal (abs_acct af) <? total_cost tx)) eqn:Hg.
  { destruct Hguard as [e ->]. eexists _, _. split; [reflexivity|]. rewrite Hdb2.
    split_and!; [done..|]. by apply abs_db. }
  assert (Hll : lf <> lt) by congruence. rewrite Hguard, writes_two by done.
  pose proof (funds_two _ _ _ s (tx_From tx) (tx_To tx) Hinv ltac:(done)) as Htwo.
  rewrite <-Habs, <-Habs2 in Htwo. unfold funds, total_cost in *.
  destruct Hc as (? & ? & ? & ?), Hc2 as (? & ? & ? & ?).
  destruct Hv as (? & ? & ? & ? & ?), Hv2 as (? & ? & ? & ? & ?). simpl in *. zbool.
  destruct (u256_canon (SetBytes (acc_Balance af) - total_cost tx)) as [? E1]; [unfold total_cost; lia|].
  destruct (u256_canon (SetBytes (acc_Balance at_) + amount_of tx)) as [? E2]; [lia|].
  destruct (save_two s2 lf lt af at_ (paid tx af) (credited tx at_) SenderUpdateFailed SenderSaveFailed
    ReceiverUpdateFailed ReceiverSaveFailed) as (s3 & s4 & -> & -> & Hg4 & Hq4 & Habs4);
    try done; try (simpl; rewrite ?Hdb2, ?Haddr, ?Haddr2; done).
  { unfold valid_acct, total_cost in *. simpl. unfold total_cost. rewrite E1. split_and!; try done; lia. }
  { unfold valid_acct. simpl. rewrite E2. split_and!; try done; lia. }
  exists (Ok tt), s4. split_and!; try done.
  rewrite Habs4, Haddr, Haddr2, (abs_db s s2 Hdb2). unfold abs_acct, total_cost in *. simpl.
  unfold total_cost. by rewrite E1, E2.
Qed.
End Cases.
End Transfers.

(** ** A whole transaction *)

Section Transactions.
Context `{MapOrder} {C F : Type} `{LRU C, !LRULaws C} `{Float64 F}.
Context `{Json Proposal, Json ProposalPayload, Json VotePayload, Json FinalizePayload,
          Json stakeDomainMembers}.
Context (Keccak256 HexToAddress : list byte -> list byte) (shardID totalShards : Z) (ChainID : string).
Notation wstate := (@world C F).
Context (engine : evm_engine wstate).
Notation inv := (good Keccak256 shardID totalShards ∅).
Notation ok := (ok_addr Keccak256 shardID totalShards).
Notation shard := (CalculateShardID Keccak256 totalShards).
Notation meets := (meets Keccak256 shardID totalShards).
Notation by_type := (execute_by_type Keccak256 shardID totalShards true).

Lemma in_transaction_run tx (body : GoM am exec_err unit) (w : wstate) :
  w_locks w = NewShardedMutex -> no_hang body ->
  exists vs, in_transaction true tx body w = (fst (body (w_am w)), with_am_versions (snd (body (w_am w))) vs w).
Proof.
  intros Hl Hh. unfold in_transaction, ExecuteInTransaction.
  apply (with_batch_run _ body); [done| |apply Hh].
  intros batch w1 Hv Hval. unfold mbind at 1, GoM_bind at 1.
  by rewrite check_versions_pass by by rewrite Hv.
Qed.

(** After the guards, a handler is one computation on the accounts. *)
Definition core_of (tx : Transaction) : GoM (@am KV C) exec_err unit :=
  match tx_Type tx with
  | TRANSFER => transfer_core Keccak256 shardID totalShards tx
  | STAKE => stake_body Keccak256 shardID totalShards tx
  | UNSTAKE => unstake_body Keccak256 shardID totalShards tx
  | DELEGATE => delegate_body Keccak256 shardID totalShards tx
  | UNDELEGATE => undelegate_body Keccak256 shardID totalShards tx
  | CLAIM_REWARDS => claimRewards_body Keccak256 shardID totalShards tx
  | _ => throw UnknownTransactionType
  end.

Lemma core_no_hang tx : no_hang (core_of tx).
Proof.
  unfold core_of. destruct (tx_Type tx); try apply no_hang_throw; try apply transfer_core_no_hang;
    unfold stake_body, unstake_body, delegate_body, undelegate_body, claimRewards_body, check_nonce,
      get_account, read, write, persist; nohang.
Qed.

Lemma core_rest tx : keeps am_rest (core_of tx).
Proof.
  unfold core_of, transfer_core, transfer_update, save_object2, stake_body, unstake_body, delegate_body,
    undelegate_body, claimRewards_body, check_nonce, get_account, read, write, persist.
  destruct (tx_Type tx); frame.
Qed.

(** The guards of the handlers. *)
Definition guards_pass (tx : Transaction) : bool :=
  (match tx_Type tx with TRANSFER => shard (tx_From tx) =? shard (tx_To tx) | UnknownType _ => false | _ => true end)
  && negb (negb (shardID =? BeaconShardID) && negb (shard (tx_From tx) =? shardID))
  && negb (maxGasLimit <? tx_Gas tx) && negb (tx_Gas tx <=? 0).

Lemma by_type_run tx now1 now2 (w : wstate) :
  plain (tx_Type tx) = true -> w_locks w = NewShardedMutex ->
  if guards_pass tx
  then exists vs, by_type now1 now2 tx w = (fst (core_of tx (w_am w)), with_am_versions (snd (core_of tx (w_am w))) vs w)
  else exists e, by_type now1 now2 tx w = (Err e, w).
Proof.
  intros Hp Hl. unfold guards_pass, execute_by_type. pose proof (core_no_hang tx) as Hh. unfold core_of in *.
  destruct (tx_Type tx) eqn:Ht; try done; try (by exists UnknownTransactionType).
  all: try unfold executeTransfer; try unfold executeStake; try unfold executeUnstake; try unfold executeDelegate;
    try unfold executeUndelegate; try unfold executeClaimRewards.
  1: destruct (shard (tx_From tx) =? shard (tx_To tx)); cbn [andb]; [|by eexists].
  1: change ((refuse_if (negb true) CrossShardUnsupported ≫= ?k) w) with (k tt w); cbv beta.
  all: unfold check_sender_shard, mbind, GoM_bind;
    destruct (negb (shardID =? BeaconShardID) && negb (shard (tx_From tx) =? shardID)); cbn [negb andb refuse_if]; [by eexists|];
    unfold check_gas_limit, mbind, GoM_bind, throw, mret, GoM_ret;
    destruct (maxGasLimit <? tx_Gas tx); cbn [negb andb refuse_if]; [by eexists|];
    destruct (tx_Gas tx <=? 0); cbn [negb andb refuse_if]; [by eexists|].
  1: by apply AtomicTransfer_run.
  all: by apply in_transaction_run.
Qed.

Lemma ok_shard addr : ok addr = true -> shardID = BeaconShardID \/ shard addr = shardID.
Proof.
  unfold ok_addr, BelongsToShard. intros [_ Hb]%andb_true_iff.
  destruct (Z.eqb_spec shardID BeaconShardID); [by left|right]. by apply Z.eqb_eq.
Qed.

Lemma guards_fail tx L : plain (tx_Type tx) = true -> guards_pass tx = false -> ledger_step ok shard tx L = Refused.
Proof.
  intros Hp Hg. unfold ledger_step, guards_pass in *.
  destruct (maxGasLimit <? tx_Gas tx); [done|]. destruct (tx_Gas tx <=? 0); [done|]. cbn [orb].
  rewrite !andb_true_r in Hg.
  assert (Hs : negb (shardID =? BeaconShardID) && negb (shard (tx_From tx) =? shardID) = true ->
    ok (tx_From tx) = false).
  { intros Hs. apply not_true_is_false. intros [Hb|Hb]%ok_shard; rewrite Hb, Z.eqb_refl in Hs; [done|].
    by rewrite andb_false_r in Hs. }
  unfold single_verdict, transfer_verdict, sender_step.
  destruct (tx_Type tx); try done; cbn [andb] in Hg;
    try (destruct (ok (tx_From tx)); [|done]; cbn [negb]; by case_if).
  all: try (rewrite Hs by (by apply negb_false_iff); done).
  destruct (shard (tx_From tx) =? shard (tx_To tx)); [|done].
  by rewrite Hs by (by apply negb_false_iff).
Qed.

Lemma core_meets tx (s : am) :
  plain (tx_Type tx) = true -> guards_pass tx = true ->
  inv s -> quiet (db s) -> supply (abs s) + self_mint tx < two256 ->
  meets (core_of tx) (ledger_step ok shard tx) s.
Proof.
  intros Hp Hg Hinv Hq Hs. unfold guards_pass in Hg. unfold core_of, ledger_step, self_mint in *.
  apply andb_true_iff in Hg as [Hg Hg2]. apply andb_true_iff in Hg as [Hg Hg1]. apply andb_true_iff in Hg as [Hg0 _].
  apply negb_true_iff in Hg1, Hg2.
  assert (Hgas : 0 <= tx_Gas tx) by (zbool; lia).
  apply (meets_ext _ _ _ _ _ (fun L => match tx_Type tx with
    | TRANSFER => if negb (shard (tx_From tx) =? shard (tx_To tx)) then Refused else transfer_verdict ok tx L
    | _ => single_verdict ok tx L end)); [by rewrite Hg1, Hg2|].
  destruct (tx_Type tx) eqn:Ht; try done; rewrite ?Z.add_0_r in Hs.
  - rewrite Hg0. cbn [negb]. case_bool_decide.
    + by apply self_transfer_meets.
    + apply transfer_meets; try done; lia.
  - by apply stake_meets.
  - by apply unstake_meets.
  - by apply delegate_meets.
  - by apply undelegate_meets.
  - by apply claim_meets.
Qed.

(** ** The whole transaction *)

Notation Execute := (ExecuteTransaction Keccak256 HexToAddress shardID totalShards ChainID true engine).

(** The state between transactions. *)
Record wgood (w : wstate) : Prop := MkWGood {
  wg_inv : inv (w_am w);
  wg_quiet : quiet (db (w_am w));
  wg_locks : w_locks w = NewShardedMutex
}.

(** The nonces kept beside the accounts; 0 for an address not in the map. *)
Definition nonce_rel (N : gmap string Z) (d : KV) : Prop :=
  forall k, stored_nonce d k = Some (default 0 (N !! k)).

Definition normalized (tx : Transaction) : option Transaction :=
  match normalizeTransactionAmounts tx with (Ok _, tx') => Some tx' | _ => None end.

(** One transaction on nonces and ledger: whether it succeeds and what is left,
    or [None] when it corrupts a cached account. *)
Definition exec_spec (tx : Transaction) (NL : gmap string Z * ledger)
    : option (bool * (gmap string Z * ledger)) :=
  let '(N, L) := NL in
  match normalized tx with
  | None => Some (false, (N, L))
  | Some tx =>
      if negb (default 0 (N !! tx_From tx) =? tx_Nonce tx) then Some (false, (N, L))
      else
        let N' := <[tx_From tx := u64 (tx_Nonce tx + 1)]> N in
        match ledger_step ok shard tx L with
        | Applied L' => Some (true, (N', L'))
        | Refused => Some (false, (N', L))
        | Corrupting => None
        end
  end.

Definition mint_of (tx : Transaction) : Z := match normalized tx with Some tx => self_mint tx | None => 0 end.

Lemma plain_normalized tx tx' : normalized tx = Some tx' -> tx_Type tx' = tx_Type tx.
Proof.
  unfold normalized, normalizeTransactionAmounts. intros Hn.
  repeat case_match; simplify_eq; by destruct tx.
Qed.

Lemma normalize_cases tx :
  (exists tx', normalizeTransactionAmounts tx = (Ok tt, tx')) \/
  (exists e tx', normalizeTransactionAmounts tx = (Err e, tx')).
Proof.
  unfold normalizeTransactionAmounts.
  destruct (canonicalize_cases (tx_Amount tx)) as [[a ->]|[e ->]]; [|eauto].
  destruct (canonicalize_cases (tx_GasPrice tx)) as [[b ->]|[e ->]]; eauto.
Qed.

(** Advancing the stored nonce leaves the accounts alone. *)
Lemma increment_run address expected N (w : wstate) :
  wgood w -> nonce_rel N (db (w_am w)) ->
  exists w', on_store NonceStoreError (AtomicIncrementNonce address expected) w =
    (Ok (bool_decide (default 0 (N !! address) = expected), default 0 (N !! address)), w') /\
  wgood w' /\ abs (w_am w') = abs (w_am w) /\
  nonce_rel (if bool_decide (default 0 (N !! address) = expected)
             then <[address := u64 (expected + 1)]> N else N) (db (w_am w')).
Proof.
  intros [Hg Hq Hl] HN. unfold on_store.
  rewrite (AtomicIncrementNonce_quiet _ address expected (default 0 (N !! address))) by (done || apply HN).
  simpl. case_bool_decide as He; (eexists; split; [reflexivity|]); [|by split; [split|]; destruct w as [[]]].
  set (d' := set_data _ _).
  assert (Hview : accounts_view d' = accounts_view (db (w_am w)) /\ db_ok d').
  { destruct (insert_rest (db (w_am w)) (NonceKey address)
      (Raw (PutUint64 (u64 (default 0 (N !! address) + 1)))) (kv_io (db (w_am w)))) as [Hv Hok]; [done|].
    split; [exact Hv|apply Hok, Hg]. }
  destruct Hview as [Hv Hok]. split_and!.
  - split; simpl; [|done..]. split; simpl; [done|apply Hg| |].
    + intros k l Hk. destruct (good_cache _ _ _ _ _ Hg k l Hk) as (a & ? & ? & ?). exists a. by rewrite Hv.
    + intros k a. rewrite Hv. apply Hg.
  - unfold abs. simpl. by rewrite Hv.
  - intros k. unfold stored_nonce. simpl. destruct (decide (k = address)) as [->|Hne].
    + rewrite !lookup_insert_eq, Uint64_PutUint64. simpl. rewrite (u64_id (u64 _)) by apply u64_range. by rewrite He.
    + rewrite !lookup_insert_ne by (done || intros ?%NonceKey_inj; done). apply HN.
Qed.

Lemma execute_meets tx now1 now2 N (w : wstate) :
  plain (tx_Type tx) = true -> wgood w -> nonce_rel N (db (w_am w)) ->
  supply (abs (w_am w)) + mint_of tx < two256 ->
  exists r w', Execute now1 now2 (Some tx) w = (r, w') /\
  match exec_spec tx (N, abs (w_am w)) with
  | Some (b, (N', L')) =>
      wgood w' /\ nonce_rel N' (db (w_am w')) /\ abs (w_am w') = L' /\
      if b then exists rc, r = Ok rc /\ r_Status rc = 1 else is_err r = true
  | None => True
  end.
Proof.
  intros Hp Hw HN Hs. unfold exec_spec, mint_of in *.
  destruct (normalize_cases tx) as [[tx' Hn]|[e [tx' Hn]]]; unfold normalized in *;
    pose proof (plain_normalized tx tx') as Htype; unfold normalized in Htype;
    unfold ExecuteTransaction; rewrite Hn in *.
  2: { exists (Err (None, InvalidAmounts e)), w. by split_and!. }
  specialize (Htype eq_refl). rewrite <-Htype in Hp. clear Htype Hn.
  destruct (increment_run (tx_From tx') (tx_Nonce tx') N w Hw HN) as (w1 & Hinc & Hw1 & Habs & HN1).
  set (rest := by_type now1 now2 tx').
  assert (Hdispatch : (match tx_Type tx' with
    | EVM_CONTRACT_CALL => executeEVMCall Keccak256 HexToAddress shardID totalShards ChainID engine tx'
    | EVM_CONTRACT_DEPLOY => _ ← with_receipt tx' (executeEVMDeploy Keccak256 HexToAddress shardID totalShards ChainID engine tx');
        mret (MkReceipt (tx_Hash tx') 1 (tx_Gas tx') None)
    | _ => _ ← with_receipt tx' (
             '(ok, currentNonce) ← on_store NonceStoreError (AtomicIncrementNonce (tx_From tx') (tx_Nonce tx'));
             _ ← refuse_if (negb ok) (NonceMismatch (tx_Nonce tx') currentNonce);
             rest);
           mret (MkReceipt (tx_Hash tx') 1 (tx_Gas tx') None)
    end) w =
    (_ ← with_receipt tx' (
      _ ← refuse_if (negb (bool_decide (default 0 (N !! tx_From tx') = tx_Nonce tx')))
            (NonceMismatch (tx_Nonce tx') (default 0 (N !! tx_From tx'))); rest);
     mret (MkReceipt (tx_Hash tx') 1 (tx_Gas tx') None)) w1).
  { destruct (tx_Type tx'); try done; unfold with_receipt, mbind, GoM_bind; by rewrite Hinc. }
  rewrite Hdispatch. clear Hdispatch Hinc.
  assert (Heqb : (default 0 (N !! tx_From tx') =? tx_Nonce tx') = bool_decide (default 0 (N !! tx_From tx') = tx_Nonce tx')).
  { case_bool_decide; [by apply Z.eqb_eq|by apply Z.eqb_neq]. }
  rewrite Heqb. unfold with_receipt, mbind, GoM_bind. case_bool_decide as Hnonce; cbn [negb refuse_if mret GoM_ret throw].
  2: { eexists _, w1. split; [reflexivity|]. by split_and!. }
  rewrite <-Habs in *. destruct Hw1 as [Hg Hq Hl].
  pose proof (by_type_run tx' now1 now2 w1 Hp Hl) as Hrun. fold rest in Hrun. unfold GoM_ret.
  destruct (guards_pass tx') eqn:Hguards.
  - destruct Hrun as [vs ->]. destruct (core_meets tx' (w_am w1) Hp Hguards Hg Hq) as (r & s' & Hcore & Hres); [lia|].
    pose proof (core_rest tx' (w_am w1)) as Hrest. rewrite Hcore in *. simpl in *.
    assert (HN2 : nonce_rel (<[tx_From tx' := u64 (tx_Nonce tx' + 1)]> N) (db s')).
    { intros k. rewrite (same_rest_nonce _ _ k Hrest). apply HN1. }
    destruct (ledger_step ok shard tx' (abs (w_am w1))).
    + destruct Hres as (-> & Hg' & Hq' & <-). eexists _, _. split; [reflexivity|]. split_and!; try done.
      by eexists.
    + destruct Hres as (Hr & Hg' & Hq' & Ha'). destruct r; try done.
      eexists _, _. split; [reflexivity|]. by split_and!.
    + destruct r; by eexists _, _.
  - destruct Hrun as [e ->]. rewrite (guards_fail tx' _ Hp Hguards). simpl.
    eexists _, w1. split; [reflexivity|]. by split_and!.
Qed.

Lemma AtomicIncrementNonce_no_hang address n d : fst (AtomicIncrementNonce address n d) <> Hang.
Proof.
  unfold AtomicIncrementNonce, mbind, GoM_bind, get. pose proof (access_no_hang d) as Ha.
  destruct (access d) as [[[]| | |] d1]; simpl in *; try done.
  destruct (kv_data d1 !! NonceKey address) as [[| | | | | |val]|]; simpl; try done.
  - unfold Uint64. destruct (length val <? 8)%nat; simpl; [done|]. by case_if.
  - by case_if.
Qed.

(** The part of the store that holds neither accounts nor nonces. *)
Definition same_others (d d' : KV) : Prop :=
  (forall k, strip_acc k = None -> (forall a, k <> NonceKey a) -> kv_data d' !! k = kv_data d !! k) /\ (quiet d -> quiet d').
#[local] Instance same_others_preorder : PreOrder same_others.
Proof. split; [done|]. intros a b c [Ha Qa] [Hb Qb]. split; [|tauto]. intros k Hk Hn. by rewrite Hb, Ha. Qed.
Lemma rest_others d d' : same_rest d d' -> same_others d d'.
Proof. intros [Hr Hq]. split; [|done]. intros k Hk _. by apply Hr. Qed.

Lemma AtomicIncrementNonce_others address n d : same_others d (snd (AtomicIncrementNonce address n d)).
Proof.
  unfold AtomicIncrementNonce, mbind, GoM_bind, get. pose proof (rest_others _ _ (access_rest d)) as Ha.
  assert (Hins : forall d1 b, same_others d1 (set_data (<[NonceKey address := b]> (kv_data d1)) d1)).
  { intros d1 b. split; [|done]. intros k _ Hk. simpl. by rewrite lookup_insert_ne by (intros <-; by eapply Hk). }
  destruct (access d) as [[[]| | |] d1]; simpl in *; try done.
  destruct (kv_data d1 !! NonceKey address) as [[| | | | | |val]|]; simpl; try done.
  - unfold Uint64. destruct (length val <? 8)%nat; simpl; [done|]. case_if; simpl; [done|]. etransitivity; [exact Ha|apply Hins].
  - case_if; simpl; [done|]. etransitivity; [exact Ha|apply Hins].
Qed.

(** From free locks a transaction comes back, the locks are free again, the
    validators and the configuration are the same, and the store has changed in
    accounts and nonces only. *)
Definition framed (w w' : wstate) : Prop :=
  w_locks w' = NewShardedMutex /\ w_validators w' = w_validators w /\ w_config w' = w_config w /\
  same_others (db (w_am w)) (db (w_am w')).
#[local] Instance framed_trans : Transitive framed.
Proof. intros a b c (? & ? & ? & ?) (? & ? & ? & ?). split_and!; [congruence..|by etransitivity]. Qed.
Lemma framed_refl w : w_locks w = NewShardedMutex -> framed w w.
Proof. intros Hl. unfold framed. by split_and!. Qed.

Lemma execute_frame tx now1 now2 (w : wstate) :
  plain (tx_Type tx) = true -> w_locks w = NewShardedMutex ->
  let '(r, w') := Execute now1 now2 (Some tx) w in r <> Hang /\ framed w w'.
Proof.
  intros Hp Hl. unfold ExecuteTransaction.
  destruct (normalize_cases tx) as [[tx' Hn]|[e [tx' Hn]]]; rewrite Hn; [|by split; [|apply framed_refl]].
  pose proof (plain_normalized tx tx') as Ht. unfold normalized in Ht. rewrite Hn in Ht.
  rewrite <-(Ht eq_refl) in Hp. clear Ht Hn.
  set (rest := by_type now1 now2 tx').
  assert (Hrest : forall w1, w_locks w1 = NewShardedMutex -> fst (rest w1) <> Hang /\ framed w1 (snd (rest w1))).
  { intros w1 Hl1. pose proof (by_type_run tx' now1 now2 w1 Hp Hl1) as Hrun. fold rest in Hrun.
    destruct (guards_pass tx'); [destruct Hrun as [vs ->]|destruct Hrun as [e ->]; by split; [|apply framed_refl]].
    split; [apply core_no_hang|]. unfold framed. split_and!; [done..|]. apply rest_others, core_rest. }
  pose proof (AtomicIncrementNonce_no_hang (tx_From tx') (tx_Nonce tx') (db (w_am w))) as Hh.
  assert (Hgoal : let '(r, w') := (_ ← with_receipt tx' (
      '(ok, currentNonce) ← on_store NonceStoreError (AtomicIncrementNonce (tx_From tx') (tx_Nonce tx'));
      _ ← refuse_if (negb ok) (NonceMismatch (tx_Nonce tx') currentNonce); rest);
    mret (MkReceipt (tx_Hash tx') 1 (tx_Gas tx') None)) w in r <> Hang /\ framed w w').
  { unfold with_receipt, mbind, GoM_bind, on_store.
    pose proof (AtomicIncrementNonce_others (tx_From tx') (tx_Nonce tx') (db (w_am w))) as Ho.
    destruct (AtomicIncrementNonce (tx_From tx') (tx_Nonce tx') (db (w_am w))) as [[[[] n]|e| |] d]; simpl in *; try done.
    match goal with |- context [rest ?w1] => destruct (Hrest w1 Hl) as [Hr1 Hr2];
      assert (framed w w1) as Hw1 by done; pose proof (transitivity Hw1 Hr2);
      destruct (rest w1) as [[[]|e| |] w2]; simpl in *; done end. }
  destruct (tx_Type tx'); done.
Qed.

(** ** Sequences *)

(** Each transaction with what the clock shows while it runs; the caller goes on
    after an error, a panic ends the run. *)
Notation item := (Z * Z * Transaction)%type.

Fixpoint run_txs (items : list item) (w : wstate) : option (list bool * wstate) :=
  match items with
  | [] => Some ([], w)
  | (now1, now2, tx) :: items' =>
      match Execute now1 now2 (Some tx) w with
      | (Ok _, w') => '(bs, w'') ← run_txs items' w'; Some (true :: bs, w'')
      | (Err _, w') => '(bs, w'') ← run_txs items' w'; Some (false :: bs, w'')
      | _ => None
      end
  end.

Lemma run_txs_frame items : forall (w : wstate) bs w',
  Forall (fun i => plain (tx_Type (snd i)) = true) items -> w_locks w = NewShardedMutex ->
  run_txs items w = Some (bs, w') -> framed w w'.
Proof.
  induction items as [|[[n1 n2] tx] items IH]; intros w bs w' Hp Hl; cbn [run_txs].
  { intros [= <- <-]. by apply framed_refl. }
  apply Forall_cons in Hp as [Hp1 Hp]. pose proof (execute_frame tx n1 n2 w Hp1 Hl) as Hf.
  destruct (Execute n1 n2 (Some tx) w) as [r w1]. destruct Hf as (_ & Hf1). pose proof Hf1 as (Hl1 & _).
  assert (Hgoal : forall b, ('(bs, w'') ← run_txs items w1; Some (b :: bs, w'')) = Some (bs, w') -> framed w w').
  { intros b. destruct (run_txs items w1) as [[bs1 w2]|] eqn:Hr; simpl; [|done]. intros [= <- <-].
    by etransitivity; [exact Hf1|apply (IH w1 bs1 w2)]. }
  destruct r; try done; apply Hgoal.
Qed.

Fixpoint spec_txs (items : list item) (NL : gmap string Z * ledger)
    : option (list bool * (gmap string Z * ledger)) :=
  match items with
  | [] => Some ([], NL)
  | (_, _, tx) :: items' =>
      '(b, NL') ← exec_spec tx NL;
      '(bs, NL'') ← spec_txs items' NL';
      Some (b :: bs, NL'')
  end.

Definition total_self_mint (items : list item) : Z := foldr (fun i acc => mint_of (snd i) + acc) 0 items.

(** What an applied transaction takes out of the supply: the gas is burned, and a
    self-transfer creates its amount instead. *)
Definition burned (tx : Transaction) : Z :=
  match normalized tx with
  | None => 0
  | Some tx => match tx_Type tx with
               | TRANSFER => if bool_decide (tx_To tx = tx_From tx) then - amount_of tx else gas_cost tx
               | _ => gas_cost tx
               end
  end.

Fixpoint total_burned (items : list item) (bs : list bool) : Z :=
  match items, bs with
  | i :: items', b :: bs' => (if b then burned (snd i) else 0) + total_burned items' bs'
  | _, _ => 0
  end.

Lemma sender_step_funds tx a a' : sender_step tx a = Some a' -> funds a' = funds a - gas_cost tx.
Proof.
  unfold sender_step, funds. intros Hs. repeat case_match; simplify_eq; simpl; lia.
Qed.

Lemma ledger_step_supply tx L L' :
  ledger_step ok shard tx L = Applied L' ->
  supply L' = supply L - match tx_Type tx with
    | TRANSFER => if bool_decide (tx_To tx = tx_From tx) then - amount_of tx else gas_cost tx
    | _ => gas_cost tx end.
Proof.
  unfold ledger_step. case_if; [done|]. destruct (tx_Type tx) eqn:Ht.
  2-12: unfold single_verdict; case_if; [done|];
    destruct (sender_step tx (entry L (tx_From tx))) as [a'|] eqn:Hs; [|done];
    case_if; [|done]; intros [= <-]; rewrite supply_insert, (sender_step_funds _ _ _ Hs); lia.
  unfold transfer_verdict. repeat (case_if; [done|]). case_bool_decide as Hself; intros [= <-].
  - rewrite supply_insert. unfold funds. simpl. lia.
  - rewrite !supply_insert, entry_insert_ne by done. unfold funds, total_cost. simpl. lia.
Qed.

Lemma exec_spec_supply tx N L b N' L' :
  exec_spec tx (N, L) = Some (b, (N', L')) ->
  supply L' = supply L - if b then burned tx else 0.
Proof.
  unfold exec_spec, burned. destruct (normalized tx) as [tx'|]; [|intros [= <- <- <-]; lia].
  case_if; [intros [= <- <- <-]; lia|]. destruct (ledger_step ok shard tx' L) eqn:Hs; [| |done].
  - intros [= <- <- <-]. by apply ledger_step_supply.
  - intros [= <- <- <-]. lia.
Qed.

Lemma gas_nonneg_applied tx L L' : ledger_step ok shard tx L = Applied L' -> 0 <= gas_cost tx.
Proof. unfold ledger_step. case_if; [done|]. intros _. apply gas_cost_nonneg. zbool. lia. Qed.

Lemma burned_mint tx N L b N' L' :
  exec_spec tx (N, L) = Some (b, (N', L')) -> 0 <= mint_of tx /\ - mint_of tx <= if b then burned tx else 0.
Proof.
  unfold exec_spec, burned, mint_of. destruct (normalized tx) as [tx'|]; [|intros [= <- <- <-]; lia].
  assert (0 <= self_mint tx').
  { unfold self_mint. pose proof (amount_nonneg tx'). destruct (tx_Type tx'); try lia. by case_bool_decide. }
  case_if; [intros [= <- <- <-]; lia|]. destruct (ledger_step ok shard tx' L) eqn:Hs; [| |done]; intros [= <- <- <-];
    (split; [done|]); [|lia]. pose proof (gas_nonneg_applied _ _ _ Hs). unfold self_mint in *.
  destruct (tx_Type tx'); try lia. case_bool_decide; lia.
Qed.

Lemma total_self_mint_nonneg items : 0 <= total_self_mint items.
Proof.
  induction items as [|[[n1 n2] tx] items IH]; simpl; [done|]. unfold mint_of, self_mint.
  pose proof (amount_nonneg tx). destruct (normalized tx) as [tx'|]; [|lia].
  pose proof (amount_nonneg tx'). destruct (tx_Type tx'); try lia. case_bool_decide; lia.
Qed.

#[local] Arguments exec_spec : simpl never.
#[local] Arguments ExecuteTransaction : simpl never.

Lemma run_txs_meets items : forall N (w : wstate) bs N' L',
  Forall (fun i => plain (tx_Type (snd i)) = true) items ->
  wgood w -> nonce_rel N (db (w_am w)) ->
  supply (abs (w_am w)) + total_self_mint items < two256 ->
  spec_txs items (N, abs (w_am w)) = Some (bs, (N', L')) ->
  exists w', run_txs items w = Some (bs, w') /\ wgood w' /\ nonce_rel N' (db (w_am w')) /\
  abs (w_am w') = L' /\ supply L' = supply (abs (w_am w)) - total_burned items bs.
Proof.
  induction items as [|[[n1 n2] tx] items IH]; intros N w bs N' L' Hp Hw HN Hs; simpl.
  { intros [= <- <- <-]. exists w. split_and!; try done. lia. }
  apply Forall_cons in Hp as [Hp1 Hp]. simpl in Hp1, Hs.
  pose proof (total_self_mint_nonneg items).
  destruct (exec_spec tx (N, abs (w_am w))) as [[b [N1 L1]]|] eqn:Hspec; simpl; [|done].
  pose proof (exec_spec_supply _ _ _ _ _ _ Hspec) as Hsup.
  pose proof (burned_mint _ _ _ _ _ _ Hspec) as [Hm Hb].
  destruct (execute_meets tx n1 n2 N w Hp1 Hw HN) as (r & w1 & Hrun & Hres); [lia|].
  rewrite Hspec in Hres. destruct Hres as (Hw1 & HN1 & Habs & Hr). rewrite <-Habs in *.
  destruct (spec_txs items (N1, abs (w_am w1))) as [[bs' [N2 L2]]|] eqn:Hspec'; simpl; [|done].
  intros [= <- <- <-]. destruct (IH N1 w1 bs' N2 L2 Hp Hw1 HN1) as (w' & Hrun' & Hw' & HN' & Ha' & Hsup'); [lia|done|].
  exists w'. rewrite Hrun. assert (Hrest : match r with
    | Ok _ => '(bs, w'') ← run_txs items w1; Some (true :: bs, w'')
    | Err _ => '(bs, w'') ← run_txs items w1; Some (false :: bs, w'')
    | _ => None end = Some (b :: bs', w')).
  { rewrite Hrun'. destruct b; [by destruct Hr as (rc & -> & _)|by destruct r]. }
  split_and!; [by destruct r|done|done|done|lia].
Qed.
End Transactions.
