(* ===== verification/ExecutorThms.v ===== *)
(** * Properties of transaction execution

    The executor on a whole run of transactions: agreement with the ledger,
    what happens to the supply, what it does to a sender whose transaction
    fails, and the runs on which it damages accounts. *)

From S2P Require Import Prelude Uint256 Address Storage AccountManager AccountSpec ShardedLock Governance.
From S2P Require Import Domains EvmGas World Executor ExecutorSpec.
From stdpp Require Import base tactics numbers list gmap strings.
From Stdlib Require Import ZArith Lia Strings.Byte Strings.Ascii.
Open Scope Z_scope.
Open Scope list_scope.

(** ** A sender out of step *)

Section Sync.
Context (ok : string -> bool) (shard : string -> Z).

(** The stored nonce has run ahead of the account's. *)
Definition ahead (a : string) (N : gmap string Z) (L : ledger) : Prop :=
  nonce (entry L a) < default 0 (N !! a).

Lemma entry_insert_eq (L : ledger) k x : entry (<[k := x]> L) k = x.
Proof. unfold entry. by rewrite lookup_insert_eq. Qed.

(** Only a sender's own transaction changes its account nonce, and only if it is
    the one expected. *)
Lemma ledger_step_nonce tx L L' a :
  ledger_step ok shard tx L = Applied L' ->
  nonce (entry L (tx_From tx)) = tx_Nonce tx /\ (a <> tx_From tx -> nonce (entry L' a) = nonce (entry L a)).
Proof.
  unfold ledger_step. case_if; [done|].
  assert (Hsingle : single_verdict ok tx L = Applied L' ->
    nonce (entry L (tx_From tx)) = tx_Nonce tx /\ (a <> tx_From tx -> nonce (entry L' a) = nonce (entry L a))).
  { unfold single_verdict. case_if; [done|].
    destruct (sender_step tx (entry L (tx_From tx))) as [x|] eqn:Hs; [|done]. case_if; [|done].
    intros [= <-]. split; [unfold sender_step in Hs; case_if; [done|]; by zbool|].
    intros Ha. by rewrite entry_insert_ne. }
  destruct (tx_Type tx); try exact Hsingle. case_if; [done|]. unfold transfer_verdict.
  repeat (case_if; [done|]). case_bool_decide as Hself; intros [= <-]; zbool; (split; [done|]); intros Ha.
  - by rewrite entry_insert_ne.
  - destruct (decide (tx_To tx = a)) as [<-|Hne].
    + by rewrite entry_insert_eq.
    + by rewrite !entry_insert_ne.
Qed.

End Sync.

Section Ahead.
Context (Keccak256 : list byte -> list byte) (shardID totalShards : Z).
Notation exec_spec := (exec_spec Keccak256 shardID totalShards).
Notation spec_txs := (spec_txs Keccak256 shardID totalShards).

Lemma From_normalized tx tx' : normalized tx = Some tx' -> tx_From tx' = tx_From tx.
Proof.
  unfold normalized, normalizeTransactionAmounts. intros Hn. repeat case_match; simplify_eq; by destruct tx.
Qed.

Lemma exec_spec_ahead tx N L b N' L' a :
  exec_spec tx (N, L) = Some (b, (N', L')) ->
  ahead a N L -> 0 <= default 0 (N !! a) < MaxUint64 ->
  ahead a N' L' /\ 0 <= default 0 (N' !! a) <= default 0 (N !! a) + 1 /\ (tx_From tx = a -> b = false).
Proof.
  unfold ExecutorSpec.exec_spec, ahead. intros Hs Ha Hmax.
  destruct (normalized tx) as [tx'|] eqn:Hn; [|injection Hs as <- <- <-; by split_and!; try lia].
  rewrite <-(From_normalized _ _ Hn). clear Hn.
  destruct (Z.eqb_spec (default 0 (N !! tx_From tx')) (tx_Nonce tx')) as [He|He]; cbn [negb] in Hs;
    [|injection Hs as <- <- <-; by split_and!; try lia].
  assert (HN : default 0 (<[tx_From tx' := u64 (tx_Nonce tx' + 1)]> N !! a) =
    if bool_decide (tx_From tx' = a) then u64 (tx_Nonce tx' + 1) else default 0 (N !! a)).
  { case_bool_decide as Heq; [by rewrite Heq, lookup_insert_eq|by rewrite lookup_insert_ne]. }
  destruct (ledger_step _ _ tx' L) as [L1| |] eqn:Hstep; [| |done]; injection Hs as <- <- <-; rewrite HN.
  - destruct (ledger_step_nonce _ _ _ _ _ a Hstep) as [Hnon Hoth]. case_bool_decide as Heq.
    + subst a. lia.
    + rewrite Hoth by done. by split_and!; try lia.
  - case_bool_decide as Heq; [|by split_and!; try lia]. subst a.
    rewrite u64_id by (unfold is_u64; lia). by split_and!; try lia.
Qed.

Lemma spec_txs_ahead items : forall N L bs NL' a,
  spec_txs items (N, L) = Some (bs, NL') -> ahead a N L ->
  0 <= default 0 (N !! a) -> default 0 (N !! a) + Z.of_nat (length items) < MaxUint64 ->
  forall i now1 now2 tx, items !! i = Some (now1, now2, tx) -> tx_From tx = a -> bs !! i = Some false.
Proof.
  induction items as [|[[n1 n2] tx] items IH]; intros N L bs NL' a Hs Ha H0 Hlen i now1 now2 tx' Hi Hf; [done|].
  cbn [ExecutorSpec.spec_txs] in Hs. destruct (exec_spec tx (N, L)) as [[b [N1 L1]]|] eqn:He; simpl in Hs; [|done].
  destruct (spec_txs items (N1, L1)) as [[bs' NL2]|] eqn:Hr; simpl in Hs; [|done].
  injection Hs as <- <-. cbn [length] in Hlen. rewrite Nat2Z.inj_succ in Hlen.
  destruct (exec_spec_ahead _ _ _ _ _ _ a He Ha) as (Ha1 & HN1 & Hb); [lia|].
  destruct i as [|i]; simpl in *.
  - injection Hi as -> -> ->. by rewrite Hb.
  - by eapply (IH N1 L1 bs' _ a Hr Ha1); [lia|lia|exact Hi|].
Qed.

(** A first transaction with the right nonce that is refused puts its sender ahead. *)
Lemma refused_puts_ahead tx tx' N L N' L' :
  exec_spec tx (N, L) = Some (false, (N', L')) -> normalized tx = Some tx' ->
  default 0 (N !! tx_From tx) = tx_Nonce tx' -> nonce (entry L (tx_From tx)) = tx_Nonce tx' ->
  0 <= tx_Nonce tx' < MaxUint64 ->
  ahead (tx_From tx) N' L' /\ default 0 (N' !! tx_From tx) = tx_Nonce tx' + 1.
Proof.
  unfold ExecutorSpec.exec_spec, ahead. intros Hs Hn HN Hnon Hr. rewrite Hn in Hs.
  rewrite <-(From_normalized _ _ Hn) in *. rewrite HN, Z.eqb_refl in Hs. cbn [negb] in Hs.
  destruct (ledger_step _ _ tx' L); simplify_eq.
  rewrite lookup_insert_eq. simpl. rewrite u64_id by (unfold_ints; lia). lia.
Qed.
End Ahead.

(** ** A concrete node *)

#[local] Instance demo_LRU2 : LRU (list (string * loc)) := list_LRU 1.
#[local] Instance demo_LRU2_laws : LRULaws (list (string * loc)) := list_LRU_laws 1.
#[local] Instance demo_float : Float64 permille := permille_float.
#[local] Instance demo_json {A} `{Countable A} : Json A := text_codec.

Definition demo_config : GovConfig permille :=
  MkGovConfig true 0 (Some 334) (Some 500) false (Some 10) (Some 10) (Some 100) (Some 100) 1 0 0 0.
Definition demo_state : Type := @world (list (string * loc)) permille.
Definition boot (d : KV) : demo_state := MkWorld (start d) NewShardedMutex no_versions ∅ demo_config new_revm.
Definition no_engine : evm_engine demo_state := {|
  ExecuteCall _ _ _ _ _ _ w := ((0, Some "no engine"), w);
  DeployContract _ _ _ _ _ w := ((0, Some "no engine"), w) |}.

Notation demo_run := (run_txs no_hash id BeaconShardID 1 "1" no_engine).
Notation demo_spec := (spec_txs no_hash BeaconShardID 1).

Definition demo_tx (ty : TransactionType) (from to : string) (amount nonce : Z) : Transaction :=
  MkTransaction "id" from to (Bytes amount) 21000 (Bytes 10) nonce [] ty [] "hash" 0 [] "1" 2.

Lemma boot_good : wgood no_hash BeaconShardID 1 (boot demo_kv).
Proof. split; [apply start_inv|done|done]. Qed.

Lemma boot_nonces : nonce_rel ∅ (db (w_am (boot demo_kv))).
Proof.
  intros k. unfold stored_nonce. simpl. rewrite lookup_empty.
  destruct (decide (AccountKey alice = NonceKey k)) as [Heq|Hne]; [by discriminate Heq|].
  by rewrite lookup_singleton_ne.
Qed.

Definition demo_items : list (Z * Z * Transaction) :=
  (fun tx => (0, 0, tx)) <$>
  [demo_tx TRANSFER alice bob (10 ^ 19) 0; demo_tx STAKE bob "" (2 * 10 ^ 18) 0;
   demo_tx DELEGATE alice bob (10 ^ 18) 1; demo_tx TRANSFER bob alice (10 ^ 20) 1;
   demo_tx UNDELEGATE alice bob (10 ^ 18) 2; demo_tx STAKE bob "" 5 1].

(** ** Properties *)

Section Properties.
Context `{MapOrder} {C F : Type} `{LRU C, !LRULaws C} `{Float64 F}.
Context `{Json Proposal, Json ProposalPayload, Json VotePayload, Json FinalizePayload,
          Json stakeDomainMembers}.
Context (Keccak256 HexToAddress : list byte -> list byte) (shardID totalShards : Z) (ChainID : string).
Context (engine : evm_engine (@world C F)).
Notation wgood := (wgood Keccak256 shardID totalShards).
Notation run_txs := (run_txs Keccak256 HexToAddress shardID totalShards ChainID engine).
Notation spec_txs := (spec_txs Keccak256 shardID totalShards).

(** C1. Executing transactions implements the ledger.  From a state that satisfies
    the invariant, with no I/O failure pending, every run of transfers, stakes,
    unstakes, delegations, undelegations, claims and unknown types that the
    ledger does not mark as corrupting ends without a panic or a blocked lock,
    succeeds exactly at the transactions the ledger applies, and leaves in the
    database exactly the ledger's accounts and the ledger's stored nonces. *)
Theorem executor_refines_ledger items N (w : @world C F) bs N' L' :
  Forall (fun i => plain (tx_Type (snd i)) = true) items ->
  wgood w -> nonce_rel N (db (w_am w)) ->
  supply (abs (w_am w)) + total_self_mint items < two256 ->
  spec_txs items (N, abs (w_am w)) = Some (bs, (N', L')) ->
  exists w', run_txs items w = Some (bs, w') /\ wgood w' /\
  nonce_rel N' (db (w_am w')) /\ abs (w_am w') = L'.
Proof.
  intros Hp Hw HN Hs Hspec.
  destruct (run_txs_meets Keccak256 HexToAddress shardID totalShards ChainID engine items N w bs N' L' Hp Hw HN Hs Hspec)
    as (w' & H1' & H2' & H3' & H4' & _). eauto.
Qed.

(** C4. Gas is burned and nothing else leaves the supply: after such a run the sum
    of all balances, stakes and rewards has dropped by exactly the gas of the
    transactions that succeeded, except that a transfer to oneself is not charged
    and creates its amount; and every stored account is still well-formed. *)
Theorem executor_supply items N (w : @world C F) bs N' L' :
  Forall (fun i => plain (tx_Type (snd i)) = true) items ->
  wgood w -> nonce_rel N (db (w_am w)) ->
  supply (abs (w_am w)) + total_self_mint items < two256 ->
  spec_txs items (N, abs (w_am w)) = Some (bs, (N', L')) ->
  exists w', run_txs items w = Some (bs, w') /\
  supply (abs (w_am w')) = supply (abs (w_am w)) - total_burned items bs /\
  (forall k a, accounts_view (db (w_am w')) !! k = Some a ->
     canon_account a /\ acc_Address a = k /\ valid_acct (abs_acct a)).
Proof.
  intros Hp Hw HN Hs Hspec.
  destruct (run_txs_meets Keccak256 HexToAddress shardID totalShards ChainID engine items N w bs N' L' Hp Hw HN Hs Hspec)
    as (w' & H1' & H2' & H3' & H4' & H5'). exists w'. split_and!; [done|by rewrite H4'|].
  intros k a Ha. destruct (good_entry _ _ _ _ _ k a (wg_inv _ _ _ _ H2') Ha) as (? & ? & ? & _). done.
Qed.

(** A failed transaction locks its sender out.  The stored nonce is advanced
    before the transaction is checked and never taken back, while the account's
    own nonce only advances on success, and a transaction must match both.  So
    once a transaction with the right nonce has failed, no later transaction of
    that sender succeeds, whatever the others do. *)
Theorem failed_transaction_locks_sender_out tx tx' now1 now2 items N (w : @world C F) bs NL :
  Forall (fun i => plain (tx_Type (snd i)) = true) ((now1, now2, tx) :: items) ->
  wgood w -> nonce_rel N (db (w_am w)) ->
  supply (abs (w_am w)) + total_self_mint ((now1, now2, tx) :: items) < two256 ->
  normalized tx = Some tx' -> default 0 (N !! tx_From tx) = tx_Nonce tx' ->
  nonce (entry (abs (w_am w)) (tx_From tx)) = tx_Nonce tx' ->
  0 <= tx_Nonce tx' -> tx_Nonce tx' + 1 + Z.of_nat (length items) < MaxUint64 ->
  spec_txs ((now1, now2, tx) :: items) (N, abs (w_am w)) = Some (false :: bs, NL) ->
  exists w', run_txs ((now1, now2, tx) :: items) w = Some (false :: bs, w') /\
  forall i now1 now2 tx2, items !! i = Some (now1, now2, tx2) -> tx_From tx2 = tx_From tx -> bs !! i = Some false.
Proof.
  intros Hp Hw HN Hs Hn HNn Hnon H0' Hlen Hspec. destruct NL as [N' L'].
  destruct (run_txs_meets Keccak256 HexToAddress shardID totalShards ChainID engine _ N w _ N' L' Hp Hw HN Hs Hspec)
    as (w' & Hrun & _). exists w'. split; [done|].
  cbn [ExecutorSpec.spec_txs] in Hspec.
  destruct (exec_spec Keccak256 shardID totalShards tx (N, abs (w_am w))) as [[b [N1 L1]]|] eqn:He; simpl in Hspec; [|done].
  destruct (spec_txs items (N1, L1)) as [[bs' NL2]|] eqn:Hr; simpl in Hspec; [|done]. simplify_eq.
  destruct (refused_puts_ahead _ _ _ _ _ _ _ _ _ He Hn HNn Hnon) as [Ha1 HN1]; [lia|].
  intros i m1 m2 tx2 Hi Hf. eapply (spec_txs_ahead _ _ _ items N1 L1 bs _ (tx_From tx) Hr Ha1); [lia|lia|exact Hi|done].
Qed.

(** No transaction blocks the node or leaves a lock behind: whatever the state of
    the accounts, the cache and the database, and however the transaction ends
    (success, refusal, I/O failure, panic), execution from free locks comes back
    and all 64 account locks are free again. *)
Theorem executor_releases_locks now1 now2 tx (w : @world C F) :
  plain (tx_Type tx) = true -> w_locks w = NewShardedMutex ->
  let '(r, w') := ExecuteTransaction Keccak256 HexToAddress shardID totalShards ChainID true engine
                    now1 now2 (Some tx) w in
  r <> Hang /\ w_locks w' = NewShardedMutex.
Proof.
  intros Hp Hl. pose proof (execute_frame Keccak256 HexToAddress shardID totalShards ChainID engine tx now1 now2 w Hp Hl) as Hf.
  destruct (ExecuteTransaction _ _ _ _ _ _ _ _ _ _ _) as [r w']. by destruct Hf as (? & ? & _).
Qed.
End Properties.

(** The outcomes of a run of the ledger and one number of its result, computed. *)
Lemma spec_result {A} items NL (f : gmap string Z * ledger -> A) bs x :
  (fun r => (fst r, f (snd r))) <$> demo_spec items NL = Some (bs, x) ->
  exists N' L', demo_spec items NL = Some (bs, (N', L')) /\ f (N', L') = x.
Proof.
  destruct (demo_spec items NL) as [[bs' [N' L']]|]; [|done]. simpl. intros [= -> <-]. eauto.
Qed.

Lemma executor_refines_ledger_witness :
  exists w', demo_run demo_items (boot demo_kv) = Some ([true; true; true; false; true; false], w') /\
  bal (entry (abs (w_am w')) bob) = 8 * 10 ^ 18 - 210000.
Proof.
  destruct (spec_result demo_items (∅, abs (w_am (boot demo_kv))) (fun NL => bal (entry (snd NL) bob))
    [true; true; true; false; true; false] (8 * 10 ^ 18 - 210000)) as (N' & L' & Hspec & Hbob);
    [vm_compute; reflexivity|].
  destruct (executor_refines_ledger no_hash id BeaconShardID 1 "1" no_engine demo_items ∅ (boot demo_kv) _ N' L'
    ltac:(repeat constructor) boot_good boot_nonces ltac:(vm_compute; reflexivity) Hspec) as (w' & Hrun & _ & _ & Habs).
  exists w'. split; [exact Hrun|]. rewrite Habs. exact Hbob.
Defined.

Lemma executor_supply_witness :
  exists w', demo_run demo_items (boot demo_kv) = Some ([true; true; true; false; true; false], w') /\
  supply (abs (w_am w')) = supply (abs (w_am (boot demo_kv))) - 4 * 210000.
Proof.
  destruct (spec_result demo_items (∅, abs (w_am (boot demo_kv))) (fun NL => bal (entry (snd NL) bob))
    [true; true; true; false; true; false] (8 * 10 ^ 18 - 210000)) as (N' & L' & Hspec & _);
    [vm_compute; reflexivity|].
  destruct (executor_supply no_hash id BeaconShardID 1 "1" no_engine demo_items ∅ (boot demo_kv) _ N' L'
    ltac:(repeat constructor) boot_good boot_nonces ltac:(vm_compute; reflexivity) Hspec) as (w' & Hrun & Hsup & _).
  exists w'. split; [exact Hrun|]. rewrite Hsup. f_equal.
Defined.

(** Alice spends more than she has, then tries twice to do better. *)
Definition locked_items : list (Z * Z * Transaction) :=
  (fun tx => (0, 0, tx)) <$>
  [demo_tx TRANSFER bob alice 1 0; demo_tx TRANSFER alice bob 1 0; demo_tx TRANSFER alice bob 1 1].

Lemma failed_transaction_locks_sender_out_witness :
  exists w' bs, demo_run ((0, 0, demo_tx TRANSFER alice bob (10 ^ 21) 0) :: locked_items) (boot demo_kv) =
    Some (false :: bs, w') /\ bs !! 1%nat = Some false /\ bs !! 2%nat = Some false.
Proof.
  destruct (spec_result ((0, 0, demo_tx TRANSFER alice bob (10 ^ 21) 0) :: locked_items) (∅, abs (w_am (boot demo_kv)))
    (fun _ => tt) [false; false; false; false] tt) as (N' & L' & Hspec & _); [vm_compute; reflexivity|].
  destruct (failed_transaction_locks_sender_out no_hash id BeaconShardID 1 "1" no_engine
    (demo_tx TRANSFER alice bob (10 ^ 21) 0) (demo_tx TRANSFER alice bob (10 ^ 21) 0) 0 0 locked_items ∅ (boot demo_kv)
    [false; false; false] (N', L') ltac:(repeat constructor) boot_good boot_nonces ltac:(vm_compute; reflexivity)
    ltac:(vm_compute; reflexivity) ltac:(vm_compute; reflexivity) ltac:(vm_compute; reflexivity)
    ltac:(vm_compute; congruence) ltac:(vm_compute; reflexivity) Hspec) as (w' & Hrun & Hout).
  exists w', [false; false; false]. split_and!; [exact Hrun| |].
  - apply (Hout 1%nat 0 0 (demo_tx TRANSFER alice bob 1 0)); reflexivity.
  - apply (Hout 2%nat 0 0 (demo_tx TRANSFER alice bob 1 1)); reflexivity.
Defined.

Lemma executor_releases_locks_witness :
  w_locks (snd (ExecuteTransaction no_hash id BeaconShardID 1 "1" true no_engine 0 0
    (Some (demo_tx TRANSFER alice bob (10 ^ 21) 0)) (boot demo_kv))) = NewShardedMutex.
Proof.
  pose proof (executor_releases_locks no_hash id BeaconShardID 1 "1" no_engine 0 0
    (demo_tx TRANSFER alice bob (10 ^ 21) 0) (boot demo_kv) eq_refl eq_refl) as Hrel.
  destruct (ExecuteTransaction _ _ _ _ _ _ _ _ _ _ _) as [r w']. exact (proj2 Hrel).
Defined.

(** ** Damage *)

Definition cached_account (w : demo_state) (k : string) : option Account :=
  l ← lru_view (cache (w_am w)) !! k; heap (w_am w) !! l.
Definition amounts (a : Account) : Z * Z * Z :=
  (SetBytes (acc_Balance a), SetBytes (acc_StakedAmount a), acc_Nonce a).

(** Bob has delegated ten units; Alice is rich. *)
Definition delegated_kv : KV := MkKV
  {[AccountKey alice := JAccount (rich alice (10 ^ 20));
    AccountKey bob := JAccount (MkAccount bob (Bytes 1000000) 0 (Bytes 10) {[alice := Bytes 10]} [] [] [])]} [].

(** Unstaking delegated stake corrupts the account.  The handler changes the
    cached object and only then validates it, so the refused unstake leaves the
    cache with a stake below the delegations while the database keeps the old
    account; from then on the account cannot be saved, and a transfer to it
    debits the sender in the database and credits nobody. *)
Theorem unstaking_delegated_stake_corrupts :
  let '(r1, w1) := ExecuteTransaction no_hash id BeaconShardID 1 "1" true no_engine 0 0
    (Some (demo_tx UNSTAKE bob "" 10 0)) (boot delegated_kv) in
  let '(r2, w2) := ExecuteTransaction no_hash id BeaconShardID 1 "1" true no_engine 0 0
    (Some (demo_tx TRANSFER alice bob (10 ^ 18) 0)) w1 in
  is_err r1 = true /\
  amounts <$> cached_account w1 bob = Some (1000000 - 210000 + 10, 0, 1) /\
  amounts <$> accounts_view (db (w_am w1)) !! bob = Some (1000000, 10, 0) /\
  is_err r2 = true /\
  amounts <$> accounts_view (db (w_am w2)) !! alice = Some (99 * 10 ^ 18 - 210000, 0, 1) /\
  amounts <$> accounts_view (db (w_am w2)) !! bob = Some (1000000, 10, 0).
Proof. vm_compute. split_and!; reflexivity. Qed.

(** A transfer to oneself creates money: the credit is computed from the balance
    before the debit and written last, so the account gains the amount, pays no
    gas, and can double its balance in one transaction. *)
Theorem self_transfer_creates_money :
  let '(r, w) := ExecuteTransaction no_hash id BeaconShardID 1 "1" true no_engine 0 0
    (Some (demo_tx TRANSFER alice alice (10 ^ 20 - 210000) 0)) (boot demo_kv) in
  is_ok r = true /\
  amounts <$> accounts_view (db (w_am w)) !! alice = Some (2 * 10 ^ 20 - 210000, 0, 1).
Proof. vm_compute. split_and!; reflexivity. Qed.
