(* ===== verification/Revm.v ===== *)
(** * The EVM bridge (src/core/evm/revm_executor.go)

    [ExecuteCall] and [DeployContract] check the gas, reserve it, advance the
    stored nonce of the caller's checksummed address and hand over to the Rust
    engine.  The engine is a library behind a C interface: it is an argument, a
    function of the world because it reads balances, nonces, code and storage
    through callbacks, none of which writes.  [Hex] is go-ethereum's. *)

From S2P Require Import Prelude Uint256 Address Storage AccountManager AccountSpec ShardedLock Governance.
From S2P Require Import Domains EvmGas World Executor ExecutorSpec.
From stdpp Require Import base tactics numbers list gmap strings.
From Stdlib Require Import ZArith Lia Strings.Byte Strings.Ascii.
Open Scope Z_scope.
Open Scope list_scope.

Record CExecutionResult : Type := MkResult {
  error_code : Z;
  error_message : option string;
  gas_used : Z;
  return_data : list byte;
  success : Z
}.

Definition FFI_SUCCESS : Z := 0.
Definition FFI_PANIC_CAUGHT : Z := 1.
Definition FFISentinelError : Z := u64 (-1).

(** Return data, gas used, and the error. *)
Definition processResult (res : CExecutionResult) : list byte * Z * option string :=
  if error_code res =? FFI_PANIC_CAUGHT then
    ([], 0, Some ("CRITICAL: REVM panic - " +:+ default "Rust panic detected" (error_message res)))
  else if negb (error_code res =? FFI_SUCCESS) then
    ([], 0, Some ("REVM FFI error: " +:+ default "Unknown FFI error" (error_message res)))
  else if 50000000 <? gas_used res then ([], 0, Some "suspicious gas value")
  else if success res =? 0 then
    (return_data res, gas_used res, Some (default "execution failed" (error_message res)))
  else (return_data res, gas_used res, None).

(** The answer of the engine's estimate, with a tenth added, capped. *)
Definition EstimateGas (gas : Z) : outcome string Z :=
  if gas =? FFISentinelError then Err "CRITICAL: Rust FFI panic during EstimateGas"
  else if gas =? 0 then Err "gas estimation failed: execution reverted"
  else if 15000000 <? gas then Ok 15000000
  else let bufferAmount := gas / 10 in
       if 15000000 - bufferAmount <? gas then Ok 15000000 else Ok (gas + bufferAmount).

Section Bridge.
Context `{MapOrder} {C F : Type} `{LRU C}.
Notation W := (@world C F).

(** The two calls into the library: caller, contract or code, data, gas, value, nonce. *)
Context (Hex : list byte -> string).
Context (revm_execute_call : list byte -> list byte -> list byte -> Z -> Z -> Z -> W -> CExecutionResult * W).
Context (revm_deploy_contract : list byte -> list byte -> Z -> Z -> Z -> W -> CExecutionResult * W).
(** The clock readings of one call, in order. *)
Context (clock : nat -> Z).

Notation Br := (GoM W (Z * string)).

Definition limits_of (w : W) : Z * Z * Z := circuitBreakerLimits (Some (w_config w)).

(** An error returned before the engine ran reports no gas used. *)
Definition fail0 {A} (msg : string) : Br A := throw (0, msg).

Definition reserve_window (gas : Z) : Br unit := fun w =>
  on_evm (fun _ => (0, "circuit breaker")) (CheckAndReserveWindowGas (limits_of w) (clock 0) gas) w.
Definition set_evm (f : revm -> revm) : Br unit := fun w =>
  (Ok tt, MkWorld (w_am w) (w_locks w) (w_versions w) (w_validators w) (w_config w) (f (w_evm w))).
Definition refund_window (gas : Z) (tx : bool) : Br unit := fun w =>
  set_evm (refundWindowReservation (limits_of w) (clock 1) (clock 2) gas tx) w.

(** The steps both entry points share, up to the engine. *)
Definition reserve_block (gas : Z) : Br unit := fun w =>
  match on_evm (fun _ => (0, "block gas limit check failed")) (CheckAndReserveGas gas) w with
  | (Ok u, w') => (Ok u, w')
  | (r, w') => (_ ← refund_window gas true; lift r) w'
  end.
Definition reserve (gas : Z) : Br unit := _ ← reserve_window gas; reserve_block gas.

Definition take_nonce (caller : list byte) (gas nonce : Z) : Br unit := fun w =>
  match ws_AtomicIncrementNonce (Hex caller) nonce w with
  | (Ok (true, _), w') => (Ok tt, w')
  | (Ok (false, _), w') =>
      (_ ← refund_window gas true; _ ← set_evm (RefundGas gas); fail0 "nonce mismatch") w'
  | (Err _, w') =>
      (_ ← refund_window gas true; _ ← set_evm (RefundGas gas); fail0 "nonce validation failed") w'
  | (Panic, w') => (Panic, w')
  | (Hang, w') => (Hang, w')
  end.

(** The engine's answer, and the refund of what it left. *)
Definition finish (gas : Z) (prefix : string) (call : W -> CExecutionResult * W) : Br Z := fun w =>
  let '(res, w1) := call w in
  let '(_, gasUsed, err) := processResult res in
  (_ ← (if gasUsed <? gas
        then _ ← set_evm (RefundGas (gas - gasUsed)); refund_window (gas - gasUsed) false
        else mret tt);
   match err with
   | Some msg => throw (gasUsed, prefix +:+ msg)
   | None => mret gasUsed
   end) w1.

Definition revm_ExecuteCall (caller contract input : list byte) (gas value nonce : Z) : Br Z :=
  _ ← refuse_if (30000000 <? gas) (0, "gas limit exceeds maximum");
  _ ← refuse_if (gas =? 0) (0, "gas limit cannot be zero");
  _ ← reserve gas;
  _ ← take_nonce caller gas nonce;
  finish gas "" (revm_execute_call caller contract input gas value nonce).

Definition revm_DeployContract (deployer bytecode : list byte) (gas value nonce : Z) : Br Z :=
  _ ← refuse_if (gas <? 100000) (0, "deployment requires minimum gas");
  _ ← refuse_if (30000000 <? gas) (0, "gas limit exceeds maximum");
  _ ← refuse_if (length bytecode =? 0)%nat (0, "cannot deploy empty bytecode");
  _ ← reserve gas;
  _ ← take_nonce deployer gas nonce;
  finish gas "deployment failed: " (revm_deploy_contract deployer bytecode gas value nonce).

(** What the executor sees: the gas used and the error.  The bridge takes no
    mutex twice and dereferences nothing that may be missing. *)
Definition answer (m : Br Z) (w : W) : (Z * option string) * W :=
  match m w with
  | (Ok gasUsed, w') => ((gasUsed, None), w')
  | (Err (gasUsed, msg), w') => ((gasUsed, Some msg), w')
  | (_, w') => ((0, Some "panic"), w')
  end.

Definition revm_engine : evm_engine W := {|
  ExecuteCall caller contract input gas value nonce :=
    answer (revm_ExecuteCall caller contract input gas value nonce);
  DeployContract deployer bytecode gas value nonce :=
    answer (revm_DeployContract deployer bytecode gas value nonce)
|}.
End Bridge.
