(* ===== verification/EvmSpec.v ===== *)
(** * What an EVM call costs its sender

    The executor charges the whole gas limit and the value before the engine
    runs and refunds afterwards; the theorems say what is left, and why an
    account gets one call only. *)

From S2P Require Import Prelude Uint256 Address Storage AccountManager AccountSpec ShardedLock Governance.
From S2P Require Import Domains EvmGas World Executor ExecutorSpec ExecutorThms Revm.
From stdpp Require Import base tactics numbers list gmap strings.
From Stdlib Require Import ZArith Lia Strings.Byte Strings.Ascii.
Open Scope Z_scope.
Open Scope list_scope.

Section EvmSpec.
Context `{MapOrder} {C F : Type} `{LRU C, !LRULaws C}.
Context (Keccak256 HexToAddress : list byte -> list byte) (shardID totalShards : Z) (ChainID : string).
Notation wstate := (@world C F).
Notation inv := (good Keccak256 shardID totalShards ∅).
Notation ok := (ok_addr Keccak256 shardID totalShards).
Notation wgood := (wgood Keccak256 shardID totalShards).

(** ** The world state's account calls *)

Definition with_bal (v : Z) (a : acct) : acct := MkAcct v (staked a) (rewards a) (deleg a) (nonce a).

Lemma set_am_good (w : wstate) s :
  wgood w -> inv s -> quiet (db s) -> wgood (set_am s w).
Proof. intros [_ _ Hl] Hg Hq. by split. Qed.

Lemma ws_GetAccount_run addr (w : wstate) :
  wgood w -> ok addr = true ->
  exists l a w', ws_GetAccount Keccak256 shardID totalShards addr w = (Ok l, w') /\ wgood w' /\
  db (w_am w') = db (w_am w) /\ heap (w_am w') !! l = Some a /\ acc_Address a = addr /\
  canon_account a /\ abs_acct a = entry (abs (w_am w)) addr /\ valid_acct (abs_acct a).
Proof.
  intros Hw Hok. pose proof Hw as [Hg Hq Hl].
  destruct (GetAccount_ok Keccak256 shardID totalShards addr (w_am w) Hg Hq Hok)
    as (l & a & s' & Hget & Hg' & Hdb & Hh & _ & Ha & Hc & Habs & Hv).
  exists l, a, (set_am s' w). unfold ws_GetAccount, RLock, RUnlock, on_am.
  rewrite guarded_run by (done || unfold wrapM; rewrite Hget; done).
  unfold wrapM. rewrite Hget. split_and!; try done. apply set_am_good; try done. by rewrite Hdb.
Qed.

Lemma ws_GetBalance_run addr (w : wstate) :
  wgood w -> ok addr = true ->
  exists w', ws_GetBalance Keccak256 shardID totalShards addr w = (Ok (bal (entry (abs (w_am w)) addr)), w') /\
  wgood w' /\ db (w_am w') = db (w_am w).
Proof.
  intros Hw Hok. destruct (ws_GetAccount_run addr w Hw Hok) as (l & a & w' & Hget & Hw' & Hdb & Hl & _ & Hc & Habs & _).
  exists w'. unfold ws_GetBalance, mbind, GoM_bind. rewrite Hget. unfold on_am. rewrite on_accounts_run.
  unfold wrapM. rewrite (load_run l a) by done. simpl.
  replace (set_am (w_am w') w') with w' by by destruct w'.
  split_and!; try done. rewrite <-Habs. simpl.
  destruct Hc as (Hb & _). pose proof Hb as [Hval _]%canon_iff.
  unfold ParseUint256Bytes. rewrite Hval. simpl. f_equal.
  destruct (acc_Balance a); done.
Qed.

Lemma ws_UpdateBalance_run addr v (w : wstate) :
  wgood w -> ok addr = true -> 0 <= v < two256 ->
  exists w', ws_UpdateBalance Keccak256 shardID totalShards addr (Some v) w = (Ok tt, w') /\ wgood w' /\
  abs (w_am w') = <[addr := with_bal v (entry (abs (w_am w)) addr)]> (abs (w_am w)) /\
  same_rest (db (w_am w)) (db (w_am w')).
Proof.
  intros Hw Hok Hv. pose proof Hw as [Hg Hq Hl].
  destruct (GetAccount_ok Keccak256 shardID totalShards addr (w_am w) Hg Hq Hok)
    as (l & a & s1 & Hget & Hg1 & Hdb & Hh & _ & Ha & Hc & Habs & Hva).
  destruct (u256_canon v Hv) as [Hcv Hsv].
  destruct (commit Keccak256 shardID totalShards l a (set_Balance (u256_or_nil v) a) s1)
    as (s2 & Hu & Hg2 & Hq2 & Habs2); try done.
  { by rewrite Hdb. } { by rewrite Ha. }
  { destruct Hc as (? & ? & ? & ?). by split_and!. }
  { unfold valid_acct in *. simpl in *. rewrite Hsv. intuition lia. }
  assert (Hbody : set_balance Keccak256 shardID totalShards addr (Some v) (w_am w) = (Ok tt, s2)).
  { unfold set_balance. assert (Hz : (Z.sgn v <? 0) = false) by (apply Z.ltb_ge; lia). rewrite Hz.
    unfold mbind, GoM_bind, wrapM, refuse_if, mret, GoM_ret. rewrite Hget. simpl.
    rewrite (assign_run l _ a) by done. simpl. by rewrite Hu. }
  exists (set_am s2 w). split_and!.
  - unfold ws_UpdateBalance, Lock, Unlock. rewrite guarded_run by (done || by rewrite Hbody). by rewrite Hbody.
  - by apply set_am_good.
  - simpl. rewrite Habs2, Ha, (abs_db _ _ Hdb). f_equal. unfold abs_acct. simpl. rewrite Hsv.
    unfold with_bal. by rewrite <-Habs.
  - simpl. assert (Hk : keeps am_rest (set_balance (C:=C) Keccak256 shardID totalShards addr (Some v))).
    { unfold set_balance. frame. }
    specialize (Hk (w_am w)). by rewrite Hbody in Hk.
Qed.

Lemma ws_GetNonce_run addr (w : wstate) :
  wgood w -> ok addr = true ->
  exists w', ws_GetNonce Keccak256 shardID totalShards addr w = (Ok (nonce (entry (abs (w_am w)) addr)), w') /\
  wgood w' /\ db (w_am w') = db (w_am w).
Proof.
  intros Hw Hok. pose proof Hw as [Hg Hq Hl].
  destruct (GetAccount_ok Keccak256 shardID totalShards addr (w_am w) Hg Hq Hok)
    as (l & a & s' & Hget & Hg' & Hdb & Hh & _ & Ha & Hc & Habs & Hv).
  assert (Hn : GetNonce Keccak256 shardID totalShards addr (w_am w) = (Ok (acc_Nonce a), s')).
  { unfold GetNonce, query, mbind, GoM_bind. rewrite Hget. by rewrite (load_run l a). }
  exists (set_am s' w). unfold ws_GetNonce, RLock, RUnlock, on_am.
  rewrite guarded_run by (done || unfold wrapM; rewrite Hn; done).
  unfold wrapM. rewrite Hn. split_and!; [|apply set_am_good; try done; by rewrite Hdb|done].
  simpl. by rewrite <-Habs.
Qed.

Lemma credit_run addr v (w : wstate) :
  wgood w -> ok addr = true -> 0 <= v -> bal (entry (abs (w_am w)) addr) + v < two256 ->
  exists w', credit Keccak256 shardID totalShards addr v w = (Ok tt, w') /\ wgood w' /\
  abs (w_am w') = <[addr := with_bal (bal (entry (abs (w_am w)) addr) + v) (entry (abs (w_am w)) addr)]> (abs (w_am w)) /\
  same_rest (db (w_am w)) (db (w_am w')).
Proof.
  intros Hw Hok Hv Hb. destruct (ws_GetBalance_run addr w Hw Hok) as (w1 & Hget & Hw1 & Hdb).
  destruct (funds_le_supply _ _ _ (w_am w) addr (wg_inv _ _ _ _ Hw)) as [_ (H1' & _)].
  destruct (ws_UpdateBalance_run addr (bal (entry (abs (w_am w)) addr) + v) w1 Hw1 Hok) as (w2 & Hup & Hw2 & Habs & Hr); [lia|].
  exists w2. unfold credit, ws_Balance, ws_SetBalance, mbind, GoM_bind. rewrite Hget, Hup.
  rewrite (abs_db _ _ Hdb), Hdb in *. done.
Qed.

(** ** The call *)

(** The engine reads the state and reports an amount of gas. *)
Definition engine_reads (engine : evm_engine wstate) : Prop :=
  forall caller contract data gas value nonce w, wgood w ->
  let '((gasUsed, _), w') := ExecuteCall engine caller contract data gas value nonce w in
  0 <= gasUsed /\ wgood w' /\ abs (w_am w') = abs (w_am w).

(** What the executor checks before it runs the engine. *)
Record call_admitted (tx : Transaction) (w : wstate) (value price : Z) : Prop := MkAdmitted {
  ca_chain : tx_ChainId tx = ChainID;
  ca_gas : 21000 <= tx_Gas tx <= maxGasLimit;
  ca_value : ParseUint256Bytes (tx_Amount tx) = Ok value;
  ca_price : ParseUint256Bytes (tx_GasPrice tx) = Ok price;
  ca_from : ok (tx_From tx) = true;
  ca_nonce : nonce (entry (abs (w_am w)) (tx_From tx)) = tx_Nonce tx;
  ca_funds : tx_Gas tx * price + value <= bal (entry (abs (w_am w)) (tx_From tx))
}.

Definition call_charge (tx : Transaction) (value price gasUsed : Z) (failed : bool) : Z :=
  Z.min gasUsed (tx_Gas tx) * price + if failed then 0 else value.

Lemma parse_u256_nonneg raw v : ParseUint256Bytes raw = Ok v -> 0 <= v.
Proof.
  unfold ParseUint256Bytes. destruct (ValidateCanonicalUint256Bytes raw) as [[]| | |]; simpl; try done.
  case_if; intros [= <-]; [done|apply SetBytes_nonneg].
Qed.

Lemma with_bal_id a : with_bal (bal a) a = a.
Proof. by destruct a. Qed.

Lemma entry_insert (L : ledger) k x : entry (<[k := x]> L) k = x.
Proof. unfold entry. by rewrite lookup_insert_eq. Qed.

(** [if refund > 0 { credit }], with the error logged. *)
Lemma refund_run addr v x (w : wstate) :
  wgood w -> ok addr = true -> abs (w_am w) !! addr = Some x -> bal x + Z.max 0 v < two256 ->
  exists w', (if 0 <? Z.sgn v then ignored (credit Keccak256 shardID totalShards addr v) else mret tt) w = (Ok tt, w') /\
  wgood w' /\ abs (w_am w') = <[addr := with_bal (bal x + Z.max 0 v) x]> (abs (w_am w)) /\
  same_rest (db (w_am w)) (db (w_am w')).
Proof.
  intros Hw Hok Hx Hb. assert (He : entry (abs (w_am w)) addr = x) by (unfold entry; by rewrite Hx).
  destruct (Z.ltb_spec 0 (Z.sgn v)).
  - destruct (credit_run addr v w Hw Hok) as (w' & Hc & Hw' & Habs & Hr); [lia|rewrite He; lia|].
    exists w'. unfold ignored. rewrite He in Habs. rewrite Hc, Z.max_r by lia. by split_and!.
  - exists w. rewrite Z.max_l, Z.add_0_r, with_bal_id by lia. split_and!; try done. by rewrite insert_id.
Qed.

Lemma evm_call_run engine tx value price (w : wstate) :
  wgood w -> funds (entry (abs (w_am w)) (tx_From tx)) < two256 ->
  engine_reads engine -> call_admitted tx w value price ->
  exists gasUsed err w', executeEVMCall Keccak256 HexToAddress shardID totalShards ChainID engine tx w =
    (match err with
     | None => Ok (MkReceipt (tx_Hash tx) 1 (i64 gasUsed) None)
     | Some msg => Err (Some (MkReceipt (tx_Hash tx) 0 (i64 gasUsed) (Some (EVMFailed msg))), EVMFailed msg)
     end, w') /\ 0 <= gasUsed /\ wgood w' /\
  abs (w_am w') = <[tx_From tx :=
    with_bal (bal (entry (abs (w_am w)) (tx_From tx)) - call_charge tx value price gasUsed (bool_decide (is_Some err)))
      (entry (abs (w_am w)) (tx_From tx))]> (abs (w_am w)) /\
  (exists w3 w4, same_rest (db (w_am w)) (db (w_am w3)) /\ wgood w3 /\
     ExecuteCall engine (address_of HexToAddress (tx_From tx)) (address_of HexToAddress (tx_To tx)) (tx_Data tx)
       (tx_Gas tx) value (tx_Nonce tx) w3 = ((gasUsed, err), w4) /\
     same_rest (db (w_am w4)) (db (w_am w'))).
Proof.
  intros Hw Hs He [Hch Hgas Hv Hp Hok Hn Hf]. set (from := tx_From tx) in *.
  pose proof (parse_u256_nonneg _ _ Hv) as Hv0. pose proof (parse_u256_nonneg _ _ Hp) as Hp0.
  destruct (funds_le_supply _ _ _ (w_am w) from (wg_inv _ _ _ _ Hw)) as [Hfs (Hb0 & Hs0 & Hr0 & _)].
  unfold funds, maxGasLimit in *. set (b := bal (entry (abs (w_am w)) from)) in *.
  unfold executeEVMCall. unfold mbind at 1, GoM_bind at 1. unfold wrapM.
  rewrite bool_decide_eq_true_2 by done. cbn [negb].
  rewrite (proj2 (Z.ltb_ge (tx_Gas tx) 0)), (proj2 (Z.ltb_ge (tx_Gas tx) 21000)) by lia.
  unfold maxGasLimit. rewrite (proj2 (Z.ltb_ge 30000000 (tx_Gas tx))) by lia.
  rewrite Hv, Hp. unfold refuse_if, lift, wrap.
  cbv beta iota delta [mbind GoM_bind mret GoM_ret]. fold from.
  destruct (ws_GetNonce_run from w Hw Hok) as (w1 & -> & Hw1 & Hdb1).
  rewrite Hn, Z.eqb_refl. cbn [negb]. unfold ws_Balance at 1.
  destruct (ws_GetBalance_run from w1 Hw1 Hok) as (w2 & -> & Hw2 & Hdb2).
  rewrite (abs_db _ _ Hdb1). fold b. rewrite u64_id by (unfold_ints; lia).
  rewrite (proj2 (Z.ltb_ge b (tx_Gas tx * price + value))) by lia.
  rewrite Hdb1 in Hdb2. unfold ignored at 1, ws_SetBalance at 1.
  destruct (ws_UpdateBalance_run from (b - (tx_Gas tx * price + value)) w2 Hw2 Hok) as (w3 & -> & Hw3 & Habs3 & Hr3); [nia|].
  rewrite (abs_db _ _ Hdb2) in Habs3. rewrite Hdb2 in Hr3. unfold run_engine.
  match goal with |- context [ExecuteCall engine ?a1 ?a2 ?a3 ?a4 ?a5 ?a6 w3] =>
    pose proof (He a1 a2 a3 a4 a5 a6 w3 Hw3) as Heng;
    destruct (ExecuteCall engine a1 a2 a3 a4 a5 a6 w3) as [[gasUsed err] w4] eqn:Hcall end.
  destruct Heng as (Hgu & Hw4 & Habs4). rewrite Habs3 in Habs4.
  destruct (refund_run from (tx_Gas tx * price - gasUsed * price)
    (with_bal (b - (tx_Gas tx * price + value)) (entry (abs (w_am w)) from)) w4 Hw4 Hok) as (w5 & Href & Hw5 & Habs5 & Hr5).
  { by rewrite Habs4, lookup_insert_eq. } { simpl. nia. }
  cbv beta iota delta [mret GoM_ret] in Href. rewrite Href. cbn [bal with_bal] in Habs5.
  rewrite Habs4, insert_insert_eq in Habs5.
  assert (Hmin : b - (tx_Gas tx * price + value) + Z.max 0 (tx_Gas tx * price - gasUsed * price) =
    b - (Z.min gasUsed (tx_Gas tx) * price + value)).
  { destruct (Z.max_spec 0 (tx_Gas tx * price - gasUsed * price)), (Z.min_spec gasUsed (tx_Gas tx)); nia. }
  rewrite Hmin in Habs5. destruct err as [msg|].
  - assert (He5 : entry (abs (w_am w5)) from = with_bal (b - (Z.min gasUsed (tx_Gas tx) * price + value))
      (with_bal (b - (tx_Gas tx * price + value)) (entry (abs (w_am w)) from))) by by rewrite Habs5, entry_insert.
    destruct (credit_run from value w5 Hw5 Hok) as (w6 & Hc & Hw6 & Habs6 & Hr6); [lia|rewrite He5; simpl; nia|].
    exists gasUsed, (Some msg), w6. unfold ignored. rewrite Hc. split_and!; try done.
    + rewrite Habs6, He5, Habs5, insert_insert_eq. unfold with_bal, call_charge. simpl. f_equal. f_equal. lia.
    + exists w3, w4. split_and!; try done. by etransitivity.
  - exists gasUsed, None, w5. split_and!; try done. exists w3, w4. by split_and!.
Qed.

Lemma wrapM_ok {S E E' A} (f : E -> E') (m : GoM S E A) s a s' : wrapM f m s = (Ok a, s') -> m s = (Ok a, s').
Proof. unfold wrapM. destruct (m s) as [[| | |] s1]; simpl; naive_solver. Qed.
Lemma lift_ok {S E A} (m : outcome E A) (s s' : S) a : lift m s = (Ok a, s') -> m = Ok a /\ s' = s.
Proof. unfold lift. naive_solver. Qed.
Lemma wrap_ok {E E' A} (f : E -> E') (m : outcome E A) a : wrap f m = Ok a -> m = Ok a.
Proof. destruct m; naive_solver. Qed.

(** Take the next step of a computation that succeeded. *)
Ltac step_ok H a Hm :=
  let s := fresh "s" in
  apply GoM_bind_inv_ok in H as (a & s & Hm & H);
  try (apply refuse_if_ok in Hm as [Hm ->]); try (apply lift_ok in Hm as [Hm ->]; apply wrap_ok in Hm);
  try (apply wrapM_ok in Hm).

(** A call that succeeded had passed every check. *)
Lemma evm_call_ok_admitted engine tx (w w' : wstate) rc :
  wgood w -> executeEVMCall Keccak256 HexToAddress shardID totalShards ChainID engine tx w = (Ok rc, w') ->
  exists value price, call_admitted tx w value price.
Proof.
  intros Hw Hr. unfold executeEVMCall in Hr. apply GoM_bind_inv_ok in Hr as (res & w1 & Hr & _).
  apply wrapM_ok in Hr. step_ok Hr u1 Hchain. step_ok Hr u2 Hneg. step_ok Hr u3 Hlow. step_ok Hr u4 Hhigh.
  step_ok Hr v0 Hv. step_ok Hr p0 Hp. step_ok Hr n Hn. step_ok Hr u5 Hnonce. step_ok Hr bal0 Hb. step_ok Hr u6 Hf.
  exists v0, p0. destruct (ok (tx_From tx)) eqn:Hok.
  - destruct (ws_GetNonce_run (tx_From tx) w Hw Hok) as (w2 & Hn' & Hw2 & Hdb2).
    rewrite Hn' in Hn. injection Hn as <- <-.
    destruct (ws_GetBalance_run (tx_From tx) w2 Hw2 Hok) as (w3 & Hb' & Hw3 & Hdb3).
    unfold ws_Balance in Hb. rewrite Hb', (abs_db _ _ Hdb2) in Hb. injection Hb as <- <-.
    zbool. unfold maxGasLimit in *. rewrite u64_id in * by (unfold_ints; lia).
    apply bool_decide_eq_true in Hchain. split; try done; unfold maxGasLimit; lia.
  - exfalso. unfold ws_GetNonce, RLock, RUnlock, on_am in Hn. destruct Hw as [Hg Hq Hl].
    destruct (GetAccount_err Keccak256 shardID totalShards (tx_From tx) (w_am w) Hok) as [e He].
    assert (Hn' : wrapM AccountError (GetNonce Keccak256 shardID totalShards (tx_From tx)) (w_am w) = (Err (AccountError e), w_am w)).
    { unfold wrapM, GetNonce, query, mbind, GoM_bind. by rewrite He. }
    rewrite guarded_run in Hn by (done || by rewrite Hn'). by rewrite Hn' in Hn.
Qed.

(** ** The bridge as the engine *)

Section Bridge.
Context (Hex : list byte -> string) (clock : nat -> Z).
Context (revm_execute_call : list byte -> list byte -> list byte -> Z -> Z -> Z -> wstate -> CExecutionResult * wstate).
Context (revm_deploy_contract : list byte -> list byte -> Z -> Z -> Z -> wstate -> CExecutionResult * wstate).

(** The library reads the state through its callbacks and reports a [uint64]. *)
Definition library_reads : Prop :=
  forall caller contract data gas value nonce w, wgood w ->
  let '(res, w') := revm_execute_call caller contract data gas value nonce w in
  0 <= gas_used res /\ wgood w' /\ abs (w_am w') = abs (w_am w) /\ same_rest (db (w_am w)) (db (w_am w')).

Notation engine := (revm_engine Hex revm_execute_call revm_deploy_contract clock).
Notation run_call := (revm_ExecuteCall Hex revm_execute_call clock).

(** The gas counters are the only thing the reservations touch. *)
Definition evm_only (w w' : wstate) : Prop := w_am w' = w_am w /\ w_locks w' = w_locks w.
#[local] Instance evm_only_preorder : PreOrder evm_only.
Proof. split; [done|]. intros a b c [H1' H2'] [H3 H4]. split; congruence. Qed.

Lemma evm_only_good w w' : evm_only w w' -> wgood w -> wgood w'.
Proof. intros [Ha Hl] [Hg Hq Hf]. split; congruence. Qed.

Lemma reserve_evm_only gas : keeps evm_only (reserve (C:=C) (F:=F) clock gas).
Proof.
  unfold reserve. frame; intros w.
  - unfold reserve_window, on_evm. by destruct (CheckAndReserveWindowGas _ _ _ _).
  - unfold reserve_block, on_evm. by destruct (CheckAndReserveGas gas (w_evm w)) as [[[]| | |] e].
Qed.

Lemma reserve_err gas (w : wstate) :
  match fst (reserve clock gas w) with Err (g, _) => g = 0 | Ok _ => True | _ => False end.
Proof.
  unfold reserve, mbind, GoM_bind, reserve_window, on_evm, CheckAndReserveWindowGas.
  unfold reserve_block, on_evm, CheckAndReserveGas. by repeat (case_if; simpl).
Qed.

(** The nonce taken by a call. *)
Lemma increment_cases address n (d : KV) :
  quiet d ->
  (AtomicIncrementNonce address n d =
     (Ok (true, n), set_data (<[NonceKey address := Raw (PutUint64 (u64 (n + 1)))]> (kv_data d)) d) /\
   stored_nonce d address = Some n) \/
  (snd (AtomicIncrementNonce address n d) = d /\
   forall m, fst (AtomicIncrementNonce address n d) <> Ok (true, m)).
Proof.
  intros Hq. destruct (stored_nonce d address) as [m|] eqn:Hst.
  - rewrite (AtomicIncrementNonce_quiet _ _ _ m) by done. case_bool_decide as Hm; simpl; [subst m; by left|by right].
  - right. unfold stored_nonce in Hst. unfold AtomicIncrementNonce, mbind, GoM_bind, get.
    rewrite access_quiet by done. destruct (kv_data d !! NonceKey address) as [[| | | | | |val]|]; try done.
    unfold Uint64, lift in *. by destruct (length val <? 8)%nat.
Qed.

Lemma take_nonce_cases caller gas n (w : wstate) :
  wgood w ->
  wgood (snd (take_nonce Hex clock caller gas n w)) /\
  abs (w_am (snd (take_nonce Hex clock caller gas n w))) = abs (w_am w) /\
  match fst (take_nonce Hex clock caller gas n w) with
  | Ok _ => stored_nonce (db (w_am w)) (Hex caller) = Some n /\
            stored_nonce (db (w_am (snd (take_nonce Hex clock caller gas n w)))) (Hex caller) = Some (u64 (n + 1))
  | Err (g, _) => g = 0
  | _ => True
  end.
Proof.
  intros Hw. pose proof Hw as [Hg Hq Hl]. unfold take_nonce, ws_AtomicIncrementNonce, on_store.
  destruct (increment_cases (Hex caller) n (db (w_am w)) Hq) as [[-> Hst]|[Hsame Hno]].
  - simpl. set (d' := set_data _ _).
    destruct (insert_rest (db (w_am w)) (NonceKey (Hex caller)) (Raw (PutUint64 (u64 (n + 1)))) (kv_io (db (w_am w))))
      as [Hv Hok]; [done|]. change (MkKV _ (kv_io (db (w_am w)))) with d' in Hv, Hok. split_and!.
    + split; simpl; [|done..]. split; simpl; [apply Hok, Hg|apply Hg| |].
      * intros k l Hk. destruct (good_cache _ _ _ _ _ Hg k l Hk) as (a & ? & ? & ?). exists a. by rewrite Hv.
      * intros k a. rewrite Hv. apply Hg.
    + unfold abs. simpl. by rewrite Hv.
    + done.
    + unfold stored_nonce. simpl. rewrite lookup_insert_eq, Uint64_PutUint64. simpl.
      by rewrite (u64_id (u64 _)) by apply u64_range.
  - assert (Hw' : wgood (set_am (set_db (db (w_am w)) (w_am w)) w)) by (destruct w as [[] ? ? ? ? ?]; done).
    destruct (AtomicIncrementNonce (Hex caller) n (db (w_am w))) as [r d] eqn:Hr. simpl in Hsame, Hno. subst d.
    destruct r as [[[] m]|e| |]; simpl; [by destruct (Hno m)|..]; try done;
    (split_and!; [|done..]); by destruct Hw' as [? ? ?].
Qed.

Lemma finish_cases gas prefix call (w : wstate) :
  (let '(res, w') := call w in
   0 <= gas_used res /\ wgood w' /\ abs (w_am w') = abs (w_am w) /\ same_rest (db (w_am w)) (db (w_am w'))) ->
  let '(r, w') := finish clock gas prefix call w in
  wgood w' /\ abs (w_am w') = abs (w_am w) /\ same_rest (db (w_am w)) (db (w_am w')) /\
  match r with Ok g | Err (g, _) => 0 <= g | _ => False end.
Proof.
  intros Hc. unfold finish. destruct (call w) as [res w1]. destruct Hc as (Hg & Hw1 & Ha & Hr).
  assert (Hpos : 0 <= snd (fst (processResult res))) by (unfold processResult; by repeat case_if).
  destruct (processResult res) as [[data gasUsed] err]. simpl in Hpos.
  assert (He : forall w2, evm_only w1 w2 ->
    wgood w2 /\ abs (w_am w2) = abs (w_am w) /\ same_rest (db (w_am w)) (db (w_am w2))).
  { intros w2 He. split; [by apply (evm_only_good w1)|]. by rewrite (proj1 He). }
  destruct (gasUsed <? gas), err; simpl;
    (match goal with |- wgood ?x /\ _ => destruct (He x) as (? & ? & ?); [done|] end); by split_and!.
Qed.

Lemma run_call_cases caller contract data gas value n (w : wstate) :
  library_reads -> wgood w ->
  let '((gasUsed, err), w') := answer (run_call caller contract data gas value n) w in
  0 <= gasUsed /\ wgood w' /\ abs (w_am w') = abs (w_am w) /\
  (err = None -> stored_nonce (db (w_am w)) (Hex caller) = Some n /\
                 stored_nonce (db (w_am w')) (Hex caller) = Some (u64 (n + 1))).
Proof.
  intros Hlib Hw. unfold answer, revm_ExecuteCall.
  unfold mbind at 1, GoM_bind at 1. destruct (30000000 <? gas); [simpl; by split_and!|]. cbn [refuse_if mret GoM_ret].
  unfold mbind at 1, GoM_bind at 1. destruct (gas =? 0); [simpl; by split_and!|]. cbn [refuse_if mret GoM_ret].
  unfold GoM_ret, mbind at 1, GoM_bind at 1.
  pose proof (reserve_evm_only gas w) as Hres. pose proof (reserve_err gas w) as Herr.
  destruct (reserve clock gas w) as [[[]|[g m]| |] w1]; simpl in Hres, Herr; try done.
  2: { subst g. split_and!; try done; [by apply (evm_only_good w)|by rewrite (proj1 Hres)]. }
  pose proof (evm_only_good _ _ Hres Hw) as Hw1. destruct Hres as [Ea _]. rewrite <-Ea.
  destruct (take_nonce_cases caller gas n w1 Hw1) as (Hw2 & Ha2 & Hcase).
  unfold mbind, GoM_bind. destruct (take_nonce Hex clock caller gas n w1) as [[[]|[g m]| |] w2]; simpl in *; try done.
  - pose proof (Hlib caller contract data gas value n w2 Hw2) as Hl.
    pose proof (finish_cases gas "" (revm_execute_call caller contract data gas value n) w2) as Hf.
    specialize (Hf Hl). destruct (finish clock gas "" _ w2) as [[g|[g m]| |] w3]; try done;
      destruct Hf as (Hw3 & Ha3 & Hr3 & Hg3); rewrite Ha3, Ha2; (split_and!; try done).
    intros _. destruct Hcase as [Hc1 Hc2]. split; [done|]. by rewrite (same_rest_nonce _ _ _ Hr3).
  - subst g. by split_and!.
Qed.

Lemma engine_reads_bridge : library_reads -> engine_reads engine.
Proof.
  intros Hlib caller contract data gas value n w Hw. simpl.
  pose proof (run_call_cases caller contract data gas value n w Hlib Hw) as Hc.
  destruct (answer _ w) as [[g e] w']. destruct Hc as (? & ? & ? & _). done.
Qed.

Notation call := (executeEVMCall Keccak256 HexToAddress shardID totalShards ChainID engine).

(** Both nonces must be the transaction's. *)
Lemma call_needs_both_nonces tx (w : wstate) rc w' :
  library_reads -> wgood w -> funds (entry (abs (w_am w)) (tx_From tx)) < two256 -> call tx w = (Ok rc, w') ->
  stored_nonce (db (w_am w)) (Hex (address_of HexToAddress (tx_From tx))) =
    Some (nonce (entry (abs (w_am w)) (tx_From tx))) /\
  stored_nonce (db (w_am w')) (Hex (address_of HexToAddress (tx_From tx))) =
    Some (u64 (nonce (entry (abs (w_am w)) (tx_From tx)) + 1)) /\
  wgood w' /\ nonce (entry (abs (w_am w')) (tx_From tx)) = nonce (entry (abs (w_am w)) (tx_From tx)) /\
  funds (entry (abs (w_am w')) (tx_From tx)) < two256.
Proof.
  intros Hlib Hw Hf Hcall.
  destruct (evm_call_ok_admitted engine tx w w' rc Hw Hcall) as (v & p & Hadm).
  destruct (evm_call_run engine tx v p w Hw Hf (engine_reads_bridge Hlib) Hadm)
    as (g & err & w'' & Hrun & Hg0 & Hw' & Habs & (w3 & w4 & Hr3 & Hw3 & Heng & Hr4)).
  rewrite Hcall in Hrun. destruct err as [msg|]; [done|]. injection Hrun as -> <-.
  pose proof (run_call_cases (address_of HexToAddress (tx_From tx)) (address_of HexToAddress (tx_To tx))
    (tx_Data tx) (tx_Gas tx) v (tx_Nonce tx) w3 Hlib Hw3) as Hc.
  simpl in Heng. rewrite Heng in Hc. destruct Hc as (_ & _ & _ & Hnon).
  destruct (Hnon eq_refl) as [Hn1 Hn2]. rewrite (same_rest_nonce _ _ _ Hr3) in Hn1.
  rewrite <-(same_rest_nonce _ _ _ Hr4) in Hn2. destruct Hadm as [? ? Hv Hp ? Hnonce ?]. rewrite Hnonce, Habs, entry_insert. simpl.
  pose proof (parse_u256_nonneg _ _ Hv). pose proof (parse_u256_nonneg _ _ Hp).
  split_and!; try done. unfold funds, call_charge in *. simpl. unfold maxGasLimit in *. nia.
Qed.
End Bridge.
End EvmSpec.

Section Properties.
Context `{MapOrder} {C F : Type} `{LRU C, !LRULaws C}.
Context (Keccak256 HexToAddress : list byte -> list byte) (shardID totalShards : Z) (ChainID : string).

(** What an EVM call costs.  For any engine that only reads the state, an admitted
    call charges its sender exactly the gas used (the gas limit, if the engine
    reports more) at the transaction's price, plus the value if it succeeded;
    nothing else of any account changes, so neither the contract is credited nor
    the sender's nonce advanced. *)
Theorem evm_call_charges (engine : evm_engine (@world C F)) tx value price w :
  wgood Keccak256 shardID totalShards w -> funds (entry (abs (w_am w)) (tx_From tx)) < two256 ->
  engine_reads Keccak256 shardID totalShards engine ->
  call_admitted Keccak256 shardID totalShards ChainID tx w value price ->
  exists gasUsed err w',
  executeEVMCall Keccak256 HexToAddress shardID totalShards ChainID engine tx w =
    (match err with
     | None => Ok (MkReceipt (tx_Hash tx) 1 (i64 gasUsed) None)
     | Some msg => Err (Some (MkReceipt (tx_Hash tx) 0 (i64 gasUsed) (Some (EVMFailed msg))), EVMFailed msg)
     end, w') /\
  abs (w_am w') = <[tx_From tx :=
    with_bal (bal (entry (abs (w_am w)) (tx_From tx)) - call_charge tx value price gasUsed (bool_decide (is_Some err)))
      (entry (abs (w_am w)) (tx_From tx))]> (abs (w_am w)).
Proof.
  intros Hw Hf He Hadm.
  destruct (evm_call_run Keccak256 HexToAddress shardID totalShards ChainID engine tx value price w Hw Hf He Hadm)
    as (g & err & w' & Hrun & _ & _ & Habs & _). eauto.
Qed.

(** An account gets one EVM call.  The bridge advances the nonce stored under the
    checksummed address and the executor compares the transaction with the
    account's own nonce, which no EVM transaction advances: a call succeeds only
    while the two agree, and after one success no further call from that account
    can. *)
Theorem evm_one_call_per_account Hex clock revm_call revm_deploy (tx : Transaction) (w w' : @world C F) rc :
  library_reads Keccak256 shardID totalShards revm_call ->
  wgood Keccak256 shardID totalShards w -> funds (entry (abs (w_am w)) (tx_From tx)) < two256 ->
  executeEVMCall Keccak256 HexToAddress shardID totalShards ChainID
    (revm_engine Hex revm_call revm_deploy clock) tx w = (Ok rc, w') ->
  forall clock2 tx2, tx_From tx2 = tx_From tx ->
  is_ok (fst (executeEVMCall Keccak256 HexToAddress shardID totalShards ChainID
    (revm_engine Hex revm_call revm_deploy clock2) tx2 w')) = false.
Proof.
  intros Hlib Hw Hf Hcall clock2 tx2 Hfrom.
  destruct (call_needs_both_nonces _ _ _ _ _ Hex clock revm_call revm_deploy tx w rc w' Hlib Hw Hf Hcall)
    as (_ & Hst & Hw' & Hn & Hf').
  destruct (executeEVMCall _ _ _ _ _ _ tx2 w') as [[rc2| | |] w2] eqn:Hcall2; try done. exfalso.
  rewrite <-Hfrom in *.
  destruct (call_needs_both_nonces _ _ _ _ _ Hex clock2 revm_call revm_deploy tx2 w' rc2 w2 Hlib Hw' Hf' Hcall2)
    as (Hst2 & _). rewrite Hst, Hn in Hst2. injection Hst2 as Hu. unfold u64 in Hu. unfold_ints.
  revert Hu. generalize (nonce (entry (abs (w_am w)) (tx_From tx2))). intros n.
  Z.to_euclidean_division_equations. lia.
Qed.
End Properties.

(** ** A concrete call *)

#[local] Instance demo_LRU3 : LRU (list (string * loc)) := list_LRU 1.
#[local] Instance demo_LRU3_laws : LRULaws (list (string * loc)) := list_LRU_laws 1.

(** A library that uses 22000 gas and succeeds. *)
Definition demo_library (_ _ _ : list byte) (_ _ _ : Z) (w : demo_state) : CExecutionResult * demo_state :=
  (MkResult 0 None 22000 [] 1, w).
Definition demo_deploy (_ _ : list byte) (_ _ _ : Z) (w : demo_state) : CExecutionResult * demo_state :=
  (MkResult 0 None 22000 [] 1, w).
Definition demo_engine : evm_engine demo_state :=
  revm_engine String.string_of_list_byte demo_library demo_deploy (fun _ => 0).

Definition demo_call (n : Z) : Transaction :=
  MkTransaction "id" alice bob (Bytes 500) 30000 (Bytes 10) n [] EVM_CONTRACT_CALL [] "hash" 0 [] "1" 2.

Lemma demo_library_reads : library_reads no_hash BeaconShardID 1 demo_library.
Proof. intros caller contract data gas v n w Hw. by split_and!. Qed.

Lemma demo_admitted : call_admitted no_hash BeaconShardID 1 "1" (demo_call 0) (boot demo_kv) 500 10.
Proof.
  split; [reflexivity|split; vm_compute; congruence|vm_compute; reflexivity..|].
  apply Z.leb_le. vm_compute. reflexivity.
Qed.

Lemma evm_call_charges_witness :
  exists gasUsed err w', executeEVMCall no_hash id BeaconShardID 1 "1" demo_engine (demo_call 0) (boot demo_kv) =
    (match err with
     | None => Ok (MkReceipt "hash" 1 (i64 gasUsed) None)
     | Some msg => Err (Some (MkReceipt "hash" 0 (i64 gasUsed) (Some (EVMFailed msg))), EVMFailed msg)
     end, w').
Proof.
  destruct (evm_call_charges no_hash id BeaconShardID 1 "1" demo_engine (demo_call 0) 500 10 (boot demo_kv)
    boot_good ltac:(vm_compute; reflexivity)
    (engine_reads_bridge _ _ _ _ _ demo_library _ demo_library_reads) demo_admitted)
    as (g & err & w' & Hrun & _). exists g, err, w'. exact Hrun.
Defined.

(** The receipt of a call that goes through. *)
Definition demo_receipt : ExecutionReceipt := MkReceipt "hash" 1 22000 None.

Lemma evm_one_call_per_account_witness :
  let after := snd (executeEVMCall no_hash id BeaconShardID 1 "1" demo_engine (demo_call 0) (boot demo_kv)) in
  is_ok (fst (executeEVMCall no_hash id BeaconShardID 1 "1" demo_engine (demo_call 0) after)) = false /\
  is_ok (fst (executeEVMCall no_hash id BeaconShardID 1 "1" demo_engine (demo_call 1) after)) = false.
Proof.
  intros after.
  assert (Hcall : executeEVMCall no_hash id BeaconShardID 1 "1" demo_engine (demo_call 0) (boot demo_kv) =
    (Ok demo_receipt, after)).
  { unfold after. apply pair_of_fst. vm_compute. reflexivity. }
  split.
  - apply (evm_one_call_per_account no_hash id BeaconShardID 1 "1" String.string_of_list_byte (fun _ => 0)
      demo_library demo_deploy (demo_call 0) (boot demo_kv) after demo_receipt demo_library_reads boot_good
      ltac:(vm_compute; reflexivity) Hcall (fun _ => 0) (demo_call 0) eq_refl).
  - apply (evm_one_call_per_account no_hash id BeaconShardID 1 "1" String.string_of_list_byte (fun _ => 0)
      demo_library demo_deploy (demo_call 0) (boot demo_kv) after demo_receipt demo_library_reads boot_good
      ltac:(vm_compute; reflexivity) Hcall (fun _ => 0) (demo_call 1) eq_refl).
Defined.
