(* ===== verification/GovernanceSpec.v ===== *)
(** * Governance: life cycle and outcome of a proposal

    The manager's theorems are proved against [StoreLaws], what it relies on in
    the world state: metadata under "governance/" changes only through
    [SetMetadata].  [Registry_laws] discharges it for the world state's registry.
    [governance_lifecycle] follows a proposal through any run, [finalize_exact]
    says how it ends, and the last section holds the concrete runs. *)

From S2P Require Import Prelude Uint256 Address Storage AccountManager Replay Governance Domains.
From stdpp Require Import base tactics numbers list gmap strings sorting.
From Stdlib Require Import ZArith Lia Strings.Byte Strings.Ascii.
Open Scope Z_scope.
Open Scope list_scope.

(** ** The interface *)

Definition gov_key (k : string) : Prop := exists rest, k = "governance/" +:+ rest.
Definition proposal_key (id : string) : string := proposalMetadataPrefix +:+ id.

Lemma proposal_gov_key id : gov_key (proposal_key id).
Proof. by exists ("proposal/" +:+ id). Qed.
Lemma param_gov_key p : gov_key (paramMetadataPrefix +:+ p).
Proof. by exists ("param/" +:+ p). Qed.

#[global] Instance proposal_key_inj : Inj (=) (=) proposal_key.
Proof. intros a b Heq. by simplify_eq/=. Qed.

Create HintDb gov discriminated.
#[export] Hint Resolve proposal_gov_key param_gov_key : gov.

(** Nothing under "governance/" differs. *)
Definition gov_same {W} (meta : W -> string -> string) (s s' : W) : Prop :=
  forall k, gov_key k -> meta s' k = meta s k.

Class StoreLaws (W : Type) `{StateStore W} : Type := {
  meta : W -> string -> string;
  law_get : forall k s r s', st_GetMetadata k s = (r, s') ->
    gov_same meta s s' /\ (forall v, r = Ok v -> gov_key k -> v = meta s k);
  law_set : forall k v s r s', st_SetMetadata k v s = (r, s') -> gov_key k ->
    (r = Ok tt /\ forall k', gov_key k' -> meta s' k' = if bool_decide (k' = k) then v else meta s k') \/
    (is_ok r = false /\ gov_same meta s s');
  law_validator : forall a s r s', st_GetValidator a s = (r, s') -> gov_same meta s s';
  law_active : forall s r s', st_GetActiveValidators s = (r, s') -> gov_same meta s s';
  law_domain : forall a s r s', st_GetValidatorStakeDomain a s = (r, s') -> gov_same meta s s';
  law_stake : forall d s r s', st_GetStakeDomainTotalStake d s = (r, s') -> gov_same meta s s'
}.

(** ** Frame lemmas *)

Section Frame.
Context `{MapOrder} {F : Type} `{Float64 F} `{Json Proposal, !JsonLaws Proposal} {W : Type} `{StoreLaws W}.

Notation state := (GovConfig F * W)%type.
Notation Gov := (GoM state gov_err).

(** A call that keeps the governance metadata and the configuration. *)
Definition quiet {A} (m : Gov A) : Prop := forall s r s',
  m s = (r, s') -> fst s' = fst s /\ gov_same meta (snd s) (snd s').

Lemma gov_same_refl (s : W) : gov_same meta s s.
Proof. by intros k _. Qed.
Lemma gov_same_trans (s1 s2 s3 : W) : gov_same meta s1 s2 -> gov_same meta s2 s3 -> gov_same meta s1 s3.
Proof. intros Ha Hb k Hk. by rewrite (Hb k Hk), (Ha k Hk). Qed.

Lemma quiet_bind {A B} (m : Gov A) (f : A -> Gov B) : quiet m -> (forall a, quiet (f a)) -> quiet (a ← m; f a).
Proof.
  intros Hm Hf s r s'. unfold mbind, GoM_bind. destruct (m s) as [o s1] eqn:Hms.
  destruct (Hm _ _ _ Hms) as [Hc1 Hg1].
  destruct o as [a| | |]; [|by intros [= <- <-]..]. intros Hfs. destruct (Hf a _ _ _ Hfs) as [Hc2 Hg2].
  split; [congruence|]. by eapply gov_same_trans.
Qed.

Lemma quiet_pure {A} (m : Gov A) : (forall s, snd (m s) = s) -> quiet m.
Proof. intros Hm s r s' Hs. specialize (Hm s). rewrite Hs in Hm. simpl in Hm. subst s'. by split. Qed.
Lemma quiet_ret {A} (a : A) : quiet (mret a).
Proof. by apply quiet_pure. Qed.
Lemma quiet_throw {A} e : quiet (throw (A:=A) e).
Proof. by apply quiet_pure. Qed.
Lemma quiet_cfg : quiet cfg.
Proof. by apply quiet_pure. Qed.
Lemma quiet_refuse c e : quiet (refuse_if c e).
Proof. apply quiet_pure. by intros s; destruct c. Qed.
Lemma quiet_lift {A} (o : outcome gov_err A) : quiet (lift o).
Proof. by apply quiet_pure. Qed.
Lemma quiet_panic {A} : quiet (panic (A:=A)).
Proof. by apply quiet_pure. Qed.

Lemma quiet_store {A} (m : GoM W gov_err A) :
  (forall s r s', m s = (r, s') -> gov_same meta s s') -> quiet (store m).
Proof.
  intros Hm [c s] r [c' s']. unfold store, on_snd. destruct (m s) as [o s1] eqn:Hms. intros [= <- <- <-].
  split; [done|]. by eapply Hm.
Qed.

Lemma quiet_get k : quiet (store (st_GetMetadata k)).
Proof. apply quiet_store. intros s r s' Hg. apply (law_get _ _ _ _ Hg). Qed.
Lemma quiet_active : quiet (store st_GetActiveValidators).
Proof. apply quiet_store, law_active. Qed.
Lemma quiet_stake d : quiet (store (st_GetStakeDomainTotalStake d)).
Proof. apply quiet_store, law_stake. Qed.
Lemma quiet_domain a : quiet (store (st_GetValidatorStakeDomain a)).
Proof. apply quiet_store, law_domain. Qed.

Lemma quiet_ensure a : quiet (ensureActiveValidator a).
Proof.
  intros [c s] r [c' s']. unfold ensureActiveValidator, store, on_snd.
  destruct (st_GetValidator a s) as [o s1] eqn:Hv. apply law_validator in Hv.
  destruct o as [v| | |]; [destruct (val_Active v)|..]; intros [= <- <- <-]; by split.
Qed.
End Frame.

#[export] Hint Resolve quiet_ret quiet_throw quiet_cfg quiet_refuse quiet_lift quiet_panic quiet_get
  quiet_active quiet_stake quiet_domain quiet_ensure : gov.

(** Decomposes a program of quiet calls. *)
Ltac quiet :=
  repeat first
    [ apply quiet_bind; [|intros ?] | solve [auto with gov] | case_match ].

(** ** The life cycle *)

Section Lifecycle.
Context `{MapOrder} {F : Type} `{Float64 F} `{Json Proposal, !JsonLaws Proposal} {W : Type} `{StoreLaws W}.

Notation state := (GovConfig F * W)%type.
Notation Gov := (GoM state gov_err).

(** The proposal stored under an identifier. *)
Definition stored (id : string) (s : W) : option Proposal :=
  if bool_decide (meta s (proposal_key id) = "") then None else Unmarshal (meta s (proposal_key id)).

(** Stored proposals sit under their own identifier, their votes under the
    domain they were cast for. *)
Definition well_keyed (s : W) : Prop := forall id p, stored id s = Some p ->
  p_ID p = id /\ forall d v, p_Votes p !! d = Some v -> gv_DomainID v = d.

(** How a proposal may change: not at all once closed; while it is open its terms
    stay and a domain's vote stays with the validator who cast it. *)
Definition proposal_le (p p' : Proposal) : Prop :=
  p_ID p' = p_ID p /\ p_Parameter p' = p_Parameter p /\ p_ProposedValue p' = p_ProposedValue p /\
  p_Proposer p' = p_Proposer p /\ p_VotingEndsAt p' = p_VotingEndsAt p /\
  (p_Status p <> Active -> p' = p) /\
  (forall d v, p_Votes p !! d = Some v -> exists v', p_Votes p' !! d = Some v' /\
     gv_ValidatorAddress v' = gv_ValidatorAddress v).

Definition evolves (s s' : W) : Prop :=
  (well_keyed s -> well_keyed s') /\
  (well_keyed s -> forall id p, stored id s = Some p -> exists p', stored id s' = Some p' /\ proposal_le p p').

Lemma proposal_le_refl p : proposal_le p p.
Proof. unfold proposal_le. split_and!; eauto. Qed.
Lemma proposal_le_trans p1 p2 p3 : proposal_le p1 p2 -> proposal_le p2 p3 -> proposal_le p1 p3.
Proof.
  intros (I1 & P1 & V1 & R1 & E1 & C1 & D1) (I2 & P2 & V2 & R2 & E2 & C2 & D2).
  unfold proposal_le. split_and!; try congruence.
  - intros Hc. assert (p2 = p1) as -> by auto. auto.
  - intros d v Hv. destruct (D1 d v Hv) as (v1 & Hv1 & Ha1). destruct (D2 d v1 Hv1) as (v2 & Hv2 & Ha2).
    exists v2. split; [done|congruence].
Qed.

Lemma stored_same s s' id : gov_same meta s s' -> stored id s' = stored id s.
Proof. intros Hs. unfold stored. by rewrite (Hs (proposal_key id)) by auto with gov. Qed.

Lemma evolves_stored s s' : (forall id, stored id s' = stored id s) -> evolves s s'.
Proof.
  intros Hs. split.
  - intros Hw id p Hp. rewrite Hs in Hp. by apply Hw.
  - intros _ id p Hp. exists p. rewrite Hs. split; [done|apply proposal_le_refl].
Qed.
Lemma evolves_same s s' : gov_same meta s s' -> evolves s s'.
Proof. intros Hs. apply evolves_stored. intros id. by apply stored_same. Qed.
Lemma evolves_trans s1 s2 s3 : evolves s1 s2 -> evolves s2 s3 -> evolves s1 s3.
Proof.
  intros [Hw1 Hp1] [Hw2 Hp2]. split; [auto|]. intros Hw id p Hp.
  destruct (Hp1 Hw id p Hp) as (p1 & Hs1 & Hl1). destruct (Hp2 (Hw1 Hw) id p1 Hs1) as (p2 & Hs2 & Hl2).
  exists p2. split; [done|]. by eapply proposal_le_trans.
Qed.

(** Writing one proposal. *)
Lemma stored_write s s' p id :
  (forall k, gov_key k -> meta s' k = if bool_decide (k = proposal_key (p_ID p)) then Marshal p else meta s k) ->
  stored id s' = if bool_decide (id = p_ID p) then Some p else stored id s.
Proof.
  intros Hm. unfold stored. rewrite (Hm (proposal_key id)) by auto with gov.
  destruct (decide (id = p_ID p)) as [->|Hne].
  - rewrite (bool_decide_eq_true_2 (p_ID p = p_ID p)) by done.
    rewrite (bool_decide_eq_true_2 (proposal_key (p_ID p) = proposal_key (p_ID p))) by done.
    rewrite bool_decide_eq_false_2 by apply Marshal_nonempty. apply Unmarshal_Marshal.
  - rewrite (bool_decide_eq_false_2 (id = p_ID p)) by done.
    by rewrite (bool_decide_eq_false_2 (proposal_key id = _)) by (intros ?%(inj _); done).
Qed.

Lemma save_cases p (c : GovConfig F) s r c' s' : saveProposal p (c, s) = (r, (c', s')) ->
  c' = c /\ ((r = Ok tt /\ forall id, stored id s' = if bool_decide (id = p_ID p) then Some p else stored id s) \/
            (is_ok r = false /\ gov_same meta s s')).
Proof.
  unfold saveProposal, store, on_snd. destruct (st_SetMetadata _ _ s) as [o s1] eqn:Hset. intros [= <- <- <-].
  split; [done|]. destruct (law_set _ _ _ _ _ Hset (proposal_gov_key _)) as [[-> Hm]|[Hr Hg]]; [left|by right].
  split; [done|]. intros id. by apply stored_write.
Qed.

Lemma save_evolves p (c : GovConfig F) s r c' s' :
  saveProposal p (c, s) = (r, (c', s')) ->
  (forall d v, p_Votes p !! d = Some v -> gv_DomainID v = d) ->
  match stored (p_ID p) s with Some q => proposal_le q p | None => True end ->
  c' = c /\ evolves s s'.
Proof.
  intros Hsave Hv Hle. destruct (save_cases _ _ _ _ _ _ Hsave) as [-> [[-> Hst]|[_ Hg]]];
    (split; [done|]); [|by apply evolves_same]. split.
  - intros Hw id q. rewrite Hst. case_bool_decide as Hid; [intros [= <-]; by subst|apply Hw].
  - intros _ id q Hq. rewrite Hst. case_bool_decide as Hid.
    + subst id. rewrite Hq in Hle. by exists p.
    + exists q. split; [done|apply proposal_le_refl].
Qed.

Lemma GetProposal_ok id (c : GovConfig F) s p c' s' : GetProposal id (c, s) = (Ok p, (c', s')) ->
  c' = c /\ gov_same meta s s' /\ stored id s = Some p.
Proof.
  unfold GetProposal, store, on_snd, mbind, GoM_bind.
  destruct (st_GetMetadata _ s) as [o s1] eqn:Hg. destruct (law_get _ _ _ _ Hg) as [Hs Hv].
  destruct o as [raw| | |]; [|done..].
  rewrite (Hv raw eq_refl (proposal_gov_key id)) in *. unfold stored, proposal_key in *. clear Hv.
  case_bool_decide; [done|]. destruct (Unmarshal _) as [q|]; [|done]. by intros [= <- <- <-].
Qed.

Lemma GetProposal_quiet id : quiet (F:=F) (GetProposal (W:=W) id).
Proof. unfold GetProposal. quiet. Qed.
Lemma getVotingDomain_quiet a : quiet (F:=F) (getVotingDomain (W:=W) a).
Proof. unfold getVotingDomain. quiet. Qed.

Lemma eligible_quiet vs : forall seen total, quiet (F:=F) (eligible_loop (W:=W) vs seen total).
Proof.
  induction vs as [|v vs IH]; intros seen total; cbn [eligible_loop]; [quiet|].
  apply quiet_bind; [apply getVotingDomain_quiet|intros d]. case_match; [apply IH|]. quiet.
Qed.
Lemma totalEligible_quiet : quiet (F:=F) (totalEligibleDomainStake (W:=W)).
Proof. unfold totalEligibleDomainStake. quiet. apply eligible_quiet. Qed.
Lemma tally_quiet votes ds : forall yes no, quiet (F:=F) (tally (W:=W) ds votes yes no).
Proof.
  induction ds as [|d ds IH]; intros yes no; cbn [tally]; [quiet|].
  apply quiet_bind; [quiet|intros x]. repeat case_match; try apply IH. quiet.
Qed.

(** From a state with [x] stored under [id], the proposals evolve. *)
Definition evolving (id : string) (x : option Proposal) {A} (m : Gov A) : Prop := forall s r s',
  stored id (snd s) = x -> m s = (r, s') -> evolves (snd s) (snd s').

(** A call that leaves the proposals alone. *)
Definition still {A} (m : Gov A) : Prop := forall s r s', m s = (r, s') ->
  forall id, stored id (snd s') = stored id (snd s).

Lemma quiet_still {A} (m : Gov A) : quiet m -> still m.
Proof. intros Hq s r s' Hm id. apply stored_same. by eapply Hq. Qed.

Lemma evolving_bind id x {A B} (m : Gov A) (f : A -> Gov B) :
  still m -> (forall a, (exists s s1, stored id (snd s) = x /\ m s = (Ok a, s1)) -> evolving id x (f a)) ->
  evolving id x (a ← m; f a).
Proof.
  intros Hq Hf s r s' Hs. unfold mbind, GoM_bind. destruct (m s) as [o s1] eqn:Hm.
  pose proof (Hq _ _ _ Hm) as Hg.
  destruct o as [a| | |]; [|by intros [= <- <-]; apply evolves_stored..].
  intros Hfs. eapply evolves_trans; [by apply evolves_stored|].
  refine (Hf a _ s1 r s' _ Hfs); [by exists s, s1|by rewrite Hg].
Qed.

Lemma evolving_quiet id x {A} (m : Gov A) : quiet m -> evolving id x m.
Proof. intros Hq s r s' _ Hm. apply evolves_stored. by apply (quiet_still m Hq s r). Qed.

(** A check passes only when its condition is false. *)
Lemma evolving_refuse id x c e {A} (m : Gov A) :
  (c = false -> evolving id x m) -> evolving id x (_ ← refuse_if c e; m).
Proof.
  intros Hm. apply evolving_bind; [apply quiet_still, quiet_refuse|]. intros [] (s & s1 & _ & Hr).
  apply Hm. by destruct c.
Qed.

Lemma evolving_save id x {A} p (f : Gov A) :
  p_ID p = id -> (forall d v, p_Votes p !! d = Some v -> gv_DomainID v = d) ->
  match x with Some q => proposal_le q p | None => True end -> quiet f ->
  evolving id x (_ ← saveProposal p; f).
Proof.
  intros Hid Hv Hle Hf [c s] r s' Hs. unfold mbind, GoM_bind.
  destruct (saveProposal p (c, s)) as [o [c1 s1]] eqn:Hsave.
  destruct (save_evolves _ _ _ _ _ _ Hsave Hv) as [-> He]; [simpl in Hs; by rewrite Hid, Hs|].
  destruct o as [a| | |]; [|by intros [= <- <-]..].
  intros Hfs. eapply evolves_trans; [exact He|]. apply evolves_same. by destruct (Hf _ _ _ Hfs).
Qed.

(** A call that writes at most the proposal [id]. *)
Definition rewrites (id : string) {A} (m : Gov A) : Prop := forall s r s', m s = (r, s') ->
  (well_keyed (snd s) -> well_keyed (snd s')) /\ forall i, i <> id -> stored i (snd s') = stored i (snd s).

Lemma still_keyed (s s' : W) : (forall id, stored id s' = stored id s) -> well_keyed s -> well_keyed s'.
Proof. intros Hs Hw id p. rewrite Hs. apply Hw. Qed.
Lemma still_rewrites id {A} (m : Gov A) : still m -> rewrites id m.
Proof. intros Hm s r s' Hr. pose proof (Hm _ _ _ Hr) as Hs. split; [by apply still_keyed|auto]. Qed.
Lemma rewrites_bind id {A B} (m : Gov A) (f : A -> Gov B) :
  rewrites id m -> (forall a, rewrites id (f a)) -> rewrites id (a ← m; f a).
Proof.
  intros Hm Hf s r s'. unfold mbind, GoM_bind. destruct (m s) as [o s1] eqn:Hs. pose proof (Hm _ _ _ Hs) as [Hw1 Hi1].
  destruct o as [a| | |]; [|by intros [= <- <-]..]. intros Hr. destruct (Hf a _ _ _ Hr) as [Hw2 Hi2].
  split; [auto|]. intros i Hi. by rewrite Hi2, Hi1.
Qed.
Lemma save_rewrites p : (forall d v, p_Votes p !! d = Some v -> gv_DomainID v = d) -> rewrites (p_ID p) (saveProposal p).
Proof.
  intros Hv [c s] r [c' s'] Hs. apply save_cases in Hs as [_ [[_ Hs]|[_ Hs]]]; simpl.
  - split; [|intros i Hi; by rewrite Hs, bool_decide_eq_false_2]. intros Hw id q. rewrite Hs. case_bool_decide as E; [|apply Hw]. by intros [= <-].
  - pose proof (fun id => stored_same _ _ id Hs) as Hsame. split; [by apply still_keyed|auto].
Qed.

(** [SubmitProposal] does not ask whether the identifier is taken: it touches no other
    proposal, but one that is there is replaced. *)
Lemma submit_rewrites now id proposer parameter value : rewrites id (SubmitProposal now id proposer parameter value).
Proof.
  unfold SubmitProposal. apply rewrites_bind; [apply still_rewrites, quiet_still; quiet|intros c].
  do 4 (apply rewrites_bind; [apply still_rewrites, quiet_still; quiet|intros _]).
  apply rewrites_bind; [by apply save_rewrites|intros _]. apply still_rewrites, quiet_still. quiet.
Qed.

(** The vote table after a vote of [validatorAddr] for [domainID]. *)
Lemma vote_le p domainID validatorAddr approve now :
  p_Status p = Active ->
  match p_Votes p !! domainID with Some v => gv_ValidatorAddress v = validatorAddr | None => True end ->
  proposal_le p (set_Votes (<[domainID := MkGovVote validatorAddr domainID approve now]> (p_Votes p)) p).
Proof.
  intros Ha Hex. unfold proposal_le. simpl. split_and!; try done. intros d v Hv.
  destruct (decide (d = domainID)) as [->|Hd].
  - rewrite Hv in Hex. eexists. split; [apply lookup_insert_eq|done].
  - exists v. by rewrite lookup_insert_ne.
Qed.

Lemma vote_evolves now1 now2 id validatorAddr approve p :
  p_ID p = id -> (forall d v, p_Votes p !! d = Some v -> gv_DomainID v = d) ->
  evolving id (Some p) (CastVote now1 now2 id validatorAddr approve).
Proof.
  intros Hid Hv. unfold CastVote. apply evolving_bind; [apply quiet_still; quiet|intros c _]. apply evolving_refuse; intros _.
  apply evolving_bind; [apply quiet_still, GetProposal_quiet|]. intros q ([c0 s] & [c1 s1] & Hs & Hget).
  apply GetProposal_ok in Hget as (_ & _ & Hq). simpl in Hs. assert (q = p) as -> by congruence.
  apply evolving_refuse; intros Hact. apply negb_false_iff, bool_decide_eq_true in Hact.
  apply evolving_refuse; intros _. apply evolving_bind; [apply quiet_still; quiet|intros _ _].
  apply evolving_bind; [apply quiet_still, getVotingDomain_quiet|intros domainID _].
  apply (evolving_bind _ _ _ (fun _ => saveProposal _)).
  { apply quiet_still. case_match; auto with gov. }
  intros [] (s2 & s3 & _ & Hex). intros s4 r s5 Hs4 Hrun.
  destruct (saveProposal _ s4) as [o s6] eqn:Hsave. destruct s4 as [c4 s4], s6 as [c6 s6].
  injection Hrun as <- <-. eapply save_evolves in Hsave; [by destruct Hsave|..].
  - intros d v. simpl. destruct (decide (d = domainID)) as [->|Hd].
    + rewrite lookup_insert_eq. by intros [= <-].
    + rewrite lookup_insert_ne by done. apply Hv.
  - simpl in Hs4 |- *. rewrite Hid, Hs4. apply vote_le; [done|].
    destruct (p_Votes p !! domainID) as [v|]; [|done]. revert Hex. unfold refuse_if.
    case_bool_decide; by simpl.
Qed.

Lemma apply_still parameter value : still (applyApprovedParameterChange parameter value).
Proof.
  intros [c s] r [c' s']. unfold applyApprovedParameterChange, cfg, mbind, GoM_bind. cbn [fst snd].
  destruct (apply_to_config parameter value c) as [c1|]; [|by intros [= <- <- <-]].
  unfold modify, store, on_snd. cbn [fst snd].
  destruct (st_SetMetadata (paramMetadataPrefix +:+ parameter) value s) as [o s1] eqn:Hset.
  intros [= <- <- <-] id.
  destruct (law_set _ _ _ _ _ Hset (param_gov_key _)) as [[_ Hm]|[_ Hg]]; [|by apply stored_same].
  cbn [fst snd]. unfold stored. by rewrite !(Hm (proposal_key id)) by auto with gov.
Qed.

Lemma finalized_le p st now yes no : p_Status p = Active -> proposal_le p (finalized st now yes no p).
Proof. intros Ha. unfold proposal_le. simpl. split_and!; eauto. done. Qed.

Lemma finalize_evolves now1 now2 id p :
  p_ID p = id -> (forall d v, p_Votes p !! d = Some v -> gv_DomainID v = d) ->
  evolving id (Some p) (FinalizeProposal now1 now2 id).
Proof.
  intros Hid Hv. unfold FinalizeProposal.
  apply evolving_bind; [apply quiet_still, GetProposal_quiet|]. intros q ([c0 s] & [c1 s1] & Hs & Hget).
  apply GetProposal_ok in Hget as (_ & _ & Hq). simpl in Hs. assert (q = p) as -> by congruence.
  case_bool_decide as Hact; [|by apply evolving_quiet; quiet]. cbn [negb].
  apply evolving_refuse; intros _.
  apply evolving_bind; [apply quiet_still, totalEligible_quiet|intros total _].
  apply evolving_bind; [apply quiet_still, tally_quiet|intros [yes no] _].
  case_match; [apply evolving_save; [done|done|by apply finalized_le|quiet]|].
  apply evolving_bind; [apply quiet_still; quiet|intros c _].
  case_match; [apply evolving_save; [done|done|by apply finalized_le|quiet]|].
  apply evolving_bind; [apply apply_still|intros _ _].
  apply evolving_save; [done|done|by apply finalized_le|quiet].
Qed.

(** ** Runs

    A governance call with any arguments at any time.  Between the calls the rest of
    the node may change the registry, the configuration and anything of the state but
    the governance metadata.  A step and a run carry the identifiers that were
    submitted. *)
Inductive gov_step : option string -> state -> state -> Prop :=
| step_submit now id proposer parameter value r s s' :
    SubmitProposal now id proposer parameter value s = (r, s') -> gov_step (Some id) s s'
| step_vote now1 now2 id validatorAddr approve r s s' :
    CastVote now1 now2 id validatorAddr approve s = (r, s') -> gov_step None s s'
| step_finalize now1 now2 id r s s' : FinalizeProposal now1 now2 id s = (r, s') -> gov_step None s s'
| step_node s s' : gov_same meta (snd s) (snd s') -> gov_step None s s'.

Inductive gov_run : list string -> state -> state -> Prop :=
| run_here s : gov_run [] s s
| run_step o ids s1 s2 s3 : gov_step o s1 s2 -> gov_run ids s2 s3 -> gov_run (option_list o ++ ids) s1 s3.

(** Under an identifier with no readable proposal, calls change nothing. *)
Lemma no_proposal_quiet id {A} (f : Proposal -> Gov A) s r s' :
  stored id (snd s) = None -> (p ← GetProposal id; f p) s = (r, s') -> gov_same meta (snd s) (snd s').
Proof.
  intros Hs. unfold mbind, GoM_bind. destruct (GetProposal id s) as [o s1] eqn:Hg.
  destruct s as [c s], s1 as [c1 s1]. pose proof (GetProposal_quiet _ _ _ _ Hg) as [_ Hq].
  destruct o as [p| | |]; [|by intros [= <- <-]..].
  apply GetProposal_ok in Hg as (_ & _ & Hst). simpl in Hs. congruence.
Qed.

Lemma vote_none now1 now2 id a b (s s' : state) r :
  stored id (snd s) = None -> CastVote now1 now2 id a b s = (r, s') -> gov_same meta (snd s) (snd s').
Proof.
  intros Hs. unfold CastVote, cfg. unfold mbind at 1, GoM_bind at 1. unfold mbind at 1, GoM_bind at 1.
  unfold refuse_if at 1. destruct (Enabled (fst s)); [|by intros [= <- <-]]. by apply no_proposal_quiet.
Qed.

Lemma gov_step_evolves o s s' : gov_step o s s' -> well_keyed (snd s) ->
  well_keyed (snd s') /\ forall id p, o <> Some id -> stored id (snd s) = Some p -> exists p', stored id (snd s') = Some p' /\ proposal_le p p'.
Proof.
  intros Hstep Hw. cut (evolves (snd s) (snd s') \/ exists id, o = Some id /\ (well_keyed (snd s) -> well_keyed (snd s')) /\ forall i, i <> id -> stored i (snd s') = stored i (snd s)).
  { intros [[Hk1 Hk2]|(id & -> & Hk1 & Hk2)]; split; auto. intros i p Hi Hp. exists p. rewrite Hk2 by congruence. split; [done|apply proposal_le_refl]. }
  destruct Hstep as [now id proposer parameter value r s0 s1 Hrun|now1 now2 id a b r s0 s1 Hrun
             |now1 now2 id r s0 s1 Hrun|s0 s1 Hg]; [right|left..].
  - exists id. split; [done|]. by eapply submit_rewrites.
  - destruct (stored id (snd s0)) as [p|] eqn:Hp.
    + destruct (Hw _ _ Hp) as [Hid Hv]. by eapply (vote_evolves _ _ _ _ _ p Hid Hv).
    + apply evolves_same. by eapply vote_none.
  - destruct (stored id (snd s0)) as [p|] eqn:Hp.
    + destruct (Hw _ _ Hp) as [Hid Hv]. by eapply (finalize_evolves _ _ _ p Hid Hv).
    + apply evolves_same. unfold FinalizeProposal in Hrun. exact (no_proposal_quiet id _ s0 r s1 Hp Hrun).
  - by apply evolves_same.
Qed.

Lemma gov_run_evolves ids s s' : gov_run ids s s' -> well_keyed (snd s) ->
  well_keyed (snd s') /\ forall id p, id ∉ ids -> stored id (snd s) = Some p ->
    exists p', stored id (snd s') = Some p' /\ proposal_le p p'.
Proof.
  induction 1 as [s|o ids s1 s2 s3 Hstep _ IH]; intros Hw.
  - split; [done|]. intros id p _ Hp. exists p. split; [done|apply proposal_le_refl].
  - destruct (gov_step_evolves _ _ _ Hstep Hw) as [Hw2 Hp2]. destruct (IH Hw2) as [Hw3 Hp3].
    split; [done|]. intros id p [Ho Hids]%not_elem_of_app Hp. destruct (Hp2 id p) as (p2 & Hs2 & Hl2); [intros ->; set_solver|done|].
    destruct (Hp3 id p2 Hids Hs2) as (p3 & Hs3 & Hl3). exists p3. split; [done|]. by eapply proposal_le_trans.
Qed.
End Lifecycle.

(** ** The registry keeps the laws *)

Section Registry.
Context `{MapOrder} `{Json stakeDomainMembers}.

Definition registry_meta (s : registry) (k : string) : string :=
  match kv_data (reg_db s) !! MetaKey k with Some (Text t) => t | _ => "" end.

Notation same := (gov_same registry_meta).

Lemma same_data (s s' : registry) :
  (forall k, gov_key k -> kv_data (reg_db s') !! MetaKey k = kv_data (reg_db s) !! MetaKey k) -> same s s'.
Proof. intros Hs k Hk. unfold registry_meta. by rewrite Hs. Qed.

Lemma access_data d r d' : access d = (r, d') -> kv_data d' = kv_data d /\ (r = Ok tt \/ r = Err IOError).
Proof. unfold access. intros Ha. repeat case_match; simplify_eq; auto. Qed.

(** Reading through [GetMetadata]: the store keeps its data. *)
Lemma get_metadata_cases k (s s' : registry) r : on_db (GetMetadata k) s = (r, s') ->
  reg_validators s' = reg_validators s /\ kv_data (reg_db s') = kv_data (reg_db s) /\
  (forall v, r = Ok v -> v = registry_meta s k).
Proof.
  unfold on_db, GetMetadata, get_text, kv_Get, registry_meta, mbind, GoM_bind, get, wrap.
  destruct (access (reg_db s)) as [o d] eqn:Ha. destruct (access_data _ _ _ Ha) as [Hd [-> | ->]]; cbn; rewrite ?Hd;
    [destruct (kv_data (reg_db s) !! MetaKey k) as [[]|]; cbn|]; intros [= <- <-]; split_and!;
    try done; by intros v [=].
Qed.

Lemma set_metadata_cases k v (s s' : registry) r : on_db (SetMetadata k v) s = (r, s') ->
  reg_validators s' = reg_validators s /\
  ((r = Ok tt /\ kv_data (reg_db s') = <[MetaKey k := Text v]> (kv_data (reg_db s))) \/
   (is_ok r = false /\ kv_data (reg_db s') = kv_data (reg_db s))).
Proof.
  unfold on_db, SetMetadata, kv_Set, modify, mbind, GoM_bind, wrap.
  destruct (access (reg_db s)) as [o d] eqn:Ha. destruct (access_data _ _ _ Ha) as [Hd [-> | ->]]; cbn; intros [= <- <-]; split; try done; cbn; rewrite ?Hd; auto.
Qed.

Lemma domain_key_not_gov d k : gov_key k -> MetaKey (stakeDomainMembersKey d) <> MetaKey k.
Proof. by intros [rest ->]. Qed.

(** Writes to a domain's member list are outside "governance/". *)
Lemma write_members_same d m (s s' : registry) r : writeStakeDomainMembersLocked d m s = (r, s') -> same s s'.
Proof.
  intros Hw. apply set_metadata_cases in Hw as (_ & [[_ Hd]|[_ Hd]]); apply same_data; intros k Hk; rewrite Hd; [|done].
  by rewrite lookup_insert_ne by (by apply domain_key_not_gov).
Qed.

Lemma read_members_same d (s s' : registry) r : readStakeDomainMembersLocked d s = (r, s') -> same s s'.
Proof.
  unfold readStakeDomainMembersLocked, mbind, GoM_bind.
  destruct (on_db _ s) as [o s1] eqn:Hg. apply get_metadata_cases in Hg as (_ & Hd & _).
  destruct o; [|intros [= <- <-]; apply same_data; by rewrite Hd..].
  repeat case_match; intros [= <- <-]; apply same_data; by rewrite Hd.
Qed.

Lemma domain_validators_same d (s s' : registry) r : getStakeDomainValidatorsLocked d s = (r, s') -> same s s'.
Proof.
  unfold getStakeDomainValidatorsLocked. unfold mbind at 1, GoM_bind at 1, refuse_if.
  case_bool_decide; [by intros [= <- <-]|]. cbn. unfold mbind at 1, GoM_bind at 1.
  destruct (readStakeDomainMembersLocked d s) as [o s1] eqn:Hr. apply read_members_same in Hr.
  destruct o as [m| | |]; [|by intros [= <- <-]..].
  unfold get, mbind, GoM_bind. destruct (length (members m) =? 0)%nat; [by intros [= <- <-]|].
  destruct (_ =? length (members m))%nat; [by intros [= <- <-]|].
  destruct (writeStakeDomainMembersLocked _ _ s1) as [o s2] eqn:Hw. apply write_members_same in Hw.
  assert (Hs : same s s2) by (intros k Hk; by rewrite (Hw k Hk), (Hr k Hk)).
  destruct o; by intros [= <- <-].
Qed.

#[global] Instance Registry_laws : StoreLaws registry.
Proof.
  refine {| meta := registry_meta |}.
  - intros k s r s' Hg. apply get_metadata_cases in Hg as (_ & Hd & Hv). split; [|auto].
    apply same_data. by rewrite Hd.
  - intros k v s r s' Hset _. apply set_metadata_cases in Hset as (_ & [[-> Hd]|[Hr Hd]]); [left|right].
    + split; [done|]. intros k' _. unfold registry_meta. rewrite Hd. case_bool_decide as Hk.
      * subst k'. by rewrite lookup_insert_eq.
      * rewrite lookup_insert_ne; [done|]. intros Heq. apply Hk. unfold MetaKey in Heq. by simplify_eq/=.
    + split; [done|]. apply same_data. by rewrite Hd.
  - intros a s r s' [= <- <-]. by intros k _.
  - intros s r s' [= <- <-]. by intros k _.
  - intros a s r s'. simpl. unfold GetValidatorStakeDomain, getValidatorStakeDomainLocked, mbind, GoM_bind.
    destruct (on_db _ s) as [o s1] eqn:Hg. apply get_metadata_cases in Hg as (_ & Hd & _).
    destruct o; intros [= <- <-]; apply same_data; by rewrite Hd.
  - intros d s r s'. simpl. unfold GetStakeDomainTotalStake, get, mbind, GoM_bind.
    destruct (getStakeDomainValidatorsLocked _ s) as [o s1] eqn:Hg. apply domain_validators_same in Hg.
    destruct o; by intros [= <- <-].
Defined.
End Registry.

(** ** The outcome *)

(** The sum of a function over a finite set of strings. *)
Definition set_sum (f : string -> Z) (X : gset string) : Z := set_fold (fun x t => f x + t) 0 X.

Lemma set_sum_empty f : set_sum f ∅ = 0.
Proof. unfold set_sum. by rewrite set_fold_empty. Qed.
Lemma set_sum_insert f x X : x ∉ X -> set_sum f ({[x]} ∪ X) = f x + set_sum f X.
Proof.
  intros Hx. unfold set_sum. rewrite (union_comm_L {[x]} X).
  rewrite (set_fold_disj_union_strong eq) by (try apply _; intros; set_solver || lia).
  by rewrite set_fold_singleton.
Qed.

Section Outcome.
Context `{MapOrder} {F : Type} `{Float64 F} `{Json Proposal, !JsonLaws Proposal} {W : Type} `{StoreLaws W}.

Notation state := (GovConfig F * W)%type.

(** A store on which every access succeeds: the active validators, the domain of
    each and the stake of each known domain stay what they are. *)
Record steady (P : W -> Prop) (vs : list Validator) (known : string -> Prop) (dom_of : string -> string)
    (stake : string -> Z) : Prop := MkSteady {
  sd_get : forall s k, P s -> gov_key k -> exists s', st_GetMetadata k s = (Ok (meta s k), s') /\ P s';
  sd_set : forall s k v, P s -> gov_key k -> exists s', st_SetMetadata k v s = (Ok tt, s') /\ P s';
  sd_active : forall s, P s -> exists s', st_GetActiveValidators s = (Ok vs, s') /\ P s';
  sd_domain : forall s a, P s -> exists s', st_GetValidatorStakeDomain a s = (Ok (dom_of a), s') /\ P s';
  sd_stake : forall s d, P s -> known d -> exists s', st_GetStakeDomainTotalStake d s = (Ok (stake d), s') /\ P s'
}.

Context (P : W -> Prop) (vs : list Validator) (known : string -> Prop).
Context (dom_of : string -> string) (stake : string -> Z).
Context (HP : steady P vs known dom_of stake).

(** The domain a validator votes for, the domains that may vote, and those that
    voted yes or no. *)
Definition voting_domain (c : GovConfig F) (a : string) : string :=
  if OwnershipDomainsEnabled c then dom_of a else a.
Definition electorate (c : GovConfig F) : gset string :=
  list_to_set ((fun v => voting_domain c (val_Address v)) <$> vs).
Definition camp (approve : bool) (votes : gmap string GovVote) : gset string :=
  dom (filter (fun kv => gv_Approve (snd kv) = approve) votes).

(** [m] returns [a], leaving the configuration, the governance metadata and the
    store's health as they are. *)
Definition returns {A} (m : GoM state gov_err A) (c : GovConfig F) (s : W) (a : A) : Prop :=
  exists s', m (c, s) = (Ok a, (c, s')) /\ P s' /\ gov_same meta s s'.

Lemma returns_bind {A B} (m : GoM state gov_err A) (f : A -> GoM state gov_err B) c s a b :
  returns m c s a -> (forall s', P s' -> gov_same meta s s' -> returns (f a) c s' b) ->
  returns (a ← m; f a) c s b.
Proof.
  intros (s1 & Hm & HP1 & Hg1) Hf. destruct (Hf s1 HP1 Hg1) as (s2 & Hf2 & HP2 & Hg2).
  exists s2. unfold mbind, GoM_bind. rewrite Hm, Hf2. split_and!; try done. by eapply gov_same_trans.
Qed.
Lemma returns_ret {A} (a : A) c s : P s -> returns (mret a) c s a.
Proof. intros Hs. exists s. by split_and!. Qed.

Lemma returns_domain c s a : P s -> returns (getVotingDomain a) c s (voting_domain c a).
Proof.
  intros Hs. unfold getVotingDomain, voting_domain, returns, cfg, store, on_snd, mbind, GoM_bind. cbn.
  destruct (OwnershipDomainsEnabled c); [|by exists s].
  destruct (sd_domain _ _ _ _ _ HP s a Hs) as (s' & Hd & HP'). exists s'. cbn. rewrite Hd.
  split_and!; [done|done|]. by eapply law_domain.
Qed.
Lemma returns_stake c s d : P s -> known d -> returns (store (st_GetStakeDomainTotalStake d)) c s (stake d).
Proof.
  intros Hs Hk. unfold returns, store, on_snd. destruct (sd_stake _ _ _ _ _ HP s d Hs Hk) as (s' & Hd & HP').
  exists s'. rewrite Hd. split_and!; [done|done|]. by eapply law_stake.
Qed.

Lemma returns_eligible c l : Forall (fun v => known (voting_domain c (val_Address v))) l ->
  forall s seen total, P s ->
  returns (eligible_loop l seen total) c s
    (total + set_sum stake (list_to_set ((fun v => voting_domain c (val_Address v)) <$> l) ∖ seen)).
Proof.
  induction 1 as [|v l Hk _ IH]; intros s seen total Hs; cbn [eligible_loop].
  - assert (list_to_set ((fun v => voting_domain c (val_Address v)) <$> []) ∖ seen = (∅ : gset string)) as ->
      by (simpl; set_solver).
    rewrite set_sum_empty, Z.add_0_r. by apply returns_ret.
  - eapply returns_bind; [by apply returns_domain|]. intros s1 HP1 _. rewrite fmap_cons, list_to_set_cons.
    set (d := voting_domain c (val_Address v)). set (X := list_to_set (_ <$> l) : gset string).
    case_bool_decide as Hd.
    + assert (({[d]} ∪ X) ∖ seen = X ∖ seen) as -> by set_solver. by apply IH.
    + eapply returns_bind; [by apply returns_stake|]. intros s2 HP2 _.
      assert (({[d]} ∪ X) ∖ seen = {[d]} ∪ (X ∖ ({[d]} ∪ seen))) as ->.
      { apply set_eq. intros x. destruct (decide (x = d)); set_solver. }
      rewrite set_sum_insert by set_solver. rewrite Z.add_assoc. by apply IH.
Qed.

Lemma returns_tally c votes l : NoDup l -> (forall d, d ∈ l -> is_Some (votes !! d) /\ known d) ->
  forall s yes no, P s ->
  returns (tally l votes yes no) c s
    (yes + set_sum stake (list_to_set l ∩ camp true votes), no + set_sum stake (list_to_set l ∩ camp false votes)).
Proof.
  induction 1 as [|d l Hd Hnd IH]; intros Hl s yes no Hs; cbn [tally].
  - simpl. rewrite !(intersection_empty_l_L (C:=gset string)), set_sum_empty, !Z.add_0_r. by apply returns_ret.
  - destruct (Hl d) as [[v Hv] Hk]; [set_solver|].
    eapply returns_bind; [by apply returns_stake|]. intros s1 HP1 _. rewrite Hv.
    assert (Hin : forall b, d ∈ camp b votes <-> gv_Approve v = b).
    { intros b. unfold camp. rewrite elem_of_dom. split.
      - intros [v' [Hv' Hb]%map_lookup_filter_Some]. simpl in Hb. congruence.
      - intros Hb. exists v. by apply map_lookup_filter_Some. }
    assert (Hyes : list_to_set (d :: l) ∩ camp (gv_Approve v) votes =
                   {[d]} ∪ (list_to_set l ∩ camp (gv_Approve v) votes)).
    { pose proof (proj2 (Hin (gv_Approve v)) eq_refl). set_solver. }
    assert (Hno : list_to_set (d :: l) ∩ camp (negb (gv_Approve v)) votes =
                  list_to_set l ∩ camp (negb (gv_Approve v)) votes).
    { assert (d ∉ camp (negb (gv_Approve v)) votes) by (rewrite Hin; by destruct (gv_Approve v)). set_solver. }
    assert (Hnl : d ∉ (list_to_set l : gset string)) by (by rewrite elem_of_list_to_set).
    destruct (gv_Approve v); cbn [negb] in Hno; rewrite Hyes, Hno, set_sum_insert by set_solver;
      rewrite Z.add_assoc; apply IH; try done; intros; apply Hl; set_solver.
Qed.

Lemma returns_total c s : P s -> Forall (fun v => known (voting_domain c (val_Address v))) vs -> returns totalEligibleDomainStake c s (set_sum stake (electorate c)).
Proof.
  intros Hs Hk. unfold totalEligibleDomainStake. eapply (returns_bind _ _ _ _ vs).
  - destruct (sd_active _ _ _ _ _ HP s Hs) as (s' & Ha & HP'). exists s'. unfold store, on_snd. rewrite Ha.
    split_and!; [done|done|]. by eapply law_active.
  - intros s1 HP1 _. rewrite <-(difference_empty_L (electorate c)), <-(Z.add_0_l (set_sum _ _)).
    by apply returns_eligible.
Qed.

Lemma returns_votes c s votes : P s -> (forall d, is_Some (votes !! d) -> known d) ->
  returns (tally (map_order votes) votes 0 0) c s (set_sum stake (camp true votes), set_sum stake (camp false votes)).
Proof.
  intros Hs Hk. assert (Hc : forall b, list_to_set (map_order votes) ∩ camp b votes = camp b votes).
  { intros b. apply set_eq. intros d. rewrite elem_of_intersection, elem_of_list_to_set, map_order_elem.
    unfold camp. split; [by intros []|]. intros Hd. split; [|done]. revert d Hd.
    change (dom (filter (fun kv => gv_Approve kv.2 = b) votes) ⊆ dom votes). apply dom_filter_subseteq. }
  rewrite <-(Hc true), <-(Hc false), <-(Z.add_0_l (set_sum stake (_ ∩ camp true _))),
    <-(Z.add_0_l (set_sum stake (_ ∩ camp false _))).
  apply returns_tally; [apply map_order_NoDup| |done]. intros d.
  rewrite map_order_elem, elem_of_dom. auto.
Qed.

Lemma returns_get id c s p : P s -> stored id s = Some p -> returns (GetProposal id) c s p.
Proof.
  intros Hs. unfold stored. case_bool_decide as He; [done|]. intros Hu.
  unfold GetProposal, returns, store, on_snd, mbind, GoM_bind.
  destruct (sd_get _ _ _ _ _ HP s (proposal_key id) Hs (proposal_gov_key id)) as (s' & Hg & HP').
  exists s'. fold (proposal_key id). rewrite Hg. rewrite bool_decide_eq_false_2 by done. rewrite Hu.
  split_and!; [done|done|]. by eapply law_get.
Qed.

Lemma saves p (c : GovConfig F) s : P s -> exists s', saveProposal p (c, s) = (Ok tt, (c, s')) /\ P s' /\
  forall k, gov_key k -> meta s' k = if bool_decide (k = proposal_key (p_ID p)) then Marshal p else meta s k.
Proof.
  intros Hs. destruct (sd_set _ _ _ _ _ HP s (proposal_key (p_ID p)) (Marshal p) Hs (proposal_gov_key _)) as (s' & Hset & HP').
  exists s'. unfold saveProposal, store, on_snd. fold (proposal_key (p_ID p)). rewrite Hset.
  split_and!; [done|done|]. by destruct (law_set _ _ _ _ _ Hset (proposal_gov_key _)) as [[_ Hm]|[[=] _]].
Qed.

(** Saving a closed proposal and returning it. *)
Lemma closes p (c : GovConfig F) s : P s ->
  exists s', (_ ← saveProposal p; mret p) (c, s) = (Ok p, (c, s')) /\ P s' /\
    (forall i, stored i s' = if bool_decide (i = p_ID p) then Some p else stored i s) /\
    (forall x, meta s' (paramMetadataPrefix +:+ x) = meta s (paramMetadataPrefix +:+ x)).
Proof.
  intros Hs. destruct (saves p c s Hs) as (s' & Hsave & HP' & Hm). exists s'.
  unfold mbind, GoM_bind. rewrite Hsave. split_and!; [done|done|intros i; by apply stored_write|].
  intros x. rewrite Hm by apply param_gov_key. by rewrite bool_decide_eq_false_2.
Qed.

Lemma applies parameter value (c c1 : GovConfig F) s : P s -> apply_to_config parameter value c = Some c1 ->
  exists s', applyApprovedParameterChange parameter value (c, s) = (Ok tt, (c1, s')) /\ P s' /\
  meta s' (paramMetadataPrefix +:+ parameter) = value /\ forall id, stored id s' = stored id s.
Proof.
  intros Hs Hc. set (k := paramMetadataPrefix +:+ parameter).
  destruct (sd_set _ _ _ _ _ HP s k value Hs (param_gov_key _)) as (s' & Hset & HP').
  exists s'. assert (Hrun : applyApprovedParameterChange parameter value (c, s) = (Ok tt, (c1, s'))).
  { unfold applyApprovedParameterChange, cfg, modify, store, on_snd, mbind, GoM_bind. cbn [fst snd].
    rewrite Hc. cbn [fst snd]. fold k. by rewrite Hset. }
  split_and!; [done|done| |exact (apply_still _ _ _ _ _ Hrun)].
  destruct (law_set _ _ _ _ _ Hset (param_gov_key _)) as [[_ Hm]|[[=] _]].
  rewrite Hm by apply param_gov_key. by rewrite bool_decide_eq_true_2.
Qed.

(** The verdict on the three sums. *)
Definition accepts (c : GovConfig F) (total yes no : Z) : bool :=
  negb ((total =? 0) || (yes + no =? 0) || f_lt (f_ratio (yes + no) total) (Quorum c) ||
        f_lt (f_ratio yes (yes + no)) (ApprovalThreshold c)).

Lemma sgn_zero z : (Z.sgn z =? 0) = (z =? 0).
Proof. by destruct z. Qed.

Lemma finalize_run now1 now2 id (c c1 : GovConfig F) s p :
  P s -> Forall (fun v => known (voting_domain c (val_Address v))) vs ->
  (forall d, is_Some (p_Votes p !! d) -> known d) ->
  stored id s = Some p -> p_ID p = id -> p_Status p = Active -> p_VotingEndsAt p <= now1 ->
  apply_to_config (p_Parameter p) (p_ProposedValue p) c = Some c1 ->
  let yes := set_sum stake (camp true (p_Votes p)) in
  let no := set_sum stake (camp false (p_Votes p)) in
  let ok := accepts c (set_sum stake (electorate c)) yes no in
  let p' := finalized (if ok then Approved else Rejected) now2 yes no p in
  exists s', FinalizeProposal now1 now2 id (c, s) = (Ok p', ((if ok then c1 else c), s')) /\ P s' /\
    (forall i, stored i s' = if bool_decide (i = id) then Some p' else stored i s) /\
    (ok = true -> meta s' (paramMetadataPrefix +:+ p_Parameter p) = p_ProposedValue p).
Proof.
  intros Hs Hkv Hkd Hst Hid Hact Hend Hc yes no ok p'. unfold FinalizeProposal.
  destruct (returns_get id c s p Hs Hst) as (s1 & Hget & HP1 & Hg1).
  unfold mbind at 1, GoM_bind at 1. rewrite Hget. rewrite bool_decide_eq_true_2 by done. cbn [negb].
  unfold mbind at 1, GoM_bind at 1, refuse_if. rewrite (proj2 (Z.ltb_ge now1 (p_VotingEndsAt p))) by lia. cbn [mret GoM_ret].
  destruct (returns_total c s1 HP1 Hkv) as (s2 & Htot & HP2 & Hg2).
  unfold mbind at 1, GoM_bind at 1. rewrite Htot.
  destruct (returns_votes c s2 (p_Votes p) HP2 Hkd) as (s3 & Htal & HP3 & Hg3).
  unfold mbind at 1, GoM_bind at 1. rewrite Htal. fold yes no. rewrite !sgn_zero.
  assert (Hsame : forall i, stored i s3 = stored i s).
  { intros i. by rewrite (stored_same s2 s3), (stored_same s1 s2), (stored_same s s1). }
  assert (Hreject : ok = false -> exists s', (_ ← saveProposal (finalized Rejected now2 yes no p);
      mret (finalized Rejected now2 yes no p)) (c, s3) = (Ok p', ((if ok then c1 else c), s')) /\ P s' /\
      (forall i, stored i s' = if bool_decide (i = id) then Some p' else stored i s) /\
      (ok = true -> meta s' (paramMetadataPrefix +:+ p_Parameter p) = p_ProposedValue p)).
  { intros Hno. destruct (closes (finalized Rejected now2 yes no p) c s3 HP3) as (s4 & Hrun & HP4 & Hst4 & _).
    exists s4. subst p'. rewrite Hno. split_and!; [done|done| |done]. intros i. by rewrite Hst4, Hsame, <-Hid. }
  destruct (_ || (yes + no =? 0)) eqn:Hz.
  { apply Hreject. unfold ok, accepts. by rewrite Hz. }
  unfold cfg. unfold mbind at 1, GoM_bind at 1. cbn [fst].
  destruct (f_lt _ _ || f_lt _ _) eqn:Hf.
  { apply Hreject. unfold ok, accepts. by rewrite Hz, <-orb_assoc, Hf. }
  assert (Hok : ok = true) by (unfold ok, accepts; by rewrite Hz, <-orb_assoc, Hf).
  destruct (applies (p_Parameter p) (p_ProposedValue p) c c1 s3 HP3 Hc) as (s4 & Happ & HP4 & Hm4 & Hst4).
  unfold mbind at 1, GoM_bind at 1. rewrite Happ.
  destruct (closes (finalized Approved now2 yes no p) c1 s4 HP4) as (s5 & Hrun & HP5 & Hst5 & Hm5).
  exists s5. subst p'. rewrite Hok. split_and!; [done|done| |by rewrite Hm5].
  intros i. by rewrite Hst5, Hst4, Hsame, <-Hid.
Qed.
End Outcome.

(** ** A consistent registry is steady *)

Section Consistent.
Context `{MapOrder} `{Json stakeDomainMembers}.
Context (V : gmap string Validator) (D : gmap string blob).

Definition text_at (m : gmap string blob) (k : string) : string :=
  match m !! MetaKey k with Some (Text t) => t | _ => "" end.
Definition textual (m : gmap string blob) (k : string) : Prop :=
  match m !! MetaKey k with None | Some (Text _) => True | _ => False end.

Definition recorded_members (d : string) : list string :=
  if bool_decide (text_at D (stakeDomainMembersKey d) = "") then []
  else match Unmarshal (text_at D (stakeDomainMembersKey d)) with Some m => members m | None => [] end.

(** Every domain's recorded members can be read and are registered. *)
Record consistent : Prop := MkConsistent {
  cs_domain : forall a, textual D (validatorStakeDomainKey a);
  cs_members : forall d, textual D (stakeDomainMembersKey d);
  cs_decodes : forall d, text_at D (stakeDomainMembersKey d) <> "" ->
    is_Some (Unmarshal (A:=stakeDomainMembers) (text_at D (stakeDomainMembersKey d)));
  cs_registered : forall d, Forall (fun a => is_Some (V !! a)) (recorded_members d)
}.

Definition domain_of (a : string) : string := normalizeStakeDomainID (text_at D (validatorStakeDomainKey a)) a.
Definition domain_validators (d : string) : list string :=
  if (length (recorded_members d) =? 0)%nat then (if bool_decide (is_Some (V !! d)) then [d] else [])
  else recorded_members d.
Definition domain_stake (d : string) : Z :=
  foldl (fun total addr => match V !! addr with
                           | Some v => total + ParseBigInt_bytes (val_Stake v)
                           | None => total
                           end) 0 (domain_validators (TrimSpace d)).

(** The registry holds [V], its database [D] up to governance metadata, and no
    I/O failure is pending. *)
Record holds (s : registry) : Prop := MkHolds {
  hd_io : kv_io (reg_db s) = [];
  hd_validators : reg_validators s = V;
  hd_data : forall k, ~ gov_key k -> kv_data (reg_db s) !! MetaKey k = D !! MetaKey k;
  hd_text : forall k, gov_key k -> textual (kv_data (reg_db s)) k
}.

Lemma read_text s k : kv_io (reg_db s) = [] -> textual (kv_data (reg_db s)) k ->
  on_db (GetMetadata k) s = (Ok (text_at (kv_data (reg_db s)) k), s).
Proof.
  destruct s as [vs [m io]]. simpl. intros -> Ht. unfold textual in Ht.
  unfold on_db, GetMetadata, get_text, kv_Get, access, text_at, mbind, GoM_bind, get. simpl.
  by destruct (m !! MetaKey k) as [[]|].
Qed.

Lemma domain_key_free a : ~ gov_key (validatorStakeDomainKey a).
Proof. by intros [rest Heq]. Qed.
Lemma members_key_free d : ~ gov_key (stakeDomainMembersKey d).
Proof. by intros [rest Heq]. Qed.

Lemma holds_text s k : holds s -> ~ gov_key k -> textual D k ->
  on_db (GetMetadata k) s = (Ok (text_at D k), s).
Proof.
  intros Hs Hk Ht. unfold textual, text_at in *. rewrite <-(hd_data _ Hs k Hk) in *.
  apply read_text; [apply Hs|done].
Qed.

Lemma holds_members s d : consistent -> holds s ->
  readStakeDomainMembersLocked d s = (Ok (MkMembers (recorded_members d)), s).
Proof.
  intros Hc Hs. unfold readStakeDomainMembersLocked, mbind, GoM_bind.
  rewrite (holds_text _ _ Hs (members_key_free d) (cs_members Hc d)). unfold recorded_members.
  case_bool_decide as He; [done|]. destruct (cs_decodes Hc d He) as [m ->]. by destruct m.
Qed.

Lemma filter_all {A} (Q : A -> Prop) `{forall x, Decision (Q x)} l : Forall Q l -> filter Q l = l.
Proof. induction 1 as [|x l Hx _ IH]; [done|]. by rewrite filter_cons_True, IH. Qed.

Lemma holds_stake s d : consistent -> holds s -> TrimSpace d <> "" ->
  GetStakeDomainTotalStake d s = (Ok (domain_stake d), s).
Proof.
  intros Hc Hs Hd. unfold GetStakeDomainTotalStake, getStakeDomainValidatorsLocked, refuse_if.
  rewrite bool_decide_eq_false_2 by done. unfold mbind, GoM_bind, mret, GoM_ret, get.
  rewrite (holds_members _ _ Hc Hs). simpl members. unfold domain_stake, domain_validators.
  destruct s as [vs db0]. pose proof (hd_validators _ Hs) as Hv. simpl in Hv |- *. subst vs.
  destruct (length _ =? 0)%nat; [done|].
  by rewrite (filter_all _ _ (cs_registered Hc _)), Nat.eqb_refl.
Qed.

Lemma holds_set s k v : holds s -> gov_key k -> exists s', on_db (SetMetadata k v) s = (Ok tt, s') /\ holds s'.
Proof.
  intros [Hio Hv Hd Ht] Hk. destruct s as [vs [m io]]. simpl in *. subst io vs.
  eexists. split; [done|]. split; simpl; try done.
  - intros k' Hk'. rewrite lookup_insert_ne; [by apply Hd|]. intros Heq. unfold MetaKey in Heq. simplify_eq/=. done.
  - intros k' Hk'. unfold textual. destruct (decide (MetaKey k' = MetaKey k)) as [->|Hne].
    + by rewrite lookup_insert_eq.
    + rewrite lookup_insert_ne by done. by apply Ht.
Qed.

Lemma registry_steady vs : consistent ->
  (forall s, holds s -> GetActiveValidators s = vs) ->
  steady holds vs (fun d => TrimSpace d <> "") domain_of domain_stake.
Proof.
  intros Hc Hvs. split; simpl.
  - intros s k Hs Hk. exists s. split; [|done]. apply (read_text s k); [apply Hs|by apply Hs].
  - intros s k v Hs Hk. by apply holds_set.
  - intros s Hs. exists s. by rewrite Hvs.
  - intros s a Hs. exists s. split; [|done]. unfold GetValidatorStakeDomain, getValidatorStakeDomainLocked, mbind, GoM_bind.
    by rewrite (holds_text _ _ Hs (domain_key_free a) (cs_domain Hc a)).
  - intros s d Hs Hd. exists s. split; [|done]. by apply holds_stake.
Qed.
End Consistent.

(** ** Properties *)

Section Properties.
Context `{MapOrder} {F : Type} `{Float64 F} `{Json Proposal, !JsonLaws Proposal} {W : Type} `{StoreLaws W}.

(** C18. The life cycle of proposals.  Through any run of submissions, votes and
    finalisations, whatever they are called with, however they end, whatever the clock
    reads and whatever the node does in between, a stored proposal whose identifier is not
    submitted again stays stored: its terms and its deadline never change, a domain that
    has voted keeps a vote of the same validator (who may change it between yes and
    no), and once the proposal is approved or rejected it never changes again; stored votes
    stay under their domain. *)
Theorem governance_lifecycle ids (s s' : GovConfig F * W) :
  gov_run ids s s' -> well_keyed (snd s) ->
  well_keyed (snd s') /\ forall id p, id ∉ ids -> stored id (snd s) = Some p ->
    exists p', stored id (snd s') = Some p' /\ proposal_le p p'.
Proof. apply gov_run_evolves. Qed.

(** C19. How a proposal ends.  On a healthy store, finalising an active proposal
    after its deadline sums the stake of the domains that voted yes and no, each
    domain once, compares participation with the stake of all domains of active
    validators and approval with the participating stake, stores the outcome,
    and changes the configuration, in the proposed parameter, exactly when it
    is approved; other proposals are untouched, and finalising again returns
    the same proposal and changes nothing. *)
Theorem finalize_exact P vs known dom_of stake now1 now2 id (c c1 : GovConfig F) s p :
  steady P vs known dom_of stake -> P s ->
  Forall (fun v => known (voting_domain dom_of c (val_Address v))) vs ->
  (forall d, is_Some (p_Votes p !! d) -> known d) ->
  stored id s = Some p -> p_ID p = id -> p_Status p = Active -> p_VotingEndsAt p <= now1 ->
  apply_to_config (p_Parameter p) (p_ProposedValue p) c = Some c1 ->
  let yes := set_sum stake (camp true (p_Votes p)) in
  let no := set_sum stake (camp false (p_Votes p)) in
  let ok := accepts c (set_sum stake (electorate vs dom_of c)) yes no in
  let p' := finalized (if ok then Approved else Rejected) now2 yes no p in
  let c' := if ok then c1 else c in
  exists s', FinalizeProposal now1 now2 id (c, s) = (Ok p', (c', s')) /\
    (forall i, stored i s' = if bool_decide (i = id) then Some p' else stored i s) /\
    (ok = true -> meta s' (paramMetadataPrefix +:+ p_Parameter p) = p_ProposedValue p) /\
    (forall now3 now4, exists s'', FinalizeProposal now3 now4 id (c', s') = (Ok p', (c', s'')) /\
       gov_same meta s' s'').
Proof.
  intros HP Hs Hkv Hkd Hst Hid Hact Hend Hc yes no ok p' c'.
  destruct (finalize_run P vs known dom_of stake HP now1 now2 id c c1 s p Hs Hkv Hkd Hst Hid Hact Hend Hc)
    as (s' & Hrun & HP' & Hst' & Hm). fold yes no ok p' c' in Hrun, HP', Hst', Hm.
  exists s'. split_and!; [done..|]. intros now3 now4.
  assert (Hp' : stored id s' = Some p') by (rewrite Hst'; by rewrite bool_decide_eq_true_2).
  destruct (returns_get P vs known dom_of stake HP id c' s' p' HP' Hp') as (s'' & Hget & _ & Hg).
  exists s''. split; [|done]. unfold FinalizeProposal, mbind, GoM_bind. rewrite Hget.
  rewrite bool_decide_eq_false_2 by (unfold p'; simpl; by destruct ok). done.
Qed.
End Properties.

(** ** Concrete runs *)

#[local] Instance gov_json {A} `{Countable A} : Json A := text_codec.
#[local] Instance gov_json_laws {A} `{Countable A} : JsonLaws A := text_codec_laws.
#[local] Instance gov_float : Float64 permille := permille_float.

Definition gov_config : GovConfig permille :=
  MkGovConfig true 0 (Some 334) (Some 500) true (Some 10) (Some 10) (Some 100) (Some 100) 1 0 0 0.
Definition gov_validator (a : string) (stake : Z) : Validator :=
  MkValidator a [] "" "" "" (Bytes stake) [] [] ∅ 0 true 0 0 0 0 0.

Definition gov_registry : registry :=
  MkRegistry (list_to_map ((fun v => (val_Address v, v)) <$>
    [gov_validator "v1" 60; gov_validator "v2" 50; gov_validator "v3" 40])) (MkKV ∅ []).

(** Submit, then two votes, on the registry above. *)
Definition gov_submit : GoM (GovConfig permille * registry) gov_err Proposal :=
  SubmitProposal 100 "p" "v1" "economics.inflation_rate" "20".
Definition gov_vote (v : string) (yes : bool) : GoM (GovConfig permille * registry) gov_err unit :=
  CastVote 100 100 "p" v yes.
Definition gov_open : GovConfig permille * registry :=
  snd (gov_vote "v2" false (snd (gov_vote "v1" true (snd (gov_submit (gov_config, gov_registry)))))).
Definition gov_proposal : Proposal :=
  MkProposal "p" "economics.inflation_rate" "20" "v1" Active 100 100 0 "0" "0"
    (<["v2" := MkGovVote "v2" "v2" false 100]> {["v1" := MkGovVote "v1" "v1" true 100]}).

Lemma gov_empty_keyed : well_keyed gov_registry.
Proof. intros id p. unfold stored. simpl. unfold registry_meta. simpl. by rewrite lookup_empty. Qed.

Lemma gov_open_reached : gov_run ["p"] (gov_config, gov_registry) gov_open.
Proof.
  eapply (run_step (Some "p") []); [eapply step_submit; apply surjective_pairing|].
  eapply (run_step None []); [eapply (step_vote 100 100 "p" "v1" true); apply surjective_pairing|].
  eapply (run_step None []); [eapply (step_vote 100 100 "p" "v2" false); apply surjective_pairing|apply run_here].
Qed.

Lemma gov_open_stored : stored "p" (snd gov_open) = Some gov_proposal.
Proof. vm_compute. reflexivity. Qed.

(** The proposal after a further vote of [v3] and the submission of another one. *)
Definition gov_later : GovConfig permille * registry :=
  snd (SubmitProposal 100 "q" "v1" "economics.inflation_rate" "30" (snd (gov_vote "v3" true gov_open))).
Lemma governance_lifecycle_witness :
  exists p', stored "p" (snd gov_later) = Some p' /\ proposal_le gov_proposal p'.
Proof.
  apply (fun H1 H2 H3 => proj2 (governance_lifecycle ["q"] gov_open gov_later H1 H2) "p" _ H3 gov_open_stored).
  - eapply (run_step None ["q"]); [eapply (step_vote 100 100 "p" "v3" true); apply surjective_pairing|].
    eapply (run_step (Some "q") []); [eapply step_submit; apply surjective_pairing|apply run_here].
  - apply (gov_run_evolves _ _ _ gov_open_reached gov_empty_keyed).
  - set_solver.
Defined.

(** A closed proposal whose identifier is submitted again is open again, with other terms
    and without its votes. *)
Definition gov_closed : GovConfig permille * registry := snd (FinalizeProposal 101 102 "p" gov_open).
Example submission_reopens :
  (p_Status <$> stored "p" (snd gov_closed)) = Some Approved /\
  stored "p" (snd (snd (SubmitProposal 200 "p" "v2" "economics.inflation_rate" "30" gov_closed))) =
    Some (MkProposal "p" "economics.inflation_rate" "30" "v2" Active 200 200 0 "0" "0" ∅).
Proof. vm_compute. by split. Qed.

(** The open proposal, written straight into the database. *)
Definition gov_ballot : registry :=
  set_validators (reg_validators gov_registry)
    (MkRegistry ∅ (MkKV {[MetaKey (proposal_key "p") := Text (Marshal gov_proposal)]} [])).
Definition gov_vs : list Validator := GetActiveValidators gov_ballot.

Lemma gov_ballot_holds : holds (reg_validators gov_registry) ∅ gov_ballot.
Proof.
  split; [done|done| |]; intros k Hk; unfold textual; simpl kv_data.
  - rewrite lookup_empty, lookup_singleton_ne; [done|]. intros Heq. apply Hk.
    assert (k = proposal_key "p") as -> by (unfold MetaKey in Heq; by simplify_eq/=). apply proposal_gov_key.
  - destruct (decide (MetaKey (proposal_key "p") = MetaKey k)) as [<-|Hne].
    + by rewrite lookup_singleton_eq.
    + by rewrite lookup_singleton_ne.
Qed.

Lemma gov_steady : steady (holds (reg_validators gov_registry) ∅) gov_vs (fun d => TrimSpace d <> "")
  (domain_of ∅) (domain_stake (reg_validators gov_registry) ∅).
Proof.
  apply registry_steady.
  - assert (Ht : forall k, text_at ∅ k = "") by (intros k; unfold text_at; by rewrite lookup_empty).
    split; intros x; unfold textual; rewrite ?lookup_empty; [done|done|by rewrite Ht|].
    unfold recorded_members. by rewrite Ht.
  - intros s Hs. unfold gov_vs, GetActiveValidators. by rewrite (hd_validators _ _ _ Hs).
Qed.

Lemma gov_ballot_stored : stored "p" gov_ballot = Some gov_proposal.
Proof.
  assert (Hm : meta gov_ballot (proposal_key "p") = Marshal gov_proposal).
  { simpl. unfold registry_meta. simpl kv_data. by rewrite lookup_singleton_eq. }
  unfold stored. rewrite Hm, bool_decide_eq_false_2 by apply Marshal_nonempty. apply Unmarshal_Marshal.
Qed.

Definition gov_config_after : GovConfig permille :=
  default gov_config (apply_to_config "economics.inflation_rate" "20" gov_config).

(** 60 yes against 50 no, of 150: approved. *)
Lemma finalize_exact_witness :
  exists s', FinalizeProposal 101 102 "p" (gov_config, gov_ballot) =
    (Ok (finalized Approved 102 60 50 gov_proposal), (gov_config_after, s')).
Proof.
  destruct (finalize_exact _ _ _ _ _ 101 102 "p" gov_config gov_config_after gov_ballot gov_proposal
    gov_steady gov_ballot_holds) as (s' & Hrun & _).
  - assert (Hall : forallb (fun v => negb (bool_decide (TrimSpace (voting_domain (domain_of ∅) gov_config (val_Address v)) = "")))
      gov_vs = true) by (vm_compute; reflexivity).
    apply Forall_forall. intros v Hv. apply list_elem_of_In in Hv.
    rewrite forallb_forall in Hall. specialize (Hall v Hv). by apply negb_true_iff, bool_decide_eq_false in Hall.
  - intros d. simpl p_Votes. rewrite lookup_insert_is_Some, lookup_singleton_is_Some.
    by intros [<-|[_ <-]]; vm_compute.
  - exact gov_ballot_stored.
  - done.
  - done.
  - done.
  - vm_compute. reflexivity.
  - exists s'. rewrite Hrun. 
    assert (Hy : set_sum (domain_stake (reg_validators gov_registry) ∅) (camp true (p_Votes gov_proposal)) = 60)
      by (vm_compute; reflexivity).
    assert (Hn : set_sum (domain_stake (reg_validators gov_registry) ∅) (camp false (p_Votes gov_proposal)) = 50)
      by (vm_compute; reflexivity).
    rewrite Hy, Hn.
    assert (Ha : accepts gov_config (set_sum (domain_stake (reg_validators gov_registry) ∅)
      (electorate gov_vs (domain_of ∅) gov_config)) 60 50 = true) by (vm_compute; reflexivity).
    by rewrite Ha.
Defined.

(** A validator that changes its stake domain votes twice.  Its first vote
    stays under its old domain, which still counts its stake when nobody else
    joined it, and its new domain has not voted yet: here 60 of 150 approve a
    change against 90. *)
Theorem moved_stake_counts_twice :
  let run := _ ← gov_submit; _ ← gov_vote "v1" true;
             _ ← store (SetValidatorStakeDomain "v1" "pool"); _ ← gov_vote "v1" true;
             _ ← gov_vote "v2" false; _ ← gov_vote "v3" false;
             p ← FinalizeProposal 101 101 "p"; mret (p_Status p, p_YesStake p, p_NoStake p) in
  fst (run (gov_config, gov_registry)) = Ok (Approved, "120", "90").
Proof. vm_compute. reflexivity. Qed.

(** A validator that names another validator's address as its domain replaces
    that validator in it: [v2] votes with the stake of [v1] and without its own. *)
Theorem joined_self_domain_is_lost :
  let run := _ ← SetValidatorStakeDomain "v1" "v2"; GetStakeDomainTotalStake "v2" in
  fst (GetStakeDomainTotalStake "v2" gov_registry) = Ok 50 /\ fst (run gov_registry) = Ok 60.
Proof. split; vm_compute; reflexivity. Qed.

(** A value that is not a number passes the check for the unit interval. *)
Theorem nan_parameter_accepted {F} `{Float64 F} p v x :
  p ∈ float_params -> ParseFloat v = Some x -> f_lt x f_zero = false -> f_lt f_one x = false ->
  ValidateParameterChange p v = Ok tt.
Proof.
  intros Hp Hx Hlo Hhi. unfold ValidateParameterChange. rewrite bool_decide_eq_true_2, Hx, Hlo, Hhi by done. done.
Qed.

(** The same vote executed on two nodes a second apart around the deadline is
    accepted on one and refused on the other. *)
Theorem vote_depends_on_the_clock :
  let '(_, s) := gov_submit (gov_config, gov_registry) in
  is_ok (fst (CastVote 100 100 "p" "v1" true s)) = true /\
  is_ok (fst (CastVote 101 101 "p" "v1" true s)) = false.
Proof. vm_compute. split; reflexivity. Qed.
