(* ===== verification/StateRoot.v ===== *)
(** * The state root (src/core/state/worldstate.go, src/core/state/simulation.go)

    The root a node commits to after a block ([updateStateRoot]) and the root it
    predicts for a proposed block by running the transactions on copies of the
    accounts ([SimulateStateRoot]).  Both serialise all accounts and validators in
    address order and hash the bytes. *)

From S2P Require Import Prelude Uint256 Address Storage AccountManager AccountSpec ShardedLock Governance.
From S2P Require Import Domains World Executor.
From stdpp Require Import base tactics numbers list gmap strings sorting.
From Stdlib Require Import ZArith Lia Strings.Byte Strings.Ascii.
Open Scope Z_scope.
Open Scope list_scope.

(** ** Encoding *)

Definition stateRootEncodingVersionLegacy : Z := 1.
Definition stateRootEncodingVersionCanonical : Z := 2.

(** The chain's part of the world state. *)
Record chain : Type := MkChain {
  ch_height : Z;
  ch_stateRoot : string;
  ch_version : Z
}.

Section Versions.
Context (StateEncodingUpgradeHeight : Z).

Definition desiredStateRootEncodingVersionForHeight (ch : chain) (height : Z) : Z :=
  let upgradeHeight := StateEncodingUpgradeHeight in
  if (0 <? upgradeHeight) && (upgradeHeight <=? height) then stateRootEncodingVersionCanonical
  else if negb (ch_version ch =? 0) then ch_version ch
  else if 0 <? upgradeHeight then stateRootEncodingVersionLegacy
  else stateRootEncodingVersionCanonical.

Definition GetStateRootEncodingVersionForHeight := desiredStateRootEncodingVersionForHeight.

Definition ws_GetStateRootEncodingVersion (ch : chain) : Z :=
  if ch_version ch =? 0 then stateRootEncodingVersionLegacy else ch_version ch.

Definition applyStateRootEncodingVersionForHeight (height : Z) (ch : chain) : Z * chain :=
  let version := desiredStateRootEncodingVersionForHeight ch height in
  (version, MkChain (ch_height ch) (ch_stateRoot ch) version).
End Versions.

(** [binary.BigEndian.PutUint16] of a length. *)
Definition PutUint16 (n : Z) : list byte :=
  [byte_of_Z (n mod 65536 / 256); byte_of_Z (n mod 256)].

Definition appendStateUint256 (version : Z) (raw : list byte) : list byte :=
  if version <? stateRootEncodingVersionCanonical then raw
  else match ParseUint256Bytes raw with
       | Ok value =>
           match BigIntToUint256Bytes (Some value) with
           | Ok canonical => PutUint16 (Z.of_nat (length canonical)) ++ canonical
           | _ => raw
           end
       | _ => raw
       end.

Section Data.
Context `{MapOrder} (version : Z).

Definition delegation_data (m : gmap string (list byte)) : list byte :=
  sort_strings (map_order m) ≫= fun valAddr =>
    bytes_of_string valAddr ++ appendStateUint256 version (default [] (m !! valAddr)).

Definition account_data (account : Account) : list byte :=
  bytes_of_string (acc_Address account) ++ appendStateUint256 version (acc_Balance account) ++
  PutUint64 (acc_Nonce account) ++ appendStateUint256 version (acc_StakedAmount account) ++
  appendStateUint256 version (acc_Rewards account) ++ delegation_data (acc_DelegatedTo account).

Definition validator_data (validator : Validator) : list byte :=
  bytes_of_string (val_Address validator) ++ val_Pubkey validator ++
  appendStateUint256 version (val_Stake validator) ++ [if val_Active validator then x01 else x00].

(** In the order of the addresses. *)
Definition in_order {V} (data : V -> list byte) (m : gmap string V) : list byte :=
  sort_strings (map_order m) ≫= fun addr => match m !! addr with Some v => data v | None => [] end.

Definition state_data (accounts : gmap string Account) (validators : gmap string Validator) : list byte :=
  in_order account_data accounts ++ in_order validator_data validators.
End Data.

(** ** The world state with its chain and its three mutexes *)

Inductive mu : Type := ChainMu | ValidatorMu | StateRootMu.

Section WorldState.
Context `{MapOrder} {C F : Type} `{LRU C}.
Context (Keccak256 : list byte -> list byte) (shardID totalShards : Z).
Context (StateEncodingUpgradeHeight : Z) (MinValidatorStake : string).

Record WorldState : Type := MkWS {
  ws_world : @world C F;
  ws_chain : chain;
  ws_mutex : mu -> RWMutex
}.

Definition set_world (w : world) (s : WorldState) : WorldState := MkWS w (ws_chain s) (ws_mutex s).
Definition set_chain (c : chain) (s : WorldState) : WorldState := MkWS (ws_world s) c (ws_mutex s).
Definition set_mutex (x : mu) (l : RWMutex) (s : WorldState) : WorldState :=
  MkWS (ws_world s) (ws_chain s)
    (fun y => match x, y with
              | ChainMu, ChainMu | ValidatorMu, ValidatorMu | StateRootMu, StateRootMu => l
              | _, _ => ws_mutex s y
              end).

(** [mu.Lock()] or [mu.RLock()] and back: waiting forever is [Hang]. *)
Definition mutex_op {E} (acquire : bool) (m : mode) (x : mu) : GoM WorldState E unit := fun s =>
  match mutex_call acquire m (ws_mutex s x) with
  | Some (Ok l) => (Ok tt, set_mutex x l s)
  | Some _ => (Panic, s)
  | None => (Hang, s)
  end.

(** [mu.Lock(); defer mu.Unlock()]: a goroutine that waits forever holds on. *)
Definition releasing {E A} (m : mode) (x : mu) (body : GoM WorldState E A) : GoM WorldState E A := fun s =>
  let '(r, s1) := body s in
  match r with
  | Hang => (Hang, s1)
  | _ => match mutex_op (E:=E) false m x s1 with
         | (Ok _, s2) => (r, s2)
         | (_, s2) => (Panic, s2)
         end
  end.
Definition locked {E A} (m : mode) (x : mu) (body : GoM WorldState E A) : GoM WorldState E A :=
  _ ← mutex_op true m x; releasing m x body.

Definition on_world {E A} (m : GoM (@world C F) E A) : GoM WorldState E A := fun s =>
  let '(r, w) := m (ws_world s) in (r, set_world w s).

Definition all_accounts {E} : GoM WorldState E (gmap string Account) :=
  on_world (fun w => let '(accounts, a) := AccountManager.GetAllAccounts (w_am w) in (Ok accounts, set_am a w)).

Definition root_of (version : Z) (accounts : gmap string Account) (validators : gmap string Validator) : string :=
  EncodeToString (Keccak256 (state_data version accounts validators)).

(** ** Committing *)

Definition apply_version {E} : GoM WorldState E Z :=
  locked W StateRootMu (fun s =>
    let '(version, c) := applyStateRootEncodingVersionForHeight StateEncodingUpgradeHeight (ch_height (ws_chain s)) (ws_chain s) in
    (Ok version, set_chain c s)).

Definition updateStateRoot {E} : GoM WorldState E unit :=
  version ← apply_version;
  accounts ← all_accounts;
  modify (fun s => let c := ws_chain s in
    set_chain (MkChain (ch_height c) (root_of version accounts (w_validators (ws_world s))) (ch_version c)) s).

Inductive check_err : Type :=
| NegativeAccount (addr : string)
| BadAccountAddress (addr : string) (e : address_err)
| NegativeValidator (addr : string)
| BadValidatorAddress (addr : string) (e : address_err)
| ValidatorBelowMinimum (addr : string)
| RootMismatch (stored calculated : string).

Definition check_account (addr : string) (acc : Account) : outcome check_err unit :=
  if (ParseBigInt_bytes (acc_Balance acc) <? 0) || (ParseBigInt_bytes (acc_StakedAmount acc) <? 0) ||
     (ParseBigInt_bytes (acc_Rewards acc) <? 0) then Err (NegativeAccount addr)
  else wrap (BadAccountAddress addr) (Validate addr).

Definition check_validator (addr : string) (v : Validator) : outcome check_err unit :=
  if (ParseBigInt_bytes (val_Stake v) <? 0) || (ParseBigInt_bytes (val_SelfStake v) <? 0) ||
     (ParseBigInt_bytes (val_DelegatedStake v) <? 0) then Err (NegativeValidator addr)
  else
    _ ← wrap (BadValidatorAddress addr) (Validate addr);
    if ParseBigInt_bytes (val_Stake v) <? ParseBigInt_string MinValidatorStake
    then Err (ValidatorBelowMinimum addr) else Ok tt.

(** [for addr, x := range m { check }]. *)
Fixpoint check_all {V} (check : string -> V -> outcome check_err unit) (m : gmap string V) (keys : list string)
    : outcome check_err unit :=
  match keys with
  | [] => Ok tt
  | k :: keys' => match m !! k with
                  | Some v => _ ← check k v; check_all check m keys'
                  | None => check_all check m keys'
                  end
  end.

Definition ValidateStateConsistency : GoM WorldState check_err unit :=
  locked R ChainMu (locked R ValidatorMu (locked R StateRootMu (
    accounts ← all_accounts;
    _ ← lift (check_all check_account accounts (map_order accounts));
    s ← get;
    let validators := w_validators (ws_world s) in
    _ ← lift (check_all check_validator validators (map_order validators));
    let originalRoot := ch_stateRoot (ws_chain s) in
    _ ← updateStateRoot;
    s' ← get;
    refuse_if (negb (bool_decide (ch_stateRoot (ws_chain s') = originalRoot)))
      (RootMismatch originalRoot (ch_stateRoot (ws_chain s')))))).

(** ** Predicting *)

Inductive sim_err : Type :=
| SimGetFailed (e : am_err)
| SimInsufficientBalance
| SimInsufficientStake
| SimInsufficientDelegation
| SimUnknownType.

(** [overlay] maps addresses to objects on the same heap as the manager's. *)
Notation sim := (gmap string loc * @am KV C)%type.
Notation Sim := (GoM sim sim_err).

Definition deepCopyAccount (acc : Account) : Account :=
  MkAccount (acc_Address acc) (acc_Balance acc) (acc_Nonce acc) (acc_StakedAmount acc)
    (acc_DelegatedTo acc) (acc_Rewards acc) (acc_CodeHash acc) (acc_StorageRoot acc).

Definition real {A} (m : GoM (@am KV C) am_err A) : Sim A := wrapM SimGetFailed (on_snd m).

Definition getAccount (addr : string) : Sim loc :=
  '(overlay, _) ← get;
  match overlay !! addr with
  | Some l => mret l
  | None =>
      r ← real (AccountManager.GetAccount Keccak256 shardID totalShards addr);
      acc ← real (load r);
      copied ← real (alloc (deepCopyAccount acc));
      _ ← modify (fun s => (<[addr := copied]> (fst s), snd s));
      mret copied
  end.

Definition setAccount (l : loc) : Sim unit :=
  acc ← real (load l);
  modify (fun s => (<[acc_Address acc := l]> (fst s), snd s)).

Definition applyTransfer (tx : Transaction) : Sim unit :=
  sender ← getAccount (tx_From tx);
  receiver ← getAccount (tx_To tx);
  s ← real (load sender);
  _ ← refuse_if (ParseBigInt_bytes (acc_Balance s) <? total_cost tx) SimInsufficientBalance;
  r ← real (load receiver);
  let senderBal := ParseBigInt_bytes (acc_Balance s) - total_cost tx in
  let receiverBal := ParseBigInt_bytes (acc_Balance r) + amount_of tx in
  _ ← real (assign sender (set_Balance (u256_or_nil senderBal)));
  _ ← real (assign sender bump_Nonce);
  _ ← real (assign receiver (set_Balance (u256_or_nil receiverBal)));
  _ ← setAccount sender;
  setAccount receiver.

Definition applyStake (tx : Transaction) : Sim unit :=
  acc ← getAccount (tx_From tx);
  a ← real (load acc);
  let bal := ParseBigInt_bytes (acc_Balance a) in
  _ ← refuse_if (bal <? total_cost tx) SimInsufficientBalance;
  let staked := ParseBigInt_bytes (acc_StakedAmount a) in
  _ ← real (assign acc (set_Balance (u256_or_nil (bal - total_cost tx))));
  _ ← real (assign acc (set_StakedAmount (u256_or_nil (staked + amount_of tx))));
  _ ← real (assign acc bump_Nonce);
  setAccount acc.

Definition applyUnstake (tx : Transaction) : Sim unit :=
  acc ← getAccount (tx_From tx);
  a ← real (load acc);
  let bal := ParseBigInt_bytes (acc_Balance a) in
  let staked := ParseBigInt_bytes (acc_StakedAmount a) in
  _ ← refuse_if (bal <? gas_cost tx) SimInsufficientBalance;
  _ ← refuse_if (staked <? amount_of tx) SimInsufficientStake;
  _ ← real (assign acc (set_Balance (u256_or_nil (bal - gas_cost tx + amount_of tx))));
  _ ← real (assign acc (set_StakedAmount (u256_or_nil (staked - amount_of tx))));
  _ ← real (assign acc bump_Nonce);
  setAccount acc.

Definition applyDelegate (tx : Transaction) : Sim unit :=
  acc ← getAccount (tx_From tx);
  a ← real (load acc);
  let bal := ParseBigInt_bytes (acc_Balance a) in
  _ ← refuse_if (bal <? total_cost tx) SimInsufficientBalance;
  _ ← real (assign acc (set_Balance (u256_or_nil (bal - total_cost tx))));
  _ ← real (assign acc bump_Nonce);
  let existing := ParseBigInt_bytes (default [] (acc_DelegatedTo a !! tx_To tx)) in
  _ ← real (assign acc (fun x => set_DelegatedTo
        (<[tx_To tx := u256_or_nil (existing + amount_of tx)]> (acc_DelegatedTo x)) x));
  setAccount acc.

Definition applyUndelegate (tx : Transaction) : Sim unit :=
  acc ← getAccount (tx_From tx);
  a ← real (load acc);
  let bal := ParseBigInt_bytes (acc_Balance a) in
  let delegated := ParseBigInt_bytes (default [] (acc_DelegatedTo a !! tx_To tx)) in
  _ ← refuse_if (bal <? gas_cost tx) SimInsufficientBalance;
  _ ← refuse_if (delegated <? amount_of tx) SimInsufficientDelegation;
  let left_ := delegated - amount_of tx in
  _ ← real (assign acc (set_Balance (u256_or_nil (bal - gas_cost tx + amount_of tx))));
  _ ← real (assign acc bump_Nonce);
  _ ← real (assign acc (fun x => set_DelegatedTo
        (if Z.sgn left_ =? 0 then delete (tx_To tx) (acc_DelegatedTo x)
         else <[tx_To tx := u256_or_nil left_]> (acc_DelegatedTo x)) x));
  setAccount acc.

Definition applyClaimRewards (tx : Transaction) : Sim unit :=
  acc ← getAccount (tx_From tx);
  a ← real (load acc);
  let bal := ParseBigInt_bytes (acc_Balance a) in
  _ ← refuse_if (bal <? gas_cost tx) SimInsufficientBalance;
  let rewards := ParseBigInt_bytes (acc_Rewards a) in
  _ ← real (assign acc (set_Balance (u256_or_nil (bal - gas_cost tx + rewards))));
  _ ← real (assign acc (set_Rewards []));
  _ ← real (assign acc bump_Nonce);
  setAccount acc.

Definition applyEVMGasCost (tx : Transaction) : Sim unit :=
  acc ← getAccount (tx_From tx);
  a ← real (load acc);
  let bal := ParseBigInt_bytes (acc_Balance a) in
  _ ← refuse_if (bal <? gas_cost tx) SimInsufficientBalance;
  _ ← real (assign acc (set_Balance (u256_or_nil (bal - gas_cost tx))));
  _ ← real (assign acc bump_Nonce);
  setAccount acc.

Definition applyTransaction (tx : Transaction) : Sim unit :=
  match tx_Type tx with
  | TRANSFER => applyTransfer tx
  | STAKE => applyStake tx
  | UNSTAKE => applyUnstake tx
  | DELEGATE => applyDelegate tx
  | UNDELEGATE => applyUndelegate tx
  | CLAIM_REWARDS => applyClaimRewards tx
  | EVM_CONTRACT_CALL | EVM_CONTRACT_DEPLOY => applyEVMGasCost tx
  | _ => throw SimUnknownType
  end.

Fixpoint apply_all (txs : list Transaction) : Sim unit :=
  match txs with
  | [] => mret tt
  | tx :: txs' => _ ← applyTransaction tx; apply_all txs'
  end.

(** The copies win over the stored accounts. *)
Definition merged (overlay : gmap string loc) (h : gmap loc Account) (stored : gmap string Account)
    : gmap string Account :=
  omap (fun l => h !! l) overlay ∪ stored.

Definition calculateStateRootFromOverlay (overlay : gmap string loc) : GoM WorldState sim_err string :=
  realAccounts ← all_accounts;
  s ← get;
  let accounts := merged overlay (heap (w_am (ws_world s))) realAccounts in
  let c := ws_chain s in
  let version := desiredStateRootEncodingVersionForHeight StateEncodingUpgradeHeight c (ch_height c) in
  locked R ValidatorMu (fun s => (Ok (root_of version accounts (w_validators (ws_world s))), s)).

Definition simulated (transactions : list Transaction) : GoM WorldState sim_err (gmap string loc) := fun s =>
  let '(r, (overlay, a)) := apply_all transactions (∅, w_am (ws_world s)) in
  ((_ ← r; Ok overlay), set_world (set_am a (ws_world s)) s).

Definition SimulateStateRoot (transactions : list Transaction) : GoM WorldState sim_err string :=
  locked R ChainMu (
    overlay ← simulated transactions; calculateStateRootFromOverlay overlay).
End WorldState.
