(* ===== verification/StateRootSpec.v ===== *)
(** * The state root: predicted and committed

    [simulated_root_is_committed_root]: for transfers, stakes, unstakes and
    claims the root predicted on copies is the root after executing.  The
    proof relates the copies to the ledger that the executor implements
    ([copies]).  Also here: delegations, for which the two differ, and the
    consistency check, which waits for itself. *)

From S2P Require Import Prelude Uint256 Address Storage AccountManager AccountSpec ShardedLock Governance.
From S2P Require Import Domains EvmGas World Executor ExecutorSpec ExecutorThms StateRoot.
From stdpp Require Import base tactics numbers list gmap strings sorting.
From Stdlib Require Import ZArith Lia Strings.Byte Strings.Ascii.
Open Scope Z_scope.
Open Scope list_scope.

(** ** Objects nobody else holds *)

Section Copies.
Context `{MapOrder} {C : Type} `{LRU C, !LRULaws C}.
Context (Keccak256 : list byte -> list byte) (shardID totalShards : Z).
Notation state := (@am KV C).
Notation inv := (good Keccak256 shardID totalShards ∅).
Notation ok := (ok_addr Keccak256 shardID totalShards).
Notation sim := (gmap string loc * state)%type.
Notation Sim := (GoM sim sim_err).
Notation am_Get := (AccountManager.GetAccount Keccak256 shardID totalShards).
Notation getAccount := (getAccount Keccak256 shardID totalShards).
Notation applyTransaction := (applyTransaction Keccak256 shardID totalShards).

Definition uncached (l : loc) (s : state) : Prop := forall k, lru_view (cache s) !! k <> Some l.

Lemma mutate_uncached s l a' : inv s -> uncached l s -> is_Some (heap s !! l) ->
  inv (set_heap (<[l := a']> (heap s)) s).
Proof.
  intros [Hd Hh Hc Hv] Hu Hl. split; simpl; [done| | |done].
  - intros j. destruct (decide (j = l)) as [->|]; [by intros _; apply Hh|].
    rewrite lookup_insert_ne by done. apply Hh.
  - intros k j Hk. destruct (Hc k j Hk) as (a & Ha & Hrest). exists a. split; [|done].
    rewrite lookup_insert_ne; [done|]. intros ->. by apply (Hu k).
Qed.

(** The manager only ever adds new objects to its cache. *)
Lemma GetAccount_uncached addr s r s' l :
  am_Get addr s = (r, s') -> inv s -> uncached l s -> is_Some (heap s !! l) -> uncached l s'.
Proof.
  intros Hget Hg Hu Hl. assert (Hne : l <> next s) by (intros ->; pose proof (good_heap _ _ _ _ _ Hg _ Hl); lia).
  revert Hget. unfold AccountManager.GetAccount, mbind, GoM_bind, lift, refuse_if.
  destruct (wrap InvalidAddressFormat (Validate addr)) as [[]| | |]; try by intros [= <- <-].
  destruct (BelongsToShard _ _ _ addr); [|by intros [= <- <-]]. cbn. unfold cache_Get.
  pose proof (lru_Get_keeps addr (cache s)) as Hk. destruct (lru_Get addr (cache s)) as [[l0|] c]; cbn in *.
  { intros [= <- <-] k. cbn. rewrite Hk. apply Hu. }
  unfold db_GetAccount. cbn. destruct (Storage.GetAccount addr (db s)) as [o d]. cbn.
  destruct o as [[a|]| | |]; cbn; intros [= <- <-] k; cbn; rewrite ?Hk; try apply Hu.
  destruct (decide (k = addr)) as [->|Hk'].
  - rewrite lru_Add_self. congruence.
  - intros Ha. apply lru_Add_other in Ha; [|done]. rewrite Hk in Ha. by apply (Hu k).
Qed.

(** ** The copies hold the ledger *)

Record copies (base : state) (L : ledger) (s : sim) : Prop := MkCopies {
  cp_inv : inv (snd s);
  cp_quiet : quiet (db (snd s));
  cp_db : db (snd s) = db base;
  cp_copy : forall k l, fst s !! k = Some l -> uncached l (snd s) /\
    exists a, heap (snd s) !! l = Some a /\ acc_Address a = k /\ canon_account a /\ abs_acct a = entry L k;
  cp_rest : forall k, fst s !! k = None -> L !! k = abs base !! k
}.

Lemma copy_loaded base L s addr :
  copies base L s -> ok addr = true ->
  exists l a s', getAccount addr s = (Ok l, s') /\ copies base L s' /\
  fst s' !! addr = Some l /\ fst s ⊆ fst s' /\ heap (snd s') !! l = Some a /\
  heap (snd s) ⊆ heap (snd s') /\ acc_Address a = addr /\ canon_account a /\ abs_acct a = entry L addr /\
  dom (fst s') = {[addr]} ∪ dom (fst s).
Proof.
  intros [Hg Hq Hdb Hcp Hrest] Hok. destruct s as [ov s]. cbn [fst snd] in *.
  unfold StateRoot.getAccount. unfold get, mbind at 1, GoM_bind at 1. destruct (ov !! addr) as [l|] eqn:Hov.
  { destruct (Hcp addr l Hov) as (Hu & a & Hl & Ha & Hc & Hab). exists l, a, (ov, s).
    split_and!; try first [done|reflexivity|by split]. apply elem_of_dom_2 in Hov. cbn. set_solver. }
  destruct (GetAccount_ok Keccak256 shardID totalShards addr s Hg Hq Hok)
    as (r & a & s1 & Hget & Hg1 & Hdb1 & Hr & Hsub & Ha & Hc & Hab & _).
  unfold real, wrapM, on_snd, mbind, GoM_bind. rewrite Hget. cbn. rewrite (load_run r a) by done. cbn.
  destruct (good_alloc _ _ _ s1 (deepCopyAccount a) Hg1) as [Hg2 Hsub2].
  set (l := next s1) in *. set (s2 := MkAM _ _ _ _) in *. exists l, (deepCopyAccount a), (<[addr := l]> ov, s2).
  assert (Hcopy : deepCopyAccount a = a) by by destruct a.
  assert (Hfresh : heap s1 !! l = None) by (apply eq_None_not_Some; intros Hs%(good_heap _ _ _ _ _ Hg1); unfold l in Hs; lia).
  assert (Hbase : abs base = abs s) by (unfold abs; by rewrite Hdb).
  assert (Hent : abs_acct a = entry L addr).
  { rewrite Hab. unfold entry. by rewrite (Hrest addr Hov), Hbase. }
  unfold s2 in *. clear s2. rewrite !Hcopy in *. cbn [fst snd heap next cache db] in *. split_and!; try done.
  - split; cbn [fst snd heap next cache db]; [done| | | |].
    + by rewrite Hdb1.
    + by rewrite Hdb1.
    + intros k j. destruct (decide (k = addr)) as [->|Hk].
      * rewrite lookup_insert_eq. intros [= <-]. split.
        -- intros k Hk. destruct (good_cache _ _ _ _ _ Hg1 k l Hk) as (b & Hb & _). congruence.
        -- exists a. by rewrite lookup_insert_eq.
      * rewrite lookup_insert_ne by done. intros Hj. destruct (Hcp k j Hj) as (Hu & b & Hb & Hrest').
        split; [|exists b; split; [|done]; by eapply lookup_weaken, (transitivity Hsub Hsub2)].
        by apply (GetAccount_uncached addr s (Ok r) s1 j Hget Hg Hu).
    + intros k. destruct (decide (k = addr)) as [->|Hk]; [by rewrite lookup_insert_eq|].
      rewrite lookup_insert_ne by done. apply Hrest.
  - apply lookup_insert_eq.
  - by apply insert_subseteq.
  - apply lookup_insert_eq.
  - by etrans.
  - by rewrite dom_insert_L.
Qed.

Lemma copies_write base L s k l a a' :
  copies base L s -> fst s !! k = Some l -> heap (snd s) !! l = Some a ->
  acc_Address a' = k -> canon_account a' ->
  copies base (<[k := abs_acct a']> L) (fst s, set_heap (<[l := a']> (heap (snd s))) (snd s)).
Proof.
  intros [Hg Hq Hdb Hcp Hrest] Hk Hl Ha Hc. destruct s as [ov s]. cbn [fst snd] in *.
  destruct (Hcp k l Hk) as (Hu & b & Hb & Hbk & _). split; cbn.
  - by apply mutate_uncached.
  - done.
  - done.
  - intros k' l' Hk'. destruct (Hcp k' l' Hk') as (Hu' & b' & Hb' & Hbk' & Hc' & Hab').
    split; [done|]. destruct (decide (k' = k)) as [->|Hne].
    + rewrite Hk in Hk'. injection Hk' as <-. exists a'. unfold entry. by rewrite !lookup_insert_eq.
    + exists b'. unfold entry. rewrite lookup_insert_ne by congruence. by rewrite lookup_insert_ne.
  - intros k' Hk'. rewrite lookup_insert_ne; [by apply Hrest|]. congruence.
Qed.

(** ** The moves of the simulation *)

Lemma real_load {A} l a (s : sim) (k : Account -> Sim A) :
  heap (snd s) !! l = Some a -> (real (load l) ≫= k) s = k a s.
Proof. intros Hl. destruct s. unfold real, wrapM, on_snd, mbind, GoM_bind. cbn. by rewrite (load_run l a). Qed.
Lemma real_assign {A} l f a (s : sim) (k : unit -> Sim A) :
  heap (snd s) !! l = Some a -> (real (assign l f) ≫= k) s =
  k tt (fst s, set_heap (<[l := f a]> (heap (snd s))) (snd s)).
Proof. intros Hl. destruct s. unfold real, wrapM, on_snd, mbind, GoM_bind. cbn. by rewrite (assign_run l f a). Qed.
Lemma real_assign2 {A} l f b ov (s : state) h (k : unit -> Sim A) :
  (real (assign l f) ≫= k) (ov, set_heap (<[l := b]> h) s) = k tt (ov, set_heap (<[l := f b]> h) s).
Proof.
  rewrite (real_assign l f b) by apply lookup_insert_eq. cbn. unfold set_heap. cbn. by rewrite insert_insert_eq.
Qed.
Lemma sim_refuse {A} (c : bool) e (s : sim) (k : unit -> Sim A) : c = false -> (refuse_if c e ≫= k) s = k tt s.
Proof. by intros ->. Qed.

Lemma setAccount_id k l a ov (s : state) : ov !! k = Some l -> heap s !! l = Some a -> acc_Address a = k ->
  setAccount l (ov, s) = (Ok tt, (ov, s)).
Proof.
  intros Hk Hl Ha. unfold setAccount. rewrite (real_load l a) by done. unfold modify. cbn.
  rewrite insert_id; [done|]. by rewrite Ha.
Qed.

(** Between transactions every copy is an account of the ledger. *)
Definition settled (base : state) (L : ledger) (s : sim) : Prop := copies base L s /\ dom (fst s) ⊆ dom L.

(** What the simulation does with a transaction the ledger applies. *)
Definition follows (m : Sim unit) (base : state) (L L' : ledger) : Prop := forall s,
  settled base L s -> exists s', m s = (Ok tt, s') /\ settled base L' s'.

Lemma single_follows tx (body : loc -> Sim unit) (new : Account -> Account) base L x :
  ok (tx_From tx) = true ->
  (forall l a ov (s : state), heap s !! l = Some a -> abs_acct a = entry L (tx_From tx) -> canon_account a ->
     body l (ov, s) = setAccount l (ov, set_heap (<[l := new a]> (heap s)) s) /\
     acc_Address (new a) = acc_Address a /\ canon_account (new a) /\ abs_acct (new a) = x) ->
  follows (getAccount (tx_From tx) ≫= body) base L (<[tx_From tx := x]> L).
Proof.
  intros Hok Hbody s [Hcp Hdom].
  destruct (copy_loaded base L s (tx_From tx) Hcp Hok)
    as (l & a & [ov s1] & Hget & Hcp1 & Hov & _ & Hl & _ & Ha & Hc & Hab & Hd). cbn [fst snd] in *.
  destruct (Hbody l a ov s1 Hl Hab Hc) as (Hrun & Hna & Hnc & Hnx).
  pose proof (copies_write base L (ov, s1) _ l a (new a) Hcp1 Hov Hl) as Hw. cbn [fst snd] in Hw.
  rewrite Hna, Hnx in Hw. specialize (Hw Ha Hnc).
  eexists. unfold mbind, GoM_bind. rewrite Hget, Hrun.
  rewrite (setAccount_id (tx_From tx) l (new a)); [|done|apply lookup_insert_eq|by rewrite Hna].
  split; [done|]. split; [done|]. cbn [fst]. rewrite Hd, dom_insert_L. set_solver.
Qed.

(** Run a body up to its writes. *)
Ltac open_sim Hl Hc :=
  intros l a ov s Hl Hab Hc; pose proof Hc as (Hb & Hst & Hr & Hd);
  rewrite (real_load l a) by done;
  rewrite ?(canon_parse (acc_Balance a)), ?(canon_parse (acc_StakedAmount a)), ?(canon_parse (acc_Rewards a)) by done.
Ltac close_sim l a :=
  rewrite (real_assign l _ a) by done; cbn [fst snd]; rewrite !real_assign2; split; [done|]; split; [done|]; split.

Section Steps.
Context (tx : Transaction) (base : state) (L : ledger) (x : acct).
Hypotheses (Hgas : 0 <= tx_Gas tx) (Hok : ok (tx_From tx) = true)
  (Hvalid : valid_acct (entry L (tx_From tx))) (Hfunds : funds (entry L (tx_From tx)) < two256)
  (Hstep : sender_step tx (entry L (tx_From tx)) = Some x).

(** The guards pass and the amounts stay in range. *)
Ltac enter_step Ht Hab :=
  unfold sender_step in Hstep; rewrite Ht, <-Hab in Hstep; rewrite <-Hab in Hvalid, Hfunds;
  pose proof (amount_nonneg tx); pose proof (gas_cost_nonneg tx Hgas);
  destruct Hvalid as (? & ? & ? & _); unfold funds, total_cost in *;
  cbn [bal staked rewards deleg nonce abs_acct] in *;
  repeat case_if; try done; injection Hstep as <-; zbool.

Lemma stake_follows : tx_Type tx = STAKE -> follows (applyTransaction tx) base L (<[tx_From tx := x]> L).
Proof.
  intros Ht. unfold StateRoot.applyTransaction. rewrite Ht.
  apply (single_follows tx _ (fun a => bump_Nonce (set_StakedAmount
    (u256_or_nil (SetBytes (acc_StakedAmount a) + amount_of tx))
    (set_Balance (u256_or_nil (SetBytes (acc_Balance a) - total_cost tx)) a)))); [done|].
  open_sim Hl Hc. enter_step Ht Hab.
  destruct (u256_canon (SetBytes (acc_Balance a) - (amount_of tx + gas_cost tx))) as [? E1]; [lia|].
  destruct (u256_canon (SetBytes (acc_StakedAmount a) + amount_of tx)) as [? E2]; [lia|].
  rewrite sim_refuse by done. close_sim l a; [done|]. unfold abs_acct, total_cost. simpl. by rewrite E1, E2.
Qed.

Lemma unstake_follows : tx_Type tx = UNSTAKE -> follows (applyTransaction tx) base L (<[tx_From tx := x]> L).
Proof.
  intros Ht. unfold StateRoot.applyTransaction. rewrite Ht.
  apply (single_follows tx _ (fun a => bump_Nonce (set_StakedAmount
    (u256_or_nil (SetBytes (acc_StakedAmount a) - amount_of tx))
    (set_Balance (u256_or_nil (SetBytes (acc_Balance a) - gas_cost tx + amount_of tx)) a)))); [done|].
  open_sim Hl Hc. enter_step Ht Hab.
  destruct (u256_canon (SetBytes (acc_Balance a) - gas_cost tx + amount_of tx)) as [? E1]; [lia|].
  destruct (u256_canon (SetBytes (acc_StakedAmount a) - amount_of tx)) as [? E2]; [lia|].
  rewrite !sim_refuse by (apply Z.ltb_ge; lia). close_sim l a; [done|]. unfold abs_acct. simpl. by rewrite E1, E2.
Qed.

Lemma claim_follows : tx_Type tx = CLAIM_REWARDS -> follows (applyTransaction tx) base L (<[tx_From tx := x]> L).
Proof.
  intros Ht. unfold StateRoot.applyTransaction. rewrite Ht.
  apply (single_follows tx _ (fun a => bump_Nonce (set_Rewards []
    (set_Balance (u256_or_nil (SetBytes (acc_Balance a) - gas_cost tx + SetBytes (acc_Rewards a))) a)))); [done|].
  open_sim Hl Hc. enter_step Ht Hab.
  destruct (u256_canon (SetBytes (acc_Balance a) - gas_cost tx + SetBytes (acc_Rewards a))) as [? E1]; [lia|].
  rewrite sim_refuse by (apply Z.ltb_ge; lia). close_sim l a; [done|]. unfold abs_acct. simpl. by rewrite E1.
Qed.
End Steps.

(** Transfers: the two copies are one object when the sender pays himself. *)
Section TransferSteps.
Context (tx : Transaction) (base : state) (L : ledger).
Let a := entry L (tx_From tx).
Let b := entry L (tx_To tx).
Hypotheses (Hgas : 0 <= tx_Gas tx) (Hokf : ok (tx_From tx) = true) (Hokt : ok (tx_To tx) = true)
  (Hva : valid_acct a) (Hvb : valid_acct b) (Hpay : total_cost tx <= bal a).

Lemma transfer_follows :
  tx_To tx <> tx_From tx -> funds a + funds b < two256 ->
  follows (applyTransfer Keccak256 shardID totalShards tx) base L
    (<[tx_To tx := MkAcct (bal b + amount_of tx) (staked b) (rewards b) (deleg b) (nonce b)]>
      (<[tx_From tx := MkAcct (bal a - total_cost tx) (staked a) (rewards a) (deleg a) (u64 (nonce a + 1))]> L)).
Proof.
  intros Hne Hf s [Hcp Hdom]. unfold applyTransfer.
  destruct (copy_loaded base L s (tx_From tx) Hcp Hokf)
    as (lf & af & s1 & Hget & Hcp1 & Hov & _ & Hl & _ & Haf & Hcf & Habf & Hd1).
  destruct (copy_loaded base L s1 (tx_To tx) Hcp1 Hokt)
    as (lt & at_ & [ov s2] & Hget2 & Hcp2 & Hov2 & Hsub & Hl2 & Hsubh & Hat & Hct & Habt & Hd2). cbn [fst snd] in *.
  unfold mbind at 1, GoM_bind at 1. rewrite Hget. unfold mbind at 1, GoM_bind at 1. rewrite Hget2.
  pose proof (lookup_weaken _ _ _ _ Hl Hsubh) as Hlf. pose proof (lookup_weaken _ _ _ _ Hov Hsub) as Hovf.
  assert (Hll : lf <> lt) by congruence.
  rewrite (real_load lf af) by done. pose proof Hcf as (Hbf & _). pose proof Hct as (Hbt & _).
  rewrite (canon_parse (acc_Balance af)) by done.
  fold a in Habf. fold b in Habt. rewrite <-Habf, <-Habt in *. clear a b Habf Habt.
  pose proof (amount_nonneg tx). pose proof (gas_cost_nonneg tx Hgas).
  destruct Hva as (? & ? & ? & _), Hvb as (? & ? & ? & _). unfold funds, total_cost in *.
  cbn [bal staked rewards deleg nonce abs_acct] in *.
  rewrite sim_refuse by (apply Z.ltb_ge; lia).
  rewrite (real_load lt at_) by done. rewrite (canon_parse (acc_Balance at_)) by done.
  destruct (u256_canon (SetBytes (acc_Balance af) - (amount_of tx + gas_cost tx))) as [? E1]; [lia|].
  destruct (u256_canon (SetBytes (acc_Balance at_) + amount_of tx)) as [? E2]; [lia|].
  rewrite (real_assign lf _ af) by done. cbn [fst snd]. rewrite real_assign2.
  rewrite (real_assign lt _ at_) by (cbn; by rewrite lookup_insert_ne). cbn [fst snd heap set_heap].
  set (pf := bump_Nonce (set_Balance (u256_or_nil (SetBytes (acc_Balance af) - (amount_of tx + gas_cost tx))) af)).
  set (pt := set_Balance (u256_or_nil (SetBytes (acc_Balance at_) + amount_of tx)) at_).
  assert (Hpf : canon_account pf) by (destruct Hcf as (? & ? & ? & ?); by split_and!).
  assert (Hpt : canon_account pt) by (destruct Hct as (? & ? & ? & ?); by split_and!).
  pose proof (copies_write base L (ov, s2) _ lf af pf Hcp2 Hovf Hlf Haf Hpf) as Hcp3.
  pose proof (copies_write base _ _ _ lt at_ pt Hcp3 Hov2) as Hcp4. cbn [fst snd heap set_heap] in Hcp4.
  specialize (Hcp4 ltac:(by rewrite lookup_insert_ne) Hat Hpt).
  eexists. unfold mbind, GoM_bind.
  rewrite (setAccount_id (tx_From tx) lf pf); [|done|cbn; by rewrite lookup_insert_ne, lookup_insert_eq|done].
  rewrite (setAccount_id (tx_To tx) lt pt); [|done|cbn; by rewrite lookup_insert_eq|done].
  split; [reflexivity|]. split.
  - unfold abs_acct, pf, pt in Hcp4. simpl in Hcp4. rewrite E1, E2 in Hcp4. exact Hcp4.
  - cbn [fst]. rewrite Hd2, Hd1, !dom_insert_L. set_solver.
Qed.

Lemma self_transfer_follows :
  tx_To tx = tx_From tx -> bal a + amount_of tx < two256 ->
  follows (applyTransfer Keccak256 shardID totalShards tx) base L
    (<[tx_From tx := MkAcct (bal a + amount_of tx) (staked a) (rewards a) (deleg a) (u64 (nonce a + 1))]> L).
Proof.
  intros Hself Hf s [Hcp Hdom]. unfold applyTransfer. rewrite Hself.
  destruct (copy_loaded base L s (tx_From tx) Hcp Hokf)
    as (l & af & [ov s1] & Hget & Hcp1 & Hov & _ & Hl & _ & Haf & Hcf & Habf & Hd1). cbn [fst snd] in *.
  unfold mbind at 1, GoM_bind at 1. rewrite Hget. unfold mbind at 1, GoM_bind at 1.
  assert (Hget2 : getAccount (tx_From tx) (ov, s1) = (Ok l, (ov, s1))).
  { unfold StateRoot.getAccount, get, mbind, GoM_bind. by rewrite Hov. }
  rewrite Hget2. rewrite !(real_load l af) by done. pose proof Hcf as (Hbf & _).
  rewrite (canon_parse (acc_Balance af)) by done.
  fold a in Habf. rewrite <-Habf in *. clear a b Habf Hvb.
  pose proof (amount_nonneg tx). pose proof (gas_cost_nonneg tx Hgas).
  destruct Hva as (? & ? & ? & _). unfold total_cost in *. cbn [bal staked rewards deleg nonce abs_acct] in *.
  rewrite sim_refuse by (apply Z.ltb_ge; lia). rewrite (real_load l af) by done.
  rewrite ?(canon_parse (acc_Balance af)) by done.
  destruct (u256_canon (SetBytes (acc_Balance af) + amount_of tx)) as [? E1]; [lia|].
  rewrite (real_assign l _ af) by done. cbn [fst snd]. rewrite !real_assign2.
  match goal with |- context [set_heap (<[l := ?y]> _) _] => set (pf := y) end.
  assert (Hpf : canon_account pf) by (destruct Hcf as (? & ? & ? & ?); by split_and!).
  pose proof (copies_write base L (ov, s1) _ l af pf Hcp1 Hov Hl Haf Hpf) as Hcp2. cbn [fst snd] in Hcp2.
  eexists. unfold mbind, GoM_bind.
  rewrite !(setAccount_id (tx_From tx) l pf); try done; try (cbn; apply lookup_insert_eq).
  split; [reflexivity|]. split.
  - unfold abs_acct, pf in Hcp2. simpl in Hcp2. rewrite E1 in Hcp2. exact Hcp2.
  - cbn [fst]. rewrite Hd1, dom_insert_L. set_solver.
Qed.
End TransferSteps.

(** The types the simulation treats as the executor does. *)
Definition simulable (ty : TransactionType) : bool :=
  match ty with TRANSFER | STAKE | UNSTAKE | CLAIM_REWARDS => true | _ => false end.

(** [twin] is the executor's account manager, holding the same ledger. *)
Lemma step_follows tx base (twin : state) L' :
  simulable (tx_Type tx) = true -> inv twin -> supply (abs twin) + self_mint tx < two256 ->
  ledger_step ok (CalculateShardID Keccak256 totalShards) tx (abs twin) = Applied L' ->
  follows (applyTransaction tx) base (abs twin) L'.
Proof.
  intros Ht Hg Hs Hl.
  destruct (funds_le_supply _ _ _ twin (tx_From tx) Hg) as [Hf Hv].
  destruct (funds_le_supply _ _ _ twin (tx_To tx) Hg) as [_ Hvt].
  unfold ledger_step in Hl. destruct (_ || (tx_Gas tx <=? 0)) eqn:Hgas; [done|].
  assert (Hgas' : 0 <= tx_Gas tx) by (apply orb_false_iff in Hgas as [_ Hgas]; zbool; lia).
  unfold self_mint in Hs. destruct (tx_Type tx) eqn:Hty; try done.
  - destruct (negb _) eqn:Hsh in Hl; [done|]. unfold transfer_verdict in Hl.
    destruct (ok (tx_From tx)) eqn:Hokf; [|done]. destruct (ok (tx_To tx)) eqn:Hokt; [|done]. cbn [negb orb] in Hl.
    destruct (_ || (bal (entry (abs twin) (tx_From tx)) <? total_cost tx)) eqn:Hb; [done|].
    apply orb_false_iff in Hb as [_ Hb]. zbool. unfold StateRoot.applyTransaction. rewrite Hty.
    case_bool_decide as Hself; injection Hl as <-.
    + apply self_transfer_follows; try done. destruct Hv as (? & ? & ? & _). unfold funds in *. lia.
    + apply transfer_follows; try done.
      pose proof (funds_two _ _ _ twin (tx_From tx) (tx_To tx) Hg ltac:(done)). lia.
  - unfold single_verdict in Hl. destruct (ok (tx_From tx)) eqn:Hok; [|done]. cbn [negb] in Hl.
    destruct (sender_step tx _) as [x|] eqn:Hx; [|done]. destruct (valid_acctb x); [|done]. injection Hl as <-.
    apply stake_follows; try done; lia.
  - unfold single_verdict in Hl. destruct (ok (tx_From tx)) eqn:Hok; [|done]. cbn [negb] in Hl.
    destruct (sender_step tx _) as [x|] eqn:Hx; [|done]. destruct (valid_acctb x); [|done]. injection Hl as <-.
    apply unstake_follows; try done; lia.
  - unfold single_verdict in Hl. destruct (ok (tx_From tx)) eqn:Hok; [|done]. cbn [negb] in Hl.
    destruct (sender_step tx _) as [x|] eqn:Hx; [|done]. destruct (valid_acctb x); [|done]. injection Hl as <-.
    apply claim_follows; try done; lia.
Qed.

(** ** The serialised state *)

(** Two canonical accounts with the same amounts serialise alike. *)
Lemma canon_inj b1 b2 : canon b1 -> canon b2 -> SetBytes b1 = SetBytes b2 -> b1 = b2.
Proof. intros H1' H2' He. apply canon_encode in H1', H2'. rewrite He, H2' in H1'. by injection H1'. Qed.

Lemma account_data_abs v a1 a2 :
  canon_account a1 -> canon_account a2 -> acc_Address a1 = acc_Address a2 -> abs_acct a1 = abs_acct a2 ->
  account_data v a1 = account_data v a2.
Proof.
  intros (Hb1 & Hs1 & Hr1 & Hd1) (Hb2 & Hs2 & Hr2 & Hd2) Ha [= Hb Hs Hr Hd Hn]. unfold account_data.
  rewrite Ha, Hn, (canon_inj _ _ Hb1 Hb2 Hb), (canon_inj _ _ Hs1 Hs2 Hs), (canon_inj _ _ Hr1 Hr2 Hr).
  assert (acc_DelegatedTo a1 = acc_DelegatedTo a2) as ->; [|done]. apply map_eq. intros k. apply (f_equal (fun m => m !! k)) in Hd. rewrite !lookup_fmap in Hd.
  destruct (acc_DelegatedTo a1 !! k) as [v1|] eqn:H1', (acc_DelegatedTo a2 !! k) as [v2|] eqn:H2'; try done.
  injection Hd as Hd. f_equal. by apply canon_inj; [apply (Hd1 k)|apply (Hd2 k)|].
Qed.

Definition presentable (m : gmap string Account) : Prop :=
  forall k a, m !! k = Some a -> canon_account a /\ acc_Address a = k.

(** The addresses of equal domains sort alike, whatever order they come in. *)
Lemma sorted_keys {V1 V2} (m1 : gmap string V1) (m2 : gmap string V2) :
  dom m1 = dom m2 -> sort_strings (map_order m1) = sort_strings (map_order m2).
Proof.
  intros Hd. unfold sort_strings.
  apply (Sorted_unique String.le); [apply (Sorted_merge_sort String.le)..|].
  rewrite !merge_sort_Permutation. apply NoDup_Permutation; [apply map_order_NoDup..|].
  intros k. by rewrite !map_order_elem, Hd.
Qed.

Lemma state_data_abs v vals m1 m2 :
  presentable m1 -> presentable m2 -> abs_acct <$> m1 = abs_acct <$> m2 ->
  state_data v m1 vals = state_data v m2 vals.
Proof.
  intros Hp1 Hp2 He. unfold state_data, in_order. f_equal.
  rewrite (sorted_keys m1 m2) by (apply (f_equal dom) in He; by rewrite !dom_fmap_L in He).
  apply list_bind_ext; [|done]. intros k. apply (f_equal (fun m => m !! k)) in He. rewrite !lookup_fmap in He.
  destruct (m1 !! k) as [a1|] eqn:H1', (m2 !! k) as [a2|] eqn:H2'; try done. apply (inj Some) in He.
  destruct (Hp1 k a1 H1'), (Hp2 k a2 H2'). apply account_data_abs; first [done|congruence].
Qed.

(** What the copies and the stored accounts amount to. *)
Lemma merged_abs base L (s : sim) :
  settled base L s -> abs_acct <$> merged (fst s) (heap (snd s)) (dbView (db (snd s))) = L /\
  presentable (merged (fst s) (heap (snd s)) (dbView (db (snd s)))).
Proof.
  intros [[Hg Hq Hdb Hcp Hrest] Hdom]. destruct s as [ov s]. cbn [fst snd] in *.
  assert (Hlook : forall k, merged ov (heap s) (dbView (db s)) !! k =
    match ov !! k with Some l => heap s !! l | None => dbView (db s) !! k end).
  { intros k. unfold merged. rewrite lookup_union, lookup_omap. destruct (ov !! k) as [l|] eqn:Hk; cbn.
    - destruct (Hcp k l Hk) as (_ & a & -> & _). by destruct (accounts_view (db s) !! k).
    - by destruct (accounts_view (db s) !! k). }
  split.
  - apply map_eq. intros k. rewrite lookup_fmap, Hlook. destruct (ov !! k) as [l|] eqn:Hk.
    + destruct (Hcp k l Hk) as (_ & a & -> & _ & _ & Ha). cbn.
      assert (Hin : k ∈ dom L) by (apply Hdom; by apply elem_of_dom_2 in Hk).
      apply elem_of_dom in Hin as [x Hx]. rewrite Ha. unfold entry. by rewrite Hx.
    + rewrite (Hrest k Hk). unfold abs. by rewrite lookup_fmap, Hdb.
  - intros k a. rewrite Hlook. destruct (ov !! k) as [l|] eqn:Hk.
    + destruct (Hcp k l Hk) as (_ & b & -> & ? & ? & _). by intros [= <-].
    + intros Hk'. destruct (good_entry _ _ _ _ _ k a Hg Hk') as (? & ? & _). done.
Qed.
End Copies.

(** ** Predicted and committed *)

Section Joint.
Context `{MapOrder} {C F : Type} `{LRU C, !LRULaws C} `{Float64 F}.
Context `{Json Proposal, Json ProposalPayload, Json VotePayload, Json FinalizePayload,
          Json stakeDomainMembers}.
Context (Keccak256 HexToAddress : list byte -> list byte) (shardID totalShards : Z) (ChainID : string).
Context (engine : evm_engine (@world C F)).
Notation wgood := (wgood Keccak256 shardID totalShards).
Notation run_txs := (run_txs Keccak256 HexToAddress shardID totalShards ChainID engine).
Notation spec_txs := (spec_txs Keccak256 shardID totalShards).
Notation exec_spec := (exec_spec Keccak256 shardID totalShards).
Notation item := (Z * Z * Transaction)%type.

(** A transaction in canonical form of a type both sides treat alike. *)
Definition alike (i : item) : Prop :=
  simulable (tx_Type (snd i)) = true /\ normalized (snd i) = Some (snd i).

Lemma alike_plain i : alike i -> plain (tx_Type (snd i)) = true.
Proof. intros [Hs _]. by destruct (tx_Type (snd i)). Qed.

Lemma joint_run items : forall N (w : @world C F) bs N' L' base s,
  Forall alike items -> Forall (eq true) bs ->
  wgood w -> nonce_rel N (db (w_am w)) ->
  supply (abs (w_am w)) + total_self_mint items < two256 ->
  spec_txs items (N, abs (w_am w)) = Some (bs, (N', L')) ->
  settled Keccak256 shardID totalShards base (abs (w_am w)) s ->
  exists s', apply_all Keccak256 shardID totalShards (snd <$> items) s = (Ok tt, s') /\
    settled Keccak256 shardID totalShards base L' s'.
Proof.
  induction items as [|[[n1 n2] tx] items IH]; intros N w bs N' L' base s Hal Hbs Hw HN Hs Hspec Hset.
  { injection Hspec as <- <- <-. by exists s. }
  apply Forall_cons in Hal as [[Hsim Hnorm] Hal]. cbn [snd] in Hsim, Hnorm.
  cbn [ExecutorSpec.spec_txs] in Hspec. unfold total_self_mint in Hs. cbn [foldr snd] in Hs. fold (total_self_mint items) in Hs.
  pose proof (total_self_mint_nonneg items).
  destruct (exec_spec tx (N, abs (w_am w))) as [[b [N1 L1]]|] eqn:Hex; [|done]. simpl in Hspec.
  destruct (spec_txs items (N1, L1)) as [[bs1 NL]|] eqn:Hrest; [|done]. simpl in Hspec. injection Hspec as <- Hnl.
  apply Forall_cons in Hbs as [<- Hbs].
  assert (Hplain : plain (tx_Type tx) = true) by (by destruct (tx_Type tx)).
  destruct (execute_meets Keccak256 HexToAddress shardID totalShards ChainID engine tx n1 n2 N w Hplain Hw HN)
    as (r & w1 & _ & Hres); [lia|]. rewrite Hex in Hres. destruct Hres as (Hw1 & HN1 & Habs & _).
  pose proof (exec_spec_supply _ _ _ _ _ _ _ _ _ Hex) as Hsup. pose proof (burned_mint _ _ _ _ _ _ _ _ _ Hex) as [Hm Hb].
  assert (Hstep : ledger_step (ok_addr Keccak256 shardID totalShards) (CalculateShardID Keccak256 totalShards) tx (abs (w_am w)) = Applied L1).
  { unfold ExecutorSpec.exec_spec in Hex. rewrite Hnorm in Hex.
    destruct (negb _); [done|]. by destruct (ledger_step _ _ _ _); simplify_eq. }
  assert (Hmint : mint_of tx = self_mint tx) by (unfold mint_of; by rewrite Hnorm).
  destruct (step_follows Keccak256 shardID totalShards tx base (w_am w) L1 Hsim (wg_inv _ _ _ _ Hw) ltac:(lia) Hstep s Hset)
    as (s1 & Hrun1 & Hset1).
  rewrite <-Habs in *. destruct NL as [N2 L2]. injection Hnl as <- <-.
  destruct (IH N1 w1 bs1 N2 L2 base s1 Hal Hbs Hw1 HN1 ltac:(lia) Hrest Hset1) as (s' & Hrun & Hset').
  exists s'. split; [|done]. rewrite fmap_cons. cbn [snd apply_all]. unfold mbind, GoM_bind. by rewrite Hrun1.
Qed.

Lemma settled_start (a : @am KV C) : good Keccak256 shardID totalShards ∅ a -> quiet (db a) ->
  settled Keccak256 shardID totalShards a (abs a) (∅, a).
Proof.
  intros Hg Hq. split; [split; cbn [fst snd]; try done|cbn [fst]; set_solver].
Qed.

(** All mutexes of the world state free. *)
Definition free (s : @WorldState C F) : Prop := forall x, ws_mutex s x = unlocked.

Lemma all_accounts_quiet {E} (s : @WorldState C F) :
  good Keccak256 shardID totalShards ∅ (w_am (ws_world s)) -> quiet (db (w_am (ws_world s))) ->
  all_accounts (E:=E) s = (Ok (dbView (db (w_am (ws_world s)))), s).
Proof.
  intros Hg Hq. unfold all_accounts, on_world, AccountManager.GetAllAccounts.
  rewrite (dbAll_quiet _ (good_db _ _ _ _ _ Hg) Hq). by destruct s as [[[]]].
Qed.

Context (upgrade : Z).

Lemma simulate_run (s : @WorldState C F) txs ov a :
  free s -> apply_all Keccak256 shardID totalShards txs (∅, w_am (ws_world s)) = (Ok tt, (ov, a)) ->
  good Keccak256 shardID totalShards ∅ a -> quiet (db a) ->
  fst (SimulateStateRoot Keccak256 shardID totalShards upgrade txs s) =
    Ok (root_of Keccak256 (desiredStateRootEncodingVersionForHeight upgrade (ws_chain s) (ch_height (ws_chain s)))
          (merged ov (heap a) (dbView (db a))) (w_validators (ws_world s))).
Proof.
  intros Hf Hrun Hg Hq. destruct s as [w c mut]. unfold free in Hf. cbn [ws_mutex ws_world ws_chain] in *.
  unfold SimulateStateRoot, locked. unfold mbind at 1, GoM_bind at 1. unfold mutex_op at 1. cbn [ws_mutex].
  rewrite Hf. cbn [mutex_call unlocked writer readers]. unfold releasing.
  unfold mbind at 1, GoM_bind at 1. unfold simulated. cbn [ws_world set_mutex]. rewrite Hrun. cbn [mbind outcome_bind].
  unfold calculateStateRootFromOverlay. unfold mbind at 1, GoM_bind at 1.
  rewrite all_accounts_quiet by done. cbn [set_world ws_world w_am set_am].
  unfold get. unfold mbind at 1, GoM_bind at 1. unfold locked, releasing, mutex_op, mbind, GoM_bind.
  cbn. rewrite !Hf. reflexivity.
Qed.

Lemma update_run {E} (s : @WorldState C F) :
  free s -> good Keccak256 shardID totalShards ∅ (w_am (ws_world s)) -> quiet (db (w_am (ws_world s))) ->
  exists s', updateStateRoot Keccak256 upgrade (E:=E) s = (Ok tt, s') /\
    ch_stateRoot (ws_chain s') =
      root_of Keccak256 (desiredStateRootEncodingVersionForHeight upgrade (ws_chain s) (ch_height (ws_chain s)))
        (dbView (db (w_am (ws_world s)))) (w_validators (ws_world s)).
Proof.
  intros Hf Hg Hq. destruct s as [w c mut]. unfold free in Hf. cbn [ws_mutex ws_world ws_chain] in *.
  eexists. split.
  - unfold updateStateRoot, apply_version, locked, releasing, mutex_op. unfold mbind at 1, GoM_bind at 1.
    unfold mbind at 1, GoM_bind at 1. cbn [ws_mutex ws_world ws_chain]. rewrite Hf. cbn.
    unfold mbind, GoM_bind. rewrite all_accounts_quiet by done. reflexivity.
  - reflexivity.
Qed.

(** C8. The root a node predicts for a block is the root it commits.  For a block of
    transfers, stakes, unstakes and claims that all execute, simulating it on
    copies from a healthy state gives the root that executing it and hashing the
    stored accounts gives, whatever the hash function and the order in which Go
    walks its maps, as long as the encoding version is the same at both heights. *)
Theorem simulated_root_is_committed_root items N (s : @WorldState C F) bs N' L' h :
  Forall alike items -> Forall (eq true) bs -> free s -> wgood (ws_world s) ->
  nonce_rel N (db (w_am (ws_world s))) ->
  supply (abs (w_am (ws_world s))) + total_self_mint items < two256 ->
  spec_txs items (N, abs (w_am (ws_world s))) = Some (bs, (N', L')) ->
  desiredStateRootEncodingVersionForHeight upgrade (ws_chain s) h =
  desiredStateRootEncodingVersionForHeight upgrade (ws_chain s) (ch_height (ws_chain s)) ->
  exists w' s', run_txs items (ws_world s) = Some (bs, w') /\
    updateStateRoot Keccak256 upgrade (E:=check_err)
      (MkWS w' (MkChain h (ch_stateRoot (ws_chain s)) (ch_version (ws_chain s))) (ws_mutex s)) = (Ok tt, s') /\
    fst (SimulateStateRoot Keccak256 shardID totalShards upgrade (snd <$> items) s) = Ok (ch_stateRoot (ws_chain s')).
Proof.
  intros Hal Hbs Hf Hw HN Hs Hspec Hver.
  assert (Hplain : Forall (fun i => plain (tx_Type (snd i)) = true) items)
    by (eapply Forall_impl; [exact Hal|exact alike_plain]).
  destruct (run_txs_meets Keccak256 HexToAddress shardID totalShards ChainID engine items N (ws_world s) bs N' L'
    Hplain Hw HN Hs Hspec) as (w' & Hrun & Hw' & _ & Habs & _).
  pose proof (run_txs_frame _ _ _ _ _ _ _ _ _ _ Hplain (wg_locks _ _ _ _ Hw) Hrun) as (_ & Hvals & _).
  pose proof (settled_start (w_am (ws_world s)) (wg_inv _ _ _ _ Hw) (wg_quiet _ _ _ _ Hw)) as Hset.
  destruct (joint_run items N (ws_world s) bs N' L' _ _ Hal Hbs Hw HN Hs Hspec Hset) as ([ov a] & Hsim & Hset').
  pose proof Hset' as [[Hg Hq _ _ _] _]. cbn [snd] in Hg, Hq.
  set (s1 := MkWS w' (MkChain h (ch_stateRoot (ws_chain s)) (ch_version (ws_chain s))) (ws_mutex s)).
  destruct (update_run (E:=check_err) s1 Hf (wg_inv _ _ _ _ Hw') (wg_quiet _ _ _ _ Hw')) as (s' & Hupd & Hroot).
  exists w', s'. split; [done|]. split; [done|].
  rewrite (simulate_run s _ ov a Hf Hsim Hg Hq), Hroot. cbn [ws_world ws_chain ch_height s1]. rewrite Hvals.
  unfold root_of. f_equal. f_equal. f_equal.
  assert (Hv2 : desiredStateRootEncodingVersionForHeight upgrade
    (MkChain h (ch_stateRoot (ws_chain s)) (ch_version (ws_chain s))) h =
    desiredStateRootEncodingVersionForHeight upgrade (ws_chain s) h) by done.
  rewrite Hv2, Hver. destruct (merged_abs _ _ _ _ _ _ Hset') as [Hm Hp]. cbn [fst snd] in Hm, Hp.
  apply state_data_abs; [done| |by rewrite Hm, <-Habs].
  intros k x Hk. destruct (good_entry _ _ _ _ _ k x (wg_inv _ _ _ _ Hw') Hk) as (? & ? & _). done.
Qed.

(** A block with a governance transaction has no predicted root: whatever its
    other transactions and the state, the simulation returns an error, so the
    block is refused by every node that checks it. *)
Theorem governance_blocks_cannot_be_simulated (s : @WorldState C F) txs tx :
  tx ∈ txs ->
  match tx_Type tx with GOVERNANCE_PROPOSE | GOVERNANCE_VOTE | GOVERNANCE_FINALIZE => True | _ => False end ->
  is_ok (fst (SimulateStateRoot Keccak256 shardID totalShards upgrade txs s)) = false.
Proof.
  intros Hin Ht.
  assert (Hall : forall sm, is_ok (fst (apply_all Keccak256 shardID totalShards txs sm)) = false).
  { induction txs as [|t txs IH]; [by apply not_elem_of_nil in Hin|]. intros sm. cbn [apply_all].
    unfold mbind, GoM_bind. apply elem_of_cons in Hin as [->|Hin].
    - unfold applyTransaction. by destruct (tx_Type t).
    - destruct (applyTransaction _ _ _ t sm) as [[]  sm1]; [by apply IH|done..]. }
  unfold SimulateStateRoot, locked, mbind, GoM_bind, mutex_op. destruct (mutex_call _ _ _) as [[]|]; try done.
  unfold releasing, simulated, mbind, GoM_bind. cbn [set_mutex ws_world].
  specialize (Hall (∅, w_am (ws_world s))). destruct (apply_all _ _ _ txs _) as [r [ov am1]].
  destruct r; try done; cbn; unfold mutex_op; by destruct (mutex_call _ _ _) as [[]|].
Qed.

(** ** The consistency check *)

(** [m] waits forever with the mutexes as in [held], or fails leaving them as in [left_]. *)
Definition fails {E A} (m : GoM (@WorldState C F) E A) (s : WorldState) (held left_ : mu -> RWMutex) : Prop :=
  exists r s', m s = (r, s') /\
  ((r = Hang /\ forall y, ws_mutex s' y = held y) \/ ((exists e, r = Err e) /\ forall y, ws_mutex s' y = left_ y)).

Lemma fails_locked {E A} x (body : GoM (@WorldState C F) E A) s held :
  ws_mutex s x = unlocked ->
  fails body (set_mutex x (MkRW false 1) s) held (ws_mutex (set_mutex x (MkRW false 1) s)) ->
  fails (locked R x body) s held (ws_mutex s).
Proof.
  intros Hx (r & s1 & Hbody & Hcase). unfold fails, locked. unfold mbind, GoM_bind, mutex_op at 1. rewrite Hx.
  cbn [mutex_call unlocked writer readers]. unfold releasing. rewrite Hbody.
  destruct Hcase as [[-> Hm]|[[e ->] Hm]].
  - exists Hang, s1. split; [done|]. by left.
  - unfold mutex_op. rewrite (Hm x). assert (Hsx : ws_mutex (set_mutex x (MkRW false 1) s) x = MkRW false 1) by by destruct x.
    rewrite Hsx. cbn [mutex_call readers writer]. eexists _, _. split; [reflexivity|]. right. split; [by eexists|].
    intros y. cbn [set_mutex ws_mutex]. destruct x, y; rewrite ?Hm; cbn; by rewrite ?Hx.
Qed.

Lemma check_all_cases {V} check (m : gmap string V) keys :
  (forall k v, check k v = Ok tt \/ exists e, check k v = Err e) ->
  check_all check m keys = Ok tt \/ exists e, check_all check m keys = Err e.
Proof.
  intros Hc. induction keys as [|k keys IH]; [by left|]. cbn [check_all]. destruct (m !! k) as [v|]; [|done].
  destruct (Hc k v) as [->|[e ->]]; [exact IH|right; by exists e].
Qed.

Lemma check_account_cases k a : check_account k a = Ok tt \/ exists e, check_account k a = Err e.
Proof.
  unfold check_account. destruct (_ || _); [right; by eexists|].
  destruct (Validate_cases k) as [->|[e ->]]; [by left|right; by eexists].
Qed.
Lemma check_validator_cases m k v : check_validator m k v = Ok tt \/ exists e, check_validator m k v = Err e.
Proof.
  unfold check_validator. destruct (_ || _); [right; by eexists|].
  destruct (Validate_cases k) as [->|[e ->]]; cbn; [|right; by eexists]. destruct (_ <? _); [right; by eexists|by left].
Qed.

Lemma all_accounts_keeps {E} (s : @WorldState C F) :
  exists m s', all_accounts (E:=E) s = (Ok m, s') /\ ws_mutex s' = ws_mutex s.
Proof.
  unfold all_accounts, on_world. destruct (AccountManager.GetAllAccounts (w_am (ws_world s))) as [m a1].
  by eexists _, _.
Qed.

(** The consistency check waits for itself.  It holds the state-root mutex for
    reading while it recomputes the root, which locks that mutex for writing: from
    free mutexes it either refuses an account or a validator, or it never comes
    back, still holding the chain, validator and state-root mutexes, so that no
    block can be added again. *)
Theorem consistency_check_deadlocks MinValidatorStake (s : @WorldState C F) :
  free s ->
  let '(r, s') := ValidateStateConsistency Keccak256 upgrade MinValidatorStake s in
  (exists e, r = Err e /\ free s') \/
  (r = Hang /\ forall x, mutex_call true W (ws_mutex s' x) = None).
Proof.
  intros Hf. set (held := fun _ : mu => MkRW false 1).
  assert (Hfail : fails (ValidateStateConsistency Keccak256 upgrade MinValidatorStake) s held (ws_mutex s)).
  2: { destruct Hfail as (r & s' & Hrun & [[-> Hm]|[[e ->] Hm]]); rewrite Hrun; [right|left].
       - split; [done|]. intros x. by rewrite Hm.
       - exists e. split; [done|]. intros x. by rewrite Hm. }
  unfold ValidateStateConsistency. do 3 (apply fails_locked; [cbn; apply Hf|]).
  match goal with |- fails _ ?s0 _ _ => set (s3 := s0) end.
  destruct (all_accounts_keeps (E:=check_err) s3) as (m & s4 & Hall & Hmu).
  assert (Hheld : forall y, ws_mutex s4 y = held y) by (intros y; rewrite Hmu; by destruct y).
  assert (Hleft : forall y, ws_mutex s4 y = ws_mutex s3 y) by (intros y; by rewrite Hmu).
  unfold fails. unfold mbind at 1, GoM_bind at 1. rewrite Hall. unfold mbind at 1, GoM_bind at 1, lift.
  destruct (check_all_cases check_account m (map_order m) check_account_cases) as [->|[e ->]]; [|by eauto 10].
  unfold get, mbind, GoM_bind, lift.
  destruct (check_all_cases (check_validator MinValidatorStake) (w_validators (ws_world s4))
    (map_order (w_validators (ws_world s4))) (check_validator_cases MinValidatorStake)) as [->|[e ->]]; [|by eauto 10].
  unfold updateStateRoot, apply_version, locked, mutex_op, mbind, GoM_bind. rewrite (Hheld StateRootMu). cbn. eauto 10.
Qed.
End Joint.

(** ** A concrete node *)

#[local] Instance demo_LRU4 : LRU (list (string * loc)) := list_LRU 1.
#[local] Instance demo_LRU4_laws : LRULaws (list (string * loc)) := list_LRU_laws 1.
#[local] Instance demo_float4 : Float64 permille := permille_float.
#[local] Instance demo_json4 {A} `{Countable A} : Json A := text_codec.

(** The bytes themselves for a hash, at height 5 with the canonical encoding. *)
Definition demo_node : @WorldState (list (string * loc)) permille :=
  MkWS (boot demo_kv) (MkChain 5 "" 2) (fun _ => unlocked).
Definition demo_block : list (Z * Z * Transaction) :=
  (fun tx => (0, 0, tx)) <$> [demo_tx TRANSFER alice bob (10 ^ 19) 0; demo_tx STAKE bob "" (2 * 10 ^ 18) 0].

Lemma demo_node_good : wgood id BeaconShardID 1 (ws_world demo_node).
Proof. destruct start_inv as [Hd Hh Hc Hv]. split; [split; [exact Hd|exact Hh|exact Hc|exact Hv]|done|done]. Qed.

Lemma simulated_root_is_committed_root_witness :
  exists w' s', run_txs id id BeaconShardID 1 "1" no_engine demo_block (ws_world demo_node) = Some ([true; true], w') /\
    updateStateRoot id 0 (E:=check_err) (MkWS w' (MkChain 6 "" 2) (fun _ => unlocked)) = (Ok tt, s') /\
    fst (SimulateStateRoot id BeaconShardID 1 0 (snd <$> demo_block) demo_node) = Ok (ch_stateRoot (ws_chain s')).
Proof.
  assert (Hspec : exists NL, spec_txs id BeaconShardID 1 demo_block (∅, abs (w_am (ws_world demo_node))) = Some ([true; true], NL)).
  { assert (Hfst : fst <$> spec_txs id BeaconShardID 1 demo_block (∅, abs (w_am (ws_world demo_node))) = Some [true; true])
      by (vm_compute; reflexivity).
    destruct (spec_txs _ _ _ _ _) as [[bs NL]|]; [|done]. injection Hfst as ->. by exists NL. }
  destruct Hspec as [[N' L'] Hspec].
  apply (simulated_root_is_committed_root id id BeaconShardID 1 "1" no_engine 0 demo_block ∅ demo_node [true; true] N' L' 6).
  - repeat constructor; vm_compute; reflexivity.
  - repeat constructor.
  - intros x. reflexivity.
  - exact demo_node_good.
  - exact boot_nonces.
  - vm_compute. reflexivity.
  - exact Hspec.
  - reflexivity.
Defined.

Lemma governance_blocks_cannot_be_simulated_witness :
  is_ok (fst (SimulateStateRoot id BeaconShardID 1 0
    [demo_tx TRANSFER alice bob 5 0; demo_tx GOVERNANCE_VOTE alice "" 0 1] demo_node)) = false.
Proof.
  apply (governance_blocks_cannot_be_simulated id BeaconShardID 1 0 demo_node _ (demo_tx GOVERNANCE_VOTE alice "" 0 1)).
  - set_solver.
  - exact I.
Defined.

Lemma consistency_check_deadlocks_witness :
  fst (ValidateStateConsistency id 0 "0" demo_node) = Hang /\
  mutex_call true W (ws_mutex (snd (ValidateStateConsistency id 0 "0" demo_node)) ChainMu) = None.
Proof.
  assert (Hhang : is_err (fst (ValidateStateConsistency id 0 "0" demo_node)) = false) by (vm_compute; reflexivity).
  pose proof (consistency_check_deadlocks id 0 "0" demo_node (fun _ => eq_refl)) as Hd.
  destruct (ValidateStateConsistency id 0 "0" demo_node) as [r s'].
  destruct Hd as [(e & -> & _)|[-> Hm]]; [discriminate Hhang|]. exact (conj eq_refl (Hm ChainMu)).
Defined.

(** Whether a block of one transaction executes on that node, the root predicted for
    it and the root committed after it. *)
Definition roots_of (tx : Transaction) : bool * option string * string :=
  let '(r, w') := ExecuteTransaction id id BeaconShardID 1 "1" true no_engine 0 0 (Some tx) (ws_world demo_node) in
  let '(_, s') := updateStateRoot id 0 (E:=check_err) (MkWS w' (MkChain 6 "" 2) (fun _ => unlocked)) in
  (is_ok r, match SimulateStateRoot id BeaconShardID 1 0 [tx] demo_node with (Ok root, _) => Some root | _ => None end,
   ch_stateRoot (ws_chain s')).

(** A delegation splits prediction and execution.  Executing it adds the amount
    to the staked total of the sender, simulating it does not: the two roots of a
    block with one valid delegation differ, so the block is refused by every node
    that checks it. *)
Theorem delegation_splits_the_root :
  let '(executed, predicted, committed) := roots_of (demo_tx DELEGATE alice bob (10 ^ 18) 0) in
  executed = true /\ exists root, predicted = Some root /\ root <> committed.
Proof. vm_compute. split; [reflexivity|]. eexists. split; [reflexivity|discriminate]. Qed.

(** Under the legacy encoding, amounts run together: an account with stake 5 and no
    rewards and one with no stake and rewards 5 have the same serialisation. *)
Theorem legacy_encoding_is_ambiguous :
  let a s r := MkAccount alice (Bytes 7) 0 (Bytes s) ∅ (Bytes r) [] [] in
  account_data stateRootEncodingVersionLegacy (a 5 0) = account_data stateRootEncodingVersionLegacy (a 0 5) /\
  account_data stateRootEncodingVersionCanonical (a 5 0) <> account_data stateRootEncodingVersionCanonical (a 0 5).
Proof. split; vm_compute; [reflexivity|discriminate]. Qed.
