(* ===== verification/Hashes.v ===== *)
(** * Hashes and Merkle trees (src/crypto/hash/hash.go)

    The 32-byte hash type, its text forms, the combinators on it and the Merkle
    root of a list of hashes.  Keccak-256 is go-ethereum's: an argument. *)

From S2P Require Import Prelude Uint256 Address Storage.
From stdpp Require Import base tactics numbers list gmap strings.
From Stdlib Require Import ZArith Lia Strings.Byte Strings.Ascii.
Open Scope Z_scope.
Open Scope list_scope.

Definition HashSize : nat := 32.
Definition Hash : Type := list byte.

(** [copy(hash[:], data)] into a zeroed array. *)
Definition to_array (data : list byte) : Hash := resize HashSize x00 data.

Inductive hash_err : Type :=
| InvalidHexString (e : address_err)
| WrongHashSize (got : Z).

Definition NullHash : Hash := replicate HashSize x00.

(** ** Parsing and printing *)

Definition Hash_FromBytes (data : list byte) : outcome hash_err Hash :=
  if negb (length data =? HashSize)%nat then Err (WrongHashSize (Z.of_nat (length data)))
  else Ok (to_array data).

Definition strip_0x (str : string) : string :=
  if HasPrefix str "0x" then of_chars (drop 2 (chars str)) else str.

Definition Hash_FromString (str : string) : outcome hash_err Hash :=
  data ← wrap InvalidHexString (DecodeString (strip_0x str));
  Hash_FromBytes data.

Definition must {E A} (m : outcome E A) : outcome E A :=
  match m with Err _ => Panic | _ => m end.
Definition MustFromString (str : string) : outcome hash_err Hash := must (Hash_FromString str).
Definition MustFromBytes (data : list byte) : outcome hash_err Hash := must (Hash_FromBytes data).

Definition Hash_String (h : Hash) : string := EncodeToString h.
Definition Hash_Hex (h : Hash) : string := "0x" +:+ Hash_String h.
Definition Hash_Equal (h other : Hash) : bool := bool_decide (h = other).
Definition Hash_IsZero (h : Hash) : bool := forallb (fun b => bool_decide (b = x00)) h.
Definition Hash_ShortString (h : Hash) : string :=
  if Hash_IsZero h then "0x0000..."
  else
    let fullHex := Hash_String h in
    if (length (chars fullHex) <? 8)%nat then "0x" +:+ fullHex
    else "0x" +:+ of_chars (take 8 (chars fullHex)) +:+ "...".
Definition Hash_SetBytes (b : list byte) : GoM Hash hash_err unit :=
  _ ← refuse_if (negb (length b =? HashSize)%nat) (WrongHashSize (Z.of_nat (length b)));
  put (to_array b).
Definition Hash_MarshalText (h : Hash) : string := Hash_Hex h.
Definition Hash_UnmarshalText (text : string) : GoM Hash hash_err unit :=
  h ← lift (Hash_FromString text); put h.

(** ** Combinators *)

Section Keccak.
Context (Keccak256 : list byte -> list byte).

Definition NewHash (data : list byte) : Hash := to_array (Keccak256 data).
Definition Keccak256Hash := NewHash.
Definition HashData (data : list byte) : outcome hash_err (list byte) := Ok (Keccak256 data).
Definition HashMultiple (data : list (list byte)) : Hash :=
  match data with [] => NewHash [] | _ => NewHash (concat data) end.

(** [for i := 1; i < iterations; i++ { current = NewHash(current[:]) }]. *)
Definition HashChain (data : list byte) (iterations : Z) : Hash :=
  if iterations <? 1 then NewHash data
  else Nat.iter (Z.to_nat (iterations - 1)) NewHash (NewHash data).

Definition DoubleHash (data : list byte) : Hash := NewHash (Keccak256 data).
Definition CombineHashes (hashes : list Hash) : Hash :=
  match hashes with [] => NullHash | _ => NewHash (concat hashes) end.
Definition xor_byte (a b : byte) : byte := byte_of_Z (Z.lxor (Z_of_byte a) (Z_of_byte b)).
Definition XORHashes (a b : Hash) : Hash := zip_with xor_byte a b.
Definition EmptyHash : Hash := NewHash [].
Definition ZeroHash : Hash := NullHash.
Definition IsEmptyHash (h : Hash) : bool := Hash_Equal h EmptyHash.

(** ** Merkle trees *)

Definition MerkleParent (l r : Hash) : Hash := NewHash (l ++ r).

(** One level up: neighbours are paired, an odd last one with itself. *)
Fixpoint nextLevel (level : list Hash) : list Hash :=
  match level with
  | l :: r :: rest => MerkleParent l r :: nextLevel rest
  | [l] => [MerkleParent l l]
  | [] => []
  end.

Fixpoint merkle_loop (fuel : nat) (currentLevel : list Hash) : option Hash :=
  match currentLevel with
  | [] => None
  | [root] => Some root
  | _ => match fuel with O => None | S fuel' => merkle_loop fuel' (nextLevel currentLevel) end
  end.

Definition MerkleRoot (hashes : list Hash) : Hash :=
  match hashes with
  | [] => NullHash
  | _ => default NullHash (merkle_loop (length hashes) hashes)
  end.
Definition MerkleRootFromBytes (data : list (list byte)) : Hash :=
  match data with [] => NullHash | _ => MerkleRoot (NewHash <$> data) end.
End Keccak.

Definition Blake2bHash (data : list byte) : outcome hash_err Hash := Panic.
Definition LegacyBlake2bHash (data : list byte) : outcome hash_err Hash := Panic.
Definition HashDataBlake2b (data : list byte) : outcome hash_err (list byte) := Panic.

(** ** Counters *)

Record hashMetrics : Type := MkHashMetrics { totalHashes : Z; pooledHashes : Z; directHashes : Z }.
Definition IncrementHashMetrics (pooled : bool) (m : hashMetrics) : hashMetrics :=
  MkHashMetrics (u64 (totalHashes m + 1))
    (if pooled then u64 (pooledHashes m + 1) else pooledHashes m)
    (if pooled then directHashes m else u64 (directHashes m + 1)).
Definition GetHashMetrics (m : hashMetrics) : Z * Z * Z := (totalHashes m, pooledHashes m, directHashes m).
Definition ResetHashMetrics (m : hashMetrics) : hashMetrics := MkHashMetrics 0 0 0.

(** ** Numbers and ordering *)

(** [uint64(h[0]) | uint64(h[1])<<8 | ...], little-endian. *)
Definition HashToUint64 (h : Hash) : Z :=
  foldr (fun b acc => Z.lor (Z_of_byte b) (Z.shiftl acc 8)) 0 (take 8 h).
Definition HashFromUint64 (n : Z) : Hash :=
  ((fun i => byte_of_Z (Z.shiftr n (8 * Z.of_nat i) mod 256)) <$> seq 0 8) ++ replicate 24 x00.

(** [bytes.Compare]. *)
Fixpoint CompareHashes (a b : Hash) : comparison :=
  match a, b with
  | [], [] => Eq
  | [], _ => Lt
  | _, [] => Gt
  | x :: a', y :: b' => match Z_of_byte x ?= Z_of_byte y with Eq => CompareHashes a' b' | c => c end
  end.
Definition MinHash (a b : Hash) : Hash := match CompareHashes a b with Gt => b | _ => a end.
Definition MaxHash (a b : Hash) : Hash := match CompareHashes a b with Lt => b | _ => a end.

(** ** The Merkle root commits to the leaves *)

Section Merkle.
Context (Keccak256 : list byte -> list byte).
Notation NewHash := (NewHash Keccak256).
Notation nextLevel := (nextLevel Keccak256).
Notation merkle_loop := (merkle_loop Keccak256).
Notation MerkleRoot := (MerkleRoot Keccak256).

(** Two inputs with the same hash. *)
Definition collision : Prop := exists x y, x <> y /\ NewHash x = NewHash y.
Definition is_hash (h : Hash) : Prop := length h = HashSize.

Lemma NewHash_length data : is_hash (NewHash data).
Proof. apply length_resize. Qed.

Lemma nextLevel_length level : (2 * length (nextLevel level) <= length level + 1)%nat.
Proof. induction level as [|x|x y level IH] using pair_ind; simpl; lia. Qed.

Lemma nextLevel_same_length l1 l2 : length l1 = length l2 -> length (nextLevel l1) = length (nextLevel l2).
Proof.
  revert l2. induction l1 as [|x|x y l1 IH] using pair_ind; intros [|x' [|y' l2]]; simpl; try lia.
  intros. f_equal. apply IH. lia.
Qed.

Lemma nextLevel_nonempty x y level : nextLevel (x :: y :: level) <> [].
Proof. done. Qed.

Lemma nextLevel_hashes level : Forall is_hash (nextLevel level).
Proof. induction level as [|x|x y level IH] using pair_ind; simpl; [done|apply Forall_singleton|apply Forall_cons; split; [|done]]; apply NewHash_length. Qed.

(** The number of leaves bounds the number of levels. *)
Lemma merkle_loop_ends fuel level : level <> [] -> (length level <= S fuel)%nat -> is_Some (merkle_loop fuel level).
Proof.
  revert level. induction fuel as [|fuel IH]; intros [|x [|y level]] Hne Hlen; simpl in *; try done; try lia.
  apply IH; [done|]. pose proof (nextLevel_length (x :: y :: level)). simpl in *. lia.
Qed.

Lemma merkle_loop_more fuel fuel' level root :
  (fuel <= fuel')%nat -> merkle_loop fuel level = Some root -> merkle_loop fuel' level = Some root.
Proof.
  revert fuel' level. induction fuel as [|fuel IH]; intros fuel' [|x [|y level]] Hle; destruct fuel'; simpl; try done; try lia.
  apply IH. lia.
Qed.

Lemma merkle_loop_hash fuel level root : Forall is_hash level -> merkle_loop fuel level = Some root -> is_hash root.
Proof.
  revert level. induction fuel as [|fuel IH]; intros [|x [|y level]] Hh; simpl; try done;
    try (intros Hr; injection Hr as <-; by rewrite Forall_singleton in Hh).
  apply IH. apply (nextLevel_hashes (x :: y :: level)).
Qed.

Lemma MerkleRoot_loop hashes : hashes <> [] -> merkle_loop (length hashes) hashes = Some (MerkleRoot hashes).
Proof.
  intros Hne. destruct (merkle_loop_ends (length hashes) hashes Hne) as [root Hr]; [lia|].
  unfold Hashes.MerkleRoot. destruct hashes; [done|]. by rewrite Hr.
Qed.

Lemma same_concat (x y x' y' : Hash) : is_hash x -> is_hash x' -> x ++ y = x' ++ y' -> x = x' /\ y = y'.
Proof. unfold is_hash. intros ? ? Heq. apply app_inj_1 in Heq; [done|congruence]. Qed.

Lemma parent_inj x y x' y' : is_hash x -> is_hash x' ->
  MerkleParent Keccak256 x y = MerkleParent Keccak256 x' y' -> (x = x' /\ y = y') \/ collision.
Proof.
  intros Hx Hx' Heq. destruct (decide (x ++ y = x' ++ y')) as [Happ|Hne]; [left; by apply same_concat|].
  right. by exists (x ++ y), (x' ++ y').
Qed.

Lemma nextLevel_inj l1 l2 : length l1 = length l2 -> Forall is_hash l1 -> Forall is_hash l2 ->
  nextLevel l1 = nextLevel l2 -> l1 = l2 \/ collision.
Proof.
  revert l2. induction l1 as [|x|x y l1 IH] using pair_ind; intros [|x' [|y' l2]] Hlen H1 H2 Heq; simpl in *; try lia; [by left| |].
  - injection Heq as Heq. rewrite !Forall_singleton in *.
    destruct (parent_inj x x x' x') as [[-> _]|]; auto.
  - injection Heq as Hp Hn. rewrite !Forall_cons in *. destruct H1 as (? & ? & ?), H2 as (? & ? & ?).
    destruct (parent_inj x y x' y') as [[-> ->]|]; auto.
    destruct (IH l2) as [->|]; auto; lia.
Qed.

Lemma merkle_loop_inj fuel l1 l2 root : length l1 = length l2 -> Forall is_hash l1 -> Forall is_hash l2 ->
  merkle_loop fuel l1 = Some root -> merkle_loop fuel l2 = Some root -> l1 = l2 \/ collision.
Proof.
  revert l1 l2. induction fuel as [|fuel IH]; intros [|x [|y l1]] [|x' [|y' l2]] Hlen H1 H2; simpl in *; try done; try lia;
    intros E1 E2; simplify_eq; auto.
  destruct (IH (nextLevel (x :: y :: l1)) (nextLevel (x' :: y' :: l2))) as [Heq|]; auto using nextLevel_hashes.
  - apply nextLevel_same_length. simpl. lia.
  - apply nextLevel_inj; simpl; auto.
Qed.

Lemma merkle_leaves_binds l1 l2 :
  length l1 = length l2 -> Forall is_hash l1 -> Forall is_hash l2 -> MerkleRoot l1 = MerkleRoot l2 ->
  l1 = l2 \/ collision.
Proof.
  intros Hlen H1 H2 Heq. destruct l1 as [|x l1]; destruct l2 as [|y l2]; try done; [by left|].
  apply (merkle_loop_inj (length (x :: l1)) _ _ (MerkleRoot (x :: l1))); auto using MerkleRoot_loop.
  rewrite Hlen, Heq. by apply MerkleRoot_loop.
Qed.

Lemma nextLevel_duplicate l x : nextLevel (l ++ [x]) = nextLevel (l ++ [x; x]) \/ Nat.Odd (length l).
Proof.
  induction l as [|a|a b l IH] using pair_ind; simpl; [by left|right; by exists 0%nat|].
  destruct IH as [->|[k Hk]]; [by left|]. right. exists (S k). lia.
Qed.

Lemma MerkleRoot_next x y l : MerkleRoot (x :: y :: l) = MerkleRoot (nextLevel (x :: y :: l)).
Proof.
  apply (inj Some). rewrite <-!MerkleRoot_loop by done.
  change (merkle_loop (length (x :: y :: l)) (x :: y :: l)) with (merkle_loop (S (length l)) (nextLevel (x :: y :: l))).
  pose proof (nextLevel_length (x :: y :: l)) as Hlen. cbn [length] in Hlen.
  destruct (merkle_loop_ends (length (nextLevel (x :: y :: l))) (nextLevel (x :: y :: l))) as [root Hr]; [done|lia|].
  rewrite Hr. apply (merkle_loop_more (length (nextLevel (x :: y :: l)))); [lia|done].
Qed.

(** Repeating the last of an odd number of leaves does not change the root. *)
Theorem merkle_duplicate_last l x :
  Nat.Even (length l) -> l <> [] -> MerkleRoot (l ++ [x; x]) = MerkleRoot (l ++ [x]).
Proof.
  intros [k Hk] Hne. destruct (nextLevel_duplicate l x) as [Heq|[j Hj]]; [|lia].
  destruct l as [|a [|b l]]; [done|simpl in Hk; lia|]. cbn [app] in *. by rewrite !MerkleRoot_next, Heq.
Qed.
End Merkle.

(** ** Round trips *)

Lemma to_array_id h : is_hash h -> to_array h = h.
Proof. intros Hh. unfold to_array. rewrite resize_all_alt; done. Qed.

(** A hash survives its text form. *)
Theorem hash_text_roundtrip h : is_hash h ->
  Hash_FromString (Hash_Hex h) = Ok h /\ Hash_UnmarshalText (Hash_MarshalText h) NullHash = (Ok tt, h).
Proof.
  intros Hh.
  assert (Hs : Hash_FromString (Hash_Hex h) = Ok h).
  { assert (Hp : strip_0x (Hash_Hex h) = EncodeToString h).
    { exact (of_chars_chars (EncodeToString h)). }
    unfold Hash_FromString. rewrite Hp. unfold DecodeString, EncodeToString.
    rewrite chars_of_chars, hex_decode_encode. simpl. unfold Hash_FromBytes.
    rewrite Hh, Nat.eqb_refl. simpl. by rewrite to_array_id. }
  split; [done|]. unfold Hash_UnmarshalText, Hash_MarshalText, mbind, GoM_bind, lift. by rewrite Hs.
Qed.
