(* ===== verification/Keys.v ===== *)
(** * Keys and signatures (src/crypto)

    [signature.go], [public_key.go], [private_key.go] and [ethereum.go]: 65-byte
    recoverable signatures, public and private keys and the wallet formats.  The
    curve arithmetic is go-ethereum's: the class [Secp256k1] lists the functions
    the code calls and [Secp256k1Laws] what it relies on. *)

From S2P Require Import Prelude Uint256 Address Storage Hashes.
From stdpp Require Import base tactics numbers list gmap strings.
From Stdlib Require Import ZArith Lia Strings.Byte Strings.Ascii.
Open Scope Z_scope.
Open Scope list_scope.

(** The order of the curve. *)
Definition curveN : Z := 0xFFFFFFFFFFFFFFFFFFFFFFFFFFFFFFFEBAAEDCE6AF48A03BBFD25E8CD0364141.

Inductive key_err : Type :=
| InvalidLength (got : Z)
| InvalidRecoveryID (v : Z)
| NotPositive
| ExceedsOrder
| InvalidHex (e : address_err)
| InvalidPrefix (b : byte)
| DecompressFailed
| UnmarshalKeyFailed
| NilKey
| NilSignature
| HashLength (got : Z)
| RecoverFailed
| PublicKeyMismatch
| VerificationFailed
| SignFailed
| ParseKeyFailed
| KeyOutOfRange
| ChainIDZero
| ChainIDTooLarge
| RecoveredInvalid
| NotOnCurve
| TypedDataInvalid
| HashStructFailed.

(** ** Signatures *)

Record SignatureImpl : Type := MkSignature { sig_r : Z; sig_s : Z; sig_v : byte }.

Definition SignatureSize : nat := 65.

(** [FillBytes]: panics when the value does not fit. *)
Definition FillBytes {E} (n : nat) (x : Z) : outcome E (list byte) :=
  let raw := Bytes x in
  if (n <? length raw)%nat then Panic else Ok (replicate (n - length raw) x00 ++ raw).

Definition recovery_ids : list byte := [x00; x01; x1b; x1c].

Definition NewSignatureFromBytes (sigBytes : list byte) : outcome key_err SignatureImpl :=
  if negb (length sigBytes =? SignatureSize)%nat then Err (InvalidLength (Z.of_nat (length sigBytes)))
  else
    let r := SetBytes (take 32 sigBytes) in
    let s := SetBytes (take 32 (drop 32 sigBytes)) in
    let v := default x00 (sigBytes !! 64%nat) in
    if negb (bool_decide (v ∈ recovery_ids)) then Err (InvalidRecoveryID (Z_of_byte v))
    else if (r <=? 0) || (s <=? 0) then Err NotPositive
    else if (curveN <=? r) || (curveN <=? s) then Err ExceedsOrder
    else Ok (MkSignature r s v).
Definition SignatureFromBytes := NewSignatureFromBytes.

Definition NewSignature (sigBytes : list byte) : option SignatureImpl :=
  if negb (length sigBytes =? SignatureSize)%nat then None
  else match NewSignatureFromBytes sigBytes with Ok sig => Some sig | _ => None end.

(** [if len(s) > 2 && s[:2] == "0x"]. *)
Definition strip_prefix (s : string) : string :=
  if (2 <? length (chars s))%nat then strip_0x s else s.

Definition NewSignatureFromHex (hexSig : string) : outcome key_err SignatureImpl :=
  data ← wrap InvalidHex (DecodeString (strip_prefix hexSig));
  NewSignatureFromBytes data.

Definition Sig_Bytes {E} (s : SignatureImpl) : outcome E (list byte) :=
  r ← FillBytes 32 (sig_r s);
  t ← FillBytes 32 (sig_s s);
  Ok (r ++ t ++ [sig_v s]).
Definition Sig_String {E} (s : SignatureImpl) : outcome E string :=
  bs ← Sig_Bytes s; Ok ("0x" +:+ EncodeToString bs).

Definition IsNormalized (s : SignatureImpl) : bool := sig_s s <=? Z.shiftr curveN 1.

Definition Normalize (s : SignatureImpl) : SignatureImpl :=
  if IsNormalized s then s
  else MkSignature (sig_r s) (curveN - sig_s s) (xor_byte (sig_v s) x01).

Definition Sig_IsValid (s : SignatureImpl) : bool :=
  if (sig_r s <=? 0) || (sig_s s <=? 0) then false
  else if (curveN <=? sig_r s) || (curveN <=? sig_s s) then false
  else bool_decide (sig_v s ∈ recovery_ids).

Definition ExtractChainID (s : SignatureImpl) : Z * bool := (0, false).
Definition WithChainID (chainID : Z) (s : SignatureImpl) : SignatureImpl := s.

Definition RecoveryID (s : SignatureImpl) : byte :=
  let v := Z_of_byte (sig_v s) in
  if 35 <=? v then
    let '(chainID, _) := ExtractChainID s in
    byte_of_Z (u64 (v - 35 - chainID * 2) mod 2)
  else if 27 <=? v then byte_of_Z (v - 27)
  else sig_v s.

Definition Sig_Unmarshal (data : list byte) : GoM SignatureImpl key_err unit :=
  _ ← refuse_if (negb (length data =? SignatureSize)%nat) (InvalidLength (Z.of_nat (length data)));
  sig ← lift (NewSignatureFromBytes data); put sig.

Definition Sig_Equal {E} (s : SignatureImpl) (other : option SignatureImpl) : outcome E bool :=
  match other with
  | None => Ok false
  | Some o => b1 ← Sig_Bytes o; b2 ← Sig_Bytes s; Ok (bool_decide (b1 = b2))
  end.

Definition normalizeV (v : byte) : byte :=
  let z := Z_of_byte v in
  if 35 <=? z then
    let chainID := (z - 35) / 2 in byte_of_Z (u64 (z - 35 - chainID * 2) mod 2)
  else if 27 <=? z then byte_of_Z (z - 27)
  else v.
Definition toLegacyV (v : byte) : byte :=
  if bool_decide (v = x00) || bool_decide (v = x01) then byte_of_Z (Z_of_byte v + 27) else v.

(** ** The curve library *)

Class Secp256k1 (Pub Priv : Type) : Type := {
  pub_eq_dec :: EqDecision Pub;
  DecompressPubkey : list byte -> option Pub;
  UnmarshalPubkey : list byte -> option Pub;
  CompressPubkey : Pub -> list byte;
  FromECDSAPub : Pub -> list byte;
  PubkeyToAddress : Pub -> Address;
  SigToPub : list byte -> list byte -> option Pub;
  VerifySignature : list byte -> list byte -> list byte -> bool;
  IsOnCurve : Pub -> bool;
  ToECDSA : list byte -> option Priv;
  FromECDSA : Priv -> list byte;
  PublicOf : Priv -> Pub;
  Sign : list byte -> Priv -> option (list byte)
}.

(** What go-ethereum documents: encodings of the right shape that decode to the
    key, and signatures [R || S || V] with V 0 or 1 and S in the lower half, which
    verify and from which the signer's key is recovered; recovering from the
    mirrored signature (N - S and the other V) gives the same key. *)
Class Secp256k1Laws (Pub Priv : Type) `{Secp256k1 Pub Priv} : Prop := {
  compressed_form p : exists b rest, CompressPubkey p = b :: rest /\ length rest = 32%nat /\ (b = x02 \/ b = x03);
  decompress_compressed p : DecompressPubkey (CompressPubkey p) = Some p;
  uncompressed_form p : exists rest, FromECDSAPub p = x04 :: rest /\ length rest = 64%nat;
  unmarshal_uncompressed p : UnmarshalPubkey (FromECDSAPub p) = Some p;
  address_form p : length (PubkeyToAddress p) = AddressLength;
  sign_form hash key : length hash = 32%nat -> exists sig, Sign hash key = Some sig /\
    exists r s v, 0 < r < curveN /\ 0 < s <= curveN / 2 /\ (v = x00 \/ v = x01) /\
      Sig_Bytes (E:=key_err) (MkSignature r s v) = Ok sig;
  sign_recovers hash key sig : Sign hash key = Some sig -> SigToPub hash sig = Some (PublicOf key);
  sign_verifies hash key sig : Sign hash key = Some sig ->
    VerifySignature (FromECDSAPub (PublicOf key)) hash (take 64 sig) = true;
  mirrored_recovers hash r s v sig sig' : 0 < r < curveN -> 0 < s < curveN -> (v = x00 \/ v = x01) ->
    Sig_Bytes (E:=key_err) (MkSignature r s v) = Ok sig ->
    Sig_Bytes (E:=key_err) (MkSignature r (curveN - s) (xor_byte v x01)) = Ok sig' ->
    SigToPub hash sig' = SigToPub hash sig
}.

Section Keys.
Context {Pub Priv : Type} `{Secp256k1 Pub Priv} (Keccak256 : list byte -> list byte).

(** ** Public keys

    [None] is the key with a nil field. *)

Definition PublicKeyImpl : Type := option Pub.

Definition newPublicKeyFromCompressed (data : list byte) : outcome key_err PublicKeyImpl :=
  match data with
  | b :: _ =>
      if negb (length data =? 33)%nat then Err (InvalidLength (Z.of_nat (length data)))
      else if negb (bool_decide (b = x02)) && negb (bool_decide (b = x03)) then Err (InvalidPrefix b)
      else match DecompressPubkey data with
           | Some p => Ok (Some p)
           | None => Err DecompressFailed
           end
  | [] => Err (InvalidLength 0)
  end.

Definition newPublicKeyFromUncompressed (data : list byte) : outcome key_err PublicKeyImpl :=
  match data with
  | b :: _ =>
      if negb (length data =? 65)%nat then Err (InvalidLength (Z.of_nat (length data)))
      else if negb (bool_decide (b = x04)) then Err (InvalidPrefix b)
      else match UnmarshalPubkey data with
           | Some p => Ok (Some p)
           | None => Err UnmarshalKeyFailed
           end
  | [] => Err (InvalidLength 0)
  end.

Definition NewPublicKeyFromBytes (data : list byte) : outcome key_err PublicKeyImpl :=
  if (length data =? 33)%nat then newPublicKeyFromCompressed data
  else if (length data =? 65)%nat then newPublicKeyFromUncompressed data
  else Err (InvalidLength (Z.of_nat (length data))).

Definition NewPublicKeyFromHex (hexKey : string) : outcome key_err PublicKeyImpl :=
  data ← wrap InvalidHex (DecodeString (strip_prefix hexKey));
  NewPublicKeyFromBytes data.

Definition Pub_Bytes (p : PublicKeyImpl) : list byte := from_option CompressPubkey [] p.
Definition Pub_BytesUncompressed (p : PublicKeyImpl) : list byte := from_option FromECDSAPub [] p.
Definition Pub_String (p : PublicKeyImpl) : string :=
  match p with None => "PublicKey(nil)" | Some _ => "0x" +:+ EncodeToString (Pub_Bytes p) end.
Definition Pub_Address (p : PublicKeyImpl) : Address := from_option PubkeyToAddress NullAddress p.

(** [sigBytes[64] = sig.RecoveryID()] on a copy. *)
Definition with_recovery_id {E} (sig : SignatureImpl) : outcome E (list byte) :=
  sigBytes ← Sig_Bytes sig; Ok (<[64%nat := RecoveryID sig]> sigBytes).

Definition Pub_VerifyHash (p : PublicKeyImpl) (hash : list byte) (sig : option SignatureImpl) : outcome key_err unit :=
  match p, sig with
  | None, _ => Err NilKey
  | _, None => Err NilSignature
  | Some pubKey, Some sig =>
      if negb (length hash =? 32)%nat then Err (HashLength (Z.of_nat (length hash)))
      else
        sigBytes ← with_recovery_id sig;
        match SigToPub hash sigBytes with
        | None => Err RecoverFailed
        | Some recoveredPubKey =>
            if negb (bool_decide (recoveredPubKey = pubKey)) then Err PublicKeyMismatch
            else
              let pubKeyBytes := Pub_BytesUncompressed p in
              if negb (length pubKeyBytes =? 65)%nat then Err (InvalidLength (Z.of_nat (length pubKeyBytes)))
              else if negb (VerifySignature pubKeyBytes hash (take 64 sigBytes)) then Err VerificationFailed
              else Ok tt
        end
  end.

Definition Pub_Verify (p : PublicKeyImpl) (data : list byte) (sig : option SignatureImpl) : outcome key_err unit :=
  match p, sig with
  | None, _ => Err NilKey
  | _, None => Err NilSignature
  | _, _ => Pub_VerifyHash p (Keccak256 data) sig
  end.

Definition Pub_Marshal (p : PublicKeyImpl) : outcome key_err (list byte) :=
  match p with None => Err NilKey | Some _ => Ok (Pub_Bytes p) end.
Definition Pub_Unmarshal (data : list byte) : GoM PublicKeyImpl key_err unit :=
  pubKey ← lift (NewPublicKeyFromBytes data); put pubKey.
Definition Pub_Equal (p : PublicKeyImpl) (other : option PublicKeyImpl) : bool :=
  match other with
  | None => bool_decide (p = None)
  | Some o => match p, o with Some a, Some b => bool_decide (a = b) | _, _ => false end
  end.
Definition Pub_IsOnCurve (p : PublicKeyImpl) : bool := from_option IsOnCurve false p.

Definition RecoverPublicKey (hash : list byte) (sig : option SignatureImpl) : outcome key_err PublicKeyImpl :=
  if negb (length hash =? 32)%nat then Err (HashLength (Z.of_nat (length hash)))
  else match sig with
       | None => Err NilSignature
       | Some sig =>
           sigBytes ← with_recovery_id sig;
           match SigToPub hash sigBytes with
           | Some pubKey => Ok (Some pubKey)
           | None => Err RecoverFailed
           end
       end.

Definition IsValidPublicKey (data : list byte) : bool := is_ok (NewPublicKeyFromBytes data).
Definition CompressPublicKey (uncompressed : list byte) : outcome key_err (list byte) :=
  if negb (length uncompressed =? 65)%nat then Err (InvalidLength (Z.of_nat (length uncompressed)))
  else pubKey ← NewPublicKeyFromBytes uncompressed; Ok (Pub_Bytes pubKey).
Definition DecompressPublicKey (compressed : list byte) : outcome key_err (list byte) :=
  if negb (length compressed =? 33)%nat then Err (InvalidLength (Z.of_nat (length compressed)))
  else pubKey ← NewPublicKeyFromBytes compressed; Ok (Pub_BytesUncompressed pubKey).

(** ** Private keys *)

Definition PrivateKeyImpl : Type := option Priv.

Definition in_key_range (keyData : list byte) : bool :=
  let d := SetBytes keyData in (0 <? d) && (d <? curveN).

Definition NewPrivateKeyFromBytes (keyData : list byte) : outcome key_err PrivateKeyImpl :=
  if negb (length keyData =? 32)%nat then Err (InvalidLength (Z.of_nat (length keyData)))
  else match ToECDSA keyData with
       | None => Err ParseKeyFailed
       | Some key => if negb (in_key_range keyData) then Err KeyOutOfRange else Ok (Some key)
       end.
Definition NewPrivateKeyFromHex (hexKey : string) : outcome key_err PrivateKeyImpl :=
  keyData ← wrap InvalidHex (DecodeString (strip_prefix hexKey));
  NewPrivateKeyFromBytes keyData.
Definition PrivateKeyFromString := NewPrivateKeyFromHex.
Definition IsValidPrivateKey (keyData : list byte) : bool :=
  if negb (length keyData =? 32)%nat then false else in_key_range keyData.

Definition Priv_Bytes (p : PrivateKeyImpl) : list byte := from_option FromECDSA [] p.
Definition Priv_String (p : PrivateKeyImpl) : string :=
  match p with None => "PrivateKey(nil)" | Some _ => "0x" +:+ EncodeToString (Priv_Bytes p) end.

Definition SignHash (p : PrivateKeyImpl) (hash : list byte) : outcome key_err SignatureImpl :=
  match p with
  | None => Err NilKey
  | Some key =>
      if negb (length hash =? 32)%nat then Err (HashLength (Z.of_nat (length hash)))
      else match Sign hash key with
           | None => Err SignFailed
           | Some sigBytes => NewSignatureFromBytes sigBytes
           end
  end.
Definition Priv_Sign (p : PrivateKeyImpl) (msg : list byte) : outcome key_err SignatureImpl :=
  match p with None => Err NilKey | Some _ => SignHash p (Keccak256 msg) end.
(** [nil] for a nil key. *)
Definition Priv_PublicKey (p : PrivateKeyImpl) : option PublicKeyImpl :=
  match p with None => None | Some key => Some (Some (PublicOf key)) end.
Definition Priv_Address (p : PrivateKeyImpl) : Address :=
  match p with None => NullAddress | Some key => Pub_Address (Some (PublicOf key)) end.
Definition Priv_Marshal (p : PrivateKeyImpl) : outcome key_err (list byte) :=
  match p with None => Err NilKey | Some _ => Ok (Priv_Bytes p) end.
Definition Priv_Unmarshal (data : list byte) : GoM PrivateKeyImpl key_err unit :=
  _ ← refuse_if (negb (length data =? 32)%nat) (InvalidLength (Z.of_nat (length data)));
  key ← lift (match ToECDSA data with Some key => Ok key | None => Err ParseKeyFailed end);
  put (Some key).
Definition Priv_Equal (p : PrivateKeyImpl) (other : option PrivateKeyImpl) : bool :=
  match other with
  | None => match p with None => true | Some _ => false end
  | Some o =>
      match p, o with
      | Some _, Some _ =>
          let pBytes := Priv_Bytes p in
          let oBytes := Priv_Bytes o in
          if negb (length pBytes =? length oBytes)%nat then false
          else foldl (fun result ab => Z.lor result (Z_of_byte (xor_byte ab.1 ab.2))) 0 (zip pBytes oBytes) =? 0
      | None, None => true
      | _, _ => false
      end
  end.

(** ** Wallet formats *)

Definition RecoverAddressFromHash (hash signature : list byte) : outcome key_err Address :=
  if negb (length hash =? 32)%nat then Err (HashLength (Z.of_nat (length hash)))
  else if negb (length signature =? 65)%nat then Err (InvalidLength (Z.of_nat (length signature)))
  else match SigToPub hash signature with
       | None => Err RecoverFailed
       | Some pubKey => Ok (PubkeyToAddress pubKey)
       end.
Definition RecoverAddress (message signature : list byte) : outcome key_err Address :=
  if negb (length signature =? 65)%nat then Err (InvalidLength (Z.of_nat (length signature)))
  else RecoverAddressFromHash (Keccak256 message) signature.
Definition VerifyEthereumSignature (addr : option Address) (message signature : list byte) : outcome key_err bool :=
  recoveredAddr ← RecoverAddress message signature;
  Ok (Address_Equal addr (Some recoveredAddr)).

(** The byte 0x19, the text and the decimal length, then the message. *)
Definition createPersonalMessagePrefix (message : list byte) : list byte :=
  x19 :: bytes_of_string "Ethereum Signed Message:" ++ [x0a] ++
  bytes_of_string (String10 (Z.of_nat (length message))) ++ message.
Definition PersonalSign (privateKey : option PrivateKeyImpl) (message : list byte) : outcome key_err SignatureImpl :=
  match privateKey with
  | None => Err NilKey
  | Some key => SignHash key (Keccak256 (createPersonalMessagePrefix message))
  end.
Definition VerifyPersonalSign (addr : option Address) (message signature : list byte) : outcome key_err bool :=
  match addr with
  | None => Err NilKey
  | Some _ =>
      recoveredAddr ← RecoverAddressFromHash (Keccak256 (createPersonalMessagePrefix message)) signature;
      Ok (Address_Equal addr (Some recoveredAddr))
  end.
Definition PersonalSignWithString (privateKey : option PrivateKeyImpl) (message : string) : outcome key_err SignatureImpl :=
  PersonalSign privateKey (bytes_of_string message).
Definition VerifyPersonalSignWithString (addr : option Address) (message : string) (signature : list byte)
    : outcome key_err bool :=
  VerifyPersonalSign addr (bytes_of_string message) signature.

Definition ValidateChainID (chainID : Z) : outcome key_err unit :=
  if chainID =? 0 then Err ChainIDZero
  else if 9007199254740991 <? chainID then Err ChainIDTooLarge
  else Ok tt.

Definition SignTransaction (privateKey : option PrivateKeyImpl) (txHash : list byte) (chainID : Z)
    : outcome key_err SignatureImpl :=
  match privateKey with
  | None => Err NilKey
  | Some key =>
      if negb (length txHash =? 32)%nat then Err (HashLength (Z.of_nat (length txHash)))
      else
        _ ← ValidateChainID chainID;
        sig ← SignHash key txHash;
        Ok (Normalize sig)
  end.

Definition RecoverTransactionSender (txHash signature : list byte) (chainID : Z) : outcome key_err Address :=
  if negb (length txHash =? 32)%nat then Err (HashLength (Z.of_nat (length txHash)))
  else if negb (length signature =? 65)%nat then Err (InvalidLength (Z.of_nat (length signature)))
  else
    _ ← ValidateChainID chainID;
    sig ← NewSignatureFromBytes signature;
    pubKey ← RecoverPublicKey txHash (Some sig);
    let addr := Pub_Address pubKey in
    if Address_IsZero (Some addr) then Err RecoveredInvalid else Ok addr.
Definition eth_VerifyTransactionSignature (expectedAddr : option Address) (txHash signature : list byte) (chainID : Z)
    : outcome key_err bool :=
  recoveredAddr ← RecoverTransactionSender txHash signature chainID;
  Ok (Address_Equal expectedAddr (Some recoveredAddr)).

Definition CreateEIP155Hash (rlpEncodedTx : list byte) (chainID : Z) : list byte := Keccak256 rlpEncodedTx.

Definition ExtractChainIDFromSignature (signature : list byte) : Z * bool :=
  if negb (length signature =? 65)%nat then (0, false)
  else match NewSignatureFromBytes signature with
       | Ok sig => ExtractChainID sig
       | _ => (0, false)
       end.
Definition IsValidSignature (signature : list byte) : bool :=
  if negb (length signature =? 65)%nat then false
  else match NewSignatureFromBytes signature with
       | Ok sig => Sig_IsValid sig
       | _ => false
       end.
Definition NormalizeSignature (signature : list byte) : outcome key_err (list byte) :=
  if negb (length signature =? 65)%nat then Err (InvalidLength (Z.of_nat (length signature)))
  else sig ← NewSignatureFromBytes signature; Sig_Bytes (Normalize sig).
Definition NormalizeSignatureV (signature : list byte) : list byte :=
  if negb (length signature =? 65)%nat then signature
  else
    let v := Z_of_byte (default x00 (signature !! 64%nat)) in
    if v <? 27 then <[64%nat := byte_of_Z (v + 27)]> signature
    else if 35 <=? v then <[64%nat := byte_of_Z ((v - 35) mod 2 + 27)]> signature
    else signature.

Definition ValidatePublicKey (pubKeyBytes : list byte) : outcome key_err unit :=
  pubKey ← NewPublicKeyFromBytes pubKeyBytes;
  if negb (Pub_IsOnCurve pubKey) then Err NotOnCurve else Ok tt.
Definition ValidatePrivateKey (privKeyBytes : list byte) : outcome key_err unit :=
  if negb (length privKeyBytes =? 32)%nat then Err (InvalidLength (Z.of_nat (length privKeyBytes)))
  else
    let d := SetBytes privKeyBytes in
    if d <=? 0 then Err KeyOutOfRange
    else if curveN <=? d then Err KeyOutOfRange
    else Ok tt.
Definition eth_Keccak256Hash (data : list (list byte)) : list byte := Keccak256 (concat data).

(** [account.GenerateAddress] (src/core/account/account.go). *)
Definition GenerateAddress (pubKey : option PublicKeyImpl) : outcome key_err string :=
  match pubKey with
  | None => Err NilKey
  | Some p =>
      let addr := Pub_Address p in
      if Address_IsZero (Some addr) then Err RecoveredInvalid
      else
        let addrStr := Address_String (Some addr) in
        if negb (length (chars addrStr) =? 42)%nat then Err (InvalidLength (Z.of_nat (length (chars addrStr))))
        else Ok addrStr
  end.
End Keys.

(** ** Encoding of signatures *)

Lemma split_zeros raw : exists k rest, raw = replicate k x00 ++ rest /\ head rest <> Some x00.
Proof.
  induction raw as [|b raw (k & rest & -> & Hh)]; [by exists 0%nat, []|].
  destruct (decide (b = x00)) as [->|Hb]; [by exists (S k), rest|].
  exists 0%nat, (b :: replicate k x00 ++ rest). split; [done|]. simpl. congruence.
Qed.

Lemma FillBytes_SetBytes {E} n raw : length raw = n -> FillBytes (E:=E) n (SetBytes raw) = Ok raw.
Proof.
  intros <-. destruct (split_zeros raw) as (k & rest & -> & Hh). unfold FillBytes.
  rewrite SetBytes_zeros, Bytes_SetBytes by done. rewrite length_app, length_replicate.
  destruct (Nat.ltb_spec (k + length rest) (length rest)); [lia|]. do 2 f_equal. f_equal. lia.
Qed.

Lemma FillBytes_ok {E} n x : 0 <= x < 256 ^ Z.of_nat n ->
  exists raw, FillBytes (E:=E) n x = Ok raw /\ length raw = n /\ SetBytes raw = x.
Proof.
  intros Hx. assert (Hlen : (length (Bytes x) <= n)%nat) by (apply Bytes_length; lia).
  exists (replicate (n - length (Bytes x)) x00 ++ Bytes x). unfold FillBytes.
  destruct (Nat.ltb_spec n (length (Bytes x))); [lia|]. rewrite length_app, length_replicate, SetBytes_zeros, SetBytes_Bytes by lia.
  split_and!; [done|lia|done].
Qed.

Lemma curveN_bound : 0 < curveN < 256 ^ Z.of_nat 32.
Proof. split; vm_compute; reflexivity. Qed.

Lemma NewSignature_ok b sig : NewSignatureFromBytes b = Ok sig <->
  (length b = 65%nat /\ Sig_IsValid sig = true /\ Sig_Bytes (E:=key_err) sig = Ok b).
Proof.
  unfold NewSignatureFromBytes, Sig_IsValid. split.
  - destruct (Nat.eqb_spec (length b) SignatureSize) as [Hlen|]; [simpl|done]. unfold SignatureSize in Hlen.
    destruct (bool_decide_reflect (default x00 (b !! 64%nat) ∈ recovery_ids)) as [Hv|]; [simpl|done].
    destruct ((SetBytes _ <=? 0) || _) eqn:H1; [done|]. destruct ((curveN <=? SetBytes _) || _) eqn:H2; [done|]. intros Heq. injection Heq as <-. cbn [sig_r sig_s sig_v].
    rewrite H1, H2, bool_decide_true by done. split_and!; [done..|].
    unfold Sig_Bytes. cbn [sig_r sig_s sig_v].
    rewrite !FillBytes_SetBytes by (rewrite length_take, ?length_drop; lia). simpl. f_equal.
    rewrite <-(take_drop 32 b) at 4. f_equal. rewrite <-(take_drop 32 (drop 32 b)) at 2. f_equal.
    rewrite drop_drop. destruct (lookup_lt_is_Some_2 b 64) as [x Hx]; [lia|]. change (32 + 32)%nat with 64%nat.
    rewrite (drop_S b x 64 Hx), Hx. simpl. f_equal. symmetry. apply nil_length_inv. rewrite length_drop. lia.
  - intros (Hlen & Hval & Hb). unfold Sig_Bytes in Hb. pose proof curveN_bound.
    destruct (_ || _) eqn:H1 in Hval; [done|]. destruct (_ || _) eqn:H2 in Hval; [done|]. zbool.
    destruct (FillBytes_ok (E:=key_err) 32 (sig_r sig)) as (r & Hr & Hrl & Hrv); [lia|].
    destruct (FillBytes_ok (E:=key_err) 32 (sig_s sig)) as (s & Hs & Hsl & Hsv); [lia|].
    rewrite Hr, Hs in Hb. simpl in Hb. injection Hb as <-.
    rewrite Hlen. simpl. rewrite (take_app_length' r) by lia. rewrite (drop_app_length' r) by lia.
    rewrite (take_app_length' s) by lia. rewrite lookup_app_r by lia. rewrite Hrl.
    replace (64 - 32)%nat with 32%nat by lia. rewrite lookup_app_r by lia. rewrite Hsl. simpl.
    rewrite Hval, Hrv, Hsv. simpl. destruct sig as [r0 s0 v0]; cbn [sig_r sig_s sig_v] in *.
    destruct (r0 <=? 0) eqn:E1; [zbool; lia|]. destruct (s0 <=? 0) eqn:E2; [zbool; lia|]. simpl.
    destruct (curveN <=? r0) eqn:E3; [zbool; lia|]. destruct (curveN <=? s0) eqn:E4; [zbool; lia|]. done.
Qed.

Lemma valid_bytes {E} sig : Sig_IsValid sig = true ->
  exists b, Sig_Bytes (E:=E) sig = Ok b /\ length b = 65%nat /\ b !! 64%nat = Some (sig_v sig).
Proof.
  intros Hval. unfold Sig_IsValid in Hval. pose proof curveN_bound.
  destruct (_ || _) eqn:H1 in Hval; [done|]. destruct (_ || _) eqn:H2 in Hval; [done|]. zbool.
  destruct (FillBytes_ok (E:=E) 32 (sig_r sig)) as (r & Hr & Hrl & _); [lia|].
  destruct (FillBytes_ok (E:=E) 32 (sig_s sig)) as (s & Hs & Hsl & _); [lia|].
  exists (r ++ s ++ [sig_v sig]). unfold Sig_Bytes. rewrite Hr, Hs. split_and!; [done|rewrite !length_app; simpl; lia|].
  rewrite app_assoc, lookup_app_r by (rewrite length_app; lia). rewrite length_app, Hrl, Hsl. done.
Qed.

Lemma Sig_Bytes_any {E E'} sig b : Sig_Bytes (E:=E) sig = Ok b -> Sig_Bytes (E:=E') sig = Ok b.
Proof.
  unfold Sig_Bytes, FillBytes. destruct (_ <? length (Bytes (sig_r sig)))%nat; [done|].
  destruct (_ <? length (Bytes (sig_s sig)))%nat; [done|]. simpl. by intros [= <-].
Qed.

Lemma legacy_flips : (xor_byte x1b x01 ∈ recovery_ids -> False) /\ (xor_byte x1c x01 ∈ recovery_ids -> False).
Proof. split; apply (bool_decide_eq_false_1 _); reflexivity. Qed.

(** V is the recovery identifier itself. *)
Definition plain_v (sig : SignatureImpl) : Prop := sig_v sig = x00 \/ sig_v sig = x01.

Lemma plain_with_recovery_id {E} sig : Sig_IsValid sig = true -> plain_v sig ->
  with_recovery_id (E:=E) sig = Sig_Bytes sig.
Proof.
  intros Hval Hv. destruct (valid_bytes (E:=E) sig Hval) as (b & Hb & _ & Hl). unfold with_recovery_id. rewrite Hb. simpl.
  assert (HR : RecoveryID sig = sig_v sig) by (unfold RecoveryID; by destruct Hv as [-> | ->]).
  by rewrite HR, list_insert_id.
Qed.

Lemma half_curve s : (s <=? Z.shiftr curveN 1) = (s <=? curveN / 2).
Proof. reflexivity. Qed.

Lemma IsNormalized_spec sig : IsNormalized sig = true <-> sig_s sig <= curveN / 2.
Proof. unfold IsNormalized. rewrite half_curve. apply Z.leb_le. Qed.

Lemma valid_spec sig : Sig_IsValid sig = true <->
  (0 < sig_r sig < curveN /\ 0 < sig_s sig < curveN /\ sig_v sig ∈ recovery_ids).
Proof.
  unfold Sig_IsValid. destruct (_ || _) eqn:H1; [zbool; split; [done|lia]|].
  destruct ((curveN <=? _) || _) eqn:H2; [zbool; split; [done|lia]|]. zbool. rewrite bool_decide_eq_true. intuition lia.
Qed.

Section KeyTheorems.
Context {Pub Priv : Type} `{Secp256k1Laws Pub Priv}.

Lemma SignHash_run (key : Priv) hash : length hash = 32%nat ->
  exists sig b, SignHash (Some key) hash = Ok sig /\ Sign hash key = Some b /\ Sig_IsValid sig = true /\ plain_v sig /\
    IsNormalized sig = true /\ Sig_Bytes (E:=key_err) sig = Ok b /\ length b = 65%nat /\ NewSignatureFromBytes b = Ok sig.
Proof.
  intros Hh. destruct (sign_form hash key Hh) as (b & Hsign & r & s & v & Hr & Hs & Hv & Hb).
  set (sig := MkSignature r s v) in *.
  assert (Hval : Sig_IsValid sig = true).
  { apply valid_spec. cbn. pose proof curveN_bound. split_and!; try lia; [|destruct Hv as [-> | ->]; set_solver].
    enough (curveN / 2 < curveN) by lia. apply Z.div_lt; lia. }
  destruct (valid_bytes (E:=key_err) sig Hval) as (b' & Hb' & Hl & _). assert (b' = b) as -> by congruence.
  assert (Hpar : NewSignatureFromBytes b = Ok sig) by (by apply NewSignature_ok).
  exists sig, b. unfold SignHash. rewrite Hh, Hsign. simpl. split_and!; try done. apply IsNormalized_spec. cbn. lia.
Qed.

Lemma signed_verifies (key : Priv) hash sig b p : length hash = 32%nat -> Sign hash key = Some b ->
  Sig_IsValid sig = true -> plain_v sig -> Sig_Bytes (E:=key_err) sig = Ok b ->
  (Pub_VerifyHash p hash (Some sig) = Ok tt <-> p = Some (PublicOf key)).
Proof.
  intros Hh Hsign Hval Hv Hb. destruct p as [p|]; [|done]. unfold Pub_VerifyHash. rewrite Hh. simpl.
  rewrite plain_with_recovery_id by done. rewrite Hb. simpl.
  rewrite (sign_recovers hash key b Hsign). destruct (bool_decide_reflect (PublicOf key = p)) as [<-|Hne]; simpl.
  - destruct (uncompressed_form (PublicOf key)) as (rest & Hu & Hl). rewrite Hu. simpl. rewrite Hl. simpl.
    rewrite <-Hu, (sign_verifies hash key b Hsign). done.
  - split; [done|congruence].
Qed.

(** Signing, verifying and recovering fit together.  For any 32-byte hash the
    signature exists, is in the lower half, survives its 65 bytes, verifies under
    the signer's public key and under no other, and recovers the signer's address;
    and the key survives its compressed form. *)
Theorem signing_correct (key : Priv) hash : length hash = 32%nat ->
  exists sig b, SignHash (Some key) hash = Ok sig /\ IsNormalized sig = true /\
    Sig_Bytes (E:=key_err) sig = Ok b /\ NewSignatureFromBytes b = Ok sig /\
    (forall p, Pub_VerifyHash p hash (Some sig) = Ok tt <-> p = Some (PublicOf key)) /\
    RecoverAddressFromHash hash b = Ok (Priv_Address (Some key)) /\
    NewPublicKeyFromBytes (Pub_Bytes (Some (PublicOf key))) = Ok (Some (PublicOf key)).
Proof.
  intros Hh. destruct (SignHash_run key hash Hh) as (sig & b & Hs & Hsign & Hval & Hv & Hn & Hb & Hl & Hpar).
  exists sig, b. split_and!; try done.
  - intros p. by apply (signed_verifies key hash sig b).
  - unfold RecoverAddressFromHash. by rewrite Hh, Hl, (sign_recovers hash key b Hsign).
  - destruct (compressed_form (PublicOf key)) as (c & rest & Hc & Hlen & Hp).
    unfold NewPublicKeyFromBytes, newPublicKeyFromCompressed. unfold Pub_Bytes. simpl. rewrite Hc. simpl. rewrite Hlen. simpl.
    rewrite <-Hc, decompress_compressed. destruct Hp as [-> | ->]; done.
Qed.

(** Normalising a signature.  The result is in the lower half and recovers the
    same key, but it is a valid signature only if the original was already in the
    lower half or carried its V as 0 or 1: with the accepted values 27 and 28 the
    flipped V is 26 or 29, which the parser refuses. *)
Theorem normalize_exact sig : Sig_IsValid sig = true ->
  IsNormalized (Normalize sig) = true /\
  (Sig_IsValid (Normalize sig) = true <-> IsNormalized sig = true \/ plain_v sig) /\
  (plain_v sig -> forall hash, RecoverPublicKey hash (Some (Normalize sig)) = RecoverPublicKey hash (Some sig)).
Proof.
  intros Hval. pose proof Hval as (Hr & Hs & Hv)%valid_spec. unfold Normalize.
  destruct (IsNormalized sig) eqn:Hn; [split_and!; [done|tauto|done]|].
  assert (Hhigh : curveN / 2 < sig_s sig).
  { destruct (Z.leb_spec (sig_s sig) (curveN / 2)) as [Hle|]; [|done]. apply IsNormalized_spec in Hle. congruence. }
  set (sig' := MkSignature (sig_r sig) (curveN - sig_s sig) (xor_byte (sig_v sig) x01)).
  assert (Hval' : plain_v sig -> Sig_IsValid sig' = true).
  { intros Hp. apply valid_spec. unfold sig'. cbn [sig_r sig_s sig_v]. split_and!; try lia. apply (bool_decide_eq_true_1 _). destruct Hp as [-> | ->]; reflexivity. }
  split_and!.
  - apply IsNormalized_spec. unfold sig'. cbn [sig_s]. pose proof (Z.div_mod curveN 2). pose proof (Z.mod_pos_bound curveN 2). lia.
  - split; [|intros [?|Hp]; [done|auto]]. intros (_ & _ & Hv')%valid_spec. right. unfold plain_v. unfold sig' in Hv'. cbn [sig_v] in Hv'.
    unfold recovery_ids in Hv. rewrite !elem_of_cons, elem_of_nil in Hv. destruct Hv as [E|[E|[E|[E|[]]]]]; auto; rewrite E in Hv'; by apply legacy_flips in Hv'.
  - intros Hp hash. specialize (Hval' Hp). unfold RecoverPublicKey. case_if; [done|].
    assert (Hp' : plain_v sig') by (unfold plain_v, sig'; cbn [sig_v]; destruct Hp as [-> | ->]; vm_compute; auto).
    rewrite !plain_with_recovery_id by done.
    destruct (valid_bytes (E:=key_err) sig Hval) as (b & Hb & _), (valid_bytes (E:=key_err) sig' Hval') as (b' & Hb' & _).
    rewrite Hb, Hb'. simpl. destruct sig as [r s v]. cbn [sig_r sig_s sig_v] in *.
    by rewrite (mirrored_recovers hash r s v b b').
Qed.
End KeyTheorems.

(** ** A model of the library

    256 keys; the key is the last byte of every encoding and of R. *)

Definition last_byte (raw : list byte) : option byte := last raw.
Definition demo_signature (key : byte) : SignatureImpl := MkSignature (256 + Z_of_byte key) 1 x00.

#[local] Instance demo_secp : Secp256k1 byte byte := {|
  DecompressPubkey := last_byte;
  UnmarshalPubkey := last_byte;
  CompressPubkey p := x02 :: replicate 31 x00 ++ [p];
  FromECDSAPub p := x04 :: replicate 63 x00 ++ [p];
  PubkeyToAddress p := x01 :: replicate 18 x00 ++ [p];
  SigToPub _ sig := sig !! 31%nat;
  VerifySignature _ _ _ := true;
  IsOnCurve _ := true;
  ToECDSA := last_byte;
  FromECDSA k := replicate 31 x00 ++ [k];
  PublicOf k := k;
  Sign _ key := match Sig_Bytes (E:=key_err) (demo_signature key) with Ok b => Some b | _ => None end
|}.

Lemma demo_signature_bytes key : Sig_Bytes (E:=key_err) (demo_signature key) =
  Ok (replicate 30 x00 ++ [x01; key] ++ replicate 31 x00 ++ [x01] ++ [x00]).
Proof. by destruct key. Qed.

Lemma mirrored_R (r s s' : Z) (v v' : byte) b b' : Sig_Bytes (E:=key_err) (MkSignature r s v) = Ok b ->
  Sig_Bytes (E:=key_err) (MkSignature r s' v') = Ok b' -> 0 < r < curveN -> b !! 31%nat = b' !! 31%nat.
Proof.
  intros Hb Hb' Hr. unfold Sig_Bytes in *. cbn [sig_r sig_s sig_v] in *. pose proof curveN_bound.
  destruct (FillBytes_ok (E:=key_err) 32 r) as (raw & Hf & Hl & _); [lia|]. rewrite Hf in Hb, Hb'. simpl in *.
  destruct (FillBytes 32 s); [|done..]. destruct (FillBytes 32 s'); [|done..]. simplify_eq/=.
  by rewrite !lookup_app_l by lia.
Qed.

#[local] Instance demo_secp_laws : Secp256k1Laws byte byte.
Proof.
  split.
  - intros p. exists x02, (replicate 31 x00 ++ [p]). auto.
  - done.
  - intros p. by exists (replicate 63 x00 ++ [p]).
  - done.
  - done.
  - intros hash key _. cbn [Sign demo_secp]. rewrite demo_signature_bytes. eexists. split; [done|].
    exists (256 + Z_of_byte key), 1, x00. rewrite <-demo_signature_bytes. pose proof (Z_of_byte_range key).
    assert (512 < curveN) by reflexivity. split_and!; try lia; [|auto|done]. apply Z.div_le_lower_bound; lia.
  - intros hash key sig. cbn [Sign SigToPub PublicOf demo_secp]. rewrite demo_signature_bytes. by intros [= <-].
  - done.
  - intros hash r s v sig sig' Hr Hs Hv Hb Hb'. symmetry. by apply (mirrored_R r s (curveN - s) v (xor_byte v x01)).
Qed.

Lemma signing_correct_witness :
  exists sig b, SignHash (Some x2a) (replicate 32 x07) = Ok sig /\ IsNormalized sig = true /\
    Sig_Bytes (E:=key_err) sig = Ok b /\ NewSignatureFromBytes b = Ok sig /\
    (forall p, Pub_VerifyHash p (replicate 32 x07) (Some sig) = Ok tt <-> p = Some (PublicOf x2a)) /\
    RecoverAddressFromHash (replicate 32 x07) b = Ok (Priv_Address (Some x2a)) /\
    NewPublicKeyFromBytes (Pub_Bytes (Some (PublicOf x2a))) = Ok (Some (PublicOf x2a)).
Proof. apply (signing_correct (Pub:=byte) x2a (replicate 32 x07)). reflexivity. Defined.

Definition high_legacy : SignatureImpl := MkSignature 1 (curveN - 1) x1b.

Lemma normalize_exact_witness :
  IsNormalized (Normalize high_legacy) = true /\
  (Sig_IsValid (Normalize high_legacy) = true <-> IsNormalized high_legacy = true \/ plain_v high_legacy) /\
  (plain_v high_legacy -> forall hash,
     RecoverPublicKey hash (Some (Normalize high_legacy)) = RecoverPublicKey hash (Some high_legacy)).
Proof. apply (normalize_exact (Pub:=byte) high_legacy). reflexivity. Defined.
