(* ===== verification/Wire.v ===== *)
(** * Fixed-width fields of hashed messages

    [binary.BigEndian] writes of 2, 4 and 8 bytes and the lemmas that take a
    concatenation of fields apart again. *)

From S2P Require Import Prelude Uint256 Address Storage StateRoot.
From stdpp Require Import base tactics numbers list strings.
From Stdlib Require Import ZArith Lia Strings.Byte Strings.Ascii.
Open Scope Z_scope.
Open Scope list_scope.

Definition PutUint32 (n : Z) : list byte :=
  let bs := Bytes (u32 n) in replicate (4 - length bs) x00 ++ bs.

#[global] Arguments PutUint32 : simpl never.
#[global] Arguments PutUint16 : simpl never.

Lemma u32_range n : 0 <= u32 n < two32.
Proof. unfold u32. apply Z.mod_pos_bound. unfold two32. lia. Qed.

Lemma PutUint32_length n : length (PutUint32 n) = 4%nat.
Proof.
  unfold PutUint32. rewrite length_app, length_replicate.
  assert (length (Bytes (u32 n)) <= 4)%nat; [|lia].
  pose proof (u32_range n). apply Bytes_length; [lia|]. change (256 ^ Z.of_nat 4) with two32. lia.
Qed.

Lemma PutUint32_inj m n : PutUint32 m = PutUint32 n -> u32 m = u32 n.
Proof.
  intros Heq. apply (f_equal SetBytes) in Heq. unfold PutUint32 in Heq.
  pose proof (u32_range m). pose proof (u32_range n).
  by rewrite !SetBytes_zeros, !SetBytes_Bytes in Heq by lia.
Qed.

Lemma PutUint64_inj m n : PutUint64 m = PutUint64 n -> u64 m = u64 n.
Proof.
  intros Heq. pose proof (@Uint64_PutUint64 unit m) as Hm. rewrite Heq, Uint64_PutUint64 in Hm. by injection Hm.
Qed.

Lemma PutUint16_length n : length (PutUint16 n) = 2%nat.
Proof. done. Qed.

Lemma PutUint16_inj m n : 0 <= m < 65536 -> 0 <= n < 65536 -> PutUint16 m = PutUint16 n -> m = n.
Proof.
  intros Hm Hn Heq. unfold PutUint16 in Heq. injection Heq as H1 H2.
  apply byte_of_Z_inj in H1; [|rewrite Z.mod_small by lia; split; [apply Z.div_pos; lia|apply Z.div_lt_upper_bound; lia]..].
  apply byte_of_Z_inj in H2; [|apply Z.mod_pos_bound; lia..].
  rewrite !(Z.mod_small _ 65536) in H1 by lia.
  rewrite (Z.div_mod m 256), (Z.div_mod n 256) by lia. congruence.
Qed.

Lemma bytes_of_string_inj s t : bytes_of_string s = bytes_of_string t -> s = t.
Proof.
  intros Heq. apply (f_equal (fmap Ascii.ascii_of_byte)) in Heq. unfold bytes_of_string in Heq.
  rewrite <-!list_fmap_compose in Heq.
  assert (Hid : forall cs : list ascii, (Ascii.ascii_of_byte ∘ Ascii.byte_of_ascii) <$> cs = cs).
  { intros cs. rewrite <-(list_fmap_id cs) at 2. apply list_fmap_ext. intros ? c _. apply Ascii.ascii_of_byte_of_ascii. }
  rewrite !Hid in Heq. by rewrite <-(of_chars_chars s), <-(of_chars_chars t), Heq.
Qed.

Lemma bytes_of_string_length s : length (bytes_of_string s) = length (chars s).
Proof. apply length_fmap. Qed.

Lemma EncodeToString_inj a b : EncodeToString a = EncodeToString b -> a = b.
Proof.
  intros Heq. apply hex_encode_inj. apply (f_equal chars) in Heq. unfold EncodeToString in Heq. by rewrite !chars_of_chars in Heq.
Qed.

(** A length-prefixed field ends where its length says. *)
Lemma prefixed_inj a b (x y : list byte) : Z.of_nat (length a) < 65536 -> Z.of_nat (length b) < 65536 ->
  PutUint16 (Z.of_nat (length a)) ++ a ++ x = PutUint16 (Z.of_nat (length b)) ++ b ++ y -> a = b /\ x = y.
Proof.
  intros Ha Hb Heq. apply app_inj_1 in Heq as [Hlen Heq]; [|by rewrite !PutUint16_length].
  apply PutUint16_inj in Hlen; [|lia..]. apply app_inj_1 in Heq as [-> ->]; [done|lia].
Qed.

Lemma u64_i64_inj m n : is_i64 m -> is_i64 n -> u64 m = u64 n -> m = n.
Proof.
  unfold u64, is_i64. unfold_ints. intros Hm Hn Heq.
  Z.to_euclidean_division_equations. lia.
Qed.

Lemma u64_u64_inj m n : is_u64 m -> is_u64 n -> u64 m = u64 n -> m = n.
Proof. intros Hm Hn. by rewrite !u64_id. Qed.

(** Takes the first field off both sides of [H]. *)
Ltac peel H E :=
  apply app_inj_1 in H as [E H]; [|rewrite ?PutUint64_length, ?PutUint32_length, ?bytes_of_string_length; done].
