(* ===== verification/Blocks.v ===== *)
(** * Blocks (src/core/block)

    Creating, hashing, signing and checking blocks: [hash.go], [utils.go],
    [creator.go] and [validator.go].  The size of a block's JSON form, which
    [encoding/json] derives by reflection, is an argument. *)

From S2P Require Import Prelude SafeMath Uint256 Address Storage AccountManager Hashes Keys StateRoot Wire.
From stdpp Require Import base tactics numbers list gmap strings.
From Stdlib Require Import ZArith Lia Strings.Byte Strings.Ascii.
Open Scope Z_scope.
Open Scope list_scope.

Definition MaxTransactionsPerBlock : Z := 1000.
Definition MaxBlockSize : Z := 2 * 1024 * 1024.

Inductive block_err : Type :=
| NilBlock
| NilHeader
| EmptyBlockHash
| EmptyValidator
| NegativeIndex (index : Z)
| TimestampNotPositive (t : Z)
| NegativeGas (gas : Z)
| GasLimitNotPositive (limit : Z)
| GasAboveLimit (used limit : Z)
| EmptyTxRoot
| GenesisIndex (index : Z)
| GenesisPrevHash
| WrongIndex (expected got : Z)
| WrongPrevHash (expected got : string)
| TimestampNotLater
| TooFarInFuture
| TooFarInPast
| IncrementTooLarge (diff : Z)
| DriftTooLarge (diff : Z)
| EmptySender (i : Z)
| WrongShard (id : string)
| EmptyTxHash (id : string)
| EmptyTxId (i : Z)
| GasOverflow (i : Z)
| GasMismatch (header calculated : Z)
| GasAboveMaximum (gas : Z)
| FeesInvalid (e : u256_err)
| BlockHashMismatch (expected got : string)
| TxRootMismatch (expected got : string)
| BlockSignature (e : key_err)
| WrongHeight (expected got : Z)
| TooManyTransactions (n : Z)
| BlockTooLarge (n : Z)
| NilPrivateKey.

(** ** Hashing *)

Section Blocks.
Context (Keccak256 : list byte -> list byte).

(** The fees, in canonical form from version 2 on. *)
Definition fee_bytes (h : BlockHeader) : outcome block_err (list byte) :=
  if 2 <=? hdr_StateEncodingVersion h then
    totalFees ← wrap FeesInvalid (ParseUint256Bytes (hdr_TotalFees h));
    totalFeesBytes ← wrap FeesInvalid (BigIntToUint256Bytes (Some totalFees));
    Ok (PutUint16 (Z.of_nat (length totalFeesBytes)) ++ totalFeesBytes)
  else Ok (hdr_TotalFees h).

Definition header_bytes (h : BlockHeader) (fees : list byte) : list byte :=
  PutUint64 (hdr_Index h) ++ bytes_of_string (hdr_PrevHash h) ++ PutUint64 (hdr_Timestamp h) ++
  bytes_of_string (hdr_Validator h) ++ bytes_of_string (hdr_TxRoot h) ++
  (if 2 <=? hdr_StateEncodingVersion h then PutUint32 (hdr_StateEncodingVersion h) else []) ++
  bytes_of_string (hdr_StateRoot h) ++ PutUint64 (hdr_GasUsed h) ++ PutUint64 (hdr_GasLimit h) ++
  PutUint64 (hdr_Slot h) ++ PutUint64 (hdr_Epoch h) ++ fees ++
  bytes_of_string (hdr_MerkleRoot h) ++ hdr_VrfOutput h ++ hdr_VrfProof h.

Definition CanonicalBlockHash (b : option Block) : outcome block_err string :=
  match b with
  | None => Err NilHeader
  | Some b =>
      match blk_Header b with
      | None => Err NilHeader
      | Some h =>
          fees ← fee_bytes h;
          Ok (EncodeToString (Keccak256 (header_bytes h fees)))
      end
  end.

(** ** The transaction root *)

Definition is_space (c : ascii) : bool := bool_decide (code c ∈ [9; 11; 12; 13; 32]).

(** [fmt.Sscanf(s, "%02x", &b)] on two characters, with [b] zero before. *)
Definition Sscanf_02x (c1 c2 : ascii) : byte :=
  match hexval c1, hexval c2 with
  | Some a, Some b => byte_of_Z (16 * a + b)
  | Some a, None => byte_of_Z a
  | None, Some b => if is_space c1 then byte_of_Z b else x00
  | None, None => x00
  end.

(** [hash[i:i+2]] is out of range at the last character of an odd length. *)
Fixpoint scan_hash (cs : list ascii) : outcome block_err (list byte) :=
  match cs with
  | c1 :: c2 :: cs' => bs ← scan_hash cs'; Ok (Sscanf_02x c1 c2 :: bs)
  | [_] => Panic
  | [] => Ok []
  end.

Fixpoint scan_hashes (hashes : list string) : outcome block_err (list (list byte)) :=
  match hashes with
  | [] => Ok []
  | h :: hashes' => bs ← scan_hash (chars h); rest ← scan_hashes hashes'; Ok (bs :: rest)
  end.

Fixpoint block_level (level : list (list byte)) : list (list byte) :=
  match level with
  | l :: r :: rest => Keccak256 (l ++ r) :: block_level rest
  | [l] => [Keccak256 (l ++ l)]
  | [] => []
  end.

Fixpoint root_loop (fuel : nat) (level : list (list byte)) : option (list byte) :=
  match level with
  | [] => None
  | [root] => Some root
  | _ => match fuel with O => None | S fuel' => root_loop fuel' (block_level level) end
  end.

Definition calculateEmptyRoot : string := EncodeToString (Keccak256 []).

Definition calculateMerkleRoot (hashes : list string) : outcome block_err string :=
  match hashes with
  | [] => Ok calculateEmptyRoot
  | [h] => Ok h
  | _ =>
      level ← scan_hashes hashes;
      Ok (EncodeToString (default [] (root_loop (length level) level)))
  end.

(** ** Checks on a block alone *)

Definition header_of (b : Block) : outcome block_err BlockHeader :=
  match blk_Header b with Some h => Ok h | None => Panic end.

Definition verifyBlockHash (block : Block) : outcome block_err unit :=
  calculatedHash ← CanonicalBlockHash (Some block);
  if negb (bool_decide (calculatedHash = blk_Hash block))
  then Err (BlockHashMismatch (blk_Hash block) calculatedHash) else Ok tt.
Definition ValidateBlockHash := verifyBlockHash.

Definition verifyTransactionRoot (block : Block) : outcome block_err unit :=
  let txHashes := tx_Hash <$> blk_Transactions block in
  expectedRoot ← (if (0 <? length txHashes)%nat then calculateMerkleRoot txHashes else Ok calculateEmptyRoot);
  h ← header_of block;
  if negb (bool_decide (hdr_TxRoot h = expectedRoot)) then Err (TxRootMismatch expectedRoot (hdr_TxRoot h)) else Ok tt.
Definition ValidateTransactionRoot := verifyTransactionRoot.

Definition GetBlockSize (block : option Block) : Z :=
  match block with None => 0 | Some b => 200 + Z.of_nat (length (blk_Transactions b)) * 300 end.

Definition IsGenesisBlock (block : option Block) : bool :=
  match block with
  | Some b => match blk_Header b with
              | Some h => (hdr_Index h =? 0) && bool_decide (hdr_PrevHash h = "")
              | None => false
              end
  | None => false
  end.

Definition CompareBlocks (a b : option Block) : bool :=
  match a, b with
  | Some a, Some b =>
      if negb (bool_decide (blk_Hash a = blk_Hash b)) then false
      else match blk_Header a, blk_Header b with
           | Some ha, Some hb =>
               (hdr_Index ha =? hdr_Index hb) && bool_decide (hdr_PrevHash ha = hdr_PrevHash hb) &&
               (hdr_Timestamp ha =? hdr_Timestamp hb) && bool_decide (hdr_Validator ha = hdr_Validator hb) &&
               bool_decide (hdr_TxRoot ha = hdr_TxRoot hb) && bool_decide (hdr_StateRoot ha = hdr_StateRoot hb) &&
               (hdr_GasUsed ha =? hdr_GasUsed hb) && (hdr_GasLimit ha =? hdr_GasLimit hb) &&
               bool_decide (tx_Hash <$> blk_Transactions a = tx_Hash <$> blk_Transactions b)
           | None, None => true
           | _, _ => false
           end
  | None, None => true
  | _, _ => false
  end.

(** ** Signatures

    The hash text is hashed, and [Sign] and [Verify] hash again. *)

Section Signatures.
Context {Pub Priv : Type} `{Secp256k1 Pub Priv}.

Definition set_Signature (sig : list byte) (b : Block) : Block :=
  MkBlock (blk_Header b) (blk_Transactions b) (blk_Hash b) sig (blk_ProposalSignature b).

Definition verifyBlockSignature (block : Block) (publicKey : option (@PublicKeyImpl Pub)) : outcome block_err unit :=
  match publicKey with
  | None => Err (BlockSignature NilKey)
  | Some key =>
      if (length (blk_Signature block) =? 0)%nat then Err (BlockSignature NilSignature)
      else
        let hashToVerify := Keccak256 (bytes_of_string (blk_Hash block)) in
        signature ← wrap BlockSignature (SignatureFromBytes (blk_Signature block));
        wrap BlockSignature (Pub_Verify Keccak256 key hashToVerify (Some signature))
  end.

Definition SignBlock (privateKey : option (@PrivateKeyImpl Priv)) : GoM (option Block) block_err unit :=
  block ← get;
  match block with
  | None => throw NilBlock
  | Some block =>
      match privateKey with
      | None => throw NilPrivateKey
      | Some key =>
          let hashToSign := Keccak256 (bytes_of_string (blk_Hash block)) in
          signature ← lift (wrap BlockSignature (Priv_Sign Keccak256 key hashToSign));
          bs ← lift (Sig_Bytes signature);
          put (Some (set_Signature bs block))
      end
  end.

Definition VerifyBlock (block : option Block) (publicKey : option (@PublicKeyImpl Pub)) : outcome block_err unit :=
  match block with
  | None => Err NilBlock
  | Some block =>
      _ ← verifyBlockHash block;
      _ ← verifyTransactionRoot block;
      match publicKey with
      | Some _ => if (0 <? length (blk_Signature block))%nat then verifyBlockSignature block publicKey else Ok tt
      | None => Ok tt
      end
  end.
End Signatures.

(** ** Creating *)

Section Creator.
Context (json_size : Block -> Z) (shardID totalShards : Z).

Definition filterTransactionsForShard (transactions : list Transaction) : list Transaction :=
  if shardID =? BeaconShardID then transactions
  else filter (fun tx => negb (bool_decide (tx_From tx = "")) &&
                         (CalculateShardID Keccak256 totalShards (tx_From tx) =? shardID)) transactions.

Fixpoint gas_loop (gasLimit totalGas : Z) (transactions : list Transaction) : list Transaction :=
  match transactions with
  | [] => []
  | tx :: txs =>
      let takes := i64 (totalGas + tx_Gas tx) <=? gasLimit in
      let totalGas' := if takes then i64 (totalGas + tx_Gas tx) else totalGas in
      (if takes then [tx] else []) ++ (if gasLimit <=? totalGas' then [] else gas_loop gasLimit totalGas' txs)
  end.
Definition filterTransactionsByGas (transactions : list Transaction) (gasLimit : Z) : list Transaction :=
  gas_loop gasLimit 0 transactions.

Fixpoint no_empty_hash (transactions : list Transaction) : outcome block_err unit :=
  match transactions with
  | [] => Ok tt
  | tx :: txs => if bool_decide (tx_Hash tx = "") then Err (EmptyTxHash (tx_Id tx)) else no_empty_hash txs
  end.

Definition calculateTransactionRoot (transactions : list Transaction) : outcome block_err string :=
  match transactions with
  | [] => Ok calculateEmptyRoot
  | _ => _ ← no_empty_hash transactions; calculateMerkleRoot (tx_Hash <$> transactions)
  end.

Definition calculateGasUsed (transactions : list Transaction) : Z :=
  foldl (fun totalGas tx => i64 (totalGas + tx_Gas tx)) 0 transactions.

Definition ValidateBlockSize (block : Block) : outcome block_err unit :=
  let n := Z.of_nat (length (blk_Transactions block)) in
  if MaxTransactionsPerBlock <? n then Err (TooManyTransactions n)
  else
    let blockSize := json_size block in
    if MaxBlockSize <? blockSize then Err (BlockTooLarge blockSize) else Ok tt.

Definition new_header (index : Z) (prevHash : string) (timestamp : Z) (validator txRoot : string) (gasUsed gasLimit : Z)
    : BlockHeader :=
  MkBlockHeader index prevHash timestamp validator txRoot "" gasUsed gasLimit 0 0 [] "" [] [] 0.

Definition CreateBlock (now : Z) (prevBlock : option Block) (transactions : list Transaction) (validator : string)
    (gasLimit : Z) : outcome block_err Block :=
  if bool_decide (validator = "") then Err EmptyValidator
  else if gasLimit <=? 0 then Err (GasLimitNotPositive gasLimit)
  else
    let shardTransactions := filterTransactionsForShard transactions in
    txRoot ← calculateTransactionRoot shardTransactions;
    let gasUsed := calculateGasUsed shardTransactions in
    if gasLimit <? gasUsed then Err (GasAboveLimit gasUsed gasLimit)
    else
      '(blockIndex, prevHash) ←
        match prevBlock with
        | None => Ok (0, "")
        | Some p => h ← header_of p; Ok (i64 (hdr_Index h + 1), blk_Hash p)
        end;
      let header := new_header blockIndex prevHash now validator txRoot gasUsed gasLimit in
      let block := MkBlock (Some header) shardTransactions "" [] [] in
      _ ← ValidateBlockSize block;
      blockHash ← CanonicalBlockHash (Some block);
      Ok (MkBlock (Some header) shardTransactions blockHash [] []).

Definition CreateGenesisBlock (now : Z) (genesisValidator : string) (timestamp : Z) : outcome block_err Block :=
  if bool_decide (genesisValidator = "") then Err EmptyValidator
  else
    let timestamp' := if timestamp <=? 0 then now else timestamp in
    let header := new_header 0 "" timestamp' genesisValidator calculateEmptyRoot 0 1000000 in
    blockHash ← CanonicalBlockHash (Some (MkBlock (Some header) [] "" [] []));
    Ok (MkBlock (Some header) [] blockHash [] []).

Record BlockTemplate : Type := MkTemplate {
  tpl_PrevBlock : option Block;
  tpl_Transactions : list Transaction;
  tpl_GasLimit : Z;
  tpl_MaxTxs : Z
}.

Definition CreateBlockTemplate (prevBlock : option Block) (candidates : list Transaction) (gasLimit maxTxs : Z)
    : BlockTemplate :=
  let shardTxs := filterTransactionsForShard candidates in
  let shardTxs' :=
    if (0 <? maxTxs) && (maxTxs <? Z.of_nat (length shardTxs)) then take (Z.to_nat maxTxs) shardTxs else shardTxs in
  MkTemplate prevBlock (filterTransactionsByGas shardTxs' gasLimit) gasLimit maxTxs.

Definition CreateBlockFromTemplate (now : Z) (template : BlockTemplate) (validator : string) : outcome block_err Block :=
  CreateBlock now (tpl_PrevBlock template) (tpl_Transactions template) validator (tpl_GasLimit template).

Definition EstimateBlockSize (transactions : list Transaction) : Z :=
  200 + Z.of_nat (length transactions) * 300.

Definition set_StateRoot (stateRoot : string) (version : Z) (h : BlockHeader) : BlockHeader :=
  MkBlockHeader (hdr_Index h) (hdr_PrevHash h) (hdr_Timestamp h) (hdr_Validator h) (hdr_TxRoot h) stateRoot
    (hdr_GasUsed h) (hdr_GasLimit h) (hdr_Slot h) (hdr_Epoch h) (hdr_TotalFees h) (hdr_MerkleRoot h)
    (hdr_VrfOutput h) (hdr_VrfProof h) (if version =? 0 then hdr_StateEncodingVersion h else version).

Definition SetStateRootWithVersion (block : option Block) (stateRoot : string) (version : Z) : option Block :=
  match block with
  | None => None
  | Some b =>
      match blk_Header b with
      | None => Some b
      | Some h =>
          let b' := MkBlock (Some (set_StateRoot stateRoot version h)) (blk_Transactions b) (blk_Hash b)
                      (blk_Signature b) (blk_ProposalSignature b) in
          match CanonicalBlockHash (Some b') with
          | Ok newHash => Some (MkBlock (blk_Header b') (blk_Transactions b) newHash (blk_Signature b) (blk_ProposalSignature b))
          | _ => Some b'
          end
      end
  end.
Definition SetStateRoot (block : option Block) (stateRoot : string) : option Block :=
  SetStateRootWithVersion block stateRoot 0.
End Creator.

(** ** Checking against the chain *)

(** The durations of the consensus configuration, in seconds. *)
Record TimeLimits : Type := MkTimeLimits {
  MaxFutureBlockTime : Z;
  MaxPastBlockTime : Z;
  MaxBlockTimeDrift : Z
}.

Section Validation.
Context {Pub Priv : Type} `{Secp256k1 Pub Priv} (shardID totalShards : Z) (config : option TimeLimits).

Definition validateBlockStructure (block : Block) : outcome block_err unit :=
  match blk_Header block with
  | None => Err NilHeader
  | Some h =>
      if bool_decide (blk_Hash block = "") then Err EmptyBlockHash
      else if bool_decide (hdr_Validator h = "") then Err EmptyValidator
      else if hdr_Index h <? 0 then Err (NegativeIndex (hdr_Index h))
      else if hdr_Timestamp h <=? 0 then Err (TimestampNotPositive (hdr_Timestamp h))
      else if hdr_GasUsed h <? 0 then Err (NegativeGas (hdr_GasUsed h))
      else if hdr_GasLimit h <=? 0 then Err (GasLimitNotPositive (hdr_GasLimit h))
      else if hdr_GasLimit h <? hdr_GasUsed h then Err (GasAboveLimit (hdr_GasUsed h) (hdr_GasLimit h))
      else if bool_decide (hdr_TxRoot h = "") then Err EmptyTxRoot
      else Ok tt
  end.

Definition validateChainContinuity (block : Block) (prevBlock : option Block) : outcome block_err unit :=
  h ← header_of block;
  match prevBlock with
  | None =>
      if negb (hdr_Index h =? 0) then Err (GenesisIndex (hdr_Index h))
      else if negb (bool_decide (hdr_PrevHash h = "")) then Err GenesisPrevHash
      else Ok tt
  | Some p =>
      ph ← header_of p;
      let expected := i64 (hdr_Index ph + 1) in
      if negb (hdr_Index h =? expected) then Err (WrongIndex expected (hdr_Index h))
      else if negb (bool_decide (hdr_PrevHash h = blk_Hash p)) then Err (WrongPrevHash (blk_Hash p) (hdr_PrevHash h))
      else if hdr_Timestamp h <=? hdr_Timestamp ph then Err TimestampNotLater
      else Ok tt
  end.

Fixpoint shard_loop (i : Z) (transactions : list Transaction) : outcome block_err unit :=
  match transactions with
  | [] => Ok tt
  | tx :: txs =>
      if bool_decide (tx_From tx = "") then Err (EmptySender i)
      else if negb (CalculateShardID Keccak256 totalShards (tx_From tx) =? shardID) then Err (WrongShard (tx_Id tx))
      else if bool_decide (tx_Hash tx = "") then Err (EmptyTxHash (tx_Id tx))
      else if bool_decide (tx_Id tx = "") then Err (EmptyTxId i)
      else shard_loop (i + 1) txs
  end.
Definition validateShardTransactions (block : Block) : outcome block_err unit :=
  if shardID =? BeaconShardID then Ok tt else shard_loop 0 (blk_Transactions block).

Definition validateCryptographic (block : Block) (publicKey : option (@PublicKeyImpl Pub)) : outcome block_err unit :=
  _ ← verifyBlockHash block;
  _ ← verifyTransactionRoot block;
  match publicKey with
  | Some _ => if (0 <? length (blk_Signature block))%nat then verifyBlockSignature block publicKey else Ok tt
  | None => Ok tt
  end.

Fixpoint gas_sum (i calculatedGas : Z) (transactions : list Transaction) : outcome block_err Z :=
  match transactions with
  | [] => Ok calculatedGas
  | tx :: txs =>
      match SafeAdd calculatedGas (tx_Gas tx) with
      | Ok newTotal => gas_sum (i + 1) newTotal txs
      | _ => Err (GasOverflow i)
      end
  end.

Definition maxBlockGas : Z := 30000000.

Definition ValidateGasUsage (block : Block) : outcome block_err unit :=
  calculatedGas ← gas_sum 0 0 (blk_Transactions block);
  h ← header_of block;
  if negb (hdr_GasUsed h =? calculatedGas) then Err (GasMismatch (hdr_GasUsed h) calculatedGas)
  else if maxBlockGas <? calculatedGas then Err (GasAboveMaximum calculatedGas)
  else Ok tt.

Definition MaxGenesisRecoveryTime : Z := 2592000.

Definition ValidateTimestamp (now : Z) (block : Block) (prevBlock : option Block) (maxFutureTime maxPastTime : Z)
    : outcome block_err unit :=
  h ← header_of block;
  let blockTime := hdr_Timestamp h in
  if i64 (now + maxFutureTime) <? blockTime then Err TooFarInFuture
  else if blockTime <? i64 (now - maxPastTime) then Err TooFarInPast
  else match prevBlock with
       | None => Ok tt
       | Some p =>
           ph ← header_of p;
           if blockTime <=? hdr_Timestamp ph then Err TimestampNotLater
           else
             let maxDrift := match config with
                             | Some c => if 0 <? MaxBlockTimeDrift c then MaxBlockTimeDrift c else 600
                             | None => 600
                             end in
             let timeDiff := i64 (blockTime - hdr_Timestamp ph) in
             if 3600 <? timeDiff then
               if timeDiff <=? MaxGenesisRecoveryTime then Ok tt else Err (IncrementTooLarge timeDiff)
             else if maxDrift <? timeDiff then Err (DriftTooLarge timeDiff)
             else Ok tt
       end.

Definition validateAtomic (now : Z) (block : Block) (prevBlock : option Block) (publicKey : option (@PublicKeyImpl Pub))
    : outcome block_err unit :=
  _ ← validateBlockStructure block;
  _ ← validateChainContinuity block prevBlock;
  let maxFuture := from_option MaxFutureBlockTime 15 config in
  let maxPast := from_option MaxPastBlockTime 7200 config in
  _ ← ValidateTimestamp now block prevBlock maxFuture maxPast;
  _ ← validateShardTransactions block;
  _ ← ValidateGasUsage block;
  validateCryptographic block publicKey.

(** The cached verdicts: [None] is success.  A call that panics records nothing. *)
Notation cache := (gmap string (option block_err)).

Definition ValidateBlock (now : Z) (block : option Block) (prevBlock : option Block)
    (publicKey : option (@PublicKeyImpl Pub)) : GoM cache block_err unit := fun c =>
  match block with
  | None => (Err NilBlock, c)
  | Some b =>
      match c !! blk_Hash b with
      | Some (Some e) => (Err e, c)
      | Some None => (Ok tt, c)
      | None =>
          let record verdict :=
            let c' := <[blk_Hash b := verdict]> c in
            if (1000 <? size c')%nat then ∅ else c' in
          match validateAtomic now b prevBlock publicKey with
          | Ok _ => (Ok tt, record None)
          | Err e => (Err e, record (Some e))
          | r => (r, c)
          end
      end
  end.

Definition ValidateBlockForChain (now : Z) (block prevBlock : option Block) (expectedHeight : Z)
    : GoM cache block_err unit :=
  match block with
  | None => throw NilBlock
  | Some b =>
      h ← lift (header_of b);
      _ ← refuse_if (negb (hdr_Index h =? expectedHeight)) (WrongHeight expectedHeight (hdr_Index h));
      ValidateBlock now block prevBlock None
  end.

(** Each block with the clock reading of its check. *)
Fixpoint ValidateBlockBatch (blocks : list (Z * Block)) (prevBlock : option Block) : GoM cache block_err unit :=
  match blocks with
  | [] => mret tt
  | (now, b) :: blocks' => _ ← ValidateBlock now (Some b) prevBlock None; ValidateBlockBatch blocks' (Some b)
  end.
End Validation.
End Blocks.
