(* ===== verification/BlocksSpec.v ===== *)
(** * Blocks: what the hash and the checks establish

    The block's transaction root is the Merkle root of [Hashes]; a block hash
    commits to the header and the transactions; a block that was created passes
    the checks; and what the cache of verdicts does to them. *)

From S2P Require Import Prelude SafeMath Uint256 Address Storage AccountManager Hashes Keys StateRoot Wire Blocks.
From stdpp Require Import base tactics numbers list gmap strings.
From Stdlib Require Import ZArith Lia Strings.Byte Strings.Ascii.
Open Scope Z_scope.
Open Scope list_scope.

(** ** The transaction root *)

(** A transaction hash as the code prints it. *)
Definition hex_hash (s : string) (h : Hash) : Prop := s = EncodeToString h /\ is_hash h.

Lemma scan_hash_decode cs bs : hex_decode cs = Ok bs -> scan_hash cs = Ok bs.
Proof.
  revert bs. induction cs as [|c|p q cs IH] using pair_ind; intros bs; simpl; [congruence|by destruct (hexval c)|].
  unfold Sscanf_02x. destruct (hexval p) as [a|] eqn:Ha; [|done]. destruct (hexval q) as [b|] eqn:Hb; [|done].
  destruct (hex_decode cs) as [bs'| | |]; simpl; try done. intros [= <-]. rewrite (IH bs') by done. simpl.
  apply hexval_range in Ha, Hb. by rewrite join_nibbles.
Qed.

Lemma scan_hashes_hex hashes leaves : Forall2 hex_hash hashes leaves -> scan_hashes hashes = Ok leaves.
Proof.
  induction 1 as [|s h hashes leaves [-> _] _ IH]; [done|]. simpl.
  unfold EncodeToString. rewrite chars_of_chars, (scan_hash_decode _ h) by apply hex_decode_encode. simpl. by rewrite IH.
Qed.

Section Root.
Context (Keccak256 : list byte -> list byte) (Hlen : forall x, length (Keccak256 x) = 32%nat).

Lemma NewHash_Keccak x : NewHash Keccak256 x = Keccak256 x.
Proof. unfold NewHash. apply to_array_id. apply Hlen. Qed.

Lemma block_level_next level : block_level Keccak256 level = nextLevel Keccak256 level.
Proof.
  induction level as [|x|x y level IH] using pair_ind; simpl; unfold MerkleParent; rewrite ?NewHash_Keccak, ?IH; done.
Qed.

Lemma root_loop_merkle fuel level : root_loop Keccak256 fuel level = merkle_loop Keccak256 fuel level.
Proof.
  revert level. induction fuel as [|fuel IH]; intros [|x [|y level]]; try done.
  cbn [root_loop merkle_loop]. by rewrite IH, block_level_next.
Qed.

Lemma calculateMerkleRoot_run hashes leaves : Forall2 hex_hash hashes leaves -> hashes <> [] ->
  calculateMerkleRoot Keccak256 hashes = Ok (EncodeToString (MerkleRoot Keccak256 leaves)).
Proof.
  intros Hh Hne. unfold calculateMerkleRoot. pose proof (scan_hashes_hex _ _ Hh) as Hs.
  destruct Hh as [|s1 h1 hashes leaves [-> _] Hh]; [done|]. destruct Hh as [|s2 h2 hashes leaves _ Hh]; [done|].
  rewrite Hs. cbn [mbind outcome_bind]. rewrite root_loop_merkle, (MerkleRoot_loop Keccak256) by done. done.
Qed.

(** The transaction root of a block is the Merkle root of the transaction
    hashes: for hashes as the code prints them, the routine of the block package
    agrees with the one of the hash package. *)
Theorem transaction_root_is_merkle_root hashes leaves : Forall2 hex_hash hashes leaves -> hashes <> [] ->
  calculateMerkleRoot Keccak256 hashes = Ok (Hash_String (MerkleRoot Keccak256 leaves)).
Proof. apply calculateMerkleRoot_run. Qed.

(** ** The block hash commits to the block *)

Record same_shape (h1 h2 : BlockHeader) : Prop := {
  sh_prev : length (chars (hdr_PrevHash h1)) = length (chars (hdr_PrevHash h2));
  sh_validator : length (chars (hdr_Validator h1)) = length (chars (hdr_Validator h2));
  sh_txroot : length (chars (hdr_TxRoot h1)) = length (chars (hdr_TxRoot h2));
  sh_stateroot : length (chars (hdr_StateRoot h1)) = length (chars (hdr_StateRoot h2));
  sh_merkle : length (chars (hdr_MerkleRoot h1)) = length (chars (hdr_MerkleRoot h2));
  sh_vrf : length (hdr_VrfOutput h1) = length (hdr_VrfOutput h2);
  sh_fees : length (hdr_TotalFees h1) = length (hdr_TotalFees h2);
  sh_version : hdr_StateEncodingVersion h1 = hdr_StateEncodingVersion h2
}.

Definition header_ok (h : BlockHeader) : Prop :=
  is_i64 (hdr_Index h) /\ is_i64 (hdr_Timestamp h) /\ is_i64 (hdr_GasUsed h) /\ is_i64 (hdr_GasLimit h) /\
  is_u64 (hdr_Slot h) /\ is_u64 (hdr_Epoch h).

Lemma fee_bytes_spec h fees : fee_bytes h = Ok fees ->
  fees = if 2 <=? hdr_StateEncodingVersion h
         then PutUint16 (Z.of_nat (length (Bytes (SetBytes (hdr_TotalFees h))))) ++ Bytes (SetBytes (hdr_TotalFees h))
         else hdr_TotalFees h.
Proof.
  unfold fee_bytes. destruct (2 <=? _); [|congruence].
  destruct (ParseUint256Bytes (hdr_TotalFees h)) as [v| | |] eqn:Hp; simpl; try done.
  apply ParseUint256Bytes_ok in Hp as [Hval ->].
  destruct (BigIntToUint256Bytes _) as [raw| | |] eqn:He; simpl; try done. apply encode_ok in He as [_ ->]. congruence.
Qed.

(** The same fees, given the same length. *)
Lemma fees_inj h1 h2 f1 f2 (x y : list byte) :
  hdr_StateEncodingVersion h1 = hdr_StateEncodingVersion h2 -> length (hdr_TotalFees h1) = length (hdr_TotalFees h2) ->
  fee_bytes h1 = Ok f1 -> fee_bytes h2 = Ok f2 -> f1 ++ x = f2 ++ y -> hdr_TotalFees h1 = hdr_TotalFees h2 /\ x = y.
Proof.
  intros Hver Hl F1 F2 Heq. pose proof F1 as G1. pose proof F2 as G2. apply fee_bytes_spec in F1, F2.
  rewrite <-Hver in F2. destruct (2 <=? _) eqn:Hv; subst f1 f2; [|by apply app_inj_1 in Heq].
  assert (Hsmall : forall h f, 2 <=? hdr_StateEncodingVersion h = true -> fee_bytes h = Ok f ->
    Z.of_nat (length (Bytes (SetBytes (hdr_TotalFees h)))) < 65536).
  { intros h f Hvh Hf. unfold fee_bytes in Hf. rewrite Hvh in Hf.
    destruct (ParseUint256Bytes (hdr_TotalFees h)) as [v| | |] eqn:Hp; simpl in Hf; try done.
    apply ParseUint256Bytes_ok in Hp as [Hval ->]. pose proof (SetBytes_u256 _ Hval) as [? ?].
    assert (length (Bytes (SetBytes (hdr_TotalFees h))) <= 32)%nat by (by apply Bytes_length). lia. }
  rewrite <-!app_assoc in Heq. apply prefixed_inj in Heq as [Hb ->]; [|by eapply Hsmall|eapply Hsmall; [|done]; congruence].
  split; [|done]. apply (f_equal SetBytes) in Hb. rewrite !SetBytes_Bytes in Hb by apply SetBytes_nonneg.
  pose proof (FillBytes_SetBytes (E:=unit) _ (hdr_TotalFees h1) eq_refl) as R1.
  pose proof (FillBytes_SetBytes (E:=unit) _ (hdr_TotalFees h2) eq_refl) as R2.
  rewrite Hb, Hl, R2 in R1. by injection R1.
Qed.

Lemma header_bytes_inj h1 h2 f1 f2 : same_shape h1 h2 -> header_ok h1 -> header_ok h2 ->
  fee_bytes h1 = Ok f1 -> fee_bytes h2 = Ok f2 -> header_bytes h1 f1 = header_bytes h2 f2 -> h1 = h2.
Proof.
  intros [S1 S2 S3 S4 S5 S6 S7 S8] (A1 & A2 & A3 & A4 & A5 & A6) (B1 & B2 & B3 & B4 & B5 & B6) F1 F2 Heq.
  unfold header_bytes in Heq. rewrite <-S8 in Heq.
  peel Heq E1. peel Heq E2. peel Heq E3. peel Heq E4. peel Heq E5. apply app_inj_1 in Heq as [E6 Heq]; [|by destruct (2 <=? _)].
  peel Heq E7. peel Heq E8. peel Heq E9. peel Heq E10. peel Heq E11.
  apply (fees_inj h1 h2) in Heq as [E12 Heq]; try done.
  peel Heq E13. apply app_inj_1 in Heq as [E14 E15]; [|done].
  apply bytes_of_string_inj in E2, E4, E5, E7, E13. apply PutUint64_inj in E1, E3, E8, E9, E10, E11.
  apply u64_i64_inj in E1, E3, E8, E9; try done. apply u64_u64_inj in E10, E11; try done.
  clear -E1 E2 E3 E4 E5 E7 E8 E9 E10 E11 E12 E13 E14 E15 S8. destruct h1, h2; simpl in *. by subst.
Qed.

Lemma Keccak_same x y : Keccak256 x = Keccak256 y -> x = y \/ collision Keccak256.
Proof.
  intros Heq. destruct (decide (x = y)); [by left|]. right. exists x, y. split; [done|]. by rewrite !NewHash_Keccak.
Qed.

Lemma verifyBlockHash_ok b h : blk_Header b = Some h -> verifyBlockHash Keccak256 b = Ok tt ->
  exists fees, fee_bytes h = Ok fees /\ blk_Hash b = EncodeToString (Keccak256 (header_bytes h fees)).
Proof.
  intros Hb. unfold verifyBlockHash, CanonicalBlockHash. rewrite Hb.
  destruct (fee_bytes h) as [fees| | |]; simpl; try done. case_bool_decide; [|done]. eauto.
Qed.

(** The leaves of a list of transactions, if their hashes are well-formed. *)
Definition leaves_of (b : Block) (leaves : list Hash) : Prop := Forall2 hex_hash (tx_Hash <$> blk_Transactions b) leaves.

Lemma verifyTransactionRoot_ok b h leaves : blk_Header b = Some h -> leaves_of b leaves ->
  verifyTransactionRoot Keccak256 b = Ok tt <->
  hdr_TxRoot h = EncodeToString (match leaves with [] => Keccak256 [] | _ => MerkleRoot Keccak256 leaves end).
Proof.
  intros Hb Hl. unfold verifyTransactionRoot, header_of. rewrite Hb. unfold leaves_of in Hl.
  destruct (tx_Hash <$> blk_Transactions b) as [|s txHashes] eqn:Ht; [inversion Hl; subst|].
  - simpl. unfold calculateEmptyRoot. case_bool_decide; naive_solver.
  - rewrite (calculateMerkleRoot_run _ _ Hl) by done. destruct leaves; [inversion Hl|]. simpl. case_bool_decide; naive_solver.
Qed.

Lemma hex_hashes_inj l l1 l2 : Forall2 hex_hash l1 l -> Forall2 hex_hash l2 l -> l1 = l2.
Proof.
  intros H1. revert l2. induction H1 as [|s h l1 l [-> _] _ IH]; intros l2 H2; inversion H2 as [|s' ? ? ? [-> _] ?]; subst; [done|].
  f_equal. auto.
Qed.

(** C16. A block hash commits to its block.  Two blocks that pass the hash and the
    transaction-root check under the same hash, with as many transactions, text
    fields of the same lengths and the same encoding version, have the same header
    and the same transaction hashes in the same order, unless they exhibit two
    inputs with the same Keccak-256 hash. *)
Theorem block_hash_commits b1 b2 h1 h2 l1 l2 :
  blk_Header b1 = Some h1 -> blk_Header b2 = Some h2 -> same_shape h1 h2 -> header_ok h1 -> header_ok h2 ->
  leaves_of b1 l1 -> leaves_of b2 l2 -> length l1 = length l2 ->
  verifyBlockHash Keccak256 b1 = Ok tt -> verifyBlockHash Keccak256 b2 = Ok tt ->
  verifyTransactionRoot Keccak256 b1 = Ok tt -> verifyTransactionRoot Keccak256 b2 = Ok tt ->
  blk_Hash b1 = blk_Hash b2 ->
  (h1 = h2 /\ tx_Hash <$> blk_Transactions b1 = tx_Hash <$> blk_Transactions b2) \/ collision Keccak256.
Proof.
  intros B1 B2 Hsh K1 K2 L1 L2 Hll V1 V2 R1 R2 Heq.
  destruct (verifyBlockHash_ok _ _ B1 V1) as (f1 & F1 & E1), (verifyBlockHash_ok _ _ B2 V2) as (f2 & F2 & E2).
  rewrite E1, E2 in Heq. apply EncodeToString_inj, Keccak_same in Heq as [Heq|]; [|by right].
  pose proof (header_bytes_inj h1 h2 f1 f2 Hsh K1 K2 F1 F2 Heq) as <-.
  rewrite (verifyTransactionRoot_ok _ _ _ B1 L1) in R1. rewrite (verifyTransactionRoot_ok _ _ _ B2 L2) in R2.
  rewrite R1 in R2. apply EncodeToString_inj in R2.
  assert (Hh : forall b l, leaves_of b l -> Forall is_hash l).
  { intros b l Hl. eapply Forall2_Forall_r; [exact Hl|]. apply Forall_true. by intros ? ? [_ ?]. }
  assert (Hm : l1 = l2 \/ collision Keccak256).
  { destruct l1 as [|x l1], l2 as [|y l2]; try done; [by left|].
    apply (merkle_leaves_binds Keccak256); eauto. }
  destruct Hm as [->|]; [|by right]. left. split; [done|]. by apply (hex_hashes_inj l2).
Qed.
End Root.

(** ** A created block passes the checks *)

Definition total_gas (txs : list Transaction) : Z := foldr (fun tx acc => tx_Gas tx + acc) 0 txs.

Lemma total_gas_nonneg txs : Forall (fun tx => 0 <= tx_Gas tx) txs -> 0 <= total_gas txs.
Proof. induction 1; simpl; lia. Qed.

Lemma calculateGasUsed_exact acc txs : 0 <= acc -> Forall (fun tx => 0 <= tx_Gas tx) txs ->
  acc + total_gas txs <= maxBlockGas -> foldl (fun t tx => i64 (t + tx_Gas tx)) acc txs = acc + total_gas txs.
Proof.
  intros Hacc Htx. revert acc Hacc. induction Htx as [|tx txs Hg Htx IH]; intros acc Hacc Hmax; simpl in *; [lia|].
  pose proof (total_gas_nonneg txs Htx). unfold maxBlockGas in *.
  rewrite i64_id by (unfold_ints; lia). rewrite IH; lia.
Qed.

Lemma gas_sum_exact i acc txs : 0 <= acc -> Forall (fun tx => 0 <= tx_Gas tx) txs ->
  acc + total_gas txs <= maxBlockGas -> gas_sum i acc txs = Ok (acc + total_gas txs).
Proof.
  intros Hacc Htx. revert i acc Hacc. induction Htx as [|tx txs Hg Htx IH]; intros i acc Hacc Hmax; simpl in *; [f_equal; lia|].
  pose proof (total_gas_nonneg txs Htx). unfold maxBlockGas in *.
  assert (Hadd : SafeAdd acc (tx_Gas tx) = Ok (acc + tx_Gas tx))
    by (apply (checked_op_ok (op := SafeAdd)); unfold is_i64; unfold_ints; lia).
  rewrite Hadd, IH by lia. f_equal. lia.
Qed.

Lemma no_empty_hash_ok txs : no_empty_hash txs = Ok tt <-> Forall (fun tx => tx_Hash tx <> "") txs.
Proof.
  induction txs as [|tx txs IH]; simpl; [done|]. rewrite Forall_cons. case_bool_decide; [naive_solver|]. rewrite IH. tauto.
Qed.

Lemma Encode_nonempty bs : length bs = 32%nat -> EncodeToString bs <> "".
Proof.
  intros Hl Heq. apply (f_equal chars) in Heq. unfold EncodeToString in Heq. rewrite chars_of_chars in Heq. by destruct bs.
Qed.

Section Created.
Context (Keccak256 : list byte -> list byte) (Hlen : forall x, length (Keccak256 x) = 32%nat).
Context (json_size : Block -> Z) (shardID totalShards : Z) (config : option TimeLimits).
Context {Pub Priv : Type} `{Secp256k1Laws Pub Priv}.
Notation CreateBlock := (CreateBlock Keccak256 json_size shardID totalShards).
Notation validateAtomic := (validateAtomic Keccak256 (Pub:=Pub) (Priv:=Priv) shardID totalShards config).

Lemma root_loop_long level : (2 <= length level)%nat ->
  exists x, root_loop Keccak256 (length level) level = Some x /\ length x = 32%nat.
Proof.
  intros Hl. rewrite (root_loop_merkle Keccak256 Hlen). destruct level as [|b1 [|b2 rest]]; simpl in Hl; try lia.
  pose proof (nextLevel_length Keccak256 (b1 :: b2 :: rest)) as Hn. cbn [length] in Hn.
  destruct (merkle_loop_ends Keccak256 (S (length rest)) (nextLevel Keccak256 (b1 :: b2 :: rest))) as [x Hx];
    [done|unfold Hash in *; lia|].
  exists x. split; [exact Hx|]. apply (merkle_loop_hash Keccak256 _ _ _ (nextLevel_hashes Keccak256 _) Hx).
Qed.

Lemma scan_hashes_length hashes level : scan_hashes hashes = Ok level -> length level = length hashes.
Proof.
  revert level. induction hashes as [|s hashes IH]; intros level; simpl; [by intros [= <-]|].
  destruct (scan_hash (chars s)) as [bs| | |]; simpl; try done. destruct (scan_hashes hashes) as [rest| | |]; simpl; try done.
  intros [= <-]. simpl. f_equal. by apply IH.
Qed.

Lemma merkle_nonempty hashes root : hashes <> [] -> Forall (.≠ "") hashes ->
  calculateMerkleRoot Keccak256 hashes = Ok root -> root <> "".
Proof.
  intros Hne Hh. destruct hashes as [|s [|s' hashes]]; [done| |]; unfold calculateMerkleRoot.
  - intros Hr. injection Hr as <-. by rewrite Forall_singleton in Hh.
  - destruct (scan_hashes (s :: s' :: hashes)) as [level| | |] eqn:Hs; cbn [mbind outcome_bind]; try done.
    apply scan_hashes_length in Hs. intros Hr. injection Hr as <-. apply Encode_nonempty.
    destruct (root_loop_long level) as (x & -> & Hx); [simpl in Hs; lia|]. done.
Qed.

Lemma transaction_root_created txs root : calculateTransactionRoot Keccak256 txs = Ok root -> root <> "" /\
  Forall (fun tx => tx_Hash tx <> "") txs /\
  (if (0 <? length (tx_Hash <$> txs))%nat then calculateMerkleRoot Keccak256 (tx_Hash <$> txs)
   else Ok (calculateEmptyRoot Keccak256)) = Ok root.
Proof.
  destruct txs as [|tx txs]; unfold calculateTransactionRoot.
  - intros [= <-]. split_and!; [|done..]. by apply Encode_nonempty.
  - destruct (no_empty_hash (tx :: txs)) as [[]| | |] eqn:Hn; cbn [mbind outcome_bind]; try done. intros Hr.
    apply no_empty_hash_ok in Hn. split_and!; [|done..]. eapply merkle_nonempty; [..|exact Hr]; [done|]. by apply Forall_fmap.
Qed.

(** The gap to the previous block the timestamp check allows. *)
Definition gap_ok (gap : Z) : Prop :=
  3600 < gap <= MaxGenesisRecoveryTime \/
  (gap <= 3600 /\ gap <= match config with
                        | Some c => if 0 <? MaxBlockTimeDrift c then MaxBlockTimeDrift c else 600
                        | None => 600
                        end).

Definition prev_ok (now : Z) (prev : option Block) : Prop :=
  match prev with
  | None => True
  | Some p => exists ph, blk_Header p = Some ph /\ 0 <= hdr_Index ph < MaxInt64 /\
      0 <= hdr_Timestamp ph < now /\ gap_ok (now - hdr_Timestamp ph)
  end.

(** The clock when the block is checked, against its timestamp. *)
Definition clock_ok (now now' : Z) : Prop :=
  0 < now < 2 ^ 62 /\ 0 <= now' < 2 ^ 62 /\
  (let f := from_option MaxFutureBlockTime 15 config in 0 <= f < 2 ^ 62 /\ now <= now' + f) /\
  (let p := from_option MaxPastBlockTime 7200 config in 0 <= p < 2 ^ 62 /\ now' - p <= now).

(** What [CreateBlock] returns. *)
Lemma CreateBlock_inv now prev txs validator gasLimit b : CreateBlock now prev txs validator gasLimit = Ok b ->
  prev_ok now prev ->
  exists h fees, blk_Header b = Some h /\ fee_bytes h = Ok fees /\
    blk_Transactions b = filterTransactionsForShard Keccak256 shardID totalShards txs /\
    blk_Hash b = EncodeToString (Keccak256 (header_bytes h fees)) /\ blk_Signature b = [] /\
    validator <> "" /\ hdr_Validator h = validator /\ hdr_Timestamp h = now /\ hdr_GasLimit h = gasLimit /\ 0 < gasLimit /\
    hdr_GasUsed h = calculateGasUsed (blk_Transactions b) /\ hdr_GasUsed h <= gasLimit /\
    calculateTransactionRoot Keccak256 (blk_Transactions b) = Ok (hdr_TxRoot h) /\
    match prev with
    | None => hdr_Index h = 0 /\ hdr_PrevHash h = ""
    | Some p => hdr_PrevHash h = blk_Hash p /\ exists ph, blk_Header p = Some ph /\ hdr_Index h = i64 (hdr_Index ph + 1)
    end.
Proof.
  unfold Blocks.CreateBlock. intros Hc Hp. case_bool_decide as Hv; [done|]. destruct (Z.leb_spec gasLimit 0); [done|].
  destruct (calculateTransactionRoot _ _) as [root| | |] eqn:Hr; simpl in Hc; try done.
  destruct (Z.ltb_spec gasLimit (calculateGasUsed (filterTransactionsForShard Keccak256 shardID totalShards txs))); [done|].
  destruct prev as [p|]; [destruct Hp as (ph & Hph & _); unfold header_of in Hc; rewrite Hph in Hc|]; simpl in Hc;
    (destruct (ValidateBlockSize _ _) as [[]| | |]; simpl in Hc; [injection Hc as <-|done..]);
    eexists _, _; (split; [reflexivity|]); (split; [reflexivity|]); cbn [new_header blk_Transactions]; split_and!; simpl; eauto.
Qed.

Lemma filter_shard_ok txs : shardID <> BeaconShardID ->
  Forall (fun tx => tx_From tx <> "" /\ CalculateShardID Keccak256 totalShards (tx_From tx) = shardID)
    (filterTransactionsForShard Keccak256 shardID totalShards txs).
Proof.
  intros Hs. unfold filterTransactionsForShard. destruct (Z.eqb_spec shardID BeaconShardID); [done|].
  apply Forall_forall. intros tx [Hf _]%list_elem_of_filter. apply Is_true_true in Hf. case_bool_decide; [done|].
  simpl in Hf. by apply Z.eqb_eq in Hf.
Qed.

Lemma shard_loop_ok i txs : Forall (fun tx => tx_From tx <> "" /\ CalculateShardID Keccak256 totalShards (tx_From tx) = shardID) txs ->
  Forall (fun tx => tx_Hash tx <> "") txs -> Forall (fun tx => tx_Id tx <> "") txs ->
  shard_loop Keccak256 shardID totalShards i txs = Ok tt.
Proof.
  intros H1. revert i. induction H1 as [|tx txs [Hf Hs] _ IH]; intros i H2 H3; [done|]. rewrite Forall_cons in H2, H3.
  cbn [shard_loop]. rewrite bool_decide_false, Hs, Z.eqb_refl by done. simpl.
  rewrite !bool_decide_false by tauto. apply IH; tauto.
Qed.

Lemma continuity_created now prev b h : prev_ok now prev -> blk_Header b = Some h -> hdr_Timestamp h = now ->
  match prev with
  | None => hdr_Index h = 0 /\ hdr_PrevHash h = ""
  | Some p => hdr_PrevHash h = blk_Hash p /\ exists ph, blk_Header p = Some ph /\ hdr_Index h = i64 (hdr_Index ph + 1)
  end -> 0 <= hdr_Index h /\ validateChainContinuity b prev = Ok tt.
Proof.
  intros Hp Hb Ht Hi. unfold validateChainContinuity, header_of. rewrite Hb. simpl.
  destruct prev as [p|]; [|destruct Hi as [-> ->]; done].
  destruct Hp as (ph & Hph & Hix & Hts & _), Hi as [-> (ph' & Hph' & Hih)]. rewrite Hph in Hph' |- *. injection Hph' as <-.
  cbn [mbind outcome_bind]. rewrite Hih, i64_id by (unfold_ints; lia). rewrite Z.eqb_refl, bool_decide_true by done. cbn [negb].
  split; [lia|]. destruct (Z.leb_spec (hdr_Timestamp h) (hdr_Timestamp ph)); [lia|done].
Qed.

Lemma timestamp_created now now' prev b h : prev_ok now prev -> clock_ok now now' -> blk_Header b = Some h ->
  hdr_Timestamp h = now ->
  ValidateTimestamp config now' b prev (from_option MaxFutureBlockTime 15 config) (from_option MaxPastBlockTime 7200 config) = Ok tt.
Proof.
  intros Hp (Hn & Hn' & (Hf & Hfut) & Hpa & Hpast) Hb Ht. unfold ValidateTimestamp, header_of. rewrite Hb. cbn [mbind outcome_bind].
  rewrite Ht, !i64_id by (unfold_ints; lia).
  destruct (Z.ltb_spec (now' + from_option MaxFutureBlockTime 15 config) now); [lia|].
  destruct (Z.ltb_spec now (now' - from_option MaxPastBlockTime 7200 config)); [lia|].
  destruct prev as [p|]; [|done]. destruct Hp as (ph & Hph & _ & Hts & Hgap). rewrite Hph. cbn [mbind outcome_bind].
  destruct (Z.leb_spec now (hdr_Timestamp ph)); [lia|]. rewrite i64_id by (unfold_ints; lia).
  unfold gap_ok in Hgap. destruct (Z.ltb_spec 3600 (now - hdr_Timestamp ph)).
  - destruct (Z.leb_spec (now - hdr_Timestamp ph) MaxGenesisRecoveryTime); [done|lia].
  - destruct (Z.ltb_spec (match config with Some c => if 0 <? MaxBlockTimeDrift c then MaxBlockTimeDrift c else 600 | None => 600 end)
      (now - hdr_Timestamp ph)); [lia|done].
Qed.

(** The gas and the identifiers of the transactions that end up in the block. *)
Definition txs_ok (txs : list Transaction) : Prop :=
  Forall (fun tx => 0 <= tx_Gas tx) txs /\ total_gas txs <= maxBlockGas /\
  (shardID <> BeaconShardID -> Forall (fun tx => tx_Id tx <> "") txs).

Lemma gas_created b h : blk_Header b = Some h -> txs_ok (blk_Transactions b) ->
  hdr_GasUsed h = calculateGasUsed (blk_Transactions b) ->
  0 <= hdr_GasUsed h /\ ValidateGasUsage b = Ok tt.
Proof.
  intros Hb (Hg & Hm & _) Hu. unfold ValidateGasUsage, header_of. rewrite gas_sum_exact, Hb by (done || lia). cbn [mbind outcome_bind].
  rewrite Hu. unfold calculateGasUsed. rewrite calculateGasUsed_exact by (done || lia).
  pose proof (total_gas_nonneg _ Hg). rewrite Z.eqb_refl, Z.add_0_l. cbn [negb]. destruct (Z.ltb_spec maxBlockGas (total_gas (blk_Transactions b))); [lia|]. split; [lia|done].
Qed.

(** What the signature does not change. *)
Lemma created_checks now now' prev txs validator gasLimit b sig key :
  CreateBlock now prev txs validator gasLimit = Ok b -> prev_ok now prev -> clock_ok now now' ->
  txs_ok (blk_Transactions b) ->
  (0 < length sig)%nat -> verifyBlockSignature Keccak256 (set_Signature sig b) (Some key) = Ok tt ->
  validateAtomic now' b prev None = Ok tt /\ validateAtomic now' (set_Signature sig b) prev (Some key) = Ok tt.
Proof.
  intros Hc Hp Hclock Htx Hsl Hsig.
  destruct (CreateBlock_inv _ _ _ _ _ _ Hc Hp) as (h & fees & Hb & Hfees & Htxs & Hh & _ & Hv & Hhv & Hts & Hgl & Hgp & Hgu & Hgle & Hroot & Hprev).
  destruct (transaction_root_created _ _ Hroot) as (Hne & Hhashes & Hmerkle).
  destruct (gas_created b h Hb Htx Hgu) as [Hg0 Hgas].
  destruct (continuity_created now prev b h Hp Hb Hts Hprev) as [Hi Hcont].
  assert (Hstruct : validateBlockStructure b = Ok tt).
  { unfold validateBlockStructure. destruct Hclock as [Hn _]. rewrite Hb, !bool_decide_false by (rewrite ?Hh, ?Hhv; try apply Encode_nonempty; auto).
    destruct (Z.ltb_spec (hdr_Index h) 0); [lia|]. destruct (Z.leb_spec (hdr_Timestamp h) 0); [lia|].
    destruct (Z.ltb_spec (hdr_GasUsed h) 0); [lia|]. destruct (Z.leb_spec (hdr_GasLimit h) 0); [lia|].
    destruct (Z.ltb_spec (hdr_GasLimit h) (hdr_GasUsed h)); [lia|]. done. }
  assert (Hshard : validateShardTransactions Keccak256 shardID totalShards b = Ok tt).
  { unfold validateShardTransactions. destruct (Z.eqb_spec shardID BeaconShardID) as [|Hs]; [done|].
    destruct Htx as (_ & _ & Hid). apply shard_loop_ok; auto. rewrite Htxs. by apply filter_shard_ok. }
  assert (Hhash : verifyBlockHash Keccak256 b = Ok tt).
  { unfold verifyBlockHash, CanonicalBlockHash. rewrite Hb, Hfees. cbn [mbind outcome_bind]. by rewrite Hh, bool_decide_true. }
  assert (Htr : verifyTransactionRoot Keccak256 b = Ok tt).
  { unfold verifyTransactionRoot, header_of. rewrite Hmerkle, Hb. simpl. by rewrite bool_decide_true. }
  pose proof (timestamp_created now now' prev b h Hp Hclock Hb Hts) as Htime.
  split; unfold Blocks.validateAtomic, validateCryptographic.
  - rewrite Hstruct, Hcont, Htime, Hshard, Hgas, Hhash, Htr. done.
  - change (validateBlockStructure (set_Signature sig b)) with (validateBlockStructure b).
    change (validateChainContinuity (set_Signature sig b) prev) with (validateChainContinuity b prev).
    change (ValidateTimestamp config now' (set_Signature sig b) prev) with (ValidateTimestamp config now' b prev).
    change (validateShardTransactions Keccak256 shardID totalShards (set_Signature sig b)) with (validateShardTransactions Keccak256 shardID totalShards b).
    change (ValidateGasUsage (set_Signature sig b)) with (ValidateGasUsage b).
    change (verifyBlockHash Keccak256 (set_Signature sig b)) with (verifyBlockHash Keccak256 b).
    change (verifyTransactionRoot Keccak256 (set_Signature sig b)) with (verifyTransactionRoot Keccak256 b).
    rewrite Hstruct, Hcont, Htime, Hshard, Hgas, Hhash, Htr. cbn [mbind outcome_bind set_Signature blk_Signature].
    destruct (Nat.ltb_spec 0 (length sig)); [done|lia].
Qed.

(** C20. A created and signed block passes every check.  When the clock, the previous
    block and the gas of the transactions are as the checks demand, the block that
    [CreateBlock] returns is accepted unsigned, and after [SignBlock] it is accepted
    under the signer's public key and no other. *)
Theorem created_block_valid now now' prev txs validator gasLimit b (key : Priv) :
  CreateBlock now prev txs validator gasLimit = Ok b -> prev_ok now prev -> clock_ok now now' ->
  txs_ok (blk_Transactions b) ->
  validateAtomic now' b prev None = Ok tt /\
  exists b', SignBlock Keccak256 (Some (Some key)) (Some b) = (Ok tt, Some b') /\
    forall p : PublicKeyImpl, validateAtomic now' b' prev (Some p) = Ok tt <-> p = Some (PublicOf key).
Proof.
  intros Hc Hp Hclock Htx.
  set (hash := Keccak256 (Keccak256 (bytes_of_string (blk_Hash b)))).
  destruct (SignHash_run key hash) as (sig & bs & Hs & Hsign & Hval & Hplain & _ & Hbs & Hl & Hparse); [apply Hlen|].
  assert (Hver : forall p, verifyBlockSignature Keccak256 (set_Signature bs b) (Some p) = Ok tt <-> p = Some (PublicOf key)).
  { intros p. rewrite <-(signed_verifies key hash sig bs p) by (done || apply Hlen).
    unfold verifyBlockSignature, SignatureFromBytes. cbn [set_Signature blk_Signature blk_Hash]. rewrite Hl, Hparse.
    cbn [Nat.eqb mbind outcome_bind wrap]. unfold Pub_Verify. fold hash. destruct p as [p|]; [|done].
    destruct (Pub_VerifyHash (Some p) hash (Some sig)) as [[]| | |]; simpl; by split. }
  destruct (created_checks now now' prev txs validator gasLimit b bs (Some (PublicOf key)) Hc Hp Hclock Htx) as [H1' H2'];
    [lia|by apply Hver|].
  split; [done|]. exists (set_Signature bs b). split.
  - unfold SignBlock, Priv_Sign, mbind, GoM_bind, get, lift. cbv beta iota zeta. fold hash. rewrite Hs. cbn [wrap].
    by rewrite (Sig_Bytes_any sig bs Hbs).
  - intros p. split; [|by intros ->]. unfold Blocks.validateAtomic, validateCryptographic. intros Hok.
    repeat (apply outcome_bind_inv_ok in Hok as ([] & _ & Hok)).
    cbn [set_Signature blk_Signature] in Hok. destruct (Nat.ltb_spec 0 (length bs)); [|lia]. by apply Hver.
Qed.
End Created.

(** ** The cache of verdicts *)

Section Cache.
Context (Keccak256 : list byte -> list byte) (shardID totalShards : Z) (config : option TimeLimits).
Context {Pub Priv : Type} `{Secp256k1 Pub Priv}.

(** The cached verdict ignores the block.  Verdicts are kept under the hash a
    block claims to have, before that hash is checked: whatever block was judged
    first under a hash, with whatever key, any block that claims the same hash
    gets the same answer.  So a forged block that is refused bars the real one, and
    after the real one was accepted any contents are accepted under its hash. *)
Theorem cached_verdict_ignores_content now now' judged b prev prev' (key key' : option PublicKeyImpl) c :
  blk_Hash b = blk_Hash judged -> c !! blk_Hash judged = None -> (size c < 1000)%nat ->
  let '(r, c1) := ValidateBlock Keccak256 shardID totalShards config now (Some judged) prev key c in
  (exists x, r = Ok x) \/ (exists e, r = Err e) ->
  ValidateBlock Keccak256 shardID totalShards config now' (Some b) prev' key' c1 = (r, c1).
Proof.
  intros Hh Hc Hsize. unfold ValidateBlock at 1. rewrite Hc.
  assert (Hkeep : forall v, (1000 <? size (<[blk_Hash judged := v]> c))%nat = false).
  { intros v. apply Nat.ltb_ge. rewrite map_size_insert_None by done. lia. }
  destruct (Blocks.validateAtomic _ _ _ _ now judged prev key) as [[]|e| |]; [..|naive_solver|naive_solver]; intros _;
    unfold ValidateBlock; by rewrite Hkeep, Hh, lookup_insert_eq.
Qed.
End Cache.

(** ** Examples *)

#[local] Existing Instance demo_secp.
#[local] Existing Instance demo_secp_laws.

Definition demo_hash (x : list byte) : list byte := resize 32 x00 x.
Definition block_tx (id : string) (b : byte) : Transaction :=
  MkTransaction id "alice" "bob" [x05] 21000 [x01] 0 [] TRANSFER [] (EncodeToString (replicate 32 b)) 1100 [] "1" 2.
Definition demo_txs : list Transaction := [block_tx "t1" x0a; block_tx "t2" x0b; block_tx "t3" x0c].
Definition ok_or {E A} (d : A) (m : outcome E A) : A := match m with Ok a => a | _ => d end.
Definition no_block : Block := MkBlock None [] "" [] [].
Definition demo_genesis : Block := ok_or no_block (CreateGenesisBlock demo_hash 0 "v1" 1000).
Definition demo_block : Block :=
  ok_or no_block (CreateBlock demo_hash (fun _ => 500) BeaconShardID 1 1100 (Some demo_genesis) demo_txs "v1" 1000000).
(** Not a block at all, under the hash of [demo_block]. *)
Definition forged_block : Block := MkBlock None [] (blk_Hash demo_block) [] [].

Lemma demo_hash_length x : length (demo_hash x) = 32%nat.
Proof. apply length_resize. Qed.

Lemma transaction_root_is_merkle_root_witness :
  calculateMerkleRoot demo_hash (tx_Hash <$> demo_txs) =
  Ok (Hash_String (MerkleRoot demo_hash [replicate 32 x0a; replicate 32 x0b; replicate 32 x0c])).
Proof.
  apply (transaction_root_is_merkle_root demo_hash demo_hash_length); [|done].
  repeat constructor.
Defined.

Lemma demo_leaves : leaves_of demo_block [replicate 32 x0a; replicate 32 x0b; replicate 32 x0c].
Proof.
  unfold leaves_of. replace (tx_Hash <$> blk_Transactions demo_block) with (tx_Hash <$> demo_txs) by (vm_compute; reflexivity).
  repeat constructor.
Qed.

Definition demo_header : BlockHeader := default (new_header 0 "" 0 "" "" 0 0) (blk_Header demo_block).

(** Another block under the same hash: a signature, and transactions of other identifiers
    that carry the same hashes. *)
Definition other_txs : list Transaction := [block_tx "u1" x0a; block_tx "u2" x0b; block_tx "u3" x0c].
Definition other_block : Block := MkBlock (blk_Header demo_block) other_txs (blk_Hash demo_block) [x01] [].
Lemma other_leaves : leaves_of other_block [replicate 32 x0a; replicate 32 x0b; replicate 32 x0c].
Proof. unfold leaves_of, other_block, other_txs. simpl. repeat constructor. Qed.

Lemma block_hash_commits_witness : blk_Transactions other_block <> blk_Transactions demo_block /\
  ((demo_header = demo_header /\ tx_Hash <$> blk_Transactions demo_block = tx_Hash <$> blk_Transactions other_block) \/
   collision demo_hash).
Proof.
  split; [vm_compute; discriminate|].
  eapply (block_hash_commits demo_hash demo_hash_length demo_block other_block demo_header demo_header);
    try exact demo_leaves; try exact other_leaves; try reflexivity; try (vm_compute; reflexivity); [split; reflexivity|..];
    unfold header_ok, is_i64, is_u64; vm_compute; split_and!; discriminate.
Defined.

Lemma created_block_valid_witness :
  validateAtomic demo_hash BeaconShardID 1 None 1101 demo_block (Some demo_genesis) None = Ok tt /\
  exists b', SignBlock demo_hash (Some (Some x2a)) (Some demo_block) = (Ok tt, Some b') /\
    forall p : PublicKeyImpl,
      validateAtomic demo_hash BeaconShardID 1 None 1101 b' (Some demo_genesis) (Some p) = Ok tt <-> p = Some (PublicOf x2a).
Proof.
  apply (created_block_valid demo_hash demo_hash_length (fun _ => 500) BeaconShardID 1 None 1100 1101 (Some demo_genesis)
    demo_txs "v1" 1000000 demo_block x2a).
  - vm_compute. reflexivity.
  - exists (default (new_header 0 "" 0 "" "" 0 0) (blk_Header demo_genesis)). split; [vm_compute; reflexivity|].
    unfold gap_ok. vm_compute. intuition discriminate.
  - unfold clock_ok. simpl. lia.
  - split; [vm_compute; repeat constructor; discriminate|]. split; [vm_compute; discriminate|done].
Defined.

Definition judge (b : Block) := ValidateBlock demo_hash BeaconShardID 1 None 1101 (Some b) (Some demo_genesis) None.

(** Alone, the block is accepted; after the forged one it is refused. *)
Lemma cached_verdict_ignores_content_witness :
  is_ok (fst (judge demo_block ∅)) = true /\
  let '(r, c) := judge forged_block ∅ in r = Err NilHeader /\ judge demo_block c = (Err NilHeader, c).
Proof.
  split; [vm_compute; reflexivity|].
  pose proof (cached_verdict_ignores_content demo_hash BeaconShardID 1 None 1101 1101 forged_block demo_block
    (Some demo_genesis) (Some demo_genesis) None None ∅ eq_refl eq_refl ltac:(vm_compute; lia)) as Hsame.
  fold (judge forged_block) in Hsame. assert (Hr : fst (judge forged_block ∅) = Err NilHeader) by (vm_compute; reflexivity).
  destruct (judge forged_block ∅) as [r c]. simpl in Hr. subst r. split; [done|]. apply Hsame. right. by exists NilHeader.
Defined.
