(* ===== verification/TxHash.v ===== *)
(** * What a transaction hashes and signs (src/core/transaction/validator.go)

    The transaction hash, the two messages a wallet signs, the check of a
    signature on either path (the node's own and the wallet's, which recovers the
    sender from an Ethereum transaction) and the creation of signed transactions.
    Recovery of an Ethereum sender is go-ethereum's: two arguments. *)

From S2P Require Import Prelude SafeMath Uint256 Address Storage AccountManager Governance Hashes Keys Replay.
From S2P Require Import World Executor StateRoot Wire.
From stdpp Require Import base tactics numbers list gmap strings.
From Stdlib Require Import ZArith Lia Strings.Byte Strings.Ascii.
Open Scope Z_scope.
Open Scope list_scope.

(** The part of the configuration the validator reads; durations in seconds. *)
Record TxConfig : Type := MkTxConfig {
  cfg_ChainID : string;
  cfg_Environment : string;
  cfg_MinTransfer : string;
  cfg_MinStake : string;
  cfg_MinDelegation : string;
  cfg_MinGasLimit : Z;
  cfg_MaxGasPerTx : Z;
  cfg_BaseGasPrice : string;
  cfg_MaxGasPrice : string;
  cfg_MaxTimestampSkew : Z;
  cfg_MaxTimestampAge : Z
}.

Inductive tv_err : Type :=
| TxNil
| BadAmounts (e : u256_err)
| FinalizedRequired
| PrivateKeyNil
| PublicKeyNil
| AddressDerivation (e : key_err)
| KeyAddressMismatch (from derived : string)
| KeyError (e : key_err)
| SignatureEmpty
| SignatureMalleable
| ChainIDInvalid (e : replay_err)
| FromPubkeyEmpty
| EthereumLength (n : Z)
| EthereumRecovery
| EthereumMismatch (recovered expected : string)
| BelowMinimum (minimum : string)
| DelegateToSelf
| NoConfig
| ChainMismatch (tx expected : string)
| PayloadEncoding
| ReplayDetected (e : replay_err)
| TimingInvalid (e : replay_err)
| IdEmpty | HashEmpty | SenderEmpty | RecipientEmpty
| SenderInvalid (e : address_err)
| RecipientInvalid (e : address_err)
| NegativeAmountTx
| NonZeroAmount
| PayloadEmpty
| GasTooLow (gas : Z)
| GasTooHigh (gas : Z)
| PriceTooLow
| PriceTooHigh
| TimestampFuture
| TimestampOld
| HashMismatch (expected got : string)
| NotInShard (id : string)
| GetFailed (e : ws_err)
| NonceTooLow (account tx : Z)
| NonceTooHigh (account tx : Z)
| NonceGap (account tx : Z)
| BalanceTooLow
| StakeTooLow
| DelegationTooLow
| NoDelegation
| NoRewards
| TransferToSelf
| GovernanceInvalid (e : gov_err)
| NotActiveValidator
| ProposalExists (id : string)
| ProposalInactive (id : string)
| VotingEnded (id : string)
| VotingOpen (id : string)
| UnknownTxType
| ChainIDMissing
| TxExpired (age max : Z)
| AddressInvalid (e : address_err).

(** ** Encoding *)

Definition type_code (t : TransactionType) : Z :=
  match t with
  | TRANSFER => 0 | STAKE => 1 | UNSTAKE => 2 | DELEGATE => 3 | UNDELEGATE => 4 | CLAIM_REWARDS => 5
  | EVM_CONTRACT_CALL => 6 | EVM_CONTRACT_DEPLOY => 7
  | GOVERNANCE_PROPOSE => 8 | GOVERNANCE_VOTE => 9 | GOVERNANCE_FINALIZE => 10
  | UnknownType n => n
  end.

Definition transactionEncodingVersion (tx : Transaction) : Z :=
  if tx_EncodingVersion tx <? 2 then 1 else tx_EncodingVersion tx.

Definition appendLengthPrefixedBytes (payload : list byte) : list byte :=
  PutUint16 (Z.of_nat (length payload)) ++ payload.

(** The fields in order, the amounts as [amount] writes them. *)
Definition tx_fields (amount : list byte -> list byte) (tx : Transaction) : list byte :=
  bytes_of_string (tx_Id tx) ++ bytes_of_string (tx_From tx) ++ bytes_of_string (tx_To tx) ++
  amount (tx_Amount tx) ++ PutUint64 (tx_Gas tx) ++ amount (tx_GasPrice tx) ++ PutUint64 (tx_Nonce tx) ++
  PutUint32 (type_code (tx_Type tx)) ++ PutUint64 (tx_Timestamp tx) ++ tx_Data tx.

Section Messages.
Context (Keccak256 : list byte -> list byte) (config : TxConfig).

Notation Tx := (GoM Transaction tv_err).

Definition normalize : Tx unit := wrapM BadAmounts normalizeTransactionAmounts.

(** [prefix1] before the fields of version 1, [prefix2] before those of version 2. *)
Definition message (prefix1 : Tx (list byte)) (prefix2 : Z -> Tx (list byte)) : Tx (list byte) :=
  tx ← get;
  let version := transactionEncodingVersion tx in
  if 2 <=? version then
    _ ← normalize;
    p ← prefix2 version;
    tx ← get;
    mret (p ++ tx_fields appendLengthPrefixedBytes tx)
  else
    p ← prefix1;
    mret (p ++ tx_fields id tx).

Definition CalculateTransactionHash : Tx string :=
  m ← message (mret []) (fun version => mret (PutUint32 version));
  mret (EncodeToString (Keccak256 m)).

Definition calculateSignableHash : Tx (list byte) :=
  m ← message (mret (bytes_of_string (cfg_ChainID config) ++ bytes_of_string "v1"))
              (fun version => mret (bytes_of_string (cfg_ChainID config) ++ bytes_of_string "v3" ++ PutUint32 version));
  mret (Keccak256 m).

Definition finalized_part (replayConfig : option ReplayProtectionConfig) (finalizedBlockHash : string) : Tx (list byte) :=
  if negb (bool_decide (finalizedBlockHash = "")) then mret (bytes_of_string finalizedBlockHash)
  else match replayConfig with
       | None => panic
       | Some c => if RequireFinalizedBlock c && negb (AllowEmptyFinalizedBlock c) then throw FinalizedRequired else mret []
       end.

Definition calculateSignableHashWithReplayProtection (replayConfig : option ReplayProtectionConfig)
    (finalizedBlockHash : string) : Tx (list byte) :=
  m ← message (f ← finalized_part replayConfig finalizedBlockHash;
               mret (bytes_of_string (cfg_ChainID config) ++ bytes_of_string "v2" ++ f))
              (fun version => f ← finalized_part replayConfig finalizedBlockHash;
               mret (bytes_of_string (cfg_ChainID config) ++ bytes_of_string "v4" ++ PutUint32 version ++ f));
  mret (Keccak256 m).

(** ** The validator's replay state

    The validator and its detector share one set of metrics. *)

Record TxValidator : Type := MkTxValidator {
  replayConfig : option ReplayProtectionConfig;
  replayDetector : ReplayDetectorV3
}.

Definition isDevelopmentEnvironment (env : string) : bool :=
  bool_decide (ToLower (TrimSpace env) ∈ ["development"; "dev"; "local"]).

Definition NewValidatorWithReplayConfig (c : option ReplayProtectionConfig) : TxValidator :=
  MkTxValidator c (NewReplayDetectorV3 (cfg_ChainID config) c (Some no_metrics)).
Definition strict_replay_config : ReplayProtectionConfig :=
  let d := DefaultReplayProtectionConfig in
  MkReplayConfig true (MinFinalizedBlockAge d) (TransactionMaxAge d) false (TransactionTimeoutSeconds d)
    (EnableShardProtection d) (MaxNonceGap d) (MaxReorgDepth d).
Definition NewValidator : TxValidator :=
  NewValidatorWithReplayConfig (Some (if isDevelopmentEnvironment (cfg_Environment config)
                                      then DevelopmentReplayProtectionConfig else strict_replay_config)).

Definition SetReplayProtectionConfig (c : option ReplayProtectionConfig) (v : TxValidator) : TxValidator :=
  MkTxValidator c (replayDetector v).
Definition GetReplayNonce (address : string) (v : TxValidator) : option Z := Detector_GetNonce address (replayDetector v).
Definition count (f : ReplayProtectionMetrics -> ReplayProtectionMetrics) (v : TxValidator) : TxValidator :=
  MkTxValidator (replayConfig v) (on_metrics f (replayDetector v)).

Notation state := (TxValidator * Transaction)%type.
Notation V := (GoM state tv_err).

Definition record_metric (f : ReplayProtectionMetrics -> ReplayProtectionMetrics) : V unit :=
  modify (fun s => (count f (fst s), snd s)).
(** On an error, count it and pass it on. *)
Definition counting {A} (f : ReplayProtectionMetrics -> ReplayProtectionMetrics) (m : V A) : V A := fun s =>
  match m s with
  | (Err e, s') => (Err e, (count f (fst s'), snd s'))
  | r => r
  end.
Definition the_tx : V Transaction := fun s => (Ok (snd s), s).

Definition set_FromPubkey (k : list byte) (tx : Transaction) : Transaction :=
  MkTransaction (tx_Id tx) (tx_From tx) (tx_To tx) (tx_Amount tx) (tx_Gas tx) (tx_GasPrice tx) (tx_Nonce tx) (tx_Data tx)
    (tx_Type tx) (tx_Signature tx) (tx_Hash tx) (tx_Timestamp tx) k (tx_ChainId tx) (tx_EncodingVersion tx).
Definition set_TxSignature (s : list byte) (tx : Transaction) : Transaction :=
  MkTransaction (tx_Id tx) (tx_From tx) (tx_To tx) (tx_Amount tx) (tx_Gas tx) (tx_GasPrice tx) (tx_Nonce tx) (tx_Data tx)
    (tx_Type tx) s (tx_Hash tx) (tx_Timestamp tx) (tx_FromPubkey tx) (tx_ChainId tx) (tx_EncodingVersion tx).
Definition set_TxHash (h : string) (tx : Transaction) : Transaction :=
  MkTransaction (tx_Id tx) (tx_From tx) (tx_To tx) (tx_Amount tx) (tx_Gas tx) (tx_GasPrice tx) (tx_Nonce tx) (tx_Data tx)
    (tx_Type tx) (tx_Signature tx) h (tx_Timestamp tx) (tx_FromPubkey tx) (tx_ChainId tx) (tx_EncodingVersion tx).
Definition set_ChainId (c : string) (tx : Transaction) : Transaction :=
  MkTransaction (tx_Id tx) (tx_From tx) (tx_To tx) (tx_Amount tx) (tx_Gas tx) (tx_GasPrice tx) (tx_Nonce tx) (tx_Data tx)
    (tx_Type tx) (tx_Signature tx) (tx_Hash tx) (tx_Timestamp tx) (tx_FromPubkey tx) c (tx_EncodingVersion tx).
Definition set_Timestamp (t : Z) (tx : Transaction) : Transaction :=
  MkTransaction (tx_Id tx) (tx_From tx) (tx_To tx) (tx_Amount tx) (tx_Gas tx) (tx_GasPrice tx) (tx_Nonce tx) (tx_Data tx)
    (tx_Type tx) (tx_Signature tx) (tx_Hash tx) t (tx_FromPubkey tx) (tx_ChainId tx) (tx_EncodingVersion tx).

(** ** Signing and verifying *)

Section Signing.
Context {Pub Priv : Type} `{Secp256k1 Pub Priv} (HexToAddress : list byte -> list byte).

(** [strings.EqualFold] on ASCII. *)
Definition EqualFold (a b : string) : bool := bool_decide (ToLower a = ToLower b).

(** The key's address, if it is the sender's. *)
Definition claim_sender (privateKey : option (@PrivateKeyImpl Priv)) (tx : Transaction)
    : outcome tv_err (@PrivateKeyImpl Priv * @PublicKeyImpl Pub) :=
  match privateKey with
  | None => Err PrivateKeyNil
  | Some key =>
      match Priv_PublicKey key with
      | None => Err PublicKeyNil
      | Some pubKey =>
          derivedAddr ← wrap AddressDerivation (GenerateAddress (Some pubKey));
          if negb (EqualFold derivedAddr (tx_From tx)) then Err (KeyAddressMismatch (tx_From tx) derivedAddr)
          else Ok (key, pubKey)
      end
  end.

Definition sign_with (privateKey : option (@PrivateKeyImpl Priv)) (hashToSign : Tx (list byte)) : Tx unit :=
  tx ← get;
  '(key, pubKey) ← lift (claim_sender privateKey tx);
  _ ← modify (set_FromPubkey (Pub_Bytes pubKey));
  h ← hashToSign;
  signature ← lift (wrap KeyError (SignHash key h));
  bs ← lift (Sig_Bytes signature);
  modify (set_TxSignature bs).

Definition tv_SignTransaction (privateKey : option (@PrivateKeyImpl Priv)) : Tx unit :=
  sign_with privateKey calculateSignableHash.

Definition SignTransactionWithReplayProtection (privateKey : option (@PrivateKeyImpl Priv)) (finalizedBlockHash : string)
    : V unit :=
  s ← get;
  _ ← on_snd (sign_with privateKey (calculateSignableHashWithReplayProtection (replayConfig (fst s)) finalizedBlockHash));
  record_metric (fun m =>
    MkMetrics (u64 (TransactionsWithReplayProtection m + 1))
      (if bool_decide (finalizedBlockHash = "") then u64 (TransactionsWithoutFinalized m + 1) else TransactionsWithoutFinalized m)
      (ExpiredTransactions m) (ReplayAttemptsDetected m) (LastReplayAttempt m) (TimeBasedExpiredTransactions m)
      (BlockBasedExpiredTransactions m) (CrossShardReplayAttempts m) (NonceManipulationAttempts m) (FutureBlockReferences m)
      (FutureTimestampAttempts m) (ReorgReplayAttempts m) (DeepReorgDetected m)).

(** The key must be the sender's and the signature over the message. *)
Definition verify_sender (publicKey : option (@PublicKeyImpl Pub)) (tx : Transaction) : outcome tv_err (@PublicKeyImpl Pub) :=
  match publicKey with
  | None => Err PublicKeyNil
  | Some key =>
      if (length (tx_Signature tx) =? 0)%nat then Err SignatureEmpty
      else
        derivedAddress ← wrap AddressDerivation (GenerateAddress (Some key));
        if negb (bool_decide (ToLower derivedAddress = ToLower (tx_From tx)))
        then Err (KeyAddressMismatch (tx_From tx) derivedAddress) else Ok key
  end.

Definition tv_VerifyTransactionSignature (publicKey : option (@PublicKeyImpl Pub)) : Tx unit :=
  tx ← get;
  key ← lift (verify_sender publicKey tx);
  hashToVerify ← calculateSignableHash;
  tx ← get;
  signature ← lift (wrap KeyError (SignatureFromBytes (tx_Signature tx)));
  lift (wrap KeyError (Pub_VerifyHash key hashToVerify (Some signature))).

Definition VerifyTransactionSignatureWithReplayProtection (now : Z) (publicKey : option (@PublicKeyImpl Pub))
    (finalizedBlockHash : string) : V unit :=
  s ← get;
  key ← lift (verify_sender publicKey (snd s));
  hashToVerify ← on_snd (calculateSignableHashWithReplayProtection (replayConfig (fst s)) finalizedBlockHash);
  tx ← the_tx;
  signature ← lift (wrap KeyError (SignatureFromBytes (tx_Signature tx)));
  counting (RecordReplayAttempt now) (lift (wrap KeyError (Pub_VerifyHash key hashToVerify (Some signature)))).

(** ** Wallet signatures *)

(** [types.LegacyTx]. *)
Record LegacyTx : Type := MkLegacyTx {
  eth_Nonce : Z;
  eth_GasPrice : Z;
  eth_Gas : Z;
  eth_To : option (list byte);
  eth_Value : Z;
  eth_Data : list byte;
  eth_V : Z;
  eth_R : Z;
  eth_S : Z
}.

(** [types.NewEIP155Signer(chainID).Sender] and [types.HomesteadSigner{}.Sender]. *)
Context (EIP155Sender : Z -> LegacyTx -> option Address) (HomesteadSender : LegacyTx -> option Address).

Definition is_digit_char (c : ascii) : bool := bool_decide (is_Some (digit_of_ascii c)).

(** The last match of [\d+]. *)
Fixpoint skip_until (f : ascii -> bool) (cs : list ascii) : list ascii :=
  match cs with [] => [] | c :: cs' => if f c then cs else skip_until f cs' end.
Fixpoint take_while (f : ascii -> bool) (cs : list ascii) : list ascii :=
  match cs with [] => [] | c :: cs' => if f c then c :: take_while f cs' else [] end.
Definition last_digits (cs : list ascii) : list ascii :=
  rev (take_while is_digit_char (skip_until is_digit_char (rev cs))).

Definition parseEVMChainID (chainID : string) : option Z :=
  let chainID := TrimSpace chainID in
  if bool_decide (chainID = "") then None
  else match SetString10 chainID with
       | Some direct => Some direct
       | None =>
           match last_digits (chars chainID) with
           | [] => None
           | digits => match SetString10 (of_chars digits) with
                       | Some n => if n <=? MaxInt64 then Some n else None
                       | None => None
                       end
           end
       end.

Definition validateEthereumSignature (tx : Transaction) : outcome tv_err unit :=
  let sig := tx_Signature tx in
  if negb (length sig =? 65)%nat then Err (EthereumLength (Z.of_nat (length sig)))
  else
    let r := SetBytes (take 32 sig) in
    let s := SetBytes (take 32 (drop 32 sig)) in
    let vByte := Z_of_byte (default x00 (sig !! 64%nat)) in
    let chainID := match parseEVMChainID (tx_ChainId tx) with
                   | Some n => n
                   | None => default 1 (parseEVMChainID (cfg_ChainID config))
                   end in
    let toAddr := if bool_decide (tx_To tx = "") then None else Some (HexToAddress (bytes_of_string (tx_To tx))) in
    let ethTx v := MkLegacyTx (tx_Nonce tx) (ParseBigInt_bytes (tx_GasPrice tx)) (u64 (tx_Gas tx)) toAddr
                     (ParseBigInt_bytes (tx_Amount tx)) (tx_Data tx) v r s in
    fromAddr ← match EIP155Sender chainID (ethTx (chainID * 2 + 35 + vByte)) with
               | Some a => Ok a
               | None => match HomesteadSender (ethTx ((27 + vByte) mod 256)) with
                         | Some a => Ok a
                         | None => Err EthereumRecovery
                         end
               end;
    if negb (EqualFold (Address_String (Some fromAddr)) (tx_From tx))
    then Err (EthereumMismatch (Address_String (Some fromAddr)) (tx_From tx)) else Ok tt.

Definition validateCanonicalSignature (signatureBytes : list byte) : outcome tv_err unit :=
  signature ← wrap KeyError (SignatureFromBytes signatureBytes);
  if negb (IsNormalized signature) then Err SignatureMalleable else Ok tt.

Definition is_evm (t : TransactionType) : bool :=
  match t with EVM_CONTRACT_CALL | EVM_CONTRACT_DEPLOY => true | _ => false end.

Definition validateSignature (now : Z) : V unit :=
  tx ← the_tx;
  _ ← refuse_if (length (tx_Signature tx) =? 0)%nat SignatureEmpty;
  _ ← lift (validateCanonicalSignature (tx_Signature tx));
  _ ← counting (RecordChainIDMismatch now)
        (lift (wrap ChainIDInvalid (ValidateChainIDMatch (tx_ChainId tx) (cfg_ChainID config))));
  if is_evm (tx_Type tx) then lift (validateEthereumSignature tx)
  else if (length (tx_FromPubkey tx) =? 0)%nat && (length (tx_Signature tx) =? 65)%nat then lift (validateEthereumSignature tx)
  else
    _ ← refuse_if (length (tx_FromPubkey tx) =? 0)%nat FromPubkeyEmpty;
    pubKey ← lift (wrap KeyError (NewPublicKeyFromBytes (tx_FromPubkey tx)));
    on_snd (tv_VerifyTransactionSignature (Some pubKey)).

(** ** Creating transactions *)

Definition EnsureReplayProtection (now : Z) (cfg : option TxConfig) : Tx unit :=
  match cfg with
  | None => throw NoConfig
  | Some cfg =>
      _ ← refuse_if (bool_decide (cfg_ChainID cfg = "")) NoConfig;
      tx ← get;
      _ ← (if bool_decide (tx_ChainId tx = "") then modify (set_ChainId (cfg_ChainID cfg))
           else refuse_if (negb (bool_decide (tx_ChainId tx = cfg_ChainID cfg))) (ChainMismatch (tx_ChainId tx) (cfg_ChainID cfg)));
      tx ← get;
      if tx_Timestamp tx =? 0 then modify (set_Timestamp now) else mret tt
  end.

(** [uuid] is the identifier drawn for the transaction. *)
Definition CreateTransaction (uuid : string) (now1 now2 : Z) (from to amount : string) (gas : Z) (gasPrice : string)
    (nonce : Z) (txType : TransactionType) (data : list byte) (privateKey : option (@PrivateKeyImpl Priv))
    : outcome tv_err Transaction :=
  let tx := MkTransaction uuid from to (Bytes (ParseBigInt_string amount)) gas (Bytes (ParseBigInt_string gasPrice))
              nonce data txType [] "" now1 [] "" 2 in
  let run := (_ ← normalize;
              _ ← EnsureReplayProtection now2 (Some config);
              h ← CalculateTransactionHash;
              _ ← modify (set_TxHash h);
              tv_SignTransaction privateKey) in
  let '(r, tx') := run tx in _ ← r; Ok tx'.

Definition at_least (amount minimum : string) : outcome tv_err unit :=
  if ParseBigInt_string amount <? ParseBigInt_string minimum then Err (BelowMinimum minimum) else Ok tt.

Definition CreateTransferTransaction uuid now1 now2 from to amount gas gasPrice nonce privateKey :=
  _ ← at_least amount (cfg_MinTransfer config);
  CreateTransaction uuid now1 now2 from to amount gas gasPrice nonce TRANSFER [] privateKey.

Definition CreateStakeTransaction uuid now1 now2 from amount gas gasPrice nonce privateKey :=
  _ ← at_least amount (cfg_MinStake config);
  CreateTransaction uuid now1 now2 from "" amount gas gasPrice nonce STAKE [] privateKey.

Definition CreateDelegateTransaction uuid now1 now2 from validator amount gas gasPrice nonce privateKey :=
  _ ← at_least amount (cfg_MinDelegation config);
  if bool_decide (from = validator) then Err DelegateToSelf
  else CreateTransaction uuid now1 now2 from validator amount gas gasPrice nonce DELEGATE [] privateKey.

Definition CreateGovernanceProposalTransaction `{Json ProposalPayload} uuid now1 now2 from parameter proposedValue gas gasPrice nonce privateKey :=
  CreateTransaction uuid now1 now2 from "" "0" gas gasPrice nonce GOVERNANCE_PROPOSE
    (bytes_of_string (Marshal (MkProposalPayload parameter proposedValue))) privateKey.

Definition CreateGovernanceVoteTransaction `{Json VotePayload} uuid now1 now2 from proposalID approve gas gasPrice nonce privateKey :=
  CreateTransaction uuid now1 now2 from "" "0" gas gasPrice nonce GOVERNANCE_VOTE
    (bytes_of_string (Marshal (MkVotePayload proposalID approve))) privateKey.

Definition CreateGovernanceFinalizeTransaction `{Json FinalizePayload} uuid now1 now2 from proposalID gas gasPrice nonce privateKey :=
  CreateTransaction uuid now1 now2 from "" "0" gas gasPrice nonce GOVERNANCE_FINALIZE
    (bytes_of_string (Marshal (MkFinalizePayload proposalID))) privateKey.
End Signing.
End Messages.
