(* ===== verification/TxValidator.v ===== *)
(** * The transaction validator (src/core/transaction/validator.go)

    Structure, hash, shard, signature, balance and nonce checks of a transaction
    against the world state, with the replay detector in front.  The state of a
    call is the validator, the transaction (whose amounts are put in canonical
    form in place) and the world. *)

From S2P Require Import Prelude SafeMath Uint256 Address Storage AccountManager ShardedLock Governance Domains.
From S2P Require Import Hashes Keys Replay World Executor StateRoot Wire TxHash.
From stdpp Require Import base tactics numbers list gmap strings.
From Stdlib Require Import ZArith Lia Strings.Byte Strings.Ascii.
Open Scope Z_scope.
Open Scope list_scope.

(** The readings of the clock in one validation: the replay detector's in
    nanoseconds, the others in seconds. *)
Record clocks : Type := MkClocks {
  at_replay : Z;
  at_timing : Z;
  at_structure : Z;
  at_business : Z;
  at_expiry : Z
}.

(** ** Checks of the transaction alone *)

Section Stateless.
Context (Keccak256 : list byte -> list byte) (shardID totalShards : Z) (config : TxConfig).

Definition fail_if (c : bool) (e : tv_err) : outcome tv_err unit := if c then Err e else Ok tt.

Definition needs_recipient (t : TransactionType) : bool :=
  match t with TRANSFER | DELEGATE | UNDELEGATE => true | _ => false end.

Definition check_amount (tx : Transaction) : outcome tv_err unit :=
  let amountBig := amount_of tx in
  match tx_Type tx with
  | TRANSFER => fail_if (amountBig <? ParseBigInt_string (cfg_MinTransfer config)) (BelowMinimum (cfg_MinTransfer config))
  | STAKE => fail_if (amountBig <? ParseBigInt_string (cfg_MinStake config)) (BelowMinimum (cfg_MinStake config))
  | DELEGATE => fail_if (amountBig <? ParseBigInt_string (cfg_MinDelegation config)) (BelowMinimum (cfg_MinDelegation config))
  | CLAIM_REWARDS => fail_if (negb (Z.sgn amountBig =? 0)) NonZeroAmount
  | GOVERNANCE_PROPOSE | GOVERNANCE_VOTE | GOVERNANCE_FINALIZE =>
      _ ← fail_if (negb (Z.sgn amountBig =? 0)) NonZeroAmount;
      fail_if (length (tx_Data tx) =? 0)%nat PayloadEmpty
  | _ => Ok tt
  end.

Definition validateStructure (currentTime : Z) (tx : Transaction) : outcome tv_err unit :=
  _ ← fail_if (bool_decide (tx_Id tx = "")) IdEmpty;
  _ ← fail_if (bool_decide (tx_Hash tx = "")) HashEmpty;
  _ ← fail_if (bool_decide (tx_From tx = "")) SenderEmpty;
  _ ← wrap SenderInvalid (Validate (tx_From tx));
  _ ← (if needs_recipient (tx_Type tx) then
         _ ← fail_if (bool_decide (tx_To tx = "")) RecipientEmpty;
         wrap RecipientInvalid (Validate (tx_To tx))
       else Ok tt);
  _ ← fail_if (Z.sgn (amount_of tx) <? 0) NegativeAmountTx;
  _ ← check_amount tx;
  _ ← fail_if (tx_Gas tx <? cfg_MinGasLimit config) (GasTooLow (tx_Gas tx));
  _ ← fail_if (cfg_MaxGasPerTx config <? tx_Gas tx) (GasTooHigh (tx_Gas tx));
  let gasPriceBig := ParseBigInt_bytes (tx_GasPrice tx) in
  _ ← fail_if (gasPriceBig <? ParseBigInt_string (cfg_BaseGasPrice config)) PriceTooLow;
  _ ← fail_if (ParseBigInt_string (cfg_MaxGasPrice config) <? gasPriceBig) PriceTooHigh;
  _ ← fail_if (length (tx_Signature tx) =? 0)%nat SignatureEmpty;
  _ ← fail_if (i64 (currentTime + cfg_MaxTimestampSkew config) <? tx_Timestamp tx) TimestampFuture;
  fail_if (tx_Timestamp tx <? i64 (currentTime - cfg_MaxTimestampAge config)) TimestampOld.

Definition validateHash : GoM Transaction tv_err unit :=
  expectedHash ← CalculateTransactionHash Keccak256;
  tx ← get;
  refuse_if (negb (bool_decide (tx_Hash tx = expectedHash))) (HashMismatch expectedHash (tx_Hash tx)).

Definition validateShard (tx : Transaction) : outcome tv_err unit :=
  if shardID =? BeaconShardID then Ok tt
  else fail_if (negb (CalculateShardID Keccak256 totalShards (tx_From tx) =? shardID)) (NotInShard (tx_Id tx)).

Definition maxNonceGap : Z := 1000.

Definition validateNonce (txNonce accountNonce : Z) : outcome tv_err unit :=
  if txNonce <? accountNonce then Err (NonceTooLow accountNonce txNonce)
  else if txNonce =? accountNonce then Ok tt
  else
    let nonceGap := u64 (txNonce - accountNonce) in
    if maxNonceGap <? nonceGap then Err (NonceTooHigh accountNonce txNonce)
    else Err (NonceGap accountNonce txNonce).

Definition ValidateReplayProtection (now : Z) (replayConfig : option ReplayProtectionConfig) (tx : Transaction)
    : outcome tv_err unit :=
  let c := default DefaultReplayProtectionConfig replayConfig in
  _ ← fail_if (bool_decide (tx_ChainId tx = "")) ChainIDMissing;
  _ ← fail_if (negb (bool_decide (tx_ChainId tx = cfg_ChainID config))) (ChainMismatch (tx_ChainId tx) (cfg_ChainID config));
  if (0 <? tx_Timestamp tx) && (0 <? TransactionMaxAge c) then
    let txAge := i64 (now - tx_Timestamp tx) in
    let maxAgeSeconds := i64 (TransactionMaxAge c * 2) in
    fail_if (maxAgeSeconds <? txAge) (TxExpired txAge maxAgeSeconds)
  else Ok tt.

Definition tv_NormalizeAddress (address : string) : outcome tv_err string :=
  _ ← wrap AddressInvalid (Validate address); Ok (ToLower address).

(** ** Checks against the sender's account *)

Definition validateSufficientBalanceForNonce (tx : Transaction) (sender : Account) : outcome tv_err unit :=
  fail_if (ParseBigInt_bytes (acc_Balance sender) <? total_cost tx) BalanceTooLow.

Definition validateTransfer (tx : Transaction) (sender : Account) : outcome tv_err unit :=
  _ ← fail_if (Z.sgn (amount_of tx) <? 0) NegativeAmountTx;
  _ ← fail_if (ParseBigInt_bytes (acc_Balance sender) <? total_cost tx) BalanceTooLow;
  fail_if (bool_decide (tx_From tx = tx_To tx)) TransferToSelf.

Definition validateStake (tx : Transaction) (sender : Account) : outcome tv_err unit :=
  _ ← fail_if (Z.sgn (amount_of tx) <? 0) NegativeAmountTx;
  fail_if (ParseBigInt_bytes (acc_Balance sender) <? total_cost tx) BalanceTooLow.

Definition validateUnstake (tx : Transaction) (sender : Account) : outcome tv_err unit :=
  _ ← fail_if (Z.sgn (amount_of tx) <? 0) NegativeAmountTx;
  _ ← fail_if (ParseBigInt_bytes (acc_Balance sender) <? gas_cost tx) BalanceTooLow;
  fail_if (ParseBigInt_bytes (acc_StakedAmount sender) <? amount_of tx) StakeTooLow.

Definition validateDelegate (tx : Transaction) (sender : Account) : outcome tv_err unit :=
  _ ← fail_if (Z.sgn (amount_of tx) <? 0) NegativeAmountTx;
  _ ← fail_if (ParseBigInt_bytes (acc_Balance sender) <? total_cost tx) BalanceTooLow;
  fail_if (bool_decide (tx_From tx = tx_To tx)) DelegateToSelf.

(** A nil map has no entries. *)
Definition validateUndelegate (tx : Transaction) (sender : Account) : outcome tv_err unit :=
  _ ← fail_if (Z.sgn (amount_of tx) <? 0) NegativeAmountTx;
  _ ← fail_if (ParseBigInt_bytes (acc_Balance sender) <? gas_cost tx) BalanceTooLow;
  match acc_DelegatedTo sender !! tx_To tx with
  | None => Err NoDelegation
  | Some delegated => fail_if (ParseBigInt_bytes delegated <? amount_of tx) DelegationTooLow
  end.

Definition validateClaimRewards (tx : Transaction) (sender : Account) : outcome tv_err unit :=
  _ ← fail_if (ParseBigInt_bytes (acc_Balance sender) <? gas_cost tx) BalanceTooLow;
  fail_if (Z.sgn (ParseBigInt_bytes (acc_Rewards sender)) <=? 0) NoRewards.

(** ** Batches: the sender's account after a transaction *)

Definition updateTempAccountState (tx : Transaction) : GoM Account tv_err unit :=
  a ← get;
  let v := amount_of tx in
  let g := gas_cost tx in
  let bal := ParseBigInt_bytes (acc_Balance a) in
  let staked := ParseBigInt_bytes (acc_StakedAmount a) in
  let delegated := ParseBigInt_bytes (default [] (acc_DelegatedTo a !! tx_To tx)) in
  match tx_Type tx with
  | TRANSFER =>
      _ ← refuse_if (bal <? v + g) BalanceTooLow;
      modify (set_Balance (u256_or_nil (bal - (v + g))))
  | STAKE =>
      _ ← refuse_if (bal <? v + g) BalanceTooLow;
      modify (fun a => set_StakedAmount (u256_or_nil (staked + v)) (set_Balance (u256_or_nil (bal - (v + g))) a))
  | UNSTAKE =>
      _ ← refuse_if (bal <? g) BalanceTooLow;
      _ ← refuse_if (staked <? v) StakeTooLow;
      modify (fun a => set_StakedAmount (u256_or_nil (staked - v)) (set_Balance (u256_or_nil (bal - g + v)) a))
  | DELEGATE =>
      _ ← refuse_if (bal <? v + g) BalanceTooLow;
      modify (fun a => set_DelegatedTo (<[tx_To tx := u256_or_nil (delegated + v)]> (acc_DelegatedTo a))
        (set_StakedAmount (u256_or_nil (staked + v)) (set_Balance (u256_or_nil (bal - (v + g))) a)))
  | UNDELEGATE =>
      _ ← refuse_if (bal <? g) BalanceTooLow;
      _ ← refuse_if (staked <? v) StakeTooLow;
      _ ← refuse_if (delegated <? v) DelegationTooLow;
      let left_ := delegated - v in
      modify (fun a => set_DelegatedTo (if Z.sgn left_ =? 0 then delete (tx_To tx) (acc_DelegatedTo a)
                                        else <[tx_To tx := u256_or_nil left_]> (acc_DelegatedTo a))
        (set_StakedAmount (u256_or_nil (staked - v)) (set_Balance (u256_or_nil (bal - g + v)) a)))
  | CLAIM_REWARDS =>
      _ ← refuse_if (bal <? g) BalanceTooLow;
      modify (fun a => set_Rewards [] (set_Balance (u256_or_nil (bal - g + ParseBigInt_bytes (acc_Rewards a))) a))
  | GOVERNANCE_PROPOSE | GOVERNANCE_VOTE | GOVERNANCE_FINALIZE =>
      _ ← refuse_if (bal <? g) BalanceTooLow;
      modify (set_Balance (u256_or_nil (bal - g)))
  | _ => mret tt
  end.
End Stateless.

(** ** Checks against the world *)

Section Validator.
Context `{MapOrder} {C F : Type} `{LRU C} `{Float64 F}.
Context `{Json Proposal, Json ProposalPayload, Json VotePayload, Json FinalizePayload, Json stakeDomainMembers}.
Context {Pub Priv : Type} `{Secp256k1 Pub Priv}.
Context (Keccak256 HexToAddress : list byte -> list byte) (shardID totalShards : Z) (config : TxConfig).
Context (EIP155Sender : Z -> LegacyTx -> option Address) (HomesteadSender : LegacyTx -> option Address).

Notation W := (@world C F).
Notation state := ((TxValidator * Transaction) * W)%type.
Notation Val := (GoM state tv_err).

Definition on_state {A} (m : GoM (TxValidator * Transaction) tv_err A) : Val A := on_fst m.
Definition on_transaction {A} (m : GoM Transaction tv_err A) : Val A := on_fst (on_snd m).
Definition current : Val Transaction := fun s => (Ok (snd (fst s)), s).

(** [stateReader.GetAccount], and what the pointer it returns holds. *)
Definition reader_GetAccount (address : string) : GoM W tv_err Account :=
  l ← wrapM GetFailed (ws_GetAccount Keccak256 shardID totalShards address);
  wrapM GetFailed (on_am AccountError (load l)).

Definition check_active (address : string) : GoM W tv_err unit := fun w =>
  match reg_GetValidator address (registry_of w) with
  | Ok v => if val_Active v then (Ok tt, w) else (Err NotActiveValidator, w)
  | _ => (Err NotActiveValidator, w)
  end.

Definition reader_GetProposal (id : string) : GoM W tv_err Proposal :=
  on_governance GovernanceInvalid (GetProposal id).

(** Any error of [GetProposal] counts as absence. *)
Definition no_proposal (id : string) : GoM W tv_err unit := fun w =>
  match reader_GetProposal id w with
  | (Ok _, w') => (Err (ProposalExists id), w')
  | (Err _, w') => (Ok tt, w')
  | (Panic, w') => (Panic, w')
  | (Hang, w') => (Hang, w')
  end.

Definition validateGovernanceProposal (tx : Transaction) (sender : Account) : GoM W tv_err unit :=
  _ ← lift (validateSufficientBalanceForNonce tx sender);
  payload ← lift (wrap GovernanceInvalid (ParseProposalPayload (payload_text tx)));
  _ ← check_active (tx_From tx);
  _ ← lift (wrap GovernanceInvalid (ValidateParameterChange (pp_Parameter payload) (pp_ProposedValue payload)));
  no_proposal (tx_Hash tx).

Definition active_proposal (id : string) : GoM W tv_err Proposal :=
  proposal ← reader_GetProposal id;
  _ ← refuse_if (negb (bool_decide (p_Status proposal = Active))) (ProposalInactive id);
  mret proposal.

Definition validateGovernanceVote (now : Z) (tx : Transaction) (sender : Account) : GoM W tv_err unit :=
  _ ← lift (validateSufficientBalanceForNonce tx sender);
  payload ← lift (wrap GovernanceInvalid (ParseVotePayload (payload_text tx)));
  _ ← check_active (tx_From tx);
  proposal ← active_proposal (vp_ProposalID payload);
  refuse_if (p_VotingEndsAt proposal <? now) (VotingEnded (vp_ProposalID payload)).

Definition validateGovernanceFinalize (now : Z) (tx : Transaction) (sender : Account) : GoM W tv_err unit :=
  _ ← lift (validateSufficientBalanceForNonce tx sender);
  payload ← lift (wrap GovernanceInvalid (ParseFinalizePayload (payload_text tx)));
  _ ← check_active (tx_From tx);
  proposal ← active_proposal (fp_ProposalID payload);
  refuse_if (now <? p_VotingEndsAt proposal) (VotingOpen (fp_ProposalID payload)).

Definition validateBusinessLogic (now : Z) (tx : Transaction) : GoM W tv_err unit :=
  sender ← reader_GetAccount (tx_From tx);
  _ ← lift (validateNonce (tx_Nonce tx) (acc_Nonce sender));
  match tx_Type tx with
  | TRANSFER => lift (validateTransfer tx sender)
  | STAKE => lift (validateStake tx sender)
  | UNSTAKE => lift (validateUnstake tx sender)
  | DELEGATE => lift (validateDelegate tx sender)
  | UNDELEGATE => lift (validateUndelegate tx sender)
  | CLAIM_REWARDS => lift (validateClaimRewards tx sender)
  | GOVERNANCE_PROPOSE => validateGovernanceProposal tx sender
  | GOVERNANCE_VOTE => validateGovernanceVote now tx sender
  | GOVERNANCE_FINALIZE => validateGovernanceFinalize now tx sender
  | EVM_CONTRACT_CALL | EVM_CONTRACT_DEPLOY => lift (validateSufficientBalanceForNonce tx sender)
  | UnknownType _ => throw UnknownTxType
  end.

(** [v.replayDetector.CheckReplayV3(...)]. *)
Definition check_replay (now currentHeight : Z) : GoM (TxValidator * Transaction) tv_err unit := fun s =>
  let '(v, tx) := s in
  let '(r, rd) := CheckReplayV3 (MkCheck (tx_Hash tx) (tx_ChainId tx) (tx_From tx) (tx_Nonce tx) currentHeight)
                    now (replayDetector v) in
  (wrap ReplayDetected r, (MkTxValidator (replayConfig v) rd, tx)).

Definition check_timing (now : Z) : GoM (TxValidator * Transaction) tv_err unit := fun s =>
  let '(v, tx) := s in
  (match replayConfig v with
   | Some c => wrap TimingInvalid (ValidateTransactionTimingV3 (tx_Timestamp tx) c now)
   | None => if tx_Timestamp tx <=? 0 then Err (TimingInvalid TimestampNotPositive)
             else if now <? tx_Timestamp tx then Err (TimingInvalid FutureTimestamp)
             else Panic
   end, s).

Definition ValidateTransaction (clk : clocks) (currentHeight : Z) : Val unit :=
  _ ← on_transaction normalize;
  tx ← current;
  _ ← on_state (counting (RecordChainIDMismatch (at_replay clk))
        (lift (wrap ChainIDInvalid (ValidateChainIDMatch (tx_ChainId tx) (cfg_ChainID config)))));
  _ ← on_state (counting (RecordReplayAttempt (at_replay clk)) (check_replay (at_replay clk) currentHeight));
  _ ← on_state (counting RecordTimeBasedExpiration (check_timing (at_timing clk)));
  _ ← lift (validateStructure config (at_structure clk) tx);
  _ ← on_transaction (validateHash Keccak256);
  _ ← lift (validateShard Keccak256 shardID totalShards tx);
  _ ← on_state (validateSignature Keccak256 config HexToAddress EIP155Sender HomesteadSender (at_replay clk));
  tx ← current;
  _ ← on_snd (validateBusinessLogic (at_business clk) tx);
  s ← get;
  lift (ValidateReplayProtection config (at_expiry clk) (replayConfig (fst (fst s))) tx).

Definition maxMempoolNonceGap : Z := 100.

Definition ValidateForMempool (clk : clocks) : Val unit :=
  _ ← on_transaction normalize;
  _ ← on_state (validateSignature Keccak256 config HexToAddress EIP155Sender HomesteadSender (at_replay clk));
  tx ← current;
  sender ← on_snd (reader_GetAccount (tx_From tx));
  _ ← refuse_if (tx_Nonce tx <? acc_Nonce sender) (NonceTooLow (acc_Nonce sender) (tx_Nonce tx));
  _ ← refuse_if (u64 (acc_Nonce sender + maxMempoolNonceGap) <? tx_Nonce tx) (NonceTooHigh (acc_Nonce sender) (tx_Nonce tx));
  lift (validateSufficientBalanceForNonce tx sender).

(** ** Batches *)

Notation batch := (gmap string Account * (TxValidator * W))%type.

Definition temp_account (address : string) (temp : gmap string Account) : GoM W tv_err Account :=
  match temp !! address with
  | Some a => mret a
  | None => reader_GetAccount address
  end.

(** Each transaction with the readings of the clock of its validation. *)
Fixpoint ValidateBatch_loop (txs : list (clocks * Transaction)) : GoM batch tv_err unit :=
  match txs with
  | [] => mret tt
  | (clk, tx) :: txs' =>
      _ ← (fun s : batch =>
             let '(temp, (v, w)) := s in
             match temp_account (tx_From tx) temp w with
             | (Ok sender, w1) =>
                 match ValidateTransaction clk 0 ((v, tx), w1) with
                 | (Ok _, ((v', tx'), w2)) =>
                     match updateTempAccountState tx' sender with
                     | (Ok _, sender') => (Ok tt, (<[tx_From tx := sender']> temp, (v', w2)))
                     | (Err e, sender') => (Err e, (<[tx_From tx := sender']> temp, (v', w2)))
                     | (Panic, _) => (Panic, (temp, (v', w2)))
                     | (Hang, _) => (Hang, (temp, (v', w2)))
                     end
                 | (r, ((v', _), w2)) => (r, (<[tx_From tx := sender]> temp, (v', w2)))
                 end
             | (Err e, w1) => (Err e, (temp, (v, w1)))
             | (Panic, w1) => (Panic, (temp, (v, w1)))
             | (Hang, w1) => (Hang, (temp, (v, w1)))
             end);
      ValidateBatch_loop txs'
  end.

Definition ValidateBatch (txs : list (clocks * Transaction)) : GoM (TxValidator * W) tv_err unit := fun s =>
  let '(r, (_, s')) := ValidateBatch_loop txs (∅, s) in (r, s').
End Validator.
