(* ===== verification/TxValidatorSpec.v ===== *)
(** * What the transaction validator guarantees

    The replay detector in front of the checks makes a validation a one-time
    event, for genuine and for forged transactions alike; the signed message
    determines what it authorises; and a transaction that passes is one the
    executor does not refuse. *)

From S2P Require Import Prelude SafeMath Uint256 Address Storage AccountManager AccountSpec ShardedLock Governance Domains.
From S2P Require Import Hashes Keys Replay World Executor ExecutorSpec ExecutorThms EvmSpec StateRoot Wire TxHash TxValidator.
From stdpp Require Import base tactics numbers list gmap strings.
From Stdlib Require Import ZArith Lia Strings.Byte Strings.Ascii.
Open Scope Z_scope.
Open Scope list_scope.

#[global] Instance TransactionType_eq_dec : EqDecision TransactionType.
Proof. solve_decision. Defined.

(** ** The nonces the detector has seen only grow *)

Definition nonces_up (rd rd' : ReplayDetectorV3) : Prop :=
  forall a n, accountNonces rd !! a = Some n -> exists n', accountNonces rd' !! a = Some n' /\ n <= n'.
#[global] Instance nonces_up_preorder : PreOrder nonces_up.
Proof.
  split; [intros rd a n; eauto with lia|]. intros x y z Hxy Hyz a n Ha.
  destruct (Hxy a n Ha) as (n1 & Hn1 & ?). destruct (Hyz a n1 Hn1) as (n2 & ? & ?). exists n2. split; [done|lia].
Qed.

(** Whatever a call does to the transaction, sender, nonce and chain stay. *)
Record advances (s s' : TxValidator * Transaction) : Prop := {
  adv_from : tx_From (snd s') = tx_From (snd s);
  adv_nonce : tx_Nonce (snd s') = tx_Nonce (snd s);
  adv_seen : is_u64 (tx_Nonce (snd s)) -> nonces_fit (replayDetector (fst s)) ->
    nonces_fit (replayDetector (fst s')) /\ nonces_up (replayDetector (fst s)) (replayDetector (fst s'))
}.
#[global] Instance advances_preorder : PreOrder advances.
Proof.
  split; [by split|]. intros x y z [F1 N1 S1] [F2 N2 S2]. split; [congruence..|].
  intros Hn Hf. destruct (S1 Hn Hf) as [Hf1 Hu1]. destruct S2 as [Hf2 Hu2]; [by rewrite N1|done|].
  split; [done|by etransitivity].
Qed.

(** What leaves the detector's nonces alone, and the two fields. *)
Lemma advances_same s s' : tx_From (snd s') = tx_From (snd s) -> tx_Nonce (snd s') = tx_Nonce (snd s) ->
  accountNonces (replayDetector (fst s')) = accountNonces (replayDetector (fst s)) -> advances s s'.
Proof.
  intros Hf Hn Ha. split; [done..|]. intros _ Hfit. unfold nonces_fit, nonces_up. rewrite Ha. eauto with lia.
Qed.

Definition same_sender (tx tx' : Transaction) : Prop := tx_From tx' = tx_From tx /\ tx_Nonce tx' = tx_Nonce tx.
#[global] Instance same_sender_preorder : PreOrder same_sender.
Proof. split; [done|]. intros x y z [] []. split; congruence. Qed.

Lemma keeps_on_tx {A} (m : GoM Transaction tv_err A) : keeps same_sender m -> keeps advances (on_snd m).
Proof.
  intros Hm [v tx]. specialize (Hm tx). unfold on_snd. destruct (m tx) as [r tx'], Hm as [Hf Hn]. by apply advances_same.
Qed.

Lemma keeps_counting {A} f (m : GoM (TxValidator * Transaction) tv_err A) :
  keeps advances m -> keeps advances (counting f m).
Proof.
  intros Hm s. specialize (Hm s). unfold counting. destruct (m s) as [[|e| |] s']; try done. simpl in *.
  etransitivity; [done|]. by apply advances_same.
Qed.

Lemma normalize_same : keeps same_sender normalize.
Proof.
  apply keeps_wrapM. intros tx. unfold normalizeTransactionAmounts. repeat case_match; by destruct tx.
Qed.
#[export] Hint Resolve keeps_on_tx keeps_counting normalize_same : frame.

(** Putting the amounts in canonical form changes nothing else the front reads. *)
Lemma normalized_keeps tx : is_ok (fst (normalize tx)) = true -> exists tx1, normalize tx = (Ok tt, tx1) /\
  tx_Signature tx1 = tx_Signature tx /\ tx_ChainId tx1 = tx_ChainId tx /\
  forall now height v, fst (check_replay now height (v, tx1)) = fst (check_replay now height (v, tx)).
Proof.
  unfold normalize, wrapM, normalizeTransactionAmounts.
  destruct (CanonicalizeUint256Bytes (tx_Amount tx)) as [a| | |]; [|done..].
  destruct (CanonicalizeUint256Bytes (tx_GasPrice tx)) as [b| | |]; [|done..].
  intros _. eexists. split; [reflexivity|]. split; [by destruct tx|]. split; [by destruct tx|].
  intros now height v. destruct tx. simpl. by destruct (CheckReplayV3 _ _ _).
Qed.

Section Frames.
Context (Keccak256 : list byte -> list byte) (config : TxConfig).

Lemma message_same p1 p2 : keeps same_sender p1 -> (forall v, keeps same_sender (p2 v)) -> keeps same_sender (message p1 p2).
Proof. intros H1 H2. unfold message. frame. Qed.

Lemma hash_same : keeps same_sender (CalculateTransactionHash Keccak256).
Proof. unfold CalculateTransactionHash. frame. apply message_same; frame. Qed.
Lemma signable_same : keeps same_sender (calculateSignableHash Keccak256 config).
Proof. unfold calculateSignableHash. frame. apply message_same; frame. Qed.
Hint Resolve hash_same signable_same : frame.

Lemma validateHash_same : keeps same_sender (validateHash Keccak256).
Proof. unfold validateHash. frame. Qed.

Context {Pub Priv : Type} `{Secp256k1 Pub Priv} (HexToAddress : list byte -> list byte).
Context (EIP155Sender : Z -> LegacyTx -> option Address) (HomesteadSender : LegacyTx -> option Address).

Lemma the_tx_keeps : keeps advances the_tx.
Proof. intros s. simpl. reflexivity. Qed.
Hint Resolve the_tx_keeps : frame.

Lemma validateSignature_keeps now :
  keeps advances (validateSignature Keccak256 config HexToAddress EIP155Sender HomesteadSender now).
Proof.
  unfold validateSignature. frame. apply keeps_on_tx. unfold tv_VerifyTransactionSignature. frame.
Qed.

Lemma check_timing_keeps now : keeps advances (check_timing now).
Proof. intros [v tx]. simpl. reflexivity. Qed.

(** A check either records the transaction's nonce for its sender or leaves the
    record alone. *)
Lemma check_replay_cases now height v tx : is_u64 (tx_Nonce tx) -> nonces_fit (replayDetector v) ->
  let sender := normalizeReplayAddress (tx_From tx) in
  (exists v', check_replay now height (v, tx) = (Ok tt, (v', tx)) /\
     accountNonces (replayDetector v') = <[sender := tx_Nonce tx]> (accountNonces (replayDetector v)) /\
     forall n, accountNonces (replayDetector v) !! sender = Some n -> n < tx_Nonce tx) \/
  (exists e v', check_replay now height (v, tx) = (Err e, (v', tx)) /\
     accountNonces (replayDetector v') = accountNonces (replayDetector v)).
Proof.
  intros Hn Hfit sender. unfold check_replay, CheckReplayV3, mbind, GoM_bind.
  set (k := MkCheck _ _ _ _ _).
  destruct (check_seen_cases k now now (replayDetector v)) as [(_ & _ & ->)|(_ & e & rd & -> & Hrd & _)].
  2: { right. eexists _, _. split; [reflexivity|done]. }
  destruct (claim_nonce_cases k now (replayDetector v)) as [(Hacc & ->)|(_ & e & rd & -> & Hrd & _)]; [done|done| |].
  2: { right. eexists _, _. split; [reflexivity|done]. }
  left. eexists. split; [reflexivity|]. split; [done|]. intros n Hs.
  unfold nonce_acceptable in Hacc. change (k_sender k) with sender in Hacc. rewrite Hs in Hacc. simpl in Hacc. lia.
Qed.

Lemma check_replay_keeps now height : keeps advances (check_replay now height).
Proof.
  intros [v tx]. unfold check_replay. set (k := MkCheck _ _ _ _ _).
  destruct (CheckReplayV3 k now (replayDetector v)) as [r rd] eqn:Hc. split; [done..|]. simpl. intros Hn Hfit.
  destruct (check_replay_cases now height v tx Hn Hfit) as [(v' & Hr & Hset & Hup)|(e & v' & Hr & Hsame)];
    unfold check_replay in Hr; fold k in Hr; rewrite Hc in Hr; injection Hr as _ <-; simpl in *.
  - unfold nonces_fit, nonces_up. rewrite Hset. split; intros a n.
    + rewrite lookup_insert_Some. intros [[_ <-]|[_ Ha]]; [done|by apply (Hfit a)].
    + destruct (decide (a = normalizeReplayAddress (tx_From tx))) as [->|Hne].
      * intros Ha. rewrite lookup_insert_eq. specialize (Hup n Ha). eauto with lia.
      * rewrite lookup_insert_ne by done. eauto with lia.
  - unfold nonces_fit, nonces_up. rewrite Hsame. eauto with lia.
Qed.
End Frames.
#[export] Hint Resolve the_tx_keeps validateHash_same validateSignature_keeps check_timing_keeps check_replay_keeps : frame.

(** ** A validation happens once *)

Section Once.
Context `{MapOrder} {C F : Type} `{LRU C} `{Float64 F}.
Context `{Json Proposal, Json ProposalPayload, Json VotePayload, Json FinalizePayload, Json stakeDomainMembers}.
Context {Pub Priv : Type} `{Secp256k1 Pub Priv}.
Context (Keccak256 HexToAddress : list byte -> list byte) (shardID totalShards : Z) (config : TxConfig).
Context (EIP155Sender : Z -> LegacyTx -> option Address) (HomesteadSender : LegacyTx -> option Address).
Notation W := (@world C F).
Notation state := ((TxValidator * Transaction) * W)%type.
Notation Validate_ := (ValidateTransaction (C:=C) (F:=F) Keccak256 HexToAddress shardID totalShards config EIP155Sender HomesteadSender).
Notation Mempool := (ValidateForMempool (C:=C) (F:=F) Keccak256 HexToAddress shardID totalShards config EIP155Sender HomesteadSender).
Notation Batch := (ValidateBatch (C:=C) (F:=F) Keccak256 HexToAddress shardID totalShards config EIP155Sender HomesteadSender).

Definition advances_w (s s' : state) : Prop := advances (fst s) (fst s').
#[local] Instance advances_w_preorder : PreOrder advances_w.
Proof. split; [intros s; unfold advances_w; reflexivity|]. intros x y z. unfold advances_w. apply transitivity. Qed.

Lemma keeps_on_state {A} (m : GoM (TxValidator * Transaction) tv_err A) : keeps advances m -> keeps advances_w (on_state m).
Proof. intros Hm [s w]. specialize (Hm s). unfold on_state, on_fst. by destruct (m s). Qed.
Lemma keeps_on_transaction {A} (m : GoM Transaction tv_err A) : keeps same_sender m -> keeps advances_w (on_transaction m).
Proof. intros Hm. by apply keeps_on_state, keeps_on_tx. Qed.
Lemma keeps_on_world {A} (m : GoM W tv_err A) : keeps advances_w (on_snd m).
Proof. intros [s w]. unfold on_snd, advances_w. destruct (m w). simpl. reflexivity. Qed.
Lemma keeps_current : keeps advances_w current.
Proof. intros s. simpl. reflexivity. Qed.
Hint Resolve keeps_on_state keeps_on_transaction keeps_on_world keeps_current : frame.

(** The checks after the detector's. *)
Definition after_replay (clk : clocks) (tx : Transaction) : GoM state tv_err unit :=
  _ ← on_state (counting RecordTimeBasedExpiration (check_timing (at_timing clk)));
  _ ← lift (validateStructure config (at_structure clk) tx);
  _ ← on_transaction (validateHash Keccak256);
  _ ← lift (validateShard Keccak256 shardID totalShards tx);
  _ ← on_state (validateSignature Keccak256 config HexToAddress EIP155Sender HomesteadSender (at_replay clk));
  tx ← current;
  _ ← on_snd (validateBusinessLogic Keccak256 shardID totalShards (at_business clk) tx);
  s ← get;
  lift (ValidateReplayProtection config (at_expiry clk) (replayConfig (fst (fst s))) tx).

Lemma after_replay_keeps clk tx : keeps advances_w (after_replay clk tx).
Proof. unfold after_replay. frame. Qed.

Lemma ValidateTransaction_keeps clk height : keeps advances_w (Validate_ clk height).
Proof. unfold ValidateTransaction. frame. Qed.

Lemma ValidateForMempool_keeps clk : keeps advances_w (Mempool clk).
Proof. unfold ValidateForMempool. frame. Qed.

Definition seen (v : TxValidator) (tx : Transaction) : Prop :=
  exists n, GetReplayNonce (tx_From tx) v = Some n /\ tx_Nonce tx <= n.

(** The front of a validation, up to the detector's verdict. *)
Lemma front_run clk height v tx w tx1 : normalize tx = (Ok tt, tx1) ->
  is_ok (ValidateChainIDMatch (tx_ChainId tx1) (cfg_ChainID config)) = true ->
  Validate_ clk height ((v, tx), w) =
  (_ ← on_state (counting (RecordReplayAttempt (at_replay clk)) (check_replay (at_replay clk) height));
   after_replay clk tx1) ((v, tx1), w).
Proof.
  intros Hnorm Hchain. unfold ValidateTransaction.
  rewrite (GoM_bind_ok _ _ _ tt ((v, tx1), w)) by (unfold on_transaction, on_fst, on_snd; by rewrite Hnorm).
  rewrite (GoM_bind_ok _ _ _ tx1 ((v, tx1), w)) by done.
  rewrite (GoM_bind_ok _ _ _ tt ((v, tx1), w)); [done|].
  unfold on_state, on_fst, counting, lift. destruct (ValidateChainIDMatch _ _) as [[]| | |]; done.
Qed.

Lemma front_cases clk height v tx w tx1 : is_u64 (tx_Nonce tx) -> nonces_fit (replayDetector v) ->
  normalize tx = (Ok tt, tx1) ->
  is_ok (ValidateChainIDMatch (tx_ChainId tx1) (cfg_ChainID config)) = true ->
  (exists v', Validate_ clk height ((v, tx), w) = after_replay clk tx1 ((v', tx1), w) /\
     check_replay (at_replay clk) height (v, tx1) = (Ok tt, (v', tx1)) /\
     nonces_fit (replayDetector v') /\ seen v' tx1 /\
     forall n, GetReplayNonce (tx_From tx) v = Some n -> n < tx_Nonce tx) \/
  (exists e v', Validate_ clk height ((v, tx), w) = (Err e, ((v', tx1), w)) /\
     is_err (fst (check_replay (at_replay clk) height (v, tx1))) = true).
Proof.
  intros Hn Hfit Hnorm Hchain. destruct (normalize_same tx) as [Hf Hno]. rewrite Hnorm in Hf, Hno. simpl in Hf, Hno.
  rewrite (front_run clk height v tx w tx1) by done.
  pose proof (check_replay_keeps (at_replay clk) height (v, tx1)) as Hkeep.
  destruct (check_replay_cases (at_replay clk) height v tx1) as [(v' & Hr & Hset & Hup)|(e & v' & Hr & _)];
    [by rewrite Hno|done|left|right]; rewrite Hr in *.
  - exists v'. rewrite (GoM_bind_ok _ _ _ tt ((v', tx1), w)) by (unfold on_state, on_fst, counting; by rewrite Hr).
    split; [done|]. split; [done|]. destruct Hkeep as [_ _ Hk].
    destruct Hk as [Hk _]; [by simpl; rewrite Hno|done|]. split; [done|].
    rewrite Hf, Hno in Hup. split; [|done]. exists (tx_Nonce tx1). split; [|lia].
    unfold GetReplayNonce, Detector_GetNonce. by rewrite Hset, lookup_insert_eq.
  - eexists e, _. split; [|done]. apply GoM_bind_err. unfold on_state, on_fst, counting. rewrite Hr. reflexivity.
Qed.

(** A successful validation went through the front. *)
Lemma validated_front clk height v tx w s' : Validate_ clk height ((v, tx), w) = (Ok tt, s') ->
  exists tx1, normalize tx = (Ok tt, tx1) /\
  is_ok (ValidateChainIDMatch (tx_ChainId tx1) (cfg_ChainID config)) = true.
Proof.
  unfold ValidateTransaction. intros ([] & s1 & Hn & Hv)%GoM_bind_inv_ok.
  unfold on_transaction, on_fst, on_snd in Hn. destruct (normalize tx) as [r tx1] eqn:Hr. injection Hn as -> <-.
  exists tx1. split; [done|].
  apply GoM_bind_inv_ok in Hv as (tx2 & s2 & Hc & Hv). unfold current in Hc. injection Hc as <- <-.
  apply GoM_bind_inv_ok in Hv as ([] & s3 & Hc & _). unfold on_state, on_fst, counting, lift in Hc. simpl in Hc.
  by destruct (ValidateChainIDMatch _ _) as [[]| | |].
Qed.

Lemma seen_refused clk height v tx w : is_u64 (tx_Nonce tx) -> nonces_fit (replayDetector v) -> seen v tx ->
  is_ok (fst (Validate_ clk height ((v, tx), w))) = false.
Proof.
  intros Hn Hfit (n & Hseen & Hle). destruct (Validate_ clk height ((v, tx), w)) as [[[]| | |] s'] eqn:Hv; try done.
  exfalso. destruct (validated_front clk height v tx w s' Hv) as (tx1 & Hnorm & Hchain).
  destruct (front_cases clk height v tx w tx1 Hn Hfit Hnorm Hchain) as [(v' & _ & _ & _ & _ & Hup)|(e & v' & He & _)].
  - specialize (Hup n Hseen). lia.
  - congruence.
Qed.

Lemma seen_up v v' tx : nonces_up (replayDetector v) (replayDetector v') -> seen v tx -> seen v' tx.
Proof. intros Hup (n & Hs & Hle). destruct (Hup _ _ Hs) as (n' & Hs' & ?). exists n'. split; [done|lia]. Qed.

Lemma validated_seen clk height v tx w v' tx' w' : is_u64 (tx_Nonce tx) -> nonces_fit (replayDetector v) ->
  Validate_ clk height ((v, tx), w) = (Ok tt, ((v', tx'), w')) -> nonces_fit (replayDetector v') /\ seen v' tx.
Proof.
  intros Hn Hfit Hv. destruct (validated_front _ _ _ _ _ _ Hv) as (tx1 & Hnorm & Hchain).
  destruct (normalize_same tx) as [Hf Hno]. rewrite Hnorm in Hf, Hno. simpl in Hf, Hno.
  destruct (front_cases clk height v tx w tx1 Hn Hfit Hnorm Hchain) as [(v1 & Heq & _ & Hfit1 & Hs & _)|(e & v1 & He & _)];
    [|congruence].
  pose proof (after_replay_keeps clk tx1 ((v1, tx1), w)) as [_ _ Hk]. rewrite <-Heq, Hv in Hk. simpl in Hk.
  destruct Hk as [Hf' Hup]; [by rewrite Hno|done|]. split; [done|]. apply (seen_up v1 v' tx Hup).
  destruct Hs as (n & Hg & Hle). exists n. by rewrite <-Hf, <-Hno.
Qed.

(** ** Any sequence of calls *)

Lemma ValidateBatch_loop_keeps txs : Forall (fun ct => is_u64 (tx_Nonce (snd ct))) txs -> forall temp v w,
  nonces_fit (replayDetector v) ->
  let v' := fst (snd (snd (ValidateBatch_loop (C:=C) (F:=F) Keccak256 HexToAddress shardID totalShards config
                             EIP155Sender HomesteadSender txs (temp, (v, w))))) in
  nonces_fit (replayDetector v') /\ nonces_up (replayDetector v) (replayDetector v').
Proof.
  induction 1 as [|[clk tx] txs Hn _ IH]; intros temp v w Hfit; [done|]. simpl in Hn. cbn [ValidateBatch_loop].
  unfold mbind, GoM_bind. destruct (temp_account _ _ _ _ _ _) as [[sender|e| |] w1]; try done.
  pose proof (ValidateTransaction_keeps clk 0 ((v, tx), w1)) as [_ _ Hk].
  destruct (Validate_ clk 0 ((v, tx), w1)) as [r [[v1 tx1] w2]]. destruct (Hk Hn Hfit) as [Hf Hu].
  destruct r as [[]| | |]; [|done..]. destruct (updateTempAccountState _ _) as [[[]| | |] a']; [|done..].
  destruct (IH (<[tx_From tx := a']> temp) v1 w2 Hf) as [Hf2 Hu2]. split; [done|by etransitivity].
Qed.

(** The calls a node makes on its validator. *)
Inductive validator_step : TxValidator -> TxValidator -> Prop :=
| step_validate clk height v tx w r v' tx' w' : is_u64 (tx_Nonce tx) ->
    Validate_ clk height ((v, tx), w) = (r, ((v', tx'), w')) -> validator_step v v'
| step_mempool clk v tx w r v' tx' w' : is_u64 (tx_Nonce tx) ->
    Mempool clk ((v, tx), w) = (r, ((v', tx'), w')) -> validator_step v v'
| step_batch txs v w r v' w' : Forall (fun ct => is_u64 (tx_Nonce (snd ct))) txs ->
    Batch txs (v, w) = (r, (v', w')) -> validator_step v v'
| step_config c v : validator_step v (SetReplayProtectionConfig c v).

Lemma validator_step_up v v' : validator_step v v' -> nonces_fit (replayDetector v) ->
  nonces_fit (replayDetector v') /\ nonces_up (replayDetector v) (replayDetector v').
Proof.
  intros [clk height x tx w r x' tx' w' Hn Hr|clk x tx w r x' tx' w' Hn Hr|txs x w r x' w' Hn Hr|c x] Hfit.
  - pose proof (ValidateTransaction_keeps clk height ((x, tx), w)) as [_ _ Hk]. rewrite Hr in Hk. by apply Hk.
  - pose proof (ValidateForMempool_keeps clk ((x, tx), w)) as [_ _ Hk]. rewrite Hr in Hk. by apply Hk.
  - pose proof (ValidateBatch_loop_keeps txs Hn ∅ x w Hfit) as Hk. unfold ValidateBatch in Hr.
    destruct (ValidateBatch_loop _ _ _ _ _ _ _ _ _) as [r1 [t1 [v1 w1]]]. injection Hr as <- <- <-. done.
  - done.
Qed.

Lemma seen_forever v v' tx : rtc validator_step v v' -> nonces_fit (replayDetector v) -> seen v tx ->
  nonces_fit (replayDetector v') /\ seen v' tx.
Proof.
  induction 1 as [|v v1 v2 Hs _ IH]; [done|]. intros Hfit Hseen. destruct (validator_step_up v v1 Hs Hfit) as [Hf Hu].
  apply IH; [done|by apply (seen_up v)].
Qed.

Lemma seen_other v tx tx' : seen v tx -> normalizeReplayAddress (tx_From tx') = normalizeReplayAddress (tx_From tx) ->
  tx_Nonce tx' <= tx_Nonce tx -> seen v tx'.
Proof.
  intros (n & Hg & Hle) Hs Hn. exists n. unfold GetReplayNonce, Detector_GetNonce in *. rewrite Hs. split; [done|lia].
Qed.

(** C15. A transaction that has passed validation never passes again: whatever
    calls the validator serves afterwards (validations, mempool checks, batches,
    changes of the replay configuration), every transaction of the same sender,
    however the address is written, with the same or a lower nonce is refused.
    The node calls the same validator when a transaction enters its pool and
    when it judges a block that contains it. *)
Theorem transaction_validates_once clk height v tx w v1 tx1 w1 v2 :
  is_u64 (tx_Nonce tx) -> nonces_fit (replayDetector v) ->
  Validate_ clk height ((v, tx), w) = (Ok tt, ((v1, tx1), w1)) -> rtc validator_step v1 v2 ->
  forall clk' height' tx' w', is_u64 (tx_Nonce tx') ->
  normalizeReplayAddress (tx_From tx') = normalizeReplayAddress (tx_From tx) -> tx_Nonce tx' <= tx_Nonce tx ->
  is_ok (fst (Validate_ clk' height' ((v2, tx'), w'))) = false.
Proof.
  intros Hn Hfit Hv Hsteps clk' height' tx' w' Hn' Hs Hle.
  destruct (validated_seen clk height v tx w v1 tx1 w1 Hn Hfit Hv) as [Hf1 Hseen].
  destruct (seen_forever v1 v2 tx Hsteps Hf1 Hseen) as [Hf2 Hseen2].
  apply seen_refused; [done..|]. by apply (seen_other v2 tx).
Qed.

Lemma unsigned_refused clk tx s : tx_Signature tx = [] -> is_ok (fst (after_replay clk tx s)) = false.
Proof.
  intros Hs. destruct (after_replay clk tx s) as [[[]| | |] s'] eqn:Hr; try done. exfalso.
  unfold after_replay in Hr. apply GoM_bind_inv_ok in Hr as ([] & s1 & _ & Hr).
  apply GoM_bind_inv_ok in Hr as ([] & s2 & Hst & _). unfold lift in Hst. injection Hst as Hst _.
  unfold validateStructure in Hst. rewrite Hs in Hst.
  repeat (apply outcome_bind_inv_ok in Hst as ([] & ? & Hst)). done.
Qed.

(** The replay detector records a nonce before the signature is looked at:
    anyone can send a transaction without a signature that names a victim as the
    sender and is refused for it, and from then on the victim's own transactions
    with that nonce or a lower one are refused, whatever happens next. *)
Theorem unsigned_transaction_burns_nonce clk height v forged w v2 :
  is_u64 (tx_Nonce forged) -> nonces_fit (replayDetector v) ->
  tx_Signature forged = [] -> is_ok (fst (normalize forged)) = true ->
  is_ok (ValidateChainIDMatch (tx_ChainId forged) (cfg_ChainID config)) = true ->
  is_ok (fst (check_replay (at_replay clk) height (v, forged))) = true ->
  let '(r, ((v1, _), _)) := Validate_ clk height ((v, forged), w) in
  is_ok r = false /\
  (rtc validator_step v1 v2 -> forall clk' height' tx' w', is_u64 (tx_Nonce tx') ->
   normalizeReplayAddress (tx_From tx') = normalizeReplayAddress (tx_From forged) -> tx_Nonce tx' <= tx_Nonce forged ->
   is_ok (fst (Validate_ clk' height' ((v2, tx'), w'))) = false).
Proof.
  intros Hn Hfit Hsig Hnorm Hchain Hcheck. destruct (normalized_keeps forged Hnorm) as (tx1 & Hn1 & Hs1 & Hc1 & Hk1).
  destruct (normalize_same forged) as [Hf Hno]. rewrite Hn1 in Hf, Hno. simpl in Hf, Hno.
  destruct (front_cases clk height v forged w tx1 Hn Hfit Hn1) as [(v1 & Heq & _ & Hfit1 & Hseen & _)|(e & v1 & _ & He)].
  { by rewrite Hc1. }
  2: { rewrite Hk1 in He. by destruct (fst (check_replay _ _ (v, forged))). }
  rewrite Heq. pose proof (unsigned_refused clk tx1 ((v1, tx1), w)) as Hno_sig.
  pose proof (after_replay_keeps clk tx1 ((v1, tx1), w)) as [_ _ Hk].
  destruct (after_replay clk tx1 ((v1, tx1), w)) as [r [[v1' tx1'] w1]]. simpl in *.
  split; [apply Hno_sig; congruence|]. intros Hsteps clk' height' tx' w' Hn' Hs Hle.
  destruct Hk as [Hf1 Hup]; [by rewrite Hno|done|].
  destruct (seen_forever v1' v2 tx1 Hsteps Hf1) as [Hf2 Hseen2]; [by apply (seen_up v1)|].
  apply seen_refused; [done..|]. apply (seen_other v2 tx1); [done|by rewrite Hf|lia].
Qed.
End Once.

(** ** What a signature authorises *)

Section Binding.
Context (Keccak256 : list byte -> list byte) (config : TxConfig).

Lemma Keccak_inj x y : Keccak256 x = Keccak256 y -> x = y \/ collision Keccak256.
Proof.
  intros Heq. destruct (decide (x = y)); [by left|]. right. exists x, y. split; [done|]. unfold NewHash. by rewrite Heq.
Qed.

(** The fields are Go values of their types, and an unknown type is not one of
    the known ones. *)
Definition tx_wire (tx : Transaction) : Prop :=
  is_i64 (tx_Gas tx) /\ is_u64 (tx_Nonce tx) /\ is_i64 (tx_Timestamp tx) /\ 0 <= tx_EncodingVersion tx < two32 /\
  forall n, tx_Type tx = UnknownType n -> - 2147483648 <= n < 2147483648 /\ ~ (0 <= n <= 10).

Record same_request (tx1 tx2 : Transaction) : Prop := {
  sr_Id : tx_Id tx1 = tx_Id tx2;
  sr_From : tx_From tx1 = tx_From tx2;
  sr_To : tx_To tx1 = tx_To tx2;
  sr_Amount : amount_of tx1 = amount_of tx2;
  sr_Gas : tx_Gas tx1 = tx_Gas tx2;
  sr_GasPrice : ParseBigInt_bytes (tx_GasPrice tx1) = ParseBigInt_bytes (tx_GasPrice tx2);
  sr_Nonce : tx_Nonce tx1 = tx_Nonce tx2;
  sr_Type : tx_Type tx1 = tx_Type tx2;
  sr_Timestamp : tx_Timestamp tx1 = tx_Timestamp tx2;
  sr_Data : tx_Data tx1 = tx_Data tx2;
  sr_Version : tx_EncodingVersion tx1 = tx_EncodingVersion tx2
}.

Lemma type_code_inj t1 t2 :
  (forall n, t1 = UnknownType n -> - 2147483648 <= n < 2147483648 /\ ~ (0 <= n <= 10)) ->
  (forall n, t2 = UnknownType n -> - 2147483648 <= n < 2147483648 /\ ~ (0 <= n <= 10)) ->
  u32 (type_code t1) = u32 (type_code t2) -> t1 = t2.
Proof.
  intros H1 H2. assert (Hr : forall t, (forall n, t = UnknownType n -> - 2147483648 <= n < 2147483648 /\ ~ (0 <= n <= 10)) ->
    - 2147483648 <= type_code t < 2147483648) by (intros [] H; simpl; try lia; by apply H).
  pose proof (Hr t1 H1). pose proof (Hr t2 H2). intros Heq.
  assert (Hc : type_code t1 = type_code t2).
  { unfold u32, two32 in Heq. Z.to_euclidean_division_equations. lia. }
  destruct t1 as [| | | | | | | | | | |n1], t2 as [| | | | | | | | | | |n2]; simpl in Hc; try done; try congruence.
  all: try destruct (H1 n1 eq_refl); try destruct (H2 n2 eq_refl); lia.
Qed.

(** The amounts after the canonical form is taken, and the same values. *)
Lemma normalize_amounts tx tx' : normalize tx = (Ok tt, tx') ->
  tx' = set_GasPrice (Bytes (ParseBigInt_bytes (tx_GasPrice tx))) (set_Amount (Bytes (amount_of tx)) tx) /\
  amount_of tx < two256 /\ ParseBigInt_bytes (tx_GasPrice tx) < two256.
Proof.
  unfold normalize, wrapM, normalizeTransactionAmounts, amount_of.
  destruct (CanonicalizeUint256Bytes (tx_Amount tx)) as [a| | |] eqn:Ha; [|by intros ?..].
  destruct (CanonicalizeUint256Bytes (tx_GasPrice tx)) as [b| | |] eqn:Hb; [|by intros ?..]. intros [= <-].
  apply canonicalize_ok in Ha as [Va ->], Hb as [Vb ->].
  pose proof (SetBytes_u256 _ Va). pose proof (SetBytes_u256 _ Vb). 
  assert (Hp : forall raw, ValidateCanonicalUint256Bytes raw = Ok tt -> ParseBigInt_bytes raw = SetBytes raw).
  { intros [|b raw] Hv; [done|]. unfold ParseBigInt_bytes. by rewrite Hv. }
  rewrite !Hp by done. split_and!; [done|lia..].
Qed.

Lemma prefixed_amount v w (x y : list byte) : 0 <= v < two256 -> 0 <= w < two256 ->
  appendLengthPrefixedBytes (Bytes v) ++ x = appendLengthPrefixedBytes (Bytes w) ++ y -> v = w /\ x = y.
Proof.
  intros Hv Hw. unfold appendLengthPrefixedBytes. rewrite <-!app_assoc.
  assert (Hs : forall v, 0 <= v < two256 -> Z.of_nat (length (Bytes v)) < 65536).
  { intros z [? ?]. assert (length (Bytes z) <= 32)%nat by (by apply Bytes_length). lia. }
  intros [Heq ->]%prefixed_inj; [|by apply Hs..]. split; [|done].
  apply (f_equal SetBytes) in Heq. by rewrite !SetBytes_Bytes in Heq by lia.
Qed.

(** Transactions whose names have the same lengths have different fields. *)
Definition same_lengths (tx1 tx2 : Transaction) : Prop :=
  length (chars (tx_Id tx1)) = length (chars (tx_Id tx2)) /\ length (chars (tx_From tx1)) = length (chars (tx_From tx2)) /\
  length (chars (tx_To tx1)) = length (chars (tx_To tx2)).

Lemma tx_fields_inj tx1 tx2 n1 n2 : tx_wire tx1 -> tx_wire tx2 -> same_lengths tx1 tx2 ->
  tx_EncodingVersion tx1 = tx_EncodingVersion tx2 ->
  normalize tx1 = (Ok tt, n1) -> normalize tx2 = (Ok tt, n2) ->
  tx_fields appendLengthPrefixedBytes n1 = tx_fields appendLengthPrefixedBytes n2 -> same_request tx1 tx2.
Proof.
  intros (G1 & N1 & T1 & V1 & Y1) (G2 & N2 & T2 & V2 & Y2) (L1 & L2 & L3) Hver Hn1 Hn2 Heq.
  apply normalize_amounts in Hn1 as (-> & A1 & P1), Hn2 as (-> & A2 & P2).
  pose proof (amount_nonneg tx1). pose proof (amount_nonneg tx2).
  pose proof (ParseBigInt_bytes_nonneg (tx_GasPrice tx1)). pose proof (ParseBigInt_bytes_nonneg (tx_GasPrice tx2)).
  unfold tx_fields in Heq. cbn [set_GasPrice set_Amount tx_Id tx_From tx_To tx_Amount tx_Gas tx_GasPrice tx_Nonce tx_Type
    tx_Timestamp tx_Data] in Heq.
  peel Heq E1. peel Heq E2. peel Heq E3. apply prefixed_amount in Heq as [E4 Heq]; [|lia..].
  peel Heq E5. apply prefixed_amount in Heq as [E6 Heq]; [|lia..]. peel Heq E7. peel Heq E8. peel Heq E9.
  apply bytes_of_string_inj in E1, E2, E3. apply PutUint64_inj in E5, E7, E9. apply PutUint32_inj in E8.
  apply u64_i64_inj in E5, E9; try done. apply u64_u64_inj in E7; try done. apply type_code_inj in E8; try done.
Qed.

Lemma message_v2 p1 p2 tx m tx' : 2 <= transactionEncodingVersion tx ->
  message p1 (fun v => mret (p2 v)) tx = (Ok m, tx') ->
  normalize tx = (Ok tt, tx') /\ m = p2 (transactionEncodingVersion tx) ++ tx_fields appendLengthPrefixedBytes tx'.
Proof.
  intros Hv Hm. unfold message in Hm. apply GoM_bind_inv_ok in Hm as (tx0 & s0 & Hg & Hm). injection Hg as <- <-.
  rewrite (proj2 (Z.leb_le _ _) Hv) in Hm. apply GoM_bind_inv_ok in Hm as ([] & s1 & Hn & Hm).
  apply GoM_bind_inv_ok in Hm as (p & s2 & Hp & Hm). injection Hp as <- <-.
  apply GoM_bind_inv_ok in Hm as (tx3 & s3 & Hg & Hm). injection Hg as <- <-. by injection Hm as <- <-.
Qed.

Lemma message_v1 p1 p2 tx m tx' : transactionEncodingVersion tx < 2 -> message (mret p1) p2 tx = (Ok m, tx') ->
  m = p1 ++ tx_fields id tx.
Proof.
  intros Hv Hm. unfold message in Hm. apply GoM_bind_inv_ok in Hm as (tx0 & s0 & Hg & Hm). injection Hg as <- <-.
  rewrite (proj2 (Z.leb_gt _ _) Hv) in Hm. apply GoM_bind_inv_ok in Hm as (p & s2 & Hp & Hm). injection Hp as <- <-.
  by injection Hm as <- <-.
Qed.

Lemma version_raw tx : 2 <= transactionEncodingVersion tx -> transactionEncodingVersion tx = tx_EncodingVersion tx.
Proof. unfold transactionEncodingVersion. case_if; [lia|done]. Qed.

(** C17. Two transactions with the same hash to sign ask for the same thing,
    field by field and in the same encoding version, unless Keccak-256 collides:
    no signature made for one is good for another.  The names must have the same
    lengths, since the message does not say where one ends; the first
    transaction is of version 2 or later, and the second of any version, since
    the two encodings are kept apart.  The transaction hash binds the same
    fields within those versions. *)
Theorem signed_message_binds tx1 tx2 n1 n2 h :
  tx_wire tx1 -> tx_wire tx2 -> same_lengths tx1 tx2 -> 2 <= tx_EncodingVersion tx1 ->
  (calculateSignableHash Keccak256 config tx1 = (Ok h, n1) ->
   calculateSignableHash Keccak256 config tx2 = (Ok h, n2) -> same_request tx1 tx2 \/ collision Keccak256) /\
  (forall id, 2 <= tx_EncodingVersion tx2 ->
   CalculateTransactionHash Keccak256 tx1 = (Ok id, n1) -> CalculateTransactionHash Keccak256 tx2 = (Ok id, n2) ->
   same_request tx1 tx2 \/ collision Keccak256).
Proof.
  intros W1 W2 Hl Hv.
  assert (Hv1 : 2 <= transactionEncodingVersion tx1) by (unfold transactionEncodingVersion; case_if; lia).
  pose proof (version_raw tx1 Hv1) as R1.
  assert (Hver : forall p (x y : list byte), p ++ PutUint32 (transactionEncodingVersion tx1) ++ x =
    p ++ PutUint32 (transactionEncodingVersion tx2) ++ y -> 2 <= transactionEncodingVersion tx2 ->
    tx_EncodingVersion tx1 = tx_EncodingVersion tx2 /\ x = y).
  { intros p x y Heq H2. apply app_inj_1 in Heq as [_ Heq]; [|done]. peel Heq E. split; [|done].
    apply PutUint32_inj in E. rewrite R1, (version_raw tx2 H2) in E. destruct W1 as (_ & _ & _ & ? & _), W2 as (_ & _ & _ & ? & _).
    unfold u32 in E. by rewrite !Z.mod_small in E by lia. }
  split.
  - unfold calculateSignableHash. intros (m1 & s1 & M1 & [= E1 ->])%GoM_bind_inv_ok (m2 & s2 & M2 & [= E2 ->])%GoM_bind_inv_ok.
    rewrite <-E2 in E1. apply Keccak_inj in E1 as [E1|]; [|by right]. left.
    apply message_v2 in M1 as [N1 ->]; [|done].
    destruct (decide (2 <= transactionEncodingVersion tx2)) as [Hv2|Hv2].
    + apply message_v2 in M2 as [N2 ->]; [|done]. rewrite <-!app_assoc, !(app_assoc (bytes_of_string (cfg_ChainID config)) _ _) in E1.
      apply Hver in E1 as [Hver1 E1]; [|done]. by apply (tx_fields_inj tx1 tx2 n1 n2).
    + apply message_v1 in M2 as ->; [|lia]. rewrite <-!app_assoc in E1. apply app_inj_1 in E1 as [_ E1]; [|done]. discriminate E1.
  - intros id Hv2 H1 H2. unfold CalculateTransactionHash in *.
    apply GoM_bind_inv_ok in H1 as (m1 & s1 & M1 & [= E1 ->]). apply GoM_bind_inv_ok in H2 as (m2 & s2 & M2 & [= E2 ->]).
    assert (Hv2' : 2 <= transactionEncodingVersion tx2) by (unfold transactionEncodingVersion; case_if; lia).
    rewrite <-E2 in E1. apply EncodeToString_inj, Keccak_inj in E1 as [E1|]; [|by right]. left.
    apply message_v2 in M1 as [N1 ->], M2 as [N2 ->]; [|done..].
    destruct (Hver [] _ _ E1 Hv2') as [Hver1 E1']. by apply (tx_fields_inj tx1 tx2 n1 n2).
Qed.
End Binding.

(** ** A validated transaction executes *)

(** A transaction in canonical form is not changed any more. *)
Definition stays (tx tx' : Transaction) : Prop := normalize tx = (Ok tt, tx) -> tx' = tx.
#[global] Instance stays_preorder : PreOrder stays.
Proof. split; [done|]. intros x y z Hxy Hyz Hx. specialize (Hxy Hx). subst y. by apply Hyz. Qed.

Lemma normalize_stays : keeps stays normalize.
Proof. intros tx Hf. by rewrite Hf. Qed.
#[export] Hint Resolve normalize_stays : frame.

Lemma normalize_canonical tx tx' : normalize tx = (Ok tt, tx') -> normalize tx' = (Ok tt, tx').
Proof.
  intros (-> & Ha & Hp)%normalize_amounts. pose proof (amount_nonneg tx). pose proof (ParseBigInt_bytes_nonneg (tx_GasPrice tx)).
  assert (Hc : forall v, 0 <= v < two256 -> CanonicalizeUint256Bytes (Bytes v) = Ok (Bytes v)).
  { intros v Hv. apply canonicalize_ok. by rewrite Bytes_canonical, SetBytes_Bytes by lia. }
  unfold normalize, wrapM, normalizeTransactionAmounts.
  cbn [set_GasPrice set_Amount tx_Amount tx_GasPrice]. by rewrite !Hc by lia.
Qed.

Section Executes.
Context `{MapOrder} {C F : Type} `{LRU C, !LRULaws C} `{Float64 F}.
Context `{Json Proposal, Json ProposalPayload, Json VotePayload, Json FinalizePayload, Json stakeDomainMembers}.
Context {Pub Priv : Type} `{Secp256k1 Pub Priv}.
Context (Keccak256 HexToAddress : list byte -> list byte) (shardID totalShards : Z) (config : TxConfig).
Context (EIP155Sender : Z -> LegacyTx -> option Address) (HomesteadSender : LegacyTx -> option Address).
Notation W := (@world C F).
Notation state := ((TxValidator * Transaction) * W)%type.
Notation Validate_ := (ValidateTransaction (C:=C) (F:=F) Keccak256 HexToAddress shardID totalShards config EIP155Sender HomesteadSender).
Notation ok := (ok_addr Keccak256 shardID totalShards).
Notation shard := (CalculateShardID Keccak256 totalShards).
Notation wgood := (wgood Keccak256 shardID totalShards).

Lemma hash_stays : keeps stays (validateHash Keccak256).
Proof. unfold validateHash, CalculateTransactionHash, message. frame. Qed.

Definition stays_s (s s' : TxValidator * Transaction) : Prop := stays (snd s) (snd s').
#[local] Instance stays_s_preorder : PreOrder stays_s.
Proof. split; [intros s; unfold stays_s; reflexivity|]. intros x y z. unfold stays_s. apply transitivity. Qed.

Lemma signature_stays now : keeps stays_s (validateSignature Keccak256 config HexToAddress EIP155Sender HomesteadSender now).
Proof.
  assert (Htx : forall A (m : GoM Transaction tv_err A), keeps stays m -> keeps stays_s (on_snd m)).
  { intros A m Hm [v tx]. specialize (Hm tx). unfold on_snd, stays_s. by destruct (m tx). }
  assert (Hc : forall A f (m : GoM (TxValidator * Transaction) tv_err A), keeps stays_s m -> keeps stays_s (counting f m)).
  { intros A f m Hm s. specialize (Hm s). unfold counting. by destruct (m s) as [[|e| |] s']. }
  assert (Ht : keeps stays_s the_tx) by (intros s; simpl; reflexivity).
  unfold validateSignature. frame. apply Htx. unfold tv_VerifyTransactionSignature, calculateSignableHash, message. frame.
Qed.

(** What the checks of a successful validation were. *)
Lemma validated_checks clk height v tx w v' tx' w' : Validate_ clk height ((v, tx), w) = (Ok tt, ((v', tx'), w')) ->
  normalize tx = (Ok tt, tx') /\ validateStructure config (at_structure clk) tx' = Ok tt /\
  validateShard Keccak256 shardID totalShards tx' = Ok tt /\
  validateBusinessLogic Keccak256 shardID totalShards (at_business clk) tx' w = (Ok tt, w').
Proof.
  intros Hv. pose proof Hv as Hf. apply validated_front in Hf as (tx1 & Hn & Hc).
  rewrite (front_run _ _ _ _ _ _ _ clk height v tx w tx1 Hn Hc) in Hv. pose proof (normalize_canonical _ _ Hn) as Hcan.
  apply GoM_bind_inv_ok in Hv as ([] & [[v1 t1] w1] & Hs1 & Hv). unfold on_state, on_fst, counting in Hs1.
  assert (t1 = tx1 /\ w1 = w) as [-> ->].
  { unfold check_replay in Hs1. destruct (CheckReplayV3 _ _ _) as [[[]| | |] rd]; by simplify_eq/=. }
  clear Hs1. unfold after_replay in Hv. apply GoM_bind_inv_ok in Hv as ([] & [[v2 t2] w2] & Hs1 & Hv).
  assert (t2 = tx1 /\ w2 = w) as [-> ->].
  { unfold on_state, on_fst, counting, check_timing in Hs1. by repeat case_match; simplify_eq/=. }
  clear Hs1. apply GoM_bind_inv_ok in Hv as ([] & s2 & Hst & Hv). unfold lift in Hst. injection Hst as Hst <-.
  apply GoM_bind_inv_ok in Hv as ([] & [[v3 t3] w3] & Hs1 & Hv).
  assert (t3 = tx1 /\ v3 = v2 /\ w3 = w) as (-> & -> & ->).
  { unfold on_transaction, on_fst, on_snd in Hs1. pose proof (hash_stays tx1 Hcan) as Hs.
    destruct (validateHash Keccak256 tx1) as [r t]. simpl in Hs. by simplify_eq. }
  clear Hs1. apply GoM_bind_inv_ok in Hv as ([] & s4 & Hsh & Hv). unfold lift in Hsh. injection Hsh as Hsh <-.
  apply GoM_bind_inv_ok in Hv as ([] & [[v5 t5] w5] & Hs1 & Hv).
  assert (t5 = tx1 /\ w5 = w) as [-> ->].
  { unfold on_state, on_fst in Hs1. pose proof (signature_stays (at_replay clk) (v2, tx1) Hcan) as Hs.
    destruct (validateSignature _ _ _ _ _ _ (v2, tx1)) as [r [v6 t]]. simpl in Hs. by simplify_eq. }
  clear Hs1. apply GoM_bind_inv_ok in Hv as (t6 & s6 & Hs1 & Hv). injection Hs1 as <- <-. simpl in Hv.
  apply GoM_bind_inv_ok in Hv as ([] & [[v7 t7] w7] & Hs1 & Hv). unfold on_snd in Hs1.
  destruct (validateBusinessLogic _ _ _ _ _ w) as [r w8] eqn:Hb. injection Hs1 as -> <- <- <-.
  apply GoM_bind_inv_ok in Hv as (s9 & s10 & Hs1 & Hv). injection Hs1 as <- <-. unfold lift in Hv.
  injection Hv as _ <- <- <-. done.
Qed.

(** The account the validator looks at is the ledger's. *)
Lemma reader_GetAccount_run addr (w : W) : wgood w -> ok addr = true ->
  exists a w', reader_GetAccount Keccak256 shardID totalShards addr w = (Ok a, w') /\ wgood w' /\
  db (w_am w') = db (w_am w) /\ canon_account a /\ abs_acct a = entry (abs (w_am w)) addr /\ valid_acct (abs_acct a).
Proof.
  intros Hw Hok. destruct (ws_GetAccount_run Keccak256 shardID totalShards addr w Hw Hok)
    as (l & a & w' & Hget & Hw' & Hdb & Hl & _ & Hc & Habs & Hv).
  exists a, w'. split; [|done]. unfold reader_GetAccount, mbind, GoM_bind, wrapM at 1. rewrite Hget. cbn [wrap].
  unfold wrapM at 1, on_am. rewrite on_accounts_run. unfold wrapM. rewrite (load_run l a) by done. simpl. by destruct w'.
Qed.

(** The checks of the plain types, on the account alone. *)
Definition plain_checks (tx : Transaction) (a : Account) : outcome tv_err unit :=
  match tx_Type tx with
  | TRANSFER => validateTransfer tx a
  | STAKE => validateStake tx a
  | UNSTAKE => validateUnstake tx a
  | DELEGATE => validateDelegate tx a
  | UNDELEGATE => validateUndelegate tx a
  | CLAIM_REWARDS => validateClaimRewards tx a
  | _ => Err UnknownTxType
  end.

Lemma business_plain now tx (w w' : W) : plain (tx_Type tx) = true -> wgood w -> ok (tx_From tx) = true ->
  validateBusinessLogic Keccak256 shardID totalShards now tx w = (Ok tt, w') ->
  wgood w' /\ db (w_am w') = db (w_am w) /\
  exists a, canon_account a /\ abs_acct a = entry (abs (w_am w)) (tx_From tx) /\ valid_acct (abs_acct a) /\
  acc_Nonce a = tx_Nonce tx /\ plain_checks tx a = Ok tt.
Proof.
  intros Hp Hw Hok Hb. destruct (reader_GetAccount_run (tx_From tx) w Hw Hok) as (a & w1 & Hget & Hw1 & Hdb & Hc & Habs & Hv).
  unfold validateBusinessLogic in Hb. rewrite (GoM_bind_ok _ _ _ a w1 Hget) in Hb.
  apply GoM_bind_inv_ok in Hb as ([] & w2 & Hn & Hb). unfold lift in Hn. injection Hn as Hn <-.
  assert (Hchk : plain_checks tx a = Ok tt /\ w' = w1).
  { unfold plain_checks. destruct (tx_Type tx); try done; unfold lift in Hb; by injection Hb as -> ->. }
  destruct Hchk as [Hchk ->]. split; [done|]. split; [done|]. exists a. split_and!; try done.
  unfold validateNonce in Hn. by zcases.
Qed.

(** What the account's checks promise the ledger's step. *)
Definition overdrawn (tx : Transaction) (a : acct) : bool :=
  match tx_Type tx with UNSTAKE => staked a - amount_of tx <? map_sum id (deleg a) | _ => false end.

Lemma abs_parse a : canon_account a ->
  ParseBigInt_bytes (acc_Balance a) = bal (abs_acct a) /\ ParseBigInt_bytes (acc_StakedAmount a) = staked (abs_acct a) /\
  ParseBigInt_bytes (acc_Rewards a) = rewards (abs_acct a).
Proof. intros (Hb & Hs & Hr & _). by rewrite !canon_parse. Qed.

Lemma sgn_neg z : (Z.sgn z <? 0) = (z <? 0).
Proof. destruct z; done. Qed.

Ltac guards H :=
  repeat (apply outcome_bind_inv_ok in H as ([] & ? & H)); unfold fail_if in *;
  repeat match goal with E : (if ?c then Err _ else Ok _) = Ok _ |- _ => destruct c eqn:?; [done|clear E] end; zbool.

Lemma sender_checks_step tx a : tx_Type tx <> TRANSFER -> canon_account a -> valid_acct (abs_acct a) ->
  acc_Nonce a = tx_Nonce tx -> plain_checks tx a = Ok tt ->
  (tx_Type tx = DELEGATE \/ tx_Type tx = UNDELEGATE -> IsValid (tx_To tx) = true) ->
  (tx_Type tx = DELEGATE -> 0 < amount_of tx) ->
  exists a', sender_step tx (abs_acct a) = Some a' /\ (0 <= gas_cost tx -> overdrawn tx (abs_acct a) = false -> valid_acct a').
Proof.
  intros Ht Hc Hv Hn Hchk Hto Hpos. destruct (abs_parse a Hc) as (Hb & Hs & Hr).
  pose proof (amount_nonneg tx). pose proof Hv as (V1 & V2 & V3 & V4 & V5).
  assert (Hne : IsValid (tx_To tx) = true -> bool_decide (tx_To tx = "") = false).
  { intros Hval. case_bool_decide as He; [|done]. by rewrite He in Hval. }
  unfold sender_step, plain_checks, overdrawn in *. change (nonce (abs_acct a)) with (acc_Nonce a).
  rewrite Hn, Z.eqb_refl. cbn [negb].
  destruct (tx_Type tx) eqn:Hty; try done.
  - unfold validateStake in Hchk. guards Hchk. rewrite Hb in *. rewrite (proj2 (Z.ltb_ge _ _)) by (unfold total_cost in *; lia).
    eexists. split; [done|]. intros Hg _. unfold valid_acct, total_cost in *. simpl in *. split_and!; try done; lia.
  - unfold validateUnstake in Hchk. guards Hchk. rewrite Hb, Hs in *. rewrite !(proj2 (Z.ltb_ge _ _)) by lia.
    eexists. split; [done|]. intros Hg Ho. zbool. unfold valid_acct. simpl in *. split_and!; try done; lia.
  - unfold validateDelegate in Hchk. guards Hchk. rewrite Hb in *. rewrite Hne by eauto. cbn [orb].
    rewrite (proj2 (Z.ltb_ge _ _)) by (unfold total_cost in *; lia).
    eexists. split; [done|]. intros Hg _. specialize (Hpos eq_refl). unfold valid_acct, total_cost in *. simpl in *.
    split_and!; try done; try lia.
    + apply map_Forall_insert_2; [|done]. split; [by eauto|].
      destruct ((SetBytes <$> acc_DelegatedTo a) !! tx_To tx) as [d|] eqn:Hd; simpl; [|lia]. destruct (V4 _ _ Hd). lia.
    + destruct ((SetBytes <$> acc_DelegatedTo a) !! tx_To tx) as [d|] eqn:Hd; simpl.
      * rewrite (map_sum_insert_Some id _ _ d) by done. unfold id at 2 3. lia.
      * rewrite map_sum_insert_None by done. unfold id at 1. lia.
  - unfold validateUndelegate in Hchk. repeat (apply outcome_bind_inv_ok in Hchk as ([] & ? & Hchk)).
    destruct (acc_DelegatedTo a !! tx_To tx) as [raw|] eqn:Hd; [|done]. guards Hchk. rewrite Hb in *.
    destruct Hc as (_ & _ & _ & Hcd). rewrite (canon_parse raw) in * by by apply (Hcd (tx_To tx)).
    assert (Hda : deleg (abs_acct a) !! tx_To tx = Some (SetBytes raw)) by (simpl; by rewrite lookup_fmap, Hd).
    pose proof (delegation_le_staked _ _ _ Hv Hda). rewrite Hda. change (default 0 (Some (SetBytes raw))) with (SetBytes raw).
    rewrite Hne by eauto. cbn [orb]. rewrite !(proj2 (Z.ltb_ge _ _)) by lia. cbn [orb].
    eexists. split; [done|]. intros Hg _. unfold valid_acct. cbn [bal staked rewards deleg].
    destruct (Z.eqb_spec (SetBytes raw - amount_of tx) 0) as [Hz|Hz]; split_and!; try done; try lia.
    + by apply map_Forall_delete.
    + pose proof (map_sum_delete id _ _ _ Hda) as Hsum. unfold id at 2 in Hsum. lia.
    + apply map_Forall_insert_2; [|done]. split; [by eauto|lia].
    + rewrite (map_sum_insert_Some id _ _ (SetBytes raw)) by done. unfold id at 2 3. lia.
  - unfold validateClaimRewards in Hchk. guards Hchk. rewrite Hb, Hr in *.
    assert (Hrew : 0 < rewards (abs_acct a)) by (destruct (rewards (abs_acct a)); simpl in *; lia).
    rewrite (proj2 (Z.ltb_ge _ _)) by lia. rewrite (proj2 (Z.leb_gt _ _)) by lia. cbn [orb].
    eexists. split; [done|]. intros Hg _. unfold valid_acct. simpl in *. split_and!; try done; lia.
Qed.

Lemma structure_ok now tx : validateStructure config now tx = Ok tt ->
  IsValid (tx_From tx) = true /\ (needs_recipient (tx_Type tx) = true -> IsValid (tx_To tx) = true) /\
  (tx_Type tx = DELEGATE -> ParseBigInt_string (cfg_MinDelegation config) <= amount_of tx) /\
  cfg_MinGasLimit config <= tx_Gas tx <= cfg_MaxGasPerTx config.
Proof.
  intros Hst. unfold validateStructure in Hst.
  do 3 (apply outcome_bind_inv_ok in Hst as ([] & _ & Hst)). apply outcome_bind_inv_ok in Hst as ([] & Hf & Hst).
  apply outcome_bind_inv_ok in Hst as ([] & Hto & Hst). apply outcome_bind_inv_ok in Hst as ([] & _ & Hst).
  apply outcome_bind_inv_ok in Hst as ([] & Ham & Hst). apply outcome_bind_inv_ok in Hst as ([] & Hg1 & Hst).
  apply outcome_bind_inv_ok in Hst as ([] & Hg2 & _). unfold fail_if in Hg1, Hg2.
  split; [unfold IsValid; by destruct (Validate (tx_From tx)) as [[]| | |]|]. split; [|split].
  - intros Hr. rewrite Hr in Hto. apply outcome_bind_inv_ok in Hto as ([] & _ & Hto).
    unfold IsValid. by destruct (Validate (tx_To tx)) as [[]| | |].
  - intros Hd. unfold check_amount, fail_if in Ham. rewrite Hd in Ham.
    destruct (Z.ltb_spec (amount_of tx) (ParseBigInt_string (cfg_MinDelegation config))); [done|lia].
  - destruct (Z.ltb_spec (tx_Gas tx) (cfg_MinGasLimit config)); [done|].
    destruct (Z.ltb_spec (cfg_MaxGasPerTx config) (tx_Gas tx)); [done|lia].
Qed.

Lemma shard_ok tx : IsValid (tx_From tx) = true -> validateShard Keccak256 shardID totalShards tx = Ok tt ->
  ok (tx_From tx) = true.
Proof.
  intros Hv Hs. unfold ok_addr, BelongsToShard, validateShard, fail_if in *. rewrite Hv. cbn [andb].
  destruct (shardID =? BeaconShardID); [done|]. by destruct (_ =? shardID).
Qed.

(** The ledger applies what the validator let through. *)
Lemma validated_applies now1 now2 tx (w w' : W) : plain (tx_Type tx) = true -> wgood w ->
  0 < cfg_MinGasLimit config -> cfg_MaxGasPerTx config <= maxGasLimit -> 0 < ParseBigInt_string (cfg_MinDelegation config) ->
  (tx_Type tx = TRANSFER -> shard (tx_From tx) = shard (tx_To tx)) ->
  validateStructure config now1 tx = Ok tt -> validateShard Keccak256 shardID totalShards tx = Ok tt ->
  validateBusinessLogic Keccak256 shardID totalShards now2 tx w = (Ok tt, w') ->
  overdrawn tx (entry (abs (w_am w)) (tx_From tx)) = false ->
  wgood w' /\ db (w_am w') = db (w_am w) /\ self_mint tx = 0 /\
  exists L', ledger_step ok shard tx (abs (w_am w)) = Applied L'.
Proof.
  intros Hp Hw Hmin Hmax Hdel Hshard Hst Hsh Hb Hover.
  destruct (structure_ok _ _ Hst) as (Hfrom & Hto & Hamt & Hgas). pose proof (shard_ok tx Hfrom Hsh) as Hok.
  destruct (business_plain _ _ _ _ Hp Hw Hok Hb) as (Hw' & Hdb & a & Hc & Habs & Hv & Hn & Hchk).
  split; [done|]. split; [done|]. unfold ledger_step.
  rewrite (proj2 (Z.ltb_ge _ _)), (proj2 (Z.leb_gt _ _)) by lia. cbn [orb].
  destruct (decide (tx_Type tx = TRANSFER)) as [Ht|Ht].
  - unfold plain_checks in Hchk. rewrite Ht in Hchk. unfold validateTransfer in Hchk. guards Hchk.
    case_bool_decide as Hself; [done|]. rewrite Ht. unfold self_mint. rewrite Ht, bool_decide_eq_false_2 by done.
    split; [done|]. rewrite (Hshard Ht), Z.eqb_refl. cbn [negb]. unfold transfer_verdict.
    assert (Hok2 : ok (tx_To tx) = true).
    { unfold ok_addr, BelongsToShard in *. rewrite Hto by by rewrite Ht. cbn [andb]. apply andb_true_iff in Hok as [_ Hok].
      by rewrite <-(Hshard Ht). }
    rewrite Hok, Hok2, <-Habs. cbn [negb orb]. change (nonce (abs_acct a)) with (acc_Nonce a). rewrite Hn, Z.eqb_refl. cbn [negb orb].
    destruct (abs_parse a Hc) as (<- & _). rewrite (proj2 (Z.ltb_ge _ _)) by done.
    rewrite bool_decide_eq_false_2 by done. by eexists.
  - split; [unfold self_mint; by destruct (tx_Type tx)|].
    destruct (sender_checks_step tx a Ht Hc Hv Hn Hchk) as (a' & Hstep & Hval).
    { intros [He|He]; apply Hto; by rewrite He. }
    { intros He. specialize (Hamt He). lia. }
    assert (Hsv : single_verdict ok tx (abs (w_am w)) = Applied (<[tx_From tx := a']> (abs (w_am w)))).
    { unfold single_verdict. rewrite Hok, <-Habs, Hstep. cbn [negb].
      rewrite (proj2 (valid_acctb_spec a')); [done|]. apply Hval; [apply gas_cost_nonneg; lia|by rewrite Habs]. }
    rewrite Hsv. destruct (tx_Type tx); try done; by eexists.
Qed.

(** C14. What the validator lets through, the executor carries out: a transfer,
    stake, unstake, delegation, undelegation or claim that passes validation
    executes successfully on the state it was validated against, provided the
    configured gas limits are within the executor's and delegations have a
    positive minimum, the nonce kept beside the account agrees with it, a
    transfer stays in its shard, and an unstake leaves the delegations covered
    (the validator does not check the last three). *)
Theorem validated_transaction_executes (engine : evm_engine W) ChainID clk height v tx (w : W) v' tx' w' N now1 now2 :
  wgood w -> nonce_rel N (db (w_am w)) -> supply (abs (w_am w)) < two256 ->
  0 < cfg_MinGasLimit config -> cfg_MaxGasPerTx config <= maxGasLimit -> 0 < ParseBigInt_string (cfg_MinDelegation config) ->
  Validate_ clk height ((v, tx), w) = (Ok tt, ((v', tx'), w')) ->
  plain (tx_Type tx) = true -> default 0 (N !! tx_From tx) = tx_Nonce tx ->
  (tx_Type tx = TRANSFER -> shard (tx_From tx) = shard (tx_To tx)) ->
  overdrawn tx' (entry (abs (w_am w)) (tx_From tx)) = false ->
  exists rc w'', ExecuteTransaction Keccak256 HexToAddress shardID totalShards ChainID true engine now1 now2 (Some tx) w' =
    (Ok rc, w'') /\ r_Status rc = 1 /\ wgood w''.
Proof.
  intros Hw HN Hs Hmin Hmax Hdel Hv Hp Hnonce Hshard Hover.
  destruct (validated_checks _ _ _ _ _ _ _ _ Hv) as (Hnorm & Hst & Hsh & Hb).
  assert (Hraw : normalized tx = Some tx').
  { unfold normalize, wrapM in Hnorm. unfold normalized. destruct (normalizeTransactionAmounts tx) as [[[]| | |] t]; by simplify_eq/=. }
  assert (Hsame : tx_From tx' = tx_From tx /\ tx_Nonce tx' = tx_Nonce tx /\ tx_Type tx' = tx_Type tx /\ tx_To tx' = tx_To tx).
  { apply normalize_amounts in Hnorm as (-> & _). by destruct tx. }
  destruct Hsame as (Ef & En & Et & Eo). rewrite <-Et, <-Ef, <-Eo in *.
  destruct (validated_applies _ _ tx' w w' Hp Hw Hmin Hmax Hdel Hshard Hst Hsh Hb Hover) as (Hw' & Hdb & Hmint & L' & HL).
  assert (Habs : abs (w_am w') = abs (w_am w)) by (unfold abs; by rewrite Hdb).
  destruct (execute_meets Keccak256 HexToAddress shardID totalShards ChainID engine tx now1 now2 N w') as (r & w'' & Hex & Hres).
  { by rewrite <-Et. } { done. } { by rewrite Hdb. } { unfold mint_of. rewrite Hraw, Hmint, Habs. lia. }
  unfold exec_spec in Hres. rewrite Hraw, Hnonce, En, Z.eqb_refl in Hres. cbn [negb] in Hres. rewrite Habs, HL in Hres.
  destruct Hres as (Hg & _ & _ & rc & -> & Hst1). by exists rc, w''.
Qed.
End Executes.

(** ** A concrete validator

    Alice signs with her wallet; the node recovers her address. *)

#[local] Existing Instance demo_LRU2.
#[local] Existing Instance demo_LRU2_laws.
#[local] Existing Instance demo_float.
#[local] Existing Instance demo_json.
#[local] Existing Instance demo_secp.

Definition tiny_hash (x : list byte) : list byte := [byte_of_Z (Z.of_nat (length x))].
Definition wallet_config : TxConfig := MkTxConfig "thrylos-7" "development" "1" "1" "1" 21000 1000000 "1" "1000" 60 3600.
Definition wallet_sender (_ : Z) (_ : LegacyTx) : option Address := Some (replicate 20 xaa).
Definition no_homestead (_ : LegacyTx) : option Address := None.
Definition wallet_signature : list byte := replicate 30 x00 ++ [x01; x07] ++ replicate 31 x00 ++ [x01; x00].
Definition wallet_tx : Transaction :=
  MkTransaction "t1" alice bob (Bytes 500) 21000 (Bytes 10) 0 [] TRANSFER wallet_signature "7d" 1000 [] "thrylos-7" 2.
Definition wallet_clocks : clocks := MkClocks 1 1010 1010 1010 1010.
Notation wallet_validate := (ValidateTransaction (C:=list (string * loc)) (F:=permille) (Pub:=byte) (Priv:=byte)
  tiny_hash id BeaconShardID 1 wallet_config wallet_sender no_homestead).
Definition wallet_start : TxValidator := NewValidator wallet_config.
Definition wallet_world : @world (list (string * loc)) permille := boot demo_kv.

Lemma wallet_good : wgood tiny_hash BeaconShardID 1 (wallet_world).
Proof. destruct boot_good as [[G1 G2 G3 G4] Q L]. by split; [split|..]. Qed.

Lemma wallet_validated : exists v' tx' w', wallet_validate wallet_clocks 5 ((wallet_start, wallet_tx), wallet_world) = (Ok tt, ((v', tx'), w')).
Proof.
  destruct (wallet_validate wallet_clocks 5 ((wallet_start, wallet_tx), wallet_world)) as [r [[v' tx'] w']] eqn:Hv.
  assert (Hr : r = Ok tt); [|rewrite Hr; by eexists _, _, _].
  change r with (fst (r, ((v', tx'), w'))). rewrite <-Hv. vm_compute. reflexivity.
Qed.

Lemma wallet_fit : nonces_fit (replayDetector wallet_start).
Proof. intros a n. change (accountNonces (replayDetector wallet_start)) with (∅ : gmap string Z). by rewrite lookup_empty. Qed.

Notation wallet_step := (validator_step (C:=list (string * loc)) (F:=permille) (Pub:=byte) (Priv:=byte)
  tiny_hash id BeaconShardID 1 wallet_config wallet_sender no_homestead).

(** The same transfer, received once more in a block. *)
Lemma transaction_validates_once_witness :
  exists v' tx' w', wallet_validate wallet_clocks 5 ((wallet_start, wallet_tx), wallet_world) = (Ok tt, ((v', tx'), w')) /\
  is_ok (fst (wallet_validate wallet_clocks 6 ((v', wallet_tx), w'))) = false.
Proof.
  destruct wallet_validated as (v' & tx' & w' & Hv). exists v', tx', w'. split; [exact Hv|].
  exact (transaction_validates_once tiny_hash id BeaconShardID 1 wallet_config wallet_sender no_homestead
    wallet_clocks 5 wallet_start wallet_tx (wallet_world) v' tx' w' v' ltac:(vm_compute; split; congruence) wallet_fit Hv
    (rtc_refl _ _) wallet_clocks 6 wallet_tx w' ltac:(vm_compute; split; congruence) eq_refl ltac:(vm_compute; congruence)).
Defined.

Definition forged_tx : Transaction :=
  MkTransaction "f1" alice "" [] 0 [] 90 [] TRANSFER [] "no hash" 0 [] "thrylos-7" 0.

Lemma unsigned_transaction_burns_nonce_witness :
  let '(r, ((v', _), w')) := wallet_validate wallet_clocks 5 ((wallet_start, forged_tx), wallet_world) in
  is_ok r = false /\ is_ok (fst (wallet_validate wallet_clocks 5 ((v', wallet_tx), w'))) = false.
Proof.
  destruct (wallet_validate wallet_clocks 5 ((wallet_start, forged_tx), wallet_world)) as [r [[v' tx'] w']] eqn:Hv.
  pose proof (unsigned_transaction_burns_nonce tiny_hash id BeaconShardID 1 wallet_config wallet_sender no_homestead
    wallet_clocks 5 wallet_start forged_tx (wallet_world) v'
    ltac:(vm_compute; split; congruence) wallet_fit eq_refl eq_refl eq_refl eq_refl) as Hb.
  rewrite Hv in Hb. destruct Hb as [Hr Hb]. split; [exact Hr|].
  exact (Hb (rtc_refl _ _) wallet_clocks 5 wallet_tx w' ltac:(vm_compute; split; congruence) eq_refl ltac:(vm_compute; congruence)).
Defined.

Definition other_tx : Transaction :=
  MkTransaction "t1" alice bob (Bytes 500) 21000 (Bytes 10) 0 [] TRANSFER [] "" 1000 [] "" 2.

Lemma signed_message_binds_witness :
  same_request wallet_tx other_tx \/ collision tiny_hash.
Proof.
  assert (Hw : tx_wire wallet_tx /\ tx_wire other_tx).
  { split; (split_and!; [by vm_compute..|]); intros n Hn; discriminate Hn. }
  exact (proj1 (signed_message_binds tiny_hash wallet_config wallet_tx other_tx
    (snd (calculateSignableHash tiny_hash wallet_config wallet_tx)) (snd (calculateSignableHash tiny_hash wallet_config other_tx))
    (tiny_hash (replicate 136 x00)) (proj1 Hw) (proj2 Hw) (conj eq_refl (conj eq_refl eq_refl)) ltac:(vm_compute; congruence))
    ltac:(vm_compute; reflexivity) ltac:(vm_compute; reflexivity)).
Defined.

Lemma validated_transaction_executes_witness :
  exists v' tx' w', wallet_validate wallet_clocks 5 ((wallet_start, wallet_tx), wallet_world) = (Ok tt, ((v', tx'), w')) /\
  exists rc w'', ExecuteTransaction tiny_hash id BeaconShardID 1 "1" true no_engine 0 0 (Some wallet_tx) w' = (Ok rc, w'') /\
  r_Status rc = 1.
Proof.
  destruct wallet_validated as (v' & tx' & w' & Hv). exists v', tx', w'. split; [exact Hv|].
  destruct (validated_transaction_executes tiny_hash id BeaconShardID 1 wallet_config wallet_sender no_homestead no_engine "1"
    wallet_clocks 5 wallet_start wallet_tx (wallet_world) v' tx' w' ∅ 0 0 wallet_good boot_nonces
    ltac:(vm_compute; reflexivity) ltac:(vm_compute; reflexivity) ltac:(vm_compute; congruence) ltac:(vm_compute; reflexivity)
    Hv eq_refl eq_refl (fun _ => eq_refl)) as (rc & w'' & Hex & Hst & _).
  { destruct (validated_checks tiny_hash id BeaconShardID 1 wallet_config wallet_sender no_homestead _ _ _ _ _ _ _ _ Hv) as (Hn & _).
    apply normalize_amounts in Hn as (-> & _). reflexivity. }
  exists rc, w''. split; [exact Hex|exact Hst].
Defined.
