(* ===== verification/ForkChoice.v ===== *)
(** * Fork choice and finality (src/consensus/pos)

    fork_choice.go, finality.go and fork_choice_security.go: the stake that
    attests to each block, the heaviest head, justified and finalised
    checkpoints and the limits on reorganisations.  The fork choice holds one
    read-write mutex, which is part of its state: a call that waits for it while
    the caller already holds it never returns.  A call reads the clock once, in
    nanoseconds.  What the fork choice asks of the slashing manager is the class
    [Slasher]; [SlashingSpec] discharges its laws. *)

From S2P Require Import Prelude Uint256 Address Storage ShardedLock Governance.
From stdpp Require Import base tactics numbers list gmap strings.
From Stdlib Require Import ZArith Lia Strings.Byte Strings.Ascii.
Open Scope Z_scope.
Open Scope list_scope.

(** ** Data *)

Record Attestation : Type := MkAttestation {
  att_ValidatorAddress : string;
  att_BlockHash : string;
  att_BlockHeight : Z;
  att_Epoch : Z;
  att_Slot : Z;
  att_Signature : list byte;
  att_Timestamp : Z
}.

Record Checkpoint : Type := MkCheckpoint {
  cp_Epoch : Z;
  cp_BlockHash : string;
  cp_Timestamp : Z;
  cp_AttestingStake : string;
  cp_TotalStake : string
}.

(** The limits of the fork choice's own configuration; [StakeCacheTTL] in nanoseconds. *)
Record ForkChoiceConfig : Type := MkForkChoiceConfig {
  MaxEpochsToKeep : Z;
  MaxBlocksPerEpoch : Z;
  StakeCacheTTL : Z;
  MaxAttestationsPerBlock : Z
}.
Definition DefaultForkChoiceConfig : ForkChoiceConfig := MkForkChoiceConfig 2 100 (30 * 1000000000) 1000.

(** What is read of the node's configuration; a value that is not positive
    selects the default.  [MinStakeBasisPoints] is the truncated product of the
    configured fraction with 10000, if the fraction is positive. *)
Record ConsensusLimits : Type := MkConsensusLimits {
  cl_MaxReorgDepth : Z;
  cl_MinStakeBasisPoints : option Z;
  cl_FinalizationEpochs : Z;
  cl_CheckpointInterval : Z
}.

Definition DefaultReorgDepthLimit : Z := 32.
Definition DefaultFinalizationEpochs : Z := 2.
Definition DefaultMinStakeForReorg : Z := 6600.
Definition DefaultCheckpointInterval : Z := 10.

Record ForkChoiceMetrics : Type := MkForkChoiceMetrics {
  TotalAttestations : Z;
  TotalBlocks : Z;
  TotalEpochs : Z;
  LastCleanupTime : option Z;
  AttestationsRemoved : Z;
  BlocksRemoved : Z;
  EpochsRemoved : Z;
  MemoryEstimateBytes : Z
}.

(** [WorldStateReader]: [None] is an error or nil. *)
Record WorldStateReader : Type := MkReader {
  rd_GetValidator : string -> option Validator;
  rd_GetActiveValidators : list Validator;
  rd_GetBlockByHash : string -> option Block
}.

Record ForkChoice : Type := MkForkChoice {
  blockScores : gmap string string;
  attestationsByBlock : gmap string (list Attestation);
  validatorAttestations : gmap string (gset string);
  epochAttestations : gmap Z (gmap string string);
  blockEpochMap : gmap string Z;
  epochBlockOrder : gmap Z (list string);
  latestMessages : gmap Z (gmap string string);
  children : gmap string (list string);
  justifiedCheckpoint : option Checkpoint;
  finalizedCheckpoint : option Checkpoint;
  totalActiveStake : string;
  totalActiveStakeTime : option Z;
  fc_metrics : ForkChoiceMetrics;
  database : option (gmap string string);
  fc_mu : RWMutex
}.

Definition NewForkChoiceWithConfig : ForkChoice :=
  MkForkChoice ∅ ∅ ∅ ∅ ∅ ∅ ∅ ∅ None None "0" None (MkForkChoiceMetrics 0 0 0 None 0 0 0 0) None unlocked.

Inductive fc_err : Type :=
| BadCheckpoint
| InvalidReorgDepth (depth : Z) | InvalidEpoch | ReorgTooDeep (depth max : Z) | ReorgCrossesFinality (fork finalized : Z)
| InvalidStake | ReorgInsufficientStake
| NilCheckpoint | EmptyBlockHash | AttestingExceedsTotal.

Notation Fc := (GoM ForkChoice fc_err).

(** *** Updates of one field *)

Definition set_scores m fc := MkForkChoice m (attestationsByBlock fc) (validatorAttestations fc) (epochAttestations fc)
  (blockEpochMap fc) (epochBlockOrder fc) (latestMessages fc) (children fc) (justifiedCheckpoint fc) (finalizedCheckpoint fc)
  (totalActiveStake fc) (totalActiveStakeTime fc) (fc_metrics fc) (database fc) (fc_mu fc).
Definition set_attestations m fc := MkForkChoice (blockScores fc) m (validatorAttestations fc) (epochAttestations fc)
  (blockEpochMap fc) (epochBlockOrder fc) (latestMessages fc) (children fc) (justifiedCheckpoint fc) (finalizedCheckpoint fc)
  (totalActiveStake fc) (totalActiveStakeTime fc) (fc_metrics fc) (database fc) (fc_mu fc).
Definition set_voters m fc := MkForkChoice (blockScores fc) (attestationsByBlock fc) m (epochAttestations fc)
  (blockEpochMap fc) (epochBlockOrder fc) (latestMessages fc) (children fc) (justifiedCheckpoint fc) (finalizedCheckpoint fc)
  (totalActiveStake fc) (totalActiveStakeTime fc) (fc_metrics fc) (database fc) (fc_mu fc).
Definition set_epochs m fc := MkForkChoice (blockScores fc) (attestationsByBlock fc) (validatorAttestations fc) m
  (blockEpochMap fc) (epochBlockOrder fc) (latestMessages fc) (children fc) (justifiedCheckpoint fc) (finalizedCheckpoint fc)
  (totalActiveStake fc) (totalActiveStakeTime fc) (fc_metrics fc) (database fc) (fc_mu fc).
Definition set_blockEpoch m fc := MkForkChoice (blockScores fc) (attestationsByBlock fc) (validatorAttestations fc)
  (epochAttestations fc) m (epochBlockOrder fc) (latestMessages fc) (children fc) (justifiedCheckpoint fc)
  (finalizedCheckpoint fc) (totalActiveStake fc) (totalActiveStakeTime fc) (fc_metrics fc) (database fc) (fc_mu fc).
Definition set_blockOrder m fc := MkForkChoice (blockScores fc) (attestationsByBlock fc) (validatorAttestations fc)
  (epochAttestations fc) (blockEpochMap fc) m (latestMessages fc) (children fc) (justifiedCheckpoint fc)
  (finalizedCheckpoint fc) (totalActiveStake fc) (totalActiveStakeTime fc) (fc_metrics fc) (database fc) (fc_mu fc).
Definition set_messages m fc := MkForkChoice (blockScores fc) (attestationsByBlock fc) (validatorAttestations fc)
  (epochAttestations fc) (blockEpochMap fc) (epochBlockOrder fc) m (children fc) (justifiedCheckpoint fc)
  (finalizedCheckpoint fc) (totalActiveStake fc) (totalActiveStakeTime fc) (fc_metrics fc) (database fc) (fc_mu fc).
Definition set_children m fc := MkForkChoice (blockScores fc) (attestationsByBlock fc) (validatorAttestations fc)
  (epochAttestations fc) (blockEpochMap fc) (epochBlockOrder fc) (latestMessages fc) m (justifiedCheckpoint fc)
  (finalizedCheckpoint fc) (totalActiveStake fc) (totalActiveStakeTime fc) (fc_metrics fc) (database fc) (fc_mu fc).
Definition set_checkpoints j f fc := MkForkChoice (blockScores fc) (attestationsByBlock fc) (validatorAttestations fc)
  (epochAttestations fc) (blockEpochMap fc) (epochBlockOrder fc) (latestMessages fc) (children fc) j f
  (totalActiveStake fc) (totalActiveStakeTime fc) (fc_metrics fc) (database fc) (fc_mu fc).
Definition set_stake s t fc := MkForkChoice (blockScores fc) (attestationsByBlock fc) (validatorAttestations fc)
  (epochAttestations fc) (blockEpochMap fc) (epochBlockOrder fc) (latestMessages fc) (children fc) (justifiedCheckpoint fc)
  (finalizedCheckpoint fc) s t (fc_metrics fc) (database fc) (fc_mu fc).
Definition set_fc_metrics m fc := MkForkChoice (blockScores fc) (attestationsByBlock fc) (validatorAttestations fc)
  (epochAttestations fc) (blockEpochMap fc) (epochBlockOrder fc) (latestMessages fc) (children fc) (justifiedCheckpoint fc)
  (finalizedCheckpoint fc) (totalActiveStake fc) (totalActiveStakeTime fc) m (database fc) (fc_mu fc).
Definition set_database d fc := MkForkChoice (blockScores fc) (attestationsByBlock fc) (validatorAttestations fc)
  (epochAttestations fc) (blockEpochMap fc) (epochBlockOrder fc) (latestMessages fc) (children fc) (justifiedCheckpoint fc)
  (finalizedCheckpoint fc) (totalActiveStake fc) (totalActiveStakeTime fc) (fc_metrics fc) d (fc_mu fc).
Definition set_mu l fc := MkForkChoice (blockScores fc) (attestationsByBlock fc) (validatorAttestations fc)
  (epochAttestations fc) (blockEpochMap fc) (epochBlockOrder fc) (latestMessages fc) (children fc) (justifiedCheckpoint fc)
  (finalizedCheckpoint fc) (totalActiveStake fc) (totalActiveStakeTime fc) (fc_metrics fc) (database fc) l.

(** ** The mutex *)

Definition mutex_op {E} (acquire : bool) (m : mode) : GoM ForkChoice E unit := fun fc =>
  match mutex_call acquire m (fc_mu fc) with
  | Some (Ok l) => (Ok tt, set_mu l fc)
  | Some _ => (Panic, fc)
  | None => (Hang, fc)
  end.

(** [defer mu.Unlock()]: on every way out; a goroutine that waits forever holds on. *)
Definition releasing {E A} (m : mode) (body : GoM ForkChoice E A) : GoM ForkChoice E A := fun fc =>
  let '(r, fc1) := body fc in
  match r with
  | Hang => (Hang, fc1)
  | _ => match mutex_op (E:=E) false m fc1 with
         | (Ok _, fc2) => (r, fc2)
         | (_, fc2) => (Panic, fc2)
         end
  end.
Definition locked {E A} (m : mode) (body : GoM ForkChoice E A) : GoM ForkChoice E A :=
  _ ← mutex_op true m; releasing m body.

(** ** Stake *)

Definition addBigIntStrings (a b : string) : string := String10 (ParseBigInt_string a + ParseBigInt_string b).

(** [(total * 2) / 3 + 1]. *)
Definition quorum_threshold (total : Z) : Z := big_div (total * 2) 3 + 1.

Definition active_stake (validators : list Validator) : Z :=
  foldl (fun acc v => if val_Active v then acc + ParseBigInt_bytes (val_Stake v) else acc) 0 validators.

Fixpoint decay_loop (age : nat) (stake : Z) : Z :=
  match age with
  | O => stake
  | S age' => decay_loop age' (big_div (stake * 9) 10)
  end.
Definition maxDecayEpochs : Z := 32.
Definition ApplyWeightDecay (originalStake attestationEpoch currentEpoch : Z) : Z :=
  if currentEpoch <=? attestationEpoch then originalStake
  else decay_loop (Z.to_nat (Z.min (u64 (currentEpoch - attestationEpoch)) maxDecayEpochs)) originalStake.

Definition getCurrentEpoch (fc : ForkChoice) : Z :=
  map_fold (fun epoch _ maxEpoch => if maxEpoch <? epoch then epoch else maxEpoch) 0 (epochAttestations fc).

(** ** Removal of blocks and epochs *)

Definition without (blockHash : string) (l : list string) : list string := filter (fun c => c <> blockHash) l.

(** An empty result removes the entry. *)
Definition put_order (epoch : Z) (l : list string) (m : gmap Z (list string)) : gmap Z (list string) :=
  if (length l =? 0)%nat then delete epoch m else <[epoch := l]> m.

Definition removeTrackedBlockLocked (blockHash : string) (fc : ForkChoice) : ForkChoice :=
  let fc := match blockEpochMap fc !! blockHash with
            | None => fc
            | Some epoch =>
                let l := default [] (epochBlockOrder fc !! epoch) in
                let fc := if (0 <? length l)%nat then set_blockOrder (put_order epoch (without blockHash l) (epochBlockOrder fc)) fc
                          else fc in
                match epochAttestations fc !! epoch with
                | None => fc
                | Some blocks =>
                    let blocks := delete blockHash blocks in
                    set_epochs (if (size blocks =? 0)%nat then delete epoch (epochAttestations fc)
                                else <[epoch := blocks]> (epochAttestations fc)) fc
                end
            end in
  set_blockEpoch (delete blockHash (blockEpochMap fc))
    (set_voters (delete blockHash (validatorAttestations fc))
      (set_attestations (delete blockHash (attestationsByBlock fc))
        (set_scores (delete blockHash (blockScores fc)) fc))).

(** [removeTrackedBlockLocked] filters the slice of the epoch in place: the array
    under it keeps its length, with the elements that stay moved to the front. *)
Definition array_after (epoch : Z) (blockHash : string) (fc : ForkChoice) (array : list string) : list string :=
  if bool_decide (blockEpochMap fc !! blockHash = Some epoch) then
    let filtered := without blockHash (default [] (epochBlockOrder fc !! epoch)) in
    filtered ++ drop (length filtered) array
  else array.

(** The loop's slice starts [first] elements into that same array. *)
Fixpoint prune_loop (rounds : nat) (epoch : Z) (first : nat) (array : list string) (fc : ForkChoice)
    : list string * ForkChoice :=
  match rounds with
  | O => (drop first array, fc)
  | S rounds' =>
      let oldest := default "" (array !! first) in
      prune_loop rounds' epoch (S first) (array_after epoch oldest fc array) (removeTrackedBlockLocked oldest fc)
  end.

Section Cleanup.
Context `{MapOrder} (cfg : ForkChoiceConfig).

Definition pruneEpochBlocksLocked (epoch : Z) (fc : ForkChoice) : ForkChoice :=
  if MaxBlocksPerEpoch cfg <=? 0 then fc
  else
    let array := default [] (epochBlockOrder fc !! epoch) in
    let '(order_, fc) := prune_loop (length array - Z.to_nat (MaxBlocksPerEpoch cfg)) epoch 0 array fc in
    set_blockOrder (put_order epoch order_ (epochBlockOrder fc)) fc.

Definition MaxSafetyRetention : Z := 50.
Definition cutoff_epoch (fc : ForkChoice) : Z :=
  let currentEpoch := getCurrentEpoch fc in
  let minSafeCutoff := if MaxSafetyRetention <? currentEpoch then currentEpoch - MaxSafetyRetention else 0 in
  let cutoffEpoch := match finalizedCheckpoint fc with
                     | Some cp => if 2 <? cp_Epoch cp then cp_Epoch cp - 2 else 0
                     | None => if MaxEpochsToKeep cfg <? currentEpoch then currentEpoch - MaxEpochsToKeep cfg else 0
                     end in
  if cutoffEpoch <? minSafeCutoff then minSafeCutoff else cutoffEpoch.

Definition recent {V} (cutoff : Z) (m : gmap Z V) : gmap Z V := filter (fun kv => cutoff <= fst kv) m.

Definition expired_block (cutoff : Z) (fc : ForkChoice) (blockHash : string) : bool :=
  match blockEpochMap fc !! blockHash with None => true | Some e => e <? cutoff end.

Fixpoint remove_blocks (cutoff : Z) (hashes : list string) (counts : Z * Z) (fc : ForkChoice) : (Z * Z) * ForkChoice :=
  match hashes with
  | [] => (counts, fc)
  | h :: hashes' =>
      if expired_block cutoff fc h
      then remove_blocks cutoff hashes'
             (fst counts + 1, snd counts + Z.of_nat (length (default [] (attestationsByBlock fc !! h))))
             (removeTrackedBlockLocked h fc)
      else remove_blocks cutoff hashes' counts fc
  end.

Definition memory_estimate (fc : ForkChoice) : Z :=
  Z.of_nat (size (blockScores fc)) * 128 +
  map_fold (fun _ l acc => acc + Z.of_nat (length l) * 200) 0 (attestationsByBlock fc) +
  map_fold (fun _ s acc => acc + Z.of_nat (size s) * 100) 0 (validatorAttestations fc) +
  map_fold (fun _ bs acc => acc + Z.of_nat (size bs) * 128) 0 (epochAttestations fc).

Definition cleanupOldEpochsLocked (now : Z) (fc : ForkChoice) : ForkChoice :=
  let cutoff := cutoff_epoch fc in
  let old := filter (fun kv => fst kv < cutoff) (epochAttestations fc) in
  let fc := set_blockOrder (filter (fun kv => fst kv ∉ dom old) (epochBlockOrder fc))
              (set_epochs (recent cutoff (epochAttestations fc)) fc) in
  let fc := set_messages (recent cutoff (latestMessages fc)) fc in
  let '((blocks, atts), fc) := remove_blocks cutoff (map_order (blockScores fc)) (0, 0) fc in
  let m := fc_metrics fc in
  set_fc_metrics (MkForkChoiceMetrics (TotalAttestations m) (Z.of_nat (size (blockScores fc)))
    (Z.of_nat (size (epochAttestations fc))) (Some now) (AttestationsRemoved m + atts) (BlocksRemoved m + blocks)
    (EpochsRemoved m + Z.of_nat (size old)) (memory_estimate fc)) fc.

Definition CleanupOldEpochs (now : Z) : Fc unit := locked W (modify (cleanupOldEpochsLocked now)).
End Cleanup.


(** ** Total stake, the chain of blocks and the head *)

Section Reads.
Context `{MapOrder} (cfg : ForkChoiceConfig) (rd : WorldStateReader).

(** The cached total is used while it is fresh and not ["0"]; the zero time is
    further back than any duration. *)
Definition cache_fresh (now : Z) (fc : ForkChoice) : bool :=
  match totalActiveStakeTime fc with None => false | Some t => now - t <? StakeCacheTTL cfg end &&
  negb (bool_decide (totalActiveStake fc = "0")).

Definition getTotalActiveStake {E} (now : Z) : GoM ForkChoice E string := fun fc =>
  if cache_fresh now fc then (Ok (totalActiveStake fc), fc)
  else let total := String10 (active_stake (rd_GetActiveValidators rd)) in (Ok total, set_stake total (Some now) fc).

Definition GetTotalActiveStake (now : Z) : Fc string := locked R (getTotalActiveStake now).

Fixpoint find_attestation (validatorAddr : string) (epoch : Z) (l : list Attestation) : option Attestation :=
  match l with
  | [] => None
  | att :: l' => if bool_decide (att_ValidatorAddress att = validatorAddr) && (att_Epoch att =? epoch) then Some att
                 else find_attestation validatorAddr epoch l'
  end.
Definition findValidatorAttestation (blockHash validatorAddr : string) (epoch : Z) (fc : ForkChoice) : option Attestation :=
  find_attestation validatorAddr epoch (default [] (attestationsByBlock fc !! blockHash)).

(** [block.Header.PrevHash]: a nil header panics. *)
Definition parent_hash (block : Block) : outcome fc_err string :=
  match blk_Header block with None => Panic | Some h => Ok (hdr_PrevHash h) end.

Fixpoint ancestor_loop (rounds : nat) (curr ancestorHash : string) : outcome fc_err bool :=
  match rounds with
  | O => Ok false
  | S rounds' =>
      match rd_GetBlockByHash rd curr with
      | None => Ok false
      | Some block =>
          parent ← parent_hash block;
          if bool_decide (parent = ancestorHash) then Ok true
          else if bool_decide (parent = "") then Ok false
          else ancestor_loop rounds' parent ancestorHash
      end
  end.
Definition isDescendant (childHash ancestorHash : string) : outcome fc_err bool :=
  if bool_decide (childHash = ancestorHash) then Ok true else ancestor_loop 100 childHash ancestorHash.

(** One vote's part in the weight of a subtree. *)
Definition vote_weight (rootHash : string) (currentEpoch : Z) (vote : Z * string * string) : outcome fc_err Z :=
  let '(epoch, validatorAddr, votedBlockHash) := vote in
  supports ← (if bool_decide (votedBlockHash = rootHash) then Ok true else isDescendant votedBlockHash rootHash);
  if supports : bool then
    match rd_GetValidator rd validatorAddr with
    | Some v => if val_Active v then Ok (ApplyWeightDecay (ParseBigInt_bytes (val_Stake v)) epoch currentEpoch) else Ok 0
    | None => Ok 0
    end
  else Ok 0.

Fixpoint sum_weights (rootHash : string) (currentEpoch : Z) (votes : list (Z * string * string)) : outcome fc_err Z :=
  match votes with
  | [] => Ok 0
  | vote :: votes' => w ← vote_weight rootHash currentEpoch vote; rest ← sum_weights rootHash currentEpoch votes'; Ok (w + rest)
  end.

(** The votes of the epochs that are looked at; [currentEpoch-2] wraps around.
    The order the maps are walked in does not matter to a sum. *)
Definition recent_votes (fc : ForkChoice) : list (Z * string * string) :=
  ew ← map_to_list (latestMessages fc);
  if fst ew <? u64 (getCurrentEpoch fc - 2) then []
  else (fun vw => (fst ew, fst vw, snd vw)) <$> map_to_list (snd ew).

Definition getSubtreeStake (fc : ForkChoice) (rootHash : string) : outcome fc_err Z :=
  sum_weights rootHash (getCurrentEpoch fc) (recent_votes fc).

Fixpoint best_child (weight : string -> outcome fc_err Z) (l : list string) (bestChild : string) (maxWeight : Z)
    : outcome fc_err string :=
  match l with
  | [] => Ok bestChild
  | childHash :: l' =>
      w ← weight childHash;
      if maxWeight <? w then best_child weight l' childHash w
      else if (w =? maxWeight) && (bool_decide (bestChild = "") || String.ltb childHash bestChild)
           then best_child weight l' childHash maxWeight
           else best_child weight l' bestChild maxWeight
  end.

(** The loop ends at a block without children.  Each round looks up one more
    entry of [children] or comes back to an earlier block and goes round for ever. *)
Fixpoint head_loop (fuel : nat) (fc : ForkChoice) (currentBlockHash : string) : outcome fc_err string :=
  match fuel with
  | O => Hang
  | S fuel' =>
      match default [] (children fc !! currentBlockHash) with
      | [] => Ok currentBlockHash
      | l => next ← best_child (getSubtreeStake fc) l "" 0; head_loop fuel' fc next
      end
  end.

Definition head_anchor (fc : ForkChoice) : string :=
  match finalizedCheckpoint fc, justifiedCheckpoint fc with
  | Some cp, _ => cp_BlockHash cp
  | None, Some cp => cp_BlockHash cp
  | None, None => match rd_GetBlockByHash rd "" with Some genesis => blk_Hash genesis | None => "" end
  end.

Definition GetHead : Fc string :=
  locked R (fun fc => (head_loop (S (size (children fc))) fc (head_anchor fc), fc)).

(** The heaviest of the entries whose score satisfies [ok], in the order of the map. *)
Fixpoint heaviest (ok : Z -> bool) (scores : gmap string string) (hashes : list string) (best : string * option Z)
    : string * option Z :=
  match hashes with
  | [] => best
  | h :: hashes' =>
      let score := ParseBigInt_string (default "" (scores !! h)) in
      heaviest ok scores hashes'
        (if ok score && match snd best with None => true | Some b => b <? score end then (h, Some score) else best)
  end.

Definition getHeadByHighestStake {E} (now : Z) : GoM ForkChoice E string := fun fc =>
  if (size (blockScores fc) =? 0)%nat then (Ok "", fc)
  else
    (total ← getTotalActiveStake now;
     let threshold := quorum_threshold (ParseBigInt_string total) in
     let '(quorum, _) := heaviest (fun s => threshold <=? s) (blockScores fc) (map_order (blockScores fc)) ("", None) in
     mret (if bool_decide (quorum <> "") then quorum
           else fst (heaviest (fun _ => true) (blockScores fc) (map_order (blockScores fc)) ("", None)))) fc.

Definition OnBlockAdded (block : Block) : Fc unit :=
  locked W
    (parent ← lift (parent_hash block);
     modify (fun fc => set_children (<[parent := default [] (children fc !! parent) ++ [blk_Hash block]]> (children fc)) fc)).

(** *** Queries *)

Definition HasQuorum {E} (now : Z) (blockHash : string) : GoM ForkChoice E bool :=
  locked R
    (total ← getTotalActiveStake now;
     fc ← get;
     mret (quorum_threshold (ParseBigInt_string total) <=? ParseBigInt_string (default "" (blockScores fc !! blockHash)))).
Definition IsBlockSafeToAccept (now : Z) (blockHash : string) : Fc bool := HasQuorum now blockHash.

Definition GetAttestingStake (blockHash : string) : Fc string :=
  locked R (fc ← get; mret (default "0" (blockScores fc !! blockHash))).
Definition GetBlockScore (blockHash : string) : Fc string :=
  locked R (fc ← get; mret (default "0" (blockScores fc !! blockHash))).
Definition GetAttestationsForBlock (blockHash : string) : Fc (list Attestation) :=
  locked R (fc ← get; mret (default [] (attestationsByBlock fc !! blockHash))).

Definition GetMetrics : Fc ForkChoiceMetrics :=
  locked R
    (fc ← get;
     let m := fc_metrics fc in
     mret (MkForkChoiceMetrics (map_fold (fun _ l acc => acc + Z.of_nat (length l)) 0 (attestationsByBlock fc))
       (Z.of_nat (size (blockScores fc))) (Z.of_nat (size (epochAttestations fc))) (LastCleanupTime m)
       (AttestationsRemoved m) (BlocksRemoved m) (EpochsRemoved m) (MemoryEstimateBytes m))).

Definition IsViableChain (blockHash : string) : Fc bool :=
  locked R
    (fc ← get;
     match finalizedCheckpoint fc with
     | None => mret true
     | Some cp =>
         match blockEpochMap fc !! blockHash with
         | None => mret false
         | Some e => if e <? cp_Epoch cp then mret false else lift (isDescendant blockHash (cp_BlockHash cp))
         end
     end).

Fixpoint chain_stake (fc : ForkChoice) (currentEpoch blockEpoch : Z) (atts : list Attestation) (acc : Z * gset string)
    : Z * gset string :=
  match atts with
  | [] => acc
  | att :: atts' =>
      let v := att_ValidatorAddress att in
      chain_stake fc currentEpoch blockEpoch atts'
        (if bool_decide (v ∈ snd acc) then acc
         else match rd_GetValidator rd v with
              | Some info =>
                  if val_Active info
                  then (fst acc + ApplyWeightDecay (ParseBigInt_bytes (val_Stake info)) blockEpoch currentEpoch, {[v]} ∪ snd acc)
                  else acc
              | None => acc
              end)
  end.
Definition CalculateChainStakeFromHashes (blockHashes : list string) : Fc string :=
  locked R
    (fc ← get;
     mret (String10 (fst (foldl (fun acc h =>
       chain_stake fc (getCurrentEpoch fc) (default 0 (blockEpochMap fc !! h)) (default [] (attestationsByBlock fc !! h)) acc)
       (0, ∅) blockHashes)))).

Definition stateBloatThresholdLocked : Z :=
  let maxBlocks := if MaxBlocksPerEpoch cfg <=? 0 then 100 else MaxBlocksPerEpoch cfg in
  let epochs := i64 (i64 (MaxEpochsToKeep cfg) + 1) in
  i64 (maxBlocks * (if epochs <? 2 then 2 else epochs)).

(** How many other blocks have a quorum: the lock is taken again for reading
    for each of them. *)
Fixpoint competing_heads {E} (now : Z) (mainHead : string) (hashes : list string) : GoM ForkChoice E Z :=
  match hashes with
  | [] => mret 0
  | h :: hashes' =>
      quorum ← (if bool_decide (h = mainHead) then mret false else HasQuorum now h);
      rest ← competing_heads now mainHead hashes';
      mret (if quorum : bool then rest + 1 else rest)
  end.

Inductive security_status : Type := Healthy | CriticalForkDetected | DegradedStateBloat.
Definition security_status_of (competing tracked : Z) : security_status :=
  if 0 <? competing then CriticalForkDetected
  else if stateBloatThresholdLocked <? tracked then DegradedStateBloat else Healthy.

(** The number of forks and the alert of [GetSecurityMetrics]. *)
Definition GetSecurityMetrics (now : Z) : Fc (Z * security_status) :=
  locked R
    (mainHead ← getHeadByHighestStake now;
     fc ← get;
     competing ← competing_heads now mainHead (map_order (blockScores fc));
     mret (competing, security_status_of competing (Z.of_nat (size (blockScores fc))))).
End Reads.

(** ** Justification and finality *)

Section Finality.
Context `{MapOrder} (cfg : ForkChoiceConfig) (lim : ConsensusLimits) (rd : WorldStateReader).

Definition checkFinalization {E} (now : Z) : GoM ForkChoice E unit := fun fc =>
  match justifiedCheckpoint fc with
  | None => (Ok tt, fc)
  | Some j =>
      if cp_Epoch j <? 2 then (Ok tt, fc)
      else
        let e := cp_Epoch j - 2 in
        if match finalizedCheckpoint fc with Some f => e <=? cp_Epoch f | None => false end then (Ok tt, fc)
        else match heaviest (fun _ => true) (default ∅ (epochAttestations fc !! e))
                     (map_order (default ∅ (epochAttestations fc !! e))) ("", None) with
             | (best, Some stake) =>
                 if bool_decide (best = "") then (Ok tt, fc)
                 else (total ← getTotalActiveStake cfg rd now;
                       modify (fun fc => set_checkpoints (justifiedCheckpoint fc)
                         (Some (MkCheckpoint e best (Unix now) (String10 stake) total)) fc)) fc
             | (_, None) => (Ok tt, fc)
             end
  end.

Definition checkJustification {E} (now epoch : Z) (blockHash attestingStake totalStake : string) : GoM ForkChoice E unit :=
  fun fc =>
  if ParseBigInt_string attestingStake <? quorum_threshold (ParseBigInt_string totalStake) then (Ok tt, fc)
  else if match justifiedCheckpoint fc with Some j => epoch <=? cp_Epoch j | None => false end then (Ok tt, fc)
  else checkFinalization now
         (set_checkpoints (Some (MkCheckpoint epoch blockHash (Unix now) attestingStake totalStake)) (finalizedCheckpoint fc) fc).

Definition checkpoint_interval : Z :=
  if 0 <? cl_CheckpointInterval lim then cl_CheckpointInterval lim else DefaultCheckpointInterval.
Definition EnsurePeriodicCheckpoint {E} (epoch : Z) (blockHash attestingStake totalStake : string) : GoM ForkChoice E unit :=
  locked W
    (modify (fun fc => if epoch mod checkpoint_interval =? 0
                       then set_checkpoints (Some (MkCheckpoint epoch blockHash 0 attestingStake totalStake))
                              (finalizedCheckpoint fc) fc
                       else fc)).

Definition finalization_epochs : Z :=
  if 0 <? cl_FinalizationEpochs lim then cl_FinalizationEpochs lim else DefaultFinalizationEpochs.
Definition UpdateFinalization (currentEpoch : Z) : Fc unit :=
  locked W
    (modify (fun fc =>
       if finalization_epochs =? 0 then fc
       else match justifiedCheckpoint fc with
            | Some j => if finalization_epochs <=? u64 (currentEpoch - cp_Epoch j)
                        then set_checkpoints (Some j) (Some j) fc else fc
            | None => fc
            end)).

Definition new_checkpoint (now epoch : Z) (blockHash : string) : Fc Checkpoint :=
  fc ← get;
  total ← getTotalActiveStake cfg rd now;
  mret (MkCheckpoint epoch blockHash (Unix now) (default "" (blockScores fc !! blockHash)) total).

Definition UpdateJustifiedCheckpoint (now epoch : Z) (blockHash : string) : Fc unit :=
  locked W (cp ← new_checkpoint now epoch blockHash; modify (fun fc => set_checkpoints (Some cp) (finalizedCheckpoint fc) fc)).

Definition checkpoint_key : string := "finalized_checkpoint".

(** [written]: whether the database accepts the write; the failure is logged. *)
Definition UpdateFinalizedCheckpoint `{Json Checkpoint} (written : bool) (now epoch : Z) (blockHash : string) : Fc unit :=
  locked W
    (cp ← new_checkpoint now epoch blockHash;
     modify (fun fc =>
       let fc := set_checkpoints (justifiedCheckpoint fc) (Some cp) fc in
       match database fc with
       | Some db => if written then set_database (Some (<[checkpoint_key := Marshal cp]> db)) fc else fc
       | None => fc
       end)).

Definition SetDatabase (db : gmap string string) : Fc unit := locked W (modify (set_database (Some db))).

(** [BlockHash[:8]] of a shorter hash panics, after the checkpoint has been set. *)
Definition LoadFinalizedCheckpoint `{Json Checkpoint} : Fc unit :=
  locked W
    (fc ← get;
     match database fc with
     | None => mret tt
     | Some db =>
         match db !! checkpoint_key with
         | None => mret tt
         | Some data =>
             match Unmarshal data with
             | None => throw BadCheckpoint
             | Some cp =>
                 _ ← put (set_checkpoints (justifiedCheckpoint fc) (Some cp) fc);
                 if (String.length (cp_BlockHash cp) <? 8)%nat then panic else mret tt
             end
         end
     end).

Definition GetJustifiedCheckpoint : Fc (option Checkpoint) := locked R (fc ← get; mret (justifiedCheckpoint fc)).
Definition GetFinalizedCheckpoint : Fc (option Checkpoint) := locked R (fc ← get; mret (finalizedCheckpoint fc)).
Definition IsBlockFinalized (blockHash : string) : Fc bool :=
  locked R (fc ← get; mret match finalizedCheckpoint fc with
                           | Some cp => bool_decide (cp_BlockHash cp = blockHash) | None => false end).
Definition IsEpochFinalized (epoch : Z) : Fc bool :=
  locked R (fc ← get; mret match finalizedCheckpoint fc with Some cp => epoch <=? cp_Epoch cp | None => false end).

(** [GetFinalityStatus]: the two checkpoints' epochs and blocks, and the distance. *)
Definition GetFinalityStatus : Fc (option (Z * string) * option (Z * string) * option Z) :=
  locked R
    (fc ← get;
     let entry cp := (cp_Epoch cp, cp_BlockHash cp) in
     mret (entry <$> justifiedCheckpoint fc, entry <$> finalizedCheckpoint fc,
           match justifiedCheckpoint fc, finalizedCheckpoint fc with
           | Some j, Some f => Some (u64 (cp_Epoch j - cp_Epoch f)) | _, _ => None end)).

(** *** Reorganisations *)

Definition max_reorg_depth : Z := if 0 <? cl_MaxReorgDepth lim then cl_MaxReorgDepth lim else DefaultReorgDepthLimit.
Definition required_basis_points : Z := default DefaultMinStakeForReorg (cl_MinStakeBasisPoints lim).

Definition ValidateReorganization (reorgDepth forkPointEpoch : Z) (newChainStake totalStake : string) : Fc unit :=
  locked R
    (fc ← get;
     _ ← refuse_if (reorgDepth <? 0) (InvalidReorgDepth reorgDepth);
     _ ← refuse_if (forkPointEpoch =? 0) InvalidEpoch;
     _ ← refuse_if (max_reorg_depth <? reorgDepth) (ReorgTooDeep reorgDepth max_reorg_depth);
     _ ← match finalizedCheckpoint fc with
         | Some cp => refuse_if (forkPointEpoch <=? cp_Epoch cp) (ReorgCrossesFinality forkPointEpoch (cp_Epoch cp))
         | None => mret tt
         end;
     let newStake := ParseBigInt_string newChainStake in
     _ ← refuse_if (newStake <? 0) InvalidStake;
     let total := ParseBigInt_string totalStake in
     _ ← refuse_if (total <=? 0) InvalidStake;
     refuse_if (big_div (newStake * 10000) total <? required_basis_points) ReorgInsufficientStake).

Definition ValidateCheckpoint (checkpoint : option Checkpoint) : outcome fc_err unit :=
  match checkpoint with
  | None => Err NilCheckpoint
  | Some cp =>
      if cp_Epoch cp =? 0 then Err InvalidEpoch
      else if bool_decide (cp_BlockHash cp = "") then Err EmptyBlockHash
      else if ParseBigInt_string (cp_AttestingStake cp) <? 0 then Err InvalidStake
      else if ParseBigInt_string (cp_TotalStake cp) <=? 0 then Err InvalidStake
      else if ParseBigInt_string (cp_TotalStake cp) <? ParseBigInt_string (cp_AttestingStake cp) then Err AttestingExceedsTotal
      else Ok tt
  end.

Definition GetReorgSafetyMargin (currentHeight : Z) : Fc Z :=
  locked R
    (fc ← get;
     mret match finalizedCheckpoint fc with
          | None => max_reorg_depth
          | Some cp => let since := i64 (u64 (currentHeight - cp_Epoch cp)) in
                       if max_reorg_depth <=? since then 0 else i64 (max_reorg_depth - since)
          end).
End Finality.

(** ** Attestations *)

Section Votes.
Context `{MapOrder} (cfg : ForkChoiceConfig) (lim : ConsensusLimits) (rd : WorldStateReader).

(** Step 2: the validator's vote of the epoch, or the block it voted for before. *)
Definition track_message (att : Attestation) : Fc (option string) := fun fc =>
  let votes := default ∅ (latestMessages fc !! att_Epoch att) in
  match votes !! att_ValidatorAddress att with
  | Some prev =>
      if bool_decide (prev = att_BlockHash att)
      then (Ok None, set_messages (<[att_Epoch att := <[att_ValidatorAddress att := att_BlockHash att]> votes]> (latestMessages fc)) fc)
      else if (String.length prev <? 8)%nat || (String.length (att_BlockHash att) <? 8)%nat
           then (Panic, set_messages (<[att_Epoch att := votes]> (latestMessages fc)) fc)
           else (Ok (Some prev), set_messages (<[att_Epoch att := votes]> (latestMessages fc)) fc)
  | None => (Ok None, set_messages (<[att_Epoch att := <[att_ValidatorAddress att := att_BlockHash att]> votes]> (latestMessages fc)) fc)
  end.

(** Step 4: the attestation is kept while there is room. *)
Definition store_attestation (att : Attestation) (fc : ForkChoice) : ForkChoice :=
  let stored := default [] (attestationsByBlock fc !! att_BlockHash att) in
  if Z.of_nat (length stored) <? MaxAttestationsPerBlock cfg then
    let m := fc_metrics fc in
    set_fc_metrics (MkForkChoiceMetrics (i64 (TotalAttestations m + 1)) (TotalBlocks m) (TotalEpochs m) (LastCleanupTime m)
        (AttestationsRemoved m) (BlocksRemoved m) (EpochsRemoved m) (MemoryEstimateBytes m))
      (set_attestations (<[att_BlockHash att := stored ++ [att]]> (attestationsByBlock fc)) fc)
  else set_attestations (<[att_BlockHash att := stored]> (attestationsByBlock fc)) fc.

(** Step 5: the block's score, its epoch and the epoch's blocks. *)
Definition score_block (att : Attestation) (newScore : string) (fc : ForkChoice) : ForkChoice :=
  let h := att_BlockHash att in
  let isNewBlock := bool_decide (blockScores fc !! h = None) in
  let fc := set_blockEpoch (<[h := att_Epoch att]> (blockEpochMap fc)) (set_scores (<[h := newScore]> (blockScores fc)) fc) in
  if isNewBlock then
    pruneEpochBlocksLocked cfg (att_Epoch att)
      (set_blockOrder (<[att_Epoch att := default [] (epochBlockOrder fc !! att_Epoch att) ++ [h]]> (epochBlockOrder fc)) fc)
  else fc.

(** Step 6: the epoch's scores; a new epoch triggers the cleanup. *)
Definition score_epoch (now : Z) (att : Attestation) (stake : Z) (fc : ForkChoice) : ForkChoice :=
  let created := bool_decide (epochAttestations fc !! att_Epoch att = None) in
  let m := fc_metrics fc in
  let fc := if created
            then set_fc_metrics (MkForkChoiceMetrics (TotalAttestations m) (TotalBlocks m) (i64 (TotalEpochs m + 1))
                   (LastCleanupTime m) (AttestationsRemoved m) (BlocksRemoved m) (EpochsRemoved m) (MemoryEstimateBytes m)) fc
            else fc in
  let blocks := default ∅ (epochAttestations fc !! att_Epoch att) in
  let score := addBigIntStrings (default "" (blocks !! att_BlockHash att)) (String10 stake) in
  let fc := set_epochs (<[att_Epoch att := <[att_BlockHash att := score]> blocks]> (epochAttestations fc)) fc in
  if created then cleanupOldEpochsLocked cfg now fc else fc.

(** Steps 3 to 7 for a validator with this stake. *)
Definition count_attestation (now : Z) (att : Attestation) (stake : Z) : Fc unit := fun fc =>
  let h := att_BlockHash att in
  let voters := default ∅ (validatorAttestations fc !! h) in
  if bool_decide (att_ValidatorAddress att ∈ voters) then (Ok tt, fc)
  else
    let fc := set_voters (<[h := {[att_ValidatorAddress att]} ∪ voters]> (validatorAttestations fc)) fc in
    if bool_decide (attestationsByBlock fc !! h = None) && (MaxAttestationsPerBlock cfg <? 0) then (Panic, fc)
    else
      let fc := store_attestation att fc in
      let newScore := addBigIntStrings (default "" (blockScores fc !! h)) (String10 stake) in
      let fc := score_epoch now att stake (score_block att newScore fc) in
      (total ← getTotalActiveStake cfg rd now;
       let attesting := String10 (ParseBigInt_string newScore) in
       let total := String10 (ParseBigInt_string total) in
       if quorum_threshold (ParseBigInt_string total) <=? ParseBigInt_string attesting then
         _ ← EnsurePeriodicCheckpoint lim (att_Epoch att) h attesting total;
         checkJustification cfg rd now (att_Epoch att) h attesting total
       else mret tt) fc.
End Votes.

(** *** The slashing manager, as the fork choice sees it

    [N] is the rest of the node.  [NilManager] ([slashingManager] is nil) answers
    nothing; the reader is what [worldState] answers in that state. *)

Class Slasher (N : Type) : Type := {
  sl_err : Type;
  sl_reader : N -> WorldStateReader;
  sl_present : N -> bool;
  sl_ProcessAttestation : Z -> Attestation -> GoM N sl_err unit;
  (** The earlier attestation that a double-signing error carries. *)
  sl_conflict : sl_err -> option Attestation;
  sl_ApplyDoubleVoteSlashing : Z -> Attestation -> Attestation -> GoM N sl_err unit;
  sl_IsValidatorActive : Z -> string -> GoM N sl_err bool
}.

(** Slashing leaves the validators, their stake and the blocks alone, and its
    calls come back. *)
Definition returns {S E A} (m : GoM S E A) (s : S) : Prop :=
  match fst (m s) with Ok _ | Err _ => True | _ => False end.
Definition well_behaved {N : Type} `{Slasher N} {E A} (inv : N -> Prop) (m : GoM N E A) (n : N) : Prop :=
  returns m n /\ sl_reader (snd (m n)) = sl_reader n /\ inv (snd (m n)).
Class SlasherLaws (N : Type) `{Slasher N} (sl_inv : N -> Prop) : Prop := {
  sl_process_keeps : forall now att n, sl_inv n -> well_behaved sl_inv (sl_ProcessAttestation now att) n;
  sl_slash_keeps : forall now a b n, sl_inv n -> well_behaved sl_inv (sl_ApplyDoubleVoteSlashing now a b) n;
  sl_active_keeps : forall now v n, sl_inv n -> well_behaved sl_inv (sl_IsValidatorActive now v) n
}.

Section Process.
Context `{MapOrder} {N : Type} `{Slasher N} (cfg : ForkChoiceConfig) (lim : ConsensusLimits).

Notation Node := (GoM (ForkChoice * N) fc_err).

Definition on_fc {A} (m : Fc A) : Node A := fun s => let '(r, fc) := m (fst s) in (r, (fc, snd s)).
(** A call whose error is handled by the caller. *)
Definition ask {A} (m : GoM N sl_err A) : Node (outcome sl_err A) := fun s =>
  let '(r, n) := m (snd s) in
  match r with
  | Panic => (Panic, (fst s, n))
  | Hang => (Hang, (fst s, n))
  | _ => (Ok r, (fst s, n))
  end.
(** The error is only logged. *)
Definition ask_logged {A} (m : GoM N sl_err A) : Node unit := _ ← ask m; mret tt.

(** Step 1: [false] ends the call. *)
Definition slashing_check (now : Z) (att : Attestation) : Node bool := fun s =>
  if sl_present (snd s) then
    (r ← ask (sl_ProcessAttestation now att);
     match r with
     | Ok _ =>
         a ← ask (sl_IsValidatorActive now (att_ValidatorAddress att));
         mret (match a with Ok b => b | _ => false end)
     | Err e =>
         _ ← match sl_conflict e with
             | Some prev => ask_logged (sl_ApplyDoubleVoteSlashing now prev att)
             | None => mret tt
             end;
         mret false
     | Panic => panic
     | Hang => fun s => (Hang, s)
     end) s
  else (Ok true, s).

Definition slash_equivocation (now : Z) (att : Attestation) (prevVote : string) : Node unit := fun s =>
  if sl_present (snd s) then
    match findValidatorAttestation prevVote (att_ValidatorAddress att) (att_Epoch att) (fst s) with
    | Some prev => ask_logged (sl_ApplyDoubleVoteSlashing now prev att) s
    | None => (Ok tt, s)
    end
  else (Ok tt, s).

Definition attest_body (now : Z) (att : Attestation) : Node unit :=
  go ← slashing_check now att;
  if negb go then mret tt
  else fun s =>
    match rd_GetValidator (sl_reader (snd s)) (att_ValidatorAddress att) with
    | Some v =>
        if negb (val_Active v) then (Ok tt, s)
        else (prev ← on_fc (track_message att);
              match prev with
              | Some prevVote => slash_equivocation now att prevVote
              | None => fun s => on_fc (count_attestation cfg lim (sl_reader (snd s)) now att (ParseBigInt_bytes (val_Stake v))) s
              end) s
    | None => (Ok tt, s)
    end.

(** [fc.mu] is held around the whole call. *)
Definition ProcessAttestation (now : Z) (att : Attestation) : Node unit := fun s =>
  match on_fc (mutex_op true W) s with
  | (Ok _, s1) =>
      let '(r, s2) := attest_body now att s1 in
      match r with
      | Hang => (Hang, s2)
      | _ => match on_fc (mutex_op false W) s2 with (Ok _, s3) => (r, s3) | (_, s3) => (Panic, s3) end
      end
  | (_, s1) => (Hang, s1)
  end.
End Process.
