(* ===== verification/ForkChoiceSpec.v ===== *)
(** * Correctness of the fork choice

    The tally: a block's score is the stake of the validators recorded as its
    voters, every voter is an active validator, and its vote of the epoch is that
    block.  So two blocks of one epoch never both have two thirds of the stake.
    Then the head: the walk ends at a leaf, takes the heaviest child at every
    step, and never ends only if the children form a cycle.  Then justification,
    finality and the limits on reorganisations, and what goes wrong in the code:
    the attestation that completes a quorum never returns. *)

From S2P Require Import Prelude Uint256 Address Storage ShardedLock Governance ForkChoice.
From stdpp Require Import base tactics numbers list gmap strings.
From Stdlib Require Import ZArith Lia Strings.Byte Strings.Ascii.
Open Scope Z_scope.
Open Scope list_scope.

(** ** Stake of a set of validators *)

Section Stake.
Context (rd : WorldStateReader).

Definition stake_of (v : string) : Z :=
  match rd_GetValidator rd v with Some val => ParseBigInt_bytes (val_Stake val) | None => 0 end.
Definition stake_list (l : list string) : Z := foldr (fun v acc => stake_of v + acc) 0 l.
Definition stake_sum (s : gset string) : Z := stake_list (elements s).

Lemma stake_of_nonneg v : 0 <= stake_of v.
Proof. unfold stake_of. destruct (rd_GetValidator rd v); [apply ParseBigInt_bytes_nonneg|done]. Qed.

Lemma stake_sum_empty : stake_sum ∅ = 0.
Proof. unfold stake_sum. by rewrite elements_empty. Qed.

Lemma stake_list_app l k : stake_list (l ++ k) = stake_list l + stake_list k.
Proof. induction l as [|v l IH]; simpl; lia. Qed.

#[local] Instance stake_list_perm : Proper ((≡ₚ) ==> eq) stake_list.
Proof. induction 1; simpl; lia. Qed.

Lemma stake_sum_union s t : s ## t -> stake_sum (s ∪ t) = stake_sum s + stake_sum t.
Proof. intros Hd. unfold stake_sum. by rewrite elements_disj_union, stake_list_app. Qed.

Lemma stake_sum_add v s : v ∉ s -> stake_sum ({[v]} ∪ s) = stake_of v + stake_sum s.
Proof.
  intros Hv. rewrite stake_sum_union by set_solver. unfold stake_sum at 1. rewrite elements_singleton. simpl. lia.
Qed.

Lemma stake_sum_remove v s : v ∈ s -> stake_sum s = stake_of v + stake_sum (s ∖ {[v]}).
Proof.
  intros Hv. rewrite <-stake_sum_add by set_solver. f_equal.
  apply set_eq. intros x. destruct (decide (x = v)); set_solver.
Qed.

Lemma active_stake_cons v l :
  active_stake (v :: l) = (if val_Active v then ParseBigInt_bytes (val_Stake v) else 0) + active_stake l.
Proof.
  unfold active_stake.
  assert (Hg : forall (vs : list Validator) z,
    foldl (fun acc v => if val_Active v then acc + ParseBigInt_bytes (val_Stake v) else acc) z vs =
    z + foldl (fun acc v => if val_Active v then acc + ParseBigInt_bytes (val_Stake v) else acc) 0 vs).
  { intros vs. induction vs as [|w vs IH]; intros z; simpl; [lia|].
    rewrite IH, (IH (if val_Active w then _ else _)). destruct (val_Active w); lia. }
  simpl. rewrite Hg. destruct (val_Active v); lia.
Qed.

Lemma active_stake_nonneg l : 0 <= active_stake l.
Proof.
  induction l as [|v l IH]; [done|]. rewrite active_stake_cons.
  pose proof (ParseBigInt_bytes_nonneg (val_Stake v)). destruct (val_Active v); lia.
Qed.

Definition listed (l : list Validator) (v : string) : Prop :=
  exists val, val ∈ l /\ val_Active val = true /\ val_Address val = v /\ stake_of v = ParseBigInt_bytes (val_Stake val).

Lemma stake_sum_le_active l s :
  (forall v, v ∈ s -> listed l v) -> stake_sum s <= active_stake l.
Proof.
  revert s. induction l as [|val l IH]; intros s Hs.
  - replace s with (∅ : gset string); [by rewrite stake_sum_empty|].
    symmetry. apply elem_of_equiv_empty_L. intros v Hv. destruct (Hs v Hv) as (? & Hin & _). set_solver.
  - rewrite active_stake_cons.
    destruct (decide (val_Address val ∈ s /\ stake_of (val_Address val) = ParseBigInt_bytes (val_Stake val) /\ val_Active val = true))
      as [(Hin & Heq & Ha)|Hno].
    + rewrite (stake_sum_remove (val_Address val)), Ha, Heq by done.
      assert (stake_sum (s ∖ {[val_Address val]}) <= active_stake l); [|lia].
      apply IH. intros v Hv. destruct (Hs v) as (w & Hw & Ha' & <- & Hst); [set_solver|].
      exists w. split; [|done]. apply elem_of_cons in Hw as [->|?]; [set_solver|done].
    + assert (stake_sum s <= active_stake l).
      { apply IH. intros v Hv. destruct (Hs v Hv) as (w & Hw & Ha' & <- & Hst).
        exists w. split; [|done]. apply elem_of_cons in Hw as [->|?]; [|done]. destruct Hno. auto. }
      pose proof (ParseBigInt_bytes_nonneg (val_Stake val)). destruct (val_Active val); lia.
Qed.

(** What the node's world state answers about active validators is consistent. *)
Definition reader_ok : Prop :=
  forall v val, rd_GetValidator rd v = Some val -> val_Active val = true ->
    val ∈ rd_GetActiveValidators rd /\ val_Address val = v.

Lemma two_quorums_overlap s t :
  reader_ok ->
  (forall v, v ∈ s ∪ t -> exists val, rd_GetValidator rd v = Some val /\ val_Active val = true) ->
  s ## t ->
  quorum_threshold (active_stake (rd_GetActiveValidators rd)) <= stake_sum s ->
  quorum_threshold (active_stake (rd_GetActiveValidators rd)) <= stake_sum t -> False.
Proof.
  intros Hok Hact Hd Hs Ht.
  assert (Hle : stake_sum (s ∪ t) <= active_stake (rd_GetActiveValidators rd)).
  { apply stake_sum_le_active. intros v Hv. destruct (Hact v Hv) as (val & Hg & Ha).
    destruct (Hok v val Hg Ha) as [Hin Haddr]. exists val. unfold stake_of. by rewrite Hg. }
  rewrite stake_sum_union in Hle by done.
  pose proof (active_stake_nonneg (rd_GetActiveValidators rd)) as Hn.
  revert Hle Hs Ht Hn. generalize (active_stake (rd_GetActiveValidators rd)).
  unfold quorum_threshold. intros T ? Hs Ht Hn. rewrite big_div_pos in Hs, Ht by lia.
  pose proof (Z.mul_succ_div_gt (T * 2) 3). lia.
Qed.
End Stake.

(** ** The tally *)

Section Tally.
Context `{MapOrder} (rd : WorldStateReader) (cfg : ForkChoiceConfig) (lim : ConsensusLimits) (ep : string -> Z).

Definition voters (fc : ForkChoice) (b : string) : gset string := default ∅ (validatorAttestations fc !! b).
Definition votes_for (fc : ForkChoice) (v b : string) : Prop := latestMessages fc !! ep b ≫= (.!! v) = Some b.

(** The tally of the blocks of epochs from [from] on: older votes may be gone. *)
Record tally_from (from : Z) (fc : ForkChoice) : Prop := MkTally {
  ty_score : forall b s, blockScores fc !! b = Some s -> ParseBigInt_string s = stake_sum rd (voters fc b);
  ty_dom : forall b, is_Some (validatorAttestations fc !! b) -> is_Some (blockScores fc !! b);
  ty_epoch : forall b, is_Some (blockScores fc !! b) -> blockEpochMap fc !! b = Some (ep b);
  ty_vote : forall b v, v ∈ voters fc b -> from <= ep b -> votes_for fc v b;
  ty_active : forall b v, v ∈ voters fc b -> exists val, rd_GetValidator rd v = Some val /\ val_Active val = true
}.

Definition tally (fc : ForkChoice) : Prop := forall from, tally_from from fc.

Definition same_tally (fc fc' : ForkChoice) : Prop :=
  blockScores fc' = blockScores fc /\ validatorAttestations fc' = validatorAttestations fc /\
  blockEpochMap fc' = blockEpochMap fc /\ latestMessages fc' = latestMessages fc.

Lemma tally_frame from fc fc' : same_tally fc fc' -> tally_from from fc -> tally_from from fc'.
Proof.
  intros (Hs & Hv & He & Hm) [? ? ? ? ?].
  split; unfold voters, votes_for in *; rewrite ?Hs, ?Hv, ?He, ?Hm; auto.
Qed.

Lemma tally_new : tally NewForkChoiceWithConfig.
Proof.
  split; unfold voters; simpl; intros *; rewrite ?lookup_empty; simpl; try done; try set_solver.
  all: by intros [? ?].
Qed.

(** *** Removing blocks *)

Lemma removeTracked_fields b fc :
  blockScores (removeTrackedBlockLocked b fc) = delete b (blockScores fc) /\
  validatorAttestations (removeTrackedBlockLocked b fc) = delete b (validatorAttestations fc) /\
  blockEpochMap (removeTrackedBlockLocked b fc) = delete b (blockEpochMap fc) /\
  latestMessages (removeTrackedBlockLocked b fc) = latestMessages fc.
Proof. unfold removeTrackedBlockLocked. by repeat case_match. Qed.

Lemma tally_remove from b fc : tally_from from fc -> tally_from from (removeTrackedBlockLocked b fc).
Proof.
  destruct (removeTracked_fields b fc) as (Hs & Hv & He & Hm). intros [H1 H2 H3 H4 H5].
  assert (Hvoters : forall c v, v ∈ voters (removeTrackedBlockLocked b fc) c -> c <> b /\ v ∈ voters fc c).
  { unfold voters. rewrite Hv. intros c v. destruct (decide (c = b)) as [->|?].
    - rewrite lookup_delete_eq. set_solver.
    - rewrite lookup_delete_ne by done. auto. }
  split.
  - intros c s. rewrite Hs. intros [Hne Hc]%lookup_delete_Some. rewrite (H1 c s Hc). f_equal.
    unfold voters. by rewrite Hv, lookup_delete_ne.
  - intros c. rewrite Hs, Hv. intros [x [Hne Hc]%lookup_delete_Some]. rewrite lookup_delete_ne by done. eauto.
  - intros c. rewrite Hs, He. intros [x [Hne Hc]%lookup_delete_Some]. rewrite lookup_delete_ne by done. eauto.
  - intros c v [_ Hin]%Hvoters. unfold votes_for. rewrite Hm. by apply H4.
  - intros c v [_ Hin]%Hvoters. eauto.
Qed.

Lemma tally_prune_loop from rounds epoch first array fc :
  tally_from from fc -> tally_from from (snd (prune_loop rounds epoch first array fc)).
Proof.
  revert first array fc. induction rounds as [|r IH]; intros first array fc Ht; simpl; [done|].
  by apply IH, tally_remove.
Qed.

Lemma tally_prune from epoch fc : tally_from from fc -> tally_from from (pruneEpochBlocksLocked cfg epoch fc).
Proof.
  intros Ht. unfold pruneEpochBlocksLocked. case_match; [done|].
  pose proof (tally_prune_loop from (length (default [] (epochBlockOrder fc !! epoch)) - Z.to_nat (MaxBlocksPerEpoch cfg))
    epoch 0 (default [] (epochBlockOrder fc !! epoch)) fc Ht) as Hl.
  destruct (prune_loop _ _ _ _ _) as [l fc']. by apply (tally_frame _ fc').
Qed.

Lemma tally_remove_blocks from cutoff hashes counts fc :
  tally_from from fc -> tally_from from (snd (remove_blocks cutoff hashes counts fc)).
Proof.
  revert counts fc. induction hashes as [|h l IH]; intros counts fc Ht; simpl; [done|].
  case_match; [by apply IH, tally_remove|by apply IH].
Qed.

Lemma remove_blocks_scores cutoff hashes counts fc :
  blockScores (snd (remove_blocks cutoff hashes counts fc)) ⊆ blockScores fc /\
  (forall b, b ∈ hashes -> is_Some (blockScores (snd (remove_blocks cutoff hashes counts fc)) !! b) ->
     expired_block cutoff fc b = false).
Proof.
  revert counts fc. induction hashes as [|h l IH]; intros counts fc; [split; [done|set_solver]|]. simpl.
  destruct (removeTracked_fields h fc) as (Hs & _ & He & _).
  destruct (expired_block cutoff fc h) eqn:Hx.
  - destruct (IH (fst counts + 1, snd counts + Z.of_nat (length (default [] (attestationsByBlock fc !! h))))
      (removeTrackedBlockLocked h fc)) as [Hsub Hkeep].
    split; [etrans; [exact Hsub|]; rewrite Hs; apply delete_subseteq|].
    intros b Hb Hsome. assert (Hne : b <> h).
    { intros ->. destruct Hsome as [s Hin]. eapply lookup_weaken in Hin; [|exact Hsub].
      by rewrite Hs, lookup_delete_eq in Hin. }
    assert (Hin : b ∈ l) by set_solver. specialize (Hkeep b Hin Hsome). revert Hkeep.
    unfold expired_block. by rewrite He, lookup_delete_ne.
  - destruct (IH counts fc) as [Hsub Hkeep]. split; [done|].
    intros b [->|Hb]%elem_of_cons Hsome; [done|auto].
Qed.

(** After the cleanup every block that is left is recent, and so are the votes. *)
Lemma tally_cleanup now fc : tally fc -> tally (cleanupOldEpochsLocked cfg now fc).
Proof.
  intros Ht. set (c := cutoff_epoch cfg fc).
  unfold cleanupOldEpochsLocked. fold c. cbv zeta.
  match goal with |- context [remove_blocks c _ _ ?x] => set (fc1 := x) end.
  assert (H1 : tally_from c fc1).
  { destruct (Ht c) as [h1 h2 h3 h4 h5]. split; auto.
    intros b v Hv Hle. specialize (h4 b v Hv Hle). unfold votes_for in *. subst fc1. simpl.
    destruct (latestMessages fc !! ep b) as [m|] eqn:Hm; [|done].
    unfold recent. by rewrite (map_lookup_filter_Some_2 _ _ _ m) by done. }
  pose proof (tally_remove_blocks c c (map_order (blockScores fc1)) (0, 0) fc1 H1) as H2.
  destruct (remove_blocks_scores c (map_order (blockScores fc1)) (0, 0) fc1) as [Hsub Hkeep].
  destruct (remove_blocks c (map_order (blockScores fc1)) (0, 0) fc1) as [[blocks atts] fc2] eqn:Hr. simpl in *.
  assert (Hrecent : forall b, is_Some (blockScores fc2 !! b) -> c <= ep b).
  { intros b Hsome. assert (Hin : is_Some (blockScores fc1 !! b)).
    { destruct Hsome as [s Hs]. exists s. by eapply lookup_weaken. }
    assert (Hx : expired_block c fc1 b = false).
    { apply Hkeep; [|done]. apply map_order_elem. by apply elem_of_dom. }
    unfold expired_block in Hx. rewrite (ty_epoch c fc1 H1 b Hin) in Hx. zbool. lia. }
  intros from. eapply (tally_frame _ fc2); [done|].
  destruct H2 as [g1 g2 g3 g4 g5]. split; auto.
  intros b v Hv _. apply g4; [done|]. apply Hrecent, g2. unfold voters in Hv.
  destruct (validatorAttestations fc2 !! b); [eauto|set_solver].
Qed.

(** *** Calls that leave the tally alone *)

Lemma tally_same fc fc' : same_tally fc fc' -> tally fc -> tally fc'.
Proof. intros Hs Ht from. by apply (tally_frame _ fc). Qed.

Lemma tally_modify {E} f : (forall fc, same_tally fc (f fc)) -> preserves tally (modify f : GoM ForkChoice E unit).
Proof. intros Hf. apply preserves_modify. intros fc. by apply tally_same. Qed.

Lemma mutex_op_tally {E} acquire m : preserves tally (mutex_op (E:=E) acquire m).
Proof.
  intros fc Ht. unfold mutex_op.
  destruct (mutex_call acquire m (fc_mu fc)) as [[l|e| |]|]; simpl; [|done..]. by apply (tally_same fc).
Qed.

Lemma locked_tally {E A} m (body : GoM ForkChoice E A) : preserves tally body -> preserves tally (locked m body).
Proof.
  intros Hb. unfold locked. apply preserves_bind; [apply mutex_op_tally|]. intros _ fc Ht.
  unfold releasing. specialize (Hb fc Ht). destruct (body fc) as [r fc1]. simpl in Hb.
  pose proof (mutex_op_tally (E:=E) false m fc1 Hb) as Hm.
  destruct r; [..|done]; destruct (mutex_op false m fc1) as [[|e'| |] fc2]; done.
Qed.

Lemma getTotalActiveStake_tally {E} now : preserves tally (getTotalActiveStake (E:=E) cfg rd now).
Proof. intros fc Ht. unfold getTotalActiveStake. case_match; [done|]. by apply (tally_same fc). Qed.

Lemma checkFinalization_tally {E} now : preserves tally (checkFinalization (E:=E) cfg rd now).
Proof.
  intros fc Ht. unfold checkFinalization. repeat case_match; try done.
  all: apply preserves_bind; [apply getTotalActiveStake_tally|intros; by apply tally_modify|done].
Qed.

Lemma checkJustification_tally {E} now e h a t : preserves tally (checkJustification (E:=E) cfg rd now e h a t).
Proof.
  intros fc Ht. unfold checkJustification. repeat case_match; try done.
  all: apply checkFinalization_tally; by apply (tally_same fc).
Qed.

Lemma EnsurePeriodicCheckpoint_tally {E} e h a t : preserves tally (EnsurePeriodicCheckpoint (E:=E) lim e h a t).
Proof. apply locked_tally, tally_modify. intros fc. by case_match. Qed.

(** *** Counting a vote *)

Lemma track_message_tally att fc :
  att_Epoch att = ep (att_BlockHash att) -> tally fc ->
  tally (snd (track_message att fc)) /\
  (fst (track_message att fc) = Ok None -> votes_for (snd (track_message att fc)) (att_ValidatorAddress att) (att_BlockHash att)).
Proof.
  intros He Ht. set (v := att_ValidatorAddress att). set (h := att_BlockHash att).
  set (votes := default ∅ (latestMessages fc !! att_Epoch att)).
  assert (Hvote : forall b w, latestMessages fc !! ep b ≫= (.!! w) = Some b -> ep b = att_Epoch att -> votes !! w = Some b).
  { intros b w Hb Hbe. subst votes. rewrite <-Hbe. by destruct (latestMessages fc !! ep b). }
  assert (Hsame : tally (set_messages (<[att_Epoch att := votes]> (latestMessages fc)) fc)).
  { intros from. destruct (Ht from) as [h1 h2 h3 h4 h5]. split; auto.
    intros b w Hw Hle. specialize (h4 b w Hw Hle). unfold votes_for in *. simpl.
    destruct (decide (ep b = att_Epoch att)) as [Hb|Hb].
    - rewrite Hb, lookup_insert_eq. simpl. by apply Hvote.
    - by rewrite lookup_insert_ne by done. }
  assert (Hnew : votes !! v = None \/ votes !! v = Some h ->
    tally (set_messages (<[att_Epoch att := <[v := h]> votes]> (latestMessages fc)) fc) /\
    votes_for (set_messages (<[att_Epoch att := <[v := h]> votes]> (latestMessages fc)) fc) v h).
  { intros Hold. split.
    - intros from. destruct (Ht from) as [h1 h2 h3 h4 h5]. split; auto.
      intros b w Hw Hle. specialize (h4 b w Hw Hle). unfold votes_for in *. simpl.
      destruct (decide (ep b = att_Epoch att)) as [Hb|Hb].
      + rewrite Hb, lookup_insert_eq. simpl. destruct (decide (w = v)) as [->|Hne].
        * rewrite lookup_insert_eq. pose proof (Hvote b v h4 Hb). destruct Hold; congruence.
        * rewrite lookup_insert_ne by done. by apply Hvote.
      + by rewrite lookup_insert_ne by done.
    - unfold votes_for. simpl. replace (ep h) with (att_Epoch att) by done. rewrite lookup_insert_eq. simpl.
      by rewrite lookup_insert_eq. }
  unfold track_message. fold v h votes.
  destruct (votes !! v) as [prev|] eqn:Hp.
  - case_bool_decide as Hd; [subst prev; simpl; naive_solver|]. by case_match.
  - simpl. naive_solver.
Qed.

Lemma addBigIntStrings_parse a b : ParseBigInt_string (addBigIntStrings a (String10 b)) = ParseBigInt_string a + b.
Proof. unfold addBigIntStrings. by rewrite !ParseBigInt_String10. Qed.

Lemma score_block_tally att val fc :
  att_Epoch att = ep (att_BlockHash att) -> tally fc ->
  votes_for fc (att_ValidatorAddress att) (att_BlockHash att) ->
  rd_GetValidator rd (att_ValidatorAddress att) = Some val -> val_Active val = true ->
  att_ValidatorAddress att ∉ voters fc (att_BlockHash att) ->
  tally (score_block cfg att
    (addBigIntStrings (default "" (blockScores fc !! att_BlockHash att)) (String10 (ParseBigInt_bytes (val_Stake val))))
    (set_voters (<[att_BlockHash att := {[att_ValidatorAddress att]} ∪ voters fc (att_BlockHash att)]> (validatorAttestations fc)) fc)).
Proof.
  intros He Ht Hvote Hval Hact Hnot from. set (v := att_ValidatorAddress att). set (h := att_BlockHash att).
  set (sc := addBigIntStrings _ _). unfold score_block. cbv zeta.
  match goal with |- tally_from _ (if _ then pruneEpochBlocksLocked _ _ (set_blockOrder _ ?x) else _) => set (fc1 := x) end.
  assert (H1 : tally_from from fc1).
  { destruct (Ht from) as [h1 h2 h3 h4 h5].
    assert (Hvs : forall b, voters fc1 b = if decide (b = h) then {[v]} ∪ voters fc h else voters fc b).
    { intros b. unfold voters, fc1. simpl. fold h. case_decide as Hb; [subst b; by rewrite lookup_insert_eq|].
      by rewrite lookup_insert_ne by done. }
    split.
    - intros b s. rewrite Hvs. unfold fc1. simpl. fold h. case_decide as Hb; [subst b|].
      + rewrite lookup_insert_eq. intros [= <-]. unfold sc. rewrite addBigIntStrings_parse, stake_sum_add by done.
        unfold stake_of at 1. fold v in Hval. rewrite Hval.
        destruct (blockScores fc !! h) as [s|] eqn:Hs; simpl; [rewrite (h1 h s Hs); lia|].
        unfold voters. destruct (validatorAttestations fc !! h) eqn:Hva; [|simpl; rewrite stake_sum_empty; change (ParseBigInt_string "") with 0; lia].
        exfalso. destruct (h2 h) as [? ?]; [eauto|congruence].
      + rewrite lookup_insert_ne by done. apply h1.
    - intros b. unfold fc1. simpl. fold h. destruct (decide (b = h)) as [->|Hb]; [rewrite !lookup_insert_eq; eauto|].
      rewrite !lookup_insert_ne by done. apply h2.
    - intros b. unfold fc1. simpl. fold h. destruct (decide (b = h)) as [->|Hb]; [rewrite !lookup_insert_eq, He; done|].
      rewrite !lookup_insert_ne by done. apply h3.
    - intros b w. rewrite Hvs. case_decide as Hb; [subst b|apply h4].
      intros [->%elem_of_singleton|Hw]%elem_of_union; [done|by apply h4].
    - intros b w. rewrite Hvs. case_decide as Hb; [subst b|apply h5].
      intros [->%elem_of_singleton|Hw]%elem_of_union; [eauto|by apply (h5 h)]. }
  case_match; [|done]. apply tally_prune. by apply (tally_frame _ fc1).
Qed.

Lemma score_epoch_tally now att stake fc : tally fc -> tally (score_epoch cfg now att stake fc).
Proof.
  intros Ht. unfold score_epoch. case_bool_decide; [apply tally_cleanup|]; by apply (tally_same fc).
Qed.

Lemma store_attestation_same att fc : same_tally fc (store_attestation cfg att fc).
Proof. unfold store_attestation. by case_match. Qed.

Lemma store_set_voters att m fc :
  store_attestation cfg att (set_voters m fc) = set_voters m (store_attestation cfg att fc).
Proof. unfold store_attestation. simpl. by case_match. Qed.

Lemma count_attestation_tally now att val fc :
  att_Epoch att = ep (att_BlockHash att) -> tally fc ->
  votes_for fc (att_ValidatorAddress att) (att_BlockHash att) ->
  rd_GetValidator rd (att_ValidatorAddress att) = Some val -> val_Active val = true ->
  attestationsByBlock fc !! att_BlockHash att <> None \/ 0 <= MaxAttestationsPerBlock cfg ->
  tally (snd (count_attestation cfg lim rd now att (ParseBigInt_bytes (val_Stake val)) fc)).
Proof.
  intros He Ht Hvote Hval Hact Hroom. unfold count_attestation. cbv zeta.
  case_bool_decide as Hin; [done|]. simpl attestationsByBlock.
  replace (bool_decide (attestationsByBlock fc !! att_BlockHash att = None) && (MaxAttestationsPerBlock cfg <? 0)) with false.
  2: { symmetry. apply andb_false_iff. destruct Hroom; [left; by apply bool_decide_eq_false|right; by apply Z.ltb_ge]. }
  destruct (store_attestation_same att fc) as (Es & Ev & Ee & Em).
  rewrite store_set_voters. simpl blockScores.
  match goal with |- context [score_epoch cfg now att ?st ?x] => assert (Hx : tally (score_epoch cfg now att st x)) end.
  { apply score_epoch_tally. unfold voters in *. rewrite <-Ev.
    apply score_block_tally; [done|by eapply tally_same|..|done|done|].
    - unfold votes_for in *. by rewrite Em.
    - unfold voters. by rewrite Ev. }
  match goal with |- tally (snd (?m ?x)) => enough (Hp : preserves tally m) by exact (Hp x Hx) end.
  apply preserves_bind; [apply getTotalActiveStake_tally|]. intros total. case_match; [|apply preserves_ret].
  apply preserves_bind; [apply EnsurePeriodicCheckpoint_tally|intros _; apply checkJustification_tally].
Qed.
End Tally.

(** ** The node's calls

    Every call of the fork choice that changes its state, in any order.  An
    attestation names the epoch of its block. *)

Section Reach.
Context `{MapOrder} {N : Type} `{Slasher N} (sl_inv : N -> Prop) `{!SlasherLaws N sl_inv} `{Json Checkpoint}.
Context (cfg : ForkChoiceConfig) (lim : ConsensusLimits) (rd : WorldStateReader) (ep : string -> Z).

Inductive call : Type :=
| CallAttest (now : Z) (att : Attestation)
| CallCleanup (now : Z)
| CallBlock (block : Block)
| CallHasQuorum (now : Z) (blockHash : string)
| CallJustified (now epoch : Z) (blockHash : string)
| CallFinalized (written : bool) (now epoch : Z) (blockHash : string)
| CallFinalization (currentEpoch : Z)
| CallPeriodic (epoch : Z) (blockHash attestingStake totalStake : string)
| CallSetDatabase (db : gmap string string)
| CallLoad.

Definition run_call (c : call) (s : ForkChoice * N) : ForkChoice * N :=
  let on {A} (m : GoM ForkChoice fc_err A) := snd (on_fc m s) in
  match c with
  | CallAttest now att => snd (ProcessAttestation cfg lim now att s)
  | CallCleanup now => on (CleanupOldEpochs cfg now)
  | CallBlock block => on (OnBlockAdded block)
  | CallHasQuorum now h => on (HasQuorum cfg rd now h)
  | CallJustified now e h => on (UpdateJustifiedCheckpoint cfg rd now e h)
  | CallFinalized written now e h => on (UpdateFinalizedCheckpoint cfg rd written now e h)
  | CallFinalization e => on (UpdateFinalization lim e)
  | CallPeriodic e h a t => on (EnsurePeriodicCheckpoint lim e h a t)
  | CallSetDatabase db => on (SetDatabase db)
  | CallLoad => on LoadFinalizedCheckpoint
  end.

Definition call_ok (c : call) : Prop :=
  match c with CallAttest _ att => att_Epoch att = ep (att_BlockHash att) | _ => True end.

Definition node_ok (s : ForkChoice * N) : Prop := sl_inv (snd s) /\ sl_reader (snd s) = rd /\ tally rd ep (fst s).

Lemma on_fc_ok {A} (m : GoM ForkChoice fc_err A) :
  preserves (tally rd ep) m -> preserves node_ok (on_fc m : GoM (ForkChoice * N) fc_err A).
Proof.
  intros Hm [fc n] (Hi & Hr & Ht). unfold on_fc. simpl in *. specialize (Hm fc Ht). by destruct (m fc).
Qed.

Lemma ask_ok {A} (m : GoM N sl_err A) :
  (forall n, sl_inv n -> well_behaved sl_inv m n) ->
  preserves node_ok (ask m).
Proof.
  intros Hm [fc n] (Hi & Hr & Ht). unfold ask. simpl in *. specialize (Hm n Hi). unfold well_behaved in Hm.
  destruct (m n) as [r n']. simpl in Hm. destruct Hm as (_ & Hr' & Hi').
  destruct r; (split; [|split]); simpl; congruence || done.
Qed.

Lemma ask_logged_ok {A} (m : GoM N sl_err A) :
  (forall n, sl_inv n -> well_behaved sl_inv m n) ->
  preserves node_ok (ask_logged m).
Proof. intros Hm. apply preserves_bind; [by apply ask_ok|]. intros. apply preserves_ret. Qed.

Lemma slashing_check_ok now att : preserves node_ok (slashing_check now att).
Proof.
  intros s Hs. unfold slashing_check. case_match; [|done].
  match goal with |- node_ok (snd (?m s)) => enough (Hp : preserves node_ok m) by exact (Hp s Hs) end.
  apply preserves_bind; [apply ask_ok; intros; by apply sl_process_keeps|]. intros [u|e| |].
  - apply preserves_bind; [apply ask_ok; intros; by apply sl_active_keeps|]. intros. apply preserves_ret.
  - apply preserves_bind; [|intros; apply preserves_ret]. case_match; [|apply preserves_ret].
    apply ask_logged_ok. intros. by apply sl_slash_keeps.
  - apply preserves_panic.
  - by intros ? ?.
Qed.

Lemma slash_equivocation_ok now att prev : preserves node_ok (slash_equivocation now att prev).
Proof.
  intros s Hs. unfold slash_equivocation. repeat case_match; try done.
  apply ask_logged_ok; [|done]. intros. by apply sl_slash_keeps.
Qed.

Lemma attest_body_ok now att :
  0 <= MaxAttestationsPerBlock cfg -> att_Epoch att = ep (att_BlockHash att) ->
  preserves node_ok (attest_body cfg lim now att).
Proof.
  intros Hcap He. apply preserves_bind; [apply slashing_check_ok|]. intros go.
  destruct go; simpl; [|apply preserves_ret]. intros [fc n] Hs. simpl.
  destruct (rd_GetValidator (sl_reader n) (att_ValidatorAddress att)) as [val|] eqn:Hval; [|done].
  destruct (val_Active val) eqn:Hact; simpl; [|done].
  destruct Hs as (Hi & Hr & Ht). simpl in *. rewrite Hr in Hval.
  destruct (track_message_tally rd ep att fc He Ht) as [Ht' Hvote].
  unfold mbind, GoM_bind, on_fc at 1. simpl.
  destruct (track_message att fc) as [[[prev|]|e| |] fc1]; simpl in *; try done.
  - by apply slash_equivocation_ok.
  - unfold on_fc. simpl. rewrite Hr.
    assert (Hc := count_attestation_tally rd cfg lim ep now att val fc1 He Ht' (Hvote eq_refl) Hval Hact (or_intror Hcap)).
    destruct (count_attestation _ _ _ _ _ _ fc1) as [r fc2]. simpl in *. done.
Qed.

Lemma ProcessAttestation_ok now att :
  0 <= MaxAttestationsPerBlock cfg -> att_Epoch att = ep (att_BlockHash att) ->
  preserves node_ok (ProcessAttestation cfg lim now att).
Proof.
  intros Hcap He s Hs. unfold ProcessAttestation.
  pose proof (on_fc_ok _ (mutex_op_tally rd ep true W) s Hs) as Hs1.
  destruct (on_fc (mutex_op true W) s) as [[u|e| |] s1]; simpl in *; try done.
  pose proof (attest_body_ok now att Hcap He s1 Hs1) as Hs2.
  destruct (attest_body cfg lim now att s1) as [r s2]. simpl in *.
  pose proof (on_fc_ok _ (mutex_op_tally rd ep false W) s2 Hs2) as Hs3.
  destruct r; try done; destruct (on_fc (mutex_op false W) s2) as [[u'|e'| |] s3]; done.
Qed.

Lemma new_checkpoint_tally now e h : preserves (tally rd ep) (new_checkpoint cfg rd now e h).
Proof.
  apply preserves_bind; [apply preserves_get|]. intros fc.
  apply preserves_bind; [apply getTotalActiveStake_tally|]. intros. apply preserves_ret.
Qed.

Lemma run_call_ok c s : 0 <= MaxAttestationsPerBlock cfg -> call_ok c -> node_ok s -> node_ok (run_call c s).
Proof.
  intros Hcap Hc Hs. destruct c; unfold run_call; cbv zeta beta;
    first [by apply ProcessAttestation_ok | apply on_fc_ok; [|exact Hs]]; apply locked_tally.
  - apply preserves_modify. intros fc. apply tally_cleanup.
  - apply preserves_bind; [apply preserves_lift|]. intros. by apply tally_modify.
  - apply preserves_bind; [apply getTotalActiveStake_tally|]. intros.
    apply preserves_bind; [apply preserves_get|]. intros. apply preserves_ret.
  - apply preserves_bind; [apply new_checkpoint_tally|]. intros. by apply tally_modify.
  - apply preserves_bind; [apply new_checkpoint_tally|]. intros. apply tally_modify. intros fc. simpl. by repeat case_match.
  - apply tally_modify. intros fc. by repeat case_match.
  - apply tally_modify. intros fc. by repeat case_match.
  - by apply tally_modify.
  - intros fc Ht. unfold mbind, GoM_bind, get. repeat (case_match; simplify_eq; simpl in *); try done.
    all: by apply (tally_same _ _ fc).
Qed.

Definition run_calls (cs : list call) (s : ForkChoice * N) : ForkChoice * N := foldl (fun s c => run_call c s) s cs.

Lemma run_calls_ok cs s :
  0 <= MaxAttestationsPerBlock cfg -> Forall call_ok cs -> node_ok s -> node_ok (run_calls cs s).
Proof.
  intros Hcap Hcs. revert s. induction Hcs as [|c cs Hc Hcs IH]; intros s Hs; simpl; [done|].
  by apply IH, run_call_ok.
Qed.
End Reach.

(** ** One quorum per epoch *)

Definition scored (fc : ForkChoice) (b : string) : Z := ParseBigInt_string (default "" (blockScores fc !! b)).

Lemma tally_one_quorum rd ep fc b c :
  reader_ok rd -> tally rd ep fc -> ep b = ep c -> b <> c ->
  quorum_threshold (active_stake (rd_GetActiveValidators rd)) <= scored fc b ->
  quorum_threshold (active_stake (rd_GetActiveValidators rd)) <= scored fc c -> False.
Proof.
  intros Hok Ht Hep Hne Hb Hc. destruct (Ht (ep b)) as [h1 h2 h3 h4 h5].
  assert (Hpos : 0 < quorum_threshold (active_stake (rd_GetActiveValidators rd))).
  { unfold quorum_threshold. rewrite big_div_pos by lia. pose proof (active_stake_nonneg (rd_GetActiveValidators rd)).
    assert (0 <= active_stake (rd_GetActiveValidators rd) * 2 / 3) by (apply Z.div_pos; lia). lia. }
  assert (Hsum : forall x, quorum_threshold (active_stake (rd_GetActiveValidators rd)) <= scored fc x ->
            scored fc x = stake_sum rd (voters fc x)).
  { intros x. unfold scored. destruct (blockScores fc !! x) as [s|] eqn:Hs; [intros _; by apply h1|].
    simpl. change (ParseBigInt_string "") with 0. lia. }
  apply (two_quorums_overlap rd (voters fc b) (voters fc c)); [done|..].
  - intros v [?|?]%elem_of_union; eauto.
  - intros v Hvb Hvc. pose proof (h4 b v Hvb ltac:(lia)) as E1. pose proof (h4 c v Hvc ltac:(lia)) as E2.
    unfold votes_for in *. rewrite <-Hep in E2. congruence.
  - by rewrite <-Hsum.
  - by rewrite <-Hsum.
Qed.

(** Two blocks of the same epoch never both hold more than two thirds of the
    active stake: after any sequence of calls on a new fork choice, if the
    validators do not change and every attestation names its block's epoch, two
    blocks that both reach the threshold are the same block.  The scores are
    exactly the stake of the recorded voters. *)
Theorem one_quorum_per_epoch `{MapOrder} {N : Type} `{Slasher N} (sl_inv : N -> Prop) `{!SlasherLaws N sl_inv}
    `{Json Checkpoint} cfg lim rd ep (n : N) (cs : list call) b c :
  0 <= MaxAttestationsPerBlock cfg -> sl_inv n -> sl_reader n = rd -> reader_ok rd -> Forall (call_ok ep) cs ->
  let fc := fst (run_calls cfg lim rd cs (NewForkChoiceWithConfig, n)) in
  (forall x s, blockScores fc !! x = Some s -> ParseBigInt_string s = stake_sum rd (voters fc x)) /\
  (ep b = ep c ->
   quorum_threshold (active_stake (rd_GetActiveValidators rd)) <= scored fc b ->
   quorum_threshold (active_stake (rd_GetActiveValidators rd)) <= scored fc c -> b = c).
Proof.
  intros Hcap Hi Hr Hok Hcs fc.
  destruct (run_calls_ok sl_inv cfg lim rd ep cs (NewForkChoiceWithConfig, n) Hcap Hcs) as (_ & _ & Ht).
  { split; [done|]. split; [done|]. apply tally_new. }
  split; [by apply (Ht 0)|].
  intros Hep Hb Hc. destruct (decide (b = c)) as [|Hne]; [done|].
  destruct (tally_one_quorum rd ep fc b c); done.
Qed.

(** ** The head *)

Lemma ltb_negb_leb (a b : string) : String.ltb a b = negb (String.leb b a).
Proof.
  unfold String.ltb, String.leb. rewrite (String.compare_antisym a b). by destruct (b ?= a)%string.
Qed.

Section Head.
Context (rd : WorldStateReader) (fc : ForkChoice).

Definition kids (b : string) : list string := default [] (children fc !! b).
Definition child_of (b c : string) : Prop := c ∈ kids b.

(** [c] outweighs [d], or is as heavy and has the smaller hash. *)
Definition beats (c d : string) : Prop :=
  exists wc wd, getSubtreeStake rd fc c = Ok wc /\ getSubtreeStake rd fc d = Ok wd /\ (wd < wc \/ wd = wc /\ String.le c d).
Definition heaviest_child (b c : string) : Prop := child_of b c /\ forall d, child_of b d -> beats c d.

Inductive heaviest_path : string -> string -> Prop :=
| path_leaf b : kids b = [] -> heaviest_path b b
| path_step b c h : heaviest_child b c -> heaviest_path c h -> heaviest_path b h.

Definition headers_present : Prop := forall h block, rd_GetBlockByHash rd h = Some block -> blk_Header block <> None.

Lemma ancestor_loop_ok rounds curr anc : headers_present -> exists r, ancestor_loop rd rounds curr anc = Ok r.
Proof.
  intros Hh. revert curr. induction rounds as [|n IH]; intros curr; simpl; [eauto|].
  destruct (rd_GetBlockByHash rd curr) as [block|] eqn:Hb; [|eauto].
  unfold parent_hash. specialize (Hh _ _ Hb). destruct (blk_Header block); [|done]. simpl.
  repeat case_bool_decide; eauto.
Qed.

Lemma decay_loop_nonneg age stake : 0 <= stake -> 0 <= decay_loop age stake.
Proof.
  revert stake. induction age as [|n IH]; intros stake Hs; simpl; [done|].
  apply IH. rewrite big_div_pos by lia. apply Z.div_pos; lia.
Qed.

Lemma vote_weight_ok root e vote : headers_present -> exists w, vote_weight rd root e vote = Ok w /\ 0 <= w.
Proof.
  intros Hh. destruct vote as [[epoch v] voted]. unfold vote_weight.
  assert (Hs : exists b, (if bool_decide (voted = root) then Ok true else isDescendant rd voted root) = Ok (E:=fc_err) b).
  { case_bool_decide; [eauto|]. unfold isDescendant. case_bool_decide; [eauto|]. by apply ancestor_loop_ok. }
  destruct Hs as [b ->]. simpl. destruct b; [|exists 0; split; [done|lia]].
  destruct (rd_GetValidator rd v) as [val|]; [|exists 0; split; [done|lia]].
  destruct (val_Active val); [|exists 0; split; [done|lia]]. eexists. split; [done|].
  unfold ApplyWeightDecay. pose proof (ParseBigInt_bytes_nonneg (val_Stake val)). case_if; [done|by apply decay_loop_nonneg].
Qed.

Lemma getSubtreeStake_ok root : headers_present -> exists w, getSubtreeStake rd fc root = Ok w /\ 0 <= w.
Proof.
  intros Hh. unfold getSubtreeStake. induction (recent_votes fc) as [|vote l IH]; simpl; [exists 0; split; [done|lia]|].
  destruct (vote_weight_ok root (getCurrentEpoch fc) vote Hh) as (w & -> & Hw). destruct IH as (r & Hr & Hr0). simpl.
  rewrite Hr. simpl. eexists. split; [done|]. lia.
Qed.

Lemma beats_refl c : headers_present -> beats c c.
Proof. intros Hh. destruct (getSubtreeStake_ok c Hh) as (w & Hw & _). exists w, w. by repeat split; auto. Qed.

(** The loop's choice beats what it has seen; before the first child nothing has been. *)
Lemma best_child_spec l (seen : list string) best w :
  headers_present -> "" ∉ l -> "" ∉ seen ->
  (seen = [] /\ best = "" /\ w = 0 \/
   best ∈ seen /\ getSubtreeStake rd fc best = Ok w /\ forall d, d ∈ seen -> beats best d) ->
  seen ++ l <> [] ->
  exists c, best_child (getSubtreeStake rd fc) l best w = Ok c /\ c ∈ seen ++ l /\ forall d, d ∈ seen ++ l -> beats c d.
Proof.
  intros Hh. revert seen best w. induction l as [|x l IH]; intros seen best w Hl Hseen Hinv Hne.
  { rewrite app_nil_r in *. destruct Hinv as [(-> & _)|(Hin & Hw & Hall)]; [done|]. simpl. eauto. }
  simpl. destruct (getSubtreeStake_ok x Hh) as (wx & Hwx & Hpos). rewrite Hwx. simpl.
  replace (seen ++ x :: l) with ((seen ++ [x]) ++ l) by (by rewrite <-app_assoc).
  assert (Hnx : x <> "") by set_solver.
  assert (Hcase : forall best' w', best' ∈ seen ++ [x] -> getSubtreeStake rd fc best' = Ok w' ->
     (forall d, d ∈ seen ++ [x] -> beats best' d) ->
     exists c, best_child (getSubtreeStake rd fc) l best' w' = Ok c /\ c ∈ (seen ++ [x]) ++ l /\
       forall d, d ∈ (seen ++ [x]) ++ l -> beats c d).
  { intros. apply IH; [set_solver|set_solver|auto|]. by destruct seen. }
  assert (Hx : (forall d, d ∈ seen -> beats x d) -> forall d, d ∈ seen ++ [x] -> beats x d).
  { intros Hd d [?| ->%list_elem_of_singleton]%elem_of_app; [auto|by apply beats_refl]. }
  destruct Hinv as [(-> & -> & ->)|(Hin & Hw & Hall)].
  - destruct (0 <? wx) eqn:Hlt.
    + apply Hcase; [set_solver|done|]. apply Hx. set_solver.
    + rewrite bool_decide_eq_true_2 by done. zbool. replace (wx =? 0) with true by (symmetry; apply Z.eqb_eq; lia). simpl.
      apply Hcase; [set_solver|rewrite Hwx; f_equal; lia|]. apply Hx. set_solver.
  - destruct (w <? wx) eqn:Hlt; zbool.
    + apply Hcase; [set_solver|done|]. apply Hx. intros d Hd.
      destruct (Hall d Hd) as (wb & wd & Hb & Hwd & Hord). exists wx, wd. rewrite Hw in Hb. simplify_eq.
      split; [done|]. split; [done|]. left. lia.
    + destruct (wx =? w) eqn:Heq; simpl; zbool.
      2: { apply Hcase; [set_solver|done|]. intros d [?| ->%list_elem_of_singleton]%elem_of_app; [auto|].
           exists w, wx. repeat split; try done. left. lia. }
      rewrite bool_decide_eq_false_2 by (intros ->; set_solver). simpl. rewrite ltb_negb_leb.
      destruct (String.leb best x) eqn:Hle; simpl.
      * apply Hcase; [set_solver|done|]. intros d [?| ->%list_elem_of_singleton]%elem_of_app; [auto|].
        exists w, wx. repeat split; try done. right. split; [done|]. unfold String.le. by rewrite Hle.
      * assert (Hxb : String.le x best).
        { unfold String.le. destruct (String.leb_total x best) as [Ht|Ht]; [by rewrite Ht|congruence]. }
        subst w. apply Hcase; [set_solver|done|]. apply Hx. intros d Hd.
        destruct (Hall d Hd) as (wb & wd & Hb & Hwd & Hord). exists wx, wd. rewrite Hw in Hb. simplify_eq.
        repeat split; try done. destruct Hord as [?|[? ?]]; [by left|right]. split; [done|]. by trans best.
Qed.

Lemma best_child_kids b :
  headers_present -> "" ∉ kids b -> kids b <> [] ->
  exists c, best_child (getSubtreeStake rd fc) (kids b) "" 0 = Ok c /\ heaviest_child b c.
Proof.
  intros Hh Hne Hk. destruct (best_child_spec (kids b) [] "" 0 Hh Hne) as (c & Hc & Hin & Hall);
    [set_solver|by left|done|]. exists c. by split.
Qed.

Definition acyclic : Prop := forall b, ~ tc child_of b b.

(** A walk that has not ended has seen as many different blocks with children as
    it has taken rounds. *)
Lemma head_loop_cases fuel b :
  headers_present -> acyclic -> (forall b, "" ∉ kids b) ->
  (exists h, (forall k, head_loop rd (fuel + k) fc b = Ok h) /\ heaviest_path b h) \/
  (exists path, length path = fuel /\ NoDup path /\ forall x, x ∈ path -> x ∈ dom (children fc) /\ rtc child_of b x).
Proof.
  intros Hh Hac Hne. revert b. induction fuel as [|f IH]; intros b.
  { right. exists []. split; [done|]. split; [apply NoDup_nil_2|set_solver]. }
  destruct (decide (kids b = [])) as [Hk|Hk].
  { left. exists b. split; [|by apply path_leaf]. intros k. simpl. unfold kids in Hk. by rewrite Hk. }
  destruct (best_child_kids b Hh (Hne b) Hk) as (c & Hc & Hheavy).
  assert (Hstep : forall k, head_loop rd (S (f + k)) fc b = head_loop rd (f + k) fc c).
  { intros k. change (match kids b with [] => Ok b
      | l => next ← best_child (getSubtreeStake rd fc) l "" 0; head_loop rd (f + k) fc next end = head_loop rd (f + k) fc c).
    destruct (kids b) as [|x l]; [done|]. by rewrite Hc. }
  destruct (IH c) as [(h & Hl & Hp)|(path & Hlen & Hnd & Hpath)].
  - left. exists h. split; [intros k; simpl plus; rewrite Hstep; apply Hl|by eapply path_step].
  - right. exists (b :: path). split; [simpl; congruence|].
    assert (Hbc : child_of b c) by apply Hheavy.
    assert (Hdom : b ∈ dom (children fc)).
    { apply elem_of_dom. unfold child_of, kids in Hbc. destruct (children fc !! b); [eauto|set_solver]. }
    split.
    + apply NoDup_cons_2; [|done]. intros Hb. destruct (Hpath b Hb) as [_ Hr]. apply (Hac b). by eapply tc_rtc_r; [apply tc_once|].
    + intros x [->|Hx]%elem_of_cons; [split; [done|reflexivity]|]. destruct (Hpath x Hx) as [Hd Hr].
      split; [done|]. by eapply rtc_l.
Qed.

Lemma head_loop_returns b :
  headers_present -> acyclic -> (forall b, "" ∉ kids b) ->
  exists h, (forall k, head_loop rd (S (size (children fc)) + k) fc b = Ok h) /\ heaviest_path b h.
Proof.
  intros Hh Hac Hne. destruct (head_loop_cases (S (size (children fc))) b Hh Hac Hne) as [?|(path & Hlen & Hnd & Hp)]; [done|].
  exfalso. assert (Hsub : list_to_set path ⊆ dom (children fc)).
  { intros x Hx%elem_of_list_to_set. by apply Hp. }
  apply subseteq_size in Hsub. rewrite size_list_to_set, size_dom in Hsub by done. lia.
Qed.
End Head.

Lemma locked_read {E A} (fc : ForkChoice) (body : GoM ForkChoice E A) r :
  fc_mu fc = unlocked -> r <> Hang -> body (set_mu (MkRW false 1) fc) = (r, set_mu (MkRW false 1) fc) ->
  locked R body fc = (r, fc).
Proof.
  intros Hmu Hr Hb. unfold locked, mbind, GoM_bind, mutex_op at 1. rewrite Hmu. simpl. unfold releasing. rewrite Hb.
  unfold mutex_op. simpl. 
  assert (Hfc : set_mu (MkRW false 0) (set_mu (MkRW false 1) fc) = fc) by (destruct fc; simpl in *; by subst).
  rewrite Hfc. by destruct r.
Qed.

Lemma head_loop_mu rd fuel fc l b : head_loop rd fuel (set_mu l fc) b = head_loop rd fuel fc b.
Proof.
  revert b. induction fuel as [|f IH]; intros b; [done|].
  change (head_loop rd (S f) (set_mu l fc) b) with (match kids fc b with [] => Ok b
    | l' => next ← best_child (getSubtreeStake rd fc) l' "" 0; head_loop rd f (set_mu l fc) next end).
  change (head_loop rd (S f) fc b) with (match kids fc b with [] => Ok b
    | l' => next ← best_child (getSubtreeStake rd fc) l' "" 0; head_loop rd f fc next end).
  destruct (kids fc b) as [|x k]; [done|]. destruct (best_child _ _ _ _); [|done..]. apply IH.
Qed.

(** C10. [GetHead] returns: when the recorded blocks form no cycle, the walk from
    the last finalised (else justified, else genesis) block ends at a block
    without children, after at most one round per block that has some, and every
    step goes to the child whose subtree has most of the recent votes' stake,
    the smallest hash among equals.  The fork choice is left as it was. *)
Theorem head_is_heaviest_leaf rd fc :
  fc_mu fc = unlocked -> headers_present rd -> acyclic fc -> (forall b, "" ∉ kids fc b) ->
  exists h, GetHead rd fc = (Ok h, fc) /\ heaviest_path rd fc (head_anchor rd fc) h /\
    forall k, head_loop rd (S (size (children fc)) + k) fc (head_anchor rd fc) = Ok h.
Proof.
  intros Hmu Hh Hac Hne.
  destruct (head_loop_returns rd fc (head_anchor rd fc) Hh Hac Hne) as (h & Hl & Hp).
  exists h. split; [|done]. apply locked_read; [done|done|].
  rewrite head_loop_mu. f_equal. specialize (Hl 0%nat). rewrite Nat.add_0_r in Hl. exact Hl.
Qed.

(** While the latest epoch is 0 or 1 the bound on the epochs looked at wraps
    around, and no vote has any weight. *)
Lemma early_votes_weigh_nothing rd fc h :
  0 <= getCurrentEpoch fc < 2 -> (forall e, is_Some (latestMessages fc !! e) -> e < two64 - 2) ->
  getSubtreeStake rd fc h = Ok 0.
Proof.
  intros Hcur Hep. unfold getSubtreeStake.
  assert (Hu : two64 - 2 <= u64 (getCurrentEpoch fc - 2)).
  { unfold u64, two64. rewrite <-(Z.mod_add _ 1) by lia. rewrite Z.mod_small; lia. }
  replace (recent_votes fc) with ([] : list (Z * string * string)); [done|].
  unfold recent_votes. assert (Hall : forall ew, ew ∈ map_to_list (latestMessages fc) -> fst ew < u64 (getCurrentEpoch fc - 2)).
  { intros [e votes] Hin%elem_of_map_to_list. simpl. specialize (Hep e). rewrite Hin in Hep.
    specialize (Hep ltac:(eauto)). lia. }
  revert Hall. generalize (u64 (getCurrentEpoch fc - 2)). intros c.
  induction (map_to_list (latestMessages fc)) as [|ew l IH]; intros Hall; [done|].
  simpl. rewrite (proj2 (Z.ltb_lt _ _) (Hall ew ltac:(set_solver))). simpl. apply IH. set_solver.
Qed.

(** ** Attestations: the call that completes a quorum *)

Section Quorum.
Context `{MapOrder} (cfg : ForkChoiceConfig) (lim : ConsensusLimits).

Definition same_rest (fc fc' : ForkChoice) : Prop :=
  fc_mu fc' = fc_mu fc /\ justifiedCheckpoint fc' = justifiedCheckpoint fc /\ finalizedCheckpoint fc' = finalizedCheckpoint fc /\
  totalActiveStake fc' = totalActiveStake fc /\ totalActiveStakeTime fc' = totalActiveStakeTime fc.

#[local] Instance same_rest_po : PreOrder same_rest.
Proof. split; [by intros fc|]. intros a b c (?&?&?&?&?) (?&?&?&?&?). repeat split; congruence. Qed.

Lemma removeTracked_rest b fc : same_rest fc (removeTrackedBlockLocked b fc).
Proof. unfold removeTrackedBlockLocked. by repeat case_match. Qed.

Lemma prune_rest epoch fc : same_rest fc (pruneEpochBlocksLocked cfg epoch fc).
Proof.
  assert (Hloop : forall rounds first array fc, same_rest fc (snd (prune_loop rounds epoch first array fc))).
  { intros rounds. induction rounds as [|r IH]; intros; simpl; [done|]. etrans; [apply removeTracked_rest|apply IH]. }
  unfold pruneEpochBlocksLocked. case_match; [done|].
  specialize (Hloop (length (default [] (epochBlockOrder fc !! epoch)) - Z.to_nat (MaxBlocksPerEpoch cfg))%nat 0%nat
    (default [] (epochBlockOrder fc !! epoch)) fc).
  destruct (prune_loop _ _ _ _ _) as [l fc']. by etrans; [exact Hloop|].
Qed.

Lemma cleanup_rest now fc : same_rest fc (cleanupOldEpochsLocked cfg now fc).
Proof.
  assert (Hloop : forall cutoff l counts fc, same_rest fc (snd (remove_blocks cutoff l counts fc))).
  { intros cutoff l. induction l as [|h l IH]; intros; simpl; [done|]. case_match; [|apply IH].
    etrans; [apply removeTracked_rest|apply IH]. }
  unfold cleanupOldEpochsLocked. cbv zeta.
  match goal with |- context [remove_blocks ?c ?l ?z ?x] =>
    specialize (Hloop c l z x); destruct (remove_blocks c l z x) as [[blocks atts] fc2] end.
  by etrans; [|etrans; [exact Hloop|]].
Qed.

Lemma score_rest now att stake score fc : same_rest fc (score_epoch cfg now att stake (score_block cfg att score fc)).
Proof.
  transitivity (score_block cfg att score fc).
  - unfold score_block. case_bool_decide; [|done]. by etrans; [|apply prune_rest].
  - generalize (score_block cfg att score fc). intros fc1. unfold score_epoch. case_bool_decide; [|done].
    by etrans; [|apply cleanup_rest].
Qed.

Lemma locked_hangs {E A} m (body : GoM ForkChoice E A) fc : fc_mu fc = MkRW true 0 -> locked m body fc = (Hang, fc).
Proof. intros Hmu. unfold locked, mbind, GoM_bind, mutex_op. rewrite Hmu. by destruct m. Qed.

(** Counting a first vote, with the lock held. *)
Lemma count_attestation_run rd now att stake fc :
  fc_mu fc = MkRW true 0 -> att_ValidatorAddress att ∉ voters fc (att_BlockHash att) -> 0 <= MaxAttestationsPerBlock cfg ->
  cache_fresh cfg now fc = false ->
  exists fc', count_attestation cfg lim rd now att stake fc =
    (if quorum_threshold (active_stake (rd_GetActiveValidators rd)) <=? scored fc (att_BlockHash att) + stake
     then Hang else Ok tt, fc') /\
    fc_mu fc' = MkRW true 0 /\ justifiedCheckpoint fc' = justifiedCheckpoint fc.
Proof.
  intros Hmu Hnew Hcap Hfresh. unfold count_attestation. cbv zeta.
  rewrite bool_decide_eq_false_2 by done. rewrite (proj2 (Z.ltb_ge _ _) Hcap), andb_false_r.
  rewrite store_set_voters.
  repeat match goal with |- context [blockScores (set_voters ?m ?g)] => change (blockScores (set_voters m g)) with (blockScores g) end.
  match goal with |- context [score_epoch cfg now att stake (score_block cfg att ?sc ?x)] =>
    pose proof (score_rest now att stake sc x) as Hr; set (fc1 := score_epoch cfg now att stake (score_block cfg att sc x)) in * end.
  destruct Hr as (Hm & Hj & _ & Hs & Ht).
  assert (Hst : forall g, fc_mu (store_attestation cfg att g) = fc_mu g /\
      justifiedCheckpoint (store_attestation cfg att g) = justifiedCheckpoint g /\
      totalActiveStake (store_attestation cfg att g) = totalActiveStake g /\
      totalActiveStakeTime (store_attestation cfg att g) = totalActiveStakeTime g /\
      blockScores (store_attestation cfg att g) = blockScores g).
  { intros g. unfold store_attestation. by case_match. }
  destruct (Hst fc) as (Em & Ej & Es & Et & Eb). simpl in Hm, Hj, Hs, Ht. rewrite Em, Hmu in Hm. rewrite Ej in Hj.
  unfold mbind, GoM_bind, getTotalActiveStake.
  replace (cache_fresh cfg now fc1) with false by (unfold cache_fresh in *; by rewrite Hs, Ht, Es, Et).
  rewrite Eb, !ParseBigInt_String10, addBigIntStrings_parse. fold (scored fc (att_BlockHash att)).
  case_if.
  - unfold EnsurePeriodicCheckpoint. rewrite locked_hangs by done. by eexists.
  - by eexists.
Qed.
End Quorum.

Lemma track_first_message att fc :
  latestMessages fc !! att_Epoch att ≫= (.!! att_ValidatorAddress att) = None ->
  exists m, track_message att fc = (Ok None, set_messages m fc).
Proof.
  intros Hn. unfold track_message.
  assert (Hv : default ∅ (latestMessages fc !! att_Epoch att) !! att_ValidatorAddress att = None).
  { destruct (latestMessages fc !! att_Epoch att); [done|apply lookup_empty]. }
  rewrite Hv. eauto.
Qed.

(** An attestation that leaves its block below two thirds of the stake is
    counted and the call returns with the lock free.  The attestation that brings
    the block to two thirds never returns: it waits for the lock that it holds,
    before anything is justified, and every later call on the fork choice waits
    with it. *)
Theorem quorum_attestation_never_returns `{MapOrder} {N : Type} `{Slasher N} cfg lim now att fc (n : N) val :
  fc_mu fc = unlocked -> sl_present n = false ->
  rd_GetValidator (sl_reader n) (att_ValidatorAddress att) = Some val -> val_Active val = true ->
  latestMessages fc !! att_Epoch att ≫= (.!! att_ValidatorAddress att) = None ->
  att_ValidatorAddress att ∉ voters fc (att_BlockHash att) ->
  0 <= MaxAttestationsPerBlock cfg -> cache_fresh cfg now fc = false ->
  let threshold := quorum_threshold (active_stake (rd_GetActiveValidators (sl_reader n))) in
  let score := scored fc (att_BlockHash att) + ParseBigInt_bytes (val_Stake val) in
  exists fc', justifiedCheckpoint fc' = justifiedCheckpoint fc /\
    (score < threshold -> ProcessAttestation cfg lim now att (fc, n) = (Ok tt, (fc', n)) /\ fc_mu fc' = unlocked) /\
    (threshold <= score -> ProcessAttestation cfg lim now att (fc, n) = (Hang, (fc', n)) /\
       forall A m (body : GoM ForkChoice fc_err A), locked m body fc' = (Hang, fc')).
Proof.
  intros Hmu Hnil Hval Hact Hmsg Hnew Hcap Hfresh threshold score.
  destruct (track_first_message att (set_mu (MkRW true 0) fc) Hmsg) as (m & Hm).
  destruct (count_attestation_run cfg lim (sl_reader n) now att (ParseBigInt_bytes (val_Stake val))
    (set_messages m (set_mu (MkRW true 0) fc)) eq_refl Hnew Hcap Hfresh) as (fc' & Hc & Hl & Hj).
  assert (Hrun : attest_body cfg lim now att (set_mu (MkRW true 0) fc, n) = (if threshold <=? score then Hang else Ok tt, (fc', n))).
  { unfold attest_body, slashing_check, mbind, GoM_bind. simpl. rewrite Hnil. simpl. rewrite Hval, Hact. simpl.
    unfold on_fc. simpl. rewrite Hm. simpl. by rewrite Hc. }
  assert (Hproc : ProcessAttestation cfg lim now att (fc, n) =
    if threshold <=? score then (Hang, (fc', n)) else (Ok tt, (set_mu unlocked fc', n))).
  { unfold ProcessAttestation, on_fc at 1, mutex_op at 1. simpl. rewrite Hmu. simpl. rewrite Hrun.
    case_if; [done|]. unfold on_fc, mutex_op. simpl. by rewrite Hl. }
  rewrite Hproc. destruct (threshold <=? score) eqn:Ht; zbool.
  - exists fc'. split; [exact Hj|]. split; [lia|]. intros _. split; [done|]. intros. by apply locked_hangs.
  - exists (set_mu unlocked fc'). split; [exact Hj|]. split; [done|lia].
Qed.

(** ** Justification and finality *)

Section Best.
Context `{MapOrder} (scores : gmap string string).
Definition entry_score (h : string) : Z := ParseBigInt_string (default "" (scores !! h)).

Lemma heaviest_spec l (seen : list string) best :
  (seen = [] /\ best = ("", None) \/
   exists h, best = (h, Some (entry_score h)) /\ h ∈ seen /\ forall d, d ∈ seen -> entry_score d <= entry_score h) ->
  heaviest (fun _ => true) scores l best = ("", None) /\ seen ++ l = [] \/
  exists h, heaviest (fun _ => true) scores l best = (h, Some (entry_score h)) /\ h ∈ seen ++ l /\
    forall d, d ∈ seen ++ l -> entry_score d <= entry_score h.
Proof.
  revert seen best. induction l as [|x l IH]; intros seen best Hinv.
  { rewrite app_nil_r. destruct Hinv as [[-> ->]|Hinv]; [by left|by right]. }
  replace (seen ++ x :: l) with ((seen ++ [x]) ++ l) by (by rewrite <-app_assoc). simpl. apply IH. right.
  fold (entry_score x). destruct Hinv as [[-> ->]|(h & -> & Hin & Hall)]; simpl.
  - exists x. split; [done|]. split; [set_solver|]. intros d Hd. assert (d = x) as -> by set_solver. lia.
  - destruct (entry_score h <? entry_score x) eqn:Hlt; zbool.
    + exists x. split; [done|]. split; [set_solver|]. intros d [Hd| ->%list_elem_of_singleton]%elem_of_app; [|lia].
      specialize (Hall d Hd). lia.
    + exists h. split; [done|]. split; [set_solver|]. intros d [Hd| ->%list_elem_of_singleton]%elem_of_app; [auto|lia].
Qed.

Lemma heaviest_all :
  heaviest (fun _ => true) scores (map_order scores) ("", None) = ("", None) \/
  exists h, heaviest (fun _ => true) scores (map_order scores) ("", None) = (h, Some (entry_score h)) /\
    h ∈ dom scores /\ forall d, d ∈ dom scores -> entry_score d <= entry_score h.
Proof.
  destruct (heaviest_spec (map_order scores) [] ("", None)) as [[? _]|(h & Hh & Hin & Hall)]; [by left|by left|right].
  exists h. split; [done|]. simpl in *. split; [by apply map_order_elem|]. intros d Hd. by apply Hall, map_order_elem.
Qed.
End Best.

(** One call of [checkJustification] moves justification and finality forward only: a
    block is justified only
    with two thirds of the stake and in a later epoch than the last justified one,
    and then the block with most stake two epochs earlier may become final, always
    in a later epoch than the last final one. *)
Theorem finality_advances `{MapOrder} cfg rd now epoch h attesting total fc :
  let fc' := snd (checkJustification (E:=fc_err) cfg rd now epoch h attesting total fc) in
  fst (checkJustification (E:=fc_err) cfg rd now epoch h attesting total fc) = Ok tt /\
  (justifiedCheckpoint fc' = justifiedCheckpoint fc /\ finalizedCheckpoint fc' = finalizedCheckpoint fc \/
   quorum_threshold (ParseBigInt_string total) <= ParseBigInt_string attesting /\
   justifiedCheckpoint fc' = Some (MkCheckpoint epoch h (Unix now) attesting total) /\
   (forall j, justifiedCheckpoint fc = Some j -> cp_Epoch j < epoch) /\
   (finalizedCheckpoint fc' = finalizedCheckpoint fc \/
    exists f, finalizedCheckpoint fc' = Some f /\ cp_Epoch f = epoch - 2 /\ 2 <= epoch /\
      (forall g, finalizedCheckpoint fc = Some g -> cp_Epoch g < cp_Epoch f) /\
      let scores := default ∅ (epochAttestations fc !! cp_Epoch f) in
      cp_BlockHash f ∈ dom scores /\ forall d, d ∈ dom scores -> entry_score scores d <= entry_score scores (cp_BlockHash f))).
Proof.
  unfold checkJustification. destruct (_ <? quorum_threshold _) eqn:Hq; [by auto|]. zbool.
  destruct (match justifiedCheckpoint fc with Some j => epoch <=? cp_Epoch j | None => false end) eqn:Hj; [by auto|].
  unfold checkFinalization. simpl.
  assert (Hold : forall j, justifiedCheckpoint fc = Some j -> cp_Epoch j < epoch).
  { intros j Ej. rewrite Ej in Hj. by zbool. }
  destruct (epoch <? 2) eqn:He; [split; [done|]; right; by auto|]. zbool.
  destruct (match finalizedCheckpoint fc with Some f => epoch - 2 <=? cp_Epoch f | None => false end) eqn:Hf;
    [split; [done|]; right; by auto|].
  assert (Hg : forall g, finalizedCheckpoint fc = Some g -> cp_Epoch g < epoch - 2).
  { intros g Eg. rewrite Eg in Hf. by zbool. }
  destruct (heaviest_all (default ∅ (epochAttestations fc !! (epoch - 2)))) as [Hn|(b & Hb & Hin & Hall)].
  { rewrite Hn. split; [done|]. right. by auto. }
  rewrite Hb. case_bool_decide; [split; [done|]; right; by auto|].
  unfold mbind, GoM_bind, getTotalActiveStake. destruct (cache_fresh cfg now _); simpl; (split; [done|]); right; split_and!; try done;
    right; eexists; split_and!; try done; lia.
Qed.

(** A reorganisation is accepted exactly when its depth is between 0 and the
    configured limit, its fork point lies in a positive epoch after the last final
    one, and the new chain has the required share of the total stake, in
    hundredths of a percent rounded down; the fork choice is unchanged. *)
Theorem reorganization_accepted_exactly lim depth epoch newStake total fc :
  fc_mu fc = unlocked ->
  snd (ValidateReorganization lim depth epoch newStake total fc) = fc /\
  (fst (ValidateReorganization lim depth epoch newStake total fc) = Ok tt <->
   0 <= depth <= max_reorg_depth lim /\ epoch <> 0 /\
   (forall f, finalizedCheckpoint fc = Some f -> cp_Epoch f < epoch) /\
   0 <= ParseBigInt_string newStake /\ 0 < ParseBigInt_string total /\
   required_basis_points lim * ParseBigInt_string total <= ParseBigInt_string newStake * 10000).
Proof.
  intros Hmu. unfold ValidateReorganization.
  match goal with |- context [locked R ?b] => set (body := b) end.
  assert (Hb : exists r, body (set_mu (MkRW false 1) fc) = (r, set_mu (MkRW false 1) fc) /\ r <> Hang /\
    (r = Ok tt <-> 0 <= depth <= max_reorg_depth lim /\ epoch <> 0 /\
      (forall f, finalizedCheckpoint fc = Some f -> cp_Epoch f < epoch) /\
      0 <= ParseBigInt_string newStake /\ 0 < ParseBigInt_string total /\
      required_basis_points lim * ParseBigInt_string total <= ParseBigInt_string newStake * 10000)).
  { unfold body, refuse_if, mbind, GoM_bind, get, throw, mret, GoM_ret. simpl.
    destruct (depth <? 0) eqn:E1; [eexists; split; [done|]; split; [done|]; split; [done|]; zbool; lia|].
    destruct (epoch =? 0) eqn:E2; [eexists; split; [done|]; split; [done|]; split; [done|]; zbool; lia|].
    destruct (max_reorg_depth lim <? depth) eqn:E3; [eexists; split; [done|]; split; [done|]; split; [done|]; zbool; lia|].
    destruct (finalizedCheckpoint fc) as [cp|].
    1: destruct (epoch <=? cp_Epoch cp) eqn:E4;
      [eexists; split; [done|]; split; [done|]; split; [done|]; intros (_ & _ & Hf & _); specialize (Hf cp eq_refl); zbool; lia|].
    all: destruct (ParseBigInt_string newStake <? 0) eqn:E5; [eexists; split; [done|]; split; [done|]; split; [done|]; zbool; lia|].
    all: destruct (ParseBigInt_string total <=? 0) eqn:E6; [eexists; split; [done|]; split; [done|]; split; [done|]; zbool; lia|].
    all: zbool; rewrite big_div_pos by done.
    all: pose proof (Z.mul_div_le (ParseBigInt_string newStake * 10000) (ParseBigInt_string total) ltac:(done)).
    all: pose proof (Z.mul_succ_div_gt (ParseBigInt_string newStake * 10000) (ParseBigInt_string total) ltac:(done)).
    all: destruct (_ / _ <? required_basis_points lim) eqn:E7; zbool; eexists; (split; [done|]); (split; [done|]).
    1,3: split; [done|]; intros (_ & _ & _ & _ & _ & Hq); nia.
    all: split; [intros _|done]; split_and!; try lia; try nia.
    all: intros f Hf; simplify_eq; lia. }
  destruct Hb as (r & Hr & Hh & Hiff). rewrite (locked_read fc body r Hmu Hh Hr). done.
Qed.

(** A finalised checkpoint survives a restart: what the database was given
    is what a new fork choice on that database loads. *)
Theorem checkpoint_survives_restart `{Json Checkpoint} `{!JsonLaws Checkpoint} cfg rd now epoch h fc db :
  fc_mu fc = unlocked -> database fc = Some db -> (8 <= String.length h)%nat ->
  exists fc' db' cp, UpdateFinalizedCheckpoint cfg rd true now epoch h fc = (Ok tt, fc') /\
    database fc' = Some db' /\ finalizedCheckpoint fc' = Some cp /\ cp_Epoch cp = epoch /\ cp_BlockHash cp = h /\
    exists fc2, snd (SetDatabase db' NewForkChoiceWithConfig) = fc2 /\
      fst (LoadFinalizedCheckpoint fc2) = Ok tt /\ finalizedCheckpoint (snd (LoadFinalizedCheckpoint fc2)) = Some cp.
Proof.
  intros Hmu Hdb Hlen. unfold UpdateFinalizedCheckpoint, locked, releasing, new_checkpoint, mbind, GoM_bind, mutex_op, get.
  rewrite Hmu. simpl.
  assert (Ht : exists t fc1, getTotalActiveStake (E:=fc_err) cfg rd now (set_mu (MkRW true 0) fc) = (Ok t, fc1) /\
    fc_mu fc1 = MkRW true 0 /\ database fc1 = Some db).
  { unfold getTotalActiveStake. case_match; eexists _, _; done. }
  destruct Ht as (t & fc1 & -> & Hmu1 & Hdb1). simpl. rewrite Hdb1. simpl. rewrite Hmu1. simpl.
  eexists _, _, _. split; [done|]. simpl. split_and!; try done.
  eexists. split; [done|]. unfold LoadFinalizedCheckpoint, locked, releasing, mbind, GoM_bind, mutex_op, get. simpl.
  rewrite lookup_insert_eq, Unmarshal_Marshal. simpl. rewrite (proj2 (Nat.ltb_ge _ _) Hlen). simpl. done.
Qed.

(** ** Examples *)

Module Demo.
(** Three validators with one unit of stake each, and no slashing manager. *)
Definition names : list string := ["alice"; "bob"; "carol"].
Definition one_unit : list byte := [x01].
Definition validator (v : string) : Validator :=
  MkValidator v [] "" "" "" one_unit [] [] ∅ 0 true 0 0 0 0 0.
Definition rd3 : WorldStateReader :=
  MkReader (fun v => if bool_decide (v ∈ names) then Some (validator v) else None) (validator <$> names) (fun _ => None).
Definition limits : ConsensusLimits := MkConsensusLimits 0 None 0 0.

#[local] Instance nil_manager : Slasher WorldStateReader := {|
  sl_err := unit;
  sl_reader r := r;
  sl_present _ := false;
  sl_ProcessAttestation _ _ := mret tt;
  sl_conflict _ := None;
  sl_ApplyDoubleVoteSlashing _ _ _ := mret tt;
  sl_IsValidatorActive _ _ := mret true
|}.
#[local] Instance nil_manager_laws : SlasherLaws WorldStateReader (fun _ => True).
Proof. by split. Qed.

#[local] Instance Checkpoint_eq_dec : EqDecision Checkpoint.
Proof. solve_decision. Defined.
#[local] Instance Checkpoint_countable : Countable Checkpoint.
Proof.
  refine (inj_countable' (fun c => (cp_Epoch c, cp_BlockHash c, cp_Timestamp c, cp_AttestingStake c, cp_TotalStake c))
    (fun '(e, h, t, a, s) => MkCheckpoint e h t a s) _). by intros [].
Defined.
#[local] Instance checkpoint_json : Json Checkpoint := text_codec.
#[local] Instance checkpoint_json_laws : JsonLaws Checkpoint := text_codec_laws.

Definition vote (v h : string) : Attestation := MkAttestation v h 1 7 224 [] 0.
Definition calls : list call := [CallAttest 1 (vote "alice" "block-one"); CallAttest 2 (vote "bob" "block-one");
  CallAttest 3 (vote "bob" "block-two"); CallAttest 4 (vote "carol" "block-two")].
Definition run (cs : list call) : ForkChoice := fst (run_calls DefaultForkChoiceConfig limits rd3 cs (NewForkChoiceWithConfig, rd3)).

Lemma rd3_ok : reader_ok rd3.
Proof.
  intros v val. simpl. case_bool_decide as Hv; [|done]. intros [= <-] _. split; [|done].
  change (validator v ∈ validator <$> names). by apply list_elem_of_fmap_2.
Defined.

Lemma one_quorum_per_epoch_witness :
  scored (run calls) "block-one" = 2 /\ scored (run calls) "block-two" = 1 /\
  ParseBigInt_string (String10 2) = stake_sum rd3 (voters (run calls) "block-one").
Proof.
  split; [by vm_compute|]. split; [by vm_compute|].
  apply (one_quorum_per_epoch (fun _ => True) DefaultForkChoiceConfig limits rd3 (fun _ => 7) rd3 calls "block-one" "block-two");
    [done|done|done|apply rd3_ok|by repeat constructor|by vm_compute].
Defined.

(** Two blocks after the genesis block, two votes for the second. *)
Definition header (prev : string) : BlockHeader := MkBlockHeader 1 prev 0 "" "" "" 0 0 0 0 [] "" [] [] 0.
Definition block (h prev : string) : Block := MkBlock (Some (header prev)) [] h [] [].
Definition tree : list call := [CallBlock (block "block-one" ""); CallBlock (block "block-two" "");
  CallAttest 1 (vote "alice" "block-two"); CallBlock (block "block-three" "block-two")].

Lemma tree_children : children (run tree) = <["block-two" := ["block-three"]]> {["" := ["block-one"; "block-two"]]}.
Proof.
  apply (bool_decide_eq_true (children (run tree) = <["block-two" := ["block-three"]]> {["" := ["block-one"; "block-two"]]})).
  vm_compute. reflexivity.
Qed.

Lemma tree_child b c : child_of (run tree) b c ->
  b = "" /\ (c = "block-one" \/ c = "block-two") \/ b = "block-two" /\ c = "block-three".
Proof.
  unfold child_of, kids. rewrite tree_children.
  destruct (decide (b = "block-two")) as [->|Hb]; [rewrite lookup_insert_eq; set_solver|].
  rewrite lookup_insert_ne by done. destruct (decide (b = "")) as [->|Hb']; [rewrite lookup_singleton_eq; set_solver|].
  rewrite lookup_singleton_ne by done. set_solver.
Qed.

Lemma tree_acyclic : acyclic (run tree).
Proof.
  assert (Hrank : exists rank : string -> nat, forall b c, child_of (run tree) b c -> (rank b < rank c)%nat).
  { exists (fun b => if bool_decide (b = "") then 0%nat else if bool_decide (b = "block-three") then 2%nat else 1%nat).
    intros b c [(-> & [->| ->])|(-> & ->)]%tree_child; simpl; lia. }
  destruct Hrank as [rank Hrank].
  assert (Hall : forall b c, tc (child_of (run tree)) b c -> (rank b < rank c)%nat).
  { induction 1 as [b c Hbc|b c d Hbc _ IH]; [by apply Hrank|]. specialize (Hrank _ _ Hbc). lia. }
  intros b Hb. specialize (Hall b b Hb). lia.
Qed.

Lemma head_is_heaviest_leaf_witness :
  exists h, GetHead rd3 (run tree) = (Ok h, run tree) /\ heaviest_path rd3 (run tree) "" h.
Proof.
  destruct (head_is_heaviest_leaf rd3 (run tree)) as (h & Hh & Hp & _); [by vm_compute|done|apply tree_acyclic| |].
  - intros b Hb. destruct (tree_child b "" Hb) as [(_ & [?|?])|[_ ?]]; done.
  - exists h. split; [done|]. exact Hp.
Defined.

Definition before_quorum : ForkChoice := run [CallAttest 1 (vote "alice" "block-one"); CallAttest 2 (vote "bob" "block-one")].

(** After alice and bob, carol's vote is the one that completes the quorum. *)
Lemma quorum_attestation_never_returns_witness :
  exists fc', ProcessAttestation DefaultForkChoiceConfig limits 60000000000 (vote "carol" "block-one") (before_quorum, rd3) =
    (Hang, (fc', rd3)) /\ justifiedCheckpoint fc' = None.
Proof.
  destruct (quorum_attestation_never_returns DefaultForkChoiceConfig limits 60000000000 (vote "carol" "block-one") before_quorum rd3
    (validator "carol")) as (fc' & Hj & _ & Hq); [by vm_compute..|].
  exists fc'. split; [apply Hq; by vm_compute|]. rewrite Hj. by vm_compute.
Defined.

Lemma reorganization_accepted_exactly_witness :
  fst (ValidateReorganization limits 3 7 "2" "3" (run [])) = Ok tt.
Proof.
  apply (reorganization_accepted_exactly limits 3 7 "2" "3" (run [])); [by vm_compute|].
  by vm_compute.
Defined.

Lemma checkpoint_survives_restart_witness :
  exists fc' db' cp, UpdateFinalizedCheckpoint DefaultForkChoiceConfig rd3 true 0 7 "block-one"
    (run [CallSetDatabase ∅]) = (Ok tt, fc') /\ database fc' = Some db' /\ cp_Epoch cp = 7 /\
    finalizedCheckpoint (snd (LoadFinalizedCheckpoint (snd (SetDatabase db' NewForkChoiceWithConfig)))) = Some cp.
Proof.
  destruct (checkpoint_survives_restart DefaultForkChoiceConfig rd3 0 7 "block-one" (run [CallSetDatabase ∅]) ∅)
    as (fc' & db' & cp & Hu & Hdb & _ & He & _ & fc2 & <- & _ & Hl); [by vm_compute|by vm_compute|simpl; lia|].
  by exists fc', db', cp.
Defined.

(** Pruning to two blocks filters the list it is iterating over: the second block
    is forgotten but still tracked, and the third is listed twice. *)
Definition two_blocks : ForkChoiceConfig := MkForkChoiceConfig 2 2 0 1000.
Example pruning_loses_a_block :
  let fc := fst (run_calls two_blocks limits rd3 [CallAttest 1 (vote "alice" "block-one");
    CallAttest 2 (vote "bob" "block-two"); CallAttest 3 (vote "carol" "block-three")] (NewForkChoiceWithConfig, rd3)) in
  epochBlockOrder fc !! 7 = Some ["block-three"; "block-three"] /\
  blockScores fc !! "block-two" = Some "1" /\ blockScores fc !! "block-one" = None.
Proof. by vm_compute. Qed.
End Demo.
