(* ===== verification/SlashStore.v ===== *)
(** * Slashing types and storage (src/types/consensus.go, src/storage/slashing.go)

    The records kept about offences and the persistent slashing data.  The store
    holds one map for each key prefix of the database; JSON is the identity on the
    values.  A write that the database refuses changes nothing, and the callers
    only log it: [db_writable] says which. *)

From S2P Require Import Prelude Uint256 Address Storage ForkChoice.
From stdpp Require Import base tactics numbers list gmap strings sorting.
From Stdlib Require Import ZArith Lia Strings.Byte Strings.Ascii.
Open Scope Z_scope.
Open Scope list_scope.

(** ** Offences *)

Inductive SlashingCondition : Type := DoubleVoting | SurroundVoting | InvalidProposal | Downtime | InvalidSignature.
#[global] Instance SlashingCondition_eq_dec : EqDecision SlashingCondition.
Proof. solve_decision. Defined.

Definition SlashingCondition_String (c : SlashingCondition) : string :=
  match c with
  | DoubleVoting => "DoubleVoting" | SurroundVoting => "SurroundVoting" | InvalidProposal => "InvalidProposal"
  | Downtime => "Downtime" | InvalidSignature => "InvalidSignature"
  end.

Record BlockProposal : Type := MkBlockProposal {
  bp_Block : option Block;
  bp_Proposer : string;
  bp_Slot : Z;
  bp_Epoch : Z;
  bp_Signature : list byte
}.

(** [types.SlashingEvidence]; the signature fields are never set. *)
Record OffenceEvidence : Type := MkOffence {
  FirstAttestation : option Attestation;
  SecondAttestation : option Attestation;
  SurroundingAttestation : option Attestation;
  SurroundedAttestation : option Attestation;
  InvalidBlock : option BlockProposal;
  MissedSlots : list Z
}.

Record SlashingRecord : Type := MkSlashingRecord {
  sr_ValidatorAddress : string;
  sr_Condition : SlashingCondition;
  sr_Epoch : Z;
  sr_Timestamp : Z;
  sr_Evidence : OffenceEvidence;
  sr_SlashedAmount : Z;
  sr_Reason : string
}.

(** [fmt.Sprintf("%v", bytes)] and the same of a pointer to an attestation. *)
Definition show_list (l : list Z) : string := "[" +:+ String.concat " " (String10 <$> l) +:+ "]".
Definition show_attestation (a : Attestation) : string :=
  "&{" +:+ String.concat " " [att_ValidatorAddress a; att_BlockHash a; String10 (att_BlockHeight a); String10 (att_Epoch a);
    String10 (att_Slot a); show_list (Z_of_byte <$> att_Signature a); String10 (att_Timestamp a)] +:+ "}".

Section OffenceHash.
(** A proposal prints the address of its block, which is not a function of it. *)
Context (Sha256 : string -> list byte) (show_proposal : BlockProposal -> string).

Definition OffenceEvidence_Hash (e : OffenceEvidence) : string :=
  let show {A} (f : A -> string) (o : option A) : string := match o with Some a => f a | None => "" end in
  EncodeToString (Sha256
    (show show_attestation (FirstAttestation e) +:+ show show_attestation (SecondAttestation e) +:+
     show show_attestation (SurroundingAttestation e) +:+ show show_attestation (SurroundedAttestation e) +:+
     show show_proposal (InvalidBlock e))).
End OffenceHash.

(** ** Validators and their attestations *)

Inductive ValidatorStatus : Type := ValidatorActive | ValidatorJailed | ValidatorSlashed | ValidatorExited.
#[global] Instance ValidatorStatus_eq_dec : EqDecision ValidatorStatus.
Proof. solve_decision. Defined.

Record JailedValidator : Type := MkJailed {
  jv_ValidatorAddress : string;
  jv_JailTime : Z;
  jv_ReleaseTime : Z;
  jv_Reason : SlashingCondition
}.

Record AttestationRecord : Type := MkAttestationRecord {
  ar_ValidatorAddress : string;
  ar_Epoch : Z;
  ar_Slot : Z;
  ar_BlockHash : string;
  ar_Signature : list byte;
  ar_Timestamp : Z;
  ar_SourceEpoch : Z;
  ar_TargetEpoch : Z
}.

Definition Conflicts (ar other : AttestationRecord) : bool :=
  (ar_Epoch ar =? ar_Epoch other) && (ar_Slot ar =? ar_Slot other) &&
  negb (bool_decide (ar_BlockHash ar = ar_BlockHash other)).

Definition IsSurroundedBy (ar other : AttestationRecord) : bool :=
  if (ar_SourceEpoch ar =? 0) && (ar_TargetEpoch ar =? 0) && (ar_SourceEpoch other =? 0) && (ar_TargetEpoch other =? 0) then false
  else if negb (bool_decide (ar_ValidatorAddress ar = ar_ValidatorAddress other)) then false
  else (ar_SourceEpoch other <? ar_SourceEpoch ar) && (ar_TargetEpoch ar <? ar_TargetEpoch other).

Record AttestationHistory : Type := MkHistory {
  ah_ValidatorAddress : string;
  ah_TotalSlots : Z;
  ah_MissedSlots : Z;
  ah_LastAttestation : option Z;
  ah_MissedSlotList : list Z
}.
Definition new_history (address : string) : AttestationHistory := MkHistory address 0 0 None [].

Definition RecordAttestation (now : Z) (ah : AttestationHistory) : AttestationHistory :=
  MkHistory (ah_ValidatorAddress ah) (u64 (ah_TotalSlots ah + 1)) (ah_MissedSlots ah) (Some now) (ah_MissedSlotList ah).

(** The last [n] elements. *)
Definition last_n {A} (n : nat) (l : list A) : list A := drop (length l - n) l.

Definition RecordMiss (slot : Z) (ah : AttestationHistory) : AttestationHistory :=
  MkHistory (ah_ValidatorAddress ah) (u64 (ah_TotalSlots ah + 1)) (u64 (ah_MissedSlots ah + 1)) (ah_LastAttestation ah)
    (last_n 1000 (ah_MissedSlotList ah ++ [slot])).

(** ** Configuration *)

Record SlashingConfig : Type := MkSlashingConfig {
  DoubleVotingPenalty : Z;
  SurroundVotingPenalty : Z;
  InvalidProposalPenalty : Z;
  SlashingDowntime : Z;
  InvalidSignaturePenalty : Z;
  MaxMissedAttestations : Z;
  AttestationWindow : Z;
  JailDurationHours : Z;
  MinimumStake : string;
  EvidenceRetentionDays : Z;
  ArchiveRetentionDays : Z;
  EnableAutoPruning : bool;
  PruneIntervalHours : Z
}.

Definition second : Z := 1000000000.
Definition hour : Z := 3600 * second.
Definition day : Z := 24 * hour.

Definition DefaultSlashingConfig : SlashingConfig :=
  MkSlashingConfig 50 30 20 5 10 100 (24 * hour) 168 "1000000000000000000000" 30 90 true 24.

(** ** The store *)

Record StoredEvidence : Type := MkStoredEvidence {
  se_Hash : string;
  se_ProcessedAt : Z;
  se_Type : string;
  se_Validator : string
}.

Record PruningStats : Type := MkPruningStats {
  LastPruneTime : option Z;
  TotalPruned : Z;
  TotalArchived : Z;
  LastPruneCount : Z;
  LastArchiveCount : Z
}.

Record SlashingStorage : Type := MkSlashingStorage {
  db_writable : bool;
  db_jail : gmap string JailedValidator;
  db_record : gmap string SlashingRecord;
  db_evidence : gmap string StoredEvidence;
  db_history : gmap string AttestationHistory;
  db_status : gmap string ValidatorStatus;
  db_archive : gmap string StoredEvidence;
  db_stats : option PruningStats;
  pruningStats : PruningStats
}.

Definition fresh_stats : PruningStats := MkPruningStats None 0 0 0 0.

(** The database a process finds, and the statistics it reads from it. *)
Definition NewSlashingStorage (ss : SlashingStorage) : SlashingStorage :=
  MkSlashingStorage (db_writable ss) (db_jail ss) (db_record ss) (db_evidence ss) (db_history ss) (db_status ss) (db_archive ss)
    (db_stats ss) (default fresh_stats (db_stats ss)).

Definition write (f : SlashingStorage -> SlashingStorage) (ss : SlashingStorage) : SlashingStorage :=
  if db_writable ss then f ss else ss.

Definition SaveJailedValidator (address : string) (jail : JailedValidator) : SlashingStorage -> SlashingStorage :=
  write (fun ss => MkSlashingStorage true (<[address := jail]> (db_jail ss)) (db_record ss) (db_evidence ss) (db_history ss)
    (db_status ss) (db_archive ss) (db_stats ss) (pruningStats ss)).
Definition GetJailedValidator (address : string) (ss : SlashingStorage) : option JailedValidator := db_jail ss !! address.
Definition DeleteJailedValidator (address : string) : SlashingStorage -> SlashingStorage :=
  write (fun ss => MkSlashingStorage true (delete address (db_jail ss)) (db_record ss) (db_evidence ss) (db_history ss)
    (db_status ss) (db_archive ss) (db_stats ss) (pruningStats ss)).

(** The address is taken from the stored value, not from the key. *)
Definition GetAllJailedValidators (ss : SlashingStorage) : gmap string JailedValidator :=
  map_fold (fun _ jail m => <[jv_ValidatorAddress jail := jail]> m) ∅ (db_jail ss).

(** The key holds the time in nanoseconds. *)
Definition record_key (address : string) (now : Z) : string := address +:+ ":" +:+ String10 now.
Definition SaveSlashingRecord (address : string) (record : SlashingRecord) : SlashingStorage -> SlashingStorage :=
  write (fun ss => MkSlashingStorage true (db_jail ss) (<[record_key address (sr_Timestamp record) := record]> (db_record ss))
    (db_evidence ss) (db_history ss) (db_status ss) (db_archive ss) (db_stats ss) (pruningStats ss)).

(** In key order, by prefix. *)
Definition GetSlashingRecords_db (address : string) (ss : SlashingStorage) : list SlashingRecord :=
  omap (fun k => db_record ss !! k)
    (merge_sort String.le (filter (fun k => String.prefix address k = true) (elements (dom (db_record ss))))).

Definition set_evidence (m : gmap string StoredEvidence) (ss : SlashingStorage) : SlashingStorage :=
  MkSlashingStorage (db_writable ss) (db_jail ss) (db_record ss) m (db_history ss) (db_status ss) (db_archive ss) (db_stats ss)
    (pruningStats ss).
Definition SaveProcessedEvidence (now : Z) (evidenceHash : string) : SlashingStorage -> SlashingStorage :=
  write (fun ss => set_evidence (<[evidenceHash := MkStoredEvidence evidenceHash now "" ""]> (db_evidence ss)) ss).
Definition SaveProcessedEvidenceWithMetadata (now : Z) (evidenceHash evidenceType validator : string)
    : SlashingStorage -> SlashingStorage :=
  write (fun ss => set_evidence (<[evidenceHash := MkStoredEvidence evidenceHash now evidenceType validator]> (db_evidence ss)) ss).
Definition IsEvidenceProcessed (evidenceHash : string) (ss : SlashingStorage) : bool :=
  bool_decide (is_Some (db_evidence ss !! evidenceHash)).
Definition GetAllProcessedEvidence (ss : SlashingStorage) : gset string := dom (db_evidence ss).
Definition GetEvidenceCount (ss : SlashingStorage) : Z := Z.of_nat (size (db_evidence ss)).

(** The statistics change even when the database refuses to store them. *)
Definition save_stats (p : PruningStats) (ss : SlashingStorage) : SlashingStorage :=
  MkSlashingStorage (db_writable ss) (db_jail ss) (db_record ss) (db_evidence ss) (db_history ss) (db_status ss) (db_archive ss)
    (if db_writable ss then Some p else db_stats ss) p.

(** [None]: the transaction failed. *)
Definition PruneOldEvidence (now olderThan : Z) (ss : SlashingStorage) : option Z * SlashingStorage :=
  if db_writable ss then
    let count := Z.of_nat (size (filter (fun kv => se_ProcessedAt (snd kv) < olderThan) (db_evidence ss))) in
    let p := pruningStats ss in
    (Some count, save_stats (MkPruningStats (Some now) (u64 (TotalPruned p + count)) (TotalArchived p) count (LastArchiveCount p))
      (set_evidence (filter (fun kv => olderThan <= se_ProcessedAt (snd kv)) (db_evidence ss)) ss))
  else (None, ss).

Definition ArchiveEvidence (evidenceHash : string) (evidence : StoredEvidence) : SlashingStorage -> SlashingStorage :=
  write (fun ss => MkSlashingStorage true (db_jail ss) (db_record ss) (delete evidenceHash (db_evidence ss)) (db_history ss)
    (db_status ss) (<[evidenceHash := evidence]> (db_archive ss)) (db_stats ss) (pruningStats ss)).
Definition GetArchivedEvidence (evidenceHash : string) (ss : SlashingStorage) : option StoredEvidence :=
  db_archive ss !! evidenceHash.

Definition PruneAndArchive (now archiveAge pruneAge : Z) (ss : SlashingStorage) : option (Z * Z) * SlashingStorage :=
  if db_writable ss then
    let toArchive := filter (fun kv => pruneAge <= se_ProcessedAt (snd kv) /\ se_ProcessedAt (snd kv) < archiveAge) (db_evidence ss) in
    let toDelete := filter (fun kv => se_ProcessedAt (snd kv) < pruneAge) (db_evidence ss) in
    let archived := Z.of_nat (size toArchive) in
    let pruned := Z.of_nat (size toDelete) in
    let p := pruningStats ss in
    (Some (archived, pruned),
     save_stats (MkPruningStats (Some now) (u64 (TotalPruned p + pruned)) (u64 (TotalArchived p + archived)) pruned archived)
       (MkSlashingStorage true (db_jail ss) (db_record ss)
         (filter (fun kv => pruneAge <= se_ProcessedAt (snd kv) /\ archiveAge <= se_ProcessedAt (snd kv)) (db_evidence ss))
         (db_history ss) (db_status ss) (toArchive ∪ db_archive ss) (db_stats ss) (pruningStats ss)))
  else (None, ss).

Definition SaveValidatorStatus (address : string) (status : ValidatorStatus) : SlashingStorage -> SlashingStorage :=
  write (fun ss => MkSlashingStorage true (db_jail ss) (db_record ss) (db_evidence ss) (db_history ss)
    (<[address := status]> (db_status ss)) (db_archive ss) (db_stats ss) (pruningStats ss)).
Definition GetValidatorStatus_db (address : string) (ss : SlashingStorage) : ValidatorStatus :=
  default ValidatorActive (db_status ss !! address).
Definition GetAllValidatorStatuses (ss : SlashingStorage) : gmap string ValidatorStatus := db_status ss.

Definition SaveAttestationHistory (address : string) (history : AttestationHistory) : SlashingStorage -> SlashingStorage :=
  write (fun ss => MkSlashingStorage true (db_jail ss) (db_record ss) (db_evidence ss) (<[address := history]> (db_history ss))
    (db_status ss) (db_archive ss) (db_stats ss) (pruningStats ss)).
Definition GetAttestationHistory (address : string) (ss : SlashingStorage) : AttestationHistory :=
  default (new_history address) (db_history ss !! address).

Record SlashingData : Type := MkSlashingData {
  JailedValidators : gmap string JailedValidator;
  ProcessedEvidence : gset string;
  ValidatorStatuses : gmap string ValidatorStatus
}.
Definition LoadAllSlashingData (ss : SlashingStorage) : SlashingData :=
  MkSlashingData (GetAllJailedValidators ss) (GetAllProcessedEvidence ss) (GetAllValidatorStatuses ss).
