(* ===== verification/Slashing.v ===== *)
(** * The slashing manager (src/consensus/pos/slashing_manager.go,
    slashing_security.go, slashing_evidence.go)

    What the manager remembers of each validator, the penalties, jail and
    ejection, and the pipeline that admits evidence from other nodes: rate limit,
    validation, duplicates, cooldown, confirmations.  The manager's mutex is part
    of its state; the helpers' own mutexes are taken and released inside one call
    and are left out.  A call reads the clock once, in nanoseconds.

    The world state is known through [WorldStateBalancer], an interface in the
    code and a class here.  [sm.forkChoice] is assigned nowhere in the program:
    it is nil, and the check it guards is not modelled. *)

From S2P Require Import Prelude SafeMath Uint256 Address Storage ShardedLock Governance Keys ForkChoice SlashStore.
From stdpp Require Import base tactics numbers list gmap strings.
From Stdlib Require Import ZArith Lia Strings.Byte Strings.Ascii.
Open Scope Z_scope.
Open Scope list_scope.

(** ** Evidence from other nodes *)

Inductive SlashingEvidenceType : Type :=
| EvidenceDoubleVoting | EvidenceSurroundVoting | EvidenceInvalidProposal
| EvidenceDowntime | EvidenceInvalidSignature | EvidenceMissedVRFReveal.
#[global] Instance SlashingEvidenceType_eq_dec : EqDecision SlashingEvidenceType.
Proof. solve_decision. Defined.
#[global] Instance SlashingEvidenceType_countable : Countable SlashingEvidenceType.
Proof.
  refine (inj_countable' (fun t => match t with EvidenceDoubleVoting => 0%nat | EvidenceSurroundVoting => 1%nat
      | EvidenceInvalidProposal => 2%nat | EvidenceDowntime => 3%nat | EvidenceInvalidSignature => 4%nat
      | EvidenceMissedVRFReveal => 5%nat end)
    (fun n => match n with 0%nat => EvidenceDoubleVoting | 1%nat => EvidenceSurroundVoting | 2%nat => EvidenceInvalidProposal
      | 3%nat => EvidenceDowntime | 4%nat => EvidenceInvalidSignature | _ => EvidenceMissedVRFReveal end) _). by intros [].
Defined.

Definition EvidenceType_String (t : SlashingEvidenceType) : string :=
  match t with
  | EvidenceDoubleVoting => "DoubleVoting" | EvidenceSurroundVoting => "SurroundVoting"
  | EvidenceInvalidProposal => "InvalidProposal" | EvidenceDowntime => "Downtime"
  | EvidenceInvalidSignature => "InvalidSignature" | EvidenceMissedVRFReveal => "Unknown"
  end.

(** The values the [interface{}] field may hold; [OtherData] is any other. *)
Inductive EvidenceData : Type :=
| DoubleVoteEvidence (attestation1 attestation2 : option Attestation)
| SurroundVoteEvidence (inner outer : option Attestation)
| InvalidProposalEvidence (proposal : option BlockProposal) (validationErrors : list string) (blockHash : string)
| DowntimeEvidence (missedAttestations : Z) (missedSlots : list Z) (startTime endTime : Z)
| InvalidSignatureEvidence (message signature publicKey : list byte) (context : string)
| OtherData (json : string).

Record SlashingEvidence : Type := MkEvidence {
  ev_ID : string;
  ev_Type : SlashingEvidenceType;
  ev_ValidatorAddress : string;
  ev_Evidence : option EvidenceData;
  ev_Timestamp : Z;
  ev_ReporterAddress : string;
  ev_ReporterSignature : list byte;
  ev_ProcessedAt : Z;
  ev_SlashingApplied : bool
}.

Definition EvidenceRetentionCritical : Z := 90 * day.
Definition EvidenceRetentionStandard : Z := 30 * day.
Definition EvidenceRetentionMinor : Z := 7 * day.
Definition MaxEvidenceAge : Z := 7 * day.

Definition set_ID (id : string) (se : SlashingEvidence) : SlashingEvidence :=
  MkEvidence id (ev_Type se) (ev_ValidatorAddress se) (ev_Evidence se) (ev_Timestamp se) (ev_ReporterAddress se)
    (ev_ReporterSignature se) (ev_ProcessedAt se) (ev_SlashingApplied se).
Definition MarkProcessed (now : Z) (se : SlashingEvidence) : SlashingEvidence :=
  MkEvidence (ev_ID se) (ev_Type se) (ev_ValidatorAddress se) (ev_Evidence se) (ev_Timestamp se) (ev_ReporterAddress se)
    (ev_ReporterSignature se) (Unix now) (ev_SlashingApplied se).
Definition MarkSlashed (now : Z) (se : SlashingEvidence) : SlashingEvidence :=
  MkEvidence (ev_ID se) (ev_Type se) (ev_ValidatorAddress se) (ev_Evidence se) (ev_Timestamp se) (ev_ReporterAddress se)
    (ev_ReporterSignature se) (if ev_ProcessedAt se =? 0 then Unix now else ev_ProcessedAt se) true.

Definition GetRetentionPeriod (se : SlashingEvidence) : Z :=
  match ev_Type se with
  | EvidenceDoubleVoting | EvidenceSurroundVoting => EvidenceRetentionCritical
  | EvidenceDowntime => EvidenceRetentionMinor
  | _ => EvidenceRetentionStandard
  end.
Definition CanBePruned (now : Z) (se : SlashingEvidence) : bool :=
  if ev_ProcessedAt se =? 0 then false
  else i64 (ev_ProcessedAt se + Unix (GetRetentionPeriod se)) <? Unix now.
Definition IsExpired (now : Z) (se : SlashingEvidence) : bool := MaxEvidenceAge <? now - ev_Timestamp se * second.

Inductive sl_error : Type :=
| InvalidEvidenceID | NoValidatorAddress | NilEvidence | ZeroTimestamp | FutureEvidence | StaleEvidence
| WrongEvidenceData | MissingAttestation | DifferentValidators | DifferentSlots | SameBlock
| UnknownValidator | BadSignature | MissingProposal | NoValidationErrors | NoMissedAttestations | MissingField
| UnknownEvidenceType
| ReporterBanned | HourlyLimit | DailyLimit | InvalidEvidence (e : sl_error) | AlreadyProcessed
| CooldownActive | WindowExpired | OwnSlashing | UnsupportedEvidence
| NilVote | ValidatorIsJailed | SurroundVotingError (inner outer : Vote) | DoubleSigningError (conflicting : AttestationRecord)
| NilAttestation | NotASurroundPair | AlreadySlashed | BalanceError | PenaltyError (e : math_err) | BalanceUpdateError
| ValidatorGetError.

Section Evidence.
Context {Pub Priv : Type} `{Secp256k1 Pub Priv} `{Json SlashingEvidence}.
Context (Sha256 : string -> list byte) (Keccak256 : list byte -> list byte) (registry : string -> option Validator).

(** [validator:slot:blockhash]: the epoch is not part of the message. *)
Definition hashAttestation (att : Attestation) : list byte :=
  Sha256 (att_ValidatorAddress att +:+ ":" +:+ String10 (att_Slot att) +:+ ":" +:+ att_BlockHash att).

Definition verifySignature (publicKeyBytes message signature : list byte) : outcome sl_error bool :=
  match NewPublicKeyFromBytes (Pub:=Pub) publicKeyBytes with
  | Ok publicKey =>
      match SignatureFromBytes signature with
      | Ok sig => match Pub_Verify Keccak256 publicKey message (Some sig) with
                  | Ok _ => Ok true | Err _ => Ok false | Panic => Panic | Hang => Hang end
      | Err _ => Ok false | Panic => Panic | Hang => Hang
      end
  | Err _ => Ok false | Panic => Panic | Hang => Hang
  end.

Definition evidence_height (se : SlashingEvidence) : Z :=
  match ev_Type se, ev_Evidence se with
  | EvidenceDoubleVoting, Some (DoubleVoteEvidence (Some a) _) => att_BlockHeight a
  | EvidenceSurroundVoting, Some (SurroundVoteEvidence (Some a) _) => att_BlockHeight a
  | EvidenceInvalidProposal, Some (InvalidProposalEvidence (Some p) _ _) => i64 (u64 (bp_Epoch p * 32))
  | EvidenceDowntime, Some (DowntimeEvidence _ _ _ endTime) => endTime
  | EvidenceDoubleVoting, _ | EvidenceSurroundVoting, _ | EvidenceInvalidProposal, _ | EvidenceDowntime, _ => 0
  | _, _ => ev_Timestamp se
  end.

(** [fmt.Sprintf("%s:%s:%d", ...)], hashed; the first 16 bytes in hexadecimal. *)
Definition generateID (se : SlashingEvidence) : string :=
  EncodeToString (take 16 (Sha256 (EvidenceType_String (ev_Type se) +:+ ":" +:+ ev_ValidatorAddress se +:+ ":" +:+
    String10 (evidence_height se)))).

Definition NewSlashingEvidence (now : Z) (evidenceType : SlashingEvidenceType) (validatorAddress : string)
    (evidence : option EvidenceData) (reporterAddress : string) : SlashingEvidence :=
  let se := MkEvidence "" evidenceType validatorAddress evidence (Unix now) reporterAddress [] 0 false in
  set_ID (generateID se) se.

Definition Evidence_Hash (se : SlashingEvidence) : string := EncodeToString (Sha256 (Marshal se)).

Definition signed_by (v : Validator) (att : Attestation) : outcome sl_error unit :=
  ok ← verifySignature (val_Pubkey v) (hashAttestation att) (att_Signature att);
  if ok : bool then Ok tt else Err BadSignature.

Definition validateDoubleVoteEvidence (se : SlashingEvidence) : outcome sl_error unit :=
  match ev_Evidence se with
  | Some (DoubleVoteEvidence a1 a2) =>
      match a1, a2 with
      | Some a1, Some a2 =>
          if negb (bool_decide (att_ValidatorAddress a1 = att_ValidatorAddress a2)) then Err DifferentValidators
          else if negb (att_Slot a1 =? att_Slot a2) then Err DifferentSlots
          else if bool_decide (att_BlockHash a1 = att_BlockHash a2) then Err SameBlock
          else match registry (att_ValidatorAddress a1) with
               | None => Err UnknownValidator
               | Some v => _ ← signed_by v a1; signed_by v a2
               end
      | _, _ => Err MissingAttestation
      end
  | _ => Err WrongEvidenceData
  end.

Definition validateSurroundVoteEvidence (se : SlashingEvidence) : outcome sl_error unit :=
  match ev_Evidence se with
  | Some (SurroundVoteEvidence inner outer) =>
      match inner, outer with
      | Some inner, Some outer =>
          if negb (bool_decide (att_ValidatorAddress inner = att_ValidatorAddress outer)) then Err DifferentValidators
          else match registry (att_ValidatorAddress inner) with
               | None => Err UnknownValidator
               | Some v => _ ← signed_by v inner; signed_by v outer
               end
      | _, _ => Err MissingAttestation
      end
  | _ => Err WrongEvidenceData
  end.

Definition validateInvalidProposalEvidence (se : SlashingEvidence) : outcome sl_error unit :=
  match ev_Evidence se with
  | Some (InvalidProposalEvidence None _ _) => Err MissingProposal
  | Some (InvalidProposalEvidence (Some _) errors _) => if (length errors =? 0)%nat then Err NoValidationErrors else Ok tt
  | _ => Err WrongEvidenceData
  end.

Definition validateDowntimeEvidence (se : SlashingEvidence) : outcome sl_error unit :=
  match ev_Evidence se with
  | Some (DowntimeEvidence missed slots _ _) =>
      if missed =? 0 then Err NoMissedAttestations else if (length slots =? 0)%nat then Err MissingField else Ok tt
  | _ => Err WrongEvidenceData
  end.

Definition validateInvalidSignatureEvidence (se : SlashingEvidence) : outcome sl_error unit :=
  match ev_Evidence se with
  | Some (InvalidSignatureEvidence message signature publicKey _) =>
      if (length message =? 0)%nat then Err MissingField else if (length signature =? 0)%nat then Err MissingField
      else if (length publicKey =? 0)%nat then Err MissingField else Ok tt
  | _ => Err WrongEvidenceData
  end.

Definition validateTypeSpecific (se : SlashingEvidence) : outcome sl_error unit :=
  match ev_Type se with
  | EvidenceDoubleVoting => validateDoubleVoteEvidence se
  | EvidenceSurroundVoting => validateSurroundVoteEvidence se
  | EvidenceInvalidProposal => validateInvalidProposalEvidence se
  | EvidenceDowntime => validateDowntimeEvidence se
  | EvidenceInvalidSignature => validateInvalidSignatureEvidence se
  | EvidenceMissedVRFReveal => Err UnknownEvidenceType
  end.

(** An empty ID is filled in: the evidence comes back. *)
Definition Validate (now : Z) (se : SlashingEvidence) : outcome sl_error unit * SlashingEvidence :=
  let se := if bool_decide (ev_ID se = "") then set_ID (generateID se) se else se in
  (if negb (bool_decide (ev_ID se = generateID se)) then Err InvalidEvidenceID
   else if bool_decide (ev_ValidatorAddress se = "") then Err NoValidatorAddress
   else if match ev_Evidence se with None => true | _ => false end then Err NilEvidence
   else if ev_Timestamp se =? 0 then Err ZeroTimestamp
   else if Unix now + 300 <? ev_Timestamp se then Err FutureEvidence
   else if ev_Timestamp se <? Unix now - Unix MaxEvidenceAge then Err StaleEvidence
   else validateTypeSpecific se, se).
End Evidence.
#[global] Arguments Validate : simpl never.

(** ** Spam protection *)

Record ReporterStats : Type := MkReporter {
  HourlyCount : Z;
  DailyCount : Z;
  RejectedCount : Z;
  HourReset : Z;
  DayReset : Z;
  BannedUntil : option Z
}.
Definition maxPerHour : Z := 10.
Definition maxPerDay : Z := 50.
Definition suspicionLevel : Z := 5.
Definition banDuration : Z := 24 * hour.

Definition limiter : Type := gmap string ReporterStats.

(** The windows that have run out start again. *)
Definition roll_windows (now : Z) (st : ReporterStats) : ReporterStats :=
  let st := if hour <=? now - HourReset st
            then MkReporter 0 (DailyCount st) (RejectedCount st) now (DayReset st) (BannedUntil st) else st in
  if 24 * hour <=? now - DayReset st
  then MkReporter (HourlyCount st) 0 (RejectedCount st) (HourReset st) now (BannedUntil st) else st.

Definition CheckReporter (now : Z) (reporterAddr : string) : GoM limiter sl_error unit := fun m =>
  let st := default (MkReporter 0 0 0 now now None) (m !! reporterAddr) in
  let keep st := <[reporterAddr := st]> m in
  if match BannedUntil st with Some t => now <? t | None => false end then (Err ReporterBanned, keep st)
  else
    let st := roll_windows now st in
    if maxPerHour <=? HourlyCount st then (Err HourlyLimit, keep st)
    else if maxPerDay <=? DailyCount st then (Err DailyLimit, keep st)
    else (Ok tt, keep (MkReporter (HourlyCount st + 1) (DailyCount st + 1) (RejectedCount st) (HourReset st) (DayReset st)
                         (BannedUntil st))).

Definition RecordRejection (now : Z) (reporterAddr : string) (m : limiter) : limiter :=
  match m !! reporterAddr with
  | None => m
  | Some st =>
      let rejected := RejectedCount st + 1 in
      <[reporterAddr := MkReporter (HourlyCount st) (DailyCount st) rejected (HourReset st) (DayReset st)
          (if suspicionLevel <=? rejected then Some (now + banDuration) else BannedUntil st)]> m
  end.

Definition RecordAcceptance (reporterAddr : string) (m : limiter) : limiter :=
  match m !! reporterAddr with
  | None => m
  | Some st => <[reporterAddr := MkReporter (HourlyCount st) (DailyCount st)
                   (if 0 <? RejectedCount st then RejectedCount st - 1 else RejectedCount st) (HourReset st) (DayReset st)
                   (BannedUntil st)]> m
  end.

#[global] Arguments CheckReporter : simpl never.

(** ** Confirmations *)

Record PendingEvidence : Type := MkPending {
  pe_Evidence : SlashingEvidence;
  Confirmers : gmap string Z;
  SubmittedAt : Z;
  ExpiresAt : Z
}.
Definition requiredConfirmations : Z := 3.
Definition windowDuration : Z := 600 * second.
Definition confirmations : Type := gmap string PendingEvidence.

Definition AddConfirmation (now : Z) (evidence : SlashingEvidence) (confirmerAddr : string) : GoM confirmations sl_error bool :=
  fun m =>
  let evidenceID := ev_ID evidence in
  let pending := default (MkPending evidence ∅ now (now + windowDuration)) (m !! evidenceID) in
  let m := <[evidenceID := pending]> m in
  if ExpiresAt pending <? now then (Err WindowExpired, delete evidenceID m)
  else if bool_decide (confirmerAddr = ev_ValidatorAddress evidence) then (Err OwnSlashing, m)
  else
    let confirmers := <[confirmerAddr := now]> (Confirmers pending) in
    if requiredConfirmations <=? Z.of_nat (size confirmers) then (Ok true, delete evidenceID m)
    else (Ok false, <[evidenceID := MkPending (pe_Evidence pending) confirmers (SubmittedAt pending) (ExpiresAt pending)]> m).

Definition CleanupExpired (now : Z) (m : confirmations) : Z * confirmations :=
  (Z.of_nat (size (filter (fun kv => ExpiresAt (snd kv) < now) m)), filter (fun kv => now <= ExpiresAt (snd kv)) m).
Definition GetPendingCount (m : confirmations) : Z := Z.of_nat (size m).

#[global] Arguments AddConfirmation : simpl never.

(** ** Cooldowns *)

Definition cooldowns : Type := gmap string (gmap SlashingEvidenceType Z).
Definition cooldown_of (t : SlashingEvidenceType) : Z :=
  match t with
  | EvidenceDoubleVoting | EvidenceSurroundVoting => 2 * hour
  | EvidenceInvalidProposal | EvidenceInvalidSignature => hour
  | EvidenceDowntime => 6 * hour
  | EvidenceMissedVRFReveal => 0
  end.
Definition CheckCooldown (now : Z) (validatorAddr : string) (evidenceType : SlashingEvidenceType) (m : cooldowns)
    : outcome sl_error unit :=
  match m !! validatorAddr ≫= (.!! evidenceType) with
  | None => Ok tt
  | Some lastTime => if now - lastTime <? cooldown_of evidenceType then Err CooldownActive else Ok tt
  end.
Definition RecordSlashing (now : Z) (validatorAddr : string) (evidenceType : SlashingEvidenceType) (m : cooldowns) : cooldowns :=
  <[validatorAddr := <[evidenceType := now]> (default ∅ (m !! validatorAddr))]> m.

(** ** Counters *)

Record SlashingMetrics : Type := MkMetrics {
  TotalSubmissions : Z;
  ValidSubmissions : Z;
  RejectedSpam : Z;
  RejectedInvalid : Z;
  CooldownBlocked : Z;
  PendingConfirmations : Z;
  SlashingsExecuted : Z
}.
Definition NewSlashingMetrics : SlashingMetrics := MkMetrics 0 0 0 0 0 0 0.
Definition RecordSubmission (m : SlashingMetrics) : SlashingMetrics :=
  MkMetrics (i64 (TotalSubmissions m + 1)) (ValidSubmissions m) (RejectedSpam m) (RejectedInvalid m) (CooldownBlocked m)
    (PendingConfirmations m) (SlashingsExecuted m).
Definition RecordValid (m : SlashingMetrics) : SlashingMetrics :=
  MkMetrics (TotalSubmissions m) (i64 (ValidSubmissions m + 1)) (RejectedSpam m) (RejectedInvalid m) (CooldownBlocked m)
    (PendingConfirmations m) (SlashingsExecuted m).
Definition RecordSpam (m : SlashingMetrics) : SlashingMetrics :=
  MkMetrics (TotalSubmissions m) (ValidSubmissions m) (i64 (RejectedSpam m + 1)) (RejectedInvalid m) (CooldownBlocked m)
    (PendingConfirmations m) (SlashingsExecuted m).
Definition RecordInvalid (m : SlashingMetrics) : SlashingMetrics :=
  MkMetrics (TotalSubmissions m) (ValidSubmissions m) (RejectedSpam m) (i64 (RejectedInvalid m + 1)) (CooldownBlocked m)
    (PendingConfirmations m) (SlashingsExecuted m).
Definition RecordCooldown (m : SlashingMetrics) : SlashingMetrics :=
  MkMetrics (TotalSubmissions m) (ValidSubmissions m) (RejectedSpam m) (RejectedInvalid m) (i64 (CooldownBlocked m + 1))
    (PendingConfirmations m) (SlashingsExecuted m).
Definition RecordPending (m : SlashingMetrics) : SlashingMetrics :=
  MkMetrics (TotalSubmissions m) (ValidSubmissions m) (RejectedSpam m) (RejectedInvalid m) (CooldownBlocked m)
    (i64 (PendingConfirmations m + 1)) (SlashingsExecuted m).
Definition RecordExecution (m : SlashingMetrics) : SlashingMetrics :=
  MkMetrics (TotalSubmissions m) (ValidSubmissions m) (RejectedSpam m) (RejectedInvalid m) (CooldownBlocked m)
    (PendingConfirmations m) (i64 (SlashingsExecuted m + 1)).

(** ** The manager *)

Class WorldStateBalancer (W : Type) : Type := {
  bal_err : Type;
  bal_GetBalance : string -> GoM W bal_err Z;
  bal_UpdateBalance : string -> Z -> GoM W bal_err unit;
  bal_GetHeight : W -> Z;
  bal_GetValidator : W -> string -> option Validator
}.

Record DowntimePolicy : Type := MkPolicy {
  WarningThreshold : Z;
  MinorSlashingStart : Z;
  MajorSlashingStart : Z;
  JailThreshold : Z;
  EjectionThreshold : Z;
  MinorPenalty : Z;
  MajorPenalty : Z;
  JailPenalty : Z
}.
Definition policy_of (config : SlashingConfig) : DowntimePolicy :=
  let maxMisses := if MaxMissedAttestations config =? 0 then 100 else MaxMissedAttestations config in
  MkPolicy (maxMisses / 20) (maxMisses / 10) (maxMisses / 5) (maxMisses / 2) maxMisses 1 3 (SlashingDowntime config).

Record SlashingManager {W : Type} : Type := MkManager {
  attestationsByValidator : gmap string (list AttestationRecord);
  votesByValidator : gmap string (list Vote);
  jailedValidators : gmap string JailedValidator;
  slashingRecords : gmap string (list SlashingRecord);
  attestationHistory : gmap string AttestationHistory;
  validatorStatus : gmap string ValidatorStatus;
  processedEvidence : gset string;
  rateLimiter : limiter;
  pending : confirmations;
  lastSlashed : cooldowns;
  sm_metrics : SlashingMetrics;
  sm_mu : RWMutex;
  sm_storage : option SlashingStorage;
  sm_world : W
}.
#[global] Arguments SlashingManager : clear implicits.

Section Setters.
Context {W : Type}.
Notation Sm := (SlashingManager W).

Definition set_attestationsBy m (s : Sm) : Sm := MkManager W m (votesByValidator s) (jailedValidators s) (slashingRecords s)
  (attestationHistory s) (validatorStatus s) (processedEvidence s) (rateLimiter s) (pending s) (lastSlashed s) (sm_metrics s) (sm_mu s)
  (sm_storage s) (sm_world s).
Definition set_votes m (s : Sm) : Sm := MkManager W (attestationsByValidator s) m (jailedValidators s) (slashingRecords s)
  (attestationHistory s) (validatorStatus s) (processedEvidence s) (rateLimiter s) (pending s) (lastSlashed s) (sm_metrics s) (sm_mu s)
  (sm_storage s) (sm_world s).
Definition set_jailed m (s : Sm) : Sm := MkManager W (attestationsByValidator s) (votesByValidator s) m (slashingRecords s)
  (attestationHistory s) (validatorStatus s) (processedEvidence s) (rateLimiter s) (pending s) (lastSlashed s) (sm_metrics s) (sm_mu s)
  (sm_storage s) (sm_world s).
Definition set_records m (s : Sm) : Sm := MkManager W (attestationsByValidator s) (votesByValidator s) (jailedValidators s) m
  (attestationHistory s) (validatorStatus s) (processedEvidence s) (rateLimiter s) (pending s) (lastSlashed s) (sm_metrics s) (sm_mu s)
  (sm_storage s) (sm_world s).
Definition set_history m (s : Sm) : Sm := MkManager W (attestationsByValidator s) (votesByValidator s) (jailedValidators s)
  (slashingRecords s) m (validatorStatus s) (processedEvidence s) (rateLimiter s) (pending s) (lastSlashed s) (sm_metrics s) (sm_mu s)
  (sm_storage s) (sm_world s).
Definition set_status m (s : Sm) : Sm := MkManager W (attestationsByValidator s) (votesByValidator s) (jailedValidators s)
  (slashingRecords s) (attestationHistory s) m (processedEvidence s) (rateLimiter s) (pending s) (lastSlashed s) (sm_metrics s)
  (sm_mu s) (sm_storage s) (sm_world s).
Definition set_processed m (s : Sm) : Sm := MkManager W (attestationsByValidator s) (votesByValidator s) (jailedValidators s)
  (slashingRecords s) (attestationHistory s) (validatorStatus s) m (rateLimiter s) (pending s) (lastSlashed s) (sm_metrics s)
  (sm_mu s) (sm_storage s) (sm_world s).
Definition set_limiter m (s : Sm) : Sm := MkManager W (attestationsByValidator s) (votesByValidator s) (jailedValidators s)
  (slashingRecords s) (attestationHistory s) (validatorStatus s) (processedEvidence s) m (pending s) (lastSlashed s) (sm_metrics s)
  (sm_mu s) (sm_storage s) (sm_world s).
Definition set_pending m (s : Sm) : Sm := MkManager W (attestationsByValidator s) (votesByValidator s) (jailedValidators s)
  (slashingRecords s) (attestationHistory s) (validatorStatus s) (processedEvidence s) (rateLimiter s) m (lastSlashed s)
  (sm_metrics s) (sm_mu s) (sm_storage s) (sm_world s).
Definition set_cooldowns m (s : Sm) : Sm := MkManager W (attestationsByValidator s) (votesByValidator s) (jailedValidators s)
  (slashingRecords s) (attestationHistory s) (validatorStatus s) (processedEvidence s) (rateLimiter s) (pending s) m
  (sm_metrics s) (sm_mu s) (sm_storage s) (sm_world s).
Definition map_metrics f (s : Sm) : Sm := MkManager W (attestationsByValidator s) (votesByValidator s) (jailedValidators s)
  (slashingRecords s) (attestationHistory s) (validatorStatus s) (processedEvidence s) (rateLimiter s) (pending s) (lastSlashed s)
  (f (sm_metrics s)) (sm_mu s) (sm_storage s) (sm_world s).
Definition set_sm_mu l (s : Sm) : Sm := MkManager W (attestationsByValidator s) (votesByValidator s) (jailedValidators s)
  (slashingRecords s) (attestationHistory s) (validatorStatus s) (processedEvidence s) (rateLimiter s) (pending s) (lastSlashed s)
  (sm_metrics s) l (sm_storage s) (sm_world s).
Definition on_storage f (s : Sm) : Sm := MkManager W (attestationsByValidator s) (votesByValidator s) (jailedValidators s)
  (slashingRecords s) (attestationHistory s) (validatorStatus s) (processedEvidence s) (rateLimiter s) (pending s) (lastSlashed s)
  (sm_metrics s) (sm_mu s) (f <$> sm_storage s) (sm_world s).
Definition set_sm_world w (s : Sm) : Sm := MkManager W (attestationsByValidator s) (votesByValidator s) (jailedValidators s)
  (slashingRecords s) (attestationHistory s) (validatorStatus s) (processedEvidence s) (rateLimiter s) (pending s) (lastSlashed s)
  (sm_metrics s) (sm_mu s) (sm_storage s) w.
End Setters.

Section Manager.
Context {Ws : Type} `{WorldStateBalancer Ws}.
Context (Sha256 : string -> list byte) (show_proposal : BlockProposal -> string) (config : SlashingConfig).
Notation Sm := (SlashingManager Ws).
Notation M := (GoM Sm sl_error).

Definition OffenceHash (e : OffenceEvidence) : string := OffenceEvidence_Hash Sha256 show_proposal e.

(** *** The mutex *)

Definition sm_mutex {E} (acquire : bool) (m : mode) : GoM Sm E unit := fun s =>
  match mutex_call acquire m (sm_mu s) with
  | Some (Ok l) => (Ok tt, set_sm_mu l s)
  | Some _ => (Panic, s)
  | None => (Hang, s)
  end.
Definition sm_releasing {E A} (m : mode) (body : GoM Sm E A) : GoM Sm E A := fun s =>
  let '(r, s1) := body s in
  match r with
  | Hang => (Hang, s1)
  | _ => match sm_mutex (E:=E) false m s1 with (Ok _, s2) => (r, s2) | (_, s2) => (Panic, s2) end
  end.
Definition sm_locked {E A} (m : mode) (body : GoM Sm E A) : GoM Sm E A := _ ← sm_mutex true m; sm_releasing m body.

(** *** The world state *)

Definition on_bal {A} (e : sl_error) (m : GoM Ws bal_err A) : M A := fun s =>
  let '(r, w) := m (sm_world s) in (wrap (fun _ => e) r, set_sm_world w s).
Definition GetBalance (address : string) : M Z := on_bal BalanceError (bal_GetBalance address).

Definition NewSlashingManager (storage : option SlashingStorage) (w : Ws) : Sm :=
  let fresh_manager := MkManager Ws ∅ ∅ ∅ ∅ ∅ ∅ ∅ ∅ ∅ ∅ NewSlashingMetrics unlocked storage w in
  match storage with
  | None => fresh_manager
  | Some ss =>
      let data := LoadAllSlashingData ss in
      set_status (ValidatorStatuses data) (set_processed (ProcessedEvidence data) (set_jailed (JailedValidators data) fresh_manager))
  end.

(** *** Jail *)

Definition save_status (address : string) (st : ValidatorStatus) (s : Sm) : Sm :=
  on_storage (SaveValidatorStatus address st) (set_status (<[address := st]> (validatorStatus s)) s).

Definition jailValidator (now : Z) (validatorAddress : string) (reason : SlashingCondition) (s : Sm) : Sm :=
  let jail := MkJailed validatorAddress now (now + i64 (JailDurationHours config * hour)) reason in
  let s := set_jailed (<[validatorAddress := jail]> (jailedValidators s)) s in
  let s := set_status (<[validatorAddress := ValidatorJailed]> (validatorStatus s)) s in
  on_storage (fun ss => SaveValidatorStatus validatorAddress ValidatorJailed (SaveJailedValidator validatorAddress jail ss)) s.

Definition isValidatorJailed (now : Z) (validatorAddress : string) : M bool := fun s =>
  match jailedValidators s !! validatorAddress with
  | None => (Ok false, s)
  | Some jailed =>
      if jv_ReleaseTime jailed <? now then
        let s := set_jailed (delete validatorAddress (jailedValidators s)) s in
        let s := set_status (<[validatorAddress := ValidatorActive]> (validatorStatus s)) s in
        (Ok false, on_storage (fun ss => SaveValidatorStatus validatorAddress ValidatorActive (DeleteJailedValidator validatorAddress ss)) s)
      else (Ok true, s)
  end.

Definition forceUnstake (validatorKey : string) (s : Sm) : Sm := save_status validatorKey ValidatorSlashed s.

(** *** Penalties *)

Definition append_record (address : string) (record : SlashingRecord) (s : Sm) : Sm :=
  set_records (<[address := default [] (slashingRecords s !! address) ++ [record]]> (slashingRecords s)) s.

Definition applySlashing (now : Z) (record : SlashingRecord) : M unit :=
  let v := sr_ValidatorAddress record in
  let h := OffenceHash (sr_Evidence record) in
  s ← get;
  _ ← refuse_if (bool_decide (h ∈ processedEvidence s)) AlreadyProcessed;
  _ ← modify (fun s => on_storage (SaveProcessedEvidenceWithMetadata now h (SlashingCondition_String (sr_Condition record)) v)
                         (set_processed ({[h]} ∪ processedEvidence s) s));
  currentBalance ← GetBalance v;
  let newBalance := Z.max 0 (currentBalance - sr_SlashedAmount record) in
  _ ← on_bal BalanceUpdateError (bal_UpdateBalance v newBalance);
  _ ← modify (fun s => match sr_Condition record with
                       | DoubleVoting | SurroundVoting => jailValidator now v (sr_Condition record) s
                       | _ => s
                       end);
  _ ← modify (fun s => if newBalance <? ParseBigInt_string (MinimumStake config) then save_status v ValidatorSlashed s else s);
  modify (fun s => on_storage (SaveSlashingRecord v record) (append_record v record s)).

(** The share of the balance that is taken, by the percentage of the offence. *)
Definition penalty (balance percent : Z) : M Z := lift (wrap PenaltyError (SafePercentageBig (Some balance) percent)).

(** [seen]: what is returned for evidence that has already been used. *)
Definition slash_with (now : Z) (v : string) (percent : Z) (condition : SlashingCondition) (epoch : Z) (evidence : OffenceEvidence)
    (reason : string) (seen : M unit) : M unit :=
  s ← get;
  if bool_decide (OffenceHash evidence ∈ processedEvidence s) then seen
  else
    balance ← GetBalance v;
    amount ← penalty balance percent;
    applySlashing now (MkSlashingRecord v condition epoch now evidence amount reason).

Definition epoch_attestation (now : Z) (v h : string) (epoch : Z) (signature : list byte) : Attestation :=
  MkAttestation v h (i64 (u64 (epoch * 32))) epoch (u64 (epoch * 32)) signature (Unix now).

(** The second attestation is rebuilt from its record, with a height and a slot
    derived from the epoch. *)
Definition slashDoubleVoting (now : Z) (att att2 : Attestation) : M unit :=
  let second := MkAttestation (att_ValidatorAddress att2) (att_BlockHash att2) (i64 (u64 (att_Epoch att2 * 32))) (att_Epoch att2)
                  (u64 (att_Epoch att2 * 32)) (att_Signature att2) (att_Timestamp att2) in
  slash_with now (att_ValidatorAddress att) (DoubleVotingPenalty config) DoubleVoting (att_Epoch att)
    (MkOffence (Some att) (Some second) None None None [])
    ("Double voting at epoch " +:+ String10 (att_Epoch att)) (throw AlreadySlashed).

Definition applyDoubleVoteSlashingLocked (now : Z) (att1 att2 : option Attestation) : M unit :=
  match att1, att2 with
  | Some att1, Some att2 =>
      if negb (bool_decide (att_ValidatorAddress att1 = att_ValidatorAddress att2)) then throw DifferentValidators
      else slashDoubleVoting now att1 att2
  | _, _ => throw NilAttestation
  end.
Definition ApplyDoubleVoteSlashing (now : Z) (att1 att2 : option Attestation) : M unit :=
  sm_locked W (applyDoubleVoteSlashingLocked now att1 att2).

Definition applySurroundVoteAttestationEvidenceLocked (now : Z) (inner outer : option Attestation) (reason : string) : M unit :=
  match inner, outer with
  | Some inner, Some outer =>
      if negb (bool_decide (att_ValidatorAddress inner = att_ValidatorAddress outer)) then throw DifferentValidators
      else slash_with now (att_ValidatorAddress inner) (SurroundVotingPenalty config) SurroundVoting (att_Epoch outer)
             (MkOffence None None (Some outer) (Some inner) None [])
             (if bool_decide (reason = "") then "Surround voting evidence submitted" else reason) (throw AlreadySlashed)
  | _, _ => throw NilAttestation
  end.

Definition vote_attestation (now : Z) (v : Vote) : Attestation :=
  epoch_attestation now (vote_ValidatorAddress v) (vote_TargetBlockHash v) (vote_TargetEpoch v) (vote_Signature v).
Definition ApplySurroundVoteSlashing (now : Z) (inner outer : option Vote) : M unit :=
  sm_locked W
    match inner, outer with
    | Some inner, Some outer =>
        if negb (bool_decide (vote_ValidatorAddress inner = vote_ValidatorAddress outer)) then throw DifferentValidators
        else if negb ((vote_SourceEpoch outer <? vote_SourceEpoch inner) && (vote_TargetEpoch inner <? vote_TargetEpoch outer))
             then throw NotASurroundPair
        else applySurroundVoteAttestationEvidenceLocked now (Some (vote_attestation now inner)) (Some (vote_attestation now outer))
               ("Surround voting: " +:+ String10 (vote_SourceEpoch outer) +:+ "<" +:+ String10 (vote_SourceEpoch inner) +:+ "<" +:+
                String10 (vote_TargetEpoch inner) +:+ "<" +:+ String10 (vote_TargetEpoch outer))
    | _, _ => throw NilVote
    end.

Definition no_evidence (slots : list Z) : OffenceEvidence := MkOffence None None None None None slots.

Definition ReportInvalidProposal (now : Z) (proposal : BlockProposal) (reason : string) : M unit :=
  sm_locked W
    (slash_with now (bp_Proposer proposal) (InvalidProposalPenalty config) InvalidProposal (bp_Epoch proposal)
       (MkOffence None None None None (Some proposal) []) ("Invalid proposal: " +:+ reason) (mret tt)).

(** A downtime penalty of the last 24 hours. *)
Definition recent_downtime (now : Z) (r : SlashingRecord) : bool :=
  bool_decide (sr_Condition r = Downtime) && (now - 24 * hour <? sr_Timestamp r).

Definition startup_grace (s : Sm) : bool := bal_GetHeight (sm_world s) <? 100.

Definition ReportBlockWithholding (now : Z) (validatorAddr : string) : M unit :=
  sm_locked W
    (s ← get;
     if startup_grace s then mret tt
     else
       jailed ← isValidatorJailed now validatorAddr;
       if jailed : bool then mret tt
       else
         s ← get;
         if existsb (recent_downtime now) (default [] (slashingRecords s !! validatorAddr)) then mret tt
         else
           balance ← GetBalance validatorAddr;
           amount ← penalty balance (JailPenalty (policy_of config));
           s ← get;
           if bool_decide (OffenceHash (no_evidence []) ∈ processedEvidence s) then mret tt
           else
             _ ← applySlashing now (MkSlashingRecord validatorAddr Downtime 0 now (no_evidence []) amount
                                     "Block Withholding: Exceeded consecutive missed proposal limit");
             modify (jailValidator now validatorAddr Downtime)).

(** Errors are logged or dropped. *)
Definition quietly (m : M unit) : M unit := fun s =>
  let '(r, s1) := m s in match r with Err _ => (Ok tt, s1) | _ => (r, s1) end.

Definition downtime_key (validatorKey reason : string) (missed : Z) : string :=
  validatorKey +:+ "-" +:+ reason +:+ "-" +:+ String10 missed.

Definition slashValidator (now : Z) (validatorKey : string) (percent : Z) (reason : string) (history : AttestationHistory) : M unit :=
  s ← get;
  if bool_decide (downtime_key validatorKey reason (ah_MissedSlots history) ∈ processedEvidence s) then mret tt
  else
    quietly
      (balance ← GetBalance validatorKey;
       amount ← penalty balance percent;
       _ ← applySlashing now (MkSlashingRecord validatorKey Downtime 0 now (no_evidence (ah_MissedSlotList history)) amount
                               (reason +:+ " (Missed: " +:+ String10 (ah_MissedSlots history) +:+ ")"));
       modify (fun s => set_processed ({[downtime_key validatorKey reason (ah_MissedSlots history)]} ∪ processedEvidence s) s)).

Definition ReportMissedAttestation (now : Z) (validatorKey : string) (slot : Z) : M unit :=
  sm_locked W
    (s ← get;
     let history := RecordMiss slot (default (new_history validatorKey) (attestationHistory s !! validatorKey)) in
     _ ← modify (fun s => set_history (<[validatorKey := history]> (attestationHistory s)) s);
     let policy := policy_of config in
     let missed := ah_MissedSlots history in
     if EjectionThreshold policy <=? missed then
       _ ← modify (forceUnstake validatorKey);
       slashValidator now validatorKey (JailPenalty policy) "extended_downtime_ejection" history
     else if JailThreshold policy <=? missed then
       jailed ← isValidatorJailed now validatorKey;
       if jailed : bool then mret tt
       else
         _ ← modify (jailValidator now validatorKey Downtime);
         slashValidator now validatorKey (JailPenalty policy) "extended_downtime_jail" history
     else if MajorSlashingStart policy <=? missed then slashValidator now validatorKey (MajorPenalty policy) "downtime_major" history
     else if MinorSlashingStart policy <=? missed then slashValidator now validatorKey (MinorPenalty policy) "downtime_minor" history
     else mret tt).

(** *** Attestations and votes *)

Definition recordAttestationForDowntime (now : Z) (validatorKey : string) (s : Sm) : Sm :=
  set_history (<[validatorKey := RecordAttestation now (default (new_history validatorKey) (attestationHistory s !! validatorKey))]>
                 (attestationHistory s)) s.

Definition record_of (now : Z) (att : Attestation) : AttestationRecord :=
  MkAttestationRecord (att_ValidatorAddress att) (att_Epoch att) (att_Slot att) (att_BlockHash att) (att_Signature att) now 0 0.

Definition sm_ProcessAttestation (now : Z) (att : Attestation) : M unit :=
  sm_locked W
    (s ← get;
     if AttestationWindow config <? now - att_Timestamp att * second then mret tt
     else if startup_grace s then mret tt
     else
       let v := att_ValidatorAddress att in
       jailed ← isValidatorJailed now v;
       _ ← refuse_if jailed ValidatorIsJailed;
       let record := record_of now att in
       s ← get;
       match find (fun prev => Conflicts record prev) (default [] (attestationsByValidator s !! v)) with
       | Some prev => throw (DoubleSigningError prev)
       | None =>
           _ ← modify (fun s => set_attestationsBy (<[v := default [] (attestationsByValidator s !! v) ++ [record]]>
                                                      (attestationsByValidator s)) s);
           _ ← modify (recordAttestationForDowntime now v);
           modify (fun s => set_attestationsBy (<[v := last_n 1000 (default [] (attestationsByValidator s !! v))]>
                                                  (attestationsByValidator s)) s)
       end).

Definition surrounds (outer inner : Vote) : bool :=
  (vote_SourceEpoch outer <? vote_SourceEpoch inner) && (vote_TargetEpoch inner <? vote_TargetEpoch outer).

Fixpoint find_surround (vote : Vote) (prevVotes : list Vote) : option sl_error :=
  match prevVotes with
  | [] => None
  | prev :: l => if surrounds vote prev then Some (SurroundVotingError prev vote)
                 else if surrounds prev vote then Some (SurroundVotingError vote prev)
                 else find_surround vote l
  end.

Definition ProcessVote (now : Z) (vote : option Vote) : M unit :=
  sm_locked W
    match vote with
    | None => throw NilVote
    | Some vote =>
        s ← get;
        if startup_grace s then mret tt
        else
          let v := vote_ValidatorAddress vote in
          jailed ← isValidatorJailed now v;
          _ ← refuse_if jailed ValidatorIsJailed;
          s ← get;
          match find_surround vote (default [] (votesByValidator s !! v)) with
          | Some e => throw e
          | None => modify (fun s => set_votes (<[v := last_n 1000 (default [] (votesByValidator s !! v) ++ [vote])]> (votesByValidator s)) s)
          end
    end.

Definition ProcessBlockProposal (now : Z) (proposal : BlockProposal) : M unit :=
  sm_locked W (jailed ← isValidatorJailed now (bp_Proposer proposal); refuse_if jailed ValidatorIsJailed).

(** The manager's mutex is not taken, although the jail may change. *)
Definition IsValidatorActive (now : Z) (validatorKey : string) : M bool :=
  jailed ← isValidatorJailed now validatorKey;
  if jailed : bool then mret false
  else
    s ← get;
    if negb (bool_decide (default ValidatorActive (validatorStatus s !! validatorKey) = ValidatorActive)) then mret false
    else if 0 <? ParseBigInt_string (MinimumStake config) then
      fun s => let '(r, s1) := GetBalance validatorKey s in
        match r with Panic => (Panic, s1) | Hang => (Hang, s1) | _ => (Ok true, s1) end
    else mret true.

(** *** Evidence *)

Section Pipeline.
Context {Pub Priv : Type} `{Secp256k1 Pub Priv} `{Json SlashingEvidence} (Keccak256 : list byte -> list byte).

Definition validators_of (s : Sm) : string -> option Validator := bal_GetValidator (sm_world s).

Definition on_limiter (m : GoM limiter sl_error unit) : M unit := fun s =>
  let '(r, l) := m (rateLimiter s) in (r, set_limiter l s).
Definition on_pending {A} (m : GoM confirmations sl_error A) : M A := fun s =>
  let '(r, l) := m (pending s) in (r, set_pending l s).

Definition ValidateEvidence (now : Z) (evidence : SlashingEvidence) (s : Sm) : outcome sl_error unit :=
  fst (Validate (Pub:=Pub) Sha256 Keccak256 (validators_of s) now evidence).

(** Layers 1 to 5: [None] means that the call ends without an error. *)
Definition admit_evidence (now : Z) (evidence : SlashingEvidence) : M (option (SlashingEvidence * string)) :=
  _ ← modify (map_metrics RecordSubmission);
  _ ← (fun s => match on_limiter (CheckReporter now (ev_ReporterAddress evidence)) s with
                | (Err e, s1) => (Err e, map_metrics RecordSpam s1)
                | other => other
                end);
  s ← get;
  let '(verdict, evidence) := Validate (Pub:=Pub) Sha256 Keccak256 (validators_of s) now evidence in
  _ ← (fun s => match verdict with
                | Err e => (Err (InvalidEvidence e), map_metrics RecordInvalid
                             (set_limiter (RecordRejection now (ev_ReporterAddress evidence) (rateLimiter s)) s))
                | _ => (verdict, s)
                end);
  let h := Evidence_Hash Sha256 evidence in
  _ ← refuse_if (bool_decide (h ∈ processedEvidence s)) AlreadyProcessed;
  _ ← (fun s => match CheckCooldown now (ev_ValidatorAddress evidence) (ev_Type evidence) (lastSlashed s) with
                | Err e => (Err e, map_metrics RecordCooldown s)
                | other => (other, s)
                end);
  ready ← on_pending (AddConfirmation now evidence (ev_ReporterAddress evidence));
  if ready : bool then mret (Some (evidence, h))
  else _ ← modify (map_metrics RecordPending); mret None.

(** Layers 6 to 9. *)
Definition execute_evidence (now : Z) (evidence : SlashingEvidence) (h : string) : M unit :=
  let v := ev_ValidatorAddress evidence in
  _ ← modify (fun s => on_storage (SaveProcessedEvidenceWithMetadata now h (EvidenceType_String (ev_Type evidence)) v)
                         (set_processed ({[h]} ∪ processedEvidence s) s));
  _ ← modify (fun s => map_metrics RecordValid (set_limiter (RecordAcceptance (ev_ReporterAddress evidence) (rateLimiter s)) s));
  _ ← match ev_Type evidence, ev_Evidence evidence with
      | EvidenceDoubleVoting, Some (DoubleVoteEvidence a1 a2) => applyDoubleVoteSlashingLocked now a1 a2
      | EvidenceSurroundVoting, Some (SurroundVoteEvidence inner outer) =>
          applySurroundVoteAttestationEvidenceLocked now inner outer "validated surround-vote evidence"
      | EvidenceInvalidProposal, Some (InvalidProposalEvidence (Some proposal) _ _) =>
          fun s =>
          match ReportInvalidProposal now (MkBlockProposal None v 0 (bp_Epoch proposal) []) "evidence submitted" s with
          | (Panic, s1) => (Panic, s1)
          | (Hang, s1) => (Hang, s1)
          | (_, s1) =>
              match validators_of s1 v with
              | None => (Err ValidatorGetError, s1)
              | Some val =>
                  applySlashing now (MkSlashingRecord v InvalidProposal 0 now (no_evidence [])
                    (big_div (ParseBigInt_bytes (val_Stake val) * 5) 100) "") s1
              end
          end
      | EvidenceInvalidProposal, Some (InvalidProposalEvidence None _ _) => panic
      | EvidenceDoubleVoting, _ | EvidenceSurroundVoting, _ | EvidenceInvalidProposal, _ => throw WrongEvidenceData
      | _, _ => throw UnsupportedEvidence
      end;
  modify (fun s => map_metrics RecordExecution (set_cooldowns (RecordSlashing now v (ev_Type evidence) (lastSlashed s)) s)).

Definition ProcessEvidence (now : Z) (evidence : SlashingEvidence) : M unit :=
  sm_locked W
    (s ← get;
     if startup_grace s then mret tt
     else
       admitted ← admit_evidence now evidence;
       match admitted with
       | Some (evidence, h) => execute_evidence now evidence h
       | None => mret tt
       end).
End Pipeline.

(** *** Queries and maintenance *)

Definition GetSlashingRecords (validatorKey : string) : M (list SlashingRecord) :=
  sm_locked R (s ← get; mret (default [] (slashingRecords s !! validatorKey))).
Definition GetValidatorStatus (validatorKey : string) : M ValidatorStatus :=
  sm_locked R (s ← get; mret (default ValidatorActive (validatorStatus s !! validatorKey))).
Definition GetJailedValidators : M (gset string) := sm_locked R (s ← get; mret (dom (jailedValidators s))).

Definition cleanup_confirmations (now : Z) (s : Sm) : Sm := set_pending (snd (CleanupExpired now (pending s))) s.
Definition pruneOldEvidence (now : Z) (s : Sm) : Sm :=
  on_storage (fun ss => snd (PruneAndArchive now (now - EvidenceRetentionDays config * day) (now - ArchiveRetentionDays config * day) ss)) s.

(** The store and the validator's status are left alone. *)
Definition ClearJailStatus (address : string) : M unit :=
  sm_locked W
    (modify (fun s =>
       let s := set_jailed (delete address (jailedValidators s)) s in
       let s := set_records (delete address (slashingRecords s)) s in
       let s := set_history (delete address (attestationHistory s)) s in
       set_attestationsBy (delete address (attestationsByValidator s)) s)).
End Manager.
