(* ===== verification/SlashingSpec.v ===== *)
(** * Correctness of the slashing manager

    Invariants of any sequence of calls: a piece of evidence is used for one
    penalty at most, the attestations kept for a validator never conflict and its
    votes never surround each other.  Then, against the contract of the world
    state ([BalancerLaws]), what a penalty does; how many reporters it takes; and
    the contract the manager gives the fork choice ([SlasherLaws]). *)

From S2P Require Import Prelude SafeMath Uint256 Address Storage ShardedLock Governance Keys ForkChoice SlashStore Slashing.
From stdpp Require Import base tactics numbers list gmap strings.
From Stdlib Require Import ZArith Lia Strings.Byte Strings.Ascii.
Open Scope Z_scope.
Open Scope list_scope.

(** A call that leads from states with [P] to states with [Q], whatever its outcome. *)
Definition leads {S E A} (P Q : S -> Prop) (m : GoM S E A) : Prop := forall s, P s -> Q (snd (m s)).

Lemma leads_bind {S E A B} (P Q : S -> Prop) (m : GoM S E A) (f : A -> GoM S E B) :
  preserves P m -> (forall a, leads P Q (f a)) -> (forall s, P s -> Q s) -> leads P Q (m ≫= f).
Proof.
  intros Hm Hf Hpq s Hs. specialize (Hm s Hs). unfold mbind, GoM_bind.
  destruct (m s) as [[a|e| |] s']; simpl in *; [by apply Hf|by apply Hpq..].
Qed.

(** ** Invariants *)

Section Inv.
Context {Ws : Type} `{WorldStateBalancer Ws}.
Context (Sha256 : string -> list byte) (show_proposal : BlockProposal -> string) (config : SlashingConfig).
Notation Sm := (SlashingManager Ws).
Notation hash := (OffenceHash Sha256 show_proposal).

Definition records_of (s : Sm) (v : string) : list SlashingRecord := default [] (slashingRecords s !! v).
Definition atts_of (s : Sm) (v : string) : list AttestationRecord := default [] (attestationsByValidator s !! v).
Definition votes_of (s : Sm) (v : string) : list Vote := default [] (votesByValidator s !! v).

Record sm_inv (s : Sm) : Prop := MkSmInv {
  inv_used : forall v r, r ∈ records_of s v -> hash (sr_Evidence r) ∈ processedEvidence s;
  inv_once : forall v1 v2 i j r1 r2, records_of s v1 !! i = Some r1 -> records_of s v2 !! j = Some r2 ->
    hash (sr_Evidence r1) = hash (sr_Evidence r2) -> v1 = v2 /\ i = j;
  inv_atts : forall v a b, a ∈ atts_of s v -> b ∈ atts_of s v -> Conflicts a b = false;
  inv_votes : forall v a b, a ∈ votes_of s v -> b ∈ votes_of s v -> surrounds a b = false
}.

(** What a step that concerns something else leaves. *)
Definition aside (s s' : Sm) : Prop :=
  slashingRecords s' = slashingRecords s /\ attestationsByValidator s' = attestationsByValidator s /\
  votesByValidator s' = votesByValidator s /\ processedEvidence s ⊆ processedEvidence s'.

Lemma inv_aside s s' : aside s s' -> sm_inv s -> sm_inv s'.
Proof.
  intros (Hr & Ha & Hv & Hp) [? ? ? ?]. split; unfold records_of, atts_of, votes_of in *; rewrite ?Hr, ?Ha, ?Hv; eauto.
Qed.

Lemma inv_modify {E} f : (forall s, aside s (f s)) -> preserves sm_inv (modify f : GoM Sm E unit).
Proof. intros Hf. apply preserves_modify. intros s. by apply inv_aside. Qed.

Lemma sm_mutex_inv {E} acquire m : preserves sm_inv (sm_mutex (E:=E) acquire m).
Proof.
  intros s Hs. unfold sm_mutex. destruct (mutex_call acquire m (sm_mu s)) as [[l|e| |]|]; simpl; [|done..].
  by apply (inv_aside s).
Qed.

Lemma sm_locked_inv {E A} m (body : GoM Sm E A) : preserves sm_inv body -> preserves sm_inv (sm_locked m body).
Proof.
  intros Hb. unfold sm_locked. apply preserves_bind; [apply sm_mutex_inv|]. intros _ s Hs. unfold sm_releasing.
  specialize (Hb s Hs). destruct (body s) as [r s1]. simpl in Hb.
  pose proof (sm_mutex_inv (E:=E) false m s1 Hb) as Hm.
  destruct r; [..|done]; destruct (sm_mutex false m s1) as [[|e'| |] s2]; done.
Qed.

Lemma jailValidator_aside now v reason s : aside s (jailValidator config now v reason s).
Proof. done. Qed.
Lemma save_status_aside v st (s : Sm) : aside s (save_status v st s).
Proof. done. Qed.
Lemma isValidatorJailed_aside now v (s : Sm) : aside s (snd (isValidatorJailed now v s)).
Proof. unfold isValidatorJailed. by repeat case_match. Qed.

Lemma isValidatorJailed_inv now v : preserves sm_inv (isValidatorJailed now v).
Proof. intros s. apply inv_aside, isValidatorJailed_aside. Qed.

Lemma on_bal_inv {A} e (m : GoM Ws bal_err A) : preserves sm_inv (on_bal e m).
Proof. intros s. unfold on_bal. destruct (m (sm_world s)). by apply inv_aside. Qed.

(** While a penalty is applied: its evidence is marked and in no record yet. *)
Definition marked (h : string) (s : Sm) : Prop :=
  sm_inv s /\ h ∈ processedEvidence s /\ forall v r, r ∈ records_of s v -> hash (sr_Evidence r) <> h.

Lemma marked_aside h s s' : aside s s' -> marked h s -> marked h s'.
Proof.
  intros Ha (Hi & Hh & Hr). split; [by apply (inv_aside s)|]. destruct Ha as (Er & _ & _ & Hp).
  split; [set_solver|]. unfold records_of in *. by rewrite Er.
Qed.

Lemma marked_append v record s : marked (hash (sr_Evidence record)) s -> sm_inv (append_record v record s).
Proof.
  intros ([i1 i2 i3 i4] & Hh & Hr).
  assert (Hl : forall w, records_of (append_record v record s) w =
            if decide (w = v) then records_of s v ++ [record] else records_of s w).
  { intros w. unfold records_of, append_record. simpl. case_decide as Hw; [subst w; by rewrite lookup_insert_eq|].
    by rewrite lookup_insert_ne. }
  assert (Hnew : forall w i r, records_of (append_record v record s) w !! i = Some r ->
            records_of s w !! i = Some r \/ w = v /\ i = length (records_of s v) /\ r = record).
  { intros w i r. rewrite Hl. case_decide as Hw; [subst w|auto].
    rewrite lookup_app_Some. intros [?|[Hle Hin]]; [auto|]. right.
    apply list_lookup_singleton_Some in Hin as [Hi <-]. split_and!; [done|lia|done]. }
  split; [| |done..].
  - intros w r [i Hi]%list_elem_of_lookup. destruct (Hnew w i r Hi) as [Hold|(-> & _ & ->)]; [|done].
    apply (i1 w). by apply list_elem_of_lookup_2 in Hold.
  - intros v1 v2 i j r1 r2 H1%Hnew H2%Hnew Heq.
    destruct H1 as [H1|(-> & -> & ->)]; destruct H2 as [H2|(-> & -> & ->)]; [by eapply i2| | |done].
    + exfalso. eapply (Hr v1); [by eapply list_elem_of_lookup_2|done].
    + exfalso. eapply (Hr v2); [by eapply list_elem_of_lookup_2|done].
Qed.

Lemma applySlashing_inv now record : preserves sm_inv (applySlashing Sha256 show_proposal config now record).
Proof.
  intros s Hs. unfold applySlashing. set (h := hash (sr_Evidence record)).
  unfold mbind at 1, GoM_bind at 1, get. simpl. unfold mbind at 1, GoM_bind at 1, refuse_if.
  case_bool_decide as Hn; simpl; [done|]. unfold mbind at 1, GoM_bind at 1, modify at 1. simpl.
  match goal with |- sm_inv (snd (?m ?x)) => set (s1 := x); enough (Hl : leads (marked h) sm_inv m) end.
  { apply Hl. split; [apply (inv_aside s); [split_and!; try done; simpl; set_solver|done]|]. split; [simpl; set_solver|].
    intros v r Hr Heq. apply Hn. rewrite <-Heq. eapply (inv_used s); done. }
  assert (Hq : forall s, marked h s -> sm_inv s) by (by intros ? []).
  assert (Hb : forall A e (m : GoM Ws bal_err A), preserves (marked h) (on_bal e m)).
  { intros A e m s0. unfold on_bal. destruct (m (sm_world s0)). by apply marked_aside. }
  assert (Hm : forall f, (forall s, aside s (f s)) -> preserves (marked h) (modify f : GoM Sm sl_error unit)).
  { intros f Hf. apply preserves_modify. intros s0. by apply marked_aside. }
  apply leads_bind; [apply Hb| |done]. intros b.
  apply leads_bind; [apply Hb| |done]. intros _.
  apply leads_bind; [apply Hm; intros s0; by destruct (sr_Condition record)| |done]. intros _.
  apply leads_bind; [apply Hm; intros s0; by case_match| |done]. intros _ s0 Hs0.
  apply (inv_aside (append_record (sr_ValidatorAddress record) record s0)); [done|]. by apply marked_append.
Qed.

Lemma slash_with_inv now v p c e ev reason seen :
  preserves sm_inv seen -> preserves sm_inv (slash_with Sha256 show_proposal config now v p c e ev reason seen).
Proof.
  intros Hseen. apply preserves_bind; [apply preserves_get|]. intros s. case_match; [done|].
  apply preserves_bind; [apply on_bal_inv|]. intros b. apply preserves_bind; [apply preserves_lift|].
  intros a. apply applySlashing_inv.
Qed.

Lemma double_inv now a b : preserves sm_inv (applyDoubleVoteSlashingLocked Sha256 show_proposal config now a b).
Proof.
  unfold applyDoubleVoteSlashingLocked. repeat case_match; try apply preserves_throw.
  apply slash_with_inv, preserves_throw.
Qed.

Lemma surround_inv now a b reason :
  preserves sm_inv (applySurroundVoteAttestationEvidenceLocked Sha256 show_proposal config now a b reason).
Proof.
  unfold applySurroundVoteAttestationEvidenceLocked. destruct a, b; try apply preserves_throw.
  destruct (negb _); [apply preserves_throw|]. apply slash_with_inv, preserves_throw.
Qed.

Lemma invalid_inv now p reason : preserves sm_inv (ReportInvalidProposal Sha256 show_proposal config now p reason).
Proof. apply sm_locked_inv, slash_with_inv, preserves_ret. Qed.

Lemma quietly_inv (m : GoM Sm sl_error unit) : preserves sm_inv m -> preserves sm_inv (quietly m).
Proof. intros Hm s Hs. unfold quietly. specialize (Hm s Hs). by destruct (m s) as [[]]. Qed.

Lemma slashValidator_inv now v p reason h : preserves sm_inv (slashValidator Sha256 show_proposal config now v p reason h).
Proof.
  apply preserves_bind; [apply preserves_get|]. intros s. case_match; [apply preserves_ret|]. apply quietly_inv.
  apply preserves_bind; [apply on_bal_inv|]. intros b. apply preserves_bind; [apply preserves_lift|]. intros a.
  apply preserves_bind; [apply applySlashing_inv|]. intros _. apply inv_modify. intros s0. split_and!; try done. simpl. set_solver.
Qed.

Lemma missed_inv now v slot : preserves sm_inv (ReportMissedAttestation Sha256 show_proposal config now v slot).
Proof.
  apply sm_locked_inv. apply preserves_bind; [apply preserves_get|]. intros s. cbv zeta. generalize (policy_of config). intros policy.
  apply preserves_bind; [by apply inv_modify|]. intros _.
  destruct (EjectionThreshold policy <=? _).
  { apply preserves_bind; [by apply inv_modify|]. intros _. apply slashValidator_inv. }
  destruct (JailThreshold policy <=? _).
  { apply preserves_bind; [apply isValidatorJailed_inv|]. intros []; [apply preserves_ret|].
    apply preserves_bind; [by apply inv_modify|]. intros _. apply slashValidator_inv. }
  destruct (MajorSlashingStart policy <=? _); [apply slashValidator_inv|].
  destruct (MinorSlashingStart policy <=? _); [apply slashValidator_inv|apply preserves_ret].
Qed.

Lemma withholding_inv now v : preserves sm_inv (ReportBlockWithholding Sha256 show_proposal config now v).
Proof.
  apply sm_locked_inv. apply preserves_bind; [apply preserves_get|]. intros s. case_match; [apply preserves_ret|].
  apply preserves_bind; [apply isValidatorJailed_inv|]. intros []; [apply preserves_ret|].
  apply preserves_bind; [apply preserves_get|]. intros s1. case_match; [apply preserves_ret|].
  apply preserves_bind; [apply on_bal_inv|]. intros b. apply preserves_bind; [apply preserves_lift|]. intros a.
  apply preserves_bind; [apply preserves_get|]. intros s2. case_match; [apply preserves_ret|].
  apply preserves_bind; [apply applySlashing_inv|]. intros _. by apply inv_modify.
Qed.

Lemma IsValidatorActive_inv now v : preserves sm_inv (IsValidatorActive config now v).
Proof.
  apply preserves_bind; [apply isValidatorJailed_inv|]. intros []; [apply preserves_ret|].
  apply preserves_bind; [apply preserves_get|]. intros s. repeat case_match; try apply preserves_ret.
  intros s0 Hs0. pose proof (on_bal_inv BalanceError (bal_GetBalance v) s0 Hs0) as Hb. unfold GetBalance.
  destruct (on_bal BalanceError (bal_GetBalance v) s0) as [[b|e| |] s1]; done.
Qed.

(** *** Attestations and votes *)

Lemma last_n_elem {A} n (l : list A) x : x ∈ last_n n l -> x ∈ l.
Proof. unfold last_n. intros Hx. rewrite <-(take_drop (length l - n) l). set_solver. Qed.

Lemma Conflicts_sym a b : Conflicts a b = Conflicts b a.
Proof.
  unfold Conflicts. rewrite (Z.eqb_sym (ar_Epoch a)), (Z.eqb_sym (ar_Slot a)). do 2 f_equal.
  apply bool_decide_ext. split; congruence.
Qed.
Lemma Conflicts_refl a : Conflicts a a = false.
Proof. unfold Conflicts. rewrite bool_decide_eq_true_2 by done. simpl. apply andb_false_r. Qed.

Lemma find_none {A} (f : A -> bool) l : find f l = None -> forall x, x ∈ l -> f x = false.
Proof.
  induction l as [|y l IH]; intros Hf x Hx; [set_solver|]. simpl in Hf. destruct (f y) eqn:Hy; [done|].
  apply elem_of_cons in Hx as [->|Hx]; [done|auto].
Qed.

Lemma attest_inv now att : preserves sm_inv (sm_ProcessAttestation config now att).
Proof.
  apply sm_locked_inv. apply preserves_bind; [apply preserves_get|]. intros s0. repeat case_match; try apply preserves_ret.
  apply preserves_bind; [apply isValidatorJailed_inv|]. intros jailed. apply preserves_bind; [apply preserves_refuse_if|].
  intros _ s Hs. unfold mbind at 1, GoM_bind at 1, get. simpl.
  destruct (find _ _) as [prev|] eqn:Hf; [done|]. simpl. set (v := att_ValidatorAddress att) in *.
  destruct Hs as [i1 i2 i3 i4]. split; [done..| |done].
  intros w a b. unfold atts_of. simpl. destruct (decide (w = v)) as [->|Hne].
  2: { rewrite !lookup_insert_ne by done. apply i3. }
  rewrite !lookup_insert_eq. simpl. intros Ha%last_n_elem Hb%last_n_elem.
  pose proof (find_none _ _ Hf) as Hn.
  apply elem_of_app in Ha as [Ha| ->%list_elem_of_singleton]; apply elem_of_app in Hb as [Hb| ->%list_elem_of_singleton].
  - by apply (i3 v).
  - rewrite Conflicts_sym. by apply Hn.
  - by apply Hn.
  - apply Conflicts_refl.
Qed.

Lemma surrounds_refl a : surrounds a a = false.
Proof. unfold surrounds. by rewrite Z.ltb_irrefl. Qed.

Lemma find_surround_none vote l : find_surround vote l = None ->
  forall x, x ∈ l -> surrounds vote x = false /\ surrounds x vote = false.
Proof.
  induction l as [|y l IH]; intros Hf x Hx; [set_solver|]. simpl in Hf.
  destruct (surrounds vote y) eqn:E1; [done|]. destruct (surrounds y vote) eqn:E2; [done|].
  apply elem_of_cons in Hx as [->|Hx]; [done|auto].
Qed.

Lemma vote_inv now vote : preserves sm_inv (ProcessVote now vote).
Proof.
  apply sm_locked_inv. destruct vote as [vote|]; [|apply preserves_throw].
  apply preserves_bind; [apply preserves_get|]. intros s0. case_match; [apply preserves_ret|].
  apply preserves_bind; [apply isValidatorJailed_inv|]. intros jailed. apply preserves_bind; [apply preserves_refuse_if|].
  intros _ s Hs. unfold mbind at 1, GoM_bind at 1, get. simpl.
  destruct (find_surround _ _) as [e|] eqn:Hf; [done|]. simpl. set (v := vote_ValidatorAddress vote) in *.
  destruct Hs as [i1 i2 i3 i4]. split; [done..|].
  intros w a b. unfold votes_of. simpl. destruct (decide (w = v)) as [->|Hne].
  2: { rewrite !lookup_insert_ne by done. apply i4. }
  rewrite !lookup_insert_eq. simpl. intros Ha%last_n_elem Hb%last_n_elem.
  pose proof (find_surround_none _ _ Hf) as Hn.
  apply elem_of_app in Ha as [Ha| ->%list_elem_of_singleton]; apply elem_of_app in Hb as [Hb| ->%list_elem_of_singleton].
  - by apply (i4 v).
  - by apply Hn.
  - by apply Hn.
  - apply surrounds_refl.
Qed.

(** *** The evidence pipeline *)

Section Pipe.
Context {Pub Priv : Type} `{Secp256k1 Pub Priv} `{Json SlashingEvidence} (Keccak256 : list byte -> list byte).

Lemma admit_aside now ev (s : Sm) : aside s (snd (admit_evidence (Pub:=Pub) Sha256 Keccak256 now ev s)).
Proof.
  unfold admit_evidence, mbind, GoM_bind, modify, get, on_limiter. cbv beta iota.
  destruct (CheckReporter _ _ _) as [[u|e| |] l]; [|done..].
  destruct (Validate _ _ _ _ _) as [verdict ev']. destruct verdict as [u'|e| |]; simpl; try done.
  unfold refuse_if. case_bool_decide; simpl; [done|].
  destruct (CheckCooldown _ _ _ _); simpl; try done.
  unfold on_pending. destruct (AddConfirmation _ _ _ _) as [[[]|e| |] m]; simpl; done.
Qed.

Lemma execute_inv now ev h : preserves sm_inv (execute_evidence Sha256 show_proposal config now ev h).
Proof.
  apply preserves_bind; [apply inv_modify; intros s; split_and!; try done; simpl; set_solver|]. intros _.
  apply preserves_bind; [by apply inv_modify|]. intros _.
  apply preserves_bind; [|intros _; by apply inv_modify].
  repeat case_match; try apply preserves_throw; try apply preserves_panic; try apply double_inv; try apply surround_inv.
  intros s Hs. pose proof (invalid_inv now (MkBlockProposal None (ev_ValidatorAddress ev) 0 (bp_Epoch b) []) "evidence submitted" s Hs) as Hi.
  destruct (ReportInvalidProposal _ _ _ _ _ _ s) as [[]]; try done.
  all: destruct (validators_of _ _); [by apply applySlashing_inv|done].
Qed.

Lemma evidence_inv now ev : preserves sm_inv (ProcessEvidence (Pub:=Pub) Sha256 show_proposal config Keccak256 now ev).
Proof.
  apply sm_locked_inv. apply preserves_bind; [apply preserves_get|]. intros s. case_match; [apply preserves_ret|].
  apply preserves_bind; [intros s0; apply inv_aside, admit_aside|]. intros [[ev' h]|]; [apply execute_inv|apply preserves_ret].
Qed.
End Pipe.
End Inv.

(** ** The manager's calls *)

Section Calls.
Context {Ws : Type} `{WorldStateBalancer Ws} {Pub Priv : Type} `{Secp256k1 Pub Priv} `{Json SlashingEvidence}.
Context (Sha256 : string -> list byte) (Keccak256 : list byte -> list byte) (show_proposal : BlockProposal -> string).
Context (config : SlashingConfig).

Inductive sm_call : Type :=
| SAttest (now : Z) (att : Attestation)
| SVote (now : Z) (vote : option Vote)
| SDoubleVote (now : Z) (att1 att2 : option Attestation)
| SSurround (now : Z) (inner outer : option Vote)
| SInvalidProposal (now : Z) (proposal : BlockProposal) (reason : string)
| SWithholding (now : Z) (v : string)
| SMissed (now : Z) (v : string) (slot : Z)
| SProposal (now : Z) (proposal : BlockProposal)
| SActive (now : Z) (v : string)
| SEvidence (now : Z) (ev : SlashingEvidence)
| SCleanup (now : Z)
| SPrune (now : Z)
| SClear (v : string).

Definition run_sm_call (c : sm_call) (s : SlashingManager Ws) : SlashingManager Ws :=
  match c with
  | SAttest now att => snd (sm_ProcessAttestation config now att s)
  | SVote now vote => snd (ProcessVote now vote s)
  | SDoubleVote now a b => snd (ApplyDoubleVoteSlashing Sha256 show_proposal config now a b s)
  | SSurround now a b => snd (ApplySurroundVoteSlashing Sha256 show_proposal config now a b s)
  | SInvalidProposal now p reason => snd (ReportInvalidProposal Sha256 show_proposal config now p reason s)
  | SWithholding now v => snd (ReportBlockWithholding Sha256 show_proposal config now v s)
  | SMissed now v slot => snd (ReportMissedAttestation Sha256 show_proposal config now v slot s)
  | SProposal now p => snd (ProcessBlockProposal now p s)
  | SActive now v => snd (IsValidatorActive config now v s)
  | SEvidence now ev => snd (ProcessEvidence (Pub:=Pub) Sha256 show_proposal config Keccak256 now ev s)
  | SCleanup now => cleanup_confirmations now s
  | SPrune now => pruneOldEvidence config now s
  | SClear v => snd (ClearJailStatus v s)
  end.

Lemma clear_inv v : preserves (sm_inv Sha256 show_proposal) (ClearJailStatus (Ws:=Ws) v).
Proof.
  apply sm_locked_inv, preserves_modify. intros s [i1 i2 i3 i4]. split; simpl.
  - intros w r. unfold records_of. simpl. destruct (decide (w = v)) as [->|Hw]; [rewrite lookup_delete_eq; set_solver|].
    rewrite lookup_delete_ne by done. apply i1.
  - intros v1 v2 i j r1 r2. unfold records_of. simpl.
    destruct (decide (v1 = v)) as [->|Hv1]; [by rewrite lookup_delete_eq|].
    destruct (decide (v2 = v)) as [->|Hv2]; [by rewrite lookup_delete_eq|]. rewrite !lookup_delete_ne by done. apply i2.
  - intros w a b. unfold atts_of. simpl. destruct (decide (w = v)) as [->|Hw]; [rewrite lookup_delete_eq; set_solver|].
    rewrite lookup_delete_ne by done. apply i3.
  - done.
Qed.

Lemma run_sm_call_inv c s : sm_inv Sha256 show_proposal s -> sm_inv Sha256 show_proposal (run_sm_call c s).
Proof.
  intros Hs. destruct c; simpl; try (by apply (inv_aside _ _ s)).
  - by apply attest_inv.
  - by apply vote_inv.
  - apply sm_locked_inv; [apply double_inv|done].
  - apply sm_locked_inv; [|done]. destruct inner, outer; try apply preserves_throw.
    destruct (negb (bool_decide _)); [apply preserves_throw|]. destruct (negb _); [apply preserves_throw|]. apply surround_inv.
  - by apply invalid_inv.
  - by apply withholding_inv.
  - by apply missed_inv.
  - apply sm_locked_inv; [|done]. apply preserves_bind; [apply isValidatorJailed_inv|]. intros. apply preserves_refuse_if.
  - by apply IsValidatorActive_inv.
  - by apply evidence_inv.
  - by apply clear_inv.
Qed.

(** C9. After any sequence of calls on a slashing manager that has just been
    created or restarted: no two penalties on record, of whatever validators, rest
    on the same evidence, and that evidence is marked; the attestations remembered
    for a validator never conflict, and its votes never surround one another. *)
Theorem offences_punished_once (storage : option SlashingStorage) (w : Ws) (cs : list sm_call) :
  let s := foldl (fun s c => run_sm_call c s) (NewSlashingManager storage w) cs in
  (forall v1 v2 i j r1 r2, records_of s v1 !! i = Some r1 -> records_of s v2 !! j = Some r2 ->
     OffenceHash Sha256 show_proposal (sr_Evidence r1) = OffenceHash Sha256 show_proposal (sr_Evidence r2) -> v1 = v2 /\ i = j) /\
  (forall v r, r ∈ records_of s v -> OffenceHash Sha256 show_proposal (sr_Evidence r) ∈ processedEvidence s) /\
  (forall v a b, a ∈ atts_of s v -> b ∈ atts_of s v -> Conflicts a b = false) /\
  (forall v a b, a ∈ votes_of s v -> b ∈ votes_of s v -> surrounds a b = false).
Proof.
  assert (Hstart : sm_inv Sha256 show_proposal (NewSlashingManager storage w)).
  { assert (Hr : forall v, records_of (NewSlashingManager storage w) v = [] /\ atts_of (NewSlashingManager storage w) v = [] /\
      votes_of (NewSlashingManager storage w) v = []).
    { intros v. unfold NewSlashingManager, records_of, atts_of, votes_of. by destruct storage; simpl; rewrite !lookup_empty. }
    split; intros v; destruct (Hr v) as (E1 & E2 & E3); rewrite ?E1, ?E2, ?E3; set_solver. }
  generalize dependent (NewSlashingManager storage w). induction cs as [|c cs IH]; intros s Hs; simpl.
  - destruct Hs. split_and!; auto.
  - apply IH. by apply run_sm_call_inv.
Qed.
End Calls.

(** ** Penalties

    The world state's contract: [balance] is what an account holds, [known] tells
    which addresses it serves, and a balance call touches nothing else that the
    fork choice reads. *)

Class BalancerLaws (Ws : Type) `{WorldStateBalancer Ws} (winv : Ws -> Prop) (known : string -> bool)
    (balance : Ws -> string -> Z) (rd_of : Ws -> WorldStateReader) : Prop := {
  bl_nonneg : forall w a, winv w -> 0 <= balance w a;
  bl_get : forall w a, winv w -> known a = true ->
    exists w', bal_GetBalance a w = (Ok (balance w a), w') /\ winv w' /\ (forall b, balance w' b = balance w b) /\
      bal_GetHeight w' = bal_GetHeight w /\ rd_of w' = rd_of w;
  bl_get_unknown : forall w a, winv w -> known a = false -> exists e, bal_GetBalance a w = (Err e, w);
  bl_update : forall w a v, winv w -> known a = true -> 0 <= v <= balance w a ->
    exists w', bal_UpdateBalance a v w = (Ok tt, w') /\ winv w' /\ balance w' a = v /\
      (forall b, b <> a -> balance w' b = balance w b) /\ bal_GetHeight w' = bal_GetHeight w /\ rd_of w' = rd_of w
}.

Section Penalty.
Context {Ws : Type} `{WorldStateBalancer Ws} (winv : Ws -> Prop) (known : string -> bool)
  (balance : Ws -> string -> Z) (rd_of : Ws -> WorldStateReader) `{!BalancerLaws Ws winv known balance rd_of}.
Context (Sha256 : string -> list byte) (show_proposal : BlockProposal -> string) (config : SlashingConfig).
Notation Sm := (SlashingManager Ws).
Notation hash := (OffenceHash Sha256 show_proposal).

Definition holds (s : Sm) (a : string) : Z := balance (sm_world s) a.

Definition percent_ok (p : Z) : Prop := 0 <= p <= 100.
Definition after_penalty (b p : Z) : Z := b - b * p / 100.

Lemma after_penalty_range b p : 0 <= b -> percent_ok p -> 0 <= after_penalty b p <= b.
Proof.
  unfold percent_ok, after_penalty. intros Hb Hp.
  assert (0 <= b * p / 100) by (apply Z.div_pos; nia).
  assert (b * p / 100 <= b) by (apply Z.div_le_upper_bound; nia). lia.
Qed.

Lemma penalty_run b p (s : Sm) : percent_ok p -> penalty b p s = (Ok (b * p / 100), s).
Proof.
  intros [? ?]. unfold penalty, lift, SafePercentageBig.
  rewrite (proj2 (Z.ltb_ge p 0)), (proj2 (Z.ltb_ge 100 p)) by lia. simpl. by rewrite big_div_pos.
Qed.

Lemma penalty_keeps (P : Sm -> Prop) b p : preserves P (penalty b p).
Proof. apply preserves_lift. Qed.
#[local] Opaque penalty.

(** The status and the jail that a penalty leaves. *)
Definition status_after (c : SlashingCondition) (newBalance : Z) (old : option ValidatorStatus) : option ValidatorStatus :=
  if newBalance <? ParseBigInt_string (MinimumStake config) then Some ValidatorSlashed
  else match c with DoubleVoting | SurroundVoting => Some ValidatorJailed | _ => old end.
Definition jail_after (now : Z) (v : string) (c : SlashingCondition) (old : option JailedValidator) : option JailedValidator :=
  match c with
  | DoubleVoting | SurroundVoting => Some (MkJailed v now (now + i64 (JailDurationHours config * hour)) c)
  | _ => old
  end.

Record penalised (now : Z) (v : string) (c : SlashingCondition) (ev : OffenceEvidence) (amount : Z) (s s' : Sm) : Prop := MkPenalised {
  pn_world : winv (sm_world s') /\ bal_GetHeight (sm_world s') = bal_GetHeight (sm_world s) /\ rd_of (sm_world s') = rd_of (sm_world s);
  pn_balance : holds s' v = holds s v - amount;
  pn_others : forall b, b <> v -> holds s' b = holds s b;
  pn_status : validatorStatus s' !! v = status_after c (holds s v - amount) (validatorStatus s !! v);
  pn_jail : jailedValidators s' !! v = jail_after now v c (jailedValidators s !! v);
  pn_record : exists epoch reason, records_of s' v = records_of s v ++ [MkSlashingRecord v c epoch now ev amount reason];
  pn_marked : processedEvidence s' = {[hash ev]} ∪ processedEvidence s;
  pn_mu : sm_mu s' = sm_mu s
}.

Lemma applySlashing_run now v c epoch ev amount reason (s : Sm) :
  winv (sm_world s) -> known v = true -> hash ev ∉ processedEvidence s -> 0 <= amount <= holds s v ->
  exists s', applySlashing Sha256 show_proposal config now (MkSlashingRecord v c epoch now ev amount reason) s = (Ok tt, s') /\
    penalised now v c ev amount s s'.
Proof.
  intros Hw Hk Hn Ham. unfold applySlashing, mbind, GoM_bind, get, refuse_if, modify. simpl.
  rewrite bool_decide_eq_false_2 by done. simpl. unfold GetBalance, on_bal. simpl.
  destruct (bl_get (sm_world s) v Hw Hk) as (w1 & -> & Hw1 & Hb1 & Hh1 & Hr1). simpl.
  fold (holds s v). rewrite Z.max_r by lia.
  destruct (bl_update w1 v (holds s v - amount) Hw1 Hk) as (w2 & -> & Hw2 & Hv2 & Ho2 & Hh2 & Hr2).
  { rewrite Hb1. fold (holds s v). lia. }
  simpl. eexists. split; [reflexivity|].
  assert (Hcase : (c = DoubleVoting \/ c = SurroundVoting) \/ (c <> DoubleVoting /\ c <> SurroundVoting))
    by (destruct c; auto).
  split; unfold holds, status_after, jail_after, records_of, append_record; simpl.
  - repeat case_match; simpl; (split; [done|]); split; congruence.
  - by repeat case_match.
  - intros b Hb. repeat case_match; simpl; rewrite Ho2, Hb1; done.
  - repeat case_match; simpl; by rewrite ?lookup_insert_eq.
  - repeat case_match; simpl; by rewrite ?lookup_insert_eq.
  - exists epoch, reason. repeat case_match; simpl; by rewrite lookup_insert_eq.
  - by repeat case_match.
  - by repeat case_match.
Qed.

Lemma slash_with_run now v p c epoch ev reason seen (s : Sm) :
  winv (sm_world s) -> known v = true -> hash ev ∉ processedEvidence s -> percent_ok p ->
  exists s', slash_with Sha256 show_proposal config now v p c epoch ev reason seen s = (Ok tt, s') /\
    penalised now v c ev (holds s v * p / 100) s s'.
Proof.
  intros Hw Hk Hn Hp. unfold slash_with, mbind, GoM_bind, get. simpl. rewrite bool_decide_eq_false_2 by done.
  unfold GetBalance, on_bal. destruct (bl_get (sm_world s) v Hw Hk) as (w1 & -> & Hw1 & Hb1 & Hh1 & Hr1). simpl.
  rewrite penalty_run by done. pose proof (bl_nonneg (sm_world s) v Hw) as Hpos.
  destruct (after_penalty_range (balance (sm_world s) v) p Hpos Hp) as [Hlo Hhi]. unfold after_penalty in *.
  assert (Hv : holds (set_sm_world w1 s) v = holds s v) by (unfold holds; simpl; apply Hb1).
  destruct (applySlashing_run now v c epoch ev (holds s v * p / 100) reason (set_sm_world w1 s)) as (s' & Hs' & Hpen);
    [done|done|done|unfold holds in *; simpl; rewrite Hb1; lia|].
  exists s'. split; [done|]. destruct Hpen as [q1 q2 q3 q4 q5 q6 q7 q8]. rewrite Hv in *.
  split; try done; simpl in *; [|intros b Hb; rewrite q3 by done; apply Hb1].
  destruct q1 as (? & ? & ?). split_and!; congruence.
Qed.

Lemma sm_locked_run {E A} (body : GoM Sm E A) (s : Sm) r s1 :
  sm_mu s = unlocked -> body (set_sm_mu (MkRW true 0) s) = (r, s1) -> r <> Hang -> sm_mu s1 = MkRW true 0 ->
  sm_locked W body s = (r, set_sm_mu unlocked s1).
Proof.
  intros Hmu Hb Hr Hm1. unfold sm_locked, mbind, GoM_bind, sm_mutex at 1. rewrite Hmu. simpl. unfold sm_releasing. rewrite Hb.
  unfold sm_mutex. rewrite Hm1. simpl. by destruct r.
Qed.

Lemma set_sm_mu_back (s : Sm) l : sm_mu s = unlocked -> set_sm_mu unlocked (set_sm_mu l s) = s.
Proof. destruct s. simpl. by intros ->. Qed.

Definition double_vote_offence (att1 att2 : Attestation) : OffenceEvidence :=
  MkOffence (Some att1)
    (Some (MkAttestation (att_ValidatorAddress att2) (att_BlockHash att2) (i64 (u64 (att_Epoch att2 * 32))) (att_Epoch att2)
             (u64 (att_Epoch att2 * 32)) (att_Signature att2) (att_Timestamp att2))) None None None [].

Lemma double_vote_run now att1 att2 (s : Sm) :
  sm_mu s = unlocked -> winv (sm_world s) -> known (att_ValidatorAddress att1) = true ->
  att_ValidatorAddress att1 = att_ValidatorAddress att2 -> percent_ok (DoubleVotingPenalty config) ->
  hash (double_vote_offence att1 att2) ∉ processedEvidence s ->
  exists s', ApplyDoubleVoteSlashing Sha256 show_proposal config now (Some att1) (Some att2) s = (Ok tt, s') /\
    penalised now (att_ValidatorAddress att1) DoubleVoting (double_vote_offence att1 att2)
      (holds s (att_ValidatorAddress att1) * DoubleVotingPenalty config / 100) s s'.
Proof.
  intros Hmu Hw Hk Hv Hp Hn. set (s0 := set_sm_mu (MkRW true 0) s).
  destruct (slash_with_run now (att_ValidatorAddress att1) (DoubleVotingPenalty config) DoubleVoting (att_Epoch att1)
    (double_vote_offence att1 att2) ("Double voting at epoch " +:+ String10 (att_Epoch att1)) (throw AlreadySlashed) s0)
    as (s1 & Hs1 & Hpen); [done|done|done|done|].
  assert (Hm1 : sm_mu s1 = MkRW true 0) by (by rewrite (pn_mu _ _ _ _ _ _ _ Hpen)).
  exists (set_sm_mu unlocked s1). split.
  - apply sm_locked_run; [done| |done|done]. unfold applyDoubleVoteSlashingLocked.
    rewrite bool_decide_eq_true_2 by done. exact Hs1.
  - destruct Hpen as [q1 q2 q3 q4 q5 q6 q7 q8]. by split.
Qed.

Lemma jailed_inactive t v j (s : Sm) :
  jailedValidators s !! v = Some j -> t <= jv_ReleaseTime j -> IsValidatorActive config t v s = (Ok false, s).
Proof.
  intros Hj Ht. unfold IsValidatorActive, mbind, GoM_bind, isValidatorJailed. rewrite Hj.
  by rewrite (proj2 (Z.ltb_ge _ _) Ht).
Qed.

(** C32. A double vote that has not been punished costs its validator the configured
    percentage of its balance, rounded in its favour, and nobody else anything; the
    validator is jailed for the configured time, or marked as slashed if what is
    left is below the minimum, and inactive until the jail ends; and the same pair
    of attestations is refused afterwards. *)
Theorem double_vote_punished now att1 att2 (s : Sm) :
  sm_mu s = unlocked -> winv (sm_world s) -> known (att_ValidatorAddress att1) = true ->
  att_ValidatorAddress att1 = att_ValidatorAddress att2 -> percent_ok (DoubleVotingPenalty config) ->
  hash (double_vote_offence att1 att2) ∉ processedEvidence s ->
  let v := att_ValidatorAddress att1 in
  let left_over := after_penalty (holds s v) (DoubleVotingPenalty config) in
  let release := now + i64 (JailDurationHours config * hour) in
  exists s', ApplyDoubleVoteSlashing Sha256 show_proposal config now (Some att1) (Some att2) s = (Ok tt, s') /\
    holds s' v = left_over /\ 0 <= left_over <= holds s v /\ (forall b, b <> v -> holds s' b = holds s b) /\
    validatorStatus s' !! v =
      Some (if left_over <? ParseBigInt_string (MinimumStake config) then ValidatorSlashed else ValidatorJailed) /\
    (forall t, t <= release -> IsValidatorActive config t v s' = (Ok false, s')) /\
    (forall later, ApplyDoubleVoteSlashing Sha256 show_proposal config later (Some att1) (Some att2) s' = (Err AlreadySlashed, s')).
Proof.
  intros Hmu Hw Hk Hv Hp Hn v left_over release.
  destruct (double_vote_run now att1 att2 s Hmu Hw Hk Hv Hp Hn) as (s' & Hs' & Hpen).
  exists s'. destruct Hpen as [q1 q2 q3 q4 q5 q6 q7 q8]. fold v in q2, q3, q4, q5.
  split; [done|]. split; [done|]. split; [apply after_penalty_range; [exact (bl_nonneg (sm_world s) v Hw)|done]|]. split; [done|].
  split; [rewrite q4; unfold status_after, left_over, after_penalty; by destruct (_ <? _)|].
  split; [intros t Ht; by eapply jailed_inactive|].
  intros later. rewrite <-(set_sm_mu_back s' (MkRW true 0)) at 2 by congruence.
  apply sm_locked_run; [congruence| |done|done]. unfold applyDoubleVoteSlashingLocked.
  rewrite bool_decide_eq_true_2 by done. unfold slashDoubleVoting, slash_with, mbind, GoM_bind, get. simpl.
  rewrite bool_decide_eq_true_2; [done|]. rewrite q7. apply elem_of_union_l. by apply elem_of_singleton.
Qed.

(** ** Downtime

    The evidence of downtime hashes to the same value for everyone. *)

Lemma downtime_hash slots : hash (no_evidence slots) = hash (no_evidence []).
Proof. done. Qed.

Definition same_balances (s0 s : Sm) : Prop :=
  winv (sm_world s) /\ (forall b, holds s b = holds s0 b) /\ processedEvidence s0 ⊆ processedEvidence s.

Lemma same_balances_modify {E} s0 f :
  (forall s, sm_world (f s) = sm_world s /\ processedEvidence s ⊆ processedEvidence (f s)) ->
  preserves (same_balances s0) (modify f : GoM Sm E unit).
Proof.
  intros Hf s (Hw & Hb & Hp). destruct (Hf s) as [Ew Ep]. simpl. unfold same_balances, holds in *. rewrite Ew.
  split_and!; [done|done|set_solver].
Qed.

Lemma GetBalance_same s0 v : preserves (same_balances s0) (GetBalance v).
Proof.
  intros s (Hw & Hb & Hp). unfold GetBalance, on_bal. destruct (known v) eqn:Hk.
  - destruct (bl_get (sm_world s) v Hw Hk) as (w & -> & Hw' & Hb' & _). simpl. split_and!; [done| |done].
    intros b. unfold holds in *. simpl. by rewrite Hb'.
  - destruct (bl_get_unknown (sm_world s) v Hw Hk) as (e & ->). simpl. by destruct s.
Qed.

Lemma applySlashing_refused now record s :
  hash (sr_Evidence record) ∈ processedEvidence s ->
  applySlashing Sha256 show_proposal config now record s = (Err AlreadyProcessed, s).
Proof. intros Hin. unfold applySlashing, mbind, GoM_bind, get, refuse_if. simpl. by rewrite bool_decide_eq_true_2. Qed.

Lemma downtime_refused s0 now v epoch slots amount reason :
  hash (no_evidence []) ∈ processedEvidence s0 ->
  preserves (same_balances s0)
    (applySlashing Sha256 show_proposal config now (MkSlashingRecord v Downtime epoch now (no_evidence slots) amount reason)).
Proof. intros Hin s Hs. rewrite applySlashing_refused; [done|]. destruct Hs as (_ & _ & Hp). simpl. set_solver. Qed.

Lemma isValidatorJailed_same s0 now v : preserves (same_balances s0) (isValidatorJailed now v).
Proof. intros s Hs. unfold isValidatorJailed. by repeat case_match. Qed.

Lemma sm_locked_same {E A} s0 m (body : GoM Sm E A) : preserves (same_balances s0) body -> preserves (same_balances s0) (sm_locked m body).
Proof.
  assert (Hm : forall acq m, preserves (same_balances s0) (sm_mutex (E:=E) acq m)).
  { intros acq m' s Hs. unfold sm_mutex. by destruct (mutex_call acq m' (sm_mu s)) as [[]|]. }
  intros Hb. apply preserves_bind; [apply Hm|]. intros _ s Hs. unfold sm_releasing. specialize (Hb s Hs).
  destruct (body s) as [r s1]. simpl in Hb. pose proof (Hm false m s1 Hb) as Hm1.
  destruct r; [..|done]; destruct (sm_mutex false m s1) as [[]]; done.
Qed.

Lemma slashValidator_same s0 now v p reason h :
  hash (no_evidence []) ∈ processedEvidence s0 ->
  preserves (same_balances s0) (slashValidator Sha256 show_proposal config now v p reason h).
Proof.
  intros Hin. apply preserves_bind; [apply preserves_get|]. intros s. case_match; [apply preserves_ret|].
  assert (Hq : forall m, preserves (same_balances s0) m -> preserves (same_balances s0) (quietly m)).
  { intros m Hm s1 Hs1. unfold quietly. specialize (Hm s1 Hs1). by destruct (m s1) as [[]]. }
  apply Hq. apply preserves_bind; [apply GetBalance_same|]. intros b. apply preserves_bind; [apply penalty_keeps|]. intros a.
  apply preserves_bind; [by apply downtime_refused|]. intros _. apply same_balances_modify. intros s1. simpl. split; [done|set_solver].
Qed.

(** One penalty for downtime in the life of the network: once anyone has paid
    one, no number of missed attestations or withheld blocks of any validator
    changes any balance again. *)
Theorem downtime_punished_only_once now v slot (s : Sm) :
  winv (sm_world s) -> hash (no_evidence []) ∈ processedEvidence s ->
  (forall b, holds (snd (ReportMissedAttestation Sha256 show_proposal config now v slot s)) b = holds s b) /\
  (forall b, holds (snd (ReportBlockWithholding Sha256 show_proposal config now v s)) b = holds s b).
Proof.
  intros Hw Hin. assert (Hs : same_balances s s) by done. split.
  - enough (Hp : preserves (same_balances s) (ReportMissedAttestation Sha256 show_proposal config now v slot)) by apply (Hp s Hs).
    apply sm_locked_same. apply preserves_bind; [apply preserves_get|]. intros s1. cbv zeta.
    generalize (policy_of config). intros policy. apply preserves_bind; [by apply same_balances_modify|]. intros _.
    destruct (EjectionThreshold policy <=? _).
    { apply preserves_bind; [by apply same_balances_modify|]. intros _. by apply slashValidator_same. }
    destruct (JailThreshold policy <=? _).
    { apply preserves_bind; [apply isValidatorJailed_same|]. intros []; [apply preserves_ret|].
      apply preserves_bind; [by apply same_balances_modify|]. intros _. by apply slashValidator_same. }
    destruct (MajorSlashingStart policy <=? _); [by apply slashValidator_same|].
    destruct (MinorSlashingStart policy <=? _); [by apply slashValidator_same|apply preserves_ret].
  - enough (Hp : preserves (same_balances s) (ReportBlockWithholding Sha256 show_proposal config now v)) by apply (Hp s Hs).
    apply sm_locked_same. apply preserves_bind; [apply preserves_get|]. intros s1. case_match; [apply preserves_ret|].
    apply preserves_bind; [apply isValidatorJailed_same|]. intros []; [apply preserves_ret|].
    apply preserves_bind; [apply preserves_get|]. intros s2. case_match; [apply preserves_ret|].
    apply preserves_bind; [apply GetBalance_same|]. intros b. apply preserves_bind; [apply penalty_keeps|]. intros a.
    apply preserves_bind; [apply preserves_get|]. intros s3. case_match; [apply preserves_ret|].
    apply preserves_bind; [by apply downtime_refused|]. intros _. by apply same_balances_modify.
Qed.

(** ** Evidence from other nodes *)

Section Reporters.
Context {Pub Priv : Type} `{Secp256k1 Pub Priv} `{Json SlashingEvidence} (Keccak256 : list byte -> list byte).

(** Who has confirmed this evidence so far. *)
Definition confirmed_by (s : Sm) (id : string) : gset string :=
  match pending s !! id with Some p => dom (Confirmers p) | None => ∅ end.

Lemma AddConfirmation_ready now ev reporter m m' :
  AddConfirmation now ev reporter m = (Ok true, m') ->
  reporter <> ev_ValidatorAddress ev /\
  requiredConfirmations <= Z.of_nat (size ({[reporter]} ∪ match m !! ev_ID ev with Some p => dom (Confirmers p) | None => ∅ end)).
Proof.
  unfold AddConfirmation. case_match; [done|]. case_bool_decide as Hr; [done|].
  case_match eqn:Hc; [|done]. intros _. split; [done|]. zbool.
  destruct (m !! ev_ID ev) as [p|]; simpl in Hc; by rewrite <-size_dom, dom_insert_L in Hc.
Qed.

Lemma admit_some now ev (s s' : Sm) ev' h :
  admit_evidence (Pub:=Pub) Sha256 Keccak256 now ev s = (Ok (Some (ev', h)), s') ->
  ev_ReporterAddress ev' = ev_ReporterAddress ev /\ ev_ValidatorAddress ev' = ev_ValidatorAddress ev /\
  ev_ID ev' = generateID Sha256 ev /\
  fst (Validate (Pub:=Pub) Sha256 Keccak256 (validators_of s) now ev) = Ok tt /\
  ev_ReporterAddress ev <> ev_ValidatorAddress ev /\
  requiredConfirmations <= Z.of_nat (size ({[ev_ReporterAddress ev]} ∪ confirmed_by s (generateID Sha256 ev))).
Proof.
  unfold admit_evidence, mbind, GoM_bind, modify, get, on_limiter. cbv beta iota.
  destruct (CheckReporter _ _ _) as [[u|e| |] l]; [|done..].
  change (validators_of (set_limiter l (map_metrics RecordSubmission s))) with (validators_of s).
  destruct (Validate _ _ _ _ ev) as [verdict ev1] eqn:Hval. destruct verdict as [[]|e| |]; simpl; [|done..].
  assert (Hev : ev_ReporterAddress ev1 = ev_ReporterAddress ev /\ ev_ValidatorAddress ev1 = ev_ValidatorAddress ev /\
    ev_ID ev1 = generateID Sha256 ev).
  { unfold Validate in Hval. cbv zeta in Hval. injection Hval as Hv <-.
    destruct (bool_decide (ev_ID ev = "")) eqn:Hid; [done|].
    destruct (bool_decide (ev_ID ev = generateID Sha256 ev)) eqn:Hd; [|done]. apply bool_decide_eq_true in Hd. done. }
  destruct Hev as (Hr & Hv & Hi).
  unfold refuse_if. case_bool_decide; simpl; [done|].
  destruct (CheckCooldown _ _ _ _) as [u'|e| |]; simpl; [|done..].
  unfold on_pending. simpl. destruct (AddConfirmation _ _ _ _) as [[[]|e| |] m] eqn:Hadd; simpl; try done.
  intros [= <- <- <-]. apply AddConfirmation_ready in Hadd as [Hne Hsz]. rewrite Hr, Hv in Hne. rewrite Hr, Hi in Hsz. done.
Qed.

Lemma admit_world now ev (s : Sm) : sm_world (snd (admit_evidence (Pub:=Pub) Sha256 Keccak256 now ev s)) = sm_world s.
Proof.
  unfold admit_evidence, mbind, GoM_bind, modify, get, on_limiter. cbv beta iota.
  destruct (CheckReporter _ _ _) as [[u|e| |] l]; [|done..].
  destruct (Validate _ _ _ _ _) as [verdict ev']. destruct verdict as [u'|e| |]; simpl; try done.
  unfold refuse_if. case_bool_decide; simpl; [done|].
  destruct (CheckCooldown _ _ _ _); simpl; try done.
  unfold on_pending. destruct (AddConfirmation _ _ _ _) as [[[]|e| |] m]; simpl; done.
Qed.

(** The pipeline with the lock held, and what its verdict is. *)
Definition evidence_body (now : Z) (ev : SlashingEvidence) : GoM Sm sl_error unit :=
  admitted ← admit_evidence (Pub:=Pub) Sha256 Keccak256 now ev;
  match admitted with
  | Some (ev', h) => execute_evidence Sha256 show_proposal config now ev' h
  | None => mret tt
  end.

Lemma ProcessEvidence_body now ev (s : Sm) :
  sm_mu s = unlocked ->
  ProcessEvidence (Pub:=Pub) Sha256 show_proposal config Keccak256 now ev s =
  sm_releasing W (fun s => if startup_grace s then (Ok tt, s) else evidence_body now ev s) (set_sm_mu (MkRW true 0) s).
Proof.
  intros Hmu. unfold ProcessEvidence, sm_locked, mbind at 1, GoM_bind at 1, sm_mutex at 1. rewrite Hmu. simpl.
  unfold sm_releasing, mbind at 1, GoM_bind at 1, get, startup_grace. simpl. by destruct (bal_GetHeight (sm_world s) <? 100).
Qed.

Lemma releasing_world {A} (body : GoM Sm sl_error A) s : sm_world (snd (sm_releasing W body s)) = sm_world (snd (body s)).
Proof.
  unfold sm_releasing. destruct (body s) as [r s1]. destruct r; simpl; try done.
  all: unfold sm_mutex; by destruct (mutex_call false W (sm_mu s1)) as [[]|].
Qed.

(** No evidence takes a penalty before three different reporters, none of
    them the accused, have sent it within the window, and it has passed
    validation: if a call with evidence changes any balance, that was so. *)
Theorem three_reporters_before_penalty now ev (s : Sm) a :
  sm_mu s = unlocked ->
  holds (snd (ProcessEvidence (Pub:=Pub) Sha256 show_proposal config Keccak256 now ev s)) a <> holds s a ->
  fst (Validate (Pub:=Pub) Sha256 Keccak256 (validators_of s) now ev) = Ok tt /\
  ev_ReporterAddress ev <> ev_ValidatorAddress ev /\
  3 <= Z.of_nat (size ({[ev_ReporterAddress ev]} ∪ confirmed_by s (generateID Sha256 ev))).
Proof.
  intros Hmu. rewrite ProcessEvidence_body by done. unfold holds. rewrite releasing_world.
  set (s0 := set_sm_mu (MkRW true 0) s). destruct (startup_grace s0); [done|]. intros Hch.
  unfold evidence_body, mbind, GoM_bind in Hch. pose proof (admit_world now ev s0) as Hw.
  destruct (admit_evidence Sha256 Keccak256 now ev s0) as [[[[ev' h]|]|e| |] s1] eqn:Had; simpl in Hw, Hch;
    try (exfalso; apply Hch; by rewrite Hw).
  by destruct (admit_some now ev s0 s1 ev' h Had) as (_ & _ & _ & Hval & Hne & Hsz).
Qed.

Lemma execute_invalid_proposal_hangs now ev h (s : Sm) proposal errors bh :
  sm_mu s = MkRW true 0 -> ev_Type ev = EvidenceInvalidProposal ->
  ev_Evidence ev = Some (InvalidProposalEvidence (Some proposal) errors bh) ->
  exists s', execute_evidence Sha256 show_proposal config now ev h s = (Hang, s') /\ sm_mu s' = MkRW true 0.
Proof.
  intros Hmu Ht Hev. unfold execute_evidence. rewrite Ht, Hev. unfold mbind, GoM_bind, modify. simpl.
  unfold ReportInvalidProposal, sm_locked, mbind, GoM_bind, sm_mutex. simpl. rewrite Hmu. simpl. eauto.
Qed.

(** The confirmation that completes evidence of an invalid proposal never
    returns: reporting the proposal waits for the manager's own lock, which stays
    taken, so that every later call on the manager waits as well. *)
Theorem invalid_proposal_evidence_deadlocks now ev (s s1 : Sm) ev' h proposal errors bh :
  sm_mu s = unlocked -> startup_grace s = false ->
  admit_evidence (Pub:=Pub) Sha256 Keccak256 now ev (set_sm_mu (MkRW true 0) s) = (Ok (Some (ev', h)), s1) ->
  sm_mu s1 = MkRW true 0 -> ev_Type ev' = EvidenceInvalidProposal ->
  ev_Evidence ev' = Some (InvalidProposalEvidence (Some proposal) errors bh) ->
  exists s', ProcessEvidence (Pub:=Pub) Sha256 show_proposal config Keccak256 now ev s = (Hang, s') /\
    forall A m (body : GoM Sm sl_error A), sm_locked m body s' = (Hang, s').
Proof.
  intros Hmu Hg Had Hm1 Ht Hev. rewrite ProcessEvidence_body by done.
  destruct (execute_invalid_proposal_hangs now ev' h s1 proposal errors bh Hm1 Ht Hev) as (s' & Hx & Hmu').
  exists s'. split.
  - unfold sm_releasing. change (startup_grace (set_sm_mu (MkRW true 0) s)) with (startup_grace s). rewrite Hg.
    unfold evidence_body, mbind, GoM_bind. rewrite Had. by rewrite Hx.
  - intros A m body. unfold sm_locked, mbind, GoM_bind, sm_mutex. rewrite Hmu'. by destruct m.
Qed.
End Reporters.

(** ** The contract with the fork choice *)

Definition attestation_of (r : AttestationRecord) : Attestation :=
  MkAttestation (ar_ValidatorAddress r) (ar_BlockHash r) (i64 (u64 (ar_Epoch r * 32))) (ar_Epoch r) (ar_Slot r) (ar_Signature r)
    (Unix (ar_Timestamp r)).

Definition manager_slasher : Slasher Sm := {|
  sl_err := sl_error;
  sl_reader s := rd_of (sm_world s);
  sl_present _ := true;
  sl_ProcessAttestation now att := sm_ProcessAttestation config now att;
  sl_conflict e := match e with DoubleSigningError prev => Some (attestation_of prev) | _ => None end;
  sl_ApplyDoubleVoteSlashing now a b := ApplyDoubleVoteSlashing Sha256 show_proposal config now (Some a) (Some b);
  sl_IsValidatorActive now v := IsValidatorActive config now v
|}.

Definition manager_ok (s : Sm) : Prop := sm_mu s = unlocked /\ winv (sm_world s).

(** A body that comes back with the lock as it was and the same reader. *)
Definition tame {A} (l : RWMutex) (rd : WorldStateReader) (m : GoM Sm sl_error A) : Prop :=
  forall s, sm_mu s = l -> winv (sm_world s) -> rd_of (sm_world s) = rd ->
    match fst (m s) with Ok _ | Err _ => True | _ => False end /\
    sm_mu (snd (m s)) = l /\ winv (sm_world (snd (m s))) /\ rd_of (sm_world (snd (m s))) = rd.

Lemma tame_bind {A B} l rd (m : GoM Sm sl_error A) (f : A -> GoM Sm sl_error B) :
  tame l rd m -> (forall a, tame l rd (f a)) -> tame l rd (m ≫= f).
Proof.
  intros Hm Hf s H1 H2 H3. specialize (Hm s H1 H2 H3). unfold mbind, GoM_bind.
  destruct (m s) as [[a|e| |] s']; simpl in *; [|done|done|done]. destruct Hm as (_ & ? & ? & ?). by apply Hf.
Qed.
Lemma tame_ret {A} l rd (a : A) : tame l rd (mret a).
Proof. by intros s. Qed.
Lemma tame_throw {A} l rd e : tame l rd (throw e : GoM Sm sl_error A).
Proof. by intros s. Qed.
Lemma tame_get l rd : tame l rd get.
Proof. by intros s. Qed.
Lemma tame_modify l rd f : (forall s, sm_mu (f s) = sm_mu s /\ sm_world (f s) = sm_world s) -> tame l rd (modify f).
Proof. intros Hf s H1 H2 H3. simpl. destruct (Hf s) as [-> ->]. done. Qed.
Lemma tame_refuse l rd c e : tame l rd (refuse_if c e).
Proof. unfold refuse_if. destruct c; [apply tame_throw|apply tame_ret]. Qed.
Lemma tame_jailed l rd now v : tame l rd (isValidatorJailed now v).
Proof. intros s H1 H2 H3. unfold isValidatorJailed. repeat case_match; done. Qed.
Lemma tame_balance l rd v : tame l rd (GetBalance v).
Proof.
  intros s H1 H2 H3. unfold GetBalance, on_bal. destruct (known v) eqn:Hk.
  - destruct (bl_get (sm_world s) v H2 Hk) as (w & -> & Hw' & _ & _ & Hr). simpl. split_and!; try done. congruence.
  - destruct (bl_get_unknown (sm_world s) v H2 Hk) as (e & ->). done.
Qed.

Lemma tame_locked {A} rd (body : GoM Sm sl_error A) s :
  tame (MkRW true 0) rd body -> sm_mu s = unlocked -> winv (sm_world s) -> rd_of (sm_world s) = rd ->
  returns (sm_locked W body) s /\ rd_of (sm_world (snd (sm_locked W body s))) = rd /\ manager_ok (snd (sm_locked W body s)).
Proof.
  intros Hb Hmu Hw Hr. destruct (Hb (set_sm_mu (MkRW true 0) s) eq_refl Hw Hr) as (Hret & Hm & Hw' & Hr').
  unfold returns. destruct (body (set_sm_mu (MkRW true 0) s)) as [r s1] eqn:Hbody.
  assert (Hrun : sm_locked W body s = (r, set_sm_mu unlocked s1)).
  { apply sm_locked_run; try done. intros ->. done. }
  rewrite Hrun. done.
Qed.

Lemma tame_double_vote rd now a b :
  percent_ok (DoubleVotingPenalty config) ->
  tame (MkRW true 0) rd (applyDoubleVoteSlashingLocked Sha256 show_proposal config now (Some a) (Some b)).
Proof.
  intros Hp. unfold applyDoubleVoteSlashingLocked. destruct (negb _); [apply tame_throw|].
  intros s H1 H2 H3. unfold slashDoubleVoting.
  match goal with |- context [slash_with _ _ _ now ?v ?p ?c ?e ?ev ?reason ?seen s] =>
    destruct (decide (hash ev ∈ processedEvidence s)) as [Hin|Hn];
    [|destruct (known v) eqn:Hk;
      [destruct (slash_with_run now v p c e ev reason seen s H2 Hk Hn Hp) as (s' & -> & [(? & ? & ?) _ _ _ _ _ _ Hmu])|]] end.
  - unfold slash_with, mbind, GoM_bind, get. simpl. rewrite bool_decide_eq_true_2 by done. done.
  - simpl. split_and!; congruence || done.
  - unfold slash_with, mbind, GoM_bind, get. simpl. rewrite bool_decide_eq_false_2 by done.
    unfold GetBalance, on_bal. destruct (bl_get_unknown (sm_world s) _ H2 Hk) as (e & ->). simpl. done.
Qed.

(** The slashing manager keeps its contract with the fork choice: while its
    lock is free, each call that the fork choice makes comes back, without a panic,
    with the lock free again, and leaves the validators, their stake and the blocks
    that the fork choice reads as they were. *)
Theorem slashing_manager_contract :
  percent_ok (DoubleVotingPenalty config) -> @SlasherLaws Sm manager_slasher manager_ok.
Proof.
  intros Hp. split.
  - intros now att s [Hmu Hw]. apply tame_locked; [|done|done|done].
    apply tame_bind; [apply tame_get|]. intros s1. repeat (case_match; [apply tame_ret|]).
    apply tame_bind; [apply tame_jailed|]. intros j. apply tame_bind; [apply tame_refuse|]. intros _.
    apply tame_bind; [apply tame_get|]. intros s2. case_match; [apply tame_throw|].
    repeat (apply tame_bind; [by apply tame_modify|]; intros _). by apply tame_modify.
  - intros now a b s [Hmu Hw]. apply tame_locked; [by apply tame_double_vote|done|done|done].
  - intros now v s [Hmu Hw].
    assert (Ht : tame unlocked (rd_of (sm_world s)) (IsValidatorActive config now v)).
    { apply tame_bind; [apply tame_jailed|]. intros []; [apply tame_ret|]. apply tame_bind; [apply tame_get|]. intros s1.
      repeat (case_match; try apply tame_ret). intros s2 Q1 Q2 Q3.
      destruct (tame_balance unlocked (rd_of (sm_world s)) v s2 Q1 Q2 Q3) as (Hret & ? & ? & ?).
      destruct (GetBalance v s2) as [[]]; done. }
    destruct (Ht s Hmu Hw eq_refl) as (Hret & ? & ? & ?). done.
Qed.
End Penalty.

(** ** Concrete runs *)

Module Demo.
(** A world of balances at height 100, with one registered validator. *)
Notation balances := (gmap string Z).
Definition alice : Validator :=
  MkValidator "alice" (x02 :: replicate 31 x00 ++ [x2a]) "" "" "" [x64] [] [] ∅ 0 true 0 0 0 0 0.
#[local] Instance demo_balancer : WorldStateBalancer balances := {|
  bal_err := unit;
  bal_GetBalance a m := (Ok (default 0 (m !! a)), m);
  bal_UpdateBalance a v m := (Ok tt, <[a := v]> m);
  bal_GetHeight _ := 100;
  bal_GetValidator _ a := if bool_decide (a = "alice") then Some alice else None
|}.
Definition demo_balance (m : balances) (a : string) : Z := default 0 (m !! a).
Definition no_reader : WorldStateReader := MkReader (fun _ => None) [] (fun _ => None).

#[local] Instance demo_balancer_laws :
  BalancerLaws balances (fun m => forall a, 0 <= demo_balance m a) (fun _ => true) demo_balance (fun _ => no_reader).
Proof.
  split; [auto| |done|].
  - intros w a Hw _. by exists w.
  - intros w a v Hw _ Hv. exists (<[a := v]> w).
    assert (Ha : forall b, demo_balance (<[a := v]> w) b = if decide (b = a) then v else demo_balance w b).
    { intros b. unfold demo_balance. case_decide as Hb; [subst b; by rewrite lookup_insert_eq|by rewrite lookup_insert_ne]. }
    split_and!; try done.
    + intros b. rewrite Ha. case_decide; [lia|apply Hw].
    + rewrite Ha. by case_decide.
    + intros b Hb. rewrite Ha. by case_decide.
Qed.

Definition sha (s : string) : list byte := bytes_of_string s.
Definition show (p : BlockProposal) : string := bp_Proposer p.
Notation start m := (NewSlashingManager (Ws:=balances) None m).
Definition funds : balances := <["alice" := 1000]> {["bob" := 500]}.

Lemma funds_ok : forall a, 0 <= demo_balance funds a.
Proof.
  intros a. unfold demo_balance, funds. destruct (decide (a = "alice")) as [->|Ha]; [by vm_compute|].
  rewrite lookup_insert_ne by done. destruct (decide (a = "bob")) as [->|Hb]; [by vm_compute|].
  by rewrite lookup_singleton_ne.
Qed.

Definition signature : list byte :=
  match Sig_Bytes (E:=key_err) (demo_signature x2a) with Ok b => b | _ => [] end.
Definition attest (block : string) : Attestation := MkAttestation "alice" block 64 2 64 signature 0.

Lemma double_vote_punished_witness :
  exists s', ApplyDoubleVoteSlashing sha show DefaultSlashingConfig 0 (Some (attest "b1")) (Some (attest "b2")) (start funds) = (Ok tt, s') /\
    holds demo_balance s' "alice" = after_penalty 1000 (DoubleVotingPenalty DefaultSlashingConfig) /\ holds demo_balance s' "bob" = 500.
Proof.
  destruct (double_vote_punished (fun m => forall a, 0 <= demo_balance m a) (fun _ => true) demo_balance (fun _ => no_reader)
    sha show DefaultSlashingConfig 0 (attest "b1") (attest "b2") (start funds)) as (s' & Hs & Ha & _ & Ho & _);
    [done|exact funds_ok|done|done|by vm_compute|set_solver|].
  exists s'. split; [exact Hs|]. split; [exact Ha|]. by rewrite Ho.
Defined.

(** Alice is punished for ten missed slots; after that nobody is. *)
Definition after_downtime : SlashingManager balances :=
  foldl (fun s slot => snd (ReportMissedAttestation sha show DefaultSlashingConfig 0 "alice" slot s)) (start funds) (seqZ 0 10).

Lemma downtime_punished_only_once_witness :
  holds demo_balance after_downtime "alice" = 990 /\
  holds demo_balance (snd (ReportBlockWithholding sha show DefaultSlashingConfig 0 "bob" after_downtime)) "bob" = 500.
Proof.
  split; [by vm_compute|].
  destruct (downtime_punished_only_once (fun m => forall a, 0 <= demo_balance m a) (fun _ => true) demo_balance (fun _ => no_reader)
    sha show DefaultSlashingConfig 0 "bob" 0 after_downtime) as [_ ->]; [|by vm_compute..].
  intros a. change (0 <= demo_balance (sm_world after_downtime) a). unfold demo_balance.
  replace (sm_world after_downtime) with (<["alice" := 990]> funds)
    by (apply (bool_decide_eq_true (<["alice" := 990]> funds = sm_world after_downtime)); vm_compute; reflexivity).
  destruct (decide (a = "alice")) as [->|Ha]; [by vm_compute|]. rewrite lookup_insert_ne by done. apply funds_ok.
Defined.

(** Evidence of the double vote, and of an invalid proposal, from a reporter. *)
#[local] Existing Instance demo_secp.
#[local] Instance evidence_json : Json SlashingEvidence := {|
  Marshal e := ev_ID e +:+ ev_ReporterAddress e;
  Unmarshal _ := None
|}.
Definition keccak (l : list byte) : list byte := replicate 32 x07.
Definition double_evidence (reporter : string) : SlashingEvidence :=
  MkEvidence "" EvidenceDoubleVoting "alice" (Some (DoubleVoteEvidence (Some (attest "b1")) (Some (attest "b2")))) 1 reporter [] 0 false.
Definition proposal_evidence (reporter : string) : SlashingEvidence :=
  MkEvidence "" EvidenceInvalidProposal "alice"
    (Some (InvalidProposalEvidence (Some (MkBlockProposal None "alice" 0 2 [])) ["bad state root"] "b1")) 1 reporter [] 0 false.
Definition report (ev : string -> SlashingEvidence) (reporters : list string) : SlashingManager balances :=
  foldl (fun s r => snd (ProcessEvidence (Pub:=byte) sha show DefaultSlashingConfig keccak second (ev r) s)) (start funds) reporters.

Lemma three_reporters_before_penalty_witness :
  holds demo_balance (report double_evidence ["bob"; "carol"]) "alice" = 1000 /\
  holds demo_balance (report double_evidence ["bob"; "carol"; "dave"]) "alice" < 1000 /\
  3 <= Z.of_nat (size ({["dave"]} ∪ confirmed_by (report double_evidence ["bob"; "carol"]) (generateID sha (double_evidence "dave")))).
Proof.
  split; [by vm_compute|]. split; [by vm_compute|].
  apply (three_reporters_before_penalty demo_balance sha show DefaultSlashingConfig keccak second (double_evidence "dave")
    (report double_evidence ["bob"; "carol"]) "alice"); [by vm_compute|by vm_compute].
Defined.

Lemma invalid_proposal_evidence_deadlocks_witness :
  exists s', ProcessEvidence (Pub:=byte) sha show DefaultSlashingConfig keccak second (proposal_evidence "dave")
      (report proposal_evidence ["bob"; "carol"]) = (Hang, s') /\
    forall A m (body : GoM (SlashingManager balances) sl_error A), sm_locked m body s' = (Hang, s').
Proof.
  assert (Hadmit : exists ev' h s1, admit_evidence (Pub:=byte) sha keccak second (proposal_evidence "dave")
      (set_sm_mu (MkRW true 0) (report proposal_evidence ["bob"; "carol"])) = (Ok (Some (ev', h)), s1) /\
    sm_mu s1 = MkRW true 0 /\ ev_Type ev' = EvidenceInvalidProposal /\ ev_Evidence ev' = ev_Evidence (proposal_evidence "dave"))
    by (do 3 eexists; split; [vm_compute; reflexivity|done]).
  destruct Hadmit as (ev' & h & s1 & Had & Hmu & Ht & Hev).
  exact (invalid_proposal_evidence_deadlocks sha show DefaultSlashingConfig keccak second (proposal_evidence "dave")
    (report proposal_evidence ["bob"; "carol"]) s1 ev' h (MkBlockProposal None "alice" 0 2 []) ["bad state root"] "b1"
    eq_refl eq_refl Had Hmu Ht Hev).
Defined.
End Demo.
