(* ===== verification/NodeSpec.v ===== *)
(** * The node's consensus components together

    The world state keeps the contract that the slashing manager relies on, the
    slashing manager the one that the fork choice relies on; so what is proved of
    the fork choice against its interface holds of the node.  The world state is
    [World], with the height of the chain beside it and the blocks of the block
    store as a parameter. *)

From S2P Require Import Prelude SafeMath Uint256 Address Storage AccountManager AccountSpec ShardedLock Governance.
From S2P Require Import Domains EvmGas World Executor ExecutorSpec ExecutorThms Revm EvmSpec.
From S2P Require Import Keys ForkChoice ForkChoiceSpec SlashStore Slashing SlashingSpec.
From stdpp Require Import base tactics numbers list gmap strings sorting.
From Stdlib Require Import ZArith Lia Strings.Byte Strings.Ascii.
Open Scope Z_scope.
Open Scope list_scope.

Section Node.
Context `{MapOrder} {C F : Type} `{LRU C, !LRULaws C}.
Context (Keccak256 : list byte -> list byte) (shardID totalShards : Z) (blocks : string -> option Block).

(** The world state and the height of the chain. *)
Definition chain_world : Type := (@world C F * Z)%type.

Definition on_world {E A} (m : GoM (@world C F) E A) : GoM chain_world E A := fun s =>
  let '(r, w) := m (fst s) in (r, (w, snd s)).

Definition world_balancer : WorldStateBalancer chain_world := {|
  bal_err := ws_err;
  bal_GetBalance a := on_world (ws_GetBalance Keccak256 shardID totalShards a);
  bal_UpdateBalance a v := on_world (ws_UpdateBalance Keccak256 shardID totalShards a (Some v));
  bal_GetHeight := snd;
  bal_GetValidator s a := w_validators (fst s) !! a
|}.
#[local] Existing Instance world_balancer.

Definition world_reader (s : chain_world) : WorldStateReader :=
  MkReader (fun a => w_validators (fst s) !! a) (GetActiveValidators (registry_of (fst s))) blocks.

Definition world_balance (s : chain_world) (a : string) : Z := bal (entry (abs (w_am (fst s))) a).
Definition world_ok (s : chain_world) : Prop := wgood Keccak256 shardID totalShards (fst s).
Notation ok := (ok_addr Keccak256 shardID totalShards).

(** *** Balance calls leave the rest of the world alone *)

Definition same_validators (w w' : @world C F) : Prop := w_validators w' = w_validators w.

Lemma guarded_validators {E A} m key (body : GoM am E A) (w : @world C F) :
  w_locks w = NewShardedMutex -> fst (body (w_am w)) <> Hang ->
  same_validators w (snd (guarded [Acq m (getShardIndex key)] [Rel m (getShardIndex key)] (on_accounts body) w)).
Proof. intros Hl Hh. by rewrite guarded_run. Qed.

Lemma world_get (w : @world C F) a :
  wgood Keccak256 shardID totalShards w -> ok a = true ->
  exists w', ws_GetBalance Keccak256 shardID totalShards a w = (Ok (bal (entry (abs (w_am w)) a)), w') /\
    wgood Keccak256 shardID totalShards w' /\ abs (w_am w') = abs (w_am w) /\ same_validators w w'.
Proof.
  intros Hw Hk. destruct (ws_GetBalance_run Keccak256 shardID totalShards a w Hw Hk) as (w' & Hget & Hw' & Hdb).
  exists w'. split_and!; [done|done|by apply abs_db|].
  unfold ws_GetBalance, ws_GetAccount, mbind, GoM_bind in Hget.
  destruct (GetAccount_ok Keccak256 shardID totalShards a (w_am w) (wg_inv _ _ _ _ Hw) (wg_quiet _ _ _ _ Hw) Hk)
    as (l & acc & s' & Hg & _ & _ & Hh & _).
  unfold RLock, RUnlock, on_am in Hget. rewrite guarded_run in Hget by (apply Hw || unfold wrapM; rewrite Hg; done).
  unfold wrapM in Hget. rewrite Hg in Hget. simpl in Hget. rewrite on_accounts_run in Hget. simpl in Hget.
  rewrite (load_run l acc) in Hget by done. simpl in Hget. unfold lift in Hget. by injection Hget as _ <-.
Qed.

Lemma world_update (w : @world C F) a v :
  wgood Keccak256 shardID totalShards w -> ok a = true -> 0 <= v < two256 ->
  exists w', ws_UpdateBalance Keccak256 shardID totalShards a (Some v) w = (Ok tt, w') /\
    wgood Keccak256 shardID totalShards w' /\
    abs (w_am w') = <[a := with_bal v (entry (abs (w_am w)) a)]> (abs (w_am w)) /\ same_validators w w'.
Proof.
  intros Hw Hk Hv. destruct (ws_UpdateBalance_run Keccak256 shardID totalShards a v w Hw Hk Hv) as (w' & Hup & Hw' & Habs & _).
  exists w'. split_and!; try done.
  pose proof (guarded_validators W a (set_balance (C:=C) Keccak256 shardID totalShards a (Some v)) w (wg_locks _ _ _ _ Hw)) as Hg.
  unfold ws_UpdateBalance, Lock, Unlock in Hup. rewrite Hup in Hg. apply Hg. intros Hh.
  revert Hup. unfold guarded, deferred, mbind, GoM_bind.
  destruct (call_mutexes [Acq W (getShardIndex a)] w) as [[]] eqn:Ha; try done.
  assert (Ham : w_am w0 = w_am w).
  { revert Ha. unfold call_mutexes, call_mutex, mbind, GoM_bind, mret, GoM_ret. simpl. repeat case_match; intros; by simplify_eq/=. }
  unfold on_accounts. rewrite Ham. destruct (set_balance _ _ _ a (Some v) (w_am w)) as [r s1]. simpl in Hh. by subst r.
Qed.

Lemma world_unknown (w : @world C F) a :
  wgood Keccak256 shardID totalShards w -> ok a = false ->
  exists e, ws_GetBalance Keccak256 shardID totalShards a w = (Err e, w).
Proof.
  intros Hw Hk. destruct (GetAccount_err Keccak256 shardID totalShards a (w_am w) Hk) as [e He].
  exists (AccountError e). unfold ws_GetBalance, ws_GetAccount, mbind, GoM_bind, RLock, RUnlock, on_am.
  rewrite guarded_run by (apply Hw || unfold wrapM; rewrite He; done). unfold wrapM. rewrite He. simpl. by destruct w.
Qed.

Lemma world_balancer_laws : BalancerLaws chain_world world_ok ok world_balance world_reader.
Proof.
  assert (Hrd : forall (w w' : @world C F) h, same_validators w w' -> world_reader (w', h) = world_reader (w, h)).
  { intros w w' h Hv. unfold world_reader, registry_of, GetActiveValidators. simpl. by rewrite Hv. }
  assert (Hrange : forall (w : @world C F) a, wgood Keccak256 shardID totalShards w -> 0 <= bal (entry (abs (w_am w)) a) < two256).
  { intros w a Hw. rewrite abs_entry. destruct (dbView (db (w_am w)) !! a) as [acc|] eqn:Ha; [|by vm_compute].
    destruct (good_entry Keccak256 shardID totalShards ∅ (w_am w) a acc (wg_inv _ _ _ _ Hw) Ha) as (Hc & _).
    simpl. apply canon_range, Hc. }
  split.
  - intros [w h] a Hw. by apply (Hrange w a).
  - intros [w h] a Hw Hk. destruct (world_get w a Hw Hk) as (w' & Hget & Hw' & Habs & Hv).
    exists (w', h). unfold world_balance. simpl. unfold on_world. simpl. rewrite Hget, Habs. split_and!; try done. by apply Hrd.
  - intros [w h] a Hw Hk. destruct (world_unknown w a Hw Hk) as [e He]. exists e. simpl. unfold on_world. simpl. by rewrite He.
  - intros [w h] a v Hw Hk Hv. unfold world_balance in *. simpl in *. pose proof (Hrange w a Hw).
    destruct (world_update w a v Hw Hk) as (w' & Hup & Hw' & Habs & Hsv); [lia|].
    exists (w', h). unfold on_world. simpl. rewrite Hup, Habs. split_and!; try done.
    + by rewrite entry_insert.
    + intros b Hb. by rewrite entry_insert_ne.
    + by apply Hrd.
Qed.

(** *** The fork choice on the real components *)

Definition keyed (w : @world C F) : Prop := forall a v, w_validators w !! a = Some v -> val_Address v = a.

Lemma world_reader_ok w h : keyed w -> reader_ok (world_reader (w, h)).
Proof.
  intros Hk a v Ha Hact. simpl in *. split; [|by apply Hk].
  unfold GetActiveValidators. rewrite merge_sort_Permutation. apply list_elem_of_filter. split; [by rewrite Hact|].
  unfold values. apply list_elem_of_omap. exists a. split; [|done]. apply map_order_elem. by apply elem_of_dom.
Qed.

Section Quorum.
Context `{Json Checkpoint} (Sha256 : string -> list byte) (show_proposal : BlockProposal -> string) (config : SlashingConfig).

Definition node_slasher : Slasher (SlashingManager chain_world) := manager_slasher world_reader Sha256 show_proposal config.
#[local] Existing Instance node_slasher.

(** In the node as it is put together, with the slashing manager and the
    world state behind the fork choice, two blocks of one epoch never both hold
    two thirds of the stake: whatever attestations, blocks, checkpoints and
    cleanups arrive, each vote counts once, with the stake of its validator, as long as
    the validators stay the same and every attestation names the epoch of its block
    ([call_ok]), which the code does not check. *)
Theorem node_one_quorum_per_epoch cfg lim ep (w : @world C F) h storage (cs : list call) b c :
  0 <= MaxAttestationsPerBlock cfg -> percent_ok (DoubleVotingPenalty config) ->
  wgood Keccak256 shardID totalShards w -> keyed w -> Forall (call_ok ep) cs ->
  let rd := world_reader (w, h) in
  let fc := fst (run_calls cfg lim rd cs (NewForkChoiceWithConfig, NewSlashingManager storage (w, h))) in
  (forall x s, blockScores fc !! x = Some s -> ParseBigInt_string s = stake_sum rd (voters fc x)) /\
  (ep b = ep c ->
   quorum_threshold (active_stake (rd_GetActiveValidators rd)) <= scored fc b ->
   quorum_threshold (active_stake (rd_GetActiveValidators rd)) <= scored fc c -> b = c).
Proof.
  intros Hcap Hp Hw Hk Hcs rd fc.
  pose proof (slashing_manager_contract world_ok ok world_balance world_reader (BalancerLaws0 := world_balancer_laws)
    Sha256 show_proposal config Hp) as Hlaws.
  assert (Hm : manager_ok world_ok (NewSlashingManager storage (w, h))) by (by destruct storage).
  assert (Hr : sl_reader (NewSlashingManager storage (w, h)) = rd) by (by destruct storage).
  apply (one_quorum_per_epoch (manager_ok world_ok) cfg lim rd ep (NewSlashingManager storage (w, h)) cs b c); try done.
  by apply world_reader_ok.
Qed.
End Quorum.
End Node.

(** ** A node with three validators *)

Module Demo.
#[local] Instance demo_LRU5 : LRU (list (string * loc)) := list_LRU 1.
#[local] Instance demo_LRU5_laws : LRULaws (list (string * loc)) := list_LRU_laws 1.
#[local] Existing Instance ForkChoiceSpec.Demo.checkpoint_json.

Definition three_validators : demo_state :=
  MkWorld (AccountSpec.start demo_kv) NewShardedMutex no_versions
    (list_to_map ((fun v => (v, ForkChoiceSpec.Demo.validator v)) <$> ForkChoiceSpec.Demo.names)) demo_config new_revm.

Lemma three_keyed : keyed three_validators.
Proof.
  intros a v Ha. apply elem_of_list_to_map_2 in Ha. simpl in Ha. rewrite !elem_of_cons, elem_of_nil in Ha.
  by destruct Ha as [[= -> ->]|[[= -> ->]|[[= -> ->]|[]]]].
Qed.

Lemma three_good : wgood no_hash BeaconShardID 1 three_validators.
Proof. split; [apply start_inv|done|done]. Qed.

#[local] Instance three_slasher : Slasher (SlashingManager (@chain_world (list (string * loc)) permille)) :=
  node_slasher no_hash BeaconShardID 1 (fun _ => None) SlashingSpec.Demo.sha SlashingSpec.Demo.show DefaultSlashingConfig.

Notation node_after cs := (fst (run_calls DefaultForkChoiceConfig ForkChoiceSpec.Demo.limits
    (world_reader (fun _ => None) (three_validators, 100)) cs
    (NewForkChoiceWithConfig, NewSlashingManager None (three_validators, 100)))).

(** Alice and Bob vote for one block; Bob's second vote does not count, Carol's does. *)
Lemma node_one_quorum_per_epoch_witness :
  scored (node_after ForkChoiceSpec.Demo.calls) "block-one" = 2 /\ scored (node_after ForkChoiceSpec.Demo.calls) "block-two" = 1 /\
  ParseBigInt_string "2" = stake_sum (world_reader (fun _ => None) (three_validators, 100))
    (voters (node_after ForkChoiceSpec.Demo.calls) "block-one").
Proof.
  split; [by vm_compute|]. split; [by vm_compute|].
  apply (node_one_quorum_per_epoch no_hash BeaconShardID 1 (fun _ => None) SlashingSpec.Demo.sha SlashingSpec.Demo.show
    DefaultSlashingConfig DefaultForkChoiceConfig ForkChoiceSpec.Demo.limits (fun _ => 7) three_validators 100 None
    ForkChoiceSpec.Demo.calls "block-one" "block-two");
    [done|by vm_compute|apply three_good|apply three_keyed|by repeat constructor|by vm_compute].
Defined.
End Demo.
