(* ===== verification/Floats.v ===== *)
(** * Floating point: float64 and math/big.Float

    The parts of Go's arithmetic that the reward and selection code uses.  A
    finite value is a dyadic number [mant * 2^expo]; every operation computes the
    exact rational result and rounds it to the nearest value of the precision,
    ties to even, which is what IEEE 754 and math/big specify.  [float64] has 53
    bits, exponents from -1074 to 971, infinities and NaN; a [bigfloat] carries
    its precision and has no exponent limit (Go's is 2^31).  The sign of zero,
    which nothing here observes, is left out. *)

From S2P Require Import Prelude.
From stdpp Require Import base tactics numbers list.
From Stdlib Require Import ZArith QArith Qpower Lia Lqa.
Open Scope Z_scope.

(** ** Rounding *)

Record dyadic : Type := Dy { mant : Z; expo : Z }.
#[global] Instance dyadic_eq_dec : EqDecision dyadic.
Proof. solve_decision. Defined.

(** 2^e for a positive exponent, else 1. *)
Definition up (e : Z) : Z := 2 ^ Z.max 0 e.

(** [n/d], for [0 <= n] and [0 < d], to the nearest multiple of 2^e, ties to even. *)
Definition round_at (e n d : Z) : Z :=
  let num := n * up (- e) in
  let den := d * up e in
  let q := num / den in
  let r := num mod den in
  if (2 * r <? den) || ((2 * r =? den) && Z.even q) then q else q + 1.

(** The exponent with which [n/d] has [p] bits. *)
Definition exponent (p n d : Z) : Z :=
  let e := Z.log2 n - Z.log2 d - p in
  if 2 ^ p * (d * up e) <=? n * up (- e) then e + 1 else e.

Definition round_with (p e n d : Z) : dyadic :=
  let m := round_at e n d in
  if m =? 2 ^ p then Dy (2 ^ (p - 1)) (e + 1) else Dy m e.

Definition signed (n : Z) (x : dyadic) : dyadic := Dy (Z.sgn n * mant x) (expo x).

(** ** float64 *)

Inductive float64 : Type := Fin (x : dyadic) | Inf (negative : bool) | NaN.
#[global] Instance float64_eq_dec : EqDecision float64.
Proof. solve_decision. Defined.

Definition round64 (n d : Z) : float64 :=
  if n =? 0 then Fin (Dy 0 0)
  else
    let x := signed n (round_with 53 (Z.max (-1074) (exponent 53 (Z.abs n) d)) (Z.abs n) d) in
    if 971 <? expo x then Inf (n <? 0) else Fin x.

(** The dyadic number [m * 2^e], rounded. *)
Definition round64_dy (m e : Z) : float64 := round64 (m * up e) (up (- e)).

Definition f64_of_int (n : Z) : float64 := round64 n 1.
(** A decimal constant of the source, [n/d]. *)
Definition f64_const (n d : Z) : float64 := round64 n d.

Definition dy_add (x y : dyadic) : dyadic :=
  let e := Z.min (expo x) (expo y) in
  Dy (mant x * up (expo x - e) + mant y * up (expo y - e)) e.
Definition dy_compare (x y : dyadic) : comparison :=
  let e := Z.min (expo x) (expo y) in
  Z.compare (mant x * up (expo x - e)) (mant y * up (expo y - e)).

Definition f64_neg (x : float64) : float64 :=
  match x with Fin x => Fin (Dy (- mant x) (expo x)) | Inf s => Inf (negb s) | NaN => NaN end.
Definition f64_abs (x : float64) : float64 :=
  match x with Fin x => Fin (Dy (Z.abs (mant x)) (expo x)) | Inf _ => Inf false | NaN => NaN end.
Definition f64_add (x y : float64) : float64 :=
  match x, y with
  | Fin x, Fin y => let z := dy_add x y in round64_dy (mant z) (expo z)
  | Inf s, Inf s' => if Bool.eqb s s' then Inf s else NaN
  | Inf s, Fin _ | Fin _, Inf s => Inf s
  | NaN, _ | _, NaN => NaN
  end.
Definition f64_sub (x y : float64) : float64 := f64_add x (f64_neg y).
Definition f64_mul (x y : float64) : float64 :=
  match x, y with
  | Fin x, Fin y => round64_dy (mant x * mant y) (expo x + expo y)
  | Inf s, Inf s' => Inf (xorb s s')
  | Inf s, Fin z | Fin z, Inf s => if mant z =? 0 then NaN else Inf (xorb s (mant z <? 0))
  | NaN, _ | _, NaN => NaN
  end.
Definition f64_div (x y : float64) : float64 :=
  match x, y with
  | Fin x, Fin y =>
      if mant y =? 0 then (if mant x =? 0 then NaN else Inf (mant x <? 0))
      else round64 (mant x * up (expo x - expo y) * Z.sgn (mant y)) (Z.abs (mant y) * up (expo y - expo x))
  | Inf s, Fin y => Inf (xorb s (mant y <? 0))
  | Fin _, Inf _ => Fin (Dy 0 0)
  | Inf _, Inf _ | NaN, _ | _, NaN => NaN
  end.

(** [None] if one of them is NaN: every comparison is false then. *)
Definition f64_compare (x y : float64) : option comparison :=
  match x, y with
  | NaN, _ | _, NaN => None
  | Fin x, Fin y => Some (dy_compare x y)
  | Inf s, Inf s' => Some (if Bool.eqb s s' then Eq else if s then Lt else Gt)
  | Inf s, Fin _ => Some (if s then Lt else Gt)
  | Fin _, Inf s => Some (if s then Gt else Lt)
  end.
Definition f64_lt (x y : float64) : bool := match f64_compare x y with Some Lt => true | _ => false end.
Definition f64_le (x y : float64) : bool := match f64_compare x y with Some Lt | Some Eq => true | _ => false end.
Definition f64_eq (x y : float64) : bool := match f64_compare x y with Some Eq => true | _ => false end.

(** [math.Min] and [math.Max] on numbers (NaN gives NaN). *)
Definition f64_min (x y : float64) : float64 :=
  match f64_compare x y with None => NaN | Some Gt => y | _ => x end.
Definition f64_max (x y : float64) : float64 :=
  match f64_compare x y with None => NaN | Some Lt => y | _ => x end.

(** [int64(x)]: towards zero; out of range the result of the amd64 conversion. *)
Definition int64_of_f64 (x : float64) : Z :=
  match x with
  | Fin a => let n := Z.quot (mant a * up (expo a)) (up (- expo a)) in if bool_decide (is_i64 n) then n else MinInt64
  | _ => MinInt64
  end.

(** [math.Float64frombits]. *)
Definition Float64frombits (b : Z) : float64 :=
  let neg := Z.testbit b 63 in
  let s := if neg then -1 else 1 in
  let ex := Z.land (Z.shiftr b 52) 2047 in
  let fr := Z.land b (2 ^ 52 - 1) in
  if ex =? 2047 then (if fr =? 0 then Inf neg else NaN)
  else if ex =? 0 then Fin (Dy (s * fr) (-1074))
  else Fin (Dy (s * (fr + 2 ^ 52)) (ex - 1075)).

(** ** math/big.Float *)

Record bigfloat : Type := BF { bf_prec : Z; bf_val : dyadic + bool (* [inr negative] is an infinity *) }.

Definition BitLen (n : Z) : Z := if n =? 0 then 0 else Z.log2 (Z.abs n) + 1.

(** [new(big.Float).SetInt(n)]. *)
Definition SetInt (n : Z) : bigfloat := BF (Z.max 64 (BitLen n)) (inl (Dy n 0)).
(** [big.NewFloat(x)] panics on NaN. *)
Definition NewFloat {E} (x : float64) : outcome E bigfloat :=
  match x with
  | Fin x => Ok (BF 53 (inl x))
  | Inf s => Ok (BF 53 (inr s))
  | NaN => Panic
  end.

Definition big_round (p n d : Z) : dyadic :=
  if n =? 0 then Dy 0 0 else signed n (round_with p (exponent p (Z.abs n) d) (Z.abs n) d).

(** [z.Mul(x, y)] with the precision [p] of [z]: 0 stands for a fresh [z]. *)
Definition result_prec (p : Z) (x y : bigfloat) : Z := if p =? 0 then Z.max (bf_prec x) (bf_prec y) else p.
Definition big_Mul {E} (p : Z) (x y : bigfloat) : outcome E bigfloat :=
  let p := result_prec p x y in
  match bf_val x, bf_val y with
  | inl a, inl b => Ok (BF p (inl (big_round p (mant a * mant b * up (expo a + expo b)) (up (- (expo a + expo b))))))
  | inr s, inr s' => Ok (BF p (inr (xorb s s')))
  | inr s, inl a | inl a, inr s => if mant a =? 0 then Panic else Ok (BF p (inr (xorb s (mant a <? 0))))
  end.
Definition big_Quo {E} (p : Z) (x y : bigfloat) : outcome E bigfloat :=
  let p := result_prec p x y in
  match bf_val x, bf_val y with
  | inl a, inl b =>
      if mant b =? 0 then (if mant a =? 0 then Panic else Ok (BF p (inr (mant a <? 0))))
      else Ok (BF p (inl (big_round p (mant a * up (expo a - expo b) * Z.sgn (mant b)) (Z.abs (mant b) * up (expo b - expo a)))))
  | inr s, inl b => Ok (BF p (inr (xorb s (mant b <? 0))))
  | inl _, inr _ => Ok (BF p (inl (Dy 0 0)))
  | inr _, inr _ => Panic
  end.

(** [x.Int(nil)]: towards zero; an infinity has none. *)
Definition big_Int (x : bigfloat) : option Z :=
  match bf_val x with
  | inl a => Some (Z.quot (mant a * up (expo a)) (up (- expo a)))
  | inr _ => None
  end.
(** [x.Int64()]: out of range it is the nearest bound. *)
Definition big_Int64 (x : bigfloat) : Z :=
  match bf_val x with
  | inl a => Z.max (- 2 ^ 63) (Z.min (2 ^ 63 - 1) (Z.quot (mant a * up (expo a)) (up (- expo a))))
  | inr s => if s then - 2 ^ 63 else 2 ^ 63 - 1
  end.
Definition big_Float64 (x : bigfloat) : float64 :=
  match bf_val x with inl a => round64_dy (mant a) (expo a) | inr s => Inf s end.

(** Agreement with the hardware on a few values: 0.1 + 0.2, 0.6 + 0.3, 1/3, the
    smallest and the largest numbers, an overflow. *)
Example f64_samples :
  f64_add (f64_const 1 10) (f64_const 2 10) = Float64frombits 0x3fd3333333333334 /\
  f64_add (f64_const 6 10) (f64_const 3 10) = Float64frombits 0x3feccccccccccccc /\
  f64_div (f64_of_int 1) (f64_of_int 3) = Float64frombits 0x3fd5555555555555 /\
  f64_mul (Float64frombits 1) (f64_const 6 10) = Float64frombits 1 /\
  f64_of_int (2 ^ 53 + 1) = Float64frombits 0x4340000000000000 /\
  f64_add (Float64frombits 0x7fefffffffffffff) (f64_of_int (2 ^ 970)) = Inf false.
Proof. by vm_compute. Qed.

(** ** Values

    What a dyadic number stands for, and the facts on rounding: it never crosses
    a number of the precision, and it is off by at most half a unit in the last
    place. *)

Definition p2 (e : Z) : Q := Qpower 2 e.
Definition toQ (x : dyadic) : Q := inject_Z (mant x) * p2 (expo x).

Lemma up_pos e : 0 < up e.
Proof. apply Z.pow_pos_nonneg; lia. Qed.
Lemma p2_pos e : (0 < p2 e)%Q.
Proof. by apply Qpower_0_lt. Qed.
Lemma p2_add e f : (p2 (e + f) == p2 e * p2 f)%Q.
Proof. by apply Qpower_plus. Qed.
Lemma p2_inject e : 0 <= e -> (p2 e == inject_Z (2 ^ e))%Q.
Proof. intros He. unfold p2. by rewrite Zpower_Qpower. Qed.
Lemma p2_le e f : e <= f -> (p2 e <= p2 f)%Q.
Proof.
  intros He. replace f with (e + (f - e)) by lia. rewrite p2_add, (p2_inject (f - e)) by lia.
  pose proof (p2_pos e). assert (1 <= inject_Z (2 ^ (f - e)))%Q.
  { change 1%Q with (inject_Z 1). rewrite <-Zle_Qle. pose proof (Z.pow_pos_nonneg 2 (f - e)). lia. }
  nra.
Qed.

Lemma up_split e : (inject_Z (up e) == p2 e * inject_Z (up (- e)))%Q.
Proof.
  unfold up. destruct (Z.le_ge_cases 0 e).
  - rewrite (Z.max_r 0 e), (Z.max_l 0 (- e)) by lia. rewrite p2_inject by lia. change (inject_Z (2 ^ 0)) with 1%Q. ring.
  - rewrite (Z.max_l 0 e), (Z.max_r 0 (- e)) by lia. rewrite <-(p2_inject (- e)) by lia. rewrite <-p2_add.
    replace (e + - e) with 0 by lia. reflexivity.
Qed.

Lemma up_Q e : (0 < inject_Z (up e))%Q.
Proof. change 0%Q with (inject_Z 0). rewrite <-Zlt_Qlt. apply up_pos. Qed.

(** The integer tests of the definitions, as rationals. *)
Lemma at_scale M n d e : 0 < d ->
  (M * (d * up e) <= n * up (- e) <-> (inject_Z M * p2 e <= inject_Z n / inject_Z d)%Q) /\
  (n * up (- e) <= M * (d * up e) <-> (inject_Z n / inject_Z d <= inject_Z M * p2 e)%Q).
Proof.
  intros Hd. assert (Hd' : (0 < inject_Z d)%Q) by (change 0%Q with (inject_Z 0); by rewrite <-Zlt_Qlt).
  pose proof (up_Q (- e)) as Hu. pose proof (p2_pos e) as Hp.
  assert (Hq : (inject_Z n / inject_Z d * inject_Z d == inject_Z n)%Q) by (field; lra).
  assert (Ht : (0 < inject_Z d * inject_Z (up (- e)))%Q) by (apply Qmult_lt_0_compat; done).
  assert (Hl : (inject_Z M * (inject_Z d * (p2 e * inject_Z (up (- e)))) == inject_Z M * p2 e * (inject_Z d * inject_Z (up (- e))))%Q) by ring.
  assert (Hr : (inject_Z n * inject_Z (up (- e)) == inject_Z n / inject_Z d * (inject_Z d * inject_Z (up (- e))))%Q)
    by (rewrite <-Hq at 1; ring).
  split; rewrite Zle_Qle, !inject_Z_mult, (up_split e), Hl, Hr; by apply Qmult_le_r.
Qed.

Lemma round_at_le e n d X : 0 <= n -> 0 < d -> n * up (- e) <= X * (d * up e) -> round_at e n d <= X.
Proof.
  intros Hn Hd Hle. unfold round_at. pose proof (up_pos e). pose proof (up_pos (- e)).
  set (num := n * up (- e)) in *. set (den := d * up e) in *. assert (0 < den) by (unfold den; nia).
  pose proof (Z.div_mod num den). pose proof (Z.mod_pos_bound num den).
  assert (Hq : num / den <= X) by (apply Z.div_le_upper_bound; lia).
  destruct ((2 * (num mod den) <? den) || _) eqn:Ht; [done|].
  destruct (decide (num / den = X)) as [E|?]; [|lia]. exfalso.
  assert (num mod den = 0) by nia. zbool. lia.
Qed.

Lemma round_at_ge e n d X : 0 < d -> X * (d * up e) <= n * up (- e) -> X <= round_at e n d.
Proof.
  intros Hd Hle. unfold round_at. pose proof (up_pos e). pose proof (up_pos (- e)).
  set (num := n * up (- e)) in *. set (den := d * up e) in *. assert (0 < den) by (unfold den; nia).
  assert (Hq : X <= num / den) by (apply Z.div_le_lower_bound; lia).
  destruct ((2 * (num mod den) <? den) || _); lia.
Qed.

(** At most half a unit up. *)
Lemma round_at_half e n d : 0 < d -> 2 * (round_at e n d * (d * up e)) <= 2 * (n * up (- e)) + d * up e.
Proof.
  intros Hd. unfold round_at. pose proof (up_pos e). pose proof (up_pos (- e)).
  set (num := n * up (- e)) in *. set (den := d * up e) in *. assert (0 < den) by (unfold den; nia).
  pose proof (Z.div_mod num den). pose proof (Z.mod_pos_bound num den).
  destruct ((2 * (num mod den) <? den) || _) eqn:Ht; [nia|]. zbool. nia.
Qed.

Lemma round_at_nonneg e n d : 0 <= n -> 0 < d -> 0 <= round_at e n d.
Proof. intros Hn Hd. apply round_at_ge; [done|]. pose proof (up_pos (- e)). nia. Qed.

Lemma exponent_spec p n d : 0 < p -> 0 < n -> 0 < d ->
  (p2 (p - 1 + exponent p n d) <= inject_Z n / inject_Z d)%Q /\ (inject_Z n / inject_Z d < p2 (p + exponent p n d))%Q.
Proof.
  intros Hp Hn Hd. assert (Hd' : (0 < inject_Z d)%Q) by (change 0%Q with (inject_Z 0); by rewrite <-Zlt_Qlt).
  set (k := Z.log2 n). set (l := Z.log2 d). pose proof (Z.log2_nonneg n). pose proof (Z.log2_nonneg d).
  pose proof (Z.log2_spec n Hn) as [Hn1 Hn2]. pose proof (Z.log2_spec d Hd) as [Hd1 Hd2]. fold k in Hn1, Hn2. fold l in Hd1, Hd2.
  rewrite Zle_Qle, <-p2_inject in Hn1, Hd1 by (unfold k, l; lia).
  rewrite Zlt_Qlt, <-p2_inject in Hn2, Hd2 by (unfold k, l; lia).
  assert (Hq : (inject_Z n / inject_Z d * inject_Z d == inject_Z n)%Q) by (field; lra).
  pose proof (p2_pos k). pose proof (p2_pos l). pose proof (p2_pos (k - l - p)).
  assert (Hlow : (p2 (k - l - 1) <= inject_Z n / inject_Z d)%Q).
  { assert (Heq : (p2 (k - l - 1) * p2 (Z.succ l) == p2 k)%Q) by (rewrite <-p2_add; replace (k - l - 1 + Z.succ l) with k by lia; reflexivity).
    pose proof (p2_pos (k - l - 1)). apply Qmult_le_r with (z := inject_Z d); [done|]. rewrite Hq. nra. }
  assert (Hhigh : (inject_Z n / inject_Z d < p2 (k - l + 1))%Q).
  { assert (Heq : (p2 (k - l + 1) * p2 l == p2 (Z.succ k))%Q) by (rewrite <-p2_add; replace (k - l + 1 + l) with (Z.succ k) by lia; reflexivity).
    pose proof (p2_pos (k - l + 1)). apply Qmult_lt_r with (z := inject_Z d); [done|]. rewrite Hq. nra. }
  unfold exponent. fold k l. set (e := k - l - p) in *.
  destruct (Z.leb_spec (2 ^ p * (d * up e)) (n * up (- e))) as [Hle|Hgt].
  - apply (at_scale (2 ^ p) n d e Hd) in Hle. rewrite <-p2_inject, <-p2_add in Hle by lia.
    replace (p - 1 + (e + 1)) with (p + e) by lia. replace (p + (e + 1)) with (k - l + 1) by (unfold e; lia). done.
  - replace (p - 1 + e) with (k - l - 1) by (unfold e; lia). split; [done|].
    apply Qnot_le_lt. intros Hle. revert Hgt. apply Zle_not_lt. apply (at_scale (2 ^ p) n d e Hd).
    by rewrite <-p2_inject, <-p2_add by lia.
Qed.

Lemma round_with_value p e n d : 0 < p -> (toQ (round_with p e n d) == inject_Z (round_at e n d) * p2 e)%Q.
Proof.
  intros Hp. unfold round_with. destruct (Z.eqb_spec (round_at e n d) (2 ^ p)) as [->|]; [|reflexivity].
  unfold toQ. simpl. rewrite p2_add, <-!p2_inject by lia. rewrite (Qmult_comm (p2 e)), Qmult_assoc, <-p2_add.
  replace (p - 1 + 1) with p by lia. reflexivity.
Qed.

Lemma coarser M E e : e <= E -> (inject_Z M * p2 E == inject_Z (M * 2 ^ (E - e)) * p2 e)%Q.
Proof.
  intros He. rewrite inject_Z_mult, <-p2_inject, <-Qmult_assoc, <-p2_add by lia.
  replace (E - e + e) with E by lia. reflexivity.
Qed.

(** Rounding stays on its side of a number of the precision. *)
Lemma round_with_le p emin n d M E :
  0 < p -> 0 < n -> 0 < d -> M < 2 ^ p -> (forall m, emin = Some m -> m <= E) ->
  let e := match emin with Some m => Z.max m (exponent p n d) | None => exponent p n d end in
  (inject_Z n / inject_Z d <= inject_Z M * p2 E)%Q -> (toQ (round_with p e n d) <= inject_Z M * p2 E)%Q.
Proof.
  intros Hp Hn Hd HM Hmin e Hle. rewrite round_with_value by done.
  assert (He : e <= E).
  { destruct (Z.le_gt_cases e E) as [|Hgt]; [done|]. exfalso.
    assert (Hex : E < exponent p n d) by (destruct emin as [m|]; [specialize (Hmin m eq_refl); lia|done]).
    destruct (exponent_spec p n d Hp Hn Hd) as [Hlow _].
    pose proof (p2_le (p + E) (p - 1 + exponent p n d) ltac:(lia)) as H1. rewrite p2_add, (p2_inject p) in H1 by lia.
    assert (HM' : (inject_Z M < inject_Z (2 ^ p))%Q) by (by rewrite <-Zlt_Qlt). pose proof (p2_pos E). nra. }
  rewrite (coarser M E e He) in Hle |- *.
  apply (at_scale _ n d e Hd) in Hle. apply round_at_le in Hle; [|lia|done].
  rewrite Zle_Qle in Hle. pose proof (p2_pos e). nra.
Qed.

Lemma round_with_ge p emin n d M E :
  0 < p -> 0 < n -> 0 < d -> 0 <= M < 2 ^ p -> (forall m, emin = Some m -> m <= E) ->
  let e := match emin with Some m => Z.max m (exponent p n d) | None => exponent p n d end in
  (inject_Z M * p2 E <= inject_Z n / inject_Z d)%Q -> (inject_Z M * p2 E <= toQ (round_with p e n d))%Q.
Proof.
  intros Hp Hn Hd HM Hmin e Hle. rewrite round_with_value by done. pose proof (p2_pos e) as Hpe.
  destruct (Z.le_gt_cases e E) as [He|Hgt].
  - rewrite (coarser M E e He) in Hle |- *.
    apply (at_scale _ n d e Hd) in Hle. apply round_at_ge in Hle; [|done].
    rewrite Zle_Qle in Hle. nra.
  - assert (Hex : e = exponent p n d) by (destruct emin as [m|]; [specialize (Hmin m eq_refl); lia|done]).
    destruct (exponent_spec p n d Hp Hn Hd) as [Hlow _]. rewrite <-Hex in Hlow.
    rewrite p2_add, p2_inject in Hlow by lia. apply (at_scale _ n d e Hd) in Hlow. apply round_at_ge in Hlow; [|done].
    rewrite Zle_Qle in Hlow. pose proof (p2_le (p + E) (p - 1 + e) ltac:(lia)) as H1. rewrite !p2_add, (p2_inject p), (p2_inject (p - 1)) in H1 by lia.
    assert (HM' : (inject_Z M <= inject_Z (2 ^ p))%Q) by (rewrite <-Zle_Qle; lia).
    apply Qle_trans with (inject_Z (2 ^ p) * p2 E)%Q; [apply Qmult_le_r; [apply p2_pos|done]|].
    apply Qle_trans with (inject_Z (2 ^ (p - 1)) * p2 e)%Q; [done|]. by apply Qmult_le_r.
Qed.

(** The relative error of rounding to [p] bits. *)
Lemma round_with_error p n d : 0 < p -> 0 < n -> 0 < d ->
  (toQ (round_with p (exponent p n d) n d) * inject_Z (2 ^ p) <= inject_Z n / inject_Z d * inject_Z (2 ^ p + 1))%Q.
Proof.
  intros Hp Hn Hd. rewrite round_with_value by done. set (e := exponent p n d).
  destruct (exponent_spec p n d Hp Hn Hd) as [Hlow _]. fold e in Hlow.
  pose proof (round_at_half e n d Hd) as Hh. set (m := round_at e n d) in *.
  assert (Hd' : (0 < inject_Z d)%Q) by (change 0%Q with (inject_Z 0); by rewrite <-Zlt_Qlt).
  assert (Hh' : ((2 * inject_Z m - 1) * p2 e <= 2 * (inject_Z n / inject_Z d))%Q).
  { assert (Hz : (2 * m - 1) * (d * up e) <= (2 * n) * up (- e)) by nia.
    apply (at_scale (2 * m - 1) (2 * n) d e Hd) in Hz. rewrite inject_Z_mult in Hz.
    assert (Hi : (inject_Z (2 * m - 1) == 2 * inject_Z m - 1)%Q).
    { unfold Z.sub. rewrite inject_Z_plus, inject_Z_mult. reflexivity. }
    rewrite Hi in Hz. unfold Qdiv in *. rewrite <-Qmult_assoc in Hz. exact Hz. }
  rewrite p2_add in Hlow. replace p with ((p - 1) + 1) by lia. rewrite Z.pow_add_r by lia. change (2 ^ 1) with 2.
  rewrite inject_Z_plus, inject_Z_mult. rewrite <-p2_inject by lia.
  pose proof (p2_pos e). pose proof (p2_pos (p - 1)). generalize dependent (inject_Z n / inject_Z d)%Q. intros q Hlow Hh'.
  change (inject_Z 2) with 2%Q. change (inject_Z 1) with 1%Q. nra.
Qed.
