(* ===== verification/Selection.v ===== *)
(** * The validator set and proposer selection (src/consensus/validator/selection.go)

    The set of validators, its active list, and the two ways to choose a
    proposer: the epoch schedule, which gives every stake domain and every
    validator in it its share of the slots, and the older stake-weighted draw.
    Every method takes the set's mutex once and releases it, so a call is one
    step.  [sort.Slice] is a sort of the elements in some order: where the code's
    comparison leaves ties, they fall as the iteration order of the map has it.
    Not modelled: ValidateSelectionFairness and GetSetStatistics, which only
    compute figures for display. *)

From S2P Require Import Prelude SafeMath Uint256 Address Storage Domains Wire Floats.
From stdpp Require Import base tactics numbers list gmap strings sorting.
From Stdlib Require Import ZArith Lia Strings.Byte Strings.Ascii.
Open Scope Z_scope.
Open Scope list_scope.

Definition recentProposerWindow : Z := 16.
Definition maxConsecutiveShift : Z := 8.

Inductive sel_error : Type :=
| NilValidator | ValidatorNotFound | NoActiveValidators | ZeroStake | ZeroAdjustedStake
| NoCandidates | SlotsNotPositive | StakeDomainError (address : string) | IncompleteSchedule | StatsNotFound.

(** [ProposerHistoryReader], and [StakeDomainReader] if the reader is one.  A
    block is [None] when the reader fails or has none. *)
Record HistoryReader : Type := MkHistoryReader {
  hr_GetBlock : Z -> option Block;
  hr_GetHeight : Z;
  hr_GetValidatorStakeDomain : option (string -> option string)
}.

Record SelectionStats : Type := MkSelectionStats {
  ss_ValidatorAddress : string;
  TimesSelected : Z;
  LastSelected : Z;
  ConsecutiveSelections : Z;
  SelectionRate : float64;
  PerformanceScore : float64
}.

Record quotaAllocation : Type := MkQuota { qa_address : string; qa_quota : Z; qa_remainder : Z }.
Record domainScheduleState : Type := MkDomainState { ds_order : list string; ds_index : nat }.
Record epochScheduleCache : Type := MkScheduleCache { sc_epoch : Z; sc_key : list byte; sc_value : list string }.

Record ValidatorSet : Type := MkSet {
  vs_validators : gmap string Validator;
  activeList : list Validator;
  vs_totalStake : string;
  maxValidators : Z;
  historyReader : option HistoryReader;
  selectionHistory : gmap string SelectionStats;
  performanceMultipliers : gmap string float64;
  scheduleCache : option epochScheduleCache
}.

Definition stake_of (v : Validator) : Z := ParseBigInt_bytes (val_Stake v).
Definition total_stake (l : list Validator) : Z := foldr (fun v total => stake_of v + total) 0 l.

Definition one64 : float64 := f64_of_int 1.

Definition NewSet (max : Z) : ValidatorSet := MkSet ∅ [] "" max None ∅ ∅ None.

Section Selection.
Context `{MapOrder} (Keccak256 : list byte -> list byte).
Notation Vs := (GoM ValidatorSet sel_error).

(** ** The set *)

Definition isJailed (now : Z) (v : Validator) : bool := Unix now <? val_JailUntil v.

Definition by_stake_desc (a b : Validator) : Prop := stake_of b <= stake_of a.
#[global] Instance by_stake_desc_dec a b : Decision (by_stake_desc a b).
Proof. unfold by_stake_desc. apply _. Defined.

Definition set_active (now : Z) (validators : gmap string Validator) : list Validator :=
  merge_sort by_stake_desc (filter (fun v => val_Active v && negb (isJailed now v)) (values validators)).

Definition set_list (active : list Validator) (vs : ValidatorSet) : ValidatorSet :=
  MkSet (vs_validators vs) active (String10 (total_stake active)) (maxValidators vs) (historyReader vs) (selectionHistory vs)
    (performanceMultipliers vs) (scheduleCache vs).
(** Cutting a list at a negative length panics. *)
Definition updateActiveListUnsafe (now : Z) : Vs unit := fun vs =>
  let active := set_active now (vs_validators vs) in
  if maxValidators vs <? Z.of_nat (length active) then
    if maxValidators vs <? 0 then (Panic, set_list active vs)
    else (Ok tt, set_list (take (Z.to_nat (maxValidators vs)) active) vs)
  else (Ok tt, set_list active vs).

Definition clearScheduleCacheUnsafe (vs : ValidatorSet) : ValidatorSet :=
  MkSet (vs_validators vs) (activeList vs) (vs_totalStake vs) (maxValidators vs) (historyReader vs) (selectionHistory vs)
    (performanceMultipliers vs) None.
Definition set_validators (m : gmap string Validator) (vs : ValidatorSet) : ValidatorSet :=
  MkSet m (activeList vs) (vs_totalStake vs) (maxValidators vs) (historyReader vs) (selectionHistory vs)
    (performanceMultipliers vs) (scheduleCache vs).
Definition set_stats (h : gmap string SelectionStats) (vs : ValidatorSet) : ValidatorSet :=
  MkSet (vs_validators vs) (activeList vs) (vs_totalStake vs) (maxValidators vs) (historyReader vs) h
    (performanceMultipliers vs) (scheduleCache vs).
Definition set_multipliers (m : gmap string float64) (vs : ValidatorSet) : ValidatorSet :=
  MkSet (vs_validators vs) (activeList vs) (vs_totalStake vs) (maxValidators vs) (historyReader vs) (selectionHistory vs)
    m (scheduleCache vs).

Definition SetHistoryReader (reader : option HistoryReader) (vs : ValidatorSet) : ValidatorSet :=
  clearScheduleCacheUnsafe (MkSet (vs_validators vs) (activeList vs) (vs_totalStake vs) (maxValidators vs) reader
    (selectionHistory vs) (performanceMultipliers vs) (scheduleCache vs)).

Definition fresh_stats (address : string) (score : float64) : SelectionStats :=
  MkSelectionStats address 0 0 0 (Fin (Dy 0 0)) score.

Definition AddValidator_set (now : Z) (validator : option Validator) : Vs unit :=
  match validator with
  | None => throw NilValidator
  | Some v =>
      let a := val_Address v in
      _ ← modify (fun vs => set_validators (<[a := v]> (vs_validators vs)) vs);
      _ ← updateActiveListUnsafe now;
      _ ← modify (fun vs => match selectionHistory vs !! a with
                            | Some _ => vs
                            | None => set_stats (<[a := fresh_stats a one64]> (selectionHistory vs)) vs
                            end);
      _ ← modify (fun vs => match performanceMultipliers vs !! a with
                            | Some _ => vs
                            | None => set_multipliers (<[a := one64]> (performanceMultipliers vs)) vs
                            end);
      modify clearScheduleCacheUnsafe
  end.

Definition RemoveValidator_set (now : Z) (address : string) : Vs unit :=
  vs ← get;
  match vs_validators vs !! address with
  | None => throw ValidatorNotFound
  | Some _ =>
      _ ← modify (fun vs => set_validators (delete address (vs_validators vs)) vs);
      _ ← updateActiveListUnsafe now;
      modify clearScheduleCacheUnsafe
  end.

Definition UpdateValidator_set (now : Z) (validator : option Validator) : Vs unit :=
  match validator with
  | None => throw NilValidator
  | Some v =>
      _ ← modify (fun vs => set_validators (<[val_Address v := v]> (vs_validators vs)) vs);
      _ ← updateActiveListUnsafe now;
      modify clearScheduleCacheUnsafe
  end.

Definition Clear (vs : ValidatorSet) : ValidatorSet := MkSet ∅ [] "0" (maxValidators vs) (historyReader vs) ∅ ∅ None.

Definition GetTopValidatorsByStake (n : Z) (vs : ValidatorSet) : list Validator := take (Z.to_nat n) (activeList vs).

Fixpoint rank_in (address : string) (i : Z) (l : list Validator) : option Z :=
  match l with
  | [] => None
  | v :: l => if bool_decide (val_Address v = address) then Some (i + 1) else rank_in address (i + 1) l
  end.
Definition GetValidatorRank (address : string) (vs : ValidatorSet) : outcome sel_error Z :=
  match rank_in address 0 (activeList vs) with Some i => Ok i | None => Err ValidatorNotFound end.

(** [CleanupInactiveValidators]; the removed addresses come back in the map's order. *)
Definition abandoned (cutoff : Z) (v : Validator) : bool :=
  negb (val_Active v) && (stake_of v =? 0) && (val_UpdatedAt v <? cutoff).
Definition abandoned_at (cutoff : Z) (m : gmap string Validator) (a : string) : bool :=
  match m !! a with Some v => abandoned cutoff v | None => false end.
Definition CleanupInactiveValidators (now maxInactiveTime : Z) : Vs (list string) :=
  vs ← get;
  let cutoff := Unix (now - maxInactiveTime) in
  let removed := filter (fun a => abandoned_at cutoff (vs_validators vs) a) (map_order (vs_validators vs)) in
  _ ← modify (fun vs => set_multipliers (foldr delete (performanceMultipliers vs) removed)
                          (set_stats (foldr delete (selectionHistory vs) removed)
                             (set_validators (foldr delete (vs_validators vs) removed) vs)));
  _ ← updateActiveListUnsafe now;
  mret removed.

(** ** The seed of an epoch *)

Definition GenerateSeedFromInputs (blockHashes vrfOutputs : list (list byte)) (slot : Z) : list byte :=
  if (length blockHashes =? 0)%nat && (length vrfOutputs =? 0)%nat then Keccak256 (PutUint64 slot)
  else Keccak256 (concat blockHashes ++ concat vrfOutputs ++ PutUint64 slot).

(** The blocks of the epoch before, from the top of the chain down: [i] more
    blocks to look at. *)
Fixpoint seed_loop (reader : HistoryReader) (target : Z) (slotsPerEpoch : Z) (i : nat) (hashes outputs : list (list byte))
    : list (list byte) * list (list byte) :=
  match i with
  | O => (hashes, outputs)
  | S i' =>
      match hr_GetBlock reader (Z.of_nat i') ≫= blk_Header with
      | None => seed_loop reader target slotsPerEpoch i' hashes outputs
      | Some header =>
          if target <? hdr_Epoch header then seed_loop reader target slotsPerEpoch i' hashes outputs
          else if hdr_Epoch header <? target then (hashes, outputs)
          else
            let h := match hr_GetBlock reader (Z.of_nat i') with Some b => blk_Hash b | None => "" end in
            let hashes := if bool_decide (h = "") then hashes else hashes ++ [bytes_of_string h] in
            let outputs := if (length (hdr_VrfOutput header) =? 0)%nat then outputs else outputs ++ [hdr_VrfOutput header] in
            if slotsPerEpoch <=? Z.of_nat (length hashes) then (hashes, outputs)
            else seed_loop reader target slotsPerEpoch i' hashes outputs
      end
  end.

Definition buildEpochSeed (reader : option HistoryReader) (epoch slotsPerEpoch : Z) : list byte :=
  match reader with
  | None => GenerateSeedFromInputs [] [] epoch
  | Some reader =>
      if hr_GetHeight reader <? 0 then GenerateSeedFromInputs [] [] epoch
      else if epoch =? 0 then GenerateSeedFromInputs [] [] epoch
      else
        let '(hashes, outputs) := seed_loop reader (epoch - 1) slotsPerEpoch (Z.to_nat (hr_GetHeight reader + 1)) [] [] in
        GenerateSeedFromInputs hashes outputs epoch
  end.

(** ** Quotas *)

Definition by_remainder (a b : quotaAllocation) : Prop :=
  qa_remainder b < qa_remainder a \/ (qa_remainder a = qa_remainder b /\ String.le (qa_address a) (qa_address b)).
#[global] Instance by_remainder_dec a b : Decision (by_remainder a b).
Proof. unfold by_remainder. apply _. Defined.
Definition by_qa_address (a b : quotaAllocation) : Prop := String.le (qa_address a) (qa_address b).
#[global] Instance by_qa_address_dec a b : Decision (by_qa_address a b).
Proof. unfold by_qa_address. apply _. Defined.

Definition quota_of (slots totalWeight : Z) (address : string) (weight : Z) : quotaAllocation :=
  let numerator := Z.max 0 weight * slots in
  MkQuota address (i64 (big_div numerator totalWeight)) (numerator mod totalWeight).

Definition bump_quota (a : quotaAllocation) : quotaAllocation := MkQuota (qa_address a) (qa_quota a + 1) (qa_remainder a).

Definition allocateQuotas (weights : gmap string Z) (slots : Z) : list quotaAllocation :=
  let entries := omap (fun a => (fun w => (a, w)) <$> weights !! a) (map_order weights) in
  let totalWeight := foldr (fun aw total => Z.max 0 (snd aw) + total) 0 entries in
  if (slots <=? 0) || (totalWeight <=? 0) then []
  else
    let allocations := (fun aw => quota_of slots totalWeight (fst aw) (snd aw)) <$> entries in
    let remaining := slots - foldr (fun a total => qa_quota a + total) 0 allocations in
    let allocations := merge_sort by_remainder allocations in
    let n := Z.to_nat remaining in
    merge_sort by_qa_address ((bump_quota <$> take n allocations) ++ drop n allocations).

Definition expandQuotaSchedule (allocations : list quotaAllocation) : list string :=
  concat ((fun a => replicate (Z.to_nat (qa_quota a)) (qa_address a)) <$> allocations).

Definition allocateStakeQuotas (domainGroups : gmap string (list Validator)) (slots : Z) : list quotaAllocation :=
  allocateQuotas (total_stake <$> domainGroups) slots.
(** Later entries of the same address replace earlier ones. *)
Definition allocateValidatorQuotas (validators : list Validator) (slots : Z) : list quotaAllocation :=
  allocateQuotas (foldl (fun m v => <[val_Address v := stake_of v]> m) ∅ validators) slots.

(** ** Shuffling *)

(** [l[i], l[j] = l[j], l[i]] *)
Definition swap {A} (i j : nat) (l : list A) : list A :=
  match l !! i, l !! j with
  | Some a, Some b => <[j := a]> (<[i := b]> l)
  | _, _ => l
  end.

(** Positions [i] down to 1; a hash shorter than eight bytes would panic. *)
Fixpoint shuffle_loop (baseSeed : list byte) (i : nat) (schedule : list string) : outcome sel_error (list string) :=
  match i with
  | O => Ok schedule
  | S i' =>
      let positionHash := Keccak256 (baseSeed ++ PutUint64 (Z.of_nat i)) in
      if (length positionHash <? 8)%nat then Panic
      else shuffle_loop baseSeed i' (swap i (Z.to_nat (SetBytes (take 8 positionHash) mod (Z.of_nat i + 1))) schedule)
  end.
Definition shuffleSchedule (schedule : list string) (seed : list byte) : outcome sel_error (list string) :=
  if (length schedule <? 2)%nat then Ok schedule else shuffle_loop (Keccak256 seed) (length schedule - 1) schedule.

(** ** Cooldown *)

Definition hasRecentMatch (schedule : list string) (index cooldownWindow : nat) (candidate : string) : bool :=
  let start := (index - cooldownWindow)%nat in
  bool_decide (candidate ∈ take (index - start) (drop start schedule)).
Definition violatesCooldown (schedule : list string) (index cooldownWindow : nat) : bool :=
  match schedule !! index with Some x => hasRecentMatch schedule index cooldownWindow x | None => false end.

Fixpoint cooldown_inner (w i : nat) (js : list nat) (schedule : list string) : list string :=
  match js with
  | [] => schedule
  | j :: js =>
      match schedule !! j with
      | None => schedule
      | Some candidate =>
          if hasRecentMatch schedule i w candidate then cooldown_inner w i js schedule
          else
            let swapped := swap i j schedule in
            if negb (violatesCooldown swapped i w) then swapped
            else cooldown_inner w i js (swap i j swapped)
      end
  end.
Fixpoint cooldown_loop (w : nat) (idxs : list nat) (schedule : list string) : list string :=
  match idxs with
  | [] => schedule
  | i :: idxs =>
      cooldown_loop w idxs
        (if negb (violatesCooldown schedule i w) then schedule
         else cooldown_inner w i (seq (S i) (length schedule - S i)) schedule)
  end.
Definition applyCooldown (schedule : list string) (cooldownWindow : Z) : list string :=
  if (cooldownWindow <=? 0) || (length schedule <? 2)%nat then schedule
  else cooldown_loop (Z.to_nat cooldownWindow) (seq 1 (length schedule - 1)) schedule.

(** ** The epoch schedule *)

Fixpoint group_loop (domainReader : option (string -> option string)) (groups : gmap string (list Validator)) (l : list Validator)
    : outcome sel_error (gmap string (list Validator)) :=
  match l with
  | [] => Ok groups
  | v :: l =>
      let put d := group_loop domainReader (<[d := default [] (groups !! d) ++ [v]]> groups) l in
      match domainReader with
      | None => put (val_Address v)
      | Some read =>
          match read (val_Address v) with
          | None => Err (StakeDomainError (val_Address v))
          | Some d => put (if bool_decide (d = "") then val_Address v else d)
          end
      end
  end.
Definition groupValidatorsByDomain (reader : option HistoryReader) (candidates : list Validator)
    : outcome sel_error (gmap string (list Validator)) :=
  group_loop (reader ≫= hr_GetValidatorStakeDomain) ∅ candidates.

Definition buildScheduleCacheKey (epoch slotsPerEpoch cooldownWindow : Z) (seed : list byte)
    (domainGroups : gmap string (list Validator)) : list byte :=
  Keccak256 (seed ++ PutUint64 epoch ++ PutUint32 slotsPerEpoch ++ PutUint32 cooldownWindow ++
    concat ((fun d => bytes_of_string d ++
               concat ((fun v => bytes_of_string (val_Address v) ++ val_Stake v) <$>
                         merge_sort by_address (default [] (domainGroups !! d)))) <$>
            merge_sort String.le (map_order domainGroups))).

Definition copyCachedScheduleUnsafe (epoch : Z) (cacheKey : list byte) (vs : ValidatorSet) : option (list string) :=
  match scheduleCache vs with
  | None => None
  | Some c => if negb (sc_epoch c =? epoch) then None
              else if negb (bool_decide (sc_key c = cacheKey)) then None
              (* an empty copy is nil *)
              else match sc_value c with [] => None | l => Some l end
  end.

Fixpoint member_schedules (seed : list byte) (domainGroups : gmap string (list Validator)) (allocations : list quotaAllocation)
    : outcome sel_error (gmap string domainScheduleState) :=
  match allocations with
  | [] => Ok ∅
  | a :: l =>
      if qa_quota a =? 0 then member_schedules seed domainGroups l
      else
        let members := default [] (domainGroups !! qa_address a) in
        let memberSchedule := expandQuotaSchedule (allocateValidatorQuotas members (qa_quota a)) in
        memberSchedule ← shuffleSchedule memberSchedule (Keccak256 (seed ++ bytes_of_string (qa_address a)));
        rest ← member_schedules seed domainGroups l;
        mret (<[qa_address a := MkDomainState memberSchedule 0]> rest)
  end.

Fixpoint fill_slots (states : gmap string domainScheduleState) (domainSchedule : list string) : list string :=
  match domainSchedule with
  | [] => []
  | d :: l =>
      match states !! d with
      | None => fill_slots states l
      | Some st =>
          match ds_order st with
          | [] => fill_slots states l
          | first :: _ =>
              let index := if (length (ds_order st) <=? ds_index st)%nat then 0%nat else ds_index st in
              default first (ds_order st !! index) :: fill_slots (<[d := MkDomainState (ds_order st) (S index)]> states) l
          end
      end
  end.

(** The schedule itself, without the cache. *)
Definition compute_schedule (seed : list byte) (domainGroups : gmap string (list Validator)) (slotsPerEpoch cooldownWindow : Z)
    : outcome sel_error (list string) :=
  let domainAllocations := allocateStakeQuotas domainGroups slotsPerEpoch in
  domainSchedule ← shuffleSchedule (expandQuotaSchedule domainAllocations) seed;
  let domainSchedule := applyCooldown domainSchedule cooldownWindow in
  states ← member_schedules seed domainGroups domainAllocations;
  let schedule := fill_slots states domainSchedule in
  if negb (Z.of_nat (length schedule) =? slotsPerEpoch) then Err IncompleteSchedule else mret schedule.

Definition BuildEpochSchedule (candidates : list (option Validator)) (epoch slotsPerEpoch cooldownWindow : Z) : Vs (list string) :=
  fun vs =>
  if (length candidates =? 0)%nat then (Err NoCandidates, vs)
  else if slotsPerEpoch <=? 0 then (Err SlotsNotPositive, vs)
  else
    let cooldownWindow := Z.max 0 cooldownWindow in
    let snapshot := filter (fun v => 0 < stake_of v) (omap id candidates) in
    if (length snapshot =? 0)%nat || (total_stake snapshot <=? 0) then (Err ZeroStake, vs)
    else
      let seed := buildEpochSeed (historyReader vs) epoch slotsPerEpoch in
      match groupValidatorsByDomain (historyReader vs) snapshot with
      | Ok domainGroups =>
          let cacheKey := buildScheduleCacheKey epoch slotsPerEpoch cooldownWindow seed domainGroups in
          match copyCachedScheduleUnsafe epoch cacheKey vs with
          | Some cached => (Ok cached, vs)
          | None =>
              match compute_schedule seed domainGroups slotsPerEpoch cooldownWindow with
              | Ok schedule =>
                  (Ok schedule,
                   MkSet (vs_validators vs) (activeList vs) (vs_totalStake vs) (maxValidators vs) (historyReader vs)
                     (selectionHistory vs) (performanceMultipliers vs) (Some (MkScheduleCache epoch cacheKey schedule)))
              | r => (r, vs)
              end
          end
      | Err e => (Err e, vs)
      | Panic => (Panic, vs)
      | Hang => (Hang, vs)
      end.

(** ** The stake-weighted draw *)

Definition zero64 : float64 := Fin (Dy 0 0).
Definition multiplier_of (vs : ValidatorSet) (a : string) : float64 := default zero64 (performanceMultipliers vs !! a).

(** The last [window] blocks: how often each proposer occurs, and how often the
    last one in a row; the count stops at the first other proposer. *)
Fixpoint penalty_loop (reader : HistoryReader) (height : Z) (n : nat) (i : Z) (lastProposer : string)
    (recent consecutive : gmap string Z) : gmap string Z * gmap string Z :=
  match n with
  | O => (recent, consecutive)
  | S n =>
      let proposer := match hr_GetBlock reader (height - i) ≫= blk_Header with Some h => hdr_Validator h | None => "" end in
      if bool_decide (proposer = "") then penalty_loop reader height n (i + 1) lastProposer recent consecutive
      else
        let recent := <[proposer := default 0 (recent !! proposer) + 1]> recent in
        let lastProposer := if i =? 0 then proposer else lastProposer in
        if bool_decide (proposer = lastProposer)
        then penalty_loop reader height n (i + 1) lastProposer recent
               (<[proposer := default 0 (consecutive !! proposer) + 1]> consecutive)
        else if bool_decide (lastProposer = "") then penalty_loop reader height n (i + 1) lastProposer recent consecutive
        else (recent, consecutive)
  end.
Definition getRecentProposerPenalties (reader : option HistoryReader) : gmap string Z * gmap string Z :=
  match reader with
  | None => (∅, ∅)
  | Some reader =>
      let height := hr_GetHeight reader in
      if height <? 0 then (∅, ∅)
      else penalty_loop reader height (Z.to_nat (Z.min recentProposerWindow (i64 (height + 1)))) 0 "" ∅ ∅
  end.

(** [x.Mul(x, big.NewFloat(f))] *)
Definition scale_by (x : bigfloat) (f : float64) : outcome sel_error bigfloat :=
  y ← NewFloat f; big_Mul (bf_prec x) x y.

Definition adjusted_stake (vs : ValidatorSet) (expectedRecentShare : float64) (recent consecutive : gmap string Z) (v : Validator)
    : outcome sel_error Z :=
  let a := val_Address v in
  x ← scale_by (SetInt (stake_of v)) (multiplier_of vs a);
  let recentCount := f64_of_int (default 0 (recent !! a)) in
  x ← (if f64_lt zero64 expectedRecentShare && f64_lt expectedRecentShare recentCount
       then scale_by x (f64_div expectedRecentShare recentCount) else mret x);
  let consecutiveCount := default 0 (consecutive !! a) in
  x ← (if 0 <? consecutiveCount
       then scale_by x (f64_div one64 (f64_of_int (2 ^ Z.min maxConsecutiveShift consecutiveCount))) else mret x);
  mret (Z.max 1 (big_Int64 x)).

Fixpoint adjust_all (vs : ValidatorSet) (share : float64) (recent consecutive : gmap string Z) (l : list Validator)
    (weights : gmap string Z) : outcome sel_error (gmap string Z) :=
  match l with
  | [] => mret weights
  | v :: l => w ← adjusted_stake vs share recent consecutive v; adjust_all vs share recent consecutive l (<[val_Address v := w]> weights)
  end.
Definition calculateAdjustedStakes (vs : ValidatorSet) : outcome sel_error (gmap string Z) :=
  let '(recent, consecutive) := getRecentProposerPenalties (historyReader vs) in
  let share := if (length (activeList vs) =? 0)%nat then zero64
               else f64_div (f64_of_int recentProposerWindow) (f64_of_int (Z.of_nat (length (activeList vs)))) in
  adjust_all vs share recent consecutive (activeList vs) ∅.

Definition update_stats (now : Z) (stats : SelectionStats) : SelectionStats :=
  let currentTime := Unix now in
  let times := u64 (TimesSelected stats + 1) in
  let consecutive := if currentTime - LastSelected stats <? 600 then ConsecutiveSelections stats + 1 else 1 in
  let firstSelection := i64 (currentTime - i64 (i64 (u64 (times - 1)) * 600)) in
  let hours := f64_div (f64_of_int (i64 (currentTime - firstSelection))) (f64_of_int 3600) in
  let rate := if (1 <? times) && f64_lt zero64 hours then f64_div (f64_of_int times) hours else SelectionRate stats in
  MkSelectionStats (ss_ValidatorAddress stats) times currentTime consecutive rate (PerformanceScore stats).

Definition updateSelectionStatsUnsafe (now : Z) (address : string) (vs : ValidatorSet) : ValidatorSet :=
  let stats := update_stats now (default (fresh_stats address one64) (selectionHistory vs !! address)) in
  let idle st := if 600 <? Unix now - LastSelected st
                 then MkSelectionStats (ss_ValidatorAddress st) (TimesSelected st) (LastSelected st) 0 (SelectionRate st) (PerformanceScore st)
                 else st in
  set_stats (<[address := stats]> (idle <$> selectionHistory vs)) vs.

Record SelectionResult : Type := MkResult {
  SelectedValidator : Validator;
  SelectionSeed : list byte;
  sr_TotalStake : Z;
  SelectionWeight : Z;
  sr_Timestamp : Z
}.

(** The validator in whose part of the weights [random] falls, else the last. *)
Fixpoint pick (weights : gmap string Z) (random cumulative : Z) (l : list Validator) (last : Validator) : Validator :=
  match l with
  | [] => last
  | v :: l =>
      let cumulative := i64 (cumulative + default 0 (weights !! val_Address v)) in
      if random <? cumulative then v else pick weights random cumulative l v
  end.

Definition SelectProposer (now : Z) (seed : list byte) (slot : Z) : Vs SelectionResult := fun vs =>
  match activeList vs with
  | [] => (Err NoActiveValidators, vs)
  | first :: _ =>
      if ParseBigInt_string (vs_totalStake vs) =? 0 then (Err ZeroStake, vs)
      else
        let hashBytes := Keccak256 (seed ++ PutUint64 slot) in
        match calculateAdjustedStakes vs with
        | Ok weights =>
            let total := foldr (fun a t => i64 (t + default 0 (weights !! a))) 0 (map_order weights) in
            if total =? 0 then (Err ZeroAdjustedStake, vs)
            else
              let randomStake := i64 (SetBytes hashBytes mod Z.abs total) in
              let v := pick weights randomStake 0 (activeList vs) first in
              (Ok (MkResult v hashBytes (i64 (ParseBigInt_string (vs_totalStake vs))) (default 0 (weights !! val_Address v)) (Unix now)),
               updateSelectionStatsUnsafe now (val_Address v) vs)
        | Err e => (Err e, vs)
        | Panic => (Panic, vs)
        | Hang => (Hang, vs)
        end
  end.

(** ** Performance *)

Definition UpdatePerformanceMultiplier (address : string) (multiplier : float64) : Vs unit := fun vs =>
  match vs_validators vs !! address with
  | None => (Err ValidatorNotFound, vs)
  | Some _ =>
      let m := if f64_lt multiplier (f64_const 1 10) then f64_const 1 10
               else if f64_lt (f64_of_int 2) multiplier then f64_of_int 2 else multiplier in
      let vs := set_multipliers (<[address := m]> (performanceMultipliers vs)) vs in
      (Ok tt, match selectionHistory vs !! address with
              | None => vs
              | Some st => set_stats (<[address := MkSelectionStats (ss_ValidatorAddress st) (TimesSelected st) (LastSelected st)
                                         (ConsecutiveSelections st) (SelectionRate st) m]> (selectionHistory vs)) vs
              end)
  end.

Definition ResetSelectionHistory (vs : ValidatorSet) : ValidatorSet :=
  set_stats (map_imap (fun a _ => Some (fresh_stats a (multiplier_of vs a))) (selectionHistory vs)) vs.

Definition GetSelectionStats (address : string) (vs : ValidatorSet) : outcome sel_error SelectionStats :=
  match selectionHistory vs !! address with Some st => Ok st | None => Err StatsNotFound end.

Definition should_remove (vs : ValidatorSet) (minStake : Z) (v : Validator) : bool :=
  f64_lt (multiplier_of vs (val_Address v)) (f64_const 1 2) || (stake_of v <? minStake) ||
  match selectionHistory vs !! val_Address v with Some st => f64_lt (f64_of_int 10) (SelectionRate st) | None => false end.
Definition should_add (now : Z) (vs : ValidatorSet) (minStake : Z) (v : Validator) : bool :=
  negb (val_Active v) && negb (isJailed now v) && (minStake <=? stake_of v) && f64_le (f64_const 8 10) (multiplier_of vs (val_Address v)).

Definition RotateValidatorSet (now : Z) (MinValidatorStake : string) (vs : ValidatorSet)
    : outcome sel_error (list Validator * list Validator) :=
  if (length (activeList vs) =? 0)%nat then Err NoActiveValidators
  else
    let minStake := ParseBigInt_string MinValidatorStake in
    let toRemove := filter (fun v => should_remove vs minStake v) (activeList vs) in
    let toAdd := merge_sort by_stake_desc (filter (fun v => should_add now vs minStake v) (values (vs_validators vs))) in
    let maxToAdd := maxValidators vs - (Z.of_nat (length (activeList vs)) - Z.of_nat (length toRemove)) in
    Ok (toRemove, take (Z.to_nat maxToAdd) toAdd).
End Selection.
