(* ===== verification/SelectionSpec.v ===== *)
(** * Correctness of the epoch schedule

    The schedule has one proposer for every slot, gives each stake domain and
    each validator in it its share of the slots up to one, does not depend on the
    iteration order of Go's maps nor on the order of the candidates, and breaks the
    cooldown only where nothing else is left. *)

From S2P Require Import Prelude SafeMath Uint256 Address Storage Domains Wire Floats Selection.
From stdpp Require Import base tactics numbers list gmap strings sorting.
From Stdlib Require Import ZArith Lia Strings.Byte Strings.Ascii.
Open Scope Z_scope.
Open Scope list_scope.

(** ** Sums and occurrences *)

Definition sum_of {A} (f : A -> Z) (l : list A) : Z := foldr (fun x t => f x + t) 0 l.

Lemma sum_cons {A} (f : A -> Z) x l : sum_of f (x :: l) = f x + sum_of f l.
Proof. done. Qed.
#[local] Arguments sum_of : simpl never.
#[local] Arguments quota_of : simpl never.
Ltac by_sum l := induction l as [|x l IH]; [try done; unfold sum_of; simpl; lia|rewrite ?fmap_cons, ?sum_cons; simpl; rewrite ?sum_cons in *; try lia].

Lemma sum_app {A} (f : A -> Z) l k : sum_of f (l ++ k) = sum_of f l + sum_of f k.
Proof. by_sum l. Qed.
Lemma sum_perm {A} (f : A -> Z) l k : l ≡ₚ k -> sum_of f l = sum_of f k.
Proof. induction 1; rewrite ?sum_cons; lia. Qed.
Lemma sum_fmap {A B} (f : B -> Z) (g : A -> B) l : sum_of f (g <$> l) = sum_of (fun x => f (g x)) l.
Proof. by_sum l. Qed.
Lemma sum_ext {A} (f g : A -> Z) l : (forall x, x ∈ l -> f x = g x) -> sum_of f l = sum_of g l.
Proof. intros Hfg. by_sum l. rewrite (Hfg x), IH; [done|set_solver|set_solver]. Qed.
Lemma sum_linear {A} (f : A -> Z) c l : sum_of (fun x => c * f x) l = c * sum_of f l.
Proof. by_sum l. Qed.
Lemma sum_plus {A} (f g : A -> Z) l : sum_of (fun x => f x + g x) l = sum_of f l + sum_of g l.
Proof. by_sum l. Qed.
Lemma sum_bounds {A} (f : A -> Z) lo hi l : (forall x, x ∈ l -> lo <= f x <= hi) ->
  lo * Z.of_nat (length l) <= sum_of f l <= hi * Z.of_nat (length l).
Proof.
  intros Hf. by_sum l. pose proof (Hf x ltac:(set_solver)). specialize (IH ltac:(set_solver)). lia.
Qed.
Lemma sum_nonneg {A} (f : A -> Z) l : (forall x, x ∈ l -> 0 <= f x) -> 0 <= sum_of f l.
Proof. intros Hf. by_sum l. pose proof (Hf x ltac:(set_solver)). specialize (IH ltac:(set_solver)). lia. Qed.
Lemma sum_member {A} (f : A -> Z) x l : (forall y, y ∈ l -> 0 <= f y) -> x ∈ l -> f x <= sum_of f l.
Proof.
  intros Hf [l1 [l2 ->]]%list_elem_of_split. rewrite sum_app, sum_cons.
  pose proof (sum_nonneg f l1 ltac:(set_solver)). pose proof (sum_nonneg f l2 ltac:(set_solver)). lia.
Qed.

(** How often [x] occurs. *)
Definition times (x : string) (l : list string) : Z := Z.of_nat (length (filter (.= x) l)).

Lemma times_perm x l k : l ≡ₚ k -> times x l = times x k.
Proof. intros Hp. unfold times. by rewrite Hp. Qed.
Lemma times_app x l k : times x (l ++ k) = times x l + times x k.
Proof. unfold times. rewrite filter_app, length_app. lia. Qed.
Lemma times_cons x y l : times x (y :: l) = (if decide (y = x) then 1 else 0) + times x l.
Proof. unfold times. rewrite filter_cons. case_decide; simpl; lia. Qed.
Lemma times_replicate x y n : times x (replicate n y) = if decide (y = x) then Z.of_nat n else 0.
Proof. induction n as [|n IH]; [by case_decide|]. simpl. rewrite times_cons, IH. case_decide; lia. Qed.
Lemma times_none x l : x ∉ l -> times x l = 0.
Proof. induction l as [|y l IH]; [done|]. intros Hx. rewrite times_cons, IH by set_solver. case_decide; set_solver. Qed.
Lemma times_nonneg x l : 0 <= times x l.
Proof. unfold times. lia. Qed.

(** ** Quotas *)

#[local] Instance by_remainder_total : Total by_remainder.
Proof.
  intros a b. unfold by_remainder. destruct (Z.lt_trichotomy (qa_remainder a) (qa_remainder b)) as [?|[E|?]]; [auto| |auto].
  destruct (total String.le (qa_address a) (qa_address b)); auto.
Qed.
#[local] Instance by_remainder_trans : Transitive by_remainder.
Proof.
  intros a b c [H1|[H1 H1']] [H2|[H2 H2']]; unfold by_remainder; [left; lia..|right]. split; [lia|]. by etrans.
Qed.
#[local] Instance by_qa_address_total : Total by_qa_address.
Proof. intros a b. apply (total String.le). Qed.
#[local] Instance by_qa_address_trans : Transitive by_qa_address.
Proof. intros a b c. apply (transitivity (R := String.le)). Qed.

Definition entries_of `{MapOrder} (weights : gmap string Z) : list (string * Z) :=
  omap (fun a => (fun w => (a, w)) <$> weights !! a) (map_order weights).

Lemma entries_perm `{MapOrder} weights : entries_of weights ≡ₚ map_to_list weights.
Proof.
  assert (Hin : forall a w, (a, w) ∈ entries_of weights <-> weights !! a = Some w).
  { intros a w. unfold entries_of. rewrite list_elem_of_omap. split.
    - intros (b & Hb & Hw). destruct (weights !! b) as [w'|] eqn:E; simplify_eq/=. done.
    - intros Hw. exists a. rewrite map_order_elem, elem_of_dom, Hw. simpl. eauto. }
  apply NoDup_Permutation; [|apply NoDup_map_to_list|].
  - unfold entries_of. pose proof (map_order_NoDup _ weights) as Hnd.
    induction (map_order weights) as [|a l IH]; simpl; [constructor|]. apply NoDup_cons in Hnd as [Ha Hnd].
    destruct (weights !! a) as [w|] eqn:E; simpl; [|auto]. apply NoDup_cons. split; [|auto].
    rewrite list_elem_of_omap. intros (b & Hb & Hw). destruct (weights !! b); simplify_eq/=. done.
  - intros [a w]. by rewrite Hin, elem_of_map_to_list.
Qed.

Definition total_weight (weights : gmap string Z) : Z := sum_of (fun aw => Z.max 0 (snd aw)) (map_to_list weights).

(** The quotas before the remaining slots are handed out. *)
Definition base_quotas (weights : gmap string Z) (slots : Z) (entries : list (string * Z)) : list quotaAllocation :=
  (fun aw => quota_of slots (total_weight weights) (fst aw) (snd aw)) <$> entries.
Definition share_out (slots : Z) (l : list quotaAllocation) : list quotaAllocation :=
  let n := Z.to_nat (slots - sum_of qa_quota l) in
  merge_sort by_qa_address ((bump_quota <$> take n (merge_sort by_remainder l)) ++ drop n (merge_sort by_remainder l)).

Lemma allocateQuotas_eq `{MapOrder} weights slots :
  0 < slots -> 0 < total_weight weights ->
  allocateQuotas weights slots = share_out slots (base_quotas weights slots (entries_of weights)).
Proof.
  intros Hs HT. unfold allocateQuotas. fold (entries_of weights).
  fold (sum_of (fun aw : string * Z => Z.max 0 (snd aw)) (entries_of weights)).
  rewrite (sum_perm _ _ _ (entries_perm weights)). fold (total_weight weights).
  rewrite (proj2 (Z.leb_gt slots 0)), (proj2 (Z.leb_gt (total_weight weights) 0)) by done. done.
Qed.

(** The iteration order of the weights does not matter. *)
Lemma allocateQuotas_unique (O1 O2 : MapOrder) weights slots :
  @allocateQuotas O1 weights slots = @allocateQuotas O2 weights slots.
Proof.
  destruct (Z.leb_spec slots 0) as [Hs|Hs]; [unfold allocateQuotas; by rewrite (proj2 (Z.leb_le _ _) Hs)|].
  destruct (Z.leb_spec (total_weight weights) 0) as [HT|HT].
  { unfold allocateQuotas. fold (@entries_of O1 weights) (@entries_of O2 weights).
    fold (sum_of (fun aw : string * Z => Z.max 0 (snd aw)) (@entries_of O1 weights))
      (sum_of (fun aw : string * Z => Z.max 0 (snd aw)) (@entries_of O2 weights)).
    rewrite !(sum_perm _ _ _ (entries_perm weights)). fold (total_weight weights).
    by rewrite (proj2 (Z.leb_le _ _) HT), orb_true_r. }
  rewrite !allocateQuotas_eq by done.
  assert (Hp : base_quotas weights slots (@entries_of O1 weights) ≡ₚ base_quotas weights slots (@entries_of O2 weights)).
  { unfold base_quotas. by rewrite !entries_perm. }
  unfold share_out. rewrite (sum_perm _ _ _ Hp).
  assert (Hsort : merge_sort by_remainder (base_quotas weights slots (@entries_of O1 weights)) =
    merge_sort by_remainder (base_quotas weights slots (@entries_of O2 weights))); [|by rewrite Hsort].
  apply (Sorted_unique_strong by_remainder); [|apply Sorted_merge_sort, _..|by rewrite !merge_sort_Permutation].
  intros x y. rewrite !merge_sort_Permutation. unfold base_quotas. rewrite !entries_perm.
  intros ([a w] & -> & Ha%elem_of_map_to_list)%list_elem_of_fmap ([b w'] & -> & Hb%elem_of_map_to_list)%list_elem_of_fmap.
  intros H1 H2. enough (a = b) by (by simplify_eq). unfold by_remainder in H1, H2. simpl in H1, H2.
  destruct H1 as [?|[E H1]]; [exfalso; destruct H2 as [?|[? _]]; lia|].
  destruct H2 as [?|[_ H2]]; [exfalso; lia|]. by apply (anti_symm String.le).
Qed.

Lemma i64_small z : 0 <= z < 2 ^ 63 -> i64 z = z.
Proof. intros Hz. apply i64_id. unfold is_i64. unfold_ints. lia. Qed.

Lemma bump_sum n l : (n <= length l)%nat ->
  sum_of qa_quota ((bump_quota <$> take n l) ++ drop n l) = sum_of qa_quota l + Z.of_nat n.
Proof.
  revert l. induction n as [|n IH]; intros [|x l] Hn; simpl in *; [lia..|]. rewrite !sum_cons, IH by lia. simpl. lia.
Qed.

Lemma elem_of_take_or_drop {A} n (l : list A) x : x ∈ take n l \/ x ∈ drop n l -> x ∈ l.
Proof. intros Hx. rewrite <-(take_drop n l). by apply elem_of_app. Qed.

(** The remainder of [weight * slots / total] puts [a] before [b]: a larger one first,
    at equal ones the address that comes first. *)
Definition ahead (total slots : Z) (a : string) (weight : Z) (b : string) (weight' : Z) : Prop :=
  (weight' * slots) mod total < (weight * slots) mod total \/
  ((weight * slots) mod total = (weight' * slots) mod total /\ String.le a b).

(** What the quotas are: every domain's exact share, rounded down or up, and all
    the slots together. *)
Section Quotas.
Context `{MapOrder} (weights : gmap string Z) (slots : Z).
Hypothesis Hweights : forall a w, weights !! a = Some w -> 0 <= w.
Hypothesis Hslots : 0 < slots < 2 ^ 63.
Hypothesis Htotal : 0 < total_weight weights.

Lemma weight_le_total a w : weights !! a = Some w -> 0 <= w <= total_weight weights.
Proof.
  intros Ha. split; [by eapply Hweights|]. apply Z.le_trans with (Z.max 0 (snd (a, w))); [simpl; lia|].
  apply (sum_member (fun aw : string * Z => Z.max 0 (snd aw))); [simpl; lia|]. by apply elem_of_map_to_list.
Qed.

Lemma base_quota a w : weights !! a = Some w ->
  quota_of slots (total_weight weights) a w = MkQuota a (w * slots / total_weight weights) ((w * slots) mod total_weight weights).
Proof.
  intros Ha. destruct (weight_le_total a w Ha). unfold quota_of. rewrite Z.max_r, big_div_pos by lia.
  rewrite i64_small; [done|]. split; [apply Z.div_pos; nia|].
  apply Z.le_lt_trans with slots; [apply Z.div_le_upper_bound; nia|lia].
Qed.

Notation base := (base_quotas weights slots (entries_of weights)).

Lemma base_elem q : q ∈ base -> exists w, weights !! qa_address q = Some w /\
  qa_quota q = w * slots / total_weight weights /\ qa_remainder q = (w * slots) mod total_weight weights.
Proof.
  unfold base_quotas. rewrite entries_perm. intros ([a w] & -> & Ha%elem_of_map_to_list)%list_elem_of_fmap.
  cbn [fst snd]. rewrite (base_quota a w Ha). simpl. eauto.
Qed.

Lemma base_addresses : qa_address <$> base ≡ₚ fst <$> map_to_list weights.
Proof. unfold base_quotas. rewrite entries_perm, <-list_fmap_compose. done. Qed.

(** The slots that rounding leaves over are fewer than the entries. *)
Lemma base_remaining : 0 <= slots - sum_of qa_quota base <= Z.of_nat (length base).
Proof.
  set (T := total_weight weights) in *.
  assert (Hsplit : sum_of (fun q => T * qa_quota q + qa_remainder q) base = slots * T).
  { unfold base_quotas. rewrite sum_fmap, (sum_perm _ _ _ (entries_perm weights)). fold T.
    rewrite (sum_ext _ (fun aw => slots * Z.max 0 (snd aw))).
    - rewrite sum_linear. unfold T, total_weight. lia.
    - intros [a w] Ha%elem_of_map_to_list. unfold T in *. cbn [fst snd]. rewrite (base_quota a w Ha). simpl.
      rewrite (Z.max_r 0 w) by (by eapply Hweights). pose proof (Z.div_mod (w * slots) (total_weight weights) ltac:(lia)). lia. }
  rewrite sum_plus, sum_linear in Hsplit.
  assert (Hr : 0 * Z.of_nat (length base) <= sum_of qa_remainder base <= (T - 1) * Z.of_nat (length base)).
  { apply sum_bounds. intros q (w & _ & _ & ->)%base_elem. fold T. pose proof (Z.mod_pos_bound (w * slots) T Htotal). lia. }
  nia.
Qed.

Lemma share_out_sum : sum_of qa_quota (share_out slots base) = slots.
Proof.
  pose proof base_remaining as Hrem. unfold share_out.
  rewrite (sum_perm _ _ _ (merge_sort_Permutation by_qa_address _)), bump_sum;
    [|rewrite merge_sort_Permutation; lia].
  rewrite (sum_perm _ _ _ (merge_sort_Permutation by_remainder _)). lia.
Qed.

Lemma allocateQuotas_spec :
  qa_address <$> allocateQuotas weights slots ≡ₚ fst <$> map_to_list weights /\
  sum_of qa_quota (allocateQuotas weights slots) = slots /\
  (forall q, q ∈ allocateQuotas weights slots -> exists w, weights !! qa_address q = Some w /\
     w * slots / total_weight weights <= qa_quota q <= w * slots / total_weight weights + 1).
Proof.
  rewrite allocateQuotas_eq by lia. split_and!; [|apply share_out_sum|].
  - unfold share_out. rewrite merge_sort_Permutation, fmap_app, <-list_fmap_compose.
    change (qa_address ∘ bump_quota) with qa_address. rewrite <-fmap_app, take_drop, merge_sort_Permutation. apply base_addresses.
  - intros q. unfold share_out. rewrite merge_sort_Permutation, elem_of_app. intros Hq.
    assert (Hq' : exists q', q' ∈ base /\ qa_address q = qa_address q' /\ qa_quota q' <= qa_quota q <= qa_quota q' + 1).
    { destruct Hq as [(q' & -> & Hq')%list_elem_of_fmap|Hq].
      - exists q'. split; [|simpl; split; [done|lia]]. rewrite <-(merge_sort_Permutation by_remainder base). eauto using elem_of_take_or_drop.
      - exists q. split; [|split; [done|lia]]. rewrite <-(merge_sort_Permutation by_remainder base). eauto using elem_of_take_or_drop. }
    destruct Hq' as (q' & (w & Hw & Hquota & _)%base_elem & Ha & Hb). exists w. rewrite Ha. split; [done|lia].
Qed.

(** An entry of the allocation is a base quota, with one slot more when it is among the
    first by remainder. *)
Lemma share_out_elem q : q ∈ share_out slots base ->
  let n := Z.to_nat (slots - sum_of qa_quota base) in
  exists q', qa_address q = qa_address q' /\
    ((q' ∈ take n (merge_sort by_remainder base) /\ qa_quota q = qa_quota q' + 1) \/ (q' ∈ drop n (merge_sort by_remainder base) /\ qa_quota q = qa_quota q')).
Proof.
  unfold share_out. rewrite merge_sort_Permutation, elem_of_app. cbv zeta. intros [(q' & -> & Hq')%list_elem_of_fmap|Hq]; [exists q'|exists q]; auto.
Qed.

(** The slots left over go to the largest remainders, and at equal ones to the
    first addresses. *)
Lemma allocateQuotas_ahead q p w w' :
  q ∈ allocateQuotas weights slots -> p ∈ allocateQuotas weights slots ->
  weights !! qa_address q = Some w -> weights !! qa_address p = Some w' ->
  qa_quota q = w * slots / total_weight weights + 1 -> qa_quota p = w' * slots / total_weight weights ->
  ahead (total_weight weights) slots (qa_address q) w (qa_address p) w'.
Proof.
  rewrite allocateQuotas_eq by lia. intros (q' & Eq & Hq)%share_out_elem (p' & Ep & Hp)%share_out_elem Hw Hw' Nq Np.
  set (n := Z.to_nat (slots - sum_of qa_quota base)) in *. set (l := merge_sort by_remainder base) in *.
  assert (Hbase : forall x, x ∈ take n l \/ x ∈ drop n l -> x ∈ base).
  { intros x Hx. rewrite <-(merge_sort_Permutation by_remainder base). eauto using elem_of_take_or_drop. }
  destruct (base_elem q' (Hbase q' ltac:(tauto))) as (v & Hv & Fq & Rq). destruct (base_elem p' (Hbase p' ltac:(tauto))) as (v' & Hv' & Fp & Rp).
  rewrite Eq in Hw |- *. rewrite Ep in Hw' |- *. assert (v = w) as -> by congruence. assert (v' = w') as -> by congruence.
  destruct Hq as [[Hq _]|[_ Hq]]; [|lia]. destruct Hp as [[_ Hp]|[Hp _]]; [lia|].
  assert (Hs : StronglySorted by_remainder (take n l ++ drop n l)).
  { rewrite take_drop. apply Sorted_StronglySorted; [apply _|]. apply Sorted_merge_sort, _. }
  apply (StronglySorted_app_1_elem_of _ _ _ _ _ Hs Hq) in Hp. unfold by_remainder in Hp. unfold ahead. rewrite <-Rq, <-Rp. exact Hp.
Qed.
End Quotas.

(** ** Expanding the quotas *)

Lemma expand_cons q l :
  expandQuotaSchedule (q :: l) = replicate (Z.to_nat (qa_quota q)) (qa_address q) ++ expandQuotaSchedule l.
Proof. done. Qed.

Lemma expand_length l : (forall q, q ∈ l -> 0 <= qa_quota q) ->
  Z.of_nat (length (expandQuotaSchedule l)) = sum_of qa_quota l.
Proof.
  intros Hl. induction l as [|q l IH]; [done|]. rewrite sum_cons, expand_cons, length_app, length_replicate, Nat2Z.inj_add, IH by set_solver. pose proof (Hl q ltac:(set_solver)). lia.
Qed.

Lemma expand_none x l : x ∉ qa_address <$> l -> x ∉ expandQuotaSchedule l.
Proof.
  induction l as [|q l IH]; [set_solver|].
  rewrite fmap_cons, elem_of_cons, expand_cons, elem_of_app. intros Hx [[-> _]%elem_of_replicate|Hr]; [by apply Hx; left|by apply IH; [auto|]].
Qed.

Lemma expand_times q l : NoDup (qa_address <$> l) -> q ∈ l -> 0 <= qa_quota q ->
  times (qa_address q) (expandQuotaSchedule l) = qa_quota q.
Proof.
  intros Hnd Hq H0. induction l as [|p l IH]; [by apply not_elem_of_nil in Hq|].
  rewrite fmap_cons, NoDup_cons in Hnd. destruct Hnd as [Hp Hnd].
  rewrite expand_cons, times_app, times_replicate.
  apply elem_of_cons in Hq as [->|Hq].
  - rewrite decide_True by done. rewrite times_none by (by apply expand_none). lia.
  - rewrite decide_False; [by rewrite IH|]. intros E. apply Hp. rewrite E. by apply list_elem_of_fmap_2.
Qed.

(** ** Shuffling *)

Lemma swap_perm {A} i j (l : list A) : swap i j l ≡ₚ l.
Proof. unfold swap. destruct (l !! i) eqn:Ei, (l !! j) eqn:Ej; [|done..]. by apply Permutation_insert_swap. Qed.

Lemma swap_take {A} i j n (l : list A) : (n <= i)%nat -> (n <= j)%nat -> take n (swap i j l) = take n l.
Proof. intros Hi Hj. unfold swap. destruct (l !! i), (l !! j); [|done..]. by rewrite !take_insert_ge. Qed.

Lemma swap_drop {A} i j n (l : list A) : (n <= i)%nat -> (n <= j)%nat -> drop n (swap i j l) ≡ₚ drop n l.
Proof.
  intros Hi Hj. apply (Permutation_app_inv_l (take n l)). rewrite <-(swap_take i j n l) at 1 by done.
  rewrite !take_drop. apply swap_perm.
Qed.

Section Shuffle.
Context (Keccak256 : list byte -> list byte).
Hypothesis Keccak256_length : forall x, length (Keccak256 x) = 32%nat.

Lemma shuffle_loop_perm baseSeed i l : exists k, shuffle_loop Keccak256 baseSeed i l = Ok k /\ k ≡ₚ l.
Proof.
  revert l. induction i as [|i IH]; intros l; [by exists l|]. cbn [shuffle_loop]. rewrite Keccak256_length. simpl.
  destruct (IH (swap (S i) (Z.to_nat (SetBytes (take 8 (Keccak256 (baseSeed ++ PutUint64 (Z.of_nat (S i))))) mod (Z.of_nat (S i) + 1))) l))
    as (k & Hk & Hp). exists k. split; [done|]. rewrite Hp. apply swap_perm.
Qed.

Lemma shuffle_perm l seed : exists k, shuffleSchedule Keccak256 l seed = Ok k /\ k ≡ₚ l.
Proof. unfold shuffleSchedule. case_match; [by exists l|]. apply shuffle_loop_perm. Qed.
End Shuffle.

(** ** The cooldown *)

Lemma take_prefix {A} i j (l k : list A) : (i <= j)%nat -> take j l = take j k -> take i l = take i k.
Proof. intros Hij E. replace i with (Nat.min i j) by lia. by rewrite <-!take_take, E. Qed.

Lemma recent_prefix (l k : list string) i w x : take i l = take i k -> hasRecentMatch l i w x = hasRecentMatch k i w x.
Proof.
  intros E. unfold hasRecentMatch. rewrite !take_drop_commute.
  by replace (i - w + (i - (i - w)))%nat with i by lia; rewrite E.
Qed.

Lemma violates_prefix (l k : list string) i w : take (S i) l = take (S i) k -> violatesCooldown l i w = violatesCooldown k i w.
Proof.
  intros E. unfold violatesCooldown. rewrite <-(lookup_take_lt l (S i) i), <-(lookup_take_lt k (S i) i), E by lia.
  case_match; [|done]. apply recent_prefix. apply (take_prefix i (S i)); [lia|done].
Qed.

(** [l] repeats at position [i] only if whatever stands there or later would. *)
Definition unavoidable (w : nat) (l : list string) (i : nat) : Prop :=
  violatesCooldown l i w = true -> forall x, x ∈ drop i l -> hasRecentMatch l i w x = true.

Lemma cooldown_inner_spec w i js l :
  (forall j, j ∈ js -> (i < j)%nat /\ (j < length l)%nat) ->
  let k := cooldown_inner w i js l in
  take i k = take i l /\ drop i k ≡ₚ drop i l /\
  (violatesCooldown k i w = false \/ k = l /\ forall j x, j ∈ js -> l !! j = Some x -> hasRecentMatch l i w x = true).
Proof.
  induction js as [|j js IH]; intros Hjs; simpl; [split_and!; [done..|right; set_solver]|].
  destruct (Hjs j ltac:(set_solver)) as [Hij Hj]. destruct (lookup_lt_is_Some_2 l j Hj) as [x Hx]. rewrite Hx.
  destruct (hasRecentMatch l i w x) eqn:Er.
  - destruct (IH ltac:(set_solver)) as (Ht & Hd & H). split_and!; [done..|].
    destruct H as [?|[? H]]; [auto|right]. split; [done|]. intros j' x' [->|Hj']%elem_of_cons Hx'; [by simplify_eq|by eapply H].
  - destruct (lookup_lt_is_Some_2 l i ltac:(lia)) as [y Hy].
    assert (Hok : violatesCooldown (swap i j l) i w = false).
    { unfold violatesCooldown, swap. rewrite Hx, Hy.
      rewrite list_lookup_insert_ne, list_lookup_insert_eq by lia.
      rewrite <-Er. apply recent_prefix. by rewrite !take_insert_ge by lia. }
    rewrite Hok. simpl. split_and!; [apply swap_take; lia|apply swap_drop; lia|auto].
Qed.

Lemma cooldown_step w i l : (i < length l)%nat ->
  let k := if negb (violatesCooldown l i w) then l else cooldown_inner w i (seq (S i) (length l - S i)) l in
  take i k = take i l /\ drop i k ≡ₚ drop i l /\ unavoidable w k i.
Proof.
  intros Hi. unfold unavoidable. simpl. destruct (violatesCooldown l i w) eqn:Ev; simpl; [|by rewrite Ev].
  pose proof (cooldown_inner_spec w i (seq (S i) (length l - S i)) l) as (Ht & Hd & H).
  { intros j Hj%elem_of_seq. lia. }
  split_and!; [done..|]. intros Hk x Hx. destruct H as [?|[E H]]; [congruence|]. rewrite E in *.
  apply list_elem_of_lookup in Hx as [n Hn]. rewrite lookup_drop in Hn. destruct n as [|n].
  - unfold violatesCooldown in Hk. by replace (i + 0)%nat with i in Hn by lia; rewrite Hn in Hk.
  - eapply (H (i + S n)%nat x); [|done]. apply elem_of_seq. apply lookup_lt_Some in Hn. lia.
Qed.

Lemma cooldown_loop_spec w n : forall i l, (i + n)%nat = length l ->
  let k := cooldown_loop w (seq i n) l in
  take i k = take i l /\ drop i k ≡ₚ drop i l /\ (forall m, (i <= m)%nat -> (m < i + n)%nat -> unavoidable w k m).
Proof.
  induction n as [|n IH]; intros i l Hl; simpl; [split_and!; [done..|lia]|].
  destruct (cooldown_step w i l ltac:(lia)) as (Ht & Hd & Hu).
  set (l' := if negb (violatesCooldown l i w) then l else _) in *.
  assert (Hlen : length l' = length l).
  { rewrite <-(take_drop i l'), <-(take_drop i l), !length_app, Ht. by rewrite Hd. }
  destruct (IH (S i) l' ltac:(lia)) as (Ht' & Hd' & Hu'). set (k := cooldown_loop w (seq (S i) n) l') in *.
  assert (Htk : take i k = take i l').
  { apply (take_prefix i (S i)); [lia|done]. }
  assert (Hdk : drop i k ≡ₚ drop i l').
  { apply (Permutation_app_inv_l (take i k)). rewrite Htk at 2. rewrite !take_drop.
    rewrite <-(take_drop (S i) k), <-(take_drop (S i) l'), Ht'. by rewrite Hd'. }
  split_and!; [by rewrite Htk|by rewrite Hdk|]. intros m Hm Hm'. destruct (decide (m = i)) as [->|]; [|apply Hu'; lia].
  unfold unavoidable in *. rewrite (violates_prefix k l') by done. intros Hv x Hx.
  rewrite (recent_prefix k l') by done. apply Hu; [done|]. by rewrite <-Hdk.
Qed.

Lemma cooldown_spec l w : applyCooldown l w ≡ₚ l /\
  (0 < w -> forall i, (0 < i)%nat -> (i < length l)%nat -> unavoidable (Z.to_nat w) (applyCooldown l w) i).
Proof.
  unfold applyCooldown. destruct (Z.leb_spec w 0); simpl; [split; [done|lia]|].
  destruct (Nat.ltb_spec (length l) 2); [split; [done|lia]|].
  destruct (cooldown_loop_spec (Z.to_nat w) (length l - 1) 1 l ltac:(lia)) as (Ht & Hd & Hu).
  split; [|intros _ i Hi Hi'; apply Hu; lia].
  set (k := cooldown_loop _ _ _) in *. rewrite <-(take_drop 1 k), Ht, Hd. by rewrite take_drop.
Qed.
