(* ===== verification/ScheduleSpec.v ===== *)
(** * The epoch schedule as a whole

    What [BuildEpochSchedule] promises: a proposer for every slot, each stake
    domain's and each validator's share of them up to one slot, the same schedule
    again from the cache, and the same schedule on every node, whatever the
    iteration order of its maps and the order of its candidates. *)

From S2P Require Import Prelude SafeMath Uint256 Address Storage Domains Wire Floats Selection SelectionSpec.
From stdpp Require Import base tactics numbers list gmap strings sorting.
From Stdlib Require Import ZArith Lia Strings.Byte Strings.Ascii.
Open Scope Z_scope.
Open Scope list_scope.

#[local] Arguments sum_of : simpl never.

(** [n] is [weight]'s part of [slots], rounded down or up. *)
Definition share (total slots weight n : Z) : Prop := weight * slots / total <= n <= weight * slots / total + 1.

(** The largest-remainder rule among the entries [X]: each gets its part rounded down
    or up, and one that is rounded up has a remainder at least as large as one that is
    not, with the smaller name at equal remainders. *)
Definition apportioned {A} (total slots : Z) (name : A -> string) (weight count : A -> Z) (X : A -> Prop) : Prop :=
  (forall x, X x -> share total slots (weight x) (count x)) /\
  (forall x y, X x -> X y -> count x = weight x * slots / total + 1 -> count y = weight y * slots / total ->
     ahead total slots (name x) (weight x) (name y) (weight y)).

(** ** Domains *)

Definition domain_of (read : option (string -> option string)) (v : Validator) : option string :=
  match read with
  | None => Some (val_Address v)
  | Some read => (fun d => if bool_decide (d = "") then val_Address v else d) <$> read (val_Address v)
  end.

Notation members_of read d l := (filter (fun v => domain_of read v = Some d) l).

Lemma group_loop_cons read g v l : group_loop read g (v :: l) =
  match domain_of read v with
  | Some d => group_loop read (<[d := default [] (g !! d) ++ [v]]> g) l
  | None => Err (StakeDomainError (val_Address v))
  end.
Proof. unfold domain_of. simpl. destruct read as [read|]; [|done]. by destruct (read (val_Address v)). Qed.

Lemma group_loop_members read l : forall g g', group_loop read g l = Ok g' ->
  (forall d, default [] (g' !! d) = default [] (g !! d) ++ members_of read d l) /\
  ((forall d, g !! d <> Some []) -> forall d, g' !! d <> Some []).
Proof.
  induction l as [|v l IH]; intros g g'; [intros [= <-]; split; [intros d; by rewrite app_nil_r|done]|].
  rewrite group_loop_cons. destruct (domain_of read v) as [e|] eqn:Ee; [|done]. intros [H1 H2]%IH. split.
  - intros d. rewrite H1, filter_cons, Ee. destruct (decide (e = d)) as [->|Hne].
    + rewrite lookup_insert_eq, decide_True by done. simpl. by rewrite <-app_assoc.
    + rewrite lookup_insert_ne, decide_False by congruence. done.
  - intros Hg. apply H2. intros d. destruct (decide (e = d)) as [->|]; [rewrite lookup_insert_eq|by rewrite lookup_insert_ne].
    intros [= [_ ?]%app_eq_nil]. done.
Qed.

Lemma groups_spec reader l groups : groupValidatorsByDomain reader l = Ok groups ->
  forall d ms, groups !! d = Some ms -> ms = members_of (reader ≫= hr_GetValidatorStakeDomain) d l /\ ms <> [].
Proof.
  intros [H1 H2]%group_loop_members d ms Hd. specialize (H1 d). rewrite Hd, lookup_empty in H1. simpl in H1.
  split; [done|]. intros ->. by apply (H2 ltac:(by intros d'; rewrite lookup_empty) d).
Qed.

(** ** Totals *)

Lemma total_stake_sum l : total_stake l = sum_of stake_of l.
Proof. done. Qed.
Lemma total_stake_cons v l : total_stake (v :: l) = stake_of v + total_stake l.
Proof. done. Qed.
Lemma total_stake_app l k : total_stake (l ++ k) = total_stake l + total_stake k.
Proof. apply sum_app. Qed.
Lemma total_stake_nonneg l : (forall v, v ∈ l -> 0 < stake_of v) -> 0 <= total_stake l.
Proof. intros Hl. apply sum_nonneg. intros v Hv. pose proof (Hl v Hv). lia. Qed.
Lemma total_stake_pos l : (forall v, v ∈ l -> 0 < stake_of v) -> l <> [] -> 0 < total_stake l.
Proof.
  destruct l as [|v l]; [done|]. intros Hl _. rewrite total_stake_sum, sum_cons.
  pose proof (Hl v ltac:(set_solver)). pose proof (total_stake_nonneg l ltac:(set_solver)). rewrite total_stake_sum in *. lia.
Qed.

Lemma total_weight_insert m d w : total_weight (<[d := w]> m) = total_weight m + Z.max 0 w - Z.max 0 (default 0 (m !! d)).
Proof.
  unfold total_weight. destruct (m !! d) as [w'|] eqn:E; simpl.
  - rewrite <-!(sum_perm _ _ _ (map_to_list_delete _ d _ E)).
    rewrite <-(sum_perm _ _ _ (map_to_list_delete (<[d := w]> m) d w (lookup_insert_eq m d w))), delete_insert_eq, !sum_cons. simpl. lia.
  - rewrite (sum_perm _ _ _ (map_to_list_insert _ _ _ E)), sum_cons. simpl. lia.
Qed.

Lemma group_loop_total read l : (forall v, v ∈ l -> 0 < stake_of v) -> forall g g',
  (forall d ms, g !! d = Some ms -> forall v, v ∈ ms -> 0 < stake_of v) -> group_loop read g l = Ok g' ->
  total_weight (total_stake <$> g') = total_weight (total_stake <$> g) + total_stake l.
Proof.
  induction l as [|v l IH]; intros Hl g g' Hg; [intros [= <-]; rewrite total_stake_sum; unfold sum_of; simpl; lia|].
  rewrite group_loop_cons. destruct (domain_of read v) as [e|] eqn:Ee; [|done].
  assert (He : forall u, u ∈ default [] (g !! e) -> 0 < stake_of u).
  { destruct (g !! e) eqn:E; simpl; [by eapply Hg|set_solver]. }
  pose proof (Hl v ltac:(set_solver)) as Hv.
  intros HOk. apply IH in HOk; [|set_solver|].
  2:{ intros d ms. rewrite lookup_insert_Some. intros [[<- <-]|[_ Hd]] u; [rewrite elem_of_app, list_elem_of_singleton|by eapply Hg].
      intros [?| ->]; [by apply He|done]. }
  rewrite HOk, fmap_insert, total_weight_insert, lookup_fmap, total_stake_app, !total_stake_cons.
  pose proof (total_stake_nonneg _ He). change (total_stake []) with 0. destruct (g !! e); simpl in *; lia.
Qed.

(** ** A domain's own schedule *)

Lemma NoDup_fmap_inj {A B} (f : A -> B) l x y : NoDup (f <$> l) -> x ∈ l -> y ∈ l -> f x = f y -> x = y.
Proof.
  intros Hnd Hx Hy E. induction l as [|z l IH]; [by apply not_elem_of_nil in Hx|].
  rewrite fmap_cons, NoDup_cons in Hnd. destruct Hnd as [Hz Hnd].
  apply elem_of_cons in Hx as [->|Hx]; apply elem_of_cons in Hy as [->|Hy]; [done|..|by apply IH].
  - destruct Hz. rewrite E. by apply list_elem_of_fmap_2.
  - destruct Hz. rewrite <-E. by apply list_elem_of_fmap_2.
Qed.

(** A list of candidates: every stake positive, every address once. *)
Definition candidates_ok (l : list Validator) : Prop :=
  (forall v, v ∈ l -> 0 < stake_of v) /\ NoDup (val_Address <$> l).

Definition stake_map (l : list Validator) : gmap string Z := foldl (fun m v => <[val_Address v := stake_of v]> m) ∅ l.

Lemma stake_map_entries l : NoDup (val_Address <$> l) ->
  map_to_list (stake_map l) ≡ₚ (fun v => (val_Address v, stake_of v)) <$> l.
Proof.
  unfold stake_map. intros Hnd. rewrite <-(app_nil_l (_ <$> l)), <-(map_to_list_empty (K := string) (M := gmap string) (A := Z)).
  assert (Hm : forall v, v ∈ l -> (∅ : gmap string Z) !! val_Address v = None) by (intros; apply lookup_empty).
  revert Hm. generalize (∅ : gmap string Z) as m.
  induction l as [|v l IH]; intros m Hm; [simpl; by rewrite app_nil_r|]. rewrite !fmap_cons in *. apply NoDup_cons in Hnd as [Hv Hnd].
  cbn [foldl]. rewrite IH; [|done|].
  - rewrite map_to_list_insert by (apply Hm; set_solver). by rewrite <-Permutation_middle.
  - intros u Hu. rewrite lookup_insert_ne; [apply Hm; set_solver|]. intros E. apply Hv. rewrite E. by apply list_elem_of_fmap_2.
Qed.

Lemma stake_map_lookup l v : NoDup (val_Address <$> l) -> v ∈ l -> stake_map l !! val_Address v = Some (stake_of v).
Proof.
  intros Hnd Hv. apply elem_of_map_to_list. rewrite stake_map_entries by done. apply list_elem_of_fmap. eauto.
Qed.
Lemma stake_map_inv l a w : NoDup (val_Address <$> l) -> stake_map l !! a = Some w -> exists v, v ∈ l /\ a = val_Address v /\ w = stake_of v.
Proof.
  intros Hnd Ha%elem_of_map_to_list. rewrite stake_map_entries in Ha by done.
  apply list_elem_of_fmap in Ha as (v & [= -> ->] & Hv). eauto.
Qed.
Lemma stake_map_total l : candidates_ok l -> total_weight (stake_map l) = total_stake l.
Proof.
  intros [Hpos Hnd]. unfold total_weight. rewrite (sum_perm _ _ _ (stake_map_entries l Hnd)), sum_fmap.
  apply sum_ext. intros v Hv. pose proof (Hpos v Hv). simpl. lia.
Qed.

Lemma times_indicator x (l : list string) : NoDup l -> x ∈ l -> sum_of (fun a => if decide (x = a) then 1 else 0) l = 1.
Proof.
  intros Hnd Hx. induction l as [|y l IH]; [by apply not_elem_of_nil in Hx|]. apply NoDup_cons in Hnd as [Hy Hnd].
  rewrite sum_cons. apply elem_of_cons in Hx as [->|Hx].
  - rewrite decide_True by done. rewrite (sum_ext _ (fun _ => 0 * 0)), (sum_linear (fun _ => 0)) by (intros a Ha; case_decide; [set_solver|done]). lia.
  - rewrite decide_False by set_solver. rewrite IH by done. lia.
Qed.

Lemma times_some x (l : list string) : x ∈ l -> times x l <> 0.
Proof.
  intros [l1 [l2 ->]]%list_elem_of_split. rewrite times_app, times_cons, decide_True by done.
  pose proof (times_nonneg x l1). pose proof (times_nonneg x l2). lia.
Qed.

(** Counting a list address by address. *)
Lemma sum_times (o l : list string) : NoDup l -> (forall x, x ∈ o -> x ∈ l) -> sum_of (fun a => times a o) l = Z.of_nat (length o).
Proof.
  intros Hnd. induction o as [|x o IH]; intros Ho.
  - rewrite (sum_ext _ (fun _ => 0 * 0)), (sum_linear (fun _ => 0)) by done. simpl. lia.
  - rewrite (sum_ext _ (fun a => (if decide (x = a) then 1 else 0) + times a o)) by (intros; apply times_cons).
    rewrite sum_plus, IH, times_indicator by set_solver. simpl. lia.
Qed.

Section Members.
Context `{MapOrder} (ms : list Validator) (q : Z) (o : list string).
Hypothesis Hms : candidates_ok ms.
Hypothesis Hne : ms <> [].
Hypothesis Hq : 0 < q < 2 ^ 63.
Hypothesis Ho : o ≡ₚ expandQuotaSchedule (allocateValidatorQuotas ms q).

Lemma member_quotas_spec :
  qa_address <$> allocateValidatorQuotas ms q ≡ₚ val_Address <$> ms /\
  sum_of qa_quota (allocateValidatorQuotas ms q) = q /\
  (forall a, a ∈ allocateValidatorQuotas ms q -> exists v, v ∈ ms /\ qa_address a = val_Address v /\
     0 <= qa_quota a /\ share (total_stake ms) q (stake_of v) (qa_quota a)).
Proof.
  pose proof (total_stake_pos ms (proj1 Hms) Hne) as Hpos. rewrite <-stake_map_total in Hpos by done.
  destruct (allocateQuotas_spec (stake_map ms) q) as (Ha & Hs & Hall); [|done|done|].
  { intros a w (v & Hv & _ & ->)%stake_map_inv; [|apply Hms]. apply Z.lt_le_incl. by apply Hms. }
  unfold allocateValidatorQuotas. fold (stake_map ms). split_and!; [|done|].
  - rewrite Ha, stake_map_entries by apply Hms. by rewrite <-list_fmap_compose.
  - intros a (w & Hw & Hb)%Hall. rewrite stake_map_total in Hb, Hpos by done. apply stake_map_inv in Hw as (v & Hv & E & ->); [|apply Hms].
    exists v. split_and!; [done..| |done]. pose proof (proj1 Hms v Hv).
    assert (0 <= stake_of v * q / total_stake ms) by (apply Z.div_pos; nia). lia.
Qed.

Lemma member_order_length : Z.of_nat (length o) = q.
Proof.
  destruct member_quotas_spec as (_ & Hs & Hall). rewrite Ho, expand_length; [done|].
  by intros a (v & _ & _ & ? & _)%Hall.
Qed.
Lemma member_order_elem x : x ∈ o -> x ∈ val_Address <$> ms.
Proof.
  destruct member_quotas_spec as (Ha & _). rewrite Ho, <-Ha. intros Hx.
  destruct (decide (x ∈ qa_address <$> allocateValidatorQuotas ms q)) as [?|Hn]; [done|]. by apply expand_none in Hn.
Qed.
Lemma member_quota v : v ∈ ms -> exists a, a ∈ allocateValidatorQuotas ms q /\ qa_address a = val_Address v /\
  stake_map ms !! qa_address a = Some (stake_of v) /\ times (val_Address v) o = qa_quota a /\ share (total_stake ms) q (stake_of v) (qa_quota a).
Proof.
  destruct member_quotas_spec as (Ha & _ & Hall). intros Hv.
  assert (Hin : val_Address v ∈ qa_address <$> allocateValidatorQuotas ms q) by (rewrite Ha; by apply list_elem_of_fmap_2).
  apply list_elem_of_fmap in Hin as (a & E & Hin). destruct (Hall a Hin) as (u & Hu & Eu & H0 & Hs).
  assert (u = v) as -> by (apply (NoDup_fmap_inj val_Address ms); [apply Hms|done|done|congruence]).
  exists a. split_and!; [done..| | |done].
  - rewrite <-E. apply elem_of_map_to_list. rewrite stake_map_entries by apply Hms. apply list_elem_of_fmap. by exists v.
  - rewrite (times_perm _ _ _ Ho), E, expand_times; [done|rewrite Ha; apply Hms|done..].
Qed.
Lemma member_order_apportioned :
  apportioned (total_stake ms) q val_Address stake_of (fun v => times (val_Address v) o) (fun v => v ∈ ms).
Proof.
  split; [intros v (a & _ & _ & _ & -> & ?)%member_quota; done|].
  intros v u (a & Ha & <- & Hwa & -> & _)%member_quota (b & Hb & <- & Hwb & -> & _)%member_quota.
  pose proof (total_stake_pos ms (proj1 Hms) Hne) as Hpos. rewrite <-stake_map_total in Hpos |- * by done.
  apply (allocateQuotas_ahead (stake_map ms) q); [|done..].
  intros x w (y & Hy & _ & ->)%stake_map_inv; [|apply Hms]. apply Z.lt_le_incl. by apply Hms.
Qed.
Lemma member_order_sum : sum_of (fun v => times (val_Address v) o) ms = q.
Proof.
  rewrite <-(sum_fmap (fun a => times a o) val_Address), sum_times; [apply member_order_length|apply Hms|apply member_order_elem].
Qed.
End Members.

(** ** Filling the slots *)

Lemma fill_slots_cons states d D st y : states !! d = Some st -> ds_order st !! ds_index st = Some y ->
  fill_slots states (d :: D) = y :: fill_slots (<[d := MkDomainState (ds_order st) (S (ds_index st))]> states) D.
Proof.
  intros Hd Hy. simpl. rewrite Hd. destruct (ds_order st) as [|z o] eqn:E; [by rewrite lookup_nil in Hy|].
  apply lookup_lt_Some in Hy as Hlt. rewrite (proj2 (Nat.leb_gt _ _) Hlt), Hy. done.
Qed.

Lemma fill_slots_elem x D : forall states, x ∈ fill_slots states D -> exists d st, states !! d = Some st /\ x ∈ ds_order st.
Proof.
  induction D as [|d D IH]; intros states; simpl; [set_solver|]. destruct (states !! d) as [st|] eqn:Ed; [|auto].
  destruct (ds_order st) as [|z o] eqn:Eo; [auto|]. intros [->|Hx]%elem_of_cons.
  - exists d, st. split; [done|]. rewrite Eo. destruct ((z :: o) !! _) eqn:E; simpl; [by eapply list_elem_of_lookup_2|set_solver].
  - apply IH in Hx as (e & st' & He & Hx). apply lookup_insert_Some in He as [[<- <-]|[_ He]]; [|by exists e, st'].
    exists d, st. split; [done|]. by rewrite Eo.
Qed.

(** Every domain has as many members left in its order as it has slots left. *)
Definition enough (states : gmap string domainScheduleState) (D : list string) : Prop :=
  forall d, d ∈ D -> exists st, states !! d = Some st /\ Z.of_nat (ds_index st) + times d D <= Z.of_nat (length (ds_order st)).

Lemma enough_cons states d D : enough states (d :: D) -> exists st y,
  states !! d = Some st /\ ds_order st !! ds_index st = Some y /\
  enough (<[d := MkDomainState (ds_order st) (S (ds_index st))]> states) D.
Proof.
  intros He. destruct (He d ltac:(set_solver)) as (st & Hd & Hle). rewrite times_cons, decide_True in Hle by done.
  pose proof (times_nonneg d D). destruct (lookup_lt_is_Some_2 (ds_order st) (ds_index st) ltac:(lia)) as [y Hy].
  exists st, y. split_and!; [done..|]. intros e Hin. destruct (decide (d = e)) as [<-|Hne].
  - rewrite lookup_insert_eq. eexists. split; [done|]. simpl. lia.
  - rewrite lookup_insert_ne by done. destruct (He e ltac:(set_solver)) as (st' & Hst' & Hle').
    rewrite times_cons, decide_False in Hle' by done. eauto.
Qed.

Lemma fill_slots_length D : forall states, enough states D -> length (fill_slots states D) = length D.
Proof.
  induction D as [|d D IH]; intros states He; [done|]. apply enough_cons in He as (st & y & Hd & Hy & He).
  rewrite (fill_slots_cons _ _ _ st y) by done. simpl. by rewrite IH.
Qed.

Lemma fill_slots_times d x D : forall states st, enough states D -> states !! d = Some st ->
  (forall e st', e <> d -> states !! e = Some st' -> x ∉ ds_order st') ->
  times x (fill_slots states D) = times x (take (Z.to_nat (times d D)) (drop (ds_index st) (ds_order st))).
Proof.
  induction D as [|e D IH]; intros states st He Hd Hx; [done|]. apply enough_cons in He as (st' & y & He' & Hy & Hen).
  rewrite (fill_slots_cons _ _ _ st' y) by done. rewrite !times_cons. pose proof (times_nonneg d D).
  assert (Hx' : forall k st0, k <> d ->
    <[e := MkDomainState (ds_order st') (S (ds_index st'))]> states !! k = Some st0 -> x ∉ ds_order st0).
  { intros k st0 Hk [[<- <-]|[_ Hs]]%lookup_insert_Some; [simpl|]; by eapply Hx. }
  destruct (decide (e = d)) as [->|Hne].
  - assert (st' = st) as -> by congruence. rewrite (IH _ (MkDomainState (ds_order st) (S (ds_index st)))); [|done|apply lookup_insert_eq|done].
    simpl. rewrite Z2Nat.inj_add by lia. simpl. rewrite (drop_S (ds_order st) y (ds_index st)) by done. simpl. by rewrite times_cons.
  - rewrite decide_False by (intros ->; by eapply (Hx e st'), list_elem_of_lookup_2).
    apply IH; [done|by rewrite lookup_insert_ne|done].
Qed.

(** ** The schedules of the domains *)

Section Compute.
Context `{MapOrder} (Keccak256 : list byte -> list byte).
Hypothesis Keccak256_length : forall x, length (Keccak256 x) = 32%nat.

Lemma member_schedules_spec seed groups l :
  NoDup (qa_address <$> l) ->
  exists states, member_schedules Keccak256 seed groups l = Ok states /\
  (forall d st, states !! d = Some st -> d ∈ qa_address <$> l) /\
  (forall a, a ∈ l -> if qa_quota a =? 0 then states !! qa_address a = None else
     exists o, states !! qa_address a = Some (MkDomainState o 0) /\
       o ≡ₚ expandQuotaSchedule (allocateValidatorQuotas (default [] (groups !! qa_address a)) (qa_quota a))).
Proof.
  induction l as [|a l IH]; intros Hnd; simpl; [exists ∅; set_solver|].
  apply NoDup_cons in Hnd as [Ha Hnd]. destruct (IH Hnd) as (states & Hs & Hdom & Hall).
  assert (Hnone : states !! qa_address a = None).
  { destruct (states !! qa_address a) eqn:E; [|done]. by apply Hdom in E. }
  destruct (qa_quota a =? 0) eqn:E0.
  - exists states. split_and!; [done|intros; right; eauto|]. intros b [->|Hb]%elem_of_cons; [by rewrite E0|by apply Hall].
  - destruct (shuffle_perm Keccak256 Keccak256_length (expandQuotaSchedule (allocateValidatorQuotas (default [] (groups !! qa_address a)) (qa_quota a)))
      (Keccak256 (seed ++ bytes_of_string (qa_address a)))) as (o & Ho & Hp). rewrite Ho. cbn. rewrite Hs.
    eexists. split_and!; [reflexivity| |].
    + intros d st [[<- _]|[_ Hd]]%lookup_insert_Some; [by left|right; eauto].
    + intros b [->|Hb]%elem_of_cons; [rewrite E0, lookup_insert_eq; eauto|].
      assert (qa_address a <> qa_address b) by (intros E; apply Ha; rewrite E; by apply list_elem_of_fmap_2).
      rewrite lookup_insert_ne by done. by apply Hall.
Qed.

Context (groups : gmap string (list Validator)) (slots : Z).
Hypothesis Hslots : 0 < slots < 2 ^ 63.
Hypothesis Hne : groups <> ∅.
Hypothesis Hgroups : forall d ms, groups !! d = Some ms -> candidates_ok ms /\ ms <> [].
Hypothesis Hdisjoint : forall d e ms ms' v u, groups !! d = Some ms -> groups !! e = Some ms' ->
  v ∈ ms -> u ∈ ms' -> val_Address v = val_Address u -> d = e.

Notation total := (total_weight (total_stake <$> groups)).
Notation quotas := (allocateStakeQuotas groups slots).

Lemma group_pos d ms : groups !! d = Some ms -> 0 < total_stake ms.
Proof. intros Hd. destruct (Hgroups d ms Hd) as [[Hpos _] Hms]. by apply total_stake_pos. Qed.

Lemma groups_total_pos : 0 < total.
Proof.
  destruct (map_choose groups Hne) as (d & ms & Hd). pose proof (group_pos d ms Hd) as Hpos.
  apply Z.lt_le_trans with (Z.max 0 (snd (d, total_stake ms))); [simpl; lia|].
  apply (sum_member (fun aw : string * Z => Z.max 0 (snd aw))); [simpl; lia|].
  apply elem_of_map_to_list, lookup_fmap_Some. by exists ms.
Qed.

Lemma domain_quotas_spec :
  NoDup (qa_address <$> quotas) /\ sum_of qa_quota quotas = slots /\
  (forall a, a ∈ quotas -> exists ms, groups !! qa_address a = Some ms /\ 0 <= qa_quota a < 2 ^ 63 /\
     share total slots (total_stake ms) (qa_quota a)) /\
  (forall d ms, groups !! d = Some ms -> exists a, a ∈ quotas /\ qa_address a = d).
Proof.
  destruct (allocateQuotas_spec (total_stake <$> groups) slots) as (Ha & Hs & Hall); [|done|apply groups_total_pos|].
  { intros d w. rewrite lookup_fmap. intros (ms & Hd & ->)%fmap_Some. apply Z.lt_le_incl. by eapply group_pos. }
  assert (Hq : forall a, a ∈ quotas -> exists ms, groups !! qa_address a = Some ms /\ 0 <= qa_quota a /\
     share total slots (total_stake ms) (qa_quota a)).
  { intros a (w & Hw & Hb)%Hall. rewrite lookup_fmap in Hw. apply fmap_Some in Hw as (ms & Hms & ->). exists ms.
    split_and!; [done| |done]. pose proof (group_pos _ _ Hms). pose proof groups_total_pos.
    assert (0 <= total_stake ms * slots / total) by (apply Z.div_pos; nia). lia. }
  split_and!; [|done| |].
  - unfold allocateStakeQuotas. rewrite Ha. apply NoDup_fst_map_to_list.
  - intros a Hin. destruct (Hq a Hin) as (ms & Hms & H0 & Hsh). exists ms. split_and!; [done..| |done].
    apply Z.le_lt_trans with slots; [|lia]. rewrite <-Hs. apply sum_member; [|done]. by intros b (_ & _ & ? & _)%Hq.
  - intros d ms Hd. assert (Hin : d ∈ qa_address <$> quotas).
    { unfold allocateStakeQuotas. rewrite Ha. apply list_elem_of_fmap. exists (d, total_stake ms). split; [done|].
      apply elem_of_map_to_list, lookup_fmap_Some. by exists ms. }
    apply list_elem_of_fmap in Hin as (a & -> & Hin). eauto.
Qed.

Lemma domain_quotas_ahead a b ms ms' : a ∈ quotas -> b ∈ quotas -> groups !! qa_address a = Some ms -> groups !! qa_address b = Some ms' ->
  qa_quota a = total_stake ms * slots / total + 1 -> qa_quota b = total_stake ms' * slots / total ->
  ahead total slots (qa_address a) (total_stake ms) (qa_address b) (total_stake ms').
Proof.
  intros Ha Hb Hms Hms'. apply (allocateQuotas_ahead (total_stake <$> groups) slots); [|done|apply groups_total_pos|done|done| |].
  - intros d w. rewrite lookup_fmap. intros (ls & Hd & ->)%fmap_Some. apply Z.lt_le_incl. by eapply group_pos.
  - by rewrite lookup_fmap, Hms.
  - by rewrite lookup_fmap, Hms'.
Qed.

(** The states of the domains against the order in which the domains propose. *)
Lemma states_enough seed states D :
  D ≡ₚ expandQuotaSchedule quotas -> member_schedules Keccak256 seed groups quotas = Ok states ->
  enough states D /\
  (forall d st, states !! d = Some st -> exists a ms, a ∈ quotas /\ qa_address a = d /\ groups !! d = Some ms /\
     0 < qa_quota a < 2 ^ 63 /\ st = MkDomainState (ds_order st) 0 /\ times d D = qa_quota a /\
     ds_order st ≡ₚ expandQuotaSchedule (allocateValidatorQuotas ms (qa_quota a))) /\
  (forall a, a ∈ quotas -> states !! qa_address a = None -> qa_quota a = 0).
Proof.
  intros HD Hst. destruct domain_quotas_spec as (Hnd & _ & Hall & _).
  destruct (member_schedules_spec seed groups quotas Hnd) as (states' & E & Hdom & Hmem). rewrite Hst in E. injection E as <-.
  assert (Hlook : forall d st, states !! d = Some st -> exists a ms, a ∈ quotas /\ qa_address a = d /\ groups !! d = Some ms /\
     0 < qa_quota a < 2 ^ 63 /\ st = MkDomainState (ds_order st) 0 /\ times d D = qa_quota a /\
     ds_order st ≡ₚ expandQuotaSchedule (allocateValidatorQuotas ms (qa_quota a))).
  { intros d st Hd. apply Hdom in Hd as Hin. apply list_elem_of_fmap in Hin as (a & -> & Hin).
    destruct (Hall a Hin) as (ms & Hms & Hb & _). specialize (Hmem a Hin). rewrite Hms in Hmem.
    destruct (Z.eqb_spec (qa_quota a) 0); [congruence|]. destruct Hmem as (o & Ho & Hp). simplify_eq. simpl.
    exists a, ms. split_and!; [done..|lia|lia|done| |done]. rewrite (times_perm _ _ _ HD). apply expand_times; [done..|lia]. }
  split_and!; [|done|].
  - intros d Hd. assert (Hin : d ∈ qa_address <$> quotas).
    { destruct (decide (d ∈ qa_address <$> quotas)) as [?|Hn]; [done|]. apply expand_none in Hn. by rewrite HD in Hd. }
    apply list_elem_of_fmap in Hin as (a & -> & Hin). destruct (Hall a Hin) as (ms & Hms & Hb & _).
    assert (Ht : times (qa_address a) D = qa_quota a) by (rewrite (times_perm _ _ _ HD); apply expand_times; [done..|lia]).
    assert (Hpos : qa_quota a <> 0) by (rewrite <-Ht; by apply times_some).
    specialize (Hmem a Hin). rewrite (proj2 (Z.eqb_neq _ _) Hpos), Hms in Hmem. destruct Hmem as (o & Ho & Hp).
    destruct (Hgroups _ _ Hms). exists (MkDomainState o 0). split; [done|]. simpl. rewrite Ht.
    rewrite (member_order_length ms (qa_quota a) o); [lia|done..|lia|done].
  - intros a Hin. specialize (Hmem a Hin). destruct (Z.eqb_spec (qa_quota a) 0); [done|]. destruct Hmem as (o & -> & _). done.
Qed.

Lemma compute_spec seed w : exists schedule, compute_schedule Keccak256 seed groups slots w = Ok schedule /\
  Z.of_nat (length schedule) = slots /\
  forall d ms, groups !! d = Some ms ->
    (exists a, a ∈ quotas /\ qa_address a = d /\ sum_of (fun v => times (val_Address v) schedule) ms = qa_quota a) /\
    apportioned (total_stake ms) (sum_of (fun v => times (val_Address v) schedule) ms) val_Address stake_of (fun v => times (val_Address v) schedule)
      (fun v => v ∈ ms).
Proof.
  destruct domain_quotas_spec as (Hnd & Hsum & Hall & Hdoms).
  destruct (shuffle_perm Keccak256 Keccak256_length (expandQuotaSchedule quotas) seed) as (D0 & HD0 & HpD0).
  destruct (member_schedules_spec seed groups quotas Hnd) as (states & Hst & _).
  set (D := applyCooldown D0 w). assert (HD : D ≡ₚ expandQuotaSchedule quotas) by (unfold D; by rewrite (proj1 (cooldown_spec D0 w))).
  destruct (states_enough seed states D HD Hst) as (Hen & Hlook & Hnone).
  assert (Hlen : Z.of_nat (length (fill_slots states D)) = slots).
  { rewrite fill_slots_length, HD by done. rewrite expand_length; [done|]. by intros b (_ & _ & [? _] & _)%Hall. }
  assert (Hforeign : forall e st d ms v, states !! e = Some st -> val_Address v ∈ ds_order st -> groups !! d = Some ms -> v ∈ ms -> e = d).
  { intros e st d ms v He Hx Hd Hv. destruct (Hlook e st He) as (b & ms' & _ & _ & Hms' & Hq & _ & _ & Hp).
    destruct (Hgroups e ms' Hms'). apply (member_order_elem ms' (qa_quota b)) in Hx; [|done..].
    apply list_elem_of_fmap in Hx as (u & E & Hu). by eapply Hdisjoint. }
  exists (fill_slots states D). split_and!; [|done|].
  { unfold compute_schedule, mbind, outcome_bind. rewrite HD0, Hst. fold D. by rewrite Hlen, Z.eqb_refl. }
  intros d ms Hd. destruct (Hdoms d ms Hd) as (a & Hin & <-). destruct (Hall a Hin) as (ms' & Hms & Hb & Hsh).
  assert (ms' = ms) as -> by congruence. clear Hd.
  destruct (states !! qa_address a) as [st|] eqn:Est.
  - destruct (Hlook _ _ Est) as (a' & ms' & Hin' & Ea & Hms' & Hq & Hst0 & Ht & Hp). rewrite Hms in Hms'. injection Hms' as <-.
    assert (a' = a) as -> by (by apply (NoDup_fmap_inj qa_address quotas)).
    destruct (Hgroups _ _ Hms) as [Hok Hms0].
    assert (Htimes : forall v, v ∈ ms -> times (val_Address v) (fill_slots states D) = times (val_Address v) (ds_order st)).
    { intros v Hv. rewrite (fill_slots_times (qa_address a) _ D states st); [|done..|].
      - rewrite Hst0 at 1. simpl. rewrite drop_0, Ht, <-(member_order_length ms (qa_quota a) (ds_order st)), Nat2Z.id by done.
        by rewrite firstn_all.
      - intros e st' He Hst' Hx. apply He. by apply (Hforeign e st' _ ms v Hst' Hx Hms Hv). }
    rewrite (sum_ext _ _ _ Htimes), (member_order_sum ms (qa_quota a)) by done. split; [by exists a|].
    destruct (member_order_apportioned ms (qa_quota a) (ds_order st) Hok Hms0 Hq Hp) as [Hsh1 Hah].
    split; [intros v Hv; rewrite Htimes by done; by apply Hsh1|]. intros v u Hv Hu. rewrite !Htimes by done. by apply Hah.
  - assert (Htimes : forall v, v ∈ ms -> times (val_Address v) (fill_slots states D) = 0).
    { intros v Hv. apply times_none. intros (e & st' & He & Hx)%fill_slots_elem.
      rewrite (Hforeign e st' _ ms v He Hx Hms Hv) in He. congruence. }
    rewrite (sum_ext _ (fun _ => 0 * 0) _ Htimes), (sum_linear (fun _ => 0)). rewrite Z.mul_0_l.
    split; [exists a; split_and!; [done..|]; symmetry; by apply Hnone|].
    split; [intros v Hv|intros v u Hv Hu]; rewrite !Htimes by done; unfold share; rewrite Z.mul_0_r, Zdiv_0_l; lia.
Qed.

Lemma compute_apportioned seed w : exists schedule, compute_schedule Keccak256 seed groups slots w = Ok schedule /\
  Z.of_nat (length schedule) = slots /\
  let proposals ms := sum_of (fun v => times (val_Address v) schedule) ms in
  apportioned total slots fst (fun dm => total_stake (snd dm)) (fun dm => proposals (snd dm)) (fun dm => groups !! fst dm = Some (snd dm)) /\
  forall d ms, groups !! d = Some ms ->
    apportioned (total_stake ms) (proposals ms) val_Address stake_of (fun v => times (val_Address v) schedule) (fun v => v ∈ ms).
Proof.
  destruct (compute_spec seed w) as (schedule & Hs & Hlen & Hall). exists schedule. cbv zeta. split_and!; [done..| |by intros d ms [_ ?]%Hall].
  destruct domain_quotas_spec as (_ & _ & Hq & _). split.
  - intros [d ms] Hd. simpl in *. destruct (Hall d ms Hd) as [(a & Ha & <- & ->) _]. destruct (Hq a Ha) as (ms' & Hms' & _ & Hsh). congruence.
  - intros [d ms] [e ns] Hd He. simpl in *. destruct (Hall d ms Hd) as [(a & Ha & <- & ->) _]. destruct (Hall e ns He) as [(b & Hb & <- & ->) _].
    by apply domain_quotas_ahead.
Qed.
End Compute.

(** ** From the candidates to the domains *)

(** The candidates the schedule is built from. *)
Definition snapshot_of (candidates : list (option Validator)) : list Validator :=
  filter (fun v => 0 < stake_of v) (omap id candidates).

Lemma groups_ok reader l groups : candidates_ok l -> l <> [] -> groupValidatorsByDomain reader l = Ok groups ->
  groups <> ∅ /\ total_weight (total_stake <$> groups) = total_stake l /\
  (forall d ms, groups !! d = Some ms -> candidates_ok ms /\ ms <> []) /\
  (forall d e ms ms' v u, groups !! d = Some ms -> groups !! e = Some ms' -> v ∈ ms -> u ∈ ms' -> val_Address v = val_Address u -> d = e).
Proof.
  intros [Hpos Hnd] Hne Hg. pose proof (groups_spec _ _ _ Hg) as Hms.
  assert (Ht : total_weight (total_stake <$> groups) = total_stake l).
  { rewrite (group_loop_total (reader ≫= hr_GetValidatorStakeDomain) l Hpos ∅ groups); [|by intros d ms; rewrite lookup_empty|done]. by rewrite fmap_empty. }
  split_and!; [|done| |].
  - intros ->. rewrite fmap_empty in Ht. pose proof (total_stake_pos l Hpos Hne) as Hp. rewrite <-Ht in Hp. by vm_compute in Hp.
  - intros d ms Hd. destruct (Hms d ms Hd) as [-> Hne']. split; [|done]. split.
    + intros v [_ Hv]%list_elem_of_filter. by apply Hpos.
    + eapply sublist_NoDup; [exact Hnd|]. apply fmap_sublist, sublist_filter.
  - intros d e ms ms' v u Hd He Hv Hu E. destruct (Hms d ms Hd) as [-> _], (Hms e ms' He) as [-> _].
    apply list_elem_of_filter in Hv as [Hv Hin], Hu as [Hu Hin'].
    assert (v = u) as -> by (by apply (NoDup_fmap_inj val_Address l)). congruence.
Qed.

Lemma snapshot_ok candidates : NoDup (val_Address <$> omap id candidates) -> candidates_ok (snapshot_of candidates).
Proof.
  intros Hnd. split; [by intros v [? _]%list_elem_of_filter|].
  eapply sublist_NoDup; [exact Hnd|]. apply fmap_sublist, sublist_filter.
Qed.

Lemma build_eq `{MapOrder} Keccak256 candidates epoch slots w vs groups : snapshot_of candidates <> [] -> 0 < slots ->
  0 < total_stake (snapshot_of candidates) ->
  groupValidatorsByDomain (historyReader vs) (snapshot_of candidates) = Ok groups ->
  BuildEpochSchedule Keccak256 candidates epoch slots w vs =
  let seed := buildEpochSeed Keccak256 (historyReader vs) epoch slots in
  let key := buildScheduleCacheKey Keccak256 epoch slots (Z.max 0 w) seed groups in
  match copyCachedScheduleUnsafe epoch key vs with
  | Some cached => (Ok cached, vs)
  | None =>
      match compute_schedule Keccak256 seed groups slots (Z.max 0 w) with
      | Ok s => (Ok s, MkSet (vs_validators vs) (activeList vs) (vs_totalStake vs) (maxValidators vs) (historyReader vs)
                         (selectionHistory vs) (performanceMultipliers vs) (Some (MkScheduleCache epoch key s)))
      | r => (r, vs)
      end
  end.
Proof.
  intros Hne Hslots Hpos Hg. unfold BuildEpochSchedule. fold (snapshot_of candidates).
  assert (Hc : (length candidates =? 0)%nat = false) by (destruct candidates; [by destruct Hne|done]).
  rewrite Hc, (proj2 (Z.leb_gt slots 0) Hslots), Hg.
  destruct (snapshot_of candidates); [done|]. by rewrite (proj2 (Z.leb_gt _ 0) Hpos).
Qed.

(** C6. A validator's share of the slots is its share of the stake.  With no cached
    schedule, candidates of distinct addresses, at least one of them with a positive
    stake and the domain of each such candidate known, [BuildEpochSchedule] succeeds
    with a proposer for every slot.  The slots are apportioned to the stake domains by the
    largest-remainder rule - a domain gets its exact part rounded down or up, and the
    ones rounded up are those of the largest remainders, ties going to the first
    address - and the slots of each domain are apportioned to its validators in the same
    way.  Asked again, it returns the same schedule. *)
Theorem epoch_schedule_proportional `{MapOrder} Keccak256 candidates epoch slots w vs groups :
  (forall x, length (Keccak256 x) = 32%nat) -> 0 < slots < 2 ^ 63 -> scheduleCache vs = None ->
  snapshot_of candidates <> [] -> NoDup (val_Address <$> omap id candidates) ->
  groupValidatorsByDomain (historyReader vs) (snapshot_of candidates) = Ok groups ->
  exists schedule vs', BuildEpochSchedule Keccak256 candidates epoch slots w vs = (Ok schedule, vs') /\
  Z.of_nat (length schedule) = slots /\
  BuildEpochSchedule Keccak256 candidates epoch slots w vs' = (Ok schedule, vs') /\
  let proposals ms := sum_of (fun v => times (val_Address v) schedule) ms in
  apportioned (total_stake (snapshot_of candidates)) slots fst (fun dm => total_stake (snd dm)) (fun dm => proposals (snd dm))
    (fun dm => groups !! fst dm = Some (snd dm)) /\
  forall d ms, groups !! d = Some ms ->
    apportioned (total_stake ms) (proposals ms) val_Address stake_of (fun v => times (val_Address v) schedule) (fun v => v ∈ ms).
Proof.
  intros HK Hslots Hcache Hne Hnd Hg. apply snapshot_ok in Hnd as Hok.
  pose proof (total_stake_pos _ (proj1 Hok) Hne) as Hpos.
  destruct (groups_ok _ _ _ Hok Hne Hg) as (Hg0 & Htot & Hgs & Hdis).
  set (seed := buildEpochSeed Keccak256 (historyReader vs) epoch slots).
  destruct (compute_apportioned Keccak256 HK groups slots Hslots Hg0 Hgs Hdis seed (Z.max 0 w)) as (s & Hs & Hlen & Hshare).
  rewrite (build_eq Keccak256 candidates epoch slots w vs groups) by (done || lia). cbn zeta. fold seed.
  unfold copyCachedScheduleUnsafe at 1. rewrite Hcache, Hs. do 2 eexists. split; [reflexivity|]. split; [done|]. split.
  - rewrite (build_eq Keccak256 candidates epoch slots w _ groups) by (done || lia). cbn zeta. cbn [historyReader]. fold seed.
    unfold copyCachedScheduleUnsafe. cbn [scheduleCache sc_epoch sc_key sc_value]. rewrite Z.eqb_refl, bool_decide_eq_true_2 by done.
    destruct s; [simpl in Hlen; lia|done].
  - rewrite <-Htot. exact Hshare.
Qed.

(** ** The same schedule everywhere *)

(** Two groupings that differ in the order of the members only. *)
Definition same_groups (g1 g2 : gmap string (list Validator)) : Prop := forall d, option_Forall2 (≡ₚ) (g1 !! d) (g2 !! d).

Lemma group_loop_defined read l : forall g,
  (exists g', group_loop read g l = Ok g') <-> (forall v, v ∈ l -> is_Some (domain_of read v)).
Proof.
  induction l as [|v l IH]; intros g; [split; [set_solver|by exists g]|]. rewrite group_loop_cons.
  destruct (domain_of read v) as [d|] eqn:E.
  - rewrite IH. split; [intros Hl u [->|Hu]%elem_of_cons; [by rewrite E|by apply Hl]|set_solver].
  - split; [by intros [? ?]|]. intros Hl. destruct (Hl v ltac:(set_solver)). congruence.
Qed.

Lemma groups_perm reader l k g : l ≡ₚ k -> groupValidatorsByDomain reader l = Ok g ->
  exists g', groupValidatorsByDomain reader k = Ok g' /\ same_groups g g'.
Proof.
  intros Hp Hg. set (read := reader ≫= hr_GetValidatorStakeDomain).
  assert (Hd : forall v, v ∈ k -> is_Some (domain_of read v)).
  { intros v. rewrite <-Hp. apply (group_loop_defined read l ∅). eauto. }
  apply (group_loop_defined read k ∅) in Hd as [g' Hg']. exists g'. split; [done|]. intros d.
  destruct (group_loop_members _ _ _ _ Hg) as [H1 H1'], (group_loop_members _ _ _ _ Hg') as [H2 H2'].
  specialize (H1 d); specialize (H2 d). fold read in H1. rewrite lookup_empty in H1, H2. simpl in H1, H2.
  assert (Hdd : default [] (g !! d) ≡ₚ default [] (g' !! d)) by (by rewrite H1, H2, Hp).
  assert (He : forall d, (∅ : gmap string (list Validator)) !! d <> Some []) by (intros e; by rewrite lookup_empty).
  specialize (H1' He d); specialize (H2' He d).
  destruct (g !! d) as [ms|], (g' !! d) as [ms'|]; simpl in Hdd; [by constructor|..|constructor].
  - apply Permutation_sym, Permutation_nil in Hdd. by subst.
  - apply Permutation_nil in Hdd. by subst.
Qed.

Lemma stake_map_perm l k : NoDup (val_Address <$> l) -> l ≡ₚ k -> stake_map l = stake_map k.
Proof.
  intros Hnd Hp. apply map_to_list_inj. rewrite !stake_map_entries; [by rewrite Hp| |done]. by rewrite <-Hp.
Qed.

Section Agreement.
Context (O1 O2 : MapOrder) (Keccak256 : list byte -> list byte) (g1 g2 : gmap string (list Validator)).
Hypothesis Hsame : same_groups g1 g2.
Hypothesis Hok : forall d ms, g1 !! d = Some ms -> NoDup (val_Address <$> ms).

Lemma group_quotas_agree d q :
  @allocateValidatorQuotas O1 (default [] (g1 !! d)) q = @allocateValidatorQuotas O2 (default [] (g2 !! d)) q.
Proof.
  unfold allocateValidatorQuotas. fold (stake_map (default [] (g1 !! d))) (stake_map (default [] (g2 !! d))).
  pose proof (Hok d) as Hnd. destruct (Hsame d) as [ms ms' Hp|]; simpl; [|apply allocateQuotas_unique].
  rewrite (stake_map_perm ms ms') by (done || by apply Hnd). apply allocateQuotas_unique.
Qed.

Lemma member_schedules_agree seed l :
  @member_schedules O1 Keccak256 seed g1 l = @member_schedules O2 Keccak256 seed g2 l.
Proof. induction l as [|a l IH]; [done|]. simpl. by rewrite group_quotas_agree, IH. Qed.

Lemma domain_quotas_agree slots : @allocateStakeQuotas O1 g1 slots = @allocateStakeQuotas O2 g2 slots.
Proof.
  unfold allocateStakeQuotas. replace (total_stake <$> g1) with (total_stake <$> g2); [apply allocateQuotas_unique|].
  apply map_eq. intros d. rewrite !lookup_fmap. destruct (Hsame d) as [ms ms' Hp|]; [|done]. simpl. f_equal. symmetry.
  by apply (sum_perm stake_of).
Qed.

Lemma compute_agree seed slots w : @compute_schedule O1 Keccak256 seed g1 slots w = @compute_schedule O2 Keccak256 seed g2 slots w.
Proof. unfold compute_schedule. by rewrite domain_quotas_agree, member_schedules_agree. Qed.
End Agreement.

Lemma build_ok_inv `{MapOrder} Keccak256 candidates epoch slots w vs s :
  fst (BuildEpochSchedule Keccak256 candidates epoch slots w vs) = Ok s ->
  snapshot_of candidates <> [] /\ 0 < slots /\ 0 < total_stake (snapshot_of candidates) /\
  exists groups, groupValidatorsByDomain (historyReader vs) (snapshot_of candidates) = Ok groups.
Proof.
  unfold BuildEpochSchedule. fold (snapshot_of candidates). case_match; [done|].
  destruct (Z.leb_spec slots 0); [done|]. destruct (snapshot_of candidates) as [|v l]; [done|].
  destruct (Z.leb_spec (total_stake (v :: l)) 0); [done|]. simpl.
  destruct (groupValidatorsByDomain _ _) as [groups| | |] eqn:Eg; [|done..]. intros _. split_and!; [done..|]. by exists groups.
Qed.

(** C24. The nodes of the network agree on the proposers.  Two nodes with the same
    chain and the same candidates, none of them twice, compute the same schedule,
    whatever order the candidates come in and whatever order the nodes' maps are
    iterated in; if one of them succeeds the other does. *)
Theorem epoch_schedule_agreement (O1 O2 : MapOrder) Keccak256 c1 c2 epoch slots w vs1 vs2 schedule :
  historyReader vs1 = historyReader vs2 -> scheduleCache vs1 = None -> scheduleCache vs2 = None ->
  c1 ≡ₚ c2 -> NoDup (val_Address <$> omap id c1) ->
  fst (@BuildEpochSchedule O1 Keccak256 c1 epoch slots w vs1) = Ok schedule ->
  fst (@BuildEpochSchedule O2 Keccak256 c2 epoch slots w vs2) = Ok schedule.
Proof.
  intros Hr Hc1 Hc2 Hp Hnd Hs. destruct (build_ok_inv _ _ _ _ _ _ _ Hs) as (Hne & Hslots & Hpos & g1 & Hg1).
  assert (Hsp : snapshot_of c1 ≡ₚ snapshot_of c2) by (unfold snapshot_of; by rewrite Hp).
  destruct (groups_perm _ _ _ _ Hsp Hg1) as (g2 & Hg2 & Hsame).
  destruct (groups_ok _ _ _ (snapshot_ok _ Hnd) Hne Hg1) as (_ & _ & Hok & _).
  rewrite (@build_eq O1 _ _ _ _ _ _ _ Hne Hslots Hpos Hg1) in Hs. rewrite Hr in Hg2.
  rewrite (@build_eq O2 Keccak256 c2 epoch slots w vs2 g2); [|by intros E; rewrite E in Hsp; apply Permutation_nil_r in Hsp|done| |done].
  2:{ by rewrite total_stake_sum, <-(sum_perm _ _ _ Hsp). }
  unfold copyCachedScheduleUnsafe in *. rewrite Hc1 in Hs. rewrite Hc2, <-Hr. cbn zeta in *.
  rewrite (compute_agree O1 O2 Keccak256 g1 g2) in Hs; [|done|by intros d ms [[_ ?] _]%Hok].
  destruct (@compute_schedule O2 _ _ _ _ _); simpl in *; done.
Qed.

(** ** The cooldown *)

Lemma recent_iff l i w x : hasRecentMatch l i w x = true <-> exists k, (i - w <= k)%nat /\ (k < i)%nat /\ l !! k = Some x.
Proof.
  unfold hasRecentMatch. rewrite bool_decide_eq_true, elem_of_take. split.
  - intros (k & Hk & Hlt). rewrite lookup_drop in Hk. exists (i - w + k)%nat. split_and!; [lia|lia|done].
  - intros (k & Hge & Hlt & Hk). exists (k - (i - w))%nat. rewrite lookup_drop. replace (i - w + (k - (i - w)))%nat with k by lia.
    split; [done|lia].
Qed.

(** C33. The cooldown is broken only where nothing else is left.  [applyCooldown]
    permutes the schedule; if in the result a domain proposes again within the
    window, then so would every domain that is still to come. *)
Theorem cooldown_best_effort l w :
  applyCooldown l w ≡ₚ l /\
  (0 < w -> forall i k x, (i - Z.to_nat w <= k)%nat -> (k < i)%nat ->
     applyCooldown l w !! k = Some x -> applyCooldown l w !! i = Some x ->
     forall j y, (i <= j)%nat -> applyCooldown l w !! j = Some y ->
     exists m, (i - Z.to_nat w <= m)%nat /\ (m < i)%nat /\ applyCooldown l w !! m = Some y).
Proof.
  destruct (cooldown_spec l w) as [Hp Hu]. split; [done|]. intros Hw i k x Hk Hki Hx Hi j y Hj Hy.
  apply recent_iff. apply (Hu Hw i); [lia|rewrite <-Hp; by eapply lookup_lt_Some| |].
  - unfold violatesCooldown. rewrite Hi. apply recent_iff. eauto.
  - apply list_elem_of_lookup. exists (j - i)%nat. rewrite lookup_drop. by replace (i + (j - i))%nat with j by lia.
Qed.

(** ** Samples *)
Module Demo.
Definition hash32 (x : list byte) : list byte := take 32 (x ++ replicate 32 x01).
Lemma hash32_length x : length (hash32 x) = 32%nat.
Proof. unfold hash32. rewrite length_take, length_app, length_replicate. lia. Qed.

Definition validator (a : string) (stake : byte) : Validator := MkValidator a [] "" "" "" [stake] [] [] ∅ 0 true 0 0 0 0 0.
(** [bert] and [carl] answer to one domain. *)
Definition reader : HistoryReader :=
  MkHistoryReader (fun _ => None) (-1) (Some (fun a => Some (if bool_decide (a = "anna") then "" else "house"))).
Definition candidates : list (option Validator) :=
  [Some (validator "anna" x05); None; Some (validator "bert" x03); Some (validator "carl" x02); Some (validator "dora" x00)].
Definition set : ValidatorSet := SetHistoryReader (Some reader) (NewSet 10).
Definition domains : gmap string (list Validator) :=
  {[ "anna" := [validator "anna" x05]; "house" := [validator "bert" x03; validator "carl" x02] ]}.

Definition schedule : list string := ["anna"; "carl"; "anna"; "bert"; "anna"; "bert"; "anna"; "carl"].
Example schedule_sample : fst (BuildEpochSchedule hash32 candidates 3 8 1 set) = Ok schedule.
Proof. by vm_compute. Qed.

Lemma candidates_distinct : NoDup (val_Address <$> omap id candidates).
Proof. apply (bool_decide_eq_true_1 _). by vm_compute. Qed.
Lemma domains_grouped : groupValidatorsByDomain (historyReader set) (snapshot_of candidates) = Ok domains.
Proof. by vm_compute. Qed.

Lemma epoch_schedule_proportional_witness : exists schedule vs',
  BuildEpochSchedule hash32 candidates 3 8 1 set = (Ok schedule, vs') /\ Z.of_nat (length schedule) = 8 /\
  BuildEpochSchedule hash32 candidates 3 8 1 vs' = (Ok schedule, vs') /\
  let proposals ms := sum_of (fun v => times (val_Address v) schedule) ms in
  apportioned 10 8 fst (fun dm => total_stake (snd dm)) (fun dm => proposals (snd dm)) (fun dm => domains !! fst dm = Some (snd dm)) /\
  forall d ms, domains !! d = Some ms ->
    apportioned (total_stake ms) (proposals ms) val_Address stake_of (fun v => times (val_Address v) schedule) (fun v => v ∈ ms).
Proof.
  apply (epoch_schedule_proportional hash32 candidates 3 8 1 set domains);
    [exact hash32_length|lia|reflexivity|by vm_compute|exact candidates_distinct|exact domains_grouped].
Defined.

(** Another order of the map and of the candidates. *)
Definition reversed_order : MapOrder.
Proof.
  refine {| map_order := fun V m => reverse (fst <$> map_to_list m) |}.
  - intros. rewrite reverse_Permutation. apply NoDup_fst_map_to_list.
  - intros V m k. rewrite elem_of_reverse. exact (map_order_elem V m k).
Defined.

Lemma epoch_schedule_agreement_witness :
  fst (@BuildEpochSchedule reversed_order hash32 (rev candidates) 3 8 1 set) = Ok schedule.
Proof.
  apply (epoch_schedule_agreement key_order reversed_order hash32 candidates (rev candidates) 3 8 1 set set);
    [reflexivity..|apply Permutation_rev|exact candidates_distinct|by vm_compute].
Defined.

(** Three of four slots belong to one domain: the last two cannot be kept apart. *)
Lemma cooldown_best_effort_witness : applyCooldown ["a"; "a"; "a"; "b"] 1 = ["a"; "b"; "a"; "a"] /\
  exists m, (2 <= m)%nat /\ (m < 3)%nat /\ applyCooldown ["a"; "a"; "a"; "b"] 1 !! m = Some "a".
Proof.
  split; [reflexivity|].
  apply (proj2 (cooldown_best_effort ["a"; "a"; "a"; "b"] 1) ltac:(lia) 3%nat 2%nat "a" ltac:(simpl; lia) ltac:(lia)
    ltac:(reflexivity) ltac:(reflexivity) 3%nat "a" ltac:(lia)). reflexivity.
Defined.
End Demo.
