(* ===== verification/Staking.v ===== *)
(** * Staking and unbonding (src/core/state/worldstate.go)

    The staking manager of the world state: delegation to validators, the
    unbonding queue, reward distribution and claims.  [Delegate] and [Undelegate]
    hold the world's chain and validator mutexes from start to end, and the other
    calls the mutexes of what they change, so a call is one step; the sharded
    account lock is taken as it is in the code. *)

From S2P Require Import Prelude Uint256 Address Storage AccountManager ShardedLock Governance Domains EvmGas World Floats.
From stdpp Require Import base tactics numbers list gmap strings sorting.
From Stdlib Require Import ZArith Lia Strings.Byte Strings.Ascii.
Open Scope Z_scope.
Open Scope list_scope.

Inductive st_err : Type :=
| DelegationTooSmall
| DelegatorGetFailed (e : am_err)
| UnknownValidator (address : string)
| InactiveValidator (address : string)
| InsufficientFunds
| TooManyDelegations
| StakeCapExceeded
| ConcentrationExceeded
| DelegatorUpdateFailed (e : am_err)
| DelegatorSaveFailed (e : am_err)
| UndelegationNotPositive
| DelegationMissing (address : string)
| DelegationInsufficient
| InvalidUnbondingAmount (amount : string)
| RewardsMustBePositive
| NoActiveStakers
| NoVotingPower
| TooManyFailures
| BadDelegatorAddress (e : address_err)
| NothingToClaim.

Record UnbondingEntry : Type := MkUnbonding {
  DelegatorAddr : string;
  ValidatorAddr : string;
  ub_Amount : string;
  CreationTime : Z;
  CompletionTime : Z
}.

(** The part of [config.StakingConfig] that is used here. *)
Record StakingConfig : Type := MkStakingConfig {
  MinDelegation : string;
  MaxDelegationsPerValidator : Z;
  MaxValidatorStake : string;
  MaxStakePercentage : float64;
  UnbondingPeriod : Z
}.

Definition set_UpdatedAt (t : Z) (v : Validator) : Validator := set_times (val_CreatedAt v) t v.

Section Staking.
Context `{MapOrder} {C F : Type} `{LRU C}.
Context (Keccak256 : list byte -> list byte) (shardID totalShards : Z) (cfg : StakingConfig).

Record staking : Type := MkStaking {
  sk_world : @world C F;
  sk_totalStaked : string;
  sk_unbonding : list UnbondingEntry
}.
Notation St := (GoM staking st_err).

Definition on_sk_world {A} (m : GoM (@world C F) st_err A) : St A := fun s =>
  let '(r, w) := m (sk_world s) in (r, MkStaking w (sk_totalStaked s) (sk_unbonding s)).
Definition set_total (t : string) (s : staking) : staking := MkStaking (sk_world s) t (sk_unbonding s).
Definition set_unbonding (q : list UnbondingEntry) (s : staking) : staking := MkStaking (sk_world s) (sk_totalStaked s) q.
(** The objects in [ws.validators] are changed in place. *)
Definition put_validator (address : string) (v : Validator) (s : staking) : staking :=
  let w := sk_world s in
  MkStaking (MkWorld (w_am w) (w_locks w) (w_versions w) (<[address := v]> (w_validators w)) (w_config w) (w_evm w))
    (sk_totalStaked s) (sk_unbonding s).

(** [ws.accountMu.Lock(k); defer ws.accountMu.Unlock(k)]. *)
Definition holding {A} (key : string) (body : St A) : St A := fun s =>
  match on_sk_world (call_mutexes (Lock key)) s with
  | (Ok _, s0) =>
      let '(r, s1) := body s0 in
      match r with
      | Hang => (Hang, s1)
      | _ => match on_sk_world (call_mutexes (Unlock key)) s1 with
             | (Ok _, s2) => (r, s2)
             | (Err e, s2) => (Err e, s2)
             | (Panic, s2) => (Panic, s2)
             | (Hang, s2) => (Hang, s2)
             end
      end
  | (Err e, s0) => (Err e, s0)
  | (Panic, s0) => (Panic, s0)
  | (Hang, s0) => (Hang, s0)
  end.

Notation account_of f a := (on_sk_world (on_am f (GetAccount Keccak256 shardID totalShards a))).
Notation read_account l := (on_sk_world (on_am DelegatorGetFailed (load l))).
Notation write_account l f := (on_sk_world (on_am DelegatorGetFailed (assign l f))).
Notation update_account f l := (on_sk_world (on_am f (UpdateAccount Keccak256 shardID totalShards l))).

(** A configured amount; one that does not parse is [fallback]. *)
Definition configured (s : string) (fallback : Z) : Z := default fallback (SetString10 s).

Definition default_max_stake : Z := 10000000 * 10 ^ 18.

(** The validator's share of the network's stake after the delegation. *)
Definition stake_percentage (newStake total : Z) : outcome st_err float64 :=
  p ← big_Quo 0 (SetInt newStake) (SetInt total); mret (big_Float64 p).
Definition max_percentage : float64 :=
  if f64_eq (MaxStakePercentage cfg) (Fin (Dy 0 0)) then f64_const 15 100 else MaxStakePercentage cfg.

Definition concentrated (totalStaked : string) (newStake amount : Z) : outcome st_err bool :=
  match SetString10 totalStaked with
  | None => mret false
  | Some total =>
      if 0 <? total then
        p ← stake_percentage newStake (total + amount); mret (f64_lt max_percentage p)
      else mret false
  end.

Definition Delegate_body (now : Z) (delegatorAddr validatorAddr : string) (amount : Z) : St unit :=
  _ ← refuse_if (amount <? configured (MinDelegation cfg) 0) DelegationTooSmall;
  l ← account_of DelegatorGetFailed delegatorAddr;
  delegator ← read_account l;
  s ← get;
  match w_validators (sk_world s) !! validatorAddr with
  | None => throw (UnknownValidator validatorAddr)
  | Some validator =>
      _ ← refuse_if (negb (val_Active validator)) (InactiveValidator validatorAddr);
      let delBalance := ParseBigInt_bytes (acc_Balance delegator) in
      _ ← refuse_if (delBalance <? amount) InsufficientFunds;
      _ ← refuse_if (MaxDelegationsPerValidator cfg <=? Z.of_nat (size (val_Delegators validator))) TooManyDelegations;
      let newStake := ParseBigInt_bytes (val_Stake validator) + amount in
      _ ← refuse_if (configured (MaxValidatorStake cfg) default_max_stake <? newStake) StakeCapExceeded;
      tooMuch ← lift (concentrated (sk_totalStaked s) newStake amount);
      _ ← refuse_if tooMuch ConcentrationExceeded;
      let newDelegation := ParseBigInt_bytes (default [] (acc_DelegatedTo delegator !! validatorAddr)) + amount in
      let newValDelegated := ParseBigInt_bytes (val_DelegatedStake validator) + amount in
      let newValDel := ParseBigInt_bytes (default [] (val_Delegators validator !! delegatorAddr)) + amount in
      let newTotalStaked := configured (sk_totalStaked s) 0 + amount in
      _ ← write_account l (set_Balance (u256_or_nil (delBalance - amount)));
      _ ← write_account l (set_StakedAmount (u256_or_nil (ParseBigInt_bytes (acc_StakedAmount delegator) + amount)));
      _ ← write_account l (fun a => set_DelegatedTo (<[validatorAddr := u256_or_nil newDelegation]> (acc_DelegatedTo a)) a);
      _ ← update_account DelegatorUpdateFailed l;
      _ ← on_sk_world (on_am DelegatorSaveFailed (db_SaveAccount l));
      _ ← modify (put_validator validatorAddr
            (set_UpdatedAt (Unix now) (set_Stake (u256_or_nil newStake) (set_DelegatedStake (u256_or_nil newValDelegated)
              (set_Delegators (<[delegatorAddr := u256_or_nil newValDel]> (val_Delegators validator)) validator)))));
      modify (set_total (String10 newTotalStaked))
  end.
Definition sm_Delegate (now : Z) (delegatorAddr validatorAddr : string) (amount : Z) : St unit :=
  holding delegatorAddr (Delegate_body now delegatorAddr validatorAddr amount).

(** [m[k] = v], or [delete(m, k)] when the amount is zero. *)
Definition put_or_delete (k : string) (amount : Z) (m : gmap string (list byte)) : gmap string (list byte) :=
  if amount =? 0 then delete k m else <[k := u256_or_nil amount]> m.

Definition Undelegate_body (now : Z) (delegatorAddr validatorAddr : string) (amount : Z) : St unit :=
  _ ← refuse_if (amount <=? 0) UndelegationNotPositive;
  l ← account_of DelegatorGetFailed delegatorAddr;
  delegator ← read_account l;
  match acc_DelegatedTo delegator !! validatorAddr with
  | None => throw (DelegationMissing validatorAddr)
  | Some delegated =>
      let delegatedAmount := ParseBigInt_bytes delegated in
      _ ← refuse_if (delegatedAmount <? amount) DelegationInsufficient;
      s ← get;
      match w_validators (sk_world s) !! validatorAddr with
      | None => throw (UnknownValidator validatorAddr)
      | Some validator =>
          let newStaked := ParseBigInt_bytes (acc_StakedAmount delegator) - amount in
          let newValDelegated := ParseBigInt_bytes (val_DelegatedStake validator) - amount in
          let newValStake := ParseBigInt_bytes (val_Stake validator) - amount in
          let newValDelegation := ParseBigInt_bytes (default [] (val_Delegators validator !! delegatorAddr)) - amount in
          let newTotalStaked := configured (sk_totalStaked s) 0 - amount in
          _ ← write_account l (set_StakedAmount (u256_or_nil newStaked));
          _ ← write_account l (fun a => set_DelegatedTo (put_or_delete validatorAddr (delegatedAmount - amount) (acc_DelegatedTo a)) a);
          _ ← modify (put_validator validatorAddr
                (set_UpdatedAt (Unix now) (set_Delegators (put_or_delete delegatorAddr newValDelegation (val_Delegators validator))
                  (set_Stake (u256_or_nil newValStake) (set_DelegatedStake (u256_or_nil newValDelegated) validator)))));
          _ ← modify (set_total (String10 newTotalStaked));
          _ ← update_account DelegatorUpdateFailed l;
          modify (fun s => set_unbonding (sk_unbonding s ++
            [MkUnbonding delegatorAddr validatorAddr (String10 amount) (Unix now) (Unix (now + UnbondingPeriod cfg))]) s)
      end
  end.
Definition sm_Undelegate (now : Z) (delegatorAddr validatorAddr : string) (amount : Z) : St unit :=
  holding delegatorAddr (Undelegate_body now delegatorAddr validatorAddr amount).

(** ** Unbonding *)

Definition completeUnbonding (entry : UnbondingEntry) : St unit :=
  holding (DelegatorAddr entry)
    (l ← account_of DelegatorGetFailed (DelegatorAddr entry);
     delegator ← read_account l;
     match SetString10 (ub_Amount entry) with
     | None => throw (InvalidUnbondingAmount (ub_Amount entry))
     | Some amount =>
         _ ← write_account l (set_Balance (u256_or_nil (ParseBigInt_bytes (acc_Balance delegator) + amount)));
         update_account DelegatorUpdateFailed l
     end).

(** The entries that stay; a payment that fails is tried again. *)
Fixpoint unbonding_loop (currentTime : Z) (queue remaining : list UnbondingEntry) : St (list UnbondingEntry) :=
  match queue with
  | [] => mret remaining
  | entry :: queue' =>
      if CompletionTime entry <=? currentTime then
        fun s => match completeUnbonding entry s with
                 | (Ok _, s') => unbonding_loop currentTime queue' remaining s'
                 | (Err _, s') => unbonding_loop currentTime queue' (remaining ++ [entry]) s'
                 | (Panic, s') => (Panic, s')
                 | (Hang, s') => (Hang, s')
                 end
      else unbonding_loop currentTime queue' (remaining ++ [entry])
  end.
Definition ProcessUnbondingQueue (now : Z) : St unit :=
  s ← get;
  remaining ← unbonding_loop (Unix now) (sk_unbonding s) [];
  modify (set_unbonding remaining).

Definition GetUnbondingEntries (delegatorAddr : string) (s : staking) : list UnbondingEntry :=
  filter (fun e => DelegatorAddr e = delegatorAddr) (sk_unbonding s).
Definition GetTotalUnbonding (delegatorAddr : string) (s : staking) : Z :=
  foldr (fun e total => default 0 (SetString10 (ub_Amount e)) + total) 0 (GetUnbondingEntries delegatorAddr s).
Definition SetUnbondingQueue (queue : list UnbondingEntry) (s : staking) : staking := set_unbonding queue s.

Definition UpdateTotalStaked (s : staking) : staking :=
  set_total (String10 (foldr (fun v total => ParseBigInt_bytes (val_Stake v) + total) 0 (values (w_validators (sk_world s))))) s.

(** ** Rewards *)

Definition sm_ClaimRewards (delegatorAddr : string) : St unit :=
  holding delegatorAddr
    (_ ← lift (wrap BadDelegatorAddress (Validate delegatorAddr));
     l ← account_of DelegatorGetFailed delegatorAddr;
     delegator ← read_account l;
     let rewards := ParseBigInt_bytes (acc_Rewards delegator) in
     _ ← refuse_if (rewards <=? 0) NothingToClaim;
     let balance := ParseBigInt_bytes (acc_Balance delegator) + rewards in
     _ ← write_account l (set_Balance (u256_or_nil balance));
     _ ← write_account l (set_Rewards []);
     update_account DelegatorUpdateFailed l).

(** [commAmt]: the reward times the commission rate, cut to an integer. *)
Definition commission_of (validator : Validator) (reward : Z) : outcome st_err Z :=
  rate ← NewFloat (Float64frombits (val_Commission validator));
  x ← big_Mul 0 (SetInt reward) rate;
  mret (default 0 (big_Int x)).
Definition delegator_share (delAmount totalDelegated reward : Z) : outcome st_err (option Z) :=
  ratio ← big_Quo 0 (SetInt delAmount) (SetInt totalDelegated);
  x ← big_Mul 0 ratio (SetInt reward);
  mret (big_Int x).

(** Successes and failures so far. *)
Notation tally := (Z * Z)%type.
Definition failed (t : tally) : tally := (fst t, snd t + 1).
Definition succeeded (t : tally) : tally := (fst t + 1, snd t).

(** [x, err := f(); if err != nil { failureCount++; continue }]. *)
Definition or_failed {A} (m : St A) (t : tally) (k : A -> St tally) : St tally := fun s =>
  match m s with
  | (Ok a, s') => k a s'
  | (Err _, s') => (Ok (failed t), s')
  | (Panic, s') => (Panic, s')
  | (Hang, s') => (Hang, s')
  end.

Definition pay_rewards (address : string) (amount : Z) (t : tally) : St tally :=
  or_failed (account_of DelegatorGetFailed address) t (fun l =>
    acc ← read_account l;
    _ ← write_account l (set_Rewards (u256_or_nil (ParseBigInt_bytes (acc_Rewards acc) + amount)));
    or_failed (update_account DelegatorUpdateFailed l) t (fun _ => mret (succeeded t))).

Fixpoint pay_delegators (delegators : list (string * list byte)) (totalDelegated reward : Z) (t : tally) : St tally :=
  match delegators with
  | [] => mret t
  | (address, amount) :: l =>
      share ← lift (delegator_share (ParseBigInt_bytes amount) totalDelegated reward);
      let share := default 0 share in
      t ← (if share <=? 0 then mret t else pay_rewards address share t);
      pay_delegators l totalDelegated reward t
  end.

Definition delegators_of (validator : Validator) : list (string * list byte) :=
  omap (fun a => (fun b => (a, b)) <$> val_Delegators validator !! a) (map_order (val_Delegators validator)).

(** The validator's own credit: the commission, and without delegators the rest
    too; written back to bytes in between. *)
Definition credit_validator (validator : Validator) (commission rest : Z) (acc : Account) : Account :=
  let acc := set_Rewards (u256_or_nil (ParseBigInt_bytes (acc_Rewards acc) + commission)) acc in
  if (size (val_Delegators validator) =? 0)%nat
  then set_Rewards (u256_or_nil (ParseBigInt_bytes (acc_Rewards acc) + rest)) acc else acc.

Definition reward_validator (totalRewards totalVotingPower : Z) (validator : Validator) (t : tally) : St tally :=
  let stake := ParseBigInt_bytes (val_Stake validator) in
  if stake =? 0 then mret t
  else
    let reward := big_div (totalRewards * stake) totalVotingPower in
    if reward =? 0 then mret t
    else
      commission ← lift (commission_of validator reward);
      let rest := reward - commission in
      or_failed (account_of DelegatorGetFailed (val_Address validator)) t (fun l =>
        _ ← write_account l (credit_validator validator commission rest);
        or_failed (update_account DelegatorUpdateFailed l) t (fun _ =>
          let t := succeeded t in
          let totalDelegated := ParseBigInt_bytes (val_DelegatedStake validator) in
          if (size (val_Delegators validator) =? 0)%nat || (totalDelegated <=? 0) then mret t
          else pay_delegators (delegators_of validator) totalDelegated rest t)).

Fixpoint reward_loop (totalRewards totalVotingPower : Z) (l : list Validator) (t : tally) : St tally :=
  match l with
  | [] => mret t
  | v :: l => t ← reward_validator totalRewards totalVotingPower v t; reward_loop totalRewards totalVotingPower l t
  end.

Definition failure_rate_high (t : tally) : bool :=
  (0 <? fst t + snd t) && f64_lt (f64_const 1 10) (f64_div (f64_of_int (snd t)) (f64_of_int (fst t + snd t))).

Definition DistributeRewards (totalRewards : string) : St unit :=
  let total := default 0 (SetString10 totalRewards) in
  _ ← refuse_if (total <=? 0) RewardsMustBePositive;
  s ← get;
  let active := GetActiveValidators (registry_of (sk_world s)) in
  _ ← refuse_if (length active =? 0)%nat NoActiveStakers;
  let power := foldr (fun v acc => ParseBigInt_bytes (val_Stake v) + acc) 0 active in
  _ ← refuse_if (power =? 0) NoVotingPower;
  t ← reward_loop total power active (0, 0);
  refuse_if (failure_rate_high t) TooManyFailures.

Definition sm_GetDelegations (delegatorAddr : string) : St (gmap string string) :=
  fun s => match on_sk_world (guarded (RLock delegatorAddr) (RUnlock delegatorAddr)
                   (on_am DelegatorGetFailed (GetAccount Keccak256 shardID totalShards delegatorAddr))) s with
           | (Ok l, s') => (read_account l ≫= (fun a => mret ((fun b => String10 (ParseBigInt_bytes b)) <$> acc_DelegatedTo a))) s'
           | (Err e, s') => (Err e, s')
           | (Panic, s') => (Panic, s')
           | (Hang, s') => (Hang, s')
           end.
End Staking.
