(* ===== verification/StakingSpec.v ===== *)
(** * The staking books balance

    The staking manager keeps the same delegation twice, in the delegator's account
    and in the validator's record, and takes undelegated funds out of both into the
    unbonding queue.  [books] says that the records agree; every call keeps it and
    no call makes or loses money. *)

From S2P Require Import Prelude SafeMath Uint256 Address Storage AccountManager ShardedLock Governance Domains.
From S2P Require Import EvmGas World AccountSpec Executor ExecutorSpec ExecutorThms Floats Staking.
From stdpp Require Import base tactics numbers list gmap strings sorting.
From Stdlib Require Import ZArith Lia Strings.Byte Strings.Ascii.
Open Scope Z_scope.
Open Scope list_scope.

Section Staking.
Context `{MapOrder} {C F : Type} `{LRU C, !LRULaws C}.
Context (Keccak256 : list byte -> list byte) (shardID totalShards : Z) (cfg : StakingConfig).

Notation state := (@staking C F).
Notation St := (GoM state st_err).
Notation inv := (good Keccak256 shardID totalShards ∅).
Notation ok := (ok_addr Keccak256 shardID totalShards).

Definition set_sk_am (a : am) (s : state) : state := MkStaking (set_am a (sk_world s)) (sk_totalStaked s) (sk_unbonding s).
Definition sk_am (s : state) : am := w_am (sk_world s).
Definition relock (l : list RWMutex) (s : state) : state :=
  MkStaking (set_locks l (sk_world s)) (sk_totalStaked s) (sk_unbonding s).

(** ** The account mutex around a body *)

(** [m] neither reads nor changes the account locks. *)
Definition lock_blind {A} (m : St A) : Prop := forall l s, m (relock l s) = (fst (m s), relock l (snd (m s))).

Lemma blind_ret {A} (a : A) : lock_blind (mret a).
Proof. done. Qed.
Lemma blind_throw {A} e : lock_blind (throw e : St A).
Proof. done. Qed.
Lemma blind_lift {A} (m : outcome st_err A) : lock_blind (lift m).
Proof. done. Qed.
Lemma blind_refuse c e : lock_blind (refuse_if c e).
Proof. by destruct c. Qed.
Lemma blind_modify (f : state -> state) : (forall l s, f (relock l s) = relock l (f s)) -> lock_blind (modify f).
Proof. intros Hf l s. unfold modify. by rewrite Hf. Qed.
Lemma blind_bind {A B} (m : St A) (k : A -> St B) : lock_blind m -> (forall a, lock_blind (k a)) -> lock_blind (m ≫= k).
Proof. intros Hm Hk l s. unfold mbind, GoM_bind. rewrite Hm. destruct (m s) as [[a|e| |] s']; [apply Hk|done..]. Qed.
Lemma blind_get {B} (k : state -> St B) : (forall l s, k (relock l s) = k s) -> (forall s, lock_blind (k s)) -> lock_blind (get ≫= k).
Proof. intros Hk Hb l s. unfold mbind, GoM_bind, get. rewrite Hk. apply Hb. Qed.
Lemma blind_accounts {A} (m : GoM am st_err A) : lock_blind (on_sk_world (on_accounts m)).
Proof. intros l s. unfold on_sk_world, on_accounts. simpl. by destruct (m (w_am (sk_world s))). Qed.

Lemma holding_run {A} key (body : St A) (s : state) :
  lock_blind body -> w_locks (sk_world s) = NewShardedMutex -> fst (body s) <> Hang -> holding key body s = body s.
Proof.
  intros Hb Hl Hh.
  destruct (acquire_release (C:=C) (F:=F) (E:=st_err) W [getShardIndex key] NewShardedMutex) as (locks' & Hacq & Hrel).
  { apply NoDup_singleton. }
  { intros i ->%list_elem_of_singleton. apply (keys_free [key]), uniqueSortedShardIndexes_elem. exists key. set_solver. }
  assert (Hself : relock (w_locks (sk_world s)) s = s) by (by destruct s as [[]]).
  assert (Hkeep : relock NewShardedMutex (snd (body s)) = snd (body s)).
  { pose proof (Hb (w_locks (sk_world s)) s) as E. rewrite Hself in E. rewrite Hl in E. by rewrite E at 2. }
  unfold holding, on_sk_world at 1. specialize (Hacq (sk_world s)). rewrite <-Hl, set_locks_id in Hacq.
  change (Acq W <$> [getShardIndex key]) with (Lock key) in Hacq. rewrite Hacq. change (MkStaking (set_locks locks' (sk_world s)) (sk_totalStaked s) (sk_unbonding s)) with (relock locks' s).
  rewrite Hb. destruct (body s) as [r s'] eqn:Eb. simpl in *. specialize (Hrel (sk_world s')).
  unfold on_sk_world. simpl. change (Rel W <$> rev [getShardIndex key]) with (Unlock key) in Hrel. rewrite Hrel.
  change (MkStaking (set_locks NewShardedMutex (sk_world s')) (sk_totalStaked s') (sk_unbonding s')) with (relock NewShardedMutex s').
  rewrite Hkeep. by destruct r.
Qed.

(** ** Accounts *)

Lemma on_am_run {A} (f : am_err -> st_err) (m : GoM am am_err A) (s : state) :
  on_sk_world (on_am f m) s = (wrap f (fst (m (sk_am s))), set_sk_am (snd (m (sk_am s))) s).
Proof. unfold on_sk_world, on_am, on_accounts, wrapM, set_sk_am, sk_am. by destruct (m (w_am (sk_world s))). Qed.

Notation wgood := (wgood Keccak256 shardID totalShards).

Lemma set_sk_am_twice a b s : set_sk_am a (set_sk_am b s) = set_sk_am a s.
Proof. done. Qed.

Lemma fetch_run {A} f addr s (k : loc -> St A) : wgood (sk_world s) -> ok addr = true ->
  exists l a m, (on_sk_world (on_am f (GetAccount Keccak256 shardID totalShards addr)) ≫= k) s = k l (set_sk_am m s) /\
  inv m /\ db m = db (sk_am s) /\ heap m !! l = Some a /\ acc_Address a = addr /\ canon_account a /\
  abs_acct a = entry (abs (sk_am s)) addr /\ valid_acct (abs_acct a).
Proof.
  intros [Hg Hq _] Hok. destruct (GetAccount_ok Keccak256 shardID totalShards addr _ Hg Hq Hok)
    as (l & a & m & Hget & Hm & Hdb & Hl & _ & Ha & Hc & Habs & Hv).
  exists l, a, m. split_and!; try done. unfold mbind, GoM_bind. rewrite on_am_run. unfold sk_am. by rewrite Hget.
Qed.

Lemma fetch_fails {A} f addr s (k : loc -> St A) : ok addr = false ->
  exists e, (on_sk_world (on_am f (GetAccount Keccak256 shardID totalShards addr)) ≫= k) s = (Err e, s).
Proof.
  intros Hok. destruct (GetAccount_err Keccak256 shardID totalShards addr (sk_am s) Hok) as [e He].
  exists (f e). unfold mbind, GoM_bind. rewrite on_am_run, He. simpl. by destruct s as [[]].
Qed.

Lemma read_run {A} f l a s (k : Account -> St A) : heap (sk_am s) !! l = Some a ->
  (on_sk_world (on_am f (load l)) ≫= k) s = k a s.
Proof. intros Hl. unfold mbind, GoM_bind. rewrite on_am_run, (load_run l a) by done. simpl. by destruct s as [[]]. Qed.

Lemma write_run {A} f l g a s (k : unit -> St A) : heap (sk_am s) !! l = Some a ->
  (on_sk_world (on_am f (assign l g)) ≫= k) s = k tt (set_sk_am (set_heap (<[l := g a]> (heap (sk_am s))) (sk_am s)) s).
Proof. intros Hl. unfold mbind, GoM_bind. by rewrite on_am_run, (assign_run l g a). Qed.

Lemma write_again {A} f l g b h m s (k : unit -> St A) :
  (on_sk_world (on_am f (assign l g)) ≫= k) (set_sk_am (set_heap (<[l := b]> h) m) s) =
  k tt (set_sk_am (set_heap (<[l := g b]> h) m) s).
Proof.
  rewrite (write_run f l g b) by apply lookup_insert_eq. simpl. by rewrite insert_insert_eq.
Qed.

(** The object [a'] written back to the database. *)
Lemma account_update_run {A} f l a a' m s (k : unit -> St A) :
  inv m -> quiet (db m) -> heap m !! l = Some a -> acc_Address a' = acc_Address a ->
  ok (acc_Address a) = true -> canon_account a' -> valid_acct (abs_acct a') ->
  exists m', (on_sk_world (on_am f (UpdateAccount Keccak256 shardID totalShards l)) ≫= k)
    (set_sk_am (set_heap (<[l := a']> (heap m)) m) s) = k tt (set_sk_am m' s) /\
  inv m' /\ quiet (db m') /\ heap m' !! l = Some a' /\ abs m' = <[acc_Address a := abs_acct a']> (abs m) /\
  dbView (db m') !! acc_Address a = Some a'.
Proof.
  intros Hg Hq Hl Ha Hok Hc Hv. pose proof (good_mutate _ _ _ ∅ m l a a' Hg Hl Ha) as Hg1.
  destruct (UpdateAccount_ok Keccak256 shardID totalShards _ l a' _ Hg1 Hq) as (m' & Hu & Hg' & Hq' & Hh & Hview);
    [apply lookup_insert_eq|done|done|by rewrite Ha|].
  exists m'. split_and!; [| |done| | |].
  - unfold mbind, GoM_bind. rewrite on_am_run. unfold sk_am. simpl. by rewrite Hu.
  - rewrite Ha in Hg'. by replace ((∅ ∪ {[acc_Address a]}) ∖ {[acc_Address a]}) with (∅ : gset string) in Hg' by set_solver.
  - rewrite Hh. apply lookup_insert_eq.
  - unfold abs. rewrite Hview, Ha. simpl. by rewrite fmap_insert.
  - rewrite Hview, Ha. apply lookup_insert_eq.
Qed.

(** ** The books *)

Definition amount_in (e : UnbondingEntry) : Z := default 0 (SetString10 (ub_Amount e)).
Definition in_unbonding (q : list UnbondingEntry) : Z := foldr (fun e t => amount_in e + t) 0 q.
Definition stake_in (v : Validator) : Z := ParseBigInt_bytes (val_Stake v).

(** What a validator's record says of its delegators. *)
Definition delegator_amounts (v : Validator) : gmap string Z := ParseBigInt_bytes <$> val_Delegators v.

Record books (s : state) : Prop := MkBooks {
  b_world : wgood (sk_world s);
  b_address : forall v val, w_validators (sk_world s) !! v = Some val -> IsValid v = true;
  (* the two records of a delegation *)
  b_mirror : forall v val d, w_validators (sk_world s) !! v = Some val ->
    delegator_amounts val !! d = deleg (entry (abs (sk_am s)) d) !! v;
  b_delegated : forall v val, w_validators (sk_world s) !! v = Some val ->
    ParseBigInt_bytes (val_DelegatedStake val) = map_sum id (delegator_amounts val) /\
    ParseBigInt_bytes (val_DelegatedStake val) <= stake_in val < two256;
  b_total : SetString10 (sk_totalStaked s) = Some (map_sum stake_in (w_validators (sk_world s)));
  b_queue : Forall (fun e => ok (DelegatorAddr e) = true /\ exists n, SetString10 (ub_Amount e) = Some n /\ 0 < n) (sk_unbonding s)
}.

(** All the money: what the accounts hold and what is on its way back to them. *)
Definition circulating (s : state) : Z := supply (abs (sk_am s)) + in_unbonding (sk_unbonding s).

(** The limits in the configuration are sane. *)
Definition config_ok : Prop :=
  0 < configured (MinDelegation cfg) 0 /\ configured (MaxValidatorStake cfg) default_max_stake < two256.

Lemma in_unbonding_app q k : in_unbonding (q ++ k) = in_unbonding q + in_unbonding k.
Proof. induction q as [|e q IH]; simpl; [done|]. unfold in_unbonding in *. simpl. lia. Qed.
Lemma in_unbonding_nonneg q : Forall (fun e => ok (DelegatorAddr e) = true /\ exists n, SetString10 (ub_Amount e) = Some n /\ 0 < n) q -> 0 <= in_unbonding q.
Proof.
  induction 1 as [|e q (_ & n & En & Hn) _ IH]; [done|]. unfold in_unbonding, amount_in in *. simpl. rewrite En. simpl. lia.
Qed.

Lemma u256_parse v : 0 <= v < two256 -> ParseBigInt_bytes (u256_or_nil v) = v.
Proof. intros Hv. destruct (u256_canon v Hv) as [Hc E]. by rewrite canon_parse. Qed.

(** *** The delegator's side *)

Definition delegated_to (v : string) (amount : Z) (a : Account) : Account :=
  set_DelegatedTo (<[v := u256_or_nil (delegation a v + amount)]> (acc_DelegatedTo a))
    (set_StakedAmount (u256_or_nil (SetBytes (acc_StakedAmount a) + amount))
      (set_Balance (u256_or_nil (SetBytes (acc_Balance a) - amount)) a)).

Lemma delegated_to_ok v amount a : canon_account a -> valid_acct (abs_acct a) -> IsValid v = true ->
  0 < amount <= SetBytes (acc_Balance a) -> funds (abs_acct a) < two256 ->
  canon_account (delegated_to v amount a) /\ valid_acct (abs_acct (delegated_to v amount a)) /\
  abs_acct (delegated_to v amount a) =
    let x := abs_acct a in
    MkAcct (bal x - amount) (staked x + amount) (rewards x) (<[v := default 0 (deleg x !! v) + amount]> (deleg x)) (nonce x).
Proof.
  intros Hc Hv Hvalid Ham Hf. destruct (delegation_abs a v Hc Hv) as [Hcur Hle]. unfold funds in Hf. simpl in Hf.
  destruct Hv as (? & ? & ? & Hfa & Hsum). destruct Hc as (? & ? & ? & Hd). simpl in *.
  destruct (u256_canon (SetBytes (acc_Balance a) - amount)) as [? E1]; [lia|].
  destruct (u256_canon (SetBytes (acc_StakedAmount a) + amount)) as [? E2]; [lia|].
  destruct (u256_canon (delegation a v + amount)) as [? E3]; [lia|].
  assert (Habs : abs_acct (delegated_to v amount a) = MkAcct (SetBytes (acc_Balance a) - amount) (SetBytes (acc_StakedAmount a) + amount)
    (SetBytes (acc_Rewards a)) (<[v := default 0 ((SetBytes <$> acc_DelegatedTo a) !! v) + amount]> (SetBytes <$> acc_DelegatedTo a)) (acc_Nonce a)).
  { unfold abs_acct. simpl. by rewrite fmap_insert, E1, E2, E3, Hcur. }
  split_and!; [split_and!; simpl; [done..|by apply map_Forall_insert_2]| |done]. rewrite Habs.
  split_and!; simpl; [lia..| |].
  - apply map_Forall_insert_2; [|done]. split; [done|lia].
  - destruct ((SetBytes <$> acc_DelegatedTo a) !! v) as [w|] eqn:Hva; simpl in *.
    + rewrite (map_sum_insert_Some id _ _ w) by done. unfold id in *. lia.
    + rewrite map_sum_insert_None by done. unfold id in *. lia.
Qed.

(** *** The validator's side *)

Definition gained (d : string) (amount now : Z) (val : Validator) : Validator :=
  set_UpdatedAt (Unix now) (set_Stake (u256_or_nil (stake_in val + amount))
    (set_DelegatedStake (u256_or_nil (ParseBigInt_bytes (val_DelegatedStake val) + amount))
      (set_Delegators (<[d := u256_or_nil (ParseBigInt_bytes (default [] (val_Delegators val !! d)) + amount)]> (val_Delegators val)) val))).

Lemma amounts_le val d : 0 <= default 0 (delegator_amounts val !! d) <= map_sum id (delegator_amounts val).
Proof.
  assert (Hn : forall k v, delegator_amounts val !! k = Some v -> 0 <= id v).
  { intros k v (b & <- & _)%lookup_fmap_Some. apply ParseBigInt_bytes_nonneg. }
  destruct (delegator_amounts val !! d) as [x|] eqn:E; simpl; [|split; [done|by apply map_sum_nonneg]].
  split; [by apply (Hn d)|]. by apply (map_sum_lookup_le id _ d).
Qed.

Lemma gained_ok d amount now val : 0 < amount ->
  ParseBigInt_bytes (val_DelegatedStake val) = map_sum id (delegator_amounts val) ->
  ParseBigInt_bytes (val_DelegatedStake val) <= stake_in val -> stake_in val + amount < two256 ->
  delegator_amounts (gained d amount now val) = <[d := default 0 (delegator_amounts val !! d) + amount]> (delegator_amounts val) /\
  ParseBigInt_bytes (val_DelegatedStake (gained d amount now val)) = map_sum id (delegator_amounts (gained d amount now val)) /\
  ParseBigInt_bytes (val_DelegatedStake (gained d amount now val)) <= stake_in (gained d amount now val) < two256 /\
  stake_in (gained d amount now val) = stake_in val + amount.
Proof.
  intros Ha Hd Hle Hb. pose proof (amounts_le val d) as Hdel.
  assert (Hcur : ParseBigInt_bytes (default [] (val_Delegators val !! d)) = default 0 (delegator_amounts val !! d)).
  { unfold delegator_amounts. rewrite lookup_fmap. by destruct (val_Delegators val !! d). }
  assert (Hmap : delegator_amounts (gained d amount now val) = <[d := default 0 (delegator_amounts val !! d) + amount]> (delegator_amounts val)).
  { unfold delegator_amounts at 1. destruct val. simpl in *. rewrite fmap_insert, Hcur, u256_parse by lia. done. }
  assert (Hsum : map_sum id (delegator_amounts (gained d amount now val)) = map_sum id (delegator_amounts val) + amount).
  { rewrite Hmap. destruct (delegator_amounts val !! d) as [x|] eqn:E; simpl.
    - rewrite (map_sum_insert_Some id _ _ x) by done. unfold id. lia.
    - rewrite map_sum_insert_None by done. unfold id. lia. }
  assert (Hst : stake_in (gained d amount now val) = stake_in val + amount).
  { unfold stake_in at 1. destruct val. simpl in *. apply u256_parse. unfold stake_in in *. simpl in *.
    pose proof (ParseBigInt_bytes_nonneg val_Stake). lia. }
  assert (Hdg : ParseBigInt_bytes (val_DelegatedStake (gained d amount now val)) = ParseBigInt_bytes (val_DelegatedStake val) + amount).
  { destruct val. simpl in *. apply u256_parse. pose proof (ParseBigInt_bytes_nonneg val_DelegatedStake). lia. }
  split_and!; [done|lia|lia|lia|done].
Qed.

(** *** Both sides at once *)


Lemma books_update s s' d v x val val' :
  books s -> w_validators (sk_world s) !! v = Some val -> wgood (sk_world s') ->
  abs (sk_am s') = <[d := x]> (abs (sk_am s)) -> w_validators (sk_world s') = <[v := val']> (w_validators (sk_world s)) ->
  (forall u, u <> v -> deleg x !! u = deleg (entry (abs (sk_am s)) d) !! u) ->
  delegator_amounts val' !! d = deleg x !! v ->
  (forall e, e <> d -> delegator_amounts val' !! e = delegator_amounts val !! e) ->
  ParseBigInt_bytes (val_DelegatedStake val') = map_sum id (delegator_amounts val') ->
  ParseBigInt_bytes (val_DelegatedStake val') <= stake_in val' < two256 ->
  SetString10 (sk_totalStaked s') = Some (map_sum stake_in (w_validators (sk_world s)) - stake_in val + stake_in val') ->
  Forall (fun e => ok (DelegatorAddr e) = true /\ exists n, SetString10 (ub_Amount e) = Some n /\ 0 < n) (sk_unbonding s') ->
  books s'.
Proof.
  intros Hb Hv Hw Habs Hvals Hx Hd He Hdel Hst Htot Hq. split; [done| | | | |done]; rewrite Hvals.
  - intros u valu [[<- _]|[_ Hu]]%lookup_insert_Some; [by eapply (b_address _ Hb)|by eapply (b_address _ Hb)].
  - intros u valu e Hu. rewrite Habs. apply lookup_insert_Some in Hu as [[<- <-]|[Hne Hu]].
    + destruct (decide (e = d)) as [->|Hed]; [by rewrite entry_insert_eq|].
      rewrite entry_insert_ne, He by done. by apply (b_mirror _ Hb).
    + rewrite (b_mirror _ Hb u valu e Hu). destruct (decide (e = d)) as [->|Hed]; [by rewrite entry_insert_eq, Hx|].
      by rewrite entry_insert_ne by done.
  - intros u valu [[<- <-]|[_ Hu]]%lookup_insert_Some; [by split|by eapply (b_delegated _ Hb)].
  - rewrite Htot. by rewrite (map_sum_insert_Some stake_in _ _ val).
Qed.

Lemma supply_update (L : ledger) k x : supply (<[k := x]> L) = supply L - funds (entry L k) + funds x.
Proof.
  unfold supply, entry. destruct (L !! k) as [y|] eqn:E; simpl.
  - by rewrite (map_sum_insert_Some funds _ _ y).
  - rewrite map_sum_insert_None by done. change (funds empty_acct) with 0. lia.
Qed.

Lemma concentrated_total total newStake amount : 0 < amount -> exists b, concentrated cfg total newStake amount = Ok b.
Proof.
  intros Ha. unfold concentrated. destruct (SetString10 total) as [t|]; [|by eexists]. destruct (Z.ltb_spec 0 t); [|by eexists].
  unfold stake_percentage, big_Quo, mbind, outcome_bind. simpl. rewrite (proj2 (Z.eqb_neq (t + amount) 0)) by lia. by eexists.
Qed.

(** A call that ends in an error without touching the books. *)
Definition refused {A} (r : outcome st_err A) (s s' : state) : Prop :=
  is_err r = true /\ abs (sk_am s') = abs (sk_am s) /\ w_validators (sk_world s') = w_validators (sk_world s) /\
  sk_totalStaked s' = sk_totalStaked s /\ sk_unbonding s' = sk_unbonding s.

Lemma books_same s m : books s -> inv m -> db m = db (sk_am s) -> books (set_sk_am m s).
Proof.
  intros [Hw H1 H2 H3 H4 H5] Hm Hdb.
  assert (Ha : abs m = abs (sk_am s)) by (unfold abs; by rewrite Hdb).
  split; simpl; [|done| |done..].
  - destruct Hw as [_ Hq Hl]. split; simpl; [done|by rewrite Hdb|done].
  - intros v val d Hv. unfold sk_am, set_sk_am. simpl. rewrite Ha. by apply H2.
Qed.

Lemma bind_get {A} (k : state -> St A) s : (get ≫= k) s = k s s.
Proof. done. Qed.
Lemma bind_modify {A} f (k : unit -> St A) s : (modify f ≫= k) s = k tt (f s).
Proof. done. Qed.
Lemma bind_refuse_if {A} c e (k : unit -> St A) s : (refuse_if c e ≫= k) s = if c then (Err e, s) else k tt s.
Proof. by destruct c. Qed.

(** When a call succeeds. *)
Definition can_delegate (s : state) (d v : string) (amount : Z) : Prop :=
  ok d = true /\ configured (MinDelegation cfg) 0 <= amount <= bal (entry (abs (sk_am s)) d) /\
  exists val, w_validators (sk_world s) !! v = Some val /\ val_Active val = true /\
  Z.of_nat (size (val_Delegators val)) < MaxDelegationsPerValidator cfg /\
  stake_in val + amount <= configured (MaxValidatorStake cfg) default_max_stake /\
  concentrated cfg (sk_totalStaked s) (stake_in val + amount) amount = Ok false.
Definition can_undelegate (s : state) (d v : string) (amount : Z) : Prop :=
  ok d = true /\ is_Some (w_validators (sk_world s) !! v) /\
  exists c, deleg (entry (abs (sk_am s)) d) !! v = Some c /\ 0 < amount <= c.

Ltac refuse_here := eexists _, _; split; [reflexivity|]; split; [first [assumption|by apply books_same]|left; split; [by split_and!|]].
Ltac test c := rewrite bind_refuse_if; destruct c eqn:?; [refuse_here; zbool|].

Lemma save_run f l a m s : inv m -> quiet (db m) -> heap m !! l = Some a -> canon_account a -> dbView (db m) !! acc_Address a = Some a ->
  exists m', (forall A (k : unit -> St A), (on_sk_world (on_am f (db_SaveAccount l)) ≫= k) (set_sk_am m s) = k tt (set_sk_am m' s)) /\
  inv m' /\ quiet (db m') /\ abs m' = abs m.
Proof.
  intros Hg Hq Hl Hc Hv. destruct (save_again Keccak256 shardID totalShards ∅ m l a Hg Hq Hl Hc Hv) as (m' & Hs & Hg' & Hq' & _ & Hview).
  exists m'. split_and!; [|done..|].
  - intros A k. unfold mbind, GoM_bind. rewrite on_am_run. unfold sk_am. simpl. by rewrite Hs.
  - unfold abs. by rewrite Hview.
Qed.

Lemma delegate_step now d v amount s : config_ok -> books s -> circulating s < two256 ->
  exists r s', Delegate_body Keccak256 shardID totalShards cfg now d v amount s = (r, s') /\ books s' /\
  (refused r s s' /\ ~ can_delegate s d v amount \/
   r = Ok tt /\ can_delegate s d v amount /\ exists val, w_validators (sk_world s) !! v = Some val /\ val_Active val = true /\
   let x := entry (abs (sk_am s)) d in
   0 < amount <= bal x /\
   abs (sk_am s') = <[d := MkAcct (bal x - amount) (staked x + amount) (rewards x)
                              (<[v := default 0 (deleg x !! v) + amount]> (deleg x)) (nonce x)]> (abs (sk_am s)) /\
   w_validators (sk_world s') = <[v := gained d amount now val]> (w_validators (sk_world s)) /\
   stake_in val + amount <= configured (MaxValidatorStake cfg) default_max_stake /\
   sk_unbonding s' = sk_unbonding s).
Proof.
  intros [Hmin Hcap] Hb Hcirc. unfold Delegate_body. test (amount <? configured (MinDelegation cfg) 0); [intros (_ & ? & _); lia|].
  destruct (ok d) eqn:Hok.
  2:{ match goal with |- context [(on_sk_world _ ≫= ?k) s] => destruct (fetch_fails DelegatorGetFailed d s k Hok) as [e ->] end. refuse_here. intros (? & _). congruence. }
  match goal with |- context [(on_sk_world _ ≫= ?k) s] =>
    destruct (fetch_run DelegatorGetFailed d s k (b_world _ Hb) Hok) as (l & a & m & -> & Hm & Hdb & Hl & Ha & Hc & Habs & Hv) end.
  rewrite (read_run _ l a) by exact Hl. rewrite bind_get.
  assert (Hsame : abs m = abs (sk_am s)) by (unfold abs; by rewrite Hdb).
  change (w_validators (sk_world (set_sk_am m s))) with (w_validators (sk_world s)).
  destruct (w_validators (sk_world s) !! v) as [val|] eqn:Ev; [|refuse_here; intros (_ & _ & ? & ? & _); congruence].
  assert (Hbal : bal (entry (abs (sk_am s)) d) = SetBytes (acc_Balance a)) by (by rewrite <-Habs).
  test (negb (val_Active val)); [intros (_ & _ & val' & ? & Ha' & _); simplify_eq; by rewrite Ha' in *|]. pose proof Hc as (Hcb & Hcs & _).
  rewrite (canon_parse (acc_Balance a)) by done. test (SetBytes (acc_Balance a) <? amount); [intros (_ & ? & _); lia|].
  test (MaxDelegationsPerValidator cfg <=? Z.of_nat (size (val_Delegators val))); [intros (_ & _ & val' & ? & _ & ? & _); simplify_eq; lia|].
  fold (stake_in val). test (configured (MaxValidatorStake cfg) default_max_stake <? stake_in val + amount); [intros (_ & _ & val' & ? & _ & _ & ? & _); simplify_eq; lia|].
  change (sk_totalStaked (set_sk_am m s)) with (sk_totalStaked s).
  assert (Hamt : 0 < amount) by lia.
  destruct (concentrated_total (sk_totalStaked s) (stake_in val + amount) amount Hamt) as [b Hconc].
  rewrite Hconc. change ((lift (Ok b) ≫= ?k) ?x) with (k b x). cbn beta. test b; [intros (_ & _ & val' & ? & _ & _ & _ & ?); simplify_eq; congruence|].
  rewrite (canon_parse (acc_StakedAmount a)) by done.
  rewrite (write_run _ l _ a) by exact Hl. change (sk_am (set_sk_am m s)) with m. rewrite set_sk_am_twice, !write_again. zbool.
  assert (Hf : funds (abs_acct a) < two256).
  { rewrite Habs. destruct (funds_le_supply Keccak256 shardID totalShards (sk_am s) d (wg_inv _ _ _ _ (b_world _ Hb))) as [Hf _].
    pose proof (in_unbonding_nonneg _ (b_queue _ Hb)). unfold circulating in Hcirc. lia. }
  destruct (delegated_to_ok v amount a Hc Hv (b_address _ Hb v val Ev)) as (Hc' & Hv' & Hx); [lia|done|].
  match goal with |- context [set_heap (<[l := ?X]> _)] => change X with (delegated_to v amount a) end.
  match goal with |- context [(on_sk_world _ ≫= ?k) (set_sk_am (set_heap _ ?m0) ?s0)] =>
    destruct (account_update_run DelegatorUpdateFailed l a (delegated_to v amount a) m0 s0 k) as (m1 & -> & Hm1 & Hq1 & Hl1 & Habs1 & Hd1) end;
    [done|rewrite Hdb; apply (wg_quiet _ _ _ _ (b_world _ Hb))|done|done|by rewrite Ha|done|done|].
  destruct (save_run DelegatorSaveFailed l (delegated_to v amount a) m1 s Hm1 Hq1 Hl1 Hc') as (m2 & Hsave & Hm2 & Hq2 & Habs2); [done|].
  rewrite Hsave, bind_modify. rewrite Ha in Habs1.
  destruct (b_delegated _ Hb v val Ev) as [Hdel Hst].
  destruct (gained_ok d amount now val) as (G1 & G2 & G3 & G4); [lia|done|lia|lia|].
  eexists _, _. split; [reflexivity|]. split; [|right; split; [done|]].
  - eapply (books_update s _ d v _ val (gained d amount now val) Hb Ev).
    + split; simpl; [done|done|apply (wg_locks _ _ _ _ (b_world _ Hb))].
    + unfold sk_am. simpl. by rewrite Habs2, Habs1, Hsame, Hx.
    + done.
    + intros u Hu. simpl. rewrite lookup_insert_ne by done. by rewrite <-Habs.
    + rewrite G1, (b_mirror _ Hb v val d Ev), <-Habs. simpl. by rewrite !lookup_insert_eq.
    + intros e He. rewrite G1. by rewrite lookup_insert_ne.
    + done.
    + done.
    + rewrite G4. simpl. unfold configured. rewrite (b_total _ Hb), SetString10_String10. simpl. f_equal. lia.
    + apply (b_queue _ Hb).
  - assert (Hact : val_Active val = true) by (by destruct (val_Active val)).
    split; [split; [done|]; split; [lia|]; exists val; split_and!; [done..|lia|lia|done]|].
    exists val. rewrite <-Habs. simpl. split_and!; [done|done|lia|lia| |done|lia|done].
    unfold sk_am. simpl. by rewrite Habs2, Habs1, Hsame, Hx.
Qed.

(** *** Undelegating *)

Definition undelegated (v : string) (cur amount : Z) (a : Account) : Account :=
  set_DelegatedTo (put_or_delete v (cur - amount) (acc_DelegatedTo a))
    (set_StakedAmount (u256_or_nil (SetBytes (acc_StakedAmount a) - amount)) a).
(** What is left of an entry. *)
Definition reduced (k : string) (left_over : Z) (m : gmap string Z) : gmap string Z :=
  if left_over =? 0 then delete k m else <[k := left_over]> m.

Lemma reduced_ne k j n m : j <> k -> reduced k n m !! j = m !! j.
Proof. intros Hj. unfold reduced. case_match; by rewrite ?lookup_delete_ne, ?lookup_insert_ne. Qed.
Lemma reduced_eq k n m : reduced k n m !! k = if n =? 0 then None else Some n.
Proof. unfold reduced. case_match; by rewrite ?lookup_delete_eq, ?lookup_insert_eq. Qed.
Lemma reduced_sum k n m c : m !! k = Some c -> map_sum id (reduced k n m) = map_sum id m - c + n.
Proof.
  intros Hk. unfold reduced. destruct (Z.eqb_spec n 0) as [->|].
  - rewrite (map_sum_delete id m k c) by done. unfold id at 2. lia.
  - by rewrite (map_sum_insert_Some id _ _ c).
Qed.

Lemma undelegated_ok v cur amount a : canon_account a -> valid_acct (abs_acct a) -> acc_DelegatedTo a !! v = Some cur ->
  0 < amount <= SetBytes cur ->
  canon_account (undelegated v (SetBytes cur) amount a) /\ valid_acct (abs_acct (undelegated v (SetBytes cur) amount a)) /\
  abs_acct (undelegated v (SetBytes cur) amount a) =
    let x := abs_acct a in MkAcct (bal x) (staked x - amount) (rewards x) (reduced v (SetBytes cur - amount) (deleg x)) (nonce x).
Proof.
  intros Hc Hv Hcur Ham. destruct (reduce_delegation a v cur amount Hc Hv Hcur Ham) as (Hcan & Hmap & Hval).
  assert (Hx : (SetBytes <$> acc_DelegatedTo a) !! v = Some (SetBytes cur)) by (by rewrite lookup_fmap, Hcur).
  pose proof (delegation_le_staked (abs_acct a) v (SetBytes cur) Hv Hx) as Hle. simpl in Hle.
  destruct Hc as (? & Hcs & ? & ?). pose proof (canon_range _ Hcs).
  destruct (u256_canon (SetBytes (acc_StakedAmount a) - amount)) as [? E]; [lia|].
  assert (Habs : abs_acct (undelegated v (SetBytes cur) amount a) =
    MkAcct (SetBytes (acc_Balance a)) (SetBytes (acc_StakedAmount a) - amount) (SetBytes (acc_Rewards a))
      (reduced v (SetBytes cur - amount) (SetBytes <$> acc_DelegatedTo a)) (acc_Nonce a)).
  { unfold abs_acct, undelegated, put_or_delete, reduced. simpl. by rewrite E, Hmap. }
  split_and!; [split_and!; simpl; done| |done]. rewrite Habs.
  destruct Hv as (? & _), Hval as (_ & ? & ? & ? & ?). by split_and!.
Qed.

Definition lost (d : string) (amount now : Z) (val : Validator) : Validator :=
  set_UpdatedAt (Unix now)
    (set_Delegators (put_or_delete d (ParseBigInt_bytes (default [] (val_Delegators val !! d)) - amount) (val_Delegators val))
      (set_Stake (u256_or_nil (stake_in val - amount))
        (set_DelegatedStake (u256_or_nil (ParseBigInt_bytes (val_DelegatedStake val) - amount)) val))).

Lemma lost_ok d amount now val c : 0 < amount <= c -> delegator_amounts val !! d = Some c ->
  ParseBigInt_bytes (val_DelegatedStake val) = map_sum id (delegator_amounts val) ->
  ParseBigInt_bytes (val_DelegatedStake val) <= stake_in val < two256 ->
  delegator_amounts (lost d amount now val) = reduced d (c - amount) (delegator_amounts val) /\
  ParseBigInt_bytes (val_DelegatedStake (lost d amount now val)) = map_sum id (delegator_amounts (lost d amount now val)) /\
  ParseBigInt_bytes (val_DelegatedStake (lost d amount now val)) <= stake_in (lost d amount now val) < two256 /\
  stake_in (lost d amount now val) = stake_in val - amount.
Proof.
  intros Ha Hd Hdel Hst. pose proof (amounts_le val d) as Hle. rewrite Hd in Hle. simpl in Hle.
  assert (Hcur : ParseBigInt_bytes (default [] (val_Delegators val !! d)) = c).
  { unfold delegator_amounts in Hd. rewrite lookup_fmap in Hd. by destruct (val_Delegators val !! d); simplify_eq/=. }
  assert (Hmap : delegator_amounts (lost d amount now val) = reduced d (c - amount) (delegator_amounts val)).
  { unfold delegator_amounts, reduced, lost, put_or_delete. destruct val. simpl in *. rewrite Hcur.
    destruct (Z.eqb_spec (c - amount) 0); [by rewrite fmap_delete|]. rewrite fmap_insert, u256_parse by lia. done. }
  assert (Hs : stake_in (lost d amount now val) = stake_in val - amount).
  { unfold stake_in at 1. destruct val. simpl in *. apply u256_parse. unfold stake_in in *. simpl in *. lia. }
  assert (Hg : ParseBigInt_bytes (val_DelegatedStake (lost d amount now val)) = ParseBigInt_bytes (val_DelegatedStake val) - amount).
  { destruct val. simpl in *. apply u256_parse. lia. }
  rewrite Hmap, (reduced_sum _ _ _ c Hd). split_and!; [done|lia..|done].
Qed.

Lemma undelegate_step now d v amount s : config_ok -> books s -> circulating s < two256 ->
  exists r s', Undelegate_body Keccak256 shardID totalShards cfg now d v amount s = (r, s') /\ books s' /\
  (refused r s s' /\ ~ can_undelegate s d v amount \/
   r = Ok tt /\ exists val c, w_validators (sk_world s) !! v = Some val /\
   let x := entry (abs (sk_am s)) d in
   deleg x !! v = Some c /\ 0 < amount <= c /\
   abs (sk_am s') = <[d := MkAcct (bal x) (staked x - amount) (rewards x) (reduced v (c - amount) (deleg x)) (nonce x)]> (abs (sk_am s)) /\
   w_validators (sk_world s') = <[v := lost d amount now val]> (w_validators (sk_world s)) /\
   sk_unbonding s' = sk_unbonding s ++ [MkUnbonding d v (String10 amount) (Unix now) (Unix (now + UnbondingPeriod cfg))]).
Proof.
  intros _ Hb Hcirc. unfold Undelegate_body. test (amount <=? 0); [intros (_ & _ & ? & _ & ?); lia|].
  destruct (ok d) eqn:Hok.
  2:{ match goal with |- context [(on_sk_world _ ≫= ?k) s] => destruct (fetch_fails DelegatorGetFailed d s k Hok) as [e ->] end. refuse_here. intros (? & _). congruence. }
  match goal with |- context [(on_sk_world _ ≫= ?k) s] =>
    destruct (fetch_run DelegatorGetFailed d s k (b_world _ Hb) Hok) as (l & a & m & -> & Hm & Hdb & Hl & Ha & Hc & Habs & Hv) end.
  rewrite (read_run _ l a) by exact Hl.
  assert (Hsame : abs m = abs (sk_am s)) by (unfold abs; by rewrite Hdb).
  assert (Hdl : deleg (entry (abs (sk_am s)) d) !! v = SetBytes <$> acc_DelegatedTo a !! v) by (rewrite <-Habs; simpl; by rewrite lookup_fmap).
  destruct (acc_DelegatedTo a !! v) as [cur|] eqn:Ecur; [|refuse_here; intros (_ & _ & ? & ? & _); simplify_eq/=; congruence].
  pose proof Hc as (Hcb & Hcs & _ & Hcd). rewrite (canon_parse cur) by (by apply (Hcd v)).
  test (SetBytes cur <? amount); [intros (_ & _ & ? & Hc0 & ?); rewrite Hdl in Hc0; simplify_eq/=; lia|]. rewrite bind_get.
  change (w_validators (sk_world (set_sk_am m s))) with (w_validators (sk_world s)).
  destruct (w_validators (sk_world s) !! v) as [val|] eqn:Ev; [|refuse_here; intros (_ & [? ?] & _); congruence].
  change (sk_totalStaked (set_sk_am m s)) with (sk_totalStaked s). rewrite (canon_parse (acc_StakedAmount a)) by done.
  rewrite (write_run _ l _ a) by exact Hl. change (sk_am (set_sk_am m s)) with m.
  rewrite set_sk_am_twice, write_again, !bind_modify. zbool. fold (stake_in val). fold (lost d amount now val).
  assert (Hdv : deleg (entry (abs (sk_am s)) d) !! v = Some (SetBytes cur)) by (rewrite <-Habs; simpl; by rewrite lookup_fmap, Ecur).
  destruct (undelegated_ok v cur amount a Hc Hv Ecur) as (Hc' & Hv' & Hx); [lia|].
  match goal with |- context [set_heap (<[l := ?X]> _)] => change X with (undelegated v (SetBytes cur) amount a) end.
  set (sV := set_total (String10 (configured (sk_totalStaked s) 0 - amount)) (put_validator v (lost d amount now val) s)).
  match goal with |- context [(on_sk_world _ ≫= ?k) ?s0] => change s0 with
    (set_sk_am (set_heap (<[l := undelegated v (SetBytes cur) amount a]> (heap m)) m) sV);
    destruct (account_update_run DelegatorUpdateFailed l a (undelegated v (SetBytes cur) amount a) m sV k) as (m1 & -> & Hm1 & Hq1 & Hl1 & Habs1 & Hd1) end;
    [done|rewrite Hdb; apply (wg_quiet _ _ _ _ (b_world _ Hb))|done|done|by rewrite Ha|done|done|].
  rewrite Ha in Habs1. destruct (b_delegated _ Hb v val Ev) as [Hdel Hst].
  destruct (lost_ok d amount now val (SetBytes cur)) as (G1 & G2 & G3 & G4); [lia|by rewrite (b_mirror _ Hb v val d Ev)|done|done|].
  eexists _, _. split; [reflexivity|]. split; [|right; split; [done|]].
  - eapply (books_update s _ d v _ val (lost d amount now val) Hb Ev).
    + split; simpl; [done|done|apply (wg_locks _ _ _ _ (b_world _ Hb))].
    + unfold sk_am. simpl. by rewrite Habs1, Hsame, Hx.
    + done.
    + intros u Hu. simpl. rewrite reduced_ne by done. by rewrite <-Habs.
    + rewrite G1. simpl. by rewrite !reduced_eq.
    + intros e He. rewrite G1. by apply reduced_ne.
    + done.
    + done.
    + rewrite G4. simpl. unfold configured. rewrite (b_total _ Hb), SetString10_String10. simpl. f_equal. lia.
    + simpl. apply Forall_app. split; [apply (b_queue _ Hb)|]. apply Forall_singleton. simpl. split; [done|].
      exists amount. split; [apply SetString10_String10|lia].
  - exists val, (SetBytes cur). rewrite <-Habs. simpl. split_and!; [done| |lia|lia| |done|done].
    + by rewrite lookup_fmap, Ecur.
    + unfold sk_am. simpl. by rewrite Habs1, Hsame, Hx.
Qed.

(** *** Accounts alone *)

Lemma books_account s s' d x :
  books s -> wgood (sk_world s') -> abs (sk_am s') = <[d := x]> (abs (sk_am s)) -> deleg x = deleg (entry (abs (sk_am s)) d) ->
  w_validators (sk_world s') = w_validators (sk_world s) -> sk_totalStaked s' = sk_totalStaked s -> sk_unbonding s' = sk_unbonding s ->
  books s'.
Proof.
  intros Hb Hw Ha Hx Hv Ht Hq. split; [done|..]; rewrite ?Hv, ?Ht, ?Hq; [apply Hb| |apply Hb..].
  intros v val e Hval. rewrite (b_mirror _ Hb v val e Hval), Ha. destruct (decide (e = d)) as [->|].
  - by rewrite entry_insert_eq, Hx.
  - by rewrite entry_insert_ne.
Qed.

Lemma bind_ret_r {A} (m : St A) s : (m ≫= mret) s = m s.
Proof. unfold mbind, GoM_bind. by destruct (m s) as [[]]. Qed.

Ltac blind := repeat first [ match goal with |- lock_blind (get ≫= _) => apply blind_get; [done|intros ?; cbn beta] end
  | apply blind_bind; [|intros ?] | apply blind_accounts | apply blind_ret | apply blind_throw
  | apply blind_lift | apply blind_refuse | apply blind_modify; [done] | case_match ].

Lemma delegate_blind now d v amount : lock_blind (Delegate_body Keccak256 shardID totalShards cfg now d v amount).
Proof.
  unfold Delegate_body, on_am. blind.
Qed.
Lemma undelegate_blind now d v amount : lock_blind (Undelegate_body Keccak256 shardID totalShards cfg now d v amount).
Proof.
  unfold Undelegate_body, on_am. blind.
Qed.

(** A body that writes one account, under its mutex. *)
Lemma holding_account {A} d (body : St A) (s s' : state) r :
  books s -> lock_blind body -> body s = (r, s') -> r <> Hang -> holding d body s = (r, s').
Proof.
  intros Hb Hbl E Hr. rewrite holding_run; [done|done|apply (b_world _ Hb)|by rewrite E].
Qed.

Definition paid_in (n : Z) (x : acct) : acct := MkAcct (bal x + n) (staked x) (rewards x) (deleg x) (nonce x).

Lemma complete_run e s n : books s -> ok (DelegatorAddr e) = true -> SetString10 (ub_Amount e) = Some n -> 0 < n ->
  supply (abs (sk_am s)) + n < two256 ->
  exists s', completeUnbonding Keccak256 shardID totalShards e s = (Ok tt, s') /\ books s' /\
  abs (sk_am s') = <[DelegatorAddr e := paid_in n (entry (abs (sk_am s)) (DelegatorAddr e))]> (abs (sk_am s)) /\
  w_validators (sk_world s') = w_validators (sk_world s) /\ sk_totalStaked s' = sk_totalStaked s /\ sk_unbonding s' = sk_unbonding s.
Proof.
  intros Hb Hok En Hn Hs. set (d := DelegatorAddr e) in *. pose proof (b_world _ Hb) as Hw.
  destruct (funds_le_supply Keccak256 shardID totalShards (sk_am s) d (wg_inv _ _ _ _ Hw)) as [Hf _]. unfold funds in Hf.
  assert (Hbody : exists s', (on_sk_world (on_am DelegatorGetFailed (GetAccount Keccak256 shardID totalShards d)) ≫= (fun l =>
     on_sk_world (on_am DelegatorGetFailed (load l)) ≫= (fun delegator =>
     match SetString10 (ub_Amount e) with
     | None => throw (InvalidUnbondingAmount (ub_Amount e))
     | Some amount => on_sk_world (on_am DelegatorGetFailed (assign l (set_Balance (u256_or_nil (ParseBigInt_bytes (acc_Balance delegator) + amount))))) ≫=
         (fun _ => on_sk_world (on_am DelegatorUpdateFailed (UpdateAccount Keccak256 shardID totalShards l)))
     end))) s = (Ok tt, s') /\ books s' /\
     abs (sk_am s') = <[d := paid_in n (entry (abs (sk_am s)) d)]> (abs (sk_am s)) /\
     w_validators (sk_world s') = w_validators (sk_world s) /\ sk_totalStaked s' = sk_totalStaked s /\ sk_unbonding s' = sk_unbonding s).
  { match goal with |- context [(on_sk_world _ ≫= ?k) s] =>
      destruct (fetch_run DelegatorGetFailed d s k Hw Hok) as (l & a & m & -> & Hm & Hdb & Hl & Ha & Hc & Habs & Hv) end.
    rewrite (read_run _ l a) by exact Hl. rewrite En. pose proof Hc as (Hcb & Hcs & Hcr & Hcd).
    rewrite (canon_parse (acc_Balance a)) by done. rewrite (write_run _ l _ a) by exact Hl.
    change (sk_am (set_sk_am m s)) with m. rewrite set_sk_am_twice.
    assert (Hbal : bal (entry (abs (sk_am s)) d) = SetBytes (acc_Balance a)) by (by rewrite <-Habs).
    pose proof Hv as (? & ? & ? & ? & ?). rewrite <-Habs in Hf. simpl in *.
    destruct (u256_canon (SetBytes (acc_Balance a) + n)) as [? E1]; [lia|].
    set (a' := set_Balance (u256_or_nil (SetBytes (acc_Balance a) + n)) a).
    assert (Habs' : abs_acct a' = paid_in n (abs_acct a)) by (unfold abs_acct, paid_in; simpl; by rewrite E1).
    destruct (account_update_run DelegatorUpdateFailed l a a' m s mret) as (m1 & Hu & Hm1 & Hq1 & _ & Habs1 & _);
      [done|rewrite Hdb; apply Hw|done|done|by rewrite Ha|by split_and!|rewrite Habs'; split_and!; simpl; lia || done|].
    rewrite bind_ret_r in Hu. rewrite Hu. exists (set_sk_am m1 s). rewrite Ha in Habs1.
    assert (Hfin : abs m1 = <[d := paid_in n (entry (abs (sk_am s)) d)]> (abs (sk_am s))).
    { rewrite Habs1, Habs', Habs. f_equal. unfold abs. by rewrite Hdb. }
    split_and!; try done. apply (books_account s _ d (paid_in n (entry (abs (sk_am s)) d))); try done.
    split; simpl; [done|done|apply Hw]. }
  destruct Hbody as (s' & Hbody & Hrest). exists s'. split; [|done].
  unfold completeUnbonding. apply holding_account; [done| |done|done]. unfold on_am. blind.
Qed.

(** *** The queue *)

Definition due (t : Z) (e : UnbondingEntry) : Prop := CompletionTime e <= t.
#[local] Instance due_dec t e : Decision (due t e).
Proof. unfold due. apply _. Defined.
Definition owed (t : Z) (d : string) (q : list UnbondingEntry) : Z :=
  in_unbonding (filter (fun e => DelegatorAddr e = d) (filter (due t) q)).
Notation entry_ok := (fun e => ok (DelegatorAddr e) = true /\ exists n, SetString10 (ub_Amount e) = Some n /\ 0 < n).

Lemma owed_cons t d e q : owed t d (e :: q) = (if decide (due t e /\ DelegatorAddr e = d) then amount_in e else 0) + owed t d q.
Proof.
  unfold owed. rewrite filter_cons. destruct (decide (due t e)) as [Hd|Hd].
  - rewrite filter_cons. repeat case_decide; try tauto; done.
  - rewrite decide_False by tauto. done.
Qed.

Lemma owed_app t d q k : owed t d (q ++ k) = owed t d q + owed t d k.
Proof. unfold owed. by rewrite !filter_app, in_unbonding_app. Qed.

Lemma supply_paid (L : ledger) d n : supply (<[d := paid_in n (entry L d)]> L) = supply L + n.
Proof. rewrite supply_update. unfold funds, paid_in. simpl. lia. Qed.

Lemma unbonding_loop_run t queue : forall remaining s,
  books s -> Forall entry_ok queue -> supply (abs (sk_am s)) + in_unbonding queue < two256 ->
  exists s', unbonding_loop Keccak256 shardID totalShards t queue remaining s = (Ok (remaining ++ filter (fun e => ~ due t e) queue), s') /\
  books s' /\ w_validators (sk_world s') = w_validators (sk_world s) /\ sk_unbonding s' = sk_unbonding s /\
  (forall d, entry (abs (sk_am s')) d = paid_in (owed t d queue) (entry (abs (sk_am s)) d)) /\
  supply (abs (sk_am s')) + in_unbonding (filter (fun e => ~ due t e) queue) = supply (abs (sk_am s)) + in_unbonding queue.
Proof.
  induction queue as [|e queue IH]; intros remaining s Hb Hall Hs.
  - exists s. simpl. rewrite app_nil_r. split_and!; try done. intros d. unfold paid_in, owed. simpl.
    rewrite Z.add_0_r. by destruct (entry (abs (sk_am s)) d).
  - apply Forall_cons in Hall as [(Hok & n & En & Hn) Hall]. pose proof (in_unbonding_nonneg _ Hall) as Hge.
    assert (Ham : amount_in e = n) by (unfold amount_in; by rewrite En).
    assert (Hsum : in_unbonding (e :: queue) = n + in_unbonding queue) by (rewrite <-Ham; done).
    cbn [unbonding_loop]. destruct (Z.leb_spec (CompletionTime e) t) as [Hd|Hd].
    + destruct (complete_run e s n Hb Hok En Hn) as (s1 & Hrun & Hb1 & Habs1 & Hv1 & Ht1 & Hq1); [lia|]. rewrite Hrun.
      destruct (IH remaining s1 Hb1 Hall) as (s' & -> & Hb' & Hv' & Hq' & Hent & Hsup); [rewrite Habs1, supply_paid; lia|].
      exists s'. rewrite filter_cons, decide_False by (intros Hx; apply Hx; done). split_and!; [done|done|congruence|congruence| |].
      * intros d. rewrite Hent, Habs1, owed_cons. destruct (decide (DelegatorAddr e = d)) as [<-|Hne].
        -- rewrite decide_True by done. rewrite entry_insert_eq. unfold paid_in. simpl. f_equal. lia.
        -- rewrite decide_False by tauto. by rewrite entry_insert_ne.
      * rewrite Hsup, Habs1, supply_paid. lia.
    + destruct (IH (remaining ++ [e]) s Hb Hall) as (s' & -> & Hb' & Hv' & Hq' & Hent & Hsup); [lia|].
      exists s'. rewrite filter_cons, decide_True by (unfold due; lia). rewrite <-app_assoc. split_and!; try done.
      * intros d. rewrite Hent, owed_cons, decide_False by (unfold due; lia). done.
      * unfold in_unbonding in *. simpl. lia.
Qed.

Lemma process_step now s : books s -> circulating s < two256 ->
  exists s', ProcessUnbondingQueue Keccak256 shardID totalShards now s = (Ok tt, s') /\ books s' /\ circulating s' = circulating s /\
  w_validators (sk_world s') = w_validators (sk_world s) /\
  sk_unbonding s' = filter (fun e => ~ due (Unix now) e) (sk_unbonding s) /\
  (forall d, entry (abs (sk_am s')) d = paid_in (owed (Unix now) d (sk_unbonding s)) (entry (abs (sk_am s)) d)).
Proof.
  intros Hb Hc. unfold ProcessUnbondingQueue. rewrite bind_get.
  destruct (unbonding_loop_run (Unix now) (sk_unbonding s) [] s Hb (b_queue _ Hb) Hc) as (s' & Hrun & [H1 H2 H3 H4 H5 H6] & Hv & Hq & Hent & Hsup).
  unfold mbind, GoM_bind. rewrite Hrun. simpl. eexists. split; [reflexivity|]. split_and!; try done.
  split; try done. simpl. rewrite Forall_forall. intros e [_ He]%list_elem_of_filter.
  pose proof (b_queue _ Hb) as Hall. rewrite Forall_forall in Hall. by apply Hall.
Qed.

(** *** Claims *)

Definition claimed (x : acct) : acct := MkAcct (bal x + rewards x) (staked x) 0 (deleg x) (nonce x).

Lemma claim_step d s : books s -> circulating s < two256 ->
  exists r s', sm_ClaimRewards Keccak256 shardID totalShards d s = (r, s') /\ books s' /\
  (refused r s s' \/
   r = Ok tt /\ 0 < rewards (entry (abs (sk_am s)) d) /\
   abs (sk_am s') = <[d := claimed (entry (abs (sk_am s)) d)]> (abs (sk_am s)) /\
   w_validators (sk_world s') = w_validators (sk_world s) /\ sk_unbonding s' = sk_unbonding s).
Proof.
  intros Hb Hcirc. pose proof (b_world _ Hb) as Hw.
  destruct (funds_le_supply Keccak256 shardID totalShards (sk_am s) d (wg_inv _ _ _ _ Hw)) as [Hf _]. unfold funds in Hf.
  pose proof (in_unbonding_nonneg _ (b_queue _ Hb)). unfold circulating in Hcirc. unfold sm_ClaimRewards.
  match goal with |- context [holding d ?b s] => set (body := b) end.
  assert (Hbl : lock_blind body) by (unfold body, on_am; blind).
  enough (Hbody : exists r s', body s = (r, s') /\ r <> Hang /\ books s' /\ (refused r s s' \/
    r = Ok tt /\ 0 < rewards (entry (abs (sk_am s)) d) /\ abs (sk_am s') = <[d := claimed (entry (abs (sk_am s)) d)]> (abs (sk_am s)) /\
    w_validators (sk_world s') = w_validators (sk_world s) /\ sk_unbonding s' = sk_unbonding s)).
  { destruct Hbody as (r & s' & E & Hr & Hb' & Hres). exists r, s'. split; [by apply holding_account|done]. }
  unfold body. unfold lift. unfold mbind at 1, GoM_bind at 1.
  destruct (Validate_cases d) as [Ev|[e Ev]]; rewrite Ev; simpl.
  2:{ eexists _, _. split; [reflexivity|]. split; [done|]. split; [done|]. left. by split_and!. }
  destruct (ok d) eqn:Hok.
  2:{ match goal with |- context [(on_sk_world _ ≫= ?k) s] => destruct (fetch_fails DelegatorGetFailed d s k Hok) as [e ->] end.
      eexists _, _. split; [reflexivity|]. split; [done|]. split; [done|]. left. by split_and!. }
  match goal with |- context [(on_sk_world _ ≫= ?k) s] =>
    destruct (fetch_run DelegatorGetFailed d s k Hw Hok) as (l & a & m & -> & Hm & Hdb & Hl & Ha & Hc & Habs & Hv) end.
  assert (Hsame : abs m = abs (sk_am s)) by (unfold abs; by rewrite Hdb).
  rewrite (read_run _ l a) by exact Hl. pose proof Hc as (Hcb & Hcs & Hcr & Hcd).
  rewrite (canon_parse (acc_Rewards a)), (canon_parse (acc_Balance a)) by done. rewrite bind_refuse_if.
  destruct (Z.leb_spec (SetBytes (acc_Rewards a)) 0).
  { eexists _, _. split; [reflexivity|]. split; [done|]. split; [by apply books_same|]. left. by split_and!. }
  rewrite (write_run _ l _ a) by exact Hl. change (sk_am (set_sk_am m s)) with m. rewrite set_sk_am_twice, write_again.
  rewrite <-Habs in Hf. pose proof Hv as (? & ? & ? & ? & ?). simpl in *.
  destruct (u256_canon (SetBytes (acc_Balance a) + SetBytes (acc_Rewards a))) as [? E1]; [lia|].
  set (a' := set_Rewards [] (set_Balance (u256_or_nil (SetBytes (acc_Balance a) + SetBytes (acc_Rewards a))) a)).
  assert (Habs' : abs_acct a' = claimed (abs_acct a)) by (unfold abs_acct, claimed; simpl; by rewrite E1).
  destruct (account_update_run DelegatorUpdateFailed l a a' m s mret) as (m1 & Hu & Hm1 & Hq1 & _ & Habs1 & _);
    [done|rewrite Hdb; apply Hw|done|done|by rewrite Ha|by split_and!|rewrite Habs'; split_and!; simpl; lia || done|].
  rewrite bind_ret_r in Hu. rewrite Hu. eexists _, _. split; [reflexivity|]. split; [done|]. rewrite Ha in Habs1.
  assert (Hfin : abs m1 = <[d := claimed (entry (abs (sk_am s)) d)]> (abs (sk_am s))) by (by rewrite Habs1, Habs', Habs, Hsame).
  split; [|right; rewrite <-Habs; split_and!; [done|simpl; lia|by rewrite Habs|done|done]].
  apply (books_account s _ d (claimed (entry (abs (sk_am s)) d))); try done. split; simpl; [done|done|apply Hw].
Qed.

(** ** Any sequence of calls *)

Inductive staking_call : Type :=
| CallDelegate (now : Z) (delegator validator : string) (amount : Z)
| CallUndelegate (now : Z) (delegator validator : string) (amount : Z)
| CallProcessQueue (now : Z)
| CallClaim (delegator : string).

Definition run_call (c : staking_call) : St unit :=
  match c with
  | CallDelegate now d v amount => sm_Delegate Keccak256 shardID totalShards cfg now d v amount
  | CallUndelegate now d v amount => sm_Undelegate Keccak256 shardID totalShards cfg now d v amount
  | CallProcessQueue now => ProcessUnbondingQueue Keccak256 shardID totalShards now
  | CallClaim d => sm_ClaimRewards Keccak256 shardID totalShards d
  end.

Fixpoint run_staking (calls : list staking_call) (s : state) : list (outcome st_err unit) * state :=
  match calls with
  | [] => ([], s)
  | c :: calls => let '(r, s1) := run_call c s in let '(rs, s2) := run_staking calls s1 in (r :: rs, s2)
  end.

Definition returned {A} (r : outcome st_err A) : Prop := is_ok r = true \/ is_err r = true.

Lemma refused_circulating {A} (r : outcome st_err A) s s' : refused r s s' -> circulating s' = circulating s.
Proof. intros (_ & Ha & _ & _ & Hq). unfold circulating. by rewrite Ha, Hq. Qed.

Lemma Delegate_run now d v amount s : config_ok -> books s -> circulating s < two256 ->
  sm_Delegate Keccak256 shardID totalShards cfg now d v amount s = Delegate_body Keccak256 shardID totalShards cfg now d v amount s.
Proof.
  intros Hcfg Hb Hc. destruct (delegate_step now d v amount s Hcfg Hb Hc) as (r & s' & E & _ & Hr).
  unfold sm_Delegate. rewrite E. apply holding_account; [done|apply delegate_blind|done|].
  destruct Hr as [[[Hr _] _]|[-> _]]; [by destruct r|done].
Qed.
Lemma Undelegate_run now d v amount s : config_ok -> books s -> circulating s < two256 ->
  sm_Undelegate Keccak256 shardID totalShards cfg now d v amount s = Undelegate_body Keccak256 shardID totalShards cfg now d v amount s.
Proof.
  intros Hcfg Hb Hc. destruct (undelegate_step now d v amount s Hcfg Hb Hc) as (r & s' & E & _ & Hr).
  unfold sm_Undelegate. rewrite E. apply holding_account; [done|apply undelegate_blind|done|].
  destruct Hr as [[[Hr _] _]|[-> _]]; [by destruct r|done].
Qed.

Lemma call_step c s : config_ok -> books s -> circulating s < two256 ->
  exists r s', run_call c s = (r, s') /\ returned r /\ books s' /\ circulating s' = circulating s.
Proof.
  intros Hcfg Hb Hc. destruct c as [now d v amount|now d v amount|now|d]; simpl.
  - rewrite Delegate_run by done. destruct (delegate_step now d v amount s Hcfg Hb Hc) as (r & s' & E & Hb' & Hr).
    exists r, s'. split; [done|]. destruct Hr as [[Hr _]|(-> & _ & val & _ & _ & _ & Ha & _ & _ & Hq)].
    + split; [right; apply Hr|]. split; [done|by eapply refused_circulating].
    + split; [by left|]. split; [done|]. unfold circulating. rewrite Ha, Hq, supply_update. unfold funds. simpl. lia.
  - rewrite Undelegate_run by done. destruct (undelegate_step now d v amount s Hcfg Hb Hc) as (r & s' & E & Hb' & Hr).
    exists r, s'. split; [done|]. destruct Hr as [[Hr _]|(-> & val & c & _ & _ & _ & Ha & _ & Hq)].
    + split; [right; apply Hr|]. split; [done|by eapply refused_circulating].
    + split; [by left|]. split; [done|]. unfold circulating. rewrite Ha, Hq, supply_update, in_unbonding_app.
      unfold funds, in_unbonding, amount_in. simpl. rewrite SetString10_String10. simpl. lia.
  - destruct (process_step now s Hb Hc) as (s' & E & Hb' & Hc' & _). exists (Ok tt), s'. split_and!; [done|by left|done|done].
  - destruct (claim_step d s Hb Hc) as (r & s' & E & Hb' & Hr).
    exists r, s'. split; [done|]. destruct Hr as [Hr|(-> & _ & Ha & _ & Hq)].
    + split; [right; apply Hr|]. split; [done|by eapply refused_circulating].
    + split; [by left|]. split; [done|]. unfold circulating. rewrite Ha, Hq, supply_update. unfold funds. simpl. lia.
Qed.

(** What is left of a delegation that is taken back is what was there before. *)
Lemma restored (v : string) (m : gmap string Z) amount : (forall c, m !! v = Some c -> 0 < c) ->
  reduced v (default 0 (m !! v) + amount - amount) (<[v := default 0 (m !! v) + amount]> m) = m.
Proof.
  intros Hpos. unfold reduced. destruct (m !! v) as [c|] eqn:E; simpl.
  - pose proof (Hpos c eq_refl). rewrite (proj2 (Z.eqb_neq (c + amount - amount) 0)) by lia.
    rewrite insert_insert_eq. replace (c + amount - amount) with c by lia. by rewrite insert_id.
  - replace (0 + amount - amount =? 0) with true by lia. rewrite delete_insert_eq. by rewrite delete_id.
Qed.

(** The same amounts in the record of a validator, whose other fields are the same but
    for the time of the last change. *)
Definition same_amounts (now : Z) (val val' : Validator) : Prop :=
  stake_in val' = stake_in val /\ ParseBigInt_bytes (val_DelegatedStake val') = ParseBigInt_bytes (val_DelegatedStake val) /\
  delegator_amounts val' = delegator_amounts val /\
  val' = set_UpdatedAt (Unix now) (set_Delegators (val_Delegators val') (set_Stake (val_Stake val') (set_DelegatedStake (val_DelegatedStake val') val))).

Lemma gained_lost d amount t1 t2 val : 0 < amount ->
  ParseBigInt_bytes (val_DelegatedStake val) = map_sum id (delegator_amounts val) ->
  ParseBigInt_bytes (val_DelegatedStake val) <= stake_in val -> stake_in val + amount < two256 ->
  (forall c, delegator_amounts val !! d = Some c -> 0 < c) -> same_amounts t2 val (lost d amount t2 (gained d amount t1 val)).
Proof.
  intros Ha Hd Hle Hb Hpos. destruct (gained_ok d amount t1 val Ha Hd Hle Hb) as (G1 & G2 & G3 & G4).
  assert (Hc : 0 <= default 0 (delegator_amounts val !! d)) by apply amounts_le.
  destruct (lost_ok d amount t2 (gained d amount t1 val) (default 0 (delegator_amounts val !! d) + amount)) as (L1 & L2 & _ & L4);
    [lia|rewrite G1; by rewrite lookup_insert_eq|done|done|].
  assert (Hm : delegator_amounts (lost d amount t2 (gained d amount t1 val)) = delegator_amounts val) by (rewrite L1, G1; by apply restored).
  split_and!; [lia|by rewrite L2, Hm|done|by destruct val].
Qed.
End Staking.

Section Theorems.
Context `{MapOrder} {C F : Type} `{LRU C, !LRULaws C}.
Context (Keccak256 : list byte -> list byte) (shardID totalShards : Z) (cfg : StakingConfig).
Notation state := (@staking C F).
Notation ok := (ok_addr Keccak256 shardID totalShards).

(** C7. No money is made or lost by staking.  From books that agree, any sequence of
    delegations, undelegations, queue runs and claims, by anyone and in any order,
    returns from every call, leaves the books in agreement (the delegation in the
    account is the one in the validator's record, the validator's delegated stake is
    the sum of its delegations, the network's total is the sum of all stakes), and
    the funds in the accounts and in the unbonding queue together are what they
    were. *)
Theorem staking_books_balance (calls : list staking_call) (s : state) :
  config_ok cfg -> books Keccak256 shardID totalShards s -> circulating s < two256 ->
  let '(rs, s') := run_staking Keccak256 shardID totalShards cfg calls s in
  Forall returned rs /\ books Keccak256 shardID totalShards s' /\ circulating s' = circulating s.
Proof.
  intros Hcfg. revert s. induction calls as [|c calls IH]; intros s Hb Hc; simpl; [done|].
  destruct (call_step Keccak256 shardID totalShards cfg c s Hcfg Hb Hc) as (r & s1 & -> & Hr & Hb1 & Hc1).
  specialize (IH s1 Hb1 ltac:(lia)). destruct (run_staking _ _ _ _ calls s1) as [rs s2].
  destruct IH as (Hrs & Hb2 & Hc2). split_and!; [by constructor|done|lia].
Qed.

(** C26. The unbonding queue pays what is due, to the unit and no earlier.  A run of
    the queue at time [now] removes exactly the entries whose time has come, credits
    every account with the sum of its own among them and leaves all else alone. *)
Theorem unbonding_queue_pays_exactly (now : Z) (s : state) :
  books Keccak256 shardID totalShards s -> circulating s < two256 ->
  exists s', ProcessUnbondingQueue Keccak256 shardID totalShards now s = (Ok tt, s') /\
  sk_unbonding s' = filter (fun e => Unix now < CompletionTime e) (sk_unbonding s) /\
  w_validators (sk_world s') = w_validators (sk_world s) /\
  forall d, entry (abs (sk_am s')) d =
    let x := entry (abs (sk_am s)) d in
    MkAcct (bal x + in_unbonding (filter (fun e => CompletionTime e <= Unix now /\ DelegatorAddr e = d) (sk_unbonding s)))
      (staked x) (rewards x) (deleg x) (nonce x).
Proof.
  intros Hb Hc. destruct (process_step Keccak256 shardID totalShards now s Hb Hc) as (s' & E & _ & _ & Hv & Hq & Hent).
  exists s'. split_and!; [done| |done|].
  - rewrite Hq. apply list_filter_iff. intros e. unfold due. lia.
  - intros d. rewrite Hent. unfold paid_in, owed, due. rewrite list_filter_filter. simpl. do 3 f_equal.
    apply list_filter_iff. intros e. tauto.
Qed.

(** C25. A delegation can be taken back.  After a delegation that succeeded on books in
    order, taking the same amount back succeeds, and once the unbonding period has
    passed a run of the queue restores the account as it was, but for the payments that
    were due anyway; a run before that pays only those.  The validator has the stake, the
    delegated stake and the delegators it had, and of its other fields only the time of
    the last change differs; the other validators are untouched. *)
Theorem delegation_round_trip (t1 t2 t3 : Z) (d v : string) (amount : Z) (s s1 : state) :
  config_ok cfg -> books Keccak256 shardID totalShards s -> circulating s < two256 ->
  sm_Delegate Keccak256 shardID totalShards cfg t1 d v amount s = (Ok tt, s1) ->
  exists s2 s3, sm_Undelegate Keccak256 shardID totalShards cfg t2 d v amount s1 = (Ok tt, s2) /\
  ProcessUnbondingQueue Keccak256 shardID totalShards t3 s2 = (Ok tt, s3) /\
  let x := entry (abs (sk_am s)) d in
  let dues := owed (Unix t3) d (sk_unbonding s) in
  entry (abs (sk_am s3)) d =
    (if Unix (t2 + UnbondingPeriod cfg) <=? Unix t3 then paid_in dues x
     else MkAcct (bal x - amount + dues) (staked x) (rewards x) (deleg x) (nonce x)) /\
  exists val val', w_validators (sk_world s) !! v = Some val /\ same_amounts t2 val val' /\
    w_validators (sk_world s3) = <[v := val']> (w_validators (sk_world s)).
Proof.
  intros Hcfg Hb Hc Hd. rewrite Delegate_run in Hd by done.
  destruct (call_step Keccak256 shardID totalShards cfg (CallDelegate t1 d v amount) s Hcfg Hb Hc) as (r & s1' & E1 & _ & Hb1 & Hc1).
  simpl in E1. rewrite Delegate_run, Hd in E1 by done. injection E1 as <- <-.
  destruct (delegate_step Keccak256 shardID totalShards cfg t1 d v amount s Hcfg Hb Hc) as (r & s1' & E & _ & Hr).
  rewrite Hd in E. injection E as <- <-. destruct Hr as [[[? _] _]|(_ & (Hok & _) & val & Hv & _ & Ham & Ha1 & Hv1 & Hmax & Hq1)]; [done|].
  set (x := entry (abs (sk_am s)) d) in *.
  assert (Hx1 : entry (abs (sk_am s1)) d = MkAcct (bal x - amount) (staked x + amount) (rewards x)
    (<[v := default 0 (deleg x !! v) + amount]> (deleg x)) (nonce x)) by (by rewrite Ha1, entry_insert_eq).
  destruct (funds_le_supply Keccak256 shardID totalShards (sk_am s) d (wg_inv _ _ _ _ (b_world _ _ _ _ Hb))) as [_ Hvalid]. fold x in Hvalid.
  assert (Hpos : forall c, deleg x !! v = Some c -> 0 < c) by (intros c Hcv; by apply (delegation_le_staked x v c)).
  destruct (undelegate_step Keccak256 shardID totalShards cfg t2 d v amount s1 Hcfg Hb1 ltac:(lia)) as (r & s2 & E2 & Hb2 & Hr).
  destruct Hr as [[_ Hn]|(-> & val' & c & Hval & Hdv & _ & Ha2 & Hv2 & Hq2)].
  { exfalso. apply Hn. split; [done|]. split; [rewrite Hv1, lookup_insert_eq; by eexists|].
    rewrite Hx1. simpl. rewrite lookup_insert_eq. eexists. split; [done|].
    destruct (deleg x !! v) as [c|] eqn:Ecv; simpl; [pose proof (Hpos c eq_refl)|]; lia. }
  rewrite Hx1 in Ha2, Hdv. simpl in Ha2, Hdv. rewrite lookup_insert_eq in Hdv. injection Hdv as <-.
  rewrite restored in Ha2 by done. replace (staked x + amount - amount) with (staked x) in Ha2 by lia.
  destruct (call_step Keccak256 shardID totalShards cfg (CallUndelegate t2 d v amount) s1 Hcfg Hb1 ltac:(lia)) as (r & s2' & E2' & _ & _ & Hc2).
  simpl in E2'. rewrite Undelegate_run, E2 in E2' by (done || lia). injection E2' as _ <-.
  destruct (process_step Keccak256 shardID totalShards t3 s2 Hb2 ltac:(lia)) as (s3 & E3 & _ & _ & Hv3 & _ & Hent).
  exists s2, s3. rewrite Undelegate_run by (done || lia). split; [done|]. split; [done|]. cbn zeta. split; [|exists val, (lost d amount t2 val'); split_and!; [done| |]].
  2:{ rewrite Hv1, lookup_insert_eq in Hval. injection Hval as <-. destruct (b_delegated _ _ _ _ Hb v val Hv) as [Hd1 Hd2].
      apply gained_lost; [lia|done|lia|destruct Hcfg; lia|]. intros c0. rewrite (b_mirror _ _ _ _ Hb v val d Hv). apply Hpos. }
  2:{ by rewrite Hv3, Hv2, Hv1, insert_insert_eq. }
  rewrite Hent, Ha2, entry_insert_eq, Hq2, Hq1, owed_app, owed_cons. change (owed (Unix t3) d []) with 0. unfold paid_in.
  unfold amount_in, due. cbn [DelegatorAddr CompletionTime ub_Amount bal staked rewards deleg nonce]. rewrite SetString10_String10.
  destruct (Z.leb_spec (Unix (t2 + UnbondingPeriod cfg)) (Unix t3)).
  - rewrite decide_True by done. simpl. f_equal. lia.
  - rewrite decide_False by lia. simpl. f_equal. lia.
Qed.
End Theorems.

(** ** Samples *)
Module Demo.
#[local] Instance demo_LRU : LRU (list (string * loc)) := list_LRU 1.
#[local] Instance demo_LRU_laws : LRULaws (list (string * loc)) := list_LRU_laws 1.

Definition validator : Validator := MkValidator bob [] "" "" "" [x05] [x05] [] ∅ 0 true 0 0 0 0 0.
Definition config : StakingConfig := MkStakingConfig "1000" 10 "1000000000000000000000000" (f64_of_int 1) 10000000000.
Definition genesis : @staking (list (string * loc)) permille :=
  let w := boot demo_kv in
  MkStaking (MkWorld (w_am w) (w_locks w) (w_versions w) {[bob := validator]} (w_config w) (w_evm w)) "5" [].

Lemma no_delegations d : deleg (entry (abs (sk_am genesis)) d) = ∅.
Proof.
  unfold entry, abs. rewrite lookup_fmap. destruct (dbView (db (sk_am genesis)) !! d) as [a|] eqn:E; [|done]. simpl.
  assert (Hok : db_ok demo_kv) by apply (good_db _ _ _ _ _ start_inv).
  destruct (db_ok_view _ _ _ Hok E) as (Hd & _ & _). unfold demo_kv in Hd. simpl in Hd.
  rewrite lookup_singleton_Some in Hd. destruct Hd as [_ [= <-]]. done.
Qed.

Lemma genesis_books : books no_hash BeaconShardID 1 genesis.
Proof.
  split; simpl.
  - split; simpl; [apply start_inv|done|done].
  - intros v val [<- <-]%lookup_singleton_Some. by vm_compute.
  - intros v val d [<- <-]%lookup_singleton_Some. rewrite no_delegations. done.
  - intros v val [<- <-]%lookup_singleton_Some. split; [by vm_compute|]. split; vm_compute; congruence.
  - by vm_compute.
  - constructor.
Qed.
Lemma genesis_circulating : circulating genesis < two256.
Proof. by vm_compute. Qed.
Lemma config_sane : config_ok config.
Proof. split; by vm_compute. Qed.

(** Alice delegates, takes half back, claims nothing, and the queue runs twice. *)
Definition calls : list staking_call :=
  [CallDelegate 0 alice bob 5000; CallUndelegate 1000000000 alice bob 2500; CallClaim alice;
   CallProcessQueue 5000000000; CallProcessQueue 11000000000].

Lemma staking_books_balance_witness :
  let '(rs, s') := run_staking no_hash BeaconShardID 1 config calls genesis in
  Forall returned rs /\ books no_hash BeaconShardID 1 s' /\ circulating s' = circulating genesis.
Proof.
  apply (staking_books_balance no_hash BeaconShardID 1 config calls genesis); [apply config_sane|apply genesis_books|apply genesis_circulating].
Defined.

Example calls_outcomes :
  is_ok <$> fst (run_staking no_hash BeaconShardID 1 config calls genesis) = [true; true; false; true; true] /\
  sk_unbonding (snd (run_staking no_hash BeaconShardID 1 config calls genesis)) = [] /\
  stake_in <$> (w_validators (sk_world (snd (run_staking no_hash BeaconShardID 1 config calls genesis))) !! bob) = Some 2505.
Proof. by vm_compute. Qed.

Definition waiting : @staking (list (string * loc)) permille :=
  snd (run_staking no_hash BeaconShardID 1 config (take 2 calls) genesis).
Lemma waiting_books : books no_hash BeaconShardID 1 waiting /\ circulating waiting < two256.
Proof.
  unfold waiting, calls. cbn [take run_staking].
  destruct (call_step no_hash BeaconShardID 1 config (CallDelegate 0 alice bob 5000) genesis) as (r1 & s1 & -> & _ & Hb1 & Hc1);
    [apply config_sane|apply genesis_books|apply genesis_circulating|].
  pose proof genesis_circulating.
  destruct (call_step no_hash BeaconShardID 1 config (CallUndelegate 1000000000 alice bob 2500) s1) as (r2 & s2 & -> & _ & Hb2 & Hc2);
    [apply config_sane|done|lia|]. simpl. split; [done|lia].
Qed.

Lemma unbonding_queue_pays_exactly_witness :
  exists s', ProcessUnbondingQueue no_hash BeaconShardID 1 11000000000 waiting = (Ok tt, s') /\
  sk_unbonding s' = filter (fun e => 11 < CompletionTime e) (sk_unbonding waiting) /\
  w_validators (sk_world s') = w_validators (sk_world waiting) /\
  forall d, entry (abs (sk_am s')) d =
    let x := entry (abs (sk_am waiting)) d in
    MkAcct (bal x + in_unbonding (filter (fun e => CompletionTime e <= 11 /\ DelegatorAddr e = d) (sk_unbonding waiting)))
      (staked x) (rewards x) (deleg x) (nonce x).
Proof. apply (unbonding_queue_pays_exactly no_hash BeaconShardID 1 11000000000 waiting); apply waiting_books. Defined.

Definition delegated_state : @staking (list (string * loc)) permille :=
  snd (sm_Delegate no_hash BeaconShardID 1 config 0 alice bob 5000 genesis).
Lemma delegation_round_trip_witness : exists s2 s3,
  sm_Undelegate no_hash BeaconShardID 1 config 1000000000 alice bob 5000 delegated_state = (Ok tt, s2) /\
  ProcessUnbondingQueue no_hash BeaconShardID 1 20000000000 s2 = (Ok tt, s3) /\
  let x := entry (abs (sk_am genesis)) alice in
  let dues := owed (Unix 20000000000) alice (sk_unbonding genesis) in
  entry (abs (sk_am s3)) alice =
    (if Unix (1000000000 + UnbondingPeriod config) <=? Unix 20000000000 then paid_in dues x
     else MkAcct (bal x - 5000 + dues) (staked x) (rewards x) (deleg x) (nonce x)) /\
  exists val val', w_validators (sk_world genesis) !! bob = Some val /\ same_amounts 1000000000 val val' /\
    w_validators (sk_world s3) = <[bob := val']> (w_validators (sk_world genesis)).
Proof.
  apply (delegation_round_trip no_hash BeaconShardID 1 config 0 1000000000 20000000000 alice bob 5000 genesis delegated_state);
    [apply config_sane|apply genesis_books|apply genesis_circulating|by vm_compute].
Defined.

(** A delegation made by a transaction is recorded in the account only: taking it
    back through the staking manager writes off the validator's own stake. *)
#[local] Existing Instance demo_float.
#[local] Existing Instance demo_json.
Definition by_transaction : @staking (list (string * loc)) permille :=
  match run_txs no_hash id BeaconShardID 1 "1" no_engine [(0, 0, demo_tx DELEGATE alice bob (10 ^ 18) 0)] (sk_world genesis) with
  | Some (_, w) => MkStaking w (sk_totalStaked genesis) []
  | None => genesis
  end.
Example transaction_delegation_wipes_the_stake :
  deleg (entry (abs (sk_am by_transaction)) alice) !! bob = Some (10 ^ 18) /\
  stake_in <$> (w_validators (sk_world by_transaction) !! bob) = Some 5 /\
  let '(r, s) := sm_Undelegate no_hash BeaconShardID 1 config 0 alice bob (10 ^ 18) by_transaction in
  r = Ok tt /\ stake_in <$> (w_validators (sk_world s) !! bob) = Some 0.
Proof. by vm_compute. Qed.
End Demo.
