(* ===== verification/BlockDB.v ===== *)
(** * Blocks and transactions in the database (src/storage/db.go)

    Blocks by hash and by height, transactions with an index by address, and the
    batch that commits a block with all accounts and validators.  A Badger write
    transaction ([Update]) is all or nothing: it reads and writes at one moment and
    may fail as a whole. *)

From S2P Require Import Prelude Uint256 Address Storage.
From stdpp Require Import base tactics numbers list gmap strings sorting.
From Stdlib Require Import ZArith Lia Strings.Byte Strings.Ascii.
Open Scope Z_scope.
Open Scope list_scope.

(** ** Keys *)

Definition BlockPrefix : string := "blk:".
Definition IndexPrefix : string := "idx:".
Definition BlockKey (hash : string) : string := BlockPrefix +:+ hash.
Definition BlockHeightKey (height : Z) : string := IndexPrefix +:+ "height:" +:+ String10 height.
Definition TransactionKey (txHash : string) : string := "tx:" +:+ txHash.
Definition AddressTransactionPrefix (address : string) : string := "addr_tx:" +:+ address +:+ ":".
Definition AddressTransactionKey (address txHash : string) : string := "addr_tx:" +:+ address +:+ ":" +:+ txHash.

Section BlockDB.
Context `{MapOrder}.

(** ** Blocks *)

Definition save_block_at (key : Block -> string) : GoM (Block * KV) storage_err unit :=
  _ ← wrapM NormalizeAmounts (on_fst syncBlockCompatForWrite);
  '(block, _) ← get;
  on_snd (kv_Set (key block) (JBlock block)).
Definition SaveBlock : GoM (Block * KV) storage_err unit := save_block_at (fun b => BlockKey (blk_Hash b)).
(** A block without a header is refused. *)
Definition SaveBlockByHeight : GoM (Block * KV) storage_err unit := fun '(b, d) =>
  match blk_Header b with
  | None => (Err UnmarshalFailed, (b, d))
  | Some h => save_block_at (fun _ => BlockHeightKey (hdr_Index h)) (b, d)
  end.

Definition decode_block (data : blob) : outcome storage_err Block :=
  match data with
  | JBlock b => let '(r, b') := normalizeBlockCompat b in _ ← wrap NormalizeAmounts r; Ok b'
  | _ => Err UnmarshalFailed
  end.
Definition read_block (key : string) : GoM KV storage_err Block :=
  data ← kv_Get key; lift (decode_block data).
Definition GetBlock (hash : string) : GoM KV storage_err Block := read_block (BlockKey hash).
Definition GetBlockByHeight (height : Z) : GoM KV storage_err Block := read_block (BlockHeightKey height).

(** ** Transactions *)

Definition SaveTransaction : GoM (Transaction * KV) storage_err unit :=
  _ ← wrapM NormalizeAmounts (on_fst syncTransactionCompatForWrite);
  '(tx, _) ← get;
  on_snd (kv_Set (TransactionKey (tx_Id tx)) (JTransaction tx)).

Definition decode_transaction (data : blob) : outcome storage_err Transaction :=
  match data with
  | JTransaction t => let '(r, t') := normalizeTransactionCompat t in _ ← wrap NormalizeAmounts r; Ok t'
  | _ => Err UnmarshalFailed
  end.
Definition GetTransaction (hash : string) : GoM KV storage_err Transaction :=
  data ← kv_Get (TransactionKey hash); lift (decode_transaction data).

Definition index_at (address : string) (tx : Transaction) (m : gmap string blob) : gmap string blob :=
  if bool_decide (address = "") then m
  else <[AddressTransactionKey address (tx_Id tx) := Raw (bytes_of_string (tx_Id tx))]> m.
Definition indexed (tx : Transaction) (m : gmap string blob) : gmap string blob :=
  index_at (tx_To tx) tx (index_at (tx_From tx) tx (<[TransactionKey (tx_Id tx) := JTransaction tx]> m)).
Definition SaveTransactionWithIndex : GoM (Transaction * KV) storage_err unit :=
  _ ← wrapM NormalizeAmounts (on_fst syncTransactionCompatForWrite);
  '(tx, _) ← get;
  on_snd (_ ← access; modify (fun d => set_data (indexed tx (kv_data d)) d)).

(** The keys with a prefix in byte order, as the iterator has them. *)
Definition keys_with (prefix : string) (d : KV) : list string :=
  merge_sort String.le (filter (fun k => String.prefix prefix k = true) (map_order (kv_data d))).

(** What follows the second colon of [addr_tx:address:hash], if there is one. *)
Fixpoint after_colon (s : string) : option string :=
  match s with
  | String.EmptyString => None
  | String.String c s' => if bool_decide (c = ":"%char) then Some s' else after_colon s'
  end.
Definition hash_of_key (key : string) : option string := after_colon key ≫= after_colon.

(** The different hashes, up to [limit] of them; with no room the first still counts. *)
Fixpoint distinct_hashes (limit : Z) (keys : list string) (seen : list string) : list string :=
  match keys with
  | [] => seen
  | key :: keys' =>
      match hash_of_key key with
      | None => distinct_hashes limit keys' seen
      | Some h =>
          if bool_decide (h ∈ seen) then distinct_hashes limit keys' seen
          else let seen' := seen ++ [h] in
               if limit <=? Z.of_nat (length seen') then seen' else distinct_hashes limit keys' seen'
      end
  end.
Fixpoint fetch_transactions (hashes : list string) : GoM KV storage_err (list Transaction) :=
  match hashes with
  | [] => mret []
  | h :: hashes' => fun d =>
      match GetTransaction h d with
      | (Ok tx, d') => (rest ← fetch_transactions hashes'; mret (tx :: rest)) d'
      | (Err _, d') => fetch_transactions hashes' d'
      | (Panic, d') => (Panic, d')
      | (Hang, d') => (Hang, d')
      end
  end.
Definition by_newest (a b : Transaction) : Prop := tx_Timestamp b <= tx_Timestamp a.
#[global] Instance by_newest_dec a b : Decision (by_newest a b).
Proof. unfold by_newest. apply _. Defined.
Definition GetTransactionsByAddress (address : string) (limit : Z) : GoM KV storage_err (list Transaction) :=
  d ← get;
  txs ← fetch_transactions (distinct_hashes limit (keys_with (AddressTransactionPrefix address) d) []);
  mret (merge_sort by_newest txs).
Definition GetTransactionCount (address : string) (d : KV) : Z :=
  Z.of_nat (length (remove_dups (omap hash_of_key (keys_with (AddressTransactionPrefix address) d)))).

(** ** A block with everything *)

(** [normalize(x)] of every object, stopping at the first failure. *)
Fixpoint sync_all {X} (sync : GoM X u256_err unit) (l : list X) : outcome storage_err unit * list X :=
  match l with
  | [] => (Ok tt, [])
  | x :: l' =>
      match sync x with
      | (Ok _, x') => let '(r, l'') := sync_all sync l' in (r, x' :: l'')
      | (r, x') => (wrap NormalizeAmounts r, x' :: l')
      end
  end.

Definition put_accounts (l : list Account) (m : gmap string blob) : gmap string blob :=
  foldl (fun m a => <[AccountKey (acc_Address a) := JAccount a]> m) m l.
Definition put_validators (l : list Validator) (m : gmap string blob) : gmap string blob :=
  foldl (fun m v => <[ValidatorKey (val_Address v) := JValidator v]> m) m l.

(** The count is written in decimal. *)
Definition committed_data (block : Block) (accounts : list Account) (validators : list Validator) (totalTransactions : Z)
    (m : gmap string blob) : gmap string blob :=
  let index := match blk_Header block with Some h => hdr_Index h | None => 0 end in
  put_validators validators (put_accounts accounts
    (<[TotalTransactionsKey := Raw (bytes_of_string (String10 totalTransactions))]>
      (<[HeightKey := Text (String10 index)]> (<[BlockKey (blk_Hash block) := JBlock block]> m)))).

(** The block, the accounts and the validators are the caller's own objects. *)
Record batch : Type := MkBatch { bt_block : Block; bt_accounts : list Account; bt_validators : list Validator }.
Definition bt_set_block (b : Block) (t : batch) : batch := MkBatch b (bt_accounts t) (bt_validators t).

Definition normalize_batch : GoM batch storage_err unit := fun t =>
  match wrapM NormalizeAmounts syncBlockCompatForWrite (bt_block t) with
  | (Ok _, block) =>
      match blk_Header block with
      | None => (Panic, bt_set_block block t)
      | Some _ =>
          let '(ra, accounts) := sync_all syncAccountCompatForWrite (bt_accounts t) in
          match ra with
          | Ok _ => let '(rv, validators) := sync_all syncValidatorCompatForWrite (bt_validators t) in
                    (rv, MkBatch block accounts validators)
          | _ => (ra, MkBatch block accounts (bt_validators t))
          end
      end
  | (r, block) => (r, bt_set_block block t)
  end.
Definition CommitBlock (totalTransactions : Z) : GoM (batch * KV) storage_err unit :=
  _ ← on_fst normalize_batch;
  '(t, _) ← get;
  on_snd (_ ← access; modify (fun d =>
    set_data (committed_data (bt_block t) (bt_accounts t) (bt_validators t) totalTransactions (kv_data d)) d)).
End BlockDB.
