(* ===== verification/Chain.v ===== *)
(** * The chain in the world state (src/core/state/worldstate.go)

    Adding blocks, produced here or fetched from peers: a block is checked against
    the current one, its transactions are executed one after the other, and the
    height, the state root and the stored copies follow.  The caller's block is
    changed in place and handed back.  The chain mutex is held from start to end. *)

From S2P Require Import Prelude SafeMath Uint256 Address Storage AccountManager AccountSpec Pool ShardedLock Governance.
From S2P Require Import Domains EvmGas World Executor StateRoot BlockDB.
From stdpp Require Import base tactics numbers list gmap strings sorting.
From Stdlib Require Import ZArith Lia Strings.Byte Strings.Ascii.
Open Scope Z_scope.
Open Scope list_scope.

Inductive chain_err : Type :=
| NilBlock
| NilBlockHeader
| FirstNotGenesis (index : Z)
| GenesisHasParent
| WrongIndex (expected got : Z)
| WrongPrevHash (expected got : string)
| TimestampNotAfter
| BlockTooLarge
| TooManyTransactions
| ExecutionFailed (id : string) (e : exec_err)
| TransactionFailed (id : string)
| SaveTransactionFailed (id : string) (e : storage_err)
| RootMismatchInSync (block computed : string)
| SaveBlockFailed (e : storage_err)
| SaveByHeightFailed (e : storage_err)
| CommitFailed (e : storage_err).

(** [ws.config.Consensus], as far as it is used here. *)
Record BlockLimits : Type := MkBlockLimits { MaxBlockSize : Z; MaxTxPerBlock : Z }.

Definition set_StateRoot (root : string) (version : Z) (h : BlockHeader) : BlockHeader :=
  MkBlockHeader (hdr_Index h) (hdr_PrevHash h) (hdr_Timestamp h) (hdr_Validator h) (hdr_TxRoot h) root (hdr_GasUsed h)
    (hdr_GasLimit h) (hdr_Slot h) (hdr_Epoch h) (hdr_TotalFees h) (hdr_MerkleRoot h) (hdr_VrfOutput h) (hdr_VrfProof h) version.
Definition with_header (h : BlockHeader) (txs : list Transaction) (b : Block) : Block :=
  MkBlock (Some h) txs (blk_Hash b) (blk_Signature b) (blk_ProposalSignature b).

Section Chain.
Context `{MapOrder} {C F : Type} `{LRU C} `{Float64 F}.
Context `{Json Proposal, Json ProposalPayload, Json VotePayload, Json FinalizePayload, Json stakeDomainMembers}.
Context (Keccak256 HexToAddress : list byte -> list byte) (shardID totalShards : Z) (ChainID : string).
Context (StateEncodingUpgradeHeight : Z) (limits : BlockLimits).
Context (engine : evm_engine (@world C F)).

Record node : Type := MkNode {
  nd_ws : @WorldState C F;
  currentHash : string;
  lastTimestamp : Z;
  nd_totalTransactions : Z;
  txPool : Pool;
  genesisCommitted : bool
}.
Notation Nd := (GoM node chain_err).

Definition set_ws (w : WorldState) (n : node) : node :=
  MkNode w (currentHash n) (lastTimestamp n) (nd_totalTransactions n) (txPool n) (genesisCommitted n).
Definition set_pool (p : Pool) (n : node) : node :=
  MkNode (nd_ws n) (currentHash n) (lastTimestamp n) (nd_totalTransactions n) p (genesisCommitted n).
Definition kv_of (n : node) : KV := db (w_am (ws_world (nd_ws n))).

Definition on_ws {E A} (m : GoM (@WorldState C F) E A) : GoM node E A := fun n =>
  let '(r, w) := m (nd_ws n) in (r, set_ws w n).
Definition on_kv {E A} (m : GoM KV E A) : GoM node E A := fun n =>
  let w := ws_world (nd_ws n) in
  let '(r, d) := m (db (w_am w)) in (r, set_ws (set_world (set_am (set_db d (w_am w)) w) (nd_ws n)) n).
(** A call that normalises its argument in place. *)
Definition on_kv_with {E X A} (x : X) (m : GoM (X * KV) E A) : GoM node E (A * X) := fun n =>
  let w := ws_world (nd_ws n) in
  let '(r, (x', d)) := m (x, db (w_am w)) in
  ((a ← r; Ok (a, x')), set_ws (set_world (set_am (set_db d (w_am w)) w) (nd_ws n)) n).

(** [mu.Lock(); defer mu.Unlock()] around a body on the node. *)
Definition nd_locked {E A} (m : mode) (x : mu) (body : GoM node E A) : GoM node E A := fun n =>
  match mutex_op (E:=E) true m x (nd_ws n) with
  | (Ok _, w) =>
      let '(r, n1) := body (set_ws w n) in
      match r with
      | Hang => (Hang, n1)
      | _ => match mutex_op (E:=E) false m x (nd_ws n1) with
             | (Ok _, w2) => (r, set_ws w2 n1)
             | (_, w2) => (Panic, set_ws w2 n1)
             end
      end
  | (Hang, w) => (Hang, set_ws w n)
  | (_, w) => (Panic, set_ws w n)
  end.

(** ** The current block *)

(** [block, err := f(); if err == nil { return block }]. *)
Definition or_next {A} (m : GoM KV storage_err A) (k : GoM KV storage_err (option A)) : GoM KV storage_err (option A) := fun d =>
  match m d with
  | (Ok b, d') => (Ok (Some b), d')
  | (Err _, d') => k d'
  | (Panic, d') => (Panic, d')
  | (Hang, d') => (Hang, d')
  end.
Definition getCurrentBlockUnsafe {E} : GoM node E (option Block) := fun n =>
  let by_height := if 0 <=? ch_height (ws_chain (nd_ws n)) then or_next (GetBlockByHeight (ch_height (ws_chain (nd_ws n)))) (mret None)
                   else mret None in
  let look := if bool_decide (currentHash n = "") then by_height else or_next (GetBlock (currentHash n)) by_height in
  match on_kv look n with
  | (Ok b, n') => (Ok b, n')
  | (Err _, n') => (Ok None, n')
  | (Panic, n') => (Panic, n')
  | (Hang, n') => (Hang, n')
  end.
Definition GetCurrentBlock {E} : GoM node E (option Block) := nd_locked R ChainMu getCurrentBlockUnsafe.
Definition nd_GetHeight {E} : GoM node E Z := nd_locked R ChainMu (fun n => (Ok (ch_height (ws_chain (nd_ws n))), n)).
Definition GetStateRoot {E} : GoM node E string := nd_locked R StateRootMu (fun n => (Ok (ch_stateRoot (ws_chain (nd_ws n))), n)).

Definition validateBlockForAddition (block : option Block) : Nd BlockHeader :=
  match block with
  | None => throw NilBlock
  | Some block =>
      match blk_Header block with
      | None => throw NilBlockHeader
      | Some h =>
          current ← getCurrentBlockUnsafe;
          match current with
          | None =>
              _ ← refuse_if (negb (hdr_Index h =? 0)) (FirstNotGenesis (hdr_Index h));
              _ ← refuse_if (negb (bool_decide (hdr_PrevHash h = ""))) GenesisHasParent;
              mret h
          | Some current =>
              match blk_Header current with
              | None => panic
              | Some ch =>
                  _ ← refuse_if (negb (hdr_Index h =? i64 (hdr_Index ch + 1))) (WrongIndex (i64 (hdr_Index ch + 1)) (hdr_Index h));
                  _ ← refuse_if (negb (bool_decide (hdr_PrevHash h = blk_Hash current))) (WrongPrevHash (blk_Hash current) (hdr_PrevHash h));
                  _ ← refuse_if (hdr_Timestamp h <=? hdr_Timestamp ch) TimestampNotAfter;
                  _ ← refuse_if (MaxBlockSize limits <? hdr_GasUsed h) BlockTooLarge;
                  _ ← refuse_if (MaxTxPerBlock limits <? Z.of_nat (length (blk_Transactions block))) TooManyTransactions;
                  mret h
              end
          end
      end
  end.

(** ** Executing the transactions *)

Definition on_nd_world {E A} (m : GoM (@world C F) E A) : GoM node E A := on_ws (on_world m).

(** A block whose list of transactions holds a nil pointer, which panics here, is not
    represented. *)
Definition execute_one (now1 now2 : Z) (tx : Transaction) : Nd Transaction := fun n =>
  match on_nd_world (ExecuteTransaction Keccak256 HexToAddress shardID totalShards ChainID true engine now1 now2 (Some tx)) n with
  | (Ok receipt, n1) =>
      if r_Status receipt =? 0 then (Err (TransactionFailed (tx_Id tx)), n1)
      else (saved ← wrapM (SaveTransactionFailed (tx_Id tx)) (on_kv_with tx SaveTransactionWithIndex);
            _ ← modify (fun n => set_pool (snd (RemoveTransaction (tx_Id tx) (txPool n))) n);
            mret (snd saved)) n1
  | (Err (_, e), n1) => (Err (ExecutionFailed (tx_Id tx) e), n1)
  | (Panic, n1) => (Panic, n1)
  | (Hang, n1) => (Hang, n1)
  end.
Fixpoint execute_txs (clock : nat -> Z * Z) (i : nat) (txs : list Transaction) : Nd (list Transaction) :=
  match txs with
  | [] => mret []
  | tx :: txs' =>
      tx ← execute_one (fst (clock i)) (snd (clock i)) tx;
      rest ← execute_txs clock (S i) txs';
      mret (tx :: rest)
  end.

(** ** Storing the block *)

Definition advance (h : BlockHeader) (hash : string) (count : Z) (n : node) : node :=
  let c := ws_chain (nd_ws n) in
  MkNode (set_chain (MkChain (hdr_Index h) (ch_stateRoot c) (ch_version c)) (nd_ws n)) hash (hdr_Timestamp h)
    (i64 (nd_totalTransactions n + count)) (txPool n) (genesisCommitted n).

(** The validators are the world state's own objects: they keep what the database
    normalised, also when it then refused. *)
Definition write_back (keys : list string) (vs : list Validator) (m : gmap string Validator) : gmap string Validator :=
  foldl (fun m kv => <[kv.1 := kv.2]> m) m (zip keys vs).

Definition objects {V} (m : gmap string V) : list V := omap (fun k => m !! k) (map_order m).

Definition commit_all (b : Block) : Nd Block :=
  accounts ← on_ws all_accounts;
  fun n =>
    let w := ws_world (nd_ws n) in
    let keys := map_order (w_validators w) in
    let t := MkBatch b (objects accounts) (objects (w_validators w)) in
    let '(r, (t', d)) := CommitBlock (nd_totalTransactions n) (t, db (w_am w)) in
    let w' := MkWorld (set_db d (w_am w)) (w_locks w) (w_versions w)
                (write_back keys (bt_validators t') (w_validators w)) (w_config w) (w_evm w) in
    ((_ ← wrap CommitFailed r; Ok (bt_block t')), set_ws (set_world w' (nd_ws n)) n).

Definition store_block (b : Block) (after_save : node -> node) : Nd Block :=
  saved ← wrapM SaveBlockFailed (on_kv_with b SaveBlock);
  _ ← modify after_save;
  saved ← wrapM SaveByHeightFailed (on_kv_with (snd saved) SaveBlockByHeight);
  commit_all (snd saved).

Definition read_version {E} : GoM node E Z :=
  nd_locked R StateRootMu (fun n => (Ok (ws_GetStateRootEncodingVersion (ws_chain (nd_ws n))), n)).

Definition AddBlock (clock : nat -> Z * Z) (block : option Block) : Nd Block :=
  nd_locked W ChainMu (
    h ← validateBlockForAddition block;
    let b := default (MkBlock None [] "" [] []) block in
    txs ← execute_txs clock 0 (blk_Transactions b);
    _ ← modify (advance h (blk_Hash b) (Z.of_nat (length (blk_Transactions b))));
    _ ← on_ws (updateStateRoot Keccak256 StateEncodingUpgradeHeight);
    n ← get;
    version ← read_version;
    store_block (with_header (set_StateRoot (ch_stateRoot (ws_chain (nd_ws n))) version h) txs b) id).

(** ** Blocks from peers *)

Definition set_version (version : Z) (n : node) : node :=
  let c := ws_chain (nd_ws n) in set_ws (set_chain (MkChain (ch_height c) (ch_stateRoot c) version) (nd_ws n)) n.
Definition set_root (root : string) (version : Z) (n : node) : node :=
  let c := ws_chain (nd_ws n) in set_ws (set_chain (MkChain (ch_height c) root version) (nd_ws n)) n.
Definition commit_genesis (n : node) : node :=
  MkNode (nd_ws n) (currentHash n) (lastTimestamp n) (nd_totalTransactions n) (txPool n) true.

Definition AddBlockFromSync (clock : nat -> Z * Z) (block : option Block) : Nd Block :=
  nd_locked W ChainMu (
    h ← validateBlockForAddition block;
    let b := default (MkBlock None [] "" [] []) block in
    let v := hdr_StateEncodingVersion h in
    _ ← (if v =? 0 then mret tt else nd_locked W StateRootMu (modify (set_version v)));
    txs ← execute_txs clock 0 (blk_Transactions b);
    _ ← modify (advance h (blk_Hash b) (Z.of_nat (length (blk_Transactions b))));
    if hdr_Index h =? 0 then
      _ ← nd_locked W StateRootMu (modify (set_root (hdr_StateRoot h) (if v =? 0 then stateRootEncodingVersionLegacy else v)));
      store_block (with_header h txs b) commit_genesis
    else
      _ ← on_ws (updateStateRoot Keccak256 StateEncodingUpgradeHeight);
      n ← get;
      let root := ch_stateRoot (ws_chain (nd_ws n)) in
      _ ← refuse_if (negb (bool_decide (hdr_StateRoot h = root))) (RootMismatchInSync (hdr_StateRoot h) root);
      version ← read_version;
      store_block (with_header (set_StateRoot root version h) txs b) id).
End Chain.
