(* ===== verification/ChainSpec.v ===== *)
(** * The chain grows one linked block at a time

    [represents] relates a node to the list of its blocks, genesis first, read
    through the database operations.  Adding blocks, local or from peers, only ever
    appends to that list, whatever the outcome of the call. *)

From S2P Require Import Prelude SafeMath Uint256 Address Storage AccountManager AccountSpec Pool ShardedLock Governance.
From S2P Require Import Domains EvmGas World Executor ExecutorSpec ExecutorThms StateRoot StateRootSpec BlockDB Chain.
From stdpp Require Import base tactics numbers list gmap strings sorting.
From Stdlib Require Import ZArith Lia Strings.Byte Strings.Ascii.
Open Scope Z_scope.
Open Scope list_scope.

(** ** Normalising twice *)

Section Canonical.
Context `{MapOrder}.

Lemma canonicalize_idem raw raw' : canonicalizeUint256 raw = Ok raw' -> canonicalizeUint256 raw' = Ok raw'.
Proof. by intros [Hc _]%canonicalizeUint256_ok. Qed.

Definition tx_canonical (tx : Transaction) : Prop := normalizeTransactionCompat tx = (Ok tt, tx).
Definition block_canonical (b : Block) : Prop := normalizeBlockCompat b = (Ok tt, b).

Lemma tx_normalized tx tx' : normalizeTransactionCompat tx = (Ok tt, tx') -> tx_canonical tx'.
Proof.
  unfold tx_canonical, normalizeTransactionCompat, mbind, GoM_bind, canon_field.
  destruct (canonicalizeUint256 (tx_Amount tx)) as [a|e| |] eqn:Ha; try done. simpl.
  destruct (canonicalizeUint256 (tx_GasPrice tx)) as [g|e| |] eqn:Hg; try done. intros [= <-]. simpl.
  rewrite (canonicalize_idem _ _ Ha). simpl. rewrite (canonicalize_idem _ _ Hg). by destruct tx.
Qed.

Lemma txs_canonical txs : Forall tx_canonical txs -> normalizeTransactions txs = (Ok tt, txs).
Proof. induction 1 as [|tx txs Htx _ IH]; [done|]. simpl. by rewrite Htx, IH. Qed.

(** A header whose fees can be read and transactions that are canonical. *)
Definition with_fees (h : BlockHeader) (fees : list byte) (b : Block) : Block :=
  MkBlock (Some (set_TotalFees fees h)) (blk_Transactions b) (blk_Hash b) (blk_Signature b) (blk_ProposalSignature b).

Lemma block_normalized b h fees :
  blk_Header b = Some h -> canonicalizeUint256 (hdr_TotalFees h) = Ok fees -> Forall tx_canonical (blk_Transactions b) ->
  normalizeBlockCompat b = (Ok tt, with_fees h fees b) /\ block_canonical (with_fees h fees b).
Proof.
  intros Hh Hf Htx. unfold block_canonical, normalizeBlockCompat, canon_field. rewrite Hh, Hf. simpl.
  rewrite (canonicalize_idem _ _ Hf), (txs_canonical _ Htx). by destruct h.
Qed.

(** ** Reading blocks *)

Lemma read_block_stored key d b :
  quiet d -> kv_data d !! key = Some (JBlock b) -> block_canonical b -> read_block key d = (Ok b, d).
Proof.
  intros Hq Hk Hb. unfold read_block, kv_Get, mbind, GoM_bind. rewrite access_quiet by done.
  unfold get. rewrite Hk. unfold lift. simpl. by rewrite Hb.
Qed.

Lemma read_block_missing key d : quiet d -> kv_data d !! key = None -> read_block key d = (Err ErrKeyNotFound, d).
Proof. intros Hq Hk. unfold read_block, kv_Get, mbind, GoM_bind. rewrite access_quiet by done. unfold get. by rewrite Hk. Qed.

(** What is read depends on the key's data only, and the database stays as it is. *)
Lemma read_block_same key d d' :
  quiet d -> quiet d' -> kv_data d' !! key = kv_data d !! key ->
  read_block key d' = (fst (read_block key d), d').
Proof.
  intros Hq Hq' Hk. unfold read_block, kv_Get, mbind, GoM_bind. rewrite !access_quiet by done.
  unfold get. rewrite Hk. destruct (kv_data d !! key); [|done]. unfold lift. simpl. by destruct (decode_block b).
Qed.
End Canonical.

(** ** Keys *)

Lemma height_key_inj i j : BlockHeightKey i = BlockHeightKey j -> i = j.
Proof.
  unfold BlockHeightKey, IndexPrefix. intros [= Heq]. change (String10 i = String10 j) in Heq.
  pose proof (SetString10_String10 i) as Hi. rewrite Heq, SetString10_String10 in Hi. by injection Hi.
Qed.

Definition block_key (k : string) : Prop := (exists h, k = BlockKey h) \/ (exists i, k = BlockHeightKey i).
Lemma block_key_others k : block_key k -> strip_acc k = None /\ forall a, k <> NonceKey a.
Proof. by intros [[h ->]|[i ->]]. Qed.

Definition same_blocks (d d' : KV) : Prop :=
  (forall k, block_key k -> kv_data d' !! k = kv_data d !! k) /\ (quiet d -> quiet d').
#[global] Instance same_blocks_preorder : PreOrder same_blocks.
Proof. split; [done|]. intros a b c [Ha Qa] [Hb Qb]. split; [|tauto]. intros k Hk. by rewrite Hb, Ha. Qed.
Lemma others_blocks d d' : same_others d d' -> same_blocks d d'.
Proof. intros [Hk Hq]. split; [|done]. intros k [? ?]%block_key_others. by apply Hk. Qed.
Lemma access_blocks : keeps same_blocks access.
Proof. intros d. apply others_blocks, rest_others, access_rest. Qed.

(** ** What the calls leave alone *)

Section Frames.
Context `{MapOrder} {C F : Type} `{LRU C, !LRULaws C} `{Float64 F}.
Context `{Json Proposal, Json ProposalPayload, Json VotePayload, Json FinalizePayload, Json stakeDomainMembers}.
Context (Keccak256 HexToAddress : list byte -> list byte) (shardID totalShards : Z) (ChainID : string).
Context (upgrade : Z) (limits : BlockLimits) (engine : evm_engine (@world C F)).
Notation node := (@node C F).
Notation Nd := (GoM node chain_err).

Definition nd_locks (n : node) : list RWMutex := w_locks (ws_world (nd_ws n)).
Definition nd_height (n : node) : Z := ch_height (ws_chain (nd_ws n)).

(** The mutexes, the head and the blocks are as they were; a database without
    failures stays one. *)
Record nd_frame (n n' : node) : Prop := MkFrame {
  fr_mutex : forall x, ws_mutex (nd_ws n') x = ws_mutex (nd_ws n) x;
  fr_locks : nd_locks n' = nd_locks n;
  fr_blocks : same_blocks (kv_of n) (kv_of n');
  fr_height : nd_height n' = nd_height n;
  fr_hash : currentHash n' = currentHash n;
  fr_time : lastTimestamp n' = lastTimestamp n
}.
#[global] Instance nd_frame_preorder : PreOrder nd_frame.
Proof.
  split; [by split|]. intros a b c [] []. split; try congruence. by etransitivity.
Qed.

Lemma on_kv_frame {E A} (m : GoM KV E A) : keeps same_blocks m -> keeps nd_frame (on_kv m).
Proof.
  intros Hm n. unfold on_kv. specialize (Hm (db (w_am (ws_world (nd_ws n))))).
  destruct (m _) as [r d]. by split.
Qed.
Lemma on_kv_with_frame {E X A} x (m : GoM (X * KV) E A) :
  (forall d, same_blocks d (snd (snd (m (x, d))))) -> keeps nd_frame (on_kv_with x m).
Proof.
  intros Hm n. unfold on_kv_with. specialize (Hm (db (w_am (ws_world (nd_ws n))))).
  destruct (m _) as [r [x' d]]. by split.
Qed.

(** *** The database *)

Lemma kv_Get_blocks k : keeps same_blocks (kv_Get k).
Proof.
  unfold kv_Get. apply keeps_bind; [apply _|apply access_blocks|]. intros _.
  apply keeps_bind; [apply _|apply keeps_get; apply _|]. intros d d1. by destruct (kv_data d !! k).
Qed.
Lemma read_block_blocks k : keeps same_blocks (read_block k).
Proof.
  unfold read_block. apply keeps_bind; [apply _|apply kv_Get_blocks|]. intros b. apply keeps_lift; apply _.
Qed.
Lemma iterate_blocks {X} (decode : blob -> outcome storage_err X) addr keys : forall out d,
  same_blocks d (snd (iterate decode addr keys out d)).
Proof.
  induction keys as [|k keys IH]; intros out d; [done|]. cbn [iterate].
  pose proof (kv_Get_blocks k d) as Hk. destruct (kv_Get k d) as [[b| | |] d1]; cbn [snd] in Hk; [destruct (decode b)|..];
    (etransitivity; [exact Hk|apply IH]).
Qed.
Lemma all_accounts_frame {E} : keeps nd_frame (on_ws (all_accounts (E:=E))).
Proof.
  intros n. unfold on_ws, all_accounts, on_world, AccountManager.GetAllAccounts.
  change (dbAll (db (w_am (ws_world (nd_ws n))))) with (Storage.GetAllAccounts (db (w_am (ws_world (nd_ws n))))).
  unfold Storage.GetAllAccounts.
  match goal with |- context [iterate ?a ?b ?k ?o ?d] => pose proof (iterate_blocks a b k o d) as Hi; destruct (iterate a b k o d) end.
  by split.
Qed.

Lemma SaveTransaction_blocks tx d : same_blocks d (snd (snd (SaveTransactionWithIndex (tx, d)))).
Proof.
  unfold SaveTransactionWithIndex, mbind, GoM_bind, wrapM, on_fst.
  destruct (syncTransactionCompatForWrite tx) as [[[]| | |] tx']; simpl; try done.
  unfold on_snd. pose proof (access_blocks d) as Ha. unfold mbind, GoM_bind.
  destruct (access d) as [[[]| | |] d1]; simpl in *; try done. etransitivity; [exact Ha|].
  split; [|done]. intros k Hk. simpl. unfold indexed, index_at.
  assert (Ht : k <> TransactionKey (tx_Id tx')) by (by destruct Hk as [[? ->]|[? ->]]).
  assert (Hi : forall a, k <> AddressTransactionKey a (tx_Id tx')) by (by destruct Hk as [[? ->]|[? ->]]).
  repeat case_bool_decide; by rewrite ?lookup_insert_ne.
Qed.

Lemma normalizeTransaction_no_hang : no_hang normalizeTransactionCompat.
Proof. unfold normalizeTransactionCompat. apply no_hang_bind; [|intros _]; apply canon_field_no_hang, canonicalize_no_hang. Qed.

Lemma SaveTransaction_result tx d :
  fst (SaveTransactionWithIndex (tx, d)) <> Hang /\
  (is_ok (fst (SaveTransactionWithIndex (tx, d))) = true -> tx_canonical (fst (snd (SaveTransactionWithIndex (tx, d))))).
Proof.
  unfold SaveTransactionWithIndex, mbind, GoM_bind, wrapM, on_fst, syncTransactionCompatForWrite.
  pose proof (normalizeTransaction_no_hang tx) as Hh.
  destruct (normalizeTransactionCompat tx) as [[[]| | |] t] eqn:Hn; simpl in *; try done.
  unfold on_snd, mbind, GoM_bind. pose proof (access_no_hang d) as Ha.
  destruct (access d) as [[[]| | |] d1]; simpl in *; try done. split; [done|]. intros _. by eapply tx_normalized.
Qed.

(** *** Executing *)

Notation execute_one := (execute_one Keccak256 HexToAddress shardID totalShards ChainID engine).
Notation execute_txs := (execute_txs Keccak256 HexToAddress shardID totalShards ChainID engine).
Definition nd_plain (txs : list Transaction) : Prop := Forall (fun tx => plain (tx_Type tx) = true) txs.

(** A call that comes back, leaves the frame and gives a result in [Q]. *)
Definition good_call {E A} (m : GoM node E A) (n : node) (Q : A -> Prop) : Prop :=
  fst (m n) <> Hang /\ nd_frame n (snd (m n)) /\ forall a, fst (m n) = Ok a -> Q a.

Lemma good_bind {E A B} (m : GoM node E A) (k : A -> GoM node E B) n (P : A -> Prop) Q :
  good_call m n P -> (forall a n', nd_frame n n' -> P a -> good_call (k a) n' Q) -> good_call (m ≫= k) n Q.
Proof.
  intros (Hh & Hf & HP) Hk. unfold good_call, mbind, GoM_bind.
  destruct (m n) as [[a|e| |] n1]; simpl in *; try done.
  destruct (Hk a n1 Hf (HP a eq_refl)) as (? & ? & ?). split_and!; try done. by etransitivity.
Qed.
Lemma good_ret {E A} (a : A) n (Q : A -> Prop) : Q a -> good_call (mret a : GoM node E A) n Q.
Proof. intros Ha. split_and!; [done..|]. by intros b [= <-]. Qed.

Lemma execute_one_good now1 now2 tx n :
  plain (tx_Type tx) = true -> nd_locks n = NewShardedMutex -> good_call (execute_one now1 now2 tx) n tx_canonical.
Proof.
  intros Hp Hl. unfold good_call, Chain.execute_one, on_nd_world, on_ws, on_world.
  pose proof (execute_frame Keccak256 HexToAddress shardID totalShards ChainID engine tx now1 now2 (ws_world (nd_ws n)) Hp Hl) as Hf.
  destruct (ExecuteTransaction _ _ _ _ _ _ _ _ _ _ _) as [r w1]. destruct Hf as [Hr (Hl1 & _ & _ & Ho)].
  set (n1 := set_ws _ n). assert (Hf1 : nd_frame n n1).
  { split; try done; [|by apply others_blocks]. unfold nd_locks in *. by rewrite Hl. }
  destruct r as [rc|[rc e]| |]; simpl; try done.
  destruct (r_Status rc =? 0); simpl; [done|]. unfold mbind, GoM_bind, wrapM, on_kv_with.
  pose proof (SaveTransaction_blocks tx (kv_of n1)) as Hs. pose proof (SaveTransaction_result tx (kv_of n1)) as [Hh Hok].
  change (db (w_am (ws_world (nd_ws n1)))) with (kv_of n1).
  destruct (SaveTransactionWithIndex (tx, kv_of n1)) as [r [tx' d]]. cbn [fst snd] in *.
  assert (Hf2 : forall p, nd_frame n (set_pool p (set_ws (set_world (set_am (set_db d (w_am (ws_world (nd_ws n1)))) (ws_world (nd_ws n1))) (nd_ws n1)) n1))).
  { intros p. etransitivity; [exact Hf1|]. by split. }
  destruct r as [[]|e| |]; simpl; [|by split_and!; [|apply (Hf2 (txPool n))|]..|done].
  split_and!; [done|apply Hf2|]. intros a [= <-]. by apply Hok.
Qed.

Lemma execute_txs_good clock txs : forall i n,
  nd_plain txs -> nd_locks n = NewShardedMutex -> good_call (execute_txs clock i txs) n (fun txs' => Forall tx_canonical txs' /\ length txs' = length txs).
Proof.
  induction txs as [|tx txs IH]; intros i n Hp Hl; cbn [Chain.execute_txs].
  { by apply good_ret. }
  apply Forall_cons in Hp as [Hp1 Hp]. eapply good_bind; [by apply execute_one_good|]. intros t n1 Hf1 Ht.
  eapply good_bind; [apply (IH (S i)); [done|by rewrite (fr_locks _ _ Hf1)]|]. intros ts n2 Hf2 [Hts Hlen].
  apply good_ret. split; [by constructor|]. simpl. by rewrite Hlen.
Qed.

(** The one refusal that comes after the head has moved. *)
Definition root_mismatch {A} (r : outcome chain_err A) : bool := match r with Err (RootMismatchInSync _ _) => true | _ => false end.

Lemma execute_one_refusal now1 now2 tx n : root_mismatch (fst (execute_one now1 now2 tx n)) = false.
Proof.
  unfold Chain.execute_one. destruct (on_nd_world _ n) as [[rc|[rc e]| |] n1]; try done.
  destruct (r_Status rc =? 0); [done|]. unfold mbind, GoM_bind, wrapM. by destruct (on_kv_with tx SaveTransactionWithIndex n1) as [[]].
Qed.
Lemma execute_txs_refusal clock txs : forall i n, root_mismatch (fst (execute_txs clock i txs n)) = false.
Proof.
  induction txs as [|tx txs IH]; intros i n; [done|]. cbn [Chain.execute_txs]. unfold mbind, GoM_bind.
  pose proof (execute_one_refusal (fst (clock i)) (snd (clock i)) tx n) as H1'.
  destruct (execute_one _ _ tx n) as [[t|e| |] n1]; try done. specialize (IH (S i) n1). by destruct (execute_txs clock (S i) txs n1) as [[]].
Qed.

(** ** The blocks of a node *)

Definition follows (b b' : Block) : Prop :=
  match blk_Header b, blk_Header b' with
  | Some h, Some h' => hdr_PrevHash h' = blk_Hash b /\ hdr_Timestamp h < hdr_Timestamp h'
  | _, _ => False
  end.

Record represents (n : node) (bs : list Block) : Prop := MkRep {
  rep_height : forall i b, bs !! i = Some b ->
    GetBlockByHeight (Z.of_nat i) (kv_of n) = (Ok b, kv_of n) /\ exists h, blk_Header b = Some h /\ hdr_Index h = Z.of_nat i;
  rep_links : forall i b b', bs !! i = Some b -> bs !! S i = Some b' -> follows b b';
  rep_genesis : forall b h, bs !! 0%nat = Some b -> blk_Header b = Some h -> hdr_PrevHash h = "";
  rep_head : match last bs with
             | Some b => currentHash n = blk_Hash b /\ nd_height n = Z.of_nat (length bs) - 1 /\
                         GetBlock (currentHash n) (kv_of n) = (Ok b, kv_of n)
             | None => kv_data (kv_of n) !! BlockKey (currentHash n) = None /\ kv_data (kv_of n) !! BlockHeightKey (nd_height n) = None
             end
}.

Lemma represents_frame n n' bs : nd_frame n n' -> quiet (kv_of n) -> represents n bs -> represents n' bs.
Proof.
  intros Hf Hq [Hh Hl Hg Hhead]. destruct (fr_blocks _ _ Hf) as [Hk Hq']. specialize (Hq' Hq).
  assert (Hread : forall k b, block_key k -> read_block k (kv_of n) = (Ok b, kv_of n) -> read_block k (kv_of n') = (Ok b, kv_of n')).
  { intros k b Hkey Hr. rewrite (read_block_same k (kv_of n)), Hr by auto. done. }
  split; [|done..|].
  - intros i b Hb. destruct (Hh i b Hb) as [Hr ?]. split; [|done]. apply Hread; [|done]. right. by eexists.
  - rewrite (fr_hash _ _ Hf), (fr_height _ _ Hf). destruct (last bs) as [b|].
    + destruct Hhead as (? & ? & Hr). split_and!; [done..|]. apply Hread; [|done]. left. by eexists.
    + destruct Hhead as [? ?]. rewrite !Hk; [done|right; by eexists|left; by eexists].
Qed.

Lemma kv_of_id (n : node) : set_ws (set_world (set_am (set_db (kv_of n) (w_am (ws_world (nd_ws n)))) (ws_world (nd_ws n))) (nd_ws n)) n = n.
Proof. by destruct n as [[[[]] ? ?]]. Qed.

(** The lookups that find the current block find the last one. *)
Lemma current_block {E} n bs : quiet (kv_of n) -> represents n bs -> getCurrentBlockUnsafe (E:=E) n = (Ok (last bs), n).
Proof.
  intros Hq [Hh _ _ Hhead]. unfold getCurrentBlockUnsafe, on_kv.
  change (db (w_am (ws_world (nd_ws n)))) with (kv_of n). change (ch_height (ws_chain (nd_ws n))) with (nd_height n).
  set (look := if bool_decide (currentHash n = "") then _ else _).
  assert (Hlook : look (kv_of n) = (Ok (last bs), kv_of n)).
  { unfold look, or_next. destruct (last bs) as [b|] eqn:Hlast.
    - destruct Hhead as (Hc & Hi & Hr). rewrite last_lookup in Hlast.
      destruct (Hh _ _ Hlast) as [Hr2 _]. assert (Hlen : (0 < length bs)%nat) by (destruct bs; simpl in *; [done|lia]).
      replace (nd_height n) with (Z.of_nat (pred (length bs))) by lia.
      rewrite (proj2 (Z.leb_le 0 _)) by lia. case_bool_decide; [by rewrite Hr2|by rewrite Hr].
    - destruct Hhead as [H1' H2']. apply read_block_missing in H1' as Hr1; [|done]. apply read_block_missing in H2' as Hr2; [|done].
      unfold GetBlock, GetBlockByHeight. case_bool_decide; [|rewrite Hr1]; (destruct (0 <=? nd_height n); [by rewrite Hr2|done]). }
  rewrite Hlook. by rewrite kv_of_id.
Qed.

(** What the checks let through. *)
Definition next_header (bs : list Block) (h : BlockHeader) : Prop :=
  match last bs with
  | None => hdr_Index h = 0 /\ hdr_PrevHash h = ""
  | Some b => hdr_Index h = i64 (Z.of_nat (length bs)) /\ hdr_PrevHash h = blk_Hash b /\
              exists h0, blk_Header b = Some h0 /\ hdr_Timestamp h0 < hdr_Timestamp h
  end.

Lemma validate_run b n bs :
  quiet (kv_of n) -> represents n bs ->
  exists r, validateBlockForAddition limits (Some b) n = (r, n) /\ r <> Hang /\ root_mismatch r = false /\
  forall h, r = Ok h -> blk_Header b = Some h /\ next_header bs h.
Proof.
  intros Hq Hr. unfold validateBlockForAddition, next_header. destruct (blk_Header b) as [h|] eqn:Hh; [|by eexists].
  unfold mbind, GoM_bind. rewrite (current_block _ _ Hq Hr). destruct Hr as [Hheight _ _ _].
  destruct (last bs) as [b0|] eqn:Hlast.
  - pose proof Hlast as Hl. rewrite last_lookup in Hl. destruct (Hheight _ _ Hl) as (_ & h0 & Hh0 & Hi). rewrite Hh0, Hi.
    assert (Hlen : (0 < length bs)%nat) by (destruct bs; simpl in *; [done|lia]).
    replace (Z.of_nat (pred (length bs)) + 1) with (Z.of_nat (length bs)) by lia.
    unfold refuse_if. destruct (Z.eqb_spec (hdr_Index h) (i64 (Z.of_nat (length bs)))) as [Hidx|]; simpl; [|by eexists].
    case_bool_decide as Hp; simpl; [|by eexists]. destruct (Z.leb_spec (hdr_Timestamp h) (hdr_Timestamp h0)); simpl; [by eexists|].
    destruct (MaxBlockSize limits <? hdr_GasUsed h); simpl; [by eexists|].
    destruct (MaxTxPerBlock limits <? _); simpl; [by eexists|]. eexists. split_and!; [done..|].
    intros h' [= <-]. split_and!; try done. by exists h0.
  - unfold refuse_if. destruct (Z.eqb_spec (hdr_Index h) 0); simpl; [|by eexists].
    case_bool_decide; simpl; [|by eexists]. eexists. split_and!; [done..|]. by intros h' [= <-].
Qed.

(** *** Storing *)

Lemma normalizeValidator_no_hang : no_hang normalizeValidatorCompat.
Proof.
  unfold normalizeValidatorCompat, canonicalizeUint256Map. nohang; apply canon_field_no_hang; auto using canonicalize_no_hang.
  intros m. apply range_keys_no_hang. intros k. apply canonicalize_no_hang.
Qed.
Lemma sync_all_no_hang {X} (sync : GoM X u256_err unit) l : no_hang sync -> fst (sync_all sync l) <> Hang.
Proof.
  intros Hs. induction l as [|x l IH]; simpl; [done|]. specialize (Hs x).
  destruct (sync x) as [[[]| | |] x']; simpl in *; try done. by destruct (sync_all sync l).
Qed.
Lemma put_others {X} (key : X -> string) (data : X -> blob) l k : forall m,
  (forall x, k <> key x) -> foldl (fun m x => <[key x := data x]> m) m l !! k = (m : gmap string blob) !! k.
Proof. induction l as [|x l IH]; intros m Hk; simpl; [done|]. rewrite IH by done. by rewrite lookup_insert_ne. Qed.

(** A block canonical already is committed as it is, under its hash. *)
Lemma db_commit_run b h accounts validators total d :
  block_canonical b -> blk_Header b = Some h -> quiet d ->
  let '(r, (t', d')) := CommitBlock total (MkBatch b accounts validators, d) in
  r <> Hang /\ bt_block t' = b /\ quiet d' /\
  (forall k, block_key k -> k <> BlockKey (blk_Hash b) -> kv_data d' !! k = kv_data d !! k) /\
  (kv_data d !! BlockKey (blk_Hash b) = Some (JBlock b) -> kv_data d' !! BlockKey (blk_Hash b) = Some (JBlock b)).
Proof.
  intros Hb Hh Hq. unfold CommitBlock, mbind, GoM_bind, on_fst, normalize_batch, wrapM, syncBlockCompatForWrite. cbn [bt_block].
  rewrite Hb. cbn [wrap]. rewrite Hh.
  pose proof (sync_all_no_hang syncAccountCompatForWrite accounts normalize_no_hang) as Ha.
  pose proof (sync_all_no_hang syncValidatorCompatForWrite validators normalizeValidator_no_hang) as Hv.
  cbn [bt_accounts bt_validators]. destruct (sync_all syncAccountCompatForWrite accounts) as [ra acc]. cbn [fst] in Ha.
  destruct ra as [[]|e| |]; try done. destruct (sync_all syncValidatorCompatForWrite validators) as [rv vs]. cbn [fst] in Hv.
  destruct rv as [[]|e| |]; try done. unfold on_snd, mbind, GoM_bind, get. rewrite access_quiet by done.
  cbn [bt_block bt_accounts bt_validators modify]. split_and!; try done; cbn [set_data kv_data].
  - intros k Hk Hne. unfold committed_data, put_validators, put_accounts.
    rewrite (put_others (fun v => ValidatorKey (val_Address v)) JValidator) by (by destruct Hk as [[? ->]|[? ->]]).
    rewrite (put_others (fun a => AccountKey (acc_Address a)) JAccount) by (by destruct Hk as [[? ->]|[? ->]]).
    rewrite !lookup_insert_ne; try done; by destruct Hk as [[? ->]|[? ->]].
  - intros _. unfold committed_data, put_validators, put_accounts.
    rewrite (put_others (fun v => ValidatorKey (val_Address v)) JValidator) by done.
    rewrite (put_others (fun a => AccountKey (acc_Address a)) JAccount) by done.
    rewrite !lookup_insert_ne by done. by rewrite lookup_insert_eq.
Qed.

(** The head is as it was, and under its hash and its height there is [b]. *)
Record stores (b : Block) (h : BlockHeader) (n n' : node) : Prop := MkStores {
  sto_mutex : forall x, ws_mutex (nd_ws n') x = ws_mutex (nd_ws n) x;
  sto_locks : nd_locks n' = nd_locks n;
  sto_quiet : quiet (kv_of n');
  sto_height : nd_height n' = nd_height n;
  sto_hash : currentHash n' = currentHash n;
  sto_byHash : kv_data (kv_of n') !! BlockKey (blk_Hash b) = Some (JBlock b);
  sto_byHeight : kv_data (kv_of n') !! BlockHeightKey (hdr_Index h) = Some (JBlock b);
  sto_rest : forall k, block_key k -> k <> BlockKey (blk_Hash b) -> k <> BlockHeightKey (hdr_Index h) ->
    kv_data (kv_of n') !! k = kv_data (kv_of n) !! k
}.

Lemma save_block_run key b h fees d :
  blk_Header b = Some h -> canonicalizeUint256 (hdr_TotalFees h) = Ok fees -> Forall tx_canonical (blk_Transactions b) -> quiet d ->
  save_block_at key (b, d) = (Ok tt, (with_fees h fees b, set_data (<[key (with_fees h fees b) := JBlock (with_fees h fees b)]> (kv_data d)) d)).
Proof.
  intros Hh Hf Ht Hq. destruct (block_normalized b h fees Hh Hf Ht) as [Hn _].
  unfold save_block_at, mbind, GoM_bind, wrapM, on_fst, syncBlockCompatForWrite. rewrite Hn. cbn [wrap].
  unfold get, on_snd, kv_Set, mbind, GoM_bind. by rewrite access_quiet by done.
Qed.

Lemma commit_all_run b h n :
  block_canonical b -> blk_Header b = Some h -> quiet (kv_of n) ->
  kv_data (kv_of n) !! BlockKey (blk_Hash b) = Some (JBlock b) -> kv_data (kv_of n) !! BlockHeightKey (hdr_Index h) = Some (JBlock b) ->
  let '(r, n') := commit_all b n in
  r <> Hang /\ (forall x, r = Ok x -> x = b) /\ stores b h n n'.
Proof.
  intros Hb Hh Hq H1' H2'. unfold commit_all, mbind, GoM_bind.
  pose proof (all_accounts_frame (E:=chain_err) n) as Hf.
  assert (Hok : exists m, fst (on_ws (all_accounts (E:=chain_err)) n) = Ok m).
  { unfold on_ws, all_accounts, on_world. destruct (AccountManager.GetAllAccounts _) as [m a]. by exists m. }
  destruct Hok as [m Hok]. destruct (on_ws (all_accounts (E:=chain_err)) n) as [r n1]. cbn [fst snd] in *. subst r.
  destruct (fr_blocks _ _ Hf) as [Hk Hq1]. specialize (Hq1 Hq).
  change (db (w_am (ws_world (nd_ws n1)))) with (kv_of n1).
  pose proof (db_commit_run b h (objects m) (objects (w_validators (ws_world (nd_ws n1)))) (nd_totalTransactions n1) (kv_of n1) Hb Hh Hq1) as Hc.
  destruct (CommitBlock _ _) as [r [t' d']]. destruct Hc as (Hr & Ht & Hqd & Hrest & Hsame).
  assert (Hkb : block_key (BlockKey (blk_Hash b))) by (left; by eexists).
  assert (Hki : block_key (BlockHeightKey (hdr_Index h))) by (right; by eexists).
  split_and!; [by destruct r| |].
  - intros x. destruct r; simpl; try done. by intros [= <-].
  - split; [apply Hf|apply Hf|done|apply Hf|apply Hf|..]; cbn [kv_of set_ws set_world nd_ws ws_world w_am set_db db].
    + apply Hsame. by rewrite Hk.
    + by rewrite Hrest, Hk by done.
    + intros k Hkey Hne1 Hne2. by rewrite Hrest, Hk by done.
Qed.

Lemma store_run b h fees after n :
  blk_Header b = Some h -> canonicalizeUint256 (hdr_TotalFees h) = Ok fees -> Forall tx_canonical (blk_Transactions b) ->
  quiet (kv_of n) -> (forall n, nd_frame n (after n) /\ kv_of (after n) = kv_of n) ->
  let '(r, n') := store_block b after n in
  r <> Hang /\ (forall x, r = Ok x -> x = with_fees h fees b) /\ stores (with_fees h fees b) h n n'.
Proof.
  intros Hh Hf Ht Hq Hafter. destruct (block_normalized b h fees Hh Hf Ht) as [_ Hcan].
  set (b' := with_fees h fees b) in *. pose proof (canonicalize_idem _ _ Hf) as Hf'.
  unfold store_block. unfold mbind at 1, GoM_bind at 1. unfold wrapM at 1, on_kv_with at 1, SaveBlock.
  change (db (w_am (ws_world (nd_ws n)))) with (kv_of n).
  rewrite (save_block_run _ b h fees) by done. fold b'. cbn [mbind outcome_bind wrap].
  unfold mbind at 1, GoM_bind at 1. unfold modify at 1. cbn [snd].
  match goal with |- context [after ?x] => set (n1 := x); destruct (Hafter n1) as [Hfr Hkv]; set (n2 := after n1) in * end.
  unfold mbind at 1, GoM_bind at 1. unfold wrapM at 1, on_kv_with at 1, SaveBlockByHeight. cbn [blk_Header b' with_fees].
  change (db (w_am (ws_world (nd_ws n2)))) with (kv_of n2). fold b'.
  assert (Hq2 : quiet (kv_of n2)) by (rewrite Hkv; exact Hq).
  rewrite (save_block_run _ b' (set_TotalFees fees h) fees) by done. cbn [mbind outcome_bind wrap snd].
  assert (Hb' : with_fees (set_TotalFees fees h) fees b' = b') by (unfold with_fees, b'; by destruct h). rewrite Hb'.
  match goal with |- context [commit_all b' ?x] => set (n3 := x) end.
  assert (Hn3 : kv_data (kv_of n3) = <[BlockHeightKey (hdr_Index h) := JBlock b']> (<[BlockKey (blk_Hash b') := JBlock b']> (kv_data (kv_of n)))).
  { cbn [kv_of n3 set_ws set_world set_am nd_ws ws_world w_am set_db db set_data kv_data]. rewrite Hkv. done. }
  pose proof (commit_all_run b' (set_TotalFees fees h) n3 Hcan eq_refl) as Hc.
  destruct (commit_all b' n3) as [r n4]. destruct Hc as (Hr & Hx & [Hm Hl Hq4 Hhe Hha Hs1 Hs2 Hs3]).
  { exact Hq2. }
  { rewrite Hn3. by rewrite lookup_insert_ne, lookup_insert_eq by done. }
  { rewrite Hn3. by rewrite lookup_insert_eq. }
  split_and!; [done|done|]. split; try done.
  - intros x. rewrite Hm. apply (fr_mutex _ _ Hfr).
  - rewrite Hl. apply (fr_locks _ _ Hfr).
  - rewrite Hhe. apply (fr_height _ _ Hfr).
  - rewrite Hha. apply (fr_hash _ _ Hfr).
  - intros k Hk H1' H2'. rewrite Hs3 by done. rewrite Hn3. by rewrite !lookup_insert_ne.
Qed.

(** *** Locks *)

Definition held (m : mode) : RWMutex := match m with W => MkRW true 0 | R => MkRW false 1 end.
Definition with_mutex (x : mu) (l : RWMutex) (n : node) : node := set_ws (set_mutex x l (nd_ws n)) n.

Lemma with_mutex_eq x l n : ws_mutex (nd_ws (with_mutex x l n)) x = l.
Proof. by destruct x. Qed.
Lemma with_mutex_ne x l n y : x <> y -> ws_mutex (nd_ws (with_mutex x l n)) y = ws_mutex (nd_ws n) y.
Proof. by destruct x, y. Qed.

Lemma nd_locked_run {E A} m x (body : GoM node E A) n :
  ws_mutex (nd_ws n) x = unlocked ->
  let '(r, n') := body (with_mutex x (held m) n) in
  r <> Hang -> ws_mutex (nd_ws n') x = held m -> nd_locked m x body n = (r, with_mutex x unlocked n').
Proof.
  intros Hx. destruct (body (with_mutex x (held m) n)) as [r n'] eqn:Hb. intros Hr Hn'.
  unfold nd_locked, mutex_op. rewrite Hx.
  assert (Hacq : mutex_call true m unlocked = Some (Ok (held m))) by by destruct m.
  rewrite Hacq. fold (with_mutex x (held m) n). rewrite Hb.
  assert (Hrel : mutex_call false m (held m) = Some (Ok unlocked)) by by destruct m.
  rewrite Hn', Hrel. by destruct r.
Qed.

Lemma with_mutex_back m x n n' : ws_mutex (nd_ws n) x = unlocked ->
  nd_frame (with_mutex x (held m) n) n' -> nd_frame n (with_mutex x unlocked n').
Proof.
  intros Hx [Hm ? ? ? ? ?]. split; try done. intros y. specialize (Hm y). destruct x, y; cbn in *; congruence.
Qed.

(** A call that succeeds within the frame. *)
Definition smooth {E A} (m : GoM node E A) (n : node) : Prop := exists a n', m n = (Ok a, n') /\ nd_frame n n'.

Lemma nd_locked_smooth {E A} m x (body : GoM node E A) n :
  ws_mutex (nd_ws n) x = unlocked -> smooth body (with_mutex x (held m) n) -> smooth (nd_locked m x body) n.
Proof.
  intros Hx (a & n' & Hb & Hf). pose proof (nd_locked_run m x body n Hx) as Hrun. rewrite Hb in Hrun.
  eexists a, _. split; [apply Hrun; [done|by rewrite (fr_mutex _ _ Hf), with_mutex_eq]|by eapply with_mutex_back].
Qed.
Lemma modify_smooth {E} (f : node -> node) n : nd_frame n (f n) -> smooth (modify f : GoM node E unit) n.
Proof. intros Hf. by eexists _, _. Qed.

Lemma update_smooth {E} n : ws_mutex (nd_ws n) StateRootMu = unlocked ->
  smooth (E:=E) (on_ws (updateStateRoot Keccak256 upgrade)) n.
Proof.
  intros Hx. unfold smooth, on_ws, updateStateRoot, apply_version, locked, releasing, mbind, GoM_bind, mutex_op.
  destruct n as [[w c mut] ? ? ? ? ?]. cbn in *. rewrite Hx. cbn.
  unfold all_accounts, on_world, AccountManager.GetAllAccounts. cbn [ws_world].
  match goal with |- context [dbAll ?d] => change (dbAll d) with (Storage.GetAllAccounts d) end. unfold Storage.GetAllAccounts.
  match goal with |- context [iterate ?a ?b ?k ?o ?d] => pose proof (iterate_blocks a b k o d) as Hi; destruct (iterate a b k o d) end.
  cbn. eexists _, _. split; [done|]. split; try done. intros y. cbn. destruct y; by rewrite ?Hx.
Qed.
Lemma read_version_smooth {E} n : ws_mutex (nd_ws n) StateRootMu = unlocked -> smooth (read_version (E:=E)) n.
Proof. intros Hx. apply nd_locked_smooth; [done|]. by eexists _, _. Qed.

(** *** Growing *)

Lemma next_index bs h : next_header bs h -> Z.of_nat (length bs) < two63 -> hdr_Index h = Z.of_nat (length bs).
Proof.
  unfold next_header. intros Hnext Hlen. destruct (last bs) eqn:Hlast.
  - destruct Hnext as [-> _]. apply i64_id. unfold_ints. lia.
  - apply last_None in Hlast as ->. apply Hnext.
Qed.

Lemma represents_grow n n1 n' bs b h :
  represents n bs -> quiet (kv_of n) -> same_blocks (kv_of n) (kv_of n1) -> stores b h n1 n' ->
  block_canonical b -> Z.of_nat (length bs) < two63 -> next_header bs h ->
  (exists h', blk_Header b = Some h' /\ hdr_Index h' = hdr_Index h /\ hdr_PrevHash h' = hdr_PrevHash h /\ hdr_Timestamp h' = hdr_Timestamp h) ->
  currentHash n' = blk_Hash b -> nd_height n' = hdr_Index h -> represents n' (bs ++ [b]).
Proof.
  intros [Hh Hl Hg Hhead] Hq [Hk _] Hst Hcan Hlen Hnext (h' & Hh' & Hi' & Hp' & Ht') Hcur Hhei.
  pose proof (sto_quiet _ _ _ _ Hst) as Hq'.
  pose proof (next_index bs h Hnext Hlen) as Hidx.
  assert (Hsame : forall k, block_key k -> k <> BlockKey (blk_Hash b) -> k <> BlockHeightKey (hdr_Index h) -> kv_data (kv_of n') !! k = kv_data (kv_of n) !! k).
  { intros k Hkey H1' H2'. rewrite (sto_rest _ _ _ _ Hst) by done. by apply Hk. }
  split.
  - intros i x Hx. apply lookup_app_Some in Hx as [Hx|[Hge Hx]].
    + destruct (Hh i x Hx) as [Hr Hhx]. split; [|done]. apply lookup_lt_Some in Hx. unfold GetBlockByHeight in *.
      rewrite (read_block_same _ (kv_of n)), Hr; try done. apply Hsame; [right; by eexists|done|].
      rewrite Hidx. intros ?%height_key_inj. lia.
    + apply list_lookup_singleton_Some in Hx as [Hi <-]. replace (Z.of_nat i) with (hdr_Index h) by lia.
      split; [|exists h'; by rewrite Hi']. apply read_block_stored; [done|apply Hst|done].
  - intros i x x' Hx Hx'. apply lookup_app_Some in Hx' as [Hx'|[Hge Hx']].
    + apply (Hl i); [|done]. apply lookup_app_Some in Hx as [?|[Hge _]]; [done|]. apply lookup_lt_Some in Hx'. lia.
    + apply list_lookup_singleton_Some in Hx' as [Hi <-]. rewrite lookup_app_l in Hx by lia.
      assert (Hlast : last bs = Some x) by (rewrite last_lookup; by replace (pred (length bs)) with i by lia).
      unfold next_header in Hnext. rewrite Hlast in Hnext. destruct Hnext as (_ & Hp & h0 & Hh0 & Ht).
      unfold follows. rewrite Hh0, Hh', Hp', Ht'. done.
  - intros x hx Hx Hhx. destruct bs as [|b0 bs]; [|by apply (Hg x)]. injection Hx as <-. rewrite Hh' in Hhx. injection Hhx as <-.
    rewrite Hp'. apply Hnext.
  - rewrite last_snoc. split_and!; [done|rewrite Hhei, Hidx, length_app; simpl; lia|].
    rewrite Hcur. apply read_block_stored; [done|apply Hst|done].
Qed.

(** The state between calls, and inside one, where the chain mutex is held. *)
Record healthy (chain_mu : RWMutex) (n : node) : Prop := MkHealthy {
  hl_chain : ws_mutex (nd_ws n) ChainMu = chain_mu;
  hl_validator : ws_mutex (nd_ws n) ValidatorMu = unlocked;
  hl_root : ws_mutex (nd_ws n) StateRootMu = unlocked;
  hl_locks : nd_locks n = NewShardedMutex;
  hl_quiet : quiet (kv_of n)
}.
Lemma healthy_frame c n n' : nd_frame n n' -> healthy c n -> healthy c n'.
Proof.
  intros Hf [? ? ? ? ?]. split; rewrite ?(fr_mutex _ _ Hf), ?(fr_locks _ _ Hf); try done. by apply (fr_blocks _ _ Hf).
Qed.
Lemma healthy_stores c b h n n' : stores b h n n' -> healthy c n -> healthy c n'.
Proof. intros Hf [? ? ? ? ?]. split; rewrite ?(sto_mutex _ _ _ _ Hf), ?(sto_locks _ _ _ _ Hf); try done. apply Hf. Qed.

(** A header with another state root, in canonical form. *)
Definition restamped (h h' : BlockHeader) : Prop := exists root version fees, h' = set_TotalFees fees (set_StateRoot root version h).

(** The chain is as it was, or it is longer by the block, in the form it is stored in. *)
Definition extended (bs : list Block) (b : Block) (r : outcome chain_err Block) (n' : node) : Prop :=
  (represents n' bs /\ forall x, r <> Ok x) \/
  (exists b', represents n' (bs ++ [b']) /\ (blk_Hash b' = blk_Hash b /\
     exists h h', blk_Header b = Some h /\ blk_Header b' = Some h' /\ restamped h h') /\ forall x, r = Ok x -> x = b').

Lemma store_refusal b after (n : node) : root_mismatch (fst (store_block b after n)) = false.
Proof.
  unfold store_block, mbind, GoM_bind, wrapM, modify. destruct (on_kv_with b SaveBlock n) as [[[? b1]| | |] n1]; try done. cbn [wrap snd].
  destruct (on_kv_with b1 SaveBlockByHeight (after n1)) as [[[? b2]| | |] n2]; try done. cbn [wrap snd]. unfold commit_all, mbind, GoM_bind.
  unfold on_ws, all_accounts, on_world. destruct (AccountManager.GetAllAccounts _) as [m a]. cbn.
  by destruct (CommitBlock _ _) as [[] [t d]].
Qed.

Lemma store_extends c bs b h h' fees txs after n n1 :
  blk_Header b = Some h -> represents n bs -> quiet (kv_of n) -> next_header bs h -> Z.of_nat (length bs) < two63 ->
  same_blocks (kv_of n) (kv_of n1) -> healthy c n1 -> nd_height n1 = hdr_Index h -> currentHash n1 = blk_Hash b ->
  (exists root version, h' = set_StateRoot root version h) -> canonicalizeUint256 (hdr_TotalFees h) = Ok fees -> Forall tx_canonical txs ->
  (forall n, nd_frame n (after n) /\ kv_of (after n) = kv_of n) ->
  let '(r, n') := store_block (with_header h' txs b) after n1 in
  r <> Hang /\ healthy c n' /\ root_mismatch r = false /\ extended bs b r n'.
Proof.
  intros Hhb Hr Hq Hnext Hlen Hsb Hhl Hhe Hcu (root & version & Heq) Hf Htx Hafter.
  assert (Hi : hdr_Index h' = hdr_Index h) by by subst h'. assert (Hfe : hdr_TotalFees h' = hdr_TotalFees h) by by subst h'.
  pose proof (store_run (with_header h' txs b) h' fees after n1 eq_refl ltac:(by rewrite Hfe) Htx (hl_quiet _ _ Hhl) Hafter) as Hs.
  pose proof (store_refusal (with_header h' txs b) after n1) as Hmis.
  destruct (store_block _ after n1) as [r n']. destruct Hs as (Hh & Hx & Hst).
  split_and!; [done|by eapply healthy_stores|done|]. right. exists (with_fees h' fees (with_header h' txs b)).
  split_and!; [|done|eexists h, _; split_and!; [done..|by exists root, version, fees; rewrite Heq]|done]. assert (Hst' : stores (with_fees h' fees (with_header h' txs b)) h n1 n').
  { destruct Hst as [? ? ? ? ? ? Hs2 Hs3]. rewrite Hi in Hs2. split; try done. intros k ???. apply Hs3; try done. by rewrite Hi. }
  eapply represents_grow; try done.
  - destruct (block_normalized (with_header h' txs b) h' fees eq_refl ltac:(by rewrite Hfe) Htx) as [_ Hc]. exact Hc.
  - exists (set_TotalFees fees h'). rewrite Heq. by split_and!.
  - rewrite (sto_hash _ _ _ _ Hst). exact Hcu.
  - by rewrite (sto_height _ _ _ _ Hst).
Qed.

(** *** Both ways of adding *)

Notation AddBlock := (AddBlock Keccak256 HexToAddress shardID totalShards ChainID upgrade limits engine).
Notation AddBlockFromSync := (AddBlockFromSync Keccak256 HexToAddress shardID totalShards ChainID upgrade limits engine).

Definition add_body (pre : BlockHeader -> Nd unit) (rest : BlockHeader -> list Transaction -> Nd Block) clock (b : Block) : Nd Block :=
  h ← validateBlockForAddition limits (Some b);
  _ ← pre h;
  txs ← execute_txs clock 0 (blk_Transactions b);
  _ ← modify (advance h (blk_Hash b) (Z.of_nat (length (blk_Transactions b))));
  rest h txs.

(** The transactions are of the plain kinds and the fees can be read. *)
Record admissible (b : Block) : Prop := MkAdmissible {
  ad_plain : nd_plain (blk_Transactions b);
  ad_fees : forall h, blk_Header b = Some h -> is_ok (canonicalizeUint256 (hdr_TotalFees h)) = true
}.

Notation inside := (healthy (MkRW true 0)).

(** What holds when the block has been executed and the head moved. *)
Record moved (d : KV) (bs : list Block) (b : Block) (h : BlockHeader) (txs : list Transaction) (n1 : node) : Prop := MkMoved {
  mv_header : blk_Header b = Some h;
  mv_next : next_header bs h;
  mv_txs : Forall tx_canonical txs;
  mv_healthy : inside n1;
  mv_blocks : same_blocks d (kv_of n1);
  mv_height : nd_height n1 = hdr_Index h;
  mv_hash : currentHash n1 = blk_Hash b
}.

Lemma moved_frame n bs b h txs n1 n2 : nd_frame n1 n2 -> moved n bs b h txs n1 -> moved n bs b h txs n2.
Proof.
  intros Hf [? ? ? ? ? ? ?]. split; try done; [by eapply healthy_frame|..|by rewrite (fr_height _ _ Hf)|by rewrite (fr_hash _ _ Hf)].
  etransitivity; [done|apply Hf].
Qed.

Lemma add_body_run pre rest clock b bs n (P : outcome chain_err Block -> node -> Prop) :
  admissible b -> inside n -> represents n bs ->
  (forall h n1, inside n1 -> smooth (pre h) n1) ->
  (forall r n', represents n' bs -> (forall x, r <> Ok x) -> root_mismatch r = false -> P r n') ->
  (forall h txs n1, moved (kv_of n) bs b h txs n1 -> let '(r, n') := rest h txs n1 in r <> Hang /\ inside n' /\ P r n') ->
  let '(r, n') := add_body pre rest clock b n in r <> Hang /\ inside n' /\ P r n'.
Proof.
  intros [Hplain _] Hhl Hr Hpre Hstay Hrest. pose proof (hl_quiet _ _ Hhl) as Hq.
  unfold add_body. unfold mbind at 1, GoM_bind at 1.
  destruct (validate_run b n bs Hq Hr) as (r & -> & Hh & Hmis & Hok). destruct r as [h|e| |]; [|by split_and!; [| |apply Hstay]..|done].
  destruct (Hok h eq_refl) as [Hhead Hnext]. unfold mbind at 1, GoM_bind at 1.
  destruct (Hpre h n Hhl) as (? & n1 & -> & Hf1). unfold mbind at 1, GoM_bind at 1.
  pose proof (healthy_frame _ _ _ Hf1 Hhl) as Hhl1.
  destruct (execute_txs_good clock (blk_Transactions b) 0%nat n1 Hplain (hl_locks _ _ Hhl1)) as (Hh2 & Hf2 & Hok2).
  pose proof (execute_txs_refusal clock (blk_Transactions b) 0%nat n1) as Hmis2.
  destruct (execute_txs clock 0%nat (blk_Transactions b) n1) as [r n2]. cbn [fst snd] in *.
  assert (Hf : nd_frame n n2) by by etransitivity.
  pose proof (represents_frame _ _ _ Hf Hq Hr) as Hr2. pose proof (healthy_frame _ _ _ Hf Hhl) as Hhl2.
  destruct r as [txs|e| |]; [|by split_and!; [| |apply Hstay]..|done].
  destruct (Hok2 txs eq_refl) as [Htx _]. unfold mbind at 1, GoM_bind at 1, modify at 1. apply Hrest.
  split; try done; [by destruct Hhl2|apply Hf].
Qed.

Lemma fees_of b h : admissible b -> blk_Header b = Some h -> exists fees, canonicalizeUint256 (hdr_TotalFees h) = Ok fees.
Proof. intros Ha Hh. pose proof (ad_fees b Ha h Hh) as Hf. destruct (canonicalizeUint256 _) as [fees| | |]; try done. by exists fees. Qed.

Lemma id_frame (n : node) : nd_frame n (id n) /\ kv_of (id n) = kv_of n.
Proof. by split. Qed.
Lemma genesis_frame (n : node) : nd_frame n (commit_genesis n) /\ kv_of (commit_genesis n) = kv_of n.
Proof. by split; [split|]. Qed.

Lemma locked_add pre rest clock b bs n (P : outcome chain_err Block -> node -> Prop) :
  admissible b -> healthy unlocked n -> represents n bs ->
  (forall r n' c, P r n' -> P r (with_mutex ChainMu c n')) ->
  (forall h n1, inside n1 -> smooth (pre h) n1) ->
  (forall r n', represents n' bs -> (forall x, r <> Ok x) -> root_mismatch r = false -> P r n') ->
  (forall h txs n1, moved (kv_of n) bs b h txs n1 -> let '(r, n') := rest h txs n1 in r <> Hang /\ inside n' /\ P r n') ->
  let '(r, n') := nd_locked W ChainMu (add_body pre rest clock b) n in r <> Hang /\ healthy unlocked n' /\ P r n'.
Proof.
  intros Had [Hc Hv Hs Hl Hq] Hr HP Hpre Hstay Hrest.
  assert (Hin : inside (with_mutex ChainMu (held W) n)) by by split.
  assert (Hrep : represents (with_mutex ChainMu (held W) n) bs) by by destruct Hr.
  pose proof (add_body_run pre rest clock b bs _ P Had Hin Hrep Hpre Hstay Hrest) as Hb.
  pose proof (nd_locked_run W ChainMu (add_body pre rest clock b) n Hc) as Hrun.
  destruct (add_body pre rest clock b _) as [r n']. destruct Hb as (Hh & Hin' & HPr).
  rewrite Hrun; [|done|apply Hin']. split_and!; [done| |by apply HP]. by destruct Hin'.
Qed.

Lemma represents_mutex n bs x l : represents n bs <-> represents (with_mutex x l n) bs.
Proof. split; by intros []. Qed.
Lemma extended_mutex bs b r n x l : extended bs b r n -> extended bs b r (with_mutex x l n).
Proof.
  intros [[Hr ?]|(b' & Hr & ?)]; [left|right; exists b']; (split; [|done]); by apply represents_mutex.
Qed.

Definition commit_own (b : Block) (h : BlockHeader) (txs : list Transaction) : Nd Block :=
  _ ← on_ws (updateStateRoot Keccak256 upgrade);
  n ← get;
  version ← read_version;
  store_block (with_header (set_StateRoot (ch_stateRoot (ws_chain (nd_ws n))) version h) txs b) id.
Lemma AddBlock_body clock b : AddBlock clock (Some b) = nd_locked W ChainMu (add_body (fun _ => mret tt) (commit_own b) clock b).
Proof. reflexivity. Qed.

Definition adopt_version (h : BlockHeader) : Nd unit :=
  if hdr_StateEncodingVersion h =? 0 then mret tt else nd_locked W StateRootMu (modify (set_version (hdr_StateEncodingVersion h))).
Definition commit_foreign (b : Block) (h : BlockHeader) (txs : list Transaction) : Nd Block :=
  let v := hdr_StateEncodingVersion h in
  if hdr_Index h =? 0 then
    _ ← nd_locked W StateRootMu (modify (set_root (hdr_StateRoot h) (if v =? 0 then stateRootEncodingVersionLegacy else v)));
    store_block (with_header h txs b) commit_genesis
  else
    _ ← on_ws (updateStateRoot Keccak256 upgrade);
    n ← get;
    let root := ch_stateRoot (ws_chain (nd_ws n)) in
    _ ← refuse_if (negb (bool_decide (hdr_StateRoot h = root))) (RootMismatchInSync (hdr_StateRoot h) root);
    version ← read_version;
    store_block (with_header (set_StateRoot root version h) txs b) id.
Lemma AddBlockFromSync_body clock b :
  AddBlockFromSync clock (Some b) = nd_locked W ChainMu (add_body adopt_version (commit_foreign b) clock b).
Proof. reflexivity. Qed.

Lemma commit_own_extends bs b n h txs n1 :
  admissible b -> quiet (kv_of n) -> represents n bs -> Z.of_nat (length bs) < two63 -> moved (kv_of n) bs b h txs n1 ->
  let '(r, n') := commit_own b h txs n1 in r <> Hang /\ inside n' /\ extended bs b r n'.
Proof.
  intros Had Hq Hr Hlen Hm. unfold commit_own. unfold mbind at 1, GoM_bind at 1.
  destruct (update_smooth (E:=chain_err) n1 (hl_root _ _ (mv_healthy _ _ _ _ _ _ Hm))) as (? & n2 & -> & Hf2).
  pose proof (moved_frame _ _ _ _ _ _ _ Hf2 Hm) as Hm2. unfold mbind at 1, GoM_bind at 1, get at 1.
  unfold mbind at 1, GoM_bind at 1.
  destruct (read_version_smooth (E:=chain_err) n2 (hl_root _ _ (mv_healthy _ _ _ _ _ _ Hm2))) as (v & n3 & -> & Hf3).
  pose proof (moved_frame _ _ _ _ _ _ _ Hf3 Hm2) as [Hh Hnx Htx Hhl3 Hsb Hhe Hcu].
  destruct (fees_of b h Had Hh) as [fees Hfees].
  match goal with |- context [store_block (with_header ?h' _ _) _ _] =>
    pose proof (store_extends (MkRW true 0) bs b h h' fees txs id n n3 Hh Hr Hq Hnx Hlen Hsb Hhl3 Hhe Hcu
      ltac:(by eexists _, _) Hfees Htx id_frame) as Hs end. destruct (store_block _ _ n3) as [r n']. naive_solver.
Qed.

Lemma add_own_inside clock b bs n :
  admissible b -> inside n -> represents n bs -> Z.of_nat (length bs) < two63 ->
  let '(r, n') := add_body (fun _ => mret tt) (commit_own b) clock b n in r <> Hang /\ inside n' /\ extended bs b r n'.
Proof.
  intros Had Hhl Hr Hlen. apply (add_body_run (fun _ => mret tt) (commit_own b) clock b bs n (extended bs b)); try done.
  { intros h n1 _. by eexists _, _. }
  { intros r n' ? ? _. by left. }
  intros h txs n1. apply commit_own_extends; try done. apply Hhl.
Qed.

Lemma AddBlock_step clock b bs n :
  admissible b -> healthy unlocked n -> represents n bs -> Z.of_nat (length bs) < two63 ->
  let '(r, n') := AddBlock clock (Some b) n in
  r <> Hang /\ healthy unlocked n' /\ extended bs b r n'.
Proof.
  intros Had Hhl Hr Hlen. rewrite AddBlock_body.
  apply (locked_add (fun _ => mret tt) (commit_own b) clock b bs n (extended bs b)); try done.
  { intros r n' c. apply extended_mutex. }
  { intros h n1 _. by eexists _, _. }
  { intros r n' ? ? _. by left. }
  intros h txs n1. apply commit_own_extends; try done. apply Hhl.
Qed.

(** A block from a peer may also be refused for its root, with the head moved already. *)
Definition derailed (d : KV) (bs : list Block) (b : Block) (r : outcome chain_err Block) (n' : node) : Prop :=
  (exists x y, r = Err (RootMismatchInSync x y)) /\ same_blocks d (kv_of n') /\
  currentHash n' = blk_Hash b /\ exists h, blk_Header b = Some h /\ next_header bs h /\ nd_height n' = hdr_Index h.

Lemma AddBlockFromSync_step clock b bs n :
  admissible b -> healthy unlocked n -> represents n bs -> Z.of_nat (length bs) < two63 ->
  let '(r, n') := AddBlockFromSync clock (Some b) n in
  r <> Hang /\ healthy unlocked n' /\ ((root_mismatch r = false /\ extended bs b r n') \/ derailed (kv_of n) bs b r n').
Proof.
  intros Had Hhl Hr Hlen. rewrite AddBlockFromSync_body.
  apply (locked_add adopt_version (commit_foreign b) clock b bs n (fun r n' => (root_mismatch r = false /\ extended bs b r n') \/ derailed (kv_of n) bs b r n')); try done.
  { intros r n' c [[? ?]|?]; [left; split; [done|by apply extended_mutex]|by right]. }
  { intros h n1 Hin. unfold adopt_version. destruct (_ =? 0); [by eexists _, _|].
    apply nd_locked_smooth; [apply Hin|]. by apply modify_smooth. }
  { intros r n' ? ? ?. left. split; [done|]. by left. }
  intros h txs n1 Hm. destruct (fees_of b h Had (mv_header _ _ _ _ _ _ Hm)) as [fees Hfees]. unfold commit_foreign.
  destruct (hdr_Index h =? 0).
  - unfold mbind at 1, GoM_bind at 1.
    destruct (nd_locked_smooth (E:=chain_err) W StateRootMu (modify (set_root (hdr_StateRoot h) (if hdr_StateEncodingVersion h =? 0 then stateRootEncodingVersionLegacy else hdr_StateEncodingVersion h))) n1)
      as (? & n2 & -> & Hf2); [apply Hm|by apply modify_smooth|].
    pose proof (moved_frame _ _ _ _ _ _ _ Hf2 Hm) as [Hh Hnx Htx Hhl3 Hsb Hhe Hcu].
    pose proof (store_extends (MkRW true 0) bs b h h fees txs commit_genesis n n2 Hh Hr (hl_quiet _ _ Hhl) Hnx Hlen Hsb Hhl3 Hhe Hcu
      ltac:(by exists (hdr_StateRoot h), (hdr_StateEncodingVersion h); destruct h) Hfees Htx genesis_frame) as Hs. destruct (store_block _ _ n2) as [r n']. naive_solver.
  - unfold mbind at 1, GoM_bind at 1.
    destruct (update_smooth (E:=chain_err) n1 (hl_root _ _ (mv_healthy _ _ _ _ _ _ Hm))) as (? & n2 & -> & Hf2).
    pose proof (moved_frame _ _ _ _ _ _ _ Hf2 Hm) as Hm2. unfold mbind at 1, GoM_bind at 1, get at 1.
    unfold mbind at 1, GoM_bind at 1, refuse_if. case_bool_decide as Hroot; cbn [negb].
    2: { destruct Hm2. split_and!; try done. right. split_and!; [by eexists _, _|done|done|by exists h]. }
    unfold mret at 1, GoM_ret at 1. unfold mbind at 1, GoM_bind at 1.
    destruct (read_version_smooth (E:=chain_err) n2 (hl_root _ _ (mv_healthy _ _ _ _ _ _ Hm2))) as (v & n3 & -> & Hf3).
    pose proof (moved_frame _ _ _ _ _ _ _ Hf3 Hm2) as [Hh Hnx Htx Hhl3 Hsb Hhe Hcu].
    match goal with |- context [store_block (with_header ?h' _ _) _ _] =>
      pose proof (store_extends (MkRW true 0) bs b h h' fees txs id n n3 Hh Hr (hl_quiet _ _ Hhl) Hnx Hlen Hsb Hhl3 Hhe Hcu
        ltac:(by eexists _, _) Hfees Htx id_frame) as Hs end. destruct (store_block _ _ n3) as [r n']. naive_solver.
Qed.
End Frames.
