(* ===== verification/ChainThms.v ===== *)
(** * What adding a block does to the accounts *)

From S2P Require Import Prelude SafeMath Uint256 Address Storage AccountManager AccountSpec Pool ShardedLock Governance.
From S2P Require Import Domains EvmGas World Executor ExecutorSpec ExecutorThms StateRoot StateRootSpec Hashes Keys Wire Blocks BlocksSpec BlockDB Chain ChainSpec.
From stdpp Require Import base tactics numbers list gmap strings sorting.
From Stdlib Require Import ZArith Lia Strings.Byte Strings.Ascii.
Open Scope Z_scope.
Open Scope list_scope.

Section Effects.
Context `{MapOrder} {C F : Type} `{LRU C, !LRULaws C} `{Float64 F}.
Context `{Json Proposal, Json ProposalPayload, Json VotePayload, Json FinalizePayload, Json stakeDomainMembers}.
Context (Keccak256 HexToAddress : list byte -> list byte) (shardID totalShards : Z) (ChainID : string).
Context (upgrade : Z) (limits : BlockLimits) (engine : evm_engine (@world C F)).
Notation node := (@node C F).
Notation Nd := (GoM node chain_err).
Notation wgood := (wgood Keccak256 shardID totalShards).
Notation exec_spec := (exec_spec Keccak256 shardID totalShards).

Definition nd_world (n : node) : @world C F := ws_world (nd_ws n).

(** The node holds the accounts [L] and the stored nonces [N]. *)
Record holds (N : gmap string Z) (L : ledger) (n : node) : Prop := MkHolds {
  hd_good : wgood (nd_world n);
  hd_nonces : nonce_rel N (kv_of n);
  hd_ledger : abs (w_am (nd_world n)) = L
}.

(** Writes elsewhere in the database. *)
Definition same_money (d d' : KV) : Prop :=
  (forall k, kv_data d' !! AccountKey k = kv_data d !! AccountKey k) /\
  (forall k, kv_data d' !! NonceKey k = kv_data d !! NonceKey k) /\ (quiet d -> quiet d').

#[local] Instance same_money_trans : Transitive same_money.
Proof. intros a b c (Ha & Hb & Hc) (Ha' & Hb' & Hc'). split_and!; [intros k; by rewrite Ha', Ha|intros k; by rewrite Hb', Hb|tauto]. Qed.
Lemma money_view d d' : same_money d d' -> accounts_view d' = accounts_view d.
Proof. intros (Ha & _). apply map_eq. intros k. rewrite !accounts_view_lookup. by rewrite Ha. Qed.

Lemma holds_world N L n n' : nd_world n' = nd_world n -> holds N L n -> holds N L n'.
Proof. intros Hw [? ? ?]. unfold kv_of in *. split; unfold kv_of; change (ws_world (nd_ws n')) with (nd_world n'); by rewrite Hw. Qed.

Lemma holds_change N L n n' :
  same_money (kv_of n) (kv_of n') ->
  w_locks (nd_world n') = w_locks (nd_world n) -> set_db (kv_of n) (w_am (nd_world n')) = w_am (nd_world n) ->
  holds N L n -> holds N L n'.
Proof.
  intros (Ha & Hn & Hq) Hl Ham [[Hg Hqu Hlo] HN HL].
  assert (Hview : accounts_view (kv_of n') = accounts_view (kv_of n)) by by apply money_view.
  assert (Hh : heap (w_am (nd_world n')) = heap (w_am (nd_world n))) by by rewrite <-Ham.
  assert (Hc : cache (w_am (nd_world n')) = cache (w_am (nd_world n))) by by rewrite <-Ham.
  split.
  - split; [|by apply Hq|by rewrite Hl]. destruct Hg as [Hok Hal Hca Hen]. split.
    + intros k b. change (db (w_am (nd_world n'))) with (kv_of n'). rewrite Ha. apply Hok.
    + rewrite <-Ham in Hal. exact Hal.
    + rewrite Hc. intros k l Hk. destruct (Hca k l Hk) as (a & H1' & H2' & H3'). exists a. rewrite Hh. split_and!; [done|done|].
      intros Hu. specialize (H3' Hu). change (dbView (db (w_am (nd_world n')))) with (accounts_view (kv_of n')). by rewrite Hview.
    + change (dbView (db (w_am (nd_world n')))) with (accounts_view (kv_of n')). rewrite Hview. exact Hen.
  - intros k. unfold stored_nonce. rewrite Hn. apply HN.
  - rewrite <-HL. unfold abs. change (dbView (db (w_am (nd_world n')))) with (accounts_view (kv_of n')). by rewrite Hview.
Qed.

Lemma SaveTransaction_money tx d : same_money d (snd (snd (SaveTransactionWithIndex (tx, d)))).
Proof.
  unfold SaveTransactionWithIndex, mbind, GoM_bind, wrapM, on_fst.
  destruct (syncTransactionCompatForWrite tx) as [[[]| | |] tx']; simpl; try done.
  unfold on_snd, access, quiet. destruct (kv_io d) as [|[] io] eqn:Hio; cbn; unfold same_money, quiet; cbn; rewrite ?Hio; try done;
    unfold indexed, index_at; (split_and!; [intros k..|done]); repeat case_bool_decide; by rewrite ?lookup_insert_ne.
Qed.

Notation execute_one := (execute_one Keccak256 HexToAddress shardID totalShards ChainID engine).
Notation execute_txs := (execute_txs Keccak256 HexToAddress shardID totalShards ChainID engine).

(** The transactions of a block on nonces and ledger, up to the first that fails. *)
Fixpoint block_spec (txs : list Transaction) (NL : gmap string Z * ledger) : option (bool * (gmap string Z * ledger)) :=
  match txs with
  | [] => Some (true, NL)
  | tx :: txs' =>
      '(b, NL') ← exec_spec tx NL;
      if (b : bool) then block_spec txs' NL' else Some (false, NL')
  end.
Definition block_mint (txs : list Transaction) : Z := total_self_mint ((fun tx => (0, 0, tx)) <$> txs).

Lemma tx_sync_ok tx tx' : normalized tx = Some tx' -> fst (normalizeTransactionCompat tx) = Ok tt.
Proof.
  unfold normalized, normalizeTransactionAmounts, normalizeTransactionCompat, mbind, GoM_bind, canon_field.
  change canonicalizeUint256 with CanonicalizeUint256Bytes.
  destruct (CanonicalizeUint256Bytes (tx_Amount tx)) as [a|e| |] eqn:Ha; try done. simpl.
  destruct (CanonicalizeUint256Bytes (tx_GasPrice tx)) as [g|e| |] eqn:Hg; try done.
Qed.

Lemma execute_one_meets now1 now2 tx N L n :
  plain (tx_Type tx) = true -> holds N L n -> supply L + mint_of tx < two256 ->
  match exec_spec tx (N, L) with
  | Some (b, (N', L')) => exists r n', execute_one now1 now2 tx n = (r, n') /\ holds N' L' n' /\
      w_validators (nd_world n') = w_validators (nd_world n) /\
      (if b then is_ok r = true else exists e, r = Err (ExecutionFailed (tx_Id tx) e))
  | None => True
  end.
Proof.
  intros Hp [Hw HN HL] Hs. subst L.
  destruct (execute_meets Keccak256 HexToAddress shardID totalShards ChainID engine tx now1 now2 N (nd_world n) Hp Hw HN Hs)
    as (r & w1 & Hrun & Hres).
  pose proof (execute_frame Keccak256 HexToAddress shardID totalShards ChainID engine tx now1 now2 (nd_world n) Hp (wg_locks _ _ _ _ Hw)) as Hf.
  destruct (exec_spec tx (N, abs (w_am (nd_world n)))) as [[b [N' L']]|] eqn:Hspec; [|done].
  destruct Hres as (Hw1 & HN1 & Habs & Hr). rewrite Hrun in Hf. destruct Hf as (_ & _ & Hval & _).
  unfold Chain.execute_one, on_nd_world, on_ws, on_world. change (ws_world (nd_ws n)) with (nd_world n). rewrite Hrun.
  set (n1 := set_ws _ n). assert (Hh1 : holds N' L' n1) by by split.
  destruct b.
  - destruct Hr as (rc & -> & Hst). rewrite Hst. cbn [Z.eqb]. unfold mbind, GoM_bind, wrapM, on_kv_with.
    change (db (w_am (ws_world (nd_ws n1)))) with (kv_of n1).
    pose proof (SaveTransaction_money tx (kv_of n1)) as Hm.
    assert (Hok : fst (SaveTransactionWithIndex (tx, kv_of n1)) = Ok tt).
    { assert (Hn : exists tx', normalized tx = Some tx').
      { unfold ExecutorSpec.exec_spec in Hspec. destruct (normalized tx); [by eexists|done]. }
      destruct Hn as [tx' Hn]. apply tx_sync_ok in Hn. unfold SaveTransactionWithIndex, mbind, GoM_bind, wrapM, on_fst, syncTransactionCompatForWrite.
      destruct (normalizeTransactionCompat tx) as [rr t]. simpl in Hn. subst rr. simpl. unfold on_snd.
      unfold mbind, GoM_bind. by rewrite access_quiet by apply Hh1. }
    destruct (SaveTransactionWithIndex (tx, kv_of n1)) as [rr [tx' d]]. simpl in Hok, Hm. subst rr. cbn.
    eexists _, _. split; [reflexivity|]. split_and!; [|done|done].
    eapply (holds_change N' L' n1); try done. unfold kv_of, nd_world, n1. cbn. by destruct (w_am w1).
  - destruct r as [?|[rc e]| |]; try done. eexists _, n1. split; [reflexivity|]. split_and!; [done|done|by eexists].
Qed.

Lemma exec_spec_mint tx N L b N' L' : exec_spec tx (N, L) = Some (b, (N', L')) -> supply L' <= supply L + mint_of tx.
Proof.
  intros Hspec. pose proof (exec_spec_supply _ _ _ _ _ _ _ _ _ Hspec). pose proof (burned_mint _ _ _ _ _ _ _ _ _ Hspec) as [Hm Hb].
  destruct b; lia.
Qed.

Lemma execute_txs_meets clock txs : forall i N L n b N' L',
  nd_plain txs -> holds N L n -> supply L + block_mint txs < two256 ->
  block_spec txs (N, L) = Some (b, (N', L')) ->
  exists r n', execute_txs clock i txs n = (r, n') /\ holds N' L' n' /\ w_validators (nd_world n') = w_validators (nd_world n) /\
    (if b then is_ok r = true else exists id e, r = Err (ExecutionFailed id e)).
Proof.
  induction txs as [|tx txs IH]; intros i N L n b N' L' Hp Hh Hs Hspec; cbn [block_spec] in Hspec.
  { injection Hspec as <- <- <-. by eexists _, _. }
  apply Forall_cons in Hp as [Hp1 Hp]. change (block_mint (tx :: txs)) with (mint_of tx + block_mint txs) in Hs.
  pose proof (total_self_mint_nonneg ((fun tx => (0, 0, tx)) <$> txs)) as Hmint.
  fold (block_mint txs) in Hmint.
  cbn [Chain.execute_txs]. unfold mbind at 1, GoM_bind at 1.
  pose proof (execute_one_meets (fst (clock i)) (snd (clock i)) tx N L n Hp1 Hh ltac:(lia)) as H1'.
  destruct (exec_spec tx (N, L)) as [[b1 [N1 L1]]|] eqn:He; [|done]. cbn [mbind option_bind] in Hspec.
  destruct H1' as (r & n1 & -> & Hh1 & Hv1 & Hr). pose proof (exec_spec_mint _ _ _ _ _ _ He) as Hm1.
  destruct b1.
  - destruct r as [t| | |]; try done.
    destruct (IH (S i) N1 L1 n1 b N' L' Hp Hh1 ltac:(lia) Hspec) as (r2 & n2 & Hrun & Hh2 & Hv2 & Hr2).
    unfold mbind, GoM_bind. rewrite Hrun.
    destruct r2 as [ts|e| |]; (eexists _, n2; split; [reflexivity|]; split_and!; [done|congruence|destruct b; naive_solver]).
  - injection Hspec as <- <- <-. destruct Hr as [e ->]. eexists _, n1. split; [reflexivity|]. split_and!; [done|done|by eexists _, _].
Qed.

(** ** Committing *)

Definition validator_canonical (v : Validator) : Prop := normalizeValidatorCompat v = (Ok tt, v).

Lemma sync_all_canonical {X} (sync : GoM X u256_err unit) l : Forall (fun x => sync x = (Ok tt, x)) l -> sync_all sync l = (Ok tt, l).
Proof. induction 1 as [|x l Hx _ IH]; [done|]. simpl. by rewrite Hx, IH. Qed.

Lemma put_same {X} (key : X -> string) (data : X -> blob) l (m : gmap string blob) :
  Forall (fun x => m !! key x = Some (data x)) l -> foldl (fun m x => <[key x := data x]> m) m l = m.
Proof. induction 1 as [|x l Hx _ IH]; [done|]. simpl. by rewrite insert_id by done. Qed.

Lemma objects_elem {V} (m : gmap string V) v : v ∈ objects m -> exists k, m !! k = Some v.
Proof. intros (k & _ & Hk)%list_elem_of_omap. by exists k. Qed.

Lemma write_back_same (m : gmap string Validator) : write_back (map_order m) (objects m) m = m.
Proof.
  unfold write_back, objects. assert (Hk : Forall (fun k => is_Some (m !! k)) (map_order m)).
  { apply Forall_forall. intros k Hk. by apply map_order_elem, elem_of_dom in Hk. }
  induction Hk as [|k keys [v Hv] _ IH]; [done|]. cbn [omap list_omap]. rewrite Hv. simpl. by rewrite insert_id by done.
Qed.

Lemma commit_money b h validators total d :
  block_canonical b -> blk_Header b = Some h -> quiet d -> db_ok d -> Forall validator_canonical validators ->
  exists d', CommitBlock total (MkBatch b (objects (accounts_view d)) validators, d) =
    (Ok tt, (MkBatch b (objects (accounts_view d)) validators, d')) /\ same_money d d'.
Proof.
  intros Hb Hh Hq Hok Hv.
  assert (Hview : forall a, a ∈ objects (accounts_view d) -> kv_data d !! AccountKey (acc_Address a) = Some (JAccount a) /\ canon_account a).
  { intros a (k & Hk)%objects_elem. rewrite accounts_view_lookup in Hk. destruct (kv_data d !! AccountKey k) as [x|] eqn:Hx; [|done].
    destruct (Hok k x Hx) as (a' & -> & Hc & <-). by injection Hk as <-. }
  unfold CommitBlock, mbind, GoM_bind, on_fst, normalize_batch, wrapM, syncBlockCompatForWrite. cbn [bt_block].
  rewrite Hb. cbn [wrap]. rewrite Hh. cbn [bt_accounts bt_validators].
  rewrite (sync_all_canonical syncAccountCompatForWrite), (sync_all_canonical syncValidatorCompatForWrite); [|done|].
  2: { apply Forall_forall. intros a Ha. by apply normalizeAccountCompat_canon, Hview. }
  unfold get, on_snd, mbind, GoM_bind. rewrite access_quiet by done. cbn [bt_block bt_accounts bt_validators modify].
  eexists. split; [reflexivity|]. unfold same_money. cbn [set_data kv_data]. unfold committed_data, put_validators, put_accounts.
  rewrite (put_same (fun a => AccountKey (acc_Address a)) JAccount).
  2: { apply Forall_forall. intros a Ha. rewrite !lookup_insert_ne by done. by apply Hview. }
  split_and!; [intros k..|done]; rewrite (put_others (fun v => ValidatorKey (val_Address v)) JValidator) by done;
    by rewrite !lookup_insert_ne by done.
Qed.

Lemma save_money key b h fees n N L :
  blk_Header b = Some h -> canonicalizeUint256 (hdr_TotalFees h) = Ok fees -> Forall tx_canonical (blk_Transactions b) ->
  (forall b, block_key (key b)) -> holds N L n ->
  exists n', on_kv_with (E:=storage_err) b (save_block_at key) n = (Ok (tt, with_fees h fees b), n') /\ holds N L n' /\ same_money (kv_of n) (kv_of n') /\
    w_validators (nd_world n') = w_validators (nd_world n) /\ ws_chain (nd_ws n') = ws_chain (nd_ws n).
Proof.
  intros Hh Hf Ht Hkey Hhold. unfold on_kv_with. change (db (w_am (ws_world (nd_ws n)))) with (kv_of n).
  rewrite (save_block_run _ b h fees) by (done || apply Hhold). eexists. split; [reflexivity|].
  match goal with |- holds _ _ ?x /\ _ => assert (Hm : same_money (kv_of n) (kv_of x)) end.
  2: { split_and!; [|done..]. eapply (holds_change N L n); try done. unfold kv_of, nd_world. cbn. by destruct (w_am (ws_world (nd_ws n))). }
  unfold same_money. cbn. split_and!; [intros k..|done]; (rewrite lookup_insert_ne; [done|]);
    intros Heq; destruct (Hkey (with_fees h fees b)) as [[? Hk]|[? Hk]]; rewrite Hk in Heq; discriminate Heq.
Qed.

Lemma store_holds b h fees n N L :
  blk_Header b = Some h -> canonicalizeUint256 (hdr_TotalFees h) = Ok fees -> Forall tx_canonical (blk_Transactions b) ->
  holds N L n -> Forall validator_canonical (objects (w_validators (nd_world n))) ->
  exists n', store_block b id n = (Ok (with_fees h fees b), n') /\ holds N L n' /\ same_money (kv_of n) (kv_of n') /\
    w_validators (nd_world n') = w_validators (nd_world n) /\ ws_chain (nd_ws n') = ws_chain (nd_ws n).
Proof.
  intros Hh Hf Ht Hhold Hv. destruct (block_normalized b h fees Hh Hf Ht) as [_ Hcan]. set (b' := with_fees h fees b) in *.
  unfold store_block, SaveBlock. unfold mbind at 1, GoM_bind at 1. unfold wrapM at 1.
  destruct (save_money (fun b => BlockKey (blk_Hash b)) b h fees n N L Hh Hf Ht) as (n1 & -> & Hh1 & Hm1 & Hv1 & Hc1); [|done|].
  { intros x. left. by eexists. }
  cbn [wrap snd]. fold b'. unfold mbind at 1, GoM_bind at 1, modify at 1, id at 1. unfold mbind at 1, GoM_bind at 1. unfold wrapM at 1.
  assert (Hby : on_kv_with (C:=C) (F:=F) b' SaveBlockByHeight n1 = on_kv_with b' (save_block_at (fun _ => BlockHeightKey (hdr_Index h))) n1) by done.
  rewrite Hby. destruct (save_money (fun _ => BlockHeightKey (hdr_Index h)) b' (set_TotalFees fees h) fees n1 N L eq_refl (canonicalize_idem _ _ Hf) Ht)
    as (n2 & -> & Hh2 & Hm2 & Hv2 & Hc2); [|done|]. { intros x. right. by eexists. }
  assert (Hb' : with_fees (set_TotalFees fees h) fees b' = b') by (unfold with_fees, b'; by destruct h). rewrite Hb'. cbn [wrap snd].
  unfold commit_all, mbind at 1, GoM_bind at 1. unfold on_ws at 1.
  rewrite (all_accounts_quiet Keccak256 shardID totalShards) by apply Hh2.
  change (dbView (db (w_am (ws_world (nd_ws n2))))) with (accounts_view (kv_of n2)).
  change (db (w_am (ws_world (nd_ws (set_ws (nd_ws n2) n2))))) with (kv_of n2).
  change (ws_world (nd_ws (set_ws (nd_ws n2) n2))) with (nd_world n2).
  destruct (commit_money b' (set_TotalFees fees h) (objects (w_validators (nd_world n2))) (nd_totalTransactions (set_ws (nd_ws n2) n2)) (kv_of n2))
    as (d' & -> & Hm); [done..|apply Hh2|apply Hh2|by rewrite Hv2, Hv1|].
  cbn [bt_validators bt_block]. rewrite write_back_same. eexists. split; [reflexivity|]. split_and!.
  - eapply (holds_change N L n2); try done. unfold kv_of, nd_world. cbn. by destruct (w_am (ws_world (nd_ws n2))).
  - etransitivity; [exact Hm1|]. etransitivity; [exact Hm2|]. exact Hm.
  - cbn. by rewrite Hv2, Hv1.
  - cbn. by rewrite Hc2, Hc1.
Qed.

Lemma update_root {E} n N L :
  ws_mutex (nd_ws n) StateRootMu = unlocked -> holds N L n ->
  exists n', on_ws (updateStateRoot Keccak256 upgrade (E:=E)) n = (Ok tt, n') /\ nd_world n' = nd_world n /\
    (forall x, ws_mutex (nd_ws n') x = ws_mutex (nd_ws n) x) /\
    ch_stateRoot (ws_chain (nd_ws n')) =
      root_of Keccak256 (desiredStateRootEncodingVersionForHeight upgrade (ws_chain (nd_ws n)) (nd_height n))
        (accounts_view (kv_of n)) (w_validators (nd_world n)).
Proof.
  intros Hx Hh. destruct n as [[w c mut] cur lt tt' po ge]. unfold nd_world, kv_of in *. cbn in Hx.
  unfold on_ws, updateStateRoot, apply_version, locked, releasing, mutex_op, mbind, GoM_bind. cbn [ws_mutex ws_world ws_chain nd_ws].
  rewrite Hx. cbn. rewrite (all_accounts_quiet Keccak256 shardID totalShards) by apply Hh. cbn.
  eexists. split; [reflexivity|]. cbn. split_and!; try done. intros y. by destruct y.
Qed.

(** ** The block as a whole *)

Definition accepts (bs : list Block) (b : Block) (h : BlockHeader) : Prop :=
  blk_Header b = Some h /\ next_header bs h /\
  (bs <> [] -> hdr_GasUsed h <= MaxBlockSize limits /\ Z.of_nat (length (blk_Transactions b)) <= MaxTxPerBlock limits).

Lemma validate_accepts bs b h (n : node) :
  quiet (kv_of n) -> represents n bs -> accepts bs b h -> validateBlockForAddition limits (Some b) n = (Ok h, n).
Proof.
  intros Hq Hr (Hh & Hnext & Hlim). unfold validateBlockForAddition, next_header in *. rewrite Hh.
  unfold mbind, GoM_bind. rewrite (current_block _ _ Hq Hr). destruct Hr as [Hheight _ _ _].
  destruct (last bs) as [b0|] eqn:Hlast.
  - pose proof Hlast as Hl. rewrite last_lookup in Hl. destruct (Hheight _ _ Hl) as (_ & h0 & Hh0 & Hi).
    destruct Hnext as (Hidx & Hp & h0' & Hh0' & Hts). rewrite Hh0 in *. injection Hh0' as <-. rewrite Hi.
    assert (Hne : bs <> []) by by intros ->. destruct (Hlim Hne) as [Hg Hn].
    replace (Z.of_nat (pred (length bs)) + 1) with (Z.of_nat (length bs)) by (destruct bs; simpl in *; [done|lia]).
    rewrite Hidx, Z.eqb_refl. cbn. rewrite bool_decide_eq_true_2 by done. cbn.
    rewrite (proj2 (Z.leb_gt _ _)) by lia. cbn. rewrite (proj2 (Z.ltb_ge _ _)) by lia. cbn. rewrite (proj2 (Z.ltb_ge _ _)) by lia. done.
  - destruct Hnext as [-> Hp]. cbn. by rewrite bool_decide_eq_true_2 by done.
Qed.

Notation AddBlock := (AddBlock Keccak256 HexToAddress shardID totalShards ChainID upgrade limits engine).
Notation AddBlockFromSync := (AddBlockFromSync Keccak256 HexToAddress shardID totalShards ChainID upgrade limits engine).
Notation healthy := (healthy unlocked).

Lemma commit_own_holds b h fees txs n N L :
  ws_mutex (nd_ws n) StateRootMu = unlocked -> holds N L n -> canonicalizeUint256 (hdr_TotalFees h) = Ok fees ->
  Forall tx_canonical txs -> Forall validator_canonical (objects (w_validators (nd_world n))) ->
  exists b' h' n', commit_own Keccak256 upgrade b h txs n = (Ok b', n') /\ holds N L n' /\ blk_Header b' = Some h' /\
    hdr_StateRoot h' = ch_stateRoot (ws_chain (nd_ws n')) /\
    hdr_StateRoot h' = root_of Keccak256 (desiredStateRootEncodingVersionForHeight upgrade (ws_chain (nd_ws n)) (nd_height n))
                         (accounts_view (kv_of n')) (w_validators (nd_world n')).
Proof.
  intros Hmu Hh Hf Htx Hv. unfold commit_own. unfold mbind at 1, GoM_bind at 1.
  destruct (update_root (E:=chain_err) n N L Hmu Hh) as (n1 & -> & Hw1 & Hmu1 & Hroot).
  unfold mbind at 1, GoM_bind at 1, get at 1. unfold mbind at 1, GoM_bind at 1.
  assert (Hrv : exists v n2, read_version (E:=chain_err) n1 = (Ok v, n2) /\ nd_world n2 = nd_world n1 /\ ws_chain (nd_ws n2) = ws_chain (nd_ws n1)).
  { pose proof (nd_locked_run (E:=chain_err) R StateRootMu (fun n => (Ok (ws_GetStateRootEncodingVersion (ws_chain (nd_ws n))), n)) n1
      ltac:(by rewrite Hmu1)) as Hl. eexists _, _. split; [apply Hl; [done|by rewrite with_mutex_eq]|done]. }
  destruct Hrv as (v & n2 & -> & Hw2 & Hc2). rewrite <-Hw2 in Hw1.
  pose proof (holds_world N L n n2 Hw1 Hh) as Hh2.
  destruct (store_holds (with_header (set_StateRoot (ch_stateRoot (ws_chain (nd_ws n1))) v h) txs b)
    (set_StateRoot (ch_stateRoot (ws_chain (nd_ws n1))) v h) fees n2 N L eq_refl Hf Htx Hh2) as (n3 & -> & Hh3 & Hm3 & Hv3 & Hc3); [by rewrite Hw1|].
  eexists _, _, n3. split_and!; [reflexivity|done|reflexivity|cbn; by rewrite Hc3, Hc2|].
  cbn. rewrite Hroot, (money_view _ _ Hm3), Hv3. unfold kv_of. change (ws_world (nd_ws n2)) with (nd_world n2). by rewrite Hw1.
Qed.

Notation add_own clock b := (add_body Keccak256 HexToAddress shardID totalShards ChainID limits engine (fun _ => mret tt)
  (commit_own Keccak256 upgrade b) clock b).

(** The outcome of a block whose transactions all succeed, or not: stored with the
    root of the accounts there are then, or refused. *)
Definition outcome_of (bs : list Block) (ok : bool) (r : outcome chain_err Block) (n' : node) : Prop :=
  if ok then exists b' h' version, r = Ok b' /\ blk_Header b' = Some h' /\ hdr_StateRoot h' = ch_stateRoot (ws_chain (nd_ws n')) /\
    hdr_StateRoot h' = root_of Keccak256 version (accounts_view (kv_of n')) (w_validators (nd_world n'))
  else represents n' bs /\ exists id e, r = Err (ExecutionFailed id e).

Lemma add_own_holds clock b bs h n N L ok N' L' :
  ChainSpec.healthy (MkRW true 0) n -> represents n bs -> accepts bs b h -> admissible b -> holds N L n ->
  supply L + block_mint (blk_Transactions b) < two256 -> Forall validator_canonical (objects (w_validators (nd_world n))) ->
  block_spec (blk_Transactions b) (N, L) = Some (ok, (N', L')) ->
  exists r n', add_own clock b n = (r, n') /\ holds N' L' n' /\ outcome_of bs ok r n'.
Proof.
  intros Hhl Hr Hacc Had Hhold Hs Hv Hspec. unfold add_body. unfold mbind at 1, GoM_bind at 1.
  rewrite (validate_accepts bs b h n (hl_quiet _ _ Hhl) Hr Hacc).
  unfold mbind at 1, GoM_bind at 1, mret at 1, GoM_ret at 1. unfold mbind at 1, GoM_bind at 1.
  pose proof (execute_txs_good Keccak256 HexToAddress shardID totalShards ChainID engine clock (blk_Transactions b) 0%nat n
    (ad_plain _ Had) (hl_locks _ _ Hhl)) as (_ & Hf1 & Hcan).
  destruct (execute_txs_meets clock (blk_Transactions b) 0%nat N L n ok N' L' (ad_plain _ Had) Hhold Hs Hspec)
    as (r & n1 & Hrun & Hh1 & Hv1 & Hr1). rewrite Hrun in *. cbn [fst snd] in *.
  destruct ok; [|destruct Hr1 as (id & e & ->); eexists _, n1; split; [reflexivity|]; split; [done|]; split; [by apply (represents_frame n); [|apply Hhl|]|by eexists _, _]].
  destruct r as [txs| | |]; try done. destruct (Hcan txs eq_refl) as [Htx _].
  unfold mbind at 1, GoM_bind at 1, modify at 1. destruct Hacc as (Hhead & _). destruct (fees_of b h Had Hhead) as [fees Hfees].
  match goal with |- context [commit_own _ _ _ _ _ ?x] => set (n2 := x) end.
  destruct (commit_own_holds b h fees txs n2 N' L') as (b' & h' & n' & -> & Hh' & Hb' & Hroot1 & Hroot2); try done.
  - change (ws_mutex (nd_ws n1) StateRootMu = unlocked). rewrite (fr_mutex _ _ Hf1). apply Hhl.
  - by apply (holds_world N' L' n1).
  - change (nd_world n2) with (nd_world n1). by rewrite Hv1.
  - eexists _, n'. split; [reflexivity|]. split; [done|]. by eexists b', h', _.
Qed.

(** What the world state's own path does with a block the checks accept. *)
Lemma AddBlock_run clock b bs h n N L ok N' L' :
  healthy n -> represents n bs -> Z.of_nat (length bs) < two63 -> accepts bs b h -> admissible b -> holds N L n ->
  supply L + block_mint (blk_Transactions b) < two256 -> Forall validator_canonical (objects (w_validators (nd_world n))) ->
  block_spec (blk_Transactions b) (N, L) = Some (ok, (N', L')) ->
  exists r n', AddBlock clock (Some b) n = (r, n') /\ extended bs b r n' /\ holds N' L' n' /\ outcome_of bs ok r n'.
Proof.
  intros Hhl Hr Hlen Hacc Had Hhold Hs Hv Hspec. rewrite AddBlock_body.
  pose proof (nd_locked_run W ChainMu (add_own clock b) n (hl_chain _ _ Hhl)) as Hlock.
  set (n0 := with_mutex ChainMu (held W) n) in *.
  assert (Hhold0 : holds N L n0) by by destruct Hhold. assert (Hr0 : represents n0 bs) by by destruct Hr.
  assert (Hin : ChainSpec.healthy (MkRW true 0) n0) by by destruct Hhl.
  pose proof (add_own_inside Keccak256 HexToAddress shardID totalShards ChainID upgrade limits engine clock b bs n0 Had Hin Hr0 Hlen) as Hinside.
  destruct (add_own_holds clock b bs h n0 N L ok N' L' Hin Hr0 Hacc Had Hhold0 Hs Hv Hspec) as (r & n' & Hrun & Hh' & Hout).
  rewrite Hrun in *. destruct Hinside as (Hnh & Hin' & Hext). exists r. eexists. split; [apply Hlock; [done|apply Hin']|].
  split_and!; [by apply extended_mutex|by apply (holds_world N' L' n')|].
  destruct ok; [done|]. destruct Hout as [? ?]. split; [by apply represents_mutex|done].
Qed.

(** ** Properties *)

Inductive chain_call : Type := Own (clock : nat -> Z * Z) (b : Block) | Foreign (clock : nat -> Z * Z) (b : Block).
Definition block_of (c : chain_call) : Block := match c with Own _ b | Foreign _ b => b end.
Definition run_call (c : chain_call) : Nd Block :=
  match c with Own clock b => AddBlock clock (Some b) | Foreign clock b => AddBlockFromSync clock (Some b) end.
Fixpoint run_calls (calls : list chain_call) (n : node) : list (outcome chain_err Block) * node :=
  match calls with
  | [] => ([], n)
  | c :: calls' => let '(r, n1) := run_call c n in let '(rs, n2) := run_calls calls' n1 in (r :: rs, n2)
  end.

Definition accepted (rs : list (outcome chain_err Block)) : list Block := omap (fun r => match r with Ok b => Some b | _ => None end) rs.

Lemma chain_call_step c bs n :
  admissible (block_of c) -> healthy n -> represents n bs -> Z.of_nat (length bs) < two63 ->
  let '(r, n') := run_call c n in
  r <> Hang /\ healthy n' /\ (root_mismatch r = false -> extended bs (block_of c) r n').
Proof.
  intros Had Hhl Hr Hlen. destruct c as [clock b|clock b]; cbn [run_call block_of] in *.
  - pose proof (AddBlock_step Keccak256 HexToAddress shardID totalShards ChainID upgrade limits engine clock b bs n Had Hhl Hr Hlen) as Hs.
    destruct (AddBlock clock (Some b) n). naive_solver.
  - pose proof (AddBlockFromSync_step Keccak256 HexToAddress shardID totalShards ChainID upgrade limits engine clock b bs n Had Hhl Hr Hlen) as Hs.
    destruct (AddBlockFromSync clock (Some b) n) as [r n']. destruct Hs as (? & ? & [[? ?]|[(x & y & ->) _]]); [done|]. by split_and!.
Qed.

(** C3. The chain only grows, and stays linked.  For any blocks of plain transactions
    with readable fees, added locally or taken from peers in any order, good or bad,
    as long as none is refused for its state root: every call comes back, the blocks
    that were stored are stored still, each new one names its predecessor by hash,
    height and a later time, the head is the last one, and every block a call
    returned with success is among them. *)
Theorem chain_only_grows (calls : list chain_call) : forall (n : node) (bs : list Block),
  Forall (fun c => admissible (block_of c)) calls -> healthy n -> represents n bs ->
  Z.of_nat (length bs + length calls) < two63 ->
  let '(rs, n') := run_calls calls n in
  Forall (fun r => root_mismatch r = false) rs ->
  Forall (fun r => r <> Hang) rs /\ healthy n' /\
  exists added, represents n' (bs ++ added) /\ accepted rs `sublist_of` added.
Proof.
  induction calls as [|c calls IH]; intros n bs Had Hhl Hr Hlen; cbn [run_calls].
  { intros _. split_and!; [done..|]. exists []. by rewrite app_nil_r. }
  apply Forall_cons in Had as [Had1 Had]. cbn [length] in Hlen.
  pose proof (chain_call_step c bs n Had1 Hhl Hr ltac:(lia)) as Hs. destruct (run_call c n) as [r n1]. destruct Hs as (Hh & Hhl1 & Hext).
  assert (Hcase : root_mismatch r = false -> exists new, represents n1 (bs ++ new) /\ accepted [r] `sublist_of` new /\ (length new <= 1)%nat).
  { intros [[Hr1 Hno]|(b' & Hr1 & _ & Hx)]%Hext; [exists []|exists [b']; split_and!; [done| |done]].
    - rewrite app_nil_r. split_and!; [done| |simpl; lia]. unfold accepted. simpl. destruct r; try done. by destruct (Hno a).
    - unfold accepted. simpl. destruct r as [x| | |]; try (apply sublist_cons, sublist_nil). by rewrite (Hx x eq_refl). }
  destruct (run_calls calls n1) as [rs n2] eqn:Hrest. intros [Hm Hms]%Forall_cons. destruct (Hcase Hm) as (new & Hr1 & Hsub & Hnew).
  specialize (IH n1 (bs ++ new) Had Hhl1 Hr1). rewrite Hrest in IH.
  destruct IH as (Hhs & Hhl2 & added & Hr2 & Hsub2); [rewrite length_app; lia|done|].
  split_and!; [by constructor|done|]. exists (new ++ added). rewrite app_assoc. split; [done|].
  change (accepted (r :: rs)) with (omap (fun r => match r with Ok b => Some b | _ => None end) ([r] ++ rs)).
  rewrite omap_app. by apply sublist_app.
Qed.

Lemma empty_refuses clock b h (n : node) :
  healthy n -> represents n [] -> blk_Header b = Some h -> hdr_Index h <> 0 ->
  fst (AddBlock clock (Some b) n) = Err (FirstNotGenesis (hdr_Index h)).
Proof.
  intros Hhl Hr Hh Hi. rewrite AddBlock_body.
  pose proof (nd_locked_run W ChainMu (add_own clock b) n (hl_chain _ _ Hhl)) as Hlock.
  assert (Hbody : add_own clock b (with_mutex ChainMu (held W) n) = (Err (FirstNotGenesis (hdr_Index h)), with_mutex ChainMu (held W) n)).
  { unfold add_body, validateBlockForAddition, mbind, GoM_bind. rewrite Hh. rewrite (current_block _ []); [|apply Hhl|by apply represents_mutex].
    cbn [last]. by rewrite (proj2 (Z.eqb_neq _ _) Hi). }
  rewrite Hbody in Hlock. by rewrite Hlock by (done || by rewrite with_mutex_eq).
Qed.

(** C30. A block from a peer with a wrong state root makes the node forget its chain.
    The head is moved before the root is compared and not moved back: afterwards
    the node finds no current block, and refuses every block that is not a genesis
    block, the right successor of its old head included. *)
Theorem root_mismatch_forgets_the_chain clock b bs (n : node) x y n' :
  admissible b -> healthy n -> represents n bs -> Z.of_nat (length bs) < two63 ->
  kv_data (kv_of n) !! BlockKey (blk_Hash b) = None -> kv_data (kv_of n) !! BlockHeightKey (Z.of_nat (length bs)) = None ->
  AddBlockFromSync clock (Some b) n = (Err (RootMismatchInSync x y), n') ->
  fst (GetCurrentBlock (E:=chain_err) n') = Ok None /\
  forall clock2 b2 h2, blk_Header b2 = Some h2 -> hdr_Index h2 <> 0 ->
    fst (AddBlock clock2 (Some b2) n') = Err (FirstNotGenesis (hdr_Index h2)).
Proof.
  intros Had Hhl Hr Hlen Hhash Hheight Hrun.
  pose proof (AddBlockFromSync_step Keccak256 HexToAddress shardID totalShards ChainID upgrade limits engine clock b bs n Had Hhl Hr Hlen) as Hs.
  rewrite Hrun in Hs. destruct Hs as (_ & Hhl' & [[? ?]|(_ & [Hsb _] & Hcur & h & Hh & Hnext & Hhei)]); [done|].
  assert (Hempty : represents n' []).
  { split; [done..|]. cbn [last]. rewrite Hcur, Hhei, (next_index bs h Hnext Hlen). rewrite !Hsb; [done|right; by eexists|left; by eexists]. }
  split; [|intros clock2 b2 h2; by apply empty_refuses].
  unfold GetCurrentBlock. pose proof (nd_locked_run (E:=chain_err) R ChainMu getCurrentBlockUnsafe n' (hl_chain _ _ Hhl')) as Hlock.
  rewrite (current_block _ []) in Hlock; [|apply Hhl'|by apply represents_mutex]. by rewrite Hlock by (done || by rewrite with_mutex_eq).
Qed.

(** C2. A block is the ledger's step.  A block that follows the head, within the
    limits, whose transactions the ledger applies one after the other, is added:
    the node then holds exactly the accounts and the nonces of the ledger, the
    block is the new head, and the state root it is stored with is the hash of the
    accounts and the validators there are then. *)
Theorem block_commits_the_ledger clock b bs h (n : node) N L N' L' :
  healthy n -> represents n bs -> Z.of_nat (length bs) < two63 -> accepts bs b h -> admissible b -> holds N L n ->
  supply L + block_mint (blk_Transactions b) < two256 -> Forall validator_canonical (objects (w_validators (nd_world n))) ->
  block_spec (blk_Transactions b) (N, L) = Some (true, (N', L')) ->
  exists b' h' version n', AddBlock clock (Some b) n = (Ok b', n') /\ represents n' (bs ++ [b']) /\ holds N' L' n' /\
    blk_Header b' = Some h' /\ hdr_StateRoot h' = ch_stateRoot (ws_chain (nd_ws n')) /\
    hdr_StateRoot h' = root_of Keccak256 version (accounts_view (kv_of n')) (w_validators (nd_world n')).
Proof.
  intros Hhl Hr Hlen Hacc Had Hhold Hs Hv Hspec.
  destruct (AddBlock_run clock b bs h n N L true N' L' Hhl Hr Hlen Hacc Had Hhold Hs Hv Hspec)
    as (r & n' & Hrun & Hext & Hh' & b' & h' & v & -> & Hb' & Hroot1 & Hroot2).
  exists b', h', v, n'. split_and!; try done. destruct Hext as [[_ Hno]|(b2 & Hr2 & _ & Hx)]; [by destruct (Hno b')|].
  by rewrite (Hx b' eq_refl).
Qed.

(** C31. A refused block is not undone.  When a transaction of the block fails, the
    call returns an error and no block is added, but the node keeps everything the
    transactions before it did, and the nonce the failing one consumed: it holds
    the ledger from the middle of a block that is not in its chain. *)
Theorem refused_block_is_not_undone clock b bs h (n : node) N L N' L' :
  healthy n -> represents n bs -> Z.of_nat (length bs) < two63 -> accepts bs b h -> admissible b -> holds N L n ->
  supply L + block_mint (blk_Transactions b) < two256 -> Forall validator_canonical (objects (w_validators (nd_world n))) ->
  block_spec (blk_Transactions b) (N, L) = Some (false, (N', L')) ->
  exists id e n', AddBlock clock (Some b) n = (Err (ExecutionFailed id e), n') /\ represents n' bs /\ holds N' L' n'.
Proof.
  intros Hhl Hr Hlen Hacc Had Hhold Hs Hv Hspec.
  destruct (AddBlock_run clock b bs h n N L false N' L' Hhl Hr Hlen Hacc Had Hhold Hs Hv Hspec)
    as (r & n' & Hrun & _ & Hh' & Hr' & id & e & ->). by exists id, e, n'.
Qed.

Lemma restamped_hash b b' h h' :
  blk_Header b = Some h -> blk_Header b' = Some h' -> restamped h h' -> blk_Hash b' = blk_Hash b ->
  hdr_StateEncodingVersion h' = hdr_StateEncodingVersion h -> length (bytes_of_string (hdr_StateRoot h')) = length (bytes_of_string (hdr_StateRoot h)) ->
  verifyBlockHash Keccak256 b = Ok tt -> verifyBlockHash Keccak256 b' = Ok tt ->
  hdr_StateRoot h' = hdr_StateRoot h \/ collision Keccak256.
Proof.
  intros Hb Hb' (root & v & fees & ->) Hhash Hver Hlen V V'.
  destruct (verifyBlockHash_ok _ _ _ Hb V) as (f & F1 & E1), (verifyBlockHash_ok _ _ _ Hb' V') as (f' & F2 & E2).
  rewrite E1, E2 in Hhash. apply EncodeToString_inj in Hhash.
  destruct (decide (header_bytes (set_TotalFees fees (set_StateRoot root v h)) f' = header_bytes h f)) as [Heq|Hne].
  2: { right. eexists _, _. split; [exact Hne|]. unfold NewHash. by rewrite Hhash. }
  left. cbn in *. subst v.
  unfold header_bytes in Heq. cbn [hdr_Index hdr_PrevHash hdr_Timestamp hdr_Validator hdr_TxRoot hdr_StateEncodingVersion hdr_StateRoot set_TotalFees set_StateRoot] in Heq.
  do 6 apply app_inv_head in Heq. apply app_inj_1 in Heq as [Heq _]; [|done]. by apply bytes_of_string_inj.
Qed.

(** An added block no longer has its hash.  Adding a block writes the new state
    root into its header after the hash was computed, and the hash covers the
    header.  So the block that is stored and handed to peers fails the hash check,
    unless its producer had already put the root it would lead to, or the hash
    function has a collision. *)
Theorem added_block_fails_its_hash clock b b' bs (n : node) n' h h' :
  admissible b -> healthy n -> represents n bs -> Z.of_nat (length bs) < two63 ->
  blk_Header b = Some h -> verifyBlockHash Keccak256 b = Ok tt ->
  AddBlock clock (Some b) n = (Ok b', n') -> blk_Header b' = Some h' ->
  hdr_StateEncodingVersion h' = hdr_StateEncodingVersion h -> length (bytes_of_string (hdr_StateRoot h')) = length (bytes_of_string (hdr_StateRoot h)) ->
  hdr_StateRoot h' = hdr_StateRoot h \/ verifyBlockHash Keccak256 b' <> Ok tt \/ collision Keccak256.
Proof.
  intros Had Hhl Hr Hlen Hb V Hrun Hb' Hver Hl.
  pose proof (AddBlock_step Keccak256 HexToAddress shardID totalShards ChainID upgrade limits engine clock b bs n Had Hhl Hr Hlen) as Hs.
  rewrite Hrun in Hs. destruct Hs as (_ & _ & [[_ Hno]|(b2 & _ & (Hhash & h0 & h0' & Hh0 & Hh0' & Hst) & Hx)]); [by destruct (Hno b')|].
  rewrite <-(Hx b' eq_refl) in *. rewrite Hb in Hh0. rewrite Hb' in Hh0'. injection Hh0 as <-. injection Hh0' as <-.
  destruct (verifyBlockHash Keccak256 b') as [[]|e| |] eqn:V'; [|by right; left..].
  destruct (restamped_hash b b' h h' Hb Hb' Hst Hhash Hver Hl V V'); [by left|by do 2 right].
Qed.
End Effects.

(** ** A concrete chain *)

Module Demo.
#[local] Instance demo_LRU3 : LRU (list (string * loc)) := list_LRU 1.
#[local] Instance demo_LRU3_laws : LRULaws (list (string * loc)) := list_LRU_laws 1.
#[local] Instance demo_float3 : Float64 permille := permille_float.
#[local] Instance demo_json3 {A} `{Countable A} : Json A := text_codec.

Definition demo_limits : BlockLimits := MkBlockLimits 1000000 10.
Definition demo_node : @node (list (string * loc)) permille :=
  MkNode (MkWS (boot demo_kv) (MkChain (-1) "" 0) (fun _ => unlocked)) "" 0 0 (NewPool 0 1 10 "1") false.
Definition demo_clock : nat -> Z * Z := fun _ => (0, 0).
Definition demo_block (index : Z) (prev hash root : string) (txs : list Transaction) : Block :=
  MkBlock (Some (MkBlockHeader index prev (1000 + index) "val" "" root 0 0 0 0 [] "" [] [] 0)) txs hash [] [].
Definition genesis : Block := demo_block 0 "" "g" "r0" [].
Definition pays : Block := demo_block 1 "g" "h1" "" [demo_tx TRANSFER alice bob (10 ^ 19) 0].
Notation demo_calls := (run_calls no_hash id BeaconShardID 1 "1" 1000 demo_limits no_engine).

Lemma node_healthy : healthy unlocked demo_node.
Proof. by split. Qed.
Lemma node_empty : represents demo_node [].
Proof. split; [done..|]. split; vm_compute; reflexivity. Qed.
Lemma demo_admissible i p h r txs : nd_plain txs -> admissible (demo_block i p h r txs).
Proof. intros Ht. split; [done|]. by intros hd [= <-]. Qed.

Definition calls : list chain_call :=
  [Own demo_clock genesis; Own demo_clock (demo_block 2 "g" "h2" "" []); Own demo_clock pays; Foreign demo_clock (demo_block 2 "h1" "h2" "" [])].

Lemma chain_only_grows_witness :
  exists added, represents (snd (demo_calls calls demo_node)) added /\ (3 <= length added)%nat /\
  fst (demo_calls calls demo_node) !! 1%nat = Some (Err (WrongIndex 1 2)).
Proof.
  pose proof (chain_only_grows no_hash id BeaconShardID 1 "1" 1000 demo_limits no_engine calls demo_node []
    ltac:(repeat constructor; intros ? [= <-]; reflexivity) node_healthy node_empty ltac:(vm_compute; reflexivity)) as Hg.
  rewrite (surjective_pairing (demo_calls calls demo_node)) in Hg.
  destruct Hg as (_ & _ & added & Hr & Hsub); [vm_compute; repeat constructor|].
  exists added. split; [exact Hr|]. split; [|vm_compute; reflexivity].
  apply sublist_length in Hsub. etransitivity; [|exact Hsub]. vm_compute. repeat constructor.
Defined.

(** After the genesis block. *)
Notation demo_add := (AddBlock no_hash id BeaconShardID 1 "1" 1000 demo_limits no_engine demo_clock).
Definition started : @node (list (string * loc)) permille := snd (demo_add (Some genesis) demo_node).
Lemma started_chain : healthy unlocked started /\ exists g, represents started [g] /\ blk_Hash g = "g" /\
  exists h, blk_Header g = Some h /\ hdr_Timestamp h = 1000.
Proof.
  pose proof (AddBlock_step no_hash id BeaconShardID 1 "1" 1000 demo_limits no_engine demo_clock genesis [] demo_node
    ltac:(apply demo_admissible; constructor) node_healthy node_empty ltac:(vm_compute; reflexivity)) as Hs.
  rewrite (surjective_pairing (AddBlock _ _ _ _ _ _ _ _ _ _ _)) in Hs. destruct Hs as (_ & Hhl & Hext). split; [exact Hhl|].
  destruct Hext as [[_ Hno]|(g & Hr & (Hg & h & h' & Hh & Hh' & Hst) & _)].
  - destruct (Hno (match fst (demo_add (Some genesis) demo_node) with Ok b => b | _ => genesis end)). vm_compute. reflexivity.
  - exists g. split_and!; [exact Hr|exact Hg|]. exists h'. split; [done|]. destruct Hst as (? & ? & ? & ->). by injection Hh as <-.
Qed.

Lemma root_mismatch_forgets_the_chain_witness :
  let n' := snd (AddBlockFromSync no_hash id BeaconShardID 1 "1" 1000 demo_limits no_engine demo_clock
                   (Some (demo_block 1 "g" "h1" "bad" [])) started) in
  fst (demo_add (Some pays) started) <> Err (FirstNotGenesis 1) /\ fst (demo_add (Some pays) n') = Err (FirstNotGenesis 1).
Proof.
  intros n'. split; [vm_compute; discriminate|].
  destruct started_chain as (Hhl & g & Hr & _).
  apply (root_mismatch_forgets_the_chain no_hash id BeaconShardID 1 "1" 1000 demo_limits no_engine demo_clock
    (demo_block 1 "g" "h1" "bad" []) [g] started "bad" "" n'
    ltac:(apply demo_admissible; constructor) Hhl Hr ltac:(vm_compute; reflexivity) ltac:(vm_compute; reflexivity)
    ltac:(vm_compute; reflexivity)) with (h2 := default (MkBlockHeader 0 "" 0 "" "" "" 0 0 0 0 [] "" [] [] 0) (blk_Header pays)); [|reflexivity|discriminate].
  rewrite (surjective_pairing (AddBlockFromSync _ _ _ _ _ _ _ _ _ _ _)). apply (f_equal2 pair); [vm_compute; reflexivity|reflexivity].
Defined.

Lemma started_holds : holds no_hash BeaconShardID 1 ∅ (abs (w_am (boot demo_kv))) started.
Proof.
  destruct (AddBlock_run no_hash id BeaconShardID 1 "1" 1000 demo_limits no_engine demo_clock genesis []
    (default (MkBlockHeader 0 "" 0 "" "" "" 0 0 0 0 [] "" [] [] 0) (blk_Header genesis)) demo_node ∅ (abs (w_am (boot demo_kv))) true ∅
    (abs (w_am (boot demo_kv))) node_healthy node_empty ltac:(vm_compute; reflexivity)
    ltac:(split_and!; [reflexivity|split; reflexivity|done]) ltac:(apply demo_admissible; constructor)) as (r & n' & Hrun & _ & Hh & _).
  - split; [apply boot_good|apply boot_nonces|done].
  - vm_compute. reflexivity.
  - constructor.
  - reflexivity.
  - unfold started. by rewrite Hrun.
Qed.

Lemma started_validators : Forall validator_canonical (objects (w_validators (nd_world started))).
Proof. assert (Hv : w_validators (nd_world started) = ∅) by (vm_compute; reflexivity). rewrite Hv. constructor. Qed.

Definition header1 : BlockHeader := MkBlockHeader 1 "g" 1001 "val" "" "" 0 0 0 0 [] "" [] [] 0.
Lemma started_accepts g hash txs h : represents started [g] -> blk_Hash g = "g" -> blk_Header g = Some h -> hdr_Timestamp h = 1000 ->
  (length txs <= 10)%nat -> accepts demo_limits [g] (demo_block 1 "g" hash "" txs) header1.
Proof.
  intros Hr Hg Hh Ht Hl. split_and!; [reflexivity| |intros _; split; [vm_compute; discriminate|cbn; lia]].
  split_and!; [reflexivity|by rewrite Hg|]. exists h. split; [done|]. rewrite Ht. reflexivity.
Qed.

Lemma block_result txs ok x :
  (fun r => (fst r, bal (entry (snd (snd r)) bob))) <$> block_spec no_hash BeaconShardID 1 txs (∅, abs (w_am (boot demo_kv))) = Some (ok, x) ->
  exists N' L', block_spec no_hash BeaconShardID 1 txs (∅, abs (w_am (boot demo_kv))) = Some (ok, (N', L')) /\ bal (entry L' bob) = x.
Proof. destruct (block_spec _ _ _ txs _) as [[ok' [N' L']]|]; [|done]. simpl. intros [= -> <-]. eauto. Qed.

Lemma block_commits_the_ledger_witness :
  exists b' n', demo_add (Some pays) started = (Ok b', n') /\ bal (entry (abs (w_am (nd_world n'))) bob) = 10 ^ 19.
Proof.
  destruct started_chain as (Hhl & g & Hr & Hg & h & Hh & Ht).
  destruct (block_result (blk_Transactions pays) true (10 ^ 19)) as (N' & L' & Hspec & Hbob); [vm_compute; reflexivity|].
  destruct (block_commits_the_ledger no_hash id BeaconShardID 1 "1" 1000 demo_limits no_engine demo_clock pays [g] header1 started ∅
    (abs (w_am (boot demo_kv))) N' L' Hhl Hr ltac:(vm_compute; reflexivity)
    ltac:(by apply (started_accepts g _ _ h); [..|cbn; lia]) ltac:(apply demo_admissible; repeat constructor) started_holds
    ltac:(vm_compute; reflexivity) started_validators Hspec) as (b' & h' & v & n' & Hrun & _ & Hh' & _).
  exists b', n'. split; [exact Hrun|]. by rewrite (hd_ledger _ _ _ _ _ _ Hh').
Defined.

(** Alice pays Bob, then more than she has left. *)
Definition half : Block := demo_block 1 "g" "h1" "" [demo_tx TRANSFER alice bob (10 ^ 19) 0; demo_tx TRANSFER alice bob (10 ^ 21) 1].
Lemma refused_block_is_not_undone_witness :
  exists id e n', demo_add (Some half) started = (Err (ExecutionFailed id e), n') /\ bal (entry (abs (w_am (nd_world n'))) bob) = 10 ^ 19.
Proof.
  destruct started_chain as (Hhl & g & Hr & Hg & h & Hh & Ht).
  destruct (block_result (blk_Transactions half) false (10 ^ 19)) as (N' & L' & Hspec & Hbob); [vm_compute; reflexivity|].
  destruct (refused_block_is_not_undone no_hash id BeaconShardID 1 "1" 1000 demo_limits no_engine demo_clock half [g] header1 started ∅
    (abs (w_am (boot demo_kv))) N' L' Hhl Hr ltac:(vm_compute; reflexivity)
    ltac:(by apply (started_accepts g _ _ h); [..|cbn; lia]) ltac:(apply demo_admissible; repeat constructor) started_holds
    ltac:(vm_compute; reflexivity) started_validators Hspec) as (id' & e & n' & Hrun & _ & Hh').
  exists id', e, n'. split; [exact Hrun|]. by rewrite (hd_ledger _ _ _ _ _ _ Hh').
Defined.

(** A hash that covers the state root. *)
Definition tail_hash (x : list byte) : list byte := resize 32 x00 (drop 40 (rev x)).
Definition no_header : BlockHeader := MkBlockHeader 0 "" 0 "" "" "" 0 0 0 0 [] "" [] [] 0.
Definition own_header : BlockHeader :=
  MkBlockHeader 0 "" 1000 "val" "" (EncodeToString (replicate 32 x00)) 0 0 0 0 [] "" [] [] stateRootEncodingVersionLegacy.
Definition own : Block :=
  let b := MkBlock (Some own_header) [] "" [] [] in
  MkBlock (Some own_header) [] (match CanonicalBlockHash tail_hash (Some b) with Ok s => s | _ => "" end) [] [].
Notation tail_add := (AddBlock tail_hash id BeaconShardID 1 "1" 1000 demo_limits no_engine demo_clock (Some own) demo_node).
Definition own_added : Block := match fst tail_add with Ok b => b | _ => own end.

Lemma added_block_fails_its_hash_witness :
  verifyBlockHash tail_hash own = Ok tt /\ is_ok (verifyBlockHash tail_hash own_added) = false /\
  (hdr_StateRoot (default no_header (blk_Header own_added)) = hdr_StateRoot own_header \/
   verifyBlockHash tail_hash own_added <> Ok tt \/ collision tail_hash).
Proof.
  assert (Hv : verifyBlockHash tail_hash own = Ok tt) by (vm_compute; reflexivity).
  split_and!; [exact Hv|vm_compute; reflexivity|].
  apply (added_block_fails_its_hash tail_hash id BeaconShardID 1 "1" 1000 demo_limits no_engine demo_clock own own_added [] demo_node (snd tail_add)
    own_header (default no_header (blk_Header own_added))).
  - split; [constructor|]. by intros h [= <-].
  - apply node_healthy.
  - apply node_empty.
  - vm_compute. reflexivity.
  - reflexivity.
  - exact Hv.
  - rewrite (surjective_pairing tail_add) at 1. apply (f_equal2 pair); [vm_compute; reflexivity|reflexivity].
  - vm_compute. reflexivity.
  - vm_compute. reflexivity.
  - vm_compute. reflexivity.
Defined.
End Demo.
