(* ===== verification/Blockchain.v ===== *)
(** * The blockchain facade (src/core/chain/blockchain.go)

    What the rest of the node sees of the chain: blocks are checked, handed to the
    consensus engine and to the world state, and the unbonding queue is processed
    after each.  The engine is an interface in the code and a record here; the
    validator manager's part of unbonding is an argument. *)

From S2P Require Import Prelude SafeMath Uint256 Address Storage AccountManager AccountSpec Pool ShardedLock Governance.
From S2P Require Import Domains EvmGas World Executor StateRoot Hashes Keys Wire Blocks Floats Staking BlockDB Chain.
From stdpp Require Import base tactics numbers list gmap strings sorting.
From Stdlib Require Import ZArith Lia Strings.Byte Strings.Ascii.
Open Scope Z_scope.
Open Scope list_scope.

Inductive bc_err : Type :=
| BC_NilBlock
| ForkAtHeight (height : Z) (have received : string)
| GenesisMismatch (local remote : string)
| EmptyHash
| NoValidatorGiven
| TooFarInFuture
| TooManyTxs (got max : Z)
| GasMismatch (header calculated : Z)
| GasOverLimit (total max : Z)
| ConsensusRefused (reason : string)
| SimulationFailed
| SimulatedRootMismatch (block simulated : string)
| BlockExists (hash : string)
| WorldStateRefused (e : chain_err)
| NothingToReorganize
| ReorgTooLong (blocks maximum : Z)
| AncestorNotFound (hash : string)
| ReorgTooDeep (depth maximum : Z)
| ReorgInsecure (reason : string)
| ReorgNotLinked (i : Z)
| ReorgBlockInvalid (i : Z) (e : bc_err)
| ReorgFailed (index : Z) (e : chain_err)
| CreationFailed (e : block_err).

Section Blockchain.
Context `{MapOrder} {C F : Type} `{LRU C} `{Float64 F}.
Context `{Json Proposal, Json ProposalPayload, Json VotePayload, Json FinalizePayload, Json stakeDomainMembers}.
Context (Keccak256 HexToAddress : list byte -> list byte) (shardID totalShards : Z) (ChainID : string).
Context (StateEncodingUpgradeHeight : Z) (limits : BlockLimits).
Context (engine : evm_engine (@world C F)).
Context {Pub Priv : Type} `{Secp256k1 Pub Priv}.
Notation node := (@node C F).

(** [ConsensusEngine], with the fork choice behind [GetForkChoice]. *)
Record ReorgJudge : Type := MkJudge {
  rj_ValidateReorganization : Z -> Z -> string -> string -> option string;
  rj_GetAttestingStake : string -> string;
  rj_GetTotalActiveStake : string
}.
Record ConsensusEngine : Type := MkEngine {
  ce_ValidateBlock : Block -> GoM node string unit;
  ce_IsSyncing : bool;
  ce_forkChoice : option ReorgJudge
}.

Record blockchain : Type := MkBC {
  bc_node : node;
  bc_totalStaked : string;
  bc_unbonding : list UnbondingEntry;
  genesisBlock : option Block;
  totalBlocks : Z;
  bc_totalTransactions : Z;
  averageBlockTime : Z;
  maxReorgDepth : Z;
  consensusEngine : option ConsensusEngine;
  bc_mu : RWMutex;
  blockAdded : list Block;
  txAdded : list Transaction
}.
Notation Bc := (GoM blockchain bc_err).

Definition NewBlockchain (n : node) (MaxReorgDepth : Z) : blockchain :=
  MkBC n "" [] None 0 0 0 (if MaxReorgDepth <=? 0 then 100 else MaxReorgDepth) None unlocked [] [].

Definition bc_set_node (n : node) (b : blockchain) : blockchain :=
  MkBC n (bc_totalStaked b) (bc_unbonding b) (genesisBlock b) (totalBlocks b) (bc_totalTransactions b) (averageBlockTime b)
    (maxReorgDepth b) (consensusEngine b) (bc_mu b) (blockAdded b) (txAdded b).
Definition bc_set_mu (m : RWMutex) (b : blockchain) : blockchain :=
  MkBC (bc_node b) (bc_totalStaked b) (bc_unbonding b) (genesisBlock b) (totalBlocks b) (bc_totalTransactions b) (averageBlockTime b)
    (maxReorgDepth b) (consensusEngine b) m (blockAdded b) (txAdded b).
Definition bc_set_counts (blocks txs average : Z) (b : blockchain) : blockchain :=
  MkBC (bc_node b) (bc_totalStaked b) (bc_unbonding b) (genesisBlock b) blocks txs average
    (maxReorgDepth b) (consensusEngine b) (bc_mu b) (blockAdded b) (txAdded b).
Definition bc_set_genesis (g : option Block) (b : blockchain) : blockchain :=
  MkBC (bc_node b) (bc_totalStaked b) (bc_unbonding b) g (totalBlocks b) (bc_totalTransactions b) (averageBlockTime b)
    (maxReorgDepth b) (consensusEngine b) (bc_mu b) (blockAdded b) (txAdded b).
Definition SetEngine (e : option ConsensusEngine) (b : blockchain) : blockchain :=
  MkBC (bc_node b) (bc_totalStaked b) (bc_unbonding b) (genesisBlock b) (totalBlocks b) (bc_totalTransactions b) (averageBlockTime b)
    (maxReorgDepth b) e (bc_mu b) (blockAdded b) (txAdded b).

Definition on_node {E E' A} (f : E -> E') (m : GoM node E A) : GoM blockchain E' A := fun b =>
  let '(r, n) := m (bc_node b) in (wrap f r, bc_set_node n b).

(** [bc.mu.Lock(); defer bc.mu.Unlock()]. *)
Definition bc_locked {E A} (m : mode) (body : GoM blockchain E A) : GoM blockchain E A := fun b =>
  match mutex_call true m (bc_mu b) with
  | Some (Ok l) =>
      let '(r, b1) := body (bc_set_mu l b) in
      match r with
      | Hang => (Hang, b1)
      | _ => match mutex_call false m (bc_mu b1) with
             | Some (Ok l') => (r, bc_set_mu l' b1)
             | _ => (Panic, b1)
             end
      end
  | Some _ => (Panic, b)
  | None => (Hang, b)
  end.

Definition SetConsensusEngine (e : option ConsensusEngine) : Bc unit := bc_locked W (modify (SetEngine e)).
Definition EmergencyStop : Bc unit := bc_locked W (modify (SetEngine None)).
Definition IsRunning : Bc bool := bc_locked R (b ← get; mret (bool_decide (is_Some (consensusEngine b)))).
Definition GetGenesisBlock : Bc (option Block) := bc_locked R (b ← get; mret (genesisBlock b)).

(** ** Reading the chain *)

Definition ws_GetBlock (index : Z) : GoM node storage_err Block :=
  if index <? 0 then throw ErrKeyNotFound else on_kv (GetBlockByHeight index).
Definition ws_GetBlockByHash (hash : string) : GoM node storage_err Block := on_kv (GetBlock hash).

(** [block, err := ws.GetBlock(index)], the error looked at by the caller. *)
Definition try_block {E} (m : GoM node storage_err Block) : GoM blockchain E (option Block) := fun b =>
  let '(r, n) := m (bc_node b) in
  (match r with Ok x => Ok (Some x) | Err _ => Ok None | Panic => Panic | Hang => Hang end, bc_set_node n b).
Definition header_or_panic {E} (b : Block) : GoM blockchain E BlockHeader :=
  match blk_Header b with Some h => mret h | None => panic end.
Definition bc_GetCurrentBlock {E} : GoM blockchain E (option Block) := on_node id (GetCurrentBlock (E:=E)).
Definition bc_GetHeight {E} : GoM blockchain E Z := on_node id (nd_GetHeight (E:=E)).

(** ** Structure *)

Definition total_gas_of (txs : list Transaction) : Z := foldl (fun t tx => i64 (t + tx_Gas tx)) 0 txs.
Definition defaultDrift : Z := 15 * 1000000000.

Definition validateBlockStructure (now maxFuture : Z) (block : Block) : Bc unit :=
  match blk_Header block with
  | None => throw BC_NilBlock
  | Some h =>
      _ ← refuse_if (bool_decide (blk_Hash block = "")) EmptyHash;
      _ ← refuse_if (bool_decide (hdr_Validator h = "")) NoValidatorGiven;
      let maxDrift := if 0 <? maxFuture then maxFuture else defaultDrift in
      _ ← refuse_if (now + maxDrift <? hdr_Timestamp h * 1000000000) TooFarInFuture;
      let n := Z.of_nat (length (blk_Transactions block)) in
      _ ← refuse_if (MaxTxPerBlock limits <? n) (TooManyTxs n (MaxTxPerBlock limits));
      let totalGas := total_gas_of (blk_Transactions block) in
      _ ← refuse_if (negb (totalGas =? hdr_GasUsed h)) (GasMismatch (hdr_GasUsed h) totalGas);
      refuse_if (MaxBlockSize limits <? totalGas) (GasOverLimit totalGas (MaxBlockSize limits))
  end.

(** ** Metrics *)

Definition alpha : float64 := f64_const 1 10.
Definition moving_average (old new : Z) : Z :=
  if old =? 0 then new
  else int64_of_f64 (f64_add (f64_mul (f64_of_int old) (f64_sub (f64_of_int 1) alpha)) (f64_mul (f64_of_int new) alpha)).
Definition updateAverageBlockTime (block : Block) : Bc unit :=
  current ← bc_GetCurrentBlock;
  match current with
  | None => mret tt
  | Some current =>
      ch ← header_or_panic current;
      if hdr_Index ch =? 0 then mret tt
      else
        prev ← try_block (ws_GetBlock (i64 (hdr_Index ch - 1)));
        match prev with
        | None => mret tt
        | Some prev =>
            h ← header_or_panic block;
            ph ← header_or_panic prev;
            let blockTime := i64 (i64 (hdr_Timestamp h - hdr_Timestamp ph) * 1000000000) in
            modify (fun b => bc_set_counts (totalBlocks b) (bc_totalTransactions b) (moving_average (averageBlockTime b) blockTime) b)
        end
  end.

(** A full channel drops the event. *)
Definition push {A} (cap : nat) (x : A) (l : list A) : list A := if (length l <? cap)%nat then l ++ [x] else l.
Definition push_block (x : Block) (b : blockchain) : blockchain :=
  MkBC (bc_node b) (bc_totalStaked b) (bc_unbonding b) (genesisBlock b) (totalBlocks b) (bc_totalTransactions b) (averageBlockTime b)
    (maxReorgDepth b) (consensusEngine b) (bc_mu b) (push 100 x (blockAdded b)) (txAdded b).
Definition push_tx (x : Transaction) (b : blockchain) : blockchain :=
  MkBC (bc_node b) (bc_totalStaked b) (bc_unbonding b) (genesisBlock b) (totalBlocks b) (bc_totalTransactions b) (averageBlockTime b)
    (maxReorgDepth b) (consensusEngine b) (bc_mu b) (blockAdded b) (push 1000 x (txAdded b)).

(** ** Unbonding after a block *)

(** [ws.ProcessUnbondingQueue()]; an error is logged. *)
Definition process_queue (now : Z) : Bc unit := fun b =>
  let n := bc_node b in
  let '(r, s) := ProcessUnbondingQueue Keccak256 shardID totalShards now
                   (MkStaking (ws_world (nd_ws n)) (bc_totalStaked b) (bc_unbonding b)) in
  let b' := MkBC (set_ws (set_world (sk_world s) (nd_ws n)) n) (sk_totalStaked s) (sk_unbonding s) (genesisBlock b) (totalBlocks b)
              (bc_totalTransactions b) (averageBlockTime b) (maxReorgDepth b) (consensusEngine b) (bc_mu b) (blockAdded b) (txAdded b) in
  (match r with Err _ => Ok tt | Ok _ => Ok tt | Panic => Panic | Hang => Hang end, b').

(** ** Adding *)

Context (ProcessUnbondings : GoM node unit unit).
Notation ws_AddBlock := (AddBlock Keccak256 HexToAddress shardID totalShards ChainID StateEncodingUpgradeHeight limits engine).
Notation ws_AddBlockFromSync := (AddBlockFromSync Keccak256 HexToAddress shardID totalShards ChainID StateEncodingUpgradeHeight limits engine).

(** [validatorManager.ProcessUnbondings()]; an error is logged. *)
Definition manager_unbondings : Bc unit := fun b =>
  let '(r, n) := ProcessUnbondings (bc_node b) in
  (match r with Err _ => Ok tt | Ok _ => Ok tt | Panic => Panic | Hang => Hang end, bc_set_node n b).

(** The same block again is fine, another one at its height is a fork; [None] when
    the block is new. *)
Definition known_block (block : Block) : Bc bool :=
  tip ← bc_GetCurrentBlock;
  match tip with
  | None => mret false
  | Some tip =>
      h ← header_or_panic block;
      th ← header_or_panic tip;
      if hdr_Index th <? hdr_Index h then mret false
      else
        existing ← try_block (ws_GetBlock (hdr_Index h));
        match existing with
        | None => mret false
        | Some existing =>
            if bool_decide (blk_Hash existing = blk_Hash block) then mret true
            else throw (ForkAtHeight (hdr_Index h) (blk_Hash existing) (blk_Hash block))
        end
  end.

Definition add_genesis (add : GoM node chain_err Block) (block : Block) : Bc unit :=
  b ← get;
  match genesisBlock b with
  | Some g => if bool_decide (blk_Hash g = blk_Hash block) then mret tt else throw (GenesisMismatch (blk_Hash g) (blk_Hash block))
  | None =>
      _ ← on_node WorldStateRefused add;
      modify (fun b => bc_set_counts 1 (bc_totalTransactions b) (averageBlockTime b) b)
  end.

(** Twice the tip with this hash is refused. *)
Definition check_tip (block : Block) : Bc unit :=
  tip ← bc_GetCurrentBlock;
  match tip with
  | Some t => refuse_if (bool_decide (blk_Hash t = blk_Hash block)) (BlockExists (blk_Hash block))
  | None => mret tt
  end.

Definition after_block (now : Z) (block : Block) : Bc unit :=
  _ ← manager_unbondings;
  _ ← process_queue now;
  _ ← modify (fun b => bc_set_counts (i64 (totalBlocks b + 1)) (bc_totalTransactions b) (averageBlockTime b) b);
  _ ← updateAverageBlockTime block;
  _ ← modify (fun b => bc_set_counts (totalBlocks b) (i64 (bc_totalTransactions b + Z.of_nat (length (blk_Transactions block)))) (averageBlockTime b) b);
  modify (push_block block).

Definition addBlockUnsafe (clock : nat -> Z * Z) (now maxFuture : Z) (block : option Block) : Bc unit :=
  match block with
  | None => throw BC_NilBlock
  | Some block =>
      known ← known_block block;
      if (known : bool) then mret tt
      else
        h ← header_or_panic block;
        if hdr_Index h =? 0 then add_genesis (ws_AddBlock clock (Some block)) block
        else
          _ ← validateBlockStructure now maxFuture block;
          b ← get;
          _ ← match consensusEngine b with
              | Some e =>
                  if ce_IsSyncing e then mret tt
                  else
                    height ← bc_GetHeight;
                    if height <? hdr_Index h then on_node ConsensusRefused (ce_ValidateBlock e block) else mret tt
              | None => mret tt
              end;
          _ ← check_tip block;
          stored ← on_node WorldStateRefused (ws_AddBlock clock (Some block));
          after_block now stored
  end.
Definition bc_AddBlock (clock : nat -> Z * Z) (now maxFuture : Z) (block : option Block) : Bc unit :=
  bc_locked W (addBlockUnsafe clock now maxFuture block).

Definition check_root (block : Block) (h : BlockHeader) : Bc unit := fun b =>
  match on_ws (SimulateStateRoot Keccak256 shardID totalShards StateEncodingUpgradeHeight (blk_Transactions block)) (bc_node b) with
  | (Ok root, n) =>
      if bool_decide (hdr_StateRoot h = root) then (Ok tt, bc_set_node n b)
      else (Err (SimulatedRootMismatch (hdr_StateRoot h) root), bc_set_node n b)
  | (Err _, n) => (Err SimulationFailed, bc_set_node n b)
  | (Panic, n) => (Panic, bc_set_node n b)
  | (Hang, n) => (Hang, bc_set_node n b)
  end.

Definition addBlockFromSyncUnsafe (clock : nat -> Z * Z) (now maxFuture : Z) (block : option Block) : Bc unit :=
  match block with
  | None => throw BC_NilBlock
  | Some block =>
      known ← known_block block;
      if (known : bool) then mret tt
      else
        h ← header_or_panic block;
        if hdr_Index h =? 0 then add_genesis (ws_AddBlockFromSync clock (Some block)) block
        else
          _ ← validateBlockStructure now maxFuture block;
          b ← get;
          _ ← match consensusEngine b with
              | Some e => on_node ConsensusRefused (ce_ValidateBlock e block)
              | None => mret tt
              end;
          _ ← (if 0 <? hdr_Index h then check_root block h else mret tt);
          _ ← check_tip block;
          stored ← on_node WorldStateRefused (ws_AddBlockFromSync clock (Some block));
          after_block now stored
  end.
Definition bc_AddBlockFromSync (clock : nat -> Z * Z) (now maxFuture : Z) (block : option Block) : Bc unit :=
  bc_locked W (addBlockFromSyncUnsafe clock now maxFuture block).

(** ** Reorganising *)

Definition MaxReorgDepth : Z := 1024.
Definition blocksPerEpoch : Z := 32.

(** [ValidateReorganization] with the stake behind the last block. *)
Definition judge_reorg (e : ConsensusEngine) (depth ancestorIndex : Z) (lastHash : string) : Bc unit :=
  match ce_forkChoice e with
  | None => mret tt
  | Some j =>
      match rj_ValidateReorganization j depth (u64 ancestorIndex / blocksPerEpoch) (rj_GetAttestingStake j lastHash) (rj_GetTotalActiveStake j) with
      | Some reason => throw (ReorgInsecure reason)
      | None => mret tt
      end
  end.

Fixpoint check_reorg (now maxFuture : Z) (parent : string) (i : Z) (blocks : list Block) : Bc unit :=
  match blocks with
  | [] => mret tt
  | block :: blocks' =>
      h ← header_or_panic block;
      _ ← refuse_if (negb (bool_decide (hdr_PrevHash h = parent))) (ReorgNotLinked i);
      _ ← wrapM (ReorgBlockInvalid i) (validateBlockStructure now maxFuture block);
      b ← get;
      _ ← match consensusEngine b with
          | Some e => on_node (fun reason => ReorgBlockInvalid i (ConsensusRefused reason)) (ce_ValidateBlock e block)
          | None => mret tt
          end;
      check_reorg now maxFuture (blk_Hash block) (i + 1) blocks'
  end.

Fixpoint apply_reorg (clock : nat -> nat -> Z * Z) (i : nat) (blocks : list Block) : Bc unit :=
  match blocks with
  | [] => mret tt
  | block :: blocks' =>
      h ← header_or_panic block;
      _ ← on_node (ReorgFailed (hdr_Index h)) (ws_AddBlock (clock i) (Some block));
      apply_reorg clock (S i) blocks'
  end.

Definition reorganize (clock : nat -> nat -> Z * Z) (now maxFuture : Z) (newBlocks : list Block) : Bc unit :=
  match newBlocks with
  | [] => throw NothingToReorganize
  | first :: _ =>
      b ← get;
      let maxDepth := if maxReorgDepth b <=? 0 then MaxReorgDepth else maxReorgDepth b in
      let count := Z.of_nat (length newBlocks) in
      _ ← refuse_if (maxDepth <? count) (ReorgTooLong count maxDepth);
      fh ← header_or_panic first;
      ancestor ← try_block (ws_GetBlockByHash (hdr_PrevHash fh));
      match ancestor with
      | None => throw (AncestorNotFound (hdr_PrevHash fh))
      | Some ancestor =>
          head ← bc_GetCurrentBlock;
          match head with
          | None => panic
          | Some head =>
              hh ← header_or_panic head;
              ah ← header_or_panic ancestor;
              let depth := i64 (hdr_Index hh - hdr_Index ah) in
              _ ← refuse_if (maxDepth <? depth) (ReorgTooDeep depth maxDepth);
              b ← get;
              _ ← match consensusEngine b with
                  | Some e => judge_reorg e depth (hdr_Index ah) (blk_Hash (List.last newBlocks first))
                  | None => mret tt
                  end;
              _ ← check_reorg now maxFuture (blk_Hash ancestor) 0 newBlocks;
              apply_reorg clock 0 newBlocks
          end
      end
  end.
Definition ReorganizeChain (clock : nat -> nat -> Z * Z) (now maxFuture : Z) (newBlocks : list Block) : Bc unit :=
  bc_locked W (reorganize clock now maxFuture newBlocks).

(** ** Creating blocks *)

Context (json_size : Block -> Z).

(** The accounts the pool asks for, read through the account manager.  What the
    look-ups leave in the cache is not kept. *)
Definition account_reader (n : node) (address : string) : outcome am_err Account :=
  let w := w_am (ws_world (nd_ws n)) in
  match GetAccount Keccak256 shardID totalShards address w with
  | (Ok l, w') => match heap w' !! l with Some a => Ok a | None => Panic end
  | (Err e, _) => Err e
  | (Panic, _) => Panic
  | (Hang, _) => Hang
  end.

(** [CreateBlock], and [CreateBlockWithBatching] after its last attempt. *)
Definition create_block (now : Z) (validator : string) (key : option (@PrivateKeyImpl Priv)) : Bc Block :=
  current ← bc_GetCurrentBlock;
  b ← get;
  let candidates := GetExecutableTransactions (account_reader (bc_node b)) (Z.to_nat (MaxTxPerBlock limits)) (txPool (bc_node b)) in
  let template := CreateBlockTemplate Keccak256 shardID totalShards current candidates (MaxBlockSize limits) (MaxTxPerBlock limits) in
  block ← lift (wrap CreationFailed (CreateBlockFromTemplate Keccak256 json_size shardID totalShards now template validator));
  root ← on_node id (GetStateRoot (E:=bc_err));
  b ← get;
  h ← header_or_panic block;
  let version := GetStateRootEncodingVersionForHeight StateEncodingUpgradeHeight (ws_chain (nd_ws (bc_node b))) (hdr_Index h) in
  let block := SetStateRootWithVersion Keccak256 (Some block) root version in
  let '(r, signed_block) := SignBlock (Pub:=Pub) Keccak256 key block in
  _ ← lift (wrap CreationFailed r);
  match signed_block with Some x => mret x | None => panic end.
Definition bc_CreateBlock (now : Z) (validator : string) (key : option (@PrivateKeyImpl Priv)) : Bc Block :=
  bc_locked W (create_block now validator key).

(** ** Health *)

(** An inconsistent state or a missing head is unhealthy. *)
Definition IsHealthy (MinValidatorStake : string) : Bc bool :=
  bc_locked R (fun b =>
    match on_ws (ValidateStateConsistency Keccak256 StateEncodingUpgradeHeight MinValidatorStake) (bc_node b) with
    | (Err _, n) => (Ok false, bc_set_node n b)
    | (Ok _, n) => (current ← bc_GetCurrentBlock; mret (bool_decide (is_Some current))) (bc_set_node n b)
    | (Panic, n) => (Panic, bc_set_node n b)
    | (Hang, n) => (Hang, bc_set_node n b)
    end).
End Blockchain.
