(* ===== verification/BlockchainSpec.v ===== *)
(** * What the blockchain facade promises, and what it cannot do *)

From S2P Require Import Prelude SafeMath Uint256 Address Storage AccountManager AccountSpec Pool ShardedLock Governance.
From S2P Require Import Domains EvmGas World Executor ExecutorSpec ExecutorThms StateRoot StateRootSpec Hashes Keys Wire Blocks.
From S2P Require Import Floats Staking BlockDB Chain ChainSpec ChainThms Blockchain.
From stdpp Require Import base tactics numbers list gmap strings sorting.
From Stdlib Require Import ZArith Lia Strings.Byte Strings.Ascii.
Open Scope Z_scope.
Open Scope list_scope.

(** ** What holds of a call that succeeds *)

Definition on_ok {S E A} (R : S -> S -> Prop) (m : GoM S E A) : Prop := forall s a s', m s = (Ok a, s') -> R s s'.

Section OnOk.
Context {S E : Type} (R : S -> S -> Prop) `{!PreOrder R}.

Lemma on_ok_ret {A} (a : A) : on_ok R (mret a : GoM S E A).
Proof. by intros s x s' [= <- <-]. Qed.
Lemma on_ok_throw {A} (e : E) : on_ok R (throw e : GoM S E A).
Proof. by intros s x s' [=]. Qed.
Lemma on_ok_panic {A} : on_ok R (panic : GoM S E A).
Proof. by intros s x s' [=]. Qed.
Lemma on_ok_get : on_ok R (get : GoM S E S).
Proof. by intros s x s' [= <- <-]. Qed.
Lemma on_ok_refuse c (e : E) : on_ok R (refuse_if c e : GoM S E unit).
Proof. destruct c; [apply on_ok_throw|apply on_ok_ret]. Qed.
Lemma on_ok_bind {A B} (m : GoM S E A) (f : A -> GoM S E B) : on_ok R m -> (forall a, on_ok R (f a)) -> on_ok R (m ≫= f).
Proof.
  intros Hm Hf s b s'. unfold mbind, GoM_bind. destruct (m s) as [[a| | |] s1] eqn:Hrun; try done.
  intros Hk. etransitivity; [by eapply Hm|by eapply Hf].
Qed.
Lemma on_ok_wrapM {E' A} (g : E' -> E) (m : GoM S E' A) : on_ok R m -> on_ok R (wrapM g m).
Proof.
  intros Hm s a s'. unfold wrapM. destruct (m s) as [r s1] eqn:Hrun. destruct r; try done. intros [= <- <-]. by eapply Hm.
Qed.
Lemma on_ok_keeps {A} (m : GoM S E A) : keeps R m -> on_ok R m.
Proof. intros Hm s a s' Hrun. specialize (Hm s). by rewrite Hrun in Hm. Qed.
End OnOk.

Create HintDb onok.
#[export] Hint Resolve on_ok_ret on_ok_throw on_ok_panic on_ok_get on_ok_refuse on_ok_wrapM : onok.
#[export] Hint Extern 1 (PreOrder _) => apply _ : onok.
Ltac onok :=
  repeat match goal with
  | |- on_ok _ (_ ≫= _) => apply on_ok_bind; [apply _| |intros ?]
  | |- on_ok _ (if ?c then _ else _) => destruct c
  | |- on_ok _ (match ?x with _ => _ end) => destruct x
  end; eauto with onok.

Section Facade.
Context `{MapOrder} {C F : Type} `{LRU C, !LRULaws C} `{Float64 F}.
Context `{Json Proposal, Json ProposalPayload, Json VotePayload, Json FinalizePayload, Json stakeDomainMembers}.
Context (Keccak256 HexToAddress : list byte -> list byte) (shardID totalShards : Z) (ChainID : string).
Context (upgrade : Z) (limits : BlockLimits) (engine : evm_engine (@world C F)).
Context (unbonds : GoM (@node C F) unit unit).
Notation node := (@node C F).
Notation blockchain := (@blockchain C F).
Notation Bc := (GoM blockchain bc_err).
Notation healthy := (healthy unlocked).

Lemma nd_locked_on_ok {E A} m x (body : GoM node E A) : on_ok nd_frame body -> on_ok nd_frame (nd_locked m x body).
Proof.
  intros Hb n a n'. unfold nd_locked, mutex_op. destruct (mutex_call true m (ws_mutex (nd_ws n) x)) as [[l| | |]|] eqn:Hacq; try done.
  destruct (body (set_ws (set_mutex x l (nd_ws n)) n)) as [r n1] eqn:Hrun.
  assert (Hl : mutex_call false m l = Some (Ok (ws_mutex (nd_ws n) x))).
  { destruct (ws_mutex (nd_ws n) x) as [[] rd], m; cbn in *; simplify_eq; try done.
    destruct rd as [|rd]; cbn in *; by simplify_eq. }
  destruct r as [v|e| |]; [|destruct (mutex_call false m (ws_mutex (nd_ws n1) x)) as [[]|]; naive_solver..].
  pose proof (Hb _ _ _ Hrun) as Hf. assert (Hx : ws_mutex (nd_ws n1) x = l) by (rewrite (fr_mutex _ _ Hf); by destruct x).
  rewrite Hx, Hl. intros [= <- <-]. destruct Hf as [Hm ? ? ? ? ?]. split; try done.
  intros y. specialize (Hm y). destruct x, y; cbn in *; congruence.
Qed.

Lemma current_on_ok {E} : on_ok nd_frame (GetCurrentBlock (C:=C) (F:=F) (E:=E)).
Proof.
  apply nd_locked_on_ok. intros n a n'. unfold getCurrentBlockUnsafe.
  match goal with |- context [on_kv ?m n] => assert (Hk : keeps nd_frame (on_kv (C:=C) (F:=F) m)); [apply on_kv_frame|specialize (Hk n); destruct (on_kv m n) as [[]]; naive_solver] end.
  intros d. unfold or_next. repeat case_match; simplify_eq; try done;
    repeat match goal with
    | Hr : GetBlock ?h ?d0 = (_, ?d1) |- _ => assert (same_blocks d0 d1) by (pose proof (read_block_blocks (BlockKey h) d0) as Hb; unfold GetBlock in Hr; by rewrite Hr in Hb); clear Hr
    | Hr : GetBlockByHeight ?h ?d0 = (_, ?d1) |- _ => assert (same_blocks d0 d1) by (pose proof (read_block_blocks (BlockHeightKey h) d0) as Hb; unfold GetBlockByHeight in Hr; by rewrite Hr in Hb); clear Hr
    end; cbn; try done; by etransitivity.
Qed.

(** The engine, when it accepts a block, has left the chain alone. *)
Definition bc_frame (b b' : blockchain) : Prop :=
  nd_frame (bc_node b) (bc_node b') /\ consensusEngine b' = consensusEngine b.
#[local] Instance bc_frame_preorder : PreOrder bc_frame.
Proof. split; [done|]. intros x y z [H1' H2'] [H3' H4']. split; [by etransitivity|congruence]. Qed.
Definition engine_reads (e : option (@ConsensusEngine C F)) : Prop :=
  forall e' block, e = Some e' -> on_ok nd_frame (ce_ValidateBlock e' block).

Lemma on_node_ok {E A} (f : E -> bc_err) (m : GoM node E A) : on_ok nd_frame m -> on_ok bc_frame (on_node f m).
Proof.
  intros Hm b a b'. unfold on_node. destruct (m (bc_node b)) as [r n] eqn:Hrun. destruct r; try done. intros [= <- <-].
  split; [|done]. by eapply Hm.
Qed.
Lemma try_block_ok (m : GoM node storage_err Block) : keeps nd_frame m -> on_ok bc_frame (try_block (E:=bc_err) m).
Proof.
  intros Hm b a b'. unfold try_block. specialize (Hm (bc_node b)). destruct (m (bc_node b)) as [r n]. intros Hrun.
  destruct r; simplify_eq; by split.
Qed.
Lemma header_ok_frame block : on_ok bc_frame (header_or_panic (C:=C) (F:=F) (E:=bc_err) block).
Proof. unfold header_or_panic. onok. Qed.
Lemma bc_structure_ok now maxFuture block : on_ok bc_frame (validateBlockStructure (C:=C) (F:=F) limits now maxFuture block).
Proof. unfold validateBlockStructure. onok. Qed.
Lemma judge_ok e depth i h : on_ok bc_frame (judge_reorg (C:=C) (F:=F) e depth i h).
Proof. unfold judge_reorg. onok. Qed.
#[local] Hint Resolve header_ok_frame bc_structure_ok judge_ok : onok.

Lemma bind_ok {A B} (m : Bc A) (k : A -> Bc B) b x b' :
  (m ≫= k) b = (Ok x, b') -> exists a b1, m b = (Ok a, b1) /\ k a b1 = (Ok x, b').
Proof. unfold mbind, GoM_bind. destruct (m b) as [[a| | |] b1]; try done. by exists a, b1. Qed.

Lemma check_reorg_frame now maxFuture blocks : forall parent i b x b',
  engine_reads (consensusEngine b) -> check_reorg limits now maxFuture parent i blocks b = (Ok x, b') -> bc_frame b b'.
Proof.
  induction blocks as [|block blocks IH]; intros parent i b x b' Heng; cbn [check_reorg]; [by intros [= _ <-]|].
  intros (h & b1 & H1' & Hrun)%bind_ok. apply header_ok_frame in H1'.
  apply bind_ok in Hrun as (? & b2 & H2' & Hrun). apply on_ok_refuse with (R := bc_frame) in H2'; [|apply _].
  apply bind_ok in Hrun as (? & b3 & H3' & Hrun). apply (on_ok_wrapM bc_frame) in H3'; [|apply bc_structure_ok].
  apply bind_ok in Hrun as (? & ? & [= <- <-] & Hrun). apply bind_ok in Hrun as (? & b4 & H4' & Hrun).
  assert (Hf3 : bc_frame b b3). { etransitivity; [exact H1'|]. etransitivity; [exact H2'|]. exact H3'. }
  assert (Hf4 : bc_frame b3 b4).
  { destruct (consensusEngine b3) as [e|] eqn:He; [|by injection H4' as _ <-].
    eapply (on_node_ok _ (ce_ValidateBlock e block)); [|exact H4']. apply Heng. rewrite <-He. symmetry. apply Hf3. }
  etransitivity; [exact Hf3|]. etransitivity; [exact Hf4|]. eapply IH; [|exact Hrun].
  destruct Hf3 as [_ E3], Hf4 as [_ E4]. by rewrite E4, E3.
Qed.

Notation ReorganizeChain := (ReorganizeChain Keccak256 HexToAddress shardID totalShards ChainID upgrade limits engine).
Notation apply_reorg := (apply_reorg Keccak256 HexToAddress shardID totalShards ChainID upgrade limits engine).

Lemma apply_reorg_extends clock blocks : forall i b x b' bs,
  Forall admissible blocks -> healthy (bc_node b) -> represents (bc_node b) bs -> Z.of_nat (length bs + length blocks) < two63 ->
  apply_reorg clock i blocks b = (Ok x, b') ->
  exists added, represents (bc_node b') (bs ++ added) /\ blk_Hash <$> added = blk_Hash <$> blocks.
Proof.
  induction blocks as [|block blocks IH]; intros i b x b' bs Had Hhl Hr Hlen; cbn [Blockchain.apply_reorg].
  { intros [= _ <-]. exists []. by rewrite app_nil_r. }
  apply Forall_cons in Had as [Had1 Had]. cbn [length] in Hlen.
  intros (h & b1 & H1' & Hrun)%bind_ok. assert (b1 = b) as -> by (unfold header_or_panic in H1'; destruct (blk_Header block); [by injection H1' as _ <-|done]).
  apply bind_ok in Hrun as (stored & b2 & H2' & Hrun). unfold on_node in H2'.
  pose proof (AddBlock_step Keccak256 HexToAddress shardID totalShards ChainID upgrade limits engine (clock i) block bs (bc_node b) Had1 Hhl Hr ltac:(lia)) as Hs.
  destruct (AddBlock _ _ _ _ _ _ _ _ _ _ (bc_node b)) as [r n]. destruct r as [y|e| |]; try done. cbn in H2'. injection H2' as -> <-.
  destruct Hs as (_ & Hhl2 & [[_ Hno]|(b2' & Hr2 & (Hhash & _) & Hx)]); [by destruct (Hno stored)|].
  destruct (IH (S i) (bc_set_node n b) x b' (bs ++ [b2']) Had Hhl2 Hr2) as (added & Hr3 & Hh); [rewrite length_app; simpl; lia|exact Hrun|].
  exists (b2' :: added). rewrite <-app_assoc in Hr3. split; [exact Hr3|]. cbn. by rewrite Hhash, Hh.
Qed.

Lemma bc_locked_ok {A} m (body : Bc A) b x b' :
  bc_locked m body b = (Ok x, b') -> exists l l' b1, body (bc_set_mu l b) = (Ok x, b1) /\ b' = bc_set_mu l' b1.
Proof.
  unfold bc_locked. destruct (mutex_call true m (bc_mu b)) as [[l| | |]|]; try done.
  destruct (body (bc_set_mu l b)) as [r b1] eqn:Hb. destruct r as [y|e| |]; [|destruct (mutex_call false m (bc_mu b1)) as [[]|]; naive_solver..].
  destruct (mutex_call false m (bc_mu b1)) as [[l'| | |]|]; try done. intros [= <- <-]. by exists l, l', b1.
Qed.

(** C23. A reorganisation never replaces a block.  [ReorganizeChain] is to switch to
    another branch from a common ancestor, but it adds the new blocks on top of
    the head: whenever it succeeds the chain is the old one with the new blocks
    appended, and the ancestor was the head.  A real fork is never adopted. *)
Theorem reorganization_only_extends clock now maxFuture blocks (b b' : blockchain) bs :
  Forall admissible blocks -> healthy (bc_node b) -> represents (bc_node b) bs ->
  Z.of_nat (length bs + length blocks) < two63 -> engine_reads (consensusEngine b) ->
  ReorganizeChain clock now maxFuture blocks b = (Ok tt, b') ->
  exists added, represents (bc_node b') (bs ++ added) /\ blk_Hash <$> added = blk_Hash <$> blocks.
Proof.
  intros Had Hhl Hr Hlen Heng (l & l' & b1 & Hrun & ->)%bc_locked_ok.
  cut (exists b0, bc_frame b b0 /\ apply_reorg clock 0 blocks b0 = (Ok tt, b1)).
  { intros (b0 & [Hf _] & Happ). eapply (apply_reorg_extends clock blocks 0 b0 tt b1 bs); try done.
    - by eapply healthy_frame.
    - eapply represents_frame; [exact Hf|apply Hhl|exact Hr]. }
  assert (Hmu : bc_frame b (bc_set_mu l b)) by done. set (c := bc_set_mu l b) in *.
  assert (Hengc : engine_reads (consensusEngine c)) by done. clearbody c.
  unfold reorganize in Hrun. destruct blocks as [|first rest]; [done|]. set (blocks := first :: rest) in *.
  apply bind_ok in Hrun as (? & ? & [= <- <-] & Hrun).
  apply bind_ok in Hrun as (? & c1 & H1' & Hrun). apply (on_ok_refuse bc_frame) in H1'.
  apply bind_ok in Hrun as (fh & c2 & H2' & Hrun). apply header_ok_frame in H2'.
  apply bind_ok in Hrun as (ancestor & c3 & H3' & Hrun). apply (try_block_ok _) in H3'; [|apply on_kv_frame, read_block_blocks].
  destruct ancestor as [ancestor|]; [|done].
  apply bind_ok in Hrun as (head & c4 & H4' & Hrun). apply (on_node_ok id _ current_on_ok) in H4'. destruct head as [head|]; [|done].
  apply bind_ok in Hrun as (hh & c5 & H5' & Hrun). apply header_ok_frame in H5'.
  apply bind_ok in Hrun as (ah & c6 & H6' & Hrun). apply header_ok_frame in H6'.
  apply bind_ok in Hrun as (? & c7 & H7' & Hrun). apply (on_ok_refuse bc_frame) in H7'.
  apply bind_ok in Hrun as (? & ? & [= <- <-] & Hrun). apply bind_ok in Hrun as (? & c8 & H8' & Hrun).
  assert (Hf8 : bc_frame c7 c8) by (destruct (consensusEngine c7) as [e|]; [by eapply judge_ok|by injection H8' as _ <-]).
  assert (Hf : bc_frame c c8) by (do 7 (etransitivity; [eassumption|]); exact Hf8).
  apply bind_ok in Hrun as (? & c9 & H9' & Hrun). apply check_reorg_frame in H9'; [|destruct Hf as [_ ->]; exact Hengc].
  exists c9. split; [|exact Hrun]. etransitivity; [exact Hmu|]. by etransitivity.
Qed.

(** *** A height that is taken *)

(** The locks and the accounts too are as they were. *)
Definition bc_same (b b' : blockchain) : Prop :=
  bc_frame b b' /\ nd_world (bc_node b') = nd_world (bc_node b) /\ bc_mu b' = bc_mu b.
#[local] Instance bc_same_preorder : PreOrder bc_same.
Proof. split; [done|]. intros x y z (? & ? & ?) (? & ? & ?). split; [by etransitivity|]. split; congruence. Qed.

Lemma current_run {E} (b : blockchain) bs : healthy (bc_node b) -> represents (bc_node b) bs ->
  exists b', bc_GetCurrentBlock (E:=E) b = (Ok (last bs), b') /\ bc_same b b'.
Proof.
  intros Hhl Hr. unfold bc_GetCurrentBlock, on_node, GetCurrentBlock.
  pose proof (nd_locked_run R ChainMu (getCurrentBlockUnsafe (E:=E)) (bc_node b) (hl_chain _ _ Hhl)) as Hrun.
  rewrite (current_block (with_mutex ChainMu (held R) (bc_node b)) bs) in Hrun; [|apply Hhl|by apply represents_mutex].
  rewrite Hrun by done. eexists. split; [done|]. split; [|done]. split; [|done]. split; try done.
  intros y. pose proof (hl_chain _ _ Hhl). by destruct y.
Qed.
Lemma height_run {E} (b : blockchain) bs i old : represents (bc_node b) bs -> bs !! i = Some old ->
  try_block (E:=E) (ws_GetBlock (Z.of_nat i)) b = (Ok (Some old), b).
Proof.
  intros Hr Hi. destruct (rep_height _ _ Hr _ _ Hi) as [Hread _]. unfold try_block, ws_GetBlock, on_kv.
  rewrite (proj2 (Z.ltb_ge _ 0)) by lia. change (db (w_am (ws_world (nd_ws (bc_node b))))) with (kv_of (bc_node b)).
  rewrite Hread, kv_of_id. by destruct b.
Qed.

Definition taken (block old : Block) (i : nat) : outcome bc_err bool :=
  if bool_decide (blk_Hash old = blk_Hash block) then Ok true else Err (ForkAtHeight (Z.of_nat i) (blk_Hash old) (blk_Hash block)).
Lemma known_run (b : blockchain) bs i old block h :
  healthy (bc_node b) -> represents (bc_node b) bs -> bs !! i = Some old -> blk_Header block = Some h -> hdr_Index h = Z.of_nat i ->
  exists b', known_block block b = (taken block old i, b') /\ bc_same b b'.
Proof.
  intros Hhl Hr Hi Hh Hidx. unfold known_block, mbind, GoM_bind.
  destruct (current_run (E:=bc_err) b bs Hhl Hr) as (b1 & -> & Hs). exists b1. split; [|exact Hs].
  assert (Hr1 : represents (bc_node b1) bs) by (eapply represents_frame; [apply Hs|apply Hhl|done]).
  destruct (last bs) as [tip|] eqn:Hlast; [|apply last_None in Hlast; by subst].
  rewrite last_lookup in Hlast. destruct (rep_height _ _ Hr _ _ Hlast) as (_ & th & Hth & Hti).
  unfold header_or_panic. rewrite Hh, Hth. cbn [mret GoM_ret]. rewrite Hidx, Hti.
  apply lookup_lt_Some in Hi as Hlt. rewrite (proj2 (Z.ltb_ge _ _)) by lia. rewrite (height_run b1 bs i old Hr1 Hi).
  unfold taken. by case_bool_decide.
Qed.

Lemma bc_locked_run {E A} (body : GoM blockchain E A) (b b1 : blockchain) r :
  bc_mu b = unlocked -> body (bc_set_mu (held W) b) = (r, b1) -> r <> Hang -> bc_same (bc_set_mu (held W) b) b1 ->
  exists b', bc_locked W body b = (r, b') /\ bc_same b b'.
Proof.
  intros Hmu Hb Hr (Hf & Hw & Hm). unfold bc_locked. rewrite Hmu. cbn [mutex_call]. change (MkRW true 0) with (held W). cbn. 
  change (MkRW true 0) with (held W). rewrite Hb, Hm. cbn.
  exists (bc_set_mu unlocked b1). split; [by destruct r|]. split_and!; [apply Hf..|exact Hw|by rewrite Hmu].
Qed.

(** C5. A height that is taken stays taken.  Handed a block at a height the chain
    has, both entrances - the node's own blocks and those of a peer - give back
    success when it is the block already there and a fork error when it is another,
    before any check of the block, and change neither the chain nor an account. *)
Theorem known_height_is_settled clock now maxFuture (b : blockchain) bs i old block h :
  bc_mu b = unlocked -> healthy (bc_node b) -> represents (bc_node b) bs ->
  bs !! i = Some old -> blk_Header block = Some h -> hdr_Index h = Z.of_nat i ->
  let answer := if bool_decide (blk_Hash old = blk_Hash block) then Ok tt else Err (ForkAtHeight (Z.of_nat i) (blk_Hash old) (blk_Hash block)) in
  forall add : Bc unit,
    add = bc_AddBlock Keccak256 HexToAddress shardID totalShards ChainID upgrade limits engine unbonds clock now maxFuture (Some block) \/
    add = bc_AddBlockFromSync Keccak256 HexToAddress shardID totalShards ChainID upgrade limits engine unbonds clock now maxFuture (Some block) ->
  exists b', add b = (answer, b') /\ represents (bc_node b') bs /\ nd_world (bc_node b') = nd_world (bc_node b) /\ bc_mu b' = unlocked.
Proof.
  intros Hmu Hhl Hr Hi Hh Hidx answer add Hadd.
  destruct (known_run (bc_set_mu (held W) b) bs i old block h Hhl Hr Hi Hh Hidx) as (b1 & Hk & Hs).
  assert (Hrun : exists b', add b = (answer, b') /\ bc_same b b').
  { destruct Hadd as [->| ->]; (eapply bc_locked_run; [exact Hmu| |unfold answer; by case_bool_decide|exact Hs]);
      unfold addBlockUnsafe, addBlockFromSyncUnsafe, mbind, GoM_bind; rewrite Hk; unfold taken, answer; by case_bool_decide. }
  destruct Hrun as (b' & Hrun & Hf & Hw & Hm). exists b'. split_and!; [done| |done|congruence].
  eapply represents_frame; [apply Hf|apply Hhl|exact Hr].
Qed.

(** *** Health *)

(** The health check never reports a healthy chain.  [IsHealthy] asks for the
    consistency check, which waits for a mutex it holds: whatever the state, from
    free mutexes it answers "unhealthy" or never answers, and then every mutex
    of the world state stays held. *)
Theorem health_check_never_true MinValidatorStake (b : blockchain) :
  bc_mu b = unlocked -> free (nd_ws (bc_node b)) ->
  let '(r, b') := IsHealthy Keccak256 upgrade MinValidatorStake b in
  (r = Ok false /\ free (nd_ws (bc_node b'))) \/
  (r = Hang /\ forall x, mutex_call true W (ws_mutex (nd_ws (bc_node b')) x) = None).
Proof.
  intros Hmu Hfree. unfold IsHealthy, bc_locked. rewrite Hmu. cbn -[ValidateStateConsistency]. unfold on_ws.
  pose proof (consistency_check_deadlocks Keccak256 upgrade MinValidatorStake (nd_ws (bc_node b)) Hfree) as Hd.
  destruct (ValidateStateConsistency _ _ _ _) as [r s']. destruct Hd as [(e & -> & Hf)|[-> Hx]]; cbn; [by left|by right].
Qed.
End Facade.

Module Demo.
Import ChainThms.Demo.
#[local] Existing Instances demo_LRU3 demo_LRU3_laws demo_float3 demo_json3.

Definition facade : @blockchain (list (string * loc)) permille := NewBlockchain started 0.
Definition no_unbondings : GoM (@node (list (string * loc)) permille) unit unit := mret tt.
Definition branch : list Block := [demo_block 1 "g" "h1" "" []; demo_block 2 "h1" "h2" "" []].
Notation demo_reorganize := (ReorganizeChain no_hash id BeaconShardID 1 "1" 1000 demo_limits no_engine (fun _ => demo_clock) (2000 * 10 ^ 9) 0).

(** A branch from the head, then one that would replace its last block. *)
Lemma reorganization_only_extends_witness :
  let '(r, b') := demo_reorganize branch facade in
  r = Ok tt /\ (exists g added, represents (bc_node b') (g :: added) /\ blk_Hash <$> added = ["h1"; "h2"]) /\
  fst (demo_reorganize [demo_block 2 "h1" "h2'" "" []] b') = Err (ReorgFailed 2 (WrongIndex 3 2)).
Proof.
  destruct started_chain as (Hhl & g & Hr & _).
  pose proof (reorganization_only_extends no_hash id BeaconShardID 1 "1" 1000 demo_limits no_engine (fun _ => demo_clock) (2000 * 10 ^ 9) 0
    branch facade (snd (demo_reorganize branch facade)) [g]
    ltac:(repeat constructor; intros ? [= <-]; reflexivity) Hhl Hr ltac:(vm_compute; reflexivity) ltac:(intros ? ? [=])) as Hext.
  rewrite (surjective_pairing (demo_reorganize branch facade)). split_and!.
  - vm_compute. reflexivity.
  - destruct Hext as (added & Hr' & Hh); [|exists g, added; exact (conj Hr' Hh)].
    rewrite (surjective_pairing (demo_reorganize branch facade)) at 1. apply (f_equal2 pair); [vm_compute; reflexivity|reflexivity].
  - vm_compute. reflexivity.
Defined.

Lemma known_height_is_settled_witness :
  exists b1 b2,
    bc_AddBlock no_hash id BeaconShardID 1 "1" 1000 demo_limits no_engine no_unbondings demo_clock 0 0 (Some genesis) facade = (Ok tt, b1) /\
    bc_AddBlockFromSync no_hash id BeaconShardID 1 "1" 1000 demo_limits no_engine no_unbondings demo_clock 0 0
      (Some (demo_block 0 "" "other" "" [])) facade = (Err (ForkAtHeight 0 "g" "other"), b2).
Proof.
  destruct started_chain as (Hhl & g & Hr & Hg & _).
  assert (Hsettled : forall hash, _) by (intros hash; exact (known_height_is_settled no_hash id BeaconShardID 1 "1" 1000 demo_limits no_engine no_unbondings
    demo_clock 0 0 facade [g] 0 g (demo_block 0 "" hash (if bool_decide (hash = "g") then "r0" else "") []) _ eq_refl Hhl Hr eq_refl eq_refl eq_refl)).
  destruct (Hsettled "g" _ (or_introl eq_refl)) as (b1 & H1 & _). destruct (Hsettled "other" _ (or_intror eq_refl)) as (b2 & H2 & _).
  rewrite Hg in H1, H2. exists b1, b2. exact (conj H1 H2).
Defined.

Lemma health_check_never_true_witness :
  fst (IsHealthy no_hash 1000 "0" facade) = Hang /\
  mutex_call true W (ws_mutex (nd_ws (bc_node (snd (IsHealthy no_hash 1000 "0" facade)))) ChainMu) = None.
Proof.
  assert (Hhang : is_ok (fst (IsHealthy no_hash 1000 "0" facade)) = false) by (vm_compute; reflexivity).
  pose proof (health_check_never_true no_hash 1000 "0" facade eq_refl ltac:(by intros [])) as Hd.
  destruct (IsHealthy no_hash 1000 "0" facade) as [r b']. destruct Hd as [[-> _]|[-> Hx]]; [discriminate Hhang|]. exact (conj eq_refl (Hx ChainMu)).
Defined.
End Demo.
