(* ===== verification/Inflation.v ===== *)
(** * Inflation (src/consensus/rewards/inflation.go)

    The inflation manager: how much an epoch may pay, and to whom it is split.
    Rates are float64, amounts are integers multiplied through math/big.Float.
    The world's totals are arguments; what a call prints is left out. *)

From S2P Require Import Prelude SafeMath Uint256 Floats.
From stdpp Require Import base tactics numbers list gmap strings.
From Stdlib Require Import ZArith Lia Strings.Ascii.
Open Scope Z_scope.
Open Scope list_scope.

(** The part of [config.EconomicsConfig] that is used here. *)
Record EconomicsConfig : Type := MkEconomics {
  InflationRate : float64;
  InflationMax : float64;
  InflationMin : float64;
  GoalBonded : float64;
  BlockReward : string;
  CommunityTax : float64;
  BaseProposerReward : float64;
  BonusProposerReward : float64;
  ValidatorRewardRate : float64;
  DelegatorRewardRate : float64;
  ValidatorRewardPool : string
}.

Definition f0 : float64 := f64_of_int 0.
Definition f1 : float64 := f64_of_int 1.
Definition defaultTargetInflationRate : float64 := f64_const 4 100.
Definition defaultTargetStakingRatio : float64 := f64_const 67 100.
Definition defaultMinInflationRate : float64 := f64_const 1 100.
Definition defaultMaxInflationRate : float64 := f64_const 8 100.
Definition defaultValidatorRewardShare : float64 := f64_const 20 100.

(** ** Amounts and rates *)

(** A method of a nil [*big.Int] panics. *)
Definition nonnil {E} (x : option Z) : outcome E Z := match x with Some n => Ok n | None => Panic end.
Definition bigString (x : option Z) : string := match x with Some n => String10 n | None => "<nil>" end.

(** A nil amount counts as zero; an infinite product has no integer and is nil. *)
Definition mulBigIntFloat {E} (amount : option Z) (rate : float64) : outcome E (option Z) :=
  match amount with
  | None => mret (Some 0)
  | Some a => r ← NewFloat rate; x ← big_Mul 0 (SetInt a) r; mret (big_Int x)
  end.
Definition addBigIntStrings (a b : string) : string := String10 (ParseBigInt_string a + ParseBigInt_string b).

(** [new(big.Float).Quo] of two integers, as a float64. *)
Definition ratio_of {E} (a b : Z) : outcome E float64 :=
  q ← big_Quo 0 (SetInt a) (SetInt b); mret (big_Float64 q).

Definition clampFloat (value lo hi : float64) : float64 :=
  if f64_lt value lo then lo else if f64_lt hi value then hi else value.

(** The rate after one adjustment towards the staking target. *)
Definition adjusted_rate (ratio target adjustment rate lo hi : float64) : float64 :=
  let diff := f64_sub ratio target in
  clampFloat (f64_add rate (f64_mul (f64_neg diff) adjustment)) lo hi.

Definition staking_multiplier (ratio target : float64) : float64 :=
  if f64_le target ratio then f1
  else if f64_le (f64_mul target (f64_const 8 10)) ratio then f64_const 11 10
  else if f64_le (f64_mul target (f64_const 6 10)) ratio then f64_const 12 10
  else f64_const 13 10.

Definition reward_share (cfg : EconomicsConfig) : float64 :=
  let total := f64_add (ValidatorRewardRate cfg) (DelegatorRewardRate cfg) in
  if f64_le total f0 then defaultValidatorRewardShare
  else clampFloat (f64_div (ValidatorRewardRate cfg) total) f0 f1.

(** Community, validators, delegators: the last gets what is left. *)
Record shares : Type := MkShares { ValidatorShare : Z; DelegatorShare : Z; CommunityShare : Z }.
Definition split_pool {E} (tax share : float64) (pool : Z) : outcome E shares :=
  community ← (c ← mulBigIntFloat (Some pool) tax; nonnil c);
  let staking := pool - community in
  validator ← (v ← mulBigIntFloat (Some staking) share; nonnil v);
  mret (MkShares validator (staking - validator) community).

(** The pool of a year and that of an epoch. *)
Definition pools {E} (supply : Z) (rate multiplier : float64) (epochsPerYear : Z) : outcome E (Z * Z) :=
  annual ← (a ← mulBigIntFloat (Some supply) rate; nonnil a);
  if epochsPerYear =? 0 then Panic
  else
    epoch ← (p ← mulBigIntFloat (Some (big_div annual epochsPerYear)) multiplier; nonnil p);
    mret (annual, epoch).

(** ** The manager *)

Inductive inf_err : Type := SupplyIsZero | BadTargetInflation | BadTargetStaking | BadBounds | BadAdjustment | BadEpochsPerYear.

Record InflationManager : Type := MkIM {
  targetInflationRate : float64;
  targetStakingRatio : float64;
  currentInflationRate : float64;
  currentStakingRatio : float64;
  minInflationRate : float64;
  maxInflationRate : float64;
  inflationAdjustmentRate : float64;
  lastSupplyUpdate : Z;
  supplyGrowthHistory : list float64;
  baseRewardPool : string;
  currentEpoch : Z;
  epochsPerYear : Z
}.
Notation Im := (GoM InflationManager inf_err).

Record RewardCalculation : Type := MkCalc {
  rc_Epoch : Z;
  rc_TotalSupply : string;
  rc_TotalStaked : string;
  rc_StakingRatio : float64;
  rc_InflationRate : float64;
  rc_AnnualRewardPool : string;
  rc_EpochRewardPool : string;
  rc_ValidatorShare : string;
  rc_DelegatorShare : string;
  rc_CommunityShare : string;
  rc_BurnAmount : string
}.

Definition NewInflationManager (cfg : EconomicsConfig) : InflationManager :=
  let lo := if f64_le (InflationMin cfg) f0 then defaultMinInflationRate else InflationMin cfg in
  let hi := if f64_le (InflationMax cfg) lo then defaultMaxInflationRate else InflationMax cfg in
  let target := if f64_le (InflationRate cfg) f0 then defaultTargetInflationRate else InflationRate cfg in
  let target := clampFloat target lo hi in
  let staking := if f64_le (GoalBonded cfg) f0 || f64_le f1 (GoalBonded cfg) then defaultTargetStakingRatio else GoalBonded cfg in
  MkIM target staking target f0 lo hi (f64_const 1 10) 0 [] (ValidatorRewardPool cfg) 0 365.

Definition set_rate (r : float64) (im : InflationManager) : InflationManager :=
  MkIM (targetInflationRate im) (targetStakingRatio im) r (currentStakingRatio im) (minInflationRate im) (maxInflationRate im)
    (inflationAdjustmentRate im) (lastSupplyUpdate im) (supplyGrowthHistory im) (baseRewardPool im) (currentEpoch im) (epochsPerYear im).
Definition set_ratio (r : float64) (im : InflationManager) : InflationManager :=
  MkIM (targetInflationRate im) (targetStakingRatio im) (currentInflationRate im) r (minInflationRate im) (maxInflationRate im)
    (inflationAdjustmentRate im) (lastSupplyUpdate im) (supplyGrowthHistory im) (baseRewardPool im) (currentEpoch im) (epochsPerYear im).
Definition set_targets (inflation staking : float64) (im : InflationManager) : InflationManager :=
  MkIM inflation staking (currentInflationRate im) (currentStakingRatio im) (minInflationRate im) (maxInflationRate im)
    (inflationAdjustmentRate im) (lastSupplyUpdate im) (supplyGrowthHistory im) (baseRewardPool im) (currentEpoch im) (epochsPerYear im).
Definition set_bounds (lo hi : float64) (im : InflationManager) : InflationManager :=
  MkIM (targetInflationRate im) (targetStakingRatio im) (currentInflationRate im) (currentStakingRatio im) lo hi
    (inflationAdjustmentRate im) (lastSupplyUpdate im) (supplyGrowthHistory im) (baseRewardPool im) (currentEpoch im) (epochsPerYear im).
Definition set_adjustment (r : float64) (im : InflationManager) : InflationManager :=
  MkIM (targetInflationRate im) (targetStakingRatio im) (currentInflationRate im) (currentStakingRatio im) (minInflationRate im)
    (maxInflationRate im) r (lastSupplyUpdate im) (supplyGrowthHistory im) (baseRewardPool im) (currentEpoch im) (epochsPerYear im).
Definition set_tracking (last : Z) (history : list float64) (im : InflationManager) : InflationManager :=
  MkIM (targetInflationRate im) (targetStakingRatio im) (currentInflationRate im) (currentStakingRatio im) (minInflationRate im)
    (maxInflationRate im) (inflationAdjustmentRate im) last history (baseRewardPool im) (currentEpoch im) (epochsPerYear im).
Definition set_epochs (current perYear : Z) (im : InflationManager) : InflationManager :=
  MkIM (targetInflationRate im) (targetStakingRatio im) (currentInflationRate im) (currentStakingRatio im) (minInflationRate im)
    (maxInflationRate im) (inflationAdjustmentRate im) (lastSupplyUpdate im) (supplyGrowthHistory im) (baseRewardPool im) current perYear.

Definition predictNextEpochInflation (im : InflationManager) : float64 :=
  adjusted_rate (currentStakingRatio im) (targetStakingRatio im) (inflationAdjustmentRate im) (currentInflationRate im)
    (minInflationRate im) (maxInflationRate im).
Definition adjustInflationRate (im : InflationManager) : InflationManager := set_rate (predictNextEpochInflation im) im.
Definition calculateStakingMultiplier (im : InflationManager) : float64 :=
  staking_multiplier (currentStakingRatio im) (targetStakingRatio im).

Definition calculateBurnAmount (epochRewardPool : Z) (im : InflationManager) : outcome inf_err string :=
  if f64_lt (f64_mul (targetStakingRatio im) (f64_const 12 10)) (currentStakingRatio im) then
    b ← mulBigIntFloat (Some epochRewardPool) (f64_const 1 10); b ← nonnil b; mret (String10 b)
  else mret "0".

(** The timestamp is all that is tracked. *)
Definition updateSupplyTracking (now : Z) (im : InflationManager) : InflationManager :=
  set_tracking now (supplyGrowthHistory im) im.

Section Manager.
Context (cfg : EconomicsConfig).

Definition communityTaxRate : float64 :=
  if f64_lt (CommunityTax cfg) f0 then f0 else if f64_lt f1 (CommunityTax cfg) then f1 else CommunityTax cfg.
Definition validatorRewardShare : float64 := reward_share cfg.
Definition distributeRewards (pool : Z) : outcome inf_err shares := split_pool communityTaxRate validatorRewardShare pool.

(** [totalSupply] and [totalStaked] are what the world state returns. *)
Definition CalculateEpochRewards (now totalSupply totalStaked epoch : Z) : Im RewardCalculation :=
  _ ← modify (fun im => set_epochs epoch (epochsPerYear im) im);
  _ ← refuse_if (totalSupply =? 0) SupplyIsZero;
  ratio ← lift (ratio_of totalStaked totalSupply);
  _ ← modify (set_ratio ratio);
  _ ← modify adjustInflationRate;
  im ← get;
  '(annual, pool) ← lift (pools totalSupply (currentInflationRate im) (calculateStakingMultiplier im) (epochsPerYear im));
  s ← lift (distributeRewards pool);
  burn ← lift (calculateBurnAmount pool im);
  _ ← modify (updateSupplyTracking now);
  mret (MkCalc epoch (String10 totalSupply) (String10 totalStaked) (currentStakingRatio im) (currentInflationRate im)
    (String10 annual) (String10 pool) (String10 (ValidatorShare s)) (String10 (DelegatorShare s)) (String10 (CommunityShare s)) burn).

(** ** Metrics *)

Definition apy (share : float64) (im : InflationManager) : float64 :=
  if f64_eq (currentStakingRatio im) f0 then f0
  else f64_mul (f64_mul (f64_div (currentInflationRate im) (currentStakingRatio im)) share) (f64_of_int 100).
Definition calculateValidatorAPY (im : InflationManager) : float64 := apy validatorRewardShare im.
Definition calculateDelegatorAPY (im : InflationManager) : float64 := apy (f64_sub f1 validatorRewardShare) im.

Record InflationMetrics : Type := MkMetrics {
  CirculatingSupply : Z;
  AnnualRewardPool : Z;
  CurrentEpochRewards : Z;
  ValidatorAPY : float64;
  DelegatorAPY : float64;
  InflationAdjustment : float64;
  NextEpochInflation : float64;
  RewardMultiplier : float64
}.
Definition GetInflationMetrics (totalSupply totalStaked : Z) (im : InflationManager) : outcome inf_err InflationMetrics :=
  annual ← (a ← mulBigIntFloat (Some totalSupply) (currentInflationRate im); nonnil a);
  if epochsPerYear im =? 0 then Panic
  else mret (MkMetrics (totalSupply - totalStaked) annual (big_div annual (epochsPerYear im)) (calculateValidatorAPY im) (calculateDelegatorAPY im)
    (f64_mul (f64_neg (f64_sub (currentStakingRatio im) (targetStakingRatio im))) (inflationAdjustmentRate im))
    (predictNextEpochInflation im) (calculateStakingMultiplier im)).
End Manager.

(** ** Settings *)

Definition SetTargetInflationRate (rate : float64) : Im unit :=
  _ ← refuse_if (f64_lt rate f0 || f64_lt (f64_const 15 100) rate) BadTargetInflation;
  modify (fun im => set_targets rate (targetStakingRatio im) im).
Definition SetTargetStakingRatio (ratio : float64) : Im unit :=
  _ ← refuse_if (f64_lt ratio (f64_const 1 10) || f64_lt (f64_const 9 10) ratio) BadTargetStaking;
  modify (fun im => set_targets (targetInflationRate im) ratio im).
Definition SetInflationBounds (lo hi : float64) : Im unit :=
  _ ← refuse_if (f64_lt lo f0 || f64_lt (f64_const 2 10) hi || f64_le hi lo) BadBounds;
  _ ← modify (set_bounds lo hi);
  modify (fun im => set_rate (clampFloat (currentInflationRate im) lo hi) im).
Definition SetInflationAdjustmentRate (rate : float64) : Im unit :=
  _ ← refuse_if (f64_lt rate (f64_const 1 100) || f64_lt f1 rate) BadAdjustment;
  modify (set_adjustment rate).
Definition UpdateEpochsPerYear (epochs : Z) : Im unit :=
  _ ← refuse_if ((epochs <=? 0) || (365 * 24 <? epochs)) BadEpochsPerYear;
  modify (fun im => set_epochs (currentEpoch im) epochs im).
Definition ResetInflationHistory : Im unit := modify (set_tracking 0 []).

(** ** Projections *)

(** [new(big.Float).Sub(x, y)]. *)
Definition big_Sub {E} (x y : bigfloat) : outcome E bigfloat :=
  let p := result_prec 0 x y in
  match bf_val x, bf_val y with
  | inl a, inl b =>
      let z := dy_add a (Dy (- mant b) (expo b)) in
      Ok (BF p (inl (big_round p (mant z * up (expo z)) (up (- expo z)))))
  | inr s, inr s' => if Bool.eqb s s' then Panic else Ok (BF p (inr s))
  | inr s, inl _ => Ok (BF p (inr s))
  | inl _, inr s => Ok (BF p (inr (negb s)))
  end.

Record SupplyProjection : Type := MkProjection { pr_Epoch : Z; pr_Supply : string; pr_InflationRate : float64; pr_Growth : string }.

(** One projection per epoch; the rate grows by a tenth of a per cent each time. *)
Fixpoint project (n : nat) (i : Z) (im : InflationManager) (supply : bigfloat) (inflation : float64) : outcome inf_err (list SupplyProjection) :=
  match n with
  | O => mret []
  | S n =>
      multiplier ← NewFloat (f64_add f1 (f64_div inflation (f64_of_int (epochsPerYear im))));
      new ← big_Mul 0 supply multiplier;
      growth ← big_Sub new supply;
      let here := MkProjection (u64 (currentEpoch im + (i + 1))) (bigString (big_Int new)) inflation (bigString (big_Int growth)) in
      let next := f64_add inflation (f64_const 1 1000) in
      let next := if f64_lt (maxInflationRate im) next then maxInflationRate im else next in
      rest ← project n (i + 1) im new next;
      mret (here :: rest)
  end.
(** [make] panics on a negative length. *)
Definition GetSupplyProjection (totalSupply epochs : Z) (im : InflationManager) : outcome inf_err (list SupplyProjection) :=
  if epochs <? 0 then Panic else project (Z.to_nat epochs) 0 im (SetInt totalSupply) (currentInflationRate im).
