(* ===== verification/InflationSpec.v ===== *)
(** * What inflation may pay

    An amount times a rate is the exact product up to rounding on both sides, the pool of
    an epoch follows the rates and is split without loss, and the rate stays in its
    bounds. *)

From S2P Require Import Prelude SafeMath Uint256 Floats Inflation.
From stdpp Require Import base tactics numbers list gmap strings.
From Stdlib Require Import ZArith QArith Qpower Lia Lqa Strings.Ascii.
Open Scope Z_scope.
Open Scope list_scope.

(** ** An amount times a rate *)

Lemma frac_scale n e : (inject_Z (n * up e) / inject_Z (up (- e)) == inject_Z n * p2 e)%Q.
Proof. pose proof (up_Q (- e)). rewrite inject_Z_mult, (up_split e). field. lra. Qed.

(** The integer part of a number that is not negative. *)
Lemma int_part x : 0 <= mant x ->
  let r := Z.quot (mant x * up (expo x)) (up (- expo x)) in
  0 <= r /\ (inject_Z r <= toQ x)%Q /\ (toQ x < inject_Z (r + 1))%Q.
Proof.
  intros Hm r. pose proof (up_pos (expo x)) as H1. pose proof (up_pos (- expo x)) as H2. unfold r.
  rewrite Z.quot_div_nonneg by nia. pose proof (Z.div_mod (mant x * up (expo x)) (up (- expo x)) ltac:(lia)) as Hdm.
  pose proof (Z.mod_pos_bound (mant x * up (expo x)) (up (- expo x)) H2) as Hb. set (q := _ / _) in *.
  assert (Hq : (toQ x == inject_Z (mant x * up (expo x)) / inject_Z (up (- expo x)))%Q) by (by rewrite frac_scale).
  assert (Hu : (0 < inject_Z (up (- expo x)))%Q) by apply up_Q.
  split; [apply Z.div_pos; nia|]. rewrite Hq. split.
  - apply Qle_shift_div_l; [done|]. rewrite <-inject_Z_mult, <-Zle_Qle. nia.
  - apply Qlt_shift_div_r; [done|]. rewrite <-inject_Z_mult, <-Zlt_Qlt. nia.
Qed.

Lemma toQ_nonneg x : (0 <= toQ x)%Q <-> 0 <= mant x.
Proof.
  unfold toQ. pose proof (p2_pos (expo x)). change 0%Q with (inject_Z 0). split; intros Hx.
  - destruct (Z.le_gt_cases 0 (mant x)) as [|Hlt]; [done|]. rewrite Zlt_Qlt in Hlt. change (inject_Z 0) with 0%Q in *. nra.
  - rewrite Zle_Qle in Hx. change (inject_Z 0) with 0%Q in *. nra.
Qed.

Lemma BitLen_bound a : 0 <= a -> a < 2 ^ BitLen a.
Proof.
  intros Ha. unfold BitLen. destruct (Z.eqb_spec a 0) as [->|]; [done|]. rewrite Z.abs_eq by done.
  apply Z.log2_lt_pow2; lia.
Qed.

(** At most half a unit down. *)
Lemma round_at_half_low e n d : 0 < d -> 2 * (n * up (- e)) <= 2 * (round_at e n d * (d * up e)) + d * up e.
Proof.
  intros Hd. pose proof (up_pos e). unfold round_at. set (num := n * up (- e)). set (den := d * up e).
  assert (Hden : 0 < den) by (unfold den; nia). pose proof (Z.div_mod num den ltac:(lia)). pose proof (Z.mod_pos_bound num den Hden).
  destruct (Z.ltb_spec (2 * (num mod den)) den); cbn [orb]; [nia|]. destruct (Z.eqb_spec (2 * (num mod den)) den); cbn [andb]; [destruct (Z.even _)|]; nia.
Qed.
(** Rounding loses at most as much as it adds. *)
Lemma round_with_error_low p n d : 0 < p -> 0 < n -> 0 < d ->
  (inject_Z n / inject_Z d * inject_Z (2 ^ p - 1) <= toQ (round_with p (exponent p n d) n d) * inject_Z (2 ^ p))%Q.
Proof.
  intros Hp Hn Hd. rewrite round_with_value by done. set (e := exponent p n d).
  destruct (exponent_spec p n d Hp Hn Hd) as [Hlow _]. fold e in Hlow.
  pose proof (round_at_half_low e n d Hd) as Hh. set (m := round_at e n d) in *.
  assert (Hh' : (2 * (inject_Z n / inject_Z d) <= (2 * inject_Z m + 1) * p2 e)%Q).
  { assert (Hz : (2 * n) * up (- e) <= (2 * m + 1) * (d * up e)) by nia.
    apply (at_scale (2 * m + 1) (2 * n) d e Hd) in Hz. rewrite !inject_Z_plus, !inject_Z_mult in Hz. unfold Qdiv in *. rewrite <-Qmult_assoc in Hz. exact Hz. }
  rewrite p2_add in Hlow. replace p with ((p - 1) + 1) by lia. rewrite Z.pow_add_r by lia. change (2 ^ 1) with 2.
  unfold Z.sub. rewrite inject_Z_plus, inject_Z_mult. rewrite <-p2_inject by lia.
  pose proof (p2_pos e). pose proof (p2_pos (p - 1)). fold (Z.sub p 1) in *. generalize dependent (inject_Z n / inject_Z d)%Q. intros q Hlow Hh'.
  change (inject_Z 2) with 2%Q. change (inject_Z (-(1))) with (-(1))%Q. nra.
Qed.

(** [part] is [whole] times [rate], up to one part in 2^64 and the fraction that is cut
    off. *)
Definition part_of (whole : Z) (rate : Q) (part : Z) : Prop :=
  (inject_Z part * inject_Z (2 ^ 64) <= inject_Z whole * rate * inject_Z (2 ^ 64 + 1))%Q /\
  (inject_Z whole * rate * inject_Z (2 ^ 64 - 1) < inject_Z (part + 1) * inject_Z (2 ^ 64))%Q.

(** [r] is the integer part of [v] rounded to [p] bits. *)
Definition rounded_to (p : Z) (v : Q) (r : Z) : Prop :=
  ((v == 0)%Q /\ r = 0) \/
  exists n d, 0 < n /\ 0 < d /\ (inject_Z n / inject_Z d == v)%Q /\
    (inject_Z r <= toQ (round_with p (exponent p n d) n d))%Q /\ (toQ (round_with p (exponent p n d) n d) < inject_Z (r + 1))%Q.

Lemma mul_rounded {E} a x : 0 <= a -> (0 <= toQ x)%Q ->
  exists r p, mulBigIntFloat (E:=E) (Some a) (Fin x) = Ok (Some r) /\ 0 <= r /\ 64 <= p /\ BitLen a <= p /\ rounded_to p (inject_Z a * toQ x) r.
Proof.
  intros Ha Hx. pose proof (proj1 (toQ_nonneg x) Hx) as Hm. unfold mulBigIntFloat, NewFloat, big_Mul, mbind, outcome_bind. cbn [bf_val SetInt bf_prec mant expo].
  set (p := result_prec _ _ _). assert (Hp : 64 <= p /\ BitLen a <= p) by (unfold p, result_prec; simpl; lia).
  rewrite Z.add_0_l. eexists _, p. split; [reflexivity|]. cbn [big_Int bf_val].
  set (n := a * mant x * up (expo x)). set (d := up (- expo x)).
  assert (Hd : 0 < d) by apply up_pos.
  assert (Hv : (inject_Z n / inject_Z d == inject_Z a * toQ x)%Q).
  { unfold n, d. rewrite frac_scale, inject_Z_mult. unfold toQ. ring. }
  unfold big_round. destruct (Z.eqb_spec n 0) as [Hz|Hnz].
  { change (Z.quot _ _) with 0. split_and!; [done|lia|lia|]. left. split; [|done]. rewrite <-Hv, Hz. apply Qmult_0_l. }
  assert (Hn : 0 < n) by (assert (0 <= n) by (pose proof (up_pos (expo x)); unfold n; nia); lia).
  rewrite Z.abs_eq by lia. set (y := round_with p (exponent p n d) n d).
  assert (Hs : signed n y = y) by (unfold signed; rewrite Z.sgn_pos by done; destruct y; simpl; f_equal; lia).
  rewrite Hs. assert (Hy : (0 <= toQ y)%Q).
  { unfold y. rewrite round_with_value by lia. pose proof (round_at_nonneg (exponent p n d) n d ltac:(lia) Hd) as Hr. rewrite Zle_Qle in Hr.
    pose proof (p2_pos (exponent p n d)). change (inject_Z 0) with 0%Q in Hr. nra. }
  pose proof (int_part y (proj1 (toQ_nonneg y) Hy)) as (Hr0 & Hr1 & Hr2).
  split_and!; [done|lia|lia|]. right. exists n, d. by split_and!.
Qed.

Lemma rounded_part whole rate p r : 0 <= whole -> (0 <= rate)%Q -> 64 <= p -> rounded_to p (inject_Z whole * rate) r -> part_of whole rate r.
Proof.
  intros Hw Hrate Hp Hr. assert (Hwq : (0 <= inject_Z whole)%Q) by (change 0%Q with (inject_Z 0); by rewrite <-Zle_Qle).
  unfold part_of. set (e := (inject_Z whole * rate)%Q) in *. assert (He0 : (0 <= e)%Q) by (unfold e; nra). clearbody e.
  destruct Hr as [[Hv ->]|(n & d & Hn & Hd & Hv & Hr1 & Hr2)]; [rewrite Hv; split; vm_compute; [discriminate|reflexivity]|].
  pose proof (round_with_error p n d ltac:(lia) Hn Hd) as Hhi. pose proof (round_with_error_low p n d ltac:(lia) Hn Hd) as Hlo.
  set (y := toQ _) in *. clearbody y. rewrite Hv in Hhi, Hlo.
  assert (Hpow : 2 ^ 64 * 2 ^ (p - 64) = 2 ^ p) by (rewrite <-Z.pow_add_r by lia; f_equal; lia).
  assert (Hq : (1 <= inject_Z (2 ^ (p - 64)))%Q).
  { change 1%Q with (inject_Z 1). rewrite <-Zle_Qle. pose proof (Z.pow_pos_nonneg 2 (p - 64)). lia. }
  unfold Z.sub in Hlo |- *. rewrite <-Hpow, inject_Z_plus, inject_Z_mult in Hhi, Hlo. rewrite !(inject_Z_plus (2 ^ 64)).
  change (inject_Z 1) with 1%Q in *. change (inject_Z (-(1))) with (-(1))%Q in *.
  set (g := inject_Z (2 ^ (p - 64))) in *. set (t := inject_Z (2 ^ 64)) in *.
  assert (Ht : (1 < t)%Q) by (unfold t; compute; reflexivity). clearbody g t. split.
  - assert (Hc : (y * t * g <= (e * (t + 1)) * g)%Q) by nra. apply Qmult_le_r in Hc; [|lra]. nra.
  - assert (Hc : (e * (t + -(1)) * g <= y * t * g)%Q) by nra. apply Qmult_le_r in Hc; [|lra]. nra.
Qed.

(** [mulBigIntFloat] on an amount and a rate that are not negative: the result is
    that of the exact product rounded to 64 bits or more, so it is below any bound
    [a * 2^j] the exact product is below, and close to it on both sides. *)
Lemma mul_rate {E} a x : 0 <= a -> (0 <= toQ x)%Q ->
  exists r, mulBigIntFloat (E:=E) (Some a) (Fin x) = Ok (Some r) /\ 0 <= r /\
  (forall j, 0 <= j -> (toQ x <= p2 j)%Q -> r <= a * 2 ^ j) /\ part_of a (toQ x) r.
Proof.
  intros Ha Hx. destruct (mul_rounded (E:=E) a x Ha Hx) as (r & p & Hr & Hr0 & Hp & Hbl & Hround).
  exists r. split_and!; [done..| |by eapply rounded_part]. intros j Hj Hle.
  destruct Hround as [[_ ->]|(n & d & Hn & Hd & Hv & Hr1 & _)]; [apply Z.mul_nonneg_nonneg; [done|lia]|].
  assert (Haq : (0 <= inject_Z a)%Q) by (change 0%Q with (inject_Z 0); by rewrite <-Zle_Qle).
  rewrite Zle_Qle. eapply Qle_trans; [exact Hr1|]. rewrite inject_Z_mult, <-p2_inject by done.
  apply (round_with_le p None n d a j); [lia|done|done| |done|].
  - pose proof (BitLen_bound a Ha). pose proof (Z.pow_le_mono_r 2 (BitLen a) p). lia.
  - rewrite Hv. nra.
Qed.

(** ** Comparisons *)

Lemma scale_down x e : e <= expo x -> (toQ x == inject_Z (mant x * up (expo x - e)) * p2 e)%Q.
Proof.
  intros He. unfold toQ, up. rewrite (Z.max_r 0) by lia. rewrite (coarser (mant x) (expo x) e He). reflexivity.
Qed.
Lemma dy_compare_spec x y : dy_compare x y = (toQ x ?= toQ y)%Q.
Proof.
  unfold dy_compare. set (e := Z.min (expo x) (expo y)). pose proof (p2_pos e) as Hp.
  rewrite (scale_down x e), (scale_down y e) by lia. set (a := mant x * _). set (b := mant y * _).
  destruct (Z.compare_spec a b) as [->|Hlt|Hlt]; symmetry.
  - apply Qeq_alt. reflexivity.
  - apply Qlt_alt. rewrite Zlt_Qlt in Hlt. by apply Qmult_lt_r.
  - apply Qgt_alt. rewrite Zlt_Qlt in Hlt. by apply Qmult_lt_r.
Qed.
Lemma f64_le_Fin x y : f64_le (Fin x) (Fin y) = true <-> (toQ x <= toQ y)%Q.
Proof. unfold f64_le, f64_compare. rewrite dy_compare_spec, Qle_alt. destruct (toQ x ?= toQ y)%Q; naive_solver. Qed.
Lemma f64_lt_Fin x y : f64_lt (Fin x) (Fin y) = true <-> (toQ x < toQ y)%Q.
Proof. unfold f64_lt, f64_compare. rewrite dy_compare_spec, Qlt_alt. destruct (toQ x ?= toQ y)%Q; naive_solver. Qed.

Definition fin_of (x : float64) : dyadic := match x with Fin y => y | _ => Dy 0 0 end.
Definition num (x : float64) : Prop := x <> NaN.
(** A number between two others. *)
Definition between (lo hi : dyadic) (x : float64) : Prop := exists y, x = Fin y /\ (toQ lo <= toQ y)%Q /\ (toQ y <= toQ hi)%Q.

Lemma round64_num n d : num (round64 n d).
Proof. unfold round64, num. repeat case_match; congruence. Qed.
Lemma add_num x y : num (Fin x) -> num y -> num (f64_add (Fin x) y).
Proof. intros _ Hy. destruct y; [apply round64_num|done..]. Qed.
Lemma mul_num x y : num x -> mant y <> 0 -> num (f64_mul x (Fin y)).
Proof.
  intros Hx Hy. destruct x as [x| |]; [apply round64_num| |done]. simpl. by rewrite (proj2 (Z.eqb_neq _ _) Hy).
Qed.
Lemma sub_num x y : num x -> num (f64_sub x (Fin y)).
Proof. intros Hx. destruct x; [apply round64_num|done..]. Qed.
Lemma neg_num x : num x -> num (f64_neg x).
Proof. by destruct x. Qed.

Lemma clamp_between x lo hi : num x -> (toQ lo <= toQ hi)%Q -> between lo hi (clampFloat x (Fin lo) (Fin hi)).
Proof.
  intros Hx Hle. unfold clampFloat, between. destruct (f64_lt x (Fin lo)) eqn:H1; [exists lo; by repeat split; try apply Qle_refl|].
  destruct (f64_lt (Fin hi) x) eqn:H2; [exists hi; by repeat split; try apply Qle_refl|].
  destruct x as [x|s|]; [|by destruct s|done]. exists x. split; [done|].
  rewrite <-not_true_iff_false, f64_lt_Fin in H1, H2. split; by apply Qnot_lt_le.
Qed.

Lemma adjusted_between ratio target adjustment rate lo hi :
  num ratio -> mant adjustment <> 0 -> (toQ lo <= toQ hi)%Q ->
  between lo hi (adjusted_rate ratio (Fin target) (Fin adjustment) (Fin rate) (Fin lo) (Fin hi)).
Proof.
  intros Hr Ha Hle. apply clamp_between; [|done]. apply add_num; [done|]. apply mul_num; [|done]. by apply neg_num, sub_num.
Qed.

Lemma ratio_num {E} a b : b <> 0 -> exists x, ratio_of (E:=E) a b = Ok x /\ num x.
Proof.
  intros Hb. unfold ratio_of, big_Quo, mbind, outcome_bind. simpl. rewrite (proj2 (Z.eqb_neq _ _) Hb).
  eexists. split; [reflexivity|]. apply round64_num.
Qed.

(** ** The split of a pool *)

Definition unit_lo : dyadic := Dy 0 0.
Definition unit_hi : dyadic := match f1 with Fin x => x | _ => Dy 1 0 end.
Lemma unit_value : f0 = Fin unit_lo /\ f1 = Fin unit_hi /\ (toQ unit_lo == 0)%Q /\ (toQ unit_hi == 1)%Q.
Proof. split_and!; vm_compute; reflexivity. Qed.

Lemma mul_unit {E} a x : 0 <= a -> between unit_lo unit_hi x ->
  exists r, mulBigIntFloat (E:=E) (Some a) x = Ok (Some r) /\ 0 <= r <= a /\ part_of a (toQ (fin_of x)) r.
Proof.
  intros Ha (y & -> & Hlo & Hhi). destruct unit_value as (_ & _ & H0 & H1). rewrite H0 in Hlo. rewrite H1 in Hhi.
  destruct (mul_rate (E:=E) a y Ha Hlo) as (r & Hr & Hr0 & Hr1 & Hr2). exists r. split; [done|]. split; [|done].
  specialize (Hr1 0 ltac:(lia) Hhi). lia.
Qed.

(** Nothing is lost and nobody gets a negative part. *)
Definition exact_split (pool : Z) (s : shares) : Prop :=
  0 <= ValidatorShare s /\ 0 <= DelegatorShare s /\ 0 <= CommunityShare s /\ ValidatorShare s + DelegatorShare s + CommunityShare s = pool.
(** The community's part is the tax on the pool, the validators' part their share of the
    rest. *)
Definition by_rates (tax share : float64) (pool : Z) (s : shares) : Prop :=
  part_of pool (toQ (fin_of tax)) (CommunityShare s) /\ part_of (pool - CommunityShare s) (toQ (fin_of share)) (ValidatorShare s).
Lemma split_exact {E} tax share pool : 0 <= pool -> between unit_lo unit_hi tax -> between unit_lo unit_hi share ->
  exists s, split_pool (E:=E) tax share pool = Ok s /\ exact_split pool s /\ by_rates tax share pool s.
Proof.
  intros Hp Ht Hs. unfold split_pool, mbind, outcome_bind.
  destruct (mul_unit (E:=E) pool tax Hp Ht) as (c & -> & Hc & Hcp). cbn [nonnil].
  destruct (mul_unit (E:=E) (pool - c) share ltac:(lia) Hs) as (v & -> & Hv & Hvp). cbn [nonnil].
  eexists. split; [reflexivity|]. split; [unfold exact_split; simpl; lia|done].
Qed.

(** The configured rates. *)
Record sane_config (cfg : EconomicsConfig) : Prop := MkSane {
  sc_tax : num (CommunityTax cfg);
  sc_validator : exists x, ValidatorRewardRate cfg = Fin x;
  sc_delegator : exists x, DelegatorRewardRate cfg = Fin x
}.
Lemma tax_between cfg : sane_config cfg -> between unit_lo unit_hi (communityTaxRate cfg).
Proof.
  intros [Ht _ _]. destruct unit_value as (E0 & E1 & H0 & H1). change (communityTaxRate cfg) with (clampFloat (CommunityTax cfg) f0 f1). rewrite E0, E1. apply clamp_between; [done|].
  rewrite H0, H1. discriminate.
Qed.
Lemma share_between cfg : sane_config cfg -> between unit_lo unit_hi (reward_share cfg).
Proof.
  intros [_ [x Hx] [y Hy]]. destruct unit_value as (E0 & E1 & H0 & H1). unfold reward_share. rewrite Hx, Hy.
  destruct (f64_le _ f0) eqn:Hle.
  - exists (match defaultValidatorRewardShare with Fin z => z | _ => Dy 0 0 end). split_and!; vm_compute; [reflexivity|discriminate..].
  - rewrite E0 in Hle. rewrite E0, E1. apply clamp_between; [|rewrite H0, H1; discriminate].
    pose proof (round64_num (mant (dy_add x y) * up (expo (dy_add x y))) (up (- expo (dy_add x y)))) as Hn.
    change (round64 _ _) with (f64_add (Fin x) (Fin y)) in Hn.
    destruct (f64_add (Fin x) (Fin y)) as [t|s|]; [|done|done].
    simpl. destruct (Z.eqb_spec (mant t) 0) as [Hz|]; [|apply round64_num].
    exfalso. rewrite <-not_true_iff_false, f64_le_Fin in Hle. apply Hle. rewrite H0. unfold toQ. rewrite Hz. change (inject_Z 0) with 0%Q. rewrite Qmult_0_l. apply Qle_refl.
Qed.

(** ** The manager between calls *)

Record good_im (im : InflationManager) : Prop := MkGoodIm {
  gi_rate : exists lo hi, minInflationRate im = Fin lo /\ maxInflationRate im = Fin hi /\ (0 <= toQ lo)%Q /\ (toQ lo <= toQ hi)%Q /\
            between lo hi (currentInflationRate im);
  gi_target : exists t, targetStakingRatio im = Fin t;
  gi_adjustment : exists a, inflationAdjustmentRate im = Fin a /\ mant a <> 0;
  gi_ratio : num (currentStakingRatio im);
  gi_epochs : 0 < epochsPerYear im
}.

Lemma adjust_good im : good_im im -> good_im (adjustInflationRate im).
Proof.
  intros [(lo & hi & Hlo & Hhi & H0 & Hle & (r & Hr & _)) [t Ht] (a & Ha & Hna) Hra Hep]. split; simpl; try done; [|by eexists..].
  exists lo, hi. split_and!; try done. unfold predictNextEpochInflation. rewrite Ht, Ha, Hr, Hlo, Hhi. by apply adjusted_between.
Qed.

(** The bonus of an epoch, in tenths: none from the target of the staking ratio on, one,
    two and three tenths below it, below four fifths and below three fifths of it. *)
Definition tenths (ratio target : float64) : Z :=
  if f64_le target ratio then 10
  else if f64_le (f64_mul target (f64_const 8 10)) ratio then 11
  else if f64_le (f64_mul target (f64_const 6 10)) ratio then 12
  else 13.

(** A float64 that stands for [k] tenths. *)
Definition about_tenths (k : Z) (x : float64) : Prop := exists y, x = Fin y /\ (0 <= toQ y)%Q /\
  (toQ y * 10 * inject_Z (2 ^ 52) <= inject_Z k * inject_Z (2 ^ 52 + 1))%Q /\ (inject_Z k * inject_Z (2 ^ 52 - 1) <= toQ y * 10 * inject_Z (2 ^ 52))%Q.
Lemma multiplier_tenths ratio target : about_tenths (tenths ratio target) (staking_multiplier ratio target).
Proof.
  unfold tenths, staking_multiplier. repeat case_match;
    match goal with |- about_tenths _ ?x => exists (fin_of x); split_and!; [vm_compute; reflexivity|vm_compute; discriminate..] end.
Qed.

(** [pool] is [k] tenths of [part], up to one part in 2^50 and the fraction cut off. *)
Definition tenths_of (k part pool : Z) : Prop :=
  pool * 10 * 2 ^ 50 <= part * k * (2 ^ 50 + 1) /\ part * k * (2 ^ 50 - 1) <= (pool + 1) * 10 * 2 ^ 50.
Lemma tenths_part k part x pool : 0 <= part -> 0 <= k -> about_tenths k (Fin x) -> part_of part (toQ x) pool -> tenths_of k part pool.
Proof.
  intros Hpart Hk (y & [= <-] & Hy & Hhi & Hlo) [Hphi Hplo]. unfold tenths_of. rewrite !Zle_Qle in *. unfold Z.sub in *.
  rewrite !inject_Z_mult, !inject_Z_plus in *. change (inject_Z 0) with 0%Q in *. change (inject_Z 1) with 1%Q in *. change (inject_Z (-(1))) with (-(1))%Q in *. change (inject_Z 10) with 10%Q in *.
  change (inject_Z (2 ^ 64)) with 18446744073709551616%Q in *. change (inject_Z (2 ^ 52)) with 4503599627370496%Q in *. change (inject_Z (2 ^ 50)) with 1125899906842624%Q in *.
  set (b := inject_Z part) in *. set (q := inject_Z pool) in *. set (c := inject_Z k) in *. set (m := toQ x) in *. clearbody b q c m.
  assert (Hbc : (0 <= b * c)%Q) by (by apply Qmult_le_0_compat).
  assert (Hb1 : (b * (m * 10 * 4503599627370496) <= b * (c * (4503599627370496 + 1)))%Q) by (rewrite !(Qmult_comm b); by apply Qmult_le_compat_r).
  assert (Hb2 : (b * (c * (4503599627370496 + - (1))) <= b * (m * 10 * 4503599627370496))%Q) by (rewrite !(Qmult_comm b); by apply Qmult_le_compat_r).
  set (bm := (b * m)%Q) in *. set (bc := (b * c)%Q) in *. assert (E1 : (b * (m * 10 * 4503599627370496) == bm * 45035996273704960)%Q) by (unfold bm; ring).
  assert (E2 : (b * (c * (4503599627370496 + 1)) == bc * 4503599627370497)%Q) by (unfold bc; ring).
  assert (E3 : (b * (c * (4503599627370496 + - (1))) == bc * 4503599627370495)%Q) by (unfold bc; ring).
  rewrite E1, E2 in Hb1. rewrite E1, E3 in Hb2. clearbody bm bc. split; lra.
Qed.

Lemma pools_run {E} supply r k multiplier n : 0 <= supply -> (0 <= toQ r)%Q -> 0 <= k -> about_tenths k multiplier -> 0 < n ->
  exists annual pool, pools (E:=E) supply (Fin r) multiplier n = Ok (annual, pool) /\ 0 <= annual /\ 0 <= pool /\
  part_of supply (toQ r) annual /\ tenths_of k (annual / n) pool.
Proof.
  intros Hs Hr Hk Hm Hn. pose proof Hm as (m & -> & Hm0 & _). unfold pools, mbind, outcome_bind.
  destruct (mul_rate (E:=E) supply r Hs Hr) as (annual & -> & Ha & _ & Hbound). cbn [nonnil].
  rewrite (proj2 (Z.eqb_neq n 0)) by lia. rewrite big_div_pos by lia.
  assert (Hq : 0 <= annual / n) by (apply Z.div_pos; lia).
  destruct (mul_rate (E:=E) (annual / n) m Hq Hm0) as (pool & -> & Hp & _ & Hp1). cbn [nonnil].
  exists annual, pool. split_and!; [done..|]. by apply (tenths_part k (annual / n) m pool Hq Hk).
Qed.

Lemma burn_run im pool : 0 <= pool -> exists b, calculateBurnAmount pool im = Ok b.
Proof.
  intros Hp. unfold calculateBurnAmount. destruct (f64_lt _ _); [|by eexists].
  destruct (mul_rate (E:=inf_err) pool (match f64_const 1 10 with Fin d => d | _ => Dy 0 0 end) Hp ltac:(vm_compute; discriminate)) as (b & Hb & _).
  replace (Fin _) with (f64_const 1 10) in Hb by (vm_compute; reflexivity).
  unfold mbind, outcome_bind. rewrite Hb. cbn [nonnil]. by eexists.
Qed.

Definition within_bounds (im : InflationManager) (x : dyadic) : Prop :=
  exists lo hi, minInflationRate im = Fin lo /\ maxInflationRate im = Fin hi /\ (0 <= toQ lo)%Q /\ (toQ lo <= toQ x)%Q /\ (toQ x <= toQ hi)%Q.

Lemma tenths_nonneg ratio target : 0 <= tenths ratio target.
Proof. unfold tenths. repeat case_match; lia. Qed.

Lemma calculate_run cfg now supply staked epoch im :
  good_im im -> sane_config cfg -> 0 < supply ->
  exists calc im' r annual pool s, CalculateEpochRewards cfg now supply staked epoch im = (Ok calc, im') /\ good_im im' /\
  rc_InflationRate calc = Fin r /\ within_bounds im r /\
  rc_AnnualRewardPool calc = String10 annual /\ 0 <= annual /\ part_of supply (toQ r) annual /\
  rc_EpochRewardPool calc = String10 pool /\ 0 <= pool /\ ratio_of (E:=inf_err) staked supply = Ok (rc_StakingRatio calc) /\
  tenths_of (tenths (rc_StakingRatio calc) (targetStakingRatio im)) (annual / epochsPerYear im) pool /\
  exact_split pool s /\ by_rates (communityTaxRate cfg) (reward_share cfg) pool s /\
  rc_ValidatorShare calc = String10 (ValidatorShare s) /\ rc_DelegatorShare calc = String10 (DelegatorShare s) /\
  rc_CommunityShare calc = String10 (CommunityShare s).
Proof.
  intros Hg Hc Hs. destruct (ratio_num (E:=inf_err) staked supply ltac:(lia)) as (ratio & Hratio & Hnum).
  set (im1 := adjustInflationRate (set_ratio ratio (set_epochs epoch (epochsPerYear im) im))).
  assert (Hg1 : good_im im1) by (apply adjust_good; by destruct Hg).
  assert (Hsame : minInflationRate im1 = minInflationRate im /\ maxInflationRate im1 = maxInflationRate im /\ epochsPerYear im1 = epochsPerYear im) by done.
  destruct Hsame as (Elo & Ehi & Een).
  destruct (gi_rate _ Hg1) as (lo & hi & Hlo & Hhi & H0 & Hle & (r & Hr & Hr1 & Hr2)).
  destruct (pools_run (E:=inf_err) supply r (tenths ratio (targetStakingRatio im)) (calculateStakingMultiplier im1) (epochsPerYear im1) ltac:(lia)
    ltac:(lra) (tenths_nonneg _ _) (multiplier_tenths ratio (targetStakingRatio im)) (gi_epochs _ Hg1)) as (annual & pool & Hpools & Ha & Hp & Hb & Hpa).
  destruct (split_exact (E:=inf_err) (communityTaxRate cfg) (reward_share cfg) pool Hp (tax_between cfg Hc) (share_between cfg Hc)) as (s & Hsplit & Hexact & Hby).
  destruct (burn_run im1 pool Hp) as (burn & Hburn).
  eexists _, (updateSupplyTracking now im1), r, annual, pool, s. split.
  - unfold CalculateEpochRewards, mbind, GoM_bind, modify, refuse_if, lift, get. rewrite (proj2 (Z.eqb_neq supply 0)) by lia. cbn [mret GoM_ret].
    rewrite Hratio. fold im1. rewrite Hr, Hpools. unfold distributeRewards, validatorRewardShare. rewrite Hsplit, Hburn. reflexivity.
  - split_and!; try done; [by destruct Hg1|]. exists lo, hi. by split_and!.
Qed.

(** ** Calls *)

Inductive im_call : Type :=
| Calculate (now supply staked epoch : Z)
| TargetInflation (rate : float64)
| TargetStaking (ratio : float64)
| Bounds (lo hi : float64)
| Adjustment (rate : float64)
| PerYear (epochs : Z)
| ResetHistory.

(** The arguments are numbers. *)
Definition numeric (c : im_call) : Prop :=
  match c with
  | TargetInflation x | TargetStaking x | Adjustment x => num x
  | Bounds lo hi => num lo /\ num hi
  | _ => True
  end.

Definition run_im (cfg : EconomicsConfig) (c : im_call) (im : InflationManager) : InflationManager :=
  match c with
  | Calculate now supply staked epoch => snd (CalculateEpochRewards cfg now supply staked epoch im)
  | TargetInflation x => snd (SetTargetInflationRate x im)
  | TargetStaking x => snd (SetTargetStakingRatio x im)
  | Bounds lo hi => snd (SetInflationBounds lo hi im)
  | Adjustment x => snd (SetInflationAdjustmentRate x im)
  | PerYear n => snd (UpdateEpochsPerYear n im)
  | ResetHistory => snd (ResetInflationHistory im)
  end.

(** A number that is neither below the one nor above the other. *)
Lemma in_range x lo hi : num x -> f64_lt x (Fin lo) || f64_lt (Fin hi) x = false -> between lo hi x.
Proof.
  intros Hx [H1 H2]%orb_false_iff. destruct x as [x|s|]; [|by destruct s|done]. exists x. split; [done|].
  rewrite <-not_true_iff_false, f64_lt_Fin in H1, H2. split; by apply Qnot_lt_le.
Qed.

Lemma const_fin x : f64_le x x = true -> (forall s, x <> Inf s) -> x = Fin (fin_of x).
Proof. intros H1 H2. destruct x as [x|s|]; [done|by destruct (H2 s)|done]. Qed.

Lemma staking_good x im : num x -> good_im im -> good_im (snd (SetTargetStakingRatio x im)).
Proof.
  intros Hx Hg. unfold SetTargetStakingRatio, mbind, GoM_bind, refuse_if.
  rewrite (const_fin (f64_const 1 10)), (const_fin (f64_const 9 10)) by (vm_compute; congruence).
  destruct (f64_lt x _ || f64_lt _ x) eqn:Hb; [done|]. apply in_range in Hb as (y & -> & _); [|done].
  destruct Hg. split; simpl; try done. by exists y.
Qed.
Lemma adjustment_good x im : num x -> good_im im -> good_im (snd (SetInflationAdjustmentRate x im)).
Proof.
  intros Hx Hg. unfold SetInflationAdjustmentRate, mbind, GoM_bind, refuse_if.
  rewrite (const_fin (f64_const 1 100)), (const_fin f1) by (vm_compute; congruence).
  destruct (f64_lt x _ || f64_lt _ x) eqn:Hb; [done|]. apply in_range in Hb as (y & -> & Hy & _); [|done].
  destruct Hg. split; simpl; try done. exists y. split; [done|]. intros Hz.
  unfold toQ at 2 in Hy. rewrite Hz in Hy. change (inject_Z 0) with 0%Q in Hy. rewrite Qmult_0_l in Hy. revert Hy. vm_compute. by intros [].
Qed.
Lemma bounds_good lo hi im : num lo -> num hi -> good_im im -> good_im (snd (SetInflationBounds lo hi im)).
Proof.
  intros Hlo Hhi Hg. destruct unit_value as (E0 & _ & H0 & _).
  unfold SetInflationBounds, mbind, GoM_bind, refuse_if. rewrite E0, (const_fin (f64_const 2 10)) by (vm_compute; congruence).
  destruct (f64_lt lo _ || f64_lt _ hi || f64_le hi lo) eqn:Hb; [done|]. apply orb_false_iff in Hb as [[H1 H2]%orb_false_iff H3].
  set (c := fin_of _) in *. clearbody c. destruct lo as [lo|[]|], hi as [hi|[]|]; try done.
  rewrite <-not_true_iff_false, f64_lt_Fin in H1. rewrite <-not_true_iff_false, f64_le_Fin in H3.
  apply Qnot_lt_le in H1. apply Qnot_le_lt in H3. rewrite H0 in H1.
  destruct Hg as [(? & ? & _ & _ & _ & _ & (r & Hr & _)) ? ? ? ?]. split; simpl; try done.
  exists lo, hi. split_and!; [done..|lra|]. rewrite Hr. apply clamp_between; [done|lra].
Qed.
Lemma calculate_good cfg now supply staked epoch im : 0 <= supply -> sane_config cfg -> good_im im ->
  good_im (snd (CalculateEpochRewards cfg now supply staked epoch im)).
Proof.
  intros Hs Hc Hg. destruct (decide (supply = 0)) as [->|].
  - unfold CalculateEpochRewards, mbind, GoM_bind, modify, refuse_if. simpl. by destruct Hg.
  - destruct (calculate_run cfg now supply staked epoch im Hg Hc ltac:(lia)) as (? & ? & ? & ? & ? & ? & -> & ? & _). done.
Qed.

(** A call that is refused changes nothing. *)
Lemma im_call_good cfg c im : sane_config cfg -> numeric c -> (forall now s t e, c = Calculate now s t e -> 0 <= s) ->
  good_im im -> good_im (run_im cfg c im).
Proof.
  intros Hc Hn Hpos Hg. destruct c as [now s t e|x|x|lo hi|x|n|]; cbn [run_im].
  - apply calculate_good; [by eapply Hpos|done..].
  - unfold SetTargetInflationRate, mbind, GoM_bind, refuse_if. destruct (_ || _); [done|]. by destruct Hg.
  - by apply staking_good.
  - destruct Hn. by apply bounds_good.
  - by apply adjustment_good.
  - unfold UpdateEpochsPerYear, mbind, GoM_bind, refuse_if. destruct ((n <=? 0) || _) eqn:Hb; [done|].
    destruct Hg. split; simpl; try done. zbool. lia.
  - by destruct Hg.
Qed.

(** The configuration: numbers, with a minimum below the default maximum, which
    stands in for a maximum that is not above the minimum. *)
Record sane_start (cfg : EconomicsConfig) : Prop := MkStart {
  ss_min : exists x, InflationMin cfg = Fin x /\ (toQ x <= toQ (fin_of defaultMaxInflationRate))%Q;
  ss_max : exists x, InflationMax cfg = Fin x;
  ss_rate : num (InflationRate cfg);
  ss_goal : num (GoalBonded cfg)
}.

Lemma new_good cfg : sane_start cfg -> good_im (NewInflationManager cfg).
Proof.
  intros [(x & Hx & Hx8) [y Hy] Hr Hgo]. destruct unit_value as (E0 & E1 & H0 & H1).
  unfold NewInflationManager. cbv zeta. rewrite Hx, Hy. set (lo := if f64_le (Fin x) f0 then _ else _).
  assert (Hlo : exists l, lo = Fin l /\ (0 <= toQ l)%Q /\ (toQ l <= toQ (fin_of defaultMaxInflationRate))%Q).
  { unfold lo. destruct (f64_le (Fin x) f0) eqn:Hle.
    - exists (fin_of defaultMinInflationRate). split_and!; vm_compute; [reflexivity|discriminate..].
    - exists x. rewrite E0, <-not_true_iff_false, f64_le_Fin, H0 in Hle. apply Qnot_le_lt in Hle. split_and!; [done|lra|done]. }
  destruct Hlo as (l & -> & Hl0 & Hl8). set (hi := if f64_le (Fin y) (Fin l) then _ else _).
  assert (Hhi : exists h, hi = Fin h /\ (toQ l <= toQ h)%Q).
  { unfold hi. destruct (f64_le (Fin y) (Fin l)) eqn:Hle.
    - exists (fin_of defaultMaxInflationRate). split; [vm_compute; reflexivity|done].
    - exists y. rewrite <-not_true_iff_false, f64_le_Fin in Hle. apply Qnot_le_lt in Hle. split; [done|lra]. }
  destruct Hhi as (h & -> & Hlh). split; simpl.
  - assert (Hd : num defaultTargetInflationRate) by (vm_compute; discriminate).
    exists l, h. split_and!; [reflexivity..|exact Hl0|exact Hlh|]. apply clamp_between; [|exact Hlh].
    destruct (f64_le (InflationRate cfg) f0); [exact Hd|exact Hr].
  - destruct (f64_le (GoalBonded cfg) f0 || _) eqn:Hb; [exists (fin_of defaultTargetStakingRatio); vm_compute; reflexivity|].
    apply orb_false_iff in Hb as [Hb1 Hb2]. rewrite E0 in Hb1. rewrite E1 in Hb2.
    destruct (GoalBonded cfg) as [g|[]|]; [eexists; reflexivity|discriminate Hb1|discriminate Hb2|by destruct Hgo].
  - exists (fin_of (f64_const 1 10)). split; [vm_compute; reflexivity|vm_compute; discriminate].
  - rewrite E0. discriminate.
  - reflexivity.
Qed.

(** The inflation rate stays in its bounds.  Whatever calls are made - epochs on
    any supply that is not negative, new targets, bounds and adjustment rates,
    as long as they are numbers - the current rate is a finite number between
    the current minimum and maximum, which are in order and not negative. *)
Theorem inflation_rate_stays_bounded cfg (calls : list im_call) :
  sane_start cfg -> sane_config cfg -> Forall numeric calls ->
  (forall now s t e, Calculate now s t e ∈ calls -> 0 <= s) ->
  let im := foldl (fun im c => run_im cfg c im) (NewInflationManager cfg) calls in
  exists r, currentInflationRate im = Fin r /\ within_bounds im r.
Proof.
  intros Hst Hc Hn Hpos im. assert (Hg : good_im im).
  { unfold im. assert (Hnew := new_good cfg Hst). revert Hnew. generalize (NewInflationManager cfg) as im0. clear im.
    induction Hn as [|c calls Hc1 _ IH]; intros im0 H0; [done|]. cbn [foldl]. apply IH.
    - intros now s t e Hin. apply (Hpos now s t e). by right.
    - apply im_call_good; try done. intros now s t e ->. apply (Hpos now s t e). by left. }
  destruct (gi_rate _ Hg) as (lo & hi & Hlo & Hhi & H0 & _ & (r & Hr & ? & ?)). exists r. split; [done|]. by exists lo, hi.
Qed.

(** C36. An epoch pays what its rates say.  For a manager whose rates are finite numbers,
    the bounds in order and the adjustment rate not zero, a configuration of numbers and a
    positive supply, the calculation returns; the year's pool is the supply times a rate
    within the bounds; the epoch's pool is 10, 11, 12 or 13 tenths of the year's pool divided
    by the epochs of a year, by how far the staking ratio is below its target; the
    community gets its tax of the pool, the validators their share of the rest, the
    delegators what is left, so that the three parts are not negative and add up to the
    pool exactly.  A product of an amount and a rate is off by at most one part in 2^64 (in
    2^50 for the tenths, which a float64 does not hold exactly) and the fraction cut
    off. *)
Theorem epoch_pool_split_exactly cfg now supply staked epoch im :
  good_im im -> sane_config cfg -> 0 < supply ->
  exists calc im' r annual pool s, CalculateEpochRewards cfg now supply staked epoch im = (Ok calc, im') /\
  rc_InflationRate calc = Fin r /\ within_bounds im r /\
  rc_AnnualRewardPool calc = String10 annual /\ part_of supply (toQ r) annual /\
  rc_EpochRewardPool calc = String10 pool /\ 0 <= pool /\ ratio_of (E:=inf_err) staked supply = Ok (rc_StakingRatio calc) /\
  tenths_of (tenths (rc_StakingRatio calc) (targetStakingRatio im)) (annual / epochsPerYear im) pool /\
  exact_split pool s /\ by_rates (communityTaxRate cfg) (reward_share cfg) pool s /\
  rc_ValidatorShare calc = String10 (ValidatorShare s) /\ rc_DelegatorShare calc = String10 (DelegatorShare s) /\
  rc_CommunityShare calc = String10 (CommunityShare s).
Proof.
  intros Hg Hc Hs. destruct (calculate_run cfg now supply staked epoch im Hg Hc Hs)
    as (calc & im' & r & annual & pool & s & Hrun & _ & Hr & Hw & Ha & _ & Hsplit).
  exists calc, im', r, annual, pool, s. exact (conj Hrun (conj Hr (conj Hw (conj Ha Hsplit)))).
Qed.

(** NaN is let through every check: a target that is not a number is stored, and the
    next epoch panics. *)
Definition demo_economics : EconomicsConfig :=
  MkEconomics (f64_const 4 100) (f64_const 8 100) (f64_const 1 100) (f64_const 67 100) "5" (f64_const 2 100) f0 f0 (f64_const 2 10) (f64_const 8 10) "0".
Example nan_target_panics :
  let call := SetTargetStakingRatio NaN (NewInflationManager demo_economics) in
  fst call = Ok tt /\ fst (CalculateEpochRewards demo_economics 0 (10 ^ 24) (10 ^ 23) 1 (snd call)) = Panic.
Proof. vm_compute. by split. Qed.

Module Demo.
Lemma economics_start : sane_start demo_economics.
Proof.
  split; [exists (fin_of (f64_const 1 100)); split; vm_compute; [reflexivity|discriminate]
         |exists (fin_of (f64_const 8 100)); vm_compute; reflexivity|vm_compute; discriminate..].
Qed.
Lemma economics_sane : sane_config demo_economics.
Proof. split; [vm_compute; discriminate|exists (fin_of (f64_const 2 10)); vm_compute; reflexivity|exists (fin_of (f64_const 8 10)); vm_compute; reflexivity]. Qed.

Definition demo_calls : list im_call := [Calculate 0 (10 ^ 24) (10 ^ 23) 1; Bounds (f64_const 2 100) (f64_const 5 100); Calculate 5 (10 ^ 24) (9 * 10 ^ 23) 2].
Lemma inflation_rate_stays_bounded_witness :
  let im := foldl (fun im c => run_im demo_economics c im) (NewInflationManager demo_economics) demo_calls in
  exists r, currentInflationRate im = Fin r /\ within_bounds im r.
Proof.
  apply (inflation_rate_stays_bounded demo_economics demo_calls economics_start economics_sane).
  - unfold demo_calls. repeat (apply Forall_cons; split); try apply Forall_nil; try exact I. split; vm_compute; discriminate.
  - intros now s t e Hin. unfold demo_calls in Hin. rewrite !elem_of_cons, elem_of_nil in Hin. destruct Hin as [[= -> -> -> ->]|[Hin|[[= -> -> -> ->]|[]]]]; [lia|discriminate|lia].
Defined.

(** A tenth of the supply is staked: the pool has three tenths on top. *)
Lemma epoch_pool_split_exactly_witness :
  exists calc im' annual pool s, CalculateEpochRewards demo_economics 0 (10 ^ 24) (10 ^ 23) 1 (NewInflationManager demo_economics) = (Ok calc, im') /\
  rc_EpochRewardPool calc = String10 pool /\ tenths_of 13 (annual / 365) pool /\ exact_split pool s.
Proof.
  destruct (epoch_pool_split_exactly demo_economics 0 (10 ^ 24) (10 ^ 23) 1 (NewInflationManager demo_economics) (new_good _ economics_start) economics_sane ltac:(lia))
    as (calc & im' & r & annual & pool & s & Hrun & _ & _ & _ & _ & Hp & _ & Hrat & Ht & Hs & _).
  exists calc, im', annual, pool, s.
  assert (H13 : tenths (rc_StakingRatio calc) (targetStakingRatio (NewInflationManager demo_economics)) = 13).
  { clear -Hrat. set (ratio := rc_StakingRatio calc) in *. clearbody ratio. vm_compute in Hrat. injection Hrat as <-. vm_compute. reflexivity. }
  rewrite H13 in Ht. split; [exact Hrun|]. split; [exact Hp|]. split; [exact Ht|exact Hs].
Defined.
End Demo.
