(* ===== verification/Rewards.v ===== *)
(** * Reward distribution (src/consensus/rewards/distributor.go)

    The epoch rewards: the pool from inflation, each validator's part by stake and
    performance, commissions and delegators, and the history that is kept.  Every
    call holds the distributor's mutex from start to end and none takes it twice,
    so a call is one step.  Payments go to the account manager of the world. *)

From S2P Require Import Prelude SafeMath Uint256 Address Storage AccountManager ShardedLock Governance Domains EvmGas World Floats Inflation.
From stdpp Require Import base tactics numbers list gmap strings sorting.
From Stdlib Require Import ZArith Lia Strings.Byte Strings.Ascii.
Open Scope Z_scope.
Open Scope list_scope.

Inductive rd_err : Type :=
| RD_SupplyIsZero
| NoActive (epoch : Z)
| InvalidTotalStake (total : string)
| InvalidPool (pool : string)
| CommissionFailed (e : am_err)
| DelegatorRewardFailed (address : string) (e : am_err)
| ValidatorFailed (address : string) (e : rd_err)
| UpdatesDisabled
| TargetInflationRange
| TargetStakingRange
| MinNotBelowMax
| RateRange
| TaxRange
| WithdrawalNotPositive
| PoolInsufficient
| WithdrawalFailed (e : am_err)
| NoHistory (address : string)
| NoSummary (epoch : Z).

Record DynamicInflationController : Type := MkIC {
  ic_targetInflationRate : float64;
  ic_targetStakingRatio : float64;
  ic_minInflationRate : float64;
  ic_maxInflationRate : float64;
  ic_inflationAdjustmentRate : float64;
  ic_epochsPerYear : Z
}.

Record EpochRewards : Type := MkEpochRewards {
  er_Epoch : Z;
  er_BlockReward : string;
  er_Commission : string;
  er_DelegatorRewards : string;
  er_PerformanceBonus : string;
  er_ConcentrationPenalty : string;
  er_BlocksProposed : Z;
  er_AttestationsMade : Z;
  er_PerformanceScore : float64;
  er_TotalStake : string;
  er_Timestamp : Z
}.

Record PerformanceEntry : Type := MkPerf { pe_Timestamp : Z; pe_Score : float64; pe_BlocksProposed : Z; pe_AttestationsMade : Z }.

Record ValidatorRewardHistory : Type := MkHistory {
  vh_ValidatorAddress : string;
  vh_TotalRewards : string;
  vh_TotalCommission : string;
  vh_RewardsDistributed : string;
  vh_EpochRewards : gmap Z EpochRewards;
  vh_PerformanceHistory : list PerformanceEntry;
  vh_LastRewardTime : Z;
  vh_AverageAPY : float64
}.

Record ValidatorRewardEntry : Type := MkRewardEntry {
  re_ValidatorAddress : string;
  re_TotalReward : string;
  re_Commission : string;
  re_PerformanceScore : float64;
  re_StakeShare : float64
}.

Record EpochRewardSummary : Type := MkSummary {
  su_Epoch : Z;
  su_TotalRewardsDistributed : string;
  su_ValidatorCount : Z;
  su_TotalStake : string;
  su_AveragePerformance : float64;
  su_TopValidators : list ValidatorRewardEntry;
  su_CommunityTax : string;
  su_InflationRate : float64;
  su_Timestamp : Z
}.

Record ValidatorRewardInfo : Type := MkInfo {
  ri_ValidatorAddress : string;
  ri_BaseReward : string;
  ri_PerformanceBonus : string;
  ri_ProposerBonus : string;
  ri_ConcentrationPenalty : string;
  ri_TotalValidatorReward : string;
  ri_Commission : string;
  ri_DelegatorRewards : string;
  ri_DelegatorDistribution : gmap string string;
  ri_PerformanceScore : float64;
  ri_StakeShare : float64
}.

Record RewardDistributionResult : Type := MkResult {
  rr_Epoch : Z;
  rr_TotalRewardsDistributed : string;
  rr_ValidatorRewards : gmap string ValidatorRewardInfo;
  rr_CommunityTaxCollected : string;
  rr_DistributionTime : Z;
  rr_ParticipatingValidators : Z;
  rr_AverageRewardPerValidator : string
}.

Record DynamicRewardCalculation : Type := MkDynamic {
  dc_Epoch : Z;
  dc_TotalSupply : string;
  dc_TotalStaked : string;
  dc_StakingRatio : float64;
  dc_InflationRate : float64;
  dc_AnnualRewardPool : string;
  dc_EpochRewardPool : string;
  dc_ValidatorShare : string;
  dc_DelegatorShare : string;
  dc_CommunityShare : string
}.

(** What the distributor knows of the economy, what it has paid, what it keeps. *)
Record economy : Type := MkEconomy {
  ec_inflationRate : float64;
  ec_stakingRatio : float64;
  ec_totalSupply : string;
  ec_totalStaked : string
}.
Record accounts_kept : Type := MkKept {
  communityPool : string;
  totalRewardsDistributed : string;
  totalTokensBurned : string
}.

Section Rewards.
Context `{MapOrder} {C F : Type} `{LRU C}.
Context (Keccak256 : list byte -> list byte) (shardID totalShards : Z).
Context (cfg : EconomicsConfig) (development : bool).

Record Distributor : Type := MkDistributor {
  rd_world : @world C F;
  ws_totalSupply : string;
  ws_totalStaked : string;
  inflationController : DynamicInflationController;
  rd_economy : economy;
  rd_kept : accounts_kept;
  rd_inflationRate : float64;
  rd_communityTaxRate : float64;
  rewardHistory : gmap string ValidatorRewardHistory;
  epochRewards : gmap Z EpochRewardSummary;
  performanceScores : gmap string float64;
  rd_currentEpoch : Z
}.
Notation Rd := (GoM Distributor rd_err).

Definition set_economy (e : economy) (d : Distributor) : Distributor :=
  MkDistributor (rd_world d) (ws_totalSupply d) (ws_totalStaked d) (inflationController d) e (rd_kept d) (rd_inflationRate d)
    (rd_communityTaxRate d) (rewardHistory d) (epochRewards d) (performanceScores d) (rd_currentEpoch d).
Definition set_kept (k : accounts_kept) (d : Distributor) : Distributor :=
  MkDistributor (rd_world d) (ws_totalSupply d) (ws_totalStaked d) (inflationController d) (rd_economy d) k (rd_inflationRate d)
    (rd_communityTaxRate d) (rewardHistory d) (epochRewards d) (performanceScores d) (rd_currentEpoch d).
Definition set_controller (ic : DynamicInflationController) (d : Distributor) : Distributor :=
  MkDistributor (rd_world d) (ws_totalSupply d) (ws_totalStaked d) ic (rd_economy d) (rd_kept d) (rd_inflationRate d)
    (rd_communityTaxRate d) (rewardHistory d) (epochRewards d) (performanceScores d) (rd_currentEpoch d).
Definition set_rates (inflation tax : float64) (d : Distributor) : Distributor :=
  MkDistributor (rd_world d) (ws_totalSupply d) (ws_totalStaked d) (inflationController d) (rd_economy d) (rd_kept d) inflation tax
    (rewardHistory d) (epochRewards d) (performanceScores d) (rd_currentEpoch d).
Definition set_history (h : gmap string ValidatorRewardHistory) (d : Distributor) : Distributor :=
  MkDistributor (rd_world d) (ws_totalSupply d) (ws_totalStaked d) (inflationController d) (rd_economy d) (rd_kept d) (rd_inflationRate d)
    (rd_communityTaxRate d) h (epochRewards d) (performanceScores d) (rd_currentEpoch d).
Definition set_summaries (s : gmap Z EpochRewardSummary) (d : Distributor) : Distributor :=
  MkDistributor (rd_world d) (ws_totalSupply d) (ws_totalStaked d) (inflationController d) (rd_economy d) (rd_kept d) (rd_inflationRate d)
    (rd_communityTaxRate d) (rewardHistory d) s (performanceScores d) (rd_currentEpoch d).
Definition set_scores (s : gmap string float64) (d : Distributor) : Distributor :=
  MkDistributor (rd_world d) (ws_totalSupply d) (ws_totalStaked d) (inflationController d) (rd_economy d) (rd_kept d) (rd_inflationRate d)
    (rd_communityTaxRate d) (rewardHistory d) (epochRewards d) s (rd_currentEpoch d).
Definition set_epoch (e : Z) (d : Distributor) : Distributor :=
  MkDistributor (rd_world d) (ws_totalSupply d) (ws_totalStaked d) (inflationController d) (rd_economy d) (rd_kept d) (rd_inflationRate d)
    (rd_communityTaxRate d) (rewardHistory d) (epochRewards d) (performanceScores d) e.
Definition set_rd_world (w : @world C F) (d : Distributor) : Distributor :=
  MkDistributor w (ws_totalSupply d) (ws_totalStaked d) (inflationController d) (rd_economy d) (rd_kept d) (rd_inflationRate d)
    (rd_communityTaxRate d) (rewardHistory d) (epochRewards d) (performanceScores d) (rd_currentEpoch d).

Definition NewDistributor (w : @world C F) (supply staked : string) : Distributor :=
  let target := if f64_le (InflationRate cfg) f0 then defaultTargetInflationRate else InflationRate cfg in
  let staking := if f64_le (GoalBonded cfg) f0 || f64_le f1 (GoalBonded cfg) then defaultTargetStakingRatio else GoalBonded cfg in
  let lo := if f64_le (InflationMin cfg) f0 then defaultMinInflationRate else InflationMin cfg in
  let hi := if f64_le (InflationMax cfg) lo then defaultMaxInflationRate else InflationMax cfg in
  let target := clampFloat target lo hi in
  MkDistributor w supply staked (MkIC target staking lo hi (f64_const 1 10) 365) (MkEconomy target f0 "" "") (MkKept "" "0" "0") target
    (CommunityTax cfg) ∅ ∅ ∅ 0.

(** [worldState.GetAccountManager().AddRewardsBig(address, amount)]. *)
Definition pay (f : am_err -> rd_err) (address : string) (amount : option Z) : Rd unit := fun d =>
  let '(r, w) := on_am f (AddRewardsBig Keccak256 shardID totalShards address amount) (rd_world d) in (r, set_rd_world w d).
Definition active_validators (d : Distributor) : list Validator := GetActiveValidators (registry_of (rd_world d)).

(** ** The economy *)

Definition rd_adjustInflationRate (d : Distributor) : Distributor :=
  let ic := inflationController d in
  let e := rd_economy d in
  set_economy (MkEconomy (adjusted_rate (ec_stakingRatio e) (ic_targetStakingRatio ic) (ic_inflationAdjustmentRate ic) (ec_inflationRate e)
    (ic_minInflationRate ic) (ic_maxInflationRate ic)) (ec_stakingRatio e) (ec_totalSupply e) (ec_totalStaked e)) d.

Definition updateEconomicState : Rd unit :=
  d ← get;
  let supply := ParseBigInt_string (ws_totalSupply d) in
  let staked := ParseBigInt_string (ws_totalStaked d) in
  let e := rd_economy d in
  _ ← modify (set_economy (MkEconomy (ec_inflationRate e) (ec_stakingRatio e) (String10 supply) (String10 staked)));
  _ ← refuse_if (supply =? 0) RD_SupplyIsZero;
  ratio ← lift (ratio_of staked supply);
  _ ← modify (set_economy (MkEconomy (ec_inflationRate e) ratio (String10 supply) (String10 staked)));
  modify rd_adjustInflationRate.

Definition rd_validatorRewardShare : float64 := reward_share cfg.
Definition distributeRewardShares (pool : string) (d : Distributor) : outcome rd_err shares :=
  split_pool (rd_communityTaxRate d) rd_validatorRewardShare (ParseBigInt_string pool).

Definition calculateDynamicRewards (epoch : Z) (d : Distributor) : outcome rd_err DynamicRewardCalculation :=
  let e := rd_economy d in
  let ic := inflationController d in
  '(annual, pool) ← pools (ParseBigInt_string (ec_totalSupply e)) (ec_inflationRate e)
    (staking_multiplier (ec_stakingRatio e) (ic_targetStakingRatio ic)) (ic_epochsPerYear ic);
  s ← distributeRewardShares (String10 pool) d;
  mret (MkDynamic epoch (ec_totalSupply e) (ec_totalStaked e) (ec_stakingRatio e) (ec_inflationRate e) (String10 annual) (String10 pool)
    (String10 (ValidatorShare s)) (String10 (DelegatorShare s)) (String10 (CommunityShare s))).

(** ** Burning *)

Definition rd_calculateBurnAmount (calc : DynamicRewardCalculation) (d : Distributor) : outcome rd_err string :=
  let target := ic_targetStakingRatio (inflationController d) in
  let above n := f64_lt (f64_mul target (f64_const n 100)) (ec_stakingRatio (rd_economy d)) in
  let burn n := b ← mulBigIntFloat (Some (ParseBigInt_string (dc_EpochRewardPool calc))) (f64_const n 100); mret (bigString b) in
  if above 125 then burn 15 else if above 115 then burn 10 else if above 105 then burn 5 else mret "0".
Definition add_burned (amount : string) (d : Distributor) : Distributor :=
  let k := rd_kept d in
  set_kept (MkKept (communityPool k) (totalRewardsDistributed k) (addBigIntStrings (totalTokensBurned k) amount)) d.
Definition burnTokens (amount : string) : Rd unit := modify (add_burned amount).

(** ** Performance *)

Definition seconds_per_year : Z := 365 * 24 * 3600.
Definition calculatePerformanceScore (now : Z) (v : Validator) : float64 :=
  let total := i64 (val_BlocksProposed v + val_BlocksMissed v) in
  if total =? 0 then f1
  else
    let uptime := f64_div (f64_of_int (val_BlocksProposed v)) (f64_of_int total) in
    let participation := if val_BlocksProposed v <? val_BlocksMissed v then f64_const 5 10 else f1 in
    let age := f64_of_int (i64 (now - val_CreatedAt v)) in
    let bonus := f64_min (f64_div age (f64_of_int seconds_per_year)) (f64_const 1 10) in
    let score := f64_add (f64_add (f64_mul uptime (f64_const 6 10)) (f64_mul participation (f64_const 3 10))) bonus in
    clampFloat score (f64_const 1 10) (f64_of_int 2).
Definition updatePerformanceScores (now : Z) (l : list Validator) (d : Distributor) : Distributor :=
  set_scores (foldl (fun m v => <[val_Address v := calculatePerformanceScore now v]> m) (performanceScores d) l) d.

Definition expectedBlocks : Z := 32.
Definition calculateProposerBonus (v : Validator) : outcome rd_err (option Z) :=
  if val_BlocksProposed v =? 0 then mret (Some 0)
  else
    let actual := if expectedBlocks <? val_BlocksProposed v then expectedBlocks else val_BlocksProposed v in
    mulBigIntFloat (Some (big_div (ParseBigInt_string (BlockReward cfg)) 10)) (f64_div (f64_of_int actual) (f64_of_int expectedBlocks)).

(** ** One validator *)

Definition maxValidatorRewardShare : float64 := f64_const 5 100.
Definition concentrationPenalty : float64 := f64_const 1 10.

(** The parts of a validator's reward. *)
Record parts : Type := MkParts {
  pt_share : float64;
  pt_score : float64;
  pt_base : option Z;
  pt_performance : option Z;
  pt_penalty : option Z;
  pt_proposer : option Z;
  pt_total : Z;
  pt_commission : option Z;
  pt_delegators : Z
}.
Definition reward_parts (score : option float64) (v : Validator) (pool total : Z) : outcome rd_err parts :=
  stakeShare ← ratio_of (ParseBigInt_bytes (val_Stake v)) total;
  base ← mulBigIntFloat (Some pool) stakeShare;
  let score := default f0 score in
  let score := if f64_eq score f0 then f1 else score in
  performance ← mulBigIntFloat base (f64_sub score f1);
  penalty ← (if f64_lt maxValidatorRewardShare stakeShare
             then mulBigIntFloat base (f64_mul (f64_sub stakeShare maxValidatorRewardShare) concentrationPenalty)
             else mret (Some 0));
  proposer ← calculateProposerBonus v;
  let sum := SubBig (Some (AddBig (Some (AddBig base performance)) proposer)) penalty in
  let sum := if sum <? 0 then 0 else sum in
  commission ← mulBigIntFloat (Some sum) (Float64frombits (val_Commission v));
  mret (MkParts stakeShare score base performance penalty proposer sum commission (SubBig (Some sum) commission)).

(** A delegator's part; an infinite one is nil and panics at its sign. *)
Definition delegator_part (amount delegated reward : Z) : outcome rd_err Z :=
  share ← big_Quo 0 (SetInt amount) (SetInt delegated);
  x ← big_Mul 0 (SetInt reward) share;
  nonnil (big_Int x).
Fixpoint pay_delegator_list (l : list (string * list byte)) (delegated reward : Z) (out : gmap string string) : Rd (gmap string string) :=
  match l with
  | [] => mret out
  | (address, amount) :: l =>
      part ← lift (delegator_part (ParseBigInt_bytes amount) delegated reward);
      if 0 <? part then
        _ ← pay (DelegatorRewardFailed address) address (Some part);
        pay_delegator_list l delegated reward (<[address := String10 part]> out)
      else pay_delegator_list l delegated reward out
  end.
Definition delegator_list (v : Validator) : list (string * list byte) :=
  omap (fun a => (fun b => (a, b)) <$> val_Delegators v !! a) (map_order (val_Delegators v)).
Definition distributeDelegatorRewardsDetailed (v : Validator) (totalReward : Z) : Rd (gmap string string) :=
  let delegated := ParseBigInt_bytes (val_DelegatedStake v) in
  if (totalReward <=? 0) || (delegated =? 0) then mret ∅
  else pay_delegator_list (delegator_list v) delegated totalReward ∅.

(** *** History *)

(** The order in which Go walks the map of a validator's epochs. *)
Context (epoch_order : gmap Z EpochRewards -> list Z).

Definition sum_epochs (f : EpochRewards -> Z) (l : list EpochRewards) : Z := foldr (fun e t => f e + t) 0 l.
Definition history_APY (h : gmap Z EpochRewards) : outcome rd_err float64 :=
  let recent := take 30 (omap (fun k => h !! k) (epoch_order h)) in
  let rewards := sum_epochs (fun e => ParseBigInt_string (er_BlockReward e) + ParseBigInt_string (er_Commission e)) recent in
  let stake := sum_epochs (fun e => ParseBigInt_string (er_TotalStake e)) recent in
  if (length recent =? 0)%nat || (stake =? 0) then mret f0
  else
    count ← NewFloat (f64_of_int (Z.of_nat (length recent)));
    avgReward ← big_Quo 0 (SetInt rewards) count;
    avgStake ← big_Quo 0 (SetInt stake) count;
    year ← NewFloat (f64_of_int 365);
    annual ← big_Mul 0 avgReward year;
    q ← big_Quo 0 annual avgStake;
    hundred ← NewFloat (f64_of_int 100);
    x ← big_Mul (bf_prec q) q hundred;
    mret (big_Float64 x).

Definition fresh_history (address : string) : ValidatorRewardHistory := MkHistory address "0" "0" "0" ∅ [] 0 f0.
Definition recordValidatorEpochReward (address : string) (epoch : Z) (e : EpochRewards) : Rd unit :=
  d ← get;
  let h := default (fresh_history address) (rewardHistory d !! address) in
  let epochs := <[epoch := e]> (vh_EpochRewards h) in
  let rewards := ParseBigInt_string (vh_TotalRewards h) + ParseBigInt_string (er_BlockReward e) + ParseBigInt_string (er_PerformanceBonus e) in
  let perf := vh_PerformanceHistory h ++ [MkPerf (er_Timestamp e) (er_PerformanceScore e) (er_BlocksProposed e) (er_AttestationsMade e)] in
  let perf := if (100 <? length perf)%nat then drop 1 perf else perf in
  average ← lift (history_APY epochs);
  modify (fun d => set_history (<[address := MkHistory (vh_ValidatorAddress h) (String10 rewards)
    (addBigIntStrings (vh_TotalCommission h) (er_Commission e)) (addBigIntStrings (vh_RewardsDistributed h) (er_DelegatorRewards e))
    epochs perf (er_Timestamp e) average]> (rewardHistory d)) d).

Definition distributeValidatorRewards (now : Z) (v : Validator) (totalRewardPool totalStake : string) (epoch : Z) : Rd ValidatorRewardInfo :=
  let pool := ParseBigInt_string totalRewardPool in
  let total := ParseBigInt_string totalStake in
  _ ← refuse_if (total <=? 0) (InvalidTotalStake totalStake);
  _ ← refuse_if (pool <? 0) (InvalidPool totalRewardPool);
  d ← get;
  p ← lift (reward_parts (performanceScores d !! val_Address v) v pool total);
  _ ← pay CommissionFailed (val_Address v) (pt_commission p);
  distribution ← (if 0 <? pt_delegators p then distributeDelegatorRewardsDetailed v (pt_delegators p) else mret ∅);
  _ ← recordValidatorEpochReward (val_Address v) epoch
        (MkEpochRewards epoch (bigString (pt_base p)) (bigString (pt_commission p)) (String10 (pt_delegators p)) (bigString (pt_performance p))
          (bigString (pt_penalty p)) 0 0 (pt_score p) (String10 (ParseBigInt_bytes (val_Stake v))) now);
  mret (MkInfo (val_Address v) (bigString (pt_base p)) (bigString (pt_performance p)) (bigString (pt_proposer p)) (bigString (pt_penalty p))
    (String10 (pt_total p)) (bigString (pt_commission p)) (String10 (pt_delegators p)) distribution (pt_score p) (pt_share p)).

Fixpoint distribute_loop (now : Z) (l : list Validator) (pool totalStake : string) (epoch : Z) (out : gmap string ValidatorRewardInfo)
  : Rd (gmap string ValidatorRewardInfo) :=
  match l with
  | [] => mret out
  | v :: l =>
      info ← wrapM (ValidatorFailed (val_Address v)) (distributeValidatorRewards now v pool totalStake epoch);
      distribute_loop now l pool totalStake epoch (<[val_Address v := info]> out)
  end.

(** *** The summary *)

Definition infos (m : gmap string ValidatorRewardInfo) : list (string * ValidatorRewardInfo) :=
  omap (fun a => (fun i => (a, i)) <$> m !! a) (map_order m).
Definition total_reward (i : ValidatorRewardInfo) : Z :=
  ParseBigInt_string (ri_TotalValidatorReward i) + ParseBigInt_string (ri_DelegatorRewards i).
Definition average_reward (m : gmap string ValidatorRewardInfo) : string :=
  if (size m =? 0)%nat then ""
  else String10 (big_div (foldr (fun i t => total_reward (snd i) + t) 0 (infos m)) (Z.of_nat (size m))).

(** Larger first; [sort.Slice] leaves the order of equal rewards open. *)
Definition by_reward (a b : ValidatorRewardEntry) : Prop := ParseBigInt_string (re_TotalReward b) <= ParseBigInt_string (re_TotalReward a).
#[global] Instance by_reward_dec : RelDecision by_reward.
Proof. intros a b. unfold by_reward. apply _. Defined.
Definition top_validators (m : gmap string ValidatorRewardInfo) : list ValidatorRewardEntry :=
  take 10 (merge_sort by_reward ((fun '(a, i) => MkRewardEntry a (String10 (total_reward i)) (ri_Commission i) (ri_PerformanceScore i) (ri_StakeShare i)) <$> infos m)).
Definition recordEpochSummary (now epoch : Z) (r : RewardDistributionResult) (l : list Validator) (totalStake : string) (d : Distributor) : Distributor :=
  let performance := foldl (fun t v => f64_add t (default f0 (performanceScores d !! val_Address v))) f0 l in
  set_summaries (<[epoch := MkSummary epoch (rr_TotalRewardsDistributed r) (Z.of_nat (length l)) totalStake
    (f64_div performance (f64_of_int (Z.of_nat (length l)))) (top_validators (rr_ValidatorRewards r)) (rr_CommunityTaxCollected r)
    (rd_inflationRate d) now]> (epochRewards d)) d.

(** ** The epoch *)

Definition DistributeEpochRewards (now elapsed epoch : Z) : Rd RewardDistributionResult :=
  _ ← modify (set_epoch epoch);
  _ ← updateEconomicState;
  d ← get;
  calc ← lift (calculateDynamicRewards epoch d);
  let active := active_validators d in
  _ ← refuse_if (length active =? 0)%nat (NoActive epoch);
  let pool := ParseBigInt_string (dc_EpochRewardPool calc) in
  tax ← lift (t ← mulBigIntFloat (Some pool) (rd_communityTaxRate d); nonnil t);
  let available := String10 (pool - tax) in
  _ ← modify (updatePerformanceScores now active);
  rewards ← distribute_loop now active available (dc_TotalStaked calc) epoch ∅;
  d ← get;
  burn ← lift (rd_calculateBurnAmount calc d);
  _ ← (if bool_decide (burn = "0") then mret tt else burnTokens burn);
  let r := MkResult epoch available rewards (String10 tax) elapsed (Z.of_nat (length active)) (average_reward rewards) in
  _ ← modify (recordEpochSummary now epoch r active (dc_TotalStaked calc));
  _ ← modify (fun d => let k := rd_kept d in
        set_kept (MkKept (communityPool k) (addBigIntStrings (totalRewardsDistributed k) available) (totalTokensBurned k)) d);
  _ ← (if bool_decide (burn = "0") then mret tt else modify (add_burned burn));
  mret r.

(** ** Settings and queries *)

Definition ensureRuntimeEconomicUpdatesAllowed : Rd unit := if development then mret tt else throw UpdatesDisabled.
Definition UpdateInflationParameters (inflation staking lo hi : float64) : Rd unit :=
  _ ← ensureRuntimeEconomicUpdatesAllowed;
  _ ← refuse_if (f64_lt inflation (f64_const 1 100) || f64_lt (f64_const 15 100) inflation) TargetInflationRange;
  _ ← refuse_if (f64_lt staking (f64_const 1 10) || f64_lt (f64_const 9 10) staking) TargetStakingRange;
  _ ← refuse_if (f64_le hi lo) MinNotBelowMax;
  modify (fun d => set_controller (MkIC inflation staking lo hi (ic_inflationAdjustmentRate (inflationController d))
    (ic_epochsPerYear (inflationController d))) d).
Definition UpdateInflationRate (rate : float64) : Rd unit :=
  _ ← ensureRuntimeEconomicUpdatesAllowed;
  _ ← refuse_if (f64_lt rate f0 || f64_lt f1 rate) RateRange;
  modify (fun d => set_rates rate (rd_communityTaxRate d) d).
Definition UpdateCommunityTaxRate (rate : float64) : Rd unit :=
  _ ← ensureRuntimeEconomicUpdatesAllowed;
  _ ← refuse_if (f64_lt rate f0 || f64_lt (f64_const 2 10) rate) TaxRange;
  modify (fun d => set_rates (rd_inflationRate d) rate d).

Definition WithdrawFromCommunityPool (amount recipient : string) : Rd unit :=
  d ← get;
  let amt := ParseBigInt_string amount in
  let pool := ParseBigInt_string (communityPool (rd_kept d)) in
  _ ← refuse_if (amt <=? 0) WithdrawalNotPositive;
  _ ← refuse_if (pool <? amt) PoolInsufficient;
  _ ← pay WithdrawalFailed recipient (Some amt);
  modify (fun d => let k := rd_kept d in set_kept (MkKept (String10 (pool - amt)) (totalRewardsDistributed k) (totalTokensBurned k)) d).

Definition GetValidatorRewardHistory (address : string) (d : Distributor) : outcome rd_err ValidatorRewardHistory :=
  match rewardHistory d !! address with Some h => Ok h | None => Err (NoHistory address) end.
Definition GetEpochRewardSummary (epoch : Z) (d : Distributor) : outcome rd_err EpochRewardSummary :=
  match epochRewards d !! epoch with Some s => Ok s | None => Err (NoSummary epoch) end.

(** The oldest epochs go; with a negative number all of them, and then the index
    leaves the slice. *)
Definition epochs_sorted {V} (m : gmap Z V) : list Z := merge_sort Z.le ((map_to_list m).*1).
Definition CleanupOldRewardData (maxEpochsToKeep : Z) : Rd unit := fun d =>
  let epochs := epochs_sorted (epochRewards d) in
  let n := Z.of_nat (length epochs) in
  if n <=? maxEpochsToKeep then (Ok tt, d)
  else
    let gone := take (Z.to_nat (n - maxEpochsToKeep)) epochs in
    (if maxEpochsToKeep <? 0 then Panic else Ok tt, set_summaries (foldl (fun m e => delete e m) (epochRewards d) gone) d).

Definition calculateTotalStake (l : list Validator) : Z := foldl (fun t v => t + ParseBigInt_bytes (val_Stake v)) 0 l.
Definition calculateAveragePerformance (d : Distributor) : float64 :=
  let m := performanceScores d in
  if (size m =? 0)%nat then f1
  else f64_div (foldl (fun t a => f64_add t (default f0 (m !! a))) f0 (map_order m)) (f64_of_int (Z.of_nat (size m))).
Definition averageCommissionRate (d : Distributor) : float64 :=
  match active_validators d with
  | [] => f0
  | l => f64_div (foldl (fun t v => f64_add t (clampFloat (Float64frombits (val_Commission v)) f0 f1)) f0 l) (f64_of_int (Z.of_nat (length l)))
  end.

Definition CalculateEstimatedAPY (stakeAmount : string) (d : Distributor) : outcome rd_err float64 :=
  let total := calculateTotalStake (active_validators d) in
  if total =? 0 then mret f0
  else
    let stake := ParseBigInt_string stakeAmount in
    inflated ← mulBigIntFloat (Some (ParseBigInt_string (ValidatorRewardPool cfg))) (f64_add f1 (rd_inflationRate d));
    net ← (n ← mulBigIntFloat inflated (f64_sub f1 (rd_communityTaxRate d)); nonnil n);
    share ← big_Quo 0 (SetInt stake) (SetInt (total + stake));
    estimate ← big_Mul 0 (SetInt net) share;
    q ← big_Quo 0 estimate (SetInt stake);
    hundred ← NewFloat (f64_of_int 100);
    x ← big_Mul (bf_prec q) q hundred;
    mret (f64_mul (big_Float64 x) (calculateAveragePerformance d)).

(** *** Metrics *)

Definition base_apy (d : Distributor) : float64 := f64_div (ec_inflationRate (rd_economy d)) (ec_stakingRatio (rd_economy d)).
Definition calculateValidatorAPY_Global (d : Distributor) : float64 :=
  if f64_eq (ec_stakingRatio (rd_economy d)) f0 then f0
  else
    let base := base_apy d in
    let share := rd_validatorRewardShare in
    f64_mul (f64_add (f64_mul base share) (f64_mul (f64_mul base (f64_sub f1 share)) (averageCommissionRate d))) (f64_of_int 100).
Definition rd_calculateDelegatorAPY (d : Distributor) : float64 :=
  if f64_eq (ec_stakingRatio (rd_economy d)) f0 then f0
  else f64_mul (f64_mul (f64_mul (base_apy d) (f64_sub f1 rd_validatorRewardShare)) (f64_sub f1 (averageCommissionRate d))) (f64_of_int 100).

Inductive health : Type := Excellent | Good | Fair | Poor.
Inductive advice : Type := Continue | MinorAdjustments | Rebalance | LowStaking | ExcessiveStaking | Imbalanced.
Definition assessEconomicHealth (d : Distributor) : health * advice :=
  let ic := inflationController d in
  let e := rd_economy d in
  let target := ic_targetStakingRatio ic in
  let staking := f64_abs (f64_sub (ec_stakingRatio e) target) in
  let inflation := f64_abs (f64_sub (ec_inflationRate e) (ic_targetInflationRate ic)) in
  let within a b := f64_lt staking (f64_const a 100) && f64_lt inflation (f64_const b 100) in
  if within 5 1 then (Excellent, Continue)
  else if within 10 2 then (Good, MinorAdjustments)
  else if within 20 3 then (Fair, Rebalance)
  else if f64_lt (ec_stakingRatio e) (f64_mul target (f64_const 5 10)) then (Poor, LowStaking)
  else if f64_lt (f64_mul target (f64_const 15 10)) (ec_stakingRatio e) then (Poor, ExcessiveStaking)
  else (Poor, Imbalanced).

Record EconomicMetrics : Type := MkEM {
  em_CirculatingSupply : string;
  em_AnnualRewardPool : string;
  em_ValidatorAPY : float64;
  em_DelegatorAPY : float64;
  em_BurnRate : float64;
  em_health : health * advice
}.
Definition GetEconomicMetrics (d : Distributor) : outcome rd_err EconomicMetrics :=
  let e := rd_economy d in
  let supply := ParseBigInt_string (ec_totalSupply e) in
  annual ← mulBigIntFloat (Some supply) (ec_inflationRate e);
  burnRate ← (if 0 <? supply then ratio_of (ParseBigInt_string (totalTokensBurned (rd_kept d))) supply else mret f0);
  mret (MkEM (String10 (supply - ParseBigInt_string (ec_totalStaked e))) (bigString annual) (calculateValidatorAPY_Global d)
    (rd_calculateDelegatorAPY d) burnRate (assessEconomicHealth d)).
End Rewards.
