(* ===== verification/RewardsSpec.v ===== *)
(** * What the distributor pays, and what it forgets *)

From S2P Require Import Prelude SafeMath Uint256 Address Storage AccountManager AccountSpec ShardedLock Governance Domains EvmGas World.
From S2P Require Import Executor ExecutorSpec ExecutorThms Floats Inflation InflationSpec Rewards.
From stdpp Require Import base tactics numbers list gmap strings sorting.
From Stdlib Require Import ZArith Lia Strings.Byte Strings.Ascii.
Open Scope Z_scope.
Open Scope list_scope.

(** ** Payments on the ledger *)

Notation payment := (string * Z)%type.
Definition reward_add (n : Z) (a : acct) : acct := MkAcct (bal a) (staked a) (rewards a + n) (deleg a) (nonce a).
Definition credit (pays : list payment) (L : ledger) : ledger := foldl (fun L p => <[p.1 := reward_add p.2 (entry L p.1)]> L) L pays.
Definition received (a : string) (pays : list payment) : Z := foldr (fun p t => (if bool_decide (p.1 = a) then p.2 else 0) + t) 0 pays.
Definition total_paid (pays : list payment) : Z := foldr (fun p t => p.2 + t) 0 pays.

Lemma total_paid_app l k : total_paid (l ++ k) = total_paid l + total_paid k.
Proof. induction l as [|p l IH]; simpl; lia. Qed.
Lemma received_app a l k : received a (l ++ k) = received a l + received a k.
Proof. induction l as [|p l IH]; simpl; lia. Qed.
Lemma credit_app l k L : credit (l ++ k) L = credit k (credit l L).
Proof. apply foldl_app. Qed.
Lemma credit_supply pays : forall L, supply (credit pays L) = supply L + total_paid pays.
Proof.
  induction pays as [|[a n] pays IH]; intros L; simpl; [lia|]. rewrite IH, supply_insert. unfold funds. simpl. lia.
Qed.
(** Only rewards change, by what each account received. *)
Lemma credit_entry pays a : forall L, entry (credit pays L) a = reward_add (received a pays) (entry L a).
Proof.
  induction pays as [|[b n] pays IH]; intros L; cbn [credit foldl received foldr fst snd].
  - destruct (entry L a). unfold reward_add. simpl. f_equal. lia.
  - unfold credit in IH. rewrite IH. case_bool_decide as Hb.
    + subst b. unfold entry at 1. rewrite lookup_insert_eq. unfold reward_add. simpl. f_equal. fold (received a pays). lia.
    + rewrite entry_insert_ne by done. by rewrite Z.add_0_l.
Qed.

Lemma total_paid_nonneg pays : Forall (fun p => 0 < p.2) pays -> 0 <= total_paid pays.
Proof. induction 1; simpl in *; lia. Qed.

(** Keys that come from distinct elements are distinct. *)
Lemma omap_keys {X} (f : X -> option payment) (g : X -> string) l :
  (forall x y, f x = Some y -> y.1 = g x) -> NoDup (g <$> l) -> NoDup ((omap f l).*1) /\ forall p, p ∈ omap f l -> p.1 ∈ g <$> l.
Proof.
  intros Hf. induction l as [|x l IH]; [split; cbn; [constructor|by intros p ?%elem_of_nil]|]. cbn. rewrite NoDup_cons. intros [Hx Hl]. destruct (IH Hl) as [IHn IHe].
  destruct (f x) as [y|] eqn:Hy; cbn; [|split; [done|]; intros p Hp; right; by apply IHe].
  apply Hf in Hy. split.
  - constructor; [|done]. intros (p & Hp & Hin)%list_elem_of_fmap. apply Hx. rewrite <-Hy, Hp. by apply IHe.
  - intros p [->|Hp]%elem_of_cons; [rewrite Hy; by left|right; by apply IHe].
Qed.

(** What is reported of payments: amounts as strings, by account. *)
Definition as_map (pays : list payment) (m : gmap string string) : gmap string string := foldl (fun m p => <[p.1 := String10 p.2]> m) m pays.
Lemma as_map_spec pays : forall m, NoDup (pays.*1) -> (forall p, p ∈ pays -> m !! p.1 = None) ->
  map_sum ParseBigInt_string (as_map pays m) = map_sum ParseBigInt_string m + total_paid pays /\
  forall a, ParseBigInt_string (default "" (as_map pays m !! a)) = ParseBigInt_string (default "" (m !! a)) + received a pays.
Proof.
  induction pays as [|[b n] pays IH]; intros m Hnd Hm; cbn [as_map foldl total_paid received foldr fst snd]; [split; [lia|intros; lia]|].
  cbn in Hnd. apply NoDup_cons in Hnd as [Hb Hnd]. assert (Hmb : m !! b = None) by (apply (Hm (b, n)); by left).
  destruct (IH (<[b := String10 n]> m) Hnd) as [IHs IHa].
  { intros p Hp. rewrite lookup_insert_ne; [apply Hm; by right|]. intros ->. apply Hb. apply list_elem_of_fmap. by exists p. }
  unfold as_map in *. fold (total_paid pays). split.
  - rewrite IHs, map_sum_insert_None, ParseBigInt_String10 by done. lia.
  - intros a. rewrite IHa. fold (received a pays). case_bool_decide as Hab.
    + subst b. rewrite lookup_insert_eq, Hmb. simpl. rewrite ParseBigInt_String10. change (ParseBigInt_string "") with 0. lia.
    + rewrite lookup_insert_ne by done. lia.
Qed.

Section RewardsSpec.
Context `{MapOrder} {C F : Type} `{LRU C, !LRULaws C}.
Context (Keccak256 : list byte -> list byte) (shardID totalShards : Z).
Context (cfg : EconomicsConfig) (development : bool) (epoch_order : gmap Z EpochRewards -> list Z).
Notation Distributor := (@Distributor C F).
Notation Rd := (GoM Distributor rd_err).
Notation pay := (pay (C:=C) (F:=F) Keccak256 shardID totalShards).
Notation good := (good Keccak256 shardID totalShards ∅).

Definition books (d : Distributor) : ledger := abs (w_am (rd_world d)).
Definition sound (d : Distributor) : Prop := good (w_am (rd_world d)) /\ quiet (db (w_am (rd_world d))).

(** What a run of payments has done: the ledger, and nothing else of the world. *)
Definition paid (pays : list payment) (d d' : Distributor) : Prop :=
  sound d' /\ books d' = credit pays (books d) /\ Forall (fun p => 0 < p.2) pays.

Lemma pay_ok f address amount d d' :
  sound d -> supply (books d) + Z.max 0 (default 0 amount) < two256 -> pay f address amount d = (Ok tt, d') ->
  exists n, amount = Some n /\ paid [(address, n)] d d'.
Proof.
  intros [Hg Hq] Hsup. unfold Rewards.pay, on_am, on_accounts, wrapM. destruct amount as [n|]; [|done].
  destruct (AddRewardsBig_refines Keccak256 shardID totalShards address n (w_am (rd_world d)) Hg Hq Hsup) as (r & s & Hrun & Hg' & Hq' & Hspec).
  rewrite Hrun. intros Hok. exists n. split; [done|]. destruct r as [[]|e| |]; simpl in Hok; try done. injection Hok as <-.
  unfold spec_AddRewards in Hspec. destruct (Z.leb_spec n 0); [by destruct Hspec|]. destruct (negb _); [by destruct Hspec|].
  destruct Hspec as [_ Habs]. split_and!; [done..|by repeat constructor].
Qed.

Lemma pay_some f address amount d d' : pay f address amount d = (Ok tt, d') -> exists n, amount = Some n /\ 0 < n.
Proof.
  unfold Rewards.pay, on_am, on_accounts, wrapM, AddRewardsBig. destruct amount as [n|]; [|done]. intros Hrun. exists n. split; [done|].
  unfold mbind, GoM_bind, refuse_if in Hrun. destruct (Z.leb_spec (Z.sgn n) 0); [done|lia].
Qed.

(** *** Delegators *)

Definition delegator_pays (l : list (string * list byte)) (delegated reward : Z) : list payment :=
  omap (fun '(a, b) => match delegator_part (ParseBigInt_bytes b) delegated reward with
                       | Ok p => if 0 <? p then Some (a, p) else None
                       | _ => None
                       end) l.
Lemma delegator_pays_positive l delegated reward : Forall (fun p => 0 < p.2) (delegator_pays l delegated reward).
Proof.
  apply Forall_forall. intros p ([a b] & _ & Hp)%list_elem_of_omap. destruct (delegator_part _ _ _) as [n| | |]; try done.
  destruct (Z.ltb_spec 0 n); [|done]. by injection Hp as <-.
Qed.
Lemma delegator_pays_keys l delegated reward : NoDup (l.*1) -> NoDup ((delegator_pays l delegated reward).*1).
Proof.
  intros Hl. refine (proj1 (omap_keys _ fst l _ Hl)). intros [a b] y Hy. destruct (delegator_part _ _ _) as [n| | |]; try done.
  destruct (0 <? n); by simplify_eq.
Qed.

Definition step_paid (pays : list payment) (d d' : Distributor) : Prop :=
  (sound d -> supply (books d) + total_paid pays < two256 -> paid pays d d') /\ rd_kept d' = rd_kept d.
Lemma step_paid_app l k d d1 d2 : Forall (fun p => 0 < p.2) k -> step_paid l d d1 -> step_paid k d1 d2 -> step_paid (l ++ k) d d2.
Proof.
  intros Hk [H1' S1] [H2' S2]. split; [|congruence]. rewrite total_paid_app. intros Hs Hsup.
  pose proof (total_paid_nonneg k Hk). destruct (H1' Hs ltac:(lia)) as (Hs1 & Hb1 & Hp1).
  destruct (H2' Hs1) as (Hs2 & Hb2 & Hp2); [rewrite Hb1, credit_supply; lia|].
  split_and!; [done|by rewrite credit_app, <-Hb1|by apply Forall_app].
Qed.
Lemma pay_step f address n d d' : 0 < n -> pay f address (Some n) d = (Ok tt, d') -> step_paid [(address, n)] d d'.
Proof.
  intros Hn Hrun. split.
  - intros Hs Hsup. destruct (pay_ok f address (Some n) d d' Hs) as (m & [= <-] & Hp); [simpl in *; lia|done..].
  - unfold Rewards.pay in Hrun. destruct (on_am _ _ _) as [r w]. by injection Hrun as _ <-.
Qed.
Lemma step_paid_nil d d' : rd_world d' = rd_world d -> rd_kept d' = rd_kept d -> step_paid [] d d'.
Proof. intros Hw Hp. split; [|done]. intros [Hg Hq] _. unfold paid, sound, books. rewrite Hw. split_and!; [exact Hg|exact Hq|done|constructor]. Qed.

Lemma pay_list_step l delegated reward : forall out d out' d',
  pay_delegator_list Keccak256 shardID totalShards l delegated reward out d = (Ok out', d') ->
  out' = as_map (delegator_pays l delegated reward) out /\ step_paid (delegator_pays l delegated reward) d d'.
Proof.
  induction l as [|[a b] l IH]; intros out d out' d'; cbn [pay_delegator_list]; [intros [= <- <-]; split; [done|by apply step_paid_nil]|].
  intros (part & d1 & Hpart & Hrun)%GoM_bind_inv_ok. unfold lift in Hpart. injection Hpart as Hpart <-.
  unfold delegator_pays. cbn [omap list_omap]. rewrite Hpart. destruct (Z.ltb_spec 0 part) as [Hpos|].
  - apply GoM_bind_inv_ok in Hrun as ([] & d2 & Hpay & Hrun). apply IH in Hrun as [-> Hs]. split; [done|].
    apply (step_paid_app [(a, part)]) with d2; [apply delegator_pays_positive|by eapply pay_step|done].
  - by apply IH in Hrun.
Qed.

Definition distribution_pays (v : Validator) (reward : Z) : list payment :=
  let delegated := ParseBigInt_bytes (val_DelegatedStake v) in
  if (reward <=? 0) || (delegated =? 0) then [] else delegator_pays (delegator_list v) delegated reward.
Lemma distribution_pays_spec v reward : Forall (fun p => 0 < p.2) (distribution_pays v reward) /\ NoDup ((distribution_pays v reward).*1).
Proof.
  unfold distribution_pays. destruct (_ || _); [by split; constructor|]. split; [apply delegator_pays_positive|]. apply delegator_pays_keys.
  unfold delegator_list. set (m := val_Delegators v).
  assert (Hk : forall l : list string, NoDup l -> NoDup ((omap (fun a => (fun b => (a, b)) <$> m !! a) l).*1) /\
                 forall a, a ∈ (omap (fun a => (fun b => (a, b)) <$> m !! a) l).*1 -> a ∈ l).
  { induction l as [|a l IH]; [split; cbn; [constructor|by intros a ?%elem_of_nil]|]. intros [Ha Hl]%NoDup_cons. destruct (IH Hl) as [IHn IHe]. cbn.
    destruct (m !! a); cbn; [|split; [done|]; intros x Hx; right; by apply IHe].
    split; [constructor; [|done]; intros Hin; by apply Ha, IHe|]. intros x [->|Hx]%elem_of_cons; [by left|right; by apply IHe]. }
  apply Hk, map_order_NoDup.
Qed.

(** *** One validator *)

(** The report of a validator and the payments behind it. *)
Definition reports (i : ValidatorRewardInfo) (pays : list payment) : Prop :=
  exists n rest, pays = (ri_ValidatorAddress i, n) :: rest /\ 0 < n /\ Forall (fun p => 0 < p.2) rest /\ NoDup (rest.*1) /\
  ri_Commission i = String10 n /\ ri_DelegatorDistribution i = as_map rest ∅.
Definition info_received (a : string) (i : ValidatorRewardInfo) : Z :=
  (if bool_decide (ri_ValidatorAddress i = a) then ParseBigInt_string (ri_Commission i) else 0) +
  ParseBigInt_string (default "" (ri_DelegatorDistribution i !! a)).
Definition info_total (i : ValidatorRewardInfo) : Z :=
  ParseBigInt_string (ri_Commission i) + map_sum ParseBigInt_string (ri_DelegatorDistribution i).
Lemma reports_spec i pays : reports i pays ->
  Forall (fun p => 0 < p.2) pays /\ total_paid pays = info_total i /\ forall a, received a pays = info_received a i.
Proof.
  intros (n & rest & -> & Hn & Hpos & Hnd & Hc & Hd). destruct (as_map_spec rest ∅ Hnd ltac:(done)) as [Hs Ha].
  unfold info_total, info_received. rewrite Hc, Hd, Hs, ParseBigInt_String10, map_sum_empty. split_and!; [by constructor|simpl; lia|].
  intros a. rewrite Ha, lookup_empty. change (ParseBigInt_string (default "" None)) with 0. cbn [received foldr fst snd]. fold (received a rest). lia.
Qed.

Lemma record_step address epoch e d d' : recordValidatorEpochReward (C:=C) (F:=F) epoch_order address epoch e d = (Ok tt, d') ->
  rd_world d' = rd_world d /\ rd_kept d' = rd_kept d.
Proof.
  unfold recordValidatorEpochReward, mbind, GoM_bind, get, lift. destruct (history_APY _ _) as [x| | |]; try done. by intros [= <-].
Qed.

Notation distribute_one := (distributeValidatorRewards (C:=C) (F:=F) Keccak256 shardID totalShards cfg epoch_order).
Lemma validator_step now v pool total epoch d i d' :
  distribute_one now v pool total epoch d = (Ok i, d') ->
  exists pays, reports i pays /\ ri_ValidatorAddress i = val_Address v /\ step_paid pays d d'.
Proof.
  intros (? & d0 & Href & Hrun)%GoM_bind_inv_ok. unfold refuse_if in Href. destruct (_ <=? 0); [done|]. injection Href as _ <-.
  apply GoM_bind_inv_ok in Hrun as (? & d0 & Href & Hrun). unfold refuse_if in Href. destruct (_ <? 0); [done|]. injection Href as _ <-.
  apply GoM_bind_inv_ok in Hrun as (? & ? & [= <- <-] & Hrun). apply GoM_bind_inv_ok in Hrun as (p & d1 & Hp & Hrun).
  unfold lift in Hp. injection Hp as Hp <-. apply GoM_bind_inv_ok in Hrun as ([] & d2 & Hpay & Hrun).
  destruct (pay_some _ _ _ _ _ Hpay) as (n & Hn & Hpos). rewrite Hn in Hpay.
  apply GoM_bind_inv_ok in Hrun as (dist & d3 & Hdist & Hrun). apply GoM_bind_inv_ok in Hrun as ([] & d4 & Hrec & [= <- <-]).
  set (rest := if 0 <? pt_delegators p then distribution_pays v (pt_delegators p) else []).
  assert (Hrest : Forall (fun p => 0 < p.2) rest /\ NoDup (rest.*1)).
  { unfold rest. destruct (0 <? _); [apply distribution_pays_spec|by split; constructor]. }
  assert (Hd : dist = as_map rest ∅ /\ step_paid rest d2 d3).
  { unfold rest. destruct (0 <? pt_delegators p); [|injection Hdist as <- <-; split; [done|by apply step_paid_nil]].
    unfold distributeDelegatorRewardsDetailed, distribution_pays in *. destruct (_ || _); [injection Hdist as <- <-; split; [done|by apply step_paid_nil]|].
    by apply pay_list_step in Hdist. }
  destruct Hd as [-> Hd3]. destruct Hrest as [Hr1 Hr2]. exists ((val_Address v, n) :: rest). split_and!; [|done|].
  - exists n, rest. rewrite Hn. by split_and!.
  - destruct (record_step _ _ _ _ _ Hrec) as [Hw Hs]. apply (step_paid_app [(val_Address v, n)] rest d d2 d4 Hr1); [by eapply pay_step|].
    rewrite <-(app_nil_r rest). apply step_paid_app with d3; [constructor|done|by apply step_paid_nil].
Qed.

(** *** All of them *)

Notation distribute_loop := (distribute_loop (C:=C) (F:=F) Keccak256 shardID totalShards cfg epoch_order).
Lemma loop_step now pool total epoch l : forall out d out' d',
  NoDup (val_Address <$> l) -> (forall v, v ∈ l -> out !! val_Address v = None) ->
  distribute_loop now l pool total epoch out d = (Ok out', d') ->
  exists pays, step_paid pays d d' /\ Forall (fun p => 0 < p.2) pays /\ map_sum info_total out' = map_sum info_total out + total_paid pays /\
  forall a, map_sum (info_received a) out' = map_sum (info_received a) out + received a pays.
Proof.
  induction l as [|v l IH]; intros out d out' d' Hnd Hout; cbn [Rewards.distribute_loop].
  { intros [= <- <-]. exists []. split_and!; [by apply step_paid_nil|constructor|simpl; lia|intros a; simpl; lia]. }
  cbn in Hnd. apply NoDup_cons in Hnd as [Hv Hnd].
  intros (i & d1 & Hone & Hrun)%GoM_bind_inv_ok. unfold wrapM in Hone. destruct (distribute_one _ _ _ _ _ d) as [r d1'] eqn:Hv1.
  destruct r as [i'| | |]; try done. cbn in Hone. injection Hone as -> <-. apply validator_step in Hv1 as (pays1 & Hrep & Haddr & Hs1).
  destruct (reports_spec _ _ Hrep) as (Hpos1 & Ht1 & Ha1).
  destruct (IH (<[val_Address v := i]> out) d1' out' d' Hnd) as (pays2 & Hs2 & Hpos2 & Ht2 & Ha2); [|exact Hrun|].
  { intros w Hw. rewrite lookup_insert_ne; [apply Hout; by right|]. intros He. apply Hv. rewrite He. apply list_elem_of_fmap. by exists w. }
  assert (Hnone : out !! val_Address v = None) by (apply Hout; by left).
  exists (pays1 ++ pays2). split_and!; [by apply step_paid_app with d1'|by apply Forall_app| |].
  - rewrite Ht2, map_sum_insert_None, total_paid_app by done. lia.
  - intros a. rewrite Ha2, map_sum_insert_None, received_app, Ha1 by done. lia.
Qed.

(** ** The epoch *)

Notation DistributeEpochRewards := (DistributeEpochRewards (C:=C) (F:=F) Keccak256 shardID totalShards cfg epoch_order).
Lemma economic_step d d' : updateEconomicState (C:=C) (F:=F) d = (Ok tt, d') ->
  rd_world d' = rd_world d /\ rd_kept d' = rd_kept d.
Proof.
  unfold updateEconomicState, mbind, GoM_bind, get, modify, refuse_if, lift. destruct (_ =? 0); [done|]. cbn [mret GoM_ret].
  destruct (ratio_of (E:=rd_err) _ _); try done. by intros [= <-].
Qed.

(** The books of a distributor, and the counters, after an epoch. *)
Lemma epoch_step now elapsed epoch d r d' :
  NoDup (val_Address <$> active_validators d) ->
  DistributeEpochRewards now elapsed epoch d = (Ok r, d') ->
  exists pays calc burn, (sound d -> supply (books d) + total_paid pays < two256 -> paid pays d d') /\
  map_sum info_total (rr_ValidatorRewards r) = total_paid pays /\ (forall a, map_sum (info_received a) (rr_ValidatorRewards r) = received a pays) /\
  rd_calculateBurnAmount calc d' = Ok burn /\
  ParseBigInt_string (dc_EpochRewardPool calc) = ParseBigInt_string (rr_TotalRewardsDistributed r) + ParseBigInt_string (rr_CommunityTaxCollected r) /\
  communityPool (rd_kept d') = communityPool (rd_kept d) /\
  ParseBigInt_string (totalRewardsDistributed (rd_kept d')) = ParseBigInt_string (totalRewardsDistributed (rd_kept d)) + ParseBigInt_string (rr_TotalRewardsDistributed r) /\
  ParseBigInt_string (totalTokensBurned (rd_kept d')) = ParseBigInt_string (totalTokensBurned (rd_kept d)) + 2 * ParseBigInt_string burn.
Proof.
  intros Hnd (? & d0 & [= _ <-] & Hrun)%GoM_bind_inv_ok. apply GoM_bind_inv_ok in Hrun as ([] & d1 & Hec & Hrun).
  apply economic_step in Hec as [Hw1 Hk1]. cbn in Hw1, Hk1.
  apply GoM_bind_inv_ok in Hrun as (? & ? & [= <- <-] & Hrun). apply GoM_bind_inv_ok in Hrun as (calc & d2 & Hc & Hrun). unfold lift in Hc. injection Hc as Hc <-.
  apply GoM_bind_inv_ok in Hrun as (? & d2 & Href & Hrun). unfold refuse_if in Href. destruct (_ =? 0)%nat; [done|]. injection Href as _ <-.
  apply GoM_bind_inv_ok in Hrun as (tax & d2 & Ht & Hrun). unfold lift in Ht. injection Ht as Ht <-.
  apply GoM_bind_inv_ok in Hrun as (? & d2 & [= _ <-] & Hrun). apply GoM_bind_inv_ok in Hrun as (infos & d3 & Hloop & Hrun).
  apply GoM_bind_inv_ok in Hrun as (? & ? & [= <- <-] & Hrun). apply GoM_bind_inv_ok in Hrun as (burn & d4 & Hb & Hrun). unfold lift in Hb. injection Hb as Hb <-.
  assert (Hact : active_validators d1 = active_validators d) by (unfold active_validators; by rewrite Hw1).
  apply loop_step in Hloop as (pays & [Hpaid Hk3] & Hpos & Htot & Hrec); [|by rewrite Hact|done].
  cbn in Hk3. rewrite Hk1 in Hk3.
  exists pays, calc, burn. revert Hrun. unfold mbind, GoM_bind, modify, burnTokens.
  assert (Hzero : forall b : bool, b = bool_decide (burn = "0") -> if b then ParseBigInt_string burn = 0 else True) by (intros [] Hz; [by case_bool_decide as Hz'; subst|done]).
  specialize (Hzero _ eq_refl). destruct (bool_decide (burn = "0")); intros [= <- <-]; cbn; rewrite Hk3; unfold addBigIntStrings; rewrite ?ParseBigInt_String10;
    (split_and!; [|by rewrite Htot, map_sum_empty|intros a; by rewrite Hrec, map_sum_empty|exact Hb|lia|done|done|lia]);
    intros [Hg Hq] Hsup; (destruct Hpaid as ([Hg' Hq'] & Hbk & Hps); [unfold sound; cbn; rewrite Hw1; done|unfold books in *; cbn in *; by rewrite Hw1|]);
    (split; [split; [exact Hg'|exact Hq']|]); (split; [|exact Hps]); unfold books in *; cbn in *; by rewrite Hbk, Hw1.
Qed.

(** C22. An epoch pays what it reports.  When the distribution succeeds, each account's
    rewards have grown by exactly what the result lists for it - commissions and
    delegator parts - and nothing else of any account has changed; the money
    created is the sum of the lists. *)
Theorem epoch_rewards_are_booked now elapsed epoch (d d' : Distributor) r :
  sound d -> NoDup (val_Address <$> active_validators d) ->
  DistributeEpochRewards now elapsed epoch d = (Ok r, d') ->
  supply (books d) + map_sum info_total (rr_ValidatorRewards r) < two256 ->
  sound d' /\ supply (books d') = supply (books d) + map_sum info_total (rr_ValidatorRewards r) /\
  forall a, entry (books d') a = reward_add (map_sum (info_received a) (rr_ValidatorRewards r)) (entry (books d) a).
Proof.
  intros Hs Hnd Hrun Hsup. destruct (epoch_step now elapsed epoch d r d' Hnd Hrun) as (pays & calc & burn & Hpaid & Htot & Hrec & _).
  rewrite Htot in *. destruct (Hpaid Hs Hsup) as (Hs' & Hb & _). split_and!; [done|by rewrite Hb, credit_supply|].
  intros a. by rewrite Hb, credit_entry, Hrec.
Qed.

(** What is burned is entered twice.  After an epoch the counter of burned tokens has
    grown by twice the burn amount of the epoch's pool, and the counter of rewards
    by the pool less the community tax. *)
Theorem burned_tokens_counted_twice now elapsed epoch (d d' : Distributor) r :
  NoDup (val_Address <$> active_validators d) ->
  DistributeEpochRewards now elapsed epoch d = (Ok r, d') ->
  exists calc burn, rd_calculateBurnAmount calc d' = Ok burn /\
  ParseBigInt_string (dc_EpochRewardPool calc) = ParseBigInt_string (rr_TotalRewardsDistributed r) + ParseBigInt_string (rr_CommunityTaxCollected r) /\
  ParseBigInt_string (totalRewardsDistributed (rd_kept d')) = ParseBigInt_string (totalRewardsDistributed (rd_kept d)) + ParseBigInt_string (rr_TotalRewardsDistributed r) /\
  ParseBigInt_string (totalTokensBurned (rd_kept d')) = ParseBigInt_string (totalTokensBurned (rd_kept d)) + 2 * ParseBigInt_string burn.
Proof.
  intros Hnd Hrun. destruct (epoch_step now elapsed epoch d r d' Hnd Hrun) as (pays & calc & burn & _ & _ & _ & Hb & Hp & _ & Hr & Ht).
  by exists calc, burn.
Qed.

(** *** A validator without commission *)

Lemma mul_zero {E} a e : mulBigIntFloat (E:=E) (Some a) (Fin (Dy 0 e)) = Ok (Some 0).
Proof.
  unfold mulBigIntFloat, big_Mul, mbind, outcome_bind. cbn [NewFloat bf_val SetInt mant expo]. rewrite Z.mul_0_r. reflexivity.
Qed.
Lemma free_parts e score v pool total p : Float64frombits (val_Commission v) = Fin (Dy 0 e) ->
  reward_parts cfg score v pool total = Ok p -> pt_commission p = Some 0.
Proof.
  intros Hc. unfold reward_parts. rewrite Hc.
  intros (x1 & _ & Hk)%outcome_bind_inv_ok. apply outcome_bind_inv_ok in Hk as (x2 & _ & Hk). apply outcome_bind_inv_ok in Hk as (x3 & _ & Hk).
  apply outcome_bind_inv_ok in Hk as (x4 & _ & Hk). apply outcome_bind_inv_ok in Hk as (x5 & _ & Hk). apply outcome_bind_inv_ok in Hk as (c & Hm & [= <-]).
  rewrite mul_zero in Hm. by injection Hm as <-.
Qed.
Lemma free_validator_fails e now v pool total epoch d i d' : Float64frombits (val_Commission v) = Fin (Dy 0 e) ->
  distribute_one now v pool total epoch d <> (Ok i, d').
Proof.
  intros Hc (? & d0 & Href & Hrun)%GoM_bind_inv_ok. apply GoM_bind_inv_ok in Hrun as (? & d1 & _ & Hrun).
  apply GoM_bind_inv_ok in Hrun as (? & d2 & _ & Hrun). apply GoM_bind_inv_ok in Hrun as (p & d3 & Hp & Hrun). unfold lift in Hp. injection Hp as Hp _.
  apply GoM_bind_inv_ok in Hrun as ([] & d4 & Hpay & _). apply (free_parts e) in Hp; [|done]. rewrite Hp in Hpay.
  apply pay_some in Hpay as (n & [= <-] & ?). lia.
Qed.
Lemma free_loop_fails e now v pool total epoch l : Float64frombits (val_Commission v) = Fin (Dy 0 e) -> v ∈ l ->
  forall out d out' d', distribute_loop now l pool total epoch out d <> (Ok out', d').
Proof.
  intros Hc. induction l as [|w l IH]; intros Hin out d out' d'; [by apply elem_of_nil in Hin|]. cbn [Rewards.distribute_loop].
  intros (i & d1 & Hone & Hrun)%GoM_bind_inv_ok. apply elem_of_cons in Hin as [->|Hin]; [|by eapply IH].
  unfold wrapM in Hone. destruct (distribute_one _ w _ _ _ d) as [x d0] eqn:Hw. destruct x; try done. by eapply free_validator_fails.
Qed.

(** One validator that takes no commission stops the rewards of everyone.  The
    account manager refuses a payment of zero, and the distribution gives up at
    the first refusal: while an active validator's commission is zero, no epoch
    succeeds. *)
Theorem zero_commission_blocks_the_epoch now elapsed epoch (d : Distributor) v e :
  v ∈ active_validators d -> Float64frombits (val_Commission v) = Fin (Dy 0 e) ->
  is_ok (fst (DistributeEpochRewards now elapsed epoch d)) = false.
Proof.
  intros Hin Hc. destruct (DistributeEpochRewards now elapsed epoch d) as [r d'] eqn:Hrun. destruct r as [r| | |]; try done. exfalso.
  apply GoM_bind_inv_ok in Hrun as (? & d0 & [= _ <-] & Hrun). apply GoM_bind_inv_ok in Hrun as ([] & d1 & Hec & Hrun).
  apply economic_step in Hec as [Hw1 _]. apply GoM_bind_inv_ok in Hrun as (? & ? & [= <- <-] & Hrun).
  apply GoM_bind_inv_ok in Hrun as (calc & d2 & _ & Hrun). apply GoM_bind_inv_ok in Hrun as (? & d3 & _ & Hrun).
  apply GoM_bind_inv_ok in Hrun as (tax & d4 & _ & Hrun). apply GoM_bind_inv_ok in Hrun as (? & d5 & _ & Hrun).
  apply GoM_bind_inv_ok in Hrun as (infos & d6 & Hloop & _). eapply free_loop_fails; [exact Hc| |exact Hloop].
  unfold active_validators. by rewrite Hw1.
Qed.

(** *** The community pool *)

Definition same_pool (d d' : Distributor) : Prop := communityPool (rd_kept d') = communityPool (rd_kept d).
#[local] Instance same_pool_preorder : PreOrder same_pool.
Proof. unfold same_pool. split; [done|]. intros x y z ? ?. congruence. Qed.
Lemma modify_pool (f : Distributor -> Distributor) : (forall d, same_pool d (f d)) -> keeps same_pool (modify f : Rd unit).
Proof. intros Hf d. apply Hf. Qed.
Lemma pay_pool f address amount : keeps same_pool (pay f address amount).
Proof. intros d. unfold Rewards.pay. by destruct (on_am _ _ _). Qed.
#[local] Hint Resolve pay_pool modify_pool : frame.
Ltac pool_frame := frame; try (apply modify_pool; by intros []).

Lemma delegators_pool l delegated reward : forall out, keeps same_pool (pay_delegator_list (C:=C) (F:=F) Keccak256 shardID totalShards l delegated reward out).
Proof. induction l as [|[a b] l IH]; intros out; cbn [pay_delegator_list]; pool_frame. Qed.
#[local] Hint Resolve delegators_pool : frame.
Lemma one_pool now v pool total epoch : keeps same_pool (distribute_one now v pool total epoch).
Proof. unfold distributeValidatorRewards, distributeDelegatorRewardsDetailed, recordValidatorEpochReward. pool_frame. Qed.
#[local] Hint Resolve one_pool : frame.
Lemma loop_pool now pool total epoch l : forall out, keeps same_pool (distribute_loop now l pool total epoch out).
Proof. induction l as [|v l IH]; intros out; cbn [Rewards.distribute_loop]; pool_frame. Qed.
#[local] Hint Resolve loop_pool : frame.
Lemma epoch_pool now elapsed epoch : keeps same_pool (DistributeEpochRewards now elapsed epoch).
Proof. unfold Rewards.DistributeEpochRewards, updateEconomicState, burnTokens. pool_frame. Qed.

Lemma parameters_pool a b lo hi : keeps same_pool (UpdateInflationParameters (C:=C) (F:=F) development a b lo hi).
Proof. unfold UpdateInflationParameters, ensureRuntimeEconomicUpdatesAllowed. pool_frame. Qed.
Lemma rate_pool r : keeps same_pool (UpdateInflationRate (C:=C) (F:=F) development r).
Proof. unfold UpdateInflationRate, ensureRuntimeEconomicUpdatesAllowed. pool_frame. Qed.
Lemma tax_pool r : keeps same_pool (UpdateCommunityTaxRate (C:=C) (F:=F) development r).
Proof. unfold UpdateCommunityTaxRate, ensureRuntimeEconomicUpdatesAllowed. pool_frame. Qed.

(** Everything that can be asked of a distributor; what other components do to the
    world in between is a step too. *)
Inductive rd_call : Type :=
| Epoch (now elapsed epoch : Z)
| Parameters (inflation staking lo hi : float64)
| Rate (rate : float64)
| Tax (rate : float64)
| Withdraw (amount recipient : string)
| Cleanup (n : Z)
| Outside (w : @world C F) (supply staked : string).
Definition run_rd (c : rd_call) (d : Distributor) : Distributor :=
  match c with
  | Epoch now elapsed epoch => snd (DistributeEpochRewards now elapsed epoch d)
  | Parameters a b lo hi => snd (UpdateInflationParameters development a b lo hi d)
  | Rate r => snd (UpdateInflationRate development r d)
  | Tax r => snd (UpdateCommunityTaxRate development r d)
  | Withdraw amount recipient => snd (WithdrawFromCommunityPool Keccak256 shardID totalShards amount recipient d)
  | Cleanup n => snd (CleanupOldRewardData n d)
  | Outside w supply staked =>
      MkDistributor w supply staked (inflationController d) (rd_economy d) (rd_kept d) (rd_inflationRate d) (rd_communityTaxRate d)
        (rewardHistory d) (epochRewards d) (performanceScores d) (rd_currentEpoch d)
  end.

Lemma withdraw_refused amount recipient (d : Distributor) : communityPool (rd_kept d) = "" ->
  exists e, WithdrawFromCommunityPool Keccak256 shardID totalShards amount recipient d = (Err e, d).
Proof.
  intros Hp. unfold WithdrawFromCommunityPool, mbind, GoM_bind, get, refuse_if. rewrite Hp. change (ParseBigInt_string "") with 0.
  destruct (Z.leb_spec (ParseBigInt_string amount) 0); [by eexists|]. cbn [mret GoM_ret]. rewrite (proj2 (Z.ltb_lt _ _)) by done. by eexists.
Qed.

(** The community never sees its tax.  Every epoch takes the community tax out of
    the pool and reports it, but nothing is ever put into the community pool:
    after any calls it is empty, and every withdrawal is refused. *)
Theorem community_pool_never_filled (calls : list rd_call) w supply staked :
  let d := foldl (fun d c => run_rd c d) (NewDistributor cfg w supply staked) calls in
  communityPool (rd_kept d) = "" /\
  forall amount recipient, exists e, WithdrawFromCommunityPool Keccak256 shardID totalShards amount recipient d = (Err e, d).
Proof.
  intros d. assert (Hd : communityPool (rd_kept d) = ""); [|split; [done|intros; by apply withdraw_refused]].
  unfold d. assert (H0' : communityPool (rd_kept (NewDistributor (C:=C) (F:=F) cfg w supply staked)) = "") by done. revert H0'.
  generalize (NewDistributor (C:=C) (F:=F) cfg w supply staked). clear d. induction calls as [|c calls IH]; intros d Hd; [done|]. cbn [foldl]. apply IH.
  destruct c as [now elapsed epoch|a b lo hi|r|r|amount recipient|n|w' s' t']; cbn [run_rd].
  - by rewrite (epoch_pool now elapsed epoch d).
  - by rewrite (parameters_pool a b lo hi d).
  - by rewrite (rate_pool r d).
  - by rewrite (tax_pool r d).
  - destruct (withdraw_refused amount recipient d Hd) as [e ->]. done.
  - unfold CleanupOldRewardData. by destruct (_ <=? _).
  - done.
Qed.
End RewardsSpec.

Module Demo.
#[local] Instance demo_LRU4 : LRU (list (string * loc)) := list_LRU 1.
#[local] Instance demo_LRU4_laws : LRULaws (list (string * loc)) := list_LRU_laws 1.

Definition tenth : Z := 0x3FB999999999999A.
Definition demo_validator (address : string) (stake : Z) (delegators : gmap string (list byte)) (commission : Z) : Validator :=
  MkValidator address [] "" "" "" (Bytes stake) (Bytes stake) (Bytes (10 ^ 20)) delegators commission true 0 0 0 0 0.
Definition demo_world (commission : Z) : @world (list (string * loc)) permille :=
  MkWorld (start demo_kv) NewShardedMutex no_versions
    {[alice := demo_validator alice (6 * 10 ^ 20) {[bob := Bytes (10 ^ 20)]} tenth; bob := demo_validator bob (4 * 10 ^ 20) ∅ commission]} demo_config new_revm.
Definition demo_distributor (commission : Z) : @Distributor (list (string * loc)) permille :=
  NewDistributor demo_economics (demo_world commission) "1000000000000000000000000" "1000000000000000000000".
Notation demo_epoch := (DistributeEpochRewards no_hash BeaconShardID 1 demo_economics (fun m => (map_to_list m).*1) 1000 0 1).
Notation first_epoch := (demo_epoch (demo_distributor tenth)).
Definition no_result : RewardDistributionResult := MkResult 0 "" ∅ "" 0 0 "".
Definition demo_result : RewardDistributionResult := match fst first_epoch with Ok r => r | _ => no_result end.
Definition total_of (r : RewardDistributionResult) : Z := map_sum info_total (rr_ValidatorRewards r).

Lemma demo_ok : first_epoch = (Ok demo_result, snd first_epoch).
Proof. unfold demo_result. assert (Hok : is_ok (fst first_epoch) = true) by (vm_compute; reflexivity). revert Hok. destruct first_epoch as [[r| | |] d]; [reflexivity|discriminate..]. Qed.

Lemma epoch_rewards_are_booked_witness :
  0 < total_of demo_result /\ supply (books (snd first_epoch)) = supply (books (demo_distributor tenth)) + total_of demo_result /\
  rewards (entry (books (snd first_epoch)) bob) = map_sum (info_received bob) (rr_ValidatorRewards demo_result).
Proof.
  assert (Hpos : 0 < total_of demo_result) by (vm_compute; reflexivity). split; [exact Hpos|].
  destruct (epoch_rewards_are_booked no_hash BeaconShardID 1 demo_economics (fun m => (map_to_list m).*1) 1000 0 1 (demo_distributor tenth) (snd first_epoch) demo_result)
    as (_ & Hs & Ha).
  - split; [apply boot_good|reflexivity].
  - apply (bool_decide_unpack _). vm_compute. reflexivity.
  - apply demo_ok.
  - vm_compute. reflexivity.
  - split; [exact Hs|]. rewrite Ha. assert (H0 : rewards (entry (books (demo_distributor tenth)) bob) = 0) by (vm_compute; reflexivity).
    unfold reward_add. cbn [rewards]. rewrite H0. apply Z.add_0_l.
Defined.

(** The validator that is first by address has been paid when the second fails. *)
Lemma zero_commission_blocks_the_epoch_witness :
  is_ok (fst (demo_epoch (demo_distributor 0))) = false /\
  0 < rewards (entry (books (snd (demo_epoch (demo_distributor 0)))) alice) + rewards (entry (books (snd (demo_epoch (demo_distributor 0)))) bob).
Proof.
  split; [|vm_compute; reflexivity].
  apply (zero_commission_blocks_the_epoch no_hash BeaconShardID 1 demo_economics (fun m => (map_to_list m).*1) 1000 0 1 (demo_distributor 0) (demo_validator bob (4 * 10 ^ 20) ∅ 0) (-1074)).
  - apply list_elem_of_lookup_2 with 1%nat. vm_compute. reflexivity.
  - vm_compute. reflexivity.
Defined.

Example tax_is_collected : 0 < ParseBigInt_string (rr_CommunityTaxCollected demo_result) /\ communityPool (rd_kept (snd first_epoch)) = "".
Proof. vm_compute. by split. Qed.
End Demo.
