(* ===== verification/ValidatorManager.v ===== *)
(** * The validator manager (src/consensus/validator/validator.go)

    Registration, activation, slashing, jailing, delegation and unbonding of
    validators.  [ws.GetValidator] returns the object the world state holds, so a
    change to it is seen at once, whatever [UpdateValidator] says afterwards; it is
    written back under the key it was found with.  The manager's mutex is part of
    the state, because one call takes it twice.  [clock i] is the i-th reading of
    the clock in a call, in seconds.  A nil map of delegators is an empty one. *)

From S2P Require Import Prelude SafeMath Uint256 Address Storage AccountManager ShardedLock Governance Domains EvmGas World Floats Inflation.
From stdpp Require Import base tactics numbers list gmap strings sorting.
From Stdlib Require Import ZArith Lia Strings.Byte Strings.Ascii.
Open Scope Z_scope.
Open Scope list_scope.

Definition DefaultMaxSlashingEvents : Z := 3.
Definition DefaultMinStakeRetention : float64 := f64_const 5 10.
Definition defaultUnbondingBlockTime : Z := 3 * 1000000000.
Definition commissionUpdateInterval : Z := 24 * 3600.
Definition unbondingQueueMetadataKey : string := "validator/unbonding_queue".

Definition SlashingDoubleSign : string := "double_sign".
Definition SlashingDowntime : string := "downtime".
Definition SlashingInvalidBlock : string := "invalid_block".

(** The part of the configuration that is used here; durations in nanoseconds. *)
Record ValidatorConfig : Type := MkValidatorConfig {
  vc_MinValidatorStake : string;
  vc_MaxValidatorStake : string;
  vc_MinSelfStake : string;
  vc_MaxStakePercentage : float64;
  vc_MaxCommission : float64;
  vc_CommissionChangeMax : float64;
  vc_MaxSlashingEvents : Z;
  vc_MinStakeRetention : float64;
  vc_AutoRemoveOnDoubleSign : bool;
  vc_SlashFractionDoubleSign : float64;
  vc_SlashFractionDowntime : float64;
  vc_MaxDelegationsPerValidator : Z;
  vc_SignedBlocksWindow : Z;
  vc_MinSignedPerWindow : float64;
  vc_UnbondingPeriod : Z;
  vc_BlockTime : Z;
  vc_OwnershipDomainsEnabled : bool
}.

Inductive vm_err : Type :=
| VM_NotFound (address : string)
| VM_UpdateFailed (e : reg_err)
| AddressMismatch
| VM_AddressInvalid (e : address_err)
| VM_PubkeyEmpty
| StakeBelowMinimum
| StakeAboveMaximum
| ConcentrationLimit
| DomainLimit
| DomainLoadFailed (e : gov_err)
| CommissionRange
| AlreadyExists (address : string)
| AddFailed (e : reg_err)
| SelfStakeBelowMinimum
| IsJailed (until : Z)
| NotActive (address : string)
| UnknownReason (reason : string)
| NotJailed
| JailNotExpired
| CommissionChangeTooLarge
| CommissionTooSoon
| DowntimeCheckFailed (e : vm_err)
| TooManyDelegators
| DelegationShort
| PersistFailed (e : storage_err)
| LoadFailed (e : storage_err)
| QueueUndecodable
| NoMetrics (address : string).

Record JailEvent : Type := MkJail { je_Reason : string; je_JailTime : Z; je_UnjailTime : Z; je_Duration : Z }.
Record ValidatorMetrics : Type := MkVM {
  vmt_Address : string;
  vmt_BlocksProposed : Z;
  vmt_BlocksMissed : Z;
  vmt_AttestationsMade : Z;
  vmt_AttestationsMissed : Z;
  vmt_LastActivity : Z;
  vmt_UptimePercentage : float64;
  vmt_SlashCount : Z;
  vmt_TotalSlashed : string;
  vmt_JailHistory : list JailEvent
}.
Record SlashingEvent : Type := MkSlash {
  se_ValidatorAddress : string;
  se_Reason : string;
  se_Amount : string;
  se_BlockHeight : Z;
  se_Timestamp : Z;
  se_Evidence : list byte
}.
Record VUnbondingEntry : Type := MkVUnbonding {
  vu_ValidatorAddress : string;
  vu_DelegatorAddress : string;
  vu_Amount : string;
  vu_CompletionBlock : Z;
  vu_CreatedAt : Z
}.
Notation queue := (gmap string (list VUnbondingEntry)).

(** ** Fields of a validator *)

Definition set_stakes (stake self delegated : list byte) (delegators : gmap string (list byte)) (v : Validator) : Validator :=
  let '(MkValidator ad pk nm de we _ _ _ _ co ac bp bm ju cr up) := v in
  MkValidator ad pk nm de we stake self delegated delegators co ac bp bm ju cr up.
Definition set_status (active : bool) (jail : Z) (v : Validator) : Validator :=
  let '(MkValidator ad pk nm de we st ss ds dl co _ bp bm _ cr up) := v in
  MkValidator ad pk nm de we st ss ds dl co active bp bm jail cr up.
Definition set_Commission (commission : Z) (v : Validator) : Validator :=
  let '(MkValidator ad pk nm de we st ss ds dl _ ac bp bm ju cr up) := v in
  MkValidator ad pk nm de we st ss ds dl commission ac bp bm ju cr up.
Definition set_blocks (proposed missed : Z) (v : Validator) : Validator :=
  let '(MkValidator ad pk nm de we st ss ds dl co ac _ _ ju cr up) := v in
  MkValidator ad pk nm de we st ss ds dl co ac proposed missed ju cr up.
Definition touch (now : Z) (v : Validator) : Validator := set_times (val_CreatedAt v) now v.
Definition stake_of (v : Validator) : Z := ParseBigInt_bytes (val_Stake v).

(** ** Slashing the parts of a stake *)

(** The part of [slash] that falls on one delegator: the last one, or the one that
    has all that is left, takes the rest.  A division by zero panics. *)
Definition share_of (last : bool) (amount slash stake : Z) : outcome vm_err Z :=
  if 0 <? slash then
    if last || (stake =? amount) then mret (Z.min amount slash)
    else if stake =? 0 then Panic
    else mret (Z.min amount (big_div (slash * amount) stake))
  else mret 0.

(** A delegator's pending unbondings shrink in proportion. *)
Fixpoint slash_entries (validatorAddr : string) (entries : list VUnbondingEntry) (slash base : Z) : list VUnbondingEntry :=
  match entries with
  | [] => []
  | e :: entries =>
      let amount := ParseBigInt_string (vu_Amount e) in
      if bool_decide (vu_ValidatorAddress e <> validatorAddr) || (amount <=? 0) then e :: slash_entries validatorAddr entries slash base
      else
        let part := if (0 <? slash) && (0 <? base) then Z.min amount (big_div (slash * amount) base) else 0 in
        MkVUnbonding (vu_ValidatorAddress e) (vu_DelegatorAddress e) (String10 (amount - part)) (vu_CompletionBlock e) (vu_CreatedAt e) ::
        slash_entries validatorAddr entries (slash - part) (base - amount)
  end.
Definition applySlashToPendingUnbondings (delegatorAddr validatorAddr : string) (totalDelegation delegatorSlash : Z) (q : queue) : queue :=
  if (delegatorSlash <=? 0) || (totalDelegation <=? 0) then q
  else match q !! delegatorAddr with
       | None => q
       | Some entries => <[delegatorAddr := slash_entries validatorAddr entries delegatorSlash totalDelegation]> q
       end.

Fixpoint slash_delegators (validatorAddr : string) (addresses : list string) (slash stake : Z)
    (delegators : gmap string (list byte)) (q : queue) : outcome vm_err (gmap string (list byte) * queue) :=
  match addresses with
  | [] => mret (delegators, q)
  | addr :: rest =>
      let amount := ParseBigInt_bytes (default [] (delegators !! addr)) in
      if amount <=? 0 then slash_delegators validatorAddr rest slash stake (delete addr delegators) q
      else
        share ← share_of (bool_decide (rest = [])) amount slash stake;
        let delegators := if amount - share <=? 0 then delete addr delegators else <[addr := Bytes (amount - share)]> delegators in
        slash_delegators validatorAddr rest (slash - share) (stake - amount) delegators
          (applySlashToPendingUnbondings addr validatorAddr amount share q)
  end.

Definition applySlashToDelegatedStake `{MapOrder} (slashAmount : Z) (v : Validator) (q : queue) : outcome vm_err (Validator * queue) :=
  let total := stake_of v in
  if (slashAmount <=? 0) || (total <=? 0) then mret (v, q)
  else
    let self := ParseBigInt_bytes (val_SelfStake v) in
    let delegated := ParseBigInt_bytes (val_DelegatedStake v) in
    let delegatedSlash := if 0 <? delegated then Z.min delegated (big_div (slashAmount * delegated) total) else 0 in
    let selfSlash := Z.min self (slashAmount - delegatedSlash) in
    let v := set_stakes (val_Stake v) (Bytes (self - selfSlash)) (Bytes (delegated - delegatedSlash)) (val_Delegators v) v in
    if (delegatedSlash =? 0) || (size (val_Delegators v) =? 0)%nat then mret (v, q)
    else
      let original := ParseBigInt_bytes (val_DelegatedStake v) + delegatedSlash in
      '(delegators, q) ← slash_delegators (val_Address v) (sort_strings (map_order (val_Delegators v))) delegatedSlash original (val_Delegators v) q;
      mret (set_stakes (val_Stake v) (val_SelfStake v) (val_DelegatedStake v) delegators v, q).

(** ** The manager *)

Section ValidatorManager.
Context `{MapOrder} {C F : Type} `{LRU C} `{Json stakeDomainMembers} `{Json queue}.
Context (Keccak256 : list byte -> list byte) (shardID totalShards : Z) (cfg : ValidatorConfig).

Record Manager : Type := MkManager {
  vm_world : @world C F;
  vm_height : Z;
  vm_totalStaked : string;
  validatorMetrics : gmap string ValidatorMetrics;
  slashingEvents : gmap string (list SlashingEvent);
  unbondingQueue : queue;
  commissionUpdateTimes : gmap string Z;
  vm_mu : RWMutex
}.
Notation Vm := (GoM Manager vm_err).

Definition vm_set_world (w : @world C F) (m : Manager) : Manager :=
  MkManager w (vm_height m) (vm_totalStaked m) (validatorMetrics m) (slashingEvents m) (unbondingQueue m) (commissionUpdateTimes m) (vm_mu m).
Definition vm_set_metrics (x : gmap string ValidatorMetrics) (m : Manager) : Manager :=
  MkManager (vm_world m) (vm_height m) (vm_totalStaked m) x (slashingEvents m) (unbondingQueue m) (commissionUpdateTimes m) (vm_mu m).
Definition vm_set_events (x : gmap string (list SlashingEvent)) (m : Manager) : Manager :=
  MkManager (vm_world m) (vm_height m) (vm_totalStaked m) (validatorMetrics m) x (unbondingQueue m) (commissionUpdateTimes m) (vm_mu m).
Definition vm_set_queue (x : queue) (m : Manager) : Manager :=
  MkManager (vm_world m) (vm_height m) (vm_totalStaked m) (validatorMetrics m) (slashingEvents m) x (commissionUpdateTimes m) (vm_mu m).
Definition vm_set_times (x : gmap string Z) (m : Manager) : Manager :=
  MkManager (vm_world m) (vm_height m) (vm_totalStaked m) (validatorMetrics m) (slashingEvents m) (unbondingQueue m) x (vm_mu m).
Definition vm_set_mu (x : RWMutex) (m : Manager) : Manager :=
  MkManager (vm_world m) (vm_height m) (vm_totalStaked m) (validatorMetrics m) (slashingEvents m) (unbondingQueue m) (commissionUpdateTimes m) x.

(** [vm.mu.Lock(); defer vm.mu.Unlock()]. *)
Definition vm_locked {A} (k : mode) (body : Vm A) : Vm A := fun m =>
  match mutex_call true k (vm_mu m) with
  | Some (Ok l) =>
      let '(r, m1) := body (vm_set_mu l m) in
      match r with
      | Hang => (Hang, m1)
      | _ => match mutex_call false k (vm_mu m1) with
             | Some (Ok l') => (r, vm_set_mu l' m1)
             | _ => (Panic, m1)
             end
      end
  | Some _ => (Panic, m)
  | None => (Hang, m)
  end.

(** *** The world state *)

Definition on_vm_world {A} (f : GoM (@world C F) vm_err A) : Vm A := fun m =>
  let '(r, w) := f (vm_world m) in (r, vm_set_world w m).
Definition on_vm_registry {E A} (g : E -> vm_err) (f : GoM registry E A) : Vm A := on_vm_world (fun w =>
  let '(r, x) := f (registry_of w) in (wrap g r, set_registry x w)).
Definition vm_validators (m : Manager) : gmap string Validator := w_validators (vm_world m).
Definition find_validator (address : string) : Vm Validator := fun m =>
  match vm_validators m !! address with Some v => (Ok v, m) | None => (Err (VM_NotFound address), m) end.
(** A write through the pointer that [ws.GetValidator(address)] returned. *)
Definition write_validator (address : string) (v : Validator) : Vm unit := modify (fun m =>
  let w := vm_world m in
  vm_set_world (MkWorld (w_am w) (w_locks w) (w_versions w) (<[address := v]> (w_validators w)) (w_config w) (w_evm w)) m).
Definition vm_update (v : Validator) : Vm unit := on_vm_registry VM_UpdateFailed (UpdateValidator v).
Definition ws_SetValidator (address : string) (v : Validator) : Vm unit :=
  _ ← refuse_if (negb (bool_decide (val_Address v = address))) AddressMismatch;
  _ ← lift (wrap VM_AddressInvalid (Validate address));
  write_validator address v.
(** [if err := f(); err != nil { ... }] without an early return. *)
Definition attempt {A} (f : Vm A) : Vm bool := fun m =>
  match f m with
  | (Ok _, m') => (Ok true, m')
  | (Err _, m') => (Ok false, m')
  | (Panic, m') => (Panic, m')
  | (Hang, m') => (Hang, m')
  end.

Definition isJailed (now : Z) (v : Validator) : bool := now <? val_JailUntil v.

(** *** Removing *)

Definition year_seconds : Z := 365 * 24 * 3600.
Definition vm_RemoveValidator (now : Z) (address : string) : Vm unit :=
  v ← find_validator address;
  let v := set_status false (i64 (now + year_seconds)) v in
  _ ← write_validator address v;
  ws_SetValidator address v.

(** *** Registering *)

(** The share of the network that a stake would have. *)
Definition too_concentrated (stake total : Z) : outcome vm_err bool :=
  p ← ratio_of stake total; mret (f64_lt (vc_MaxStakePercentage cfg) p).

Definition check_concentration (address domain : string) (stake : Z) : Vm unit :=
  m ← get;
  let total := ParseBigInt_string (vm_totalStaked m) in
  let limited := f64_lt f0 (vc_MaxStakePercentage cfg) in
  _ ← (if (0 <? total) && limited then
         b ← lift (too_concentrated stake (total + stake)); refuse_if b ConcentrationLimit
       else mret tt);
  if vc_OwnershipDomainsEnabled cfg && limited && (0 <? total) then
    let domainID := if bool_decide (domain = "") then address else domain in
    current ← on_vm_registry DomainLoadFailed (GetStakeDomainTotalStake domainID);
    if 0 <? total + stake then
      b ← lift (too_concentrated (current + stake) (total + stake)); refuse_if b DomainLimit
    else mret tt
  else mret tt.

Definition fresh_metrics (address : string) (now : Z) : ValidatorMetrics := MkVM address 0 0 0 0 now f0 0 "" [].

Definition register_body (clock : nat -> Z) (address : string) (pubkey : list byte) (stake : string) (commission : Z) (domain : string) : Vm unit :=
  _ ← lift (wrap VM_AddressInvalid (Validate address));
  _ ← refuse_if (length pubkey =? 0)%nat VM_PubkeyEmpty;
  let stakeBig := ParseBigInt_string stake in
  let maxStake := ParseBigInt_string (vc_MaxValidatorStake cfg) in
  _ ← refuse_if (stakeBig <? ParseBigInt_string (vc_MinValidatorStake cfg)) StakeBelowMinimum;
  _ ← refuse_if ((0 <? maxStake) && (maxStake <? stakeBig)) StakeAboveMaximum;
  _ ← check_concentration address domain stakeBig;
  let c := Float64frombits commission in
  _ ← refuse_if (f64_lt c f0 || f64_lt (vc_MaxCommission cfg) c) CommissionRange;
  m ← get;
  _ ← refuse_if (bool_decide (is_Some (vm_validators m !! address))) (AlreadyExists address);
  let v := MkValidator address pubkey "" "" "" (Bytes stakeBig) (Bytes stakeBig) [] ∅ commission false 0 0 0 (clock 0%nat) (clock 1%nat) in
  _ ← on_vm_registry AddFailed (AddValidatorWithStakeDomain (vc_MinValidatorStake cfg) (clock 2%nat) (clock 3%nat) (Some v) domain);
  modify (fun m => vm_set_metrics (<[address := fresh_metrics address (clock 4%nat)]> (validatorMetrics m)) m).
Definition RegisterValidatorWithDomain (clock : nat -> Z) (address : string) (pubkey : list byte) (stake : string) (commission : Z) (domain : string) : Vm unit :=
  vm_locked W (register_body clock address pubkey stake commission domain).
Definition RegisterValidator (clock : nat -> Z) (address : string) (pubkey : list byte) (stake : string) (commission : Z) : Vm unit :=
  RegisterValidatorWithDomain clock address pubkey stake commission "".
Definition LinkValidatorToStakeDomain (address domain : string) : Vm unit :=
  vm_locked W (_ ← find_validator address; on_vm_registry DomainLoadFailed (SetValidatorStakeDomain address domain)).

(** *** Activation *)

Definition ActivateValidator (clock : nat -> Z) (address : string) : Vm unit :=
  vm_locked W (
    v ← find_validator address;
    _ ← refuse_if (stake_of v <? ParseBigInt_string (vc_MinValidatorStake cfg)) StakeBelowMinimum;
    _ ← refuse_if (ParseBigInt_bytes (val_SelfStake v) <? ParseBigInt_string (vc_MinSelfStake cfg)) SelfStakeBelowMinimum;
    _ ← refuse_if (isJailed (clock 0%nat) v) (IsJailed (val_JailUntil v));
    let v := touch (clock 1%nat) (set_status true (val_JailUntil v) v) in
    _ ← write_validator address v;
    vm_update v).
Definition DeactivateValidator (now : Z) (address : string) : Vm unit :=
  vm_locked W (
    v ← find_validator address;
    let v := touch now (set_status false (val_JailUntil v) v) in
    _ ← write_validator address v;
    vm_update v).

(** *** Slashing *)

Definition day : Z := 24 * 3600.
Definition penalty_of (reason : string) (slashCount : nat) : option (float64 * Z) :=
  if bool_decide (reason = SlashingDoubleSign) then Some (vc_SlashFractionDoubleSign cfg, 30 * day)
  else if bool_decide (reason = SlashingDowntime) then
    Some (vc_SlashFractionDowntime cfg, match slashCount with O => day | S O => 7 * day | _ => 30 * day end)
  else if bool_decide (reason = SlashingInvalidBlock) then Some (f64_const 1 100, day)
  else None.

(** At least one unit when the fraction is positive. *)
Definition slash_amount (stake : Z) (fraction : float64) : outcome vm_err Z :=
  x ← mulBigIntFloat (Some stake) fraction;
  a ← nonnil x;
  mret (if f64_lt f0 fraction && (a =? 0) then 1 else a).

Definition note_slash (reason : string) (amount jail duration : Z) (x : ValidatorMetrics) : ValidatorMetrics :=
  MkVM (vmt_Address x) (vmt_BlocksProposed x) (vmt_BlocksMissed x) (vmt_AttestationsMade x) (vmt_AttestationsMissed x) (vmt_LastActivity x)
    (vmt_UptimePercentage x) (vmt_SlashCount x + 1) (String10 (ParseBigInt_string (vmt_TotalSlashed x) + amount))
    (vmt_JailHistory x ++ [MkJail reason jail 0 duration]).

Definition safety_threshold : Z :=
  let retention := if f64_lt f0 (vc_MinStakeRetention cfg) then vc_MinStakeRetention cfg else DefaultMinStakeRetention in
  big_div (ParseBigInt_string (vc_MinValidatorStake cfg) * int64_of_f64 (f64_mul retention (f64_of_int 100))) 100.
Definition max_events : Z := if 0 <? vc_MaxSlashingEvents cfg then vc_MaxSlashingEvents cfg else DefaultMaxSlashingEvents.

(** Removed for a double signature, too many events or too little stake; otherwise
    only updated. *)
Definition enforce (now : Z) (address reason : string) (slashCount : Z) (v : Validator) : Vm unit :=
  let remove := ok ← attempt (vm_RemoveValidator now address); if (ok : bool) then mret tt else (_ ← attempt (vm_update v); mret tt) in
  if bool_decide (reason = SlashingDoubleSign) && vc_AutoRemoveOnDoubleSign cfg then remove
  else if max_events <=? slashCount + 1 then remove
  else if stake_of v <? safety_threshold then remove
  else vm_update v.

Definition slash_body (clock : nat -> Z) (address reason : string) (evidence : list byte) : Vm unit :=
  v ← find_validator address;
  _ ← refuse_if (negb (val_Active v)) (NotActive address);
  m ← get;
  let events := default [] (slashingEvents m !! address) in
  match penalty_of reason (length events) with
  | None => throw (UnknownReason reason)
  | Some (fraction, duration) =>
      let stake := stake_of v in
      amount ← lift (slash_amount stake fraction);
      '(v, q) ← lift (applySlashToDelegatedStake amount v (unbondingQueue m));
      let left := Z.max 0 (stake - amount) in
      let v := set_stakes (Bytes left) (val_SelfStake v) (val_DelegatedStake v) (val_Delegators v) v in
      let v := touch (clock 1%nat) (set_status false (i64 (clock 0%nat + duration)) v) in
      _ ← write_validator address v;
      _ ← modify (vm_set_queue q);
      let event := MkSlash address reason (String10 amount) (vm_height m) (clock 2%nat) evidence in
      _ ← modify (fun m => vm_set_events (<[address := events ++ [event]]> (slashingEvents m)) m);
      _ ← modify (fun m => match validatorMetrics m !! address with
                           | Some x => vm_set_metrics (<[address := note_slash reason amount (val_JailUntil v) duration x]> (validatorMetrics m)) m
                           | None => m
                           end);
      enforce (clock 3%nat) address reason (Z.of_nat (length events)) v
  end.
Definition SlashValidator (clock : nat -> Z) (address reason : string) (evidence : list byte) : Vm unit :=
  vm_locked W (slash_body clock address reason evidence).

(** *** Jail *)

Definition last_unjailed (now : Z) (l : list JailEvent) : list JailEvent :=
  match last l with
  | None => l
  | Some j => take (length l - 1) l ++ [MkJail (je_Reason j) (je_JailTime j) now (je_Duration j)]
  end.
Definition note_unjail (now : Z) (x : ValidatorMetrics) : ValidatorMetrics :=
  MkVM (vmt_Address x) (vmt_BlocksProposed x) (vmt_BlocksMissed x) (vmt_AttestationsMade x) (vmt_AttestationsMissed x) (vmt_LastActivity x)
    (vmt_UptimePercentage x) (vmt_SlashCount x) (vmt_TotalSlashed x) (last_unjailed now (vmt_JailHistory x)).
Definition UnjailValidator (clock : nat -> Z) (address : string) : Vm unit :=
  vm_locked W (
    v ← find_validator address;
    _ ← refuse_if (negb (isJailed (clock 0%nat) v)) NotJailed;
    _ ← refuse_if (clock 1%nat <? val_JailUntil v) JailNotExpired;
    _ ← refuse_if (stake_of v <? ParseBigInt_string (vc_MinValidatorStake cfg)) StakeBelowMinimum;
    let v := touch (clock 2%nat) (set_status (val_Active v) 0 v) in
    _ ← write_validator address v;
    _ ← modify (fun m => match validatorMetrics m !! address with
                         | Some x => vm_set_metrics (<[address := note_unjail (clock 3%nat) x]> (validatorMetrics m)) m
                         | None => m
                         end);
    vm_update v).

(** *** Commission *)

Definition UpdateValidatorCommission (clock : nat -> Z) (address : string) (newCommission : Z) : Vm unit :=
  vm_locked W (
    let c := Float64frombits newCommission in
    _ ← refuse_if (f64_lt c f0 || f64_lt (vc_MaxCommission cfg) c) CommissionRange;
    v ← find_validator address;
    let change := f64_sub c (Float64frombits (val_Commission v)) in
    let change := if f64_lt change f0 then f64_neg change else change in
    _ ← refuse_if (f64_lt (vc_CommissionChangeMax cfg) change) CommissionChangeTooLarge;
    m ← get;
    _ ← (match commissionUpdateTimes m !! address with
         | Some t => refuse_if (i64 (clock 0%nat - t) <? commissionUpdateInterval) CommissionTooSoon
         | None => refuse_if ((0 <? val_CreatedAt v) && (i64 (clock 0%nat - val_CreatedAt v) <? commissionUpdateInterval)) CommissionTooSoon
         end);
    let v := touch (clock 1%nat) (set_Commission newCommission v) in
    _ ← write_validator address v;
    _ ← modify (fun m => vm_set_times (<[address := clock 1%nat]> (commissionUpdateTimes m)) m);
    vm_update v).

(** *** Performance *)

Definition updateUptimePercentage (x : ValidatorMetrics) : ValidatorMetrics :=
  let total := u64 (u64 (vmt_BlocksProposed x + vmt_BlocksMissed x) + u64 (vmt_AttestationsMade x + vmt_AttestationsMissed x)) in
  let uptime := if total =? 0 then f64_of_int 100
                else f64_mul (f64_div (f64_of_int (u64 (vmt_BlocksProposed x + vmt_AttestationsMade x))) (f64_of_int total)) (f64_of_int 100) in
  MkVM (vmt_Address x) (vmt_BlocksProposed x) (vmt_BlocksMissed x) (vmt_AttestationsMade x) (vmt_AttestationsMissed x) (vmt_LastActivity x)
    uptime (vmt_SlashCount x) (vmt_TotalSlashed x) (vmt_JailHistory x).
Definition note_block (success : bool) (now : Z) (x : ValidatorMetrics) : ValidatorMetrics :=
  let n (b : bool) := if b then 1 else 0 in
  updateUptimePercentage (MkVM (vmt_Address x) (u64 (vmt_BlocksProposed x + n success)) (u64 (vmt_BlocksMissed x + n (negb success)))
    (vmt_AttestationsMade x) (vmt_AttestationsMissed x) now (vmt_UptimePercentage x) (vmt_SlashCount x) (vmt_TotalSlashed x) (vmt_JailHistory x)).
Definition note_attestation (success : bool) (now : Z) (x : ValidatorMetrics) : ValidatorMetrics :=
  let n (b : bool) := if b then 1 else 0 in
  updateUptimePercentage (MkVM (vmt_Address x) (vmt_BlocksProposed x) (vmt_BlocksMissed x) (u64 (vmt_AttestationsMade x + n success))
    (u64 (vmt_AttestationsMissed x + n (negb success))) now (vmt_UptimePercentage x) (vmt_SlashCount x) (vmt_TotalSlashed x) (vmt_JailHistory x)).

(** Enough data, and too few signed. *)
Definition down (x : ValidatorMetrics) : bool :=
  let total := u64 (u64 (u64 (vmt_BlocksProposed x + vmt_BlocksMissed x) + vmt_AttestationsMade x) + vmt_AttestationsMissed x) in
  negb (total <? u64 (vc_SignedBlocksWindow cfg)) &&
  f64_lt (f64_div (f64_of_int (u64 (vmt_BlocksProposed x + vmt_AttestationsMade x))) (f64_of_int total)) (vc_MinSignedPerWindow cfg).
Definition checkDowntimeSlashing (clock : nat -> Z) (address : string) : Vm unit :=
  _ ← find_validator address;
  m ← get;
  if vm_height m <? 100 then mret tt
  else match validatorMetrics m !! address with
       | None => mret tt
       | Some x => if down x then SlashValidator clock address SlashingDowntime [] else mret tt
       end.
Definition change_metrics (address : string) (f : ValidatorMetrics -> ValidatorMetrics) : Vm unit := modify (fun m =>
  vm_set_metrics (alter f address (validatorMetrics m)) m).

Definition RecordBlockProposal (clock : nat -> Z) (address : string) (success : bool) : Vm unit :=
  vm_locked W (
    v ← find_validator address;
    let v := if success then set_blocks (i64 (val_BlocksProposed v + 1)) (val_BlocksMissed v) v
             else set_blocks (val_BlocksProposed v) (i64 (val_BlocksMissed v + 1)) v in
    let v := touch (clock 0%nat) v in
    _ ← write_validator address v;
    _ ← change_metrics address (note_block success (clock 1%nat));
    _ ← (if success then mret tt else wrapM DowntimeCheckFailed (checkDowntimeSlashing (fun i => clock (2 + i)%nat) address));
    v ← find_validator address;
    vm_update v).
Definition RecordAttestation (now : Z) (address : string) (success : bool) : Vm unit :=
  vm_locked W (change_metrics address (note_attestation success now)).

(** *** Delegation *)

Definition AddDelegation (now : Z) (validatorAddr delegatorAddr amount : string) : Vm unit :=
  vm_locked W (
    v ← find_validator validatorAddr;
    _ ← refuse_if (vc_MaxDelegationsPerValidator cfg <=? Z.of_nat (size (val_Delegators v))) TooManyDelegators;
    let amt := ParseBigInt_string amount in
    let newStake := stake_of v + amt in
    _ ← refuse_if (ParseBigInt_string (vc_MaxValidatorStake cfg) <? newStake) StakeAboveMaximum;
    m ← get;
    let total := ParseBigInt_string (vm_totalStaked m) in
    _ ← (if 0 <? total then b ← lift (too_concentrated newStake (total + amt)); refuse_if b ConcentrationLimit else mret tt);
    _ ← (if vc_OwnershipDomainsEnabled cfg && f64_lt f0 (vc_MaxStakePercentage cfg) then
           domain ← on_vm_registry DomainLoadFailed (GetValidatorStakeDomain validatorAddr);
           stake ← on_vm_registry DomainLoadFailed (GetStakeDomainTotalStake domain);
           b ← lift (too_concentrated (stake + amt) (total + amt)); refuse_if b DomainLimit
         else mret tt);
    let current := ParseBigInt_bytes (default [] (val_Delegators v !! delegatorAddr)) in
    let v := touch now (set_stakes (Bytes newStake) (val_SelfStake v) (Bytes (ParseBigInt_bytes (val_DelegatedStake v) + amt))
               (<[delegatorAddr := Bytes (current + amt)]> (val_Delegators v)) v) in
    _ ← write_validator validatorAddr v;
    vm_update v).

(** *** Unbonding *)

Definition persistUnbondingQueueLocked : Vm unit :=
  m ← get;
  on_vm_world (on_store PersistFailed (SetMetadata unbondingQueueMetadataKey (Marshal (unbondingQueue m)))).
Definition loadUnbondingQueue : Vm unit :=
  raw ← on_vm_world (on_store LoadFailed (GetMetadata unbondingQueueMetadataKey));
  if bool_decide (raw = "") then mret tt
  else match Unmarshal raw with
       | None => throw QueueUndecodable
       | Some q => modify (vm_set_queue q)
       end.
Definition NewManager (w : @world C F) (height : Z) (totalStaked : string) : Manager :=
  snd (attempt loadUnbondingQueue (MkManager w height totalStaked ∅ ∅ ∅ ∅ unlocked)).

Definition unbonding_blocks : Z :=
  let blockTime := if vc_BlockTime cfg <=? 0 then defaultUnbondingBlockTime else vc_BlockTime cfg in
  Z.max 1 (Z.quot (vc_UnbondingPeriod cfg) blockTime).
Definition queueUnbondingLocked (now : Z) (validatorAddr delegatorAddr amount : string) : Vm unit :=
  v ← find_validator validatorAddr;
  let amt := ParseBigInt_string amount in
  _ ← refuse_if (ParseBigInt_bytes (default [] (val_Delegators v !! delegatorAddr)) <? amt) DelegationShort;
  m ← get;
  let entry := MkVUnbonding validatorAddr delegatorAddr (String10 amt) (i64 (vm_height m + unbonding_blocks)) now in
  _ ← modify (fun m => vm_set_queue (<[delegatorAddr := default [] (unbondingQueue m !! delegatorAddr) ++ [entry]]> (unbondingQueue m)) m);
  persistUnbondingQueueLocked.
Definition BeginUnbonding (now : Z) (validatorAddr delegatorAddr amount : string) : Vm unit :=
  vm_locked W (queueUnbondingLocked now validatorAddr delegatorAddr amount).
Definition RemoveDelegation (now : Z) (validatorAddr delegatorAddr amount : string) : Vm unit :=
  vm_locked W (queueUnbondingLocked now validatorAddr delegatorAddr amount).

(** The validator without the amount; one below the minimum goes inactive. *)
Definition unbonded (now : Z) (delegatorAddr : string) (amt : Z) (v : Validator) : Validator :=
  let current := ParseBigInt_bytes (default [] (val_Delegators v !! delegatorAddr)) - amt in
  let delegators := if current =? 0 then delete delegatorAddr (val_Delegators v) else <[delegatorAddr := Bytes current]> (val_Delegators v) in
  let stake := stake_of v - amt in
  let v' := touch now (set_stakes (Bytes stake) (val_SelfStake v) (Bytes (ParseBigInt_bytes (val_DelegatedStake v) - amt)) delegators v) in
  if val_Active v && (stake <? ParseBigInt_string (vc_MinValidatorStake cfg)) then set_status false (val_JailUntil v) v' else v'.

(** The principal goes to the balance; [true] when that worked. *)
Definition pay_back (delegatorAddr : string) (amt : Z) : Vm bool := fun m =>
  match ws_GetAccount Keccak256 shardID totalShards delegatorAddr (vm_world m) with
  | (Ok l, w) =>
      attempt (on_vm_world (
        acc ← on_am (fun _ => AddressMismatch) (load l);
        _ ← on_am (fun _ => AddressMismatch) (assign l (set_Balance (Bytes (ParseBigInt_bytes (acc_Balance acc) + amt))));
        on_am (fun _ => AddressMismatch) (UpdateAccount Keccak256 shardID totalShards l))) (vm_set_world w m)
  | (Err _, w) => (Ok false, vm_set_world w m)
  | (Panic, w) => (Panic, vm_set_world w m)
  | (Hang, w) => (Hang, vm_set_world w m)
  end.

(** One entry; [true] when it leaves the queue. *)
Definition complete_unbonding (now : Z) (delegatorAddr : string) (e : VUnbondingEntry) : Vm bool :=
  m ← get;
  if vm_height m <? vu_CompletionBlock e then mret false
  else match vm_validators m !! vu_ValidatorAddress e with
       | None => mret false
       | Some v =>
           let amt := ParseBigInt_string (vu_Amount e) in
           let v := unbonded now delegatorAddr amt v in
           _ ← write_validator (vu_ValidatorAddress e) v;
           _ ← attempt (vm_update v);
           pay_back delegatorAddr amt
       end.

(** From the last entry to the first; those that stay, in order. *)
Fixpoint process_entries (now : Z) (delegatorAddr : string) (entries : list VUnbondingEntry) : Vm (list VUnbondingEntry) :=
  match entries with
  | [] => mret []
  | e :: entries =>
      rest ← process_entries now delegatorAddr entries;
      gone ← complete_unbonding now delegatorAddr e;
      mret (if (gone : bool) then rest else e :: rest)
  end.
Fixpoint process_delegators (now : Z) (delegators : list string) : Vm unit :=
  match delegators with
  | [] => mret tt
  | d :: delegators =>
      m ← get;
      left ← process_entries now d (default [] (unbondingQueue m !! d));
      _ ← modify (fun m => vm_set_queue (if (length left =? 0)%nat then delete d (unbondingQueue m) else <[d := left]> (unbondingQueue m)) m);
      process_delegators now delegators
  end.
Definition ProcessUnbondings (now : Z) : Vm unit :=
  vm_locked W (m ← get; _ ← process_delegators now (map_order (unbondingQueue m)); persistUnbondingQueueLocked).

(** *** Queries *)

Definition GetValidatorMetrics (address : string) : Vm ValidatorMetrics := vm_locked R (
  m ← get; match validatorMetrics m !! address with Some x => mret x | None => throw (NoMetrics address) end).
Definition GetSlashingHistory (address : string) : Vm (list SlashingEvent) := vm_locked R (
  m ← get; mret (default [] (slashingEvents m !! address))).
Definition GetPerformanceScore (address : string) : Vm float64 := vm_locked R (
  m ← get; mret (match validatorMetrics m !! address with Some x => f64_div (vmt_UptimePercentage x) (f64_of_int 100) | None => f1 end)).
Definition IsActive (now : Z) (address : string) (m : Manager) : bool :=
  match vm_validators m !! address with Some v => val_Active v && negb (isJailed now v) | None => false end.
Definition getTotalSlashingEvents (m : Manager) : Z :=
  foldr (fun k t => Z.of_nat (length (default [] (slashingEvents m !! k))) + t) 0 (map_order (slashingEvents m)).

(** Larger stakes first; [sort.Slice] leaves the order of equal stakes open. *)
Definition by_stake (a b : Validator) : Prop := stake_of b <= stake_of a.
#[global] Instance by_stake_dec : RelDecision by_stake.
Proof. intros a b. unfold by_stake. apply _. Defined.
Definition GetTopValidators (limit : Z) (m : Manager) : list Validator :=
  let l := merge_sort by_stake (GetActiveValidators (registry_of (vm_world m))) in
  if 0 <? limit then take (Z.to_nat limit) l else l.
Record ValidatorStats : Type := MkStats {
  vs_total : Z; vs_active : Z; vs_jailed : Z; vs_stake : string; vs_delegated : string; vs_average : string; vs_tracked : Z; vs_events : Z
}.
Definition GetValidatorStats (now : Z) : Vm ValidatorStats := vm_locked R (
  m ← get;
  let active := GetActiveValidators (registry_of (vm_world m)) in
  let total := foldl (fun t v => t + stake_of v) 0 active in
  let delegated := foldl (fun t v => t + ParseBigInt_bytes (val_DelegatedStake v)) 0 active in
  let n := Z.of_nat (length active) in
  mret (MkStats (GetValidatorCount (registry_of (vm_world m))) n (Z.of_nat (length (filter (fun v => isJailed now v = true) active)))
    (String10 total) (String10 delegated) (String10 (if 0 <? n then big_div total n else 0)) (Z.of_nat (size (validatorMetrics m))) (getTotalSlashingEvents m))).
End ValidatorManager.
