(* ===== verification/ValidatorSpec.v ===== *)
(** * What slashing takes, and what the manager cannot do *)

From S2P Require Import Prelude SafeMath Uint256 Address Storage AccountManager AccountSpec ShardedLock Governance Domains EvmGas World.
From S2P Require Import Executor ExecutorSpec ExecutorThms Floats Inflation InflationSpec ValidatorManager.
From stdpp Require Import base tactics numbers list gmap strings sorting.
From Stdlib Require Import ZArith Lia Strings.Byte Strings.Ascii.
Open Scope Z_scope.
Open Scope list_scope.

Lemma read_Bytes n : 0 <= n < two256 -> ParseBigInt_bytes (Bytes n) = n.
Proof. intros Hn. by rewrite (canon_parse (Bytes n)), SetBytes_Bytes by (lia || by apply canon_Bytes). Qed.

(** ** Sharing out a slash *)

Definition held_by (delegators : gmap string (list byte)) (a : string) : Z := ParseBigInt_bytes (default [] (delegators !! a)).
Definition held_sum (delegators : gmap string (list byte)) (l : list string) : Z := foldr (fun a t => held_by delegators a + t) 0 l.

Lemma held_sum_ext d d' l : (forall a, a ∈ l -> d' !! a = d !! a) -> held_sum d' l = held_sum d l.
Proof.
  induction l as [|a l IH]; intros Hd; [done|]. change (held_by d' a + held_sum d' l = held_by d a + held_sum d l). rewrite IH by (intros b Hb; apply Hd; by right).
  unfold held_by. rewrite (Hd a) by (by left). done.
Qed.
Lemma held_sum_nonneg d l : 0 <= held_sum d l.
Proof. induction l as [|a l IH]; [done|]. change (0 <= held_by d a + held_sum d l). pose proof (ParseBigInt_bytes_nonneg (default [] (d !! a))). unfold held_by. lia. Qed.

(** What is left after one share is enough for the rest. *)
Lemma share_spec last amount slash stake : 0 < amount -> amount <= stake -> 0 <= slash <= stake -> (last = true -> stake = amount) ->
  exists s, share_of last amount slash stake = Ok s /\ 0 <= s <= amount /\ 0 <= slash - s <= stake - amount.
Proof.
  intros Ha Hm Hs Hlast. unfold share_of. destruct (Z.ltb_spec 0 slash); [|exists 0; split; [done|lia]].
  destruct (last || (stake =? amount)) eqn:Hl.
  - assert (stake = amount) by (destruct last; [by apply Hlast|by apply Z.eqb_eq]). eexists. split; [reflexivity|]. lia.
  - apply orb_false_iff in Hl as [_ Hl%Z.eqb_neq]. rewrite (proj2 (Z.eqb_neq stake 0)) by lia. rewrite big_div_pos by lia.
    eexists. split; [reflexivity|].
    assert (Hq : slash * amount / stake <= amount) by (apply Z.div_le_upper_bound; nia).
    assert (Hq2 : slash * amount / stake <= slash) by (apply Z.div_le_upper_bound; nia).
    assert (Hq0 : 0 <= slash * amount / stake) by (apply Z.div_pos; nia).
    assert (Hlow : slash + amount - stake <= slash * amount / stake) by (apply Z.div_le_lower_bound; nia). lia.
Qed.

Lemma delegators_slashed validatorAddr l : forall slash stake d q,
  NoDup l -> (forall a, a ∈ l -> 0 < held_by d a < two256) -> stake = held_sum d l -> 0 <= slash <= stake ->
  exists d' q', slash_delegators validatorAddr l slash stake d q = Ok (d', q') /\
  map_sum ParseBigInt_bytes d' = map_sum ParseBigInt_bytes d - slash /\
  (forall a, a ∉ l -> d' !! a = d !! a) /\
  (forall a, a ∈ l -> held_by d' a <= held_by d a) /\
  (forall a b, a ∈ l -> d' !! a = Some b -> 0 < ParseBigInt_bytes b).
Proof.
  induction l as [|a l IH]; intros slash stake d q Hnd Hpos Hstake Hslash; cbn [slash_delegators].
  { cbn in Hstake. exists d, q. split_and!; [done|lia|done|by intros a ?%elem_of_nil|by intros a b ?%elem_of_nil]. }
  apply NoDup_cons in Hnd as [Hal Hnd]. change (held_sum d (a :: l)) with (held_by d a + held_sum d l) in Hstake. pose proof (held_sum_nonneg d l) as Hrest.
  pose proof (Hpos a ltac:(by left)) as Ha. fold (held_by d a). rewrite (proj2 (Z.leb_gt _ _)) by lia.
  destruct (share_spec (bool_decide (l = [])) (held_by d a) slash stake) as (s & -> & Hs & Hleft); [lia|lia|lia| |].
  { intros Hl%bool_decide_eq_true. subst l. cbn in *. lia. }
  unfold mbind at 1, outcome_bind at 1.
  assert (Hda : exists b, d !! a = Some b /\ ParseBigInt_bytes b = held_by d a).
  { unfold held_by in *. destruct (d !! a) as [b|]; [by exists b|]. cbn in Ha. change (ParseBigInt_bytes []) with 0 in Ha. lia. }
  destruct Hda as (b & Hb & Hbv).
  set (d1 := if held_by d a - s <=? 0 then delete a d else <[a := Bytes (held_by d a - s)]> d).
  assert (Hd1 : map_sum ParseBigInt_bytes d1 = map_sum ParseBigInt_bytes d - s /\ (forall c, c <> a -> d1 !! c = d !! c) /\ held_by d1 a = held_by d a - s /\
                (forall c, d1 !! a = Some c -> 0 < ParseBigInt_bytes c)).
  { unfold d1. destruct (Z.leb_spec (held_by d a - s) 0).
    - rewrite (map_sum_delete _ d a b Hb), Hbv. split_and!; [lia|intros c Hc; by rewrite lookup_delete_ne| |intros c; by rewrite lookup_delete_eq].
      unfold held_by at 1. rewrite lookup_delete_eq. cbn. change (ParseBigInt_bytes []) with 0. lia.
    - rewrite (map_sum_insert_Some _ d a b _ Hb), read_Bytes, Hbv by lia. split_and!; [lia|intros c Hc; by rewrite lookup_insert_ne| |].
      + unfold held_by at 1. rewrite lookup_insert_eq. cbn. rewrite read_Bytes; lia.
      + intros c. rewrite lookup_insert_eq. intros [= <-]. rewrite read_Bytes; lia. }
  destruct Hd1 as (Hsum & Hne & Heq & Hposa).
  assert (Hl1 : forall c, c ∈ l -> d1 !! c = d !! c) by (intros c Hc; apply Hne; by intros ->).
  destruct (IH (slash - s) (stake - held_by d a) d1 (applySlashToPendingUnbondings a validatorAddr (held_by d a) s q) Hnd) as (d' & q' & Hrun & Hsum' & Hout & Hle & Hpos').
  { intros c Hc. unfold held_by. rewrite Hl1 by done. apply Hpos. by right. }
  { rewrite (held_sum_ext d d1 l Hl1). lia. }
  { lia. }
  exists d', q'. split_and!.
  - exact Hrun.
  - lia.
  - intros c Hc. rewrite Hout, Hne; [done|..]; intros H0; apply Hc; [subst c; by left|by right].
  - intros c [->|Hc]%elem_of_cons; [unfold held_by at 1; rewrite Hout by done; fold (held_by d1 a); lia|].
    pose proof (Hle c Hc) as Hc1. unfold held_by in Hc1 |- *. by rewrite Hl1 in Hc1.
  - intros c x [->|Hc]%elem_of_cons Hx; [rewrite Hout in Hx by done; by apply Hposa|by eapply Hpos'].
Qed.

(** A validator whose stake is its own plus what its delegators hold. *)
Record consistent (v : Validator) : Prop := MkConsistent {
  cs_parts : stake_of v = ParseBigInt_bytes (val_SelfStake v) + ParseBigInt_bytes (val_DelegatedStake v);
  cs_delegators : map_sum ParseBigInt_bytes (val_Delegators v) = ParseBigInt_bytes (val_DelegatedStake v);
  cs_positive : forall a b, val_Delegators v !! a = Some b -> 0 < ParseBigInt_bytes b;
  cs_bound : stake_of v < two256
}.

Lemma held_sum_insert_new d a b l : a ∉ l -> held_sum (<[a := b]> d) l = held_sum d l.
Proof. intros Ha. apply held_sum_ext. intros c Hc. by rewrite lookup_insert_ne by (by intros ->). Qed.
Lemma held_sum_perm d l k : l ≡ₚ k -> held_sum d l = held_sum d k.
Proof. induction 1; cbn in *; unfold held_sum in *; lia. Qed.
Lemma held_sum_all (d : gmap string (list byte)) : held_sum d ((map_to_list d).*1) = map_sum ParseBigInt_bytes d.
Proof.
  induction d as [|a b d Ha IH] using map_ind; [by rewrite map_to_list_empty|].
  rewrite map_sum_insert_None, <-IH by done. rewrite (held_sum_perm _ _ (a :: (map_to_list d).*1)) by (by rewrite map_to_list_insert by done).
  change (held_sum (<[a := b]> d) (a :: (map_to_list d).*1)) with (held_by (<[a := b]> d) a + held_sum (<[a := b]> d) ((map_to_list d).*1)).
  rewrite held_sum_insert_new. { unfold held_by. by rewrite lookup_insert_eq. }
  intros ([c x] & -> & Hc)%list_elem_of_fmap. apply elem_of_map_to_list in Hc. cbn in *. congruence.
Qed.
Lemma order_perm `{MapOrder} {V} (d : gmap string V) : map_order d ≡ₚ (map_to_list d).*1.
Proof.
  apply NoDup_Permutation; [apply map_order_NoDup|apply NoDup_fst_map_to_list|]. intros a. rewrite map_order_elem, elem_of_dom, list_elem_of_fmap. split.
  - intros [x Hx]. exists (a, x). by rewrite elem_of_map_to_list.
  - intros ([b x] & -> & Hx%elem_of_map_to_list). by exists x.
Qed.
Lemma sorted_order `{MapOrder} {V} (d : gmap string V) : sort_strings (map_order d) ≡ₚ (map_to_list d).*1.
Proof. unfold sort_strings. rewrite merge_sort_Permutation. apply order_perm. Qed.

(** A slash of at most the stake falls on the validator's own stake and on its
    delegators so that all parts still add up, and nobody gains. *)
Lemma slash_apportioned `{MapOrder} v q slash : consistent v -> 0 <= slash <= stake_of v ->
  exists v' q', applySlashToDelegatedStake slash v q = Ok (v', q') /\
  ParseBigInt_bytes (val_SelfStake v') + ParseBigInt_bytes (val_DelegatedStake v') = stake_of v - slash /\
  map_sum ParseBigInt_bytes (val_Delegators v') = ParseBigInt_bytes (val_DelegatedStake v') /\
  (forall a b, val_Delegators v' !! a = Some b -> 0 < ParseBigInt_bytes b) /\
  (forall a, held_by (val_Delegators v') a <= held_by (val_Delegators v) a) /\
  val_Address v' = val_Address v /\ val_Stake v' = val_Stake v /\ val_Active v' = val_Active v.
Proof.
  intros [Hparts Hdel Hpos Hbound] Hslash. unfold applySlashToDelegatedStake.
  destruct ((slash <=? 0) || (stake_of v <=? 0)) eqn:Hz.
  { assert (slash = 0) by (zbool; lia). subst slash. exists v, q. split_and!; [done|lia|done|exact Hpos|done..]. }
  assert (Hs : 0 < slash /\ 0 < stake_of v) by (zbool; lia). clear Hz.
  pose proof (ParseBigInt_bytes_nonneg (val_SelfStake v)) as Hself0. pose proof (ParseBigInt_bytes_nonneg (val_DelegatedStake v)) as Hd0.
  set (self := ParseBigInt_bytes (val_SelfStake v)) in *. set (deleg := ParseBigInt_bytes (val_DelegatedStake v)) in *. set (T := stake_of v) in *.
  set (ds := if 0 <? deleg then Z.min deleg (big_div (slash * deleg) T) else 0).
  assert (Hds : 0 <= ds <= deleg /\ ds <= slash /\ slash - ds <= self).
  { unfold ds. destruct (Z.ltb_spec 0 deleg); [|lia]. rewrite big_div_pos by lia.
    assert (slash * deleg / T <= deleg) by (apply Z.div_le_upper_bound; nia). assert (slash * deleg / T <= slash) by (apply Z.div_le_upper_bound; nia).
    assert (0 <= slash * deleg / T) by (apply Z.div_pos; nia). assert (slash + deleg - T <= slash * deleg / T) by (apply Z.div_le_lower_bound; nia). lia. }
  cbv zeta. rewrite (Z.min_r self) by lia.
  set (v1 := set_stakes _ _ _ _ v).
  assert (Hv1 : ParseBigInt_bytes (val_SelfStake v1) = self - (slash - ds) /\ ParseBigInt_bytes (val_DelegatedStake v1) = deleg - ds /\
                val_Delegators v1 = val_Delegators v /\ val_Address v1 = val_Address v /\ val_Stake v1 = val_Stake v /\ val_Active v1 = val_Active v).
  { unfold v1. destruct v; cbn. rewrite !read_Bytes by lia. by split_and!. }
  clearbody v1. destruct Hv1 as (E1 & E2 & E3 & E4 & E5 & E6).
  destruct ((ds =? 0) || (size (val_Delegators v1) =? 0)%nat) eqn:Hz.
  - assert (Hzero : ds = 0).
    { destruct (Z.eqb_spec ds 0); [done|]. cbn in Hz. apply Nat.eqb_eq, map_size_empty_inv in Hz. rewrite E3 in Hz. rewrite Hz, map_sum_empty in Hdel. lia. }
    exists v1, q. rewrite E1, E2, E3. split_and!; [done|lia|lia|exact Hpos|done..].
  - rewrite E3, E4, E2. replace (deleg - ds + ds) with deleg by lia. set (l := sort_strings (map_order (val_Delegators v))).
    assert (Hl : l ≡ₚ (map_to_list (val_Delegators v)).*1) by apply sorted_order.
    assert (Hin : forall a, a ∈ l <-> exists b, val_Delegators v !! a = Some b).
    { intros a. rewrite Hl, list_elem_of_fmap. split; [intros ([c x] & -> & Hx%elem_of_map_to_list); by exists x|].
      intros [b Hb]. exists (a, b). by rewrite elem_of_map_to_list. }
    assert (Hnn : forall a b, val_Delegators v !! a = Some b -> 0 <= ParseBigInt_bytes b) by (intros a b _; apply ParseBigInt_bytes_nonneg).
    destruct (delegators_slashed (val_Address v) l ds deleg (val_Delegators v) q) as (d' & q' & Hrun & Hsum & Hout & Hle & Hp).
    { rewrite Hl. apply NoDup_fst_map_to_list. }
    { intros a [b Hb]%Hin. unfold held_by. rewrite Hb. cbn. split; [by eapply Hpos|].
      pose proof (map_sum_lookup_le ParseBigInt_bytes _ a b Hnn Hb). lia. }
    { by rewrite (held_sum_perm _ _ _ Hl), held_sum_all. }
    { lia. }
    unfold mbind, outcome_bind. rewrite Hrun. exists (set_stakes (val_Stake v1) (val_SelfStake v1) (val_DelegatedStake v1) d' v1), q'.
    assert (Hlow : forall a, held_by d' a <= held_by (val_Delegators v) a).
    { intros a. destruct (decide (a ∈ l)) as [Ha|Ha]; [by apply Hle|]. unfold held_by. by rewrite (Hout a Ha). }
    assert (Hpp : forall a b, d' !! a = Some b -> 0 < ParseBigInt_bytes b).
    { intros a b Hb. destruct (decide (a ∈ l)) as [Ha|Ha]; [by eapply Hp|]. rewrite Hout in Hb by done. by eapply Hpos. }
    destruct v1; cbn in *. rewrite E1, E2, Hsum, Hdel. split_and!; [done|lia|lia|exact Hpp|exact Hlow|done..].
Qed.

Section ValidatorSpec.
Context `{MapOrder} {C F : Type} `{LRU C} `{Json stakeDomainMembers} `{Json queue}.
Context (Keccak256 : list byte -> list byte) (shardID totalShards : Z) (cfg : ValidatorConfig).
Notation Manager := (@Manager C F).
Notation Vm := (GoM Manager vm_err).

Lemma vm_locked_run {A} (body : Vm A) (m : Manager) r m1 :
  vm_mu m = unlocked -> body (vm_set_mu (MkRW true 0) m) = (r, m1) -> r <> Hang -> vm_mu m1 = MkRW true 0 ->
  vm_locked W body m = (r, vm_set_mu unlocked m1).
Proof. intros Hmu Hb Hr Hm1. unfold vm_locked. rewrite Hmu. cbn. rewrite Hb, Hm1. by destruct r. Qed.
Lemma vm_locked_held {A} k (body : Vm A) (m : Manager) : vm_mu m = MkRW true 0 -> vm_locked k body m = (Hang, m).
Proof. intros Hmu. unfold vm_locked. rewrite Hmu. by destruct k. Qed.
Lemma vm_locked_ok {A} (body : Vm A) (m : Manager) x m' : vm_locked W body m = (Ok x, m') ->
  exists l l' m1, body (vm_set_mu l m) = (Ok x, m1) /\ m' = vm_set_mu l' m1.
Proof.
  unfold vm_locked. destruct (mutex_call true W (vm_mu m)) as [[l| | |]|]; try done.
  destruct (body (vm_set_mu l m)) as [r m1] eqn:Hb. destruct r as [y|e| |]; [|destruct (mutex_call false W (vm_mu m1)) as [[]|]; naive_solver..].
  destruct (mutex_call false W (vm_mu m1)) as [[l'| | |]|]; try done. intros [= <- <-]. by exists l, l', m1.
Qed.

(** *** Slashing *)

Definition valid_address (address : string) : Prop := Validate address = Ok tt.
Definition put (address : string) (v : Validator) (m : Manager) : Manager := snd (write_validator address v m).
Lemma put_run address v (m : Manager) : write_validator address v m = (Ok tt, put address v m).
Proof. done. Qed.
Lemma put_lookup address v (m : Manager) : vm_validators (put address v m) !! address = Some v.
Proof. apply lookup_insert_eq. Qed.
Lemma put_mu address v (m : Manager) : vm_mu (put address v m) = vm_mu m.
Proof. done. Qed.

Lemma update_same v (m : Manager) : valid_address (val_Address v) -> vm_validators m !! val_Address v = Some v ->
  exists m', vm_update v m = (Ok tt, m') /\ vm_validators m' !! val_Address v = Some v /\ vm_mu m' = vm_mu m /\ slashingEvents m' = slashingEvents m.
Proof.
  intros Hv Hm. unfold vm_update, on_vm_registry, on_vm_world, UpdateValidator, mbind, GoM_bind, get, refuse_if, lift. cbn.
  unfold vm_validators in Hm. rewrite Hm. rewrite (bool_decide_eq_true_2 (is_Some _)) by eauto. cbn. unfold valid_address in Hv. rewrite Hv. cbn.
  eexists. split; [reflexivity|]. cbn. by rewrite lookup_insert_eq.
Qed.
Lemma remove_run now v (m : Manager) : valid_address (val_Address v) -> vm_validators m !! val_Address v = Some v ->
  vm_RemoveValidator now (val_Address v) m = (Ok tt, put (val_Address v) (set_status false (i64 (now + year_seconds)) v) (put (val_Address v) (set_status false (i64 (now + year_seconds)) v) m)).
Proof.
  intros Hv Hm. unfold vm_RemoveValidator, mbind, GoM_bind, find_validator. rewrite Hm, put_run.
  unfold ws_SetValidator, mbind, GoM_bind, refuse_if, lift. replace (val_Address (set_status false _ v)) with (val_Address v) by (by destruct v).
  rewrite bool_decide_eq_true_2 by done. cbn. unfold valid_address in Hv. rewrite Hv. done.
Qed.

(** After a slash: inactive, in jail, and consistent with the stake that is left. *)
Record punished (v v' : Validator) (amount : Z) : Prop := MkPunished {
  pn_consistent : consistent v';
  pn_stake : stake_of v' = Z.max 0 (stake_of v - amount);
  pn_inactive : val_Active v' = false;
  pn_nobody_gains : forall a, held_by (val_Delegators v') a <= held_by (val_Delegators v) a
}.
Lemma punished_status v v' amount active jail now : punished v v' amount -> active = false ->
  punished v (touch now (set_status active jail v')) amount /\ punished v (set_status active jail v') amount.
Proof. intros [[] ? ? ?] ->. destruct v'. by split; split. Qed.

Lemma enforce_run now reason n v v' amount (m : Manager) :
  valid_address (val_Address v') -> punished v v' amount -> vm_validators m !! val_Address v' = Some v' ->
  exists m' w, enforce cfg now (val_Address v') reason n v' m = (Ok tt, m') /\ vm_validators m' !! val_Address v' = Some w /\ punished v w amount /\
  vm_mu m' = vm_mu m /\ slashingEvents m' = slashingEvents m.
Proof.
  intros Ha Hp Hm. unfold enforce.
  assert (Hrem : exists m' w, (ok ← attempt (vm_RemoveValidator now (val_Address v')); if (ok : bool) then mret tt else (_ ← attempt (vm_update v'); mret tt)) m = (Ok tt, m') /\
            vm_validators m' !! val_Address v' = Some w /\ punished v w amount /\ vm_mu m' = vm_mu m /\ slashingEvents m' = slashingEvents m).
  { unfold mbind, GoM_bind, attempt. rewrite (remove_run now v' m Ha Hm). eexists _, _. split; [reflexivity|]. rewrite put_lookup. split; [reflexivity|].
    split; [|done]. by apply (punished_status v v' amount false _ 0 Hp). }
  destruct (_ && _); [exact Hrem|]. destruct (_ <=? _); [exact Hrem|]. destruct (_ <? _); [exact Hrem|].
  destruct (update_same v' m Ha Hm) as (m' & Hrun & Hl & ? & ?). by exists m', v'.
Qed.

Lemma amount_bounds stake fraction : 0 <= stake -> InflationSpec.between unit_lo unit_hi fraction ->
  exists a, slash_amount stake fraction = Ok a /\ 0 <= a /\ (a <= stake \/ stake = 0).
Proof.
  intros Hs Hf. destruct (mul_unit (E:=vm_err) stake fraction Hs Hf) as (r & Hr & Hr0). unfold slash_amount, mbind, outcome_bind. rewrite Hr. cbn [nonnil].
  eexists. split; [reflexivity|]. destruct (_ && (r =? 0)); lia.
Qed.

(** What a slash leaves of the validator, whatever the queue. *)
Lemma slash_punishes v amount q : consistent v -> 0 <= amount -> amount <= stake_of v \/ stake_of v = 0 ->
  exists v1 q1, applySlashToDelegatedStake amount v q = Ok (v1, q1) /\
  punished v (set_stakes (Bytes (Z.max 0 (stake_of v - amount))) (val_SelfStake v1) (val_DelegatedStake v1) (val_Delegators v1) (set_status false (val_JailUntil v1) v1)) amount /\
  val_Address v1 = val_Address v.
Proof.
  intros Hc Ham0 Ham. assert (Hst : 0 <= stake_of v) by apply ParseBigInt_bytes_nonneg.
  pose proof (cs_bound _ Hc) as Hb. destruct (decide (stake_of v = 0)) as [Hzero|].
  - exists v, q. unfold applySlashToDelegatedStake. rewrite Hzero. cbn [Z.leb Z.compare]. rewrite orb_true_r. split_and!; [done| |done].
    rewrite Z.max_l by lia. destruct Hc as [H1' H2' H3' H4']. destruct v; cbn in *. unfold stake_of in *; cbn in *.
    split; cbn; [split; cbn; unfold stake_of; cbn|unfold stake_of; cbn|done|done]; change (ParseBigInt_bytes (Bytes 0)) with 0; [lia|done|exact H3'|done|lia].
  - destruct (slash_apportioned v q amount Hc ltac:(lia)) as (v1 & q1 & Hrun & Hp1 & Hp2 & Hp3 & Hp4 & Ead & Est & _).
    exists v1, q1. split_and!; [done| |done]. rewrite Z.max_r by lia.
    set (T := stake_of v) in *.
    destruct v1; cbn in *. split; cbn; [split; cbn; unfold stake_of; cbn; rewrite ?read_Bytes by lia|unfold stake_of at 1; cbn; rewrite read_Bytes by lia|done|exact Hp4]; [lia|done|exact Hp3|lia|fold T; lia].
Qed.

(** C21. Slashing keeps the books of a validator.  An active validator whose stake is
    its own plus its delegators' is slashed by a fraction of it: the call
    succeeds, the amount recorded is what the stake loses, the slash is spread
    over the validator and its delegators so that the parts still add up to the
    unit, no delegator gains, and the validator is out of the active set -
    whether it is jailed or removed. *)
Theorem slashing_keeps_the_books clock reason evidence (m : Manager) v fraction duration :
  vm_mu m = unlocked -> vm_validators m !! val_Address v = Some v -> valid_address (val_Address v) -> val_Active v = true -> consistent v ->
  penalty_of cfg reason (length (default [] (slashingEvents m !! val_Address v))) = Some (fraction, duration) -> InflationSpec.between unit_lo unit_hi fraction ->
  exists m' v' amount, SlashValidator cfg clock (val_Address v) reason evidence m = (Ok tt, m') /\
  vm_validators m' !! val_Address v = Some v' /\ punished v v' amount /\ vm_mu m' = unlocked /\
  exists event, slashingEvents m' !! val_Address v = Some (default [] (slashingEvents m !! val_Address v) ++ [event]) /\ se_Amount event = String10 amount.
Proof.
  intros Hmu Hm Ha Hact Hc Hpen Hf. set (m0 := vm_set_mu (MkRW true 0) m).
  assert (Hst : 0 <= stake_of v) by apply ParseBigInt_bytes_nonneg.
  destruct (amount_bounds (stake_of v) fraction Hst Hf) as (amount & Hamt & Ham0 & Ham).
  destruct (slash_punishes v amount (unbondingQueue m) Hc Ham0 Ham) as (v1 & q1 & Happ & Hpun & Ead).
  set (v2 := touch (clock 1%nat) (set_status false (i64 (clock 0%nat + duration))
               (set_stakes (Bytes (Z.max 0 (stake_of v - amount))) (val_SelfStake v1) (val_DelegatedStake v1) (val_Delegators v1) v1))).
  assert (Hv2 : punished v v2 amount /\ val_Address v2 = val_Address v).
  { split; [|unfold v2; by destruct v1]. apply (punished_status _ _ _ false (i64 (clock 0%nat + duration)) (clock 1%nat)) in Hpun as [Hpun _]; [|done].
    unfold v2. destruct v1. exact Hpun. }
  destruct Hv2 as [Hp2 Ea2].
  set (event := MkSlash (val_Address v) reason (String10 amount) (vm_height m) (clock 2%nat) evidence).
  set (m1 := vm_set_events (<[val_Address v := default [] (slashingEvents m !! val_Address v) ++ [event]]> (slashingEvents m)) (vm_set_queue q1 (put (val_Address v) v2 m0))).
  set (m2 := match validatorMetrics m1 !! val_Address v with
             | Some x => vm_set_metrics (<[val_Address v := note_slash reason amount (val_JailUntil v2) duration x]> (validatorMetrics m1)) m1
             | None => m1 end).
  assert (Hm2 : vm_validators m2 !! val_Address v2 = Some v2 /\ vm_mu m2 = MkRW true 0 /\ slashingEvents m2 = slashingEvents m1).
  { unfold m2. rewrite Ea2. destruct (validatorMetrics m1 !! val_Address v); by rewrite <-(put_lookup (val_Address v) v2 m0). }
  destruct Hm2 as (Hl2 & Hmu2 & Hev2).
  destruct (enforce_run (clock 3%nat) reason (Z.of_nat (length (default [] (slashingEvents m !! val_Address v)))) v v2 amount m2) as (m3 & w & Hen & Hl3 & Hp3 & Hmu3 & Hev3); [by rewrite Ea2|done..|].
  exists (vm_set_mu unlocked m3), w, amount. split.
  - apply (vm_locked_run (slash_body cfg clock (val_Address v) reason evidence) m (Ok tt) m3 Hmu); [|done|by rewrite Hmu3].
    fold m0. unfold slash_body, mbind, GoM_bind, find_validator, get, refuse_if, lift. change (vm_validators m0) with (vm_validators m). rewrite Hm, Hact. cbn [negb mret GoM_ret].
    change (slashingEvents m0) with (slashingEvents m). change (unbondingQueue m0) with (unbondingQueue m). change (vm_height m0) with (vm_height m). rewrite Hpen, Hamt, Happ. rewrite Ea2 in Hen. exact Hen.
  - rewrite Ea2 in Hl3. split_and!; [exact Hl3|exact Hp3|done|]. exists event. split; [|done]. cbn. rewrite Hev3, Hev2. unfold m1. cbn. apply lookup_insert_eq.
Qed.

(** *** The jail *)

Lemma relock (m : Manager) : vm_mu m = unlocked -> vm_set_mu unlocked (vm_set_mu (MkRW true 0) m) = m.
Proof. destruct m. cbn. by intros ->. Qed.
Lemma vm_locked_refuses {A} (body : Vm A) (m : Manager) e : vm_mu m = unlocked ->
  body (vm_set_mu (MkRW true 0) m) = (Err e, vm_set_mu (MkRW true 0) m) -> vm_locked W body m = (Err e, m).
Proof. intros Hmu Hb. rewrite (vm_locked_run _ _ _ _ Hmu Hb) by done. by rewrite relock. Qed.

(** The jail is over or it is not: one of the two checks refuses. *)
Lemma unjail_refused clock address (m : Manager) :
  vm_mu m = unlocked -> clock 1%nat = clock 0%nat -> exists e, UnjailValidator cfg clock address m = (Err e, m).
Proof.
  intros Hmu Hclock. unfold UnjailValidator.
  destruct (vm_validators m !! address) as [v|] eqn:Hv.
  - destruct (isJailed (clock 0%nat) v) eqn:Hj.
    + exists JailNotExpired. apply vm_locked_refuses; [done|]. unfold isJailed in Hj.
      unfold mbind, GoM_bind, find_validator. change (vm_validators (vm_set_mu _ m)) with (vm_validators m). by rewrite Hv, Hclock; unfold isJailed; rewrite Hj.
    + exists NotJailed. apply vm_locked_refuses; [done|].
      unfold mbind, GoM_bind, find_validator. change (vm_validators (vm_set_mu _ m)) with (vm_validators m). by rewrite Hv, Hj.
  - exists (VM_NotFound address). apply vm_locked_refuses; [done|].
    unfold mbind, GoM_bind, find_validator. change (vm_validators (vm_set_mu _ m)) with (vm_validators m). by rewrite Hv.
Qed.

(** A jailed validator cannot be released.  [UnjailValidator] wants the jail to be
    still running and already over, so with one reading of the clock it refuses
    every validator, in jail or not, and changes nothing. *)
Theorem unjail_always_refuses clock address (m : Manager) :
  vm_mu m = unlocked -> clock 1%nat = clock 0%nat -> exists e, UnjailValidator cfg clock address m = (Err e, m).
Proof. apply unjail_refused. Qed.

(** The downtime penalty stops the manager.  Once the chain is 100 blocks long, the
    missed block that makes a validator's record bad enough for a penalty makes
    [RecordBlockProposal] wait for the mutex it holds itself: it never returns,
    and no later call of the manager gets past its lock. *)
Theorem downtime_penalty_deadlocks clock address (m : Manager) v x :
  vm_mu m = unlocked -> 100 <= vm_height m -> vm_validators m !! address = Some v ->
  validatorMetrics m !! address = Some x -> down cfg (note_block false (clock 1%nat) x) = true ->
  exists m', RecordBlockProposal cfg clock address false m = (Hang, m') /\
  forall A k (body : Vm A), vm_locked k body m' = (Hang, m').
Proof.
  intros Hmu Hh Hv Hx Hd. unfold RecordBlockProposal, vm_locked at 1. rewrite Hmu. cbn [mutex_call unlocked].
  unfold mbind, GoM_bind, find_validator at 1, wrapM, checkDowntimeSlashing. cbn.
  unfold vm_validators in Hv |- *. cbn. rewrite Hv. cbn.
  unfold mbind, GoM_bind, find_validator, vm_validators, get. cbn. rewrite lookup_insert_eq. cbn [vm_height validatorMetrics vm_set_metrics vm_set_world vm_set_mu]. rewrite (proj2 (Z.ltb_ge _ _) Hh), lookup_alter_eq, Hx. cbn [fmap option_fmap option_map].
  rewrite Hd. unfold SlashValidator. rewrite vm_locked_held by done. cbn. eexists. split; [reflexivity|]. intros A k body. by apply vm_locked_held.
Qed.

(** *** Unbonding *)

Lemma queue_run now validatorAddr delegatorAddr amount (m : Manager) v :
  vm_mu m = unlocked -> kv_io (db (w_am (vm_world m))) = [] -> vm_validators m !! validatorAddr = Some v ->
  ParseBigInt_string amount <= held_by (val_Delegators v) delegatorAddr ->
  exists m', BeginUnbonding cfg now validatorAddr delegatorAddr amount m = (Ok tt, m') /\
  vm_mu m' = unlocked /\ kv_io (db (w_am (vm_world m'))) = [] /\ vm_validators m' = vm_validators m /\ vm_height m' = vm_height m /\
  unbondingQueue m' !! delegatorAddr = Some (default [] (unbondingQueue m !! delegatorAddr) ++
    [MkVUnbonding validatorAddr delegatorAddr (String10 (ParseBigInt_string amount)) (i64 (vm_height m + unbonding_blocks cfg)) now]).
Proof.
  intros Hmu Hio Hv Hheld.
  assert (Hb : exists m1, queueUnbondingLocked cfg now validatorAddr delegatorAddr amount (vm_set_mu (MkRW true 0) m) = (Ok tt, m1) /\
    vm_mu m1 = MkRW true 0 /\ kv_io (db (w_am (vm_world m1))) = [] /\ vm_validators m1 = vm_validators m /\ vm_height m1 = vm_height m /\
    unbondingQueue m1 !! delegatorAddr = Some (default [] (unbondingQueue m !! delegatorAddr) ++
    [MkVUnbonding validatorAddr delegatorAddr (String10 (ParseBigInt_string amount)) (i64 (vm_height m + unbonding_blocks cfg)) now])).
  { unfold queueUnbondingLocked, mbind, GoM_bind, find_validator. change (vm_validators (vm_set_mu _ m)) with (vm_validators m). rewrite Hv.
    fold (held_by (val_Delegators v) delegatorAddr). rewrite (proj2 (Z.ltb_ge _ _) Hheld). cbn.
    unfold persistUnbondingQueueLocked, mbind, GoM_bind, get, on_vm_world, on_store, SetMetadata, kv_Set, access. cbn.
    destruct (db (w_am (vm_world m))) as [data io]. cbn in Hio. subst io. cbn. eexists. split; [reflexivity|]. cbn. by rewrite lookup_insert_eq. }
  destruct Hb as (m1 & Hrun & Hmu1 & Hio1 & Hv1 & Hh1 & Hq1). exists (vm_set_mu unlocked m1).
  split; [by apply vm_locked_run|]. by split_and!.
Qed.

(** Queueing an unbonding reserves nothing.  A delegator who holds the amount can
    ask for it any number of times before the first request completes: each is
    accepted and each queues the amount again, while the delegation it will be
    paid from is untouched. *)
Theorem unbonding_is_not_reserved now validatorAddr delegatorAddr amount v n (m : Manager) :
  vm_mu m = unlocked -> kv_io (db (w_am (vm_world m))) = [] -> vm_validators m !! validatorAddr = Some v ->
  ParseBigInt_string amount <= held_by (val_Delegators v) delegatorAddr -> unbondingQueue m !! delegatorAddr = None ->
  exists m', Nat.iter n (fun c => _ ← c; BeginUnbonding cfg now validatorAddr delegatorAddr amount) (mret tt : Vm unit) m = (Ok tt, m') /\
  vm_validators m' = vm_validators m /\
  (fun e => ParseBigInt_string (vu_Amount e)) <$> default [] (unbondingQueue m' !! delegatorAddr) =
    replicate n (ParseBigInt_string amount).
Proof.
  intros Hmu Hio Hv Hheld Hq.
  enough (exists m', Nat.iter n (fun c => _ ← c; BeginUnbonding cfg now validatorAddr delegatorAddr amount) (mret tt : Vm unit) m = (Ok tt, m') /\
    vm_mu m' = unlocked /\ kv_io (db (w_am (vm_world m'))) = [] /\ vm_validators m' = vm_validators m /\
    (fun e => ParseBigInt_string (vu_Amount e)) <$> default [] (unbondingQueue m' !! delegatorAddr) =
    replicate n (ParseBigInt_string amount)) as (m' & ? & _ & _ & ? & ?) by (by exists m').
  induction n as [|n IH]; [exists m; by rewrite Hq|]. destruct IH as (m1 & Hrun & Hmu1 & Hio1 & Hv1 & Hq1).
  destruct (queue_run now validatorAddr delegatorAddr amount m1 v) as (m2 & Hrun2 & Hmu2 & Hio2 & Hv2 & _ & Hq2); [done|done|by rewrite Hv1|done|].
  exists m2. split; [rewrite Nat.iter_succ; cbv beta; exact (eq_trans (GoM_bind_ok _ _ _ _ _ Hrun) Hrun2)|]. split_and!; [done..|by rewrite Hv2|].
  rewrite Hq2, (replicate_S_end n), <-Hq1. cbn [from_option]. unfold id at 1. rewrite fmap_app. cbn. by rewrite ParseBigInt_String10.
Qed.
End ValidatorSpec.

(** ** A concrete manager *)

Module Demo.
#[local] Instance demo_LRU5 : LRU (list (string * loc)) := list_LRU 1.
#[local] Instance unbonding_eq_dec : EqDecision VUnbondingEntry.
Proof. solve_decision. Defined.
#[local] Instance unbonding_countable : Countable VUnbondingEntry.
Proof.
  refine (inj_countable' (fun e => (vu_ValidatorAddress e, vu_DelegatorAddress e, vu_Amount e, vu_CompletionBlock e, vu_CreatedAt e))
    (fun '(v, d, a, c, t) => MkVUnbonding v d a c t) _). by intros [].
Defined.
#[local] Instance members_json : Json stakeDomainMembers := text_codec.
#[local] Instance queue_json : Json queue := text_codec.

Definition rules : ValidatorConfig :=
  MkValidatorConfig "50" "1000000" "10" (f64_const 5 10) (f64_const 5 10) (f64_const 1 100) 3 (f64_const 5 10) true (f64_const 5 100) (f64_const 1 100)
    100 4 (f64_const 5 10) 3000 1000 false.
Definition demo_v : Validator :=
  MkValidator bob [] "" "" "" (Bytes 1000) (Bytes 600) (Bytes 400) {[alice := Bytes 300; bob := Bytes 100]} 0 true 0 0 0 0 0.
Definition idle : ValidatorMetrics := MkVM bob 0 3 0 0 0 f0 0 "" [].
Definition manager : @Manager (list (string * loc)) permille :=
  MkManager (MkWorld (start demo_kv) NewShardedMutex no_versions {[bob := demo_v]} demo_config new_revm) 200 "5000" {[bob := idle]} ∅ ∅ ∅ unlocked.
Definition tick (i : nat) : Z := 1000 + Z.of_nat i.

Lemma demo_consistent : consistent demo_v.
Proof.
  split; [vm_compute; reflexivity..| |vm_compute; reflexivity].
  intros a b Hab. assert (Hall : map_Forall (fun _ x => 0 < ParseBigInt_bytes x) (val_Delegators demo_v)) by (apply (bool_decide_unpack _); vm_compute; reflexivity).
  exact (Hall a b Hab).
Qed.

Lemma slashing_keeps_the_books_witness :
  exists m' v', SlashValidator rules tick bob SlashingDoubleSign [] manager = (Ok tt, m') /\ vm_validators m' !! bob = Some v' /\ consistent v' /\ stake_of v' = 950.
Proof.
  destruct (slashing_keeps_the_books rules tick SlashingDoubleSign [] manager demo_v (f64_const 5 100) (30 * day)) as (m' & v' & amount & Hrun & Hv & [Hc Hs _ _] & _ & event & He & Ha).
  - reflexivity.
  - vm_compute. reflexivity.
  - vm_compute. reflexivity.
  - reflexivity.
  - exact demo_consistent.
  - vm_compute. reflexivity.
  - exists (fin_of (f64_const 5 100)). split; [vm_compute; reflexivity|split; vm_compute; discriminate].
  - exists m', v'. split_and!; [exact Hrun|exact Hv|exact Hc|].
    assert (Hst : (stake_of <$> vm_validators (snd (SlashValidator rules tick bob SlashingDoubleSign [] manager)) !! bob) = Some 950) by (vm_compute; reflexivity).
    change (val_Address demo_v) with bob in *. rewrite Hrun in Hst. cbn [snd] in Hst. rewrite Hv in Hst. by injection Hst.
Defined.

Lemma unjail_always_refuses_witness : exists e, UnjailValidator rules (fun _ => 1000) bob manager = (Err e, manager).
Proof. exact (unjail_always_refuses rules (fun _ => 1000) bob manager eq_refl eq_refl). Defined.

Lemma downtime_penalty_deadlocks_witness :
  exists m', RecordBlockProposal rules tick bob false manager = (Hang, m') /\ DeactivateValidator 0 bob m' = (Hang, m').
Proof.
  destruct (downtime_penalty_deadlocks rules tick bob manager demo_v idle eq_refl ltac:(vm_compute; discriminate) ltac:(vm_compute; reflexivity)
    ltac:(vm_compute; reflexivity) ltac:(vm_compute; reflexivity)) as (m' & Hrun & Hall).
  exists m'. split; [exact Hrun|exact (Hall _ _ _)].
Defined.

Lemma unbonding_is_not_reserved_witness :
  exists m', Nat.iter 2 (fun c => _ ← c; BeginUnbonding rules 0 bob alice "300") (mret tt) manager = (Ok tt, m') /\
  (fun e => ParseBigInt_string (vu_Amount e)) <$> default [] (unbondingQueue m' !! alice) = [300; 300].
Proof.
  destruct (unbonding_is_not_reserved rules 0 bob alice "300" demo_v 2 manager eq_refl ltac:(vm_compute; reflexivity) ltac:(vm_compute; reflexivity)
    ltac:(vm_compute; discriminate) ltac:(vm_compute; reflexivity)) as (m' & Hrun & _ & Hq).
  exists m'. split; [exact Hrun|]. rewrite Hq. vm_compute. reflexivity.
Defined.

Definition at_height (h : Z) (m : @Manager (list (string * loc)) permille) : Manager :=
  MkManager (vm_world m) h (vm_totalStaked m) (validatorMetrics m) (slashingEvents m) (unbondingQueue m) (commissionUpdateTimes m) (vm_mu m).
Definition asked_twice : Manager := snd (BeginUnbonding rules 0 bob alice "300" (snd (BeginUnbonding rules 0 bob alice "300" manager))).
Definition paid : Manager := snd (ProcessUnbondings no_hash BeaconShardID 1 rules 0 (at_height 300 asked_twice)).

(** Both requests are paid; the second takes what the delegator does not have, and
    the delegation of -300 is stored as 300. *)
Example double_unbonding_pays_twice :
  fst (ProcessUnbondings no_hash BeaconShardID 1 rules 0 (at_height 300 asked_twice)) = Ok tt /\
  (fun v => (stake_of v, held_by (val_Delegators v) alice)) <$> vm_validators paid !! bob = Some (400, 300) /\ unbondingQueue paid = ∅.
Proof. vm_compute. by split_and!. Qed.

(** The penalty of a pending unbonding is not written to the store: a restart
    brings the full amount back. *)
Definition asked : Manager := snd (BeginUnbonding rules 0 bob alice "300" manager).
Definition slashed : Manager := snd (SlashValidator rules tick bob SlashingDoubleSign [] asked).
Definition queued (m : @Manager (list (string * loc)) permille) : list string := vu_Amount <$> default [] (unbondingQueue m !! alice).
Example restart_forgets_the_penalty :
  queued slashed = ["285"] /\ queued (NewManager (vm_world slashed) 200 "5000") = ["300"].
Proof. vm_compute. by split. Qed.
End Demo.
