(* ===== verification/Timing.v ===== *)
(** * Block times (src/consensus/pos/timestamp_validation.go and timesync.go)

    Two validators look at the timestamp of a proposed block: one knows the slots,
    the other the local clock.  Timestamps are seconds, durations nanoseconds; a
    reading of the clock is an argument of the call that makes it. *)

From S2P Require Import Prelude SafeMath Uint256 Floats.
From stdpp Require Import base tactics numbers list.
From Stdlib Require Import ZArith Lia.
Open Scope Z_scope.
Open Scope list_scope.

Inductive time_err : Type :=
| BeforeParent
| TooFarAhead
| OffSlot (difference : Z)
| BeyondRecovery (difference : Z)
| OutsideRange (difference : Z)
| LengthMismatch
| BlockRefused (i : Z) (e : time_err)
| SuspiciousPattern (average : Z)
| InFuture (drift : Z)
| InPast (drift : Z)
| NotAfterPrevious
| IncrementTooSmall
| IncrementTooLarge
| ClockJumped (drift : Z)
| AverageDrift (average : Z).

Notation Tv := (outcome time_err).
Definition reject (c : bool) (e : time_err) : Tv unit := if c then Err e else Ok tt.

(** ** The slot clock *)

Record TimestampValidator : Type := MkTimestampValidator {
  maxDriftSeconds : Z;
  slotDurationSeconds : Z;
  genesisTimestamp : Z
}.
Definition NewTimestampValidator (maxDrift slotDuration genesis : Z) : TimestampValidator :=
  MkTimestampValidator (if maxDrift =? 0 then 60 else maxDrift) (if slotDuration =? 0 then 6 else slotDuration) genesis.

Definition abs64 (n : Z) : Z := if n <? 0 then i64 (- n) else n.
Definition CalculateSlotTimestamp (tv : TimestampValidator) (slot : Z) : Z :=
  i64 (genesisTimestamp tv + i64 (i64 slot * slotDurationSeconds tv)).
Definition GetTimestampWindow (tv : TimestampValidator) (slot : Z) : Z * Z :=
  let expected := CalculateSlotTimestamp tv slot in (i64 (expected - maxDriftSeconds tv), i64 (expected + maxDriftSeconds tv)).
Definition maxGenesisRecoveryPeriod : Z := 604800.

Definition slot_ValidateBlockTimestamp (tv : TimestampValidator) (now blockTimestamp blockSlot parentTimestamp parentIndex : Z) : Tv unit :=
  _ ← reject (blockTimestamp <? parentTimestamp) BeforeParent;
  _ ← reject (i64 (now + maxDriftSeconds tv) <? blockTimestamp) TooFarAhead;
  let difference := abs64 (i64 (blockTimestamp - CalculateSlotTimestamp tv blockSlot)) in
  _ ← reject (maxDriftSeconds tv <? difference) (OffSlot difference);
  let actual := i64 (blockTimestamp - parentTimestamp) in
  let longest := i64 (slotDurationSeconds tv * 200) in
  if (parentIndex =? 0) && (longest <? actual) then reject (maxGenesisRecoveryPeriod <? actual) (BeyondRecovery actual)
  else reject ((actual <? 1) || (longest <? actual)) (OutsideRange actual).

Fixpoint progression_loop (tv : TimestampValidator) (clock : nat -> Z) (i : nat) (prev : Z) (rest : list (Z * Z)) : Tv unit :=
  match rest with
  | [] => mret tt
  | (t, slot) :: rest =>
      _ ← wrap (BlockRefused (Z.of_nat (S i))) (slot_ValidateBlockTimestamp tv (clock i) t slot prev (Z.of_nat i));
      progression_loop tv clock (S i) t rest
  end.
Definition average_deviation (tv : TimestampValidator) (l : list (Z * Z)) : Z :=
  Z.quot (foldl (fun sum p => i64 (sum + abs64 (i64 (fst p - CalculateSlotTimestamp tv (snd p))))) 0 l) (Z.of_nat (length l)).
Definition ValidateTimestampProgression (tv : TimestampValidator) (clock : nat -> Z) (timestamps slots : list Z) : Tv unit :=
  _ ← reject (negb (length timestamps =? length slots)%nat) LengthMismatch;
  match zip timestamps slots with
  | (t0, _) :: (_ :: _) =>
      _ ← progression_loop tv clock 0 t0 (tail (zip timestamps slots));
      let average := average_deviation tv (zip timestamps slots) in
      reject (int64_of_f64 (f64_mul (f64_of_int (maxDriftSeconds tv)) (f64_const 75 100)) <? average) (SuspiciousPattern average)
  | _ => mret tt
  end.

(** ** The local clock *)

Definition ns : Z := 1000000000.
Definition MaxAllowedTimeDrift : Z := 5 * ns.
Definition MaxCumulativeTimeDrift : Z := 10 * ns.
Definition MinBlockTimeInterval : Z := ns.

(** [Duration.Seconds()], and its conversion to an integer. *)
Definition Seconds (d : Z) : float64 :=
  f64_add (f64_of_int (Z.quot d ns)) (f64_div (f64_of_int (Z.rem d ns)) (f64_of_int ns)).
Definition whole_seconds (d : Z) : Z := int64_of_f64 (Seconds d).

Definition ValidateTimestamp (now timestamp maxFutureDrift maxPastDrift : Z) : Tv unit :=
  let future := i64 (timestamp - now) in
  _ ← reject (whole_seconds maxFutureDrift <? future) (InFuture future);
  let past := i64 (now - timestamp) in
  reject (whole_seconds maxPastDrift <? past) (InPast past).

Definition maxReasonableIncrement : Z := 3600.
Definition clock_ValidateBlockTimestamp (now blockTimestamp previous maxFutureDrift maxPastDrift : Z) : Tv unit :=
  _ ← ValidateTimestamp now blockTimestamp maxFutureDrift maxPastDrift;
  if previous =? 0 then mret tt
  else
    _ ← reject (blockTimestamp <=? previous) NotAfterPrevious;
    _ ← reject (i64 (i64 (blockTimestamp - previous) * ns) <? MinBlockTimeInterval) IncrementTooSmall;
    let increment := i64 (blockTimestamp - previous) in
    if (maxReasonableIncrement <? increment) && (increment <=? maxGenesisRecoveryPeriod) then mret tt
    else reject (maxGenesisRecoveryPeriod <? increment) IncrementTooLarge.

(** *** Watching the clock *)

Record TimeValidator : Type := MkTimeValidator {
  driftSamples : list Z;
  maxSamples : Z;
  lastNTPSync : Z;
  cumulativeDrift : Z;
  warningIssued : bool;
  ntpSyncRequired : bool;
  lastDriftCheck : Z;
  lastMonotonic : Z;
  driftChecksFailed : Z
}.
Definition NewTimeValidator (sync wall monotonic : Z) : TimeValidator :=
  MkTimeValidator [] 100 sync 0 false true wall monotonic 0.

Definition calculateAverageDrift (samples : list Z) : Z :=
  match samples with
  | [] => 0
  | _ =>
      let total := foldl (fun t d => f64_add t (f64_abs (Seconds d))) (f64_of_int 0) samples in
      int64_of_f64 (f64_mul (f64_div total (f64_of_int (Z.of_nat (length samples)))) (f64_of_int ns))
  end.

(** [Time.Sub], which saturates. *)
Definition time_Sub (a b : Z) : Z := Z.max (- two63) (Z.min (two63 - 1) (a - b)).

(** [wall] and [monotonic] are the two readings of the clock. *)
Definition CheckSystemTimeDrift (wall monotonic : Z) : GoM TimeValidator time_err Z := fun tv =>
  let drift := i64 (time_Sub wall (lastDriftCheck tv) - time_Sub monotonic (lastMonotonic tv)) in
  let kept := if maxSamples tv <=? Z.of_nat (length (driftSamples tv)) then drop 1 (driftSamples tv) else driftSamples tv in
  let samples := kept ++ [drift] in
  let average := calculateAverageDrift samples in
  let tv' warned failed := MkTimeValidator samples (maxSamples tv) (lastNTPSync tv) average warned (ntpSyncRequired tv) wall monotonic failed in
  if f64_lt (f64_of_int 1) (f64_abs (Seconds drift)) then (Err (ClockJumped drift), tv' (warningIssued tv) (i64 (driftChecksFailed tv + 1)))
  else if (MaxCumulativeTimeDrift <? average) && negb (warningIssued tv) then (Err (AverageDrift average), tv' true (driftChecksFailed tv))
  else (Ok drift, tv' (warningIssued tv) (driftChecksFailed tv)).

(** One tick of [StartDriftMonitoring]. *)
Definition monitor_tick (wall monotonic : Z) (tv : TimeValidator) : TimeValidator :=
  match CheckSystemTimeDrift wall monotonic tv with
  | (Ok _, tv) =>
      MkTimeValidator (driftSamples tv) (maxSamples tv) (lastNTPSync tv) (cumulativeDrift tv) false (ntpSyncRequired tv) (lastDriftCheck tv) (lastMonotonic tv)
        (if 0 <? driftChecksFailed tv then i64 (driftChecksFailed tv - 1) else driftChecksFailed tv)
  | (_, tv) => tv
  end.

Definition IsTimeSyncHealthy (now : Z) (tv : TimeValidator) : bool :=
  negb (MaxCumulativeTimeDrift <? cumulativeDrift tv) && negb (0 <? driftChecksFailed tv) && negb (300 * ns <? time_Sub now (lastDriftCheck tv)).
Definition RequireNTPSync (required : bool) (tv : TimeValidator) : TimeValidator :=
  MkTimeValidator (driftSamples tv) (maxSamples tv) (lastNTPSync tv) (cumulativeDrift tv) (warningIssued tv) required (lastDriftCheck tv) (lastMonotonic tv) (driftChecksFailed tv).
Definition IsNTPSyncRequired (tv : TimeValidator) : bool := ntpSyncRequired tv.

(** ** Which times are accepted *)

(** Until the year 2242; a difference of these in nanoseconds does not overflow. *)
Definition plausible (t : Z) : Prop := 0 <= t < 2 ^ 33.
(** A clock that is configured with ordinary numbers. *)
Record ordinary (tv : TimestampValidator) : Prop := MkOrdinary {
  od_drift : plausible (maxDriftSeconds tv);
  od_slot : 0 < slotDurationSeconds tv < 2 ^ 16;
  od_genesis : plausible (genesisTimestamp tv)
}.

Lemma reject_ok c e : reject c e = Ok tt <-> c = false.
Proof. by destruct c. Qed.
Lemma then_ok {A} (m : Tv unit) (k : Tv A) x : (_ ← m; k) = Ok x <-> m = Ok tt /\ k = Ok x.
Proof. destruct m as [[]|e| |]; unfold mbind, outcome_bind; naive_solver. Qed.
Lemma five_seconds : whole_seconds MaxAllowedTimeDrift = 5.
Proof. vm_compute. reflexivity. Qed.

Lemma slot_time tv slot : ordinary tv -> plausible slot -> CalculateSlotTimestamp tv slot = genesisTimestamp tv + slot * slotDurationSeconds tv.
Proof.
  intros [_ Hs Hg] Hslot. unfold CalculateSlotTimestamp, plausible in *. assert (0 <= slot * slotDurationSeconds tv < 2 ^ 56) by nia.
  rewrite (i64_id slot), (i64_id (slot * _)), i64_id by (unfold_ints; lia). done.
Qed.
Lemma abs64_small n : - 2 ^ 62 <= n <= 2 ^ 62 -> abs64 n = Z.abs n.
Proof. intros Hn. unfold abs64. destruct (Z.ltb_spec n 0); [rewrite i64_id by (unfold_ints; lia)|]; lia. Qed.

Lemma slot_check_exact tv now ts slot parent index :
  ordinary tv -> plausible now -> plausible ts -> plausible slot -> plausible parent ->
  slot_ValidateBlockTimestamp tv now ts slot parent index = Ok tt <->
  parent < ts <= now + maxDriftSeconds tv /\ Z.abs (ts - (genesisTimestamp tv + slot * slotDurationSeconds tv)) <= maxDriftSeconds tv /\
  (ts - parent <= 200 * slotDurationSeconds tv \/ index = 0 /\ ts - parent <= maxGenesisRecoveryPeriod).
Proof.
  intros Htv Hnow Hts Hslot Hpar. unfold slot_ValidateBlockTimestamp. rewrite slot_time by done. destruct Htv as [Hd Hs Hg]. unfold plausible in *.
  assert (Hprod : 0 <= slot * slotDurationSeconds tv < 2 ^ 56) by nia.
  rewrite (i64_id (now + _)), (i64_id (ts - (_ + _))), (i64_id (ts - parent)), (i64_id (_ * 200)), abs64_small by (unfold_ints; lia).
  rewrite !then_ok, !reject_ok, !Z.ltb_ge. destruct (Z.eqb_spec index 0), (Z.ltb_spec (slotDurationSeconds tv * 200) (ts - parent)); cbn [andb];
    rewrite reject_ok, ?orb_false_iff, !Z.ltb_ge; lia.
Qed.
Lemma clock_check_exact now ts previous :
  plausible now -> plausible ts -> plausible previous ->
  clock_ValidateBlockTimestamp now ts previous MaxAllowedTimeDrift MaxAllowedTimeDrift = Ok tt <->
  Z.abs (ts - now) <= 5 /\ (previous = 0 \/ previous < ts <= previous + maxGenesisRecoveryPeriod).
Proof.
  intros Hnow Hts Hprev. unfold clock_ValidateBlockTimestamp, ValidateTimestamp. rewrite five_seconds. unfold plausible in *.
  rewrite !(i64_id (_ - _)) by (unfold_ints; lia). rewrite !then_ok, !reject_ok, !Z.ltb_ge.
  destruct (Z.eqb_spec previous 0); [split; [intros [[??] _]; lia|intros [??]; split; [lia|done]]|]. rewrite !then_ok, !reject_ok, Z.leb_gt, Z.ltb_ge.
  unfold MinBlockTimeInterval, ns, maxReasonableIncrement, maxGenesisRecoveryPeriod in *.
  rewrite (i64_id (_ * _)) by (unfold_ints; lia).
  destruct (Z.ltb_spec 3600 (ts - previous)), (Z.leb_spec (ts - previous) 604800); cbn [andb]; rewrite ?reject_ok, ?Z.ltb_ge; (lia || (split; [intros; lia|intros; split_and!; (lia || done)])).
Qed.

(** Which timestamps both validators accept.  Given the parent's timestamp, a block
    passes exactly when it is later than its parent, at most five seconds away
    from the local clock, within the allowed drift of its slot's time and not too
    long after the parent - a week when the parent is the genesis block, 200
    slots otherwise.  So the slot a block claims follows the clock: a proposer
    that counts slots from its own start is refused as soon as its count is off by
    more than the drift. *)
Theorem accepted_times_exactly tv now ts slot parent index :
  ordinary tv -> plausible now -> plausible ts -> plausible slot -> plausible parent -> 0 < parent ->
  200 * slotDurationSeconds tv <= maxGenesisRecoveryPeriod ->
  (clock_ValidateBlockTimestamp now ts parent MaxAllowedTimeDrift MaxAllowedTimeDrift = Ok tt /\ slot_ValidateBlockTimestamp tv now ts slot parent index = Ok tt <->
   parent < ts /\ Z.abs (ts - now) <= 5 /\ ts <= now + maxDriftSeconds tv /\
   Z.abs (ts - (genesisTimestamp tv + slot * slotDurationSeconds tv)) <= maxDriftSeconds tv /\
   ts - parent <= (if index =? 0 then maxGenesisRecoveryPeriod else 200 * slotDurationSeconds tv)) /\
  (clock_ValidateBlockTimestamp now ts parent MaxAllowedTimeDrift MaxAllowedTimeDrift = Ok tt /\ slot_ValidateBlockTimestamp tv now ts slot parent index = Ok tt ->
   Z.abs (now - genesisTimestamp tv - slot * slotDurationSeconds tv) <= maxDriftSeconds tv + 5).
Proof.
  intros Htv Hnow Hts Hslot Hpar Hpos Hlong. rewrite slot_check_exact, clock_check_exact by done. unfold maxGenesisRecoveryPeriod in *.
  destruct (Z.eqb_spec index 0); split; lia.
Qed.

(** *** The monitor *)

Lemma check_keeps wall monotonic tv r tv' : maxSamples tv = 100 -> Z.of_nat (length (driftSamples tv)) <= 100 ->
  CheckSystemTimeDrift wall monotonic tv = (r, tv') -> maxSamples tv' = 100 /\ 1 <= Z.of_nat (length (driftSamples tv')) <= 100 /\
  cumulativeDrift tv' = calculateAverageDrift (driftSamples tv').
Proof.
  intros Hmax Hlen. unfold CheckSystemTimeDrift. rewrite Hmax. set (kept := if 100 <=? _ then drop 1 (driftSamples tv) else driftSamples tv).
  assert (Hk : Z.of_nat (length kept) <= 99) by (unfold kept; destruct (Z.leb_spec 100 (Z.of_nat (length (driftSamples tv)))); [rewrite length_drop|]; lia).
  intros Hrun. assert (Hs : driftSamples tv' = kept ++ [i64 (time_Sub wall (lastDriftCheck tv) - time_Sub monotonic (lastMonotonic tv))] /\ maxSamples tv' = 100 /\
    cumulativeDrift tv' = calculateAverageDrift (driftSamples tv')) by (destruct (f64_lt _ _); [|destruct (_ && _)]; injection Hrun as <- <-; by split_and!).
  destruct Hs as (-> & -> & ->). rewrite length_app. cbn. lia.
Qed.
(** However long the monitor runs, it averages at most a hundred samples. *)
Lemma monitor_bounded readings sync wall monotonic :
  let tv := foldl (fun tv p => monitor_tick (fst p) (snd p) tv) (NewTimeValidator sync wall monotonic) readings in
  maxSamples tv = 100 /\ Z.of_nat (length (driftSamples tv)) <= 100 /\ cumulativeDrift tv = calculateAverageDrift (driftSamples tv).
Proof.
  cbv zeta. enough (forall tv, maxSamples tv = 100 /\ Z.of_nat (length (driftSamples tv)) <= 100 /\ cumulativeDrift tv = calculateAverageDrift (driftSamples tv) ->
    let tv' := foldl (fun tv p => monitor_tick (fst p) (snd p) tv) tv readings in
    maxSamples tv' = 100 /\ Z.of_nat (length (driftSamples tv')) <= 100 /\ cumulativeDrift tv' = calculateAverageDrift (driftSamples tv')) as Hall by (by apply Hall).
  induction readings as [|[w m] readings IH]; intros tv (Hm & Hl & Ha); [done|]. apply IH. cbn [fst snd]. unfold monitor_tick.
  destruct (CheckSystemTimeDrift w m tv) as [r tv'] eqn:Hrun. destruct (check_keeps w m tv r tv' Hm Hl Hrun) as (? & ? & ?). destruct r; cbn; split_and!; (done || lia).
Qed.

Module Demo.
Definition mainnet : TimestampValidator := NewTimestampValidator 300 6 1700000000.
Lemma accepted_times_exactly_witness :
  slot_ValidateBlockTimestamp mainnet 1700006000 1700006001 1000 1700005995 999 = Ok tt /\
  ~ (clock_ValidateBlockTimestamp 1700006000 1700006001 1700005995 MaxAllowedTimeDrift MaxAllowedTimeDrift = Ok tt /\
     slot_ValidateBlockTimestamp mainnet 1700006000 1700006001 12 1700005995 999 = Ok tt).
Proof.
  assert (Hord : ordinary mainnet) by (split; vm_compute; split; congruence).
  pose proof (fun slot (Hslot : plausible slot) => accepted_times_exactly mainnet 1700006000 1700006001 slot 1700005995 999 Hord
    ltac:(unfold plausible; lia) ltac:(unfold plausible; lia) Hslot ltac:(unfold plausible; lia) ltac:(lia) ltac:(vm_compute; congruence)) as Hall.
  split.
  - apply (Hall 1000 ltac:(unfold plausible; lia)). cbn. lia.
  - intros Hno. apply (Hall 12 ltac:(unfold plausible; lia)) in Hno. cbn in Hno. lia.
Defined.
End Demo.
