(* ===== verification/Traversal.v ===== *)
(** * Walking the chain of blocks (src/consensus/pos/consensus_chain_traversal.go)

    Ancestors are found by reading blocks from the database and following their
    parent hashes, at most a thousand steps.  A block that cannot be read counts as
    missing.  Log and error texts cut hashes to eight characters, which panics on a
    shorter one. *)

From S2P Require Import Prelude Uint256 Storage BlockDB.
From stdpp Require Import base tactics numbers list gmap strings.
From Stdlib Require Import ZArith Lia Strings.Byte Strings.Ascii.
Open Scope Z_scope.
Open Scope list_scope.

Inductive walk_err : Type :=
| MissingBlock (hash : string)
| MissingAncestor (ancestor hash : string)
| PathTooDeep
| NoCommonAncestor.

Notation Walk := (GoM KV walk_err).
Definition maxDepth : nat := 1000.

(** [block, _ := ce.worldState.GetBlockByHash(hash)]. *)
Definition find_block {E} (hash : string) : GoM KV E (option Block) := fun d =>
  match GetBlock hash d with
  | (Ok b, d') => (Ok (Some b), d')
  | (Err _, d') => (Ok None, d')
  | (Panic, d') => (Panic, d')
  | (Hang, d') => (Hang, d')
  end.
(** Its [Header.PrevHash]; a block without a header panics. *)
Definition read_parent {E} (hash : string) : GoM KV E (option string) :=
  block ← find_block hash;
  match block with
  | None => mret None
  | Some b => match blk_Header b with Some h => mret (Some (hdr_PrevHash h)) | None => panic end
  end.
(** [s[:8]] in a message. *)
Definition cut8 {S E} (s : string) : GoM S E unit := if (String.length s <? 8)%nat then panic else mret tt.

(** ** Descendants *)

Fixpoint descends_loop {E} (fuel : nat) (currentHash ancestorHash : string) : GoM KV E (option bool) :=
  match fuel with
  | O => mret None
  | S fuel =>
      parent ← read_parent currentHash;
      match parent with
      | None => mret (Some false)
      | Some prev =>
          if bool_decide (prev = ancestorHash) then mret (Some true)
          else if bool_decide (prev = "") then mret (Some false)
          else descends_loop fuel prev ancestorHash
      end
  end.
Definition computeIsDescendant {E} (blockHash ancestorHash : string) : GoM KV E bool :=
  if bool_decide (blockHash = ancestorHash) then mret true
  else
    found ← descends_loop maxDepth blockHash ancestorHash;
    match found with
    | Some b => mret b
    | None => _ ← cut8 blockHash; _ ← cut8 ancestorHash; mret false
    end.

(** *** Remembered answers *)

Definition ChainCache : Type := gmap string (gmap string bool).
Definition NewChainCache : ChainCache := ∅.
Definition Cache_Get (ancestorHash descendantHash : string) (c : ChainCache) : option bool := c !! ancestorHash ≫= fun m => m !! descendantHash.
Definition Cache_Set (ancestorHash descendantHash : string) (isDescendant : bool) (c : ChainCache) : ChainCache :=
  <[ancestorHash := <[descendantHash := isDescendant]> (default ∅ (c !! ancestorHash))]> c.
Definition Cache_Clear (c : ChainCache) : ChainCache := ∅.
Definition ClearAncestor (ancestorHash : string) (c : ChainCache) : ChainCache := delete ancestorHash c.

Definition isDescendant {E} (blockHash ancestorHash : string) : GoM (ChainCache * KV) E bool := fun '(c, d) =>
  if bool_decide (blockHash = ancestorHash) then (Ok true, (c, d))
  else match Cache_Get ancestorHash blockHash c with
       | Some b => (Ok b, (c, d))
       | None =>
           match computeIsDescendant blockHash ancestorHash d with
           | (Ok b, d') => (Ok b, (Cache_Set ancestorHash blockHash b c, d'))
           | (r, d') => (r, (c, d'))
           end
       end.

(** ** Paths and common ancestors *)

(** The part of the path after [currentHash]. *)
Fixpoint path_loop (fuel : nat) (currentHash ancestorHash blockHash : string) : Walk (list string) :=
  match fuel with
  | O => throw PathTooDeep
  | S fuel =>
      parent ← read_parent currentHash;
      match parent with
      | None => throw (MissingBlock currentHash)
      | Some prev =>
          if bool_decide (prev = ancestorHash) then mret [ancestorHash]
          else if bool_decide (prev = "") then throw (MissingAncestor ancestorHash blockHash)
          else rest ← path_loop fuel prev ancestorHash blockHash; mret (prev :: rest)
      end
  end.
Definition getChainPath (blockHash ancestorHash : string) : Walk (list string) :=
  if bool_decide (blockHash = ancestorHash) then mret [blockHash]
  else rest ← path_loop maxDepth blockHash ancestorHash blockHash; mret (blockHash :: rest).

Fixpoint ancestors_loop (fuel : nat) (currentHash : string) (path : gset string) : Walk (gset string) :=
  match fuel with
  | O => mret path
  | S fuel =>
      let path := {[currentHash]} ∪ path in
      parent ← read_parent currentHash;
      match parent with
      | None => mret path
      | Some prev =>
          if bool_decide (prev = "") then mret path else ancestors_loop fuel prev path
      end
  end.
Fixpoint meet_loop (fuel : nat) (path : gset string) (currentHash : string) : Walk (option string) :=
  match fuel with
  | O => mret None
  | S fuel =>
      if bool_decide (currentHash ∈ path) then mret (Some currentHash)
      else
        parent ← read_parent currentHash;
        match parent with
        | None => mret None
        | Some prev =>
            if bool_decide (prev = "") then mret None else meet_loop fuel path prev
        end
  end.
Definition getCommonAncestor (blockHash1 blockHash2 : string) : Walk string :=
  if bool_decide (blockHash1 = blockHash2) then mret blockHash1
  else
    path ← ancestors_loop maxDepth blockHash1 ∅;
    found ← meet_loop maxDepth path blockHash2;
    match found with
    | Some hash => mret hash
    | None => _ ← cut8 blockHash1; _ ← cut8 blockHash2; throw NoCommonAncestor
    end.

Definition isForkDetected {E} (blockHash1 blockHash2 : string) : GoM KV E bool :=
  if bool_decide (blockHash1 = blockHash2) then mret false
  else
    block1 ← find_block blockHash1;
    block2 ← find_block blockHash2;
    match block1, block2 with
    | Some b1, Some b2 =>
        match blk_Header b1, blk_Header b2 with
        | Some h1, Some h2 => mret (hdr_Index h1 =? hdr_Index h2)
        | _, _ => panic
        end
    | _, _ => mret false
    end.

(** ** The walks follow the parents *)

(** The parents a database records, when it answers. *)
Definition reads (d : KV) (parent : string -> option string) : Prop := forall E hash,
  match parent hash with
  | None => find_block (E:=E) hash d = (Ok None, d)
  | Some p => exists b h, find_block (E:=E) hash d = (Ok (Some b), d) /\ blk_Header b = Some h /\ hdr_PrevHash h = p
  end.
Fixpoint climb (parent : string -> option string) (n : nat) (hash : string) : option string :=
  match n with O => Some hash | S n => match parent hash with Some p => climb parent n p | None => None end end.

#[local] Opaque maxDepth.

Section Walks.
Context (d : KV) (parent : string -> option string) (Hreads : reads d parent) (Hroot : parent "" = None).

Lemma walk_read {E A} hash (k : option string -> GoM KV E A) : (read_parent hash ≫= k) d = k (parent hash) d.
Proof.
  pose proof (Hreads E hash) as Hr. unfold read_parent, mbind, GoM_bind. destruct (parent hash) as [p|]; [|by rewrite Hr].
  destruct Hr as (b & h & Hf & Hh & <-). by rewrite Hf, Hh.
Qed.

Lemma climb_S n hash p : parent hash = Some p -> climb parent (S n) hash = climb parent n p.
Proof. intros Hp. cbn. by rewrite Hp. Qed.
Lemma climb_root n : climb parent (S n) "" = None.
Proof. cbn. by rewrite Hroot. Qed.
Lemma climb_end n hash : parent hash = None -> climb parent (S n) hash = None.
Proof. intros Hp. cbn. by rewrite Hp. Qed.

(** The ancestors that are [n] steps away or less, nearest first. *)
Fixpoint trail (n : nat) (hash : string) : list string :=
  hash :: match n with O => [] | S n => match parent hash with Some p => trail n p | None => [] end end.

(** The first ancestor, not the block itself, that is [a]. *)
Definition first_above (n : nat) (hash a : string) : Prop :=
  (0 < n)%nat /\ climb parent n hash = Some a /\ forall i, (0 < i < n)%nat -> climb parent i hash <> Some a.
Lemma above_one hash p a : parent hash = Some p -> p = a -> first_above 1 hash a.
Proof. intros Hp ->. split_and!; [lia|by rewrite (climb_S _ _ _ Hp)|lia]. Qed.
Lemma above_S n hash p a : parent hash = Some p -> p <> a -> first_above n p a <-> first_above (S n) hash a.
Proof.
  intros Hp Hne. unfold first_above. rewrite (climb_S _ _ _ Hp). split.
  - intros (Hn & Hc & Hf). split_and!; [lia|done|]. intros [|[|i]] Hi; [lia|rewrite (climb_S _ _ _ Hp); cbn; naive_solver|].
    rewrite (climb_S _ _ _ Hp). apply Hf. lia.
  - intros (_ & Hc & Hf). split_and!; [destruct n; [cbn in Hc; naive_solver|lia]|done|]. intros i Hi. specialize (Hf (S i) ltac:(lia)).
    by rewrite (climb_S _ _ _ Hp) in Hf.
Qed.
Lemma above_stop n hash a : first_above n hash a -> exists p, parent hash = Some p /\ (p = a /\ n = 1%nat \/ p <> a /\ p <> "" /\ exists n', n = S n' /\ first_above n' p a).
Proof.
  intros Hab. pose proof Hab as (Hn & Hc & Hf). destruct n as [|n]; [lia|]. destruct (parent hash) as [p|] eqn:Hp; [|by rewrite climb_end in Hc].
  exists p. split; [done|]. destruct (decide (p = a)) as [->|Hne].
  - left. split; [done|]. destruct n as [|n]; [done|]. exfalso. apply (Hf 1%nat); [lia|]. by rewrite (climb_S _ _ _ Hp).
  - right. split; [done|]. apply (above_S n hash p a Hp Hne) in Hab. split; [|by exists n]. intros ->.
    destruct Hab as (Hn' & Hc' & _). destruct n as [|n]; [lia|]. by rewrite climb_root in Hc'.
Qed.

Lemma path_loop_spec fuel : forall hash a from,
  (forall n, (n <= fuel)%nat -> first_above n hash a -> exists rest, path_loop fuel hash a from d = (Ok rest, d) /\ trail n hash = hash :: rest) /\
  (forall rest d', path_loop fuel hash a from d = (Ok rest, d') -> exists n, (n <= fuel)%nat /\ first_above n hash a).
Proof.
  induction fuel as [|fuel IH]; intros hash a from.
  { split; [|done]. intros n Hn (Hpos & _). lia. }
  cbn [path_loop]. split.
  - intros n Hn (p & Hp & [[-> ->]|(Hne & Hne' & n' & -> & Hab)])%above_stop; rewrite walk_read, Hp.
    + rewrite bool_decide_eq_true_2 by done. exists [a]. cbn. by rewrite Hp.
    + rewrite !bool_decide_eq_false_2 by done. destruct (proj1 (IH p a from) n' ltac:(lia) Hab) as (rest & Hrun & Htr).
      exists (p :: rest). unfold mbind, GoM_bind. rewrite Hrun. split; [done|]. cbn [trail]. by rewrite Hp, Htr.
  - intros rest d'. rewrite walk_read. destruct (parent hash) as [p|] eqn:Hp; [|done]. case_bool_decide as Hpa.
    + intros _. exists 1%nat. split; [lia|by eapply above_one].
    + case_bool_decide; [done|]. intros (rest' & d1 & Hrun & _)%GoM_bind_inv_ok. apply IH in Hrun as (n & Hn & Hab).
      exists (S n). split; [lia|by apply (above_S n hash p a)].
Qed.

Lemma descends_spec {E} fuel : forall hash a,
  exists r, descends_loop (E:=E) fuel hash a d = (Ok r, d) /\
  (r = Some true <-> exists n, (n <= fuel)%nat /\ first_above n hash a) /\ (r = None -> exists p, climb parent fuel hash = Some p).
Proof.
  induction fuel as [|fuel IH]; intros hash a; cbn [descends_loop].
  { exists None. split_and!; [done| |by exists hash]. split; [done|]. intros (n & Hn & Hpos & _). lia. }
  rewrite walk_read. destruct (parent hash) as [p|] eqn:Hp.
  - case_bool_decide as Hpa; [|case_bool_decide as Hpe].
    + exists (Some true). split_and!; [done| |done]. split; [|done]. intros _. exists 1%nat. split; [lia|by eapply above_one].
    + exists (Some false). split_and!; [done| |done]. split; [done|]. intros (n & _ & (p' & Hp' & [[-> _]|(_ & Hne & _)])%above_stop); congruence.
    + destruct (IH p a) as (r & Hrun & Hr & Hd). exists r. split; [done|]. rewrite Hr. split.
      * split; [intros (n & Hn & Hab); exists (S n); split; [lia|by apply (above_S n hash p a)]|].
        intros (n & Hn & (p' & Hp' & [[-> _]|(_ & _ & n' & -> & Hab)])%above_stop); rewrite Hp in Hp'; injection Hp' as ->; [done|]. exists n'. split; [lia|done].
      * intros Hnone. destruct (Hd Hnone) as (q & Hq). exists q. by rewrite (climb_S _ _ _ Hp).
  - exists (Some false). split_and!; [done| |done]. split; [done|]. intros (n & _ & (p' & Hp' & _)%above_stop). congruence.
Qed.

(** A block met in fewer than [fuel] steps; the empty parent of the first block is not one. *)
Definition within (fuel : nat) (hash b : string) : Prop := exists n, (n < fuel)%nat /\ climb parent n hash = Some b /\ (n = 0%nat \/ b <> "").
Lemma within_S fuel hash b : within (S fuel) hash b <-> b = hash \/ exists p, parent hash = Some p /\ p <> "" /\ within fuel p b.
Proof.
  split.
  - intros ([|n] & Hn & Hc & Hb); [left; cbn in Hc; by injection Hc|right]. destruct (parent hash) as [p|] eqn:Hp; [|by rewrite climb_end in Hc].
    exists p. split; [done|]. rewrite (climb_S _ _ _ Hp) in Hc. destruct Hb as [|Hb]; [done|].
    split; [intros ->; destruct n; [cbn in Hc; congruence|by rewrite climb_root in Hc]|]. exists n. split_and!; [lia|done|by right].
  - intros [->|(p & Hp & Hne & n & Hn & Hc & Hb)]; [exists 0%nat; split_and!; [lia|done|by left]|]. exists (S n). rewrite (climb_S _ _ _ Hp).
    split_and!; [lia|done|]. right. destruct Hb as [->|]; [|done]. cbn in Hc. congruence.
Qed.

Lemma ancestors_spec fuel : forall hash path, exists s, ancestors_loop fuel hash path d = (Ok s, d) /\ forall b, b ∈ s <-> b ∈ path \/ within fuel hash b.
Proof.
  induction fuel as [|fuel IH]; intros hash path; cbn [ancestors_loop].
  { exists path. split; [done|]. intros b. split; [by left|intros [|(n & Hn & _)]; [done|lia]]. }
  rewrite walk_read. destruct (parent hash) as [p|] eqn:Hp; [case_bool_decide as Hpe|].
  - eexists. split; [done|]. intros b. rewrite within_S, elem_of_union, elem_of_singleton. split; [naive_solver|]. intros [|[|(q & Hq & Hne & _)]]; [by right|by left|congruence].
  - destruct (IH p ({[hash]} ∪ path)) as (s & Hrun & Hs). exists s. split; [done|]. intros b. rewrite Hs, within_S, elem_of_union, elem_of_singleton. split; [naive_solver|].
    intros [|[|(q & Hq & Hne & Hw)]]; [left; by right|left; by left|]. right. congruence.
  - eexists. split; [done|]. intros b. rewrite within_S, elem_of_union, elem_of_singleton. split; [naive_solver|]. intros [|[|(q & Hq & _)]]; [by right|by left|congruence].
Qed.

(** The first block of the walk that is in the set. *)
Definition nearest (fuel : nat) (s : string -> Prop) (hash a : string) : Prop :=
  exists n, (n < fuel)%nat /\ climb parent n hash = Some a /\ (n = 0%nat \/ a <> "") /\ s a /\ forall i b, (i < n)%nat -> climb parent i hash = Some b -> ~ s b.
Lemma nearest_here fuel s hash a : s hash -> nearest (S fuel) s hash a <-> a = hash.
Proof.
  intros Hs. split; [|intros ->; exists 0%nat; split_and!; [lia|done|by left|done|lia]].
  intros ([|n] & Hn & Hc & _ & _ & Hno); [cbn in Hc; by injection Hc|]. by destruct (Hno 0%nat hash ltac:(lia) eq_refl).
Qed.
Lemma nearest_up fuel (s : string -> Prop) hash a : ~ s hash ->
  nearest (S fuel) s hash a <-> exists p, parent hash = Some p /\ p <> "" /\ nearest fuel s p a.
Proof.
  intros Hs. split.
  - intros ([|n] & Hn & Hc & Hb & Ha & Hno); [cbn in Hc; congruence|]. destruct (parent hash) as [p|] eqn:Hp; [|by rewrite climb_end in Hc].
    exists p. rewrite (climb_S _ _ _ Hp) in Hc. destruct Hb as [|Hb]; [done|]. split_and!; [done| |].
    + intros ->. destruct n; [cbn in Hc; congruence|by rewrite climb_root in Hc].
    + exists n. split_and!; [lia|done|by right|done|]. intros i b Hi Hci. apply (Hno (S i)); [lia|]. by rewrite (climb_S _ _ _ Hp).
  - intros (p & Hp & Hne & n & Hn & Hc & Hb & Ha & Hno). exists (S n). rewrite (climb_S _ _ _ Hp). split_and!; [lia|done| |done|].
    + right. destruct Hb as [->|]; [cbn in Hc; congruence|done].
    + intros [|i] b Hi; [cbn; by intros [= <-]|]. rewrite (climb_S _ _ _ Hp). apply Hno. lia.
Qed.
Lemma meet_spec fuel (path : gset string) : forall hash, exists r, meet_loop fuel path hash d = (Ok r, d) /\ forall a, r = Some a <-> nearest fuel (fun b => b ∈ path) hash a.
Proof.
  induction fuel as [|fuel IH]; intros hash; cbn [meet_loop]; [exists None; split; [done|]; intros a; split; [done|intros (n & Hn & _); lia]|].
  case_bool_decide as Hin; [exists (Some hash); split; [done|]; intros a; rewrite nearest_here by done; naive_solver|].
  rewrite walk_read. destruct (parent hash) as [p|] eqn:Hp; [case_bool_decide as Hpe|].
  - exists None. split; [done|]. intros a. rewrite nearest_up by done. naive_solver.
  - destruct (IH p) as (r & Hrun & Hr). exists r. split; [done|]. intros a. rewrite Hr, nearest_up by done. rewrite Hp. naive_solver.
  - exists None. split; [done|]. intros a. rewrite nearest_up by done. rewrite Hp. naive_solver.
Qed.

Lemma nearest_ext fuel (s s' : string -> Prop) hash a : (forall b, s b <-> s' b) -> nearest fuel s hash a <-> nearest fuel s' hash a.
Proof. intros Hs. unfold nearest. split; intros (n & Hn & Hc & Hb & Ha & Hno); exists n; split_and!; try done; [by apply Hs|intros i b Hi Hci; rewrite <-Hs; by eapply Hno|by apply Hs|intros i b Hi Hci; rewrite Hs; by eapply Hno]. Qed.
Lemma first_of n hash a : (0 < n)%nat -> climb parent n hash = Some a -> exists m, (m <= n)%nat /\ first_above m hash a.
Proof.
  induction n as [n IH] using lt_wf_ind. intros Hn Hc.
  destruct (decide (Exists (fun i => (0 < i)%nat /\ climb parent i hash = Some a) (seq 0 n))) as [(i & Hi & Hpos & Hci)%Exists_exists|Hno].
  - apply elem_of_seq in Hi. destruct (IH i ltac:(lia) Hpos Hci) as (m & Hm & Hab). exists m. split; [lia|done].
  - exists n. split; [done|]. split_and!; [done..|]. intros i Hi Hci. apply Hno, Exists_exists. exists i. rewrite elem_of_seq. split; [lia|]. split; [lia|done].
Qed.
Lemma last_trail n : forall hash a, climb parent n hash = Some a -> List.last (trail n hash) "" = a.
Proof.
  induction n as [|n IH]; intros hash a Hc; [by injection Hc|]. destruct (parent hash) as [p|] eqn:Hp; [|by rewrite climb_end in Hc].
  rewrite (climb_S _ _ _ Hp) in Hc. cbn [trail]. rewrite Hp. rewrite <-(IH p a Hc). by destruct n.
Qed.

Lemma common_run hash1 hash2 : hash1 <> hash2 -> exists r, fst (getCommonAncestor hash1 hash2 d) = r /\
  forall a, r = Ok a <-> nearest maxDepth (within maxDepth hash1) hash2 a.
Proof.
  intros Hne. unfold getCommonAncestor. rewrite bool_decide_eq_false_2 by done.
  destruct (ancestors_spec maxDepth hash1 ∅) as (s & Hs & Hin). destruct (meet_spec maxDepth s hash2) as (r & Hr & Hnear).
  eexists. split; [reflexivity|]. intros a. rewrite (nearest_ext _ _ (fun b => b ∈ s)) by (intros b; rewrite Hin; split; [by right|intros [Hb|]; [by apply elem_of_empty in Hb|done]]). rewrite <-Hnear.
  unfold mbind, GoM_bind. rewrite Hs, Hr. destruct r as [hash|]; [cbn; naive_solver|]. unfold cut8. repeat case_match; cbn; naive_solver.
Qed.
End Walks.

(** C38. The reorganisation starts from the nearest common ancestor.  When the database
    answers, [getCommonAncestor] returns a block exactly when it is the first one
    on the second block's way back, within a thousand steps, that also lies within
    a thousand steps behind the first; [getChainPath] from the new head to it then
    succeeds and lists the blocks in between, each followed by its parent. *)
Theorem common_ancestor_is_nearest d parent hash1 hash2 a :
  reads d parent -> parent "" = None -> hash1 <> hash2 ->
  (fst (getCommonAncestor hash1 hash2 d) = Ok a <-> nearest parent maxDepth (within parent maxDepth hash1) hash2 a) /\
  (fst (getCommonAncestor hash1 hash2 d) = Ok a -> a = hash1 \/
     exists n path, (0 < n < maxDepth)%nat /\ getChainPath hash1 a d = (Ok path, d) /\ path = trail parent n hash1 /\ List.last path "" = a).
Proof.
  intros Hreads Hroot Hne. destruct (common_run d parent Hreads Hroot hash1 hash2 Hne) as (r & -> & Hr). split; [apply Hr|].
  intros Ha%Hr. destruct Ha as (m & Hm & Hcm & Hbm & (n & Hn & Hc & _) & _). destruct (decide (a = hash1)) as [->|Hah]; [by left|right].
  destruct n as [|n]; [cbn in Hc; congruence|]. destruct (first_of parent (S n) hash1 a ltac:(lia) Hc) as (k & Hk & Hab).
  destruct (proj1 (path_loop_spec d parent Hreads Hroot maxDepth hash1 a hash1) k ltac:(lia) Hab) as (rest & Hrun & Htr).
  exists k, (hash1 :: rest). split_and!; [destruct Hab; lia|lia| |done|].
  - unfold getChainPath. rewrite bool_decide_eq_false_2 by done. unfold mbind, GoM_bind. by rewrite Hrun.
  - rewrite <-Htr. apply last_trail. apply Hab.
Qed.

(** An answer is remembered, also "no" for a block that arrives later. *)
Lemma answer_is_frozen {E} hash a c d b c' d' : isDescendant (E:=E) hash a (c, d) = (Ok b, (c', d')) ->
  forall d2, isDescendant (E:=E) hash a (c', d2) = (Ok b, (c', d2)).
Proof.
  unfold isDescendant. case_bool_decide; [naive_solver|]. destruct (Cache_Get a hash c) as [x|] eqn:Hc.
  - intros [= <- <- <-] d2. by rewrite Hc.
  - destruct (computeIsDescendant hash a d) as [[x|e| |] d1]; intros [= <- <- <-] d2.
    assert (Hg : Cache_Get a hash (Cache_Set a hash x c) = Some x); [|by rewrite Hg].
    unfold Cache_Get, Cache_Set, ChainCache in *. rewrite lookup_insert_eq. cbn. by rewrite lookup_insert_eq.
Qed.
Lemma descendant_exact {E} d parent hash a : reads d parent -> parent "" = None -> hash <> a ->
  fst (computeIsDescendant (E:=E) hash a d) = Ok true <-> exists n, (n <= maxDepth)%nat /\ first_above parent n hash a.
Proof.
  intros Hreads Hroot Hne. unfold computeIsDescendant. rewrite bool_decide_eq_false_2 by done.
  destruct (descends_spec (E:=E) d parent Hreads Hroot maxDepth hash a) as (r & Hrun & Hr & _). unfold mbind, GoM_bind. rewrite Hrun, <-Hr.
  destruct r as [[]|]; [done..|]. unfold cut8. repeat case_match; cbn; naive_solver.
Qed.

Module Demo.
Definition link (hash prev : string) : Block :=
  MkBlock (Some (MkBlockHeader 0 prev 0 "" "" "" 0 0 0 0 [] "" [] [] 0)) [] hash [] [].
Definition entries : list (string * string) := [("genesis", ""); ("main-001", "genesis"); ("main-002", "main-001"); ("side-002", "main-001"); ("side-003", "side-002")].
Definition forked : KV := MkKV (list_to_map ((fun '(h, p) => (BlockKey h, JBlock (link h p))) <$> entries)) [].
Definition parents (hash : string) : option string := (list_to_map entries : gmap string string) !! hash.

Lemma forked_reads : reads forked parents.
Proof.
  intros E hash.
  assert (Hrun : forall p, In (hash, p) entries -> find_block (E:=E) hash forked = (Ok (Some (link hash p)), forked)).
  { intros p Hin. unfold entries in Hin. cbn in Hin. destruct Hin as [[= <- <-]|[[= <- <-]|[[= <- <-]|[[= <- <-]|[[= <- <-]|[]]]]]]; vm_compute; reflexivity. }
  destruct (parents hash) as [p|] eqn:Hp; unfold parents in Hp.
  - apply elem_of_list_to_map_2, list_elem_of_In in Hp. eexists _, _. split; [by apply Hrun|]. done.
  - unfold find_block, GetBlock, read_block, kv_Get, mbind, GoM_bind. cbn.
    assert (Hk : kv_data forked !! BlockKey hash = None).
    { apply not_elem_of_list_to_map_1. apply not_elem_of_list_to_map_2 in Hp. intros Hin. apply Hp. revert Hin. cbn. unfold BlockKey. cbn. rewrite !elem_of_cons, !elem_of_nil. naive_solver. }
    cbn in Hk. by rewrite Hk.
Qed.

Lemma common_ancestor_is_nearest_witness :
  fst (getCommonAncestor "side-003" "main-002" forked) = Ok "main-001" /\ nearest parents maxDepth (within parents maxDepth "side-003") "main-002" "main-001".
Proof.
  assert (Hrun : fst (getCommonAncestor "side-003" "main-002" forked) = Ok "main-001") by (vm_compute; reflexivity).
  split; [exact Hrun|]. apply (proj1 (common_ancestor_is_nearest forked parents "side-003" "main-002" "main-001" forked_reads eq_refl ltac:(discriminate))). exact Hrun.
Defined.
End Demo.
