(* ===== verification/Messages.v ===== *)
(** * Signed consensus messages (src/consensus/pos/consensus_signature.go and consensus.go)

    Attestations, block proposals, votes and blocks are signed over a hash of their
    fields.  [find] is [worldState.GetValidator]; a reading of the clock is an
    argument.  [%s|block-v1|%s|%d] is the text a block's signature covers. *)

From S2P Require Import Prelude SafeMath Uint256 Address Storage Hashes Keys Wire ForkChoice SlashStore.
From stdpp Require Import base tactics numbers list gmap strings.
From Stdlib Require Import ZArith Lia Strings.Byte Strings.Ascii.
Open Scope Z_scope.
Open Scope list_scope.

Definition DomainAttestation : string := "THRYLOS_ATTESTATION_V1".
Definition DomainProposal : string := "THRYLOS_PROPOSAL_V1".
Definition DomainVote : string := "THRYLOS_VOTE_V1".

Inductive msg_err : Type :=
| SignerNotFound (address : string)
| SignerWithoutKey (address : string)
| SignerKeyInvalid (e : key_err)
| SignatureMissing
| SignatureMalformed (e : key_err)
| SignatureWrong (e : key_err)
| SigningFailed (e : key_err)
| HashNotHex (e : address_err)
| ProposerNotHex (e : address_err)
| BlockUnset
| BlockHashUnset
| SignerInactive.

Section Messages.
Context {Pub Priv : Type} `{Secp256k1 Pub Priv} (Keccak256 : list byte -> list byte) (ChainID : string) (find : string -> option Validator).
Notation Msg := (outcome msg_err).

Definition find_signer (address : string) : Msg Validator :=
  match find address with Some v => Ok v | None => Err (SignerNotFound address) end.
Definition signer_key (v : Validator) : Msg (@PublicKeyImpl Pub) := wrap SignerKeyInvalid (NewPublicKeyFromBytes (val_Pubkey v)).
(** [SignatureFromBytes], then [VerifyHash]. *)
Definition verify_hash (key : @PublicKeyImpl Pub) (hash signature : list byte) : Msg unit :=
  sig ← wrap SignatureMalformed (SignatureFromBytes signature);
  wrap SignatureWrong (Pub_VerifyHash key hash (Some sig)).
(** [SignHash(hash)] and the bytes of the signature. *)
Definition sign_hash (key : @PrivateKeyImpl Priv) (hash : list byte) : Msg (list byte) :=
  sig ← wrap SigningFailed (SignHash key hash); Sig_Bytes sig.

(** ** Attestations *)

Definition attestation_bytes (att : Attestation) : list byte :=
  bytes_of_string DomainAttestation ++ bytes_of_string ChainID ++ bytes_of_string (att_ValidatorAddress att) ++ bytes_of_string (att_BlockHash att) ++
  PutUint64 (att_BlockHeight att) ++ PutUint64 (att_Epoch att) ++ PutUint64 (att_Slot att) ++ PutUint64 (att_Timestamp att).
Definition computeAttestationHash (att : Attestation) : list byte := Keccak256 (attestation_bytes att).

Definition verifyAttestationSignature (att : Attestation) : Msg unit :=
  v ← find_signer (att_ValidatorAddress att);
  if (length (val_Pubkey v) =? 0)%nat then Err (SignerWithoutKey (att_ValidatorAddress att))
  else
    key ← signer_key v;
    if (length (att_Signature att) =? 0)%nat then Err SignatureMissing
    else verify_hash key (computeAttestationHash att) (att_Signature att).
Definition signAttestation (key : @PrivateKeyImpl Priv) (att : Attestation) : Msg (list byte) := sign_hash key (computeAttestationHash att).

(** ** Proposals *)

Definition proposal_bytes (p : BlockProposal) : Msg (list byte) :=
  match bp_Block p with
  | None => Panic
  | Some b =>
      let chainID := ToLower ChainID in
      hash ← wrap HashNotHex (DecodeString (TrimPrefix (blk_Hash b) "0x"));
      proposer ← wrap ProposerNotHex (DecodeString (TrimPrefix (bp_Proposer p) "0x"));
      Ok (bytes_of_string DomainProposal ++ PutUint32 (Z.of_nat (length (chars chainID))) ++ bytes_of_string chainID ++ hash ++ proposer ++
          PutUint64 (bp_Slot p) ++ PutUint64 (bp_Epoch p))
  end.
Definition computeProposalHash (p : BlockProposal) : Msg (list byte) := m ← proposal_bytes p; Ok (Keccak256 m).

Definition proposer_key (proposer : string) : string := "0x" +:+ ToLower (TrimPrefix proposer "0x").
Definition verifyProposalSignature (p : BlockProposal) : Msg unit :=
  v ← find_signer (proposer_key (bp_Proposer p));
  key ← signer_key v;
  hash ← computeProposalHash p;
  verify_hash key hash (bp_Signature p).
Definition signBlockProposal (key : @PrivateKeyImpl Priv) (p : BlockProposal) : Msg BlockProposal :=
  hash ← computeProposalHash p;
  signature ← sign_hash key hash;
  Ok (MkBlockProposal (bp_Block p) (bp_Proposer p) (bp_Slot p) (bp_Epoch p) signature).

(** ** Votes *)

Definition vote_bytes (v : Vote) : list byte :=
  bytes_of_string DomainVote ++ bytes_of_string ChainID ++ bytes_of_string (vote_ValidatorAddress v) ++ bytes_of_string (vote_SourceBlockHash v) ++
  bytes_of_string (vote_TargetBlockHash v) ++ PutUint64 (vote_SourceEpoch v) ++ PutUint64 (vote_TargetEpoch v).
Definition computeVoteHash (v : Vote) : list byte := Keccak256 (vote_bytes v).
Definition verifyVoteSignature (vote : Vote) : Msg unit :=
  v ← find_signer (vote_ValidatorAddress vote);
  key ← signer_key v;
  if (length (vote_Signature vote) =? 0)%nat then Err SignatureMissing
  else verify_hash key (computeVoteHash vote) (vote_Signature vote).

(** ** Blocks *)

Definition computeBlockSigningHash (block : option Block) : Msg (list byte) :=
  match block with
  | None => Err BlockUnset
  | Some b =>
      match blk_Header b with
      | None => Err BlockUnset
      | Some h =>
          if bool_decide (blk_Hash b = "") then Err BlockHashUnset
          else Ok (Keccak256 (bytes_of_string (ChainID +:+ "|block-v1|" +:+ blk_Hash b +:+ "|" +:+ String10 (hdr_Index h))))
      end
  end.
(** [Verify] hashes once more. *)
Definition verify_message (key : @PublicKeyImpl Pub) (message signature : list byte) : Msg unit :=
  sig ← wrap SignatureMalformed (SignatureFromBytes signature);
  wrap SignatureWrong (Pub_Verify Keccak256 key message (Some sig)).

Definition jailed_at (now : Z) (v : Validator) : bool := now <? val_JailUntil v.
Definition VerifyBlockWithSignatures (now : Z) (block : option Block) : Msg unit :=
  match block with
  | None => Panic
  | Some b =>
      match blk_Header b with
      | None => Panic
      | Some h =>
          if hdr_Index h =? 0 then Ok tt
          else if (length (blk_Signature b) =? 0)%nat then Err SignatureMissing
          else
            v ← find_signer (hdr_Validator h);
            if negb (val_Active v) || jailed_at now v then Err SignerInactive
            else
              key ← signer_key v;
              message ← computeBlockSigningHash block;
              verify_message key message (blk_Signature b)
      end
  end.
End Messages.

(** ** Slot proofs (src/consensus/pos/vrf.go)

    A signature over the slot and the epoch; its hash is the random output. *)

Record VRFProof : Type := MkVRFProof { vrf_Output : list byte; vrf_Proof : list byte }.
Inductive vrf_err : Type :=
| VRFNoKey | VRFSigning (e : key_err) | VRFEmpty | VRFLength (n : Z) | VRFKey (e : key_err) | VRFSignature (e : key_err) | VRFVerification | VRFOutputMismatch.

Section VRF.
Context {Pub Priv : Type} `{Secp256k1 Pub Priv} (Sha256 : list byte -> list byte).

Definition computeVRFSigningHash (input : list byte) : list byte := Sha256 (bytes_of_string "THRYLOS_VRF_V1" ++ input).
Definition vrf_input (slot epoch : Z) : list byte := PutUint64 slot ++ PutUint64 epoch.
Definition GenerateVRFProof (privateKey : option (@PrivateKeyImpl Priv)) (input : list byte) : outcome vrf_err VRFProof :=
  match privateKey with
  | None => Err VRFNoKey
  | Some key =>
      signature ← wrap VRFSigning (SignHash key (computeVRFSigningHash input));
      proof ← Sig_Bytes signature;
      Ok (MkVRFProof (Sha256 proof) proof)
  end.
Definition VerifyVRFProof (publicKey alpha : list byte) (proof : option VRFProof) : outcome vrf_err (list byte) :=
  match proof with
  | None => Err VRFEmpty
  | Some p =>
      if (length (vrf_Proof p) =? 0)%nat then Err VRFEmpty
      else if negb (length (vrf_Proof p) =? SignatureSize)%nat then Err (VRFLength (Z.of_nat (length (vrf_Proof p))))
      else
        key ← wrap VRFKey (NewPublicKeyFromBytes (Pub:=Pub) publicKey);
        signature ← wrap VRFSignature (SignatureFromBytes (vrf_Proof p));
        _ ← wrap (fun _ => VRFVerification) (Pub_VerifyHash key (computeVRFSigningHash alpha) (Some signature));
        if bool_decide (Sha256 (vrf_Proof p) = vrf_Output p) then Ok (Sha256 (vrf_Proof p)) else Err VRFOutputMismatch
  end.
End VRF.

(** ** What a signature binds *)

Section Binding.
Context (ChainID : string).

Lemma length_bytes_of_string s : length (bytes_of_string s) = length (chars s).
Proof. unfold bytes_of_string. apply length_fmap. Qed.

(** The fields of two attestations as the hash sees them. *)
Definition same_attestation (a b : Attestation) : Prop :=
  att_ValidatorAddress a = att_ValidatorAddress b /\ att_BlockHash a = att_BlockHash b /\ u64 (att_BlockHeight a) = u64 (att_BlockHeight b) /\
  u64 (att_Epoch a) = u64 (att_Epoch b) /\ u64 (att_Slot a) = u64 (att_Slot b) /\ u64 (att_Timestamp a) = u64 (att_Timestamp b).

Lemma tail_inj {A} (l l' k k' : list A) : length k = length k' -> l ++ k = l' ++ k' -> l = l' /\ k = k'.
Proof. intros Hk Heq. apply app_inj_2; done. Qed.

Lemma attestation_bytes_inj a b : length (chars (att_ValidatorAddress a)) = length (chars (att_ValidatorAddress b)) ->
  attestation_bytes ChainID a = attestation_bytes ChainID b -> same_attestation a b.
Proof.
  intros Hlen. unfold attestation_bytes. intros Heq. apply app_inv_head, app_inv_head in Heq.
  apply app_inj_1 in Heq as [Ha Heq]; [|by rewrite !length_bytes_of_string].
  rewrite !app_assoc in Heq. apply tail_inj in Heq as [Heq Ht]; [|by rewrite !PutUint64_length].
  apply tail_inj in Heq as [Heq Hs]; [|by rewrite !PutUint64_length]. apply tail_inj in Heq as [Heq He]; [|by rewrite !PutUint64_length].
  apply tail_inj in Heq as [Hh Hb]; [|by rewrite !PutUint64_length].
  split_and!; [by apply bytes_of_string_inj..|by apply PutUint64_inj|by apply PutUint64_inj|by apply PutUint64_inj|by apply PutUint64_inj].
Qed.

Context (Keccak256 : list byte -> list byte).
(** Two different messages with one hash. *)
Definition clash : Prop := exists x y, x <> y /\ Keccak256 x = Keccak256 y.
Lemma no_clash x y : Keccak256 x = Keccak256 y -> clash \/ x = y.
Proof. intros Heq. destruct (decide (x = y)); [by right|]. left. by exists x, y. Qed.

(** The ninth byte tells the kinds apart. *)
Lemma other_domain (d d' : string) x y : (8 < length (bytes_of_string d))%nat -> (8 < length (bytes_of_string d'))%nat ->
  bytes_of_string d !! 8%nat <> bytes_of_string d' !! 8%nat -> bytes_of_string d ++ x <> bytes_of_string d' ++ y.
Proof. intros Hd Hd' Hne Heq. apply (f_equal (lookup 8%nat)) in Heq. by rewrite !lookup_app_l in Heq. Qed.
Lemma domains_differ a v : attestation_bytes ChainID a <> vote_bytes ChainID v.
Proof. apply other_domain; vm_compute; [lia|lia|discriminate]. Qed.
Lemma proposal_domain p m : proposal_bytes ChainID p = Ok m -> forall a v, attestation_bytes ChainID a <> m /\ vote_bytes ChainID v <> m.
Proof.
  unfold proposal_bytes. destruct (bp_Block p) as [b|]; [|done]. intros (hash & _ & (prop & _ & Hm)%outcome_bind_inv_ok)%outcome_bind_inv_ok a v.
  assert (Hx : forall k, Ok (E:=msg_err) k = Ok m -> m = k) by (by intros k [= <-]). apply Hx in Hm. rewrite Hm.
  split; apply other_domain; vm_compute; (lia || discriminate).
Qed.

(** What a consensus signature covers.  Unless two messages with the same Keccak
    hash are known: the hash an attestation's signature covers determines the
    validator (among addresses of one length), the block, the height, the epoch,
    the slot and the time; and it is never the hash of a vote or of a proposal, so
    no signature can be used for a message of another kind.  The two block hashes
    of a vote, however, are written next to each other: moving the boundary
    between them gives another vote that the same signature covers. *)
Theorem consensus_signature_covers a b v p m s t u :
  (length (chars (att_ValidatorAddress a)) = length (chars (att_ValidatorAddress b)) ->
   computeAttestationHash Keccak256 ChainID a = computeAttestationHash Keccak256 ChainID b -> clash \/ same_attestation a b) /\
  (computeAttestationHash Keccak256 ChainID a = computeVoteHash Keccak256 ChainID v -> clash) /\
  (computeProposalHash Keccak256 ChainID p = Ok m -> computeAttestationHash Keccak256 ChainID a = m \/ computeVoteHash Keccak256 ChainID v = m -> clash) /\
  computeVoteHash Keccak256 ChainID (MkVote (vote_ValidatorAddress v) (s +:+ t) u (vote_SourceEpoch v) (vote_TargetEpoch v) (vote_Signature v)) =
  computeVoteHash Keccak256 ChainID (MkVote (vote_ValidatorAddress v) s (t +:+ u) (vote_SourceEpoch v) (vote_TargetEpoch v) (vote_Signature v)).
Proof.
  split_and!.
  - intros Hlen [Hc|Heq]%no_clash; [by left|right]. by apply (attestation_bytes_inj).
  - intros [Hc|Heq]%no_clash; [done|]. by apply domains_differ in Heq.
  - unfold computeProposalHash. intros (x & Hx & Hm)%outcome_bind_inv_ok. injection Hm as <-. destruct (proposal_domain p x Hx a v) as [H1 H2].
    intros [[Hc|Heq]%no_clash|[Hc|Heq]%no_clash]; done.
  - unfold computeVoteHash, vote_bytes. cbn [vote_ValidatorAddress vote_SourceBlockHash vote_TargetBlockHash vote_SourceEpoch vote_TargetEpoch].
    f_equal. unfold bytes_of_string. rewrite !chars_app, !fmap_app, <-!app_assoc. done.
Qed.
End Binding.

(** ** What is signed here verifies *)

Section RoundTrip.
Context {Pub Priv : Type} `{Secp256k1Laws Pub Priv} (Keccak256 : list byte -> list byte) (ChainID : string) (find : string -> option Validator).
Context (Sha256 : list byte -> list byte) (Hkeccak : forall m, length (Keccak256 m) = 32%nat) (Hsha : forall m, length (Sha256 m) = 32%nat).

Lemma sig_bytes_any {E E'} sig b : Sig_Bytes (E:=E) sig = Ok b -> Sig_Bytes (E:=E') sig = Ok b.
Proof. unfold Sig_Bytes, FillBytes, mbind, outcome_bind. repeat case_match; congruence. Qed.
Lemma sign_then_verify (key : Priv) hash : length hash = 32%nat ->
  exists s, sign_hash (Some key) hash = Ok s /\ length s = 65%nat /\ forall p, verify_hash p hash s = Ok tt <-> p = Some (PublicOf key).
Proof.
  intros Hh. destruct (SignHash_run key hash Hh) as (sig & b & Hs & Hsign & Hval & Hv & _ & Hb & Hl & Hpar).
  exists b. unfold sign_hash, verify_hash. rewrite Hs. cbn. split_and!; [|done|].
  { by apply (sig_bytes_any (E:=key_err)). }
  intros p. unfold SignatureFromBytes. rewrite Hpar. cbn. rewrite <-(signed_verifies key hash sig b p Hh Hsign Hval Hv Hb).
  destruct (Pub_VerifyHash p hash (Some sig)) as [[]|e| |]; cbn; split; (done || congruence).
Qed.
Lemma registered_key (v : Validator) (key : Priv) : val_Pubkey v = Pub_Bytes (Some (PublicOf key)) ->
  signer_key v = Ok (Some (PublicOf key)) /\ (length (val_Pubkey v) =? 0)%nat = false.
Proof.
  intros Hp. destruct (compressed_form (PublicOf key)) as (c & rest & Hc & Hlen & Hp').
  unfold signer_key, NewPublicKeyFromBytes, newPublicKeyFromCompressed. rewrite Hp. unfold Pub_Bytes. simpl. rewrite Hc. simpl. rewrite Hlen. simpl.
  rewrite <-Hc, decompress_compressed. split; [|done]. destruct Hp' as [-> | ->]; done.
Qed.
Lemma vrf_round_trip (v : Validator) (key : Priv) input : val_Pubkey v = Pub_Bytes (Some (PublicOf key)) ->
  exists proof, GenerateVRFProof Sha256 (Some (Some key)) input = Ok proof /\ VerifyVRFProof (Pub:=Pub) Sha256 (val_Pubkey v) input (Some proof) = Ok (vrf_Output proof).
Proof.
  intros Hkey. unfold GenerateVRFProof, VerifyVRFProof. assert (Hh : length (computeVRFSigningHash Sha256 input) = 32%nat) by apply Hsha.
  generalize dependent (computeVRFSigningHash Sha256 input). intros h Hh. destruct (SignHash_run key h Hh) as (sig & b & Hs & Hsign & Hval & Hv & _ & Hb & Hl & Hpar).
  exists (MkVRFProof (Sha256 b) b). rewrite Hs. cbn. rewrite (sig_bytes_any (E:=key_err) (E':=vrf_err) sig b Hb). cbn. split; [done|].
  rewrite Hl. cbn. destruct (registered_key v key Hkey) as [Hk _]. unfold signer_key in Hk. destruct (NewPublicKeyFromBytes (val_Pubkey v)) as [p| | |]; try done. injection Hk as ->.
  cbn [mbind outcome_bind wrap]. unfold SignatureFromBytes. rewrite Hpar. cbn [mbind outcome_bind wrap].
  rewrite (proj2 (signed_verifies key h sig b (Some (PublicOf key)) Hh Hsign Hval Hv Hb) eq_refl). cbn.
  by rewrite bool_decide_eq_true_2.
Qed.
Definition with_signature (s : list byte) (a : Attestation) : Attestation :=
  MkAttestation (att_ValidatorAddress a) (att_BlockHash a) (att_BlockHeight a) (att_Epoch a) (att_Slot a) s (att_Timestamp a).

(** C35. A validator's own messages verify.  With the key that is registered for the
    address, [GenerateVRFProof], [signAttestation] and [signBlockProposal] succeed
    and what they produce passes the checks of every other node, the VRF proof
    with the output it carries; the signatures of the attestation and of the proposal
    verify under no other key. *)
Theorem own_messages_verify (key : Priv) att p v block input :
  find (att_ValidatorAddress att) = Some v -> val_Pubkey v = Pub_Bytes (Some (PublicOf key)) ->
  proposer_key (bp_Proposer p) = att_ValidatorAddress att -> bp_Block p = Some block -> is_ok (proposal_bytes ChainID p) = true ->
  (exists proof, GenerateVRFProof Sha256 (Some (Some key)) input = Ok proof /\ VerifyVRFProof (Pub:=Pub) Sha256 (val_Pubkey v) input (Some proof) = Ok (vrf_Output proof)) /\
  exists s p', signAttestation Keccak256 ChainID (Some key) att = Ok s /\ signBlockProposal Keccak256 ChainID (Some key) p = Ok p' /\
  verifyAttestationSignature Keccak256 ChainID find (with_signature s att) = Ok tt /\
  verifyProposalSignature Keccak256 ChainID find p' = Ok tt /\
  (forall k, verify_hash k (computeAttestationHash Keccak256 ChainID att) s = Ok tt <-> k = Some (PublicOf key)) /\
  exists h, computeProposalHash Keccak256 ChainID p' = Ok h /\ forall k, verify_hash k h (bp_Signature p') = Ok tt <-> k = Some (PublicOf key).
Proof.
  intros Hfind Hkey Hprop Hblock Hok. split; [by apply vrf_round_trip|]. destruct (registered_key v key Hkey) as [Hk Hne].
  destruct (sign_then_verify key (computeAttestationHash Keccak256 ChainID att)) as (s & Hs & Hl & Hver); [apply Hkeccak|].
  destruct (proposal_bytes ChainID p) as [m| | |] eqn:Hm; try done.
  destruct (sign_then_verify key (Keccak256 m)) as (s' & Hs' & _ & Hver'); [apply Hkeccak|].
  exists s, (MkBlockProposal (bp_Block p) (bp_Proposer p) (bp_Slot p) (bp_Epoch p) s'). split_and!; [done| | | |done|exists (Keccak256 m); split; [|done]].
  - unfold signBlockProposal, computeProposalHash. rewrite Hm. cbn. by rewrite Hs'.
  - unfold verifyAttestationSignature, find_signer. cbn [att_ValidatorAddress with_signature att_Signature]. rewrite Hfind. cbn. rewrite Hne, Hk. cbn. rewrite Hl. cbn.
    by apply Hver.
  - unfold verifyProposalSignature, find_signer, computeProposalHash. cbn [bp_Proposer bp_Signature]. rewrite Hprop, Hfind. cbn. rewrite Hk. cbn.
    replace (proposal_bytes ChainID _) with (proposal_bytes ChainID p) by (by destruct p). rewrite Hm. cbn. by apply Hver'.
  - unfold computeProposalHash. replace (proposal_bytes ChainID _) with (proposal_bytes ChainID p) by (by destruct p). by rewrite Hm.
Qed.
End RoundTrip.

Module Demo.
#[local] Existing Instances demo_secp demo_secp_laws.
Definition signer : string := "0x01000000000000000000000000000000000000aa".
Definition registered : Validator := MkValidator signer (Pub_Bytes (Some x2a)) "" "" "" [] [] [] ∅ 0 true 0 0 0 0 0.
Definition book (a : string) : option Validator := if bool_decide (a = signer) then Some registered else None.
Definition some_hash (m : list byte) : list byte := replicate 32 x07.
Definition vote_for (hash : string) : Attestation := MkAttestation signer hash 7 1 32 [] 1000.
Definition offer : BlockProposal := MkBlockProposal (Some (MkBlock None [] "ab01" [] [])) signer 32 1 [].

Lemma own_messages_verify_witness :
  exists s p', signAttestation some_hash "thrylos" (Some x2a) (vote_for "ab01") = Ok s /\
  verifyAttestationSignature some_hash "thrylos" book (with_signature s (vote_for "ab01")) = Ok tt /\
  signBlockProposal some_hash "thrylos" (Some x2a) offer = Ok p' /\ verifyProposalSignature some_hash "thrylos" book p' = Ok tt.
Proof.
  destruct (own_messages_verify (Pub:=byte) some_hash "thrylos" book some_hash (fun _ => eq_refl) (fun _ => eq_refl) x2a (vote_for "ab01") offer registered (MkBlock None [] "ab01" [] []) [])
    as (_ & s & p' & H1 & H2 & H3 & H4 & _); [reflexivity|reflexivity|vm_compute; reflexivity|reflexivity|vm_compute; reflexivity|].
  exists s, p'. split_and!; assumption.
Defined.
End Demo.
