(* ===== verification/Proposer.v ===== *)
(** * Proposing blocks (src/consensus/pos/proposer.go)

    Transactions of the pool are put in order of a priority, packed while gas and
    number allow, and built into a block.  [now] is a reading of the clock in
    seconds, [took] the construction time in nanoseconds.  [sort.Slice] leaves the
    order of equal priorities open; a merge sort stands for it. *)

From S2P Require Import Prelude SafeMath Uint256 Address Storage AccountManager Pool ShardedLock Governance Domains EvmGas World Executor.
From S2P Require Import StateRoot Hashes Keys Wire Blocks Floats Inflation Chain.
From stdpp Require Import base tactics numbers list gmap strings sorting.
From Stdlib Require Import ZArith Lia Strings.Byte Strings.Ascii.
Open Scope Z_scope.
Open Scope list_scope.

Inductive prop_err : Type :=
| GasOverflowAt (i : Z)
| ConstructionFailed (e : prop_err).

Record BlockProposer : Type := MkProposer {
  pr_nodeAddress : string;
  pr_maxBlockSize : Z;
  pr_maxTransactions : Z;
  pr_minGasPrice : string;
  pr_blocksProposed : Z;
  avgBlockTime : Z;
  avgTransactionCount : Z;
  totalFeesCollected : string
}.
Definition NewBlockProposer (limits : BlockLimits) (MinGasPrice nodeAddress : string) : BlockProposer :=
  MkProposer nodeAddress (Chain.MaxBlockSize limits) (MaxTxPerBlock limits) MinGasPrice 0 0 0 "0".

Record BlockConstructionResult : Type := MkConstruction {
  br_Block : Block;
  br_IncludedTxs : list Transaction;
  br_ExcludedTxs : list Transaction;
  br_TotalGasUsed : Z;
  br_TotalFees : string;
  br_ConstructionTime : Z;
  br_TransactionCount : Z;
  br_BlockSize : Z;
  br_OptimizationScore : float64
}.
Record TransactionWithPriority : Type := MkPriority {
  tp_Transaction : Transaction;
  tp_Priority : float64;
  tp_GasRatio : float64;
  tp_FeePerGas : string;
  tp_Age : Z
}.

(** ** Priorities *)

Definition getTransactionTypeBonus (tx : Transaction) : float64 :=
  match tx_Type tx with
  | STAKE => f64_const 12 10
  | UNSTAKE | DELEGATE => f64_const 11 10
  | _ => f64_of_int 1
  end.
Definition sender_counts (txs : list Transaction) : gmap string Z :=
  foldl (fun m tx => <[tx_From tx := default 0 (m !! tx_From tx) + 1]> m) ∅ txs.
Definition getAccountDiversityBonus (fromAddress : string) (senderCounts : gmap string Z) : float64 :=
  let n := default 0 (senderCounts !! fromAddress) in
  if 10 <? n then f64_const 5 10 else if 5 <? n then f64_const 8 10 else f64_of_int 1.
Definition gas_ratio {E} (bp : BlockProposer) (tx : Transaction) : outcome E float64 :=
  let min := ParseBigInt_string (pr_minGasPrice bp) in
  if 0 <? min then ratio_of (ParseBigInt_bytes (tx_GasPrice tx)) min else mret (f64_of_int 0).
Definition calculateTransactionPriority {E} (bp : BlockProposer) (tx : Transaction) (currentTime : Z) (senderCounts : gmap string Z) : outcome E float64 :=
  gas ← gas_ratio bp tx;
  let age := f64_div (f64_of_int (i64 (currentTime - tx_Timestamp tx))) (f64_of_int 3600) in
  mret (f64_add (f64_add (f64_add (f64_mul gas (f64_const 4 10)) (f64_mul age (f64_const 2 10)))
                         (f64_mul (getTransactionTypeBonus tx) (f64_const 2 10)))
                (f64_mul (getAccountDiversityBonus (tx_From tx) senderCounts) (f64_const 2 10))).

Fixpoint prioritize {E} (bp : BlockProposer) (now : Z) (counts : gmap string Z) (txs : list Transaction) : outcome E (list TransactionWithPriority) :=
  match txs with
  | [] => mret []
  | tx :: txs =>
      p ← calculateTransactionPriority bp tx now counts;
      ratio ← gas_ratio bp tx;
      rest ← prioritize bp now counts txs;
      mret (MkPriority tx p ratio (String10 (ParseBigInt_bytes (tx_GasPrice tx))) (i64 (i64 (now - tx_Timestamp tx) * 1000000000)) :: rest)
  end.
Definition by_priority (a b : TransactionWithPriority) : Prop := f64_lt (tp_Priority a) (tp_Priority b) = false.
#[global] Instance by_priority_dec : RelDecision by_priority.
Proof. intros a b. unfold by_priority. apply _. Defined.

(** ** Sums over the transactions *)

Fixpoint gas_total (i total : Z) (txs : list Transaction) : outcome prop_err Z :=
  match txs with
  | [] => mret total
  | tx :: txs => total ← wrap (fun _ => GasOverflowAt i) (SafeAdd total (tx_Gas tx)); gas_total (i + 1) total txs
  end.
Definition calculateTotalGas (transactions : list Transaction) : outcome prop_err Z := gas_total 0 0 transactions.
Definition fee_total (transactions : list Transaction) : Z :=
  foldl (fun total tx => total + ParseBigInt_bytes (tx_GasPrice tx) * tx_Gas tx) 0 transactions.
Definition calculateTotalFees (transactions : list Transaction) : string := String10 (fee_total transactions).
Definition estimateBlockSize (transactions : list Transaction) : Z := 200 + Z.of_nat (length transactions) * 300.

Definition calculateOptimizationScore (bp : BlockProposer) (transactions : list Transaction) (took : Z) : float64 :=
  if (length transactions =? 0)%nat then f64_of_int 1
  else match calculateTotalGas transactions with
       | Ok totalGas =>
           let gas := f64_div (f64_of_int totalGas) (f64_of_int (pr_maxBlockSize bp)) in
           let txs := f64_div (f64_of_int (Z.of_nat (length transactions))) (f64_of_int (pr_maxTransactions bp)) in
           let time := if 100000000 <? took then f64_div (f64_of_int 100000000) (f64_of_int took) else f64_of_int 1 in
           let score := f64_add (f64_add (f64_mul gas (f64_const 4 10)) (f64_mul txs (f64_const 4 10))) (f64_mul time (f64_const 2 10)) in
           if f64_lt (f64_of_int 1) score then f64_of_int 1 else score
       | _ => f64_of_int 0
       end.

Definition updateMetrics (took txCount : Z) (totalFees : string) (bp : BlockProposer) : BlockProposer :=
  let n := u64 (pr_blocksProposed bp + 1) in
  let fees := String10 (ParseBigInt_string (totalFeesCollected bp) + ParseBigInt_string totalFees) in
  let average (old new : Z) := int64_of_f64 (f64_add (f64_mul (f64_of_int old) (f64_sub (f64_of_int 1) (f64_const 1 10))) (f64_mul (f64_of_int new) (f64_const 1 10))) in
  if n =? 1 then MkProposer (pr_nodeAddress bp) (pr_maxBlockSize bp) (pr_maxTransactions bp) (pr_minGasPrice bp) n took txCount fees
  else MkProposer (pr_nodeAddress bp) (pr_maxBlockSize bp) (pr_maxTransactions bp) (pr_minGasPrice bp) n
         (average (avgBlockTime bp) took) (average (avgTransactionCount bp) txCount) fees.

Section Proposer.
Context `{MapOrder} {C F : Type} `{LRU C} (Keccak256 : list byte -> list byte) (shardID totalShards : Z).
Notation node := (@node C F).
Notation Pr := (GoM node prop_err).

(** [x, err := f(); if err != nil { ... }] on the world state. *)
Definition try_world {E A} (m : GoM (@world C F) E A) : Pr (option A) := fun n =>
  match on_nd_world m n with
  | (Ok a, n') => (Ok (Some a), n')
  | (Err _, n') => (Ok None, n')
  | (Panic, n') => (Panic, n')
  | (Hang, n') => (Hang, n')
  end.

(** ** Packing *)

Fixpoint load_nonces (txs : list Transaction) (nonces : gmap string Z) (excluded : list Transaction) : Pr (gmap string Z * list Transaction) :=
  match txs with
  | [] => mret (nonces, excluded)
  | tx :: txs =>
      match nonces !! tx_From tx with
      | Some _ => load_nonces txs nonces excluded
      | None =>
          nonce ← try_world (ws_GetNonce Keccak256 shardID totalShards (tx_From tx));
          match nonce with
          | None => load_nonces txs nonces (excluded ++ [tx])
          | Some nonce => load_nonces txs (<[tx_From tx := nonce]> nonces) excluded
          end
      end
  end.

Record packing : Type := MkPacking { pk_selected : list Transaction; pk_excluded : list Transaction; pk_gas : Z; pk_nonces : gmap string Z }.
Definition exclude (tx : Transaction) (p : packing) : packing := MkPacking (pk_selected p) (pk_excluded p ++ [tx]) (pk_gas p) (pk_nonces p).
Definition select (tx : Transaction) (gas : Z) (p : packing) : packing :=
  MkPacking (pk_selected p ++ [tx]) (pk_excluded p) gas (<[tx_From tx := u64 (default 0 (pk_nonces p !! tx_From tx) + 1)]> (pk_nonces p)).

Definition pack_one (bp : BlockProposer) (tx : Transaction) (p : packing) : Pr packing :=
  if pr_maxTransactions bp <=? Z.of_nat (length (pk_selected p)) then mret (exclude tx p)
  else match SafeAdd (pk_gas p) (tx_Gas tx) with
       | Ok newTotal =>
           if pr_maxBlockSize bp <? newTotal then mret (exclude tx p)
           else if negb (tx_Nonce tx =? default 0 (pk_nonces p !! tx_From tx)) then mret (exclude tx p)
           else if ParseBigInt_bytes (tx_GasPrice tx) <? ParseBigInt_string (pr_minGasPrice bp) then mret (exclude tx p)
           else
             fine ← try_world (ValidateTransactionExecution Keccak256 shardID totalShards tx);
             match fine with
             | None => mret (exclude tx p)
             | Some _ => mret (select tx newTotal p)
             end
       | _ => mret (exclude tx p)
       end.
Fixpoint pack_loop (bp : BlockProposer) (txs : list Transaction) (p : packing) : Pr packing :=
  match txs with
  | [] => mret p
  | tx :: txs => p ← pack_one bp tx p; pack_loop bp txs p
  end.
Definition packTransactions (bp : BlockProposer) (sortedTxs : list Transaction) : Pr (list Transaction * list Transaction) :=
  '(nonces, excluded) ← load_nonces sortedTxs ∅ [];
  p ← pack_loop bp sortedTxs (MkPacking [] excluded 0 nonces);
  mret (pk_selected p, pk_excluded p).

Definition selectBalanced (bp : BlockProposer) (now : Z) (availableTxs : list Transaction) : Pr (list Transaction * list Transaction) :=
  l ← lift (prioritize bp now (sender_counts availableTxs) availableTxs);
  packTransactions bp (tp_Transaction <$> merge_sort by_priority l).

(** ** Building the block *)

Definition prop_MerkleRoot (transactions : list Transaction) : string :=
  match transactions with
  | [] => ""
  | _ => Hash_String (MerkleRoot Keccak256 ((fun tx => NewHash Keccak256 (bytes_of_string (tx_Hash tx))) <$> transactions))
  end.
(** A hash that cannot be computed panics. *)
Definition calculateBlockHash {E} (block : Block) : outcome E string :=
  match CanonicalBlockHash Keccak256 (Some block) with Ok h => Ok h | _ => Panic end.

(** Index and hash of the parent; the timestamp for the guard of [constructBlock]. *)
Definition parent_of : Pr (Z * string * Z) :=
  current ← GetCurrentBlock;
  match current with
  | None => mret (0, "", 0)
  | Some b => match blk_Header b with None => panic | Some h => mret (i64 (hdr_Index h + 1), blk_Hash b, hdr_Timestamp h) end
  end.
Definition assemble (bp : BlockProposer) (index : Z) (prevHash : string) (timestamp gas : Z) (transactions : list Transaction)
    (slot epoch : Z) (vrfOutput vrfProof : list byte) : Pr Block :=
  root ← GetStateRoot;
  let merkleRoot := prop_MerkleRoot transactions in
  let header := MkBlockHeader index prevHash timestamp (pr_nodeAddress bp) merkleRoot root gas (pr_maxBlockSize bp) slot epoch
                  (Bytes (ParseBigInt_string (calculateTotalFees transactions))) merkleRoot vrfOutput vrfProof 0 in
  hash ← lift (calculateBlockHash (MkBlock (Some header) transactions "" [] []));
  mret (MkBlock (Some header) transactions hash [] []).

(** With a timestamp after the parent's. *)
Definition constructBlock (bp : BlockProposer) (now : Z) (transactions : list Transaction) (slot epoch : Z) : Pr Block :=
  '(index, prevHash, prevTimestamp) ← parent_of;
  gas ← lift (calculateTotalGas transactions);
  assemble bp index prevHash (if now <=? prevTimestamp then i64 (prevTimestamp + 1) else now) gas transactions slot epoch [] [].
(** With the time of the clock. *)
Definition constructBlockWithVRF (bp : BlockProposer) (now : Z) (transactions : list Transaction) (slot epoch : Z) (vrfOutput vrfProof : list byte) : Pr Block :=
  '(index, prevHash, _) ← parent_of;
  gas ← lift (calculateTotalGas transactions);
  assemble bp index prevHash now gas transactions slot epoch vrfOutput vrfProof.

Definition empty_result (took : Z) (b : Block) : BlockConstructionResult :=
  MkConstruction b [] [] 0 "0" took 0 (estimateBlockSize []) (f64_of_int 1).
Definition createEmptyBlock (bp : BlockProposer) (now took slot epoch : Z) : Pr BlockConstructionResult :=
  b ← constructBlock bp now [] slot epoch; mret (empty_result took b).
Definition createEmptyBlockWithVRF (bp : BlockProposer) (now took slot epoch : Z) (vrfOutput vrfProof : list byte) : Pr BlockConstructionResult :=
  b ← constructBlockWithVRF bp now [] slot epoch vrfOutput vrfProof; mret (empty_result took b).

(** [clock] is read for the ages and for the block. *)
Definition propose (construct : list Transaction -> Pr Block) (empty : Pr BlockConstructionResult) (now took : Z)
    : GoM (BlockProposer * node) prop_err BlockConstructionResult := fun '(bp, n) =>
  let body : Pr (BlockConstructionResult * bool) :=
    n ← get;
    match GetPendingTransactions (txPool n) with
    | [] => r ← empty; mret (r, false)
    | available =>
        '(selected, excluded) ← selectBalanced bp now available;
        block ← wrapM ConstructionFailed (construct selected);
        gas ← lift (calculateTotalGas selected);
        mret (MkConstruction block selected excluded gas (calculateTotalFees selected) took (Z.of_nat (length selected)) (estimateBlockSize selected)
                (calculateOptimizationScore bp selected took), true)
    end in
  match body n with
  | (Ok (r, true), n') => (Ok r, (updateMetrics took (br_TransactionCount r) (br_TotalFees r) bp, n'))
  | (Ok (r, false), n') => (Ok r, (bp, n'))
  | (Err e, n') => (Err e, (bp, n'))
  | (Panic, n') => (Panic, (bp, n'))
  | (Hang, n') => (Hang, (bp, n'))
  end.
Definition ProposeBlock (clock : nat -> Z) (took slot epoch : Z) : GoM (BlockProposer * node) prop_err BlockConstructionResult := fun s =>
  propose (fun txs => constructBlock (fst s) (clock 1%nat) txs slot epoch) (createEmptyBlock (fst s) (clock 1%nat) took slot epoch) (clock 0%nat) took s.
Definition ProposeBlockWithVRF (clock : nat -> Z) (took slot epoch : Z) (vrfOutput vrfProof : list byte) : GoM (BlockProposer * node) prop_err BlockConstructionResult := fun s =>
  propose (fun txs => constructBlockWithVRF (fst s) (clock 1%nat) txs slot epoch vrfOutput vrfProof)
    (createEmptyBlockWithVRF (fst s) (clock 1%nat) took slot epoch vrfOutput vrfProof) (clock 0%nat) took s.
End Proposer.
