(* ===== verification/ProposerSpec.v ===== *)
(** * What a proposer puts into a block *)

From S2P Require Import Prelude SafeMath Uint256 Address Storage AccountManager AccountSpec Pool ShardedLock Governance Domains EvmGas World Executor.
From S2P Require Import ExecutorSpec ExecutorThms EvmSpec StateRoot Hashes Keys Wire Blocks Floats Inflation Chain ChainSpec ChainThms Proposer.
From stdpp Require Import base tactics numbers list gmap strings sorting.
From Stdlib Require Import ZArith Lia Strings.Byte Strings.Ascii.
Open Scope Z_scope.
Open Scope list_scope.

Section ProposerSpec.
Context `{MapOrder} {C F : Type} `{LRU C, !LRULaws C} (Keccak256 : list byte -> list byte) (shardID totalShards : Z).
Notation node := (@node C F).
Notation wgood := (wgood Keccak256 shardID totalShards).
Notation ok := (ok_addr Keccak256 shardID totalShards).

(** The node between calls: the accounts are in order and their locks free. *)
Definition calm (n : node) : Prop := wgood (ws_world (nd_ws n)).
Definition state_nonce (n : node) (a : string) : Z := nonce (entry (abs (w_am (ws_world (nd_ws n)))) a).

Notation inv := (good Keccak256 shardID totalShards ∅).

Lemma funds_cases tx a : check_funds tx a = Ok tt \/ exists e, check_funds tx a = Err e.
Proof. unfold check_funds. repeat case_match; eauto. Qed.

(** Validating a transaction leaves the accounts as they are; it succeeds only for
    the nonce the account has. *)
Lemma validate_body tx (s : @am KV C) : inv s -> dbQuiet (db s) ->
  exists r s', ValidateExecution Keccak256 shardID totalShards (Some tx) s = (r, s') /\ (r = Ok tt \/ exists e, r = Err e) /\
  inv s' /\ db s' = db s /\ (r = Ok tt -> 0 < tx_Gas tx /\ tx_Nonce tx = nonce (entry (abs s) (tx_From tx))).
Proof.
  intros Hi Hq. unfold ValidateExecution, mbind, GoM_bind, refuse_if.
  destruct (Z.sgn (amount_of tx) <? 0); [by eexists _, s; split_and!; [reflexivity|right; by eexists|done..]|]. cbn.
  destruct (Z.leb_spec (tx_Gas tx) 0); [by eexists _, s; split_and!; [reflexivity|right; by eexists|done..]|]. cbn.
  destruct (Z.sgn (ParseBigInt_bytes (tx_GasPrice tx)) <=? 0); [by eexists _, s; split_and!; [reflexivity|right; by eexists|done..]|]. cbn.
  unfold get_account, wrapM. destruct (ok (tx_From tx)) eqn:Hok.
  - destruct (GetAccount_ok Keccak256 shardID totalShards (tx_From tx) s Hi Hq Hok) as (l & a & s' & -> & Hi' & Hdb & Hh & _ & _ & _ & Habs & _). cbn.
    unfold read, wrapM. rewrite (load_run l a) by done. cbn. unfold check_nonce, check_gas_limit, refuse_if, lift.
    destruct (Z.eqb_spec (acc_Nonce a) (tx_Nonce tx)) as [Hn|]; cbn; [|by eexists _, s'; split_and!; [reflexivity|right; by eexists|done..]].
    destruct (maxGasLimit <? tx_Gas tx); [by eexists _, s'; split_and!; [reflexivity|right; by eexists|done..]|]. cbn.
    rewrite (proj2 (Z.leb_gt _ _)) by lia. cbn. destruct (funds_cases tx a) as [->|[e ->]]; eexists _, s'; split_and!; try done; [by left| |by right; eexists].
    intros _. split; [done|]. change (tx_Nonce tx = nonce (entry (abs s) (tx_From tx))). by rewrite <-Hn, <-Habs.
  - destruct (GetAccount_err Keccak256 shardID totalShards (tx_From tx) s Hok) as [e ->]. cbn. by eexists _, s; split_and!; [reflexivity|right; by eexists|done..].
Qed.

Lemma validate_looks tx n : calm n ->
  exists r n', try_world (ValidateTransactionExecution Keccak256 shardID totalShards tx) n = (Ok r, n') /\ calm n' /\ state_nonce n' = state_nonce n /\ txPool n' = txPool n /\
  (is_Some r -> 0 < tx_Gas tx /\ tx_Nonce tx = state_nonce n (tx_From tx)).
Proof.
  intros [Hi Hq Hl]. destruct (validate_body tx (w_am (ws_world (nd_ws n))) Hi Hq) as (r & s' & Hrun & Hr & Hi' & Hdb & Hnonce).
  assert (Hw : ValidateTransactionExecution Keccak256 shardID totalShards tx (ws_world (nd_ws n)) = (r, set_am s' (ws_world (nd_ws n)))).
  { unfold ValidateTransactionExecution, RLock, RUnlock. case_bool_decide; [unfold on_accounts; by rewrite Hrun|].
    rewrite guarded_run by (done || rewrite Hrun; by destruct Hr as [->|[e ->]]). by rewrite Hrun. }
  unfold try_world, on_nd_world, on_ws, on_world. rewrite Hw.
  eexists (match r with Ok a => Some a | _ => None end), _. split; [by destruct Hr as [->|[e ->]]|].
  split_and!; [split; cbn; [done|by rewrite Hdb|done]| |done|].
  - unfold state_nonce, abs. cbn. by rewrite Hdb.
  - intros Hsome. apply Hnonce. destruct Hr as [->|[e ->]]; [done|by destruct Hsome].
Qed.
Lemma nonce_looks a n : calm n ->
  exists r n', try_world (ws_GetNonce Keccak256 shardID totalShards a) n = (Ok r, n') /\ calm n' /\ state_nonce n' = state_nonce n /\ txPool n' = txPool n.
Proof.
  intros Hw. unfold try_world, on_nd_world, on_ws, on_world. destruct (ok a) eqn:Hok.
  - destruct (ws_GetNonce_run Keccak256 shardID totalShards a (ws_world (nd_ws n)) Hw Hok) as (w' & -> & Hw' & Hdb).
    eexists (Some _), _. split; [reflexivity|]. split_and!; [done| |done]. unfold state_nonce, abs. cbn. by rewrite Hdb.
  - destruct (GetAccount_err Keccak256 shardID totalShards a (w_am (ws_world (nd_ws n))) Hok) as [e He].
    assert (Hn : GetNonce Keccak256 shardID totalShards a (w_am (ws_world (nd_ws n))) = (Err e, w_am (ws_world (nd_ws n)))) by (unfold GetNonce, query, mbind, GoM_bind; by rewrite He).
    unfold ws_GetNonce, RLock, RUnlock, on_am. rewrite guarded_run by (apply Hw || (unfold wrapM; rewrite Hn; done)). unfold wrapM. rewrite Hn.
    eexists None, _. split; [reflexivity|]. split_and!; [|done|done]. destruct Hw. by split.
Qed.

Lemma nonces_loaded txs : forall nonces excluded n, calm n ->
  exists r n', load_nonces Keccak256 shardID totalShards txs nonces excluded n = (Ok r, n') /\ calm n' /\ state_nonce n' = state_nonce n /\
  excluded ⊆ snd r.
Proof.
  induction txs as [|tx txs IH]; intros nonces excluded n Hn; cbn [load_nonces]; [by eexists (nonces, excluded), n|].
  destruct (nonces !! tx_From tx); [by apply IH|]. destruct (nonce_looks (tx_From tx) n Hn) as (r & n1 & Hrun & Hn1 & Hs1 & _).
  unfold mbind, GoM_bind. rewrite Hrun. destruct r as [k|]; [destruct (IH (<[tx_From tx := k]> nonces) excluded n1 Hn1) as (r & n2 & ? & ? & Hs & ?)|destruct (IH nonces (excluded ++ [tx]) n1 Hn1) as (r & n2 & ? & ? & Hs & ?)];
    exists r, n2; rewrite Hs, Hs1; split_and!; try done. set_solver.
Qed.

(** What holds of a packing in progress. *)
Record packed (bp : BlockProposer) (n : node) (seen : list Transaction) (p : packing) : Prop := MkPacked {
  pd_count : Z.of_nat (length (pk_selected p)) <= Z.max 0 (pr_maxTransactions bp);
  pd_gas : calculateTotalGas (pk_selected p) = Ok (pk_gas p);
  pd_limit : pk_selected p <> [] -> pk_gas p <= pr_maxBlockSize bp;
  pd_each : Forall (fun tx => tx ∈ seen /\ 0 < tx_Gas tx /\ tx_Nonce tx = state_nonce n (tx_From tx) /\ ParseBigInt_string (pr_minGasPrice bp) <= ParseBigInt_bytes (tx_GasPrice tx)) (pk_selected p);
  pd_nonces : forall tx, tx ∈ pk_selected p -> pk_nonces p !! tx_From tx = Some (u64 (state_nonce n (tx_From tx) + 1));
  pd_senders : NoDup (tx_From <$> pk_selected p);
  pd_all : seen ⊆ pk_selected p ++ pk_excluded p
}.
Lemma gas_total_app l tx g g' : forall i t, gas_total i t l = Ok g -> SafeAdd g (tx_Gas tx) = Ok g' -> gas_total i t (l ++ [tx]) = Ok g'.
Proof.
  induction l as [|x l IH]; intros i t; cbn.
  - intros [= ->] ->. done.
  - intros Hg Hs. unfold mbind, outcome_bind in *. destruct (wrap _ (SafeAdd t (tx_Gas x))); try done. by apply IH.
Qed.
Lemma next_nonce x : u64 (x + 1) <> x.
Proof. unfold u64. intros Hx. pose proof (Z.div_mod (x + 1) two64 ltac:(by unfold_ints)) as Hd. rewrite Hx in Hd. unfold_ints. lia. Qed.

Lemma packed_exclude bp n seen p tx : packed bp n seen p -> packed bp n (seen ++ [tx]) (exclude tx p).
Proof.
  intros [H1 H2 H3 H4 H5 H6 H7]. split; cbn; try done; [|set_solver]. eapply Forall_impl; [exact H4|]. intros x (? & ?). set_solver.
Qed.
Lemma packed_select bp n seen p tx gas : packed bp n seen p -> Z.of_nat (length (pk_selected p)) < pr_maxTransactions bp ->
  SafeAdd (pk_gas p) (tx_Gas tx) = Ok gas -> gas <= pr_maxBlockSize bp -> tx_Nonce tx = default 0 (pk_nonces p !! tx_From tx) ->
  ParseBigInt_string (pr_minGasPrice bp) <= ParseBigInt_bytes (tx_GasPrice tx) -> 0 < tx_Gas tx -> tx_Nonce tx = state_nonce n (tx_From tx) ->
  packed bp n (seen ++ [tx]) (select tx gas p).
Proof.
  intros [H1 H2 H3 H4 H5 H6 H7] Hc Hs Hg Hd Hp Hpos Hn.
  assert (Hnew : tx_From tx ∉ tx_From <$> pk_selected p).
  { intros (x & Hx & Hin)%list_elem_of_fmap. rewrite Hx, (H5 x Hin) in Hd. cbn in Hd. rewrite Hd, Hx in Hn. by apply (next_nonce (state_nonce n (tx_From x))). }
  split; cbn.
  - rewrite length_app. cbn. lia.
  - by eapply gas_total_app.
  - done.
  - rewrite Forall_app, Forall_singleton. split; [|set_solver]. eapply Forall_impl; [exact H4|]. intros x (? & ?). set_solver.
  - intros x [Hx| ->%list_elem_of_singleton]%elem_of_app.
    + rewrite lookup_insert_ne; [by apply H5|]. intros Heq. apply Hnew. rewrite Heq. by apply list_elem_of_fmap_2.
    + rewrite lookup_insert_eq, <-Hd, Hn. done.
  - rewrite fmap_app. apply NoDup_app. split_and!; [done| |apply NoDup_singleton]. intros a Ha ->%list_elem_of_singleton. done.
  - set_solver.
Qed.

Lemma pack_one_ok bp n0 seen tx p n : calm n -> state_nonce n = state_nonce n0 -> packed bp n0 seen p ->
  exists p' n', pack_one Keccak256 shardID totalShards bp tx p n = (Ok p', n') /\ calm n' /\ state_nonce n' = state_nonce n0 /\ packed bp n0 (seen ++ [tx]) p'.
Proof.
  intros Hn Hs Hp. unfold pack_one. pose proof (packed_exclude bp n0 seen p tx Hp) as Hex.
  destruct (Z.leb_spec (pr_maxTransactions bp) (Z.of_nat (length (pk_selected p)))); [by eexists _, n|].
  destruct (SafeAdd (pk_gas p) (tx_Gas tx)) as [gas| | |] eqn:Hg; [|by eexists _, n..].
  destruct (Z.ltb_spec (pr_maxBlockSize bp) gas); [by eexists _, n|]. destruct (Z.eqb_spec (tx_Nonce tx) (default 0 (pk_nonces p !! tx_From tx))); cbn [negb]; [|by eexists _, n].
  destruct (Z.ltb_spec (ParseBigInt_bytes (tx_GasPrice tx)) (ParseBigInt_string (pr_minGasPrice bp))); [by eexists _, n|].
  destruct (validate_looks tx n Hn) as (r & n' & Hrun & Hn' & Hs' & _ & Hok). unfold mbind, GoM_bind. rewrite Hrun.
  destruct r as [u|]; [|eexists _, n'; split_and!; [reflexivity|done|by rewrite Hs'|done]]. destruct (Hok ltac:(by eexists)) as [Hpos Hnonce].
  eexists _, n'. split_and!; [reflexivity|done|by rewrite Hs'|]. apply packed_select; try done. by rewrite <-Hs.
Qed.
Lemma pack_loop_ok bp n0 txs : forall seen p n, calm n -> state_nonce n = state_nonce n0 -> packed bp n0 seen p ->
  exists p' n', pack_loop Keccak256 shardID totalShards bp txs p n = (Ok p', n') /\ packed bp n0 (seen ++ txs) p'.
Proof.
  induction txs as [|tx txs IH]; intros seen p n Hn Hs Hp; cbn [pack_loop]; [eexists p, n; by rewrite app_nil_r|].
  destruct (pack_one_ok bp n0 seen tx p n Hn Hs Hp) as (p1 & n1 & Hrun & Hn1 & Hs1 & Hp1). unfold mbind, GoM_bind. rewrite Hrun.
  destruct (IH _ _ _ Hn1 Hs1 Hp1) as (p2 & n2 & Hrun2 & Hp2). exists p2, n2. split; [done|]. by rewrite <-app_assoc in Hp2.
Qed.

(** What a proposer packs.  Whatever transactions wait, packing comes back with a
    selection that respects the number and the gas of a block and the minimum gas
    price, in which every transaction carries exactly the nonce its account has; no
    waiting transaction is lost.  And no sender appears twice: the second one would
    need the next nonce, but each is checked against the state before the block, so
    a block holds at most one transaction of an account. *)
Theorem one_transaction_per_sender bp txs (n : node) : calm n ->
  exists selected excluded n', packTransactions Keccak256 shardID totalShards bp txs n = (Ok (selected, excluded), n') /\
  NoDup (tx_From <$> selected) /\ Z.of_nat (length selected) <= Z.max 0 (pr_maxTransactions bp) /\
  (exists gas, calculateTotalGas selected = Ok gas /\ (selected <> [] -> gas <= pr_maxBlockSize bp)) /\
  Forall (fun tx => tx ∈ txs /\ tx_Nonce tx = state_nonce n (tx_From tx) /\ 0 < tx_Gas tx /\
                    ParseBigInt_string (pr_minGasPrice bp) <= ParseBigInt_bytes (tx_GasPrice tx)) selected /\
  txs ⊆ selected ++ excluded.
Proof.
  intros Hn. destruct (nonces_loaded txs ∅ [] n Hn) as ([nonces excluded] & n1 & Hload & Hn1 & Hs1 & _).
  destruct (pack_loop_ok bp n txs [] (MkPacking [] excluded 0 nonces) n1 Hn1 Hs1) as (p & n2 & Hpack & [P1 P2 P3 P4 _ P6 P7]).
  { split; cbn; try done; [lia|set_solver|apply NoDup_nil_2|set_solver]. }
  exists (pk_selected p), (pk_excluded p), n2. split_and!; [|done|done|by eexists| |done].
  - unfold packTransactions, mbind, GoM_bind. rewrite Hload. by rewrite Hpack.
  - eapply Forall_impl; [exact P4|]. intros tx (? & ? & ? & ?). set_solver.
Qed.
End ProposerSpec.

Module Demo.
Import ChainThms.Demo.
#[local] Existing Instances demo_LRU3 demo_LRU3_laws.
Definition proposer : BlockProposer := MkProposer bob 1000000 10 "1" 0 0 0 "0".
Definition waiting : list Transaction := [demo_tx TRANSFER alice bob 5 0; demo_tx TRANSFER alice bob 6 1; demo_tx TRANSFER alice bob 7 2].
Lemma demo_calm : calm no_hash BeaconShardID 1 demo_node.
Proof. exact boot_good. Qed.
Lemma one_transaction_per_sender_witness :
  exists selected excluded n', packTransactions no_hash BeaconShardID 1 proposer waiting demo_node = (Ok (selected, excluded), n') /\
  selected = [demo_tx TRANSFER alice bob 5 0] /\ length excluded = 2%nat.
Proof.
  destruct (one_transaction_per_sender no_hash BeaconShardID 1 proposer waiting demo_node demo_calm) as (selected & excluded & n' & Hrun & _).
  assert (Hv : (fun p => (fst p, length (snd p))) <$> match fst (packTransactions no_hash BeaconShardID 1 proposer waiting demo_node) with Ok p => Some p | _ => None end =
    Some ([demo_tx TRANSFER alice bob 5 0], 2%nat)) by (vm_compute; reflexivity).
  rewrite Hrun in Hv. cbn in Hv. injection Hv as -> Hl. exists [demo_tx TRANSFER alice bob 5 0], excluded, n'. split_and!; [exact Hrun|reflexivity|exact Hl].
Defined.
End Demo.
