(* ===== verification/Engine.v ===== *)
(** * The consensus engine (src/consensus/pos/consensus.go)

    The engine validates blocks, works through the slots and handles the messages
    of its peers.  What it calls on the world state, the chain, the proposer and
    the slashing manager is the interface [EnginePorts]; the validators and the
    database behind the world state are its registry.  The methods that take the
    engine's mutex take it here; a method that waits for itself is [Hang].

    Readings of the clock, in nanoseconds, are arguments.  The broadcast channel is
    kept as all messages ever put into it and the number of those that the network
    has taken.  The validator set holds the validators as they were when added. *)

From S2P Require Import Prelude SafeMath Uint256 Address Storage ShardedLock Governance Domains TxValidator.
From S2P Require Import Hashes Keys Wire ForkChoice SlashStore Slashing Floats Selection BlockDB Timing Traversal Messages Proposer.
From stdpp Require Import base tactics numbers list gmap strings sorting.
From Stdlib Require Import ZArith Lia Strings.Byte Strings.Ascii.
Open Scope Z_scope.
Open Scope list_scope.

Definition slotsPerEpoch : Z := 32.
Definition proposerCooldownWindow : Z := 1.

Record ValidatorActivity : Type := MkActivity { LastProposal : Z; MissedProposals : Z }.

(** What travels on the two channels; [*types.Vote] is not [*Vote]. *)
Inductive message : Type :=
| ProposalMsg (p : BlockProposal)
| AttestationMsg (a : Attestation)
| VoteMsg (v : Vote)
| TypesVoteMsg (v : Vote)
| EvidenceMsg (e : SlashingEvidence).

Inductive ce_err : Type :=
| BlockMissing | HeaderMissing
| TooManyTxs (n : Z) | TimeInvalid (e : time_err) | WrongHeight (expected got : Z) | WrongParent
| WrongBlockHash (expected got : string)
| UnsignedBlock | NoProposer | ProposerUnknown (address : string) | ProposerInactive (address : string) | ProposerJailed (address : string)
| ProposerWithoutKey | ProposerKeyInvalid (e : key_err) | ProposerMismatch (derived : string) | BlockMessage (e : msg_err)
| VRFInvalid (e : vrf_err) | TransactionInvalid (i : nat) | GasMismatch (header computed : Z) | GasOverLimit (gas : Z)
| SimulationFailed | WrongStateRoot (header simulated : string)
| NoValidators | ScheduleFailed (e : sel_error) | ScheduleShort
| NoVRF (e : vrf_err) | NoBlockBuilt | NotOurs (validator : string) | SigningError (e : key_err) | NotAdded | ChannelBlocked
| NoHead | ChannelFull
| AttesterUnknown | AttesterInactive | AttesterJailed | AttestationTooOld
| VoterUnknown | VoterInactive | EpochsOutOfOrder
| NilAnnouncement | AnnouncedNoAddress | AnnouncedNoKey | AnnouncedNoStake | AnnouncedRefused (e : reg_err).

(** ** What the engine calls *)

Class EnginePorts (N : Type) : Type := {
  ep_err : Type;
  ep_registry : N -> registry;
  ep_put_registry : registry -> N -> N;
  (** The world state. *)
  ep_GetHeight : GoM N ep_err Z;
  ep_GetCurrentBlock : GoM N ep_err (option Block);
  ep_ValidateTransaction : clocks -> Transaction -> GoM N ep_err Transaction;
  ep_SimulateStateRoot : Block -> GoM N ep_err string;
  ep_AddBlock : (nat -> Z * Z) -> Block -> GoM N ep_err Block;
  ep_ProcessUnbondingQueue : Z -> GoM N ep_err unit;
  (** The chain and the proposer. *)
  ep_ReorganizeChain : (nat -> nat -> Z * Z) -> Z -> list Block -> GoM N ep_err unit;
  ep_ProposeBlockWithVRF : (nat -> Z) -> Z -> Z -> list byte -> list byte -> GoM N ep_err Block;
  (** The slashing manager, beyond what the fork choice asks of it. *)
  ep_ReportBlockWithholding : Z -> string -> GoM N ep_err unit;
  ep_ProcessVote : Z -> Vote -> GoM N ep_err unit;
  ep_surround : ep_err -> option (Vote * Vote);
  ep_ApplySurroundVoteSlashing : Z -> Vote -> Vote -> GoM N ep_err unit
}.

(** [config.Config], as far as it is used here, and the timestamp validator made
    from it. *)
Record EngineConfig : Type := MkEngineConfig {
  ec_MaxTxPerBlock : Z;
  ec_MaxBlockSize : Z;
  ec_MinActiveValidators : Z;
  ec_MaxTimestampAge : Z;
  ec_MinValidatorStake : string;
  ec_ChainID : string;
  ec_timestamps : TimestampValidator;
  ec_forkChoice : ForkChoiceConfig;
  ec_limits : ConsensusLimits;
  ec_capacity : nat
}.

Section Engine.
Context `{MapOrder} {N : Type} `{Slasher N} `{ports : EnginePorts N} {Pub Priv : Type} `{Secp256k1 Pub Priv}.
Context (Keccak256 Sha256 : list byte -> list byte) (cfg : EngineConfig).
(** [nodePrivateKey] and [nodeAddress]. *)
Context (key : @PrivateKeyImpl Priv) (nodeAddress : string).

Record engine : Type := MkCE {
  ce_node : N;
  forkChoice : ForkChoice;
  validatorSet : ValidatorSet;
  currentSlot : Z;
  currentEpoch : Z;
  lastAttestedEpoch : Z;
  attestations : gmap string Attestation;
  votes : gmap string Vote;
  blocksProposed : Z;
  blocksMissed : Z;
  attestationsMade : Z;
  validatorActivity : gmap string ValidatorActivity;
  validatorsSynced : bool;
  isSyncing : bool;
  sent : list message;
  taken : nat;
  ce_mu : RWMutex
}.
Notation Ce := (GoM engine ce_err).

Definition NewConsensusEngine (n : N) (fc : ForkChoice) (max : Z) (reader : option HistoryReader) : engine :=
  MkCE n fc (SetHistoryReader reader (NewSet max)) 0 0 0 ∅ ∅ 0 0 0 ∅ false false [] 0 unlocked.

Definition ce_set_node n (s : engine) : engine :=
  MkCE n (forkChoice s) (validatorSet s) (currentSlot s) (currentEpoch s) (lastAttestedEpoch s) (attestations s) (votes s) (blocksProposed s)
    (blocksMissed s) (attestationsMade s) (validatorActivity s) (validatorsSynced s) (isSyncing s) (sent s) (taken s) (ce_mu s).
Definition ce_set_fork fc n (s : engine) : engine :=
  MkCE n fc (validatorSet s) (currentSlot s) (currentEpoch s) (lastAttestedEpoch s) (attestations s) (votes s) (blocksProposed s)
    (blocksMissed s) (attestationsMade s) (validatorActivity s) (validatorsSynced s) (isSyncing s) (sent s) (taken s) (ce_mu s).
Definition ce_set_set vs (s : engine) : engine :=
  MkCE (ce_node s) (forkChoice s) vs (currentSlot s) (currentEpoch s) (lastAttestedEpoch s) (attestations s) (votes s) (blocksProposed s)
    (blocksMissed s) (attestationsMade s) (validatorActivity s) (validatorsSynced s) (isSyncing s) (sent s) (taken s) (ce_mu s).
Definition ce_set_slot slot epoch (s : engine) : engine :=
  MkCE (ce_node s) (forkChoice s) (validatorSet s) slot epoch (lastAttestedEpoch s) (attestations s) (votes s) (blocksProposed s)
    (blocksMissed s) (attestationsMade s) (validatorActivity s) (validatorsSynced s) (isSyncing s) (sent s) (taken s) (ce_mu s).
Definition ce_store_attestation k a (s : engine) : engine :=
  MkCE (ce_node s) (forkChoice s) (validatorSet s) (currentSlot s) (currentEpoch s) (lastAttestedEpoch s) (<[k := a]> (attestations s)) (votes s)
    (blocksProposed s) (blocksMissed s) (attestationsMade s) (validatorActivity s) (validatorsSynced s) (isSyncing s) (sent s) (taken s) (ce_mu s).
Definition ce_store_vote k v (s : engine) : engine :=
  MkCE (ce_node s) (forkChoice s) (validatorSet s) (currentSlot s) (currentEpoch s) (lastAttestedEpoch s) (attestations s) (<[k := v]> (votes s))
    (blocksProposed s) (blocksMissed s) (attestationsMade s) (validatorActivity s) (validatorsSynced s) (isSyncing s) (sent s) (taken s) (ce_mu s).
Definition ce_count proposed missed made (s : engine) : engine :=
  MkCE (ce_node s) (forkChoice s) (validatorSet s) (currentSlot s) (currentEpoch s) (lastAttestedEpoch s) (attestations s) (votes s)
    (u64 (blocksProposed s + proposed)) (u64 (blocksMissed s + missed)) (u64 (attestationsMade s + made)) (validatorActivity s) (validatorsSynced s)
    (isSyncing s) (sent s) (taken s) (ce_mu s).
Definition ce_set_activity m (s : engine) : engine :=
  MkCE (ce_node s) (forkChoice s) (validatorSet s) (currentSlot s) (currentEpoch s) (lastAttestedEpoch s) (attestations s) (votes s)
    (blocksProposed s) (blocksMissed s) (attestationsMade s) m (validatorsSynced s) (isSyncing s) (sent s) (taken s) (ce_mu s).
Definition ce_set_synced synced syncing (s : engine) : engine :=
  MkCE (ce_node s) (forkChoice s) (validatorSet s) (currentSlot s) (currentEpoch s) (lastAttestedEpoch s) (attestations s) (votes s)
    (blocksProposed s) (blocksMissed s) (attestationsMade s) (validatorActivity s) synced syncing (sent s) (taken s) (ce_mu s).
Definition ce_send m last (s : engine) : engine :=
  MkCE (ce_node s) (forkChoice s) (validatorSet s) (currentSlot s) (currentEpoch s) last (attestations s) (votes s)
    (blocksProposed s) (blocksMissed s) (attestationsMade s) (validatorActivity s) (validatorsSynced s) (isSyncing s) (sent s ++ [m]) (taken s) (ce_mu s).
Definition ce_take k (s : engine) : engine :=
  MkCE (ce_node s) (forkChoice s) (validatorSet s) (currentSlot s) (currentEpoch s) (lastAttestedEpoch s) (attestations s) (votes s)
    (blocksProposed s) (blocksMissed s) (attestationsMade s) (validatorActivity s) (validatorsSynced s) (isSyncing s) (sent s)
    (Nat.min (length (sent s)) (taken s + k)) (ce_mu s).
Definition ce_set_mu l (s : engine) : engine :=
  MkCE (ce_node s) (forkChoice s) (validatorSet s) (currentSlot s) (currentEpoch s) (lastAttestedEpoch s) (attestations s) (votes s)
    (blocksProposed s) (blocksMissed s) (attestationsMade s) (validatorActivity s) (validatorsSynced s) (isSyncing s) (sent s) (taken s) l.

(** *** Calls of the parts *)

Definition on_node {E E' A} (f : E -> E') (m : GoM N E A) : GoM engine E' A := fun s =>
  let '(r, n) := m (ce_node s) in (wrap f r, ce_set_node n s).
(** The caller looks at the error. *)
Definition try_node {E A} (m : GoM N E A) : Ce (outcome E A) := fun s =>
  let '(r, n) := m (ce_node s) in
  (match r with Panic => Panic | Hang => Hang | _ => Ok r end, ce_set_node n s).
Definition on_db {E A} (m : GoM KV E A) : GoM N E A := fun n =>
  let '(r, d) := m (reg_db (ep_registry n)) in (r, ep_put_registry (MkRegistry (reg_validators (ep_registry n)) d) n).
Definition on_registry {E A} (m : GoM registry E A) : GoM N E A := fun n =>
  let '(r, g) := m (ep_registry n) in (r, ep_put_registry g n).
Definition on_set {A} (m : GoM ValidatorSet sel_error A) : Ce A := fun s =>
  let '(r, vs) := m (validatorSet s) in (wrap ScheduleFailed r, ce_set_set vs s).
(** A call of the fork choice; its errors do not reach the caller. *)
Definition on_fork {A} (m : GoM (ForkChoice * N) fc_err A) : Ce (outcome fc_err A) := fun s =>
  let '(r, (fc, n)) := m (forkChoice s, ce_node s) in
  (match r with Panic => Panic | Hang => Hang | _ => Ok r end, ce_set_fork fc n s).
Definition read_fork {A} (m : WorldStateReader -> GoM ForkChoice fc_err A) : GoM (ForkChoice * N) fc_err A := fun '(fc, n) =>
  let '(r, fc') := m (sl_reader n) fc in (r, (fc', n)).
(** [ce.worldState.GetValidator]. *)
Definition find_validator (s : engine) (address : string) : option Validator := reg_validators (ep_registry (ce_node s)) !! address.

(** [ce.mu.Lock(); defer ce.mu.Unlock()]. *)
Definition ce_locked {E A} (m : mode) (body : GoM engine E A) : GoM engine E A := fun s =>
  match mutex_call true m (ce_mu s) with
  | Some (Ok l) =>
      let '(r, s1) := body (ce_set_mu l s) in
      match r with
      | Hang => (Hang, s1)
      | _ => match mutex_call false m (ce_mu s1) with
             | Some (Ok l') => (r, ce_set_mu l' s1)
             | _ => (Panic, s1)
             end
      end
  | Some _ => (Panic, s)
  | None => (Hang, s)
  end.

Definition IsSyncing : Ce bool := ce_locked R (s ← get; mret (isSyncing s)).
Definition SetSyncing (syncing : bool) : Ce unit := ce_locked W (modify (fun s => ce_set_synced (validatorsSynced s) syncing s)).
Definition GetCurrentEpoch : Ce Z := ce_locked R (s ← get; mret (currentEpoch s)).
Definition GetCurrentSlot : Ce Z := ce_locked R (s ← get; mret (currentSlot s)).
Definition IsValidator (address : string) : Ce bool := s ← get; mret (match find_validator s address with Some v => val_Active v | None => false end).
Definition isCurrentNodeValidator : Ce bool := IsValidator nodeAddress.

(** ** Validating a block *)

Definition header_of {S E} (b : Block) : GoM S E BlockHeader := match blk_Header b with Some h => mret h | None => panic end.
Definition GetCurrentBlock : Ce (option Block) := on_node (fun _ => NoHead) ep_GetCurrentBlock.

Definition engine_validateBlockStructure (now : Z) (block : Block) (h : BlockHeader) : Ce unit :=
  let count := Z.of_nat (length (blk_Transactions block)) in
  _ ← refuse_if (ec_MaxTxPerBlock cfg <? count) (TooManyTxs count);
  current ← GetCurrentBlock;
  match current with
  | None => lift (wrap TimeInvalid (clock_ValidateBlockTimestamp (Unix now) (hdr_Timestamp h) 0 MaxAllowedTimeDrift MaxAllowedTimeDrift))
  | Some c =>
      ch ← header_of c;
      _ ← lift (wrap TimeInvalid (clock_ValidateBlockTimestamp (Unix now) (hdr_Timestamp h) (hdr_Timestamp ch) MaxAllowedTimeDrift MaxAllowedTimeDrift));
      _ ← refuse_if (negb (hdr_Index h =? i64 (hdr_Index ch + 1))) (WrongHeight (i64 (hdr_Index ch + 1)) (hdr_Index h));
      refuse_if (negb (bool_decide (hdr_PrevHash h = blk_Hash c))) WrongParent
  end.

Definition validateBlockHash (block : Block) : Ce unit :=
  expected ← lift (calculateBlockHash Keccak256 block);
  refuse_if (negb (bool_decide (blk_Hash block = expected))) (WrongBlockHash expected (blk_Hash block)).

Definition validateBlockSignature (now : Z) (block : Block) (h : BlockHeader) : Ce unit :=
  if hdr_Index h =? 0 then mret tt
  else
    _ ← refuse_if (length (blk_Signature block) =? 0)%nat UnsignedBlock;
    let address := hdr_Validator h in
    _ ← refuse_if (bool_decide (address = "")) NoProposer;
    s ← get;
    match find_validator s address with
    | None => throw (ProposerUnknown address)
    | Some v =>
        _ ← refuse_if (negb (val_Active v)) (ProposerInactive address);
        _ ← refuse_if (jailed_at (Unix now) v) (ProposerJailed address);
        _ ← refuse_if (length (val_Pubkey v) =? 0)%nat ProposerWithoutKey;
        pubKey ← lift (wrap ProposerKeyInvalid (NewPublicKeyFromBytes (Pub:=Pub) (val_Pubkey v)));
        derived ← lift (wrap ProposerKeyInvalid (GenerateAddress (Some pubKey)));
        _ ← refuse_if (negb (bool_decide (derived = address))) (ProposerMismatch derived);
        lift (wrap BlockMessage (msg ← computeBlockSigningHash Keccak256 (ec_ChainID cfg) (Some block);
                                 verify_message Keccak256 pubKey msg (blk_Signature block)))
    end.

Definition validateSlotTime (now : Z) (h : BlockHeader) : Ce unit :=
  parent ← try_node (on_db (find_block (E:=unit) (hdr_PrevHash h)));
  match parent with
  | Ok (Some p) =>
      ph ← header_of p;
      lift (wrap TimeInvalid (slot_ValidateBlockTimestamp (ec_timestamps cfg) (Unix now) (hdr_Timestamp h) (hdr_Slot h) (hdr_Timestamp ph) (hdr_Index ph)))
  | _ => mret tt
  end.

Definition validateVRFProof (h : BlockHeader) : Ce unit :=
  s ← get;
  if (length (GetActiveValidators (ep_registry (ce_node s))) =? 1)%nat then mret tt
  else
    match find_validator s (hdr_Validator h) with
    | None => throw (ProposerUnknown (hdr_Validator h))
    | Some v =>
        _ ← lift (wrap VRFInvalid (VerifyVRFProof (Pub:=Pub) Sha256 (val_Pubkey v) (vrf_input (hdr_Slot h) (hdr_Epoch h))
                                     (Some (MkVRFProof (hdr_VrfOutput h) (hdr_VrfProof h)))));
        mret tt
    end.

(** The transactions come back as validation normalised them. *)
Fixpoint validateBlockTransactions (clk : nat -> clocks) (i : nat) (txs : list Transaction) : Ce (list Transaction) :=
  match txs with
  | [] => mret []
  | tx :: rest =>
      tx ← on_node (fun _ => TransactionInvalid i) (ep_ValidateTransaction (clk i) tx);
      rest ← validateBlockTransactions clk (S i) rest;
      mret (tx :: rest)
  end.

Definition validateGasUsage (txs : list Transaction) (h : BlockHeader) : Ce unit :=
  let total := foldl (fun t tx => i64 (t + tx_Gas tx)) 0 txs in
  _ ← refuse_if (negb (hdr_GasUsed h =? total)) (GasMismatch (hdr_GasUsed h) total);
  refuse_if (ec_MaxBlockSize cfg <? total) (GasOverLimit total).

Definition validateProposer (now : Z) (h : BlockHeader) : Ce unit :=
  s ← get;
  match find_validator s (hdr_Validator h) with
  | None => throw (ProposerUnknown (hdr_Validator h))
  | Some v =>
      _ ← refuse_if (negb (val_Active v)) (ProposerInactive (hdr_Validator h));
      refuse_if (jailed_at (Unix now) v) (ProposerJailed (hdr_Validator h))
  end.

(** Everything before the state root; the block comes back with its transactions. *)
Definition check_block (clock : nat -> Z) (clk : nat -> clocks) (block : Block) (h : BlockHeader) : Ce Block :=
  _ ← engine_validateBlockStructure (clock 0%nat) block h;
  _ ← validateBlockHash block;
  _ ← validateBlockSignature (clock 1%nat) block h;
  _ ← (if 0 <? hdr_Index h then validateSlotTime (clock 2%nat) h else mret tt);
  _ ← (if 0 <? hdr_Index h then validateVRFProof h else mret tt);
  txs ← validateBlockTransactions clk 0 (blk_Transactions block);
  _ ← validateGasUsage txs h;
  _ ← validateProposer (clock 3%nat) h;
  mret (MkBlock (Some h) txs (blk_Hash block) (blk_Signature block) (blk_ProposalSignature block)).
Definition check_state_root (block : Block) (h : BlockHeader) : Ce unit :=
  syncing ← IsSyncing;
  if negb syncing && (0 <? hdr_Index h) then
    root ← on_node (fun _ => SimulationFailed) (ep_SimulateStateRoot block);
    refuse_if (negb (bool_decide (hdr_StateRoot h = root))) (WrongStateRoot (hdr_StateRoot h) root)
  else mret tt.
Definition ValidateBlock (clock : nat -> Z) (clk : nat -> clocks) (block : option Block) : Ce Block :=
  match block with
  | None => throw BlockMissing
  | Some b =>
      match blk_Header b with
      | None => throw HeaderMissing
      | Some h => b ← check_block clock clk b h; _ ← check_state_root b h; mret b
      end
  end.

(** ** Slots *)

Definition active_now (now : Z) (address : string) : Ce bool := fun s =>
  if sl_present (ce_node s) then
    (r ← try_node (sl_IsValidatorActive now address); mret (match r with Ok b => b | _ => false end)) s
  else (Ok true, s).
Fixpoint keep_active (clock : nat -> Z) (i : nat) (l : list Validator) : Ce (list Validator) :=
  match l with
  | [] => mret []
  | v :: l =>
      active ← active_now (clock i) (val_Address v);
      rest ← keep_active clock (S i) l;
      mret (if active : bool then v :: rest else rest)
  end.
Definition getEligibleProposers (clock : nat -> Z) (includeRecovery : bool) : Ce (list Validator) :=
  s ← get;
  if includeRecovery then mret (reg_GetAllValidators (ep_registry (ce_node s)))
  else keep_active clock 0 (activeList (validatorSet s)).

Definition getSlotProposer (clock : nat -> Z) (slot : Z) : Ce string :=
  active ← getEligibleProposers clock false;
  candidates ← (if (length active =? 0)%nat then getEligibleProposers clock true else mret active);
  _ ← refuse_if (length candidates =? 0)%nat NoValidators;
  schedule ← on_set (BuildEpochSchedule Keccak256 (Some <$> candidates) (slot / slotsPerEpoch) slotsPerEpoch proposerCooldownWindow);
  match schedule !! Z.to_nat (slot mod slotsPerEpoch) with
  | Some address => mret address
  | None => throw ScheduleShort
  end.

Fixpoint add_candidates (clock : nat -> Z) (i : nat) (l : list Validator) : Ce unit :=
  match l with
  | [] => mret tt
  | v :: l => _ ← on_set (AddValidator_set (clock i) (Some v)); add_candidates clock (S i) l
  end.
(** [GetActiveValidators] is sorted by address already. *)
Definition initializeValidatorSet (clock : nat -> Z) : Ce unit :=
  s ← get;
  let candidates := merge_sort by_address (GetActiveValidators (ep_registry (ce_node s))) in
  _ ← modify (fun s => ce_set_set (Clear (validatorSet s)) s);
  add_candidates clock 0 candidates.
Definition ReinitializeValidatorSet (clock : nat -> Z) : Ce unit := ce_locked W (initializeValidatorSet clock).

Definition GetHeight : Ce Z := on_node (fun _ => NoHead) ep_GetHeight.

Definition updateValidatorActivity (now : Z) (address : string) (wasBlockProduced : bool) : Ce unit :=
  height ← GetHeight;
  if height <? 100 then mret tt
  else
    s ← get;
    let activity := default (MkActivity 0 0) (validatorActivity s !! address) in
    if wasBlockProduced then modify (ce_set_activity (<[address := MkActivity now 0]> (validatorActivity s)))
    else
      let missed := u64 (MissedProposals activity + 1) in
      _ ← modify (ce_set_activity (<[address := MkActivity (LastProposal activity) missed]> (validatorActivity s)));
      if 10 <=? missed then
        r ← try_node (ep_ReportBlockWithholding now address);
        if is_ok r then modify (fun s => ce_set_activity (<[address := MkActivity (LastProposal activity) 0]> (validatorActivity s)) s) else mret tt
      else mret tt.

(** [msg[:n]] in a log line. *)
Definition cut (n : nat) (s : string) : Ce unit := if (String.length s <? n)%nat then panic else mret tt.

Definition signBlock (block : Block) : Ce Block :=
  match blk_Header block with
  | None => throw HeaderMissing
  | Some h =>
      expected ← lift (calculateBlockHash Keccak256 block);
      _ ← refuse_if (negb (bool_decide (blk_Hash block = expected))) (WrongBlockHash expected (blk_Hash block));
      _ ← refuse_if (negb (bool_decide (hdr_Validator h = nodeAddress))) (NotOurs (hdr_Validator h));
      msg ← lift (wrap BlockMessage (computeBlockSigningHash Keccak256 (ec_ChainID cfg) (Some block)));
      sig ← lift (wrap SigningError (Priv_Sign Keccak256 key msg));
      bytes ← lift (Sig_Bytes sig);
      mret (MkBlock (Some h) (blk_Transactions block) (blk_Hash block) bytes (blk_ProposalSignature block))
  end.

Definition room (s : engine) : bool := (length (sent s) - taken s <? ec_capacity cfg)%nat.
(** [drained]: whether the network takes a message during the two seconds. *)
Definition offer (drained : bool) (m : message) : Ce unit := fun s =>
  if room s then (Ok tt, ce_send m (lastAttestedEpoch s) s)
  else if drained then (Ok tt, ce_send m (lastAttestedEpoch s) (ce_take 1 s))
  else (Err ChannelBlocked, s).

Definition proposeBlock (clock : nat -> Z) (exec : nat -> Z * Z) (drained : bool) : Ce unit :=
  s ← get;
  proof ← lift (wrap NoVRF (GenerateVRFProof Sha256 (Some key) (vrf_input (currentSlot s) (currentEpoch s))));
  built ← on_node (fun _ => NoBlockBuilt) (ep_ProposeBlockWithVRF clock (currentSlot s) (currentEpoch s) (vrf_Output proof) (vrf_Proof proof));
  signed ← signBlock built;
  added ← on_node (fun _ => NotAdded) (ep_AddBlock exec signed);
  s ← get;
  proposal ← lift (wrap BlockMessage (signBlockProposal Keccak256 (ec_ChainID cfg) key
                (MkBlockProposal (Some added) (proposer_key nodeAddress) (currentSlot s) (currentEpoch s) [])));
  let block := MkBlock (blk_Header added) (blk_Transactions added) (blk_Hash added) (blk_Signature added) (bp_Signature proposal) in
  _ ← offer drained (ProposalMsg (MkBlockProposal (Some block) (bp_Proposer proposal) (bp_Slot proposal) (bp_Epoch proposal) (bp_Signature proposal)));
  _ ← cut 8 (blk_Hash block);
  _ ← header_of block;
  mret tt.

(** ** Attestations *)

Definition attestation_key (address : string) (slot : Z) : string := address +:+ "-" +:+ String10 slot.
Definition enqueueAttestation (a : Attestation) : Ce bool := fun s =>
  if room s then (Ok true, ce_send (AttestationMsg a) (currentEpoch s) s) else (Ok false, s).
Definition createAttestation (now : Z) : Ce unit :=
  s ← get;
  if (currentEpoch s <=? lastAttestedEpoch s) && (0 <? currentSlot s) then mret tt
  else
    head ← GetCurrentBlock;
    match head with
    | None => throw NoHead
    | Some b =>
        h ← header_of b;
        s ← get;
        let a := MkAttestation nodeAddress (blk_Hash b) (hdr_Index h) (currentEpoch s) (currentSlot s) [] (Unix now) in
        signature ← lift (wrap BlockMessage (signAttestation Keccak256 (ec_ChainID cfg) key a));
        let a := with_signature signature a in
        _ ← modify (ce_store_attestation (attestation_key nodeAddress (currentSlot s)) a);
        queued ← enqueueAttestation a;
        refuse_if (negb queued) ChannelFull
    end.

Definition validateAttestation (now1 now2 : Z) (a : Attestation) : Ce unit :=
  s ← get;
  match find_validator s (att_ValidatorAddress a) with
  | None => throw AttesterUnknown
  | Some v =>
      _ ← refuse_if (negb (val_Active v)) AttesterInactive;
      r ← try_node (sl_IsValidatorActive now1 (att_ValidatorAddress a));
      _ ← refuse_if (negb match r with Ok b => b | _ => false end) AttesterJailed;
      s ← get;
      _ ← lift (wrap BlockMessage (verifyAttestationSignature (Pub:=Pub) Keccak256 (ec_ChainID cfg) (find_validator s) a));
      refuse_if (whole_seconds (ec_MaxTimestampAge cfg) <? i64 (Unix now2 - att_Timestamp a)) AttestationTooOld
  end.

(** *** The slot *)

(** How the first part of [processSlot] ends. *)
Inductive gate : Type := Leave | Pause | Go.
Definition slot_gate (clock : nat -> Z) : Ce gate :=
  height ← GetHeight;
  _ ← (if height <? 50 then initializeValidatorSet clock else mret tt);
  s ← get;
  let required := if 0 <? ec_MinActiveValidators cfg then ec_MinActiveValidators cfg else 1 in
  if Z.of_nat (size (vs_validators (validatorSet s))) <? required then mret Leave
  else if isSyncing s then mret Leave
  else if validatorsSynced s then mret Go
  else _ ← modify (ce_set_synced true (isSyncing s)); mret Pause.

(** An error of [m] is handled by the caller. *)
Definition attempt {A} (m : Ce A) : Ce (option A) := fun s =>
  match m s with
  | (Ok a, s') => (Ok (Some a), s')
  | (Err _, s') => (Ok None, s')
  | (Panic, s') => (Panic, s')
  | (Hang, s') => (Hang, s')
  end.

Definition track_previous (clock : nat -> Z) : Ce unit :=
  s ← get;
  height ← GetHeight;
  if (0 <? currentSlot s) && (100 <=? height) then
    expected ← attempt (getSlotProposer clock (currentSlot s));
    match expected with
    | None => mret tt
    | Some proposer =>
        current ← GetCurrentBlock;
        produced ← (match current with
                    | None => mret false
                    | Some b => h ← header_of b; mret (hdr_Slot h =? currentSlot s)
                    end);
        updateValidatorActivity (clock 0%nat) proposer produced
    end
  else mret tt.

(** The slot advances; the proposer, whether it is this node, and the height. *)
Definition slot_assign (clock : nat -> Z) : Ce (option (string * bool * Z)) :=
  _ ← try_node (ep_ProcessUnbondingQueue (clock 0%nat));
  _ ← track_previous clock;
  _ ← modify (fun s => let slot := u64 (currentSlot s + 1) in ce_set_slot slot (slot / slotsPerEpoch) s);
  s ← get;
  chosen ← attempt (getSlotProposer clock (currentSlot s));
  match chosen with
  | None => mret None
  | Some proposer =>
      active ← active_now (clock 0%nat) proposer;
      final ← (if active : bool then mret (Some proposer)
               else
                 fallback ← getEligibleProposers clock false;
                 if (length fallback =? 0)%nat then mret (Some proposer)
                 else attempt (getSlotProposer clock (currentSlot s)));
      match final with
      | None => mret None
      | Some proposer =>
          height ← GetHeight;
          _ ← cut 10 proposer;
          mret (Some (proposer, bool_decide (proposer = nodeAddress), height))
      end
  end.

(** [processSlot] up to the propagation pause, or up to the first unlock. *)
Definition processSlot_enter (clock : nat -> Z) : Ce (gate * option (string * bool * Z)) :=
  ce_locked W
    (g ← slot_gate clock;
     match g with
     | Go => r ← slot_assign clock; mret (Go, r)
     | _ => mret (g, None)
     end).
(** After the pause. *)
Definition processSlot_resume (clock : nat -> Z) : Ce (option (string * bool * Z)) := ce_locked W (slot_assign clock).

(** The part without the mutex. *)
Definition processSlot_propose (clock : nat -> Z) (exec : nat -> Z * Z) (drained : bool) (turn : string * bool * Z) : Ce unit :=
  let '(proposer, mine, height) := turn in
  if mine : bool then
    r ← attempt (proposeBlock clock exec drained);
    match r with
    | Some _ => ce_locked W (modify (ce_count 1 0 0))
    | None => if 100 <=? height then ce_locked W (modify (ce_count 0 1 0)) else mret tt
    end
  else _ ← cut 8 proposer; cut 8 nodeAddress.

(** The attestation, and the copy that is worked through afterwards. *)
Definition processSlot_attest (now : Z) : Ce (gmap string Attestation) :=
  ce_locked W
    (mine ← isCurrentNodeValidator;
     _ ← (if mine : bool then
            r ← attempt (createAttestation now);
            match r with Some _ => modify (ce_count 0 0 1) | None => mret tt end
          else mret tt);
     s ← get;
     mret (attestations s)).

Definition processAttestation_async (now1 now2 : Z) (a : Attestation) : Ce unit :=
  valid ← attempt (validateAttestation now1 now2 a);
  match valid with
  | None => mret tt
  | Some _ =>
      r ← try_node (sl_ProcessAttestation now2 a);
      if is_ok r then _ ← on_fork (ProcessAttestation (ec_forkChoice cfg) (ec_limits cfg) now2 a); mret tt else mret tt
  end.
Fixpoint process_attestations (clock : nat -> Z * Z) (i : nat) (l : list Attestation) : Ce unit :=
  match l with
  | [] => mret tt
  | a :: l => _ ← processAttestation_async (fst (clock i)) (snd (clock i)) a; process_attestations clock (S i) l
  end.
Definition processAttestationsAsync (clock : nat -> Z * Z) (copy : gmap string Attestation) : Ce unit :=
  process_attestations clock 0 (omap (fun k => copy !! k) (map_order copy)).

(** ** Following the fork choice *)

(** The blocks of the path, oldest first, without the ancestor at its end. *)
Fixpoint load_path (path : list string) : Ce (option (list Block)) :=
  match path with
  | [] => mret (Some [])
  | hash :: rest =>
      found ← try_node (on_db (find_block (E:=unit) hash));
      match found with
      | Ok (Some b) => blocks ← load_path rest; mret (cons b <$> blocks)
      | _ => _ ← cut 8 hash; mret None
      end
  end.
Definition reorg_to (exec : nat -> nat -> Z * Z) (now : Z) (head current : string) : Ce unit :=
  ancestor ← try_node (on_db (getCommonAncestor head current));
  match ancestor with
  | Ok ancestor =>
      path ← try_node (on_db (getChainPath head ancestor));
      match path with
      | Ok path =>
          blocks ← load_path (rev (removelast path));
          match blocks with
          | Some (b :: bs) =>
              r ← try_node (ep_ReorganizeChain exec now (b :: bs));
              if is_ok r then cut 8 head else panic
          | _ => mret tt
          end
      | _ => mret tt
      end
  | _ => _ ← cut 8 head; cut 8 current
  end.
(** The percentage of the stake is only logged. *)
Definition updateForkChoice (exec : nat -> nat -> Z * Z) (now : Z) : Ce unit :=
  head ← on_fork (read_fork (fun rd => GetHead rd));
  match head with
  | Ok head =>
      if bool_decide (head = "") then mret tt
      else
        viable ← on_fork (read_fork (fun rd => IsViableChain rd head));
        if negb match viable with Ok b => b | _ => false end then cut 8 head
        else
          current ← GetCurrentBlock;
          match current with
          | None => cut 8 head
          | Some c =>
              if bool_decide (head = blk_Hash c) then mret tt
              else
                quorum ← on_fork (read_fork (fun rd => HasQuorum (ec_forkChoice cfg) rd now head));
                _ ← on_fork (read_fork (fun rd => GetTotalActiveStake (ec_forkChoice cfg) rd now));
                _ ← cut 8 head;
                if match quorum with Ok b => b | _ => false end then reorg_to exec now head (blk_Hash c) else mret tt
          end
  | _ => mret tt
  end.

(** ** Messages *)

(** An error is logged and the message dropped. *)
Definition logged (m : Ce unit) : Ce unit := _ ← attempt m; mret tt.

(** The second validation sees the block as the first one left it. *)
Definition receive_block (clock : nat -> Z) (clk : nat -> nat -> clocks) (exec : nat -> Z * Z) (p : BlockProposal) : Ce unit :=
  s ← get;
  _ ← lift (wrap BlockMessage (verifyProposalSignature (Pub:=Pub) Keccak256 (ec_ChainID cfg) (find_validator s) p));
  _ ← lift (wrap BlockMessage (VerifyBlockWithSignatures (Pub:=Pub) Keccak256 (ec_ChainID cfg) (find_validator s) (Unix (clock 4%nat)) (bp_Block p)));
  b ← ValidateBlock clock (clk 0%nat) (bp_Block p);
  b ← ValidateBlock clock (clk 1%nat) (Some b);
  expected ← getSlotProposer clock (bp_Slot p);
  _ ← refuse_if (negb (bool_decide (expected = bp_Proposer p))) (ProposerMismatch expected);
  _ ← on_node (fun _ => NotAdded) (ep_AddBlock exec b);
  mret tt.
Definition handleBlockProposal (clock : nat -> Z) (clk : nat -> nat -> clocks) (exec : nat -> Z * Z) (p : BlockProposal) : Ce unit :=
  ce_locked W (logged (receive_block clock clk exec p)).

Definition handleAttestation (now1 now2 now3 : Z) (a : Attestation) : Ce unit :=
  ce_locked W (logged
    (s ← get;
     _ ← lift (wrap BlockMessage (verifyAttestationSignature (Pub:=Pub) Keccak256 (ec_ChainID cfg) (find_validator s) a));
     _ ← validateAttestation now1 now2 a;
     _ ← modify (ce_store_attestation (attestation_key (att_ValidatorAddress a) (att_Slot a)) a);
     _ ← on_fork (ProcessAttestation (ec_forkChoice cfg) (ec_limits cfg) now3 a);
     mret tt)).

Definition validateVote (v : Vote) : Ce unit :=
  s ← get;
  match find_validator s (vote_ValidatorAddress v) with
  | None => throw VoterUnknown
  | Some w =>
      _ ← refuse_if (negb (val_Active w)) VoterInactive;
      refuse_if (vote_TargetEpoch v <=? vote_SourceEpoch v) EpochsOutOfOrder
  end.
Definition handleVote (now : Z) (v : Vote) : Ce unit :=
  ce_locked W (logged
    (s ← get;
     _ ← lift (wrap BlockMessage (verifyVoteSignature (Pub:=Pub) Keccak256 (ec_ChainID cfg) (find_validator s) v));
     voted ← try_node (on_db (HasVoted (vote_TargetEpoch v) (vote_ValidatorAddress v)));
     if match voted with Ok b => b | _ => false end then mret tt
     else
       _ ← validateVote v;
       r ← try_node (ep_ProcessVote now v);
       match r with
       | Err e =>
           match ep_surround e with
           | Some (inner, outer) => _ ← try_node (ep_ApplySurroundVoteSlashing now inner outer); mret tt
           | None => mret tt
           end
       | _ =>
           saved ← try_node (on_db (SaveConsensusVote v));
           if is_ok saved then modify (ce_store_vote (attestation_key (vote_ValidatorAddress v) (vote_TargetEpoch v)) v) else mret tt
       end)).

(** The readings of the clock for one message. *)
Record readings : Type := MkReadings {
  rd_clock : nat -> Z;
  rd_clocks : nat -> nat -> clocks;
  rd_exec : nat -> Z * Z
}.
(** One round of the loop over [receiveChan]. *)
Definition messageHandler (on_evidence : SlashingEvidence -> Ce unit) (t : readings) (m : message) : Ce unit :=
  match m with
  | ProposalMsg p => handleBlockProposal (rd_clock t) (rd_clocks t) (rd_exec t) p
  | AttestationMsg a => handleAttestation (rd_clock t 0%nat) (rd_clock t 1%nat) (rd_clock t 2%nat) a
  | VoteMsg v => handleVote (rd_clock t 0%nat) v
  | EvidenceMsg e => on_evidence e
  | TypesVoteMsg _ => mret tt
  end.

(** ** Validators announced by peers *)

Definition set_Pubkey (pk : list byte) (v : Validator) : Validator :=
  let '(MkValidator ad _ nm de we st ss ds dl co ac bp bm ju cr up) := v in
  MkValidator ad pk nm de we st ss ds dl co ac bp bm ju cr up.

Definition update_logged (v : Validator) : GoM registry ce_err unit := fun g =>
  let '(r, g') := UpdateValidator v g in (match r with Panic => Panic | Hang => Hang | _ => Ok tt end, g').
(** The registered validator is the object of the world state: its key changes in
    place, whatever [UpdateValidator] answers then. *)
Definition RegisterDiscoveredValidator (now1 now2 : Z) (validator : option Validator) : GoM registry ce_err unit :=
  match validator with
  | None => throw NilAnnouncement
  | Some v =>
      _ ← refuse_if (bool_decide (val_Address v = "")) AnnouncedNoAddress;
      _ ← refuse_if (length (val_Pubkey v) =? 0)%nat AnnouncedNoKey;
      g ← get;
      match reg_validators g !! val_Address v with
      | Some existing =>
          if bool_decide (val_Pubkey existing = val_Pubkey v) then mret tt
          else
            let existing := set_Pubkey (val_Pubkey v) existing in
            _ ← modify (fun g => MkRegistry (<[val_Address v := existing]> (reg_validators g)) (reg_db g));
            update_logged existing
      | None =>
          _ ← refuse_if (stake_of v <=? 0) AnnouncedNoStake;
          wrapM AnnouncedRefused (AddValidator (ec_MinValidatorStake cfg) now1 now2 (Some v))
      end
  end.
Fixpoint SyncValidators (clock : nat -> Z * Z) (i : nat) (l : list (option Validator)) : GoM registry ce_err unit :=
  match l with
  | [] => mret tt
  | v :: l => fun g =>
      match RegisterDiscoveredValidator (fst (clock i)) (snd (clock i)) v g with
      | (Err _, g') => match v with None => (Panic, g') | Some _ => SyncValidators clock (S i) l g' end
      | (Ok _, g') => SyncValidators clock (S i) l g'
      | (Panic, g') => (Panic, g')
      | (Hang, g') => (Hang, g')
      end
  end.
Definition announce (now1 now2 : Z) (validator : option Validator) : Ce unit :=
  on_node id (on_registry (RegisterDiscoveredValidator now1 now2 validator)).
End Engine.

(** ** The bridge to the network (src/consensus/pos/bridge.go) *)

Inductive network_event : Type :=
| NetBlock (block : option Block)
| NetAttestation (a : Attestation)
| NetVote (v : Vote)
| NetOther.
(** What reaches [receiveChan]. *)
Definition forwardNetworkToConsensus {E} (e : network_event) : outcome E (option message) :=
  match e with
  | NetBlock None => Panic
  | NetBlock (Some b) =>
      match blk_Header b with
      | None => Panic
      | Some h => Ok (Some (ProposalMsg (MkBlockProposal (Some b) (hdr_Validator h) (hdr_Slot h) (hdr_Epoch h) (blk_ProposalSignature b))))
      end
  | NetAttestation a => Ok (Some (AttestationMsg a))
  | NetVote v => Ok (Some (TypesVoteMsg v))
  | NetOther => Ok None
  end.

Inductive bridge_err : Type := NilProposalBlock | BroadcastFailed | UnknownMessage.
Inductive published : Type := PublishBlock (b : Block) | PublishAttestation (a : Attestation) | PublishVote (v : Vote).
(** [accepted]: what the network answers. *)
Definition handleConsensusMessage (accepted : bool) (m : message) : outcome bridge_err published :=
  let publish p := if accepted then Ok p else Err BroadcastFailed in
  match m with
  | ProposalMsg p => match bp_Block p with None => Err NilProposalBlock | Some b => publish (PublishBlock b) end
  | AttestationMsg a => publish (PublishAttestation a)
  | VoteMsg v => publish (PublishVote v)
  | TypesVoteMsg _ | EvidenceMsg _ => Err UnknownMessage
  end.
