(* ===== verification/EngineSpec.v ===== *)
(** * What the consensus engine does

    The engine with its goroutines: the slot loop with its three locked parts, the
    loop over the received messages, the attestation work that a slot leaves behind
    and the bridge to the network, interleaved in any order.  A node attests at
    most once per epoch and no vote of a peer is ever counted; the handler of proposals
    never adds a block, since its validation waits for the mutex that the handler
    holds; and whoever announces a validator replaces its key. *)

From S2P Require Import Prelude SafeMath Uint256 Address Storage ShardedLock Governance Domains TxValidator.
From S2P Require Import Hashes Keys Wire ForkChoice SlashStore Slashing Floats Selection BlockDB Timing Traversal Messages Proposer Engine.
From stdpp Require Import base tactics numbers list gmap strings sorting relations.
From Stdlib Require Import ZArith Lia Strings.Byte Strings.Ascii.
Open Scope Z_scope.
Open Scope list_scope.

(** ** Frames *)

Definition frame {S X E A} (f : S -> X) (m : GoM S E A) : Prop := forall s, f (snd (m s)) = f s.

Section Frames.
Context {S X E : Type} (f : S -> X).

Lemma frame_ret {A} (a : A) : frame f (mret a : GoM S E A).
Proof. by intros s. Qed.
Lemma frame_throw {A} e : frame f (throw e : GoM S E A).
Proof. by intros s. Qed.
Lemma frame_panic {A} : frame f (panic : GoM S E A).
Proof. by intros s. Qed.
Lemma frame_lift {A} r : frame f (lift r : GoM S E A).
Proof. by intros s. Qed.
Lemma frame_get : frame f (get : GoM S E S).
Proof. by intros s. Qed.
Lemma frame_refuse c e : frame f (refuse_if c e : GoM S E unit).
Proof. by destruct c. Qed.
Lemma frame_modify g : (forall s, f (g s) = f s) -> frame f (modify g : GoM S E unit).
Proof. intros Hg s. apply Hg. Qed.
Lemma frame_bind {A B} (m : GoM S E A) (k : A -> GoM S E B) : frame f m -> (forall a, frame f (k a)) -> frame f (m ≫= k).
Proof.
  intros Hm Hk s. unfold mbind, GoM_bind. specialize (Hm s). destruct (m s) as [[a|e| |] s'] eqn:Hs; simpl in *; [|done..].
  by rewrite Hk.
Qed.
End Frames.

Create HintDb engine_frame discriminated.
#[export] Hint Resolve frame_ret frame_throw frame_panic frame_lift frame_get frame_refuse : engine_frame.

Section Core.
Context {N : Type} `{ports : EnginePorts N}.
Notation engine := (@engine N).
Notation Ce := (GoM engine ce_err).

(** A view of the engine that the node, the fork choice, the validator set, the
    stored attestations, the counters and the flags do not enter. *)
Class Core {X} (f : engine -> X) : Prop := {
  core_node : forall n s, f (ce_set_node n s) = f s;
  core_fork : forall fc n s, f (ce_set_fork fc n s) = f s;
  core_set : forall vs s, f (ce_set_set vs s) = f s;
  core_store : forall k a s, f (ce_store_attestation k a s) = f s;
  core_count : forall i j k s, f (ce_count i j k s) = f s;
  core_activity : forall m s, f (ce_set_activity m s) = f s;
  core_synced : forall a b s, f (ce_set_synced a b s) = f s
}.

Section Views.
Context {X : Type} (f : engine -> X) `{!Core f}.

Lemma frame_on_node {E E' A} (g : E -> E') (m : GoM N E A) : frame f (on_node g m).
Proof. intros s. unfold on_node. destruct (m (ce_node s)). apply core_node. Qed.
Lemma frame_try_node {E A} (m : GoM N E A) : frame f (try_node m).
Proof. intros s. unfold try_node. destruct (m (ce_node s)). apply core_node. Qed.
Lemma frame_on_set {A} (m : GoM ValidatorSet sel_error A) : frame f (on_set m).
Proof. intros s. unfold on_set. destruct (m (validatorSet s)). apply core_set. Qed.
Lemma frame_on_fork {A} (m : GoM (ForkChoice * N) fc_err A) : frame f (on_fork m).
Proof. intros s. unfold on_fork. destruct (m _) as [r [fc n]]. apply core_fork. Qed.
Lemma frame_attempt {A} (m : Ce A) : frame f m -> frame f (attempt m).
Proof. intros Hm s. specialize (Hm s). unfold attempt. by destruct (m s) as [[]]. Qed.
Lemma frame_cut n s : frame f (cut n s).
Proof. unfold cut. case_match; [apply frame_panic|apply frame_ret]. Qed.
Lemma frame_header b : frame f (header_of b : Ce BlockHeader).
Proof. unfold header_of. case_match; [apply frame_ret|apply frame_panic]. Qed.
Lemma frame_current : frame f GetCurrentBlock.
Proof. apply frame_on_node. Qed.
Lemma frame_height : frame f GetHeight.
Proof. apply frame_on_node. Qed.
End Views.
End Core.
#[export] Hint Resolve frame_on_node frame_try_node frame_on_set frame_on_fork frame_cut frame_header frame_current frame_height : engine_frame.

Ltac frame_step := first
  [ progress intros
  | match goal with
    | |- frame _ (_ ≫= _) => apply frame_bind
    | |- frame _ (attempt _) => apply frame_attempt
    | |- frame _ (modify _) => apply frame_modify; intros; first [by apply core_set|by apply core_store|by apply core_count|by apply core_activity|by apply core_synced]
    | |- frame _ (if ?c then _ else _) => destruct c
    | |- frame _ (match ?x with _ => _ end) => destruct x
    | |- frame _ (let '_ := ?x in _) => destruct x
    end
  | solve [eauto with engine_frame] ].
Ltac framed := repeat frame_step.

Section Steps.
Context `{MapOrder} {N : Type} `{Slasher N} `{ports : EnginePorts N} {Pub Priv : Type} `{Secp256k1 Pub Priv}.
Context (Keccak256 Sha256 : list byte -> list byte) (cfg : EngineConfig) (key : @PrivateKeyImpl Priv) (nodeAddress : string).
Notation engine := (@engine N).
Notation Ce := (GoM engine ce_err).

Section Operations.
Context {X : Type} (f : engine -> X) `{!Core f}.

Lemma frame_structure now b h : frame f (engine_validateBlockStructure cfg now b h).
Proof. unfold engine_validateBlockStructure. framed. Qed.
Lemma frame_hash b : frame f (validateBlockHash Keccak256 b : Ce unit).
Proof. unfold validateBlockHash. framed. Qed.
Lemma frame_signature now b h : frame f (validateBlockSignature (Pub:=Pub) Keccak256 cfg now b h).
Proof. unfold validateBlockSignature. framed. Qed.
Lemma frame_slot_time now h : frame f (validateSlotTime cfg now h).
Proof. unfold validateSlotTime. framed. Qed.
Lemma frame_vrf h : frame f (validateVRFProof (Pub:=Pub) Sha256 h).
Proof. unfold validateVRFProof. framed. Qed.
Lemma frame_transactions clk txs : forall i, frame f (validateBlockTransactions clk i txs).
Proof. induction txs; intros i; cbn [validateBlockTransactions]; framed. Qed.
Lemma frame_gas txs h : frame f (validateGasUsage cfg txs h : Ce unit).
Proof. unfold validateGasUsage. framed. Qed.
Lemma frame_proposer now h : frame f (validateProposer now h).
Proof. unfold validateProposer. framed. Qed.
Hint Resolve frame_structure frame_hash frame_signature frame_slot_time frame_vrf frame_transactions frame_gas frame_proposer : engine_frame.
Lemma frame_check_block clock clk b h : frame f (check_block (Pub:=Pub) Keccak256 Sha256 cfg clock clk b h).
Proof. unfold check_block. framed. Qed.

Lemma frame_active now a : frame f (active_now now a).
Proof. intros s. unfold active_now. case_match; [|done]. by apply frame_bind; framed. Qed.
Hint Resolve frame_active : engine_frame.
Lemma frame_keep_active clock l : forall i, frame f (keep_active clock i l).
Proof. induction l; intros i; cbn [keep_active]; framed. Qed.
Hint Resolve frame_keep_active : engine_frame.
Lemma frame_eligible clock b : frame f (getEligibleProposers clock b).
Proof. unfold getEligibleProposers. framed. Qed.
Hint Resolve frame_eligible : engine_frame.
Lemma frame_slot_proposer clock slot : frame f (getSlotProposer Keccak256 clock slot).
Proof. unfold getSlotProposer. framed. Qed.
Lemma frame_candidates clock l : forall i, frame f (add_candidates clock i l).
Proof. induction l; intros i; cbn [add_candidates]; framed. Qed.
Hint Resolve frame_slot_proposer frame_candidates : engine_frame.
Lemma frame_initialize clock : frame f (initializeValidatorSet clock).
Proof. unfold initializeValidatorSet. framed. Qed.
Lemma frame_tracking now a b : frame f (updateValidatorActivity now a b).
Proof. unfold updateValidatorActivity. framed. Qed.
Hint Resolve frame_initialize frame_tracking : engine_frame.
Lemma frame_gate clock : frame f (slot_gate cfg clock).
Proof. unfold slot_gate. framed. Qed.
Lemma frame_previous clock : frame f (track_previous Keccak256 clock).
Proof. unfold track_previous. framed. Qed.
Lemma frame_sign_block b : frame f (signBlock Keccak256 cfg key nodeAddress b : Ce Block).
Proof. unfold signBlock. framed. Qed.
Lemma frame_validate_attestation now1 now2 a : frame f (validateAttestation (Pub:=Pub) Keccak256 cfg now1 now2 a).
Proof. unfold validateAttestation. framed. Qed.
Hint Resolve frame_gate frame_previous frame_sign_block frame_validate_attestation : engine_frame.
Lemma frame_async now1 now2 a : frame f (processAttestation_async (Pub:=Pub) Keccak256 cfg now1 now2 a).
Proof. unfold processAttestation_async. framed. Qed.
Lemma frame_load path : frame f (load_path path).
Proof. induction path; cbn [load_path]; framed. Qed.
Hint Resolve frame_load : engine_frame.
Lemma frame_reorg exec now head current : frame f (reorg_to exec now head current).
Proof. unfold reorg_to. framed. Qed.
Hint Resolve frame_reorg : engine_frame.
Lemma frame_update exec now : frame f (updateForkChoice cfg exec now).
Proof. unfold updateForkChoice. framed. Qed.
Lemma frame_announce now1 now2 v : frame f (announce cfg now1 now2 v).
Proof. unfold announce. framed. Qed.
End Operations.

(** ** Blocks of peers *)

#[local] Instance mu_core : Core (ce_mu (N:=N)).
Proof. by split. Qed.

Lemma check_block_mu clock clk b h s : ce_mu (snd (check_block (Pub:=Pub) Keccak256 Sha256 cfg clock clk b h s)) = ce_mu s.
Proof. apply (frame_check_block ce_mu). Qed.
Lemma held_waits {E A} m (body : GoM engine E A) s : writer (ce_mu s) = true -> ce_locked m body s = (Hang, s).
Proof. intros Hw. unfold ce_locked, mutex_call. rewrite Hw. by destruct m. Qed.

(** What [ValidateBlock] comes to while the mutex is held for writing. *)
Definition stuck_validation clock clk (b : option Block) : Ce Block :=
  match b with
  | None => throw BlockMissing
  | Some b =>
      match blk_Header b with
      | None => throw HeaderMissing
      | Some h => fun s => match check_block (Pub:=Pub) Keccak256 Sha256 cfg clock clk b h s with (Ok _, s') => (Hang, s') | r => r end
      end
  end.
Lemma ValidateBlock_held clock clk b s : writer (ce_mu s) = true ->
  ValidateBlock (Pub:=Pub) Keccak256 Sha256 cfg clock clk b s = stuck_validation clock clk b s.
Proof.
  intros Hw. unfold ValidateBlock, stuck_validation. destruct b as [b|]; [|done]. destruct (blk_Header b) as [h|]; [|done].
  pose proof (check_block_mu clock clk b h s) as Hmu. unfold mbind, GoM_bind. revert Hmu.
  destruct (check_block _ _ _ clock clk b h s) as [[b'|e| |] s'] eqn:Hc; simpl; intros Hmu; try done.
  unfold check_state_root, IsSyncing, mbind, GoM_bind. rewrite held_waits by (by rewrite Hmu). done.
Qed.
Lemma stuck_not_ok clock clk b s x s' : stuck_validation clock clk b s <> (Ok x, s').
Proof. unfold stuck_validation, throw. by repeat case_match. Qed.

Definition stuck_block clock (clk : nat -> nat -> clocks) p : Ce unit :=
  s ← get;
  _ ← lift (wrap BlockMessage (verifyProposalSignature (Pub:=Pub) Keccak256 (ec_ChainID cfg) (find_validator s) p));
  _ ← lift (wrap BlockMessage (VerifyBlockWithSignatures (Pub:=Pub) Keccak256 (ec_ChainID cfg) (find_validator s) (Unix (clock 4%nat)) (bp_Block p)));
  _ ← stuck_validation clock (clk 0%nat) (bp_Block p);
  mret tt.
Lemma receive_block_held clock clk exec p s : writer (ce_mu s) = true ->
  receive_block (Pub:=Pub) Keccak256 Sha256 cfg clock clk exec p s = stuck_block clock clk p s.
Proof.
  intros Hw. unfold receive_block, stuck_block, mbind, GoM_bind. simpl.
  unfold lift. destruct (wrap BlockMessage _) as [[]|e| |]; try done.
  destruct (wrap BlockMessage _) as [[]|e| |]; try done.
  rewrite ValidateBlock_held by done. destruct (stuck_validation clock (clk 0%nat) (bp_Block p) s) as [[b|e| |] s'] eqn:Hs; try done.
  by apply stuck_not_ok in Hs.
Qed.
End Steps.
#[export] Hint Resolve frame_structure frame_hash frame_signature frame_slot_time frame_vrf frame_transactions frame_gas frame_proposer frame_active frame_keep_active frame_eligible frame_slot_proposer frame_candidates frame_initialize frame_tracking frame_gate frame_previous frame_sign_block frame_validate_attestation frame_load frame_reorg frame_check_block frame_async frame_update frame_announce : engine_frame.

Section Peers.
Context `{MapOrder} {N : Type} `{Slasher N} `{ports : EnginePorts N} {Pub Priv : Type} `{Secp256k1 Pub Priv}.
Context (Keccak256 Sha256 : list byte -> list byte) (cfg : EngineConfig) (key : @PrivateKeyImpl Priv) (nodeAddress : string).
Notation engine := (@engine N).
Notation Ce := (GoM engine ce_err).

(** The interface with another [AddBlock]. *)
Definition with_AddBlock (add : (nat -> Z * Z) -> Block -> GoM N ep_err Block) : EnginePorts N := {|
  ep_err := ep_err; ep_registry := ep_registry; ep_put_registry := ep_put_registry; ep_GetHeight := ep_GetHeight;
  ep_GetCurrentBlock := ep_GetCurrentBlock; ep_ValidateTransaction := ep_ValidateTransaction; ep_SimulateStateRoot := ep_SimulateStateRoot;
  ep_AddBlock := add; ep_ProcessUnbondingQueue := ep_ProcessUnbondingQueue; ep_ReorganizeChain := ep_ReorganizeChain;
  ep_ProposeBlockWithVRF := ep_ProposeBlockWithVRF; ep_ReportBlockWithholding := ep_ReportBlockWithholding; ep_ProcessVote := ep_ProcessVote;
  ep_surround := ep_surround; ep_ApplySurroundVoteSlashing := ep_ApplySurroundVoteSlashing
|}.

(** The signatures of the proposal and of its block. *)
Definition signatures_ok (now : Z) (p : BlockProposal) (s : engine) : bool :=
  is_ok (verifyProposalSignature (Pub:=Pub) Keccak256 (ec_ChainID cfg) (find_validator s) p) &&
  is_ok (VerifyBlockWithSignatures (Pub:=Pub) Keccak256 (ec_ChainID cfg) (find_validator s) (Unix now) (bp_Block p)).

(** C13. The engine's handler of proposals never adds a block.  Whatever the state, what
    [handleBlockProposal] does with a received proposal does not depend on what
    [AddBlock] does: it is not called.  When the block passes every check up to the
    state root, the handler waits for the mutex [ce.mu] that it holds itself, and from
    then on every method that takes [ce.mu] waits too.  (The node's own loop over the
    blocks of peers, which also calls [AddBlock], is not part of the engine.) *)
Theorem proposal_handler_never_adds (clock : nat -> Z) (clk : nat -> nat -> clocks) (exec : nat -> Z * Z) (p : BlockProposal) (s : engine) :
  (forall add, handleBlockProposal (ports:=with_AddBlock add) (Pub:=Pub) Keccak256 Sha256 cfg clock clk exec p s =
               handleBlockProposal (Pub:=Pub) Keccak256 Sha256 cfg clock clk exec p s) /\
  (ce_mu s = unlocked -> forall b h b' s1, bp_Block p = Some b -> blk_Header b = Some h -> signatures_ok (clock 4%nat) p s = true ->
   check_block (Pub:=Pub) Keccak256 Sha256 cfg clock (clk 0%nat) b h (ce_set_mu (MkRW true 0) s) = (Ok b', s1) ->
   handleBlockProposal (Pub:=Pub) Keccak256 Sha256 cfg clock clk exec p s = (Hang, s1) /\
   forall E A m (body : GoM engine E A), ce_locked m body s1 = (Hang, s1)).
Proof.
  split.
  - intros add. unfold handleBlockProposal, ce_locked. destruct (mutex_call true W (ce_mu s)) as [[l|e| |]|] eqn:Hl; try done.
    assert (Hw : writer l = true) by (unfold mutex_call in Hl; by case_match; simplify_eq).
    unfold logged, mbind, GoM_bind, attempt.
    by rewrite (receive_block_held (ports:=with_AddBlock add)), (receive_block_held (ports:=ports)).
  - intros Hmu b h b' s1 Hb Hh [Hp Hv]%andb_prop Hc.
    assert (Hw : writer (ce_mu s1) = true).
    { pose proof (check_block_mu Keccak256 Sha256 cfg clock (clk 0%nat) b h (ce_set_mu (MkRW true 0) s)) as Hf. rewrite Hc in Hf. simpl in Hf. by rewrite Hf. }
    split; [|intros; by apply held_waits].
    unfold handleBlockProposal, ce_locked. rewrite Hmu. simpl. unfold logged, mbind, GoM_bind, attempt.
    rewrite receive_block_held by done. unfold stuck_block, mbind, GoM_bind, lift, get.
    destruct (verifyProposalSignature _ _ _ p) as [[]| | |]; try done. destruct (VerifyBlockWithSignatures _ _ _ _ _) as [[]| | |]; try done.
    simpl. unfold stuck_validation. rewrite Hb, Hh, Hc. done.
Qed.
End Peers.

(** A view of the node that reading and validating leave alone. *)
Class Kept {N Y : Type} `{ports : EnginePorts N} (g : N -> Y) : Prop := {
  kept_current : frame g ep_GetCurrentBlock;
  kept_transaction : forall clk tx, frame g (ep_ValidateTransaction clk tx);
  kept_registry : forall r n, g (ep_put_registry r n) = g n
}.

Section Kept.
Context `{MapOrder} {N : Type} `{Slasher N} `{ports : EnginePorts N} {Pub Priv : Type} `{Secp256k1 Pub Priv}.
Context (Keccak256 Sha256 : list byte -> list byte) (cfg : EngineConfig) {Y : Type} (g : N -> Y) `{!Kept g}.
Notation engine := (@engine N).
Notation Ce := (GoM engine ce_err).
Definition behind (s : engine) : Y := g (ce_node s).

Lemma kept_on_node {E E' A} (e : E -> E') (m : GoM N E A) : frame g m -> frame behind (on_node e m).
Proof. intros Hm s. specialize (Hm (ce_node s)). unfold on_node. by destruct (m (ce_node s)). Qed.
Lemma kept_try_db {E A} (m : GoM KV E A) : frame behind (try_node (on_db m)).
Proof. intros s. unfold try_node, on_db, behind. destruct (m _). simpl. apply kept_registry. Qed.
Lemma kept_head : frame behind GetCurrentBlock.
Proof. apply kept_on_node, kept_current. Qed.
Lemma kept_header b : frame behind (header_of b : Ce BlockHeader).
Proof. unfold header_of. case_match; [apply frame_ret|apply frame_panic]. Qed.
Hint Resolve kept_try_db kept_head kept_header : engine_frame.
Lemma kept_transactions clk txs : forall i, frame behind (validateBlockTransactions clk i txs).
Proof.
  induction txs as [|tx txs IH]; intros i; cbn [validateBlockTransactions]; [framed|].
  apply frame_bind; [apply kept_on_node, kept_transaction|]. framed.
Qed.
Hint Resolve kept_transactions : engine_frame.
Lemma kept_check_block clock clk b h : frame behind (check_block (Pub:=Pub) Keccak256 Sha256 cfg clock clk b h).
Proof.
  unfold check_block, engine_validateBlockStructure, validateBlockHash, validateBlockSignature, validateSlotTime, validateVRFProof, validateGasUsage, validateProposer.
  framed.
Qed.
Lemma kept_stuck clock clk b : frame behind (stuck_validation (Pub:=Pub) Keccak256 Sha256 cfg clock clk b).
Proof.
  unfold stuck_validation. destruct b as [b|]; [|framed]. destruct (blk_Header b) as [h|]; [|framed]. intros s.
  pose proof (kept_check_block clock clk b h s) as F. by destruct (check_block _ _ _ _ _ _ _ s) as [[]].
Qed.
Hint Resolve kept_stuck : engine_frame.
Lemma frame_stuck_block clock clk p : frame behind (stuck_block (Pub:=Pub) Keccak256 Sha256 cfg clock clk p).
Proof. unfold stuck_block. framed. Qed.
Lemma frame_handle_proposal clock clk exec p : frame behind (handleBlockProposal (Pub:=Pub) Keccak256 Sha256 cfg clock clk exec p).
Proof.
  intros s. unfold handleBlockProposal, ce_locked. destruct (mutex_call true W (ce_mu s)) as [[l|e| |]|] eqn:Hl; try done.
  assert (Hw : writer l = true) by (unfold mutex_call in Hl; by case_match; simplify_eq).
  unfold logged, attempt, mbind, GoM_bind. rewrite receive_block_held by done. pose proof (frame_stuck_block clock clk p (ce_set_mu l s)) as F.
  destruct (stuck_block _ _ _ _ _ p (ce_set_mu l s)) as [r s1]. simpl in F.
  destruct r; simpl; repeat case_match; simplify_eq; exact F.
Qed.
End Kept.

(** ** The running engine *)

Section Running.
Context `{MapOrder} {N : Type} `{Slasher N} `{ports : EnginePorts N} {Pub Priv : Type} `{Secp256k1 Pub Priv}.
Context (Keccak256 Sha256 : list byte -> list byte) (cfg : EngineConfig) (key : @PrivateKeyImpl Priv) (nodeAddress : string).
Context (on_evidence : SlashingEvidence -> GoM (@engine N) ce_err unit).
Notation engine := (@engine N).
Notation Ce := (GoM engine ce_err).

(** Where the slot loop stands. *)
Inductive stage : Type :=
| Waiting
| Paused
| Turn (t : string * bool * Z)
| Attesting.
Definition stage_after (r : option (string * bool * Z)) : stage := match r with Some t => Turn t | None => Waiting end.

(** The engine, the slot loop, the received messages, and the attestations that
    the goroutines of earlier slots still have to work through. *)
Record system : Type := MkSystem { sys_engine : engine; sys_stage : stage; sys_inbox : list message; sys_jobs : list (list Attestation) }.
Definition started (s : engine) : system := MkSystem s Waiting [] [].

Definition finished {E A} (r : outcome E A) : Prop := match r with Ok _ | Err _ => True | _ => False end.
Inductive step : system -> system -> Prop :=
| EnterSlot clock e e' inbox jobs g r : processSlot_enter Keccak256 cfg nodeAddress clock e = (Ok (g, r), e') ->
    step (MkSystem e Waiting inbox jobs) (MkSystem e' (match g with Pause => Paused | _ => stage_after r end) inbox jobs)
| ResumeSlot clock e e' inbox jobs r : processSlot_resume Keccak256 nodeAddress clock e = (Ok r, e') ->
    step (MkSystem e Paused inbox jobs) (MkSystem e' (stage_after r) inbox jobs)
| TakeTurn clock exec drained t e e' inbox jobs : processSlot_propose Keccak256 Sha256 cfg key nodeAddress clock exec drained t e = (Ok tt, e') ->
    step (MkSystem e (Turn t) inbox jobs) (MkSystem e' Attesting inbox jobs)
| Attest now e e' inbox jobs copy : processSlot_attest Keccak256 cfg key nodeAddress now e = (Ok copy, e') ->
    step (MkSystem e Attesting inbox jobs) (MkSystem e' Waiting inbox (omap (fun k => copy !! k) (map_order copy) :: jobs))
| WorkAttestation now1 now2 e e' st inbox jobs1 jobs2 a l : processAttestation_async (Pub:=Pub) Keccak256 cfg now1 now2 a e = (Ok tt, e') ->
    step (MkSystem e st inbox (jobs1 ++ (a :: l) :: jobs2)) (MkSystem e' st inbox (jobs1 ++ l :: jobs2))
| FollowForkChoice exec now e e' st inbox jobs1 jobs2 : updateForkChoice cfg exec now e = (Ok tt, e') ->
    step (MkSystem e st inbox (jobs1 ++ [] :: jobs2)) (MkSystem e' st inbox (jobs1 ++ jobs2))
| FromNetwork ev e st inbox jobs m : forwardNetworkToConsensus (E:=unit) ev = Ok (Some m) ->
    step (MkSystem e st inbox jobs) (MkSystem e st (inbox ++ [m]) jobs)
| HandleMessage t m e e' st inbox jobs : messageHandler (Pub:=Pub) Keccak256 Sha256 cfg on_evidence t m e = (Ok tt, e') ->
    step (MkSystem e st (m :: inbox) jobs) (MkSystem e' st inbox jobs)
| Announced now1 now2 v e e' r st inbox jobs : announce cfg now1 now2 v e = (r, e') -> finished r ->
    step (MkSystem e st inbox jobs) (MkSystem e' st inbox jobs)
| NetworkTakes k e st inbox jobs : step (MkSystem e st inbox jobs) (MkSystem (ce_take k e) st inbox jobs)
| Reinitialized clock e e' st inbox jobs : ReinitializeValidatorSet clock e = (Ok tt, e') ->
    step (MkSystem e st inbox jobs) (MkSystem e' st inbox jobs)
| SyncingSet b e e' st inbox jobs : SetSyncing b e = (Ok tt, e') ->
    step (MkSystem e st inbox jobs) (MkSystem e' st inbox jobs).

(** *** What the attestations of this node depend on *)

Definition attested (l : list message) : list Attestation := omap (fun m => match m with AttestationMsg a => Some a | _ => None end) l.
Definition book (s : engine) : list Attestation * Z * Z * Z * gmap string Vote :=
  (attested (sent s), lastAttestedEpoch s, currentSlot s, currentEpoch s, votes s).
#[local] Instance book_core : Core book.
Proof. by split. Qed.

Lemma frame_locked {E A} m (body : GoM engine E A) : frame book body -> frame book (ce_locked m body).
Proof.
  intros Hb s. unfold ce_locked. destruct (mutex_call true m (ce_mu s)) as [[l|e| |]|]; try done.
  specialize (Hb (ce_set_mu l s)). destruct (body (ce_set_mu l s)) as [r s1]. simpl in Hb.
  destruct r; destruct (mutex_call false m (ce_mu s1)) as [[l'|e'| |]|]; simpl; by rewrite <-?Hb.
Qed.
Lemma locked_ok {E A} m (body : GoM engine E A) s a s' : ce_locked m body s = (Ok a, s') ->
  exists l l' s1, body (ce_set_mu l s) = (Ok a, s1) /\ s' = ce_set_mu l' s1.
Proof.
  unfold ce_locked. destruct (mutex_call true m (ce_mu s)) as [[l|e| |]|]; try done. destruct (body (ce_set_mu l s)) as [r s1] eqn:Hb.
  destruct r; destruct (mutex_call false m (ce_mu s1)) as [[l'|e'| |]|]; try done. intros [= -> <-]. by exists l, l', s1.
Qed.
Hint Resolve frame_locked book_core : engine_frame.

Lemma frame_propose clock exec drained : frame book (proposeBlock Keccak256 Sha256 cfg key nodeAddress clock exec drained : Ce unit).
Proof.
  assert (Ho : forall m, match m with AttestationMsg _ => False | _ => True end -> frame book (offer cfg drained m : Ce unit)).
  { intros m Hm s. unfold offer. repeat case_match; try done; unfold book, attested; simpl; rewrite omap_app; by destruct m; rewrite ?app_nil_r. }
  unfold proposeBlock. framed.
Qed.
Lemma frame_turn clock exec drained t : frame book (processSlot_propose Keccak256 Sha256 cfg key nodeAddress clock exec drained t).
Proof.
  destruct t as [[proposer mine] height]. unfold processSlot_propose. destruct mine; [|framed].
  apply frame_bind; [apply frame_attempt, frame_propose|]. intros [|]; [apply frame_locked; framed|]. case_match; [apply frame_locked|]; framed.
Qed.
Lemma frame_validate clock clk b : frame book (ValidateBlock (Pub:=Pub) Keccak256 Sha256 cfg clock clk b).
Proof.
  unfold ValidateBlock, check_state_root, IsSyncing. framed. apply frame_locked. framed.
Qed.
Lemma frame_message t m : match m with VoteMsg _ | EvidenceMsg _ => False | _ => True end ->
  frame book (messageHandler (Pub:=Pub) Keccak256 Sha256 cfg on_evidence t m).
Proof.
  destruct m as [p|a|v|v|e]; intros Hm; try done.
  - apply frame_locked. unfold logged, receive_block. framed; apply frame_validate.
  - apply frame_locked. unfold logged. framed.
Qed.

(** The slot moves on by one, or nothing here changes. *)
Definition next_slot (s : engine) : Z := u64 (currentSlot s + 1).
Lemma assign_book clock s r s' : slot_assign Keccak256 nodeAddress clock s = (Ok r, s') ->
  book s' = (attested (sent s), lastAttestedEpoch s, next_slot s, next_slot s / slotsPerEpoch, votes s).
Proof.
  unfold slot_assign. intros (a & s1 & E1 & Hs)%GoM_bind_inv_ok. pose proof (frame_try_node book (ep_ProcessUnbondingQueue (clock 0%nat)) s) as F1.
  rewrite E1 in F1. simpl in F1. apply GoM_bind_inv_ok in Hs as (u & s2 & E2 & Hs).
  pose proof (frame_previous Keccak256 book clock s1) as F2. rewrite E2 in F2. simpl in F2.
  apply GoM_bind_inv_ok in Hs as (u' & s3 & E3 & Hs). injection E3 as _ <-.
  apply GoM_bind_inv_ok in Hs as (x & s4 & E4 & Hs). injection E4 as <- <-.
  match type of Hs with ?m ?x = _ => assert (F3 : frame book m) end.
  { framed. }
  match type of Hs with ?m ?x = _ => specialize (F3 x) end. rewrite Hs in F3. cbn [snd] in F3. rewrite F3.
  assert (F : book s2 = book s) by congruence. unfold book in F. injection F as A1 A2 A3 A4 A5.
  match goal with |- book (ce_set_slot ?a ?b s2) = _ => change (book (ce_set_slot a b s2)) with (attested (sent s2), lastAttestedEpoch s2, a, b, votes s2) end.
  unfold next_slot. by rewrite A1, A2, A3, A5.
Qed.

Lemma attest_book now s r s' : createAttestation Keccak256 cfg key nodeAddress now s = (r, s') ->
  book s' = book s \/
  ((lastAttestedEpoch s < currentEpoch s \/ currentSlot s <= 0) /\
   exists a, att_ValidatorAddress a = nodeAddress /\ att_Epoch a = currentEpoch s /\ att_Slot a = currentSlot s /\
   book s' = (attested (sent s) ++ [a], currentEpoch s, currentSlot s, currentEpoch s, votes s)).
Proof.
  intros Hc. unfold createAttestation in Hc. unfold get, mbind at 1, GoM_bind at 1 in Hc. cbn beta iota in Hc.
  destruct ((currentEpoch s <=? lastAttestedEpoch s) && (0 <? currentSlot s)) eqn:Hg; [injection Hc as <- <-; by left|].
  rewrite andb_false_iff, Z.leb_gt, Z.ltb_ge in Hg.
  unfold mbind at 1, GoM_bind at 1 in Hc. pose proof (frame_current book s) as F1.
  destruct (GetCurrentBlock s) as [[[b|]|e| |] s1]; simpl in F1; try (injection Hc as <- <-; by left).
  unfold mbind at 1, GoM_bind at 1 in Hc. unfold header_of in Hc. destruct (blk_Header b) as [h|]; [|injection Hc as <- <-; by left].
  cbn in Hc. unfold mbind, GoM_bind, lift in Hc. destruct (wrap BlockMessage _) as [sg|e| |]; try (injection Hc as <- <-; by left).
  assert (A : attested (sent s1) = attested (sent s) /\ lastAttestedEpoch s1 = lastAttestedEpoch s /\ currentSlot s1 = currentSlot s /\
    currentEpoch s1 = currentEpoch s /\ votes s1 = votes s) by (unfold book in F1; by simplify_eq).
  destruct A as (A1 & A2 & A3 & A4 & A5). unfold enqueueAttestation, modify in Hc. cbn beta iota in Hc.
  match type of Hc with context [room ?c ?x] => destruct (room c x) end; cbn in Hc; [|injection Hc as <- <-; by left]. injection Hc as <- <-. right. split; [done|]. eexists. split_and!; [..|
    unfold book, attested; cbn; rewrite omap_app; cbn; unfold attested in A1; by rewrite A1, A3, A4, A5]; cbn; done.
Qed.

(** *** The invariant *)

Definition own (a : Attestation) : Prop := att_ValidatorAddress a = nodeAddress /\ att_Epoch a = att_Slot a / slotsPerEpoch.
Record orderly (n : Z) (s : engine) : Prop := MkOrderly {
  o_slot : 0 <= currentSlot s <= n;
  o_epoch : currentEpoch s = currentSlot s / slotsPerEpoch;
  o_last : 0 <= lastAttestedEpoch s <= currentEpoch s;
  o_sorted : StronglySorted Z.lt (att_Epoch <$> attested (sent s));
  o_within : Forall (fun a => own a /\ 1 <= att_Epoch a <= lastAttestedEpoch s) (attested (sent s));
  o_votes : votes s = ∅
}.
Definition plain (m : message) : Prop := match m with VoteMsg _ | EvidenceMsg _ => False | _ => True end.
Definition in_slot (st : stage) : Prop := match st with Turn _ | Attesting => True | _ => False end.
Record tidy (n : Z) (y : system) : Prop := MkTidy {
  t_orderly : orderly n (sys_engine y);
  t_stage : in_slot (sys_stage y) -> 0 < currentSlot (sys_engine y);
  t_inbox : Forall plain (sys_inbox y)
}.

Lemma orderly_book n n' s s' : n <= n' -> book s' = book s -> orderly n s -> orderly n' s'.
Proof.
  unfold book. intros Hn Hb [? ? ? ? ? ?]. injection Hb as B1 B2 B3 B4 B5.
  split; rewrite ?B1, ?B2, ?B3, ?B4, ?B5; try done. lia.
Qed.
Lemma tidy_book n y e e' inbox jobs st : tidy n y -> sys_engine y = e -> book e' = book e -> (in_slot st -> in_slot (sys_stage y)) ->
  Forall plain inbox -> tidy (n + 1) (MkSystem e' st inbox jobs).
Proof.
  intros [Ho Hs Hi] <- Hb Hst Hin. split; [by apply (orderly_book n (n + 1) (sys_engine y)); [lia|..]| |done].
  simpl. intros Hp. replace (currentSlot e') with (currentSlot (sys_engine y)) by (unfold book in Hb; congruence). by apply Hs, Hst.
Qed.

Lemma orderly_next n s s' : orderly n s -> n + 1 < two64 ->
  book s' = (attested (sent s), lastAttestedEpoch s, next_slot s, next_slot s / slotsPerEpoch, votes s) -> orderly (n + 1) s' /\ 0 < currentSlot s'.
Proof.
  intros [O1 O2 O3 O4 O5 O6] Hn Hb. unfold book in Hb. injection Hb as B1 B2 B3 B4 B5.
  assert (Hs : next_slot s = currentSlot s + 1). { unfold next_slot, u64. apply Z.mod_small. unfold two64 in *. lia. }
  rewrite Hs in B3, B4. split; [|lia]. split; rewrite ?B1, ?B2, ?B3, ?B4, ?B5; try done; [lia|].
  assert (currentSlot s / slotsPerEpoch <= (currentSlot s + 1) / slotsPerEpoch) by (apply Z.div_le_mono; [done|lia]). lia.
Qed.

Lemma sorted_snoc l x : StronglySorted Z.lt l -> Forall (fun y => y < x) l -> StronglySorted Z.lt (l ++ [x]).
Proof.
  intros Hl Hx. induction Hl as [|y l Hl IH Hy]; [by repeat constructor|]. apply Forall_cons in Hx as [Hyx Hx].
  simpl. constructor; [by apply IH|]. apply Forall_app. split; [done|]. by repeat constructor.
Qed.
Lemma orderly_attest n s s' a : orderly n s -> 0 < currentSlot s -> lastAttestedEpoch s < currentEpoch s ->
  att_ValidatorAddress a = nodeAddress -> att_Epoch a = currentEpoch s -> att_Slot a = currentSlot s ->
  book s' = (attested (sent s) ++ [a], currentEpoch s, currentSlot s, currentEpoch s, votes s) -> orderly (n + 1) s'.
Proof.
  intros [O1 O2 O3 O4 O5 O6] Hp Hl Ha He Hsl Hb. unfold book in Hb. injection Hb as B1 B2 B3 B4 B5.
  split; rewrite ?B1, ?B2, ?B3, ?B4, ?B5; try done; [lia|lia| |].
  - rewrite fmap_app. simpl. apply sorted_snoc; [done|]. apply Forall_fmap. apply (Forall_impl _ _ _ O5). intros x [_ Hx]. simpl. lia.
  - apply Forall_app. split.
    + apply (Forall_impl _ _ _ O5). intros x [Hx Hx']. split; [done|lia].
    + constructor; [|done]. split; [split; [done|by rewrite He, Hsl]|lia].
Qed.

Lemma frame_run {E A} (m : GoM engine E A) s r s' : frame book m -> m s = (r, s') -> book s' = book s.
Proof. intros Hf Hm. specialize (Hf s). by rewrite Hm in Hf. Qed.
Lemma next_book s s0 s' : book s0 = book s ->
  book s' = (attested (sent s0), lastAttestedEpoch s0, next_slot s0, next_slot s0 / slotsPerEpoch, votes s0) ->
  book s' = (attested (sent s), lastAttestedEpoch s, next_slot s, next_slot s / slotsPerEpoch, votes s).
Proof. unfold next_slot. intros Hb ->. unfold book in Hb. injection Hb as B1 B2 B3 B4 B5. by rewrite B1, B2, B3, B5. Qed.

Lemma enter_book clock e g r e' : processSlot_enter Keccak256 cfg nodeAddress clock e = (Ok (g, r), e') ->
  (g = Go /\ book e' = (attested (sent e), lastAttestedEpoch e, next_slot e, next_slot e / slotsPerEpoch, votes e)) \/
  (g <> Go /\ r = None /\ book e' = book e).
Proof.
  intros (l & l' & s1 & Hb & ->)%locked_ok. apply GoM_bind_inv_ok in Hb as (g0 & s0 & Hg & Hb).
  pose proof (frame_run _ _ _ _ (frame_gate cfg book clock) Hg) as F. change (book (ce_set_mu l' s1)) with (book s1).
  destruct g0; [injection Hb as <- <- <-; right; split_and!; done..|].
  apply GoM_bind_inv_ok in Hb as (r0 & s2 & Ha & Hb). injection Hb as <- <- <-. left. split; [done|].
  apply (next_book e s0); [done|]. by apply (assign_book clock s0 r0).
Qed.
Lemma resume_book clock e r e' : processSlot_resume Keccak256 nodeAddress clock e = (Ok r, e') ->
  book e' = (attested (sent e), lastAttestedEpoch e, next_slot e, next_slot e / slotsPerEpoch, votes e).
Proof. intros (l & l' & s1 & Ha & ->)%locked_ok. apply (assign_book clock _ r) in Ha. exact Ha. Qed.

Lemma attest_orderly n now e copy e' : orderly n e -> 0 < currentSlot e ->
  processSlot_attest Keccak256 cfg key nodeAddress now e = (Ok copy, e') -> orderly (n + 1) e'.
Proof.
  intros Ho Hp (l & l' & s1 & Hb & ->)%locked_ok. apply (orderly_book (n + 1) (n + 1) s1); [lia|done|].
  apply GoM_bind_inv_ok in Hb as (mine & s0 & Hm & Hb). injection Hm as <- <-.
  apply GoM_bind_inv_ok in Hb as (u & s2 & Ha & Hb). injection Hb as <- <-.
  assert (Hsame : book s2 = book e -> orderly (n + 1) s2) by (intros Hs; by apply (orderly_book n (n + 1) e); [lia|..]).
  destruct (match find_validator _ _ with Some v => val_Active v | None => false end); [|by injection Ha as <- <-; apply Hsame].
  apply GoM_bind_inv_ok in Ha as (made & s3 & Hc & Ha). unfold attempt in Hc.
  destruct (createAttestation _ _ _ _ now (ce_set_mu l e)) as [ro s4] eqn:Hcr.
  assert (Hs : book s2 = book s4) by (destruct ro, made; simplify_eq/=; by injection Ha as <- <-).
  apply attest_book in Hcr as [Hk|(Hg & a & A1 & A2 & A3 & A4)]; [apply Hsame; by rewrite Hs, Hk|].
  apply (orderly_attest n e s2 a); [done|done| |done|done|done|by rewrite Hs].
  destruct Hg as [Hg|Hg]; [exact Hg|change (currentSlot e <= 0) in Hg; lia].
Qed.

Lemma step_tidy n y z : tidy n y -> n + 1 < two64 -> step y z -> tidy (n + 1) z.
Proof.
  intros Ht Hn Hstep. pose proof (t_orderly n y Ht) as Ho. pose proof (t_stage n y Ht) as Hst. pose proof (t_inbox n y Ht) as Hin.
  destruct Hstep as [clock e e' inbox jobs g r He|clock e e' inbox jobs r He|clock exec drained t e e' inbox jobs He|now e e' inbox jobs copy He
    |now1 now2 e e' st inbox j1 j2 a l He|exec now e e' st inbox j1 j2 He|ev e st inbox jobs m He|t m e e' st inbox jobs He
    |now1 now2 v e e' r st inbox jobs He Hr|k e st inbox jobs|clock e e' st inbox jobs He|b e e' st inbox jobs He]; simpl in *.
  - apply enter_book in He as [[-> Hb]|(Hg & -> & Hb)].
    + destruct (orderly_next n e e' Ho Hn Hb). by split.
    + apply (tidy_book n _ e e' _ _ _ Ht); try done. by destruct g.
  - destruct (orderly_next n e e' Ho Hn (resume_book clock e r e' He)). by split.
  - apply (tidy_book n _ e e' _ _ _ Ht); try done. apply (frame_run _ _ _ _ (frame_turn clock exec drained t) He).
  - split; [|done|done]. apply (attest_orderly n now e copy); [done|by apply Hst|done].
  - apply (tidy_book n _ e e' _ _ _ Ht); try done. by eapply frame_run, He; eauto with engine_frame.
  - apply (tidy_book n _ e e' _ _ _ Ht); try done. by eapply frame_run, He; eauto with engine_frame.
  - apply (tidy_book n _ e e _ _ _ Ht); try done. apply Forall_app. split; [done|]. constructor; [|done].
    destruct ev as [[b|]| | |]; simpl in He; repeat case_match; by simplify_eq.
  - apply Forall_cons in Hin as [Hm Hin]. apply (tidy_book n _ e e' _ _ _ Ht); try done. by eapply frame_run, He; apply frame_message.
  - apply (tidy_book n _ e e' _ _ _ Ht); try done. by eapply frame_run, He; eauto with engine_frame.
  - by apply (tidy_book n _ e _ _ _ _ Ht).
  - apply (tidy_book n _ e e' _ _ _ Ht); try done. by eapply frame_run, He; apply frame_locked; eauto with engine_frame.
  - apply (tidy_book n _ e e' _ _ _ Ht); try done. by eapply frame_run, He; apply frame_locked; framed.
Qed.

Lemma steps_tidy n m y z : tidy m y -> m + Z.of_nat n < two64 -> nsteps step n y z -> tidy (m + Z.of_nat n) z.
Proof.
  intros Ht Hn Hs. revert m Ht Hn. induction Hs as [y|n y z w Hyz Hs IH]; intros m Ht Hn; [by rewrite Z.add_0_r|].
  replace (m + Z.of_nat (S n)) with ((m + 1) + Z.of_nat n) by lia. apply IH; [|lia]. apply (step_tidy m y z); [done|lia|done].
Qed.

(** C11. A node attests at most once per epoch.  However the slots, the messages of the
    peers, the announcements and the work left from earlier slots interleave, the
    attestations that this node has put out carry its address and the epoch of
    their slot, and their epochs strictly increase, so it never signs two blocks of
    one epoch; none is for the epoch 0.  And no vote of a peer has been recorded:
    the bridge passes votes on in a form that the engine drops. *)
Theorem attested_once_per_epoch n fc max reader node y :
  Z.of_nat n < two64 -> nsteps step n (started (NewConsensusEngine node fc max reader)) y ->
  StronglySorted Z.lt (att_Epoch <$> attested (sent (sys_engine y))) /\
  Forall (fun a => own a /\ 1 <= att_Epoch a <= currentSlot (sys_engine y) / slotsPerEpoch) (attested (sent (sys_engine y))) /\
  votes (sys_engine y) = ∅.
Proof.
  intros Hn Hs. destruct (steps_tidy n 0 (started (NewConsensusEngine node fc max reader)) y) as [[O1 O2 O3 O4 O5 O6] _ _]; [|lia|done|].
  { split; [|done|by constructor]. split; simpl; try done; try lia; constructor. }
  split_and!; [done| |done]. apply (Forall_impl _ _ _ O5). intros a [Ha Hb]. split; [done|lia].
Qed.

(** *** Rounds *)

(** A slot from its start to its attestation, as four steps at most. *)
Definition finish_slot (clock : nat -> Z) (exec : nat -> Z * Z) (r : option (string * bool * Z)) (y : system) (e : engine) : option system :=
  match r with
  | None => None
  | Some t =>
      match processSlot_propose Keccak256 Sha256 cfg key nodeAddress clock exec false t e with
      | (Ok _, e1) =>
          match processSlot_attest Keccak256 cfg key nodeAddress (clock 0%nat) e1 with
          | (Ok copy, e2) => Some (MkSystem e2 Waiting (sys_inbox y) (omap (fun k => copy !! k) (map_order copy) :: sys_jobs y))
          | _ => None
          end
      | _ => None
      end
  end.
Definition slot_round (clock : nat -> Z) (exec : nat -> Z * Z) (y : system) : option system :=
  match sys_stage y with
  | Waiting =>
      match processSlot_enter Keccak256 cfg nodeAddress clock (sys_engine y) with
      | (Ok (Go, r), e) => finish_slot clock exec r y e
      | (Ok (Pause, _), e) =>
          match processSlot_resume Keccak256 nodeAddress clock e with
          | (Ok r, e') => finish_slot clock exec r y e'
          | _ => None
          end
      | _ => None
      end
  | _ => None
  end.
Fixpoint rounds (clock : nat -> Z) (exec : nat -> Z * Z) (k : nat) (y : system) : option system :=
  match k with O => Some y | S k => slot_round clock exec y ≫= rounds clock exec k end.

Lemma finish_steps clock exec r y e z : finish_slot clock exec r y e = Some z -> nsteps step 2 (MkSystem e (stage_after r) (sys_inbox y) (sys_jobs y)) z.
Proof.
  unfold finish_slot. destruct r as [t|]; [|done]. destruct (processSlot_propose _ _ _ _ _ _ _ _ t e) as [[[]| | |] e1] eqn:Hp; try done.
  destruct (processSlot_attest _ _ _ _ _ e1) as [[copy| | |] e2] eqn:Ha; try done. intros [= <-].
  econstructor; [by apply (TakeTurn clock exec false t e e1)|]. apply nsteps_once. by eapply Attest.
Qed.
Lemma round_steps clock exec y z : slot_round clock exec y = Some z -> exists n, (n <= 4)%nat /\ nsteps step n y z.
Proof.
  destruct y as [e st inbox jobs]. unfold slot_round. simpl. destruct st; try done.
  destruct (processSlot_enter _ _ _ clock e) as [[[g r]| | |] e1] eqn:He; try done. apply EnterSlot with (inbox:=inbox) (jobs:=jobs) in He. destruct g; [done| |].
  - destruct (processSlot_resume _ _ clock e1) as [[r'| | |] e2] eqn:Hr; try done. apply ResumeSlot with (inbox:=inbox) (jobs:=jobs) in Hr.
    intros Hf%finish_steps. exists 4%nat. split; [lia|]. econstructor; [exact He|]. econstructor; [exact Hr|]. exact Hf.
  - intros Hf%finish_steps. exists 3%nat. split; [lia|]. econstructor; [exact He|]. exact Hf.
Qed.
Lemma rounds_steps clock exec k : forall y z, rounds clock exec k y = Some z -> exists n, (n <= 4 * k)%nat /\ nsteps step n y z.
Proof.
  induction k as [|k IH]; intros y z Hr; simpl in Hr; [injection Hr as <-; exists 0%nat; split; [lia|constructor]|].
  apply bind_Some in Hr as (w & Hw & Hr). destruct (round_steps clock exec y w Hw) as (n & Hn & Hs). destruct (IH w z Hr) as (m & Hm & Hs').
  exists (n + m)%nat. split; [lia|]. by eapply nsteps_trans.
Qed.
End Running.

(** ** Announced validators *)

Section Announcements.
Context {Pub Priv : Type} `{Secp256k1Laws Pub Priv} (Keccak256 : list byte -> list byte) (cfg : EngineConfig).
Context (Hkeccak : forall m, length (Keccak256 m) = 32%nat).

Lemma set_Pubkey_key pk v : val_Pubkey (set_Pubkey pk v) = pk.
Proof. by destruct v. Qed.
Lemma set_Pubkey_address pk v : val_Address (set_Pubkey pk v) = val_Address v.
Proof. by destruct v. Qed.

Lemma announced_key now1 now2 g v w : reg_validators g !! val_Address w = Some v -> val_Address v = val_Address w -> val_Address w <> "" -> val_Pubkey w <> [] ->
  reg_validators (snd (RegisterDiscoveredValidator cfg now1 now2 (Some w) g)) = <[val_Address w := set_Pubkey (val_Pubkey w) v]> (reg_validators g).
Proof.
  intros Hv Hav Haw Hpk. unfold RegisterDiscoveredValidator, mbind, GoM_bind. rewrite bool_decide_false by done. simpl.
  destruct (val_Pubkey w) as [|b bs] eqn:Hw; [done|]. rewrite <-Hw in *. replace (length (val_Pubkey w) =? 0)%nat with false by (by rewrite Hw). simpl. rewrite Hv.
  case_bool_decide as Hsame.
  { simpl. rewrite <-Hsame. replace (set_Pubkey (val_Pubkey v) v) with v by (by destruct v). by rewrite insert_id. }
  simpl. unfold update_logged, UpdateValidator, mbind, GoM_bind, lift. simpl. rewrite set_Pubkey_address, Hav, bool_decide_true by (by rewrite lookup_insert_eq).
  simpl. destruct (wrap ValidatorAddressInvalid _) as [[]| | |]; simpl; [by rewrite insert_insert_eq|done..].
Qed.

(** C28. Whoever announces a validator takes it over.  An announcement that names a
    registered validator and brings a key of the announcer's own is accepted
    without a signature of that validator: the stake, the status and everything
    else stay, the key is the new one.  From then on exactly the attestations that
    the announcer signs in the name of the validator verify, the ones of its owner
    do not. *)
Theorem announcement_takes_over (owner thief : Priv) now1 now2 g v w att :
  reg_validators g !! val_Address w = Some v -> val_Address v = val_Address w -> val_Address w <> "" ->
  val_Pubkey w = Pub_Bytes (Some (PublicOf thief)) -> PublicOf owner <> PublicOf thief -> att_ValidatorAddress att = val_Address w ->
  let g' := snd (RegisterDiscoveredValidator cfg now1 now2 (Some w) g) in
  reg_validators g' = <[val_Address w := set_Pubkey (val_Pubkey w) v]> (reg_validators g) /\
  exists forged honest, signAttestation Keccak256 (ec_ChainID cfg) (Some thief) att = Ok forged /\ signAttestation Keccak256 (ec_ChainID cfg) (Some owner) att = Ok honest /\
  verifyAttestationSignature (Pub:=Pub) Keccak256 (ec_ChainID cfg) (fun a => reg_validators g' !! a) (with_signature forged att) = Ok tt /\
  verifyAttestationSignature (Pub:=Pub) Keccak256 (ec_ChainID cfg) (fun a => reg_validators g' !! a) (with_signature honest att) <> Ok tt.
Proof.
  intros Hv Hav Haw Hpk Hne Ha g'.
  assert (Hg : reg_validators g' = <[val_Address w := set_Pubkey (val_Pubkey w) v]> (reg_validators g)).
  { apply announced_key; try done. rewrite Hpk. destruct (compressed_form (PublicOf thief)) as (c & rest & Hc & _). unfold Pub_Bytes. simpl. by rewrite Hc. }
  split; [done|].
  destruct (sign_then_verify thief (computeAttestationHash Keccak256 (ec_ChainID cfg) att)) as (f & Hf & Hfl & Hfv); [apply Hkeccak|].
  destruct (sign_then_verify owner (computeAttestationHash Keccak256 (ec_ChainID cfg) att)) as (o & Hos & Hol & Hov); [apply Hkeccak|].
  exists f, o. split_and!; [done|done|..].
  all: unfold verifyAttestationSignature, find_signer; cbn [att_ValidatorAddress with_signature att_Signature]; rewrite Ha, Hg, lookup_insert_eq; cbn;
    destruct (registered_key (set_Pubkey (val_Pubkey w) v) thief) as [-> ->]; [by rewrite set_Pubkey_key|]; cbn.
  - rewrite Hfl. cbn. by apply Hfv.
  - rewrite Hol. cbn. intros Hbad. apply Hov in Hbad. congruence.
Qed.
End Announcements.

(** ** A small network *)

Module Demo.
#[local] Existing Instances demo_secp demo_secp_laws.

(** A world state with a registry and a current block; it adds every block. *)
Record tiny : Type := MkTiny { tn_registry : registry; tn_block : option Block }.
#[local] Instance tiny_slasher : Slasher tiny := {|
  sl_err := unit;
  sl_reader n := MkReader (fun a => reg_validators (tn_registry n) !! a) (GetActiveValidators (tn_registry n)) (fun _ => tn_block n);
  sl_present _ := true;
  sl_ProcessAttestation _ _ := mret tt;
  sl_conflict _ := None;
  sl_ApplyDoubleVoteSlashing _ _ _ := mret tt;
  sl_IsValidatorActive _ _ := mret true
|}.
#[local] Instance tiny_ports : EnginePorts tiny := {|
  ep_err := unit;
  ep_registry := tn_registry;
  ep_put_registry g n := MkTiny g (tn_block n);
  ep_GetHeight := mret 0;
  ep_GetCurrentBlock := (n ← get; mret (tn_block n));
  ep_ValidateTransaction _ tx := mret tx;
  ep_SimulateStateRoot _ := mret "";
  ep_AddBlock _ b := fun n => (Ok b, MkTiny (tn_registry n) (Some b));
  ep_ProcessUnbondingQueue _ := mret tt;
  ep_ReorganizeChain _ _ _ := mret tt;
  ep_ProposeBlockWithVRF _ _ _ _ _ := throw tt;
  ep_ReportBlockWithholding _ _ := mret tt;
  ep_ProcessVote _ _ := mret tt;
  ep_surround _ := None;
  ep_ApplySurroundVoteSlashing _ _ _ := mret tt
|}.

Definition us : string := match GenerateAddress (Pub:=byte) (Some (Some x2a)) with Ok a => a | _ => "" end.
Definition registered_as (key : byte) : Validator := MkValidator us (Pub_Bytes (Some key)) "" "" "" (Bytes 1000) (Bytes 1000) [] ∅ 0 true 0 0 0 0 0.
Definition book_of (key : byte) : registry := MkRegistry {[ us := registered_as key ]} empty_kv.
Definition settings : EngineConfig :=
  MkEngineConfig 100 1000000 1 3600000000000 "1" "thrylos" (NewTimestampValidator 300 6 0) DefaultForkChoiceConfig (MkConsensusLimits 32 None 2 10) 1000.
Definition hash32 (m : list byte) : list byte := replicate 32 x07.
Definition now : Z := 1000 * 1000000000.
Definition at_now (i : nat) : Z := now.
Definition header (index : Z) : BlockHeader := MkBlockHeader index "" 1000 us "" "" 0 1000000 1 0 [] "" [] [] 0.
Definition tip : Block := MkBlock (Some (header 0)) [] "genesis-" [] [].
Definition fresh : @engine tiny := NewConsensusEngine (MkTiny (book_of x2a) (Some tip)) NewForkChoiceWithConfig 10 None.
Definition no_clocks (i j : nat) : clocks := MkClocks 0 0 0 0 0.
Definition no_exec (i : nat) : Z * Z := (0, 0).
Definition ignore (e : SlashingEvidence) : GoM (@engine tiny) ce_err unit := mret tt.

(** Thirty-three slots: the node attests in the first slot of the epoch 1. *)
Lemma attests_in_epoch_one : (fun y => att_Epoch <$> attested (sent (sys_engine y))) <$>
  rounds hash32 hash32 settings (Some x2a) us at_now no_exec 33 (started fresh) = Some [1].
Proof. vm_compute. reflexivity. Qed.
Lemma attested_once_per_epoch_witness : exists n y,
  nsteps (step (Pub:=byte) hash32 hash32 settings (Some x2a) us ignore) n (started fresh) y /\ att_Epoch <$> attested (sent (sys_engine y)) = [1] /\
  Forall (fun a => own us a /\ 1 <= att_Epoch a <= currentSlot (sys_engine y) / slotsPerEpoch) (attested (sent (sys_engine y))) /\ votes (sys_engine y) = ∅.
Proof.
  pose proof attests_in_epoch_one as Hr. apply fmap_Some in Hr as (y & Hr & Hy).
  destruct (rounds_steps (Pub:=byte) hash32 hash32 settings (Some x2a) us ignore at_now no_exec 33 (started fresh) y Hr) as (n & Hn & Hs).
  destruct (attested_once_per_epoch (Pub:=byte) hash32 hash32 settings (Some x2a) us ignore n NewForkChoiceWithConfig 10 None (MkTiny (book_of x2a) (Some tip)) y)
    as (_ & H1 & H2); [unfold two64; lia|exact Hs|]. exists n, y. split_and!; [exact Hs|exact (eq_sym Hy)|exact H1|exact H2].
Defined.

(** A well-formed block of the next height, signed by its proposer. *)
Definition unsigned : Block :=
  let h := MkBlockHeader 1 "genesis-" 1005 us "" "" 0 1000000 167 5 [] "" [] [] 0 in
  match calculateBlockHash (E:=unit) hash32 (MkBlock (Some h) [] "" [] []) with Ok hash => MkBlock (Some h) [] hash [] [] | _ => tip end.
Definition next_block : Block := match signBlock (N:=tiny) hash32 settings (Some x2a) us unsigned fresh with (Ok b, _) => b | _ => tip end.
Definition proposed : BlockProposal :=
  match signBlockProposal hash32 "thrylos" (Some x2a) (MkBlockProposal (Some next_block) us 167 5 []) with Ok p => p | _ => MkBlockProposal None "" 0 0 [] end.
Definition soon (i : nat) : Z := 1005 * 1000000000.
Definition checked : outcome ce_err Block * @engine tiny :=
  check_block (Pub:=byte) hash32 hash32 settings soon (no_clocks 0) next_block (default (header 0) (blk_Header next_block)) (ce_set_mu (MkRW true 0) fresh).

Lemma checks_pass : is_ok (fst checked) = true.
Proof. vm_compute. reflexivity. Qed.
Lemma proposal_handler_never_adds_witness : exists s1,
  handleBlockProposal (Pub:=byte) hash32 hash32 settings soon no_clocks no_exec proposed fresh = (Hang, s1) /\ IsSyncing s1 = (Hang, s1).
Proof.
  destruct checked as [r s1] eqn:Hc. pose proof checks_pass as Hok. rewrite Hc in Hok. destruct r as [b'| | |]; [|discriminate Hok..].
  destruct (proposal_handler_never_adds (Pub:=byte) hash32 hash32 settings soon no_clocks no_exec proposed fresh) as [_ Hh].
  destruct (Hh ltac:(reflexivity) next_block (default (header 0) (blk_Header next_block)) b' s1) as [H1 H2];
    [vm_compute; reflexivity|vm_compute; reflexivity|vm_compute; reflexivity|exact Hc|].
  exists s1. split; [exact H1|apply H2].
Defined.

Definition announced : Validator := MkValidator us (Pub_Bytes (Some x2b)) "" "" "" [] [] [] ∅ 0 false 0 0 0 0 0.
Definition some_vote : Attestation := MkAttestation us "ab01" 7 1 32 [] 1000.
Lemma announcement_takes_over_witness : exists g forged,
  g = snd (RegisterDiscoveredValidator settings 0 0 (Some announced) (book_of x2a)) /\ reg_validators g !! us = Some (registered_as x2b) /\
  signAttestation hash32 "thrylos" (Some x2b) some_vote = Ok forged /\
  verifyAttestationSignature (Pub:=byte) hash32 "thrylos" (fun a => reg_validators g !! a) (with_signature forged some_vote) = Ok tt.
Proof.
  destruct (announcement_takes_over (Pub:=byte) hash32 settings (fun _ => eq_refl) x2a x2b 0 0 (book_of x2a) (registered_as x2a) announced some_vote)
    as (Hg & forged & honest & H1 & _ & H2 & _);
    [vm_compute; reflexivity|vm_compute; reflexivity|vm_compute; discriminate|vm_compute; reflexivity|vm_compute; discriminate|vm_compute; reflexivity|].
  eexists _, forged. split_and!; [reflexivity|rewrite Hg; vm_compute; reflexivity|exact H1|exact H2].
Defined.
End Demo.
