(* ===== verification/EvidenceFlow.v ===== *)
(** * Evidence between nodes (src/consensus/pos/slashing_broadcast.go)

    Evidence of an offence that this node found is checked, applied, remembered and
    put on the broadcast channel; evidence from a peer is checked, remembered and
    applied.  What has been processed is remembered under its ID, in a cache of
    bounded size and, when there is one, in the slashing database.  The cache is the
    [LRU] of the account manager; what it holds under an ID is never read. *)

From S2P Require Import Prelude SafeMath Uint256 Address Storage AccountManager ShardedLock Governance.
From S2P Require Import Hashes Keys Wire ForkChoice SlashStore Slashing.
From stdpp Require Import base tactics numbers list gmap strings.
From Stdlib Require Import ZArith Lia Strings.Byte Strings.Ascii.
Open Scope Z_scope.
Open Scope list_scope.

Inductive flow_err : Type :=
| FlowInvalid (e : sl_error)
| FlowUnsigned
| FlowSignatureLength (n : Z)
| FlowReporterUnknown (address : string)
| FlowReporterWithoutKey
| FlowReporterKey (e : key_err)
| FlowSignatureMalformed (e : key_err)
| FlowSignatureWrong (e : key_err)
| FlowSigning (e : key_err)
| FlowNotRecorded
| FlowData
| FlowPenalty (e : sl_error)
| FlowUnknownType.

Section Flow.
Context {C Ws Pub Priv : Type} `{LRU C} `{WorldStateBalancer Ws} `{Secp256k1 Pub Priv} `{Json SlashingEvidence}.
Context (Sha256 : string -> list byte) (Keccak256 : list byte -> list byte) (show_proposal : BlockProposal -> string).
(** [config] of the manager, [SlashingInvalidSig], the key and the address of the node. *)
Context (config : SlashingConfig) (SlashingInvalidSig : Z) (key : @PrivateKeyImpl Priv) (nodeAddress : string).
Notation Sm := (SlashingManager Ws).

(** The parts of the engine that evidence touches. *)
Record flow : Type := MkFlow { fl_tracker : C; fl_manager : Sm; fl_sent : list SlashingEvidence; fl_mu : RWMutex }.
Notation Fl := (GoM flow flow_err).
Definition set_tracker c s : flow := MkFlow c (fl_manager s) (fl_sent s) (fl_mu s).
Definition set_manager m s : flow := MkFlow (fl_tracker s) m (fl_sent s) (fl_mu s).
Definition set_flow_mu l s : flow := MkFlow (fl_tracker s) (fl_manager s) (fl_sent s) l.

Definition on_manager {A} (f : sl_error -> flow_err) (m : GoM Sm sl_error A) : Fl A := fun s =>
  let '(r, m') := m (fl_manager s) in (wrap f r, set_manager m' s).
(** The error is only logged. *)
Definition manager_logged (m : GoM Sm sl_error unit) : Fl unit := fun s =>
  let '(r, m') := m (fl_manager s) in (match r with Panic => Panic | Hang => Hang | _ => Ok tt end, set_manager m' s).

(** ** The tracker *)

Definition IsProcessed (evidenceID : string) : Fl bool := fun s =>
  let '(r, c) := lru_Get evidenceID (fl_tracker s) in (Ok (bool_decide (is_Some r)), set_tracker c s).
Definition MarkProcessed (evidenceID : string) : Fl unit := modify (fun s => set_tracker (lru_Add evidenceID 0%nat (fl_tracker s)) s).

Definition isEvidenceProcessed (evidenceID : string) : Fl bool :=
  cached ← IsProcessed evidenceID;
  if cached : bool then mret true
  else
    s ← get;
    match sm_storage (fl_manager s) with
    | None => mret false
    | Some db => if IsEvidenceProcessed evidenceID db then _ ← MarkProcessed evidenceID; mret true else mret false
    end.

Definition persistSlashingEvidence (now : Z) (ev : SlashingEvidence) : Fl unit := fun s =>
  match sm_storage (fl_manager s) with
  | None => (Ok tt, s)
  | Some db =>
      (if db_writable db then Ok tt else Err FlowNotRecorded,
       set_manager (on_storage (SaveProcessedEvidenceWithMetadata now (ev_ID ev) (EvidenceType_String (ev_Type ev)) (ev_ValidatorAddress ev)) (fl_manager s)) s)
  end.
Definition markEvidenceProcessed (now : Z) (ev : SlashingEvidence) : Fl unit :=
  _ ← MarkProcessed (ev_ID ev); persistSlashingEvidence now ev.

(** ** The reporter's signature *)

Definition evidence_message (ev : SlashingEvidence) : list byte :=
  Keccak256 (bytes_of_string (ev_ID ev +:+ EvidenceType_String (ev_Type ev) +:+ ev_ValidatorAddress ev +:+ String10 (ev_Timestamp ev))).

Definition signEvidence (ev : SlashingEvidence) : outcome flow_err SlashingEvidence :=
  sig ← wrap FlowSigning (Priv_Sign Keccak256 key (evidence_message ev));
  bytes ← Sig_Bytes sig;
  Ok (MkEvidence (ev_ID ev) (ev_Type ev) (ev_ValidatorAddress ev) (ev_Evidence ev) (ev_Timestamp ev) nodeAddress bytes (ev_ProcessedAt ev) (ev_SlashingApplied ev)).

Definition verifyEvidenceSignature (find : string -> option Validator) (ev : SlashingEvidence) : outcome flow_err unit :=
  let n := length (ev_ReporterSignature ev) in
  if (n =? 0)%nat then Err FlowUnsigned
  else if negb (n =? SignatureSize)%nat then Err (FlowSignatureLength (Z.of_nat n))
  else
    match find (ev_ReporterAddress ev) with
    | None => Err (FlowReporterUnknown (ev_ReporterAddress ev))
    | Some v =>
        if (length (val_Pubkey v) =? 0)%nat then Err FlowReporterWithoutKey
        else
          pubKey ← wrap FlowReporterKey (NewPublicKeyFromBytes (Pub:=Pub) (val_Pubkey v));
          sig ← wrap FlowSignatureMalformed (SignatureFromBytes (ev_ReporterSignature ev));
          wrap FlowSignatureWrong (Pub_Verify Keccak256 pubKey (evidence_message ev) (Some sig))
    end.

(** ** Applying it *)

Fixpoint report_missed (clock : nat -> Z) (i : nat) (address : string) (slots : list Z) : Fl unit :=
  match slots with
  | [] => mret tt
  | slot :: slots => _ ← manager_logged (ReportMissedAttestation Sha256 show_proposal config (clock i) address slot); report_missed clock (S i) address slots
  end.

Definition engine_applySlashing (clock : nat -> Z) (ev : SlashingEvidence) : Fl unit :=
  match ev_Type ev, ev_Evidence ev with
  | EvidenceDoubleVoting, Some (DoubleVoteEvidence a1 a2) => on_manager FlowPenalty (ApplyDoubleVoteSlashing Sha256 show_proposal config (clock 0%nat) a1 a2)
  | EvidenceSurroundVoting, Some (SurroundVoteEvidence inner outer) =>
      match inner, outer with
      | Some inner, Some outer =>
          _ ← manager_logged (sm_ProcessAttestation config (clock 0%nat) inner);
          manager_logged (sm_ProcessAttestation config (clock 1%nat) outer)
      | _, _ => panic
      end
  | EvidenceInvalidProposal, Some (InvalidProposalEvidence p errors _) =>
      match p with
      | None => panic
      | Some p =>
          on_manager FlowPenalty (ReportInvalidProposal Sha256 show_proposal config (clock 0%nat)
            (MkBlockProposal None (bp_Proposer p) (bp_Slot p) (bp_Epoch p) (bp_Signature p)) (default "Invalid proposal" (head errors)))
      end
  | EvidenceDowntime, Some (DowntimeEvidence _ slots _ _) => report_missed clock 0 (ev_ValidatorAddress ev) slots
  | EvidenceInvalidSignature, Some (InvalidSignatureEvidence _ _ _ _) =>
      on_manager FlowPenalty
        (balance ← GetBalance (ev_ValidatorAddress ev);
         amount ← penalty balance SlashingInvalidSig;
         on_bal BalanceUpdateError (bal_UpdateBalance (ev_ValidatorAddress ev) (Z.max 0 (balance - amount))))
  | EvidenceMissedVRFReveal, _ => throw FlowUnknownType
  | _, _ => throw FlowData
  end.

(** ** The two ways in *)

Definition check_evidence (now : Z) (ev : SlashingEvidence) : Fl (outcome sl_error unit * SlashingEvidence) :=
  s ← get; mret (Validate (Pub:=Pub) Sha256 Keccak256 (bal_GetValidator (sm_world (fl_manager s))) now ev).
Definition signed_by_reporter (ev : SlashingEvidence) : Fl (outcome flow_err unit) :=
  s ← get; mret (verifyEvidenceSignature (bal_GetValidator (sm_world (fl_manager s))) ev).

Definition broadcastSlashingEvidence (ev : SlashingEvidence) : Fl unit :=
  ev ← lift (signEvidence ev);
  modify (fun s => MkFlow (fl_tracker s) (fl_manager s) (fl_sent s ++ [ev]) (fl_mu s)).

Definition flow_logged (m : Fl unit) : Fl unit := fun s => match m s with (Err _, s') => (Ok tt, s') | other => other end.
Definition waits {A} : Fl A := fun s => (Hang, s).
Definition HandleSlashingEvidence (clock : nat -> Z) (ev : SlashingEvidence) : Fl unit :=
  processed ← isEvidenceProcessed (ev_ID ev);
  if processed : bool then mret tt
  else
    '(verdict, ev) ← check_evidence (clock 0%nat) ev;
    _ ← lift (wrap FlowInvalid verdict);
    verdict ← signed_by_reporter ev;
    _ ← lift verdict;
    _ ← engine_applySlashing (fun i => clock (S i)) ev;
    _ ← markEvidenceProcessed (clock 0%nat) ev;
    flow_logged (broadcastSlashingEvidence ev).

Definition flow_locked {A} (body : Fl A) : Fl A := fun s =>
  match mutex_call true W (fl_mu s) with
  | Some (Ok l) =>
      let '(r, s1) := body (set_flow_mu l s) in
      match r with
      | Hang => (Hang, s1)
      | _ => match mutex_call false W (fl_mu s1) with
             | Some (Ok l') => (r, set_flow_mu l' s1)
             | _ => (Panic, s1)
             end
      end
  | Some _ => (Panic, s)
  | None => (Hang, s)
  end.

(** Evidence whose signature is wrong is remembered as processed too. *)
Definition take_evidence (clock : nat -> Z) (ev : SlashingEvidence) : Fl unit :=
  '(verdict, ev) ← check_evidence (clock 0%nat) ev;
  _ ← lift (wrap FlowInvalid verdict);
  verdict ← signed_by_reporter ev;
  match verdict with
  | Ok _ => _ ← markEvidenceProcessed (clock 0%nat) ev; flow_logged (engine_applySlashing (fun i => clock (S i)) ev)
  | Err e => _ ← MarkProcessed (ev_ID ev); throw e
  | Panic => panic
  | Hang => waits
  end.
Definition receive_evidence (clock : nat -> Z) (ev : SlashingEvidence) : Fl unit :=
  processed ← isEvidenceProcessed (ev_ID ev);
  if processed : bool then mret tt else take_evidence clock ev.
Definition processReceivedSlashingEvidence (clock : nat -> Z) (ev : SlashingEvidence) : Fl unit := flow_locked (receive_evidence clock ev).

(** From the error of the slashing manager. *)
Definition createSlashingEvidenceFromAttestation (now : Z) (a : Attestation) (violation : sl_error) : option SlashingEvidence :=
  match violation with
  | DoubleSigningError r =>
      let other := MkAttestation (ar_ValidatorAddress r) (ar_BlockHash r) 0 (ar_Epoch r) (ar_Slot r) (ar_Signature r) (Unix (ar_Timestamp r)) in
      Some (NewSlashingEvidence Sha256 now EvidenceDoubleVoting (att_ValidatorAddress a) (Some (DoubleVoteEvidence (Some a) (Some other))) nodeAddress)
  | _ => None
  end.
End Flow.
