(* ===== verification/EvidenceSpec.v ===== *)
(** * What becomes of evidence

    The first copy of some evidence that passes validation decides: whatever
    arrives later under the same ID, while the cache holds it, changes nothing, whether the first was applied
    or had a wrong signature. *)

From S2P Require Import Prelude SafeMath Uint256 Address Storage AccountManager ShardedLock Governance.
From S2P Require Import Hashes Keys Wire ForkChoice SlashStore Slashing SlashingSpec EngineSpec EvidenceFlow.
From stdpp Require Import base tactics numbers list gmap strings.
From Stdlib Require Import ZArith Lia Strings.Byte Strings.Ascii.
Open Scope Z_scope.
Open Scope list_scope.

Section Flow.
Context {C Ws Pub Priv : Type} `{LRU C, !LRULaws C} `{WorldStateBalancer Ws} `{Secp256k1 Pub Priv} `{Json SlashingEvidence}.
Context (Sha256 : string -> list byte) (Keccak256 : list byte -> list byte) (show_proposal : BlockProposal -> string).
Context (config : SlashingConfig) (SlashingInvalidSig : Z).
Notation flow := (@flow C Ws).
Notation Fl := (GoM flow flow_err).
Notation received := (processReceivedSlashingEvidence (Pub:=Pub) Sha256 Keccak256 show_proposal config SlashingInvalidSig).
Notation receives := (receive_evidence (Pub:=Pub) Sha256 Keccak256 show_proposal config SlashingInvalidSig).

(** *** Applying evidence leaves the tracker and the mutex alone *)

Definition outside (s : flow) : C * RWMutex * list SlashingEvidence := (fl_tracker s, fl_mu s, fl_sent s).
Lemma frame_on_manager {A} f (m : GoM (SlashingManager Ws) sl_error A) : frame outside (on_manager f m : Fl A).
Proof. intros s. unfold on_manager. by destruct (m (fl_manager s)). Qed.
Lemma frame_manager_logged (m : GoM (SlashingManager Ws) sl_error unit) : frame outside (manager_logged m : Fl unit).
Proof. intros s. unfold manager_logged. by destruct (m (fl_manager s)). Qed.
Hint Resolve frame_on_manager frame_manager_logged : engine_frame.
Lemma frame_report clock a slots : forall i, frame outside (report_missed Sha256 show_proposal config clock i a slots : Fl unit).
Proof. induction slots; intros i; cbn [report_missed]; framed. Qed.
Hint Resolve frame_report : engine_frame.
Lemma frame_apply clock ev : frame outside (engine_applySlashing Sha256 show_proposal config SlashingInvalidSig clock ev : Fl unit).
Proof. unfold engine_applySlashing. framed. Qed.

(** *** Recognising a copy *)

Definition remembered (id : string) (s : flow) : Prop := is_Some (lru_view (fl_tracker s) !! id).

Lemma remembered_skipped clock ev s : remembered (ev_ID ev) s ->
  exists c, receives clock ev s = (Ok tt, set_tracker c s) /\ lru_view c = lru_view (fl_tracker s).
Proof.
  intros Hr. unfold receive_evidence, isEvidenceProcessed, IsProcessed, mbind, GoM_bind.
  pose proof (lru_Get_value (ev_ID ev) (fl_tracker s)) as Hv. pose proof (lru_Get_keeps (ev_ID ev) (fl_tracker s)) as Hk.
  destruct (lru_Get (ev_ID ev) (fl_tracker s)) as [r c]. simpl in *. subst r. unfold remembered in Hr.
  rewrite bool_decide_true by done. by exists c.
Qed.

Lemma add_remembers id (s : flow) : remembered id (set_tracker (lru_Add id 0%nat (fl_tracker s)) s).
Proof. unfold remembered. simpl. rewrite lru_Add_self. by eexists. Qed.
Lemma outside_remembered id s s' : outside s' = outside s -> remembered id s -> remembered id s'.
Proof. unfold outside, remembered. by intros [= -> _ _]. Qed.

Definition decided (r : outcome flow_err unit) : Prop :=
  match r with Ok _ => True | Err (FlowInvalid _) => False | Err _ => True | _ => False end.
Lemma validate_keeps_ID registry now ev : ev_ID ev <> "" -> snd (Validate (Pub:=Pub) Sha256 Keccak256 registry now ev) = ev.
Proof. intros Hid. unfold Validate. simpl. by rewrite bool_decide_false. Qed.

Lemma take_decides clock ev s r s' : ev_ID ev <> "" -> take_evidence (Pub:=Pub) Sha256 Keccak256 show_proposal config SlashingInvalidSig clock ev s = (r, s') ->
  decided r -> remembered (ev_ID ev) s' /\ fl_mu s' = fl_mu s.
Proof.
  intros Hid Hrun Hd. unfold take_evidence, check_evidence, signed_by_reporter, mbind, GoM_bind, mret, GoM_ret, lift, get in Hrun.
  cbv beta iota in Hrun. pose proof (validate_keeps_ID (bal_GetValidator (sm_world (fl_manager s))) (clock 0%nat) ev Hid) as Hev.
  destruct (Validate _ _ _ _ ev) as [verdict ev']. simpl in *. subst ev'.
  destruct verdict as [[]|e| |]; simpl in Hrun; try (exfalso; injection Hrun as <- <-; exact Hd).
  destruct (verifyEvidenceSignature _ _ ev) as [[]|e| |]; simpl in Hrun; try (exfalso; injection Hrun as <- <-; exact Hd).
  2: { injection Hrun as <- <-. split; [apply add_remembers|done]. }
  unfold markEvidenceProcessed, MarkProcessed, persistSlashingEvidence, modify, mbind, GoM_bind in Hrun. simpl in Hrun.
  assert (Happly : forall s0, remembered (ev_ID ev) s0 -> fl_mu s0 = fl_mu s ->
    flow_logged (engine_applySlashing Sha256 show_proposal config SlashingInvalidSig (fun i => clock (S i)) ev) s0 = (r, s') -> remembered (ev_ID ev) s' /\ fl_mu s' = fl_mu s).
  { intros s0 Hr0 Hmu0 Hl. unfold flow_logged in Hl. pose proof (frame_apply (fun i => clock (S i)) ev s0) as F.
    destruct (engine_applySlashing _ _ _ _ _ ev s0) as [r0 s1]. simpl in F.
    assert (s' = s1) as -> by (destruct r0; congruence). split; [by apply (outside_remembered _ s0)|].
    unfold outside in F. congruence. }
  destruct (sm_storage (fl_manager s)) as [db|]; simpl in Hrun; [destruct (db_writable db)|].
  - by apply Happly in Hrun; [|apply (add_remembers _ s)|done].
  - injection Hrun as <- <-. split; [apply (add_remembers _ s)|done].
  - by apply Happly in Hrun; [|apply (add_remembers _ s)|done].
Qed.
Lemma receive_decides clock ev s r s' : ev_ID ev <> "" -> receives clock ev s = (r, s') -> decided r ->
  remembered (ev_ID ev) s' /\ fl_mu s' = fl_mu s.
Proof.
  intros Hid Hrun Hd. unfold receive_evidence, isEvidenceProcessed, IsProcessed, mbind, GoM_bind in Hrun.
  pose proof (lru_Get_value (ev_ID ev) (fl_tracker s)) as Hv. pose proof (lru_Get_keeps (ev_ID ev) (fl_tracker s)) as Hk.
  destruct (lru_Get (ev_ID ev) (fl_tracker s)) as [g c]. simpl in *. subst g.
  case_bool_decide as Hin; simpl in Hrun.
  { injection Hrun as <- <-. split; [|done]. unfold remembered. simpl. by rewrite Hk. }
  destruct (sm_storage (fl_manager s)) as [db|] eqn:Hdb; simpl in Hrun; [destruct (IsEvidenceProcessed (ev_ID ev) db); simpl in Hrun|].
  - injection Hrun as <- <-. split; [apply (add_remembers _ (set_tracker c s))|done].
  - by apply (take_decides clock ev (set_tracker c s) r s').
  - by apply (take_decides clock ev (set_tracker c s) r s').
Qed.

Lemma take_wrong clock ev s e s' :
  take_evidence (Pub:=Pub) Sha256 Keccak256 show_proposal config SlashingInvalidSig clock ev s = (Err (FlowSignatureWrong e), s') -> fl_manager s' = fl_manager s.
Proof.
  unfold take_evidence, check_evidence, signed_by_reporter, mbind, GoM_bind, mret, GoM_ret, lift, get. cbv beta iota.
  destruct (Validate _ _ _ _ ev) as [verdict ev']. destruct verdict as [[]|x| |]; simpl; [|done..].
  destruct (verifyEvidenceSignature _ _ ev') as [[]|x| |]; simpl; [|by intros [= _ <-]|done..].
  unfold markEvidenceProcessed, MarkProcessed, persistSlashingEvidence, modify, flow_logged, mbind, GoM_bind. simpl.
  destruct (sm_storage (fl_manager s)) as [db|]; simpl; [destruct (db_writable db); simpl; [|done]|];
    destruct (engine_applySlashing _ _ _ _ _ ev' _) as [[]]; done.
Qed.
Lemma receive_wrong clock ev s e s' : receives clock ev s = (Err (FlowSignatureWrong e), s') -> fl_manager s' = fl_manager s.
Proof.
  unfold receive_evidence, isEvidenceProcessed, IsProcessed, mbind, GoM_bind.
  destruct (lru_Get (ev_ID ev) (fl_tracker s)) as [g c]. simpl. case_bool_decide; simpl; [done|].
  destruct (sm_storage (fl_manager s)) as [db|]; simpl; [destruct (IsEvidenceProcessed (ev_ID ev) db); simpl; [done|]|];
    intros Ht%take_wrong; exact Ht.
Qed.

(** The handler on a free mutex. *)
Lemma received_free clock ev s r s1 : fl_mu s = unlocked -> receives clock ev (set_flow_mu (MkRW true 0) s) = (r, s1) -> fl_mu s1 = MkRW true 0 -> r <> Hang ->
  received clock ev s = (r, set_flow_mu unlocked s1).
Proof.
  intros Hmu Hr Hmu1 Hh. unfold processReceivedSlashingEvidence, flow_locked. rewrite Hmu. simpl. rewrite Hr.
  destruct r; try done; by rewrite Hmu1.
Qed.

(** C29. The first copy of some evidence decides.  When evidence from a peer has been
    applied, or refused for any other reason than that it is invalid, everything
    that arrives under its ID from then on is dropped without effect on the
    slashing manager, for as long as the tracker holds the ID: nothing is applied
    twice.  But a copy with a wrong signature, which changes nothing itself, also
    counts: sent ahead of the genuine evidence, it keeps it from being applied. *)
Theorem first_copy_decides clock ev (s s' : flow) r :
  fl_mu s = unlocked -> ev_ID ev <> "" -> received clock ev s = (r, s') -> decided r ->
  (forall e, r = Err (FlowSignatureWrong e) -> fl_manager s' = fl_manager s) /\
  forall clock' later s1, ev_ID later = ev_ID ev -> fl_mu s1 = fl_mu s' -> lru_view (fl_tracker s1) !! ev_ID ev = lru_view (fl_tracker s') !! ev_ID ev ->
  exists s2, received clock' later s1 = (Ok tt, s2) /\ fl_manager s2 = fl_manager s1 /\ fl_sent s2 = fl_sent s1.
Proof.
  intros Hmu Hid Hrun Hd. destruct (receives clock ev (set_flow_mu (MkRW true 0) s)) as [r0 s0] eqn:Hr.
  assert (Heq : r0 = r /\ (r <> Hang -> fl_tracker s' = fl_tracker s0 /\ fl_manager s' = fl_manager s0)).
  { revert Hrun. unfold processReceivedSlashingEvidence, flow_locked. rewrite Hmu. simpl. rewrite Hr.
    destruct r0; repeat case_match; intros; simplify_eq; try done. }
  destruct Heq as [-> Heq]. destruct (receive_decides clock ev _ r s0 Hid Hr Hd) as [Hrem Hmu0]. simpl in Hmu0.
  rewrite (received_free clock ev s r s0 Hmu Hr Hmu0) in Hrun by (intros ->; done). injection Hrun as <-.
  split; [intros e ->; by apply receive_wrong in Hr|].
  intros clock' later s1 Hl Hmu1 Hv. simpl in Hmu1, Hv.
  destruct (remembered_skipped clock' later (set_flow_mu (MkRW true 0) s1)) as (c & Hc & _); [unfold remembered; simpl; by rewrite Hl, Hv|].
  eexists. split; [by apply (received_free clock' later s1 _ _ Hmu1 Hc)|]. done.
Qed.
End Flow.

(** ** A forged copy *)

Module Demo.
Import SlashingSpec.Demo.
#[local] Existing Instances demo_secp demo_balancer evidence_json.
#[local] Instance tracker : LRU (list (string * loc)) := list_LRU 9999.
#[local] Instance tracker_laws : LRULaws (list (string * loc)) := list_LRU_laws 9999.

Definition by_key (k : byte) : list byte := match Sig_Bytes (E:=key_err) (demo_signature k) with Ok b => b | _ => [] end.
(** Alice reports her own double vote; the signature is [k]'s. *)
Definition evidence_signed (k : byte) : SlashingEvidence :=
  let e := double_evidence "alice" in
  MkEvidence (generateID sha e) (ev_Type e) (ev_ValidatorAddress e) (ev_Evidence e) (ev_Timestamp e) (ev_ReporterAddress e) (by_key k) 0 false.
Definition fresh_flow : @flow (list (string * loc)) (gmap string Z) := MkFlow [] (NewSlashingManager None funds) [] unlocked.
Definition clock_at (i : nat) : Z := second.
Notation arrives := (processReceivedSlashingEvidence (Pub:=byte) sha keccak show DefaultSlashingConfig 10 clock_at).
Definition alice_after (s : @flow (list (string * loc)) (gmap string Z)) : Z := demo_balance (sm_world (fl_manager s)) "alice".

Example genuine_alone_is_applied : is_ok (fst (arrives (evidence_signed x2a) fresh_flow)) = true /\ alice_after (snd (arrives (evidence_signed x2a) fresh_flow)) = 500.
Proof. vm_compute. auto. Qed.
Lemma first_copy_decides_witness : exists s s2 e,
  arrives (evidence_signed x2b) fresh_flow = (Err (FlowSignatureWrong e), s) /\ arrives (evidence_signed x2a) s = (Ok tt, s2) /\ alice_after s2 = 1000.
Proof.
  assert (Hf : exists e, fst (arrives (evidence_signed x2b) fresh_flow) = Err (FlowSignatureWrong e)) by (eexists; vm_compute; reflexivity).
  destruct Hf as [e He]. destruct (arrives (evidence_signed x2b) fresh_flow) as [r s] eqn:Hr. simpl in He. subst r.
  destruct (first_copy_decides (Pub:=byte) sha keccak show DefaultSlashingConfig 10 clock_at (evidence_signed x2b) fresh_flow s (Err (FlowSignatureWrong e)))
    as [Hm Hlater]; [reflexivity|vm_compute; discriminate|exact Hr|exact I|].
  destruct (Hlater clock_at (evidence_signed x2a) s) as (s2 & Hs2 & Hm2 & _); [reflexivity|reflexivity|reflexivity|].
  exists s, s2, e. split_and!; [reflexivity|exact Hs2|]. unfold alice_after. rewrite Hm2, (Hm e eq_refl). vm_compute. reflexivity.
Defined.
End Demo.
