(* ===== verification/NodeEngine.v ===== *)
(** * The engine on the components of the node

    The interface [EnginePorts] as the node realises it (src/node/node.go): the
    world state, the chain, the slashing manager, the block proposer and the
    transaction validator of this development.  The chain and its world state are
    the world of the slashing manager. *)

From S2P Require Import Prelude SafeMath Uint256 Address Storage AccountManager Pool Replay ShardedLock Governance Domains EvmGas World Executor StateRoot BlockDB Chain.
From S2P Require Import Hashes Keys Wire TxHash TxValidator ForkChoice SlashStore Slashing SlashingSpec Floats Selection Staking Blockchain Timing Traversal Messages Proposer Engine EngineSpec.
From stdpp Require Import base tactics numbers list gmap strings.
From Stdlib Require Import ZArith Lia Strings.Byte Strings.Ascii.
Open Scope Z_scope.
Open Scope list_scope.

Inductive component_err : Type :=
| FromChain (e : chain_err)
| FromBlockchain (e : bc_err)
| FromSlashing (e : sl_error)
| FromSimulation (e : sim_err)
| FromValidator (e : tv_err)
| FromProposer (e : prop_err).

Section Components.
Context `{MapOrder} {C F : Type} `{LRU C} `{Float64 F}.
Context `{Json Proposal, Json ProposalPayload, Json VotePayload, Json FinalizePayload, Json stakeDomainMembers}.
Context {Pub Priv : Type} `{Secp256k1 Pub Priv}.
Context (Keccak256 HexToAddress : list byte -> list byte) (shardID totalShards : Z) (ChainID : string).
Context (StateEncodingUpgradeHeight : Z) (limits : BlockLimits) (evm : evm_engine (@world C F)).
Context (txConfig : TxConfig) (EIP155Sender : Z -> LegacyTx -> option Address) (HomesteadSender : LegacyTx -> option Address).
Context (Sha256 : string -> list byte) (show_proposal : BlockProposal -> string) (config : SlashingConfig).
(** [config.Consensus.MaxFutureBlockTime] and the time a proposal takes. *)
Context (maxFuture took : Z).
Notation ledger := (@blockchain C F).

Definition world_of (b : ledger) : @world C F := ws_world (nd_ws (bc_node b)).
Definition on_chain_node {E A} (m : GoM (@node C F) E A) : GoM ledger E A := fun b =>
  let '(r, n) := m (bc_node b) in (r, bc_set_node n b).
Definition block_of (b : ledger) (hash : string) : option Block := match GetBlock hash (db (w_am (world_of b))) with (Ok x, _) => Some x | _ => None end.

#[local] Instance chain_balancer : WorldStateBalancer ledger := {|
  bal_err := ws_err;
  bal_GetBalance a := on_chain_node (on_nd_world (ws_GetBalance Keccak256 shardID totalShards a));
  bal_UpdateBalance a v := on_chain_node (on_nd_world (ws_UpdateBalance Keccak256 shardID totalShards a (Some v)));
  bal_GetHeight b := ch_height (ws_chain (nd_ws (bc_node b)));
  bal_GetValidator b a := w_validators (world_of b) !! a
|}.

Record components : Type := MkComponents { cm_manager : SlashingManager ledger; cm_proposer : BlockProposer; cm_validator : TxValidator }.
Definition cm_chain (s : components) : ledger := sm_world (cm_manager s).
Definition on_slashing {E A} (m : GoM (SlashingManager ledger) E A) : GoM components E A := fun s =>
  let '(r, m') := m (cm_manager s) in (r, MkComponents m' (cm_proposer s) (cm_validator s)).
Definition on_chain {E A} (m : GoM ledger E A) : GoM components E A := fun s =>
  let '(r, b) := m (cm_chain s) in (r, MkComponents (set_sm_world b (cm_manager s)) (cm_proposer s) (cm_validator s)).
Definition on_chain_world {E A} (m : GoM (@node C F) E A) : GoM components E A := on_chain (on_chain_node m).

(** What the fork choice reads, and the slashing manager it calls. *)
Definition chain_reader (b : ledger) : WorldStateReader :=
  MkReader (fun a => w_validators (world_of b) !! a) (GetActiveValidators (registry_of (world_of b))) (block_of b).
Definition component_slasher : Slasher components := {|
  sl_err := sl_error;
  sl_reader s := chain_reader (cm_chain s);
  sl_present _ := true;
  sl_ProcessAttestation now a := on_slashing (sm_ProcessAttestation config now a);
  sl_conflict e := match e with DoubleSigningError r => Some (attestation_of r) | _ => None end;
  sl_ApplyDoubleVoteSlashing now a b := on_slashing (ApplyDoubleVoteSlashing Sha256 show_proposal config now (Some a) (Some b));
  sl_IsValidatorActive now v := on_slashing (IsValidatorActive config now v)
|}.

(** [ws.ValidateTransaction]: with the height, and the transaction normalised. *)
Definition validate_at (clk : clocks) (tx : Transaction) (height : Z) : GoM components component_err Transaction := fun s =>
  let b := cm_chain s in
  let '(r, ((v, tx'), w)) := ValidateTransaction (Pub:=Pub) Keccak256 HexToAddress shardID totalShards txConfig EIP155Sender HomesteadSender clk height
                              ((cm_validator s, tx), world_of b) in
  ((_ ← wrap FromValidator r; Ok tx'),
   MkComponents (set_sm_world (bc_set_node (set_ws (set_world w (nd_ws (bc_node b))) (bc_node b)) b) (cm_manager s)) (cm_proposer s) v).
Definition validate_transaction (clk : clocks) (tx : Transaction) : GoM components component_err Transaction :=
  height ← on_chain_world nd_GetHeight; validate_at clk tx height.
Definition propose_block (clock : nat -> Z) (slot epoch : Z) (vrfOutput vrfProof : list byte) : GoM components component_err Block := fun s =>
  let b := cm_chain s in
  let '(r, (bp, n)) := ProposeBlockWithVRF Keccak256 shardID totalShards clock took slot epoch vrfOutput vrfProof (cm_proposer s, bc_node b) in
  ((x ← wrap FromProposer r; Ok (br_Block x)), MkComponents (set_sm_world (bc_set_node n b) (cm_manager s)) bp (cm_validator s)).

Definition component_ports : EnginePorts components := {|
  ep_err := component_err;
  ep_registry s := registry_of (world_of (cm_chain s));
  ep_put_registry g s := snd (on_chain_world (E:=unit) (on_nd_world (modify (set_registry g))) s);
  ep_GetHeight := on_chain_world nd_GetHeight;
  ep_GetCurrentBlock := on_chain_world Chain.GetCurrentBlock;
  ep_ValidateTransaction := validate_transaction;
  ep_SimulateStateRoot b := wrapM FromSimulation (on_chain_world (on_ws (SimulateStateRoot Keccak256 shardID totalShards StateEncodingUpgradeHeight (blk_Transactions b))));
  ep_AddBlock exec b := wrapM FromChain (on_chain_world (AddBlock Keccak256 HexToAddress shardID totalShards ChainID StateEncodingUpgradeHeight limits evm exec (Some b)));
  ep_ProcessUnbondingQueue now := wrapM FromBlockchain (on_chain (process_queue Keccak256 shardID totalShards now));
  ep_ReorganizeChain exec now l := wrapM FromBlockchain (on_chain (ReorganizeChain Keccak256 HexToAddress shardID totalShards ChainID StateEncodingUpgradeHeight limits evm exec now maxFuture l));
  ep_ProposeBlockWithVRF := propose_block;
  ep_ReportBlockWithholding now a := wrapM FromSlashing (on_slashing (ReportBlockWithholding Sha256 show_proposal config now a));
  ep_ProcessVote now v := wrapM FromSlashing (on_slashing (ProcessVote now (Some v)));
  ep_surround e := match e with FromSlashing (SurroundVotingError inner outer) => Some (inner, outer) | _ => None end;
  ep_ApplySurroundVoteSlashing now a b := wrapM FromSlashing (on_slashing (ApplySurroundVoteSlashing Sha256 show_proposal config now (Some a) (Some b)))
|}.

(** ** The chain while a block of a peer is handled *)

(** Height, state root and current block of the chain. *)
Definition tip (s : components) : StateRoot.chain * string := (ws_chain (nd_ws (bc_node (cm_chain s))), currentHash (bc_node (cm_chain s))).
Definition node_tip (n : @node C F) : StateRoot.chain * string := (ws_chain (nd_ws n), currentHash n).

Lemma frame_kv {E A} (m : GoM KV E A) : frame node_tip (on_kv m).
Proof. intros n. unfold on_kv. by destruct (m _). Qed.
Lemma frame_nd_locked {E A} m x (body : GoM (@node C F) E A) : frame node_tip body -> frame node_tip (nd_locked m x body).
Proof.
  intros Hb n. unfold nd_locked, StateRoot.mutex_op. destruct (mutex_call true m (ws_mutex (nd_ws n) x)) as [[l|e| |]|]; try done.
  specialize (Hb (set_ws (set_mutex x l (nd_ws n)) n)). destruct (body _) as [r n1]. simpl in Hb.
  destruct r; destruct (mutex_call false m (ws_mutex (nd_ws n1) x)) as [[l'|e'| |]|]; simpl; by rewrite <-?Hb.
Qed.
Lemma frame_tip {E A} (m : GoM (@node C F) E A) : frame node_tip m -> frame tip (on_chain_world m).
Proof.
  intros Hm s. specialize (Hm (bc_node (cm_chain s))). unfold on_chain_world, on_chain, on_chain_node. by destruct (m _).
Qed.
Lemma frame_current_block {E} : frame node_tip (Chain.GetCurrentBlock (E:=E)).
Proof.
  apply frame_nd_locked. intros n. unfold getCurrentBlockUnsafe.
  match goal with |- context [on_kv ?l n] => pose proof (frame_kv l n) as Hf; destruct (on_kv l n) as [[]] end; done.
Qed.

#[local] Existing Instances component_slasher component_ports.
#[local] Instance tip_kept : Kept tip.
Proof.
  split.
  - apply frame_tip, frame_current_block.
  - intros clk tx. apply frame_bind; [apply frame_tip, frame_nd_locked; by intros n|]. intros h s. unfold validate_at. by destruct (ValidateTransaction _ _ _ _ _ _ _ _ _ _) as [r [[v tx'] w]].
  - intros g s. done.
Qed.

(** The node as it is put together never extends its chain with a block of a peer:
    whatever proposal arrives, and whatever the handler does with it, the height,
    the state root and the current block are what they were. *)
Theorem peer_blocks_leave_the_chain (Sha : list byte -> list byte) cfg clock clk exec p (s : @engine components) :
  tip (ce_node (snd (handleBlockProposal (Pub:=Pub) Keccak256 Sha cfg clock clk exec p s))) = tip (ce_node s).
Proof. apply (frame_handle_proposal Keccak256 Sha cfg tip). Qed.
End Components.
