(* ===== verification/PeerGuard.v ===== *)
(** * Judging peers (src/network/p2p/validation.go)

    Every message of a peer is counted against a rate, a number of requests under
    way and a quota for its priority; misbehaviour lowers the reputation of the
    peer, throttles it or bans it for a while.  Readings of the clock, in
    nanoseconds, are arguments. *)

From S2P Require Import Prelude SafeMath Floats.
From stdpp Require Import base tactics numbers list gmap strings.
From Stdlib Require Import ZArith Lia.
Open Scope Z_scope.
Open Scope list_scope.

Definition sec : Z := 1000000000.
Definition minute : Z := 60 * sec.
(** [time.Time{}], and [t.Sub(u)], which stops at the ends of its type. *)
Definition zero_time : Z := -62135596800 * sec.
Definition since (now t : Z) : Z := Z.max (- two63) (Z.min (two63 - 1) (now - t)).

Definition DefaultMaxMessageSize : Z := 2 * 1024 * 1024.
Definition DefaultMaxBlockRangeSize : Z := 20.
Definition DefaultRequestRateLimit : Z := 200.
Definition DefaultMaxPendingRequests : Z := 100.
Definition HighReputationRateLimit : Z := 300.
Definition MediumReputationRateLimit : Z := 200.
Definition LowReputationRateLimit : Z := 100.
Definition ReputationInitial : Z := 100.
Definition ReputationMax : Z := 200.
Definition ReputationMin : Z := 0.
Definition ReputationBanThreshold : Z := 50.
Definition ScoreSpam : Z := -10.
Definition ScoreExcessiveRequests : Z := -15.
Definition ThrottleHighLoad : float64 := f64_const 8 10.
Definition ThrottleCriticalLoad : float64 := f64_const 95 100.
Definition ShortBanDuration : Z := 10 * minute.
Definition MediumBanDuration : Z := 60 * minute.
Definition LongBanDuration : Z := 24 * 60 * minute.

Inductive MessagePriority : Type := PriorityLow | PriorityNormal | PriorityHigh | PriorityCritical.
#[global] Instance MessagePriority_eq_dec : EqDecision MessagePriority.
Proof. solve_decision. Defined.
Definition level (p : MessagePriority) : nat := match p with PriorityLow => 0 | PriorityNormal => 1 | PriorityHigh => 2 | PriorityCritical => 3 end.
(** [priority < PriorityHigh]. *)
Definition below_high (p : MessagePriority) : bool := (level p <? level PriorityHigh)%nat.

Inductive guard_err : Type :=
| HighLoad | PeerBanned | PeerThrottled | BannedForExcess | RateExceeded | TooManyPending (n : Z) | QuotaExceeded
| NegativeStart (h : Z) | EndBeforeStart | RangeTooLarge (n : Z).

Record PeerRequestTracker : Type := MkTracker {
  requestCount : Z;
  pendingRequests : Z;
  lastReset : Z;
  rateLimit : Z;
  maxPending : Z;
  score : Z;
  isBanned : bool;
  banExpires : Z;
  consecutiveFailures : Z;
  lastRequestTime : Z;
  goodRequests : Z;
  badRequests : Z;
  priorityQuota : gmap nat Z;
  isThrottled : bool;
  throttleExpires : Z
}.
Record MessageValidator : Type := MkGuard {
  maxBlockRangeSize : Z;
  peerRequests : gmap string PeerRequestTracker;
  totalPendingRequests : Z;
  maxGlobalPending : Z;
  banHistory : gmap string Z
}.
Definition NewMessageValidator (maxBlockRange : Z) : MessageValidator := MkGuard maxBlockRange ∅ 0 1000 ∅.
Notation Pg := (GoM MessageValidator guard_err).

Definition put_tracker (peer : string) (t : PeerRequestTracker) (mv : MessageValidator) : MessageValidator :=
  MkGuard (maxBlockRangeSize mv) (<[peer := t]> (peerRequests mv)) (totalPendingRequests mv) (maxGlobalPending mv) (banHistory mv).
Definition set_pending_total (n : Z) (mv : MessageValidator) : MessageValidator :=
  MkGuard (maxBlockRangeSize mv) (peerRequests mv) n (maxGlobalPending mv) (banHistory mv).

(** ** Parts of the check *)

Definition checkGlobalLoadInternal (mv : MessageValidator) : bool :=
  if maxGlobalPending mv =? 0 then false
  else
    let load := f64_div (f64_of_int (totalPendingRequests mv)) (f64_of_int (maxGlobalPending mv)) in
    f64_le ThrottleCriticalLoad load || f64_le ThrottleHighLoad load.
Definition calculateRateLimitInternal (s : Z) : Z :=
  if 150 <=? s then HighReputationRateLimit else if 80 <=? s then MediumReputationRateLimit else LowReputationRateLimit.
Definition calculateBanDurationInternal (peer : string) (mv : MessageValidator) : Z :=
  let banCount := default 0 (banHistory mv !! peer) in
  if banCount =? 0 then ShortBanDuration else if banCount =? 1 then MediumBanDuration else LongBanDuration.

Definition set_ban (banned : bool) (expires : Z) (t : PeerRequestTracker) : PeerRequestTracker :=
  MkTracker (requestCount t) (pendingRequests t) (lastReset t) (rateLimit t) (maxPending t) (score t) banned expires (consecutiveFailures t)
    (lastRequestTime t) (goodRequests t) (badRequests t) (priorityQuota t) (isThrottled t) (throttleExpires t).
Definition set_score (s failures : Z) (t : PeerRequestTracker) : PeerRequestTracker :=
  MkTracker (requestCount t) (pendingRequests t) (lastReset t) (rateLimit t) (maxPending t) s (isBanned t) (banExpires t) failures
    (lastRequestTime t) (goodRequests t) (badRequests t) (priorityQuota t) (isThrottled t) (throttleExpires t).
Definition set_window (reset rate : Z) (t : PeerRequestTracker) : PeerRequestTracker :=
  MkTracker 0 (pendingRequests t) reset rate (maxPending t) (score t) (isBanned t) (banExpires t) (consecutiveFailures t)
    (lastRequestTime t) (goodRequests t) (badRequests t) (priorityQuota t) (isThrottled t) (throttleExpires t).
Definition set_quota (q : gmap nat Z) (t : PeerRequestTracker) : PeerRequestTracker :=
  MkTracker (requestCount t) (pendingRequests t) (lastReset t) (rateLimit t) (maxPending t) (score t) (isBanned t) (banExpires t) (consecutiveFailures t)
    (lastRequestTime t) (goodRequests t) (badRequests t) q (isThrottled t) (throttleExpires t).
Definition throttlePeerInternal (now duration : Z) (t : PeerRequestTracker) : PeerRequestTracker :=
  MkTracker (requestCount t) (pendingRequests t) (lastReset t) (rateLimit t) (maxPending t) (score t) (isBanned t) (banExpires t) (consecutiveFailures t)
    (lastRequestTime t) (goodRequests t) (badRequests t) (priorityQuota t) true (now + duration).
Definition banPeerInternal (now duration : Z) (t : PeerRequestTracker) : PeerRequestTracker := set_ban true (now + duration) t.
Definition set_counts (requests pending last : Z) (t : PeerRequestTracker) : PeerRequestTracker :=
  MkTracker requests pending (lastReset t) (rateLimit t) (maxPending t) (score t) (isBanned t) (banExpires t) (consecutiveFailures t)
    last (goodRequests t) (badRequests t) (priorityQuota t) (isThrottled t) (throttleExpires t).
Definition set_record (good bad : Z) (t : PeerRequestTracker) : PeerRequestTracker :=
  MkTracker (requestCount t) (pendingRequests t) (lastReset t) (rateLimit t) (maxPending t) (score t) (isBanned t) (banExpires t) (consecutiveFailures t)
    (lastRequestTime t) good bad (priorityQuota t) (isThrottled t) (throttleExpires t).

Definition new_tracker (reset last : Z) : PeerRequestTracker :=
  MkTracker 0 0 reset DefaultRequestRateLimit DefaultMaxPendingRequests ReputationInitial false zero_time 0 last 0 0 ∅ false zero_time.
Definition banned_tracker (reset : Z) : PeerRequestTracker := MkTracker 0 0 reset 0 0 ReputationMin false zero_time 0 zero_time 0 0 ∅ false zero_time.

Definition max_quota (p : MessagePriority) : Z :=
  match p with PriorityCritical => 200 | PriorityHigh => 300 | PriorityNormal => 400 | PriorityLow => 200 end.
(** [false]: the quota is used up; the quotas may have been reset all the same. *)
Definition checkPriorityQuotaInternal (now : Z) (p : MessagePriority) (t : PeerRequestTracker) : bool * PeerRequestTracker :=
  let quota := if minute <? since now (lastReset t) then ∅ else priorityQuota t in
  let current := default 0 (quota !! level p) in
  if max_quota p <=? current then (false, set_quota quota t) else (true, set_quota (<[level p := i64 (current + 1)]> quota) t).

(** ** The check *)

(** The tracker is written in place: what happened to it stays, whatever the answer.
    The readings of the clock come in the order of the code. *)
Definition judge (clock : nat -> Z) (duration : Z) (p : MessagePriority) (t : PeerRequestTracker) : outcome guard_err unit * PeerRequestTracker :=
  if isBanned t && negb (banExpires t <? clock 2%nat) then (Err PeerBanned, t)
  else
    let t := if isBanned t then set_score (ReputationInitial / 2) 0 (set_ban false (banExpires t) t) else t in
    if isThrottled t && (clock 3%nat <? throttleExpires t) && below_high p then (Err PeerThrottled, t)
    else
      let t := if minute <? since (clock 4%nat) (lastReset t) then set_window (clock 5%nat) (calculateRateLimitInternal (score t)) t else t in
      if rateLimit t <=? requestCount t then
        let t := set_score (i64 (score t + ScoreExcessiveRequests)) (i64 (consecutiveFailures t + 1)) t in
        if 3 <=? consecutiveFailures t then (Err BannedForExcess, banPeerInternal (clock 6%nat) duration t)
        else (Err RateExceeded, throttlePeerInternal (clock 6%nat) (5 * minute) t)
      else if maxPending t <=? pendingRequests t then (Err (TooManyPending (pendingRequests t)), set_score (i64 (score t + ScoreSpam)) (consecutiveFailures t) t)
      else
        let '(ok, t) := checkPriorityQuotaInternal (clock 7%nat) p t in
        if ok then (Ok tt, set_counts (i64 (requestCount t + 1)) (i64 (pendingRequests t + 1)) (clock 8%nat) t) else (Err QuotaExceeded, t).

Definition CheckPeerStatusWithPriority (clock : nat -> Z) (peer : string) (p : MessagePriority) : Pg unit := fun mv =>
  if checkGlobalLoadInternal mv && below_high p then (Err HighLoad, mv)
  else
    let t := default (new_tracker (clock 0%nat) (clock 1%nat)) (peerRequests mv !! peer) in
    let '(r, t) := judge clock (calculateBanDurationInternal peer mv) p t in
    let mv := put_tracker peer t mv in
    (r, if is_ok r then set_pending_total (i64 (totalPendingRequests mv + 1)) mv else mv).
Definition CheckPeerStatus (clock : nat -> Z) (peer : string) : Pg unit := CheckPeerStatusWithPriority clock peer PriorityNormal.
Definition CheckRateLimit (clock : nat -> Z) (peer : string) : Pg unit := CheckPeerStatus clock peer.

(** ** After the request *)

Definition ReleaseRequest (peer : string) : Pg unit := modify (fun mv =>
  match peerRequests mv !! peer with
  | Some t =>
      if 0 <? pendingRequests t then
        set_pending_total (i64 (totalPendingRequests mv - 1)) (put_tracker peer (set_counts (requestCount t) (i64 (pendingRequests t - 1)) (lastRequestTime t) t) mv)
      else mv
  | None => mv
  end).

Definition clamp (s : Z) : Z :=
  let s := if ReputationMax <? s then ReputationMax else s in if s <? ReputationMin then ReputationMin else s.
Definition AdjustReputation (now : Z) (peer : string) (delta : Z) : Pg unit := modify (fun mv =>
  match peerRequests mv !! peer with
  | None => mv
  | Some t =>
      let t := if 0 <? delta then set_score (score t) 0 (set_record (i64 (goodRequests t + 1)) (badRequests t) t)
               else set_score (score t) (i64 (consecutiveFailures t + 1)) (set_record (goodRequests t) (i64 (badRequests t + 1)) t) in
      let t := set_score (clamp (i64 (score t + delta))) (consecutiveFailures t) t in
      put_tracker peer
        (if (5 <=? consecutiveFailures t) || (score t <=? ReputationBanThreshold) then banPeerInternal now (calculateBanDurationInternal peer mv) t else t) mv
  end).

Definition BanPeer (now1 now2 : Z) (peer : string) (duration : Z) : Pg unit := modify (fun mv =>
  let t := default (banned_tracker now1) (peerRequests mv !! peer) in
  let mv := put_tracker peer (set_score ReputationMin (consecutiveFailures t) (set_ban true (now2 + duration) t)) mv in
  MkGuard (maxBlockRangeSize mv) (peerRequests mv) (totalPendingRequests mv) (maxGlobalPending mv)
    (<[peer := i64 (default 0 (banHistory mv !! peer) + 1)]> (banHistory mv))).

Definition inactive (now threshold : Z) (t : PeerRequestTracker) : bool := negb (isBanned t) && (threshold <? since now (lastRequestTime t)).
Definition CleanupInactivePeers (now threshold : Z) : Pg Z := fun mv =>
  let kept := filter (fun kv => inactive now threshold kv.2 = false) (peerRequests mv) in
  (Ok (Z.of_nat (size (peerRequests mv)) - Z.of_nat (size kept)),
   MkGuard (maxBlockRangeSize mv) kept (totalPendingRequests mv) (maxGlobalPending mv) (banHistory mv)).

Definition ValidateBlockRangeRequest (startHeight endHeight : Z) (mv : MessageValidator) : outcome guard_err unit :=
  if startHeight <? 0 then Err (NegativeStart startHeight)
  else if endHeight <? startHeight then Err EndBeforeStart
  else if maxBlockRangeSize mv <? i64 (endHeight - startHeight) then Err (RangeTooLarge (i64 (endHeight - startHeight)))
  else Ok tt.
Definition GetPeerReputation (peer : string) (mv : MessageValidator) : Z :=
  match peerRequests mv !! peer with Some t => score t | None => ReputationInitial end.
