(* ===== verification/PeerGuardSpec.v ===== *)
(** * What the judgement of peers guarantees

    The callers of src/network/p2p/validation.go never release a message that
    arrived by gossip, and never clean up or unban by hand.  Over such a history the
    number of messages the guard lets through is bounded for the life of the node. *)

From S2P Require Import Prelude SafeMath Floats PeerGuard.
From stdpp Require Import base tactics numbers list gmap strings.
From Stdlib Require Import ZArith Lia.
Open Scope Z_scope.
Open Scope list_scope.

(** ** One judgement *)

Ltac judge_cases :=
  repeat match goal with
  | |- context [if ?b then _ else _] => destruct b eqn:?
  end.

(** What a passed check takes, and that a refused one takes nothing. *)
Definition takes (r : outcome guard_err unit) (before after : PeerRequestTracker) : Prop :=
  maxPending after = maxPending before /\
  (if is_ok r then pendingRequests before < maxPending before /\ pendingRequests after = i64 (pendingRequests before + 1)
   else pendingRequests after = pendingRequests before).

Lemma judge_takes clock d p t : takes (judge clock d p t).1 t (judge clock d p t).2.
Proof.
  unfold judge, checkPriorityQuotaInternal, takes. cbv zeta.
  destruct (isBanned t && _); [done|].
  set (t1 := if isBanned t then _ else t).
  assert (Ht : maxPending t1 = maxPending t /\ pendingRequests t1 = pendingRequests t) by (unfold t1; destruct (isBanned t); done).
  destruct Ht as [Hm Hp]. clearbody t1.
  destruct (_ && below_high p); [done|].
  set (t2 := if minute <? _ then _ else t1).
  assert (Ht : maxPending t2 = maxPending t /\ pendingRequests t2 = pendingRequests t) by (unfold t2; destruct (minute <? _); done).
  destruct Ht as [Hm2 Hp2]. clearbody t2.
  destruct (rateLimit t2 <=? requestCount t2); [destruct (3 <=? _); done|].
  destruct (Z.leb_spec (maxPending t2) (pendingRequests t2)); [done|].
  destruct (max_quota p <=? _); simpl; [done|]. rewrite Hm2, Hp2 in *. done.
Qed.

(** ** Histories of the callers *)

(** What the node does with a guard: a check that is not released (gossip), the
    check and the release of a stream handler, a report on a peer. *)
Inductive guard_event : Type :=
| Kept (clock : nat -> Z) (peer : string)
| Opened (clock : nat -> Z) (peer : string)
| Closed (peer : string)
| Reported (now : Z) (peer : string) (delta : Z).

Definition bump (k : string) (d : Z) (m : gmap string Z) : gmap string Z := <[k := default 0 (m !! k) + d]> m.

(** The guard, the messages let through for good and the streams under way, by peer.
    A handler closes only a stream it has opened. *)
Record history : Type := MkHistory { guard : MessageValidator; kept : gmap string Z; streams : gmap string Z }.
Definition event_step (e : guard_event) (h : history) : history :=
  match e with
  | Kept clock peer =>
      let '(r, mv) := CheckPeerStatus clock peer (guard h) in
      MkHistory mv (if is_ok r then bump peer 1 (kept h) else kept h) (streams h)
  | Opened clock peer =>
      let '(r, mv) := CheckRateLimit clock peer (guard h) in
      MkHistory mv (kept h) (if is_ok r then bump peer 1 (streams h) else streams h)
  | Closed peer =>
      if 0 <? default 0 (streams h !! peer) then MkHistory (ReleaseRequest peer (guard h)).2 (kept h) (bump peer (-1) (streams h)) else h
  | Reported now peer delta => MkHistory (AdjustReputation now peer delta (guard h)).2 (kept h) (streams h)
  end.
Fixpoint events (es : list guard_event) (h : history) : history :=
  match es with [] => h | e :: es => events es (event_step e h) end.
Definition fresh (range : Z) : history := MkHistory (NewMessageValidator range) ∅ ∅.

Definition held (peer : string) (mv : MessageValidator) : Z := match peerRequests mv !! peer with Some t => pendingRequests t | None => 0 end.

(** Every request under way is one of the messages let through or an open stream. *)
Record booked (h : history) : Prop := MkBooked {
  bk_peer : forall peer, held peer (guard h) = default 0 (kept h !! peer) + default 0 (streams h !! peer);
  bk_total : totalPendingRequests (guard h) = map_sum id (kept h) + map_sum id (streams h);
  bk_low : totalPendingRequests (guard h) <= 800;
  bk_max : forall peer t, peerRequests (guard h) !! peer = Some t -> maxPending t = DefaultMaxPendingRequests /\ pendingRequests t <= DefaultMaxPendingRequests;
  bk_kept : forall peer, 0 <= default 0 (kept h !! peer);
  bk_streams : forall peer, 0 <= default 0 (streams h !! peer);
  bk_global : maxGlobalPending (guard h) = 1000
}.

Lemma bump_total k d m : map_sum id (bump k d m) = map_sum id m + d.
Proof.
  unfold bump. destruct (m !! k) as [n|] eqn:Hk; simpl.
  - rewrite (map_sum_insert_Some id m k n) by done. simpl. lia.
  - rewrite map_sum_insert_None by done. simpl. lia.
Qed.
Lemma bump_lookup k d m j : default 0 (bump k d m !! j) = default 0 (m !! j) + (if decide (k = j) then d else 0).
Proof.
  unfold bump. case_decide as Hj.
  - subst. by rewrite lookup_insert_eq.
  - rewrite lookup_insert_ne by done. lia.
Qed.

Lemma booked_nonneg h : booked h -> 0 <= map_sum id (kept h) /\ 0 <= map_sum id (streams h).
Proof.
  intros Hb; split; apply map_sum_nonneg; intros k v Hk.
  - pose proof (bk_kept h Hb k) as Hn. by rewrite Hk in Hn.
  - pose proof (bk_streams h Hb k) as Hn. by rewrite Hk in Hn.
Qed.

(** At 800 of 1000 requests the load is high: nothing below high priority passes. *)
Lemma full_load mv : totalPendingRequests mv = 800 -> maxGlobalPending mv = 1000 -> checkGlobalLoadInternal mv = true.
Proof. intros Ht Hg. unfold checkGlobalLoadInternal. rewrite Ht, Hg. vm_compute. reflexivity. Qed.

Definition check_tracker (clock : nat -> Z) (peer : string) (mv : MessageValidator) : PeerRequestTracker :=
  default (new_tracker (clock 0%nat) (clock 1%nat)) (peerRequests mv !! peer).
Lemma check_unfold clock peer mv :
  CheckPeerStatus clock peer mv =
  if checkGlobalLoadInternal mv then (Err HighLoad, mv)
  else let j := judge clock (calculateBanDurationInternal peer mv) PriorityNormal (check_tracker clock peer mv) in
       (j.1, if is_ok j.1 then set_pending_total (i64 (totalPendingRequests mv + 1)) (put_tracker peer j.2 mv) else put_tracker peer j.2 mv).
Proof.
  unfold CheckPeerStatus, CheckPeerStatusWithPriority, check_tracker. rewrite andb_true_r.
  destruct (checkGlobalLoadInternal mv); [done|]. destruct (judge _ _ _ _). done.
Qed.

(** The tracker a check starts from. *)
Lemma ready_tracker clock peer h : booked h ->
  let t := check_tracker clock peer (guard h) in
  maxPending t = DefaultMaxPendingRequests /\ pendingRequests t = held peer (guard h) /\ 0 <= held peer (guard h) <= DefaultMaxPendingRequests.
Proof.
  intros Hb. pose proof (bk_peer h Hb peer) as Hp. pose proof (bk_kept h Hb peer) as Hk1. pose proof (bk_streams h Hb peer) as Hk2.
  unfold check_tracker, held in *. destruct (peerRequests (guard h) !! peer) as [t|] eqn:Hk; simpl.
  - pose proof (bk_max h Hb peer t Hk) as [Hm Hl]. repeat split; lia.
  - unfold DefaultMaxPendingRequests. repeat split; lia.
Qed.

(** What a check does to the books, in terms of the count it lets through. *)
Lemma check_books clock peer h : booked h ->
  let '(r, mv) := CheckPeerStatus clock peer (guard h) in
  let d := if is_ok r then 1 else 0 in
  (forall j, held j mv = held j (guard h) + (if decide (peer = j) then d else 0)) /\
  totalPendingRequests mv = totalPendingRequests (guard h) + d /\ totalPendingRequests mv <= 800 /\ maxGlobalPending mv = 1000 /\
  (forall j t, peerRequests mv !! j = Some t -> maxPending t = DefaultMaxPendingRequests /\ pendingRequests t <= DefaultMaxPendingRequests).
Proof.
  intros Hb. rewrite check_unfold. set (mv := guard h).
  pose proof (bk_low h Hb) as Hlow. pose proof (bk_total h Hb) as Htot. pose proof (booked_nonneg h Hb) as Hnn. pose proof (bk_global h Hb) as Hg.
  destruct (checkGlobalLoadInternal mv) eqn:Hload; cbv zeta.
  { cbn [is_ok]. repeat split; try (unfold mv in *; lia); try (by intros j; case_decide; lia); intros; by eapply (bk_max h Hb). }
  assert (Hlt : totalPendingRequests mv <= 799).
  { destruct (Z.eq_dec (totalPendingRequests mv) 800) as [He|]; [|unfold mv in *; lia]. rewrite (full_load mv He Hg) in Hload. done. }
  pose proof (judge_takes clock (calculateBanDurationInternal peer mv) PriorityNormal (check_tracker clock peer mv)) as [Hmax Htake].
  set (j := judge _ _ _ _) in *.
  pose proof (ready_tracker clock peer h Hb) as (Hm0 & Hp0 & Hr0). fold mv in Hm0, Hp0, Hr0.
  assert (Hnew : pendingRequests j.2 = held peer mv + (if is_ok j.1 then 1 else 0) /\ pendingRequests j.2 <= DefaultMaxPendingRequests).
  { destruct (is_ok j.1); rewrite Hp0 in Htake; [|lia]. destruct Htake as [Hl He]. rewrite He, i64_id; [lia|].
    unfold DefaultMaxPendingRequests in *. unfold_ints. lia. }
  assert (Hput : forall mv', peerRequests mv' = <[peer := j.2]> (peerRequests mv) ->
            (forall k, held k mv' = held k mv + (if decide (peer = k) then if is_ok j.1 then 1 else 0 else 0)) /\
            (forall k t, peerRequests mv' !! k = Some t -> maxPending t = DefaultMaxPendingRequests /\ pendingRequests t <= DefaultMaxPendingRequests)).
  { intros mv' He. split.
    - intros k. unfold held at 1. rewrite He. case_decide as Hk; [subst; rewrite lookup_insert_eq; lia|]. rewrite lookup_insert_ne by done. unfold held. lia.
    - intros k t. rewrite He. intros [[-> <-]|[_ Hk]]%lookup_insert_Some; [split; [congruence|lia]|by eapply (bk_max h Hb)]. }
  destruct (is_ok j.1) eqn:Hok; cbn [fst snd]; rewrite ?Hok.
  - destruct (Hput (set_pending_total (i64 (totalPendingRequests mv + 1)) (put_tracker peer j.2 mv)) eq_refl) as [Ha Hbb].
    assert (Hi : i64 (totalPendingRequests mv + 1) = totalPendingRequests mv + 1) by (apply i64_id; unfold_ints; unfold mv in *; lia).
    simpl. rewrite Hi. split_and!; [exact Ha|lia|lia|exact Hg|exact Hbb].
  - destruct (Hput (put_tracker peer j.2 mv) eq_refl) as [Ha Hbb].
    simpl. split_and!; [exact Ha|lia|exact Hlow|exact Hg|exact Hbb].
Qed.

(** Same for a release and a report. *)
Lemma release_books peer h : booked h -> 0 < default 0 (streams h !! peer) ->
  let mv := (ReleaseRequest peer (guard h)).2 in
  (forall j, held j mv = held j (guard h) + (if decide (peer = j) then -1 else 0)) /\
  totalPendingRequests mv = totalPendingRequests (guard h) - 1 /\ maxGlobalPending mv = 1000 /\
  (forall j t, peerRequests mv !! j = Some t -> maxPending t = DefaultMaxPendingRequests /\ pendingRequests t <= DefaultMaxPendingRequests).
Proof.
  intros Hb Hs. pose proof (bk_peer h Hb peer) as Hp. pose proof (bk_kept h Hb peer). pose proof (bk_total h Hb). pose proof (booked_nonneg h Hb).
  pose proof (bk_low h Hb). unfold ReleaseRequest, modify, snd. cbv zeta.
  unfold held in Hp. destruct (peerRequests (guard h) !! peer) as [t|] eqn:Hk; [|lia].
  pose proof (bk_max h Hb peer t Hk) as [Hm Hl]. unfold DefaultMaxPendingRequests in *.
  rewrite (proj2 (Z.ltb_lt 0 (pendingRequests t))) by lia. simpl. rewrite !i64_id by (unfold_ints; lia).
  split_and!; [|done|apply (bk_global h Hb)|].
  - intros j. unfold held. simpl. case_decide as Hj; [subst; rewrite lookup_insert_eq, Hk; simpl; lia|]. rewrite lookup_insert_ne by done. lia.
  - intros j t'. intros [[-> <-]|[_ Hk']]%lookup_insert_Some; [simpl; lia|]. apply (bk_max h Hb j t' Hk').
Qed.

Lemma report_books now peer delta h : booked h ->
  let mv := (AdjustReputation now peer delta (guard h)).2 in
  (forall j, held j mv = held j (guard h)) /\ totalPendingRequests mv = totalPendingRequests (guard h) /\ maxGlobalPending mv = 1000 /\
  (forall j t, peerRequests mv !! j = Some t -> maxPending t = DefaultMaxPendingRequests /\ pendingRequests t <= DefaultMaxPendingRequests).
Proof.
  intros Hb. pose proof (bk_global h Hb) as Hg. pose proof (bk_max h Hb) as Hmx. unfold AdjustReputation, modify, snd. cbv zeta.
  destruct (peerRequests (guard h) !! peer) as [t|] eqn:Hk; [|done].
  set (t' := if _ || _ then _ else _).
  assert (Ht : maxPending t' = maxPending t /\ pendingRequests t' = pendingRequests t) by (unfold t'; destruct (_ || _), (0 <? delta); done).
  clearbody t'. destruct Ht as [Ht1 Ht2]. pose proof (Hmx peer t Hk) as [Hm Hl].
  split_and!; [|done|done|].
  - intros j. unfold held. simpl. destruct (decide (peer = j)) as [<-|Hj]; [by rewrite lookup_insert_eq, Hk|by rewrite lookup_insert_ne].
  - intros j t''. simpl. intros [[-> <-]|[_ Hk']]%lookup_insert_Some; [split; lia|]. apply (Hmx j t'' Hk').
Qed.

Lemma booked_fresh range : booked (fresh range).
Proof. split; intros; simpl in *; try done; unfold held; simpl; rewrite ?lookup_empty in *; done. Qed.

Lemma booked_step e h : booked h -> booked (event_step e h).
Proof.
  intros Hb. pose proof (bk_peer h Hb) as Hp. pose proof (bk_total h Hb) as Ht. pose proof (bk_kept h Hb) as Hk. pose proof (bk_streams h Hb) as Hs.
  destruct e as [clock peer|clock peer|peer|now peer delta]; cbn [event_step].
  - pose proof (check_books clock peer h Hb) as Hc. destruct (CheckPeerStatus clock peer (guard h)) as [r mv]. destruct Hc as (H1 & H2 & H3 & H4 & H5).
    split; simpl; try done; destruct (is_ok r); rewrite ?bump_total; try lia; intros j; rewrite ?H1, ?bump_lookup, ?Hp; specialize (Hk j); try case_decide; lia.
  - unfold CheckRateLimit. pose proof (check_books clock peer h Hb) as Hc. destruct (CheckPeerStatus clock peer (guard h)) as [r mv]. destruct Hc as (H1 & H2 & H3 & H4 & H5).
    split; simpl; try done; destruct (is_ok r); rewrite ?bump_total; try lia; intros j; rewrite ?H1, ?bump_lookup, ?Hp; specialize (Hs j); try case_decide; lia.
  - destruct (Z.ltb_spec 0 (default 0 (streams h !! peer))) as [Hpos|]; [|done].
    pose proof (release_books peer h Hb Hpos) as (H1 & H2 & H3 & H4). pose proof (bk_low h Hb).
    split; cbn [guard kept streams]; try done; rewrite ?bump_total; try lia; intros j; rewrite ?H1, ?bump_lookup, ?Hp; specialize (Hs j); try case_decide; subst; lia.
  - pose proof (report_books now peer delta h Hb) as (H1 & H2 & H3 & H4). pose proof (bk_low h Hb).
    split; cbn [guard kept streams]; try done; try lia. intros j. by rewrite H1.
Qed.

Lemma booked_events es h : booked h -> booked (events es h).
Proof. revert h; induction es as [|e es IH]; intros h Hb; simpl; [done|]. apply IH, booked_step, Hb. Qed.

Lemma kept_bounds h peer : booked h -> default 0 (kept h !! peer) <= 100 /\ map_sum id (kept h) <= 800.
Proof.
  intros Hb. pose proof (bk_peer h Hb peer) as Hp. pose proof (bk_streams h Hb peer). pose proof (bk_kept h Hb peer).
  pose proof (bk_total h Hb). pose proof (bk_low h Hb). pose proof (booked_nonneg h Hb). split; [|lia].
  unfold held in Hp. destruct (peerRequests (guard h) !! peer) as [t|] eqn:Ht; [|lia].
  pose proof (bk_max h Hb peer t Ht) as [_ Hl]. unfold DefaultMaxPendingRequests in Hl. lia.
Qed.

(** Over any history of the network's calls on a guard, the number of
    messages that are checked and never released (all of gossip) is at most 100 for
    one peer and 800 for all peers together, for the life of the node; the requests
    the guard counts as under way are exactly these and the open streams. *)
Theorem unreleased_checks_are_bounded es range peer :
  let h := events es (fresh range) in
  0 <= default 0 (kept h !! peer) <= 100 /\ map_sum id (kept h) <= 800 /\
  totalPendingRequests (guard h) = map_sum id (kept h) + map_sum id (streams h).
Proof.
  cbv zeta. pose proof (booked_events es _ (booked_fresh range)) as Hb.
  pose proof (kept_bounds _ peer Hb). split; [split; [apply (bk_kept _ Hb)|lia]|]. split; [lia|apply (bk_total _ Hb)].
Qed.

(** ** The quotas *)

(** All readings of the clock within one check agree. *)
Definition steady (e : guard_event) : Prop :=
  match e with Kept clock _ | Opened clock _ => forall i, clock i = clock 0%nat | _ => True end.
Definition normal_used (t : PeerRequestTracker) : Z := default 0 (priorityQuota t !! level PriorityNormal).
Definition used (peer : string) (mv : MessageValidator) : Z := match peerRequests mv !! peer with Some t => normal_used t | None => 0 end.

(** The checks of a peer that pass over a history, released or not. *)
Definition passes (peer : string) (e : guard_event) (h : history) : Z :=
  match e with
  | Kept clock p | Opened clock p => if decide (p = peer) then if is_ok (CheckPeerStatus clock p (guard h)).1 then 1 else 0 else 0
  | _ => 0
  end.
Fixpoint served (peer : string) (es : list guard_event) (h : history) : Z :=
  match es with [] => 0 | e :: es => passes peer e h + served peer es (event_step e h) end.

Lemma since_self t : since t t = 0.
Proof. unfold since. rewrite Z.sub_diag. reflexivity. Qed.

(** A steady check never empties the quotas: it counts itself, or is refused at 400. *)
Lemma judge_used clock d t : (forall i, clock i = clock 0%nat) -> 0 <= normal_used t <= 400 ->
  let j := judge clock d PriorityNormal t in
  normal_used j.2 = normal_used t + (if is_ok j.1 then 1 else 0) /\ normal_used j.2 <= 400.
Proof.
  intros Hc Hu. unfold judge. cbv zeta. rewrite !(Hc 2%nat), !(Hc 3%nat), !(Hc 4%nat), !(Hc 5%nat), !(Hc 6%nat), !(Hc 7%nat), !(Hc 8%nat). set (now := clock 0%nat).
  destruct (isBanned t && _); [simpl; lia|].
  set (t1 := if isBanned t then _ else t).
  assert (H1 : normal_used t1 = normal_used t) by (unfold t1; destruct (isBanned t); done). clearbody t1.
  destruct (_ && below_high PriorityNormal); [simpl; lia|].
  set (t2 := if minute <? _ then _ else t1).
  assert (H2 : normal_used t2 = normal_used t /\ (minute <? since now (lastReset t2)) = false).
  { unfold t2. destruct (minute <? since now (lastReset t1)) eqn:Hm; [|done]. simpl. rewrite since_self. done. }
  clearbody t2. destruct H2 as [H2 Hs].
  destruct (rateLimit t2 <=? requestCount t2); [destruct (3 <=? _); unfold normal_used in *; simpl in *; lia|].
  destruct (maxPending t2 <=? pendingRequests t2); [unfold normal_used in *; simpl in *; lia|].
  unfold checkPriorityQuotaInternal. rewrite Hs. change (max_quota PriorityNormal) with 400. cbv zeta. fold (normal_used t2).
  destruct (Z.leb_spec 400 (normal_used t2)) as [Hl|Hl].
  - unfold normal_used in *. simpl in *. lia.
  - unfold normal_used in *. simpl in *. rewrite lookup_insert_eq. simpl. rewrite i64_id by (unfold_ints; lia). lia.
Qed.

Definition quotas_kept (h : history) : Prop := forall peer, 0 <= used peer (guard h) <= 400.

Lemma check_used clock p peer h : quotas_kept h -> (forall i, clock i = clock 0%nat) ->
  let c := CheckPeerStatus clock p (guard h) in
  used peer c.2 = used peer (guard h) + (if decide (p = peer) then if is_ok c.1 then 1 else 0 else 0) /\ used peer c.2 <= 400.
Proof.
  intros Hq Hc. rewrite check_unfold. pose proof (Hq peer) as Hpeer.
  destruct (checkGlobalLoadInternal (guard h)); cbv zeta.
  { simpl. case_decide; lia. }
  assert (Ht : normal_used (check_tracker clock p (guard h)) = used p (guard h)).
  { unfold check_tracker, used. by destruct (peerRequests (guard h) !! p). }
  pose proof (judge_used clock (calculateBanDurationInternal p (guard h)) (check_tracker clock p (guard h)) Hc) as Hj.
  rewrite Ht in Hj. specialize (Hj (Hq p)). cbv zeta in Hj. set (j := judge _ _ _ _) in *. cbn [fst snd].
  assert (Hput : forall mv, peerRequests mv = <[p := j.2]> (peerRequests (guard h)) ->
            used peer mv = if decide (p = peer) then normal_used j.2 else used peer (guard h)).
  { intros mv He. unfold used. rewrite He. case_decide; [subst; by rewrite lookup_insert_eq|by rewrite lookup_insert_ne]. }
  rewrite (Hput (if is_ok j.1 then _ else _)) by (by destruct (is_ok j.1)). case_decide; [subst|]; lia.
Qed.

Lemma release_used p peer h : used peer (ReleaseRequest p (guard h)).2 = used peer (guard h).
Proof.
  unfold ReleaseRequest, modify, snd. destruct (peerRequests (guard h) !! p) as [t|] eqn:Hk; [|done].
  destruct (0 <? pendingRequests t); [|done]. unfold used. simpl.
  destruct (decide (p = peer)) as [<-|Hp]; [by rewrite lookup_insert_eq, Hk|by rewrite lookup_insert_ne].
Qed.
Lemma report_used now p delta peer h : used peer (AdjustReputation now p delta (guard h)).2 = used peer (guard h).
Proof.
  unfold AdjustReputation, modify, snd. destruct (peerRequests (guard h) !! p) as [t|] eqn:Hk; [|done]. cbv zeta.
  unfold used. simpl. destruct (decide (p = peer)) as [<-|Hp]; [rewrite lookup_insert_eq, Hk|by rewrite lookup_insert_ne].
  destruct (_ || _), (0 <? delta); done.
Qed.

Lemma step_used e peer h : quotas_kept h -> steady e ->
  used peer (guard (event_step e h)) = used peer (guard h) + passes peer e h /\ used peer (guard (event_step e h)) <= 400 /\ 0 <= passes peer e h.
Proof.
  intros Hq Hs. pose proof (Hq peer).
  destruct e as [clock p|clock p|p|now p delta]; cbn [event_step passes]; unfold CheckRateLimit.
  1,2: pose proof (check_used clock p peer h Hq Hs) as Hu; destruct (CheckPeerStatus clock p (guard h)) as [r mv]; cbn [guard fst snd] in *;
       repeat case_decide; destruct (is_ok r); lia.
  - destruct (0 <? _); cbn [guard]; rewrite ?release_used; lia.
  - cbn [guard]. rewrite report_used. lia.
Qed.
Lemma served_used es peer h : quotas_kept h -> Forall steady es ->
  used peer (guard (events es h)) = used peer (guard h) + served peer es h /\ used peer (guard (events es h)) <= 400.
Proof.
  revert h; induction es as [|e es IH]; intros h Hq Hs; simpl; [specialize (Hq peer); lia|].
  apply Forall_cons in Hs as [He Hs].
  assert (Hq' : quotas_kept (event_step e h)) by (intros p; pose proof (step_used e p h Hq He); specialize (Hq p); lia).
  pose proof (step_used e peer h Hq He). pose proof (IH _ Hq' Hs). lia.
Qed.

(** The quotas of a peer are never renewed when the readings of the clock in
    one check agree: over any history of the network's calls a peer passes at most
    400 checks in the life of the node, however they are spread over time. *)
Theorem quota_is_for_life es range peer :
  Forall steady es -> served peer es (fresh range) <= 400.
Proof.
  intros Hs. assert (Hq : quotas_kept (fresh range)) by (intros p; simpl; unfold used; simpl; rewrite lookup_empty; lia).
  pose proof (served_used es peer _ Hq Hs) as [He Hl]. unfold used at 2 in He. simpl in He. rewrite lookup_empty in He. lia.
Qed.

Module Demo.

(** A message every hour, released at once. *)
Definition hourly (n : nat) : list guard_event :=
  concat (map (fun k => [Opened (fun _ => Z.of_nat k * 60 * minute) "peer"; Closed "peer"]) (seq 0 n)).

Lemma hourly_steady n : Forall steady (hourly n).
Proof.
  unfold hourly. generalize 0%nat. induction n as [|n IH]; intros a; simpl; [constructor|].
  repeat constructor; apply IH.
Qed.

(** Five hundred hourly requests: the last hundred are refused. *)
Lemma quota_is_for_life_witness : served "peer" (hourly 500) (fresh 20) = 400 /\ served "peer" (hourly 500) (fresh 20) <= 400.
Proof. split; [vm_compute; reflexivity|]. apply quota_is_for_life, hourly_steady. Defined.

(** Gossip of one message an hour: the guard refuses the hundred and first. *)
Example gossip_stops :
  map_sum id (kept (events (map (fun k => Kept (fun _ => Z.of_nat k * 60 * minute) "peer") (seq 0 150)) (fresh 20))) = 100.
Proof. vm_compute. reflexivity. Qed.

(** A ban by hand of an unknown peer leaves it with no room for requests: when the
    ban has run out the peer is refused all the same. *)
Example banned_stranger_stays_out :
  (CheckPeerStatus (fun _ => 1000 * minute) "stranger" (BanPeer 0 0 "stranger" minute (NewMessageValidator 20)).2).1 = Err (TooManyPending 0).
Proof. vm_compute. reflexivity. Qed.

(** What a cleanup forgets stays in the total. *)
Example cleanup_leaks :
  let h := events (repeat (Opened (fun _ => 0) "peer") 100) (fresh 20) in
  let mv := (CleanupInactivePeers (100 * minute) minute (guard h)).2 in
  peerRequests mv = ∅ /\ totalPendingRequests mv = 100.
Proof. vm_compute. split; reflexivity. Qed.

End Demo.
