(* ===== verification/PeerNet.v ===== *)
(** * Messages between peers and the node

    src/network/p2p.go (the channels of the node and [handleBlockchainMessage]),
    src/network/p2p/protocols.go and manager.go (topics and stream handlers) and the
    message bus of src/node/node.go that answers the stream handlers.

    Blocks, transactions, validators and other decoded values are payloads the
    network does not look into.  What [encoding/json] makes of the bytes of a peer is
    an argument: [None] stands for bytes it refuses. *)

From S2P Require Import Prelude SafeMath Floats PeerGuard.
From stdpp Require Import base tactics numbers list gmap strings.
From Stdlib Require Import ZArith Lia.
Open Scope Z_scope.
Open Scope list_scope.

Definition ScoreInvalidBlock : Z := -20.
Definition ScoreInvalidTx : Z := -5.
Definition ScoreGoodBlock : Z := 5.

(** What the network asks of the consensus engine, whose state is [S]. *)
Record ConsensusEngineInterface (S V : Type) : Type := MkEngineInterface {
  RegisterDiscoveredValidator : option V -> S -> bool * S;    (* [None]: nil *)
  SyncValidators : list V -> S -> bool * S;
  GetAllValidators : S -> list V
}.
Arguments RegisterDiscoveredValidator {S V}.
Arguments SyncValidators {S V}.
Arguments GetAllValidators {S V}.

Section Net.
Context {B T A V X S : Type} (engine : ConsensusEngineInterface S V).

Inductive MessageType : Type :=
| ProcessBlock | ProcessTransaction | ProcessAttestation | ProcessVote | GetBlockchainInfo | GetBlocksFromHeight | GetStateSnapshot
| ValidatorAnnouncement | ValidatorSync.

Record StateSnapshot : Type := MkSnapshot {
  Snapshot_Height : Z;
  Snapshot_StateRoot : string;
  Snapshot_Timestamp : Z;
  Snapshot_Accounts : gmap string A;
  Snapshot_Validators : gmap string V
}.

(** The values an [interface{}] of the network holds; [None] in a pointer is nil. *)
Inductive payload : Type :=
| PNil
| PBlock (b : option B)
| PBlocks (bs : list B)
| PTransaction (tx : option T)
| PValidator (v : option V)
| PValidators (vs : list V)
| PHeights (m : gmap string Z)
| PString (s : string)
| PInt64 (z : Z)
| PSnapshot (s : StateSnapshot)
| POther (x : X).

Record Message : Type := MkMessage { Type_ : MessageType; Data : payload; ResponseCh : bool; FromPeerID : string }.
Inductive bus_error : Type := StateNotPopulated | InvalidDataFormat.
Record Response : Type := MkResponse { Resp_Data : payload; Resp_Error : option bus_error; Success : bool }.
(** What a read of a closed channel gives. *)
Definition zero_response : Response := MkResponse PNil None false.

(** ** The channels of the node *)

Definition chanCap : nat := 1000.
(** [select { case ch <- x: ... default: ... }]; [None] when the channel is full. *)
Definition offer {Y} (x : Y) (ch : list Y) : option (list Y) := if (length ch <? chanCap)%nat then Some (ch ++ [x]) else None.

Record P2PNetwork : Type := MkNetwork {
  validator : MessageValidator;
  BlockChan : list (option B);
  TransactionChan : list (option T);
  AttestationChan : list payload;
  VoteChan : list payload;
  consensusEngine : option S
}.
Definition NewP2PNetwork : P2PNetwork := MkNetwork (NewMessageValidator DefaultMaxBlockRangeSize) [] [] [] [] None.
Definition SetConsensusEngine (s : S) (n : P2PNetwork) : P2PNetwork :=
  MkNetwork (validator n) (BlockChan n) (TransactionChan n) (AttestationChan n) (VoteChan n) (Some s).

Definition with_validator (mv : MessageValidator) (n : P2PNetwork) : P2PNetwork :=
  MkNetwork mv (BlockChan n) (TransactionChan n) (AttestationChan n) (VoteChan n) (consensusEngine n).
Definition adjust (now : Z) (peer : string) (delta : Z) (n : P2PNetwork) : P2PNetwork := with_validator (AdjustReputation now peer delta (validator n)).2 n.
Definition with_engine (s : S) (n : P2PNetwork) : P2PNetwork :=
  MkNetwork (validator n) (BlockChan n) (TransactionChan n) (AttestationChan n) (VoteChan n) (Some s).
Definition with_blocks (ch : list (option B)) (n : P2PNetwork) : P2PNetwork :=
  MkNetwork (validator n) ch (TransactionChan n) (AttestationChan n) (VoteChan n) (consensusEngine n).
Definition with_transactions (ch : list (option T)) (n : P2PNetwork) : P2PNetwork :=
  MkNetwork (validator n) (BlockChan n) ch (AttestationChan n) (VoteChan n) (consensusEngine n).
Definition with_attestations (ch : list payload) (n : P2PNetwork) : P2PNetwork :=
  MkNetwork (validator n) (BlockChan n) (TransactionChan n) ch (VoteChan n) (consensusEngine n).
Definition with_votes (ch : list payload) (n : P2PNetwork) : P2PNetwork :=
  MkNetwork (validator n) (BlockChan n) (TransactionChan n) (AttestationChan n) ch (consensusEngine n).

Definition process_block (now : Z) (msg : Message) (n : P2PNetwork) : P2PNetwork :=
  match Data msg with
  | PBlock None => adjust now (FromPeerID msg) ScoreSpam n
  | PBlock (Some b) =>
      match offer (Some b) (BlockChan n) with
      | Some ch => adjust now (FromPeerID msg) ScoreGoodBlock (with_blocks ch n)
      | None => n
      end
  | _ => adjust now (FromPeerID msg) ScoreInvalidBlock n
  end.
Definition process_transaction (now : Z) (msg : Message) (n : P2PNetwork) : P2PNetwork :=
  match Data msg with
  | PTransaction None => adjust now (FromPeerID msg) ScoreSpam n
  | PTransaction (Some tx) => match offer (Some tx) (TransactionChan n) with Some ch => with_transactions ch n | None => n end
  | _ => adjust now (FromPeerID msg) ScoreInvalidTx n
  end.
Definition process_announcement (now : Z) (msg : Message) (n : P2PNetwork) : P2PNetwork :=
  match Data msg with
  | PValidator None => n
  | PValidator (Some v) =>
      match consensusEngine n with
      | Some s =>
          let '(ok, s) := RegisterDiscoveredValidator engine (Some v) s in
          adjust now (FromPeerID msg) (if ok then ScoreGoodBlock else ScoreInvalidBlock) (with_engine s n)
      | None => n
      end
  | _ => adjust now (FromPeerID msg) ScoreSpam n
  end.
Definition answer_sync (msg : Message) (n : P2PNetwork) : option Response :=
  match consensusEngine n with
  | Some s => if ResponseCh msg then Some (MkResponse (PValidators (GetAllValidators engine s)) None true) else None
  | None => None
  end.

Definition handleBlockchainMessage (clock : nat -> Z) (now : Z) (msg : Message) (n : P2PNetwork) : option Response * P2PNetwork :=
  let '(r, mv) := CheckPeerStatus clock (FromPeerID msg) (validator n) in
  let n := with_validator mv n in
  if is_ok r then
    match Type_ msg with
    | ProcessBlock => (None, process_block now msg n)
    | ProcessTransaction => (None, process_transaction now msg n)
    | ProcessAttestation => (None, match offer (Data msg) (AttestationChan n) with Some ch => with_attestations ch n | None => n end)
    | ProcessVote => (None, match offer (Data msg) (VoteChan n) with Some ch => with_votes ch n | None => n end)
    | ValidatorAnnouncement => (None, process_announcement now msg n)
    | ValidatorSync => (answer_sync msg n, n)
    | _ => (None, n)
    end
  else (None, n).

(** ** The topics *)

Inductive topic : Type := TopicBlocks | TopicTransactions | TopicAttestations | TopicVotes | TopicValidators.
Record Manager : Type := MkManager {
  m_validator : MessageValidator;
  BlockchainProcessCh : list Message;
  ValidatorChan : list V
}.
Definition validatorChanCap : nat := 100.
(** The message as the topic decodes it: a block of the blocks topic and so on. *)
Inductive decoded : Type := DBlock (b : B) | DTransaction (tx : T) | DAttestation (x : X) | DVote (x : X) | DValidator (v : V).

(** One turn of the loop, for a message that was read.  The send to
    [BlockchainProcessCh] waits while the channel is full. *)
Definition post (msg : Message) (m : Manager) : outcome unit Manager :=
  if (length (BlockchainProcessCh m) <? 1000)%nat then Ok (MkManager (m_validator m) (BlockchainProcessCh m ++ [msg]) (ValidatorChan m)) else Hang.
Definition readPubSubMessages (self : string) (receivedFrom : string) (data : option decoded) (m : Manager) : outcome unit Manager :=
  if String.eqb receivedFrom self then Ok m
  else match data with
  | None => Ok m
  | Some (DBlock b) => post (MkMessage ProcessBlock (PBlock (Some b)) false receivedFrom) m
  | Some (DTransaction tx) => post (MkMessage ProcessTransaction (PTransaction (Some tx)) false receivedFrom) m
  | Some (DAttestation x) => post (MkMessage ProcessAttestation (POther x) false receivedFrom) m
  | Some (DVote x) => post (MkMessage ProcessVote (POther x) false receivedFrom) m
  | Some (DValidator v) =>
      Ok (if (length (ValidatorChan m) <? validatorChanCap)%nat then MkManager (m_validator m) (BlockchainProcessCh m) (ValidatorChan m ++ [v]) else m)
  end.
(** The inspector of [NewHardenedGossipSub]: [true] lets the RPC through. *)
Definition inspect_rpc (clock : nat -> Z) (peer : string) (m : Manager) : bool * Manager :=
  let '(r, mv) := CheckPeerStatus clock peer (m_validator m) in (is_ok r, MkManager mv (BlockchainProcessCh m) (ValidatorChan m)).

(** ** The message bus of the node *)

Record Node : Type := MkNode {
  chain_height : option Z;              (* nil before the chain is there *)
  GetBlock : Z -> option B;
  ExportAccounts : gmap string A;
  ExportValidators : gmap string V;
  GetStateRoot : string;
  n_engine : option S
}.
Definition set_n_engine (s : S) (n : Node) : Node :=
  MkNode (chain_height n) (GetBlock n) (ExportAccounts n) (ExportValidators n) (GetStateRoot n) (Some s).

(** What happens to the response channel. *)
Inductive answer : Type := NoAnswer | Sent (r : Response) | ClosedCh.

Fixpoint fetch (fuel : nat) (blockAt : Z -> option B) (height endHeight : Z) : list B :=
  match fuel with
  | O => []
  | Datatypes.S fuel =>
      if height <=? endHeight then
        match blockAt height with
        | Some b => b :: fetch fuel blockAt (i64 (height + 1)) endHeight
        | None => []
        end
      else []
  end.
Definition handleGetBlocksFromHeight (data : gmap string Z) (msg : Message) (n : Node) : outcome unit answer :=
  let startHeight := default 0 (data !! "start") in
  let endHeight := default 0 (data !! "end") in
  match chain_height n with
  | None => if startHeight <=? endHeight then Panic else Ok (if ResponseCh msg then Sent (MkResponse (PBlocks []) None true) else NoAnswer)
  | Some _ =>
      let blocks := fetch (Z.to_nat (endHeight - startHeight + 1)) (GetBlock n) startHeight endHeight in
      Ok (if ResponseCh msg then Sent (MkResponse (PBlocks blocks) None true) else NoAnswer)
  end.
Definition serve_snapshot (now : Z) (n : Node) : outcome unit answer :=
  if bool_decide (ExportAccounts n = ∅) then Ok (Sent (MkResponse PNil (Some StateNotPopulated) false))
  else match chain_height n with
  | None => Panic
  | Some h => Ok (Sent (MkResponse (PSnapshot (MkSnapshot h (GetStateRoot n) (Unix now) (ExportAccounts n) (ExportValidators n))) None true))
  end.
(** One turn of the loop of [processP2PMessageBus]: it looks at the type of the
    data, not at the type of the message. *)
Definition processP2PMessageBus (now : Z) (msg : Message) (n : Node) : outcome unit answer * Node :=
  match Data msg with
  | PHeights m => (handleGetBlocksFromHeight m msg n, n)
  | PString s => (Ok (if String.eqb s "height" && ResponseCh msg then Sent (MkResponse (PInt64 (default 0 (chain_height n))) None false) else NoAnswer), n)
  | PValidator v =>
      (Ok NoAnswer, match n_engine n with Some s => set_n_engine (RegisterDiscoveredValidator engine v s).2 n | None => n end)
  | PValidators vs => (Ok NoAnswer, match n_engine n with Some s => set_n_engine (SyncValidators engine vs s).2 n | None => n end)
  | PInt64 _ => (if ResponseCh msg then serve_snapshot now n else Ok NoAnswer, n)
  | _ => (Ok (if ResponseCh msg then ClosedCh else NoAnswer), n)
  end.

(** ** The stream handlers *)

Inductive reply : Type :=
| RError (e : bus_error) | RInternal | RInvalid | RTimeout | RRange (e : guard_err)
| RBlock (b : B) | REOF | RBlocks (bs : list B) | RHeight (h : Z) | RSnapshot (s : StateSnapshot).

(** The request of a handler to the bus, and its read of [responseCh]. *)
Definition wait_response (a : outcome unit answer) : outcome unit Response :=
  match a with Ok (Sent r) => Ok r | Ok ClosedCh => Ok zero_response | Ok NoAnswer => Hang | Err e => Err e | Panic => Panic | Hang => Hang end.
Definition ask (now : Z) (msg : Message) (n : Node) : outcome unit Response := wait_response (processP2PMessageBus now msg n).1.

Definition set_guard (mv : MessageValidator) (m : Manager) : Manager := MkManager mv (BlockchainProcessCh m) (ValidatorChan m).
(** The check, [defer ReleaseRequest] and, when [ValidateStream] succeeds, the rest
    of the handler; a handler that waits for ever releases nothing. *)
Definition on_stream (clock : nat -> Z) (peer : string) (stream_ok : bool) (body : outcome unit (list reply)) (m : Manager) : outcome unit (list reply) * Manager :=
  let '(r, mv) := CheckRateLimit clock peer (m_validator m) in
  if is_ok r then
    let out := if stream_ok then body else Ok [] in
    (out, match out with Hang => set_guard mv m | _ => set_guard (ReleaseRequest peer mv).2 m end)
  else (Ok [], set_guard mv m).

(** The blocks are written until a write fails; [EOF] only follows all of them. *)
Fixpoint write_blocks (writes_ok : nat -> bool) (k : nat) (bs : list B) : list reply :=
  match bs with
  | [] => [REOF]
  | b :: bs => if writes_ok k then RBlock b :: write_blocks writes_ok (Datatypes.S k) bs else []
  end.
Definition handleBlockSyncRequest (clock : nat -> Z) (now : Z) (peer : string) (stream_ok : bool) (writes_ok : nat -> bool)
    (reqData : option (gmap string Z)) (n : Node) (m : Manager) : outcome unit (list reply) * Manager :=
  on_stream clock peer stream_ok
    match reqData with
    | None => Ok []
    | Some req =>
        match ask now (MkMessage GetBlocksFromHeight (PInt64 (default 0 (req !! "startHeight"))) true "") n with
        | Ok resp =>
            Ok match Resp_Error resp with
               | Some e => [RError e]
               | None => match Resp_Data resp with PBlocks bs => write_blocks writes_ok 0 bs | _ => [RInternal] end
               end
        | Err e => Err e | Panic => Panic | Hang => Hang
        end
    end m.

Definition range_message (startHeight endHeight : Z) : Message :=
  MkMessage GetBlocksFromHeight (PHeights (<["start" := startHeight]> (<["end" := endHeight]> ∅))) true "".
Definition handleBlockRangeRequest (clock : nat -> Z) (now : Z) (peer : string) (stream_ok : bool)
    (request : option (Z * Z)) (n : Node) (m : Manager) : outcome unit (list reply) * Manager :=
  on_stream clock peer stream_ok
    match request with
    | None => Ok [RInvalid]
    | Some (startHeight, endHeight) =>
        match ValidateBlockRangeRequest startHeight endHeight (m_validator m) with
        | Ok _ =>
            match ask now (range_message startHeight endHeight) n with
            | Ok resp =>
                Ok match Resp_Error resp with
                   | Some e => [RError e]
                   | None => match Resp_Data resp with PBlocks bs => [RBlocks bs] | _ => [RInternal] end
                   end
            | Err e => Err e | Panic => Panic | Hang => Hang
            end
        | Err e => Ok [RRange e]
        | _ => Ok []
        end
    end m.

(** [in_time]: the bus answers within the three seconds of the handler. *)
Definition handleHeightRequest (clock : nat -> Z) (now : Z) (peer : string) (stream_ok readable in_time : bool) (n : Node) (m : Manager) : outcome unit (list reply) * Manager :=
  on_stream clock peer stream_ok
    (if readable then
       match processP2PMessageBus now (MkMessage GetBlockchainInfo (PString "height") true "") n with
       | (Ok (Sent resp), _) => Ok (if in_time then match Resp_Data resp with PInt64 h => [RHeight h] | _ => [RInternal] end else [RTimeout])
       | (Ok ClosedCh, _) => Ok (if in_time then [RInternal] else [RTimeout])
       | (Ok NoAnswer, _) => Ok [RTimeout]
       | (Err e, _) => Err e | (Panic, _) => Panic | (Hang, _) => Ok [RTimeout]
       end
     else Ok []) m.

Definition handleStateSnapshotRequest (clock : nat -> Z) (now : Z) (peer : string) (stream_ok : bool) (height : option Z) (n : Node) (m : Manager) : outcome unit (list reply) * Manager :=
  on_stream clock peer stream_ok
    match height with
    | None => Ok [RInvalid]
    | Some h =>
        match ask now (MkMessage GetStateSnapshot (PInt64 h) true "") n with
        | Ok resp =>
            Ok match Resp_Error resp with
               | Some e => [RError e]
               | None => match Resp_Data resp with PSnapshot s => [RSnapshot s] | _ => [RInternal] end
               end
        | Err e => Err e | Panic => Panic | Hang => Hang
        end
    end m.

(** ** The other end of the stream

    What the peer that asked makes of the answer.  [reachable]: its ID decodes, it is
    connected, and the stream opens and takes the request. *)

Inductive client_err : Type := Unreachable | ReadFailed | PeerError.
Definition read_reply {Y} (reachable : bool) (pick : reply -> option Y) (answer : outcome unit (list reply)) : outcome client_err Y :=
  if negb reachable then Err Unreachable
  else match answer with
  | Ok (r :: _) => match pick r with Some y => Ok y | None => Err PeerError end
  | Ok [] => Err ReadFailed
  | Hang => Hang
  | _ => Err ReadFailed
  end.
Definition RequestBlockRange (reachable : bool) : outcome unit (list reply) -> outcome client_err (list B) :=
  read_reply reachable (fun r => match r with RBlocks bs => Some bs | _ => None end).
Definition RequestPeerHeight (reachable : bool) : outcome unit (list reply) -> outcome client_err Z :=
  read_reply reachable (fun r => match r with RHeight h => Some h | _ => None end).
Definition RequestStateSnapshot (reachable : bool) : outcome unit (list reply) -> outcome client_err StateSnapshot :=
  read_reply reachable (fun r => match r with RSnapshot s => Some s | _ => None end).

(** ** Items sent on a stream of their own

    The handlers [setupEventHandlers] installs, and the stream handlers that call them. *)

Definition on_block (b : option B) (n : P2PNetwork) : P2PNetwork := match offer b (BlockChan n) with Some ch => with_blocks ch n | None => n end.
Definition on_transaction (tx : T) (n : P2PNetwork) : P2PNetwork := match offer (Some tx) (TransactionChan n) with Some ch => with_transactions ch n | None => n end.
Definition on_attestation (x : X) (n : P2PNetwork) : P2PNetwork := match offer (POther x) (AttestationChan n) with Some ch => with_attestations ch n | None => n end.
Definition on_vote (x : X) (n : P2PNetwork) : P2PNetwork := match offer (POther x) (VoteChan n) with Some ch => with_votes ch n | None => n end.

Definition on_item {Y} (deliver : Y -> P2PNetwork -> P2PNetwork) (clock : nat -> Z) (peer : string) (stream_ok : bool) (item : option Y) (nm : P2PNetwork * Manager) : P2PNetwork * Manager :=
  let '(r, mv) := CheckRateLimit clock peer (m_validator nm.2) in
  if is_ok r then
    (match item with Some y => if stream_ok then deliver y nm.1 else nm.1 | None => nm.1 end, set_guard (ReleaseRequest peer mv).2 nm.2)
  else (nm.1, set_guard mv nm.2).
Definition handleTransactionRequest : (nat -> Z) -> string -> bool -> option T -> P2PNetwork * Manager -> P2PNetwork * Manager := on_item on_transaction.
Definition handleAttestationRequest : (nat -> Z) -> string -> bool -> option X -> P2PNetwork * Manager -> P2PNetwork * Manager := on_item on_attestation.
Definition handleVoteRequest : (nat -> Z) -> string -> bool -> option X -> P2PNetwork * Manager -> P2PNetwork * Manager := on_item on_vote.

(** [RequestValidatorSync]: a request of the node to itself, with no peer and no
    channel for the answer; dropped when the channel is full. *)
Definition RequestValidatorSync (m : Manager) : Manager :=
  if (length (BlockchainProcessCh m) <? 1000)%nat
  then MkManager (m_validator m) (BlockchainProcessCh m ++ [MkMessage ValidatorSync PNil false ""]) (ValidatorChan m) else m.
End Net.
