(* ===== verification/PeerNetSpec.v ===== *)
(** * What peers get from the node, and the node from peers

    Theorems about PeerNet.v: how much gossip ever reaches the node, and what the
    stream handlers answer through the message bus. *)

From stdpp Require Import base tactics numbers list gmap strings.
From Stdlib Require Import ZArith Lia.
From S2P Require Import Prelude SafeMath Floats PeerGuard PeerGuardSpec PeerNet.
Open Scope Z_scope.
Open Scope list_scope.

Section NetSpec.
Context {B T A V X S : Type} (engine : ConsensusEngineInterface S V).
Notation net := (@P2PNetwork B T A V X S).
Notation message := (@Message B T A V X).
Notation node := (@Node B A V S).
Notation manager := (@Manager B T A V X).

(** ** Gossip *)

Definition queued (n : net) : Z :=
  Z.of_nat (length (BlockChan n)) + Z.of_nat (length (TransactionChan n)) + Z.of_nat (length (AttestationChan n)) + Z.of_nat (length (VoteChan n)).

(** A message of the topics, or anything else the node does with its channels and
    its engine: consumers take from them, stream handlers add to them. *)
Inductive net_event : Type :=
| Arrives (clock : nat -> Z) (now : Z) (msg : message)
| Elsewhere (blocks : list (option B)) (txs : list (option T)) (atts votes : list (@payload B T A V X)) (s : option S).

(** The network, and how many messages reached a channel: of all peers, of one peer. *)
Record life : Type := MkLife { net_of : net; from_all : Z; from_peer : Z }.
Definition life_step (peer : string) (e : net_event) (l : life) : life :=
  match e with
  | Arrives clock now msg =>
      let n := (handleBlockchainMessage engine clock now msg (net_of l)).2 in
      let d := queued n - queued (net_of l) in
      MkLife n (from_all l + d) (if decide (FromPeerID msg = peer) then from_peer l + d else from_peer l)
  | Elsewhere blocks txs atts votes s => MkLife (MkNetwork (validator (net_of l)) blocks txs atts votes s) (from_all l) (from_peer l)
  end.
Definition live (peer : string) (es : list net_event) (l : life) : life := fold_left (fun l e => life_step peer e l) es l.

Lemma offer_length {Y} (x : Y) ch ch' : offer x ch = Some ch' -> Z.of_nat (length ch') = Z.of_nat (length ch) + 1.
Proof. unfold offer. destruct (_ <? _)%nat; [|done]. intros [= <-]. rewrite length_app. simpl. lia. Qed.

(** A message the guard lets through reaches at most one channel, and the only other
    thing done to the guard is one report. *)
Definition settled (now : Z) (peer : string) (mv : MessageValidator) (before after : net) : Prop :=
  0 <= queued after - queued before <= 1 /\
  (validator after = mv \/ exists delta, validator after = (AdjustReputation now peer delta mv).2).

Ltac settle :=
  repeat match goal with
  | |- context [match offer ?x ?ch with Some _ => _ | None => _ end] =>
      let E := fresh "E" in destruct (offer x ch) eqn:E; [apply offer_length in E|]
  end;
  (split; [unfold queued, adjust, with_validator in *; simpl in *; lia|first [by left|right; eexists; reflexivity]]).

Lemma process_block_settled now msg (n : net) : settled now (FromPeerID msg) (validator n) n (process_block now msg n).
Proof. unfold process_block. destruct (Data msg) as [|[b|]| | | | | | | | |]; settle. Qed.
Lemma process_transaction_settled now msg (n : net) : settled now (FromPeerID msg) (validator n) n (process_transaction now msg n).
Proof. unfold process_transaction. destruct (Data msg) as [| | |[tx|]| | | | | | |]; settle. Qed.
Lemma process_announcement_settled now msg (n : net) : settled now (FromPeerID msg) (validator n) n (process_announcement engine now msg n).
Proof.
  unfold process_announcement. destruct (Data msg) as [| | | |[v|]| | | | | |]; try settle.
  destruct (consensusEngine n) as [s|]; [|settle]. destruct (RegisterDiscoveredValidator engine (Some v) s) as [ok s']. settle.
Qed.

Lemma handle_settled clock now msg (n : net) :
  let '(r, mv) := CheckPeerStatus clock (FromPeerID msg) (validator n) in
  let n' := (handleBlockchainMessage engine clock now msg n).2 in
  if is_ok r then settled now (FromPeerID msg) mv n n' else n' = with_validator mv n.
Proof.
  unfold handleBlockchainMessage. destruct (CheckPeerStatus clock (FromPeerID msg) (validator n)) as [r mv]. destruct (is_ok r); [|done].
  assert (Hs : forall n', settled now (FromPeerID msg) (validator (with_validator mv n)) (with_validator mv n) n' -> settled now (FromPeerID msg) mv n n') by done.
  cbv zeta. apply Hs. clear Hs. generalize (with_validator mv n). clear n. intros n.
  destruct (Type_ msg); cbn [snd].
  - apply process_block_settled.
  - apply process_transaction_settled.
  - settle.
  - settle.
  - settle.
  - settle.
  - settle.
  - apply process_announcement_settled.
  - settle.
Qed.

(** The guard of the network is the guard of a history whose kept messages bound
    what was delivered. *)
Definition traced (peer : string) (l : life) : Prop :=
  exists h, booked h /\ guard h = validator (net_of l) /\ from_all l <= map_sum id (kept h) /\ from_peer l <= default 0 (kept h !! peer).

Lemma traced_step peer e l : traced peer l -> traced peer (life_step peer e l).
Proof.
  intros (h & Hb & Hg & Ha & Hp). destruct e as [clock now msg|]; [|by exists h].
  pose proof (handle_settled clock now msg (net_of l)) as Hs. pose proof (booked_step (Kept clock (FromPeerID msg)) h Hb) as Hb1.
  cbn [event_step] in Hb1. rewrite <-Hg in Hs. destruct (CheckPeerStatus clock (FromPeerID msg) (guard h)) as [r mv]. cbv zeta in Hs.
  unfold life_step. set (n := (handleBlockchainMessage _ _ _ _ _).2) in *. destruct (is_ok r).
  - set (h1 := MkHistory mv _ _) in Hb1. destruct Hs as [Hq Hv].
    assert (Hk : from_all l + (queued n - queued (net_of l)) <= map_sum id (kept h1) /\
                 (if decide (FromPeerID msg = peer) then from_peer l + (queued n - queued (net_of l)) else from_peer l) <= default 0 (kept h1 !! peer)).
    { subst h1; cbn [kept]. rewrite bump_total, bump_lookup. case_decide; lia. }
    destruct Hv as [Hv|[delta Hv]]; [exists h1; done|].
    exists (event_step (Reported now (FromPeerID msg) delta) h1). split; [by apply booked_step|]. done.
  - rewrite Hs. replace (queued (with_validator mv (net_of l)) - queued (net_of l)) with 0 by (unfold queued, with_validator; simpl; lia).
    eexists (MkHistory mv _ _). split; [exact Hb1|]. split; [done|]. cbn. case_decide; lia.
Qed.

Lemma traced_live peer es l : traced peer l -> traced peer (live peer es l).
Proof. unfold live. revert l; induction es as [|e es IH]; intros l Hl; [done|]. apply IH, traced_step, Hl. Qed.

(** C27. Messages that arrive by gossip are counted as requests under way and
    never released: whatever the peers send, whatever the node consumes and however
    long it runs, at most 100 messages of one peer and 800 messages in all ever
    reach the channels of the node. *)
Theorem gossip_runs_dry peer es :
  let l := live peer es (MkLife NewP2PNetwork 0 0) in from_all l <= 800 /\ from_peer l <= 100.
Proof.
  cbv zeta. assert (H0 : traced peer (MkLife NewP2PNetwork 0 0)).
  { exists (fresh DefaultMaxBlockRangeSize). split; [apply booked_fresh|]. split; [done|]. simpl. rewrite map_sum_empty. done. }
  destruct (traced_live peer es _ H0) as (h & Hb & _ & Ha & Hp). pose proof (kept_bounds h peer Hb). lia.
Qed.

(** ** The bus *)

Definition sends_blocks (r : @reply B A V) : bool := match r with RBlock _ | RBlocks _ | REOF => true | _ => false end.

(** A request for blocks from a height on is answered by the bus as a request
    for a snapshot, because its data is an [int64]: whatever the node stores, no
    block and no end mark is ever sent to the peer. *)
Theorem block_sync_sends_no_block clock now peer stream_ok writes_ok reqData (n : node) (m : manager) rs :
  (handleBlockSyncRequest engine clock now peer stream_ok writes_ok reqData n m).1 = Ok rs ->
  forallb (fun r => negb (sends_blocks r)) rs = true.
Proof.
  unfold handleBlockSyncRequest, on_stream. destruct (CheckRateLimit _ _ _) as [r mv]. destruct (is_ok r); [|by intros [= <-]]. simpl.
  destruct stream_ok; [|by intros [= <-]]. destruct reqData as [req|]; [|by intros [= <-]].
  unfold ask, processP2PMessageBus. simpl. unfold serve_snapshot. destruct (bool_decide _); simpl; [by intros [= <-]|].
  destruct (chain_height n); simpl; [by intros [= <-]|done].
Qed.

(** The longest run of stored blocks from [s] on, within [s, e]. *)
Definition run_of (blockAt : Z -> option B) (s e : Z) (bs : list B) : Prop :=
  Z.of_nat (length bs) <= e - s + 1 /\
  (forall i b, bs !! i = Some b -> blockAt (s + Z.of_nat i) = Some b) /\
  (Z.of_nat (length bs) = e - s + 1 \/ blockAt (s + Z.of_nat (length bs)) = None).

Lemma fetch_is_run blockAt fuel s e : 0 <= s -> e < two63 - 1 -> s <= e + 1 -> fuel = Z.to_nat (e - s + 1) -> run_of blockAt s e (fetch fuel blockAt s e).
Proof.
  revert s; induction fuel as [|fuel IH]; intros s H0 Hm Hle Hf; simpl.
  { split_and!; [simpl; lia|intros i b Hi; done|left; simpl; lia]. }
  destruct (Z.leb_spec s e); [|lia]. destruct (blockAt s) as [b|] eqn:Hb.
  - rewrite i64_id by (unfold_ints; lia). destruct (IH (s + 1)) as (Hl & Hi & Hend); [lia..|]. split_and!; simpl length.
    + lia.
    + intros [|i] b'; simpl; [intros [= <-]; by rewrite Z.add_0_r|]. intros Hb'. rewrite <-(Hi i b' Hb'). f_equal. lia.
    + destruct Hend as [Hend|Hend]; [left; lia|right]. rewrite <-Hend. f_equal. lia.
  - split_and!; [simpl; lia|intros i b Hi; done|right; simpl; by rewrite Z.add_0_r].
Qed.

(** What the handler answers to a request that passes the check. *)
Lemma range_answer clock now peer s e (n : node) (m : manager) h :
  chain_height n = Some h -> is_ok (CheckRateLimit clock peer (m_validator m)).1 = true -> e < two63 - 1 ->
  0 <= s <= e -> e - s <= maxBlockRangeSize (m_validator m) ->
  exists bs, (handleBlockRangeRequest engine clock now peer true (Some (s, e)) n m).1 = Ok [RBlocks bs] /\ run_of (GetBlock n) s e bs.
Proof.
  intros Hc Hok He Hs Hr. unfold handleBlockRangeRequest, on_stream. destruct (CheckRateLimit clock peer (m_validator m)) as [r mv]. simpl in Hok. rewrite Hok.
  unfold ValidateBlockRangeRequest. rewrite i64_id by (unfold_ints; lia).
  destruct (Z.ltb_spec s 0); [lia|]. destruct (Z.ltb_spec e s); [lia|]. destruct (Z.ltb_spec (maxBlockRangeSize (m_validator m)) (e - s)); [lia|].
  unfold ask, processP2PMessageBus, range_message, handleGetBlocksFromHeight. simpl. rewrite Hc. simpl.
  rewrite lookup_insert_eq, lookup_insert_ne, lookup_insert_eq by done. simpl. eexists. split; [reflexivity|].
  apply fetch_is_run; [lia..|reflexivity].
Qed.

(** A peer that passes the check and asks for the blocks from [s] to [e] gets,
    when the range is admitted, exactly the stored blocks from [s] on up to [e] or
    the first one missing; otherwise it gets the error of the range.  One block more
    than the limit is admitted. *)
Theorem block_range_is_served clock now peer s e (n : node) (m : manager) h :
  chain_height n = Some h -> is_ok (CheckRateLimit clock peer (m_validator m)).1 = true -> e < two63 - 1 ->
  match ValidateBlockRangeRequest s e (m_validator m) with
  | Ok _ => exists bs, (handleBlockRangeRequest engine clock now peer true (Some (s, e)) n m).1 = Ok [RBlocks bs] /\
              run_of (GetBlock n) s e bs /\ Z.of_nat (length bs) <= maxBlockRangeSize (m_validator m) + 1
  | Err err => (handleBlockRangeRequest engine clock now peer true (Some (s, e)) n m).1 = Ok [RRange err]
  | _ => False
  end.
Proof.
  intros Hc Hok He. destruct (ValidateBlockRangeRequest s e (m_validator m)) as [u|err| |] eqn:Hv.
  - assert (Hr : 0 <= s <= e /\ e - s <= maxBlockRangeSize (m_validator m)).
    { unfold ValidateBlockRangeRequest in Hv. destruct (Z.ltb_spec s 0); [done|]. destruct (Z.ltb_spec e s); [done|].
      destruct (Z.ltb_spec (maxBlockRangeSize (m_validator m)) (i64 (e - s))) as [|Hl]; [done|]. rewrite i64_id in Hl by (unfold_ints; lia). lia. }
    destruct (range_answer clock now peer s e n m h Hc Hok He) as (bs & Ha & Hrun); [lia..|]. exists bs. split; [done|]. split; [done|]. destruct Hrun. lia.
  - unfold handleBlockRangeRequest, on_stream. rewrite Hv. destruct (CheckRateLimit clock peer (m_validator m)) as [r mv]. simpl in Hok. by rewrite Hok.
  - unfold ValidateBlockRangeRequest in Hv. repeat case_match; done.
  - unfold ValidateBlockRangeRequest in Hv. repeat case_match; done.
Qed.
End NetSpec.

Module NetDemo.
Definition idle : ConsensusEngineInterface unit unit := MkEngineInterface unit unit (fun _ s => (true, s)) (fun _ s => (true, s)) (fun _ => []).
Definition blocks_to (h : Z) : @Node Z unit unit unit :=
  MkNode (Some h) (fun k => if (0 <=? k) && (k <=? h) then Some k else None) {["a" := tt]} ∅ "root" None.
Definition started : @Manager Z unit unit unit unit := MkManager (NewMessageValidator 100) [] [].

Lemma block_sync_sends_no_block_witness :
  exists rs, (handleBlockSyncRequest idle (fun _ => 0) 0 "peer" true (fun _ => true) (Some {["startHeight" := 3]}) (blocks_to 10) started).1 = Ok rs /\
    forallb (fun r => negb (sends_blocks r)) rs = true.
Proof. eexists. split; [vm_compute; reflexivity|]. eapply (block_sync_sends_no_block idle (fun _ => 0) 0 "peer" true (fun _ => true) (Some {["startHeight" := 3]}) (blocks_to 10) started). vm_compute; reflexivity. Defined.

(** A hundred and one blocks for a limit of a hundred. *)
Lemma block_range_is_served_witness :
  exists bs, (handleBlockRangeRequest idle (fun _ => 0) 0 "peer" true (Some (0, 100)) (blocks_to 200) started).1 = Ok [RBlocks bs] /\
    run_of (GetBlock (blocks_to 200)) 0 100 bs /\ Z.of_nat (length bs) <= 101.
Proof. exact (block_range_is_served idle (fun _ => 0) 0 "peer" 0 100 (blocks_to 200) started 200 eq_refl eq_refl eq_refl). Defined.

(** A thousand votes of twenty peers, one a minute: the channel gets 800, then nothing,
    although the node empties it all the time. *)
Definition vote (k : nat) : list (@net_event unit unit unit unit unit unit) :=
  [Arrives (fun _ => Z.of_nat k * minute) 0 (MkMessage ProcessVote PNil false (String (Ascii.ascii_of_nat (k mod 20)) "")); Elsewhere [] [] [] [] None].
Example thousand_votes :
  from_all (live idle "peer" (concat (map vote (seq 0 1000))) (MkLife NewP2PNetwork 0 0)) = 800.
Proof. vm_compute. reflexivity. Qed.
End NetDemo.
