(* ===== verification/RateLimit.v ===== *)
(** * Rate limits of the HTTP interface (src/api/ratelimit.go)

    A request passes a block list, a limit per endpoint, and either a limit of its
    API key or a limit of its address.  Requests run in parallel and take the locks of
    the limiter several times: each part between taking and releasing a lock is one
    definition, and [handler_step] runs the parts of a request one at a time, so that a
    history interleaves the parts of any number of requests.  [Allow] and
    [RateLimitMiddleware] compose the parts for a request that runs alone
    ([request_alone]).  [IsBlocked] writes under the read lock; it is one part here,
    while in Go two such calls at once race on the maps.
    [golang.org/x/time/rate] is a parameter, the class [RateLib]; readings of the clock,
    in nanoseconds, are arguments. *)

From stdpp Require Import base tactics numbers list gmap strings.
From Stdlib Require Import ZArith Lia.
From S2P Require Import Prelude SafeMath Floats.
Open Scope Z_scope.
Open Scope list_scope.

(** [rate.NewLimiter] and [Limiter.Allow].  A new limiter has its burst of tokens,
    so it allows one event when the burst is positive. *)
Class RateLib : Type := {
  Limiter : Type;
  NewLimiter : float64 -> Z -> Limiter;
  LimiterAllow : Z -> Limiter -> bool * Limiter;
  new_limiter_allows : forall r b now, 1 <= b -> (LimiterAllow now (NewLimiter r b)).1 = true
}.

Section RateLimit.
Context `{L : RateLib}.

(** [made] holds the limiters ever made; the map of addresses, and a request
    between [getLimiter] and the limiter's [Allow], point into it.  A limiter that the
    cleanup has taken from the map can so still be used by a request. *)
Record IPRateLimiter : Type := MkIPLimiter {
  made : list Limiter;
  ip_limiters : gmap string nat;
  lastSeen : gmap string Z;
  limit : float64;
  burst : Z
}.
Definition newIPRateLimiter (limit : float64) (burst : Z) : IPRateLimiter := MkIPLimiter [] ∅ ∅ limit burst.

Record RateLimitConfig : Type := MkRateConfig {
  StrictRPS : float64; StandardRPS : float64; PermissiveRPS : float64; FaucetRPS : float64; ApiKeyRPS : float64;
  StrictBurst : Z; StandardBurst : Z; PermissiveBurst : Z; FaucetBurst : Z; ApiKeyBurst : Z;
  CleanupInterval : Z; MaxIdleTime : Z; Enabled : bool
}.
Definition second : Z := 1000000000.
Definition DefaultRateLimitConfig : RateLimitConfig :=
  MkRateConfig (f64_of_int 1) (f64_of_int 10) (f64_of_int 100) (f64_const 1 60) (f64_of_int 50) 3 20 200 1 100 (60 * second) (5 * 60 * second) true.

Record RateLimiter : Type := MkRateLimiter {
  limiters : gmap string IPRateLimiter;
  keyLimiters : gmap string Limiter;
  apiKeyLimit : float64;
  apiKeyBurst : Z;
  maxIdleTime : Z;
  blockedIPs : gmap string Z;
  suspiciousIPs : gmap string bool;
  violationCount : gmap string Z;
  blockDuration : Z
}.
Definition NewRateLimiter (config : option RateLimitConfig) : RateLimiter :=
  let c := default DefaultRateLimitConfig config in
  MkRateLimiter
    (<["faucet" := newIPRateLimiter (FaucetRPS c) (FaucetBurst c)]>
       (<["permissive" := newIPRateLimiter (PermissiveRPS c) (PermissiveBurst c)]>
          (<["standard" := newIPRateLimiter (StandardRPS c) (StandardBurst c)]>
             (<["strict" := newIPRateLimiter (StrictRPS c) (StrictBurst c)]> ∅))))
    ∅ (ApiKeyRPS c) (ApiKeyBurst c) (MaxIdleTime c) ∅ ∅ ∅ (15 * 60 * second).

Definition set_records (blocked : gmap string Z) (suspicious : gmap string bool) (count : gmap string Z) (rl : RateLimiter) : RateLimiter :=
  MkRateLimiter (limiters rl) (keyLimiters rl) (apiKeyLimit rl) (apiKeyBurst rl) (maxIdleTime rl) blocked suspicious count (blockDuration rl).
Definition set_tiers (l : gmap string IPRateLimiter) (rl : RateLimiter) : RateLimiter :=
  MkRateLimiter l (keyLimiters rl) (apiKeyLimit rl) (apiKeyBurst rl) (maxIdleTime rl) (blockedIPs rl) (suspiciousIPs rl) (violationCount rl) (blockDuration rl).
Definition set_keys (k : gmap string Limiter) (rl : RateLimiter) : RateLimiter :=
  MkRateLimiter (limiters rl) k (apiKeyLimit rl) (apiKeyBurst rl) (maxIdleTime rl) (blockedIPs rl) (suspiciousIPs rl) (violationCount rl) (blockDuration rl).

(** ** The block list *)

Definition IsBlocked (now : Z) (ip : string) (rl : RateLimiter) : bool * RateLimiter :=
  match blockedIPs rl !! ip with
  | Some unblockTime =>
      if now <? unblockTime then (true, rl)
      else (false, set_records (delete ip (blockedIPs rl)) (delete ip (suspiciousIPs rl)) (delete ip (violationCount rl)) rl)
  | None => (false, rl)
  end.
Definition IsSuspicious (ip : string) (rl : RateLimiter) : bool := default false (suspiciousIPs rl !! ip).

(** ** Limits of addresses and keys *)

(** The limiter of an address, made when it is first seen. *)
Definition getLimiter (now : Z) (ip : string) (ipl : IPRateLimiter) : nat * IPRateLimiter :=
  match ip_limiters ipl !! ip with
  | Some limiter => (limiter, MkIPLimiter (made ipl) (ip_limiters ipl) (<[ip := now]> (lastSeen ipl)) (limit ipl) (burst ipl))
  | None =>
      let limiter := length (made ipl) in
      (limiter, MkIPLimiter (made ipl ++ [NewLimiter (limit ipl) (burst ipl)]) (<[ip := limiter]> (ip_limiters ipl)) (<[ip := now]> (lastSeen ipl))
         (limit ipl) (burst ipl))
  end.
(** [limiter.Allow()] on a limiter that [getLimiter] has returned. *)
Definition limiter_Allow (now : Z) (limiter : nat) (ipl : IPRateLimiter) : bool * IPRateLimiter :=
  match made ipl !! limiter with
  | Some l => let '(allowed, l) := LimiterAllow now l in
      (allowed, MkIPLimiter (<[limiter := l]> (made ipl)) (ip_limiters ipl) (lastSeen ipl) (limit ipl) (burst ipl))
  | None => (false, ipl)
  end.
Definition on_tier {A} (tier : string) (f : IPRateLimiter -> A * IPRateLimiter) (none : A) (rl : RateLimiter) : A * RateLimiter :=
  match limiters rl !! tier with
  | Some ipl => let '(a, ipl) := f ipl in (a, set_tiers (<[tier := ipl]> (limiters rl)) rl)
  | None => (none, rl)
  end.

Definition AllowKey (now : Z) (apiKey : string) (rl : RateLimiter) : bool * RateLimiter :=
  let limiter := default (NewLimiter (apiKeyLimit rl) (apiKeyBurst rl)) (keyLimiters rl !! apiKey) in
  let '(allowed, limiter) := LimiterAllow now limiter in
  (allowed, set_keys (<[apiKey := limiter]> (keyLimiters rl)) rl).

(** The part of [Allow] under the write lock. *)
Definition track_violation (now : Z) (ip : string) (rl : RateLimiter) : RateLimiter :=
  let n := i64 (default 0 (violationCount rl !! ip) + 1) in
  set_records (if 20 <=? n then <[ip := now + blockDuration rl]> (blockedIPs rl) else blockedIPs rl)
    (if 5 <=? n then <[ip := true]> (suspiciousIPs rl) else suspiciousIPs rl) (<[ip := n]> (violationCount rl)) rl.
(** A call that no other call interrupts. *)
Definition Allow (clock : nat -> Z) (ip tier : string) (rl : RateLimiter) : bool * RateLimiter :=
  let '(blocked, rl) := IsBlocked (clock 0%nat) ip rl in
  if blocked then (false, rl)
  else match limiters rl !! tier with
  | None => (true, rl)
  | Some _ =>
      let '(limiter, rl) := on_tier tier (getLimiter (clock 1%nat) ip) 0%nat rl in
      let '(allowed, rl) := on_tier tier (limiter_Allow (clock 2%nat) limiter) false rl in
      (allowed, if allowed then rl else track_violation (clock 3%nat) ip rl)
  end.

(** ** Cleaning up *)

(** Addresses seen within the idle time are kept, with their limiters. *)
Definition cleanup (now maxIdle : Z) (ipl : IPRateLimiter) : IPRateLimiter :=
  let stale (ip : string) := match lastSeen ipl !! ip with Some t => maxIdle <? Z.max (- two63) (Z.min (two63 - 1) (now - t)) | None => false end in
  MkIPLimiter (made ipl) (filter (fun kv => stale kv.1 = false) (ip_limiters ipl)) (filter (fun kv => stale kv.1 = false) (lastSeen ipl)) (limit ipl) (burst ipl).
Definition forgivable (rl : RateLimiter) (ip : string) : bool :=
  match blockedIPs rl !! ip, violationCount rl !! ip with None, Some count => count <? 5 | _, _ => false end.
Definition clean_tiers (now : Z) (rl : RateLimiter) : RateLimiter := set_tiers (cleanup now (maxIdleTime rl) <$> limiters rl) rl.
Definition clean_violations (rl : RateLimiter) : RateLimiter :=
  set_records (blockedIPs rl) (filter (fun kv => forgivable rl kv.1 = false) (suspiciousIPs rl)) (filter (fun kv => forgivable rl kv.1 = false) (violationCount rl)) rl.
(** One turn of [cleanupRoutine], under the write lock. *)
Definition cleanup_turn (now : Z) (rl : RateLimiter) : RateLimiter := clean_violations (clean_tiers now rl).

(** ** Limits of endpoints *)

Definition EndpointLimiter : Type := gmap string Limiter.
Definition endpoint_allow (now : Z) (endpoint : string) (el : EndpointLimiter) : bool * EndpointLimiter :=
  let limiter := default (NewLimiter (f64_of_int 1000) 2000) (el !! endpoint) in
  let '(allowed, limiter) := LimiterAllow now limiter in (allowed, <[endpoint := limiter]> el).

(** ** The middleware *)

(** [getClientIP]: the host part of the remote address, without looking at headers. *)
Record request : Type := MkRequest { client_ip : string; path : string; x_api_key : string }.
Record Server : Type := MkServer { rateLimiter : option RateLimiter; endpointLimiter : option EndpointLimiter }.
Inductive verdict : Type := Served (challenge : bool) | TooMany (tier : string).

Definition retryAfter (tier : string) : Z :=
  if String.eqb tier "blocked" then 900 else if String.eqb tier "strict" then 60 else if String.eqb tier "standard" then 10
  else if String.eqb tier "permissive" then 1 else if String.eqb tier "endpoint" then 5 else 10.

Definition check_endpoint (now : Z) (p : string) (s : Server) : bool * Server :=
  match endpointLimiter s with
  | None => (true, s)
  | Some el => let '(ok, el) := endpoint_allow now p el in (ok, MkServer (rateLimiter s) (Some el))
  end.
(** A request that no other request interrupts. *)
Definition RateLimitMiddleware (tier : string) (clock : nat -> Z) (r : request) (s : Server) : verdict * Server :=
  match rateLimiter s with
  | None => (Served false, s)
  | Some rl =>
      let '(blocked, rl) := IsBlocked (clock 0%nat) (client_ip r) rl in
      if blocked then (TooMany "blocked", MkServer (Some rl) (endpointLimiter s))
      else
        let '(ok, s) := check_endpoint (clock 1%nat) (path r) (MkServer (Some rl) (endpointLimiter s)) in
        if negb ok then (TooMany "endpoint", s)
        else if String.eqb (x_api_key r) "" then
          let challenge := IsSuspicious (client_ip r) rl in
          let '(ok, rl) := Allow (fun k => clock (2 + k)%nat) (client_ip r) tier rl in
          (if ok then Served challenge else TooMany tier, MkServer (Some rl) (endpointLimiter s))
        else
          let '(ok, rl) := AllowKey (clock 2%nat) (x_api_key r) rl in
          (if ok then Served false else TooMany "apikey", MkServer (Some rl) (endpointLimiter s))
  end.

(** ** Requests in parallel *)

(** Where a request is, with the variables it has read: one stage for each part that
    takes a lock. *)
Inductive stage : Type :=
| AtBlockList
| AtEndpoint
| AtKey
| AtSuspicious
| AllowBlocked (challenge : bool)
| AllowTier (challenge : bool)
| AllowGet (challenge : bool)
| AllowLimiter (challenge : bool) (limiter : nat)
| AllowCount (challenge : bool)
| Finished (v : verdict).

Record handler : Type := MkHandler { h_tier : string; h_request : request; h_stage : stage }.

Definition with_limiter {A} (f : A * RateLimiter) (s : Server) : A * Server := (f.1, MkServer (Some f.2) (endpointLimiter s)).
Definition handler_step (now : Z) (tier : string) (r : request) (st : stage) (s : Server) : stage * Server :=
  match rateLimiter s with
  | None => (Finished (Served false), s)
  | Some rl =>
      match st with
      | AtBlockList =>
          let '(blocked, s) := with_limiter (IsBlocked now (client_ip r) rl) s in (if blocked then Finished (TooMany "blocked") else AtEndpoint, s)
      | AtEndpoint =>
          let '(ok, s) := check_endpoint now (path r) s in
          (if negb ok then Finished (TooMany "endpoint") else if String.eqb (x_api_key r) "" then AtSuspicious else AtKey, s)
      | AtKey => let '(ok, s) := with_limiter (AllowKey now (x_api_key r) rl) s in (Finished (if ok then Served false else TooMany "apikey"), s)
      | AtSuspicious => (AllowBlocked (IsSuspicious (client_ip r) rl), s)
      | AllowBlocked c => let '(blocked, s) := with_limiter (IsBlocked now (client_ip r) rl) s in (if blocked then Finished (TooMany tier) else AllowTier c, s)
      | AllowTier c => (match limiters rl !! tier with Some _ => AllowGet c | None => Finished (Served c) end, s)
      | AllowGet c => let '(limiter, s) := with_limiter (on_tier tier (getLimiter now (client_ip r)) 0%nat rl) s in (AllowLimiter c limiter, s)
      | AllowLimiter c limiter =>
          let '(allowed, s) := with_limiter (on_tier tier (limiter_Allow now limiter) false rl) s in (if allowed then Finished (Served c) else AllowCount c, s)
      | AllowCount c => (Finished (TooMany tier), MkServer (Some (track_violation now (client_ip r) rl)) (endpointLimiter s))
      | Finished v => (Finished v, s)
      end
  end.

(** The server with the requests that have arrived. *)
Record World : Type := MkWorld { server_of : Server; handlers : list handler }.
Inductive http_event : Type :=
| Arrived (tier : string) (r : request)
| Stepped (i : nat) (now : Z)
| TiersCleaned (now : Z)
| ViolationsCleaned.
Definition on_rl (f : RateLimiter -> RateLimiter) (s : Server) : Server := MkServer (f <$> rateLimiter s) (endpointLimiter s).
Definition http_step (e : http_event) (w : World) : World :=
  match e with
  | Arrived tier r => MkWorld (server_of w) (handlers w ++ [MkHandler tier r AtBlockList])
  | Stepped i now =>
      match handlers w !! i with
      | Some (MkHandler tier r st) =>
          let '(st, s) := handler_step now tier r st (server_of w) in MkWorld s (<[i := MkHandler tier r st]> (handlers w))
      | None => w
      end
  | TiersCleaned now => MkWorld (on_rl (clean_tiers now) (server_of w)) (handlers w)
  | ViolationsCleaned => MkWorld (on_rl clean_violations (server_of w)) (handlers w)
  end.
Definition http_run (es : list http_event) (w : World) : World := fold_left (fun w e => http_step e w) es w.

Ltac parts := cbn -[IsBlocked getLimiter limiter_Allow AllowKey track_violation endpoint_allow].
(** A request that runs alone does what the composed definition says. *)
Definition alone (clock : nat -> Z) : list Z := [clock 0; clock 1; clock 2; clock 2; clock 2; clock 3; clock 4; clock 5]%nat.
Lemma request_alone tier clock r s :
  fold_left (fun '(st, s) now => handler_step now tier r st s) (alone clock) (AtBlockList, s) =
  (Finished (RateLimitMiddleware tier clock r s).1, (RateLimitMiddleware tier clock r s).2).
Proof.
  destruct s as [[rl|] el]; [|reflexivity]. unfold RateLimitMiddleware, Allow, check_endpoint, on_tier, with_limiter. parts.
  destruct (IsBlocked (clock 0%nat) (client_ip r) rl) as [[|] rl1]; parts; [done|].
  destruct el as [el|]; parts.
  1: destruct (endpoint_allow _ _ el) as [[|] el1]; parts; [|done].
  all: destruct (String.eqb (x_api_key r) ""); parts;
    [|destruct (AllowKey _ _ _) as [[|] rl2]; done].
  all: destruct (IsBlocked (clock 2%nat) (client_ip r) rl1) as [[|] rl2]; parts; [done|].
  all: destruct (limiters rl2 !! tier) as [ipl|] eqn:Ht; parts; [|done].
  all: unfold on_tier; rewrite Ht; destruct (getLimiter _ _ ipl) as [p ipl1]; parts.
  all: rewrite lookup_insert_eq; destruct (limiter_Allow _ _ ipl1) as [[|] ipl2]; done.
Qed.

(** ** The records of an address *)

Definition violations (rl : RateLimiter) (ip : string) : Z := default 0 (violationCount rl !! ip).

(** An address is suspicious from five violations on and blocked from twenty on. *)
Record records_agree (rl : RateLimiter) : Prop := MkAgree {
  ra_count : forall ip n, violationCount rl !! ip = Some n -> 1 <= n;
  ra_suspicious : forall ip, suspiciousIPs rl !! ip = if 5 <=? violations rl ip then Some true else None;
  ra_blocked : forall ip, is_Some (blockedIPs rl !! ip) <-> 20 <= violations rl ip
}.

Lemma agree_count rl ip : records_agree rl -> 0 <= violations rl ip.
Proof. intros Ha. unfold violations. destruct (violationCount rl !! ip) as [n|] eqn:Hn; simpl; [pose proof (ra_count rl Ha ip n Hn); lia|lia]. Qed.
Lemma agree_new c : records_agree (NewRateLimiter c).
Proof. split; intros; unfold violations in *; simpl in *; rewrite ?lookup_empty in *; simpl in *; [done|done|]. split; [intros [? ?]; done|lia]. Qed.

(** What every part but the count does with the records of an address: it leaves all
    three or takes all three away. *)
Definition kept (rl rl' : RateLimiter) (ip : string) : Prop :=
  blockedIPs rl' !! ip = blockedIPs rl !! ip /\ suspiciousIPs rl' !! ip = suspiciousIPs rl !! ip /\ violationCount rl' !! ip = violationCount rl !! ip.
Definition cleared (rl' : RateLimiter) (ip : string) : Prop :=
  blockedIPs rl' !! ip = None /\ suspiciousIPs rl' !! ip = None /\ violationCount rl' !! ip = None.
Definition no_worse (rl rl' : RateLimiter) : Prop := forall ip, kept rl rl' ip \/ cleared rl' ip.

Lemma same_no_worse rl rl' :
  blockedIPs rl' = blockedIPs rl -> suspiciousIPs rl' = suspiciousIPs rl -> violationCount rl' = violationCount rl -> no_worse rl rl'.
Proof. intros E1 E2 E3 ip. left. unfold kept. by rewrite E1, E2, E3. Qed.
Lemma no_worse_agree rl rl' : no_worse rl rl' -> records_agree rl -> records_agree rl'.
Proof.
  intros Hw [H1 H2 H3]. split; unfold violations in *.
  - intros ip n Hn. destruct (Hw ip) as [(_ & _ & E)|(_ & _ & E)]; rewrite E in Hn; [eauto|done].
  - intros ip. destruct (Hw ip) as [(_ & E1 & E2)|(_ & E1 & E2)]; rewrite E1, E2; [apply H2|done].
  - intros ip. destruct (Hw ip) as [(E1 & _ & E2)|(E1 & _ & E2)]; rewrite E1, E2; [apply H3|]. simpl. split; [intros [? ?]; done|lia].
Qed.
Lemma no_worse_count rl rl' ip : no_worse rl rl' -> violations rl' ip = violations rl ip \/ violations rl' ip = 0.
Proof. intros Hw. unfold violations. destruct (Hw ip) as [(_ & _ & E)|(_ & _ & E)]; rewrite E; [by left|by right]. Qed.

Lemma IsBlocked_no_worse now ip rl :
  no_worse rl (IsBlocked now ip rl).2 /\ ((IsBlocked now ip rl).1 = false -> blockedIPs (IsBlocked now ip rl).2 !! ip = None).
Proof.
  unfold IsBlocked. destruct (blockedIPs rl !! ip) as [t|] eqn:Hb; [|split; [by apply same_no_worse|done]].
  destruct (now <? t); [split; [by apply same_no_worse|done]|]. split; [|intros _; apply lookup_delete_eq].
  intros j. destruct (decide (ip = j)) as [<-|Hj]; [right|left]; unfold cleared, kept; simpl; [by rewrite !lookup_delete_eq|by rewrite !lookup_delete_ne].
Qed.
Lemma AllowKey_no_worse now k rl : no_worse rl (AllowKey now k rl).2.
Proof. unfold AllowKey. destruct (LimiterAllow _ _). by apply same_no_worse. Qed.
Lemma on_tier_no_worse {A} tier (f : IPRateLimiter -> A * IPRateLimiter) none rl : no_worse rl (on_tier tier f none rl).2.
Proof. unfold on_tier. destruct (limiters rl !! tier); [destruct (f _)|]; by apply same_no_worse. Qed.
Lemma clean_tiers_no_worse now rl : no_worse rl (clean_tiers now rl).
Proof. by apply same_no_worse. Qed.
Lemma clean_violations_no_worse rl : no_worse rl (clean_violations rl).
Proof.
  intros ip. unfold kept, cleared, clean_violations. simpl.
  assert (Hl : forall A (m : gmap string A), filter (fun kv => forgivable rl kv.1 = false) m !! ip = if forgivable rl ip then None else m !! ip).
  { intros A m. rewrite map_lookup_filter. destruct (m !! ip) as [x|]; simpl; [|by destruct (forgivable rl ip)].
    unfold guard. destruct (forgivable rl ip) eqn:Hf; case_decide as Hd; simpl in *; congruence. }
  rewrite !Hl. destruct (forgivable rl ip) eqn:Hf; [right|by left]. unfold forgivable in Hf. destruct (blockedIPs rl !! ip); done.
Qed.

Lemma track_agree now ip rl : records_agree rl -> violations rl ip + 1 < two63 ->
  records_agree (track_violation now ip rl) /\ violations (track_violation now ip rl) ip = violations rl ip + 1 /\
  (forall j, j <> ip -> violations (track_violation now ip rl) j = violations rl j).
Proof.
  intros Ha Hlt. pose proof (agree_count rl ip Ha) as Hc. destruct Ha as [H1 H2 H3].
  unfold track_violation. fold (violations rl ip). rewrite i64_id by (unfold_ints; lia). set (n := violations rl ip + 1) in *. cbv zeta.
  assert (Hn : forall j, default 0 (<[ip := n]> (violationCount rl) !! j) = if decide (ip = j) then n else violations rl j).
  { intros j. destruct (decide (ip = j)) as [<-|Hj]; [by rewrite lookup_insert_eq|by rewrite lookup_insert_ne]. }
  split; [|split; [unfold violations; simpl; rewrite Hn; by destruct (decide (ip = ip))|intros j Hj; unfold violations at 1; simpl; rewrite Hn; by destruct (decide (ip = j))]].
  split; [simpl|unfold violations at 1; simpl|unfold violations at 1; simpl].
  - intros j k [[<- <-]|[_ Hk]]%lookup_insert_Some; [lia|eauto].
  - intros j. rewrite Hn. destruct (decide (ip = j)) as [<-|Hj].
    + destruct (Z.leb_spec 5 n); [by rewrite lookup_insert_eq|]. rewrite H2. destruct (Z.leb_spec 5 (violations rl ip)); [lia|done].
    + rewrite <-H2. destruct (5 <=? n); [by rewrite lookup_insert_ne|done].
  - intros j. rewrite Hn. destruct (decide (ip = j)) as [<-|Hj].
    + destruct (Z.leb_spec 20 n); [rewrite lookup_insert_eq; split; [lia|eauto]|]. rewrite H3. lia.
    + rewrite <-H3. destruct (20 <=? n); [by rewrite lookup_insert_ne|done].
Qed.

(** ** Requests in flight *)

(** Past the block list in [Allow] and not yet through with it. *)
Definition inside (st : stage) : bool :=
  match st with AllowTier _ | AllowGet _ | AllowLimiter _ _ | AllowCount _ => true | _ => false end.
Definition finished (st : stage) : bool := match st with Finished _ => true | _ => false end.
Definition one_if (b : bool) : nat := if b then 1 else 0.
Definition inside_of (ip : string) (h : handler) : nat := one_if (inside (h_stage h) && String.eqb (client_ip (h_request h)) ip).
Definition in_flight (hs : list handler) : nat := sum_list_with (fun h => one_if (negb (finished (h_stage h)))) hs.
Definition pending (ip : string) (hs : list handler) : nat := sum_list_with (inside_of ip) hs.

Lemma sum_insert {A} (f : A -> nat) (l : list A) i x y : l !! i = Some x -> (sum_list_with f (<[i := y]> l) + f x = sum_list_with f l + f y)%nat.
Proof. revert i; induction l as [|z l IH]; intros [|i]; simpl; intros E; [done|done|simplify_eq; lia|]. specialize (IH i E). lia. Qed.
Lemma pending_in_flight ip hs : (pending ip hs <= in_flight hs)%nat.
Proof. unfold pending, in_flight, inside_of. induction hs as [|[t r []] hs IH]; simpl; try lia; destruct (String.eqb (client_ip r) ip); simpl; lia. Qed.

(** One part of a request: all but the count leave the records no worse, and a
    request gets inside only when its address is not blocked. *)
Lemma handler_step_quiet now tier r st s rl : rateLimiter s = Some rl -> (forall c, st <> AllowCount c) ->
  exists rl', rateLimiter (handler_step now tier r st s).2 = Some rl' /\ no_worse rl rl' /\
    (inside (handler_step now tier r st s).1 = true -> inside st = true \/ blockedIPs rl' !! client_ip r = None).
Proof.
  intros Hs Hst. unfold handler_step. rewrite Hs. unfold with_limiter. destruct st as [| | | |c|c|c|c p|c|v]; [| | | | | | | |by destruct (Hst c)|].
  - pose proof (IsBlocked_no_worse now (client_ip r) rl) as [Hw _]. destruct (IsBlocked _ _ _) as [[|] rl1]; by exists rl1.
  - exists rl. unfold check_endpoint. split; [destruct (endpointLimiter s); [destruct (endpoint_allow _ _ _)|]; done|split; [by apply same_no_worse|]].
    destruct (endpointLimiter s); [destruct (endpoint_allow _ _ _) as [[|] ?]|]; simpl; try done; by destruct (String.eqb (x_api_key r) "").
  - pose proof (AllowKey_no_worse now (x_api_key r) rl) as Hw. destruct (AllowKey _ _ _) as [ok rl1]. by exists rl1.
  - exists rl. split; [done|split; [by apply same_no_worse|done]].
  - pose proof (IsBlocked_no_worse now (client_ip r) rl) as [Hw Hn]. destruct (IsBlocked _ _ _) as [[|] rl1]; exists rl1; [done|]. split; [done|]. split; [done|]. intros _. right. by apply Hn.
  - exists rl. split; [done|]. split; [by apply same_no_worse|]. intros _. by left.
  - pose proof (on_tier_no_worse tier (getLimiter now (client_ip r)) 0%nat rl) as Hw. destruct (on_tier _ _ _ _) as [q rl1]. exists rl1. split; [done|]. split; [done|]. intros _. by left.
  - pose proof (on_tier_no_worse tier (limiter_Allow now p) false rl) as Hw. destruct (on_tier _ _ _ _) as [q rl1]. exists rl1. split; [done|]. split; [done|]. intros _. by left.
  - exists rl. split; [done|split; [by apply same_no_worse|done]].
Qed.

(** ** Histories *)

Definition within (K : nat) (w : World) : Prop :=
  match rateLimiter (server_of w) with
  | Some rl => records_agree rl /\ forall ip, 20 <= violations rl ip -> violations rl ip + Z.of_nat (pending ip (handlers w)) <= 19 + Z.of_nat K
  | None => True
  end.

Lemma within_count K w rl ip : within K w -> rateLimiter (server_of w) = Some rl -> violations rl ip <= 19 + Z.of_nat K.
Proof. unfold within. intros Hw Hr. rewrite Hr in Hw. destruct Hw as [_ Hw]. specialize (Hw ip). lia. Qed.

Lemma within_quiet K rl rl' hs hs' el el' :
  no_worse rl rl' -> (forall ip, 20 <= violations rl' ip -> (pending ip hs' <= pending ip hs)%nat) ->
  within K (MkWorld (MkServer (Some rl) el) hs) -> within K (MkWorld (MkServer (Some rl') el') hs').
Proof.
  intros Hw Hp [Ha Hk]. simpl in *. split; [by eapply no_worse_agree|]. simpl. intros ip Hip. specialize (Hp ip Hip). specialize (Hk ip).
  destruct (no_worse_count rl rl' ip Hw) as [E|E]; lia.
Qed.

Lemma within_stepped K w i now : (in_flight (handlers w) <= K)%nat -> 20 + Z.of_nat K < two63 -> within K w -> within K (http_step (Stepped i now) w).
Proof.
  intros Hf HK Hw. simpl. destruct (handlers w !! i) as [[tier r st]|] eqn:Hi; [|done].
  destruct (rateLimiter (server_of w)) as [rl|] eqn:Hr; [|by unfold handler_step; rewrite Hr; unfold within; simpl; rewrite Hr].
  destruct w as [[orl el] hs]. simpl in *. subst orl.
  assert (Hc : (exists c, st = AllowCount c) \/ forall c, st <> AllowCount c) by (destruct st; eauto; right; intros; discriminate).
  destruct Hc as [[c ->]|Hst].
  - destruct Hw as [Ha Hk]. simpl in *.
    pose proof (sum_insert (inside_of (client_ip r)) hs i _ (MkHandler tier r (Finished (TooMany tier))) Hi) as Hs.
    unfold inside_of in Hs at 2 4. simpl in Hs. rewrite String.eqb_refl in Hs. simpl in Hs. change (sum_list_with (inside_of (client_ip r))) with (pending (client_ip r)) in Hs.
    pose proof (pending_in_flight (client_ip r) hs). pose proof (Hk (client_ip r)) as Hkr.
    destruct (track_agree now (client_ip r) rl Ha) as (Ha' & Hn & Ho); [lia|]. split; [done|]. simpl. intros ip Hip.
    destruct (decide (ip = client_ip r)) as [->|Hne]; [lia|]. rewrite Ho in Hip |- * by done. specialize (Hk ip Hip).
    pose proof (sum_insert (inside_of ip) hs i _ (MkHandler tier r (Finished (TooMany tier))) Hi) as Ht. unfold inside_of in Ht at 4. simpl in Ht.
    change (sum_list_with (inside_of ip)) with (pending ip) in Ht. lia.
  - pose proof (handler_step_quiet now tier r st (MkServer (Some rl) el) rl eq_refl Hst) as (rl' & Hrl' & Hno & Hin).
    destruct (handler_step now tier r st _) as [st' [orl el']]. simpl in *. subst orl. eapply (within_quiet K rl rl' hs _ el); [done| |done].
    intros ip Hip. pose proof (sum_insert (inside_of ip) hs i _ (MkHandler tier r st') Hi) as Ht. change (sum_list_with (inside_of ip)) with (pending ip) in Ht.
    cut (inside_of ip (MkHandler tier r st') <= inside_of ip (MkHandler tier r st))%nat; [lia|]. unfold inside_of. simpl.
    destruct (inside st') eqn:Hst'; simpl; [|lia]. destruct (String.eqb_spec (client_ip r) ip) as [E|_]; simpl; [|lia].
    destruct (Hin eq_refl) as [->|Hb]; simpl; [lia|]. exfalso. destruct Hw as [Ha _]. pose proof (no_worse_agree _ _ Hno Ha) as Ha'.
    subst ip. apply (ra_blocked _ Ha') in Hip as [? ?]. congruence.
Qed.

Lemma within_step K e w : (in_flight (handlers w) <= K)%nat -> 20 + Z.of_nat K < two63 -> within K w -> within K (http_step e w).
Proof.
  intros Hf HK Hw. destruct e as [tier r|i now|now|]; [|by apply within_stepped| |]; destruct w as [[[rl|] el] hs]; try done; simpl.
  - eapply within_quiet; [by apply (same_no_worse rl rl)| |exact Hw]. intros ip _. unfold pending. rewrite sum_list_with_app. cbn [sum_list_with]. change (inside_of ip (MkHandler tier r AtBlockList)) with 0%nat. lia.
  - eapply within_quiet; [apply clean_tiers_no_worse|done|exact Hw].
  - eapply within_quiet; [apply clean_violations_no_worse|done|exact Hw].
Qed.

(** At most [K] requests are in flight at any time of the history. *)
Definition at_most (K : nat) (es : list http_event) (w : World) : Prop :=
  forall es1 es2, es = es1 ++ es2 -> (in_flight (handlers (http_run es1 w)) <= K)%nat.
Lemma run_within K es w : at_most K es w -> 20 + Z.of_nat K < two63 -> within K w -> within K (http_run es w).
Proof.
  revert w; induction es as [|e es IH]; intros w Hm HK Hw; [done|]. simpl. apply IH; [|done|].
  - intros es1 es2 ->. apply (Hm (e :: es1) es2). done.
  - apply within_step; [apply (Hm [] (e :: es) eq_refl)|done|done].
Qed.
Definition start (config : option RateLimitConfig) (el : option EndpointLimiter) : World := MkWorld (MkServer (Some (NewRateLimiter config)) el) [].

(** C37. Whatever requests arrive and however their parts and the cleanups interleave:
    an address is suspicious (a request of it without an API key is told to solve a
    challenge) exactly from five violations on, and is on the block list exactly from
    twenty violations on; and with at most [K] requests in flight at any time its
    violations never exceed [19 + K], that is, twenty when requests come one by one. *)
Theorem violations_decide K es config el ip rl :
  at_most K es (start config el) -> 20 + Z.of_nat K < two63 -> rateLimiter (server_of (http_run es (start config el))) = Some rl ->
  let n := default 0 (violationCount rl !! ip) in
  0 <= n <= 19 + Z.of_nat K /\ IsSuspicious ip rl = (5 <=? n) /\ (is_Some (blockedIPs rl !! ip) <-> 20 <= n).
Proof.
  intros Hm HK Hr. assert (Hw : within K (http_run es (start config el))).
  { apply run_within; [done|done|]. split; [apply agree_new|]. intros j. unfold violations. simpl. rewrite lookup_empty. simpl. lia. }
  pose proof (within_count K _ rl ip Hw Hr) as Hc. unfold within in Hw. rewrite Hr in Hw. destruct Hw as [Ha _]. pose proof (agree_count rl ip Ha).
  cbv zeta. fold (violations rl ip). split; [lia|]. split; [|apply (ra_blocked rl Ha)]. unfold IsSuspicious. rewrite (ra_suspicious rl Ha ip). by destruct (5 <=? _).
Qed.

(** A request with an API key the server has not seen is served whatever its
    address has done before, as long as the address is not blocked and the endpoint has
    room; and nothing is recorded against the address. *)
Theorem unknown_key_is_served tier clock r rl el :
  (IsBlocked (clock 0%nat) (client_ip r) rl).1 = false -> (endpoint_allow (clock 1%nat) (path r) el).1 = true ->
  x_api_key r <> EmptyString -> keyLimiters rl !! x_api_key r = None -> 1 <= apiKeyBurst rl ->
  let '(v, s) := RateLimitMiddleware tier clock r (MkServer (Some rl) (Some el)) in
  v = Served false /\
  forall rl', rateLimiter s = Some rl' -> limiters rl' = limiters rl /\ default 0 (violationCount rl' !! client_ip r) <= Z.max 0 (default 0 (violationCount rl !! client_ip r)).
Proof.
  intros Hb He Hk Hn Hbu. unfold RateLimitMiddleware, check_endpoint. cbn [rateLimiter endpointLimiter].
  assert (Hi : let rl1 := (IsBlocked (clock 0%nat) (client_ip r) rl).2 in
    limiters rl1 = limiters rl /\ keyLimiters rl1 = keyLimiters rl /\ apiKeyLimit rl1 = apiKeyLimit rl /\ apiKeyBurst rl1 = apiKeyBurst rl /\
    default 0 (violationCount rl1 !! client_ip r) <= Z.max 0 (default 0 (violationCount rl !! client_ip r))).
  { unfold IsBlocked. destruct (blockedIPs rl !! client_ip r) as [t|]; [destruct (_ <? t)|]; simpl; split_and!; try done; rewrite ?lookup_delete_eq; simpl; lia. }
  destruct (IsBlocked (clock 0%nat) (client_ip r) rl) as [b rl1]. simpl in Hb, Hi. subst b. destruct Hi as (Hl & Hkk & Hkl & Hkb & Hv).
  destruct (endpoint_allow (clock 1%nat) (path r) el) as [ok el']. simpl in He. subst ok. cbn [negb].
  rewrite (proj2 (String.eqb_neq _ _) Hk). unfold AllowKey. rewrite Hkk, Hn. simpl.
  pose proof (new_limiter_allows (apiKeyLimit rl1) (apiKeyBurst rl1) (clock 2%nat) ltac:(lia)) as Hal.
  destruct (LimiterAllow _ _) as [a l']. simpl in Hal. subst a. split; [done|]. intros rl' [= <-]. simpl. done.
Qed.
End RateLimit.

Module RateDemo.
(** A bucket that is never refilled. *)
#[local] Instance dry : RateLib := {
  Limiter := Z; NewLimiter := fun _ b => b; LimiterAllow := fun _ b => if 1 <=? b then (true, b - 1) else (false, b);
  new_limiter_allows := fun r b now H => eq_trans (f_equal (fun c : bool => (if c then (true, b - 1) else (false, b)).1) (proj2 (Z.leb_le 1 b) H)) eq_refl }.

Definition anonymous : request := MkRequest "10.0.0.1" "/tx" "".
Definition with_key : request := MkRequest "10.0.0.1" "/tx" "made up".
Definition server : Server := MkServer (Some (NewRateLimiter None)) (Some ∅).
Definition hammered (n : nat) : Server := Nat.iter n (fun s => (RateLimitMiddleware "strict" (fun _ => 0) anonymous s).2) server.

(** Three requests are served and nineteen are violations; two more then pass the
    block list side by side, and the address ends with twenty-one violations. *)
Definition eight (i : nat) : list http_event := repeat (Stepped i 0) 8.
Definition one_by_one (n : nat) : list http_event := concat ((fun i => Arrived "strict" anonymous :: eight i) <$> seq 0 n).
Definition side_by_side : list http_event :=
  one_by_one 22 ++ [Arrived "strict" anonymous; Arrived "strict" anonymous] ++ concat (repeat [Stepped 22 0; Stepped 23 0] 8).
Definition after_all : World := http_run side_by_side (start None (Some ∅)).
Definition limiter_after : RateLimiter := default (NewRateLimiter None) (rateLimiter (server_of after_all)).
Fixpoint most_in_flight (es : list http_event) (w : World) : nat :=
  match es with [] => in_flight (handlers w) | e :: es => Nat.max (in_flight (handlers w)) (most_in_flight es (http_step e w)) end.
Lemma most_at_most K es w : (most_in_flight es w <= K)%nat -> at_most K es w.
Proof.
  intros H es1 es2 E. subst es. revert w H. induction es1 as [|e es1 IH]; intros w H; simpl in *.
  - destruct es2; simpl in H; lia.
  - apply IH. lia.
Qed.
Lemma two_in_flight : at_most 2 side_by_side (start None (Some ∅)) /\ rateLimiter (server_of (http_run side_by_side (start None (Some ∅)))) = Some limiter_after /\
  violationCount limiter_after !! "10.0.0.1" = Some 21.
Proof. split; [apply most_at_most; vm_compute; lia|]. vm_compute. done. Qed.
Lemma violations_decide_witness :
  let n := default 0 (violationCount limiter_after !! "10.0.0.1") in
  0 <= n <= 19 + Z.of_nat 2 /\ IsSuspicious "10.0.0.1" limiter_after = (5 <=? n) /\ (is_Some (blockedIPs limiter_after !! "10.0.0.1") <-> 20 <= n).
Proof. exact (violations_decide 2 side_by_side None (Some ∅) "10.0.0.1" limiter_after (proj1 two_in_flight) ltac:(vm_compute; reflexivity) (proj1 (proj2 two_in_flight))). Defined.

(** Nineteen violations: without a key the address is refused, with any key it is served. *)
Example refused_without_key : (RateLimitMiddleware "strict" (fun _ => 0) anonymous (hammered 22)).1 = TooMany "strict".
Proof. vm_compute. reflexivity. Qed.
Definition hammered_limiter : RateLimiter := default (NewRateLimiter None) (rateLimiter (hammered 22)).
Lemma unknown_key_is_served_witness :
  let '(v, s) := RateLimitMiddleware "strict" (fun _ => 0) with_key (MkServer (Some hammered_limiter) (Some ∅)) in
  v = Served false /\
  forall rl', rateLimiter s = Some rl' -> limiters rl' = limiters hammered_limiter /\
    default 0 (violationCount rl' !! client_ip with_key) <= Z.max 0 (default 0 (violationCount hammered_limiter !! client_ip with_key)).
Proof. apply (unknown_key_is_served "strict" (fun _ => 0) with_key hammered_limiter ∅); vm_compute; done. Defined.
(** Five violations are never forgiven, however long the address keeps quiet. *)
Example five_stay : (fun rl => violationCount rl !! "10.0.0.1") <$> (cleanup_turn (1000000 * second) <$> rateLimiter (hammered 8)) = Some (Some 5).
Proof. vm_compute. reflexivity. Qed.
End RateDemo.
