(* ===== verification/Sync.v ===== *)
(** * Catching up with peers (src/sync/sync.go, src/sync/synchronizer.go)

    The synchronizer asks peers for ranges of blocks and adds them to the chain; the
    manager finds peers, decides when to synchronise and keeps the status, under a
    mutex that is not reentrant.  The chain and the network are the world [W]. *)

From stdpp Require Import base tactics numbers list gmap strings.
From Stdlib Require Import ZArith Lia.
From S2P Require Import Prelude SafeMath Floats.
Open Scope Z_scope.
Open Scope list_scope.

Inductive sync_err : Type :=
| NotRunning | InvalidRange (s e : Z) | RequestTooLarge | TooManyActive | QueueFull | ShuttingDown | PeerFailed | RequestTimeout
| NoPeerAnswered | AddFailed (h : Z) | AlreadySyncing | NoNetwork | NoConnectedPeers | NoSyncPeers | NoTipPeers | AlreadyStarted | AllPeersFailed
| SnapshotFailed | Cancelled.

(** What becomes of a queued request: the queue stays full for five seconds, the
    synchronizer stops, the peer's answer comes in, or thirty seconds pass. *)
Inductive fate (B : Type) : Type := Full | Stopped | Replied (r : outcome sync_err (list B)) | TimedOut.
Arguments Full {B}.
Arguments Stopped {B}.
Arguments Replied {B} r.
Arguments TimedOut {B}.

(** The chain and the network.  [exchange] also gives the ID of the request and
    how long it took. *)
Class SyncPorts (W B : Type) : Type := {
  block_Index : B -> Z;
  GetHeight : W -> Z;
  bc_AddBlock : B -> W -> bool * W;
  bc_AddBlockFromSync : B -> W -> bool * W;
  exchange : string -> Z -> Z -> W -> (string * Z * Z * fate B) * W;
  GetConnectedPeerIDs : W -> option (list string);
  RequestPeerHeight : string -> W -> option Z;
  Now : W -> Z;
  IsFastSyncEnabled : W -> bool;
  IsStateSyncNeeded : W -> bool;
  FastSyncTo : string -> Z -> W -> option Z * W;
  SyncWorldState : W -> bool * W;
  StateSyncer_Start : W -> bool * W;
  Cancelled_now : W -> bool
}.

Definition MaxActiveRequests : Z := 500.
Definition MaxBlocksPerRequest : Z := 100.

Record BlockRequest : Type := MkBlockRequest { req_Peer : string; req_Start : Z; req_End : Z; req_Timestamp : Z }.
Record Synchronizer : Type := MkSynchronizer {
  activeRequests : gmap string BlockRequest;
  isRunning : bool;
  totalRequests : Z;
  successfulReqs : Z;
  failedRequests : Z;
  avgResponseTime : Z
}.
Definition NewSynchronizer : Synchronizer := MkSynchronizer ∅ false 0 0 0 0.
Definition set_active (a : gmap string BlockRequest) (s : Synchronizer) : Synchronizer :=
  MkSynchronizer a (isRunning s) (totalRequests s) (successfulReqs s) (failedRequests s) (avgResponseTime s).
Definition removeActiveRequest (id : string) (s : Synchronizer) : Synchronizer := set_active (delete id (activeRequests s)) s.
Definition updateAverageResponseTime (t : Z) (s : Synchronizer) : Synchronizer :=
  MkSynchronizer (activeRequests s) (isRunning s) (totalRequests s) (successfulReqs s) (failedRequests s)
    (if avgResponseTime s =? 0 then t else Z.quot (i64 (avgResponseTime s + t)) 2).
Definition count_success (s : Synchronizer) : Synchronizer :=
  MkSynchronizer (activeRequests s) (isRunning s) (totalRequests s) (i64 (successfulReqs s + 1)) (failedRequests s) (avgResponseTime s).
Definition count_failure (s : Synchronizer) : Synchronizer :=
  MkSynchronizer (activeRequests s) (isRunning s) (totalRequests s) (successfulReqs s) (i64 (failedRequests s + 1)) (avgResponseTime s).
Definition add_active (id : string) (r : BlockRequest) (s : Synchronizer) : Synchronizer :=
  MkSynchronizer (<[id := r]> (activeRequests s)) (isRunning s) (i64 (totalRequests s + 1)) (successfulReqs s) (failedRequests s) (avgResponseTime s).
Definition Synchronizer_Start (s : Synchronizer) : outcome sync_err Synchronizer :=
  if isRunning s then Err AlreadyStarted else Ok (MkSynchronizer (activeRequests s) true (totalRequests s) (successfulReqs s) (failedRequests s) (avgResponseTime s)).
Definition Synchronizer_IsHealthy (s : Synchronizer) : bool :=
  if negb (isRunning s) then false
  else if 10 <? totalRequests s then f64_lt (f64_const 7 10) (f64_div (f64_of_int (successfulReqs s)) (f64_of_int (totalRequests s))) else true.
(** [cleanupTimedOutRequests]: every request that is overdue is dropped and counted. *)
Definition overdue (now timeout : Z) (r : BlockRequest) : bool := timeout <? now - req_Timestamp r.
Definition cleanupTimedOutRequests (now timeout : Z) (s : Synchronizer) : Synchronizer :=
  let late := filter (fun kv => overdue now timeout kv.2 = true) (activeRequests s) in
  MkSynchronizer (filter (fun kv => overdue now timeout kv.2 = false) (activeRequests s)) (isRunning s) (totalRequests s) (successfulReqs s)
    (i64 (failedRequests s + Z.of_nat (size late))) (avgResponseTime s).

Section Sync.
Context {W B : Type} `{P : SyncPorts W B}.
Notation Sy := (GoM (Synchronizer * W) sync_err).

(** ** Requests *)

Definition RequestBlocks (peerID : string) (startBlock endBlock : Z) : Sy (list B) := fun '(s, w) =>
  if negb (isRunning s) then (Err NotRunning, (s, w))
  else if endBlock <? startBlock then (Err (InvalidRange startBlock endBlock), (s, w))
  else if MaxBlocksPerRequest <? i64 (endBlock - startBlock) then (Err RequestTooLarge, (s, w))
  else if MaxActiveRequests <=? Z.of_nat (size (activeRequests s)) then (Err TooManyActive, (s, w))
  else
    let '(id, started, took, f, w) := exchange peerID startBlock endBlock w in
    let s := removeActiveRequest id (add_active id (MkBlockRequest peerID startBlock endBlock started) s) in
    match f with
    | Full => (Err QueueFull, (s, w))
    | Stopped => (Err ShuttingDown, (s, w))
    | Replied (Ok blocks) => (Ok blocks, (updateAverageResponseTime took (count_success s), w))
    | Replied (Err e) => (Err e, (count_failure s, w))
    | Replied _ => (Err PeerFailed, (count_failure s, w))
    | TimedOut => (Err RequestTimeout, (count_failure s, w))
    end.
Definition RequestSingleBlock (peerID : string) : Sy (option B) := blocks ← RequestBlocks peerID 0 1; mret (head blocks).

(** The first peer that answers; with no peer at all there is no error either. *)
Fixpoint try_peers (peers : list string) (startBlock endBlock : Z) (last : outcome sync_err (list B)) : Sy (list B) :=
  match peers with
  | [] => lift last
  | p :: peers => fun sw =>
      match RequestBlocks p startBlock endBlock sw with
      | (Ok blocks, sw) => (Ok blocks, sw)
      | (r, sw) => try_peers peers startBlock endBlock r sw
      end
  end.

Fixpoint add_blocks (add : B -> W -> bool * W) (blocks : list B) (currentHeight : Z) : Sy Z :=
  match blocks with
  | [] => mret currentHeight
  | b :: blocks => fun '(s, w) =>
      let '(ok, w) := add b w in
      if ok then add_blocks add blocks (block_Index b) (s, w) else (Err (AddFailed (block_Index b)), (s, w))
  end.

Definition batch_of (currentHeight targetHeight : Z) : Z := Z.min MaxBlocksPerRequest (targetHeight - currentHeight).
(** The loop of [SyncToHeight]; [Hang] when the fuel runs out before it returns. *)
Fixpoint sync_loop (fuel : nat) (peers : list string) (currentHeight targetHeight : Z) : Sy unit :=
  if currentHeight <? targetHeight then
    match fuel with
    | O => lift Hang
    | S fuel =>
        blocks ← wrapM (fun _ => NoPeerAnswered) (try_peers peers (i64 (currentHeight + 1)) (i64 (currentHeight + batch_of currentHeight targetHeight)) (Ok []));
        currentHeight ← add_blocks bc_AddBlockFromSync blocks currentHeight;
        sync_loop fuel peers currentHeight targetHeight
    end
  else mret tt.
Definition SyncToHeight (fuel : nat) (targetHeight : Z) (preferredPeers : list string) : Sy unit := fun '(s, w) =>
  if targetHeight <=? GetHeight w then (Ok tt, (s, w)) else sync_loop fuel preferredPeers (GetHeight w) targetHeight (s, w).

(** ** Batches *)

Fixpoint batches (fuel : nat) (batchSize start endHeight : Z) : list (Z * Z) :=
  match fuel with
  | O => []
  | S fuel => if start <=? endHeight then (start, Z.min (start + batchSize - 1) endHeight) :: batches fuel batchSize (start + batchSize) endHeight else []
  end.
Fixpoint processBatch (peers : list string) (batch : Z * Z) : Sy (list B) :=
  match peers with
  | [] => throw AllPeersFailed
  | p :: peers => fun sw =>
      match RequestBlocks p batch.1 batch.2 sw with
      | (Ok blocks, sw) => (Ok blocks, sw)
      | (_, sw) => processBatch peers batch sw
      end
  end.

(** ** The manager *)

Inductive SyncStatus : Type := SyncStatusIdle | SyncStatusSyncing | SyncStatusCatchingUp | SyncStatusComplete | SyncStatusFailed.
#[global] Instance SyncStatus_eq_dec : EqDecision SyncStatus.
Proof. solve_decision. Defined.
Record SyncPeer : Type := MkSyncPeer { peer_Height : Z; LastSeen : Z; Latency : Z; Reliability : float64; IsResponsive : bool }.
Record SyncManager : Type := MkSyncManager {
  status : SyncStatus;
  currentHeight : Z;
  targetHeight : Z;
  syncPeers : gmap string SyncPeer;
  syncStartTime : option Z;
  blocksProcessed : Z;
  syncErrors : Z;
  avgBlockTime : Z;
  mu_held : bool;
  synchronizer : Synchronizer;
  world : W
}.
Definition NewSyncManager (w : W) : SyncManager := MkSyncManager SyncStatusIdle 0 0 ∅ None 0 0 0 false NewSynchronizer w.
Notation Sm := (GoM SyncManager sync_err).

Definition set_mu (b : bool) (m : SyncManager) : SyncManager :=
  MkSyncManager (status m) (currentHeight m) (targetHeight m) (syncPeers m) (syncStartTime m) (blocksProcessed m) (syncErrors m) (avgBlockTime m) b (synchronizer m) (world m).
Definition set_status (st : SyncStatus) (m : SyncManager) : SyncManager :=
  MkSyncManager st (currentHeight m) (targetHeight m) (syncPeers m) (syncStartTime m) (blocksProcessed m) (syncErrors m) (avgBlockTime m) (mu_held m) (synchronizer m) (world m).
Definition set_heights (c t : Z) (m : SyncManager) : SyncManager :=
  MkSyncManager (status m) c t (syncPeers m) (syncStartTime m) (blocksProcessed m) (syncErrors m) (avgBlockTime m) (mu_held m) (synchronizer m) (world m).
Definition set_peers (p : gmap string SyncPeer) (errors : Z) (m : SyncManager) : SyncManager :=
  MkSyncManager (status m) (currentHeight m) (targetHeight m) p (syncStartTime m) (blocksProcessed m) errors (avgBlockTime m) (mu_held m) (synchronizer m) (world m).
Definition set_started (t : option Z) (m : SyncManager) : SyncManager :=
  MkSyncManager (status m) (currentHeight m) (targetHeight m) (syncPeers m) t (blocksProcessed m) (syncErrors m) (avgBlockTime m) (mu_held m) (synchronizer m) (world m).
Definition set_progress (n avg : Z) (m : SyncManager) : SyncManager :=
  MkSyncManager (status m) (currentHeight m) (targetHeight m) (syncPeers m) (syncStartTime m) n (syncErrors m) avg (mu_held m) (synchronizer m) (world m).
Definition set_parts (s : Synchronizer) (w : W) (m : SyncManager) : SyncManager :=
  MkSyncManager (status m) (currentHeight m) (targetHeight m) (syncPeers m) (syncStartTime m) (blocksProcessed m) (syncErrors m) (avgBlockTime m) (mu_held m) s w.

(** [sm.mu.Lock(); defer sm.mu.Unlock()]: the holder that locks again waits for itself. *)
Definition locked {A} (body : Sm A) : Sm A := fun m =>
  if mu_held m then (Hang, m)
  else let '(r, m) := body (set_mu true m) in (r, match r with Hang => m | _ => set_mu false m end).
(** [sm.mu.RLock(); defer sm.mu.RUnlock()]: waits for a writer. *)
Definition rlocked {A} (body : SyncManager -> A) : Sm A := fun m => if mu_held m then (Hang, m) else (Ok (body m), m).

Definition setStatus (st : SyncStatus) : Sm unit := locked (modify (set_status st)).

(** The heights the peers report; an ID of less than twelve characters cannot be logged. *)
Fixpoint query_heights (peers : list string) (w : W) : outcome sync_err (list (string * Z)) :=
  match peers with
  | [] => Ok []
  | p :: peers =>
      if (String.length p <? 12)%nat then Panic
      else match query_heights peers w with
           | Ok rs => Ok (match RequestPeerHeight p w with Some h => (p, h) :: rs | None => rs end)
           | r => r
           end
  end.
Definition merge_peers (now : Z) (results : list (string * Z)) (old : gmap string SyncPeer) : gmap string SyncPeer :=
  fold_left (fun acc '(p, h) =>
    <[p := match old !! p with
           | Some e => MkSyncPeer h now (Latency e) (Reliability e) true
           | None => MkSyncPeer h now 0 (f64_of_int 1) true
           end]> acc) results ∅.
Definition discoverSyncPeers : Sm unit := fun m =>
  match GetConnectedPeerIDs (world m) with
  | None => (Err NoNetwork, m)
  | Some [] => (Err NoConnectedPeers, m)
  | Some peers =>
      match query_heights peers (world m) with
      | Ok results => locked (modify (fun m => set_peers (merge_peers (Now (world m)) results (syncPeers m)) (syncErrors m) m)) m
      | Panic => (Panic, m) | Hang => (Hang, m) | Err e => (Err e, m)
      end
  end.

Definition max_height (peers : gmap string SyncPeer) : Z := map_fold (fun _ p acc => Z.max (peer_Height p) acc) 0 peers.
Definition getMaxPeerHeight : Sm Z := rlocked (fun m => max_height (syncPeers m)).
Definition GetMaxPeerHeight : Sm Z := getMaxPeerHeight.

(** [time.Duration.Seconds]. *)
Definition Seconds (d : Z) : float64 := f64_add (f64_of_int (Z.quot d 1000000000)) (f64_div (f64_of_int (Z.rem d 1000000000)) (f64_of_int 1000000000)).
Definition peer_score (p : SyncPeer) : float64 :=
  let score := f64_mul (f64_of_int (peer_Height p)) (Reliability p) in
  if 0 <? Latency p then f64_div score (Seconds (Latency p)) else score.
(** [order] lists the peers in the order the map is walked. *)
Definition best_peer (order : list string) (peers : gmap string SyncPeer) : option string :=
  (fold_left (fun acc id =>
     match peers !! id with
     | Some p => if IsResponsive p && f64_lt acc.1 (peer_score p) then (peer_score p, Some id) else acc
     | None => acc
     end) order (f64_of_int 0, None)).2.
Definition getBestSyncPeer (order : list string) : Sm (option string) := rlocked (fun m => best_peer order (syncPeers m)).
Definition markPeerUnreliable (peerID : string) : Sm unit := locked (modify (fun m =>
  match syncPeers m !! peerID with
  | Some p => set_peers (<[peerID := MkSyncPeer (peer_Height p) (LastSeen p) (Latency p) (f64_mul (Reliability p) (f64_const 8 10)) false]> (syncPeers m)) (i64 (syncErrors m + 1)) m
  | None => m
  end)).
Definition age_peer (now : Z) (p : SyncPeer) : SyncPeer :=
  if 60 * 1000000000 <? now - LastSeen p then MkSyncPeer (peer_Height p) (LastSeen p) (Latency p) (Reliability p) false else p.
Definition updatePeerMetrics : Sm unit := locked (modify (fun m =>
  let now := Now (world m) in
  set_peers (age_peer now <$> filter (fun kv => (300 * 1000000000 <? now - LastSeen kv.2) = false) (syncPeers m)) (syncErrors m) m)).
Definition updateSyncMetrics : Sm unit := locked (modify (fun m =>
  match syncStartTime m with
  | Some t => if bool_decide (status m = SyncStatusSyncing) && (0 <? blocksProcessed m) then set_progress (blocksProcessed m) (Z.quot (Now (world m) - t) (blocksProcessed m)) m else m
  | None => m
  end)).
Definition IsSyncing : Sm bool := rlocked (fun m => bool_decide (status m = SyncStatusSyncing)).
Definition IsUpToDate : Sm bool := rlocked (fun m => targetHeight m <=? currentHeight m).

(** [SyncWithPeers]: what it does under the mutex; [true] when it starts [performSync]. *)
Definition SyncWithPeers : Sm bool := locked (
  m ← get;
  _ ← refuse_if (bool_decide (status m = SyncStatusSyncing)) AlreadySyncing;
  _ ← discoverSyncPeers;
  m ← get;
  _ ← refuse_if (bool_decide (syncPeers m = ∅)) NoSyncPeers;
  target ← getMaxPeerHeight;
  _ ← modify (fun m => set_heights (GetHeight (world m)) target m);
  m ← get;
  if targetHeight m <=? currentHeight m then mret false
  else _ ← modify (fun m => set_started (Some (Now (world m))) (set_status SyncStatusSyncing m)); mret true).
Definition ForceSync : Sm bool := _ ← locked (modify (set_status SyncStatusIdle)); SyncWithPeers.

(** [checkSyncStatus]: [true] when it starts [SyncWithPeers] on a goroutine. *)
Definition check_lag : Sm bool := fun m =>
  match discoverSyncPeers m with
  | (Ok _, m) =>
      match getMaxPeerHeight m with
      | (Ok h, m) => (Ok (i64 (GetHeight (world m) + 5) <? h), m)
      | (r, m) => (match r with Err e => Err e | Panic => Panic | _ => Hang end, m)
      end
  | (Err _, m) => (Ok false, m)
  | (Panic, m) => (Panic, m)
  | (Hang, m) => (Hang, m)
  end.
Definition checkSyncStatus : Sm bool :=
  st ← rlocked status; if bool_decide (st = SyncStatusIdle) then check_lag else mret false.

(** ** One synchronisation *)

(** Adding the blocks of one batch; heights and counters are written without the mutex. *)
Fixpoint process_blocks (blocks : list B) : Sm unit :=
  match blocks with
  | [] => mret tt
  | b :: blocks => fun m =>
      let '(ok, w) := bc_AddBlock b (world m) in
      let m := set_parts (synchronizer m) w m in
      if ok then process_blocks blocks (set_progress (i64 (blocksProcessed m + 1)) (avgBlockTime m) (set_heights (block_Index b) (targetHeight m) m))
      else (Err (AddFailed (block_Index b)), m)
  end.
Definition request_from (peer : string) (s e : Z) : Sm (list B) := fun m =>
  let '(r, (sy, w)) := RequestBlocks peer s e (synchronizer m, world m) in (r, set_parts sy w m).
(** One batch from a peer, then [continue]; a peer that fails is marked. *)
Definition batch_from (p : string) (continue : Sm unit) : Sm unit := fun m =>
  match request_from p (i64 (currentHeight m + 1)) (i64 (currentHeight m + batch_of (currentHeight m) (targetHeight m))) m with
  | (Ok blocks, m) => (_ ← process_blocks blocks; continue) m
  | (Err _, m) => (_ ← markPeerUnreliable p; continue) m
  | (Panic, m) => (Panic, m)
  | (Hang, m) => (Hang, m)
  end.
Definition next_batch (order : list string) (continue : Sm unit) : Sm unit :=
  best ← getBestSyncPeer order; match best with Some p => batch_from p continue | None => throw NoSyncPeers end.
Fixpoint performBlockSync (fuel : nat) (order : list string) : Sm unit := fun m =>
  if currentHeight m <? targetHeight m then
    match fuel with
    | O => (Hang, m)
    | S fuel => if Cancelled_now (world m) then (Err Cancelled, m) else next_batch order (performBlockSync fuel order) m
    end
  else (Ok tt, m).
Definition apply_snapshot_of (p : string) : Sm unit := fun m =>
  let '(h, w) := FastSyncTo p (targetHeight m) (world m) in
  let m := set_parts (synchronizer m) w m in
  match h with
  | Some h => locked (modify (fun m => set_heights h (targetHeight m) m)) m
  | None => (Err SnapshotFailed, m)
  end.
Definition performFastSync (order : list string) : Sm unit :=
  best ← getBestSyncPeer order;
  match best with Some p => apply_snapshot_of p | None => throw NoSyncPeers end.
Definition performStateSync : Sm unit := fun m =>
  let '(ok, w) := SyncWorldState (world m) in (if ok then Ok tt else Err SnapshotFailed, set_parts (synchronizer m) w m).
(** The deferred function: a status that is still [SyncStatusSyncing] becomes complete. *)
Definition close_sync : Sm unit := locked (modify (fun m => if bool_decide (status m = SyncStatusSyncing) then set_status SyncStatusComplete m else m)).
Definition or_failed (step : Sm unit) : Sm bool := fun m =>
  match step m with
  | (Ok _, m) => (Ok true, m)
  | (Err _, m) => (_ ← setStatus SyncStatusFailed; mret false) m
  | (Panic, m) => (Panic, m)
  | (Hang, m) => (Hang, m)
  end.
Definition performSync (fuel : nat) (order : list string) : Sm unit :=
  m ← get;
  fast ← (if (1000 <? i64 (targetHeight m - currentHeight m)) && IsFastSyncEnabled (world m) then or_failed (performFastSync order) else mret true);
  if negb fast then close_sync
  else
    done ← or_failed (performBlockSync fuel order);
    if negb done then close_sync
    else
      m ← get;
      synced ← (if IsStateSyncNeeded (world m) then or_failed performStateSync else mret true);
      if negb synced then close_sync else _ ← setStatus SyncStatusComplete; close_sync.

(** [SyncToNetworkTip]: the peer with the greatest height, in the order of the walk. *)
Definition tip_of (order : list string) (peers : gmap string SyncPeer) : Z * string :=
  fold_left (fun acc id => match peers !! id with Some p => if acc.1 <? peer_Height p then (peer_Height p, id) else acc | None => acc end) order (0, EmptyString).
Definition sync_from (fuel : nat) (height : Z) (peer : string) : Sm unit := fun m =>
  if height <=? GetHeight (world m) then (Ok tt, m)
  else let '(r, (s, w)) := SyncToHeight fuel height [peer] (synchronizer m, world m) in (r, set_parts s w m).
Definition SyncToNetworkTip (fuel : nat) (order : list string) : Sm unit :=
  _ ← discoverSyncPeers;
  tip ← rlocked (fun m => tip_of order (syncPeers m));
  _ ← refuse_if ((tip.1 =? 0) || String.eqb tip.2 "") NoTipPeers;
  sync_from fuel tip.1 tip.2.

Definition start_parts : Sm unit := fun m =>
  match Synchronizer_Start (synchronizer m) with
  | Ok s =>
      let '(ok, w) := StateSyncer_Start (world m) in
      let m := set_parts s w m in
      if ok then (Ok tt, set_status SyncStatusIdle m) else (Err AlreadyStarted, m)
  | Err e => (Err e, m)
  | _ => (Panic, m)
  end.
Definition Start : Sm unit := locked (m ← get; _ ← refuse_if (negb (bool_decide (status m = SyncStatusIdle))) AlreadyStarted; start_parts).
End Sync.
