(* ===== verification/SyncSpec.v ===== *)
(** * Synchronisation: when it reaches its target, and when it never returns

    Theorems about Sync.v, and its composition with the peer that answers
    (PeerNet.v). *)

From stdpp Require Import base tactics numbers list gmap strings.
From Stdlib Require Import ZArith Lia.
From S2P Require Import Prelude SafeMath Floats PeerGuard PeerNet PeerNetSpec Sync.
Open Scope Z_scope.
Open Scope list_scope.

(** ** The mutex *)

Section Deadlock.
Context {W B : Type} `{P : SyncPorts W B}.
Notation Mg := (@SyncManager W).

Lemma query_heights_ok peers (w : W) : Forall (fun p => (12 <= String.length p)%nat) peers -> exists rs, query_heights peers w = Ok rs.
Proof.
  induction 1 as [|p peers Hp _ [rs IH]]; simpl; [by eexists|].
  destruct (Nat.ltb_spec (String.length p) 12); [lia|]. rewrite IH. by destruct (Sync.RequestPeerHeight p w); eexists.
Qed.

(** C39. With a connected peer, [SyncWithPeers] waits for the mutex it holds itself:
    it never returns, and from then on no call that takes the mutex does. *)
Theorem sync_with_peers_deadlocks (m : Mg) p ps :
  mu_held m = false -> status m <> SyncStatusSyncing -> GetConnectedPeerIDs (world m) = Some (p :: ps) ->
  Forall (fun q => (12 <= String.length q)%nat) (p :: ps) ->
  let m' := (SyncWithPeers m).2 in
  (SyncWithPeers m).1 = Hang /\
  (SyncWithPeers m').1 = Hang /\ (ForceSync m').1 = Hang /\ (checkSyncStatus m').1 = Hang /\ (getMaxPeerHeight m').1 = Hang /\ (IsSyncing m').1 = Hang /\
  (IsUpToDate m').1 = Hang /\ (forall st, (setStatus st m').1 = Hang) /\ forall fuel order, (SyncToNetworkTip fuel order m').1 = Hang.
Proof.
  intros Hmu Hst Hpe Hid. destruct (query_heights_ok (p :: ps) (world m) Hid) as [rs Hq].
  assert (Hd : forall m1 : Mg, mu_held m1 = true -> world m1 = world m -> discoverSyncPeers m1 = (Hang, m1)).
  { intros m1 H1 H2. unfold discoverSyncPeers. rewrite H2, Hpe, Hq. unfold locked. by rewrite H1. }
  assert (Hs : SyncWithPeers m = (Hang, set_mu true m)).
  { unfold SyncWithPeers, locked. rewrite Hmu. unfold mbind, GoM_bind, get, refuse_if. cbn [status set_mu]. rewrite bool_decide_eq_false_2 by done. unfold mret, GoM_ret. by rewrite Hd. }
  rewrite Hs. cbv zeta. cbn [fst snd]. split_and!; try done.
  - intros fuel order. unfold SyncToNetworkTip, mbind, GoM_bind. by rewrite Hd.
Qed.
End Deadlock.

(** ** Reaching the target *)

Section Reach.
Context {W B : Type} `{P : SyncPorts W B}.
Notation Sy := (GoM (Synchronizer * W) sync_err).

(** A peer that answers every request with the blocks it stores, and a chain that
    takes the next of these blocks. *)
Record serves (good : W -> Prop) (chain : Z -> option B) (peer : string) (target : Z) : Prop := MkServes {
  sv_index : forall h b, chain h = Some b -> block_Index b = h;
  sv_stored : forall h, 0 <= h <= target -> chain h <> None;
  sv_exchange : forall w s e, good w -> 0 <= s <= e -> e <= target -> e - s < MaxBlocksPerRequest ->
    let r := exchange peer s e w in
    good r.2 /\ Sync.GetHeight r.2 = Sync.GetHeight w /\ exists bs, r.1.2 = Replied (Ok bs) /\ run_of chain s e bs;
  sv_add : forall w b, good w -> chain (Sync.GetHeight w + 1) = Some b -> Sync.GetHeight w + 1 <= target ->
    let r := bc_AddBlockFromSync b w in r.1 = true /\ good r.2 /\ Sync.GetHeight r.2 = Sync.GetHeight w + 1
}.

(** The synchronizer runs and has room for a request. *)
Definition ready (s : Synchronizer) : Prop := isRunning s = true /\ Z.of_nat (size (activeRequests s)) < MaxActiveRequests.
Lemma ready_after s id r took : ready s -> ready (updateAverageResponseTime took (count_success (removeActiveRequest id (add_active id r s)))).
Proof.
  intros [H1 H2]. split; [done|]. simpl. rewrite delete_insert_eq.
  pose proof (map_subseteq_size (delete id (activeRequests s)) (activeRequests s) (delete_subseteq _ _)). lia.
Qed.

Context (good : W -> Prop) (chain : Z -> option B) (peer : string) (target : Z).
Context (Hsv : serves good chain peer target) (Htarget : target < two63 - 1).

Lemma full_run s e bs : run_of chain s e bs -> 0 <= s <= e -> e <= target -> Z.of_nat (length bs) = e - s + 1.
Proof.
  intros (Hl & _ & [He|He]) Hs Ht; [done|]. destruct (decide (Z.of_nat (length bs) = e - s + 1)); [done|].
  exfalso. apply (sv_stored _ _ _ _ Hsv (s + Z.of_nat (length bs))); [lia|done].
Qed.

Lemma request_served sy w s e : good w -> ready sy -> 0 <= s <= e -> e <= target -> e - s < MaxBlocksPerRequest ->
  exists bs sy' w', RequestBlocks peer s e (sy, w) = (Ok bs, (sy', w')) /\ ready sy' /\ good w' /\ Sync.GetHeight w' = Sync.GetHeight w /\
    Z.of_nat (length bs) = e - s + 1 /\ forall i b, bs !! i = Some b -> chain (s + Z.of_nat i) = Some b.
Proof.
  intros Hg Hr Hs He Hm. pose proof Hr as [Hrun Hsz]. destruct (sv_exchange _ _ _ _ Hsv w s e Hg Hs He Hm) as (Hg' & Hh & bs & Hf & Hrunof).
  unfold RequestBlocks. rewrite Hrun. cbn [negb]. destruct (Z.ltb_spec e s); [lia|]. rewrite i64_id by (unfold_ints; lia).
  destruct (Z.ltb_spec MaxBlocksPerRequest (e - s)); [lia|]. destruct (Z.leb_spec MaxActiveRequests (Z.of_nat (size (activeRequests sy)))); [lia|].
  destruct (exchange peer s e w) as [[[[id st] tk] f] w']. simpl in Hf, Hg', Hh. subst f.
  pose proof (full_run s e bs Hrunof Hs He). destruct Hrunof as (_ & Hi & _).
  eexists bs, _, w'. split; [reflexivity|]. split; [|done]. by apply ready_after.
Qed.

Lemma blocks_added bs : forall sy w, good w -> Sync.GetHeight w + Z.of_nat (length bs) <= target ->
  (forall i b, bs !! i = Some b -> chain (Sync.GetHeight w + 1 + Z.of_nat i) = Some b) ->
  exists w', add_blocks bc_AddBlockFromSync bs (Sync.GetHeight w) (sy, w) = (Ok (Sync.GetHeight w + Z.of_nat (length bs)), (sy, w')) /\
    good w' /\ Sync.GetHeight w' = Sync.GetHeight w + Z.of_nat (length bs).
Proof.
  induction bs as [|b bs IH]; intros sy w Hg Hl Hi; simpl in *.
  { exists w. rewrite Z.add_0_r. done. }
  assert (Hb : chain (Sync.GetHeight w + 1) = Some b) by (rewrite <-(Hi 0%nat b eq_refl); f_equal; lia).
  destruct (sv_add _ _ _ _ Hsv w b Hg Hb ltac:(lia)) as (Hok & Hg' & Hh). destruct (bc_AddBlockFromSync b w) as [ok w1]. simpl in Hok, Hg', Hh. subst ok.
  rewrite (sv_index _ _ _ _ Hsv _ _ Hb), <-Hh. destruct (IH sy w1 Hg' ltac:(lia)) as (w' & Ha & Hg2 & Hh2).
  { intros i b' Hb'. rewrite <-(Hi (S i) b' Hb'). f_equal. lia. }
  exists w'. rewrite Ha, Hh2, Hh. split_and!; [|done|lia]. do 2 f_equal. lia.
Qed.

Lemma loop_reaches fuel : forall sy w, good w -> ready sy -> 0 <= Sync.GetHeight w <= target -> target - Sync.GetHeight w <= Z.of_nat fuel ->
  exists sy' w', sync_loop fuel [peer] (Sync.GetHeight w) target (sy, w) = (Ok tt, (sy', w')) /\ ready sy' /\ good w' /\ Sync.GetHeight w' = target.
Proof.
  induction fuel as [|fuel IH]; intros sy w Hg Hr Hh Hf; cbn [sync_loop]; destruct (Z.ltb_spec (Sync.GetHeight w) target); try lia.
  1,3: exists sy, w; split_and!; [done..|lia].
  unfold batch_of. rewrite !i64_id by (unfold MaxBlocksPerRequest; unfold_ints; lia). set (e := Sync.GetHeight w + Z.min _ _).
  assert (He : Sync.GetHeight w + 1 <= e /\ e <= target /\ e - (Sync.GetHeight w + 1) < MaxBlocksPerRequest) by (unfold e, MaxBlocksPerRequest; lia).
  destruct (request_served sy w (Sync.GetHeight w + 1) e Hg Hr) as (bs & sy1 & w1 & Hq & Hr1 & Hg1 & Hh1 & Hlen & Hi); [lia..|].
  unfold mbind, GoM_bind, wrapM. cbn [try_peers]. rewrite Hq. cbn [wrap]. rewrite <-Hh1.
  destruct (blocks_added bs sy1 w1 Hg1) as (w2 & Ha & Hg2 & Hh2); [lia|intros i b Hb; rewrite Hh1; by apply Hi|].
  rewrite Ha, <-Hh2. apply IH; [done|done|lia|lia].
Qed.
End Reach.

(** A synchronizer that runs, and asks a peer that stores the blocks up to the
    target for them, returns after at most as many rounds as blocks are missing, with
    the chain at the target height, when the chain takes these blocks one after the
    other. *)
Lemma sync_reaches_target {W B : Type} `{P : SyncPorts W B} (good : W -> Prop) (chain : Z -> option B) peer target fuel sy w :
  serves good chain peer target -> target < two63 - 1 -> good w -> ready sy -> 0 <= Sync.GetHeight w -> target - Sync.GetHeight w <= Z.of_nat fuel ->
  exists sy' w', SyncToHeight fuel target [peer] (sy, w) = (Ok tt, (sy', w')) /\ good w' /\ Sync.GetHeight w' = Z.max target (Sync.GetHeight w).
Proof.
  intros Hsv Ht Hg Hr Hh Hf. unfold SyncToHeight. destruct (Z.leb_spec target (Sync.GetHeight w)); [exists sy, w; split_and!; [done..|lia]|].
  destruct (loop_reaches good chain peer target Hsv Ht fuel sy w Hg Hr ltac:(lia) Hf) as (sy' & w' & Hl & _ & Hg' & Hw). exists sy', w'. split_and!; [done..|lia].
Qed.

(** ** Never returning *)

(** Against peers that answer the next request with no blocks, and with no
    peers at all, [SyncToHeight] never returns: no number of rounds is enough. *)
Theorem empty_answers_never_end {W B : Type} `{P : SyncPorts W B} (good : W -> Prop) peers target fuel sy w :
  let h := Sync.GetHeight w in
  (forall v p, good v -> p ∈ peers -> let r := exchange p (h + 1) (h + batch_of h target) v in good r.2 /\ r.1.2 = Replied (Ok [])) ->
  good w -> ready sy -> 0 <= h < target -> target < two63 ->
  (SyncToHeight fuel target peers (sy, w)).1 = Hang.
Proof.
  intros h He Hg Hr Hh Ht. unfold SyncToHeight. fold h. destruct (Z.leb_spec target h); [lia|].
  clearbody h. revert sy w Hg Hr. induction fuel as [|fuel IH]; intros sy w Hg Hr; cbn [sync_loop]; destruct (Z.ltb_spec h target); try lia; [done|].
  assert (Hb : 1 <= batch_of h target <= MaxBlocksPerRequest /\ h + batch_of h target <= target) by (unfold batch_of, MaxBlocksPerRequest; lia).
  set (k := batch_of h target) in *. clearbody k. unfold MaxBlocksPerRequest in Hb. rewrite !i64_id by (unfold_ints; lia).
  assert (Htry : exists sy' w', try_peers peers (h + 1) (h + k) (Ok []) (sy, w) = (Ok [], (sy', w')) /\ good w' /\ ready sy').
  { destruct peers as [|p ps]; [by exists sy, w|]. destruct (He w p Hg (list_elem_of_here _ _)) as [Hg' Hf].
    pose proof Hr as [Hrun Hsz]. cbn [try_peers]. unfold RequestBlocks. rewrite Hrun. cbn [negb]. destruct (Z.ltb_spec (h + k) (h + 1)); [lia|].
    rewrite i64_id by (unfold_ints; lia). destruct (Z.ltb_spec MaxBlocksPerRequest (h + k - (h + 1))); [unfold MaxBlocksPerRequest in *; lia|].
    destruct (Z.leb_spec MaxActiveRequests (Z.of_nat (size (activeRequests sy)))); [lia|].
    destruct (exchange _ _ _ w) as [[[[id st] tk] f] w']. simpl in Hf, Hg'. subst f. eexists _, w'. split; [reflexivity|]. split; [done|].
    by apply ready_after. }
  destruct Htry as (sy' & w' & Htry & Hg' & Hr'). unfold mbind, GoM_bind, wrapM. rewrite Htry. cbn [wrap add_blocks mret GoM_ret]. by apply IH.
Qed.

(** ** Batches *)

(** The batches of [SyncBlockRange] are at most as large as asked for and their
    heights, in order, are exactly those of the range. *)
Theorem batches_partition fuel size s e :
  1 <= size -> e - s + 1 <= Z.of_nat fuel ->
  concat (map (fun b => seqZ b.1 (b.2 - b.1 + 1)) (batches fuel size s e)) = seqZ s (e - s + 1) /\
  Forall (fun b => b.1 <= b.2 < b.1 + size) (batches fuel size s e).
Proof.
  intros Hsz. revert s. induction fuel as [|fuel IH]; intros s Hf; cbn [batches]; [split; [|constructor]; rewrite seqZ_nil by lia; done|].
  destruct (Z.leb_spec s e); [|split; [rewrite seqZ_nil by lia; done|constructor]]. cbn [map concat fst snd].
  destruct (IH (s + size)) as [Hc Hb]; [lia|]. rewrite Hc. split; [|constructor; [simpl; lia|done]].
  destruct (Z.le_gt_cases (s + size - 1) e).
  - rewrite Z.min_l by lia. replace (s + size - 1 - s + 1) with size by lia.
    replace (e - s + 1) with (size + (e - (s + size) + 1)) by lia. rewrite (seqZ_app s size) by lia. done.
  - rewrite Z.min_r by lia. rewrite (seqZ_nil (s + size)) by lia. by rewrite app_nil_r.
Qed.

(** ** Two nodes *)

(** The network between a node that synchronises and one that serves: every request
    goes through the stream handlers of the other node.  [mgr] is the state of its
    manager when the request comes in. *)
Section Wire.
Context {B T A V X St L : Type} (engine : ConsensusEngineInterface St V).
Context (idx : B -> Z) (height : L -> Z) (add : B -> L -> bool * L).
Context (clock : nat -> Z) (now : Z) (self : string) (n : @Node B A V St) (mgr : L -> @Manager B T A V X).

Definition wire_exchange (s e : Z) (w : L) : fate B :=
  Replied (wrap (fun _ => PeerFailed) (PeerNet.RequestBlockRange true (handleBlockRangeRequest engine clock now self true (Some (s, e)) n (mgr w)).1)).
Definition wire_height (w : L) : option Z :=
  match PeerNet.RequestPeerHeight true (handleHeightRequest engine clock now self true true true n (mgr w)).1 with Ok h => Some h | _ => None end.
Definition wire (peer : string) : SyncPorts L B := {|
  block_Index := idx; GetHeight := height; bc_AddBlock := add; bc_AddBlockFromSync := add;
  exchange := fun _ s e w => (peer, now, 0, wire_exchange s e w, w);
  GetConnectedPeerIDs := fun _ => Some [peer]; RequestPeerHeight := fun _ w => wire_height w; Now := fun _ => now;
  IsFastSyncEnabled := fun _ => false; IsStateSyncNeeded := fun _ => false; FastSyncTo := fun _ _ w => (None, w);
  SyncWorldState := fun w => (false, w); StateSyncer_Start := fun w => (true, w); Cancelled_now := fun _ => false |}.

(** The other node has the blocks up to the target and admits every request. *)
Record can_copy (target : Z) : Prop := MkCanCopy {
  cc_height : is_Some (chain_height n);
  cc_index : forall h b, GetBlock n h = Some b -> idx b = h;
  cc_stored : forall h, 0 <= h <= target -> GetBlock n h <> None;
  cc_passes : forall w, is_ok (CheckRateLimit clock self (m_validator (mgr w))).1 = true /\ MaxBlocksPerRequest <= maxBlockRangeSize (m_validator (mgr w))
}.

(** The next [k] blocks of the other node, added one after the other; each must be taken
    and raise the height by one. *)
Fixpoint replay (k : nat) (w : L) : option L :=
  match k with
  | O => Some w
  | S k =>
      match GetBlock n (height w + 1) with
      | Some b => let '(ok, w') := add b w in if ok && (height w' =? height w + 1) then replay k w' else None
      | None => None
      end
  end.

Lemma wire_serves peer target w_end : can_copy target -> target < two63 - 1 ->
  @serves L B (wire peer) (fun w => replay (Z.to_nat (target - height w)) w = Some w_end) (GetBlock n) peer target.
Proof.
  intros [[h Hh] Hi Hs Hp] Htg. split; [exact Hi|exact Hs| |].
  - intros w s e Hg Hse He Hl. simpl. split; [exact Hg|]. split; [done|]. destruct (Hp w) as [Hok Hm].
    destruct (range_answer engine clock now self s e n (mgr w) h Hh Hok ltac:(lia) Hse ltac:(lia)) as (bs & Ha & Hr).
    exists bs. split; [|done]. unfold wire_exchange. by rewrite Ha.
  - intros w b Hg Hb Hle. simpl in *. replace (Z.to_nat (target - height w)) with (S (Z.to_nat (target - (height w + 1)))) in Hg by lia.
    simpl in Hg. rewrite Hb in Hg. destruct (add b w) as [ok w']. destruct ok; [|done]. simpl in *.
    destruct (Z.eqb_spec (height w') (height w + 1)) as [Hh'|]; [|done]. split; [done|]. rewrite <-Hh' in Hg. done.
Qed.

(** A node that synchronises with such a peer adds exactly the blocks that are missing,
    one after the other, and returns. *)
Lemma sync_replays peer target fuel sy w w_end :
  can_copy target -> target < two63 - 1 -> ready sy -> 0 <= height w -> target - height w <= Z.of_nat fuel ->
  replay (Z.to_nat (target - height w)) w = Some w_end ->
  exists sy', @SyncToHeight L B (wire peer) fuel target [peer] (sy, w) = (Ok tt, (sy', w_end)) /\ height w_end = Z.max target (height w).
Proof.
  intros Hc Ht Hr Hh Hf Hre.
  destruct (@sync_reaches_target L B (wire peer) _ (GetBlock n) peer target fuel sy w (wire_serves peer target w_end Hc Ht) Ht Hre Hr Hh Hf)
    as (sy' & w' & Hs & Hg & Hw). simpl in Hw. exists sy'. replace (Z.to_nat (target - height w')) with O in Hg by lia. injection Hg as ->. done.
Qed.
End Wire.

Module SyncDemo.
Definition take (b h : Z) : bool * Z := if b =? h + 1 then (true, b) else (false, h).
Definition running : Synchronizer := MkSynchronizer ∅ true 0 0 0 0.
Definition net : SyncPorts Z Z := wire NetDemo.idle id id take (fun _ => 0) 0 "self" (NetDemo.blocks_to 250) (fun _ => NetDemo.started) "12D3KooWpeer".
Lemma running_ready : ready running.
Proof. split; [done|]. vm_compute. reflexivity. Qed.
(** Three rounds are enough here. *)
Example three_rounds : (@SyncToHeight Z Z net 3 250 ["12D3KooWpeer"] (running, 7)).1 = Ok tt.
Proof. vm_compute. reflexivity. Qed.

Lemma sync_with_peers_deadlocks_witness :
  let m := @NewSyncManager Z 7 in let m' := (@SyncWithPeers Z Z net m).2 in
  (@SyncWithPeers Z Z net m).1 = Hang /\
  (@SyncWithPeers Z Z net m').1 = Hang /\ (@ForceSync Z Z net m').1 = Hang /\ (@checkSyncStatus Z Z net m').1 = Hang /\ (getMaxPeerHeight m').1 = Hang /\ (IsSyncing m').1 = Hang /\
  (IsUpToDate m').1 = Hang /\ (forall st, (setStatus st m').1 = Hang) /\ forall fuel order, (@SyncToNetworkTip Z Z net fuel order m').1 = Hang.
Proof. apply (@sync_with_peers_deadlocks Z Z net (NewSyncManager 7) "12D3KooWpeer" []); [done|done|done|repeat constructor]. Defined.

(** A peer that stores nothing above 250 is asked for 300. *)
Lemma empty_answers_never_end_witness : (@SyncToHeight Z Z net 10 300 ["12D3KooWpeer"] (running, 250)).1 = Hang.
Proof.
  apply (@empty_answers_never_end Z Z net (fun w => w = 250) ["12D3KooWpeer"] 300 10 running 250).
  - intros v p -> _. split; [done|vm_compute; reflexivity].
  - done.
  - exact running_ready.
  - simpl. unfold id. lia.
  - unfold two63. lia.
Defined.

Lemma batches_partition_witness :
  concat (map (fun b => seqZ b.1 (b.2 - b.1 + 1)) (batches 10 3 5 12)) = seqZ 5 (12 - 5 + 1) /\
  Forall (fun b => b.1 <= b.2 < b.1 + 3) (batches 10 3 5 12).
Proof. apply (batches_partition 10 3 5 12); lia. Defined.
End SyncDemo.
