(* ===== verification/SyncChain.v ===== *)
(** * Synchronising a chain with that of a peer

    The synchronizer (Sync.v) on the blockchain facade (Blockchain.v) of one node, and
    the stream handlers and the message bus (PeerNet.v) of another. *)

From stdpp Require Import base tactics numbers list gmap strings.
From Stdlib Require Import ZArith Lia Strings.Byte.
From S2P Require Import Prelude SafeMath Uint256 Address Storage AccountManager AccountSpec Pool ShardedLock Governance.
From S2P Require Import Domains EvmGas World Executor ExecutorSpec ExecutorThms StateRoot StateRootSpec Hashes Keys Wire Blocks.
From S2P Require Import Floats Staking BlockDB Chain ChainSpec ChainThms Blockchain BlockchainSpec PeerGuard PeerNet PeerNetSpec Sync SyncSpec.
Open Scope Z_scope.
Open Scope list_scope.

Section SyncChain.
Context `{MapOrder} {C F : Type} `{LRU C} `{Float64 F}.
Context `{Json Proposal, Json ProposalPayload, Json VotePayload, Json FinalizePayload, Json stakeDomainMembers}.
Context (Keccak256 HexToAddress : list byte -> list byte) (shardID totalShards : Z) (ChainID : string).
Context (upgrade : Z) (limits : BlockLimits) (engine : evm_engine (@World.world C F)) (unbonds : GoM (@Chain.node C F) unit unit).
(** Readings of the clock while a block is added. *)
Context (clocks : Block -> nat -> Z * Z) (nows : Block -> Z) (maxFuture : Z).

(** [block.Header.Index] *)
Definition block_index (b : Block) : Z := match blk_Header b with Some h => hdr_Index h | None => 0 end.
(** [s.blockchain.GetHeight()] and [s.blockchain.AddBlockFromSync(block)] as the
    synchronizer sees them. *)
Definition facade_height (w : @blockchain C F) : Z := match (bc_GetHeight (E:=bc_err) w).1 with Ok h => h | _ => 0 end.
Definition facade_add (b : Block) (w : @blockchain C F) : bool * @blockchain C F :=
  let '(r, w) := Blockchain.bc_AddBlockFromSync Keccak256 HexToAddress shardID totalShards ChainID upgrade limits engine unbonds (clocks b) (nows b) maxFuture (Some b) w in
  (is_ok r, w).

Context {T A V X St : Type} (interface : ConsensusEngineInterface St V).
Context (clock : nat -> Z) (now : Z) (self : string) (n : @PeerNet.Node Block A V St) (mgr : @blockchain C F -> @Manager Block T A V X).
Notation ports := (wire interface block_index facade_height facade_add clock now self n mgr).

(** C12. Two nodes together: a node copies the chain of a peer.  The peer has a chain, stores a
    block of the right index at every height up to the target, and its guard admits every
    request; no stream fails or times out.  When the node would accept the missing blocks
    handed one after the other to its [AddBlockFromSync], each raising the height by one,
    then [SyncToHeight], which fetches them in batches through the peer's stream handler
    and message bus, returns after at most as many rounds as blocks are missing, and the
    node is in exactly the state of having added them in order, at the target height. *)
Theorem sync_copies_a_peer peer target fuel sy w w' :
  can_copy block_index clock self n mgr target -> target < two63 - 1 -> ready sy -> 0 <= facade_height w ->
  target - facade_height w <= Z.of_nat fuel ->
  replay facade_height facade_add n (Z.to_nat (target - facade_height w)) w = Some w' ->
  exists sy', @SyncToHeight _ _ (ports peer) fuel target [peer] (sy, w) = (Ok tt, (sy', w')) /\ facade_height w' = Z.max target (facade_height w).
Proof. apply sync_replays. Qed.
End SyncChain.

Module ChainDemo.
Import ChainThms.Demo BlockchainSpec.Demo.
#[local] Existing Instances demo_LRU3 demo_LRU3_laws demo_float3 demo_json3.

(** A peer that is two blocks ahead of a node with the genesis block. *)
Definition blocks_of (h : Z) : option Block :=
  if h =? 0 then Some genesis else if h =? 1 then Some (demo_block 1 "g" "h1" "" []) else if h =? 2 then Some (demo_block 2 "h1" "h2" "" []) else None.
Definition ahead_peer : @PeerNet.Node Block unit unit unit := PeerNet.MkNode (Some 2) blocks_of ∅ ∅ "root" None.
Definition answering (w : @blockchain (list (string * loc)) permille) : @Manager Block unit unit unit unit := MkManager (NewMessageValidator 100) [] [].
Notation demo_add_synced := (facade_add no_hash id BeaconShardID 1 "1" 1000 demo_limits no_engine no_unbondings (fun _ => demo_clock) (fun _ => 2000 * 10 ^ 9) 0).
Notation demo_ports := (wire NetDemo.idle block_index facade_height demo_add_synced (fun _ => 0) 0 "self" ahead_peer answering "12D3KooWpeer").

Lemma peer_can_be_copied : can_copy block_index (fun _ => 0) "self" ahead_peer answering 2.
Proof.
  split; [by eexists| | |intros w; split; [vm_compute; reflexivity|done]]; simpl; unfold blocks_of; intros h.
  - intros b. destruct (Z.eqb_spec h 0) as [->|]; [by intros [= <-]|]. destruct (Z.eqb_spec h 1) as [->|]; [by intros [= <-]|].
    destruct (Z.eqb_spec h 2) as [->|]; [by intros [= <-]|done].
  - intros Hh. assert (h = 0 \/ h = 1 \/ h = 2) as [->|[->| ->]] by lia; done.
Qed.
Definition replayed : option (@blockchain (list (string * loc)) permille) := replay facade_height demo_add_synced ahead_peer 2 facade.
Lemma both_taken : bool_decide (is_Some replayed) = true /\ facade_height facade = 0.
Proof. split; vm_compute; reflexivity. Qed.

Lemma sync_copies_a_peer_witness :
  exists sy' w', @SyncToHeight _ _ demo_ports 2 2 ["12D3KooWpeer"] (SyncDemo.running, facade) = (Ok tt, (sy', w')) /\ facade_height w' = Z.max 2 (facade_height facade).
Proof.
  destruct both_taken as [Hs Hh]. apply bool_decide_eq_true in Hs as [w' Hw'].
  destruct (sync_copies_a_peer no_hash id BeaconShardID 1 "1" 1000 demo_limits no_engine no_unbondings (fun _ => demo_clock) (fun _ => 2000 * 10 ^ 9) 0
    NetDemo.idle (fun _ => 0) 0 "self" ahead_peer answering "12D3KooWpeer" 2 2 SyncDemo.running facade w') as (sy' & Hrun & Hend).
  - exact peer_can_be_copied.
  - unfold two63. lia.
  - exact SyncDemo.running_ready.
  - rewrite Hh. lia.
  - rewrite Hh. lia.
  - rewrite Hh. exact Hw'.
  - exists sy', w'. exact (conj Hrun Hend).
Defined.
End ChainDemo.
