(* ===== verification/Lifecycle.v ===== *)
(** * The life cycle of a validator (src/consensus/validator/lifecycle.go)

    Registration with a delay before activation, jailing for a number of blocks,
    unbonding of withdrawn stake, and the worker that carries out what was scheduled,
    on top of the validator manager (ValidatorManager.v).  Its own mutex is taken once
    by every call and given back around calls of itself, so it never blocks.  The
    reason and the data of an event are for display and left out. *)

From S2P Require Import Prelude SafeMath Uint256 Address Storage AccountManager ShardedLock Governance Domains EvmGas World Floats Inflation ValidatorManager.
From stdpp Require Import base tactics numbers list gmap strings sorting.
From Stdlib Require Import ZArith Lia Strings.Byte Strings.Ascii.
Open Scope Z_scope.
Open Scope list_scope.

Definition MaxValidatorChangePercent : float64 := f64_of_int 10.
Definition MaxValidatorsPerEpoch : Z := 100.
Definition UnbondingPeriodBlocks : Z := 201600.
Definition ActivationDelayEpochs : Z := 900.
Definition SlotsPerEpoch : Z := 32.

Inductive ValidatorState : Type :=
| StateRegistered | StatePending | StateActive | StateJailed | StateSlashed | StateDeactivating | StateInactive | StateRemoving | StateRemoved.
Inductive LifecycleEventType : Type :=
| EventRegistration | EventActivation | EventDeactivation | EventJailing | EventUnjailing | EventSlashing | EventStakeIncrease | EventStakeDecrease
| EventPerformanceUpdate | EventRemoval | EventRejoin | EventUnbondingComplete.
#[global] Instance ValidatorState_eq_dec : EqDecision ValidatorState.
Proof. solve_decision. Defined.

Record LifecycleEvent : Type := MkEvent {
  ev_EventType : LifecycleEventType;
  ev_FromState : option ValidatorState;
  ev_ToState : option ValidatorState;
  ev_Timestamp : Z;
  ev_BlockHeight : Z
}.
Record LifecycleTransition : Type := MkTransition { tr_ValidatorAddress : string; tr_TargetState : ValidatorState; tr_ScheduledBlock : Z }.

Inductive lm_err : Type :=
| Vm (e : vm_err) | RegistrationInvalid | AccountMissing | InvalidStake | InsufficientBalance | EpochFull | ChangeTooLarge | VotingInProgress
| NeverRegistered | MustWait | WrongState (s : ValidatorState) | NotQualified | StillJailed (until : Z) | InvalidDecrease | BelowZero | AlreadyVoting.

Section Lifecycle.
Context `{MapOrder} {C F : Type} `{LRU C} `{Json stakeDomainMembers} `{Json queue}.
Context (Keccak256 : list byte -> list byte) (shardID totalShards : Z) (cfg : ValidatorConfig).
Notation Manager := (@Manager C F).

Record LifecycleManager : Type := MkLifecycle {
  lm_manager : Manager;
  lifecycleEvents : gmap string (list LifecycleEvent);
  transitionQueue : list LifecycleTransition;
  registrationEpoch : gmap string Z;
  epochRegistrations : gmap Z Z;
  unbondingValidators : gmap string VUnbondingEntry;
  votingInProgress : bool
}.
Definition NewLifecycleManager (m : Manager) : LifecycleManager := MkLifecycle m ∅ [] ∅ ∅ ∅ false.
Notation Lm := (GoM LifecycleManager lm_err).

Definition lm_set_manager (m : Manager) (l : LifecycleManager) : LifecycleManager :=
  MkLifecycle m (lifecycleEvents l) (transitionQueue l) (registrationEpoch l) (epochRegistrations l) (unbondingValidators l) (votingInProgress l).
Definition lm_set_events (x : gmap string (list LifecycleEvent)) (l : LifecycleManager) : LifecycleManager :=
  MkLifecycle (lm_manager l) x (transitionQueue l) (registrationEpoch l) (epochRegistrations l) (unbondingValidators l) (votingInProgress l).
Definition lm_set_transitions (x : list LifecycleTransition) (l : LifecycleManager) : LifecycleManager :=
  MkLifecycle (lm_manager l) (lifecycleEvents l) x (registrationEpoch l) (epochRegistrations l) (unbondingValidators l) (votingInProgress l).
Definition lm_set_epochs (r : gmap string Z) (e : gmap Z Z) (l : LifecycleManager) : LifecycleManager :=
  MkLifecycle (lm_manager l) (lifecycleEvents l) (transitionQueue l) r e (unbondingValidators l) (votingInProgress l).
Definition lm_set_unbonding (u : gmap string VUnbondingEntry) (l : LifecycleManager) : LifecycleManager :=
  MkLifecycle (lm_manager l) (lifecycleEvents l) (transitionQueue l) (registrationEpoch l) (epochRegistrations l) u (votingInProgress l).
Definition lm_set_voting (b : bool) (l : LifecycleManager) : LifecycleManager :=
  MkLifecycle (lm_manager l) (lifecycleEvents l) (transitionQueue l) (registrationEpoch l) (epochRegistrations l) (unbondingValidators l) b.

Definition on_manager {A} (f : GoM Manager vm_err A) : Lm A := fun l =>
  let '(r, m) := f (lm_manager l) in (wrap Vm r, lm_set_manager m l).
(** A call whose error is dropped. *)
Definition ignored {A} (f : Lm A) : Lm unit := fun l =>
  match f l with (Panic, l) => (Panic, l) | (Hang, l) => (Hang, l) | (_, l) => (Ok tt, l) end.
Definition lm_height (l : LifecycleManager) : Z := vm_height (lm_manager l).
Definition getCurrentEpoch (l : LifecycleManager) : Z := Z.quot (lm_height l) SlotsPerEpoch.

(** ** States *)

Definition min_stake : Z := ParseBigInt_string (vc_MinValidatorStake cfg).
Definition getValidatorState (v : Validator) (l : LifecycleManager) : ValidatorState :=
  if lm_height l <? val_JailUntil v then StateJailed
  else if val_Active v then StateActive
  else if stake_of v <? min_stake then StateInactive
  else StateRegistered.
Definition qualified (v : Validator) (l : LifecycleManager) : bool :=
  negb (stake_of v <? min_stake) && negb (ParseBigInt_bytes (val_SelfStake v) <? ParseBigInt_string (vc_MinSelfStake cfg)) && negb (lm_height l <? val_JailUntil v).
Definition validateActivationRequirements (v : Validator) : Lm unit := fun l => (if qualified v l then Ok tt else Err NotQualified, l).
(** Commissions are the bits of a float64. *)
Definition validateRegistrationRequirements (stake : string) (commission : Z) (selfDelegation : string) : outcome lm_err unit :=
  let c := Float64frombits commission in
  if f64_lt c f0 || f64_lt (f64_of_int 100) c then Err RegistrationInvalid
  else match SetString10 stake, SetString10 selfDelegation with
       | Some s, Some d =>
           if s <? default 0 (SetString10 (vc_MinValidatorStake cfg)) then Err RegistrationInvalid
           else if (d <=? 0) || (s <? d) then Err RegistrationInvalid else Ok tt
       | _, _ => Err RegistrationInvalid
       end.

(** ** Events and transitions *)

(** The last hundred events are kept. *)
Definition recordLifecycleEvent (address : string) (e : LifecycleEvent) : Lm unit := modify (fun l =>
  let events := default [] (lifecycleEvents l !! address) ++ [e] in
  lm_set_events (<[address := if (100 <? length events)%nat then drop 1 events else events]> (lifecycleEvents l)) l).
Definition note (address : string) (t : LifecycleEventType) (from to : option ValidatorState) (now : Z) : Lm unit := fun l =>
  recordLifecycleEvent address (MkEvent t from to (Unix now) (lm_height l)) l.
Definition scheduleTransition (address : string) (target : ValidatorState) (scheduledBlock : Z) : Lm unit := modify (fun l =>
  let block := if scheduledBlock =? 0 then i64 (lm_height l + 1) else scheduledBlock in
  if (length (transitionQueue l) <? 1000)%nat then lm_set_transitions (transitionQueue l ++ [MkTransition address target block]) l else l).

(** ** Voting *)

Definition BeginVoting : Lm unit := l ← get; if votingInProgress l then throw AlreadyVoting else modify (lm_set_voting true).
Definition EndVoting : Lm unit := modify (lm_set_voting false).
Definition canModifyValidatorSet : Lm unit := l ← get; refuse_if (votingInProgress l) VotingInProgress.

(** ** Registration *)

Definition active_count (l : LifecycleManager) : Z := Z.of_nat (length (GetActiveValidators (registry_of (vm_world (lm_manager l))))).
Definition checkPercentageChangeLimit : Lm unit :=
  l ← get;
  if active_count l =? 0 then mret tt
  else
    let registrations := default 0 (epochRegistrations l !! getCurrentEpoch l) in
    refuse_if (f64_lt MaxValidatorChangePercent (f64_mul (f64_div (f64_of_int registrations) (f64_of_int (active_count l))) (f64_of_int 100))) ChangeTooLarge.

Definition balance_of (address : string) : Lm Z := fun l =>
  match on_vm_world (l' ← wrapM (fun _ => AddressMismatch) (ws_GetAccount Keccak256 shardID totalShards address);
                     acc ← on_am (fun _ => AddressMismatch) (load l'); mret (ParseBigInt_bytes (acc_Balance acc))) (lm_manager l) with
  | (Ok b, m) => (Ok b, lm_set_manager m l)
  | (Err _, m) => (Err AccountMissing, lm_set_manager m l)
  | (Panic, m) => (Panic, lm_set_manager m l)
  | (Hang, m) => (Hang, lm_set_manager m l)
  end.
Definition RegisterValidator (clock : nat -> Z) (now : Z) (address : string) (pubkey : list byte) (stake : string) (commission : Z) (selfDelegation : string) : Lm unit :=
  _ ← lift (validateRegistrationRequirements stake commission selfDelegation);
  balance ← balance_of address;
  required ← lift (match SetString10 stake with Some s => Ok s | None => Err InvalidStake end);
  _ ← refuse_if (balance <? required) InsufficientBalance;
  l ← get;
  let epoch := getCurrentEpoch l in
  _ ← refuse_if (MaxValidatorsPerEpoch <=? default 0 (epochRegistrations l !! epoch)) EpochFull;
  _ ← checkPercentageChangeLimit;
  _ ← on_manager (ValidatorManager.RegisterValidator cfg clock address pubkey stake commission);
  v ← on_manager (find_validator address);
  let v := set_status false (val_JailUntil v) v in
  _ ← on_manager (write_validator address v);
  _ ← on_manager (vm_update v);
  _ ← modify (fun l => lm_set_epochs (<[address := epoch]> (registrationEpoch l)) (<[epoch := i64 (default 0 (epochRegistrations l !! epoch) + 1)]> (epochRegistrations l)) l);
  note address EventRegistration None (Some StateRegistered) now.

(** ** Activation, jail *)

Definition ProcessActivation (clock : nat -> Z) (now : Z) (address : string) : Lm unit :=
  _ ← canModifyValidatorSet;
  l ← get;
  registered ← lift (match registrationEpoch l !! address with Some e => Ok e | None => Err NeverRegistered end);
  _ ← refuse_if (getCurrentEpoch l <? i64 (registered + ActivationDelayEpochs)) MustWait;
  v ← on_manager (find_validator address);
  let st := getValidatorState v l in
  _ ← refuse_if (negb (bool_decide (st = StateRegistered) || bool_decide (st = StatePending))) (WrongState st);
  _ ← validateActivationRequirements v;
  _ ← on_manager (ActivateValidator cfg clock address);
  note address EventActivation (Some st) (Some StateActive) now.
Definition ProcessDeactivation (now : Z) (address : string) : Lm unit :=
  _ ← canModifyValidatorSet;
  v ← on_manager (find_validator address);
  l ← get;
  _ ← on_manager (DeactivateValidator (Unix now) address);
  note address EventDeactivation (Some (getValidatorState v l)) (Some StateInactive) now.
Definition ProcessJailing (clock : nat -> Z) (now : Z) (address reason : string) (duration : Z) : Lm unit :=
  v ← on_manager (find_validator address);
  l ← get;
  let blocks := Z.max 1 (Z.quot duration (3 * 1000000000)) in
  let until := i64 (lm_height l + blocks) in
  _ ← on_manager (SlashValidator cfg clock address reason []);
  v' ← on_manager (find_validator address);
  let v' := set_status (val_Active v') until v' in
  _ ← on_manager (write_validator address v');
  _ ← on_manager (vm_update v');
  _ ← note address EventJailing (Some (getValidatorState v l)) (Some StateJailed) now;
  scheduleTransition address StateActive until.
(** The validator is the object of the world state: [UnjailValidator] has changed it
    when the requirements are checked. *)
Definition ProcessUnjailing (clock : nat -> Z) (now : Z) (address : string) : Lm unit :=
  v ← on_manager (find_validator address);
  l ← get;
  _ ← refuse_if (lm_height l <? val_JailUntil v) (StillJailed (val_JailUntil v));
  _ ← on_manager (UnjailValidator cfg clock address);
  v' ← on_manager (find_validator address);
  l' ← get;
  _ ← (if qualified v' l' then ignored (on_manager (ActivateValidator cfg clock address)) else mret tt);
  note address EventUnjailing (Some (getValidatorState v l)) (Some StateActive) now.

(** ** Stake *)

Definition unbonding_key (address : string) (height : Z) : string := address +:+ "-" +:+ String10 height.
(** The entry is in the queue before the amount is checked. *)
Definition startUnbonding (address amount : string) : Lm unit :=
  v ← on_manager (find_validator address);
  l ← get;
  let h := lm_height l in
  _ ← modify (fun l => lm_set_unbonding (<[unbonding_key address h := MkVUnbonding address "" amount (i64 (h + UnbondingPeriodBlocks)) h]> (unbondingValidators l)) l);
  decrease ← lift (match SetString10 amount with Some d => Ok d | None => Err InvalidDecrease end);
  let stake := stake_of v - decrease in
  _ ← refuse_if (stake <? 0) BelowZero;
  let v := set_stakes (Bytes stake) (val_SelfStake v) (val_DelegatedStake v) (val_Delegators v) v in
  _ ← on_manager (write_validator address v);
  on_manager (vm_update v).
Definition ProcessStakeChange (now : Z) (address oldStake newStake : string) : Lm unit :=
  v ← on_manager (find_validator address);
  l ← get;
  let st := getValidatorState v l in
  let new := default 0 (SetString10 newStake) in
  let delta := new - default 0 (SetString10 oldStake) in
  _ ← (if 0 <? delta then mret tt else startUnbonding address (String10 (- delta)));
  _ ← (if (new <? default 0 (SetString10 (vc_MinValidatorStake cfg))) && bool_decide (st = StateActive) then ignored (ProcessDeactivation now address) else mret tt);
  note address (if 0 <? delta then EventStakeIncrease else EventStakeDecrease) (Some st) (Some st) now.

(** The balance of the account grows; [false] when there is no account.  The write to
    the store may fail: nobody looks. *)
Definition credit (address : string) (amount : Z) : GoM Manager vm_err bool := fun m =>
  match ws_GetAccount Keccak256 shardID totalShards address (vm_world m) with
  | (Ok l, w) =>
      (_ ← attempt (on_vm_world (
             acc ← on_am (fun _ => AddressMismatch) (load l);
             _ ← on_am (fun _ => AddressMismatch) (assign l (set_Balance (Bytes (ParseBigInt_bytes (acc_Balance acc) + amount))));
             guarded (Lock address) (Unlock address) (
               _ ← on_am (fun _ => AddressMismatch) (UpdateAccount Keccak256 shardID totalShards l);
               on_am (fun _ => AddressMismatch) (db_SaveAccount l))));
       mret true) (vm_set_world w m)
  | (Err _, w) => (Ok false, vm_set_world w m)
  | (Panic, w) => (Panic, vm_set_world w m)
  | (Hang, w) => (Hang, vm_set_world w m)
  end.
Definition forget_entry (now : Z) (key : string) (e : VUnbondingEntry) : Lm unit :=
  _ ← note (vu_ValidatorAddress e) EventUnbondingComplete None None now;
  modify (fun l => lm_set_unbonding (delete key (unbondingValidators l)) l).
Definition complete_entry (now : Z) (key : string) (e : VUnbondingEntry) : Lm unit :=
  l ← get;
  if lm_height l <? vu_CompletionBlock e then mret tt
  else match SetString10 (vu_Amount e) with
       | None => mret tt
       | Some amount =>
           paid ← on_manager (credit (vu_ValidatorAddress e) amount);
           if paid : bool then forget_entry now key e else mret tt
       end.
(** [order] lists the keys in the order the map is walked. *)
Fixpoint complete_all (now : Z) (order : list string) : Lm unit :=
  match order with
  | [] => mret tt
  | key :: order =>
      l ← get;
      _ ← (match unbondingValidators l !! key with Some e => complete_entry now key e | None => mret tt end);
      complete_all now order
  end.
Definition processCompletedUnbonding (now : Z) (order : list string) : Lm unit := complete_all now order.

(** ** Performance and the worker *)

Definition activationThreshold : float64 := f64_const 8 10.
Definition deactivationThreshold : float64 := f64_const 3 10.
Definition ProcessPerformanceUpdate (now : Z) (address : string) (score : float64) : Lm unit :=
  v ← on_manager (find_validator address);
  l ← get;
  let st := getValidatorState v l in
  _ ← (match st with
       | StateActive => if f64_lt score deactivationThreshold then scheduleTransition address StateDeactivating (i64 (lm_height l + 10)) else mret tt
       | StateInactive | StateRegistered => if f64_le activationThreshold score then scheduleTransition address StatePending (i64 (lm_height l + 10)) else mret tt
       | _ => mret tt
       end);
  note address EventPerformanceUpdate (Some st) (Some st) now.

(** A transition that is not due goes back to the queue a second later. *)
Definition requeue (t : LifecycleTransition) : Lm unit := modify (fun l =>
  if (length (transitionQueue l) <? 1000)%nat then lm_set_transitions (transitionQueue l ++ [t]) l else l).
Definition processScheduledTransition (clock : nat -> Z) (now : Z) (t : LifecycleTransition) : Lm unit :=
  l ← get;
  if lm_height l <? tr_ScheduledBlock t then requeue t
  else match tr_TargetState t with
       | StatePending =>
           match vm_validators (lm_manager l) !! tr_ValidatorAddress t with
           | Some v => if qualified v l then ignored (ProcessActivation clock now (tr_ValidatorAddress t)) else mret tt
           | None => mret tt
           end
       | StateActive => ignored (ProcessUnjailing clock now (tr_ValidatorAddress t))
       | StateDeactivating => ignored (ProcessDeactivation now (tr_ValidatorAddress t))
       | _ => mret tt
       end.
Fixpoint unjail_due (clock : nat -> Z) (now : Z) (vs : list Validator) : Lm unit :=
  match vs with
  | [] => mret tt
  | v :: vs =>
      l ← get;
      _ ← (if (0 <? val_JailUntil v) && (val_JailUntil v <=? lm_height l) then ignored (ProcessUnjailing clock now (val_Address v)) else mret tt);
      unjail_due clock now vs
  end.
Definition performPeriodicChecks (clock : nat -> Z) (now : Z) (order : list string) : Lm unit :=
  _ ← processCompletedUnbonding now order;
  l ← get;
  unjail_due clock now (GetActiveValidators (registry_of (vm_world (lm_manager l)))).

Definition GetLifecycleEvents (address : string) (l : LifecycleManager) : list LifecycleEvent := default [] (lifecycleEvents l !! address).
End Lifecycle.
