(* ===== verification/LifecycleSpec.v ===== *)
(** * What the life cycle of a validator guarantees, and what it loses *)

From S2P Require Import Prelude SafeMath Uint256 Address Storage AccountManager AccountSpec ShardedLock Governance Domains EvmGas World.
From S2P Require Import Executor ExecutorSpec ExecutorThms Floats Inflation InflationSpec ValidatorManager ValidatorSpec Lifecycle.
From stdpp Require Import base tactics numbers list gmap strings sorting.
From Stdlib Require Import ZArith Lia Strings.Byte Strings.Ascii.
Open Scope Z_scope.
Open Scope list_scope.

Section LifecycleSpec.
Context `{MapOrder} {C F : Type} `{LRU C} `{Json stakeDomainMembers} `{Json queue}.
Context (Keccak256 : list byte -> list byte) (shardID totalShards : Z) (cfg : ValidatorConfig).
Notation Lif := (@LifecycleManager C F).
Notation Lm := (GoM Lif lm_err).

(** ** Registrations per epoch *)

Definition admitted (epoch : Z) (l : Lif) : Z := default 0 (epochRegistrations l !! epoch).
Definition within (l : Lif) : Prop := forall e, 0 <= admitted e l <= MaxValidatorsPerEpoch.
(** Room for one more in an epoch. *)
Definition room (epoch : Z) (l : Lif) : Prop := within l /\ admitted epoch l < MaxValidatorsPerEpoch.

(** [m] takes states with [P] to states with [Q], whatever it returns. *)
Definition carries {A} (P Q : Lif -> Prop) (m : Lm A) : Prop := forall l, P l -> Q (m l).2.
Lemma carries_bind {A B} (P Q : Lif -> Prop) (m : Lm A) (f : A -> Lm B) :
  preserves P m -> (forall l, P l -> Q l) -> (forall a, carries P Q (f a)) -> carries P Q (m ≫= f).
Proof.
  intros Hm HPQ Hf l Hl. specialize (Hm l Hl). unfold mbind, GoM_bind. destruct (m l) as [[a|e| |] l']; simpl in *; [by apply Hf|auto..].
Qed.

(** A property of the registrations only. *)
Definition counts (P : Lif -> Prop) : Prop := forall l l', epochRegistrations l' = epochRegistrations l -> P l -> P l'.
Lemma counts_within : counts within.
Proof. intros l l' He Hl e. unfold admitted. rewrite He. apply Hl. Qed.
Lemma counts_room e : counts (room e).
Proof. intros l l' He [Hw Hr]. split; [by eapply counts_within|]. unfold admitted in *. by rewrite He. Qed.

Section Frame.
Context (P : Lif -> Prop) (HP : counts P).

Lemma on_manager_keeps {A} (f : GoM (@Manager C F) vm_err A) : preserves P (on_manager f).
Proof. intros l Hl. unfold on_manager. destruct (f (lm_manager l)) as [r m]. by eapply HP; [|exact Hl]. Qed.
Lemma modify_keeps (f : Lif -> Lif) : (forall l, epochRegistrations (f l) = epochRegistrations l) -> preserves P (modify f : Lm unit).
Proof. intros Hf l Hl. simpl. by eapply HP; [apply Hf|]. Qed.
Lemma record_keeps a e : preserves P (recordLifecycleEvent a e : Lm unit).
Proof. by apply modify_keeps. Qed.
Lemma note_keeps a t from to now : preserves P (note a t from to now : Lm unit).
Proof. intros l Hl. unfold note. by apply record_keeps. Qed.
Lemma schedule_keeps a t b : preserves P (scheduleTransition a t b : Lm unit).
Proof. apply modify_keeps. intros l. by destruct (_ <? _)%nat. Qed.
Lemma requeue_keeps t : preserves P (requeue t : Lm unit).
Proof. apply modify_keeps. intros l. by destruct (_ <? _)%nat. Qed.
Lemma validate_keeps v : preserves P (validateActivationRequirements cfg v : Lm unit).
Proof. by intros l Hl. Qed.
Lemma balance_keeps a : preserves P (balance_of Keccak256 shardID totalShards a : Lm Z).
Proof. intros l Hl. unfold balance_of. destruct (on_vm_world _ _) as [[b|e| |] m]; by eapply HP; [|exact Hl]. Qed.
Lemma ignored_keeps {A} (f : Lm A) : preserves P f -> preserves P (ignored f).
Proof. intros Hf l Hl. specialize (Hf l Hl). unfold ignored. by destruct (f l) as [[a|e| |] l']. Qed.
Lemma voting_keeps b : preserves P (modify (lm_set_voting b) : Lm unit).
Proof. by apply modify_keeps. Qed.
End Frame.
Hint Resolve on_manager_keeps record_keeps note_keeps schedule_keeps requeue_keeps validate_keeps balance_keeps ignored_keeps voting_keeps counts_within counts_room : preserves.

Ltac keep_step :=
  match goal with
  | |- preserves _ (_ ≫= _) => apply preserves_bind; [|intros ?]
  | |- preserves _ (match ?x with _ => _ end) => destruct x
  | |- preserves _ (lift _) => apply preserves_lift
  | |- preserves _ (refuse_if _ _) => apply preserves_refuse_if
  | |- preserves _ (mret _) => apply preserves_ret
  | |- preserves _ (throw _) => apply preserves_throw
  | |- preserves _ get => apply preserves_get
  | |- preserves _ (ignored _) => apply ignored_keeps
  | |- preserves _ (modify _) => apply modify_keeps; [done|by intros ?]
  | |- _ => progress cbv zeta
  | |- preserves _ _ => solve [auto 2 with preserves]
  end.
Ltac keep := repeat keep_step.

Lemma change_keeps P : counts P -> preserves P (checkPercentageChangeLimit : Lm unit).
Proof. intros HP. unfold checkPercentageChangeLimit. keep. Qed.
Lemma deactivation_keeps P now a : counts P -> preserves P (ProcessDeactivation cfg now a : Lm unit).
Proof. intros HP. unfold ProcessDeactivation, canModifyValidatorSet. keep. Qed.
Lemma activation_keeps P clock now a : counts P -> preserves P (ProcessActivation cfg clock now a : Lm unit).
Proof. intros HP. unfold ProcessActivation, canModifyValidatorSet. keep. Qed.
Lemma jailing_keeps P clock now a r d : counts P -> preserves P (ProcessJailing cfg clock now a r d : Lm unit).
Proof. intros HP. unfold ProcessJailing. keep. Qed.
Lemma unjailing_keeps P clock now a : counts P -> preserves P (ProcessUnjailing cfg clock now a : Lm unit).
Proof. intros HP. unfold ProcessUnjailing. keep. Qed.
Lemma unbonding_keeps P a x : counts P -> preserves P (startUnbonding a x : Lm unit).
Proof. intros HP. unfold startUnbonding. keep. Qed.
Hint Resolve change_keeps deactivation_keeps activation_keeps jailing_keeps unjailing_keeps unbonding_keeps : preserves.
Lemma stake_keeps P now a x y : counts P -> preserves P (ProcessStakeChange cfg now a x y : Lm unit).
Proof. intros HP. unfold ProcessStakeChange. keep. Qed.
Lemma performance_keeps P now a score : counts P -> preserves P (ProcessPerformanceUpdate cfg now a score : Lm unit).
Proof. intros HP. unfold ProcessPerformanceUpdate. keep. Qed.
Lemma transition_keeps P clock now t : counts P -> preserves P (processScheduledTransition cfg clock now t : Lm unit).
Proof. intros HP. unfold processScheduledTransition. keep. Qed.
Lemma complete_keeps P now order : counts P -> preserves P (complete_all Keccak256 shardID totalShards now order : Lm unit).
Proof.
  intros HP. induction order as [|key order IH]; cbn [complete_all]; [keep|]. apply preserves_bind; [keep|intros l]. apply preserves_bind; [|intros _; exact IH].
  unfold complete_entry, forget_entry. keep.
Qed.
Lemma unjail_due_keeps P clock now vs : counts P -> preserves P (unjail_due cfg clock now vs : Lm unit).
Proof.
  intros HP. induction vs as [|v vs IH]; cbn [unjail_due]; [keep|]. apply preserves_bind; [keep|intros l]. apply preserves_bind; [keep|intros _; exact IH].
Qed.
Lemma periodic_keeps P clock now order : counts P -> preserves P (performPeriodicChecks Keccak256 shardID totalShards cfg clock now order : Lm unit).
Proof.
  intros HP. unfold performPeriodicChecks, processCompletedUnbonding. apply preserves_bind; [by apply complete_keeps|intros _]. apply preserves_bind; [keep|intros l; by apply unjail_due_keeps].
Qed.

Lemma registration_within clock now a pk stake c d : preserves within (RegisterValidator Keccak256 shardID totalShards cfg clock now a pk stake c d : Lm unit).
Proof.
  unfold RegisterValidator. do 4 (apply preserves_bind; [keep|intros ?]). intros l Hl. unfold mbind at 1, GoM_bind at 1, get. cbv zeta.
  unfold mbind at 1, GoM_bind at 1, refuse_if at 1. fold (admitted (getCurrentEpoch l) l).
  destruct (Z.leb_spec MaxValidatorsPerEpoch (admitted (getCurrentEpoch l) l)) as [|Hlt]; [done|]. cbn [mret GoM_ret].
  generalize (getCurrentEpoch l) Hlt. intros ep Hroom.
  match goal with |- within ((?f) l).2 => enough (Hc : carries (room ep) within f) by (apply Hc; done) end.
  assert (Hrw : forall l, room ep l -> within l) by (by intros l' [Hw _]).
  do 5 (apply carries_bind; [keep|done|intros ?]).
  intros l' [Hw Hr]. unfold mbind at 1, GoM_bind at 1, modify. apply (note_keeps within counts_within). intros e. unfold admitted. simpl.
  destruct (decide (e = ep)) as [->|Hne]; [|rewrite lookup_insert_ne by done; apply Hw]. rewrite lookup_insert_eq. simpl. fold (admitted ep l').
  specialize (Hw ep). unfold MaxValidatorsPerEpoch in *. rewrite i64_id by (unfold_ints; lia). lia.
Qed.

(** The calls of the manager and of its worker. *)
Inductive lifecycle_op : Type :=
| Register (clock : nat -> Z) (now : Z) (a : string) (pk : list byte) (stake : string) (c : Z) (d : string)
| Activate (clock : nat -> Z) (now : Z) (a : string) | Deactivate (now : Z) (a : string)
| Jail (clock : nat -> Z) (now : Z) (a r : string) (d : Z) | Unjail (clock : nat -> Z) (now : Z) (a : string)
| StakeChange (now : Z) (a x y : string) | Performance (now : Z) (a : string) (score : float64)
| Transition (clock : nat -> Z) (now : Z) (t : LifecycleTransition) | Periodic (clock : nat -> Z) (now : Z) (order : list string)
| Voting (b : bool) | Elsewhere (m : @Manager C F).
Definition op_run (o : lifecycle_op) : Lm unit :=
  match o with
  | Register clock now a pk stake c d => RegisterValidator Keccak256 shardID totalShards cfg clock now a pk stake c d
  | Activate clock now a => ProcessActivation cfg clock now a
  | Deactivate now a => ProcessDeactivation cfg now a
  | Jail clock now a r d => ProcessJailing cfg clock now a r d
  | Unjail clock now a => ProcessUnjailing cfg clock now a
  | StakeChange now a x y => ProcessStakeChange cfg now a x y
  | Performance now a score => ProcessPerformanceUpdate cfg now a score
  | Transition clock now t => processScheduledTransition cfg clock now t
  | Periodic clock now order => performPeriodicChecks Keccak256 shardID totalShards cfg clock now order
  | Voting b => if b then BeginVoting else EndVoting
  | Elsewhere m => modify (lm_set_manager m)       (* new blocks, other users of the manager *)
  end.
Lemma op_within o : preserves within (op_run o).
Proof.
  pose proof counts_within as HP. destruct o; cbn [op_run]; eauto using registration_within, activation_keeps, deactivation_keeps, jailing_keeps, unjailing_keeps, stake_keeps, performance_keeps, transition_keeps, periodic_keeps.
  - destruct b; [unfold BeginVoting; keep|by apply voting_keeps].
  - by apply modify_keeps.
Qed.

(** Whatever is called in whatever order, at most 100 validators are registered
    in an epoch. *)
Theorem registrations_are_rationed ops (m : @Manager C F) epoch :
  0 <= admitted epoch (fold_left (fun l o => (op_run o l).2) ops (NewLifecycleManager m)) <= MaxValidatorsPerEpoch.
Proof.
  revert epoch. change (within (fold_left (fun l o => (op_run o l).2) ops (NewLifecycleManager m))).
  assert (H0' : within (NewLifecycleManager m)) by (intros e; unfold admitted; simpl; rewrite lookup_empty; simpl; unfold MaxValidatorsPerEpoch; lia).
  revert H0'. generalize (NewLifecycleManager m). induction ops as [|o ops IH]; intros l Hl; simpl; [done|]. apply IH. by apply op_within.
Qed.

(** ** Activation *)

(** A validator is activated only 900 epochs after its registration, while no
    vote is under way, and only when it is out of jail and has the stakes required. *)
Theorem activation_is_earned clock now a (l l' : Lif) :
  ProcessActivation cfg clock now a l = (Ok tt, l') ->
  votingInProgress l = false /\
  (exists e, registrationEpoch l !! a = Some e /\ i64 (e + ActivationDelayEpochs) <= getCurrentEpoch l) /\
  exists v, vm_validators (lm_manager l) !! a = Some v /\ min_stake cfg <= stake_of v /\
    ParseBigInt_string (vc_MinSelfStake cfg) <= ParseBigInt_bytes (val_SelfStake v) /\ val_JailUntil v <= lm_height l /\ val_Active v = false.
Proof.
  unfold ProcessActivation, canModifyValidatorSet, mbind, GoM_bind, get, refuse_if, lift. cbv zeta.
  destruct (votingInProgress l); [done|]. cbn [mret GoM_ret]. destruct (registrationEpoch l !! a) as [e|]; [|done].
  destruct (Z.ltb_spec (getCurrentEpoch l) (i64 (e + ActivationDelayEpochs))) as [|He]; [done|]. cbn [mret GoM_ret].
  unfold on_manager at 1, find_validator. destruct (vm_validators (lm_manager l) !! a) as [v|] eqn:Hv; [|done]. cbn [wrap].
  destruct (negb _) eqn:Hst; [done|]. cbn [mret GoM_ret]. unfold validateActivationRequirements, qualified.
  change (lm_height (lm_set_manager (lm_manager l) l)) with (lm_height l).
  destruct (Z.ltb_spec (stake_of v) (min_stake cfg)); [done|]. destruct (Z.ltb_spec (ParseBigInt_bytes (val_SelfStake v)) (ParseBigInt_string (vc_MinSelfStake cfg))); [done|].
  destruct (Z.ltb_spec (lm_height l) (val_JailUntil v)) as [|Hj]; [done|]. intros _. split; [done|]. split; [by exists e|]. exists v. split_and!; [done|lia|lia|lia|].
  revert Hst. unfold getValidatorState. rewrite (proj2 (Z.ltb_ge _ _) Hj). destruct (val_Active v); [|done]. by rewrite !bool_decide_eq_false_2 by done.
Qed.

(** ** Jail *)

(** Nobody leaves jail: with the readings of the clock in one call equal,
    [ProcessUnjailing] refuses every validator and changes nothing, so what the worker
    schedules for the end of a sentence has no effect. *)
Theorem jail_has_no_end clock now a (l : Lif) :
  vm_mu (lm_manager l) = unlocked -> clock 1%nat = clock 0%nat ->
  (exists e, ProcessUnjailing cfg clock now a l = (Err e, l)) /\
  (forall b, b <= lm_height l -> processScheduledTransition cfg clock now (MkTransition a StateActive b) l = (Ok tt, l)).
Proof.
  intros Hmu Hc.
  assert (Hu : exists e, ProcessUnjailing cfg clock now a l = (Err e, l)).
  { destruct (unjail_refused cfg clock a (lm_manager l) Hmu Hc) as [e He]. assert (Hid : lm_set_manager (lm_manager l) l = l) by (by destruct l).
    unfold ProcessUnjailing, mbind, GoM_bind, get, refuse_if. unfold on_manager at 1, find_validator. destruct (vm_validators (lm_manager l) !! a) as [v|]; cbn [wrap]; rewrite Hid; [|by eexists].
    destruct (_ <? _); [by eexists|]. cbn [mret GoM_ret]. unfold on_manager at 1. rewrite He. cbn [wrap]. rewrite Hid. by eexists. }
  split; [done|]. intros b Hb. destruct Hu as [e He]. unfold processScheduledTransition, mbind, GoM_bind, get. cbn [tr_ScheduledBlock tr_TargetState tr_ValidatorAddress].
  rewrite (proj2 (Z.ltb_ge _ _) Hb). unfold ignored. by rewrite He.
Qed.

(** ** Withdrawing stake *)

(** A decrease by more than the stake is refused and leaves the validator as it
    was, and yet the full amount stands in the queue and will be paid out. *)
Theorem refused_decrease_is_queued now a oldStake newStake (l : Lif) v old new :
  vm_validators (lm_manager l) !! a = Some v -> SetString10 oldStake = Some old -> SetString10 newStake = Some new -> stake_of v < old - new ->
  exists l', ProcessStakeChange cfg now a oldStake newStake l = (Err BelowZero, l') /\ lm_manager l' = lm_manager l /\
    exists e, unbondingValidators l' !! unbonding_key a (lm_height l) = Some e /\ vu_ValidatorAddress e = a /\ SetString10 (vu_Amount e) = Some (old - new) /\
      vu_CompletionBlock e = i64 (lm_height l + UnbondingPeriodBlocks).
Proof.
  intros Hv Ho Hn Hlt. pose proof (ParseBigInt_bytes_nonneg (val_Stake v)) as Hnn. fold (stake_of v) in Hnn.
  assert (Hid : lm_set_manager (lm_manager l) l = l) by (by destruct l).
  unfold ProcessStakeChange, mbind, GoM_bind, get. unfold on_manager at 1, find_validator. rewrite Hv. cbn [wrap]. rewrite Hid, Ho, Hn. cbn [default from_option]. unfold id.
  destruct (Z.ltb_spec 0 (new - old)); [lia|]. unfold startUnbonding, mbind, GoM_bind, get. unfold on_manager at 1, find_validator. rewrite Hv. cbn [wrap]. rewrite Hid.
  unfold modify, lift, refuse_if. rewrite SetString10_String10. destruct (Z.ltb_spec (stake_of v - - (new - old)) 0); [|lia]. cbn [throw]. eexists. split; [reflexivity|]. split; [done|].
  eexists. simpl. rewrite lookup_insert_eq. split; [reflexivity|]. cbn. rewrite SetString10_String10. split_and!; [done|f_equal; lia|done].
Qed.
End LifecycleSpec.

(** ** A concrete life *)

Module LifeDemo.
#[local] Existing Instance Demo.demo_LRU5.
#[local] Existing Instance Demo.members_json.
#[local] Existing Instance Demo.queue_json.
Notation life := (@LifecycleManager (list (string * loc)) permille).
Definition begun : life := NewLifecycleManager Demo.manager.

Lemma refused_decrease_is_queued_witness :
  exists l', ProcessStakeChange Demo.rules 0 bob "5000" "100" begun = (Err BelowZero, l') /\ lm_manager l' = lm_manager begun /\
    exists e, unbondingValidators l' !! unbonding_key bob (lm_height begun) = Some e /\ vu_ValidatorAddress e = bob /\ SetString10 (vu_Amount e) = Some (5000 - 100) /\
      vu_CompletionBlock e = i64 (lm_height begun + UnbondingPeriodBlocks).
Proof.
  exact (refused_decrease_is_queued Demo.rules 0 bob "5000" "100" begun Demo.demo_v 5000 100 ltac:(vm_compute; reflexivity) ltac:(vm_compute; reflexivity)
    ltac:(vm_compute; reflexivity) ltac:(vm_compute; reflexivity)).
Defined.

(** The refused 4900 are paid to the account when the period is over. *)
Definition refused : life := (ProcessStakeChange Demo.rules 0 bob "5000" "100" begun).2.
Definition later (h : Z) (l : life) : life := lm_set_manager (Demo.at_height h (lm_manager l)) l.
Definition paid_out : life := (processCompletedUnbonding no_hash BeaconShardID 1 0 [unbonding_key bob 200] (later 300000 refused)).2.
Definition balance (l : life) : outcome lm_err Z := (balance_of no_hash BeaconShardID 1 bob l).1.
Example refused_decrease_is_paid :
  match balance begun, balance paid_out with Ok x, Ok y => y = x + 4900 | _, _ => False end /\ stake_of <$> vm_validators (lm_manager paid_out) !! bob = Some 1000.
Proof. vm_compute. done. Qed.

(** Two decreases in the same block: the second entry replaces the first. *)
Definition twice : life := (ProcessStakeChange Demo.rules 0 bob "900" "800" (ProcessStakeChange Demo.rules 0 bob "1000" "900" begun).2).2.
Example second_decrease_replaces_the_first :
  map_sum (fun e => ParseBigInt_string (vu_Amount e)) (unbondingValidators twice) = 100 /\ stake_of <$> vm_validators (lm_manager twice) !! bob = Some 800.
Proof. vm_compute. done. Qed.

(** A validator registered in epoch 0, at the start of epoch 900. *)
Definition waiting : life :=
  lm_set_epochs {[bob := 0]} {[0 := 1]} (later 28800 (lm_set_manager (write_validator bob (set_status false 0 Demo.demo_v) Demo.manager).2 begun)).
Lemma activation_runs : (ProcessActivation Demo.rules Demo.tick 0 bob waiting).1 = Ok tt.
Proof. vm_compute. reflexivity. Qed.
Lemma activation_is_earned_witness :
  ProcessActivation Demo.rules Demo.tick 0 bob waiting = (Ok tt, (ProcessActivation Demo.rules Demo.tick 0 bob waiting).2) /\
  votingInProgress waiting = false /\
  (exists e, registrationEpoch waiting !! bob = Some e /\ i64 (e + ActivationDelayEpochs) <= getCurrentEpoch waiting) /\
  exists v, vm_validators (lm_manager waiting) !! bob = Some v /\ min_stake Demo.rules <= stake_of v /\
    ParseBigInt_string (vc_MinSelfStake Demo.rules) <= ParseBigInt_bytes (val_SelfStake v) /\ val_JailUntil v <= lm_height waiting /\ val_Active v = false.
Proof.
  pose proof (pair_of_fst (ProcessActivation Demo.rules Demo.tick 0 bob waiting) (Ok tt) activation_runs) as Hrun.
  split; [exact Hrun|]. exact (activation_is_earned Demo.rules Demo.tick 0 bob waiting _ Hrun).
Defined.

Lemma jail_has_no_end_witness :
  (exists e, ProcessUnjailing Demo.rules (fun _ => 1000) 0 bob begun = (Err e, begun)) /\
  (forall b, b <= lm_height begun -> processScheduledTransition Demo.rules (fun _ => 1000) 0 (MkTransition bob StateActive b) begun = (Ok tt, begun)).
Proof. exact (jail_has_no_end Demo.rules (fun _ => 1000) 0 bob begun eq_refl eq_refl). Defined.
End LifeDemo.
